(* ===== verification/_CoqProject ===== *)
-Q . S2P
Prelude.v
Types.v
Ring.v
Spsc.v
Fifo.v
Control.v
DecInput.v
Bytes.v
Reservoir.v
Decoder.v
Pcm.v
Graph.v
Float.v
Dsp.v
Design.v
Nodes.v
Sync.v
BtIngress.v
BtDecoder.v
BtVolume.v
SinkNull.v
I2sCore.v
Text.v
LmsProtocol.v
Net.v
WsEncode.v
WsRx.v
WsDeliver.v
Json.v
JsonRender.v
JsonFields.v
Messages.v
MessageSpec.v
MessageSafe.v
Wav.v
LmsClient.v
LmsSafe.v
LmsDecode.v
LmsStep.v
Player.v
TimeFilter.v
Rate.v
SendspinPlayer.v
SendspinSafe.v
SendspinPcm.v
SendspinClient.v
SendspinHost.v
SendspinClientSafe.v
SendspinSession.v
DecShared.v
DecReads.v
DecOpus.v
DecMp3.v
DecFlac.v
FloatQ31.v
DecVorbis.v
SbcOi.v
HalTcp.v
Gains.v
BoardOutput.v
BoardSafe.v
BoardSession.v
BtEspIdf.v
Speaker.v
SpeakerSafe.v
SpeakerSession.v
SinkAlsa.v
HalOs.v
OsPools.v
OsEspIdf.v
OsZephyr.v
HalPools.v
I2sEspIdf.v
I2sZephyr.v
BtZephyr.v
Ota.v
LogBuffer.v
Diagnostics.v
HalFile.v
Amp.v
