(* ===== verification/Prelude.v ===== *)
(** * Embedded Audio Framework: verification library

    A shallow embedding of the core of the framework, with the theorems that
    make its parts correct.  Paths are relative to [src/].

    ** The program and the library

    Audio reaches the framework from a file, from Bluetooth, from a Lyrion (LMS)
    server or from a Sendspin server; a transport thread decodes it into a PCM
    reservoir; an audio thread pulls blocks from the reservoir through a chain of
    nodes into a sink.  Every part below has one file; its state is a record with
    the fields of the C struct and each C function is the definition of its name
    (a C function that is long is cut into definitions named after what they do,
    with the lines they translate in their comment).

    - [Types] ([include/eaf/eaf_types.h], [core/eaf_types.c]): result codes,
      formats, buffers, sample conversions.
    - [Bytes] ([include/eaf/eaf_bytes.h]), [Text] (C strings): byte helpers.
    - [Ring], [Fifo], [Spsc]: shared mathematics of the queues: a ring's content
      as a list, the contract of a bounded FIFO (class), and the
      single-producer single-consumer protocol as a step relation on atomic
      accesses.
    - [Control] ([core/eaf_control.c]): the command queue, an instance of [Fifo]
      and of [Spsc].
    - [Reservoir] ([core/eaf_reservoir.c]): PCM reservoir, underrun ramp, end of
      stream.
    - [DecInput] ([core/eaf_dec_input.c]): the ring in front of pull decoders.
    - [Decoder] ([core/eaf_decoder.c]): the adapter contract (class
      [DecoderLaws]) and the decode worker; [Pcm], [DecOpus], [DecMp3] and
      [DecVorbis] ([apps/decoders/dec_pcm.c], [dec_opus.c], [dec_mp3.c],
      [dec_vorbis.c]) are instances of the contract; [DecFlac] ([dec_flac.c])
      meets it on streams of the configured channels only; [SbcOi] ([sbc_oi.c])
      meets the contract of the Bluetooth decoder.  [DecShared] has the frames
      they produce, [DecReads] the libraries that read through a callback.
    - [Wav] ([apps/decoders/dec_wav.c]): the RIFF/WAVE source.
    - [Graph] ([core/eaf_graph.c]): the pipeline of nodes between the reservoir
      and the sink; [Dsp], [Design], [Nodes] ([core/eaf_dsp.c]): the
      built-in nodes, their samples, their coefficients in double precision and
      their tables of callbacks; [Sync], [Rate]
      ([core/eaf_sync.c]): the resampler and the clock-rate controller.
    - [Player] ([apps/player/eaf_player.c]): the file player, which joins source,
      reservoir, pipeline and sink, and its decoder thread.
    - [SinkNull], [I2sCore] ([hal/common]): the null sink and the shared part of
      the I2S sinks.
    - [BtIngress], [BtDecoder], [BtVolume] ([apps/bt]): the Bluetooth source.
    - [LmsProtocol] ([apps/lms/lms_protocol.c]), [LmsClient]
      ([apps/lms/lms_client.c]): the LMS protocol and its client; [LmsSafe]
      states the client's invariant, [LmsDecode] the correctness of its decoder,
      [LmsStep] the safety of every call of its interface.
    - [WsEncode], [WsRx] ([apps/sendspin/sendspin_ws.c]): the two halves of the
      WebSocket layer, with [WsDeliver] on what reaches the callback; [Json], [Messages] ([apps/sendspin/sendspin_protocol.c]):
      the JSON reader and the messages, with [JsonRender], [JsonFields] and
      [MessageSpec] relating them to JSON trees and their text and [MessageSafe]
      on arbitrary input; [TimeFilter]
      ([apps/sendspin/sendspin_sync.c]): the clock filter;
      [SendspinPlayer] ([apps/sendspin/sendspin_player.c]): decoding, rate control
      and delivery of the received audio, with [SendspinSafe] (invariant and
      sessions) and [SendspinPcm] (content of PCM chunks).
    - [SendspinClient] ([apps/sendspin/sendspin_client.c]): connection, upgrade,
      handshake, clock exchanges and dispatch of the server's messages, over the
      receiver, the messages and the clock filter; [SendspinHost] has the texts of
      the upgrade, [SendspinClientSafe] the invariant of every call,
      [SendspinSession] the theorems of a session and a scripted server.
    - [Net] ([include/eaf/eaf_net.h]): sockets and the clock, the class both
      clients are written against; [HalTcp] ([hal/net/tcp_impl.h]) is its
      instance on POSIX sockets.
    - [Gains], [BoardOutput] ([platform/esp32_output/board_output.c]): the owner of
      reservoir, pipeline and audio thread on a board, with [BoardSafe] (invariant)
      and [BoardSession] (sessions of its transport and its audio thread).
    - [HalOs] ([hal/linux/hal_os_linux.c]), [OsPools], [OsEspIdf], [OsZephyr]
      ([hal/esp_idf/hal_os_esp_idf.c], [hal/zephyr/hal_os_zephyr.c]): threads,
      semaphores and time; [HalPools] states what the two with static pools promise
      as one class.
    - [SinkAlsa] ([hal/linux/sink_alsa.c]); [I2sEspIdf], [I2sZephyr]
      ([hal/esp_idf/sink_i2s_esp_idf.c], [hal/zephyr/sink_i2s_zephyr.c]), which
      discharge the laws [I2sCore] asks of a backend.
    - [BtEspIdf], [BtZephyr] ([hal/esp_idf/bt_a2dp_esp_idf.c],
      [hal/zephyr/bt_a2dp_zephyr.c]): the A2DP bindings, which feed [BtIngress];
      [Speaker] ([platform/esp_idf_bt/components/main/speaker.c]
      and [speaker_gap.c], [speaker_avrcp.c], [speaker_nvs.c]): the control part
      of the Bluetooth speaker, with [SpeakerSafe] and [SpeakerSession].
    - [Ota], [LogBuffer], [Diagnostics] ([platform/esp32_common/ota_mcuboot.c],
      [log_buffer.c], [diagnostics.c]): firmware update, log and web server.
    - [HalFile] ([hal/linux/hal_file_linux.c]): files, which give [Wav] its reader;
      [Amp] ([platform/esp32_common/tas5805m.c], [tas5805m_zephyr.c],
      [platform/esp_idf_bt/components/main/amp.c]): the amplifier of the boards.
    - [Float]: binary64 arithmetic, with the bounds its users need; [FloatQ31]:
      single precision samples to Q1.31 ([eaf_float_to_q31]).

    ** How C is modelled

    An operation that can have undefined behaviour returns [ub] (an option):
    [None] is an access outside an array, a division by zero, a signed overflow
    or a NULL callback.  A theorem that an operation returns [Some] is therefore
    a safety theorem.  Machine integers are [Z] with the wrap-around written out
    ([u32], [s32], ...).  An array is a list, read and written at checked
    indices ([ld], [st], [ldn], [stn], [memcpy], [memset]); a pointer that the
    code compares with NULL is a [ptr] (an option).  Callbacks, drivers, sockets
    and clocks are functions on an abstract world [W], parameters of the model;
    what the code relies on is a class or a predicate of laws, and each theorem
    that needs it is instantiated at a concrete one in its witness.  The codec
    libraries are classes too: an object type with the functions the adapters
    call.  A library that pulls its input is a program of reads ([DecReads.reads]),
    finite on every answer, which the adapter's callback answers from its ring;
    [DecReads.read_all] runs the same program on the whole stream.

    A [double] is the Standard Library's [spec_float] at 53 bits of precision and
    exponents up to 1024, rounded to nearest even after each operation (no
    contraction into fused operations, no wider intermediate results); a
    conversion to an integer type that cannot hold the result is [None].  [round]
    and [sqrt] are the ones of IEEE 754.

    Loops run on [for_to] where the bound is computed beforehand.  The others
    are recursive with fuel, and running out of fuel is [None]: the theorems that
    state a result therefore also state that the fuel of the definition is
    enough.  The fuel is the number of bytes left for the scanners and the
    receivers (each round consumes a byte or returns), the number of waiting
    bytes for the decoders, the bytes of the file for the chunk loop, the
    announced maximum of steps for the LMS batch.  [DecInput] takes the fuel as
    an argument and shows that two rounds per requested byte are enough.

    Threads: the operations are given as they run to completion; for the three
    queues shared between two threads, [Spsc] also interleaves their atomic
    accesses and copies, and each complete operation is shown to be a run of it.
    The model is sequentially consistent; that acquire and release orders
    suffice for the two cursors is the usual argument and is not modelled.
    [Player] runs the decoder thread as a machine with a program point per
    blocking or shared step, and lets the calls of the owner interleave with any
    number of its steps; [BoardOutput] does so with the audio thread.  [Gains] and
    the semaphores of [HalOs] are step relations on single accesses.

    ** What is shown

    - Queues: FIFO order, no loss, no slot read while written ([Control],
      [Reservoir], [BtIngress], [DecInput]).
    - Conservation of audio: reservoir sessions, decode worker, PCM adapter,
      Bluetooth decoder, LMS body decoder, WAVE playback, file player, Sendspin
      PCM chunks.
    - Life cycles: pipeline, I2S sink, LMS client, file player,
      Sendspin player and client, board output, ALSA sink, I2S backends, pools of
      the operating system layers; every initialised node and every allocated
      block is released once, whatever the callbacks return; what a failure
      leaves behind; end of stream.
    - Codec adapters: the Opus adapter as a queue of frames, the MP3 and FLAC
      adapters as their library on the whole stream, the Vorbis adapter frame by
      frame; all inside their arrays.
    - The socket transport: its laws, and that it keeps its descriptors.
    - Interleavings: a pause and a stop of the board output hold off the audio
      thread, a pair of gains is never torn, no wake-up of a semaphore is lost.
    - Bluetooth: the bindings refine a reference link; the speaker's callbacks and
      its owner are safe in any order, and forgetting its peers ends.
    - Firmware update: the image installed is exactly the body of the request.
    - Parsers: total and inside their buffers on arbitrary input ([Json],
      [MessageSafe], [WsRx], [Wav]); correct on well-formed input ([JsonRender], [MessageSpec],
      [WsRx], [LmsProtocol], [Wav]); round trips with the encoders.
    - Arithmetic: no overflow, saturation, monotone ramps, bounds of the
      interpolation ([Dsp], [Sync], [BtVolume], [Types]); coefficients in range
      ([Design]); no NaN, no wind-up and
      no conversion out of range ([Rate], [TimeFilter]).

    Modelling also showed defects, each with its theorem:
    [JsonRender.json_nested_space_refused], [WsRx.ws_empty_frame_deferred],
    [Sync.interpolate_full_scale_overflow], [LmsStep.lms_stale_ingress],
    [TimeFilter.time_exchange_overflow], [TimeFilter.time_error_overflow],
    [SendspinSafe.player_latency_overflow], [SendspinSafe.player_pcm_undercount],
    [SendspinSession.client_stale_receiver],
    [SendspinSession.client_ready_after_close],
    [SendspinSession.client_upgrade_drops_tail], [DecFlac.flac_channels_overrun],
    [DecFlac.flac_reopen_leaks], [DecOpus.opus_reopen_leaks],
    [DecVorbis.vorbis_reset_forgets_channels], [BtEspIdf.streams_without_codec],
    [BtEspIdf.registration_retried], [SpeakerSession.forgotten_peer_saved],
    [HalPools.esp_stack_shared], [Ota.length_from_body], [Amp.volume_misses_book].

    ** Not modelled

    - The sine and the cosine of the C library, operating systems, drivers and
      protocol stacks: the parameters of the models.  The platform half of the
      socket transport and the C11 atomics ([hal/linux/hal_tcp_linux.c],
      [hal/common/hal_atomic_c11.c]) only forward to them.
    - Programs and wiring ([platform]): the main programs and the output, WiFi
      and memory of the boards; the listening loop of the web
      server; the registration of the speaker's callbacks with the stack.  They are
      sequences of calls of the parts above or tables of constants.
    - Third-party decoders: parameters too, with what they document.
    - A callback of the application that calls back into the client it was called
      from. *)

From Stdlib Require Export ZArith Lia.
From stdpp Require Export prelude list numbers.

#[global] Open Scope Z_scope.

(** ** Undefined behaviour and pointers

    A C operation is modelled in the option monad: [None] is undefined
    behaviour (an access outside an array, a division by zero, a signed
    overflow).  A pointer the code compares with NULL is an [option]. *)

Abbreviation ub := option.
Abbreviation ptr := option.
Abbreviation NULL := (@None _) (only parsing).

(** Run [f] on the object behind [p]; a NULL pointer returns [null]. *)
Definition on_ptr {T R} (p : ptr T) (null : R) (f : T -> ub (T * R)) : ub (ptr T * R) :=
  match p with
  | None => Some (None, null)
  | Some x => '(x', r) ← f x; Some (Some x', r)
  end.

(** Call a function on the address of an object the caller owns. *)
Definition with_ref {T R} (f : ptr T -> ub (ptr T * R)) (x : T) : ub (T * R) :=
  '(p, r) ← f (Some x); x' ← p; Some (x', r).

Lemma with_ref_on_ptr {T R} (null : R) (f : T -> ub (T * R)) (x : T) :
  with_ref (fun p => on_ptr p null f) x = f x.
Proof. unfold with_ref, on_ptr. simpl. destruct (f x) as [[x' r]|]; done. Qed.

(** ** Machine integers *)

Definition u8 (x : Z) : Z := x mod 256.
Definition u16 (x : Z) : Z := x mod 65536.
Definition u32 (x : Z) : Z := x mod 4294967296.
Definition u64 (x : Z) : Z := x mod 18446744073709551616.
Definition s16 (x : Z) : Z := (x + 32768) mod 65536 - 32768.
Definition s32 (x : Z) : Z := (x + 2147483648) mod 4294967296 - 2147483648.
Definition s64 (x : Z) : Z :=
  (x + 9223372036854775808) mod 18446744073709551616 - 9223372036854775808.

Definition UINT32_MAX : Z := 4294967295.
Definition UINT64_MAX : Z := 18446744073709551615.
Definition INT32_MAX : Z := 2147483647.
Definition INT32_MIN : Z := -2147483648.
Definition INT64_MAX : Z := 9223372036854775807.
Definition INT64_MIN : Z := -9223372036854775808.

Definition is_u8 (x : Z) : Prop := 0 <= x < 256.
Definition is_u16 (x : Z) : Prop := 0 <= x < 65536.
Definition is_u32 (x : Z) : Prop := 0 <= x < 4294967296.
Definition is_u64 (x : Z) : Prop := 0 <= x < 18446744073709551616.
Definition is_s16 (x : Z) : Prop := -32768 <= x < 32768.
Definition is_s32 (x : Z) : Prop := -2147483648 <= x < 2147483648.
Definition is_s64 (x : Z) : Prop := -9223372036854775808 <= x < 9223372036854775808.

#[export] Instance is_u8_dec x : Decision (is_u8 x).
Proof. unfold is_u8. apply _. Defined.
#[export] Instance is_u32_dec x : Decision (is_u32 x).
Proof. unfold is_u32. apply _. Defined.
#[export] Instance is_s32_dec x : Decision (is_s32 x).
Proof. unfold is_s32. apply _. Defined.

(** Linear arithmetic over wrapped integers. *)
Ltac word_unfold :=
  unfold u8, u16, u32, u64, s16, s32, s64, is_u8, is_u16, is_u32, is_u64, is_s16, is_s32, is_s64,
    UINT32_MAX, UINT64_MAX, INT32_MAX, INT32_MIN, INT64_MAX, INT64_MIN in *.
Ltac word := word_unfold; Z.to_euclidean_division_equations; lia.

Lemma u8_small x : is_u8 x -> u8 x = x.
Proof. word. Qed.
Lemma u16_small x : is_u16 x -> u16 x = x.
Proof. word. Qed.
Lemma u32_small x : is_u32 x -> u32 x = x.
Proof. word. Qed.
Lemma u64_small x : is_u64 x -> u64 x = x.
Proof. word. Qed.
Lemma s32_small x : is_s32 x -> s32 x = x.
Proof. word. Qed.
Lemma s64_small x : is_s64 x -> s64 x = x.
Proof. word. Qed.
Lemma u8_range x : is_u8 (u8 x).
Proof. word. Qed.
Lemma u32_range x : is_u32 (u32 x).
Proof. word. Qed.
Lemma s32_range x : is_s32 (s32 x).
Proof. word. Qed.

Create HintDb eaf.
#[export] Hint Resolve u8_range u32_range s32_range : eaf.

(** Evaluate the decisions linear arithmetic settles. *)
Ltac decide_lia :=
  repeat match goal with
  | |- context [@decide ?P ?D] =>
      first [ rewrite (@decide_True _ P D) by lia | rewrite (@decide_False _ P D) by lia ]
  end.

(** ** Arrays indexed by machine integers *)

Definition zlen {A} (l : list A) : Z := Z.of_nat (length l).

(** [slice l i n] is [l[i .. i+n)]; [splice l i xs] overwrites from [i]. *)
Definition slice {A} (l : list A) (i n : Z) : list A :=
  take (Z.to_nat n) (drop (Z.to_nat i) l).
Definition splice {A} (l : list A) (i : Z) (xs : list A) : list A :=
  take (Z.to_nat i) l ++ xs ++ drop (Z.to_nat i + length xs) l.

(** Checked loads and stores; out of range is undefined behaviour. *)
Definition ld {A} (l : list A) (i : Z) : ub A :=
  if decide (0 <= i) then l !! Z.to_nat i else None.
Definition st {A} (l : list A) (i : Z) (x : A) : ub (list A) :=
  if decide (0 <= i < zlen l) then Some (<[Z.to_nat i := x]> l) else None.
Definition ldn {A} (l : list A) (i n : Z) : ub (list A) :=
  if decide (0 <= i /\ 0 <= n /\ i + n <= zlen l) then Some (slice l i n) else None.
Definition stn {A} (l : list A) (i : Z) (xs : list A) : ub (list A) :=
  if decide (0 <= i /\ i + zlen xs <= zlen l) then Some (splice l i xs) else None.

(** [memcpy(dst + doff, src + soff, n)] between distinct arrays, and
    [memset(dst + off, x, n)], counted in elements. *)
Definition memcpy {A} (dst : list A) (doff : Z) (src : list A) (soff n : Z) : ub (list A) :=
  xs ← ldn src soff n; stn dst doff xs.
Definition memset {A} (dst : list A) (off : Z) (x : A) (n : Z) : ub (list A) :=
  if decide (0 <= n) then stn dst off (replicate (Z.to_nat n) x) else None.

(** [for (i = first; i < first + n; ++i)] with an undefined-behaviour body. *)
Fixpoint for_from {S} (i : Z) (n : nat) (f : Z -> S -> ub S) (s : S) : ub S :=
  match n with
  | O => Some s
  | Datatypes.S n' => s' ← f i s; for_from (i + 1) n' f s'
  end.
Definition for_to {S} (n : Z) (f : Z -> S -> ub S) (s : S) : ub S :=
  for_from 0 (Z.to_nat n) f s.

Section arrays.
Context {A : Type}.
Implicit Types (l xs dst src : list A) (i j n k : Z).

Lemma zlen_nonneg l : 0 <= zlen l.
Proof. unfold zlen. lia. Qed.
Lemma zlen_nil : zlen (@nil A) = 0.
Proof. done. Qed.
Lemma zlen_cons x l : zlen (x :: l) = zlen l + 1.
Proof. unfold zlen. simpl. lia. Qed.
Lemma zlen_app l xs : zlen (l ++ xs) = zlen l + zlen xs.
Proof. unfold zlen. rewrite length_app. lia. Qed.
Lemma zlen_replicate n (x : A) : 0 <= n -> zlen (replicate (Z.to_nat n) x) = n.
Proof. unfold zlen. rewrite length_replicate. lia. Qed.
Lemma zlen_slice l i n :
  0 <= i -> 0 <= n -> i + n <= zlen l -> zlen (slice l i n) = n.
Proof. unfold zlen, slice. rewrite length_take, length_drop. lia. Qed.
Lemma zlen_splice l i xs :
  0 <= i -> i + zlen xs <= zlen l -> zlen (splice l i xs) = zlen l.
Proof.
  unfold zlen, splice. rewrite !length_app, length_take, length_drop. lia.
Qed.
Lemma zlen_take_le l (n : nat) : zlen (take n l) <= Z.of_nat n.
Proof. unfold zlen. rewrite length_take. lia. Qed.
Lemma zlen_insert l (k : nat) (x : A) : zlen (<[k:=x]> l) = zlen l.
Proof. unfold zlen. by rewrite length_insert. Qed.
Lemma zlen_0_nil l : zlen l = 0 -> l = [].
Proof. unfold zlen. destruct l; simpl; [done | lia]. Qed.

Lemma lookup_slice l i n (k : nat) :
  Z.of_nat k < n -> slice l i n !! k = l !! (Z.to_nat i + k)%nat.
Proof. intros. unfold slice. rewrite lookup_take_lt by lia. by rewrite lookup_drop. Qed.
Lemma lookup_slice_ge l i n (k : nat) :
  n <= Z.of_nat k -> slice l i n !! k = None.
Proof. intros. unfold slice. apply lookup_take_ge. lia. Qed.

Lemma lookup_splice l i xs (k : nat) :
  0 <= i -> i + zlen xs <= zlen l ->
  splice l i xs !! k =
    if decide (i <= Z.of_nat k < i + zlen xs) then xs !! (k - Z.to_nat i)%nat else l !! k.
Proof.
  unfold splice, zlen. intros Hi Hlen. case_decide.
  - rewrite lookup_app_r by (rewrite length_take; lia). rewrite length_take.
    replace (Z.to_nat i `min` length l)%nat with (Z.to_nat i) by lia.
    rewrite lookup_app_l by lia. done.
  - destruct (decide (Z.of_nat k < i)).
    + rewrite lookup_app_l by (rewrite length_take; lia). by rewrite lookup_take_lt by lia.
    + rewrite lookup_app_r by (rewrite length_take; lia). rewrite length_take.
      rewrite lookup_app_r by lia. rewrite lookup_drop. f_equal. lia.
Qed.

Lemma slice_0_all l : slice l 0 (zlen l) = l.
Proof.
  unfold slice, zlen. rewrite Nat2Z.id. change (Z.to_nat 0) with 0%nat.
  rewrite drop_0. by rewrite firstn_all.
Qed.
Lemma slice_nil_n l i : slice l i 0 = [].
Proof. done. Qed.
Lemma slice_add l i n k :
  0 <= i -> 0 <= n -> 0 <= k ->
  slice l i (n + k) = slice l i n ++ slice l (i + n) k.
Proof.
  intros. unfold slice.
  replace (Z.to_nat (n + k)) with (Z.to_nat n + Z.to_nat k)%nat by lia.
  replace (Z.to_nat (i + n)) with (Z.to_nat i + Z.to_nat n)%nat by lia.
  rewrite <- drop_drop. rewrite <- take_take_drop. done.
Qed.
Lemma slice_full l i n : i <= 0 -> zlen l <= n -> slice l i n = l.
Proof.
  intros. unfold slice, zlen in *. replace (Z.to_nat i) with 0%nat by lia.
  rewrite drop_0. apply take_ge. lia.
Qed.
Lemma drop_slice l n : 0 <= n <= zlen l -> drop (Z.to_nat n) l = slice l n (zlen l - n).
Proof.
  intros. unfold slice, zlen in *. rewrite take_ge; [done|]. rewrite length_drop. lia.
Qed.
Lemma take_slice l n : take (Z.to_nat n) l = slice l 0 n.
Proof. unfold slice. by rewrite drop_0. Qed.

Lemma ld_Some l i x : ld l i = Some x -> 0 <= i < zlen l.
Proof.
  unfold ld, zlen. case_decide; [|done]. intros Hx%lookup_lt_Some. lia.
Qed.
Lemma ld_lookup l i : 0 <= i -> ld l i = l !! Z.to_nat i.
Proof. intros. unfold ld. by rewrite decide_True. Qed.
Lemma ld_is_Some l i : 0 <= i < zlen l -> exists x, ld l i = Some x.
Proof.
  intros. rewrite ld_lookup by lia.
  destruct (lookup_lt_is_Some_2 l (Z.to_nat i)) as [x Hx]; [unfold zlen in *; lia | eauto].
Qed.
Lemma st_eq l i x : 0 <= i < zlen l -> st l i x = Some (<[Z.to_nat i := x]> l).
Proof. intros. unfold st. by rewrite decide_True. Qed.
Lemma ldn_eq l i n : 0 <= i -> 0 <= n -> i + n <= zlen l -> ldn l i n = Some (slice l i n).
Proof. intros. unfold ldn. by rewrite decide_True. Qed.
Lemma stn_eq l i xs : 0 <= i -> i + zlen xs <= zlen l -> stn l i xs = Some (splice l i xs).
Proof. intros. unfold stn. by rewrite decide_True. Qed.
Lemma ldn_inv l i n xs :
  ldn l i n = Some xs -> 0 <= i /\ 0 <= n /\ i + n <= zlen l /\ xs = slice l i n.
Proof. unfold ldn. case_decide; [intros [= <-]; tauto | done]. Qed.
Lemma stn_inv l i xs l' :
  stn l i xs = Some l' -> 0 <= i /\ i + zlen xs <= zlen l /\ l' = splice l i xs.
Proof. unfold stn. case_decide; [intros [= <-]; tauto | done]. Qed.
Lemma memcpy_eq dst doff src soff n :
  0 <= soff -> 0 <= n -> soff + n <= zlen src -> 0 <= doff -> doff + n <= zlen dst ->
  memcpy dst doff src soff n = Some (splice dst doff (slice src soff n)).
Proof.
  intros. unfold memcpy. rewrite ldn_eq by lia. simpl.
  rewrite stn_eq; [done | lia |]. rewrite zlen_slice by lia. lia.
Qed.
Lemma memset_eq dst off (x : A) n :
  0 <= n -> 0 <= off -> off + n <= zlen dst ->
  memset dst off x n = Some (splice dst off (replicate (Z.to_nat n) x)).
Proof.
  intros. unfold memset. rewrite decide_True by lia.
  rewrite stn_eq; [done | lia |]. rewrite zlen_replicate by lia. lia.
Qed.
End arrays.

(** Invariant rule for bounded loops: the body never fails and preserves [P]. *)
Lemma for_from_inv {S} (P : Z -> S -> Prop) (f : Z -> S -> ub S) (n : nat) i s :
  P i s ->
  (forall j t, i <= j < i + Z.of_nat n -> P j t -> exists t', f j t = Some t' /\ P (j + 1) t') ->
  exists s', for_from i n f s = Some s' /\ P (i + Z.of_nat n) s'.
Proof.
  revert i s. induction n as [|n IH]; intros i s HP Hstep.
  - exists s. change (Z.of_nat 0) with 0. by rewrite Z.add_0_r.
  - destruct (Hstep i s) as (s1 & Hf & HP1); [lia | done |].
    destruct (IH (i + 1) s1 HP1) as (s' & Hrun & HP'); [intros; apply Hstep; [lia | done] |].
    exists s'. simpl. rewrite Hf. simpl. split; [done |].
    by replace (i + Z.of_nat (Datatypes.S n)) with (i + 1 + Z.of_nat n) by lia.
Qed.

Lemma for_to_inv {S} (P : Z -> S -> Prop) (f : Z -> S -> ub S) n s :
  0 <= n -> P 0 s ->
  (forall j t, 0 <= j < n -> P j t -> exists t', f j t = Some t' /\ P (j + 1) t') ->
  exists s', for_to n f s = Some s' /\ P n s'.
Proof.
  intros Hn HP Hstep. unfold for_to.
  destruct (for_from_inv P f (Z.to_nat n) 0 s HP) as (s' & ? & HP');
    [intros; apply Hstep; [lia | done] |].
  exists s'. split; [done |]. by replace n with (0 + Z.of_nat (Z.to_nat n)) by lia.
Qed.

Lemma for_from_ext {S} (f g : Z -> S -> ub S) (n : nat) i s :
  (forall j t, i <= j < i + Z.of_nat n -> f j t = g j t) -> for_from i n f s = for_from i n g s.
Proof.
  revert i s. induction n as [|n IH]; intros i s Hfg; simpl; [done |].
  rewrite Hfg by lia. destruct (g i s) as [s'|]; simpl; [| done]. apply IH. intros. apply Hfg. lia.
Qed.
Lemma for_to_ext {S} (f g : Z -> S -> ub S) n s :
  (forall j t, 0 <= j < n -> f j t = g j t) -> for_to n f s = for_to n g s.
Proof. intros Hfg. apply for_from_ext. intros. apply Hfg. lia. Qed.

Lemma for_from_add {S} (f : Z -> S -> ub S) (n m : nat) i s :
  for_from i (n + m) f s = (t ← for_from i n f s; for_from (i + Z.of_nat n) m f t).
Proof.
  revert i s. induction n as [|n IH]; intros i s.
  - simpl. by rewrite Z.add_0_r.
  - cbn [Nat.add for_from]. destruct (f i s) as [t|]; cbn [mbind option_bind]; [| done]. rewrite IH.
    destruct (for_from (i + 1) n f t); cbn [mbind option_bind]; [| done]. f_equal. lia.
Qed.

Lemma for_from_shift {S} (f : Z -> S -> ub S) (n : nat) i d s :
  for_from (i + d) n f s = for_from i n (fun j => f (j + d)) s.
Proof.
  revert i s. induction n as [|n IH]; intros i s; [done |]. cbn [for_from].
  destruct (f (i + d) s); cbn [mbind option_bind]; [| done]. rewrite <- IH. f_equal. lia.
Qed.

Lemma for_from_bind {S} (f : Z -> S -> ub S) (n : nat) i s :
  for_from i (Datatypes.S n) f s = (t ← for_from i n f s; f (i + Z.of_nat n) t).
Proof.
  replace (Datatypes.S n) with (n + 1)%nat by lia. rewrite for_from_add.
  destruct (for_from i n f s); cbn [mbind option_bind for_from]; [| done].
  by destruct (f (i + Z.of_nat n) s0).
Qed.

(** Nested loops over rows and columns are one loop over the cells. *)
Lemma for_nested {S} (f : Z -> S -> ub S) n m s :
  0 <= n -> 0 <= m -> for_to n (fun i => for_to m (fun c => f (i * m + c))) s = for_to (n * m) f s.
Proof.
  intros Hn Hm. unfold for_to.
  rewrite <- (Z2Nat.id n Hn) at 2. generalize (Z.to_nat n). clear Hn n. intros n. revert s.
  induction n as [|n IH]; intros s; [done |].
  rewrite for_from_bind, IH. replace (Z.to_nat (Z.of_nat (Datatypes.S n) * m))
    with (Z.to_nat (Z.of_nat n * m) + Z.to_nat m)%nat by lia.
  rewrite for_from_add. destruct (for_from 0 (Z.to_nat (Z.of_nat n * m)) f s) as [t|]; cbn [mbind option_bind]; [| done].
  rewrite for_from_shift. apply for_from_ext. intros j u Hj. f_equal. lia.
Qed.

(** Finite case analysis by computation: [p] holds on the whole range. *)
Lemma check_range (p : Z -> bool) a n x :
  forallb p (seqZ a n) = true -> a <= x < a + n -> p x = true.
Proof.
  intros Hall Hx. rewrite forallb_forall in Hall. apply Hall.
  apply list_elem_of_In, elem_of_seqZ. lia.
Qed.

(** ** Loops that fill an array *)

Lemma splice_nil {A} (l : list A) off : splice l off [] = l.
Proof. unfold splice. simpl. by rewrite Nat.add_0_r, take_drop. Qed.

(** Two adjacent writes are one write. *)
Lemma splice_app {A} (l xs ys : list A) off :
  0 <= off -> off + zlen xs + zlen ys <= zlen l ->
  splice (splice l off xs) (off + zlen xs) ys = splice l off (xs ++ ys).
Proof.
  intros Hoff Hfit. pose proof (zlen_nonneg xs). pose proof (zlen_nonneg ys).
  apply list_eq. intros k.
  rewrite lookup_splice by (rewrite ?zlen_splice; lia).
  rewrite !lookup_splice by (rewrite ?zlen_app; lia). rewrite zlen_app.
  repeat case_decide; try lia; try done.
  - rewrite lookup_app_r by (unfold zlen in *; lia). f_equal. unfold zlen in *. lia.
  - by rewrite lookup_app_l by (unfold zlen in *; lia).
Qed.

(** Overwriting part of a write. *)
Lemma splice_inside {A} (l xs ys ys' zs : list A) off :
  0 <= off -> off + zlen xs + zlen ys + zlen zs <= zlen l -> zlen ys' = zlen ys ->
  splice (splice l off (xs ++ ys ++ zs)) (off + zlen xs) ys' = splice l off (xs ++ ys' ++ zs).
Proof.
  intros Hoff Hfit Hy. pose proof (zlen_nonneg xs). pose proof (zlen_nonneg ys).
  pose proof (zlen_nonneg zs). apply list_eq. intros k.
  rewrite lookup_splice by (rewrite ?zlen_splice; rewrite ?zlen_app; lia).
  rewrite !lookup_splice by (rewrite ?zlen_app; lia). rewrite !zlen_app.
  repeat case_decide; try lia; try done.
  - rewrite lookup_app_r by (unfold zlen in *; lia). rewrite lookup_app_l by (unfold zlen in *; lia).
    f_equal. unfold zlen in *. lia.
  - destruct (decide (Z.of_nat k < off + zlen xs)).
    + by rewrite !lookup_app_l by (unfold zlen in *; lia).
    + rewrite !lookup_app_r by (unfold zlen in *; lia). f_equal. unfold zlen in *. lia.
Qed.

Lemma slice_splice {A} (l xs : list A) off i m :
  0 <= off -> off + zlen xs <= zlen l -> 0 <= i -> 0 <= m -> i + m <= zlen xs ->
  slice (splice l off xs) (off + i) m = slice xs i m.
Proof.
  intros. apply list_eq. intros k. destruct (decide (Z.of_nat k < m)).
  - rewrite !lookup_slice, lookup_splice by lia. decide_lia. f_equal. lia.
  - by rewrite !lookup_slice_ge by lia.
Qed.

Lemma slice_forall {A} (P : A -> Prop) (l : list A) i n : Forall P l -> Forall P (slice l i n).
Proof. intros. by apply Forall_take, Forall_drop. Qed.
Lemma splice_forall {A} (P : A -> Prop) (l xs : list A) i :
  Forall P l -> Forall P xs -> Forall P (splice l i xs).
Proof. intros. unfold splice. apply Forall_app_2; [by apply Forall_take |]. apply Forall_app_2; [done |]. by apply Forall_drop. Qed.

Lemma slice_slice {A} (l : list A) m i n :
  0 <= i -> 0 <= n -> i + n <= m -> slice (slice l 0 m) i n = slice l i n.
Proof.
  intros. apply list_eq. intros k. destruct (decide (Z.of_nat k < n)).
  - rewrite !lookup_slice by lia. done.
  - by rewrite !lookup_slice_ge by lia.
Qed.

(** Writing at the start of a suffix. *)
Lemma splice_tail {A} (l xs : list A) off :
  0 <= off -> off + zlen xs <= zlen l ->
  splice l off (splice (slice l off (zlen l - off)) 0 xs) = splice l off xs.
Proof.
  intros Hoff Hfit. pose proof (zlen_nonneg xs).
  assert (Hz : zlen (slice l off (zlen l - off)) = zlen l - off) by (rewrite zlen_slice; lia).
  apply list_eq. intros k. rewrite !lookup_splice by (rewrite ?zlen_splice; lia).
  rewrite zlen_splice, Hz by lia. repeat case_decide; try lia; try done.
  - f_equal. lia.
  - rewrite lookup_slice by lia. f_equal. lia.
Qed.

Lemma slice_app_head {A} (xs ys : list A) n : zlen xs = n -> slice (xs ++ ys) 0 n = xs.
Proof.
  intros <-. rewrite <- take_slice. unfold zlen. rewrite Nat2Z.id. apply take_app_length.
Qed.

(** Writing inside the part already written. *)
Lemma splice_within {A} (d xs ys : list A) i :
  0 <= i -> i + zlen ys <= zlen xs -> zlen xs <= zlen d ->
  splice (splice d 0 xs) i ys = splice d 0 (splice xs i ys).
Proof.
  intros Hi Hy Hx. pose proof (zlen_nonneg ys). apply list_eq. intros k.
  rewrite !lookup_splice by (rewrite ?zlen_splice; lia). rewrite zlen_splice by lia. rewrite Nat.sub_0_r.
  repeat case_decide; done || lia.
Qed.

(** Overwriting a whole write. *)
Lemma splice_overwrite {A} (d xs ys : list A) i :
  0 <= i -> zlen xs <= zlen ys -> i + zlen ys <= zlen d -> splice (splice d i xs) i ys = splice d i ys.
Proof.
  intros Hi Hx Hy. pose proof (zlen_nonneg xs). apply list_eq. intros k.
  rewrite !lookup_splice by (rewrite ?zlen_splice; lia). repeat case_decide; done || lia.
Qed.

Lemma slice_cons {A} (l : list A) i n x :
  ld l i = Some x -> 0 < n -> slice l i n = x :: slice l (i + 1) (n - 1).
Proof.
  intros Hx Hn. pose proof (ld_Some _ _ _ Hx). rewrite ld_lookup in Hx by lia. unfold slice.
  rewrite (drop_S _ x) by done. replace (Z.to_nat n) with (S (Z.to_nat (n - 1))) by lia.
  replace (Z.to_nat (i + 1)) with (S (Z.to_nat i)) by lia. done.
Qed.

Lemma splice_singleton {A} (l : list A) i (x : A) :
  0 <= i < zlen l -> splice l i [x] = <[Z.to_nat i := x]> l.
Proof.
  intros Hi. assert (zlen [x] = 1) by done. apply list_eq. intros k. rewrite lookup_splice by lia.
  case_decide.
  - replace k with (Z.to_nat i) by lia. rewrite Nat.sub_diag.
    rewrite list_lookup_insert_eq; [done | unfold zlen in *; lia].
  - by rewrite list_lookup_insert_ne by lia.
Qed.

Lemma zlen_fmap {A B} (f : A -> B) (l : list A) : zlen (f <$> l) = zlen l.
Proof. unfold zlen. by rewrite length_fmap. Qed.
Lemma zlen_seqZ m n : 0 <= n -> zlen (seqZ m n) = n.
Proof. intros. unfold zlen. rewrite length_seqZ. lia. Qed.
Lemma seqZ_snoc n : 0 <= n -> seqZ 0 (n + 1) = seqZ 0 n ++ [n].
Proof. intros. rewrite seqZ_app by lia. by rewrite Z.add_0_l. Qed.

(** A loop whose round [i] overwrites the [i]-th block of width [w]. *)
Lemma for_blocks {A} (f : Z -> list A -> ub (list A)) (g : Z -> list A) (p : list A) off w n :
  0 <= off -> 0 <= w -> 0 <= n -> off + n * w <= zlen p ->
  (forall i q, 0 <= i < n -> zlen q = zlen p -> f i q = Some (splice q (off + i * w) (g i))) ->
  (forall i, 0 <= i < n -> zlen (g i) = w) ->
  for_to n f p = Some (splice p off (concat (g <$> seqZ 0 n))) /\
  zlen (concat (g <$> seqZ 0 n)) = n * w.
Proof.
  intros Hoff Hw Hn Hfit Hf Hg.
  destruct (for_to_inv (fun i q => q = splice p off (concat (g <$> seqZ 0 i)) /\
      zlen (concat (g <$> seqZ 0 i)) = i * w) f n p) as (p' & Hrun & -> & Hlen); [lia | | |].
  - simpl. by rewrite splice_nil.
  - intros i q Hi [-> Hlen]. rewrite Hf; [| done | rewrite zlen_splice; nia].
    eexists. split; [done |]. rewrite seqZ_snoc, fmap_app, concat_app by lia. simpl.
    rewrite app_nil_r, zlen_app, Hlen, Hg by lia. split; [| lia].
    rewrite <- splice_app by (rewrite ?Hlen, ?Hg by lia; nia). by rewrite Hlen.
  - done.
Qed.

Lemma zlen_concat_blocks {A} (g : Z -> list A) w n :
  0 <= n -> (forall j, 0 <= j < n -> zlen (g j) = w) -> zlen (concat (g <$> seqZ 0 n)) = n * w.
Proof.
  intros Hn Hg. enough (Hm : forall m, 0 <= m -> m <= n -> zlen (concat (g <$> seqZ 0 m)) = m * w) by auto with lia.
  intros m Hm0. pattern m. apply natlike_ind; [done | | lia].
  intros x Hx IH Hm. unfold Z.succ. rewrite seqZ_snoc, fmap_app, concat_app, zlen_app, IH by lia. simpl.
  rewrite app_nil_r, Hg; lia.
Qed.

Lemma lookup_concat_blocks {A} (g : Z -> list A) w n i c :
  0 <= n -> (forall j, 0 <= j < n -> zlen (g j) = w) -> 0 <= i < n -> 0 <= c < w ->
  concat (g <$> seqZ 0 n) !! Z.to_nat (i * w + c) = g i !! Z.to_nat c.
Proof.
  intros Hn Hg Hi Hc.
  pose proof (zlen_concat_blocks g w i ltac:(lia) ltac:(intros; apply Hg; lia)) as Hlen.
  assert (Hsplit : seqZ 0 n = seqZ 0 i ++ i :: seqZ (i + 1) (n - (i + 1))).
  { replace n with (i + (1 + (n - (i + 1)))) at 1 by lia. rewrite seqZ_app by lia. f_equal.
    rewrite seqZ_app by lia. simpl. by rewrite Z.add_0_l. }
  rewrite Hsplit, fmap_app, concat_app. cbn. specialize (Hg i Hi).
  unfold zlen in *. rewrite lookup_app_r by nia. rewrite lookup_app_l by nia. f_equal. nia.
Qed.

(** A loop that replaces each cell by a function of it. *)
Lemma for_update {A} (g : Z -> A -> ub A) (R : Z -> A -> A -> Prop) (l : list A) n :
  0 <= n <= zlen l ->
  (forall k x, 0 <= k < n -> ld l k = Some x -> exists y, g k x = Some y /\ R k x y) ->
  exists l', for_to n (fun k l => x ← ld l k; y ← g k x; st l k y) l = Some l' /\ zlen l' = zlen l /\
    (forall k x, 0 <= k < n -> ld l k = Some x -> exists y, ld l' k = Some y /\ R k x y) /\
    (forall k, n <= k -> ld l' k = ld l k).
Proof.
  intros Hn Hg.
  destruct (for_to_inv (fun i q => zlen q = zlen l /\
      (forall k x, 0 <= k < i -> ld l k = Some x -> exists y, ld q k = Some y /\ R k x y) /\
      (forall k, i <= k -> ld q k = ld l k))
    (fun k l => x ← ld l k; y ← g k x; st l k y) n l) as (l' & Hrun & Hinv); [lia | | | eauto].
  { split_and!; [done | lia | done]. }
  intros i q Hi (Hz & Hlo & Hhi). rewrite Hhi by lia.
  destruct (ld_is_Some l i ltac:(lia)) as [x Hx]. rewrite Hx. cbn [mbind option_bind].
  destruct (Hg i x Hi Hx) as (y & -> & HR). cbn [mbind option_bind]. rewrite st_eq by lia.
  eexists. split; [done |]. rewrite zlen_insert. split; [done |].
  assert (Hld : forall k, 0 <= k -> ld (<[Z.to_nat i := y]> q) k = if decide (k = i) then Some y else ld q k).
  { intros k Hk. rewrite !ld_lookup by lia. case_decide.
    - subst. rewrite list_lookup_insert_eq; [done | unfold zlen in *; lia].
    - by rewrite list_lookup_insert_ne by lia. }
  split.
  - intros k x' Hk Hx'. rewrite Hld by lia. case_decide; [| apply Hlo; done || lia].
    subst k. exists y. split; [done |]. congruence.
  - intros k Hk. rewrite Hld by lia. rewrite decide_False by lia. apply Hhi. lia.
Qed.

(** A loop of single stores. *)
Lemma for_st {A} (f : Z -> A) (p : list A) off n :
  0 <= off -> 0 <= n -> off + n <= zlen p ->
  exists p', for_to n (fun i p => st p (off + i) (f i)) p = Some p' /\
    zlen p' = zlen p /\ p' = splice p off (f <$> seqZ 0 n).
Proof.
  intros Hoff Hn Hfit.
  destruct (for_blocks (fun i p => st p (off + i) (f i)) (fun i => [f i]) p off 1 n) as [Hrun Hlen];
    try lia.
  { intros i q Hi Hq. rewrite Z.mul_1_r, splice_singleton by lia. apply st_eq. lia. }
  { done. }
  replace (concat ((fun i => [f i]) <$> seqZ 0 n)) with (f <$> seqZ 0 n) in *.
  2:{ clear. induction (seqZ 0 n) as [|x l IH]; [done |]. cbn. by rewrite IH. }
  eexists. split; [done |]. split; [apply zlen_splice; lia | done].
Qed.

(** More on slices and loops that fill a prefix. *)
Lemma slice_splice_before {A} (l xs : list A) off i n :
  0 <= i -> i + n <= off -> 0 <= off -> off + zlen xs <= zlen l -> slice (splice l off xs) i n = slice l i n.
Proof.
  intros. apply list_eq. intros k. destruct (decide (Z.of_nat k < n)).
  - rewrite !lookup_slice, lookup_splice by lia. by rewrite decide_False by lia.
  - by rewrite !lookup_slice_ge by lia.
Qed.

Lemma slice_inner {A} (l : list A) o m i n :
  0 <= o -> 0 <= i -> 0 <= n -> i + n <= m -> slice (slice l o m) i n = slice l (o + i) n.
Proof.
  intros. apply list_eq. intros k. destruct (decide (Z.of_nat k < n)).
  - rewrite !lookup_slice by lia. f_equal. lia.
  - by rewrite !lookup_slice_ge by lia.
Qed.

Lemma splice_of_loop {A} (dst dst' : list A) n (f : Z -> A) :
  0 <= n <= zlen dst -> zlen dst' = zlen dst -> (forall k, 0 <= k < n -> ld dst' k = Some (f k)) ->
  (forall k, n <= k -> ld dst' k = ld dst k) -> dst' = splice dst 0 (f <$> seqZ 0 n).
Proof.
  intros Hn Hz Hlo Hhi. apply list_eq. intros k.
  assert (Hzf : zlen (f <$> seqZ 0 n) = n) by (rewrite zlen_fmap, zlen_seqZ; lia).
  rewrite lookup_splice by lia. rewrite Hzf. case_decide as Hk.
  - specialize (Hlo (Z.of_nat k) ltac:(lia)). rewrite ld_lookup, Nat2Z.id in Hlo by lia. rewrite Hlo.
    rewrite list_lookup_fmap, lookup_seqZ_lt by lia. simpl. do 2 f_equal. lia.
  - specialize (Hhi (Z.of_nat k) ltac:(lia)). rewrite !ld_lookup, Nat2Z.id in Hhi by lia. exact Hhi.
Qed.
