(* ===== verification/Types.v ===== *)
(** Result codes, audio formats, buffer descriptors and sample conversions:
    [include/eaf/eaf_types.h] and [core/eaf_types.c]. *)

From S2P Require Import Prelude.

(** ** Result codes ([eaf_result_t]); functions return them as [int]. *)
Definition EAF_EOF : Z := 1.
Definition EAF_OK : Z := 0.
Definition EAF_INVALID : Z := -1.
Definition EAF_STATE : Z := -2.
Definition EAF_IO : Z := -3.
Definition EAF_UNSUPPORTED : Z := -4.
Definition EAF_TIMEOUT : Z := -5.

Definition EAF_MAX_CHANNELS : Z := 4.
Definition EAF_FRAME_SILENCE : Z := 1.
Definition EAF_FRAME_UNDERRUN : Z := 2.
Definition EAF_FRAME_EOS : Z := 4.

Definition EAF_CH_FRONT_LEFT : Z := 1.
Definition EAF_CH_FRONT_RIGHT : Z := 2.
Definition EAF_CH_LFE : Z := 4.
Definition EAF_CH_FRONT_CENTER : Z := 8.

Record eaf_format_t := Format {
  sample_rate : Z;    (* uint32_t *)
  num_channels : Z;   (* uint8_t *)
  channel_mask : Z    (* uint32_t *)
}.
#[export] Instance eaf_format_eq_dec : EqDecision eaf_format_t.
Proof. solve_decision. Defined.

Definition format_zero : eaf_format_t := Format 0 0 0.

(** The ranges C gives the fields. *)
Definition format_wf (f : eaf_format_t) : Prop :=
  is_u32 (sample_rate f) /\ is_u8 (num_channels f) /\ is_u32 (channel_mask f).

(** A buffer descriptor.  [samples] is the address of the sample storage (0 is
    NULL); the cells behind it are passed next to the descriptor. *)
Record eaf_buffer_t := Buffer {
  samples : Z;
  frame_count : Z;        (* uint32_t *)
  capacity_frames : Z;    (* uint32_t *)
  capacity_samples : Z;   (* size_t *)
  format : eaf_format_t;
  flags : Z               (* uint32_t *)
}.

Definition set_frame_count (n : Z) (b : eaf_buffer_t) : eaf_buffer_t :=
  Buffer (samples b) n (capacity_frames b) (capacity_samples b) (format b) (flags b).
Definition set_format (f : eaf_format_t) (b : eaf_buffer_t) : eaf_buffer_t :=
  Buffer (samples b) (frame_count b) (capacity_frames b) (capacity_samples b) f (flags b).
Definition set_flags (x : Z) (b : eaf_buffer_t) : eaf_buffer_t :=
  Buffer (samples b) (frame_count b) (capacity_frames b) (capacity_samples b) (format b) x.

(** ** Format validation *)

(** [while (mask) { count += mask & 1; mask >>= 1; }] on a [uint32_t]: 32 rounds. *)
Fixpoint mask_count (fuel : nat) (mask count : Z) : Z :=
  match fuel with
  | O => count
  | S fuel' =>
      if decide (mask = 0) then count
      else mask_count fuel' (Z.shiftr mask 1) (count + Z.land mask 1)
  end.

#[global] Arguments mask_count : simpl never.

Definition eaf_format_valid (fmt : ptr eaf_format_t) : bool :=
  match fmt with
  | None => false
  | Some f =>
      if bool_decide (sample_rate f = 0) || bool_decide (num_channels f = 0)
         || bool_decide (EAF_MAX_CHANNELS < num_channels f)
         || negb (bool_decide (Z.land (channel_mask f) (u32 (Z.lnot 15)) = 0))
      then false
      else bool_decide (mask_count 32 (channel_mask f) 0 = num_channels f)
  end.

#[global] Arguments eaf_format_valid : simpl never.

Definition eaf_format_equal (a b : eaf_format_t) : bool :=
  bool_decide (sample_rate a = sample_rate b) && bool_decide (num_channels a = num_channels b)
  && bool_decide (channel_mask a = channel_mask b).

(** ** Sample conversions *)

Definition eaf_pcm16_to_q31 (x : Z) : Z := x * 65536.
Definition eaf_pcm24_to_q31 (x : Z) : Z :=
  if decide (8388607 < x) then INT32_MAX
  else if decide (x < -8388608) then INT32_MIN
  else x * 256.
Definition eaf_pcm32_to_q31 (x : Z) : Z := x.

(** The two interleaving loops differ in the conversion of a source sample. *)
Definition interleave_body (conv : Z -> Z) (src : list Z) (src_channels dst_channels : Z)
    (i : Z) (dst : list Z) : ub (list Z) :=
  l ← ld src (i * src_channels);
  let left := conv l in
  if decide (dst_channels = 2) then
    right ← (if decide (src_channels = 2)
             then r ← ld src (i * src_channels + 1); Some (conv r)
             else Some left);
    dst ← st dst (i * 2) left;
    st dst (i * 2 + 1) right
  else st dst i left.

Definition eaf_q31_interleaved (src : list Z) (frames src_channels : Z) (dst : list Z)
    (dst_channels : Z) : ub (list Z) :=
  for_to frames (interleave_body (fun x => x) src src_channels dst_channels) dst.

Definition eaf_s16_to_q31_interleaved (src : list Z) (frames src_channels : Z) (dst : list Z)
    (dst_channels : Z) : ub (list Z) :=
  for_to frames (interleave_body eaf_pcm16_to_q31 src src_channels dst_channels) dst.

(** ** Lemmas *)

(** Reference meaning of a valid format. *)
Definition popcount4 (m : Z) : Z :=
  Z.b2z (Z.testbit m 0) + Z.b2z (Z.testbit m 1) + Z.b2z (Z.testbit m 2) + Z.b2z (Z.testbit m 3).

Lemma mask_high_zero m : is_u32 m -> Z.land m (u32 (Z.lnot 15)) = 0 <-> m < 16.
Proof.
  intros Hm. change (u32 (Z.lnot 15)) with (Z.shiftl (Z.ones 28) 4). split.
  - intros H.
    assert (Hs : Z.shiftr (Z.land m (Z.shiftl (Z.ones 28) 4)) 4 = 0) by by rewrite H.
    rewrite Z.shiftr_land, Z.shiftr_shiftl_l, Z.shiftl_0_r, Z.land_ones, Z.shiftr_div_pow2 in Hs by lia.
    change (2 ^ 4) with 16 in Hs. change (2 ^ 28) with 268435456 in Hs. word.
  - intros H. apply Z.bits_inj'. intros n Hn. rewrite Z.land_spec, Z.bits_0.
    destruct (decide (n < 4)).
    + rewrite Z.shiftl_spec_low by lia. apply andb_false_r.
    + rewrite Z.bits_above_log2; [done | word |].
      destruct (decide (m = 0)) as [->|]; [simpl; lia|].
      apply Z.lt_le_trans with 4; [|lia]. apply Z.log2_lt_pow2; word.
Qed.

Lemma mask_count_small m : 0 <= m < 16 -> mask_count 32 m 0 = popcount4 m.
Proof.
  intros H. apply Z.eqb_eq.
  apply (check_range (fun m => mask_count 32 m 0 =? popcount4 m) 0 16); [by vm_compute | lia].
Qed.

Lemma eaf_format_valid_spec f :
  format_wf f ->
  eaf_format_valid (Some f) = true <->
    sample_rate f <> 0 /\ 1 <= num_channels f <= 4 /\ 0 <= channel_mask f < 16 /\
    popcount4 (channel_mask f) = num_channels f.
Proof.
  intros (Hr & Hc & Hm). unfold eaf_format_valid, EAF_MAX_CHANNELS.
  repeat case_bool_decide; simpl; rewrite ?mask_high_zero in * by done;
    rewrite ?mask_count_small in * by (word_unfold; lia);
    split; try done; intros; word_unfold; naive_solver lia.
Qed.

Lemma eaf_format_valid_channels f :
  eaf_format_valid (Some f) = true -> num_channels f <= 4 /\ num_channels f <> 0 /\ sample_rate f <> 0.
Proof.
  unfold eaf_format_valid, EAF_MAX_CHANNELS. repeat case_bool_decide; simpl; try done. intros. lia.
Qed.

Lemma eaf_format_equal_eq a b : eaf_format_equal a b = true <-> a = b.
Proof.
  unfold eaf_format_equal. destruct a, b; simpl. repeat case_bool_decide; simpl; naive_solver.
Qed.

#[export] Hint Resolve eaf_format_valid_channels : eaf.

Lemma pcm16_range x : is_s16 x -> is_s32 (eaf_pcm16_to_q31 x).
Proof. unfold eaf_pcm16_to_q31. word. Qed.
Lemma pcm24_range x : is_s32 (eaf_pcm24_to_q31 x).
Proof. unfold eaf_pcm24_to_q31. repeat case_decide; word. Qed.
#[export] Hint Resolve pcm16_range pcm24_range : eaf.

(** ** Interleaving *)

(** What the loops leave at channel [c] of frame [i]: the source's channel, a
    mono source being duplicated. *)
Definition interleaved_at (conv : Z -> Z) (src : list Z) (sc dc : Z) (k : Z) : option Z :=
  conv <$> ld src (k / dc * sc + if decide (sc = 2) then k mod dc else 0).

Lemma interleave_spec conv src frames sc dst dc :
  (sc = 1 \/ sc = 2) -> (dc = 1 \/ dc = 2) -> 0 <= frames ->
  frames * sc <= zlen src -> frames * dc <= zlen dst ->
  exists dst', for_to frames (interleave_body conv src sc dc) dst = Some dst' /\
    zlen dst' = zlen dst /\
    (forall k, 0 <= k < frames * dc -> ld dst' k = interleaved_at conv src sc dc k) /\
    (forall k, frames * dc <= k -> ld dst' k = ld dst k).
Proof.
  intros Hsc Hdc Hf Hs Hd.
  destruct (for_to_inv (fun i d => zlen d = zlen dst /\
     (forall k, 0 <= k < i * dc -> ld d k = interleaved_at conv src sc dc k) /\
     (forall k, i * dc <= k -> ld d k = ld dst k))
    (interleave_body conv src sc dc) frames dst) as (dst' & Hrun & Hinv); [lia | | | eauto].
  { split_and!; [done | lia | done]. }
  intros i d Hi (Hlen & Hlo & Hhi). unfold interleave_body.
  assert (Hld : forall j v, 0 <= j < zlen d -> forall k, 0 <= k ->
    ld (<[Z.to_nat j := v]> d) k = if decide (k = j) then Some v else ld d k).
  { intros j v Hj k Hk. rewrite !ld_lookup by lia. case_decide.
    - subst. rewrite list_lookup_insert_eq; [done | unfold zlen in *; lia].
    - by rewrite list_lookup_insert_ne by lia. }
  destruct (ld_is_Some src (i * sc)) as [l Hl]; [lia |]. rewrite Hl. simpl.
  destruct Hdc as [-> | ->]; decide_lia.
  - rewrite st_eq by lia. eexists. split; [done |]. rewrite zlen_insert. split_and!; [done | |].
    + intros k Hk. rewrite Hld by lia. case_decide as Hki; [| apply Hlo; lia].
      subst k. unfold interleaved_at. rewrite Z.div_1_r, Z.mod_1_r.
      replace (i * sc + (if decide (sc = 2) then 0 else 0)) with (i * sc) by (case_decide; lia).
      by rewrite Hl.
    + intros k Hk. rewrite Hld by lia. decide_lia. apply Hhi. lia.
  - set (r := if decide (sc = 2) then _ else _).
    assert (Hr : exists rv, r = Some rv /\ conv <$> ld src (i * sc + if decide (sc = 2) then 1 else 0) = Some rv).
    { subst r. case_decide; [destruct (ld_is_Some src (i * sc + 1)) as [x Hx]; [lia |]; rewrite Hx; eauto |].
      rewrite Z.add_0_r, Hl. eauto. }
    destruct Hr as (rv & -> & Hrv). simpl. rewrite st_eq by lia. simpl.
    rewrite st_eq by (rewrite zlen_insert; lia). eexists. split; [done |].
    assert (Hld2 : forall k, 0 <= k -> ld (<[Z.to_nat (i * 2 + 1):=rv]> (<[Z.to_nat (i * 2):=conv l]> d)) k
      = if decide (k = i * 2 + 1) then Some rv else if decide (k = i * 2) then Some (conv l) else ld d k).
    { intros k Hk. rewrite <- Hld by lia. rewrite !(ld_lookup _ k) by lia.
      destruct (decide (k = i * 2 + 1)) as [->|].
      - rewrite list_lookup_insert_eq; [done |]. rewrite length_insert. unfold zlen in *. lia.
      - by rewrite list_lookup_insert_ne by lia. }
    rewrite !zlen_insert. split_and!; [done | |].
    + intros k Hk. rewrite Hld2 by lia. unfold interleaved_at.
      destruct (decide (k = i * 2 + 1)) as [->|]; [| destruct (decide (k = i * 2)) as [->|]; [| apply Hlo; lia]].
      * rewrite Z.div_add_l by lia. change (1 / 2) with 0. rewrite Z.add_0_r.
        replace ((i * 2 + 1) mod 2) with 1 by word. by rewrite Hrv.
      * rewrite Z.div_mul, Z.mod_mul by lia.
        replace (i * sc + (if decide (sc = 2) then 0 else 0)) with (i * sc) by (clear; case_decide; lia).
        by rewrite Hl.
    + intros k Hk. rewrite Hld2 by lia. decide_lia. apply Hhi. lia.
Qed.

(** ** Properties *)

(** A format is accepted exactly when it has a rate, one to four channels, and a
    mask inside the four defined channel bits with one bit per channel. *)
Theorem format_valid_iff (f : eaf_format_t) :
  format_wf f ->
  (eaf_format_valid (Some f) = true <->
    sample_rate f <> 0 /\ 1 <= num_channels f <= 4 /\ 0 <= channel_mask f < 16 /\
    popcount4 (channel_mask f) = num_channels f) /\
  eaf_format_valid None = false.
Proof. intros. split; [by apply eaf_format_valid_spec | done]. Qed.

Lemma format_valid_iff_witness :
  (eaf_format_valid (Some (Format 44100 2 3)) = true <->
    44100 <> 0 /\ 1 <= 2 <= 4 /\ 0 <= 3 < 16 /\ popcount4 3 = 2) /\
  eaf_format_valid None = false.
Proof. apply (format_valid_iff (Format 44100 2 3)). repeat split; done. Defined.

(** Widening and upmixing: the Q1.31 converters neither read nor write outside
    their arrays, sample [c] of output frame [i] is the converted channel [c] of
    input frame [i] (a mono source feeds both channels, a mono destination takes
    the left one), nothing beyond the frames is touched and 16-bit samples never
    overflow. *)
Theorem interleaved_correct (src : list Z) (frames sc : Z) (dst : list Z) (dc : Z) :
  (sc = 1 \/ sc = 2) -> (dc = 1 \/ dc = 2) -> 0 <= frames ->
  frames * sc <= zlen src -> frames * dc <= zlen dst ->
  (exists dst', eaf_q31_interleaved src frames sc dst dc = Some dst' /\ zlen dst' = zlen dst /\
    (forall k, 0 <= k < frames * dc -> ld dst' k = interleaved_at (fun x => x) src sc dc k) /\
    (forall k, frames * dc <= k -> ld dst' k = ld dst k)) /\
  (exists dst', eaf_s16_to_q31_interleaved src frames sc dst dc = Some dst' /\ zlen dst' = zlen dst /\
    (forall k, 0 <= k < frames * dc -> ld dst' k = interleaved_at eaf_pcm16_to_q31 src sc dc k) /\
    (forall k, frames * dc <= k -> ld dst' k = ld dst k)) /\
  (forall x, is_s16 x -> is_s32 (eaf_pcm16_to_q31 x)).
Proof. intros. split_and!; [by apply interleave_spec | by apply interleave_spec | auto with eaf]. Qed.

Lemma interleaved_correct_witness :
  exists dst', eaf_s16_to_q31_interleaved [1; -2; 3] 3 1 (replicate 7 0) 2 = Some dst' /\ zlen dst' = 7 /\
    (forall k, 0 <= k < 3 * 2 -> ld dst' k = interleaved_at eaf_pcm16_to_q31 [1; -2; 3] 1 2 k) /\
    (forall k, 3 * 2 <= k -> ld dst' k = ld (replicate 7 0) k).
Proof.
  destruct (interleaved_correct [1; -2; 3] 3 1 (replicate 7 0) 2) as (_ & H & _);
    [by left | by right | done | done | done | exact H].
Defined.
