(* ===== verification/Ring.v ===== *)
(** Cyclic buffers: the common mathematics of the reservoir, the decoder input
    ring, the control queue and the Bluetooth ingress queue.

    [ring_view l s n] is the queue content of a ring with storage [l]: the [n]
    elements that start at index [s], taken modulo the length of [l]. *)

From S2P Require Import Prelude.

(** Remainder of a sum below twice the modulus. *)
Lemma mod_add_cases m a k :
  0 <= a < m -> 0 <= k < m -> (a + k) mod m = if decide (a + k < m) then a + k else a + k - m.
Proof.
  intros. case_decide; [by apply Z.mod_small; lia |].
  symmetry. apply (Z.mod_unique _ _ 1); lia.
Qed.

Lemma mod_add_idemp m a k : m <> 0 -> (a + k) mod m = (a mod m + k) mod m.
Proof. intros. by rewrite Z.add_mod_idemp_l. Qed.

(** A wrapped 32-bit cursor and the unwrapped count agree modulo a power of two. *)
Lemma u32_mod_divides x m : 0 < m -> (m | 4294967296) -> u32 x mod m = x mod m.
Proof. intros Hm Hd. unfold u32. by apply Z.mod_mod_divide. Qed.

Section ring.
Context {A : Type} `{!Inhabited A}.
Implicit Types (l xs : list A) (s n w : Z).

Definition ring_view l s n : list A :=
  (fun k => l !!! Z.to_nat ((s + k) mod zlen l)) <$> seqZ 0 n.

(** The code's two-part copies into and out of a ring. *)
Definition store2 l w xs : list A :=
  let first := Z.min (zlen l - w) (zlen xs) in
  splice (splice l w (slice xs 0 first)) 0 (slice xs first (zlen xs - first)).
Definition load2 l w n : list A :=
  let first := Z.min (zlen l - w) n in slice l w first ++ slice l 0 (n - first).

Lemma ring_view_lookup l s n (k : nat) :
  Z.of_nat k < n -> ring_view l s n !! k = Some (l !!! Z.to_nat ((s + Z.of_nat k) mod zlen l)).
Proof.
  intros. unfold ring_view. rewrite list_lookup_fmap, lookup_seqZ_lt by lia.
  simpl. by rewrite Z.add_0_l.
Qed.

Lemma zlen_ring_view l s n : 0 <= n -> zlen (ring_view l s n) = n.
Proof. intros. unfold zlen, ring_view. rewrite length_fmap, length_seqZ. lia. Qed.

Lemma ring_view_length l s n : 0 <= n -> length (ring_view l s n) = Z.to_nat n.
Proof. intros. unfold ring_view. rewrite length_fmap, length_seqZ. lia. Qed.

Lemma ring_view_0 l s : ring_view l s 0 = [].
Proof. done. Qed.

Lemma ring_view_congr l s s' n :
  zlen l <> 0 -> s mod zlen l = s' mod zlen l -> ring_view l s n = ring_view l s' n.
Proof.
  intros Hl Hs. unfold ring_view. apply list_fmap_ext. intros i k _.
  rewrite mod_add_idemp by done. rewrite Hs. by rewrite <- mod_add_idemp.
Qed.

Lemma ring_view_add l s n k :
  0 <= n -> 0 <= k -> ring_view l s (n + k) = ring_view l s n ++ ring_view l (s + n) k.
Proof.
  intros. apply list_eq. intros i. destruct (decide (Z.of_nat i < n)).
  - rewrite lookup_app_l by (rewrite ring_view_length; lia).
    by rewrite !ring_view_lookup by lia.
  - rewrite lookup_app_r, ring_view_length by (rewrite ?ring_view_length; lia).
    destruct (decide (Z.of_nat i < n + k)).
    + rewrite !ring_view_lookup by lia.
      by replace (s + n + Z.of_nat (i - Z.to_nat n)) with (s + Z.of_nat i) by lia.
    + rewrite !lookup_ge_None_2 by (rewrite ring_view_length; lia). done.
Qed.

Lemma ring_view_slice l s n : 0 <= s -> 0 <= n -> s + n <= zlen l -> ring_view l s n = slice l s n.
Proof.
  intros Hs Hn Hle. apply list_eq. intros i. destruct (decide (Z.of_nat i < n)).
  - rewrite ring_view_lookup, lookup_slice by lia.
    rewrite Z.mod_small by lia. symmetry.
    replace (Z.to_nat (s + Z.of_nat i)) with (Z.to_nat s + i)%nat by lia.
    apply list_lookup_lookup_total_lt. unfold zlen in *. lia.
  - rewrite lookup_slice_ge by lia. apply lookup_ge_None_2.
    rewrite ring_view_length; lia.
Qed.

(** Reading in two parts returns the queue prefix. *)
Lemma load2_view l w n : 0 <= w < zlen l -> 0 <= n <= zlen l -> load2 l w n = ring_view l w n.
Proof.
  intros Hw Hn. unfold load2. set (first := Z.min (zlen l - w) n).
  replace n with (first + (n - first)) at 2 by lia.
  rewrite ring_view_add by lia. f_equal.
  - rewrite ring_view_slice by lia. done.
  - destruct (decide (n <= zlen l - w)).
    + replace (n - first) with 0 by lia. done.
    + rewrite (ring_view_congr _ (w + first) 0) by
        (lia || (replace (w + first) with (0 + 1 * zlen l) by lia; by rewrite Z.mod_add by lia)).
      by rewrite ring_view_slice by lia.
Qed.

Lemma zlen_store2 l w xs : 0 <= w < zlen l -> zlen xs <= zlen l -> zlen (store2 l w xs) = zlen l.
Proof.
  intros. pose proof (zlen_nonneg xs). unfold store2. rewrite zlen_splice.
  - rewrite zlen_splice; [done | lia |]. rewrite zlen_slice by lia. lia.
  - lia.
  - rewrite zlen_slice by lia. rewrite zlen_splice; [lia | lia |]. rewrite zlen_slice by lia. lia.
Qed.

(** Element [j] of the ring after a store of [xs] at [w]. *)
Lemma store2_lookup l w xs (j : nat) :
  0 <= w < zlen l -> zlen xs <= zlen l -> Z.of_nat j < zlen l ->
  store2 l w xs !! j =
    let d := if decide (w <= Z.of_nat j) then Z.of_nat j - w else Z.of_nat j - w + zlen l in
    if decide (d < zlen xs) then xs !! Z.to_nat d else l !! j.
Proof.
  intros Hw Hxs Hj. pose proof (zlen_nonneg xs). unfold store2.
  set (first := Z.min (zlen l - w) (zlen xs)).
  assert (zlen (slice xs 0 first) = first) by (rewrite zlen_slice; lia).
  assert (zlen (slice xs first (zlen xs - first)) = zlen xs - first) by (rewrite zlen_slice; lia).
  rewrite lookup_splice; [| lia | rewrite zlen_splice; lia].
  rewrite lookup_splice by lia. cbv zeta.
  repeat case_decide; rewrite ?lookup_slice by lia; try lia; try done; f_equal; lia.
Qed.

Lemma length_zlen l (k : nat) : (k < length l)%nat <-> Z.of_nat k < zlen l.
Proof. unfold zlen. lia. Qed.

(** Appending to the queue: writing [xs] at the end of the view. *)
Lemma store2_view l s n xs :
  0 <= n -> 0 < zlen l -> n + zlen xs <= zlen l ->
  ring_view (store2 l ((s + n) mod zlen l) xs) s (n + zlen xs) = ring_view l s n ++ xs.
Proof.
  intros Hn Hl Hfit. pose proof (zlen_nonneg xs) as Hx.
  set (w := (s + n) mod zlen l).
  assert (Hw : 0 <= w < zlen l) by (apply Z.mod_pos_bound; lia).
  assert (Hlen : zlen (store2 l w xs) = zlen l) by (apply zlen_store2; lia).
  apply list_eq. intros k. destruct (decide (Z.of_nat k < n + zlen xs)) as [Hk|Hk].
  2:{ rewrite !lookup_ge_None_2; [done | |];
        rewrite ?length_app, ring_view_length by lia; unfold zlen in *; lia. }
  rewrite ring_view_lookup, Hlen by lia.
  set (j := (s + Z.of_nat k) mod zlen l).
  assert (Hj : 0 <= j < zlen l) by (apply Z.mod_pos_bound; lia).
  set (s0 := s mod zlen l).
  assert (Hs0 : 0 <= s0 < zlen l) by (apply Z.mod_pos_bound; lia).
  assert (Ew : w = (s0 + n) mod zlen l) by (apply mod_add_idemp; lia).
  assert (Ej : j = (s0 + Z.of_nat k) mod zlen l) by (apply mod_add_idemp; lia).
  rewrite mod_add_cases in Ej by lia.
  pose proof (store2_lookup l w xs (Z.to_nat j) Hw ltac:(lia) ltac:(lia)) as Hst.
  cbv zeta in Hst. rewrite Z2Nat.id in Hst by lia.
  destruct (decide (Z.of_nat k < n)) as [Hkn|Hkn].
  - rewrite lookup_app_l by (rewrite ring_view_length; lia).
    rewrite ring_view_lookup by lia. fold j. f_equal. apply list_lookup_total_correct.
    rewrite Hst. clear Hst. destruct (decide (n = zlen l)) as [->|].
    + assert (xs = []) as -> by (apply zlen_0_nil; lia).
      repeat case_decide; try (exfalso; rewrite zlen_nil in *; lia).
      all: apply list_lookup_lookup_total_lt, length_zlen; lia.
    + rewrite mod_add_cases in Ew by lia. repeat case_decide; try (exfalso; lia).
      all: apply list_lookup_lookup_total_lt, length_zlen; lia.
  - rewrite lookup_app_r, ring_view_length by (rewrite ?ring_view_length; lia).
    destruct (lookup_lt_is_Some_2 xs (k - Z.to_nat n)) as [x Ex]; [apply length_zlen; lia |].
    rewrite Ex. f_equal. apply list_lookup_total_correct. rewrite Hst.
    rewrite mod_add_cases in Ew by lia.
    repeat case_decide; try (exfalso; lia); rewrite <- Ex; f_equal; lia.
Qed.

(** Popping [k] elements from the front. *)
Lemma ring_view_drop l s n k :
  0 <= k <= n -> ring_view l s n = ring_view l s k ++ ring_view l (s + k) (n - k).
Proof. intros. rewrite <- ring_view_add by lia. f_equal. lia. Qed.

Lemma ring_view_cons l s n :
  0 < n -> ring_view l s n = l !!! Z.to_nat (s mod zlen l) :: ring_view l (s + 1) (n - 1).
Proof.
  intros. rewrite (ring_view_drop l s n 1) by lia. f_equal.
  unfold ring_view. simpl. by rewrite Z.add_0_r.
Qed.

(** Single-element rings: the queues copy one slot. *)
Lemma store2_singleton l w (x : A) : 0 <= w < zlen l -> store2 l w [x] = <[Z.to_nat w := x]> l.
Proof.
  intros Hw. assert (zlen [x] = 1) by done.
  assert (Hlen : zlen (store2 l w [x]) = zlen l) by (apply zlen_store2; lia).
  apply list_eq. intros j. destruct (decide (Z.of_nat j < zlen l)) as [Hj|Hj].
  - rewrite store2_lookup by lia. cbv zeta. destruct (decide (Z.to_nat w = j)) as [<-|].
    + rewrite list_lookup_insert_eq by (apply length_zlen; lia).
      repeat case_decide; try lia. by replace (Z.of_nat (Z.to_nat w) - w) with 0 by lia.
    + rewrite list_lookup_insert_ne by done. repeat case_decide; try lia; done.
  - rewrite !lookup_ge_None_2; [done | |]; rewrite ?length_insert; unfold zlen in *; lia.
Qed.
Lemma ring_view_1 l w : ring_view l w 1 = [l !!! Z.to_nat (w mod zlen l)].
Proof. unfold ring_view. simpl. by rewrite Z.add_0_r. Qed.
Lemma ld_total l i : 0 <= i < zlen l -> ld l i = Some (l !!! Z.to_nat i).
Proof.
  intros. rewrite ld_lookup by lia. apply list_lookup_lookup_total_lt, length_zlen. lia.
Qed.
(** The code's two-part store is [store2]. *)
Lemma store_two_parts l w (data : list A) n :
  0 <= w < zlen l -> 0 <= n <= zlen l -> n <= zlen data ->
  (l1 ← memcpy l w data 0 (Z.min n (zlen l - w));
   if decide (Z.min n (zlen l - w) < n)
   then memcpy l1 0 data (Z.min n (zlen l - w)) (n - Z.min n (zlen l - w))
   else Some l1) = Some (store2 l w (slice data 0 n)).
Proof.
  intros Hw Hn Hd. set (first := Z.min n (zlen l - w)).
  rewrite memcpy_eq by lia. simpl.
  assert (Hz : zlen (slice data 0 n) = n) by (rewrite zlen_slice; lia).
  unfold store2. rewrite Hz. replace (Z.min (zlen l - w) n) with first by lia.
  assert (H1 : slice (slice data 0 n) 0 first = slice data 0 first).
  { unfold slice. rewrite !drop_0. rewrite take_take. f_equal. lia. }
  assert (H2 : slice (slice data 0 n) first (n - first) = slice data first (n - first)).
  { unfold slice. rewrite !drop_0, skipn_firstn_comm, take_take.
    f_equal. lia. }
  rewrite H1, H2. case_decide.
  - rewrite memcpy_eq; try lia; [done |]. rewrite zlen_splice; rewrite ?zlen_slice; lia.
  - replace (n - first) with 0 by lia. rewrite slice_nil_n. unfold splice at 2. simpl. done.
Qed.

Lemma store2_forall (P : A -> Prop) l w xs : Forall P l -> Forall P xs -> Forall P (store2 l w xs).
Proof.
  intros Hl Hxs. unfold store2, splice, slice. repeat apply Forall_app_2;
    repeat first [apply Forall_take | apply Forall_drop | apply Forall_app_2]; done.
Qed.

(** The code's two-part load is [load2]. *)
Lemma load_two_parts (dst : list A) l w n :
  0 <= w < zlen l -> 0 <= n <= zlen l -> n <= zlen dst ->
  (d ← memcpy dst 0 l w (Z.min n (zlen l - w));
   if decide (Z.min n (zlen l - w) < n)
   then memcpy d (Z.min n (zlen l - w)) l 0 (n - Z.min n (zlen l - w))
   else Some d) = Some (splice dst 0 (load2 l w n)).
Proof.
  intros Hw Hn Hd. set (first := Z.min n (zlen l - w)). rewrite memcpy_eq by lia. simpl.
  unfold load2. replace (Z.min (zlen l - w) n) with first by lia.
  assert (Hf : zlen (slice l w first) = first) by (rewrite zlen_slice; lia). case_decide.
  - rewrite memcpy_eq; try lia; [| rewrite zlen_splice; lia].
    rewrite <- splice_app; [by rewrite Hf | lia |]. rewrite Hf, zlen_slice; lia.
  - replace (n - first) with 0 by lia. by rewrite slice_nil_n, app_nil_r.
Qed.

End ring.

#[global] Arguments ring_view : simpl never.

(** The code's power-of-two test [!(c & (c - 1))] and the index mask. *)
Lemma land_pred_pow2 c : 0 < c -> Z.land c (c - 1) = 0 -> c = 2 ^ Z.log2 c.
Proof.
  intros Hc Hland. pose proof (Z.log2_spec c Hc) as [Hlo Hhi].
  destruct (decide (c = 2 ^ Z.log2 c)) as [|Hne]; [done |]. exfalso.
  pose proof (Z.log2_nonneg c).
  assert (Hlog : Z.log2 (c - 1) = Z.log2 c) by (apply Z.log2_unique; lia).
  assert (Hbit : Z.testbit (Z.land c (c - 1)) (Z.log2 c) = true).
  { rewrite Z.land_spec, Z.bit_log2 by lia. rewrite <- Hlog at 1. rewrite Z.bit_log2; [done |].
    assert (1 <= 2 ^ Z.log2 c) by (apply (Z.pow_le_mono_r 2 0); lia). lia. }
  by rewrite Hland, Z.bits_0 in Hbit.
Qed.

Lemma land_mask_mod x k : 0 <= k -> Z.land x (2 ^ k - 1) = x mod 2 ^ k.
Proof. intros. rewrite <- Z.land_ones by lia. rewrite Z.ones_equiv. done. Qed.

Lemma pow2_divides k : 0 <= k <= 32 -> (2 ^ k | 4294967296).
Proof.
  intros. exists (2 ^ (32 - k)). rewrite <- Z.pow_add_r by lia.
  replace (32 - k + k) with 32 by lia. done.
Qed.
