(* ===== verification/Spsc.v ===== *)
(** The single-producer single-consumer protocol shared by the reservoir
    ([core/eaf_reservoir.c]), the control queue ([core/eaf_control.c]) and the
    Bluetooth ingress queue ([apps/bt/bt_ingress.c]), at the granularity of one
    atomic access or one copy per step.

    The cursors are 32-bit words read and written with acquire/release atomics
    ([hal_atomic_get], [hal_atomic_set]); between two of them the other thread
    may take any number of steps.  A cursor unit is [ch] storage elements (the
    channels of a frame; 1 for the queues). *)

From S2P Require Import Prelude Ring.

Section spsc.
Context {A : Type} `{!Inhabited A} (cap ch : Z).

(** Program counter of the producer: before [hal_atomic_get(&write_cursor)],
    before reading the consumer's cursor, before the copy, before the publication. *)
Inductive producer_pc :=
| P_idle
| P_loaded (xs : list A) (w : Z)
| P_room (xs : list A) (w n : Z)
| P_filled (xs : list A) (w n : Z).

(** Program counter of the consumer.  [f] is the end-of-input flag it loaded
    first, [a] the number of units it then found available. *)
Inductive consumer_pc :=
| C_idle
| C_loaded (f : bool) (r : Z)
| C_avail (f : bool) (r a n : Z)
| C_copied (f : bool) (r n : Z) (ys : list A).

Record spsc := Spsc {
  cells : list A;
  rcur : Z;
  wcur : Z;
  fin : bool;
  producer : producer_pc;
  consumer : consumer_pc;
  sent : list A;     (* ghost: everything published so far *)
  recv : list A      (* ghost: everything consumed so far *)
}.

Definition spsc_init (storage : list A) : spsc := Spsc storage 0 0 false P_idle C_idle [] [].

Inductive spsc_step : spsc -> spsc -> Prop :=
| p_load xs l r w c se re :
    (* the producer starts only while [finished] is clear *)
    spsc_step (Spsc l r w false P_idle c se re) (Spsc l r w false (P_loaded xs w) c se re)
| p_check xs w0 n k l r w f c se re :
    0 <= n <= cap - u32 (w0 - r) -> k = take (Z.to_nat (n * ch)) xs -> zlen k = n * ch ->
    spsc_step (Spsc l r w f (P_loaded xs w0) c se re) (Spsc l r w f (P_room k w0 n) c se re)
| p_copy xs w0 n l r w f c se re :
    spsc_step (Spsc l r w f (P_room xs w0 n) c se re)
              (Spsc (store2 l (w0 mod cap * ch) xs) r w f (P_filled xs w0 n) c se re)
| p_publish xs w0 n l r w f c se re :
    spsc_step (Spsc l r w f (P_filled xs w0 n) c se re)
              (Spsc l r (u32 (w0 + n)) f P_idle c (se ++ xs) re)
| p_finish l r w f c se re :
    spsc_step (Spsc l r w f P_idle c se re) (Spsc l r w true P_idle c se re)
| c_load l r w f p se re :
    spsc_step (Spsc l r w f p C_idle se re) (Spsc l r w f p (C_loaded f r) se re)
| c_check f0 r0 n l r w f p se re :
    0 <= n <= u32 (w - r0) ->
    spsc_step (Spsc l r w f p (C_loaded f0 r0) se re)
              (Spsc l r w f p (C_avail f0 r0 (u32 (w - r0)) n) se re)
| c_copy f0 r0 a n l r w f p se re :
    spsc_step (Spsc l r w f p (C_avail f0 r0 a n) se re)
              (Spsc l r w f p (C_copied f0 r0 n (load2 l (r0 mod cap * ch) (n * ch))) se re)
| c_release f0 r0 n ys l r w f p se re :
    spsc_step (Spsc l r w f p (C_copied f0 r0 n ys) se re)
              (Spsc l (u32 (r0 + n)) w f p C_idle se (re ++ ys)).

(** What the constructor of each queue establishes. *)
Record spsc_geometry (storage : list A) : Prop := {
  geo_ch : 1 <= ch;
  geo_cap : 0 < cap < 4294967296;
  geo_divides : (cap | 4294967296);
  geo_len : zlen storage = cap * ch
}.

Definition producer_ok (l : list A) (R W w : Z) (p : producer_pc) : Prop :=
  match p with
  | P_idle => True
  | P_loaded xs w0 => w0 = w
  | P_room xs w0 n => w0 = w /\ 0 <= n /\ zlen xs = n * ch /\ W + n <= R + cap
  | P_filled xs w0 n =>
      w0 = w /\ 0 <= n /\ zlen xs = n * ch /\ W + n <= R + cap /\
      ring_view l (W * ch) (n * ch) = xs
  end.

Definition consumer_ok (l : list A) (R W r : Z) (c : consumer_pc) : Prop :=
  match c with
  | C_idle => True
  | C_loaded f r0 => r0 = r
  | C_avail f r0 a n => r0 = r /\ 0 <= n <= a /\ a <= W - R
  | C_copied f r0 n ys =>
      r0 = r /\ 0 <= n <= W - R /\ ys = ring_view l (R * ch) (n * ch)
  end.

(** Once the consumer has seen the end-of-input flag nothing is in flight, and
    what it then finds available is everything. *)
Definition eof_ok (R W : Z) (f : bool) (p : producer_pc) (c : consumer_pc) : Prop :=
  (f = true -> p = P_idle) /\
  match c with
  | C_idle => True
  | C_loaded f0 _ | C_copied f0 _ _ _ => f0 = true -> f = true
  | C_avail f0 _ a _ => f0 = true -> f = true /\ a = W - R
  end.

Definition spsc_inv (s : spsc) : Prop :=
  spsc_geometry (cells s) /\
  exists R W,
    rcur s = u32 R /\ wcur s = u32 W /\ 0 <= R <= W /\ W <= R + cap /\
    sent s = recv s ++ ring_view (cells s) (R * ch) ((W - R) * ch) /\
    producer_ok (cells s) R W (wcur s) (producer s) /\
    consumer_ok (cells s) R W (rcur s) (consumer s) /\
    eof_ok R W (fin s) (producer s) (consumer s).

Definition spsc_reachable (storage : list A) (s : spsc) : Prop :=
  rtc spsc_step (spsc_init storage) s.

(** *** Geometry lemmas *)

(** The storage offset the code computes from a wrapped cursor. *)
Lemma cursor_offset x :
  1 <= ch -> 0 < cap -> (cap | 4294967296) -> u32 x mod cap * ch = (x * ch) mod (cap * ch).
Proof.
  intros. rewrite u32_mod_divides by done. rewrite Z.mul_mod_distr_r by lia. done.
Qed.

Lemma cursor_distance R W :
  0 <= R <= W -> W <= R + cap -> cap < 4294967296 -> u32 (u32 W - u32 R) = W - R.
Proof. intros. word. Qed.

(** The two halves of the ring after the producer's copy. *)
Lemma store_views l R W n xs :
  spsc_geometry l -> 0 <= R <= W -> zlen xs = n * ch -> 0 <= n -> W + n <= R + cap ->
  let l' := store2 l (u32 W mod cap * ch) xs in
  zlen l' = zlen l /\
  ring_view l' (R * ch) ((W - R) * ch) = ring_view l (R * ch) ((W - R) * ch) /\
  ring_view l' (W * ch) (n * ch) = xs.
Proof.
  intros [Hch Hcap Hdiv Hlen] HRW Hxs Hn Hfit l'.
  assert (Hlen' : zlen l' = zlen l).
  { apply zlen_store2; [|nia]. rewrite cursor_offset, Hlen by (done || lia).
    apply Z.mod_pos_bound. nia. }
  pose proof (store2_view l (R * ch) ((W - R) * ch) xs ltac:(nia) ltac:(nia) ltac:(nia)) as Hv.
  replace (R * ch + (W - R) * ch) with (W * ch) in Hv by lia.
  rewrite Hlen, <- cursor_offset in Hv by (done || lia). fold l' in Hv.
  rewrite ring_view_add, Hxs in Hv by nia.
  replace (R * ch + (W - R) * ch) with (W * ch) in Hv by lia.
  apply app_inj_1 in Hv; [tauto |]. rewrite !ring_view_length by nia. done.
Qed.

Lemma geometry_preserved l l' : spsc_geometry l -> zlen l' = zlen l -> spsc_geometry l'.
Proof. intros [? ? ? ?] ?. split; try done. lia. Qed.

(** *** The invariant *)

Lemma spsc_inv_init storage : spsc_geometry storage -> spsc_inv (spsc_init storage).
Proof.
  intros Hg. pose proof (geo_cap _ Hg). split; [done |]. exists 0, 0. simpl.
  rewrite Z.mul_0_l, Z.sub_diag, Z.mul_0_l. repeat split; try done; lia.
Qed.

Ltac open_inv H :=
  destruct H as (Hg & R & W & Hr & Hw & HRW & Hfit & Hsent & Hp & Hc & He); simpl in *;
  pose proof (geo_ch _ Hg); pose proof (geo_cap _ Hg).

Lemma spsc_inv_step s s' : spsc_inv s -> spsc_step s s' -> spsc_inv s'.
Proof.
  intros Hinv Hstep. destruct Hstep; open_inv Hinv; destruct He as (He1 & He2).
  - (* p_load *) split; [done |]. exists R, W. repeat split; simpl; try done; lia.
  - (* p_check *) subst w0. split; [done |]. exists R, W. simpl.
    rewrite Hr, Hw, cursor_distance in * by lia.
    repeat split; try done; try lia. intros ->. by specialize (He1 eq_refl).
  - (* p_copy *) destruct Hp as (-> & Hn & Hxs & Hroom). subst w.
    destruct (store_views l R W n xs Hg HRW Hxs Hn Hroom) as (Hlen & Hview & Hnew).
    split; [by apply (geometry_preserved l) |]. exists R, W. simpl. rewrite Hview.
    repeat split; try done; try lia.
    + destruct c; simpl in *; try tauto. destruct Hc as (-> & Hn0 & ->). split; [done |].
      split; [done |]. symmetry.
      rewrite (ring_view_drop _ _ ((W - R) * ch) (n0 * ch)) in Hview by nia.
      rewrite (ring_view_drop l _ ((W - R) * ch) (n0 * ch)) in Hview by nia.
      apply app_inj_1 in Hview; [tauto |]. rewrite !ring_view_length by nia. done.
    + intros ->. by specialize (He1 eq_refl).
  - (* p_publish *) destruct Hp as (-> & Hn & Hxs & Hroom & Hview). subst w.
    split; [done |]. exists R, (W + n). simpl. repeat split; try done; try lia.
    + unfold u32. by rewrite Z.add_mod_idemp_l by lia.
    + rewrite Hsent, <- app_assoc. f_equal. rewrite <- Hview.
      replace ((W + n - R) * ch) with ((W - R) * ch + n * ch) by lia.
      rewrite ring_view_add by nia. repeat f_equal. lia.
    + destruct c; simpl in *; try tauto; naive_solver lia.
    + destruct c as [| | f0 r0 a n0 |]; try done. intros Hf0. destruct (He2 Hf0) as [-> ->].
      by specialize (He1 eq_refl).
  - (* p_finish *) split; [done |]. exists R, W. simpl. repeat split; try done; try lia.
    destruct c; naive_solver.
  - (* c_load *) split; [done |]. exists R, W. repeat split; simpl; try done; lia.
  - (* c_check *) subst r0. split; [done |]. exists R, W. simpl.
    rewrite Hr, Hw, cursor_distance in * by lia.
    repeat split; try done; try lia. auto.
  - (* c_copy *) destruct Hc as (-> & Hn & Ha). subst r. split; [done |]. exists R, W. simpl.
    repeat split; try done; try lia; [| naive_solver].
    destruct Hg as [Hch Hcap Hdiv Hlen].
    rewrite load2_view; [| rewrite cursor_offset, Hlen by (done || lia); apply Z.mod_pos_bound; nia
                         | nia].
    apply ring_view_congr; [nia |].
    rewrite cursor_offset, Hlen, Z.mod_mod by (done || nia). done.
  - (* c_release *) destruct Hc as (-> & Hn & ->). subst r. split; [done |].
    exists (R + n), W. simpl. repeat split; try done; try lia.
    + unfold u32. by rewrite Z.add_mod_idemp_l by lia.
    + rewrite Hsent, <- app_assoc. f_equal.
      rewrite (ring_view_drop _ _ ((W - R) * ch) (n * ch)) by nia. repeat f_equal; lia.
    + destruct p; simpl in *; try tauto; naive_solver lia.
Qed.

Lemma spsc_inv_reachable storage s :
  spsc_geometry storage -> spsc_reachable storage s -> spsc_inv s.
Proof.
  intros Hg Hr. eapply (rtc_ind_r spsc_inv); [by apply spsc_inv_init | | exact Hr].
  intros. eapply spsc_inv_step; eauto.
Qed.

(** What the consumer has received is a prefix of what was published, and at
    most the capacity is in flight. *)
Lemma spsc_prefix storage s :
  spsc_geometry storage -> spsc_reachable storage s ->
  recv s `prefix_of` sent s /\ zlen (sent s) <= zlen (recv s) + cap * ch.
Proof.
  intros Hg0 Hreach. pose proof (spsc_inv_reachable _ _ Hg0 Hreach) as Hinv. open_inv Hinv.
  rewrite Hsent. split; [by apply prefix_app_r |].
  rewrite zlen_app, zlen_ring_view by nia. nia.
Qed.

(** No data race: the cells the producer is about to write and the cells the
    consumer is about to read are disjoint. *)
Lemma spsc_race_free storage s xs w n f r a m i j :
  spsc_geometry storage -> spsc_reachable storage s ->
  producer s = P_room xs w n -> consumer s = C_avail f r a m ->
  0 <= i < n * ch -> 0 <= j < m * ch ->
  (w mod cap * ch + i) mod (cap * ch) <> (r mod cap * ch + j) mod (cap * ch).
Proof.
  intros Hg0 Hreach Hp0 Hc0 Hi Hj. pose proof (spsc_inv_reachable _ _ Hg0 Hreach) as Hinv. open_inv Hinv.
  rewrite Hp0 in Hp. rewrite Hc0 in Hc. simpl in *.
  destruct Hp as (-> & Hn & _ & Hroom). destruct Hc as (-> & Hm & Ha).
  destruct Hg as [Hch Hcap Hdiv Hlen]. rewrite Hr, Hw, !cursor_offset by (done || lia).
  rewrite !Z.add_mod_idemp_l by nia. intros Heq.
  set (d := (W * ch + i) - (R * ch + j)).
  assert (Hd : 0 < d < cap * ch) by (unfold d; nia).
  assert (Hd0 : d mod (cap * ch) = 0).
  { unfold d. rewrite Zminus_mod, Heq, Z.sub_diag. by apply Z.mod_0_l; nia. }
  rewrite Z.mod_small in Hd0; lia.
Qed.

(** A consumer that loaded the end-of-input flag before the write cursor has
    every published element within its reach. *)
Lemma spsc_eof_complete storage s r a n :
  spsc_geometry storage -> spsc_reachable storage s ->
  consumer s = C_avail true r a n -> zlen (sent s) = zlen (recv s) + a * ch.
Proof.
  intros Hg0 Hreach Hc0. pose proof (spsc_inv_reachable _ _ Hg0 Hreach) as Hinv. open_inv Hinv.
  destruct He as (_ & He). rewrite Hc0 in He. destruct (He eq_refl) as (_ & ->).
  rewrite Hsent, zlen_app, zlen_ring_view by nia. lia.
Qed.
End spsc.
