(* ===== verification/Fifo.v ===== *)
(** Abstract bounded FIFO: the contract the queues of the framework offer their
    clients, and what any client may conclude from it. *)

From S2P Require Import Prelude.

(** A bounded FIFO of [E]: an abstraction function to lists, an operation that
    appends (or reports that the queue is full) and one that removes the head. *)
Class BoundedFifo (Q E : Type) := {
  fifo_wf : Q -> Prop;
  fifo_abs : Q -> list E;
  fifo_capacity : Z;
  fifo_push : Q -> E -> ub (Q * bool);
  fifo_pop : Q -> ub (Q * option E);
  fifo_bounded q : fifo_wf q -> zlen (fifo_abs q) <= fifo_capacity;
  fifo_push_spec q x : fifo_wf q ->
    exists q' b, fifo_push q x = Some (q', b) /\ fifo_wf q' /\
      b = bool_decide (zlen (fifo_abs q) < fifo_capacity) /\
      fifo_abs q' = if b then fifo_abs q ++ [x] else fifo_abs q;
  fifo_pop_spec q : fifo_wf q ->
    exists q' o, fifo_pop q = Some (q', o) /\ fifo_wf q' /\
      match o with
      | None => fifo_abs q = [] /\ fifo_abs q' = []
      | Some x => fifo_abs q = x :: fifo_abs q'
      end
}.

Inductive fifo_op (E : Type) := Push (x : E) | Pop.
Arguments Push {E}.
Arguments Pop {E}.

Section client.
Context {Q E : Type} `{!BoundedFifo Q E}.

(** Run a script; returns the accepted pushes and the popped elements. *)
Fixpoint fifo_run (ops : list (fifo_op E)) (q : Q) : ub (Q * list E * list E) :=
  match ops with
  | [] => Some (q, [], [])
  | Push x :: ops' =>
      '(q1, b) ← fifo_push q x;
      '(q2, ins, outs) ← fifo_run ops' q1;
      Some (q2, if b : bool then x :: ins else ins, outs)
  | Pop :: ops' =>
      '(q1, o) ← fifo_pop q;
      '(q2, ins, outs) ← fifo_run ops' q1;
      Some (q2, ins, match o with Some x => x :: outs | None => outs end)
  end.

(** Nothing is lost, duplicated or reordered, whatever the client does. *)
Lemma fifo_run_conserves ops q :
  fifo_wf q ->
  exists q' ins outs, fifo_run ops q = Some (q', ins, outs) /\ fifo_wf q' /\
    fifo_abs q ++ ins = outs ++ fifo_abs q'.
Proof.
  revert q. induction ops as [|[x|] ops IH]; intros q Hwf; simpl.
  - exists q, [], []. rewrite app_nil_r. done.
  - destruct (fifo_push_spec q x Hwf) as (q1 & b & -> & Hwf1 & _ & Habs).
    destruct (IH q1 Hwf1) as (q2 & ins & outs & Hrun & Hwf2 & Heq). simpl. rewrite Hrun. simpl.
    eexists _, _, _. split; [done |]. split; [done |]. rewrite <- Heq, Habs.
    destruct b; [by rewrite <- app_assoc | done].
  - destruct (fifo_pop_spec q Hwf) as (q1 & o & -> & Hwf1 & Ho).
    destruct (IH q1 Hwf1) as (q2 & ins & outs & Hrun & Hwf2 & Heq). simpl. rewrite Hrun. simpl.
    eexists _, _, _. split; [done |]. split; [done |].
    destruct o as [x|]; [rewrite Ho; simpl; by f_equal |].
    destruct Ho as [-> H1]. by rewrite H1 in Heq.
Qed.
End client.
