(* ===== verification/Control.v ===== *)
(** The control queue: [core/eaf_control.c], [include/eaf/eaf_control.h]. *)

From S2P Require Import Prelude Ring Spsc Fifo.

Definition EAF_CONTROL_CAPACITY : Z := 16.

(** [eaf_command_type_t] *)
Definition EAF_COMMAND_STOP : Z := 0.
Definition EAF_COMMAND_SEEK : Z := 1.
Definition EAF_COMMAND_GAIN : Z := 2.

Record eaf_command_t := Command {
  cmd_type : Z;    (* eaf_command_type_t *)
  cmd_frame : Z;   (* uint64_t *)
  cmd_gain : Z     (* int32_t *)
}.
#[export] Instance eaf_command_inhabited : Inhabited eaf_command_t := populate (Command 0 0 0).
#[export] Instance eaf_command_eq_dec : EqDecision eaf_command_t.
Proof. solve_decision. Defined.

Record eaf_control_queue_t := ControlQueue {
  slots : list eaf_command_t;
  read_cursor : Z;
  write_cursor : Z
}.

Definition eaf_control_init (q : eaf_control_queue_t) : eaf_control_queue_t :=
  ControlQueue (slots q) 0 0.

Definition eaf_control_push (q : ptr eaf_control_queue_t) (command : ptr eaf_command_t)
  : ub (ptr eaf_control_queue_t * bool) :=
  on_ptr q false (fun q =>
    match command with
    | None => Some (q, false)
    | Some c =>
        let write := write_cursor q in
        if decide (u32 (write - read_cursor q) = EAF_CONTROL_CAPACITY) then Some (q, false)
        else
          slots' ← st (slots q) (write mod EAF_CONTROL_CAPACITY) c;
          Some (ControlQueue slots' (read_cursor q) (u32 (write + 1)), true)
    end).

(** [command] is the caller's storage: its content before and after the call. *)
Definition eaf_control_pop (q : ptr eaf_control_queue_t) (command : ptr eaf_command_t)
  : ub (ptr eaf_control_queue_t * (bool * ptr eaf_command_t)) :=
  on_ptr q (false, command) (fun q =>
    match command with
    | None => Some (q, (false, None))
    | Some old =>
        let read := read_cursor q in
        if decide (read = write_cursor q) then Some (q, (false, Some old))
        else
          c ← ld (slots q) (read mod EAF_CONTROL_CAPACITY);
          Some (ControlQueue (slots q) (u32 (read + 1)) (write_cursor q), (true, Some c))
    end).

(** ** The queue as a bounded FIFO *)

Record control_wf (q : eaf_control_queue_t) : Prop := {
  control_slots : zlen (slots q) = EAF_CONTROL_CAPACITY;
  control_read : is_u32 (read_cursor q);
  control_write : is_u32 (write_cursor q);
  control_level : u32 (write_cursor q - read_cursor q) <= EAF_CONTROL_CAPACITY
}.

Definition control_abs (q : eaf_control_queue_t) : list eaf_command_t :=
  ring_view (slots q) (read_cursor q) (u32 (write_cursor q - read_cursor q)).

Lemma control_slot x : u32 x mod 16 = x mod 16.
Proof. apply u32_mod_divides; [lia | by exists 268435456]. Qed.

Lemma control_push_spec q c :
  control_wf q ->
  exists q' b, eaf_control_push (Some q) (Some c) = Some (Some q', b) /\ control_wf q' /\
    b = bool_decide (zlen (control_abs q) < EAF_CONTROL_CAPACITY) /\
    control_abs q' = if b then control_abs q ++ [c] else control_abs q.
Proof.
  intros [Hs Hr Hw Hl]. unfold control_abs. rewrite zlen_ring_view by word.
  unfold eaf_control_push, on_ptr. unfold EAF_CONTROL_CAPACITY in *.
  case_decide as Hfull; simpl.
  - exists q, false. split; [done |]. split; [done |]. by rewrite bool_decide_eq_false_2 by lia.
  - rewrite st_eq by (rewrite Hs; apply Z.mod_pos_bound; lia). simpl.
    eexists _, true. split; [done |]. rewrite bool_decide_eq_true_2 by lia.
    set (n := u32 (write_cursor q - read_cursor q)) in *.
    assert (Hn : u32 (u32 (write_cursor q + 1) - read_cursor q) = n + 1) by (unfold n in *; word).
    split.
    { split; simpl; [by rewrite zlen_insert | done | apply u32_range |]. unfold EAF_CONTROL_CAPACITY. lia. }
    split; [done |]. simpl. rewrite Hn.
    pose proof (store2_view (slots q) (read_cursor q) n [c] ltac:(unfold n; word) ltac:(lia)) as Hv.
    change (zlen [c]) with 1 in Hv. specialize (Hv ltac:(lia)). rewrite <- Hv.
    assert (Hw16 : (read_cursor q + n) mod zlen (slots q) = write_cursor q mod 16).
    { rewrite Hs. unfold n. rewrite <- Z.add_mod_idemp_r, control_slot, Z.add_mod_idemp_r by lia.
      f_equal. lia. }
    rewrite Hw16, store2_singleton; [done |]. rewrite Hs. apply Z.mod_pos_bound. lia.
Qed.

Lemma control_pop_spec q old :
  control_wf q ->
  exists q' b out, eaf_control_pop (Some q) (Some old) = Some (Some q', (b, Some out)) /\
    control_wf q' /\
    if b : bool then control_abs q = out :: control_abs q'
    else q' = q /\ out = old /\ control_abs q = [].
Proof.
  intros [Hs Hr Hw Hl]. unfold eaf_control_pop, on_ptr, control_abs.
  unfold EAF_CONTROL_CAPACITY in *. case_decide as Hempty; simpl.
  - exists q, false, old. split; [done |]. split; [done |]. split; [done |]. split; [done |].
    rewrite Hempty, Z.sub_diag. done.
  - rewrite ld_total by (rewrite Hs; apply Z.mod_pos_bound; lia). simpl.
    eexists _, true, _. split; [done |]. split.
    { split; simpl; [done | apply u32_range | done | unfold EAF_CONTROL_CAPACITY; word]. }
    simpl. rewrite ring_view_cons, Hs by word. f_equal.
    replace (u32 (write_cursor q - u32 (read_cursor q + 1)))
      with (u32 (write_cursor q - read_cursor q) - 1) by word.
    apply ring_view_congr; rewrite Hs; [lia |]. by rewrite control_slot.
Qed.

Definition control_push1 (q : eaf_control_queue_t) (c : eaf_command_t) : ub (eaf_control_queue_t * bool) :=
  with_ref (fun p => eaf_control_push p (Some c)) q.
Definition control_pop1 (q : eaf_control_queue_t) : ub (eaf_control_queue_t * option eaf_command_t) :=
  '(q', (b, out)) ← with_ref (fun p => eaf_control_pop p (Some (Command 0 0 0))) q;
  Some (q', if b : bool then out else None).

#[export] Instance control_fifo : BoundedFifo eaf_control_queue_t eaf_command_t.
Proof.
  refine {| fifo_wf := control_wf; fifo_abs := control_abs; fifo_capacity := EAF_CONTROL_CAPACITY;
            fifo_push := control_push1; fifo_pop := control_pop1 |}.
  - intros q [Hs Hr Hw Hl]. unfold control_abs. rewrite zlen_ring_view by word. done.
  - intros q x Hwf. destruct (control_push_spec q x Hwf) as (q' & b & Hrun & Hrest).
    exists q', b. split; [| done]. unfold control_push1, with_ref. by rewrite Hrun.
  - intros q Hwf.
    destruct (control_pop_spec q (Command 0 0 0) Hwf) as (q' & b & out & Hrun & Hwf' & Hb).
    exists q', (if b then Some out else None). unfold control_pop1, with_ref. rewrite Hrun. simpl.
    split; [by destruct b |]. split; [done |]. destruct b; [done |]. destruct Hb as (-> & _ & ->). done.
Defined.

(** ** Concurrent producer and consumer

    A call of [eaf_control_push] is one run of the producer's steps in the
    interleaving model, a call of [eaf_control_pop] one of the consumer's. *)

Abbreviation control_step := (spsc_step EAF_CONTROL_CAPACITY 1).

Lemma control_geometry q : control_wf q -> spsc_geometry EAF_CONTROL_CAPACITY 1 (slots q).
Proof.
  intros [Hs _ _ _]. unfold EAF_CONTROL_CAPACITY in *.
  split; [lia | lia | by exists 268435456 | lia].
Qed.

Lemma control_push_steps q q' c cs se re :
  control_wf q ->
  eaf_control_push (Some q) (Some c) = Some (Some q', true) ->
  rtc control_step (Spsc (slots q) (read_cursor q) (write_cursor q) false P_idle cs se re)
    (Spsc (slots q') (read_cursor q') (write_cursor q') false P_idle cs (se ++ [c]) re).
Proof.
  intros [Hs Hr Hw Hl]. unfold eaf_control_push, on_ptr. unfold EAF_CONTROL_CAPACITY in *.
  case_decide as Hfull; [done |]. rewrite st_eq by (rewrite Hs; apply Z.mod_pos_bound; lia).
  simpl. intros [= <-]. simpl.
  eapply rtc_l; [apply (p_load _ _ [c]) |].
  eapply rtc_l; [apply (p_check _ _ _ _ 1 [c]); [word | done | done] |].
  eapply rtc_l; [apply p_copy |]. eapply rtc_l; [apply p_publish |].
  rewrite Z.mul_1_r, store2_singleton; [apply rtc_refl |]. rewrite Hs. apply Z.mod_pos_bound. lia.
Qed.

Lemma control_pop_steps q q' old c ps f se re :
  control_wf q ->
  eaf_control_pop (Some q) (Some old) = Some (Some q', (true, Some c)) ->
  rtc control_step (Spsc (slots q) (read_cursor q) (write_cursor q) f ps C_idle se re)
    (Spsc (slots q') (read_cursor q') (write_cursor q') f ps C_idle se (re ++ [c])).
Proof.
  intros [Hs Hr Hw Hl]. unfold eaf_control_pop, on_ptr. unfold EAF_CONTROL_CAPACITY in *.
  case_decide as Hempty; [done |]. rewrite ld_total by (rewrite Hs; apply Z.mod_pos_bound; lia).
  simpl. intros [= <- <-]. simpl.
  eapply rtc_l; [apply c_load |]. eapply rtc_l; [apply (c_check _ _ _ _ 1); word |].
  eapply rtc_l; [apply c_copy |]. eapply rtc_l; [apply c_release |].
  rewrite !Z.mul_1_l, Z.mul_1_r, load2_view, ring_view_1, Hs, Z.mod_mod by
    (rewrite ?Hs; try (apply Z.mod_pos_bound); lia). apply rtc_refl.
Qed.

(** ** Properties *)

Lemma control_init_wf q : zlen (slots q) = EAF_CONTROL_CAPACITY -> control_wf (eaf_control_init q).
Proof. intros. split; simpl; done. Qed.

(** From an initialised queue, whatever sequence of pushes and pops its two users
    perform, no call fails, the popped commands followed by the queued ones are
    exactly the accepted commands in order, and a push is refused exactly when
    sixteen commands are waiting. *)
Theorem control_queue_fifo (q : eaf_control_queue_t) (ops : list (fifo_op eaf_command_t)) :
  zlen (slots q) = EAF_CONTROL_CAPACITY ->
  exists q' ins outs,
    fifo_run ops (eaf_control_init q) = Some (q', ins, outs) /\ control_wf q' /\
    ins = outs ++ control_abs q' /\ zlen (control_abs q') <= EAF_CONTROL_CAPACITY /\
    forall c, exists q'' b, eaf_control_push (Some q') (Some c) = Some (Some q'', b) /\
      b = bool_decide (zlen (control_abs q') < EAF_CONTROL_CAPACITY).
Proof.
  intros Hlen. pose proof (control_init_wf q Hlen) as Hwf.
  destruct (@fifo_run_conserves _ _ control_fifo ops (eaf_control_init q) Hwf) as (q' & ins & outs & Hrun & Hwf' & Heq).
  exists q', ins, outs. split; [done |]. split; [done |]. split; [exact Heq |].
  split; [by apply (@fifo_bounded _ _ control_fifo) |]. intros c.
  destruct (control_push_spec q' c Hwf') as (q'' & b & ? & _ & ? & _). eauto.
Qed.

Lemma control_queue_fifo_witness :
  exists q' ins outs,
    fifo_run [Push (Command EAF_COMMAND_SEEK 7 0); Push (Command EAF_COMMAND_GAIN 0 5); Pop]
      (eaf_control_init (ControlQueue (replicate 16 (Command 0 0 0)) 3 9)) = Some (q', ins, outs) /\
    control_wf q' /\ ins = outs ++ control_abs q' /\ zlen (control_abs q') <= EAF_CONTROL_CAPACITY /\
    forall c, exists q'' b, eaf_control_push (Some q') (Some c) = Some (Some q'', b) /\
      b = bool_decide (zlen (control_abs q') < EAF_CONTROL_CAPACITY).
Proof. apply control_queue_fifo. reflexivity. Defined.

(** C29: With the producer and the consumer on different threads, interleaved at every
    atomic access: a complete push or pop is a run of its thread's steps, the
    consumer receives a prefix of the published commands with at most sixteen in
    flight, and the slot being written is never the slot being read. *)
Theorem control_queue_concurrent (q : eaf_control_queue_t) (s : spsc) :
  zlen (slots q) = EAF_CONTROL_CAPACITY ->
  spsc_reachable EAF_CONTROL_CAPACITY 1 (slots (eaf_control_init q)) s ->
  recv s `prefix_of` sent s /\ zlen (sent s) <= zlen (recv s) + EAF_CONTROL_CAPACITY /\
  (forall xs w f r a, producer s = P_room xs w 1 -> consumer s = C_avail f r a 1 ->
     w mod EAF_CONTROL_CAPACITY <> r mod EAF_CONTROL_CAPACITY) /\
  (forall q1 q2 c cs se re, control_wf q1 ->
     eaf_control_push (Some q1) (Some c) = Some (Some q2, true) ->
     rtc control_step (Spsc (slots q1) (read_cursor q1) (write_cursor q1) false P_idle cs se re)
       (Spsc (slots q2) (read_cursor q2) (write_cursor q2) false P_idle cs (se ++ [c]) re)) /\
  (forall q1 q2 old c ps f se re, control_wf q1 ->
     eaf_control_pop (Some q1) (Some old) = Some (Some q2, (true, Some c)) ->
     rtc control_step (Spsc (slots q1) (read_cursor q1) (write_cursor q1) f ps C_idle se re)
       (Spsc (slots q2) (read_cursor q2) (write_cursor q2) f ps C_idle se (re ++ [c]))).
Proof.
  intros Hlen Hreach. pose proof (control_geometry _ (control_init_wf q Hlen)) as Hg.
  destruct (spsc_prefix _ _ _ _ Hg Hreach) as (Hpre & Hbound). split; [done |].
  split; [lia |]. split.
  - intros xs w f r a Hp Hc Heq.
    pose proof (spsc_race_free _ _ _ _ _ _ _ _ _ _ _ 0 0 Hg Hreach Hp Hc ltac:(lia) ltac:(lia)) as Hne.
    apply Hne. rewrite !Z.mul_1_r, !Z.add_0_r. by rewrite Heq.
  - split; intros; [by apply control_push_steps | by eapply control_pop_steps].
Qed.

Lemma control_queue_concurrent_witness :
  let q := ControlQueue (replicate 16 (Command 0 0 0)) 0 0 in
  let s := Spsc (slots q) 0 0 false (P_loaded [Command 1 2 3] 0) C_idle [] [] in
  recv s `prefix_of` sent s /\ zlen (sent s) <= zlen (recv s) + EAF_CONTROL_CAPACITY.
Proof.
  intros q s.
  destruct (control_queue_concurrent q s) as (H1 & H2 & _); [reflexivity | | split; assumption].
  apply rtc_once, (p_load _ _ [Command 1 2 3]).
Defined.
