(* ===== verification/DecInput.v ===== *)
(** The bounded compressed-input ring of the callback-style decoders:
    [core/eaf_dec_input.c], [include/eaf/eaf_dec_input.h]. *)

From S2P Require Import Prelude Ring Types.

Record eaf_dec_input_t := DecInput {
  ring : ptr (list Z);   (* uint8_t *ring: the caller's storage *)
  capacity : Z;
  tail : Z;
  count : Z;
  eof : bool;
  await : Z;             (* eaf_dec_await_fn: address of the hook, 0 is NULL *)
  await_ctx : Z
}.

Definition eaf_dec_input_init (input : ptr eaf_dec_input_t) (r : ptr (list Z)) (cap aw awc : Z)
  : ptr eaf_dec_input_t :=
  match input with
  | None => None
  | Some _ => Some (DecInput r cap 0 0 false aw awc)
  end.

Definition eaf_dec_input_reset (input : ptr eaf_dec_input_t) : ptr eaf_dec_input_t :=
  i ← input; Some (DecInput (ring i) (capacity i) 0 0 false (await i) (await_ctx i)).

Definition eaf_dec_input_finish (input : ptr eaf_dec_input_t) : ptr eaf_dec_input_t :=
  i ← input; Some (DecInput (ring i) (capacity i) (tail i) (count i) true (await i) (await_ctx i)).

Definition eaf_dec_input_set_await (i : eaf_dec_input_t) (aw awc : Z) : eaf_dec_input_t :=
  DecInput (ring i) (capacity i) (tail i) (count i) (eof i) aw awc.

Definition eaf_dec_input_push (input : ptr eaf_dec_input_t) (data : list Z) (length : Z)
  : ub (ptr eaf_dec_input_t * Z) :=
  on_ptr input 0 (fun i =>
    match ring i with
    | None => Some (i, 0)
    | Some l =>
        if eof i || bool_decide (length = 0) then Some (i, 0)
        else if decide (capacity i = 0) then None  (* % capacity *)
        else
          let space := capacity i - count i in
          let take := if decide (length < space) then length else space in
          let write := (tail i + count i) mod capacity i in
          let first := capacity i - write in
          let first := if decide (take < first) then take else first in
          l ← memcpy l write data 0 first;
          l ← (if decide (first < take) then memcpy l 0 data first (take - first) else Some l);
          Some (DecInput (Some l) (capacity i) (tail i) (count i + take) (eof i) (await i)
                  (await_ctx i), take)
    end).

Definition eaf_dec_input_push_adapter (input : ptr eaf_dec_input_t) (data : list Z) (length : Z)
  : ub (ptr eaf_dec_input_t * (Z * Z)) :=
  '(i, consumed) ← eaf_dec_input_push input data length; Some (i, (consumed, EAF_OK)).

Section read.
(** [call_await fn ctx w i]: what the hook at address [fn] does to the world
    [w] and to the ring (a producer may push into it or mark its end), and the
    value it returns. *)
Context {W : Type} (call_await : Z -> Z -> W -> eaf_dec_input_t -> Z * W * eaf_dec_input_t).

(** The [while (got < length)] loop; running out of fuel is [None]. *)
Fixpoint read_loop (fuel : nat) (i : eaf_dec_input_t) (w : W) (out : list Z) (length got : Z)
  : ub (eaf_dec_input_t * W * list Z * Z) :=
  match fuel with
  | O => None
  | S fuel' =>
      if decide (got < length) then
        if decide (count i = 0) then
          if eof i || bool_decide (await i = 0) then Some (i, w, out, got)
          else
            let '(rc, w', i') := call_await (await i) (await_ctx i) w i in
            if decide (rc = 0) then read_loop fuel' i' w' out length got
            else Some (i', w', out, got)
        else
          let chunk := capacity i - tail i in
          let chunk := if decide (count i < chunk) then count i else chunk in
          let chunk := if decide (length - got < chunk) then length - got else chunk in
          l ← ring i;
          out ← memcpy out got l (tail i) chunk;
          if decide (capacity i = 0) then None else
          read_loop fuel'
            (DecInput (ring i) (capacity i) ((tail i + chunk) mod capacity i) (count i - chunk)
               (eof i) (await i) (await_ctx i)) w out length (got + chunk)
      else Some (i, w, out, got)
  end.

Definition eaf_dec_input_read (fuel : nat) (input : ptr eaf_dec_input_t) (w : W) (out : list Z)
    (length : Z) : ub (ptr eaf_dec_input_t * W * list Z * Z) :=
  match input with
  | None => Some (None, w, out, 0)
  | Some i => '(i', w', out', got) ← read_loop fuel i w out length 0; Some (Some i', w', out', got)
  end.
End read.

(** ** The ring as a byte queue *)

Record dec_input_wf (i : eaf_dec_input_t) : Prop := {
  dec_storage : exists l, ring i = Some l /\ zlen l = capacity i;
  dec_cap : 0 < capacity i;
  dec_tail : 0 <= tail i < capacity i;
  dec_count : 0 <= count i <= capacity i
}.

(** The bytes waiting to be read. *)
Definition dec_bytes (i : eaf_dec_input_t) : list Z :=
  match ring i with Some l => ring_view l (tail i) (count i) | None => [] end.

Lemma dec_bytes_length i : dec_input_wf i -> zlen (dec_bytes i) = count i.
Proof.
  intros [(l & Hr & Hl) Hcap Ht Hc]. unfold dec_bytes. rewrite Hr. apply zlen_ring_view. lia.
Qed.

Lemma dec_push_spec i data n :
  dec_input_wf i -> 0 <= n <= zlen data -> eof i = false ->
  exists i', eaf_dec_input_push (Some i) data n = Some (Some i', Z.min n (capacity i - count i)) /\
    dec_input_wf i' /\ eof i' = false /\ capacity i' = capacity i /\
    await i' = await i /\ await_ctx i' = await_ctx i /\
    dec_bytes i' = dec_bytes i ++ slice data 0 (Z.min n (capacity i - count i)).
Proof.
  intros Hwf Hn Heof. destruct Hwf as [(l & Hr & Hl) Hcap Ht Hc] eqn:E. clear E.
  unfold eaf_dec_input_push, on_ptr. rewrite Hr, Heof. simpl. case_bool_decide as H0.
  - subst n. exists i. simpl. replace (Z.min 0 (capacity i - count i)) with 0 by lia.
    rewrite slice_nil_n, app_nil_r. done.
  - rewrite decide_False by lia.
    replace (if decide (n < capacity i - count i) then n else capacity i - count i)
      with (Z.min n (capacity i - count i)) by (case_decide; lia).
    set (k := Z.min n (capacity i - count i)). set (w := (tail i + count i) mod capacity i).
    assert (0 <= w < capacity i) by (apply Z.mod_pos_bound; lia).
    replace (if decide (k < capacity i - w) then k else capacity i - w)
      with (Z.min k (zlen l - w)) by (rewrite Hl; case_decide; lia).
    pose proof (store_two_parts l w data k ltac:(lia) ltac:(lia) ltac:(lia)) as Hst.
    simpl in Hst. destruct (memcpy l w data 0 (Z.min k (zlen l - w))) as [l1|]; [|done].
    simpl in *. rewrite Hst. simpl. eexists. split; [done |].
    assert (Hsl : zlen (slice data 0 k) = k) by (rewrite zlen_slice; lia).
    assert (Hlen : zlen (store2 l w (slice data 0 k)) = zlen l) by (apply zlen_store2; lia).
    split; [split; simpl; eauto with lia |]. repeat split; simpl; try done.
    unfold dec_bytes. simpl. rewrite Hr.
    pose proof (store2_view l (tail i) (count i) (slice data 0 k) ltac:(lia) ltac:(lia) ltac:(lia)) as Hv.
    rewrite Hsl, Hl in Hv. exact Hv.
Qed.

(** Pushing, before or after the end was marked. *)
Lemma push_bounded i data n :
  dec_input_wf i -> 0 <= n <= zlen data ->
  exists i' k, eaf_dec_input_push (Some i) data n = Some (Some i', k) /\ dec_input_wf i' /\ 0 <= k <= n /\
    dec_bytes i' = dec_bytes i ++ slice data 0 k.
Proof.
  intros Hwf Hn. destruct (eof i) eqn:He.
  - exists i, 0. destruct (dec_storage i Hwf) as (l & Hr & _). unfold eaf_dec_input_push, on_ptr. rewrite Hr, He.
    simpl. rewrite slice_nil_n, app_nil_r. split_and!; done || lia.
  - destruct (dec_push_spec i data n Hwf Hn He) as (i' & -> & Hwf' & _ & _ & _ & _ & Hb). pose proof (dec_count _ Hwf).
    exists i', (Z.min n (capacity i - count i)). split_and!; done || lia.
Qed.

(** ** Reading *)
Section read_facts.
Context {W : Type} (call_await : Z -> Z -> W -> eaf_dec_input_t -> Z * W * eaf_dec_input_t).
(** [delivered w]: the bytes producers have pushed up to world [w]. *)
Context (delivered : W -> list Z).

(** The documented contract of the hook: it only appends to the ring (or marks
    its end), and it returns 0 only once data or the end has arrived. *)
Definition await_contract : Prop :=
  forall fn ctx w i, dec_input_wf i ->
    let '(rc, w', i') := call_await fn ctx w i in
    dec_input_wf i' /\
    (exists d, delivered w' = delivered w ++ d /\ dec_bytes i' = dec_bytes i ++ d) /\
    (rc = 0 -> 0 < count i' \/ eof i' = true).

(** One copied chunk. *)
Definition chunk_of (i : eaf_dec_input_t) (room : Z) : Z :=
  Z.min (Z.min (capacity i - tail i) (count i)) room.

Definition after_chunk (i : eaf_dec_input_t) (c : Z) : eaf_dec_input_t :=
  DecInput (ring i) (capacity i) ((tail i + c) mod capacity i) (count i - c) (eof i) (await i)
    (await_ctx i).

Lemma after_chunk_spec i c l :
  dec_input_wf i -> ring i = Some l -> 0 <= c <= count i -> c <= capacity i - tail i ->
  dec_input_wf (after_chunk i c) /\
  dec_bytes i = slice l (tail i) c ++ dec_bytes (after_chunk i c).
Proof.
  intros [(l' & Hr & Hl) Hcap Ht Hc] Hr' Hcc Hle. rewrite Hr in Hr'. injection Hr' as ->.
  split; [split; simpl; eauto with lia; apply Z.mod_pos_bound; lia |].
  unfold dec_bytes. simpl. rewrite Hr. rewrite (ring_view_drop l _ (count i) c) by lia.
  rewrite ring_view_slice by lia. f_equal. apply ring_view_congr; [lia |].
  rewrite Hl, Z.mod_mod by lia. done.
Qed.

Lemma read_loop_chunk fuel i w out length got :
  dec_input_wf i -> 0 <= got < length -> length <= zlen out -> 0 < count i ->
  let c := chunk_of i (length - got) in
  0 < c /\ c <= length - got /\ dec_input_wf (after_chunk i c) /\
  exists out', read_loop call_await (S fuel) i w out length got =
      read_loop call_await fuel (after_chunk i c) w out' length (got + c) /\
    zlen out' = zlen out /\
    slice out' 0 (got + c) ++ dec_bytes (after_chunk i c) = slice out 0 got ++ dec_bytes i.
Proof.
  intros Hwf Hgot Hout Hcount c. pose proof Hwf as [(l & Hr & Hl) Hcap Ht Hc].
  assert (Hcp : 0 < c /\ c <= length - got /\ c <= count i /\ c <= capacity i - tail i)
    by (unfold c, chunk_of; lia).
  destruct (after_chunk_spec i c l Hwf Hr ltac:(lia) ltac:(lia)) as (Hwf' & Hbytes).
  split; [lia |]. split; [lia |]. split; [done |].
  exists (splice out got (slice l (tail i) c)). simpl.
  rewrite decide_True, decide_False, Hr by lia. simpl.
  replace (if decide (length - got < _) then _ else _) with c.
  2:{ unfold c, chunk_of. repeat case_decide; lia. }
  rewrite memcpy_eq by lia. simpl. rewrite decide_False by lia.
  unfold after_chunk. rewrite Hr. split; [done |].
  assert (Hsl : zlen (slice l (tail i) c) = c) by (rewrite zlen_slice; lia).
  split; [apply zlen_splice; lia |]. rewrite Hbytes. unfold after_chunk. rewrite Hr, app_assoc.
  f_equal. rewrite slice_add by lia. f_equal.
  - apply list_eq. intros k. destruct (decide (Z.of_nat k < got)).
    + rewrite !lookup_slice, lookup_splice by lia. by rewrite decide_False by lia.
    + by rewrite !lookup_slice_ge by lia.
  - apply list_eq. intros k. destruct (decide (Z.of_nat k < c)).
    + rewrite lookup_slice, lookup_splice by lia. rewrite decide_True by lia. f_equal. lia.
    + rewrite lookup_slice_ge by lia. symmetry. apply lookup_ge_None_2. unfold zlen in *. lia.
Qed.

(** Reading returns the front of the queue, in order; a short count means end
    of input, no hook, or a hook that gave up. *)
Lemma read_loop_spec fuel i w out length got :
  await_contract -> dec_input_wf i -> 0 <= got -> length <= zlen out ->
  (2 * Z.to_nat (length - got) + (if decide (count i = 0)%Z then 2 else 1) <= fuel)%nat ->
  exists i' w' out' got' d,
    read_loop call_await fuel i w out length got = Some (i', w', out', got') /\
    dec_input_wf i' /\ got <= got' /\ zlen out' = zlen out /\
    delivered w' = delivered w ++ d /\
    slice out' 0 got' ++ dec_bytes i' = slice out 0 got ++ dec_bytes i ++ d /\
    (got <= length -> got' <= length).
Proof.
  intros Hcon. revert i w out got. induction fuel as [|fuel IH]; intros i w out got Hwf Hgot Hout Hf.
  { destruct (decide (count i = 0)); lia. }
  destruct (decide (got < length)) as [Hlt|Hge].
  2:{ exists i, w, out, got, []. simpl. decide_lia. rewrite !app_nil_r.
      split_and!; (done || lia). }
  destruct (decide (count i = 0)) as [Hz|Hnz].
  - simpl. decide_lia.
    destruct (eof i || bool_decide (await i = 0)) eqn:Estop.
    { exists i, w, out, got, []. rewrite !app_nil_r. split_and!; (done || lia). }
    specialize (Hcon (await i) (await_ctx i) w i Hwf).
    destruct (call_await (await i) (await_ctx i) w i) as [[rc w1] i1].
    destruct Hcon as (Hwf1 & (d1 & Hd1 & Hb1) & Hrc). destruct (decide (rc = 0)) as [Erc|Erc].
    + destruct (decide (count i1 = 0)) as [Hz1|Hnz1].
      * (* the end arrived: one more round stops *)
        destruct (Hrc Erc) as [|He1]; [lia |].
        destruct fuel as [|fuel]; [lia |].
        exists i1, w1, out, got, d1. simpl. decide_lia. rewrite He1. simpl.
        rewrite Hb1. split_and!; (done || lia).
      * destruct (IH i1 w1 out got Hwf1 Hgot Hout) as (i' & w' & out' & got' & d & Hrun & Hw' & Hg & Hlo & Hd & Heq & Hle).
        { rewrite decide_False by done. lia. }
        exists i', w', out', got', (d1 ++ d). rewrite Hrun, Hd, Hd1, Heq, Hb1, <- !app_assoc.
        split_and!; (done || lia).
    + exists i1, w1, out, got, d1. rewrite Hb1. split_and!; (done || lia).
  - assert (0 < count i) by (destruct Hwf; lia).
    destruct (read_loop_chunk fuel i w out length got Hwf ltac:(lia) Hout ltac:(lia))
      as (Hc0 & Hc1 & Hwf1 & out1 & Hrun1 & Hlen1 & Heq1).
    set (c := chunk_of i (length - got)) in *. rewrite Hrun1.
    destruct (IH (after_chunk i c) w out1 (got + c) Hwf1) as (i' & w' & out' & got' & d & Hrun & Hw' & Hg & Hlo & Hd & Heq & Hle).
    { lia. } { lia. } { destruct (decide (count (after_chunk i c) = 0)); lia. }
    exists i', w', out', got', d. rewrite Hrun, Heq, app_assoc, Heq1, <- app_assoc.
    split_and!; (done || lia).
Qed.
(** Reading what is already there never consults the hook. *)
Lemma read_loop_enough fuel i w out length got :
  dec_input_wf i -> 0 <= got <= length -> length <= zlen out -> length - got <= count i ->
  (Z.to_nat (length - got) + 1 <= fuel)%nat ->
  exists i' out', read_loop call_await fuel i w out length got = Some (i', w, out', length) /\
    dec_input_wf i' /\ zlen out' = zlen out /\
    slice out' 0 length ++ dec_bytes i' = slice out 0 got ++ dec_bytes i /\
    count i' = count i - (length - got) /\ capacity i' = capacity i /\ eof i' = eof i /\
    await i' = await i.
Proof.
  revert i out got. induction fuel as [|fuel IH]; intros i out got Hwf Hgot Hout Hcount Hf; [lia |].
  destruct (decide (got < length)) as [Hlt|Hge].
  2:{ exists i, out. simpl. decide_lia. replace got with length by lia. split_and!; done || lia. }
  destruct (read_loop_chunk fuel i w out length got Hwf ltac:(lia) Hout ltac:(lia))
    as (Hc0 & Hc1 & Hwf1 & out1 & -> & Hlen1 & Heq1).
  set (c := chunk_of i (length - got)) in *.
  destruct (IH (after_chunk i c) out1 (got + c) Hwf1) as (i' & out' & -> & Hw' & Hl & Heq & Hct & Hcap & He & Ha);
    [lia | lia | simpl; lia | lia |].
  exists i', out'. rewrite Heq, Heq1. simpl in *. split_and!; done || lia.
Qed.
End read_facts.

(** ** Properties *)

(** Pushing compressed bytes: the ring accepts as many as it has room for (none
    after the end was marked), reports that number, and appends exactly those
    bytes to the waiting ones; the adapter reports the same with [EAF_OK]. *)
Theorem dec_input_push_appends (i : eaf_dec_input_t) (data : list Z) (n : Z) :
  dec_input_wf i -> 0 <= n <= zlen data ->
  exists i' k, eaf_dec_input_push (Some i) data n = Some (Some i', k) /\
    eaf_dec_input_push_adapter (Some i) data n = Some (Some i', (k, EAF_OK)) /\
    dec_input_wf i' /\ eof i' = eof i /\
    k = (if eof i then 0 else Z.min n (capacity i - count i)) /\
    dec_bytes i' = dec_bytes i ++ slice data 0 k.
Proof.
  intros Hwf Hn. unfold eaf_dec_input_push_adapter. destruct (eof i) eqn:Heof.
  - exists i, 0. destruct (dec_storage i Hwf) as (l & Hr & _). unfold eaf_dec_input_push, on_ptr.
    rewrite Hr, Heof. simpl. rewrite slice_nil_n, app_nil_r. done.
  - destruct (dec_push_spec i data n Hwf Hn Heof) as (i' & -> & Hwf' & He & _ & _ & _ & Hb).
    exists i', (Z.min n (capacity i - count i)). simpl. done.
Qed.

Lemma dec_input_push_appends_witness :
  exists i' k, eaf_dec_input_push (Some (DecInput (Some [0; 0; 7; 8]) 4 2 2 false 0 0)) [1; 2; 3] 3
      = Some (Some i', k) /\
    eaf_dec_input_push_adapter (Some (DecInput (Some [0; 0; 7; 8]) 4 2 2 false 0 0)) [1; 2; 3] 3
      = Some (Some i', (k, EAF_OK)) /\
    dec_input_wf i' /\ eof i' = false /\ k = 2 /\ dec_bytes i' = [7; 8] ++ slice [1; 2; 3] 0 k.
Proof.
  apply (dec_input_push_appends (DecInput (Some [0; 0; 7; 8]) 4 2 2 false 0 0) [1; 2; 3] 3); [| by vm_compute].
  split; simpl; [by eexists | lia | lia | lia].
Defined.

(** Reading: for a hook that only appends and returns 0 only once data or the end
    has arrived, the read ends after at most [2 * length + 2] rounds, returns at
    most [length] bytes, and these followed by the bytes still waiting are the
    bytes that were waiting followed by those delivered meanwhile. *)
Theorem dec_input_read_fifo {W} (call_await : Z -> Z -> W -> eaf_dec_input_t -> Z * W * eaf_dec_input_t)
    (delivered : W -> list Z) (i : eaf_dec_input_t) (w : W) (out : list Z) (length : Z) :
  await_contract call_await delivered -> dec_input_wf i -> 0 <= length <= zlen out ->
  exists i' w' out' got d,
    eaf_dec_input_read call_await (2 * Z.to_nat length + 2) (Some i) w out length
      = Some (Some i', w', out', got) /\
    dec_input_wf i' /\ 0 <= got <= length /\ zlen out' = zlen out /\
    delivered w' = delivered w ++ d /\
    slice out' 0 got ++ dec_bytes i' = dec_bytes i ++ d.
Proof.
  intros Hcon Hwf Hlen.
  destruct (read_loop_spec call_await delivered (2 * Z.to_nat length + 2) i w out length 0)
    as (i' & w' & out' & got & d & Hrun & Hwf' & Hg & Ho & Hd & Heq & Hle); try done; try lia.
  { case_decide; lia. }
  exists i', w', out', got, d. unfold eaf_dec_input_read. rewrite Hrun. simpl.
  split_and!; try done; lia.
Qed.

(** A hook that delivers one byte per wait. *)
Definition one_byte_hook (fn ctx : Z) (w : list Z) (i : eaf_dec_input_t) : Z * list Z * eaf_dec_input_t :=
  if decide (count i = 0) then
    match eof i, eaf_dec_input_push (Some i) [42] 1 with
    | false, Some (Some i', k) => (0, w ++ slice [42] 0 k, i')
    | _, _ => (1, w, i)
    end
  else (1, w, i).

Lemma one_byte_hook_contract : await_contract one_byte_hook (fun w => w).
Proof.
  intros fn ctx w i Hwf. unfold one_byte_hook. case_decide as Hc.
  2:{ split; [done |]. split; [exists []; by rewrite !app_nil_r | done]. }
  destruct (eof i) eqn:He.
  { split; [done |]. split; [exists []; by rewrite !app_nil_r | done]. }
  destruct (dec_push_spec i [42] 1 Hwf ltac:(by vm_compute) He) as (i' & -> & Hwf' & _ & _ & _ & _ & Hb).
  split; [done |]. split; [eauto |]. intros _. left.
  apply (f_equal zlen) in Hb. rewrite zlen_app, !dec_bytes_length in Hb by done.
  pose proof (dec_cap i Hwf). rewrite zlen_slice in Hb by (change (zlen [42]) with 1; lia). lia.
Qed.

Lemma dec_input_read_fifo_witness :
  exists i' w' out' got d,
    eaf_dec_input_read one_byte_hook (2 * Z.to_nat 3 + 2)
      (Some (DecInput (Some [5; 6]) 2 1 1 false 1 0)) [] [0; 0; 0; 0] 3 = Some (Some i', w', out', got) /\
    dec_input_wf i' /\ 0 <= got <= 3 /\ zlen out' = zlen [0; 0; 0; 0] /\ w' = [] ++ d /\
    slice out' 0 got ++ dec_bytes i' = dec_bytes (DecInput (Some [5; 6]) 2 1 1 false 1 0) ++ d.
Proof.
  apply (dec_input_read_fifo one_byte_hook (fun w => w)
           (DecInput (Some [5; 6]) 2 1 1 false 1 0) [] [0; 0; 0; 0] 3).
  - apply one_byte_hook_contract.
  - split; simpl; [by eexists | lia | lia | lia].
  - by vm_compute.
Defined.
