(* ===== verification/Bytes.v ===== *)
(** Big-endian and decimal byte helpers: [include/eaf/eaf_bytes.h].
    Bytes are integers in [0, 256); a pointer argument is an array and an offset. *)

From S2P Require Import Prelude.

Definition eaf_bytes_read_u16 (p : list Z) (off : Z) : ub Z :=
  a ← ld p off; b ← ld p (off + 1);
  Some (u16 (Z.lor (Z.shiftl a 8) b)).

Definition eaf_bytes_read_u32 (p : list Z) (off : Z) : ub Z :=
  a ← ld p off; b ← ld p (off + 1); c ← ld p (off + 2); d ← ld p (off + 3);
  Some (Z.lor (Z.lor (Z.lor (u32 (Z.shiftl a 24)) (u32 (Z.shiftl b 16))) (u32 (Z.shiftl c 8))) d).

Definition eaf_bytes_read_u64 (p : list Z) (off : Z) : ub Z :=
  for_to 8 (fun i value => b ← ld p (off + i); Some (Z.lor (u64 (Z.shiftl value 8)) b)) 0.

Definition eaf_bytes_write_u16 (p : list Z) (off value : Z) : ub (list Z) :=
  p ← st p off (u8 (Z.shiftr value 8)); st p (off + 1) (u8 value).

Definition eaf_bytes_write_u32 (p : list Z) (off value : Z) : ub (list Z) :=
  for_to 4 (fun i p => st p (off + i) (u8 (Z.shiftr value ((3 - i) * 8)))) p.

Definition eaf_bytes_write_u64 (p : list Z) (off value : Z) : ub (list Z) :=
  for_to 8 (fun i p => st p (off + i) (u8 (Z.shiftr value (56 - 8 * i)))) p.

(** [do { digits[n++] = '0' + value % 10; value /= 10; } while (value);] on a
    20-byte array; 20 rounds cover every [uint64_t]. *)
Fixpoint dec_loop (fuel : nat) (digits : list Z) (n value : Z) : ub (list Z * Z) :=
  match fuel with
  | O => None
  | S fuel' =>
      digits' ← st digits n (48 + value mod 10);
      if decide (value / 10 = 0) then Some (digits', n + 1)
      else dec_loop fuel' digits' (n + 1) (value / 10)
  end.

Definition eaf_bytes_write_u64_dec (dst : list Z) (off capacity value : Z) : ub (list Z * Z) :=
  '(digits, n) ← dec_loop 20 (replicate 20 0) 0 value;
  if decide (capacity < n) then Some (dst, 0)
  else
    dst' ← for_to n (fun i dst => d ← ld digits (n - 1 - i); st dst (off + i) d) dst;
    Some (dst', n).

(** ** Big-endian integers *)

Definition bytes_wf (l : list Z) : Prop := Forall is_u8 l.

(** The value of a big-endian byte string. *)
Definition be_value (l : list Z) : Z := foldl (fun v b => v * 256 + b) 0 l.

(** The [n] bytes of [v], most significant first. *)
Fixpoint be_bytes (n : nat) (v : Z) : list Z :=
  match n with
  | O => []
  | S n' => be_bytes n' (v / 256) ++ [v mod 256]
  end.

Lemma land_shift_low a k b : 0 <= k -> 0 <= b < 2 ^ k -> Z.land (Z.shiftl a k) b = 0.
Proof.
  intros Hk Hb. apply Z.bits_inj'. intros n Hn. rewrite Z.land_spec, Z.bits_0.
  destruct (decide (n < k)).
  - by rewrite Z.shiftl_spec_low by lia.
  - rewrite <- (Z.mod_small b (2 ^ k)), Z.mod_pow2_bits_high by lia. apply andb_false_r.
Qed.

Lemma lor_shift_add a k b : 0 <= k -> 0 <= b < 2 ^ k -> Z.lor (Z.shiftl a k) b = a * 2 ^ k + b.
Proof.
  intros Hk Hb. rewrite <- Z.shiftl_mul_pow2 by lia.
  pose proof (Z.add_nocarry_lxor _ _ (land_shift_low a k b Hk Hb)).
  pose proof (Z.lxor_lor _ _ (land_shift_low a k b Hk Hb)). congruence.
Qed.

Lemma be_value_app l b : be_value (l ++ [b]) = be_value l * 256 + b.
Proof. unfold be_value. by rewrite foldl_app. Qed.

Lemma be_bytes_length n v : length (be_bytes n v) = n.
Proof. revert v. induction n; intros; simpl; [done |]. rewrite length_app, IHn. simpl. lia. Qed.

Lemma be_bytes_wf n v : bytes_wf (be_bytes n v).
Proof.
  revert v. induction n; intros v; cbn [be_bytes]; [constructor |].
  apply Forall_app; split; [apply IHn |]. repeat constructor; apply Z.mod_pos_bound; lia.
Qed.

Lemma be_value_bytes n v : 0 <= v < 256 ^ Z.of_nat n -> be_value (be_bytes n v) = v.
Proof.
  revert v. induction n as [|n IH]; intros v Hv; cbn [be_bytes].
  - change (256 ^ Z.of_nat 0) with 1 in Hv. unfold be_value. simpl. lia.
  - rewrite Nat2Z.inj_succ, Z.pow_succ_r in Hv by lia. rewrite be_value_app, IH.
    + pose proof (Z.div_mod v 256). lia.
    + split; [apply Z.div_pos; lia | apply Z.div_lt_upper_bound; lia].
Qed.

Lemma be_value_range l : bytes_wf l -> 0 <= be_value l < 256 ^ zlen l.
Proof.
  induction l as [|b l IH] using rev_ind; intros Hl; [by vm_compute |].
  apply Forall_app in Hl as [Hl Hb]. apply (proj1 (Forall_singleton _ _)) in Hb. unfold is_u8 in Hb.
  specialize (IH Hl). pose proof (zlen_nonneg l). rewrite be_value_app, zlen_app.
  change (zlen [b]) with 1. rewrite Z.pow_add_r, Z.pow_1_r by lia.
  set (e := 256 ^ zlen l) in *. lia.
Qed.

(** Two arrays agree with a byte string written at [off]. *)
Definition bytes_at (p : list Z) (off : Z) (bs : list Z) : Prop :=
  0 <= off /\ off + zlen bs <= zlen p /\ slice p off (zlen bs) = bs.

Lemma bytes_at_ld p off bs k b :
  bytes_at p off bs -> 0 <= k -> bs !! Z.to_nat k = Some b -> ld p (off + k) = Some b.
Proof.
  intros (Ho & Hl & Heq) Hk Hi. rewrite ld_lookup by lia.
  pose proof (lookup_lt_Some _ _ _ Hi). rewrite <- Heq, lookup_slice in Hi by (unfold zlen; lia).
  rewrite <- Hi. f_equal. lia.
Qed.

Lemma read_u16_at p off bs :
  bytes_at p off bs -> zlen bs = 2 -> bytes_wf bs -> eaf_bytes_read_u16 p off = Some (be_value bs).
Proof.
  intros Hat Hlen Hwf. destruct bs as [|a [|b [|]]]; try (unfold zlen in *; simpl in *; lia).
  unfold eaf_bytes_read_u16.
  pose proof (bytes_at_ld p off _ 0 a Hat ltac:(lia) eq_refl) as Ha.
  rewrite Z.add_0_r in Ha. rewrite Ha. cbn [mbind option_bind].
  rewrite (bytes_at_ld p off _ 1 b Hat ltac:(lia) eq_refl). simpl. f_equal.
  unfold bytes_wf in Hwf. rewrite !List.Forall_cons_iff in Hwf. unfold is_u8 in Hwf.
  rewrite lor_shift_add by lia. unfold be_value. cbn [foldl]. word.
Qed.

Lemma read_u32_at p off bs :
  bytes_at p off bs -> zlen bs = 4 -> bytes_wf bs -> eaf_bytes_read_u32 p off = Some (be_value bs).
Proof.
  intros Hat Hlen Hwf.
  destruct bs as [|a [|b [|c [|d [|]]]]]; try (unfold zlen in *; simpl in *; lia).
  unfold eaf_bytes_read_u32.
  pose proof (bytes_at_ld p off _ 0 a Hat ltac:(lia) eq_refl) as Ha.
  rewrite Z.add_0_r in Ha. rewrite Ha. cbn [mbind option_bind].
  rewrite (bytes_at_ld p off _ 1 b Hat ltac:(lia) eq_refl), (bytes_at_ld p off _ 2 c Hat ltac:(lia) eq_refl),
    (bytes_at_ld p off _ 3 d Hat ltac:(lia) eq_refl). simpl. f_equal.
  unfold bytes_wf in Hwf. rewrite !List.Forall_cons_iff in Hwf. unfold is_u8 in Hwf.
  rewrite !u32_small by (rewrite Z.shiftl_mul_pow2 by lia; word).
  rewrite <- !Z.lor_assoc, (lor_shift_add c 8 d), (lor_shift_add b 16), (lor_shift_add a 24) by lia.
  unfold be_value. cbn [foldl]. lia.
Qed.

Lemma read_u64_at p off bs :
  bytes_at p off bs -> zlen bs = 8 -> bytes_wf bs -> eaf_bytes_read_u64 p off = Some (be_value bs).
Proof.
  intros Hat Hlen Hwf. unfold eaf_bytes_read_u64.
  destruct (for_to_inv (fun i v => v = be_value (take (Z.to_nat i) bs))
    (fun i value => b ← ld p (off + i); Some (Z.lor (u64 (Z.shiftl value 8)) b)) 8 0)
    as (v & -> & ->); [lia | done | | by rewrite take_ge by (unfold zlen in *; lia)].
  intros j t Hj ->.
  destruct (lookup_lt_is_Some_2 bs (Z.to_nat j)) as [b Hb]; [unfold zlen in *; lia |].
  rewrite (bytes_at_ld p off _ j b Hat ltac:(lia) Hb). simpl. eexists. split; [done |].
  replace (Z.to_nat (j + 1)) with (S (Z.to_nat j)) by lia.
  rewrite (take_S_r _ _ _ Hb), be_value_app.
  assert (Hr : 0 <= be_value (take (Z.to_nat j) bs) < 256 ^ zlen (take (Z.to_nat j) bs)).
  { apply be_value_range. by apply Forall_take. }
  assert (256 ^ zlen (take (Z.to_nat j) bs) <= 256 ^ 7).
  { apply Z.pow_le_mono_r; [lia |]. unfold zlen in *. rewrite length_take. lia. }
  change (256 ^ 7) with 72057594037927936 in *.
  assert (is_u8 b) by (unfold bytes_wf in Hwf; rewrite Forall_lookup in Hwf; by eapply Hwf).
  unfold is_u8 in *. rewrite u64_small by (rewrite Z.shiftl_mul_pow2 by lia; word).
  rewrite lor_shift_add by lia. lia.
Qed.

Lemma splice_at (p bs : list Z) off :
  0 <= off -> off + zlen bs <= zlen p -> bytes_at (splice p off bs) off bs.
Proof.
  intros. split; [done |]. split; [rewrite zlen_splice; lia |].
  apply list_eq. intros k. destruct (decide (Z.of_nat k < zlen bs)).
  - rewrite lookup_slice, lookup_splice by lia. rewrite decide_True by lia. f_equal. lia.
  - rewrite lookup_slice_ge by lia. symmetry. apply lookup_ge_None_2. unfold zlen in *. lia.
Qed.

(** The byte strings the writers store are the big-endian representations. *)
Lemma be_bytes_16 v : be_bytes 2 v = [u8 (Z.shiftr v 8); u8 v].
Proof. cbn [be_bytes app]. by rewrite Z.shiftr_div_pow2 by lia. Qed.
Lemma be_bytes_32 v : be_bytes 4 v = (fun i => u8 (Z.shiftr v ((3 - i) * 8))) <$> seqZ 0 4.
Proof.
  cbn [be_bytes app]. rewrite !Z.div_div by lia. change (seqZ 0 4) with [0; 1; 2; 3].
  cbn [fmap list_fmap]. rewrite !Z.shiftr_div_pow2 by lia.
  change (2 ^ ((3 - 3) * 8)) with 1. by rewrite Z.div_1_r.
Qed.
Lemma be_bytes_64 v : be_bytes 8 v = (fun i => u8 (Z.shiftr v (56 - 8 * i))) <$> seqZ 0 8.
Proof.
  cbn [be_bytes app]. rewrite !Z.div_div by lia. change (seqZ 0 8) with [0; 1; 2; 3; 4; 5; 6; 7].
  cbn [fmap list_fmap]. rewrite !Z.shiftr_div_pow2 by lia.
  change (2 ^ (56 - 8 * 7)) with 1. by rewrite Z.div_1_r.
Qed.

Lemma write_u16_splice p off v :
  0 <= off -> off + 2 <= zlen p -> eaf_bytes_write_u16 p off v = Some (splice p off (be_bytes 2 v)).
Proof.
  intros. rewrite be_bytes_16. unfold eaf_bytes_write_u16.
  destruct (for_st (fun i => if decide (i = 0) then u8 (Z.shiftr v 8) else u8 v) p off 2)
    as (p' & Hrun & _ & ->); [lia.. |].
  change (for_to 2 ?f p) with (p1 ← f 0 p; p2 ← f 1 p1; Some p2) in Hrun. simpl in Hrun.
  rewrite Z.add_0_r in Hrun. destruct (st p off _) as [p1|]; [| done]. simpl in *.
  by destruct (st p1 _ _).
Qed.

Lemma write_u32_splice p off v :
  0 <= off -> off + 4 <= zlen p -> eaf_bytes_write_u32 p off v = Some (splice p off (be_bytes 4 v)).
Proof.
  intros. rewrite be_bytes_32.
  by destruct (for_st (fun i => u8 (Z.shiftr v ((3 - i) * 8))) p off 4) as (p' & ? & _ & <-);
    [lia.. |].
Qed.

Lemma write_u64_splice p off v :
  0 <= off -> off + 8 <= zlen p -> eaf_bytes_write_u64 p off v = Some (splice p off (be_bytes 8 v)).
Proof.
  intros. rewrite be_bytes_64.
  by destruct (for_st (fun i => u8 (Z.shiftr v (56 - 8 * i))) p off 8) as (p' & ? & _ & <-);
    [lia.. |].
Qed.

Lemma zlen_be_bytes n v : zlen (be_bytes n v) = Z.of_nat n.
Proof. unfold zlen. by rewrite be_bytes_length. Qed.

(** ** Decimal text *)

Definition is_digit (c : Z) : Prop := 48 <= c < 58.
Definition dec_value (l : list Z) : Z := foldl (fun v c => v * 10 + (c - 48)) 0 l.

(** The decimal digits of [v], least significant first; [k] bounds their number. *)
Fixpoint lsd_digits (k : nat) (v : Z) : list Z :=
  match k with
  | O => []
  | S k' => (48 + v mod 10) :: if decide (v / 10 = 0) then [] else lsd_digits k' (v / 10)
  end.

Definition decimal (v : Z) : list Z := rev (lsd_digits 20 v).

Lemma lsd_step k v : 0 <= v < 10 ^ Z.of_nat (S k) -> 0 <= v / 10 < 10 ^ Z.of_nat k.
Proof.
  rewrite Nat2Z.inj_succ, Z.pow_succ_r by lia. intros.
  split; [apply Z.div_pos; lia | apply Z.div_lt_upper_bound; lia].
Qed.

Lemma dec_loop_spec k digits n v :
  0 <= v < 10 ^ Z.of_nat (S k) -> 0 <= n -> n + Z.of_nat (S k) <= zlen digits ->
  exists digits', dec_loop (S k) digits n v = Some (digits', n + zlen (lsd_digits (S k) v)) /\
    zlen digits' = zlen digits /\
    (forall j, 0 <= j -> j < n -> digits' !! Z.to_nat j = digits !! Z.to_nat j) /\
    (forall j, 0 <= j < zlen (lsd_digits (S k) v) ->
       digits' !! Z.to_nat (n + j) = lsd_digits (S k) v !! Z.to_nat j).
Proof.
  revert digits n v. induction k as [|k IH]; intros digits n v Hv Hn Hfit.
  - change (10 ^ Z.of_nat 1) with 10 in Hv. simpl. rewrite st_eq by lia. simpl.
    rewrite !decide_True by (apply Z.div_small; lia). rewrite zlen_cons, zlen_nil.
    eexists. split; [done |]. split; [apply zlen_insert |]. split; intros.
    + rewrite list_lookup_insert_ne by lia. done.
    + replace j with 0 by lia. rewrite Z.add_0_r, list_lookup_insert_eq; [done |].
      unfold zlen in *. lia.
  - remember (S k) as k1. cbn [dec_loop lsd_digits]. rewrite st_eq by lia. simpl.
    assert (Hset : forall j, 0 <= j -> j < n + 1 -> <[Z.to_nat n := 48 + v mod 10]> digits !! Z.to_nat j
      = if decide (j = n) then Some (48 + v mod 10) else digits !! Z.to_nat j).
    { intros j Hj0 Hj1. case_decide as Hjn.
      - subst j. rewrite list_lookup_insert_eq by (unfold zlen in *; lia). done.
      - by rewrite list_lookup_insert_ne by lia. }
    case_decide as Hz.
    + rewrite zlen_cons, zlen_nil. eexists. split; [done |]. split; [apply zlen_insert |].
      split; intros.
      * rewrite Hset by lia. by rewrite decide_False by lia.
      * replace j with 0 by lia. rewrite Z.add_0_r, Hset by lia. by rewrite decide_True.
    + subst k1. destruct (IH (<[Z.to_nat n:=48 + v mod 10]> digits) (n + 1) (v / 10)) as
        (digits' & Hrun & Hlen & Hlo & Hhi); [by apply lsd_step | lia | rewrite zlen_insert; lia |].
      rewrite Hrun. exists digits'. rewrite zlen_cons. rewrite zlen_insert in Hlen.
      split; [do 2 f_equal; lia |]. split; [done |]. split; intros.
      * rewrite Hlo, Hset by lia. by rewrite decide_False by lia.
      * destruct (decide (j = 0)) as [->|].
        { rewrite Z.add_0_r, Hlo, Hset by lia. by rewrite decide_True. }
        replace (n + j) with (n + 1 + (j - 1)) by lia. rewrite Hhi by lia.
        replace (Z.to_nat j) with (S (Z.to_nat (j - 1))) by lia. done.
Qed.

Lemma lsd_digits_length k v : (length (lsd_digits k v) <= k)%nat.
Proof. revert v. induction k; intros v; simpl; [lia |]. case_decide; simpl; [lia |]. specialize (IHk (v / 10)). lia. Qed.

Lemma lsd_digits_value k v : 0 <= v < 10 ^ Z.of_nat k -> dec_value (rev (lsd_digits k v)) = v.
Proof.
  revert v. induction k as [|k IH]; intros v Hv.
  - change (10 ^ Z.of_nat 0) with 1 in Hv. unfold dec_value. simpl. lia.
  - cbn [lsd_digits rev]. unfold dec_value. rewrite foldl_app. cbn [foldl].
    pose proof (Z.div_mod v 10 ltac:(lia)). case_decide as Hz; [cbn; lia |].
    fold (dec_value (rev (lsd_digits k (v / 10)))). rewrite IH by (by apply lsd_step). lia.
Qed.

Lemma lsd_digits_digit k v : Forall is_digit (lsd_digits k v).
Proof.
  revert v. induction k as [|k IH]; intros v; simpl; constructor.
  - unfold is_digit. pose proof (Z.mod_pos_bound v 10). lia.
  - case_decide; [constructor | apply IH].
Qed.

(** The most significant digit is not zero, except for the number 0 itself. *)
Lemma lsd_digits_last k v :
  0 < v < 10 ^ Z.of_nat k -> exists c, list.last (lsd_digits k v) = Some c /\ c <> 48.
Proof.
  revert v. induction k as [|k IH]; intros v Hv.
  - change (10 ^ Z.of_nat 0) with 1 in Hv. lia.
  - cbn [lsd_digits]. pose proof (Z.div_mod v 10 ltac:(lia)). case_decide as Hz.
    + exists (48 + v mod 10). split; [done |]. lia.
    + pose proof (lsd_step k v ltac:(lia)).
      destruct (IH (v / 10)) as (c & Hc & Hne); [lia |]. exists c. split; [| done].
      rewrite list.last_cons, Hc. done.
Qed.

Lemma decimal_length v : 1 <= zlen (decimal v) <= 20.
Proof.
  unfold decimal, zlen. rewrite length_rev. pose proof (lsd_digits_length 20 v).
  assert (Hpos : forall k, (0 < length (lsd_digits (S k) v))%nat) by (intros; simpl; lia).
  specialize (Hpos 19%nat). lia.
Qed.

Lemma write_u64_dec_spec dst off cap v :
  is_u64 v -> 0 <= off -> 0 <= cap -> off + cap <= zlen dst ->
  eaf_bytes_write_u64_dec dst off cap v =
    Some (if decide (cap < zlen (decimal v)) then (dst, 0)
          else (splice dst off (decimal v), zlen (decimal v))).
Proof.
  intros Hv Hoff Hcap Hfit. unfold eaf_bytes_write_u64_dec.
  destruct (dec_loop_spec 19 (replicate 20 0) 0 v) as (digits & -> & Hlen & _ & Hd);
    [word_unfold; change (10 ^ Z.of_nat 20) with 100000000000000000000; lia | lia | by vm_compute |].
  set (ls := lsd_digits 20 v) in *. rewrite Z.add_0_l. simpl.
  assert (Hz : zlen (decimal v) = zlen ls) by (unfold decimal, zlen; by rewrite length_rev).
  rewrite Hz. case_decide; [done |].
  pose proof (decimal_length v) as Hb. rewrite Hz in Hb.
  assert (Hlk : forall i, 0 <= i < zlen ls -> ld digits (zlen ls - 1 - i) = decimal v !! Z.to_nat i).
  { intros i Hi. rewrite ld_lookup by lia.
    replace (zlen ls - 1 - i) with (0 + (zlen ls - 1 - i)) by lia. rewrite Hd by lia.
    unfold decimal. fold ls. rewrite List.rev_alt.
    change (List.rev_append ls []) with (reverse ls). rewrite reverse_lookup by (unfold zlen in *; lia).
    f_equal. unfold zlen in *. lia. }
  destruct (for_to_inv (fun i q => q = splice dst off (take (Z.to_nat i) (decimal v)))
    (fun i dst => d ← ld digits (zlen ls - 1 - i); st dst (off + i) d) (zlen ls) dst)
    as (d' & -> & ->); [lia | | |].
  - unfold splice. simpl. rewrite Nat.add_0_r. by rewrite take_drop.
  - intros j q Hj ->. rewrite Hlk by lia.
    destruct (lookup_lt_is_Some_2 (decimal v) (Z.to_nat j)) as [c Hc]; [unfold zlen in *; lia |].
    rewrite Hc. simpl.
    assert (Hzt : forall k, 0 <= k <= zlen ls -> zlen (take (Z.to_nat k) (decimal v)) = k)
      by (intros; unfold zlen in *; rewrite length_take; lia).
    rewrite st_eq by (rewrite zlen_splice, ?Hzt by (rewrite ?Hzt; lia); lia).
    eexists. split; [done |]. apply list_eq. intros k.
    rewrite (lookup_splice _ _ (take (Z.to_nat (j + 1)) _)) by (rewrite ?Hzt; lia). rewrite Hzt by lia.
    destruct (decide (Z.to_nat (off + j) = k)) as [<-|Hne].
    + rewrite list_lookup_insert_eq by (apply (proj2 (Nat2Z.inj_lt _ _)); fold (zlen (splice dst off (take (Z.to_nat j) (decimal v)))); rewrite zlen_splice, ?Hzt by (rewrite ?Hzt; lia); lia).
      rewrite decide_True by lia. rewrite lookup_take_lt by lia. rewrite <- Hc. f_equal. lia.
    + rewrite list_lookup_insert_ne, lookup_splice by (rewrite ?Hzt; done || lia).
      rewrite Hzt by lia. repeat case_decide; try lia; [| done].
      by rewrite !lookup_take_lt by lia.
  - simpl. do 3 f_equal. apply take_ge. unfold zlen in *. lia.
Qed.

(** ** Properties *)

(** Whatever 16-, 32- or 64-bit value the big-endian writers store is read back
    unchanged, and the bytes around it keep their values. *)
Theorem bytes_be_roundtrip (p : list Z) (off v : Z) :
  0 <= off ->
  (is_u16 v -> off + 2 <= zlen p -> exists p', eaf_bytes_write_u16 p off v = Some p' /\
     eaf_bytes_read_u16 p' off = Some v /\ zlen p' = zlen p /\
     forall k, k < off \/ off + 2 <= k -> ld p' k = ld p k) /\
  (is_u32 v -> off + 4 <= zlen p -> exists p', eaf_bytes_write_u32 p off v = Some p' /\
     eaf_bytes_read_u32 p' off = Some v /\ zlen p' = zlen p /\
     forall k, k < off \/ off + 4 <= k -> ld p' k = ld p k) /\
  (is_u64 v -> off + 8 <= zlen p -> exists p', eaf_bytes_write_u64 p off v = Some p' /\
     eaf_bytes_read_u64 p' off = Some v /\ zlen p' = zlen p /\
     forall k, k < off \/ off + 8 <= k -> ld p' k = ld p k).
Proof.
  intros Hoff.
  assert (Hframe : forall n k, off + zlen (be_bytes n v) <= zlen p ->
    k < off \/ off + zlen (be_bytes n v) <= k -> ld (splice p off (be_bytes n v)) k = ld p k).
  { intros n k Hfit Hk. unfold ld. case_decide; [| done].
    rewrite lookup_splice by lia. by rewrite decide_False by lia. }
  split_and!; intros Hv Hfit; eexists; split_and!.
  1: by apply write_u16_splice. 4: by apply write_u32_splice. 7: by apply write_u64_splice.
  1: erewrite read_u16_at. 7: erewrite read_u32_at. 13: erewrite read_u64_at.
  all: try (apply splice_at; rewrite ?zlen_be_bytes; lia).
  all: try apply zlen_be_bytes. all: try apply be_bytes_wf.
  all: try (rewrite be_value_bytes; [done | word_unfold; simpl; lia]).
  all: try (apply zlen_splice; rewrite ?zlen_be_bytes; lia).
  all: intros k Hk; apply Hframe; rewrite zlen_be_bytes; lia.
Qed.

Lemma bytes_be_roundtrip_witness :
  exists p', eaf_bytes_write_u32 [9; 9; 9; 9; 9; 9] 1 4022250974 = Some p' /\
    eaf_bytes_read_u32 p' 1 = Some 4022250974 /\ zlen p' = 6 /\
    forall k, k < 1 \/ 1 + 4 <= k -> ld p' k = ld [9; 9; 9; 9; 9; 9] k.
Proof.
  destruct (bytes_be_roundtrip [9; 9; 9; 9; 9; 9] 1 4022250974 ltac:(lia)) as (_ & H & _).
  apply H; [split; done | done].
Defined.

(** [eaf_bytes_write_u64_dec] stores the decimal representation of the value
    (digits only, no leading zero, numerically equal to it) when it fits the
    capacity, and otherwise stores nothing and returns 0. *)
Theorem write_u64_dec_correct (dst : list Z) (off cap v : Z) :
  is_u64 v -> 0 <= off -> 0 <= cap -> off + cap <= zlen dst ->
  exists text, dec_value text = v /\ Forall is_digit text /\ 1 <= zlen text <= 20 /\
    (v <> 0 -> text !! 0%nat <> Some 48) /\ (v = 0 -> text = [48]) /\
    eaf_bytes_write_u64_dec dst off cap v =
      Some (if decide (zlen text <= cap) then (splice dst off text, zlen text) else (dst, 0)).
Proof.
  intros Hv Hoff Hcap Hfit. exists (decimal v).
  assert (Hr : 0 <= v < 10 ^ Z.of_nat 20)
    by (word_unfold; change (10 ^ Z.of_nat 20) with 100000000000000000000; lia).
  split_and!.
  - by apply lsd_digits_value.
  - apply Forall_rev, lsd_digits_digit.
  - apply decimal_length.
  - apply decimal_length.
  - intros Hnz. assert (0 < v) by lia. destruct (lsd_digits_last 20 v) as (c & Hc & Hne); [tauto |].
    unfold decimal. rewrite List.rev_alt. change (List.rev_append ?l []) with (reverse l).
    rewrite <- head_lookup, head_reverse, Hc. by intros [= ->].
  - intros ->. by vm_compute.
  - rewrite write_u64_dec_spec by done. f_equal. repeat case_decide; done || lia.
Qed.

Lemma write_u64_dec_correct_witness :
  exists text, dec_value text = 4090 /\ Forall is_digit text /\ 1 <= zlen text <= 20 /\
    (4090 <> 0 -> text !! 0%nat <> Some 48) /\ (4090 = 0 -> text = [48]) /\
    eaf_bytes_write_u64_dec [0; 0; 0; 0; 0; 0] 1 5 4090 =
      Some (if decide (zlen text <= 5) then (splice [0; 0; 0; 0; 0; 0] 1 text, zlen text)
            else ([0; 0; 0; 0; 0; 0], 0)).
Proof. apply write_u64_dec_correct; [split; done | done | done | done]. Defined.
