(* ===== verification/Reservoir.v ===== *)
(** The PCM reservoir between the decoder (producer) and the audio engine
    (consumer): [core/eaf_reservoir.c], [include/eaf/eaf_reservoir.h].

    The operations below are those of the code, run to completion; the
    interleaving of their atomic accesses is the model of [Spsc]. *)

From S2P Require Import Prelude Types Ring Spsc.

Inductive eaf_reservoir_state_t :=
| EAF_RESERVOIR_PREBUFFERING
| EAF_RESERVOIR_STREAMING
| EAF_RESERVOIR_UNDERRUN
| EAF_RESERVOIR_DRAINED.
#[export] Instance eaf_reservoir_state_eq_dec : EqDecision eaf_reservoir_state_t.
Proof. solve_decision. Defined.

Record eaf_reservoir_t := Reservoir {
  storage : list Z;          (* int32_t *storage *)
  capacity : Z;
  high_watermark : Z;
  backpressure_low : Z;
  backpressure_high : Z;
  format : eaf_format_t;
  read_cursor : Z;
  write_cursor : Z;
  finished : Z;
  state : eaf_reservoir_state_t;
  underruns : Z;             (* uint32_t *)
  frames_read : Z;           (* uint64_t *)
  last : list Z;             (* int32_t last[EAF_MAX_CHANNELS] *)
  wake_producer : Z;         (* address of the hook, 0 is NULL *)
  wake_ctx : Z
}.

Definition channels (r : eaf_reservoir_t) : Z := num_channels (format r).

Definition set_storage (l : list Z) (r : eaf_reservoir_t) : eaf_reservoir_t :=
  Reservoir l (capacity r) (high_watermark r) (backpressure_low r) (backpressure_high r) (format r)
    (read_cursor r) (write_cursor r) (finished r) (state r) (underruns r) (frames_read r) (last r)
    (wake_producer r) (wake_ctx r).
Definition set_write_cursor (w : Z) (r : eaf_reservoir_t) : eaf_reservoir_t :=
  Reservoir (storage r) (capacity r) (high_watermark r) (backpressure_low r) (backpressure_high r)
    (format r) (read_cursor r) w (finished r) (state r) (underruns r) (frames_read r) (last r)
    (wake_producer r) (wake_ctx r).
Definition set_finished (f : Z) (r : eaf_reservoir_t) : eaf_reservoir_t :=
  Reservoir (storage r) (capacity r) (high_watermark r) (backpressure_low r) (backpressure_high r)
    (format r) (read_cursor r) (write_cursor r) f (state r) (underruns r) (frames_read r) (last r)
    (wake_producer r) (wake_ctx r).
(** The consumer's fields. *)
Definition set_consumer (read : Z) (s : eaf_reservoir_state_t) (u fr : Z) (la : list Z)
    (r : eaf_reservoir_t) : eaf_reservoir_t :=
  Reservoir (storage r) (capacity r) (high_watermark r) (backpressure_low r) (backpressure_high r)
    (format r) read (write_cursor r) (finished r) s u fr la (wake_producer r) (wake_ctx r).

Definition storage_store (l : list Z) (capacity start : Z) (src : list Z) (frames channels : Z)
  : ub (list Z) :=
  let slot := Z.land start (u32 (capacity - 1)) in
  let first := u32 (capacity - slot) in
  let first := if decide (frames < first) then frames else first in
  l ← memcpy l (slot * channels) src 0 (first * channels);
  if decide (first < frames) then memcpy l 0 src (first * channels) ((frames - first) * channels)
  else Some l.

Definition storage_load (dst l : list Z) (capacity start frames channels : Z) : ub (list Z) :=
  let slot := Z.land start (u32 (capacity - 1)) in
  let first := u32 (capacity - slot) in
  let first := if decide (frames < first) then frames else first in
  dst ← memcpy dst 0 l (slot * channels) (first * channels);
  if decide (first < frames) then memcpy dst (first * channels) l 0 ((frames - first) * channels)
  else Some dst.

Definition eaf_reservoir_reset (r : eaf_reservoir_t) : eaf_reservoir_t :=
  Reservoir (storage r) (capacity r) (high_watermark r) (backpressure_low r) (backpressure_high r)
    (format r) 0 0 0 EAF_RESERVOIR_PREBUFFERING 0 0 (replicate 4 0) (wake_producer r) (wake_ctx r).

(** [size_max] is the target's [SIZE_MAX]. *)
Definition eaf_reservoir_init (size_max : Z) (r : ptr eaf_reservoir_t) (st : ptr (list Z))
    (capacity : Z) (fmt : eaf_format_t) (high_watermark : Z) : ub (ptr eaf_reservoir_t * Z) :=
  on_ptr r EAF_INVALID (fun r =>
    match st with
    | None => Some (r, EAF_INVALID)
    | Some l =>
        if negb (eaf_format_valid (Some fmt)) || bool_decide (capacity < 2)
           || bool_decide (UINT32_MAX / 2 < capacity)
           || negb (bool_decide (Z.land capacity (u32 (capacity - 1)) = 0))
           || bool_decide (high_watermark = 0) || bool_decide (capacity < high_watermark)
           || bool_decide (size_max / 4 / num_channels fmt < capacity)
        then Some (r, EAF_INVALID)
        else Some (eaf_reservoir_reset
          (Reservoir l capacity high_watermark (capacity / 2) (capacity - capacity / 10) fmt 0 0 0
             EAF_RESERVOIR_PREBUFFERING 0 0 (replicate 4 0) 0 0), EAF_OK)
    end).

Definition eaf_reservoir_level (r : eaf_reservoir_t) : Z :=
  let level := u32 (write_cursor r - read_cursor r) in
  if decide (capacity r < level) then capacity r else level.

Definition eaf_reservoir_backpressure (r : eaf_reservoir_t) : bool :=
  bool_decide (backpressure_high r <= eaf_reservoir_level r).

Definition eaf_reservoir_write (r : ptr eaf_reservoir_t) (src : ptr (list Z)) (frames : Z)
  : ub (ptr eaf_reservoir_t * Z) :=
  on_ptr r 0 (fun r =>
    match src with
    | None => Some (r, 0)
    | Some src =>
        if negb (bool_decide (finished r = 0)) then Some (r, 0)
        else
          let write := write_cursor r in
          let available := u32 (capacity r - u32 (write - read_cursor r)) in
          let frames := if decide (available < frames) then available else frames in
          l ← storage_store (storage r) (capacity r) write src frames (channels r);
          Some (set_write_cursor (u32 (write + frames)) (set_storage l r), frames)
    end).

Definition eaf_reservoir_finish (r : ptr eaf_reservoir_t) : ptr eaf_reservoir_t :=
  set_finished 1 <$> r.

(** The underrun ramp: [fade] frames falling linearly from the last real sample. *)
Definition ramp_loop (cells from : list Z) (take fade channels : Z) : ub (list Z) :=
  for_to fade (fun i cells =>
    for_to channels (fun ch cells =>
      x ← ld from ch;
      st cells ((take + i) * channels + ch) (s32 (Z.quot (x * (fade - i - 1)) fade))) cells) cells.

(** One pull into [buf] whose sample cells are [cells].  Returns the reservoir,
    the descriptor, the cells and the wake hooks called, as (function, context). *)
Definition pull_body (r : eaf_reservoir_t) (buf : eaf_buffer_t) (cells : list Z)
  : ub (eaf_reservoir_t * eaf_buffer_t * list Z * list (Z * Z)) :=
  let fin := negb (bool_decide (finished r = 0)) in
  let read := read_cursor r in
  let available := u32 (write_cursor r - read) in
  let n := frame_count buf in
  let ch := channels r in
  let buf := set_flags 0 (set_format (format r) buf) in
  let take := if decide (available < n) then available else n in
  if fin then
    cells ← storage_load cells (storage r) (capacity r) read take ch;
    cells ← memset cells (take * ch) 0 ((n - take) * ch);
    let st := if decide (available <= n) then EAF_RESERVOIR_DRAINED else EAF_RESERVOIR_STREAMING in
    let fl := if decide (take = 0) then Z.lor (flags buf) EAF_FRAME_SILENCE else flags buf in
    let fl := if decide (st = EAF_RESERVOIR_DRAINED) then Z.lor fl EAF_FRAME_EOS else fl in
    Some (set_consumer (u32 (read + take)) st (underruns r) (u64 (frames_read r + take)) (last r) r,
          set_flags fl buf, cells, [])
  else
    let st := if decide (state r = EAF_RESERVOIR_UNDERRUN) then EAF_RESERVOIR_STREAMING
              else state r in
    let st := if bool_decide (st = EAF_RESERVOIR_PREBUFFERING)
                 && bool_decide (high_watermark r <= available) && bool_decide (n <= available)
              then EAF_RESERVOIR_STREAMING else st in
    let wake (available : Z) :=
      if bool_decide (available < backpressure_low r) && negb (bool_decide (wake_producer r = 0))
      then [(wake_producer r, wake_ctx r)] else [] in
    if decide (st = EAF_RESERVOIR_STREAMING) then
      cells ← storage_load cells (storage r) (capacity r) read take ch;
      if decide (take < n) then
        from ← (if decide (take = 0) then ldn (last r) 0 ch else ldn cells ((take - 1) * ch) ch);
        cells ← memset cells (take * ch) 0 ((n - take) * ch);
        let fade := if decide (n - take < 16) then n - take else 16 in
        cells ← ramp_loop cells from take fade ch;
        Some (set_consumer (u32 (read + take)) EAF_RESERVOIR_UNDERRUN (u32 (underruns r + 1))
                (u64 (frames_read r + take)) (replicate 4 0) r,
              set_flags EAF_FRAME_UNDERRUN buf, cells, wake (available - take))
      else
        la ← memcpy (last r) 0 cells ((n - 1) * ch) ch;
        Some (set_consumer (u32 (read + take)) st (underruns r) (u64 (frames_read r + take)) la r,
              buf, cells, wake (available - take))
    else
      cells ← memset cells 0 0 (n * ch);
      Some (set_consumer read st (underruns r) (frames_read r) (last r) r,
            set_flags EAF_FRAME_SILENCE buf, cells, wake available).

(** The guard of [eaf_reservoir_pull]; dividing by zero channels is undefined. *)
Definition pull_invalid (r : eaf_reservoir_t) (buf : eaf_buffer_t) : ub bool :=
  if bool_decide (samples buf = 0) || bool_decide (frame_count buf = 0)
     || bool_decide (capacity_frames buf < frame_count buf)
     || bool_decide (capacity r < frame_count buf)
  then Some true
  else if decide (channels r = 0) then None
  else Some (bool_decide (capacity_samples buf / channels r < frame_count buf)).

Definition eaf_reservoir_pull (r : ptr eaf_reservoir_t) (buf : ptr eaf_buffer_t) (cells : list Z)
  : ub (ptr eaf_reservoir_t * ptr eaf_buffer_t * list Z * list (Z * Z) * Z) :=
  match r, buf with
  | Some r, Some buf =>
      bad ← pull_invalid r buf;
      if bad : bool then Some (Some r, Some buf, cells, [], EAF_INVALID)
      else
        '(r', buf', cells', wakes) ← pull_body r buf cells;
        Some (Some r', Some buf', cells', wakes, EAF_OK)
  | r, buf => Some (r, buf, cells, [], EAF_INVALID)
  end.

(** ** Well-formedness and content *)

Record reservoir_wf (r : eaf_reservoir_t) : Prop := {
  rwf_pow2 : exists k, 1 <= k <= 30 /\ capacity r = 2 ^ k;
  rwf_channels : 1 <= channels r <= 4;
  rwf_storage : zlen (storage r) = capacity r * channels r;
  rwf_read : is_u32 (read_cursor r);
  rwf_write : is_u32 (write_cursor r);
  rwf_level : u32 (write_cursor r - read_cursor r) <= capacity r;
  rwf_watermark : 0 < high_watermark r <= capacity r;
  rwf_last : zlen (last r) = 4;
  rwf_frames_read : is_u64 (frames_read r);
  rwf_samples : Forall is_s32 (storage r);
  rwf_last_samples : Forall is_s32 (last r)
}.

(** Frames waiting, and the interleaved samples they hold. *)
Definition level (r : eaf_reservoir_t) : Z := u32 (write_cursor r - read_cursor r).
Definition res_frames (r : eaf_reservoir_t) : list Z :=
  ring_view (storage r) (read_cursor r * channels r) (level r * channels r).

Lemma reservoir_capacity r : reservoir_wf r -> 2 <= capacity r <= 1073741824.
Proof.
  intros H. destruct (rwf_pow2 r H) as (k & Hk & ->).
  split; [apply (Z.pow_le_mono_r 2 1); lia | apply (Z.pow_le_mono_r 2 k 30); lia].
Qed.

Lemma reservoir_geometry r : reservoir_wf r -> spsc_geometry (capacity r) (channels r) (storage r).
Proof.
  intros H. pose proof (reservoir_capacity r H). pose proof (rwf_channels r H).
  split; [lia | lia | | apply H].
  destruct (rwf_pow2 r H) as (k & Hk & ->). apply pow2_divides. lia.
Qed.

Lemma level_range r : reservoir_wf r -> 0 <= level r <= capacity r.
Proof. intros H. split; [unfold level; word | apply H]. Qed.

Lemma zlen_res_frames r : reservoir_wf r -> zlen (res_frames r) = level r * channels r.
Proof.
  intros H. pose proof (level_range r H). pose proof (rwf_channels r H). apply zlen_ring_view. nia.
Qed.

Lemma write_cursor_level r : reservoir_wf r -> write_cursor r = u32 (read_cursor r + level r).
Proof. intros H. pose proof (rwf_write r H). unfold level. word. Qed.

(** The slot mask and the two copies. *)
Lemma slot_mod r x : reservoir_wf r -> Z.land x (u32 (capacity r - 1)) = x mod capacity r.
Proof.
  intros H. pose proof (reservoir_capacity r H). rewrite u32_small by word.
  destruct (rwf_pow2 r H) as (k & Hk & ->). apply land_mask_mod. lia.
Qed.

Lemma storage_store_eq r start src frames :
  reservoir_wf r -> 0 <= frames <= capacity r -> frames * channels r <= zlen src ->
  storage_store (storage r) (capacity r) start src frames (channels r) =
    Some (store2 (storage r) (start mod capacity r * channels r) (slice src 0 (frames * channels r))).
Proof.
  intros H Hf Hs. pose proof (reservoir_capacity r H). pose proof (rwf_channels r H).
  pose proof (rwf_storage r H) as Hl. unfold storage_store. rewrite slot_mod by done.
  set (slot := start mod capacity r). set (ch := channels r) in *.
  assert (Hslot : 0 <= slot < capacity r) by (apply Z.mod_pos_bound; lia).
  rewrite u32_small by word.
  set (first := if decide (frames < capacity r - slot) then frames else capacity r - slot).
  assert (Hmin : first * ch = Z.min (frames * ch) (zlen (storage r) - slot * ch))
    by (unfold first; case_decide; nia).
  rewrite <- (store_two_parts (storage r) (slot * ch) src (frames * ch)) by nia.
  rewrite <- Hmin. replace (frames * ch - first * ch) with ((frames - first) * ch) by lia.
  destruct (memcpy _ _ _ _ _); [| done]. simpl.
  destruct (decide (first < frames)), (decide (first * ch < frames * ch)); done || nia.
Qed.

Lemma storage_load_eq r dst start frames :
  reservoir_wf r -> 0 <= frames <= capacity r -> frames * channels r <= zlen dst ->
  storage_load dst (storage r) (capacity r) start frames (channels r) =
    Some (splice dst 0 (ring_view (storage r) (start * channels r) (frames * channels r))).
Proof.
  intros H Hf Hs. pose proof (reservoir_capacity r H). pose proof (rwf_channels r H).
  pose proof (rwf_storage r H) as Hl. unfold storage_load. rewrite slot_mod by done.
  set (slot := start mod capacity r). set (ch := channels r) in *.
  assert (Hslot : 0 <= slot < capacity r) by (apply Z.mod_pos_bound; lia).
  rewrite u32_small by word.
  set (first := if decide (frames < capacity r - slot) then frames else capacity r - slot).
  assert (Hmin : first * ch = Z.min (frames * ch) (zlen (storage r) - slot * ch))
    by (unfold first; case_decide; nia).
  replace (ring_view (storage r) (start * ch) (frames * ch)) with (load2 (storage r) (slot * ch) (frames * ch)).
  2:{ rewrite load2_view by nia. apply ring_view_congr; [nia |]. rewrite Hl. unfold slot.
      rewrite Z.mul_mod_distr_r by lia. rewrite Z.mul_mod_distr_r by lia. by rewrite Z.mod_mod by lia. }
  rewrite <- load_two_parts by nia. rewrite <- Hmin.
  replace (frames * ch - first * ch) with ((frames - first) * ch) by lia.
  destruct (memcpy _ _ _ _ _); [| done]. simpl.
  destruct (decide (first < frames)), (decide (first * ch < frames * ch)); done || nia.
Qed.

Lemma res_write_spec r src frames :
  reservoir_wf r -> 0 <= frames -> frames * channels r <= zlen src -> Forall is_s32 src ->
  finished r = 0 ->
  let k := Z.min frames (capacity r - level r) in
  exists l, eaf_reservoir_write (Some r) (Some src) frames =
      Some (Some (set_write_cursor (u32 (write_cursor r + k)) (set_storage l r)), k) /\
    reservoir_wf (set_write_cursor (u32 (write_cursor r + k)) (set_storage l r)) /\
    res_frames (set_write_cursor (u32 (write_cursor r + k)) (set_storage l r)) =
      res_frames r ++ slice src 0 (k * channels r).
Proof.
  intros H Hf Hs Hs32 Hfin k. pose proof (reservoir_capacity r H). pose proof (rwf_channels r H).
  pose proof (level_range r H) as Hlv. pose proof (write_cursor_level r H) as Hw.
  pose proof (rwf_read r H). unfold eaf_reservoir_write, on_ptr. rewrite Hfin. simpl.
  fold (level r). rewrite (u32_small (capacity r - level r)) by word.
  replace (if decide (capacity r - level r < frames) then _ else _) with k by (unfold k; case_decide; lia).
  assert (Hk : 0 <= k <= capacity r - level r) by lia.
  rewrite storage_store_eq by (done || nia). simpl. eexists. split; [done |].
  assert (Hsl : zlen (slice src 0 (k * channels r)) = k * channels r) by (rewrite zlen_slice; nia).
  destruct (store_views _ _ (storage r) (read_cursor r) (read_cursor r + level r) k
    (slice src 0 (k * channels r)) (reservoir_geometry r H)) as (Hlen & Hv1 & Hv2);
    [word | done | lia | lia |].
  rewrite <- Hw in Hlen, Hv1, Hv2. set (l := store2 _ _ _) in *.
  assert (Hlevel : level (set_write_cursor (u32 (write_cursor r + k)) (set_storage l r)) = level r + k)
    by (unfold level in *; simpl; word).
  split.
  - destruct H. split; simpl in *; try done; [by rewrite Hlen | apply u32_range | |].
    + unfold level in Hlevel at 1. simpl in Hlevel. rewrite Hlevel. lia.
    + apply store2_forall; [done |]. by apply Forall_take, Forall_drop.
  - unfold res_frames. rewrite Hlevel. simpl. unfold channels in *. simpl.
    rewrite Z.mul_add_distr_r, ring_view_add by nia.
    replace ((read_cursor r + level r - read_cursor r)) with (level r) in Hv1 by lia.
    rewrite Hv1. f_equal. etrans; [| exact Hv2]. f_equal. lia.
Qed.

(** ** What a pull delivers

    The reference: from the waiting samples [content], the block of [n] frames,
    the number of queued frames it contains, the next state and the flags. *)

Definition ramp_frame (from : list Z) (ch fade i : Z) : list Z :=
  (fun c => Z.quot ((from !!! Z.to_nat c) * (fade - i - 1)) fade) <$> seqZ 0 ch.
Definition ramp (from : list Z) (ch fade : Z) : list Z :=
  concat (ramp_frame from ch fade <$> seqZ 0 fade).
Definition zeros (n : Z) : list Z := replicate (Z.to_nat n) 0.

Record pulled := Pulled {
  block : list Z;
  taken : Z;
  next_state : eaf_reservoir_state_t;
  block_flags : Z
}.

Definition streaming (st : eaf_reservoir_state_t) (hw n avail : Z) : bool :=
  match st with
  | EAF_RESERVOIR_STREAMING | EAF_RESERVOIR_UNDERRUN => true
  | EAF_RESERVOIR_PREBUFFERING => bool_decide (hw <= avail) && bool_decide (n <= avail)
  | EAF_RESERVOIR_DRAINED => false
  end.

Definition reference_pull (fin : bool) (hw ch n : Z) (st : eaf_reservoir_state_t)
    (content la : list Z) : pulled :=
  let avail := zlen content / ch in
  let k := Z.min avail n in
  let head := slice content 0 (k * ch) in
  if fin then
    Pulled (head ++ zeros ((n - k) * ch)) k
      (if decide (avail <= n) then EAF_RESERVOIR_DRAINED else EAF_RESERVOIR_STREAMING)
      ((if decide (k = 0) then EAF_FRAME_SILENCE else 0)
       + (if decide (avail <= n) then EAF_FRAME_EOS else 0))
  else if streaming st hw n avail then
    if decide (avail < n) then
      let from := if decide (k = 0) then la else slice content ((k - 1) * ch) ch in
      let fade := Z.min (n - k) 16 in
      Pulled (head ++ ramp from ch fade ++ zeros ((n - k - fade) * ch)) k
        EAF_RESERVOIR_UNDERRUN EAF_FRAME_UNDERRUN
    else Pulled head n EAF_RESERVOIR_STREAMING 0
  else Pulled (zeros (n * ch)) 0 st EAF_FRAME_SILENCE.

(** A sample buffer the pipeline hands to [eaf_reservoir_pull]. *)
Definition pull_ok (r : eaf_reservoir_t) (buf : eaf_buffer_t) (cells : list Z) : Prop :=
  samples buf <> 0 /\ 0 < frame_count buf /\ frame_count buf <= capacity_frames buf /\
  frame_count buf <= capacity r /\ frame_count buf <= capacity_samples buf / channels r /\
  capacity_samples buf <= zlen cells.

Lemma ring_view_forall (P : Z -> Prop) (l : list Z) s n :
  Forall P l -> 0 < zlen l -> Forall P (ring_view l s n).
Proof.
  intros Hl Hn. apply Forall_lookup. intros i x. unfold ring_view. rewrite list_lookup_fmap.
  destruct (seqZ 0 n !! i) as [k|]; [intros [= <-] | done].
  rewrite Forall_lookup in Hl. eapply Hl. apply list_lookup_lookup_total_lt, length_zlen.
  pose proof (Z.mod_pos_bound (s + k) (zlen l)). lia.
Qed.

(** A ramp sample lies between zero and the sample it starts from. *)
Lemma quot_ramp_between x fade i :
  0 <= i < fade -> Z.min 0 x <= Z.quot (x * (fade - i - 1)) fade <= Z.max 0 x.
Proof.
  intros Hi. split; [apply Z.quot_le_lower_bound | apply Z.quot_le_upper_bound]; nia.
Qed.

Lemma quot_ramp_range x fade i :
  is_s32 x -> 0 <= i < fade -> is_s32 (Z.quot (x * (fade - i - 1)) fade).
Proof. intros Hx Hi. pose proof (quot_ramp_between x fade i Hi). unfold is_s32 in *. lia. Qed.

Lemma zlen_ramp_frame from ch fade i : 0 <= ch -> zlen (ramp_frame from ch fade i) = ch.
Proof. intros. unfold ramp_frame. rewrite zlen_fmap. by apply zlen_seqZ. Qed.

Lemma ramp_ext f g ch fade :
  (forall c, 0 <= c < ch -> f !!! Z.to_nat c = g !!! Z.to_nat c) -> ramp f ch fade = ramp g ch fade.
Proof.
  intros Hfg. unfold ramp. f_equal. apply list_fmap_ext. intros _ i _. unfold ramp_frame.
  apply list_fmap_ext. intros j c Hc. rewrite Hfg; [done |].
  apply lookup_seqZ in Hc. lia.
Qed.

Lemma ramp_loop_eq cells from k fade ch :
  0 <= k -> 0 < ch -> 0 <= fade -> (k + fade) * ch <= zlen cells -> ch <= zlen from ->
  Forall is_s32 from ->
  ramp_loop cells from k fade ch = Some (splice cells (k * ch) (ramp from ch fade)) /\
  zlen (ramp from ch fade) = fade * ch.
Proof.
  intros Hk Hch Hf Hfit Hfrom Hs32. unfold ramp_loop, ramp.
  apply for_blocks; try nia; [| intros; apply zlen_ramp_frame; lia].
  intros i q Hi Hq. replace (k * ch + i * ch) with ((k + i) * ch) by lia. unfold ramp_frame.
  destruct (for_st (fun c => Z.quot ((from !!! Z.to_nat c) * (fade - i - 1)) fade) q ((k + i) * ch) ch)
    as (q' & Hrun & _ & <-); [nia | lia | nia |].
  rewrite <- Hrun. apply for_to_ext. intros c cells' Hc.
  rewrite ld_total by lia. simpl. f_equal. apply s32_small, quot_ramp_range; [| lia].
  rewrite Forall_lookup in Hs32. eapply Hs32.
  apply list_lookup_lookup_total_lt, length_zlen. lia.
Qed.

(** ** The pull *)

(** The consumer's cursor after [k] frames. *)
Lemma consume_spec r k s u fr la :
  reservoir_wf r -> 0 <= k <= level r -> is_u64 fr -> zlen la = 4 -> Forall is_s32 la ->
  let r' := set_consumer (u32 (read_cursor r + k)) s u fr la r in
  reservoir_wf r' /\ level r' = level r - k /\
  res_frames r = slice (res_frames r) 0 (k * channels r) ++ res_frames r'.
Proof.
  intros H Hk Hfr Hla Hs32 r'. pose proof (reservoir_capacity r H). pose proof (rwf_channels r H).
  pose proof (level_range r H). pose proof (rwf_read r H). pose proof (rwf_write r H).
  assert (Hlv : level r' = level r - k) by (unfold level in *; simpl; word).
  split; [| split; [done |]].
  - destruct H. split; simpl in *; try done; [apply u32_range |]. unfold level in Hlv at 1. simpl in Hlv. lia.
  - assert (Hd : res_frames r = ring_view (storage r) (read_cursor r * channels r) (k * channels r)
      ++ ring_view (storage r) (read_cursor r * channels r + k * channels r)
           (level r * channels r - k * channels r)).
    { apply ring_view_drop. nia. }
    assert (Hz : zlen (ring_view (storage r) (read_cursor r * channels r) (k * channels r))
      = k * channels r) by (apply zlen_ring_view; nia).
    rewrite Hd at 1. f_equal.
    + rewrite Hd. rewrite <- take_slice, take_app_le by (unfold zlen in *; lia).
      rewrite take_ge; [done | unfold zlen in *; lia].
    + unfold res_frames. rewrite Hlv. simpl. unfold channels in *. simpl.
      replace (level r * num_channels (format r) - k * num_channels (format r))
        with ((level r - k) * num_channels (format r)) by lia.
      pose proof (rwf_storage r H) as Hl. unfold channels in Hl.
      apply ring_view_congr; [nia |]. rewrite Hl.
      rewrite <- Z.mul_add_distr_r, !Z.mul_mod_distr_r by lia.
      rewrite u32_mod_divides; [done | lia |]. apply (geo_divides _ _ _ (reservoir_geometry r H)).
Qed.

Lemma head_view r k :
  reservoir_wf r -> 0 <= k <= level r ->
  ring_view (storage r) (read_cursor r * channels r) (k * channels r)
    = slice (res_frames r) 0 (k * channels r) /\
  zlen (slice (res_frames r) 0 (k * channels r)) = k * channels r.
Proof.
  intros H Hk. pose proof (rwf_channels r H). pose proof (level_range r H).
  assert (Hz : zlen (slice (res_frames r) 0 (k * channels r)) = k * channels r)
    by (rewrite zlen_slice; rewrite ?zlen_res_frames by done; nia).
  split; [| done]. unfold res_frames. rewrite (ring_view_drop _ _ (level r * channels r) (k * channels r)) by nia.
  rewrite <- take_slice, take_app_le, take_ge; [done | |]; rewrite ring_view_length; nia.
Qed.

Lemma zlen_zeros n : 0 <= n -> zlen (zeros n) = n.
Proof. apply zlen_replicate. Qed.
Lemma zeros_add a b : 0 <= a -> 0 <= b -> zeros (a + b) = zeros a ++ zeros b.
Proof. intros. unfold zeros. rewrite Z2Nat.inj_add by lia. apply replicate_add. Qed.

(** Loading [k] frames and padding the block with zeros. *)
Lemma load_pad r cells n k :
  reservoir_wf r -> 0 <= k <= level r -> k <= n -> n * channels r <= zlen cells ->
  (c ← storage_load cells (storage r) (capacity r) (read_cursor r) k (channels r);
   memset c (k * channels r) 0 ((n - k) * channels r)) =
  Some (splice cells 0 (slice (res_frames r) 0 (k * channels r) ++ zeros ((n - k) * channels r))).
Proof.
  intros H Hk Hn Hc. pose proof (rwf_channels r H). pose proof (level_range r H).
  destruct (head_view r k H Hk) as [Hv Hz].
  rewrite storage_load_eq by (done || nia). rewrite Hv. simpl.
  rewrite memset_eq by (rewrite ?zlen_splice, ?Hz; nia). f_equal.
  rewrite <- splice_app by (rewrite ?Hz, ?zlen_zeros by nia; nia). by rewrite Hz, Z.add_0_l.
Qed.

Lemma content_level r : reservoir_wf r -> zlen (res_frames r) / channels r = level r.
Proof.
  intros H. pose proof (rwf_channels r H). rewrite zlen_res_frames by done. apply Z.div_mul. lia.
Qed.

Lemma content_s32 r : reservoir_wf r -> Forall is_s32 (res_frames r).
Proof.
  intros H. apply ring_view_forall; [apply H |]. rewrite (rwf_storage r H).
  pose proof (reservoir_capacity r H). pose proof (rwf_channels r H). nia.
Qed.

(** The wake hooks a pull that leaves [available] frames calls. *)
Definition wakes (r : eaf_reservoir_t) (available : Z) : list (Z * Z) :=
  if bool_decide (available < backpressure_low r) && negb (bool_decide (wake_producer r = 0))
  then [(wake_producer r, wake_ctx r)] else [].

Definition pull_reference (r : eaf_reservoir_t) (n : Z) : pulled :=
  reference_pull (negb (bool_decide (finished r = 0))) (high_watermark r) (channels r) n (state r)
    (res_frames r) (last r).

(** The reservoir after a pull, up to the remembered last frame. *)
Definition after_pull (r : eaf_reservoir_t) (p : pulled) (la : list Z) : eaf_reservoir_t :=
  set_consumer (u32 (read_cursor r + taken p)) (next_state p)
    (if decide (next_state p = EAF_RESERVOIR_UNDERRUN) then u32 (underruns r + 1) else underruns r)
    (u64 (frames_read r + taken p)) la r.

Definition pull_body_post (r : eaf_reservoir_t) (buf : eaf_buffer_t) (cells : list Z) : Prop :=
  let p := pull_reference r (frame_count buf) in
  exists la,
    pull_body r buf cells = Some (after_pull r p la, set_flags (block_flags p) (set_format (format r) buf),
      splice cells 0 (block p),
      if negb (bool_decide (finished r = 0)) then [] else wakes r (level r - taken p)) /\
    zlen la = 4 /\ Forall is_s32 la /\ 0 <= taken p <= level r /\
    zlen (block p) = frame_count buf * channels r /\
    slice (block p) 0 (taken p * channels r) = slice (res_frames r) 0 (taken p * channels r).

Section pull_cases.
Context (r : eaf_reservoir_t) (buf : eaf_buffer_t) (cells : list Z).
Hypothesis (Hwf : reservoir_wf r) (Hok : pull_ok r buf cells).
Let n := frame_count buf.
Let ch := channels r.
Let k := Z.min (level r) n.

Lemma pull_facts :
  1 <= ch <= 4 /\ 0 < n /\ n <= capacity r /\ n * ch <= zlen cells /\ 0 <= level r <= capacity r /\
  0 <= k <= level r /\ k <= n.
Proof using Hwf Hok.
  destruct Hok as (_ & Hn & _ & Hcap & Hdiv & Hcells). pose proof (rwf_channels r Hwf).
  pose proof (level_range r Hwf).
  assert (n * ch <= zlen cells).
  { assert (n * ch <= capacity_samples buf); [| lia].
    apply Z.le_trans with (capacity_samples buf / ch * ch); [unfold n, ch in *; nia |].
    rewrite Z.mul_comm. apply Z.mul_div_le. lia. }
  unfold n, ch, k in *. lia.
Qed.

Lemma pull_finished : finished r <> 0 -> pull_body_post r buf cells.
Proof using Hwf Hok.
  intros Hfin. destruct pull_facts as (Hch & Hn & Hcap & Hcells & Hlv & Hk & Hkn).
  unfold pull_body_post, pull_reference, reference_pull, pull_body.
  rewrite content_level, bool_decide_eq_false_2 by done. simpl. fold n ch (level r) k.
  replace (if decide (level r < n) then level r else n) with k by (unfold k; case_decide; lia).
  pose proof (load_pad r cells n k Hwf Hk Hkn Hcells) as Hload.
  destruct (storage_load _ _ _ _ _ _) as [c1|]; [| done]. simpl in *. fold ch in Hload. rewrite Hload.
  destruct (head_view r k Hwf Hk) as [_ Hz]. fold ch in Hz.
  exists (last r). simpl. split_and!; try apply Hwf; try lia.
  - unfold after_pull. simpl. repeat case_decide; done.
  - rewrite zlen_app, Hz, zlen_zeros by nia. lia.
  - by apply slice_app_head.
Qed.

(** Below: the producer has not finished. *)
Hypothesis (Hfin : finished r = 0).

(** The state a pull works in. *)
Let st0 : eaf_reservoir_state_t :=
  let st := if decide (state r = EAF_RESERVOIR_UNDERRUN) then EAF_RESERVOIR_STREAMING else state r in
  if bool_decide (st = EAF_RESERVOIR_PREBUFFERING) && bool_decide (high_watermark r <= level r)
     && bool_decide (n <= level r) then EAF_RESERVOIR_STREAMING else st.

Lemma streaming_state :
  streaming (state r) (high_watermark r) n (level r) = true -> st0 = EAF_RESERVOIR_STREAMING.
Proof using. unfold st0. destruct (state r); simpl; try done. intros ->. done. Qed.

Lemma silent_state :
  streaming (state r) (high_watermark r) n (level r) = false ->
  st0 = state r /\ state r <> EAF_RESERVOIR_STREAMING /\ state r <> EAF_RESERVOIR_UNDERRUN.
Proof using. unfold st0. destruct (state r); simpl; try done. intros ->. done. Qed.

Lemma pull_silent :
  streaming (state r) (high_watermark r) n (level r) = false -> pull_body_post r buf cells.
Proof using Hwf Hok Hfin.
  intros Hst. destruct pull_facts as (Hch & Hn & Hcap & Hcells & Hlv & Hk & Hkn).
  unfold pull_body_post, pull_reference, reference_pull, pull_body.
  rewrite content_level, Hfin by done. simpl. fold n ch (level r). rewrite Hst. simpl.
  rewrite memset_eq by nia. exists (last r).
  assert (Hread : u32 (read_cursor r + 0) = read_cursor r).
  { rewrite Z.add_0_r. apply u32_small, Hwf. }
  assert (Hfr : u64 (frames_read r + 0) = frames_read r).
  { rewrite Z.add_0_r. apply u64_small, Hwf. }
  unfold after_pull. simpl. rewrite Hread, Hfr, Z.sub_0_r, zlen_zeros by nia.
  split_and!; try apply Hwf; try done; try lia.
  destruct (silent_state Hst) as (Hst0 & Hns & Hnu). fold st0. rewrite Hst0.
  by rewrite !decide_False by done.
Qed.

Lemma pull_full :
  streaming (state r) (high_watermark r) n (level r) = true -> n <= level r ->
  pull_body_post r buf cells.
Proof using Hwf Hok Hfin.
  intros Hst Hfull. destruct pull_facts as (Hch & Hn & Hcap & Hcells & Hlv & Hk & Hkn).
  unfold pull_body_post, pull_reference, reference_pull, pull_body.
  rewrite content_level, Hfin by done. simpl. fold n ch (level r). rewrite Hst.
  fold st0. rewrite (streaming_state Hst). rewrite (decide_True (P := EAF_RESERVOIR_STREAMING = _)) by done.
  replace (if decide (level r < n) then level r else n) with n by (case_decide; lia).
  replace (Z.min (level r) n) with n by lia.
  rewrite (decide_False (P := level r < n)) by lia.
  destruct (head_view r n Hwf ltac:(lia)) as [Hv Hz]. fold ch in Hv, Hz.
  unfold ch. rewrite storage_load_eq by (done || unfold ch in *; nia). fold ch. rewrite Hv. simpl.
  rewrite (decide_False (P := n < n)) by lia.
  pose proof (rwf_last r Hwf) as Hla.
  assert (Hlen : zlen (splice cells 0 (slice (res_frames r) 0 (n * ch))) = zlen cells)
    by (apply zlen_splice; lia).
  rewrite memcpy_eq by nia. simpl. eexists. split_and!; try lia.
  - unfold after_pull. simpl. done.
  - rewrite zlen_splice; rewrite ?zlen_slice; nia.
  - apply splice_forall; [apply Hwf |].
    replace ((n - 1) * ch) with (0 + (n - 1) * ch) by lia.
    rewrite slice_splice by (rewrite ?Hz; nia). by apply slice_forall, slice_forall, content_s32.
  - by rewrite slice_full by (rewrite ?Hz; lia).
Qed.

Lemma pull_underrun :
  streaming (state r) (high_watermark r) n (level r) = true -> level r < n ->
  pull_body_post r buf cells.
Proof using Hwf Hok Hfin.
  intros Hst Hshort. destruct pull_facts as (Hch & Hn & Hcap & Hcells & Hlv & Hk & Hkn).
  unfold pull_body_post, pull_reference, reference_pull, pull_body.
  rewrite content_level, Hfin by done. simpl. fold n ch (level r). rewrite Hst.
  fold st0. rewrite (streaming_state Hst). rewrite (decide_True (P := EAF_RESERVOIR_STREAMING = _)) by done.
  replace (Z.min (level r) n) with (level r) by lia.
  rewrite (decide_True (P := level r < n)) by lia.
  set (l := level r) in *.
  destruct (head_view r l Hwf ltac:(lia)) as [Hv Hz]. fold ch in Hv, Hz.
  pose proof (load_pad r cells n l Hwf ltac:(lia) ltac:(lia) Hcells) as Hload. fold ch in Hload.
  pose proof (storage_load_eq r cells (read_cursor r) l Hwf ltac:(lia) ltac:(fold ch; nia)) as Hsl.
  fold ch in Hsl. rewrite Hsl in Hload |- *. rewrite Hv in Hload |- *.
  cbn [mbind option_bind] in Hload |- *. rewrite (decide_True (P := l < n)) by lia.
  set (head := slice (res_frames r) 0 (l * ch)) in *.
  set (from := if decide (l = 0) then last r else slice (res_frames r) ((l - 1) * ch) ch).
  assert (Hfrom : exists f, (if decide (l = 0) then ldn (last r) 0 ch
      else ldn (splice cells 0 head) ((l - 1) * ch) ch) = Some f /\ ch <= zlen f /\ Forall is_s32 f /\
      ramp f ch (Z.min (n - l) 16) = ramp from ch (Z.min (n - l) 16)).
  { subst from. destruct (decide (l = 0)) as [Hl0|Hl0].
    - pose proof (rwf_last r Hwf). rewrite ldn_eq by lia. eexists. split; [done |].
      rewrite zlen_slice by lia. split; [lia |]. split; [by apply slice_forall, Hwf |].
      apply ramp_ext. intros c Hc. rewrite !list_lookup_total_alt. f_equal.
      rewrite lookup_slice by lia. done.
    - assert (Hsp : zlen (splice cells 0 head) = zlen cells) by (apply zlen_splice; nia).
      rewrite ldn_eq by nia. eexists. split; [done |].
      replace ((l - 1) * ch) with (0 + (l - 1) * ch) at 1 2 3 by lia.
      rewrite slice_splice by (rewrite ?Hz; nia). unfold head. rewrite slice_slice by nia.
      rewrite zlen_slice by (rewrite ?zlen_res_frames by done; fold ch l; nia).
      split; [lia |]. split; [by apply slice_forall, content_s32 | done]. }
  destruct Hfrom as (f & -> & Hflen & Hf32 & Hramp). cbn [mbind option_bind]. rewrite Hload.
  cbn [mbind option_bind].
  replace (if decide (n - l < 16) then n - l else 16) with (Z.min (n - l) 16) by (case_decide; lia).
  set (fade := Z.min (n - l) 16) in *.
  destruct (ramp_loop_eq (splice cells 0 (head ++ zeros ((n - l) * ch))) f l fade ch) as [-> Hrl];
    [lia | lia | lia | rewrite zlen_splice; rewrite ?zlen_app, ?Hz, ?zlen_zeros; nia | done | done |].
  rewrite Hramp in *. cbn [mbind option_bind].
  assert (Hsplit : zeros ((n - l) * ch) = zeros (fade * ch) ++ zeros ((n - l - fade) * ch))
    by (rewrite <- zeros_add by nia; f_equal; lia).
  rewrite !(decide_True (P := l < n)) by lia.
  exists (replicate 4 0). simpl. split_and!; try done; try lia.
  - pose proof (splice_inside cells head (zeros (fade * ch)) (ramp from ch fade)
      (zeros ((n - l - fade) * ch)) 0) as Hins.
    rewrite Hz, Hrl, !zlen_zeros, <- Hsplit, Z.add_0_l in Hins by nia.
    rewrite Hins by nia. done.
  - repeat constructor; word.
  - rewrite !zlen_app, Hz, Hrl, zlen_zeros by nia. lia.
  - by apply slice_app_head.
Qed.
End pull_cases.

Lemma pull_body_spec r buf cells :
  reservoir_wf r -> pull_ok r buf cells -> pull_body_post r buf cells.
Proof.
  intros Hwf Hok. destruct (decide (finished r = 0)) as [Hfin|Hfin]; [| by apply pull_finished].
  destruct (streaming (state r) (high_watermark r) (frame_count buf) (level r)) eqn:Hst;
    [| by apply pull_silent].
  destruct (decide (frame_count buf <= level r)); [by apply pull_full |].
  apply pull_underrun; try done. lia.
Qed.

Lemma pull_not_invalid r buf cells :
  reservoir_wf r -> pull_ok r buf cells -> pull_invalid r buf = Some false.
Proof.
  intros Hwf (Hs & Hn & Hcf & Hcap & Hdiv & _). pose proof (rwf_channels r Hwf).
  unfold pull_invalid. rewrite !bool_decide_eq_false_2 by lia. simpl. by decide_lia.
Qed.

Lemma res_pull_spec r buf cells :
  reservoir_wf r -> pull_ok r buf cells ->
  let p := pull_reference r (frame_count buf) in
  exists la,
    eaf_reservoir_pull (Some r) (Some buf) cells =
      Some (Some (after_pull r p la), Some (set_flags (block_flags p) (set_format (format r) buf)),
            splice cells 0 (block p),
            if negb (bool_decide (finished r = 0)) then [] else wakes r (level r - taken p), EAF_OK) /\
    reservoir_wf (after_pull r p la) /\
    zlen (block p) = frame_count buf * channels r /\ 0 <= taken p <= level r /\
    slice (block p) 0 (taken p * channels r) = slice (res_frames r) 0 (taken p * channels r) /\
    res_frames r = slice (res_frames r) 0 (taken p * channels r) ++ res_frames (after_pull r p la).
Proof.
  intros Hwf Hok p. destruct (pull_body_spec r buf cells Hwf Hok) as (la & Hrun & Hla & Hs & Htk & Hlen & Hsl).
  fold p in Hrun, Htk, Hlen, Hsl. exists la. unfold eaf_reservoir_pull.
  rewrite (pull_not_invalid r buf cells Hwf Hok). simpl. rewrite Hrun. split; [done |].
  destruct (consume_spec r (taken p) (next_state p)
    (if decide (next_state p = EAF_RESERVOIR_UNDERRUN) then u32 (underruns r + 1) else underruns r)
    (u64 (frames_read r + taken p)) la Hwf Htk) as (Hwf' & _ & Hrest); [word | done | done |].
  split_and!; try done; lia.
Qed.

(** What is pulled are samples again, ramps included. *)
Lemma zeros_s32 n : Forall is_s32 (zeros n).
Proof. apply Forall_replicate. word. Qed.

Lemma ramp_s32 from ch fade : Forall is_s32 from -> Forall is_s32 (ramp from ch fade).
Proof.
  intros Hs. unfold ramp. apply Forall_concat, Forall_fmap, Forall_lookup. intros j i Hi%lookup_seqZ. simpl.
  apply Forall_fmap, Forall_lookup. intros ? c _. simpl. apply quot_ramp_range; [| lia].
  rewrite list_lookup_total_alt. destruct (from !! Z.to_nat c) eqn:E; [| simpl; word].
  by eapply (proj1 (Forall_lookup _ _) Hs).
Qed.

Lemma pull_block_s32 r n : reservoir_wf r -> Forall is_s32 (block (pull_reference r n)).
Proof.
  intros H. pose proof (content_s32 r H). pose proof (rwf_last_samples r H). pose proof zeros_s32.
  unfold pull_reference, reference_pull. repeat case_match; simpl; repeat apply Forall_app_2;
    auto using slice_forall, ramp_s32.
Qed.

#[global] Arguments eaf_reservoir_pull : simpl never.
#[global] Arguments eaf_reservoir_write : simpl never.

(** ** Sessions: any sequence of producer and consumer calls *)

Inductive res_op :=
| Write (src : list Z) (frames : Z)
| Finish
| Pull (buf : eaf_buffer_t) (cells : list Z).

(** Arguments the two users may pass to a reservoir of this geometry. *)
Definition op_ok (r : eaf_reservoir_t) (op : res_op) : Prop :=
  match op with
  | Write src frames => 0 <= frames /\ frames * channels r <= zlen src /\ Forall is_s32 src
  | Finish => True
  | Pull buf cells => pull_ok r buf cells
  end.

(** Runs a session; collects the samples accepted from the producer and, of the
    blocks handed to the consumer, the frames counted in [frames_read]. *)
Fixpoint res_run (ops : list res_op) (r : eaf_reservoir_t) : ub (eaf_reservoir_t * list Z * list Z) :=
  match ops with
  | [] => Some (r, [], [])
  | Write src frames :: ops' =>
      '(r1, k) ← with_ref (fun p => eaf_reservoir_write p (Some src) frames) r;
      '(r2, ins, outs) ← res_run ops' r1;
      Some (r2, slice src 0 (k * channels r) ++ ins, outs)
  | Finish :: ops' =>
      r1 ← eaf_reservoir_finish (Some r); res_run ops' r1
  | Pull buf cells :: ops' =>
      '(p, _, cells', _, _) ← eaf_reservoir_pull (Some r) (Some buf) cells;
      r1 ← p;
      '(r2, ins, outs) ← res_run ops' r1;
      Some (r2, ins, slice cells' 0 (u64 (frames_read r1 - frames_read r) * channels r) ++ outs)
  end.

Definition same_geometry (r r' : eaf_reservoir_t) : Prop :=
  capacity r' = capacity r /\ format r' = format r.

Lemma op_ok_geometry r r' op : same_geometry r r' -> op_ok r op -> op_ok r' op.
Proof. intros [Hc Hf]. destruct op; simpl; unfold pull_ok, channels; by rewrite ?Hc, ?Hf. Qed.

Lemma ops_ok_geometry r r' ops : same_geometry r r' -> Forall (op_ok r) ops -> Forall (op_ok r') ops.
Proof. intros Hg. apply Forall_impl. intros op. by apply op_ok_geometry. Qed.

Lemma res_run_conserves ops r :
  reservoir_wf r -> Forall (op_ok r) ops ->
  exists r' ins outs, res_run ops r = Some (r', ins, outs) /\ reservoir_wf r' /\
    res_frames r ++ ins = outs ++ res_frames r'.
Proof.
  revert r. induction ops as [|op ops IH]; intros r Hwf Hops.
  { exists r, [], []. by rewrite app_nil_r. }
  apply List.Forall_cons_iff in Hops as [Hop Hops]. destruct op as [src frames| |buf cells]; simpl.
  - destruct Hop as (Hf & Hs & H32). unfold with_ref.
    destruct (decide (finished r = 0)) as [Hfin|Hfin].
    + destruct (res_write_spec r src frames Hwf Hf Hs H32 Hfin) as (l & -> & Hwf1 & Hcont). simpl.
      set (r1 := set_write_cursor _ _) in *.
      destruct (IH r1 Hwf1) as (r2 & ins & outs & -> & Hwf2 & Heq); [by apply (ops_ok_geometry r) |].
      eexists _, _, _. simpl. split; [done |]. split; [done |]. by rewrite <- Heq, Hcont, app_assoc.
    + unfold eaf_reservoir_write, on_ptr. rewrite bool_decide_eq_false_2 by done. simpl.
      destruct (IH r Hwf Hops) as (r2 & ins & outs & -> & Hwf2 & Heq).
      eexists _, _, _. split; [done |]. done.
  - destruct (IH (set_finished 1 r)) as (r2 & ins & outs & -> & Hwf2 & Heq).
    + by destruct Hwf.
    + by apply (ops_ok_geometry r).
    + eexists _, _, _. split; [done |]. done.
  - simpl in Hop. destruct (res_pull_spec r buf cells Hwf Hop) as (la & -> & Hwf1 & Hlen & Htk & Hbl & Hcont).
    simpl. set (r1 := after_pull _ _ la) in *. set (p := pull_reference r (frame_count buf)) in *.
    destruct (IH r1 Hwf1) as (r2 & ins & outs & -> & Hwf2 & Heq); [by apply (ops_ok_geometry r) |].
    eexists _, _, _. simpl. split; [done |]. split; [done |].
    pose proof (rwf_channels r Hwf). pose proof (level_range r Hwf). pose proof (reservoir_capacity r Hwf).
    replace (u64 (u64 (frames_read r + taken p) - frames_read r)) with (taken p)
      by (pose proof (rwf_frames_read r Hwf); word).
    destruct (pull_facts r buf cells Hwf Hop) as (_ & Hn & _ & Hc & _).
    assert (Htn : taken p * channels r <= zlen (block p)).
    { apply (f_equal zlen) in Hbl. pose proof (zlen_take_le (block p) (Z.to_nat (taken p * channels r))).
      rewrite (zlen_slice (res_frames r)) in Hbl; rewrite ?zlen_res_frames by done; try nia.
      unfold slice, zlen in *. rewrite length_take, drop_0 in Hbl. lia. }
    pose proof (slice_splice cells (block p) 0 0 (taken p * channels r)) as Hsp.
    change (0 + 0) with 0 in Hsp. rewrite Hsp, Hbl by nia.
    rewrite <- app_assoc, <- Heq, app_assoc. by rewrite <- Hcont.
Qed.

(** ** Concurrency

    A complete [eaf_reservoir_write] or [eaf_reservoir_pull] is a run of the
    producer's or the consumer's steps of the interleaving model. *)

Abbreviation res_step r := (spsc_step (capacity r) (channels r)).

(** The shared part of a reservoir, with both users idle. *)
Definition res_spsc (r : eaf_reservoir_t) (ps : producer_pc) (cs : consumer_pc) (se re : list Z) : spsc :=
  Spsc (storage r) (read_cursor r) (write_cursor r) (negb (bool_decide (finished r = 0))) ps cs se re.

Lemma res_write_steps r r' src frames k cs se re :
  reservoir_wf r -> 0 <= frames -> frames * channels r <= zlen src -> finished r = 0 ->
  eaf_reservoir_write (Some r) (Some src) frames = Some (Some r', k) ->
  rtc (res_step r) (res_spsc r P_idle cs se re)
    (res_spsc r' P_idle cs (se ++ slice src 0 (k * channels r)) re).
Proof.
  intros H Hf Hs Hfin. pose proof (reservoir_capacity r H). pose proof (rwf_channels r H).
  pose proof (level_range r H) as Hlv.
  unfold eaf_reservoir_write, on_ptr. rewrite Hfin. simpl. fold (level r).
  rewrite (u32_small (capacity r - level r)) by word.
  replace (if decide (capacity r - level r < frames) then _ else _)
    with (Z.min frames (capacity r - level r)) by (case_decide; lia).
  rewrite storage_store_eq by (done || nia). simpl. intros [= <- <-].
  unfold res_spsc. simpl. rewrite Hfin. simpl. set (k := Z.min frames (capacity r - level r)).
  assert (Hsl : zlen (slice src 0 (k * channels r)) = k * channels r) by (rewrite zlen_slice; nia).
  eapply rtc_l; [apply (p_load _ _ src) |].
  eapply rtc_l; [apply (p_check _ _ _ _ k (slice src 0 (k * channels r))) |].
  { fold (level r). lia. } { by rewrite take_slice. } { done. }
  eapply rtc_l; [apply p_copy |]. eapply rtc_l; [apply p_publish | apply rtc_refl].
Qed.

Lemma res_pull_steps r buf cells ps se re :
  reservoir_wf r -> pull_ok r buf cells ->
  exists r' buf' cells' w,
    eaf_reservoir_pull (Some r) (Some buf) cells = Some (Some r', Some buf', cells', w, EAF_OK) /\
    rtc (res_step r) (res_spsc r ps C_idle se re)
      (res_spsc r' ps C_idle se
         (re ++ slice cells' 0 (u64 (frames_read r' - frames_read r) * channels r))).
Proof.
  intros H Hok. destruct (res_pull_spec r buf cells H Hok) as (la & Hrun & Hwf' & Hlen & Htk & Hbl & Hcont).
  set (p := pull_reference r (frame_count buf)) in *. eexists _, _, _, _. split; [exact Hrun |].
  pose proof (rwf_channels r H). pose proof (level_range r H). pose proof (reservoir_capacity r H).
  destruct (head_view r (taken p) H Htk) as [Hv Hz].
  replace (u64 (frames_read (after_pull r p la) - frames_read r)) with (taken p)
    by (pose proof (rwf_frames_read r H); unfold after_pull; simpl; word).
  destruct (pull_facts r buf cells H Hok) as (_ & Hn & _ & Hc & _).
  assert (Htn : taken p * channels r <= zlen (block p)).
  { apply (f_equal zlen) in Hbl. rewrite Hz in Hbl. unfold slice, zlen in *.
    rewrite length_take, drop_0 in Hbl. lia. }
  pose proof (slice_splice cells (block p) 0 0 (taken p * channels r)) as Hsp.
  change (0 + 0) with 0 in Hsp. rewrite Hsp, Hbl, <- Hv by nia.
  unfold res_spsc. simpl.
  eapply rtc_l; [apply c_load |]. eapply rtc_l; [apply (c_check _ _ _ _ (taken p)); fold (level r); lia |].
  eapply rtc_l; [apply c_copy |]. eapply rtc_l; [apply c_release |].
  replace (load2 (storage r) (read_cursor r mod capacity r * channels r) (taken p * channels r))
    with (ring_view (storage r) (read_cursor r * channels r) (taken p * channels r)); [apply rtc_refl |].
  pose proof (rwf_storage r H) as Hl.
  assert (0 <= read_cursor r mod capacity r < capacity r) by (apply Z.mod_pos_bound; lia).
  rewrite load2_view by nia. apply ring_view_congr; [nia |]. rewrite Hl.
  by rewrite !Z.mul_mod_distr_r, Z.mod_mod by lia.
Qed.

(** The end-of-stream flag of the reference. *)
Lemma pull_eos_flag r n :
  reservoir_wf r ->
  Z.testbit (block_flags (pull_reference r n)) 2 = true <-> finished r <> 0 /\ level r <= n.
Proof.
  intros Hwf. unfold pull_reference, reference_pull. rewrite content_level by done.
  case_bool_decide; simpl.
  - destruct (streaming _ _ _ _); repeat case_decide; simpl; split; try done; lia.
  - repeat case_decide; simpl; split; done || lia.
Qed.

(** ** Initialisation *)

Lemma pow2_test c : is_u32 c -> 2 <= c ->
  Z.land c (u32 (c - 1)) = 0 /\ c <= UINT32_MAX / 2 <-> exists k, 1 <= k <= 30 /\ c = 2 ^ k.
Proof.
  intros Hc H2. rewrite u32_small by word. change (UINT32_MAX / 2) with 2147483647. split.
  - intros [Hl Hm]. pose proof (land_pred_pow2 c ltac:(lia) Hl) as Hp. exists (Z.log2 c).
    split; [| done]. split; [apply Z.log2_le_pow2; lia |].
    enough (Z.log2 c < 31) by lia. apply Z.log2_lt_pow2; lia.
  - intros (k & Hk & ->). split.
    + rewrite land_mask_mod by lia. apply Z.mod_same. lia.
    + assert (2 ^ k <= 2 ^ 30) by (apply Z.pow_le_mono_r; lia). change (2 ^ 30) with 1073741824 in *. lia.
Qed.

Lemma div_div_le s c n : 0 < n -> c <= s / 4 / n <-> c * n * 4 <= s.
Proof.
  intros. rewrite Z.div_div by lia. split; intros Hc.
  - pose proof (Z.mul_div_le s (4 * n) ltac:(lia)). nia.
  - apply Z.div_le_lower_bound; lia.
Qed.

(** The arguments [eaf_reservoir_init] accepts. *)
Definition init_ok (size_max cap : Z) (fmt : eaf_format_t) (hw : Z) : Prop :=
  eaf_format_valid (Some fmt) = true /\ (exists k, 1 <= k <= 30 /\ cap = 2 ^ k) /\
  0 < hw <= cap /\ cap * num_channels fmt * 4 <= size_max.

Lemma init_branch size_max r l cap fmt hw :
  is_u32 cap -> is_u32 hw -> is_u8 (num_channels fmt) ->
  (init_ok size_max cap fmt hw /\
   eaf_reservoir_init size_max (Some r) (Some l) cap fmt hw = Some (Some (eaf_reservoir_reset
     (Reservoir l cap hw (cap / 2) (cap - cap / 10) fmt 0 0 0
        EAF_RESERVOIR_PREBUFFERING 0 0 (replicate 4 0) 0 0)), EAF_OK)) \/
  (~ init_ok size_max cap fmt hw /\
   eaf_reservoir_init size_max (Some r) (Some l) cap fmt hw = Some (Some r, EAF_INVALID)).
Proof.
  intros Hc Hh Hn. unfold eaf_reservoir_init, on_ptr, init_ok.
  destruct (eaf_format_valid (Some fmt)) eqn:Hv; simpl; [| right; naive_solver].
  destruct (eaf_format_valid_channels fmt Hv) as (_ & Hn0 & _).
  assert (0 < num_channels fmt) by word. rewrite <- (div_div_le size_max cap) by done.
  destruct (decide (2 <= cap)).
  2:{ rewrite (bool_decide_eq_true_2 (cap < 2)) by lia. right. split; [| done].
      intros (_ & (k & Hk & ->) & _). assert (2 ^ 1 <= 2 ^ k) by (apply Z.pow_le_mono_r; lia). lia. }
  rewrite <- pow2_test by done. repeat case_bool_decide; simpl; try (right; split; [lia | done]).
  left. split; [| done]. word_unfold. lia.
Qed.

(** What an accepted initialisation yields over storage of the right size. *)
Lemma init_wf size_max l cap fmt hw :
  is_u32 cap -> is_u8 (num_channels fmt) -> init_ok size_max cap fmt hw ->
  zlen l = cap * num_channels fmt -> Forall is_s32 l ->
  reservoir_wf (eaf_reservoir_reset (Reservoir l cap hw (cap / 2) (cap - cap / 10) fmt 0 0 0
    EAF_RESERVOIR_PREBUFFERING 0 0 (replicate 4 0) 0 0)).
Proof.
  intros Hc Hn (Hv & Hk & Hw & _) Hl Hs. pose proof (eaf_format_valid_channels fmt Hv).
  split; unfold channels; simpl; try done; try word. repeat constructor; word.
Qed.

(** ** Properties *)

(** Initialisation accepts exactly a valid format, a power-of-two capacity of at
    least two frames whose storage size fits [size_t], and a watermark within the
    capacity; it then yields an empty, well-formed, prebuffering reservoir.  Any
    other argument is refused and changes nothing. *)
Theorem reservoir_init_correct (size_max : Z) (r : eaf_reservoir_t) (l : list Z) (cap : Z)
    (fmt : eaf_format_t) (hw : Z) :
  is_u32 cap -> is_u32 hw -> is_u8 (num_channels fmt) ->
  exists r' rc, eaf_reservoir_init size_max (Some r) (Some l) cap fmt hw = Some (Some r', rc) /\
    (rc = EAF_OK <-> init_ok size_max cap fmt hw) /\ (rc <> EAF_OK -> rc = EAF_INVALID /\ r' = r) /\
    (rc = EAF_OK -> zlen l = cap * num_channels fmt -> Forall is_s32 l ->
       reservoir_wf r' /\ res_frames r' = [] /\ state r' = EAF_RESERVOIR_PREBUFFERING /\
       finished r' = 0 /\ backpressure_low r' < backpressure_high r' <= capacity r').
Proof.
  intros Hc Hh Hn. destruct (init_branch size_max r l cap fmt hw Hc Hh Hn) as [[Hok ->]|[Hno ->]].
  - eexists _, EAF_OK. split; [done |]. split; [done |]. split; [done |]. intros _ Hl Hs.
    split; [by apply (init_wf size_max) |]. destruct Hok as (Hv & Hk & Hw & _). split_and!; try done.
    + simpl. destruct Hk as (k & Hk & ->). assert (2 ^ 1 <= 2 ^ k) by (apply Z.pow_le_mono_r; lia). word.
    + simpl. word.
  - exists r, EAF_INVALID. split; [done |]. split; [split; [done | tauto] |]. split; done.
Qed.

Lemma reservoir_init_correct_witness :
  exists r' rc, eaf_reservoir_init UINT32_MAX
      (Some (Reservoir [] 0 0 0 0 format_zero 0 0 0 EAF_RESERVOIR_DRAINED 0 0 [] 0 0))
      (Some (replicate 8 0)) 4 (Format 48000 2 3) 2 = Some (Some r', rc) /\
    (rc = EAF_OK -> zlen (replicate 8 0) = 4 * 2 -> Forall is_s32 (replicate 8 0) ->
     reservoir_wf r' /\ res_frames r' = []).
Proof.
  destruct (reservoir_init_correct UINT32_MAX
    (Reservoir [] 0 0 0 0 format_zero 0 0 0 EAF_RESERVOIR_DRAINED 0 0 [] 0 0)
    (replicate 8 0) 4 (Format 48000 2 3) 2) as (r' & rc & H1 & _ & _ & H2);
    [split; done | split; done | split; done |].
  exists r', rc. split; [exact H1 |]. intros Hrc Hl Hs. destruct (H2 Hrc Hl Hs) as (A & B & _). tauto.
Defined.

(** The sample reservoir of the witnesses: four stereo frames of storage, with
    two frames waiting across the end of the ring. *)
Definition demo_reservoir : eaf_reservoir_t :=
  Reservoir [3; -3; 0; 0; 0; 0; 1; -1] 4 2 2 4 (Format 48000 2 3) 3 5 0 EAF_RESERVOIR_STREAMING 0 7
    [0; 0; 0; 0] 9 0.
Lemma demo_reservoir_wf : reservoir_wf demo_reservoir.
Proof.
  split; unfold channels; simpl; try done; try word; [by exists 2 | |]; repeat constructor; word.
Qed.
Definition demo_buffer : eaf_buffer_t := Buffer 1 4 4 8 format_zero 0.
Lemma demo_pull_ok : pull_ok demo_reservoir demo_buffer (replicate 8 5).
Proof. unfold pull_ok. split_and!; done. Qed.

(** C2: One pull implements the reference: for every state, with or without the end
    of input, it fills exactly the requested block with the queued frames followed
    by the reference's padding (zeros, or the underrun ramp), advances the read
    cursor by the delivered frames, counts them, reports state and flags, and
    wakes the producer exactly when what remains is below the low mark. *)
Theorem reservoir_pull_refines (r : eaf_reservoir_t) (buf : eaf_buffer_t) (cells : list Z) :
  reservoir_wf r -> pull_ok r buf cells ->
  let p := pull_reference r (frame_count buf) in
  exists r' buf',
    eaf_reservoir_pull (Some r) (Some buf) cells =
      Some (Some r', Some buf', splice cells 0 (block p),
            if negb (bool_decide (finished r = 0)) then [] else wakes r (level r - taken p), EAF_OK) /\
    reservoir_wf r' /\ zlen (block p) = frame_count buf * channels r /\
    res_frames r = slice (block p) 0 (taken p * channels r) ++ res_frames r' /\
    state r' = next_state p /\ flags buf' = block_flags p /\ Types.format buf' = format r /\
    frame_count buf' = frame_count buf /\ frames_read r' = u64 (frames_read r + taken p) /\
    write_cursor r' = write_cursor r /\ storage r' = storage r.
Proof.
  intros Hwf Hok p. destruct (res_pull_spec r buf cells Hwf Hok) as (la & Hrun & Hwf' & Hlen & Htk & Hbl & Hcont).
  eexists _, _. split; [exact Hrun |]. fold p in Hwf', Hlen, Hbl, Hcont.
  split_and!; try done. by rewrite Hbl.
Qed.

Lemma reservoir_pull_refines_witness :
  exists r' buf', eaf_reservoir_pull (Some demo_reservoir) (Some demo_buffer) (replicate 8 5) =
    Some (Some r', Some buf', [1; -1; 3; -3; 1; -1; 0; 0], [(9, 0)], EAF_OK) /\
    state r' = EAF_RESERVOIR_UNDERRUN /\ res_frames r' = [].
Proof.
  destruct (reservoir_pull_refines demo_reservoir demo_buffer (replicate 8 5)) as
    (r' & buf' & H1 & _ & _ & H4 & H5 & _); [apply demo_reservoir_wf | apply demo_pull_ok |].
  exists r', buf'. split; [etransitivity; [exact H1 | vm_compute; reflexivity] |]. split; [rewrite H5; vm_compute; reflexivity |].
  apply (f_equal (drop 4)) in H4. rewrite drop_app_length' in H4 by (vm_compute; reflexivity).
  rewrite <- H4. vm_compute. reflexivity.
Defined.

(** C1: Whatever sequence of writes, pulls and end-of-input marks the two users make,
    no call fails, and the frames delivered followed by the frames still queued
    are the frames queued before followed by those accepted: nothing is lost,
    duplicated or reordered, across underruns too. *)
Theorem reservoir_session_conserves (r : eaf_reservoir_t) (ops : list res_op) :
  reservoir_wf r -> Forall (op_ok r) ops ->
  exists r' accepted delivered, res_run ops r = Some (r', accepted, delivered) /\ reservoir_wf r' /\
    res_frames r ++ accepted = delivered ++ res_frames r'.
Proof. intros. by apply res_run_conserves. Qed.

Lemma reservoir_session_conserves_witness :
  exists r' accepted delivered,
    res_run [Write [11; 12; 21; 22] 2; Pull demo_buffer (replicate 8 5); Finish] demo_reservoir
      = Some (r', accepted, delivered) /\ reservoir_wf r' /\
    res_frames demo_reservoir ++ accepted = delivered ++ res_frames r'.
Proof.
  apply (reservoir_session_conserves demo_reservoir
    [Write [11; 12; 21; 22] 2; Pull demo_buffer (replicate 8 5); Finish]); [apply demo_reservoir_wf |].
  repeat apply Forall_cons_2; [| apply demo_pull_ok | exact I | constructor].
  split_and!; [done | done | repeat constructor; word].
Defined.

(** The end of the stream is announced exactly once everything has been
    delivered: a block carries [EAF_FRAME_EOS] if and only if the producer has
    finished and the block contains all the remaining frames. *)
Theorem reservoir_eos_exact (r : eaf_reservoir_t) (buf : eaf_buffer_t) (cells : list Z) :
  reservoir_wf r -> pull_ok r buf cells ->
  exists r' buf' cells' w,
    eaf_reservoir_pull (Some r) (Some buf) cells = Some (Some r', Some buf', cells', w, EAF_OK) /\
    (Z.testbit (flags buf') 2 = true <-> finished r <> 0 /\ level r <= frame_count buf) /\
    (Z.testbit (flags buf') 2 = true -> res_frames r' = [] /\ state r' = EAF_RESERVOIR_DRAINED /\
       zlen (slice cells' 0 (level r * channels r)) = level r * channels r /\
       slice cells' 0 (level r * channels r) = res_frames r).
Proof.
  intros Hwf Hok. destruct (res_pull_spec r buf cells Hwf Hok) as (la & Hrun & Hwf' & Hlen & Htk & Hbl & Hcont).
  eexists _, _, _, _. split; [exact Hrun |].
  destruct (pull_facts r buf cells Hwf Hok) as (Hch & Hn & _ & Hc & Hlv & _).
  set (n := frame_count buf) in *. set (p := pull_reference r n) in *. simpl.
  pose proof (pull_eos_flag r n Hwf) as Hflag. fold p in Hflag.
  assert (Hend : finished r <> 0 /\ level r <= n -> taken p = level r /\ next_state p = EAF_RESERVOIR_DRAINED).
  { intros [Hf Hl]. unfold p, pull_reference, reference_pull. rewrite content_level by done.
    rewrite bool_decide_eq_false_2 by done. simpl. split; [lia | by rewrite decide_True by lia]. }
  split; [done |]. intros [Htake Hst]%Hflag%Hend. rewrite Htake in *.
  assert (Hall : slice (res_frames r) 0 (level r * channels r) = res_frames r)
    by (apply slice_full; rewrite ?zlen_res_frames by done; lia).
  rewrite Hall in *. apply (f_equal zlen) in Hcont. rewrite zlen_app in Hcont.
  pose proof (slice_splice cells (block p) 0 0 (level r * channels r)) as Hsp.
  change (0 + 0) with 0 in Hsp.
  assert (Hfit : level r * channels r <= zlen (block p)).
  { apply (f_equal zlen) in Hbl. rewrite zlen_res_frames in Hbl by done. unfold slice, zlen in *.
    rewrite length_take, drop_0 in Hbl. lia. }
  rewrite Hsp, Hbl, zlen_res_frames by (done || nia). split_and!; try done. apply zlen_0_nil. lia.
Qed.

Lemma reservoir_eos_exact_witness :
  exists r' buf' cells' w,
    eaf_reservoir_pull (Some (set_finished 1 demo_reservoir)) (Some demo_buffer) (replicate 8 5)
      = Some (Some r', Some buf', cells', w, EAF_OK) /\
    (Z.testbit (flags buf') 2 = true <-> finished (set_finished 1 demo_reservoir) <> 0 /\ 2 <= 4).
Proof.
  destruct (reservoir_eos_exact (set_finished 1 demo_reservoir) demo_buffer (replicate 8 5))
    as (r' & buf' & cells' & w & H1 & H2 & _); [| apply demo_pull_ok | exists r', buf', cells', w; split; [exact H1 | exact H2]].
  destruct demo_reservoir_wf. split; done.
Defined.

Lemma ramp_abs_decreases x fade i :
  0 <= i -> i + 1 < fade ->
  Z.abs (Z.quot (x * (fade - (i + 1) - 1)) fade) <= Z.abs (Z.quot (x * (fade - i - 1)) fade).
Proof.
  intros Hi Hf. rewrite <- !Z.quot_abs by lia. apply Z.quot_le_mono; [lia |].
  rewrite !Z.abs_mul. nia.
Qed.

(** The underrun ramp: starting from the last real sample of each channel it
    writes samples between zero and that sample, of non-increasing magnitude,
    ending at zero, never overflows 32 bits and touches no other cell. *)
Theorem underrun_ramp_decays (cells from : list Z) (k fade ch : Z) :
  0 <= k -> 0 < ch -> 0 <= fade -> (k + fade) * ch <= zlen cells -> ch <= zlen from ->
  Forall is_s32 from ->
  exists cells', ramp_loop cells from k fade ch = Some cells' /\ zlen cells' = zlen cells /\
    (forall j, j < k * ch \/ (k + fade) * ch <= j -> ld cells' j = ld cells j) /\
    (forall i c x, 0 <= i < fade -> 0 <= c < ch -> ld from c = Some x ->
       exists y, ld cells' ((k + i) * ch + c) = Some y /\ is_s32 y /\
         Z.min 0 x <= y <= Z.max 0 x /\ (i = fade - 1 -> y = 0) /\
         (forall z, i + 1 < fade -> ld cells' ((k + (i + 1)) * ch + c) = Some z -> Z.abs z <= Z.abs y)).
Proof.
  intros Hk Hch Hf Hfit Hfrom Hs.
  destruct (ramp_loop_eq cells from k fade ch Hk Hch Hf Hfit Hfrom Hs) as [Hrun Hlen].
  eexists. split; [exact Hrun |]. split; [apply zlen_splice; nia |].
  assert (Hget : forall i c x, 0 <= i < fade -> 0 <= c < ch -> ld from c = Some x ->
    ld (splice cells (k * ch) (ramp from ch fade)) ((k + i) * ch + c) = Some (Z.quot (x * (fade - i - 1)) fade)).
  { intros i c x Hi Hc Hx. rewrite ld_lookup, lookup_splice by nia. rewrite decide_True by nia.
    replace (Z.to_nat ((k + i) * ch + c) - Z.to_nat (k * ch))%nat with (Z.to_nat (i * ch + c)) by nia.
    unfold ramp. rewrite (lookup_concat_blocks _ ch) by (try intros; rewrite ?zlen_ramp_frame; lia).
    unfold ramp_frame. rewrite list_lookup_fmap, lookup_seqZ_lt by lia. simpl.
    rewrite ld_total in Hx by lia. injection Hx as <-. do 4 f_equal. lia. }
  split.
  - intros j Hj. unfold ld. case_decide; [| done]. rewrite lookup_splice by nia.
    by rewrite decide_False by nia.
  - intros i c x Hi Hc Hx. eexists. split; [by apply Hget |].
    rewrite ld_total in Hx by lia. injection Hx as Hx.
    assert (is_s32 x).
    { rewrite Forall_lookup in Hs. eapply Hs. rewrite <- Hx.
      apply list_lookup_lookup_total_lt, length_zlen. lia. }
    split; [by apply quot_ramp_range |]. split; [by apply quot_ramp_between |]. split.
    + intros ->. replace (fade - (fade - 1) - 1) with 0 by lia. by rewrite Z.mul_0_r, Z.quot_0_l by lia.
    + intros z Hi1. rewrite (Hget (i + 1) c x) by (rewrite ?ld_total, ?Hx by lia; done || lia).
      intros [= <-]. apply ramp_abs_decreases; lia.
Qed.

Lemma underrun_ramp_decays_witness :
  exists cells', ramp_loop (replicate 6 9) [100; -7] 1 2 2 = Some cells' /\ zlen cells' = 6.
Proof.
  destruct (underrun_ramp_decays (replicate 6 9) [100; -7] 1 2 2) as (c & H1 & H2 & _);
    [done | done | done | done | done | repeat constructor; word | exists c; split; [exact H1 | exact H2]].
Defined.

(** C30: With producer and consumer on different threads, interleaved at every atomic
    access: each complete write or pull is a run of its thread's steps; in every
    reachable state the consumer has received a prefix of what was published, at
    most the capacity is in flight, the cells being written are not those being
    read; and a consumer that saw the end-of-input flag before loading the write
    cursor has every published frame within reach. *)
Theorem reservoir_concurrent_safe (r0 : eaf_reservoir_t) (s : spsc) :
  reservoir_wf r0 -> spsc_reachable (capacity r0) (channels r0) (storage r0) s ->
  (recv s `prefix_of` sent s /\ zlen (sent s) <= zlen (recv s) + capacity r0 * channels r0) /\
  (forall xs w n f r a m i j,
     producer s = P_room xs w n -> consumer s = C_avail f r a m ->
     0 <= i < n * channels r0 -> 0 <= j < m * channels r0 ->
     (w mod capacity r0 * channels r0 + i) mod (capacity r0 * channels r0)
       <> (r mod capacity r0 * channels r0 + j) mod (capacity r0 * channels r0)) /\
  (forall r a n, consumer s = C_avail true r a n ->
     zlen (sent s) = zlen (recv s) + a * channels r0) /\
  (forall r r' src frames k cs se re, reservoir_wf r -> 0 <= frames -> frames * channels r <= zlen src ->
     finished r = 0 -> eaf_reservoir_write (Some r) (Some src) frames = Some (Some r', k) ->
     rtc (res_step r) (res_spsc r P_idle cs se re)
       (res_spsc r' P_idle cs (se ++ slice src 0 (k * channels r)) re)) /\
  (forall r buf cells ps se re, reservoir_wf r -> pull_ok r buf cells ->
     exists r' buf' cells' w,
       eaf_reservoir_pull (Some r) (Some buf) cells = Some (Some r', Some buf', cells', w, EAF_OK) /\
       rtc (res_step r) (res_spsc r ps C_idle se re) (res_spsc r' ps C_idle se
         (re ++ slice cells' 0 (u64 (frames_read r' - frames_read r) * channels r)))).
Proof.
  intros Hwf Hreach. pose proof (reservoir_geometry r0 Hwf) as Hg.
  split; [by apply (spsc_prefix _ _ _ _ Hg Hreach) |].
  split; [intros; by eapply (spsc_race_free _ _ _ _ _ _ _ _ _ _ _ _ _ Hg Hreach) |].
  split; [intros; by eapply (spsc_eof_complete _ _ _ _ _ _ _ Hg Hreach) |].
  split; intros; [by eapply res_write_steps | by apply res_pull_steps].
Qed.

Lemma reservoir_concurrent_safe_witness :
  let s := Spsc (storage demo_reservoir) 0 0 true P_idle (C_loaded true 0) [] [] in
  recv s `prefix_of` sent s /\ zlen (sent s) <= zlen (recv s) + 4 * 2.
Proof.
  intros s. destruct (reservoir_concurrent_safe demo_reservoir s) as (H & _);
    [apply demo_reservoir_wf | | exact H].
  eapply rtc_l; [apply p_finish |]. eapply rtc_l; [apply c_load | apply rtc_refl].
Defined.
