(* ===== verification/Decoder.v ===== *)
(** The decoder adapter contract and the decode worker: [core/eaf_decoder.c],
    [include/eaf/eaf_decoder.h].

    An adapter is a table of operations on an opaque context; the worker moves
    its frames into a PCM sink.  Both are parameters here: what they promise is
    the class [DecoderLaws] and the predicate [sink_laws]. *)

From S2P Require Import Prelude Types.

Inductive eaf_codec_t :=
| EAF_CODEC_NONE | EAF_CODEC_PCM | EAF_CODEC_FLAC | EAF_CODEC_OPUS | EAF_CODEC_MP3 | EAF_CODEC_VORBIS.
#[export] Instance eaf_codec_eq_dec : EqDecision eaf_codec_t.
Proof. solve_decision. Defined.

Record eaf_decoder_config_t := DecoderConfig {
  codec : eaf_codec_t;
  cfg_sample_rate : Z;     (* uint32_t *)
  cfg_channels : Z;        (* uint8_t *)
  bit_depth : Z;           (* uint8_t *)
  extra : ptr (list Z);
  extra_length : Z
}.

(** Adapter operations on a context of type [C]; [None] is a NULL entry. *)
Record eaf_decoder_ops_t (C : Type) := DecoderOps {
  op_open : option (ptr C -> eaf_decoder_config_t -> eaf_format_t -> ub (ptr C * Z));
  (* data, length, *consumed before -> *consumed after, result *)
  op_push : option (ptr C -> ptr (list Z) -> Z -> Z -> ub (ptr C * Z * Z));
  (* pcm, max_frames, *frames, *format -> pcm, *frames, *format, result *)
  op_pull : option (ptr C -> list Z -> Z -> Z -> eaf_format_t -> ub (ptr C * list Z * Z * eaf_format_t * Z));
  op_reset : option (ptr C -> ub (ptr C * Z));
  op_close : option (ptr C -> ub (ptr C))
}.
Arguments DecoderOps {C}.
Arguments op_open {C}. Arguments op_push {C}. Arguments op_pull {C}.
Arguments op_reset {C}. Arguments op_close {C}.

Record eaf_decoder_t (C : Type) := Decoder {
  ops : ptr (eaf_decoder_ops_t C);
  ctx : ptr C
}.
Arguments Decoder {C}. Arguments ops {C}. Arguments ctx {C}.

Definition eaf_decoder_validate_open (cfg : eaf_decoder_config_t) (output : eaf_format_t)
    (c : eaf_codec_t) (unknown_channels : bool) : Z :=
  let channels_ok :=
    if decide (cfg_channels cfg = 0) then unknown_channels
    else bool_decide (cfg_channels cfg <= 2) &&
         (bool_decide (num_channels output = cfg_channels cfg)
          || (bool_decide (cfg_channels cfg = 1) && bool_decide (num_channels output = 2))) in
  if negb (bool_decide (codec cfg = c)) || negb channels_ok
     || negb (bool_decide (cfg_sample_rate cfg = sample_rate output))
  then EAF_UNSUPPORTED else EAF_OK.

Section decoder.
Context {C : Type}.

Definition eaf_decoder_open (decoder : ptr (eaf_decoder_t C)) (cfg : ptr eaf_decoder_config_t)
    (output : ptr eaf_format_t) : ub (ptr (eaf_decoder_t C) * Z) :=
  on_ptr decoder EAF_INVALID (fun d =>
    match ops d, ctx d, cfg, output with
    | Some o, Some c, Some cfg, Some out =>
        match op_open o, op_push o, op_pull o, op_reset o, op_close o with
        | Some open, Some _, Some _, Some _, Some _ =>
            if negb (eaf_format_valid (Some out)) || bool_decide (cfg_sample_rate cfg = 0)
               || bool_decide (cfg_channels cfg = 0)
               || bool_decide (EAF_MAX_CHANNELS < cfg_channels cfg)
            then Some (d, EAF_INVALID)
            else '(c', rc) ← open (Some c) cfg out; Some (Decoder (Some o) c', rc)
        | _, _, _, _, _ => Some (d, EAF_INVALID)
        end
    | _, _, _, _ => Some (d, EAF_INVALID)
    end).

(** [consumed] is the caller's variable: its value before and after. *)
Definition eaf_decoder_push (decoder : ptr (eaf_decoder_t C)) (data : ptr (list Z)) (length : Z)
    (consumed : ptr Z) : ub (ptr (eaf_decoder_t C) * (ptr Z * Z)) :=
  on_ptr decoder (consumed, EAF_INVALID) (fun d =>
    match ops d, consumed with
    | Some o, Some _ =>
        match op_push o with
        | None => Some (d, (consumed, EAF_INVALID))
        | Some push =>
            match data with
            | None =>
                if negb (bool_decide (length = 0)) then Some (d, (Some 0, EAF_INVALID))
                else '(c', n, rc) ← push (ctx d) data length 0; Some (Decoder (Some o) c', (Some n, rc))
            | Some _ => '(c', n, rc) ← push (ctx d) data length 0; Some (Decoder (Some o) c', (Some n, rc))
            end
        end
    | _, _ => Some (d, (consumed, EAF_INVALID))
    end).

(** [frames] and [format] are the caller's variables. *)
Definition eaf_decoder_pull (decoder : ptr (eaf_decoder_t C)) (pcm : ptr (list Z)) (max_frames : Z)
    (frames : ptr Z) (format : ptr eaf_format_t)
  : ub (ptr (eaf_decoder_t C) * (ptr (list Z) * ptr Z * ptr eaf_format_t * Z)) :=
  on_ptr decoder (pcm, frames, format, EAF_INVALID) (fun d =>
    match ops d, pcm, frames, format with
    | Some o, Some cells, Some _, Some fmt =>
        match op_pull o with
        | None => Some (d, (pcm, frames, format, EAF_INVALID))
        | Some pull =>
            if decide (max_frames = 0) then Some (d, (pcm, frames, format, EAF_INVALID))
            else
              '(c', cells', n, fmt', rc) ← pull (ctx d) cells max_frames 0 fmt;
              Some (Decoder (Some o) c', (Some cells', Some n, Some fmt', rc))
        end
    | _, _, _, _ => Some (d, (pcm, frames, format, EAF_INVALID))
    end).

Definition eaf_decoder_reset (decoder : ptr (eaf_decoder_t C)) : ub (ptr (eaf_decoder_t C) * Z) :=
  on_ptr decoder EAF_INVALID (fun d =>
    match ops d with
    | Some o =>
        match op_reset o with
        | Some reset => '(c', rc) ← reset (ctx d); Some (Decoder (Some o) c', rc)
        | None => Some (d, EAF_INVALID)
        end
    | None => Some (d, EAF_INVALID)
    end).

Definition eaf_decoder_close (decoder : ptr (eaf_decoder_t C)) : ub (ptr (eaf_decoder_t C)) :=
  match decoder with
  | None => Some None
  | Some d =>
      match ops d with
      | Some o =>
          match op_close o with
          | Some close => c' ← close (ctx d); Some (Some (Decoder (Some o) c'))
          | None => Some (Some d)
          end
      | None => Some (Some d)
      end
  end.

(** ** The decode worker

    [W] is the state behind the sink callback; [sink] consumes a prefix of the
    samples at the given pointer and returns the number of frames it accepted. *)
Context {W : Type}.
Definition eaf_pcm_write_fn := W -> list Z -> Z -> ub (W * Z).

Record eaf_decode_worker_t := Worker {
  decoder : eaf_decoder_t C;
  format : eaf_format_t;
  sink : ptr eaf_pcm_write_fn;
  sink_ctx : W;
  scratch : ptr (list Z);
  scratch_frames : Z;
  pending : Z;
  sent : Z;
  frames_written : Z;
  frames_dropped : Z;
  open : bool
}.

Definition set_progress (p s fw fd : Z) (w : eaf_decode_worker_t) : eaf_decode_worker_t :=
  Worker (decoder w) (format w) (sink w) (sink_ctx w) (scratch w) (scratch_frames w) p s fw fd (open w).
Definition set_decoder (d : eaf_decoder_t C) (w : eaf_decode_worker_t) : eaf_decode_worker_t :=
  Worker d (format w) (sink w) (sink_ctx w) (scratch w) (scratch_frames w) (pending w) (sent w)
    (frames_written w) (frames_dropped w) (open w).
Definition set_scratch (l : ptr (list Z)) (w : eaf_decode_worker_t) : eaf_decode_worker_t :=
  Worker (decoder w) (format w) (sink w) (sink_ctx w) l (scratch_frames w) (pending w) (sent w)
    (frames_written w) (frames_dropped w) (open w).
Definition set_sink_ctx (x : W) (w : eaf_decode_worker_t) : eaf_decode_worker_t :=
  Worker (decoder w) (format w) (sink w) x (scratch w) (scratch_frames w) (pending w) (sent w)
    (frames_written w) (frames_dropped w) (open w).
Definition set_open (b : bool) (w : eaf_decode_worker_t) : eaf_decode_worker_t :=
  Worker (decoder w) (format w) (sink w) (sink_ctx w) (scratch w) (scratch_frames w) (pending w) (sent w)
    (frames_written w) (frames_dropped w) b.

Definition eaf_decode_worker_init (worker : ptr eaf_decode_worker_t) (d : ptr (eaf_decoder_t C))
    (sk : ptr eaf_pcm_write_fn) (sk_ctx : W) (scr : ptr (list Z)) (scr_frames : Z)
    (output : ptr eaf_format_t) : ub (ptr eaf_decode_worker_t * Z) :=
  on_ptr worker EAF_INVALID (fun w =>
    match d, sk, scr, output with
    | Some d, Some sk, Some scr, Some out =>
        match ops d with
        | None => Some (w, EAF_INVALID)
        | Some _ =>
            if negb (eaf_format_valid (Some out)) || bool_decide (scr_frames = 0)
            then Some (w, EAF_INVALID)
            else Some (Worker d out (Some sk) sk_ctx (Some scr) scr_frames 0 0 0 0 false, EAF_OK)
        end
    | _, _, _, _ => Some (w, EAF_INVALID)
    end).

(** Call a decoder function on [&worker->decoder]. *)
Definition on_decoder {R} (f : ptr (eaf_decoder_t C) -> ub (ptr (eaf_decoder_t C) * R))
    (w : eaf_decode_worker_t) : ub (eaf_decode_worker_t * R) :=
  '(d', r) ← with_ref f (decoder w); Some (set_decoder d' w, r).

Definition eaf_decode_worker_open (worker : ptr eaf_decode_worker_t) (cfg : ptr eaf_decoder_config_t)
  : ub (ptr eaf_decode_worker_t * Z) :=
  on_ptr worker EAF_INVALID (fun w =>
    match cfg, sink w, scratch w with
    | Some cfg, Some _, Some _ =>
        '(w, rc) ← on_decoder (fun d => eaf_decoder_open d (Some cfg) (Some (format w))) w;
        if decide (rc = 0) then Some (set_open true (set_progress 0 0 0 0 w), EAF_OK)
        else Some (w, rc)
    | _, _, _ => Some (w, EAF_INVALID)
    end).

Definition eaf_decode_worker_can_push (worker : ptr eaf_decode_worker_t) : bool :=
  match worker with
  | None => false
  | Some w => open w && bool_decide (pending w = sent w)
  end.

Definition eaf_decode_worker_push (worker : ptr eaf_decode_worker_t) (data : ptr (list Z)) (length : Z)
    (consumed : ptr Z) : ub (ptr eaf_decode_worker_t * (ptr Z * Z)) :=
  on_ptr worker (consumed, EAF_INVALID) (fun w =>
    match consumed with
    | None => Some (w, (None, EAF_INVALID))
    | Some _ =>
        if negb (open w) then Some (w, (Some 0, EAF_STATE))
        else if decide (sent w < pending w) then Some (w, (Some 0, EAF_OK))
        else on_decoder (fun d => eaf_decoder_push d data length (Some 0)) w
    end).

Definition drain (w : eaf_decode_worker_t) : ub (eaf_decode_worker_t * Z) :=
  let channels := num_channels (format w) in
  write ← sink w;
  scr ← scratch w;
  from ← ldn scr (sent w * channels) (zlen scr - sent w * channels);
  '(x, written) ← write (sink_ctx w) from (u32 (pending w - sent w));
  Some (set_sink_ctx x (set_progress (pending w) (u32 (sent w + written))
          (u32 (frames_written w + written)) (frames_dropped w) w), written).

Definition eaf_decode_worker_step (worker : ptr eaf_decode_worker_t)
  : ub (ptr eaf_decode_worker_t * Z) :=
  on_ptr worker EAF_INVALID (fun w =>
    if negb (open w) then Some (w, EAF_STATE)
    else if decide (sent w < pending w) then '(w, _) ← drain w; Some (w, EAF_OK)
    else
      let w := set_progress 0 0 (frames_written w) (frames_dropped w) w in
      '(w, (scr, frames, fmt, rc)) ← on_decoder (fun d =>
          eaf_decoder_pull d (scratch w) (scratch_frames w) (Some 0) (Some format_zero)) w;
      let w := set_scratch scr w in
      frames ← frames; fmt ← fmt;
      if negb (bool_decide (rc = 0)) then
        '(w, _) ← on_decoder eaf_decoder_reset w; Some (w, rc)
      else if decide (frames = 0) then Some (w, EAF_OK)
      else if negb (eaf_format_equal fmt (format w)) then
        '(w, _) ← on_decoder eaf_decoder_reset w; Some (w, EAF_INVALID)
      else
        '(w, _) ← drain (set_progress frames 0 (frames_written w) (frames_dropped w) w);
        Some (w, EAF_OK)).

Definition eaf_decode_worker_reset (worker : ptr eaf_decode_worker_t)
  : ub (ptr eaf_decode_worker_t * Z) :=
  on_ptr worker EAF_INVALID (fun w =>
    let dropped := if decide (sent w < pending w)
                   then u32 (frames_dropped w + u32 (pending w - sent w)) else frames_dropped w in
    let w := set_progress 0 0 (frames_written w) dropped w in
    if negb (open w) then Some (w, EAF_OK)
    else on_decoder eaf_decoder_reset w).

Definition eaf_decode_worker_close (worker : ptr eaf_decode_worker_t) : ub (ptr eaf_decode_worker_t) :=
  match worker with
  | None => Some None
  | Some w =>
      w ← (if open w then d' ← eaf_decoder_close (Some (decoder w)); d ← d'; Some (set_decoder d w)
           else Some w);
      Some (Some (set_progress 0 0 (frames_written w) (frames_dropped w) (set_open false w)))
  end.
End decoder.

#[global] Arguments eaf_pcm_write_fn : clear implicits.
#[global] Arguments eaf_decode_worker_t : clear implicits.

(** ** What an adapter promises

    [dec_raw] holds of the memory handed to the adapter, [dec_inv fmt] once it was
    opened for output format [fmt]. *)
Class DecoderLaws {C} (o : eaf_decoder_ops_t C) := {
  dec_raw : C -> Prop;
  dec_inv : eaf_format_t -> C -> Prop;
  inv_raw fmt c : dec_inv fmt c -> dec_raw c;
  law_open c cfg out : dec_raw c -> eaf_format_valid (Some out) = true -> 0 < num_channels out ->
    exists f c' rc, op_open o = Some f /\ f (Some c) cfg out = Some (Some c', rc) /\
      dec_raw c' /\ (rc = 0 -> dec_inv out c');
  law_push fmt c data n k : dec_inv fmt c -> 0 <= n <= zlen data -> Forall is_u8 data ->
    exists f c' k' rc, op_push o = Some f /\ f (Some c) (Some data) n k = Some (Some c', k', rc) /\
      dec_inv fmt c' /\ 0 <= k' <= n;
  law_pull fmt c cells m n fmt0 : dec_inv fmt c -> 0 < m -> m * num_channels fmt <= zlen cells ->
    exists f c' cells' n' fmt' rc, op_pull o = Some f /\
      f (Some c) cells m n fmt0 = Some (Some c', cells', n', fmt', rc) /\
      dec_inv fmt c' /\ zlen cells' = zlen cells /\ 0 <= n' <= m;
  law_reset fmt c : dec_inv fmt c ->
    exists f c' rc, op_reset o = Some f /\ f (Some c) = Some (Some c', rc) /\ dec_inv fmt c';
  law_close fmt c : dec_inv fmt c ->
    exists f c', op_close o = Some f /\ f (Some c) = Some (Some c') /\ dec_raw c'
}.

(** What a PCM sink promises: it takes a prefix of the frames offered. *)
Definition sink_laws {W} (ch : Z) (x_inv : W -> Prop) (accepted : W -> list Z)
    (write : eaf_pcm_write_fn W) : Prop :=
  forall x from n, x_inv x -> 0 <= n -> is_u32 n -> n * ch <= zlen from -> 
    exists x' k, write x from n = Some (x', k) /\ x_inv x' /\ 0 <= k <= n /\
      accepted x' = accepted x ++ slice from 0 (k * ch).

(** What a successful check of the configuration gives; an adapter may accept an
    undeclared channel count. *)
Lemma validate_open_ok cfg out c unknown :
  0 < num_channels out -> eaf_decoder_validate_open cfg out c unknown = 0 ->
  ((cfg_channels cfg = 0 /\ unknown = true) \/
   ((cfg_channels cfg = 1 \/ cfg_channels cfg = 2) /\
    (num_channels out = cfg_channels cfg \/ (cfg_channels cfg = 1 /\ num_channels out = 2)))) /\
  cfg_sample_rate cfg = sample_rate out /\ codec cfg = c.
Proof.
  intros Hn. unfold eaf_decoder_validate_open.
  destruct unknown; case_decide; repeat case_bool_decide; simpl; try done; intros _; split_and!;
    first [done | (left; done) | (right; lia)].
Qed.

Lemma validate_open_channels cfg out c :
  0 < num_channels out -> eaf_decoder_validate_open cfg out c false = 0 ->
  (cfg_channels cfg = 1 \/ cfg_channels cfg = 2) /\
  (num_channels out = cfg_channels cfg \/ (cfg_channels cfg = 1 /\ num_channels out = 2)) /\
  cfg_sample_rate cfg = sample_rate out /\ codec cfg = c.
Proof. intros Hn Hv. destruct (validate_open_ok cfg out c false Hn Hv) as ([[? ?]|[? ?]] & ?); done. Qed.

(** ** Recording what a decoder emits

    [logged fmt o] is the adapter [o] with a log of the frames its pulls emit in
    format [fmt]; the worker accepts only those. *)
Definition pair_log {C} (log : list Z) (c : ptr C) : ptr (C * list Z) :=
  match c with Some c => Some (c, log) | None => None end.

Definition with_log {C R} (f : ptr C -> ub (ptr C * R)) (p : ptr (C * list Z)) : ub (ptr (C * list Z) * R) :=
  match p with
  | None => '(_, r) ← f None; Some (None, r)
  | Some (c, log) => '(c', r) ← f (Some c); Some (pair_log log c', r)
  end.

Definition logged_pull {C} (fmt : eaf_format_t)
    (f : ptr C -> list Z -> Z -> Z -> eaf_format_t -> ub (ptr C * list Z * Z * eaf_format_t * Z))
    (p : ptr (C * list Z)) (cells : list Z) (m n : Z) (fmt0 : eaf_format_t)
  : ub (ptr (C * list Z) * list Z * Z * eaf_format_t * Z) :=
  match p with
  | None => '(_, cells', n', fmt', rc) ← f None cells m n fmt0; Some (None, cells', n', fmt', rc)
  | Some (c, log) =>
      '(c', cells', n', fmt', rc) ← f (Some c) cells m n fmt0;
      let log' := if bool_decide (rc = 0) && eaf_format_equal fmt' fmt
                  then log ++ slice cells' 0 (n' * num_channels fmt) else log in
      Some (pair_log log' c', cells', n', fmt', rc)
  end.

Definition logged {C} (fmt : eaf_format_t) (o : eaf_decoder_ops_t C) : eaf_decoder_ops_t (C * list Z) :=
  DecoderOps
    ((fun f p cfg out => with_log (fun c => f c cfg out) p) <$> op_open o)
    ((fun f p data n k =>
        '(p', (k', rc)) ← with_log (fun c => '(c', k', rc) ← f c data n k; Some (c', (k', rc))) p;
        Some (p', k', rc)) <$> op_push o)
    (logged_pull fmt <$> op_pull o)
    ((fun f p => with_log f p) <$> op_reset o)
    ((fun f p => '(p', _) ← with_log (fun c => c' ← f c; Some (c', tt)) p; Some p') <$> op_close o).

(** ** The worker's invariant *)
Section worker.
Context {C W : Type} (o : eaf_decoder_ops_t C) `{!DecoderLaws o}.
Context (fmt : eaf_format_t) (write : eaf_pcm_write_fn W) (x_inv : W -> Prop) (accepted : W -> list Z).
Let ch := num_channels fmt.
Hypothesis (Hsink : sink_laws ch x_inv accepted write).
Hypothesis (Hfmt : eaf_format_valid (Some fmt) = true) (Hch : 0 < ch).

Local Abbreviation worker := (eaf_decode_worker_t (C * list Z) W).

Record worker_inv (w : worker) (c : C) (log cells : list Z) : Prop := {
  winv_decoder : decoder w = Decoder (Some (logged fmt o)) (Some (c, log));
  winv_ctx : dec_inv fmt c;
  winv_format : format w = fmt;
  winv_sink : sink w = Some write;
  winv_sink_inv : x_inv (sink_ctx w);
  winv_scratch : scratch w = Some cells;
  winv_scratch_frames : 0 < scratch_frames w < 4294967296;
  winv_scratch_len : scratch_frames w * ch <= zlen cells;
  winv_sent : 0 <= sent w;
  winv_pending : sent w <= pending w <= scratch_frames w;
  winv_written : is_u32 (frames_written w);
  winv_open : open w = true
}.

(** The decoded frames the sink has not accepted yet. *)
Definition queue (w : worker) (cells : list Z) : list Z :=
  slice cells (sent w * ch) ((pending w - sent w) * ch).

Lemma zlen_queue w c log cells :
  worker_inv w c log cells -> zlen (queue w cells) = (pending w - sent w) * ch.
Proof. intros []. unfold queue. rewrite zlen_slice; nia. Qed.

Lemma drain_spec w c log cells :
  worker_inv w c log cells ->
  exists w' k, drain w = Some (w', k) /\ worker_inv w' c log cells /\ 0 <= k <= pending w - sent w /\
    accepted (sink_ctx w') ++ queue w' cells = accepted (sink_ctx w) ++ queue w cells /\
    pending w' = pending w /\ sent w' = sent w + k /\
    frames_written w' = u32 (frames_written w + k) /\ frames_dropped w' = frames_dropped w /\
    zlen (accepted (sink_ctx w')) = zlen (accepted (sink_ctx w)) + k * ch.
Proof using Hsink Hch.
  intros [Hd Hc Hf Hs Hx Hscr Hsf Hlen Hsent Hpend Hfw Hopen]. unfold drain.
  rewrite Hs, Hscr. cbn [mbind option_bind]. rewrite Hf. fold ch.
  rewrite ldn_eq by nia. cbn [mbind option_bind].
  assert (Hz : zlen (slice cells (sent w * ch) (zlen cells - sent w * ch)) = zlen cells - sent w * ch)
    by (apply zlen_slice; nia).
  rewrite (u32_small (pending w - sent w)) by word.
  destruct (Hsink (sink_ctx w) (slice cells (sent w * ch) (zlen cells - sent w * ch)) (pending w - sent w))
    as (x' & k & -> & Hx' & Hk & Hacc); [done | lia | word | nia |].
  cbn [mbind option_bind]. eexists _, k. split; [done |].
  rewrite (u32_small (sent w + k)) by word.
  assert (Hsl : slice (slice cells (sent w * ch) (zlen cells - sent w * ch)) 0 (k * ch)
    = slice cells (sent w * ch) (k * ch)).
  { apply list_eq. intros j. destruct (decide (Z.of_nat j < k * ch)).
    - rewrite !lookup_slice by nia. f_equal.
    - by rewrite !lookup_slice_ge by lia. }
  split; [split; simpl; try done; [lia | lia | apply u32_range] |]. split; [done |]. simpl. rewrite Hacc, Hsl.
  split_and!; try done.
  - unfold queue. simpl. rewrite <- app_assoc. f_equal.
    replace ((pending w - sent w) * ch) with (k * ch + (pending w - (sent w + k)) * ch) by lia.
    rewrite slice_add by nia. f_equal. f_equal. lia.
  - rewrite zlen_app, zlen_slice by nia. done.
Qed.
(** Calls of the adapter through the worker. *)
Lemma worker_pull w c log cells :
  worker_inv w c log cells ->
  exists c' log' cells' n fmt' rc,
    on_decoder (fun d => eaf_decoder_pull d (scratch w) (scratch_frames w) (Some 0) (Some format_zero)) w
      = Some (set_decoder (Decoder (Some (logged fmt o)) (Some (c', log'))) w,
              (Some cells', Some n, Some fmt', rc)) /\
    dec_inv fmt c' /\ zlen cells' = zlen cells /\ 0 <= n <= scratch_frames w /\
    log' = (if bool_decide (rc = 0) && eaf_format_equal fmt' fmt then log ++ slice cells' 0 (n * ch) else log).
Proof using Hch.
  intros [Hd Hc Hf Hs Hx Hscr Hsf Hlen Hsent Hpend Hfw Hopen].
  destruct (law_pull fmt c cells (scratch_frames w) 0 format_zero Hc ltac:(lia) Hlen)
    as (f & c' & cells' & n & fmt' & rc & Hop & Hrun & Hc' & Hl & Hn).
  eexists c', _, cells', n, fmt', rc. split; [| split_and!; done || lia].
  unfold on_decoder, with_ref, eaf_decoder_pull, on_ptr. rewrite Hd, Hscr. simpl. rewrite Hop. simpl.
  rewrite decide_False by lia. rewrite Hrun. done.
Qed.

Lemma worker_decoder_reset w c log cells :
  worker_inv w c log cells ->
  exists c' rc, on_decoder eaf_decoder_reset w =
      Some (set_decoder (Decoder (Some (logged fmt o)) (Some (c', log))) w, rc) /\ dec_inv fmt c'.
Proof using.
  intros [Hd Hc Hf Hs Hx Hscr Hsf Hlen Hsent Hpend Hfw Hopen].
  destruct (law_reset fmt c Hc) as (f & c' & rc & Hop & Hrun & Hc').
  exists c', rc. split; [| done]. unfold on_decoder, with_ref, eaf_decoder_reset, on_ptr. rewrite Hd. simpl.
  rewrite Hop. simpl. rewrite Hrun. done.
Qed.

Lemma worker_decoder_push w c log cells data n :
  worker_inv w c log cells -> 0 <= n <= zlen data -> Forall is_u8 data ->
  exists c' k rc, on_decoder (fun d => eaf_decoder_push d (Some data) n (Some 0)) w =
      Some (set_decoder (Decoder (Some (logged fmt o)) (Some (c', log))) w, (Some k, rc)) /\
    dec_inv fmt c' /\ 0 <= k <= n.
Proof using.
  intros [Hd Hc Hf Hs Hx Hscr Hsf Hlen Hsent Hpend Hfw Hopen] Hn Hb.
  destruct (law_push fmt c data n 0 Hc Hn Hb) as (f & c' & k & rc & Hop & Hrun & Hc' & Hk).
  exists c', k, rc. split; [| done]. unfold on_decoder, with_ref, eaf_decoder_push, on_ptr. rewrite Hd. simpl.
  rewrite Hop. simpl. rewrite Hrun. done.
Qed.

(** One step: what was decoded and not yet accepted is conserved. *)
Lemma worker_step_spec w c log cells :
  worker_inv w c log cells ->
  exists w' c' new cells' rc, eaf_decode_worker_step (Some w) = Some (Some w', rc) /\
    worker_inv w' c' (log ++ new) cells' /\
    accepted (sink_ctx w') ++ queue w' cells' = (accepted (sink_ctx w) ++ queue w cells) ++ new /\
    (sent w < pending w -> rc = EAF_OK /\ new = [] /\ c' = c) /\
    frames_dropped w' = frames_dropped w /\
    (exists k, 0 <= k /\ zlen (accepted (sink_ctx w')) = zlen (accepted (sink_ctx w)) + k * ch /\
       frames_written w' = u32 (frames_written w + k)).
Proof using Hsink Hch.
  intros Hinv. pose proof (winv_open _ _ _ _ Hinv) as Hopen.
  unfold eaf_decode_worker_step, on_ptr. rewrite Hopen. cbn [negb].
  destruct (decide (sent w < pending w)) as [Hlt|Hge].
  { destruct (drain_spec w c log cells Hinv) as (w' & k & -> & Hinv' & Hk & Hq & _ & _ & Hfw & Hfd & Hz).
    exists w', c, [], cells, EAF_OK. rewrite !app_nil_r. split; [done |]. split; [done |]. split; [done |].
    split; [done |]. split; [done |]. exists k. split; [lia |]. done. }
  assert (Heq : sent w = pending w) by (destruct Hinv; lia).
  assert (Hq0 : queue w cells = []) by (unfold queue; by rewrite Heq, Z.sub_diag).
  rewrite Hq0, app_nil_r.
  set (w0 := set_progress 0 0 _ _ w).
  assert (Hinv0 : worker_inv w0 c log cells) by (destruct Hinv; split; simpl; done || lia).
  destruct (worker_pull w0 c log cells Hinv0) as (c1 & log1 & cells1 & n & fmt1 & rc & Hrun & Hc1 & Hl1 & Hn & Hlog1).
  rewrite Hrun. cbn [mbind option_bind].
  set (w1 := set_scratch (Some cells1) (set_decoder _ w0)).
  assert (Hinv1 : worker_inv w1 c1 log1 cells1) by (destruct Hinv0; split; simpl; rewrite ?Hl1; done).
  assert (Hfmt1 : format w1 = fmt) by apply Hinv1.
  assert (Hsame : exists k, 0 <= k /\ zlen (accepted (sink_ctx w)) = zlen (accepted (sink_ctx w)) + k * ch /\
    frames_written w = u32 (frames_written w + k)).
  { exists 0. split; [done |]. split; [lia |]. rewrite Z.add_0_r. symmetry. apply u32_small. apply Hinv. }
  assert (Hq1 : forall d cs, queue (set_decoder d w1) cs = []) by done.
  assert (Hidle : forall c2, dec_inv fmt c2 -> log1 = log ->
    worker_inv (set_decoder (Decoder (Some (logged fmt o)) (Some (c2, log1))) w1) c2 (log ++ []) cells1).
  { intros c2 Hc2 ->. rewrite app_nil_r. destruct Hinv1; split; done. }
  rewrite Hfmt1. destruct (worker_decoder_reset w1 c1 log1 cells1 Hinv1) as (c2 & rcr & Hreset & Hc2).
  destruct (decide (rc = 0)) as [Hrc|Hrc].
  2:{ rewrite bool_decide_eq_false_2 in * by done. simpl in Hlog1. cbn [negb]. rewrite Hreset.
      eexists _, c2, [], cells1, rc. split; [done |]. rewrite Hq1.
      split_and!; try done. by apply Hidle. }
  rewrite bool_decide_eq_true_2 in * by done. cbn [negb]. rewrite andb_true_l in Hlog1.
  destruct (decide (n = 0)) as [->|Hn0].
  { assert (Hl0 : log1 = log) by (rewrite Hlog1; destruct (eaf_format_equal _ _); by rewrite ?app_nil_r).
    eexists _, c1, [], cells1, EAF_OK. split; [done |].
    split_and!; try done. by apply (Hidle c1). }
  destruct (eaf_format_equal fmt1 fmt) eqn:Ef; cbn [negb].
  2:{ rewrite Hreset. eexists _, c2, [], cells1, EAF_INVALID. split; [done |]. rewrite Hq1.
      split_and!; try done. by apply Hidle. }
  set (w2 := set_progress n 0 _ _ w1).
  assert (Hinv2 : worker_inv w2 c1 log1 cells1) by (destruct Hinv1; split; simpl; done || lia).
  destruct (drain_spec w2 c1 log1 cells1 Hinv2) as (w' & k & -> & Hinv' & Hk & Hq & _ & _ & Hfw & Hfd & Hz).
  exists w', c1, (slice cells1 0 (n * ch)), cells1, EAF_OK. rewrite <- Hlog1. split; [done |]. split; [done |]. split.
  { rewrite Hq. simpl. f_equal. unfold queue. simpl. f_equal. lia. }
  split; [lia |]. split; [done |]. exists k. split; [lia |]. done.
Qed.

(** ** Sessions of an open worker *)

Inductive worker_op :=
| WPush (data : list Z) (n : Z)
| WStep
| WReset.

Definition worker_op_ok (op : worker_op) : Prop :=
  match op with WPush data n => 0 <= n <= zlen data /\ Forall is_u8 data | _ => True end.

Fixpoint worker_run (script : list worker_op) (w : worker) : ub worker :=
  match script with
  | [] => Some w
  | WPush data n :: script' =>
      '(w', _) ← with_ref (fun p => eaf_decode_worker_push p (Some data) n (Some 0)) w; worker_run script' w'
  | WStep :: script' => '(w', _) ← with_ref eaf_decode_worker_step w; worker_run script' w'
  | WReset :: script' => '(w', _) ← with_ref eaf_decode_worker_reset w; worker_run script' w'
  end.

(** Frame accounting: [F] frames accepted and [D] dropped since the worker was opened. *)
Definition worker_accounts (w : worker) (log cells : list Z) : Prop :=
  accepted (sink_ctx w) ++ queue w cells `sublist_of` log /\
  exists F D, 0 <= F /\ 0 <= D /\ zlen (accepted (sink_ctx w)) = F * ch /\
    frames_written w = u32 F /\ frames_dropped w = u32 D /\
    zlen log = (F + D + (pending w - sent w)) * ch.

Lemma worker_step_accounts w c log cells :
  worker_inv w c log cells -> worker_accounts w log cells ->
  exists w' c' new cells' rc, eaf_decode_worker_step (Some w) = Some (Some w', rc) /\
    worker_inv w' c' (log ++ new) cells' /\ worker_accounts w' (log ++ new) cells' /\
    accepted (sink_ctx w') ++ queue w' cells' = (accepted (sink_ctx w) ++ queue w cells) ++ new.
Proof using Hsink Hch.
  intros Hinv [Hsub (F & D & HF & HD & Hacc & Hfw & Hfd & Hlog)].
  destruct (worker_step_spec w c log cells Hinv)
    as (w' & c' & new & cells' & rc & Hrun & Hinv' & Hq & _ & Hfd' & k & Hk & Hak & Hfw').
  exists w', c', new, cells', rc. split; [done |]. split; [done |]. split; [| done].
  split; [rewrite Hq; by apply sublist_app |].
  pose proof (f_equal zlen Hq) as Hqz.
  rewrite !zlen_app, (zlen_queue _ _ _ _ Hinv), (zlen_queue _ _ _ _ Hinv') in Hqz.
  exists (F + k), D. rewrite Hfw', Hfw, Hfd', zlen_app. split_and!; try done; try lia.
  word.
Qed.

Lemma worker_push_accounts w c log cells data n :
  worker_inv w c log cells -> worker_accounts w log cells -> 0 <= n <= zlen data -> Forall is_u8 data ->
  exists w' c' k rc, eaf_decode_worker_push (Some w) (Some data) n (Some 0) = Some (Some w', (Some k, rc)) /\
    worker_inv w' c' log cells /\ worker_accounts w' log cells /\ 0 <= k <= n /\
    accepted (sink_ctx w') ++ queue w' cells = accepted (sink_ctx w) ++ queue w cells.
Proof using Hch.
  intros Hinv Hacc Hn Hb. unfold eaf_decode_worker_push, on_ptr. rewrite (winv_open _ _ _ _ Hinv). cbn [negb].
  case_decide.
  { exists w, c, 0, EAF_OK. split_and!; done || lia. }
  destruct (worker_decoder_push w c log cells data n Hinv Hn Hb) as (c' & k & rc & -> & Hc' & Hk).
  eexists _, c', k, rc. split; [done |]. split; [destruct Hinv; split; done |]. split_and!; done || lia.
Qed.

Lemma worker_reset_accounts w c log cells :
  worker_inv w c log cells -> worker_accounts w log cells ->
  exists w' c' rc, eaf_decode_worker_reset (Some w) = Some (Some w', rc) /\
    worker_inv w' c' log cells /\ worker_accounts w' log cells /\ queue w' cells = [] /\
    accepted (sink_ctx w') = accepted (sink_ctx w).
Proof using Hch.
  intros Hinv [Hsub (F & D & HF & HD & Hacc & Hfw & Hfd & Hlog)].
  unfold eaf_decode_worker_reset, on_ptr. simpl. rewrite (winv_open _ _ _ _ Hinv). cbn [negb].
  set (w0 := set_progress 0 0 _ _ w).
  assert (Hinv0 : worker_inv w0 c log cells) by (destruct Hinv; split; simpl; done || lia).
  destruct (worker_decoder_reset w0 c log cells Hinv0) as (c' & rc & -> & Hc').
  eexists _, c', rc. split; [done |]. split; [destruct Hinv0; split; done |]. split; [| done].
  split.
  - simpl. etrans; [| exact Hsub]. unfold queue. simpl. apply sublist_app; [done |]. apply sublist_nil_l.
  - exists F, (D + (pending w - sent w)). simpl. destruct Hinv. split_and!; try done; try lia.
    rewrite Hfd. case_decide; word.
Qed.

Lemma worker_run_accounts script w c log cells :
  worker_inv w c log cells -> worker_accounts w log cells -> Forall worker_op_ok script ->
  exists w' c' log' cells', worker_run script w = Some w' /\ worker_inv w' c' log' cells' /\
    worker_accounts w' log' cells' /\ log `prefix_of` log' /\
    (Forall (fun op => op <> WReset) script -> log = accepted (sink_ctx w) ++ queue w cells ->
     log' = accepted (sink_ctx w') ++ queue w' cells').
Proof using Hsink Hch.
  revert w c log cells. induction script as [|op script IH]; intros w c log cells Hinv Hacc Hops.
  { exists w, c, log, cells. split_and!; done. }
  apply List.Forall_cons_iff in Hops as [Hop Hops]. destruct op as [data n| |]; simpl; unfold with_ref.
  - destruct (worker_push_accounts w c log cells data n Hinv Hacc (proj1 Hop) (proj2 Hop)) as (w1 & c1 & k & rc & -> & Hinv1 & Hacc1 & _ & Hq).
    simpl. destruct (IH w1 c1 log cells Hinv1 Hacc1 Hops) as (w' & c' & log' & cells' & -> & Hi & Ha & Hp & Hx).
    exists w', c', log', cells'. split_and!; try done.
    intros [_ Hn]%List.Forall_cons_iff Hl. apply Hx; [done |]. by rewrite Hq.
  - destruct (worker_step_accounts w c log cells Hinv Hacc) as (w1 & c1 & new & cells1 & rc & -> & Hinv1 & Hacc1 & Hq).
    simpl. destruct (IH w1 c1 (log ++ new) cells1 Hinv1 Hacc1 Hops) as (w' & c' & log' & cells' & -> & Hi & Ha & Hp & Hx).
    exists w', c', log', cells'. split_and!; try done; [etrans; [| exact Hp]; by apply prefix_app_r |].
    intros [_ Hn]%List.Forall_cons_iff Hl. apply Hx; [done |]. by rewrite Hq, Hl.
  - destruct (worker_reset_accounts w c log cells Hinv Hacc) as (w1 & c1 & rc & -> & Hinv1 & Hacc1 & _).
    simpl. destruct (IH w1 c1 log cells Hinv1 Hacc1 Hops) as (w' & c' & log' & cells' & -> & Hi & Ha & Hp & Hx).
    exists w', c', log', cells'. split_and!; try done.
    by intros [Hn _]%List.Forall_cons_iff.
Qed.

End worker.

(** ** Opening *)
Section opening.
Context {C W : Type} (o : eaf_decoder_ops_t C) `{!DecoderLaws o}.
Context (fmt : eaf_format_t) (write : eaf_pcm_write_fn W) (x_inv : W -> Prop) (accepted : W -> list Z).

Lemma worker_open_spec (w0 : eaf_decode_worker_t (C * list Z) W) c x scr n cfg :
  dec_raw c -> x_inv x -> accepted x = [] -> eaf_format_valid (Some fmt) = true -> 0 < num_channels fmt ->
  0 < n < 4294967296 -> n * num_channels fmt <= zlen scr ->
  exists w1 w2 rc,
    eaf_decode_worker_init (Some w0) (Some (Decoder (Some (logged fmt o)) (Some (c, [])))) (Some write) x
      (Some scr) n (Some fmt) = Some (Some w1, EAF_OK) /\
    eaf_decode_worker_open (Some w1) (Some cfg) = Some (Some w2, rc) /\
    (rc = 0 -> exists c', worker_inv o fmt write x_inv w2 c' [] scr /\ worker_accounts fmt accepted w2 [] scr).
Proof.
  intros Hraw Hx Hacc Hfmt Hch Hn Hscr. unfold eaf_decode_worker_init, on_ptr. simpl.
  rewrite Hfmt, bool_decide_eq_false_2 by lia. cbn [negb orb mbind option_bind].
  set (w1 := Worker _ _ _ _ _ _ _ _ _ _ _). exists w1.
  destruct (law_open c cfg fmt Hraw Hfmt Hch) as (f & c' & rc & Hop & Hrun & Hraw' & Hinv).
  set (bad := negb (eaf_format_valid (Some fmt)) || bool_decide (cfg_sample_rate cfg = 0)
               || bool_decide (cfg_channels cfg = 0)
               || bool_decide (EAF_MAX_CHANNELS < cfg_channels cfg)).
  assert (Hopen : exists rc', on_decoder (fun d => eaf_decoder_open d (Some cfg) (Some fmt)) w1 =
      Some (w1, rc') /\ rc' <> 0 \/
    on_decoder (fun d => eaf_decoder_open d (Some cfg) (Some fmt)) w1 =
      Some (set_decoder (Decoder (Some (logged fmt o)) (Some (c', []))) w1, rc) /\ rc' = rc).
  { unfold on_decoder, with_ref, eaf_decoder_open, on_ptr. simpl. rewrite Hop. simpl. fold bad.
    destruct (op_push o), (op_pull o), (op_reset o), (op_close o); simpl;
      try (exists EAF_INVALID; by left).
    destruct bad; [exists EAF_INVALID; by left |]. exists rc. right. by rewrite Hrun. }
  unfold eaf_decode_worker_open, on_ptr. simpl.
  destruct Hopen as (rc' & [[-> Hne]|[-> ->]]); simpl.
  - rewrite decide_False by done. exists w1, rc'. done.
  - case_decide as Hz.
    + eexists _, EAF_OK. split; [done |]. split; [done |]. intros _. exists c'. split.
      * split; simpl; try done; lia || auto.
      * split; [simpl; by rewrite Hacc |]. exists 0, 0. simpl. by rewrite Hacc.
    + eexists _, rc. done.
Qed.
End opening.

(** ** Properties *)

(** C5: No decoded frame is lost or written twice: for every adapter that meets its
    contract and every sink that takes a prefix of what it is offered, after
    initialisation and a successful open, whatever pushes, steps and resets
    follow, no call fails; the frames the sink received followed by the retained
    ones are exactly the emitted frames, in order, when no reset intervened, and
    a subsequence of them otherwise; and the counters account for every frame as
    written, dropped or pending. *)
Theorem decode_worker_lossless {C W} (o : eaf_decoder_ops_t C) `{!DecoderLaws o} (fmt : eaf_format_t)
    (write : eaf_pcm_write_fn W) (x_inv : W -> Prop) (accepted : W -> list Z)
    (w0 : eaf_decode_worker_t (C * list Z) W) (c : C) (x : W) (scr : list Z) (n : Z)
    (cfg : eaf_decoder_config_t) (script : list worker_op) :
  sink_laws (num_channels fmt) x_inv accepted write ->
  dec_raw c -> x_inv x -> accepted x = [] -> eaf_format_valid (Some fmt) = true -> 0 < num_channels fmt ->
  0 < n < 4294967296 -> n * num_channels fmt <= zlen scr -> Forall worker_op_ok script ->
  exists w1 w2 rc,
    eaf_decode_worker_init (Some w0) (Some (Decoder (Some (logged fmt o)) (Some (c, [])))) (Some write) x
      (Some scr) n (Some fmt) = Some (Some w1, EAF_OK) /\
    eaf_decode_worker_open (Some w1) (Some cfg) = Some (Some w2, rc) /\
    (rc = 0 -> exists w' c' log cells, worker_run script w2 = Some w' /\
       decoder w' = Decoder (Some (logged fmt o)) (Some (c', log)) /\ scratch w' = Some cells /\
       worker_accounts fmt accepted w' log cells /\
       (Forall (fun op => op <> WReset) script -> log = accepted (sink_ctx w') ++ queue fmt w' cells)).
Proof.
  intros Hsink Hraw Hx Hacc Hfmt Hch Hn Hscr Hops.
  destruct (worker_open_spec o fmt write x_inv accepted w0 c x scr n cfg) as (w1 & w2 & rc & Hi & Ho & Hok);
    try done.
  exists w1, w2, rc. split; [done |]. split; [done |]. intros Hrc.
  destruct (Hok Hrc) as (c' & Hinv & Hacct).
  destruct (worker_run_accounts o fmt write x_inv accepted Hsink Hch script w2 c' [] scr Hinv Hacct Hops)
    as (w' & c2 & log & cells & Hrun & Hinv' & Hacct' & _ & Hexact).
  exists w', c2, log, cells. split; [done |]. split; [apply Hinv' |]. split; [apply Hinv' |]. split; [done |].
  intros Hn0. apply Hexact; [done |].
  destruct Hacct as [Hs%sublist_nil_r _]. done.
Qed.
