(* ===== verification/Pcm.v ===== *)
(** The PCM passthrough adapter: [apps/decoders/dec_pcm.c],
    [include/eaf/eaf_dec_pcm.h]; an instance of the decoder contract. *)

From S2P Require Import Prelude Types Ring DecInput Bytes Decoder.

Definition EAF_DECODER_PCM_RING_BYTES : Z := 4096.

Record eaf_decoder_pcm_t := DecoderPcm {
  pcm_format : eaf_format_t;
  input_channels : Z;
  input_bits : Z;
  output_channels : Z;
  sample_bytes : Z;
  frame_bytes : Z;
  input : eaf_dec_input_t;   (* its ring is the array below once opened *)
  pcm_ring : list Z          (* uint8_t ring[EAF_DECODER_PCM_RING_BYTES] *)
}.

Definition set_input (i : eaf_dec_input_t) (s : eaf_decoder_pcm_t) : eaf_decoder_pcm_t :=
  DecoderPcm (pcm_format s) (input_channels s) (input_bits s) (output_channels s) (sample_bytes s)
    (frame_bytes s) i (pcm_ring s).

Definition pcm_open (ctx : ptr eaf_decoder_pcm_t) (cfg : eaf_decoder_config_t) (output : eaf_format_t)
  : ub (ptr eaf_decoder_pcm_t * Z) :=
  s ← ctx;
  let rc := eaf_decoder_validate_open cfg output EAF_CODEC_PCM false in
  if negb (bool_decide (rc = 0)) then Some (Some s, rc)
  else if negb (bool_decide (bit_depth cfg = 16)) && negb (bool_decide (bit_depth cfg = 24))
          && negb (bool_decide (bit_depth cfg = 32))
  then Some (Some s, EAF_UNSUPPORTED)
  else
    i ← eaf_dec_input_init (Some (input s)) (Some (pcm_ring s)) EAF_DECODER_PCM_RING_BYTES 0 0;
    Some (Some (DecoderPcm output (cfg_channels cfg) (bit_depth cfg) (num_channels output)
                  (bit_depth cfg / 8) (cfg_channels cfg * (bit_depth cfg / 8)) i (pcm_ring s)), EAF_OK).

Definition pcm_push (ctx : ptr eaf_decoder_pcm_t) (data : ptr (list Z)) (length consumed : Z)
  : ub (ptr eaf_decoder_pcm_t * Z * Z) :=
  s ← ctx;
  '(i, n) ← with_ref (fun i => match data with
                               | Some d => eaf_dec_input_push i d length
                               | None => if decide (length = 0) then eaf_dec_input_push i [] 0 else None
                               end) (input s);
  Some (Some (set_input i s), n, EAF_OK).

Definition pcm_sample (s : eaf_decoder_pcm_t) (frame : list Z) (offset : Z) : ub Z :=
  value ← for_to (sample_bytes s) (fun i value =>
            b ← ld frame (offset + i); Some (Z.lor value (u32 (Z.shiftl b (8 * i))))) 0;
  if decide (sample_bytes s = 2) then Some (eaf_pcm16_to_q31 (s16 value))
  else if decide (sample_bytes s = 3) then
    let value := if decide (Z.land value 8388608 <> 0) then Z.lor value 4278190080 else value in
    Some (eaf_pcm24_to_q31 (s32 value))
  else Some (eaf_pcm32_to_q31 (s32 value)).

(** The adapter installs no wait hook, so this one is never called. *)
Definition no_hook (fn ctx : Z) (w : unit) (i : eaf_dec_input_t) : Z * unit * eaf_dec_input_t := (1, w, i).

(** One round of the pull loop; [frame] is the local array of eight bytes. *)
Definition pcm_frame (f : Z) (st : eaf_decoder_pcm_t * list Z) : ub (eaf_decoder_pcm_t * list Z) :=
  let '(s, pcm) := st in
  '(i, _, frame, _) ← eaf_dec_input_read no_hook (2 * Z.to_nat (frame_bytes s) + 2) (Some (input s)) tt
                        (replicate 8 0) (frame_bytes s);
  i ← i;
  left ← pcm_sample s frame 0;
  converted ← (if decide (input_channels s = 2)
               then right ← pcm_sample s frame (sample_bytes s); Some [left; right]
               else Some [left; 0]);
  let off := f * output_channels s in
  dst ← ldn pcm off (zlen pcm - off);
  dst ← eaf_q31_interleaved converted 1 (input_channels s) dst (output_channels s);
  pcm ← stn pcm off dst;
  Some (set_input i s, pcm).

Definition pcm_pull (ctx : ptr eaf_decoder_pcm_t) (pcm : list Z) (max_frames frames : Z)
    (format : eaf_format_t) : ub (ptr eaf_decoder_pcm_t * list Z * Z * eaf_format_t * Z) :=
  s ← ctx;
  if decide (frame_bytes s = 0) then None else
  let available := count (input s) / frame_bytes s in
  let count := if decide (available < max_frames) then available else max_frames in
  '(s, pcm) ← for_to count pcm_frame (s, pcm);
  Some (Some s, pcm, count, pcm_format s, EAF_OK).

Definition pcm_reset (ctx : ptr eaf_decoder_pcm_t) : ub (ptr eaf_decoder_pcm_t * Z) :=
  s ← ctx; i ← eaf_dec_input_reset (Some (input s)); Some (Some (set_input i s), EAF_OK).

Definition pcm_close (ctx : ptr eaf_decoder_pcm_t) : ub (ptr eaf_decoder_pcm_t) := Some ctx.

Definition eaf_decoder_pcm_ops : eaf_decoder_ops_t eaf_decoder_pcm_t :=
  DecoderOps (Some pcm_open) (Some pcm_push) (Some pcm_pull) (Some pcm_reset) (Some pcm_close).

(** ** Reference conversion *)

(** Little-endian two's complement of [n] bytes, scaled to Q1.31. *)
Definition le_value (bs : list Z) : Z := foldr (fun b v => b + 256 * v) 0 bs.
Definition sample_value (bs : list Z) : Z :=
  let bits := 8 * zlen bs in
  let v := le_value bs in
  (if decide (v < 2 ^ (bits - 1)) then v else v - 2 ^ bits) * 2 ^ (32 - bits).

(** The output frame of one input frame: the channels, or the mono one duplicated. *)
Definition frame_value (ic oc sb : Z) (bs : list Z) : list Z :=
  let left := sample_value (slice bs 0 sb) in
  if decide (oc = 2) then [left; if decide (ic = 2) then sample_value (slice bs sb sb) else left]
  else [left].

Definition pcm_decode (ic oc sb n : Z) (bytes : list Z) : list Z :=
  concat ((fun f => frame_value ic oc sb (slice bytes (f * (ic * sb)) (ic * sb))) <$> seqZ 0 n).

Definition sample_body (frame : list Z) (offset i value : Z) : ub Z :=
  b ← ld frame (offset + i); Some (Z.lor value (u32 (Z.shiftl b (8 * i)))).

Lemma sample_step frame offset i value b :
  ld frame (offset + i) = Some b -> is_u8 b -> 0 <= i <= 3 -> 0 <= value < 2 ^ (8 * i) ->
  sample_body frame offset i value = Some (value + b * 2 ^ (8 * i)).
Proof.
  intros Hb Hr Hi Hv. unfold sample_body. rewrite Hb. simpl. f_equal.
  assert (Hp : 2 ^ (8 * i) <= 2 ^ 24) by (apply Z.pow_le_mono_r; lia). change (2 ^ 24) with 16777216 in Hp.
  unfold is_u8 in Hr. rewrite u32_small by (rewrite Z.shiftl_mul_pow2 by lia; unfold is_u32; nia).
  rewrite Z.lor_comm, lor_shift_add by lia. lia.
Qed.

Lemma le_value_app l b : le_value (l ++ [b]) = le_value l + b * 2 ^ (8 * zlen l).
Proof.
  induction l as [|a l IH]; [change (2 ^ (8 * zlen [])) with 1; unfold le_value; simpl; lia |].
  change ((a :: l) ++ [b]) with (a :: (l ++ [b])). unfold le_value in *. cbn [foldr]. rewrite IH, zlen_cons.
  replace (8 * (zlen l + 1)) with (8 + 8 * zlen l) by lia.
  rewrite Z.pow_add_r by (pose proof (zlen_nonneg l); lia). change (2 ^ 8) with 256. lia.
Qed.

Lemma le_value_range l : bytes_wf l -> 0 <= le_value l < 2 ^ (8 * zlen l).
Proof.
  induction l as [|a l IH]; intros Hl; [by vm_compute |].
  apply List.Forall_cons_iff in Hl as [Ha Hl]. specialize (IH Hl). unfold is_u8 in Ha.
  unfold le_value in *. cbn [foldr]. rewrite zlen_cons. replace (8 * (zlen l + 1)) with (8 + 8 * zlen l) by lia.
  rewrite Z.pow_add_r by (pose proof (zlen_nonneg l); lia). change (2 ^ 8) with 256. lia.
Qed.

Lemma sample_loop frame offset n :
  0 <= offset -> 0 <= n <= 4 -> offset + n <= zlen frame -> bytes_wf (slice frame offset n) ->
  for_to n (sample_body frame offset) 0 = Some (le_value (slice frame offset n)).
Proof.
  intros Ho Hn Hfit Hwf.
  destruct (for_to_inv (fun i v => v = le_value (slice frame offset i)) (sample_body frame offset) n 0)
    as (v & -> & ->); [lia | done | | done].
  intros i v Hi ->. destruct (ld_is_Some frame (offset + i)) as [b Hb]; [lia |].
  assert (Hz : zlen (slice frame offset i) = i) by (rewrite zlen_slice; lia).
  assert (Hbyte : is_u8 b).
  { rewrite ld_lookup in Hb by lia. unfold bytes_wf in Hwf. rewrite Forall_lookup in Hwf.
    apply (Hwf (Z.to_nat i)). rewrite lookup_slice by lia. rewrite <- Hb. f_equal. lia. }
  assert (Hpre : bytes_wf (slice frame offset i)).
  { replace n with (i + (n - i)) in Hwf by lia. rewrite slice_add in Hwf by lia.
    by apply Forall_app in Hwf as [? _]. }
  pose proof (le_value_range (slice frame offset i) Hpre) as Hr. rewrite Hz in Hr.
  erewrite sample_step by (done || lia). eexists. split; [done |].
  rewrite slice_add by lia. replace (slice frame (offset + i) 1) with [b].
  { by rewrite le_value_app, Hz. }
  rewrite ld_lookup in Hb by lia. unfold slice. change (Z.to_nat 1) with 1%nat.
  by rewrite (drop_S _ _ _ Hb).
Qed.

(** Bit 23 and the sign extension of a 24-bit value. *)
Lemma bit23 v : 0 <= v < 16777216 -> Z.land v 8388608 <> 0 <-> 8388608 <= v.
Proof.
  intros Hv. change 8388608 with (Z.shiftl 1 23) at 1. split.
  - intros Hne. destruct (decide (8388608 <= v)); [done |]. exfalso. apply Hne.
    rewrite Z.land_comm. apply land_shift_low; [lia |]. change (2 ^ 23) with 8388608. lia.
  - intros Hle Hz. assert (Hb : Z.testbit (Z.land v (Z.shiftl 1 23)) 23 = true); [| by rewrite Hz in Hb].
    rewrite Z.land_spec. change (Z.testbit (Z.shiftl 1 23) 23) with true. rewrite andb_true_r.
    apply Z.testbit_true; [lia |]. change (2 ^ 23) with 8388608. word.
Qed.

Lemma sign_extend24 v : 0 <= v < 16777216 -> Z.lor v 4278190080 = v + 4278190080.
Proof.
  intros Hv. change 4278190080 with (Z.shiftl 255 24) at 1.
  rewrite Z.lor_comm, lor_shift_add; [lia | lia |]. change (2 ^ 24) with 16777216. lia.
Qed.

Lemma pcm_sample_value s frame offset :
  (sample_bytes s = 2 \/ sample_bytes s = 3 \/ sample_bytes s = 4) ->
  0 <= offset -> offset + sample_bytes s <= zlen frame ->
  bytes_wf (slice frame offset (sample_bytes s)) ->
  pcm_sample s frame offset = Some (sample_value (slice frame offset (sample_bytes s))).
Proof.
  intros Hsb Ho Hfit Hwf. unfold pcm_sample.
  change (fun i value => b ← ld frame (offset + i); Some (Z.lor value (u32 (Z.shiftl b (8 * i)))))
    with (sample_body frame offset).
  rewrite sample_loop by (done || lia). cbn [mbind option_bind]. unfold sample_value.
  assert (Hz : zlen (slice frame offset (sample_bytes s)) = sample_bytes s) by (rewrite zlen_slice; lia).
  pose proof (le_value_range (slice frame offset (sample_bytes s)) Hwf) as Hr.
  rewrite Hz in *. set (v := le_value _) in *. clearbody v.
  destruct Hsb as [E|[E|E]]; rewrite E in *; cbn [Z.mul Pos.mul] in *; decide_lia.
  - f_equal. unfold eaf_pcm16_to_q31. case_decide; simpl in *; word.
  - f_equal. simpl in Hr. destruct (decide (8388608 <= v)).
    + rewrite decide_True by (apply bit23; lia). rewrite sign_extend24 by lia.
      replace (s32 (v + 4278190080)) with (v - 16777216) by word. unfold eaf_pcm24_to_q31. decide_lia.
      simpl. lia.
    + rewrite decide_False by (rewrite bit23; lia). replace (s32 v) with v by word.
      unfold eaf_pcm24_to_q31. decide_lia. simpl. lia.
  - f_equal. unfold eaf_pcm32_to_q31. simpl in Hr. case_decide as Hd; simpl in *; word.
Qed.

(** ** The adapter's invariant *)

Record pcm_inv (fmt : eaf_format_t) (s : eaf_decoder_pcm_t) : Prop := {
  pinv_format : pcm_format s = fmt;
  pinv_oc : output_channels s = num_channels fmt;
  pinv_sb : sample_bytes s = 2 \/ sample_bytes s = 3 \/ sample_bytes s = 4;
  pinv_ic : input_channels s = 1 \/ input_channels s = 2;
  pinv_layout : output_channels s = input_channels s \/ (input_channels s = 1 /\ output_channels s = 2);
  pinv_fb : frame_bytes s = input_channels s * sample_bytes s;
  pinv_input : dec_input_wf (input s);
  pinv_cap : capacity (input s) = EAF_DECODER_PCM_RING_BYTES;
  pinv_await : await (input s) = 0;
  pinv_bytes : Forall is_u8 (dec_bytes (input s));
  pinv_ring : zlen (pcm_ring s) = EAF_DECODER_PCM_RING_BYTES
}.

Lemma pcm_inv_input fmt s i :
  pcm_inv fmt s -> dec_input_wf i -> capacity i = capacity (input s) -> await i = await (input s) ->
  Forall is_u8 (dec_bytes i) -> pcm_inv fmt (set_input i s).
Proof. intros [] ? ? ? ?. split; simpl; try done; congruence. Qed.

Lemma interleave_one ic oc l r dst :
  (ic = 1 \/ ic = 2) -> (oc = ic \/ (ic = 1 /\ oc = 2)) -> oc <= zlen dst ->
  eaf_q31_interleaved (if decide (ic = 2) then [l; r] else [l; 0]) 1 ic dst oc =
    Some (splice dst 0 (if decide (oc = 2) then [l; if decide (ic = 2) then r else l] else [l])).
Proof.
  intros Hic Hoc Hd. unfold eaf_q31_interleaved, for_to. change (Z.to_nat 1) with 1%nat.
  cbn [for_from]. unfold interleave_body.
  assert (H2 : forall a b, 2 <= zlen dst -> (d ← st dst 0 a; st d 1 b) = Some (splice dst 0 [a; b])).
  { intros a b Hl. rewrite st_eq by lia. cbn [mbind option_bind]. rewrite st_eq by (rewrite zlen_insert; lia).
    f_equal. rewrite <- (splice_singleton dst 0 a) by lia.
    rewrite <- (splice_singleton (splice dst 0 [a]) 1 b) by (rewrite zlen_splice; [lia | lia |]; change (zlen [a]) with 1; lia).
    pose proof (splice_app dst [a] [b] 0) as Hs. change (0 + zlen [a]) with 1 in Hs. apply Hs; [lia |].
    change (zlen [a]) with 1. change (zlen [b]) with 1. lia. }
  destruct Hic as [-> | ->]; destruct Hoc as [-> | [? ->]]; try lia; decide_lia.
  - change (ld [l; 0] (0 * 1)) with (Some l). cbn [mbind option_bind]. decide_lia.
    rewrite st_eq by lia. cbn [mbind option_bind]. by rewrite (splice_singleton dst 0 l) by lia.
  - change (ld [l; 0] (0 * 1)) with (Some l). cbn [mbind option_bind]. decide_lia. cbn [mbind option_bind].
    change (0 * 2) with 0. change (0 + 1) with 1. rewrite H2 by lia. done.
  - change (ld [l; r] (0 * 2)) with (Some l). change (ld [l; r] (0 * 2 + 1)) with (Some r).
    cbn [mbind option_bind]. decide_lia. cbn [mbind option_bind].
    change (0 * 2) with 0. change (0 + 1) with 1. rewrite H2 by lia. done.
Qed.

Lemma pcm_frame_spec fmt s f pcm :
  pcm_inv fmt s -> 0 <= f -> frame_bytes s <= count (input s) ->
  (f + 1) * num_channels fmt <= zlen pcm ->
  exists i, pcm_frame f (s, pcm) = Some (set_input i s,
      splice pcm (f * num_channels fmt) (frame_value (input_channels s) (output_channels s) (sample_bytes s)
        (slice (dec_bytes (input s)) 0 (frame_bytes s)))) /\
    pcm_inv fmt (set_input i s) /\
    dec_bytes (input s) = slice (dec_bytes (input s)) 0 (frame_bytes s) ++ dec_bytes i.
Proof.
  intros Hinv Hf Hct Hfit. pose proof Hinv as [Hfm Hoc Hsb Hic Hlay Hfb Hin Hcap Haw Hby Hrg].
  unfold pcm_frame, eaf_dec_input_read.
  destruct (read_loop_enough no_hook (2 * Z.to_nat (frame_bytes s) + 2) (input s) tt (replicate 8 0)
    (frame_bytes s) 0) as (i & frame & -> & Hwf' & Hlen & Heq & Hct' & Hcap' & He & Ha);
    [done | lia | change (zlen (replicate 8 0)) with 8; nia | lia | lia |].
  change (zlen (replicate 8 0)) with 8 in Hlen. cbn [mbind option_bind].
  change (slice (replicate 8 0) 0 0 ++ dec_bytes (input s)) with (dec_bytes (input s)) in Heq.
  set (sb := sample_bytes s) in *. set (ic := input_channels s) in *. set (oc := output_channels s) in *.
  assert (Hfb1 : 0 < sb /\ sb <= frame_bytes s <= 8 /\ (ic = 2 -> frame_bytes s = 2 * sb)).
  { rewrite Hfb. destruct Hic as [E|E]; rewrite E in *; lia. }
  assert (Hoc1 : 1 <= oc <= 2) by lia. rewrite <- Hoc in *.
  assert (Hfz : zlen (slice frame 0 (frame_bytes s)) = frame_bytes s) by (rewrite zlen_slice; lia).
  assert (Hhead : slice (dec_bytes (input s)) 0 (frame_bytes s) = slice frame 0 (frame_bytes s))
    by (rewrite <- Heq; by apply slice_app_head).
  pose proof Hby as Hby0. rewrite <- Heq in Hby0. apply Forall_app in Hby0 as [Hbf Hbi].
  assert (Hsl : forall off, 0 <= off -> off + sb <= frame_bytes s ->
    slice frame off sb = slice (slice frame 0 (frame_bytes s)) off sb).
  { intros off H0 H1. rewrite slice_slice by lia. done. }
  assert (Hsample : forall off, 0 <= off -> off + sb <= frame_bytes s ->
    pcm_sample s frame off = Some (sample_value (slice (slice frame 0 (frame_bytes s)) off sb))).
  { intros off H0 H1. rewrite <- Hsl by done. apply pcm_sample_value; [done | done | fold sb; nia |].
    fold sb. rewrite Hsl by done. by apply slice_forall. }
  exists i. rewrite Hhead. split.
  - rewrite (Hsample 0) by lia. cbn [mbind option_bind].
    set (conv := if decide (ic = 2) then _ else _).
    assert (Hconv : exists r, conv = Some (if decide (ic = 2) then [sample_value (slice (slice frame 0 (frame_bytes s)) 0 sb); r]
        else [sample_value (slice (slice frame 0 (frame_bytes s)) 0 sb); 0]) /\
      (ic = 2 -> r = sample_value (slice (slice frame 0 (frame_bytes s)) sb sb))).
    { subst conv. destruct (decide (ic = 2)).
      - rewrite (Hsample sb) by lia. eexists. split; [done |]. done.
      - exists 0. done. }
    destruct Hconv as (r & -> & Hr). cbn [mbind option_bind].
    rewrite ldn_eq by nia. cbn [mbind option_bind].
    rewrite interleave_one by (try done; rewrite ?zlen_slice; nia). cbn [mbind option_bind].
    set (vals := if decide (oc = 2) then _ else _).
    assert (Hvals : vals = frame_value ic oc sb (slice frame 0 (frame_bytes s)) /\ zlen vals = oc).
    { unfold vals, frame_value. destruct (decide (oc = 2)); [| split; [done | unfold zlen; simpl; lia]].
      split; [| unfold zlen; simpl; lia]. destruct (decide (ic = 2)); [by rewrite Hr |]. done. }
    destruct Hvals as [-> Hz].
    rewrite stn_eq by (rewrite ?zlen_splice; rewrite ?zlen_slice; nia). cbn [mbind option_bind].
    by rewrite splice_tail by nia.
  - split; [| done]. apply pcm_inv_input; try done; congruence.
Qed.

Lemma zlen_frame_value ic oc sb bs : (oc = 1 \/ oc = 2) -> zlen (frame_value ic oc sb bs) = oc.
Proof. intros [-> | ->]; done. Qed.

Lemma zlen_pcm_decode ic oc sb n bytes :
  (oc = 1 \/ oc = 2) -> 0 <= n -> zlen (pcm_decode ic oc sb n bytes) = n * oc.
Proof.
  intros Hoc Hn. unfold pcm_decode. pattern n. apply natlike_ind; [done | | done].
  intros x Hx IH. unfold Z.succ. rewrite seqZ_snoc, fmap_app, concat_app, zlen_app, IH by lia.
  cbn [fmap list_fmap concat]. rewrite app_nil_r, zlen_frame_value by done. lia.
Qed.

Lemma pcm_pull_spec fmt s pcm m n fmt0 :
  pcm_inv fmt s -> 0 < m -> m * num_channels fmt <= zlen pcm ->
  let k := Z.min (count (input s) / frame_bytes s) m in
  exists i, pcm_pull (Some s) pcm m n fmt0 =
      Some (Some (set_input i s), splice pcm 0 (pcm_decode (input_channels s) (output_channels s)
              (sample_bytes s) k (dec_bytes (input s))), k, fmt, EAF_OK) /\
    pcm_inv fmt (set_input i s) /\ 0 <= k <= m /\
    dec_bytes (input s) = slice (dec_bytes (input s)) 0 (k * frame_bytes s) ++ dec_bytes i.
Proof.
  intros Hinv Hm Hfit k. pose proof Hinv as [Hfm Hoc Hsb Hic Hlay Hfb Hin Hcap Haw Hby Hrg].
  set (ic := input_channels s) in *. set (oc := output_channels s) in *. set (sb := sample_bytes s) in *.
  assert (Hfb0 : 0 < frame_bytes s <= 8) by (rewrite Hfb; destruct Hic as [E|E]; rewrite E; lia).
  pose proof (dec_count _ Hin) as Hct. pose proof (dec_bytes_length _ Hin) as Hbl.
  assert (Hk : 0 <= k <= m) by (pose proof (Z.div_pos (count (input s)) (frame_bytes s)); lia).
  assert (Hkb : k * frame_bytes s <= count (input s)).
  { apply Z.le_trans with (count (input s) / frame_bytes s * frame_bytes s); [nia |].
    rewrite Z.mul_comm. apply Z.mul_div_le. lia. }
  assert (Hoc1 : oc = 1 \/ oc = 2) by lia. rewrite <- Hoc in *.
  unfold pcm_pull. cbn [mbind option_bind]. rewrite decide_False by lia.
  replace (if decide (count (input s) / frame_bytes s < m) then _ else _) with k
    by (unfold k; case_decide; lia).
  set (bytes := dec_bytes (input s)) in *.
  set (g := fun f => frame_value ic oc sb (slice bytes (f * (ic * sb)) (ic * sb))).
  destruct (for_to_inv (fun f st => exists i, st = (set_input i s, splice pcm 0 (concat (g <$> seqZ 0 f))) /\
      pcm_inv fmt (set_input i s) /\ zlen (concat (g <$> seqZ 0 f)) = f * oc /\
      bytes = slice bytes 0 (f * frame_bytes s) ++ dec_bytes i) pcm_frame k (s, pcm))
    as (st & Hrun & i & -> & Hinv' & Hz & Hsplit); [lia | | |].
  - exists (input s). change (concat (g <$> seqZ 0 0)) with (@nil Z). rewrite splice_nil, Z.mul_0_l.
    split_and!; by destruct s.
  - intros f st Hf (i & -> & Hinvf & Hz & Hsplit).
    assert (Hroom : (f + 1) * frame_bytes s <= k * frame_bytes s) by nia.
    assert (Hcells : (f + 1) * oc <= zlen pcm) by nia.
    assert (Hctf : count i = count (input s) - f * frame_bytes s).
    { apply (f_equal zlen) in Hsplit. rewrite zlen_app in Hsplit.
      rewrite (dec_bytes_length i) in Hsplit by apply Hinvf.
      rewrite zlen_slice in Hsplit by lia. lia. }
    destruct (pcm_frame_spec fmt (set_input i s) f (splice pcm 0 (concat (g <$> seqZ 0 f))))
      as (i' & -> & Hinv' & Hstep); [done | lia | simpl; lia | rewrite zlen_splice, <- Hoc; rewrite ?Hz; lia |].
    eexists. split; [done |]. exists i'. simpl in *. rewrite <- Hoc.
    assert (Hfirst : slice (dec_bytes i) 0 (frame_bytes s) = slice bytes (f * (ic * sb)) (ic * sb)).
    { rewrite Hfb. rewrite Hsplit at 1.
      assert (Hpz : zlen (slice bytes 0 (f * frame_bytes s)) = f * frame_bytes s)
        by (rewrite zlen_slice; lia).
      rewrite Hfb in Hpz. unfold slice at 2. rewrite Hfb.
      rewrite drop_app_ge by (unfold zlen in *; lia).
      replace (Z.to_nat (f * (ic * sb)) - length (slice bytes 0 (f * (ic * sb))))%nat with 0%nat
        by (unfold zlen in *; lia). by rewrite drop_0, <- take_slice. }
    fold ic oc sb in Hinv' |- *. rewrite seqZ_snoc, fmap_app, concat_app by lia. cbn [fmap list_fmap concat].
    assert (Hgz : zlen (g f) = oc) by (by apply zlen_frame_value).
    rewrite app_nil_r, zlen_app, Hz, Hgz. split_and!; try done; try lia.
    + f_equal. rewrite <- splice_app by (rewrite ?Hz, ?Hgz; lia).
      rewrite Hz, Z.add_0_l. unfold g. by rewrite Hfirst.
    + replace ((f + 1) * frame_bytes s) with (f * frame_bytes s + frame_bytes s) by lia.
      rewrite slice_add, <- app_assoc by nia. rewrite Z.add_0_l, Hsplit at 1. f_equal.
      rewrite Hstep at 1. f_equal. rewrite Hfirst, <- Hfb. done.
  - rewrite Hrun. cbn [mbind option_bind]. exists i. split_and!; try done; try lia.
    simpl. rewrite Hfm. done.
Qed.

Lemma empty_input_wf l :
  zlen l = EAF_DECODER_PCM_RING_BYTES ->
  dec_input_wf (DecInput (Some l) EAF_DECODER_PCM_RING_BYTES 0 0 false 0 0).
Proof. intros. split; simpl; [by exists l | done | done | done]. Qed.

#[export] Instance pcm_laws : DecoderLaws eaf_decoder_pcm_ops.
Proof.
  refine {| dec_raw := fun s => zlen (pcm_ring s) = EAF_DECODER_PCM_RING_BYTES; dec_inv := pcm_inv |}.
  - intros fmt s []. done.
  - intros s cfg out Hraw Hfmt Hn. exists pcm_open. unfold pcm_open.
    cbn [mbind option_bind eaf_dec_input_init].
    case_bool_decide as Hrc; cbn [negb]; [| by eexists _, _].
    destruct (validate_open_channels cfg out _ Hn Hrc) as (Hc & Hl & _).
    repeat case_bool_decide; cbn [negb andb]; eexists _, _; split_and!; try done; intros _.
    all: split; simpl; try done; try (apply empty_input_wf; done); try congruence; try apply List.Forall_nil.
    all: match goal with H : bit_depth ?x = _ |- context [bit_depth ?x] => rewrite H end.
    all: first [by left | by right; left | by right; right].
  - intros fmt s data n k Hinv Hn Hb. exists pcm_push. unfold pcm_push, with_ref. cbn [mbind option_bind].
    destruct (eof (input s)) eqn:He.
    + destruct (dec_storage _ (pinv_input _ _ Hinv)) as (l & Hr & _).
      unfold eaf_dec_input_push, on_ptr. rewrite Hr, He. simpl. eexists _, 0, EAF_OK. split; [done |].
      split; [done |]. split; [by destruct s | lia].
    + destruct (dec_push_spec (input s) data n (pinv_input _ _ Hinv) Hn He)
        as (i' & -> & Hwf' & _ & Hcap & Haw & _ & Hbytes). simpl.
      eexists _, _, EAF_OK. split; [done |]. split; [done |].
      pose proof (dec_count _ (pinv_input _ _ Hinv)). split; [| lia].
      apply pcm_inv_input; try done. rewrite Hbytes. apply Forall_app; split; [apply Hinv | by apply slice_forall].
  - intros fmt s cells m n fmt0 Hinv Hm Hfit. exists pcm_pull.
    destruct (pcm_pull_spec fmt s cells m n fmt0 Hinv Hm Hfit) as (i & -> & Hinv' & Hk & _).
    eexists _, _, _, _, _. split_and!; try done; try lia.
    apply zlen_splice; [lia |]. destruct Hinv. rewrite zlen_pcm_decode by lia. nia.
  - intros fmt s Hinv. exists pcm_reset. unfold pcm_reset. simpl. eexists _, _. split_and!; try done.
    destruct Hinv as [Hfm Hoc Hsb Hic Hlay Hfb Hin Hcap Haw Hby Hrg].
    destruct (dec_storage _ Hin) as (l & Hr & Hl).
    split; simpl; try done; [split; simpl; eauto with lia; rewrite Hcap; done |].
    unfold dec_bytes. simpl. rewrite Hr. constructor.
  - intros fmt s []. by exists pcm_close, s.
Defined.

Lemma sample_value_range bs : 2 <= zlen bs <= 4 -> bytes_wf bs -> is_s32 (sample_value bs).
Proof.
  intros Hn Hb. pose proof (le_value_range bs Hb) as Hr. unfold sample_value.
  set (v := le_value bs) in *. clearbody v.
  assert (zlen bs = 2 \/ zlen bs = 3 \/ zlen bs = 4) as [E|[E|E]] by lia; rewrite E in *;
    cbn [Z.mul Pos.mul] in *; simpl in *; case_decide; unfold is_s32; lia.
Qed.

(** ** Properties *)

(** Pulling from an open PCM adapter: it emits as many whole frames as are
    buffered and fit, each sample being the little-endian two's complement value
    of its bytes scaled to Q1.31 (mono duplicated for a stereo output), within 32
    bits; the bytes of those frames, and only they, leave the buffer, so frames
    split across pushes are reassembled. *)
Theorem pcm_pull_correct (fmt : eaf_format_t) (s : eaf_decoder_pcm_t) (pcm : list Z) (m n : Z)
    (fmt0 : eaf_format_t) :
  pcm_inv fmt s -> 0 < m -> m * num_channels fmt <= zlen pcm ->
  let k := Z.min (count (input s) / frame_bytes s) m in
  let bytes := dec_bytes (input s) in
  exists s' pcm', pcm_pull (Some s) pcm m n fmt0 = Some (Some s', pcm', k, fmt, EAF_OK) /\ pcm_inv fmt s' /\
    pcm' = splice pcm 0 (pcm_decode (input_channels s) (num_channels fmt) (sample_bytes s) k bytes) /\
    bytes = slice bytes 0 (k * frame_bytes s) ++ dec_bytes (input s') /\
    (forall f c, 0 <= f < k -> 0 <= c < input_channels s ->
       is_s32 (sample_value (slice bytes (f * frame_bytes s + c * sample_bytes s) (sample_bytes s)))).
Proof.
  intros Hinv Hm Hfit k bytes. destruct (pcm_pull_spec fmt s pcm m n fmt0 Hinv Hm Hfit) as (i & Hrun & Hinv' & Hk & Hb).
  fold k in Hrun, Hk, Hb. eexists _, _. split; [exact Hrun |]. split; [done |].
  pose proof Hinv as [Hfm Hoc Hsb Hic Hlay Hfb Hin Hcap Haw Hby Hrg]. rewrite <- Hoc.
  split; [done |]. split; [done |]. intros f c Hf Hc. apply sample_value_range; [| by apply slice_forall].
  pose proof (dec_bytes_length _ Hin) as Hbl. fold bytes in Hbl. pose proof (dec_count _ Hin).
  assert (0 < frame_bytes s) by (rewrite Hfb; destruct Hic as [E|E]; rewrite E; lia).
  assert (Hkb : k * frame_bytes s <= count (input s)).
  { apply Z.le_trans with (count (input s) / frame_bytes s * frame_bytes s); [nia |].
    rewrite Z.mul_comm. apply Z.mul_div_le. lia. }
  rewrite zlen_slice; try lia; nia.
Qed.

Definition demo_pcm : eaf_decoder_pcm_t :=
  DecoderPcm format_zero 0 0 0 0 0 (DecInput None 0 0 0 false 0 0) (replicate 4096 0).
Definition demo_cfg : eaf_decoder_config_t := DecoderConfig EAF_CODEC_PCM 48000 1 16 None 0.

Lemma pcm_pull_correct_witness :
  exists s s' pcm', pcm_open (Some demo_pcm) demo_cfg (Format 48000 2 3) = Some (Some s, EAF_OK) /\
    pcm_pull (Some s) (replicate 6 0) 3 0 format_zero = Some (Some s', pcm', 0, Format 48000 2 3, EAF_OK).
Proof.
  destruct (law_open demo_pcm demo_cfg (Format 48000 2 3)) as (f & s & rc & Hf & Hrun & _ & Hinv);
    [reflexivity | reflexivity | reflexivity |].
  injection Hf as <-. vm_compute in Hrun. injection Hrun as <- <-. specialize (Hinv eq_refl).
  eexists. destruct (pcm_pull_correct (Format 48000 2 3) _ (replicate 6 0) 3 0 format_zero Hinv) as
    (s' & pcm' & H & _); [reflexivity | discriminate |].
  exists s', pcm'. split; [vm_compute; reflexivity | exact H].
Defined.

(** A sink that takes at most two frames per call, and the worker feeding it. *)
Definition demo_sink (x : list Z) (from : list Z) (n : Z) : ub (list Z * Z) :=
  let k := Z.min n 2 in Some (x ++ slice from 0 (k * 2), k).
Lemma demo_sink_laws : sink_laws 2 (fun _ => True) (fun x => x) demo_sink.
Proof. intros x from n _ Hn _ Hl. eexists _, _. split; [done |]. split; [done |]. split; [lia | done]. Qed.

Lemma decode_worker_lossless_witness :
  exists w1 w2 rc,
    eaf_decode_worker_init
      (Some (Worker (Decoder None None) format_zero None [] None 0 0 0 0 0 false))
      (Some (Decoder (Some (logged (Format 48000 2 3) eaf_decoder_pcm_ops)) (Some (demo_pcm, [])))) (Some demo_sink) []
      (Some (replicate 6 0)) 3 (Some (Format 48000 2 3)) = Some (Some w1, EAF_OK) /\
    eaf_decode_worker_open (Some w1) (Some demo_cfg) = Some (Some w2, rc) /\
    (rc = 0 -> exists w' c' log cells,
       worker_run [WPush [1; 0; 255; 255; 2] 5; WStep; WStep] w2 = Some w' /\
       decoder w' = Decoder (Some (logged (Format 48000 2 3) eaf_decoder_pcm_ops)) (Some (c', log)) /\
       scratch w' = Some cells /\ worker_accounts (Format 48000 2 3) (fun x => x) w' log cells /\
       (Forall (fun op => op <> WReset) [WPush [1; 0; 255; 255; 2] 5; WStep; WStep] ->
        log = sink_ctx w' ++ queue (Format 48000 2 3) w' cells)).
Proof.
  apply (decode_worker_lossless eaf_decoder_pcm_ops (Format 48000 2 3) demo_sink (fun _ => True) (fun x => x)).
  - exact demo_sink_laws.
  - reflexivity.
  - exact I.
  - reflexivity.
  - reflexivity.
  - reflexivity.
  - split; reflexivity.
  - discriminate.
  - repeat apply Forall_cons_2; try exact I; [| constructor].
    split; [split; discriminate |]. repeat constructor; word.
Defined.
