(* ===== verification/Graph.v ===== *)
(** The processing pipeline: [core/eaf_graph.c], [include/eaf/eaf_core.h] and the
    sink interface of [include/eaf/eaf_hal.h].

    Nodes and sinks are tables of callbacks.  [W] is the state of everything
    behind them (node contexts, drivers); a callback is an arbitrary function on
    [W], so the theorems hold whatever nodes and sinks do.  A sink buffer is its
    descriptor and the cells of the storage it points to. *)

From S2P Require Import Prelude Types Reservoir.

Definition EAF_NODE_STAGE_PRE_PROCESS : Z := 0.
Definition EAF_NODE_STAGE_DSP : Z := 1.
Definition EAF_NODE_STAGE_POST_PROCESS : Z := 2.

Inductive eaf_pipeline_state_t :=
| EAF_UNINITIALIZED | EAF_INITIALIZED | EAF_CONFIGURED | EAF_RUNNING | EAF_STOPPED | EAF_RECOVERY.
#[export] Instance eaf_pipeline_state_eq_dec : EqDecision eaf_pipeline_state_t.
Proof. solve_decision. Defined.

Section graph.
Context {W : Type}.

(** The descriptor and the cells of the storage behind it. *)
Definition block_buf := (eaf_buffer_t * list Z)%type.

Record eaf_node_ops := NodeOps {
  node_init : option (W -> eaf_format_t -> eaf_format_t -> ub (W * eaf_format_t * Z));
  node_process : option (W -> block_buf -> ub (W * block_buf * Z));
  node_reset : option (W -> ub (W * Z));
  node_deinit : option (W -> ub W)
}.

Record eaf_node_t := Node {
  stage : Z;
  node_ops : ptr eaf_node_ops
}.

Record eaf_sink_ops := SinkOps {
  sink_init : option (W -> eaf_format_t -> Z -> ub (W * Z));
  sink_start : option (W -> ub (W * Z));
  sink_stop : option (W -> ub (W * Z));
  sink_acquire_buf : option (W -> ub (W * ptr block_buf * Z));
  sink_commit_buf : option (W -> block_buf -> ub (W * Z));
  sink_deinit : option (W -> ub (W * Z))
}.

Record eaf_pipeline_config_t := PipelineConfig {
  reservoir : ptr eaf_reservoir_t;
  nodes : ptr (list (ptr eaf_node_t));
  node_count : Z;
  sink : ptr (ptr eaf_sink_ops)      (* eaf_sink_t *: its ops pointer *)
}.

Record eaf_pipeline_t := Pipeline {
  config : eaf_pipeline_config_t;
  pstate : eaf_pipeline_state_t;
  output_format : eaf_format_t;
  block_frames : Z;
  initialized_nodes : Z;
  sink_initialized : bool;
  sink_ready : bool;
  completed : bool
}.

Definition pipeline_zero : eaf_pipeline_t :=
  Pipeline (PipelineConfig None None 0 None) EAF_UNINITIALIZED format_zero 0 0 false false false.

Definition set_state (s : eaf_pipeline_state_t) (p : eaf_pipeline_t) : eaf_pipeline_t :=
  Pipeline (config p) s (output_format p) (block_frames p) (initialized_nodes p) (sink_initialized p)
    (sink_ready p) (completed p).
Definition set_initialized (n : Z) (p : eaf_pipeline_t) : eaf_pipeline_t :=
  Pipeline (config p) (pstate p) (output_format p) (block_frames p) n (sink_initialized p)
    (sink_ready p) (completed p).
Definition set_sink (init ready : bool) (p : eaf_pipeline_t) : eaf_pipeline_t :=
  Pipeline (config p) (pstate p) (output_format p) (block_frames p) (initialized_nodes p) init ready
    (completed p).
Definition set_output (f : eaf_format_t) (n : Z) (p : eaf_pipeline_t) : eaf_pipeline_t :=
  Pipeline (config p) (pstate p) f n (initialized_nodes p) (sink_initialized p) (sink_ready p)
    (completed p).
Definition set_completed (b : bool) (p : eaf_pipeline_t) : eaf_pipeline_t :=
  Pipeline (config p) (pstate p) (output_format p) (block_frames p) (initialized_nodes p)
    (sink_initialized p) (sink_ready p) b.
Definition set_reservoir (r : eaf_reservoir_t) (p : eaf_pipeline_t) : eaf_pipeline_t :=
  Pipeline (PipelineConfig (Some r) (nodes (config p)) (node_count (config p)) (sink (config p)))
    (pstate p) (output_format p) (block_frames p) (initialized_nodes p) (sink_initialized p)
    (sink_ready p) (completed p).

(** Dereferences: [p->config.sink->ops->f] and [p->config.nodes[i]->ops->f]. *)
Definition sink_fn {F} (f : eaf_sink_ops -> option F) (p : eaf_pipeline_t) : ub F :=
  s ← sink (config p); o ← s; f o.
Definition node_fn {F} (f : eaf_node_ops -> option F) (p : eaf_pipeline_t) (i : Z) : ub F :=
  l ← nodes (config p); n ← ld l i; n ← n; o ← node_ops n; f o.

(** [while (p->initialized_nodes) nodes[--initialized_nodes]->deinit()]; [k] is
    the value of the counter. *)
Fixpoint release_nodes (k : nat) (p : eaf_pipeline_t) (w : W) : ub (eaf_pipeline_t * W) :=
  match k with
  | O => Some (p, w)
  | S k' =>
      let p := set_initialized (Z.of_nat k') p in
      deinit ← node_fn node_deinit p (Z.of_nat k');
      w ← deinit w;
      release_nodes k' p w
  end.

Definition release (p : eaf_pipeline_t) (w : W) : ub (eaf_pipeline_t * W * Z) :=
  '(p, w, rc) ← (if sink_initialized p then
                   let p := set_sink true false p in
                   deinit ← sink_fn sink_deinit p;
                   '(w, rc) ← deinit w;
                   Some (p, w, rc)
                 else Some (p, w, 0));
  if negb (bool_decide (rc = 0)) then Some (set_state EAF_RECOVERY p, w, rc)
  else
    let p := set_sink false false p in
    '(p, w) ← release_nodes (Z.to_nat (initialized_nodes p)) p w;
    Some (p, w, EAF_OK).

(** The validation of one node by [eaf_pipeline_init]. *)
Definition node_bad (l : list (ptr eaf_node_t)) (i : Z) : ub bool :=
  n ← ld l i;
  match n with
  | None => Some true
  | Some n =>
      match node_ops n with
      | None => Some true
      | Some o =>
          match node_init o, node_process o, node_reset o, node_deinit o with
          | Some _, Some _, Some _, Some _ =>
              if decide (EAF_NODE_STAGE_POST_PROCESS < stage n) then Some true
              else if decide (i = 0) then Some false
              else prev ← ld l (i - 1); prev ← prev; Some (bool_decide (stage n < stage prev))
          | _, _, _, _ => Some true
          end
      end
  end.

Fixpoint nodes_ok (k : nat) (l : list (ptr eaf_node_t)) (i : Z) : ub bool :=
  match k with
  | O => Some true
  | S k' => bad ← node_bad l i; if bad : bool then Some false else nodes_ok k' l (i + 1)
  end.

Definition sink_ops_ok (o : eaf_sink_ops) : bool :=
  match sink_init o, sink_start o, sink_stop o, sink_acquire_buf o, sink_commit_buf o, sink_deinit o with
  | Some _, Some _, Some _, Some _, Some _, Some _ => true
  | _, _, _, _, _, _ => false
  end.

(** [storage] of the modelled reservoir is never NULL, so [reservoir->storage]
    is not tested again here. *)
Definition eaf_pipeline_init (p : ptr eaf_pipeline_t) (cfg : ptr eaf_pipeline_config_t)
  : ub (ptr eaf_pipeline_t * Z) :=
  on_ptr p EAF_INVALID (fun p =>
    match cfg with
    | None => Some (p, EAF_INVALID)
    | Some c =>
        match reservoir c, sink c with
        | Some _, Some (Some o) =>
            match nodes c with
            | None =>
                if negb (bool_decide (node_count c = 0)) then Some (p, EAF_INVALID)
                else if negb (bool_decide (pstate p = EAF_UNINITIALIZED)) then Some (p, EAF_STATE)
                else if negb (sink_ops_ok o) then Some (p, EAF_INVALID)
                else Some (Pipeline c EAF_INITIALIZED (output_format p) (block_frames p)
                             (initialized_nodes p) (sink_initialized p) (sink_ready p) (completed p),
                           EAF_OK)
            | Some l =>
                if negb (bool_decide (pstate p = EAF_UNINITIALIZED)) then Some (p, EAF_STATE)
                else if negb (sink_ops_ok o) then Some (p, EAF_INVALID)
                else
                  ok ← nodes_ok (Z.to_nat (node_count c)) l 0;
                  if ok : bool then
                    Some (Pipeline c EAF_INITIALIZED (output_format p) (block_frames p)
                            (initialized_nodes p) (sink_initialized p) (sink_ready p) (completed p),
                          EAF_OK)
                  else Some (p, EAF_INVALID)
            end
        | _, _ => Some (p, EAF_INVALID)
        end
    end).

(** The node initialisation loop of [eaf_pipeline_configure]: [inl rc] is an
    early return, [inr fmt] the negotiated output format. *)
Fixpoint configure_nodes (k : nat) (i : Z) (p : eaf_pipeline_t) (w : W) (fmt : eaf_format_t)
  : ub (eaf_pipeline_t * W * (Z + eaf_format_t)) :=
  match k with
  | O => Some (p, w, inr fmt)
  | S k' =>
      init ← node_fn node_init p i;
      '(w, next, rc) ← init w fmt fmt;
      if negb (bool_decide (rc = 0)) then
        deinit ← node_fn node_deinit p i;
        w ← deinit w;
        '(p, w, _) ← release p w;
        Some (p, w, inl rc)
      else
        let p := set_initialized (initialized_nodes p + 1) p in
        if negb (eaf_format_valid (Some next)) || negb (bool_decide (sample_rate next = sample_rate fmt))
           || bool_decide (num_channels next < num_channels fmt) then
          '(p, w, _) ← release p w; Some (p, w, inl EAF_INVALID)
        else configure_nodes k' (i + 1) p w next
  end.

Definition configure_body (p : eaf_pipeline_t) (w : W) (frames : Z) : ub (eaf_pipeline_t * (W * Z)) :=
  if negb (bool_decide (pstate p = EAF_INITIALIZED)) && negb (bool_decide (pstate p = EAF_STOPPED))
     && negb (bool_decide (pstate p = EAF_CONFIGURED))
  then Some (p, (w, EAF_STATE))
  else
    res ← reservoir (config p);
    if bool_decide (frames = 0) || bool_decide (capacity res < frames) then Some (p, (w, EAF_INVALID))
    else
      '(p, w, cleanup) ← release p w;
      if negb (bool_decide (cleanup = 0)) then Some (p, (w, cleanup))
      else
        let p := set_state EAF_INITIALIZED p in
        '(p, w, r) ← configure_nodes (Z.to_nat (node_count (config p))) 0 p w (Reservoir.format res);
        match r with
        | inl rc => Some (p, (w, rc))
        | inr fmt =>
            let p := set_sink true (sink_ready p) p in
            init ← sink_fn sink_init p;
            '(w, rc) ← init w fmt frames;
            if negb (bool_decide (rc = 0)) then
              '(p, w, cleanup) ← release p w;
              Some (p, (w, if decide (cleanup = 0) then rc else cleanup))
            else
              Some (set_state EAF_CONFIGURED (set_output fmt frames (set_sink true true p)), (w, EAF_OK))
        end.

Definition eaf_pipeline_configure (p : ptr eaf_pipeline_t) (w : W) (frames : Z)
  : ub (ptr eaf_pipeline_t * (W * Z)) :=
  on_ptr p (w, EAF_INVALID) (fun p => configure_body p w frames).

Fixpoint reset_nodes (k : nat) (i : Z) (p : eaf_pipeline_t) (w : W) (rc : Z) : ub (W * Z) :=
  match k with
  | O => Some (w, rc)
  | S k' =>
      reset ← node_fn node_reset p i;
      '(w, r) ← reset w;
      reset_nodes k' (i + 1) p w (if decide (rc = 0) then r else rc)
  end.

Definition stop_body (p : eaf_pipeline_t) (w : W) : ub (eaf_pipeline_t * (W * Z)) :=
  if negb (bool_decide (pstate p = EAF_RUNNING)) && negb (bool_decide (pstate p = EAF_RECOVERY))
  then Some (p, (w, EAF_STATE))
  else
    stop ← sink_fn sink_stop p;
    '(w, rc) ← stop w;
    if negb (bool_decide (rc = 0)) then Some (p, (w, rc))
    else
      let p := set_state (if sink_ready p then EAF_STOPPED else EAF_INITIALIZED) p in
      '(w, rc) ← reset_nodes (Z.to_nat (initialized_nodes p)) 0 p w rc;
      Some (p, (w, rc)).

Definition eaf_pipeline_stop (p : ptr eaf_pipeline_t) (w : W) : ub (ptr eaf_pipeline_t * (W * Z)) :=
  on_ptr p (w, EAF_INVALID) (fun p => stop_body p w).

Definition start_body (p : eaf_pipeline_t) (w : W) : ub (eaf_pipeline_t * (W * Z)) :=
  if negb (bool_decide (pstate p = EAF_CONFIGURED)) && negb (bool_decide (pstate p = EAF_STOPPED))
  then Some (p, (w, EAF_STATE))
  else
    res ← reservoir (config p);
    let p := set_completed false (set_reservoir (eaf_reservoir_reset res) p) in
    start ← sink_fn sink_start p;
    '(w, rc) ← start w;
    if decide (rc = 0) then Some (set_state EAF_RUNNING p, (w, rc))
    else
      '(p, (w, stopped)) ← stop_body (set_state EAF_RECOVERY p) w;
      Some (p, (w, if decide (stopped = 0) then rc else stopped)).

Definition eaf_pipeline_start (p : ptr eaf_pipeline_t) (w : W) : ub (ptr eaf_pipeline_t * (W * Z)) :=
  on_ptr p (w, EAF_INVALID) (fun p => start_body p w).

(** What a node must not change, tested after each [process]. *)
Definition node_broke (p : eaf_pipeline_t) (owned b : eaf_buffer_t) (channels : Z) : bool :=
  negb (bool_decide (samples b = samples owned))
  || negb (bool_decide (capacity_samples b = capacity_samples owned))
  || negb (bool_decide (capacity_frames b = capacity_frames owned))
  || negb (bool_decide (frame_count b = block_frames p))
  || negb (eaf_format_valid (Some (Types.format b)))
  || negb (bool_decide (sample_rate (Types.format b) = sample_rate (output_format p)))
  || bool_decide (num_channels (Types.format b) < channels)
  || bool_decide (num_channels (output_format p) < num_channels (Types.format b)).

Fixpoint process_nodes (k : nat) (i : Z) (p : eaf_pipeline_t) (w : W) (owned : eaf_buffer_t)
    (b : block_buf) (rc : Z) : ub (W * block_buf * Z) :=
  match k with
  | O => Some (w, b, rc)
  | S k' =>
      if negb (bool_decide (rc = 0)) then Some (w, b, rc)
      else
        let channels := num_channels (Types.format b.1) in
        process ← node_fn node_process p i;
        '(w, b, rc) ← process w b;
        let rc := if node_broke p owned b.1 channels then EAF_INVALID else rc in
        process_nodes k' (i + 1) p w owned b rc
  end.

(** [wake]: the effect of a producer hook [(function, context)] on the world. *)
Context (wake : Z * Z -> W -> W).

(** Everything between acquiring the buffer and committing it: pull, nodes,
    checks and the silent replacement of a failed block. *)
Definition render (p : eaf_pipeline_t) (w : W) (buf : eaf_buffer_t) (cells : list Z)
  : ub (eaf_pipeline_t * W * block_buf * Z * bool) :=
  let owned := buf in
  let buf := set_frame_count (block_frames p) buf in
  '(r, b, cells, wakes, rc) ← eaf_reservoir_pull (reservoir (config p)) (Some buf) cells;
  r ← r; buf ← b;
  let p := set_reservoir r p in
  let w := foldl (fun w h => wake h w) w wakes in
  let eos := bool_decide (rc = 0) && negb (bool_decide (Z.land (flags buf) EAF_FRAME_EOS = 0)) in
  '(w, (buf, cells), rc) ← process_nodes (Z.to_nat (node_count (config p))) 0 p w owned (buf, cells) rc;
  let rc := if bool_decide (rc = 0) && (negb (eaf_format_equal (Types.format buf) (output_format p))
                || negb (bool_decide (frame_count buf = block_frames p))) then EAF_INVALID else rc in
  if negb (bool_decide (rc = 0)) then
    let buf := set_frame_count (block_frames p) (set_format (output_format p) owned) in
    cells ← memset cells 0 0 (block_frames p * num_channels (output_format p));
    Some (p, w, (set_flags EAF_FRAME_SILENCE buf, cells), rc, eos)
  else
    Some (p, w, (if eos then set_flags (Z.lor (flags buf) EAF_FRAME_EOS) buf else buf, cells), rc, eos).

Definition process_body (p : eaf_pipeline_t) (w : W) : ub (eaf_pipeline_t * (W * Z)) :=
  if negb (bool_decide (pstate p = EAF_RUNNING)) then Some (p, (w, EAF_STATE))
  else if completed p then Some (p, (w, EAF_EOF))
  else
    acquire ← sink_fn sink_acquire_buf p;
    '(w, b, rc) ← acquire w;
    if negb (bool_decide (rc = 0)) then Some (p, (w, rc))
    else
      match b with
      | None => Some (p, (w, EAF_INVALID))
      | Some (buf, cells) =>
          if bool_decide (samples buf = 0) || bool_decide (capacity_frames buf < block_frames p)
          then Some (p, (w, EAF_INVALID))
          else if decide (num_channels (output_format p) = 0) then None
          else if decide (capacity_samples buf / num_channels (output_format p) < block_frames p)
          then Some (p, (w, EAF_INVALID))
          else
            '(p, w, b, rc, eos) ← render p w buf cells;
            commit ← sink_fn sink_commit_buf p;
            '(w, rc') ← commit w b;
            if bool_decide (rc = 0) && bool_decide (rc' = 0) && eos
            then Some (set_completed true p, (w, EAF_EOF))
            else Some (p, (w, if decide (rc = 0) then rc' else rc))
      end.

Definition eaf_pipeline_process (p : ptr eaf_pipeline_t) (w : W) : ub (ptr eaf_pipeline_t * (W * Z)) :=
  on_ptr p (w, EAF_INVALID) (fun p => process_body p w).

Definition eaf_pipeline_deinit (p : ptr eaf_pipeline_t) (w : W) : ub (ptr eaf_pipeline_t * (W * Z)) :=
  on_ptr p (w, EAF_INVALID) (fun p =>
    if decide (pstate p = EAF_RUNNING) then Some (p, (w, EAF_STATE))
    else
      '(p, w, rc) ← release p w;
      if negb (bool_decide (rc = 0)) then Some (p, (w, rc))
      else Some (pipeline_zero, (w, EAF_OK))).
End graph.

#[global] Arguments eaf_node_ops : clear implicits.
#[global] Arguments eaf_node_t : clear implicits.
#[global] Arguments eaf_sink_ops : clear implicits.
#[global] Arguments eaf_pipeline_config_t : clear implicits.
#[global] Arguments eaf_pipeline_t : clear implicits.

(** ** What the callbacks must not do

    [live w] lists the nodes initialised and not yet released, most recent first.
    A node's callbacks, on fields and samples in the range of their C types and a
    descriptor that fits the storage, return, leave such fields and samples, and
    keep the size of the storage and [live]; nothing else is assumed of them. *)
Definition block_typed (b : eaf_buffer_t) (cells : list Z) : Prop :=
  0 <= frame_count b /\ is_u8 (num_channels (Types.format b)) /\ Forall is_s32 cells.

Section env.
Context {W : Type} (live : W -> list Z).

Record node_env (i : Z) (o : eaf_node_ops W) : Prop := {
  env_init : exists f, node_init o = Some f /\ forall w a b, exists w' next rc, f w a b = Some (w', next, rc) /\
    live w' = if decide (rc = 0) then i :: live w else live w;
  env_process : exists f, node_process o = Some f /\ forall w b cells,
    block_typed b cells -> capacity_samples b <= zlen cells -> exists w' b' cells' rc,
    f w (b, cells) = Some (w', (b', cells'), rc) /\ zlen cells' = zlen cells /\ live w' = live w /\
    block_typed b' cells';
  env_reset : exists f, node_reset o = Some f /\ forall w, exists w' rc, f w = Some (w', rc) /\ live w' = live w;
  env_deinit : exists f, node_deinit o = Some f /\ forall w, exists w', f w = Some w' /\
    live w' = filter (fun j => j <> i) (live w)
}.

Record sink_env (o : eaf_sink_ops W) : Prop := {
  senv_init : exists f, sink_init o = Some f /\ forall w fmt n, exists w' rc, f w fmt n = Some (w', rc) /\ live w' = live w;
  senv_start : exists f, sink_start o = Some f /\ forall w, exists w' rc, f w = Some (w', rc) /\ live w' = live w;
  senv_stop : exists f, sink_stop o = Some f /\ forall w, exists w' rc, f w = Some (w', rc) /\ live w' = live w;
  senv_acquire : exists f, sink_acquire_buf o = Some f /\ forall w, exists w' b rc, f w = Some (w', b, rc) /\
    live w' = live w /\ forall buf cells, b = Some (buf, cells) ->
      0 <= capacity_samples buf <= zlen cells /\ Forall is_s32 cells;
  senv_commit : exists f, sink_commit_buf o = Some f /\ forall w b, exists w' rc, f w b = Some (w', rc) /\ live w' = live w;
  senv_deinit : exists f, sink_deinit o = Some f /\ forall w, exists w' rc, f w = Some (w', rc) /\ live w' = live w
}.

(** The configuration a pipeline holds once initialised. *)
Record config_env (c : eaf_pipeline_config_t W) : Prop := {
  cenv_res : exists r, reservoir c = Some r /\ reservoir_wf r /\ eaf_format_valid (Some (Reservoir.format r)) = true;
  cenv_count : 0 <= node_count c;
  cenv_nodes : exists l, nodes c = Some l /\ forall i, 0 <= i < node_count c ->
    exists n o, ld l i = Some (Some n) /\ node_ops n = Some o /\ node_env i o;
  cenv_sink : exists o, sink c = Some (Some o) /\ sink_env o
}.

(** The nodes initialised so far, most recent first. *)
Definition stack (n : Z) : list Z := reverse (seqZ 0 n).

(** ** The lifecycle invariant *)
Record pipeline_inv (p : eaf_pipeline_t W) (w : W) : Prop := {
  pl_config : pstate p <> EAF_UNINITIALIZED -> config_env (config p);
  pl_fresh : pstate p = EAF_UNINITIALIZED ->
    initialized_nodes p = 0 /\ sink_initialized p = false /\ sink_ready p = false /\ reservoir (config p) = None;
  pl_nodes : 0 <= initialized_nodes p <= Z.max 0 (node_count (config p));
  pl_live : live w = stack (initialized_nodes p);
  pl_ready : sink_ready p = true ->
    sink_initialized p = true /\ initialized_nodes p = node_count (config p) /\
    eaf_format_valid (Some (output_format p)) = true /\
    exists r, reservoir (config p) = Some r /\ 0 < block_frames p <= capacity r /\
      channels r <= num_channels (output_format p);
  pl_active : pstate p = EAF_CONFIGURED \/ pstate p = EAF_RUNNING \/ pstate p = EAF_STOPPED -> sink_ready p = true;
  pl_idle : pstate p = EAF_INITIALIZED -> sink_ready p = false
}.

(** Only [live] of the world matters. *)
Lemma pipeline_inv_world p w w' : pipeline_inv p w -> live w' = live w -> pipeline_inv p w'.
Proof. intros [] Hl. split; try done. congruence. Qed.

Lemma stack_succ n : 0 <= n -> stack (n + 1) = n :: stack n.
Proof. intros. unfold stack. rewrite seqZ_snoc by lia. by rewrite reverse_snoc. Qed.

Lemma filter_absent (l : list Z) k : Forall (fun j => j <> k) l -> filter (fun j => j <> k) l = l.
Proof.
  induction 1 as [|x l Hx Hl IH]; [done |]. rewrite filter_cons_True by done. by rewrite IH.
Qed.

Lemma stack_below n k : n <= k -> filter (fun j => j <> k) (stack n) = stack n.
Proof.
  intros. apply filter_absent. apply Forall_reverse, Forall_lookup. intros j x Hx.
  apply lookup_seqZ in Hx. lia.
Qed.

Lemma stack_pop n : 0 <= n -> filter (fun j => j <> n) (stack (n + 1)) = stack n.
Proof.
  intros. rewrite stack_succ by lia. rewrite filter_cons_False by (intros Hn; by apply Hn).
  apply stack_below. lia.
Qed.

Lemma node_fn_env (p : eaf_pipeline_t W) i :
  config_env (config p) -> 0 <= i < node_count (config p) ->
  exists o, node_env i o /\ forall F (f : eaf_node_ops W -> option F), node_fn f p i = f o.
Proof.
  intros Hc Hi. destruct (cenv_nodes _ Hc) as (l & Hl & Hn). destruct (Hn i Hi) as (n & o & Hld & Ho & He).
  exists o. split; [done |]. intros F f. unfold node_fn. rewrite Hl. simpl. rewrite Hld. simpl. by rewrite Ho.
Qed.

Lemma sink_fn_env (p : eaf_pipeline_t W) :
  config_env (config p) ->
  exists o, sink_env o /\ forall F (f : eaf_sink_ops W -> option F), sink_fn f p = f o.
Proof.
  intros Hc. destruct (cenv_sink _ Hc) as (o & Hs & He). exists o. split; [done |].
  intros F f. unfold sink_fn. by rewrite Hs.
Qed.

Lemma release_nodes_spec k p w :
  config_env (config p) -> initialized_nodes p = Z.of_nat k -> Z.of_nat k <= node_count (config p) ->
  live w = stack (Z.of_nat k) ->
  exists w', release_nodes k p w = Some (set_initialized 0 p, w') /\ live w' = [].
Proof.
  revert p w. induction k as [|k IH]; intros p w Hc Hi Hk Hl.
  - exists w. simpl. split; [| by rewrite Hl]. destruct p. simpl in Hi. by subst.
  - simpl. destruct (node_fn_env (set_initialized (Z.of_nat k) p) (Z.of_nat k) Hc ltac:(simpl; lia)) as (o & He & Hf).
    rewrite Hf. destruct (env_deinit _ _ He) as (f & -> & Hd). simpl.
    destruct (Hd w) as (w1 & -> & Hl1). simpl.
    rewrite Hl in Hl1. replace (Z.of_nat (S k)) with (Z.of_nat k + 1) in Hl1 by lia.
    rewrite stack_pop in Hl1 by lia.
    destruct (IH (set_initialized (Z.of_nat k) p) w1) as (w' & -> & Hl'); [done | done | simpl; lia | done |].
    exists w'. done.
Qed.

Lemma release_spec p w :
  config_env (config p) -> 0 <= initialized_nodes p <= node_count (config p) ->
  live w = stack (initialized_nodes p) ->
  exists p' w' rc, release p w = Some (p', w', rc) /\
    ((rc = 0 /\ p' = set_initialized 0 (set_sink false false p) /\ live w' = []) \/
     (rc <> 0 /\ p' = set_state EAF_RECOVERY (set_sink true false p) /\ sink_initialized p = true /\
      live w' = live w)).
Proof.
  intros Hc Hi Hl. unfold release.
  assert (Hnodes : forall w1 q, live w1 = live w -> q = set_sink false false p ->
    exists w', release_nodes (Z.to_nat (initialized_nodes q)) q w1 = Some (set_initialized 0 q, w') /\ live w' = []).
  { intros w1 q Hw1 ->. simpl. apply release_nodes_spec; simpl; [done | lia | lia |].
    rewrite Hw1, Hl. f_equal. lia. }
  destruct (sink_initialized p) eqn:Hsi.
  - destruct (sink_fn_env (set_sink true false p) Hc) as (o & He & Hf). rewrite Hf.
    destruct (senv_deinit _ He) as (f & -> & Hd). simpl. destruct (Hd w) as (w1 & rc & -> & Hl1). simpl.
    case_bool_decide as Hrc; simpl.
    + change (set_sink false false (set_sink true false p)) with (set_sink false false p).
      destruct (Hnodes w1 _ Hl1 eq_refl) as (w' & Hrun & Hl'). simpl in Hrun. rewrite Hrun. simpl.
      eexists _, w', 0. split; [done |]. left. done.
    + eexists _, w1, rc. split; [done |]. right. done.
  - simpl. destruct (Hnodes w _ eq_refl eq_refl) as (w' & Hrun & Hl'). simpl in Hrun. rewrite Hrun. simpl.
    eexists _, w', 0. split; [done |]. left. done.
Qed.

Lemma release_fresh (p : eaf_pipeline_t W) (w : W) :
  initialized_nodes p = 0 -> sink_initialized p = false -> release p w = Some (set_sink false false p, w, EAF_OK).
Proof. intros Hi Hs. unfold release. rewrite Hs. simpl. rewrite Hi. done. Qed.

Lemma configure_nodes_spec k i p w fmt :
  config_env (config p) -> Z.of_nat k = node_count (config p) - i -> 0 <= i ->
  initialized_nodes p = i -> sink_initialized p = false -> sink_ready p = false ->
  live w = stack i -> eaf_format_valid (Some fmt) = true ->
  exists p' w' r, configure_nodes k i p w fmt = Some (p', w', r) /\
    match r with
    | inl rc => rc <> 0 /\ p' = set_initialized 0 p /\ live w' = []
    | inr fmt' => p' = set_initialized (node_count (config p)) p /\
        live w' = stack (node_count (config p)) /\ eaf_format_valid (Some fmt') = true /\
        num_channels fmt <= num_channels fmt' /\ sample_rate fmt' = sample_rate fmt
    end.
Proof.
  revert i p w fmt. induction k as [|k IH]; intros i p w fmt Hc Hk Hi Hn Hs Hr Hl Hfmt.
  - exists p, w, (inr fmt). split; [done |]. replace (node_count (config p)) with i by lia.
    split_and!; try done. destruct p. simpl in *. by subst.
  - simpl. destruct (node_fn_env p i Hc ltac:(lia)) as (o & He & Hf). rewrite (Hf _ node_init).
    destruct (env_init _ _ He) as (f & -> & Hinit). simpl.
    destruct (Hinit w fmt fmt) as (w1 & next & rc & -> & Hl1). simpl.
    case_bool_decide as Hrc; simpl.
    + rewrite decide_True in Hl1 by done.
      set (p1 := set_initialized (initialized_nodes p + 1) p).
      assert (Hp1 : initialized_nodes p1 = i + 1) by (simpl; lia).
      assert (Hl1' : live w1 = stack (i + 1)) by (rewrite stack_succ by lia; congruence).
      destruct (negb (eaf_format_valid (Some next)) || _ || _) eqn:Ebad.
      * destruct (release_spec p1 w1) as (p2 & w2 & rc2 & -> & [(-> & -> & Hl2) | (_ & _ & Hsi & _)]);
          [done | simpl; lia | by rewrite Hp1 | | simpl in Hsi; congruence].
        simpl. eexists _, w2, _. split; [done |]. simpl. split; [done |]. split; [| done].
        destruct p. simpl in *. by subst.
      * apply orb_false_elim in Ebad as [[Hv Hsr]%orb_false_elim Hch].
        apply negb_false_iff in Hv. apply negb_false_iff, bool_decide_eq_true in Hsr.
        apply bool_decide_eq_false in Hch.
        destruct (IH (i + 1) p1 w1 next) as (p2 & w2 & r & Hrun & Hspec); try done; [simpl; lia | lia |].
        exists p2, w2, r. split; [done |]. destruct r as [rc2|fmt'].
        { destruct Hspec as (? & -> & ?). done. }
        { destruct Hspec as (-> & ? & ? & ? & ?). split_and!; try done; [lia | congruence]. }
    + rewrite decide_False in Hl1 by done. rewrite Hf.
      destruct (env_deinit _ _ He) as (g & -> & Hd). simpl.
      destruct (Hd w1) as (w2 & -> & Hl2). simpl. rewrite Hl1, Hl, stack_below in Hl2 by lia.
      destruct (release_spec p w2) as (p3 & w3 & rc3 & -> & [(-> & -> & Hl3) | (_ & _ & Hsi & _)]);
        [done | lia | congruence | | congruence].
      simpl. eexists _, w3, _. split; [done |]. simpl. split; [done |]. split; [| done].
      destruct p. simpl in *. by subst.
Qed.

(** ** Every lifecycle call preserves the invariant *)

Lemma inv_config p w : pipeline_inv p w -> pstate p <> EAF_UNINITIALIZED -> config_env (config p).
Proof. intros H. apply H. Qed.

Lemma inv_counts p w :
  pipeline_inv p w -> pstate p <> EAF_UNINITIALIZED -> 0 <= initialized_nodes p <= node_count (config p).
Proof.
  intros H Hs. pose proof (pl_nodes _ _ H). pose proof (cenv_count _ (inv_config _ _ H Hs)). lia.
Qed.

Lemma configure_inv p w frames :
  pipeline_inv p w -> 0 <= frames ->
  exists p' w' rc, configure_body p w frames = Some (p', (w', rc)) /\ pipeline_inv p' w' /\
    (rc = EAF_OK -> pstate p' = EAF_CONFIGURED /\ block_frames p' = frames) /\ config p' = config p /\
    (pstate p <> EAF_RUNNING -> pstate p' <> EAF_RUNNING).
Proof.
  intros Hinv Hfr. unfold configure_body.
  destruct (_ && _ && _) eqn:Est.
  { exists p, w, EAF_STATE. by split_and!. }
  assert (Hs : pstate p = EAF_INITIALIZED \/ pstate p = EAF_STOPPED \/ pstate p = EAF_CONFIGURED).
  { repeat case_bool_decide; simpl in Est; try done; auto. }
  clear Est. assert (Hne : pstate p <> EAF_UNINITIALIZED) by (intros E; rewrite E in Hs; naive_solver).
  pose proof (inv_config _ _ Hinv Hne) as Hc. pose proof (inv_counts _ _ Hinv Hne) as Hi.
  destruct (cenv_res _ Hc) as (res & Hres & Hrwf & Hrv). rewrite Hres. simpl.
  destruct (bool_decide (frames = 0) || bool_decide (capacity res < frames)) eqn:Ebad.
  { exists p, w, EAF_INVALID. by split_and!. }
  apply orb_false_elim in Ebad as [Hf0%bool_decide_eq_false Hfc%bool_decide_eq_false].
  destruct (release_spec p w Hc Hi (pl_live _ _ Hinv)) as (p1 & w1 & rc & -> & [(-> & -> & Hl1) | (Hrc & -> & Hsi & Hl1)]).
  2:{ simpl. rewrite bool_decide_eq_false_2 by done. simpl. eexists _, w1, rc. split; [done |]. split; [| done].
      split; simpl; try done; [apply Hinv | | naive_solver]. rewrite Hl1. apply Hinv. }
  simpl. set (p1 := set_state EAF_INITIALIZED (set_initialized 0 (set_sink false false p))).
  destruct (configure_nodes_spec (Z.to_nat (node_count (config p))) 0 p1 w1 (Reservoir.format res))
    as (p2 & w2 & r & Hrun & Hr); try done; [simpl; lia |].
  rewrite Hrun. simpl. destruct r as [rc|fmt'].
  { destruct Hr as (Hrc & -> & Hl2). eexists _, w2, rc. split; [done |]. split; [| done].
    split; simpl; try done; [lia |]. naive_solver. }
  destruct Hr as (-> & Hl2 & Hfv & Hch & _). set (p2 := set_initialized _ p1). simpl in *.
  destruct (sink_fn_env (set_sink true false p2) Hc) as (o & He & Hsf). rewrite Hsf.
  destruct (senv_init _ He) as (f & -> & Hinit). simpl.
  destruct (Hinit w2 fmt' frames) as (w3 & rc & -> & Hl3). simpl.
  case_bool_decide as Hrc; simpl.
  - eexists _, w3, EAF_OK. split; [done |]. split; [| done]. split; simpl; try done; try congruence; [lia |].
    intros _. split_and!; try done. exists res. split; [done |]. split; [lia | done].
  - destruct (release_spec (set_sink true false p2) w3) as (p4 & w4 & rc4 & -> & [(-> & -> & Hl4) | (Hrc4 & -> & Hsi & Hl4)]);
      [done | simpl; lia | simpl; congruence | |]; simpl.
    + eexists _, w4, rc. split; [done |]. split; [| done].
      split; simpl; try done; [lia | naive_solver].
    + rewrite decide_False by done. eexists _, w4, rc4. split; [done |]. split; [| done].
      split; simpl; try done; try congruence; [lia | naive_solver].
Qed.

Lemma reset_nodes_spec k i (p : eaf_pipeline_t W) w rc :
  config_env (config p) -> 0 <= i -> i + Z.of_nat k <= node_count (config p) ->
  exists w' rc', reset_nodes k i p w rc = Some (w', rc') /\ live w' = live w /\ (rc <> 0 -> rc' = rc).
Proof.
  revert i w rc. induction k as [|k IH]; intros i w rc Hc Hi Hk; [by exists w, rc |]. simpl.
  destruct (node_fn_env p i Hc ltac:(lia)) as (o & He & Hf). rewrite (Hf _ node_reset).
  destruct (env_reset _ _ He) as (f & -> & Hr). simpl. destruct (Hr w) as (w1 & r & -> & Hl). simpl.
  destruct (IH (i + 1) w1 (if decide (rc = 0) then r else rc) Hc ltac:(lia) ltac:(lia)) as (w' & rc' & -> & Hl' & Hrc).
  exists w', rc'. split; [done |]. split; [congruence |]. intros Hne. rewrite decide_False in Hrc by done. auto.
Qed.

Lemma same_state (p : eaf_pipeline_t W) : exists s, p = set_state s p.
Proof. exists (pstate p). by destruct p. Qed.

Lemma stop_inv p w :
  pipeline_inv p w ->
  exists p' w' rc, stop_body p w = Some (p', (w', rc)) /\ pipeline_inv p' w' /\
    (rc = EAF_OK -> pstate p' = EAF_STOPPED \/ pstate p' = EAF_INITIALIZED) /\
    (pstate p = EAF_RECOVERY -> pstate p' <> EAF_RUNNING) /\ exists s, p' = set_state s p.
Proof.
  intros Hinv. unfold stop_body. destruct (_ && _) eqn:Est.
  { exists p, w, EAF_STATE. split_and!; try done; [congruence | apply same_state]. }
  assert (Hs : pstate p = EAF_RUNNING \/ pstate p = EAF_RECOVERY)
    by (repeat case_bool_decide; simpl in Est; try done; auto).
  clear Est. assert (Hne : pstate p <> EAF_UNINITIALIZED) by (intros E; rewrite E in Hs; naive_solver).
  pose proof (inv_config _ _ Hinv Hne) as Hc. pose proof (inv_counts _ _ Hinv Hne) as Hi.
  destruct (sink_fn_env p Hc) as (o & He & Hsf). rewrite Hsf.
  destruct (senv_stop _ He) as (f & -> & Hstop). simpl. destruct (Hstop w) as (w1 & rc & -> & Hl1). simpl.
  case_bool_decide as Hrc; simpl.
  2:{ exists p, w1, rc. split; [done |]. split; [| split_and!; try done; [congruence | apply same_state]].
      destruct Hinv. split; try done. congruence. }
  set (p1 := set_state _ p).
  destruct (reset_nodes_spec (Z.to_nat (initialized_nodes p)) 0 p1 w1 rc Hc ltac:(lia) ltac:(simpl; lia))
    as (w2 & rc2 & Hrun & Hl2 & _). rewrite Hrun. simpl.
  exists p1, w2, rc2. split; [done |]. split; [| split; [| split; [| by eexists]]].
  - destruct Hinv. split; simpl; try done.
    + destruct (sink_ready p); naive_solver.
    + congruence.
    + destruct (sink_ready p); [done | naive_solver].
    + destruct (sink_ready p); [done | done].
  - intros _. simpl. destruct (sink_ready p); auto.
  - intros _. simpl. by destruct (sink_ready p).
Qed.

Lemma reset_wf r : reservoir_wf r -> reservoir_wf (eaf_reservoir_reset r).
Proof.
  intros H. pose proof (reservoir_capacity r H). destruct H. split; simpl; try done.
  - change (u32 (0 - 0)) with 0. lia.
  - repeat constructor; word.
Qed.

Lemma config_env_reservoir p r r' :
  config_env (config p) -> reservoir (config p) = Some r -> reservoir_wf r' -> Reservoir.format r' = Reservoir.format r ->
  config_env (config (set_reservoir r' p)).
Proof.
  intros [(r0 & Hr0 & Hrwf & Hv) Hn Hns Hs] Hr Hwf Hf. rewrite Hr0 in Hr. injection Hr as ->.
  split; simpl; try done. exists r'. rewrite Hf. done.
Qed.

(** Replacing the reservoir's contents keeps the invariant. *)
Lemma inv_reservoir p w r r' :
  pipeline_inv p w -> pstate p <> EAF_UNINITIALIZED -> reservoir (config p) = Some r -> reservoir_wf r' ->
  Reservoir.format r' = Reservoir.format r -> capacity r' = capacity r -> pipeline_inv (set_reservoir r' p) w.
Proof.
  intros Hinv Hne Hr Hwf Hf Hcap. pose proof (inv_config _ _ Hinv Hne) as Hc.
  pose proof (config_env_reservoir p r r' Hc Hr Hwf Hf). destruct Hinv as [_ H2 H3 H4 H5 H6 H7]. split; try done.
  intros Hrd. destruct (H5 Hrd) as (? & ? & ? & r0 & Hr0 & ? & ?). split_and!; try done.
  exists r'. split; [done |]. unfold channels in *. rewrite Hr0 in Hr. injection Hr as ->.
  rewrite Hf, Hcap. done.
Qed.

Lemma start_inv p w :
  pipeline_inv p w ->
  exists p' w' rc, start_body p w = Some (p', (w', rc)) /\ pipeline_inv p' w' /\
    (rc = EAF_OK -> pstate p' = EAF_RUNNING /\ completed p' = false /\
       exists r, reservoir (config p') = Some r /\ res_frames r = [] /\ state r = EAF_RESERVOIR_PREBUFFERING) /\
    (rc <> EAF_OK -> pstate p' <> EAF_RUNNING \/ p' = p) /\
    (forall r, reservoir (config p) = Some r -> (p' = p /\ rc = EAF_STATE) /\ pstate p <> EAF_CONFIGURED \/
       exists s, p' = set_state s (set_completed false (set_reservoir (eaf_reservoir_reset r) p))).
Proof.
  intros Hinv. unfold start_body. destruct (_ && _) eqn:Est.
  { exists p, w, EAF_STATE. split_and!; try done; [by right |]. intros r _. left. split; [done |].
    intros H. rewrite H in Est. by vm_compute in Est. }
  assert (Hs : pstate p = EAF_CONFIGURED \/ pstate p = EAF_STOPPED)
    by (repeat case_bool_decide; simpl in Est; try done; auto).
  clear Est. assert (Hne : pstate p <> EAF_UNINITIALIZED) by (intros E; rewrite E in Hs; naive_solver).
  pose proof (inv_config _ _ Hinv Hne) as Hc.
  destruct (cenv_res _ Hc) as (res & Hres & Hrwf & Hrv). rewrite Hres. simpl.
  pose proof (inv_reservoir p w res (eaf_reservoir_reset res) Hinv Hne Hres (reset_wf _ Hrwf) eq_refl eq_refl) as Hinv1.
  set (p1 := set_completed false _).
  assert (Hinv2 : pipeline_inv p1 w) by (destruct Hinv1; split; done).
  assert (Hready : sink_ready p1 = true) by (apply (pl_active _ _ Hinv2); naive_solver).
  destruct (sink_fn_env p1 (inv_config _ _ Hinv2 Hne)) as (o & He & Hsf). rewrite Hsf.
  destruct (senv_start _ He) as (f & -> & Hstart). simpl. destruct (Hstart w) as (w1 & rc & -> & Hl1). simpl.
  assert (Hset : forall s, s = EAF_RUNNING \/ s = EAF_RECOVERY -> pipeline_inv (set_state s p1) w1).
  { intros s Hss. destruct Hinv2 as [H1 H2 H3 H4 H5 H6 H7]. split; simpl in *; try done.
    - intros _. by apply H1.
    - naive_solver.
    - congruence.
    - naive_solver. }
  case_decide as Hrc.
  - eexists _, w1, rc. split; [done |]. split; [apply Hset; auto |]. split.
    { intros _. split; [done |]. split; [done |]. exists (eaf_reservoir_reset res). split_and!; done. }
    split; [done |]. intros r Hr. simplify_eq. right. by eexists.
  - destruct (stop_inv (set_state EAF_RECOVERY p1) w1 (Hset _ (or_intror eq_refl)))
      as (p2 & w2 & rc2 & Hstop & Hinv3 & Hok & Hrec & [s ->]). rewrite Hstop. simpl.
    eexists _, w2, _. split; [done |]. split; [done |].
    pose proof (Hrec eq_refl) as Hstate.
    split; [unfold EAF_OK; case_decide; naive_solver |]. split; [by left |].
    intros r Hr. simplify_eq. right. by eexists.
Qed.

(** ** Processing a block *)

Definition kept (p : eaf_pipeline_t W) (owned b : eaf_buffer_t) : Prop :=
  samples b = samples owned /\ capacity_samples b = capacity_samples owned /\
  capacity_frames b = capacity_frames owned /\ frame_count b = block_frames p.

Lemma node_broke_kept p owned b ch : node_broke p owned b ch = false -> kept p owned b.
Proof. unfold node_broke, kept. repeat case_bool_decide; simpl; try done. Qed.

Lemma process_nodes_spec k i p w owned b cells rc :
  config_env (config p) -> 0 <= i -> i + Z.of_nat k <= node_count (config p) -> (rc = 0 -> kept p owned b) ->
  block_typed b cells -> capacity_samples owned <= zlen cells ->
  exists w' b' cells' rc', process_nodes k i p w owned (b, cells) rc = Some (w', (b', cells'), rc') /\
    zlen cells' = zlen cells /\ live w' = live w /\ (rc' = 0 -> kept p owned b') /\ (rc' = 0 -> rc = 0).
Proof.
  revert i w b cells rc. induction k as [|k IH]; intros i w b cells rc Hc Hi Hk Hkept Ht Hcs.
  { exists w, b, cells, rc. done. }
  cbn [process_nodes]. case_bool_decide as Hrc; cbn [negb]; [| by exists w, b, cells, rc].
  destruct (node_fn_env p i Hc ltac:(lia)) as (o & He & Hf). rewrite (Hf _ node_process).
  destruct (env_process _ _ He) as (f & -> & Hp). cbn [mbind option_bind].
  destruct (Hp w b cells Ht) as (w1 & b1 & cells1 & rc1 & -> & Hz & Hl & Ht1);
    [by destruct (Hkept Hrc) as (_ & -> & _) |]. cbn [mbind option_bind fst].
  destruct (IH (i + 1) w1 b1 cells1
    (if node_broke p owned b1 (num_channels (Types.format b)) then EAF_INVALID else rc1) Hc)
    as (w' & b' & cells' & rc' & Hrun & Hz' & Hl' & Hk' & Hrc'); [lia | lia | | done | lia |].
  - destruct (node_broke p owned b1 _) eqn:Eb; [done |]. intros _. by apply node_broke_kept in Eb.
  - exists w', b', cells', rc'. split; [exact Hrun |]. split_and!; try done; congruence.
Qed.

Context (wake : Z * Z -> W -> W).
Hypothesis (wake_live : forall h w, live (wake h w) = live w).

Lemma wakes_live l w : live (foldl (fun w h => wake h w) w l) = live w.
Proof using wake_live. revert w. induction l as [|h l IH]; intros w; simpl; [done |]. by rewrite IH. Qed.

(** A buffer the sink offers that passes the checks of [eaf_pipeline_process]. *)
Definition acquired_ok (p : eaf_pipeline_t W) (buf : eaf_buffer_t) (cells : list Z) : Prop :=
  samples buf <> 0 /\ block_frames p <= capacity_frames buf /\
  block_frames p <= capacity_samples buf / num_channels (output_format p) /\
  0 <= capacity_samples buf <= zlen cells /\ Forall is_s32 cells.

(** What every committed block satisfies. *)
Definition committed_ok (p : eaf_pipeline_t W) (owned b : eaf_buffer_t) (cells cells' : list Z) (rc : Z)
    (eos : bool) : Prop :=
  kept p owned b /\ Types.format b = output_format p /\ zlen cells' = zlen cells /\
  (rc <> 0 -> flags b = EAF_FRAME_SILENCE /\
     slice cells' 0 (block_frames p * num_channels (output_format p))
       = zeros (block_frames p * num_channels (output_format p))) /\
  (rc = 0 -> eos = true -> Z.testbit (flags b) 2 = true).

Lemma pipeline_pull_ok p w r buf cells :
  pipeline_inv p w -> pstate p = EAF_RUNNING -> reservoir (config p) = Some r ->
  acquired_ok p buf cells ->
  reservoir_wf r /\ pull_ok r (set_frame_count (block_frames p) buf) cells /\
  0 < num_channels (output_format p) /\ block_frames p * num_channels (output_format p) <= zlen cells /\
  0 < block_frames p.
Proof using.
  intros Hinv Hrun Hr (Hs & Hcf & Hcs & Hz & _).
  pose proof (pl_config _ _ Hinv ltac:(congruence)) as Hc.
  destruct (cenv_res _ Hc) as (r0 & Hr0 & Hwf & _). rewrite Hr0 in Hr. injection Hr as ->.
  destruct (pl_ready _ _ Hinv (pl_active _ _ Hinv (or_intror (or_introl Hrun)))) as (_ & _ & _ & r1 & Hr1 & Hbf & Hch).
  rewrite Hr0 in Hr1. injection Hr1 as <-. pose proof (rwf_channels r Hwf).
  assert (Hprod : block_frames p * num_channels (output_format p) <= capacity_samples buf).
  { apply Z.le_trans with (capacity_samples buf / num_channels (output_format p) * num_channels (output_format p)).
    - apply Z.mul_le_mono_nonneg_r; lia.
    - rewrite Z.mul_comm. apply Z.mul_div_le. lia. }
  split; [done |]. split; [| split_and!; lia].
  split_and!; simpl; try done; try lia. apply Z.div_le_lower_bound; [lia |]. nia.
Qed.

Lemma land_eos f : Z.land f EAF_FRAME_EOS <> 0 -> Z.testbit f 2 = true.
Proof.
  intros Hne. destruct (Z.testbit f 2) eqn:E; [done |]. exfalso. apply Hne.
  apply Z.bits_inj'. intros n Hn. rewrite Z.land_spec, Z.bits_0. unfold EAF_FRAME_EOS.
  change 4 with (2 ^ 2). rewrite Z.pow2_bits_eqb by lia.
  destruct (Z.eqb_spec 2 n) as [<-|]; [by rewrite E | apply andb_false_r].
Qed.

(** What a pull of [n] frames leaves of a reservoir: its frames less the first
    [k], counted; after the end of the input as many as fit. *)
Definition drawn (n : Z) (r r' : eaf_reservoir_t) : Prop :=
  exists k, 0 <= k <= level r /\ frames_read r' = u64 (frames_read r + k) /\
    (finished r <> 0 -> k = Z.min (level r) n) /\
    res_frames r = slice (res_frames r) 0 (k * channels r) ++ res_frames r' /\
    Reservoir.format r' = Reservoir.format r /\ capacity r' = capacity r /\ finished r' = finished r.

Lemma render_spec p w r buf cells :
  pipeline_inv p w -> pstate p = EAF_RUNNING -> reservoir (config p) = Some r -> acquired_ok p buf cells ->
  exists r' w' b cells' rc eos, render wake p w buf cells = Some (set_reservoir r' p, w', (b, cells'), rc, eos) /\
    reservoir_wf r' /\ Reservoir.format r' = Reservoir.format r /\ capacity r' = capacity r /\ live w' = live w /\
    committed_ok p buf b cells cells' rc eos /\
    (eos = true <-> finished r <> 0 /\ level r <= block_frames p) /\ drawn (block_frames p) r r'.
Proof using wake_live.
  intros Hinv Hrun Hr Hacq.
  destruct (pipeline_pull_ok p w r buf cells Hinv Hrun Hr Hacq) as (Hwf & Hok & Hch & Hcells & Hbf).
  pose proof (pl_config _ _ Hinv ltac:(congruence)) as Hc.
  unfold render. rewrite Hr.
  destruct (res_pull_spec r (set_frame_count (block_frames p) buf) cells Hwf Hok)
    as (la & Hpull & Hwf' & Hblen & Htk & _ & Hrest). rewrite Hpull. cbn [mbind option_bind].
  rewrite bool_decide_eq_true_2 by done.
  pose proof (pull_eos_flag r (block_frames p) Hwf) as Heos.
  change (frame_count (set_frame_count (block_frames p) buf)) with (block_frames p) in *.
  set (pl := pull_reference r (block_frames p)) in *. set (r' := after_pull r pl la) in *.
  set (b1 := set_flags _ _) in *. set (c1 := splice cells 0 (block pl)) in *. set (ws := if negb _ then _ else _).
  set (w1 := foldl _ w ws). set (eos := true && _).
  assert (Hdrawn : drawn (block_frames p) r r').
  { exists (taken pl). split_and!; try done; try lia. intros Hfin. unfold pl, pull_reference, reference_pull.
    rewrite bool_decide_eq_false_2 by done. simpl. by rewrite content_level. }
  assert (Hz1 : zlen c1 = zlen cells).
  { apply zlen_splice; [lia |]. pose proof (rwf_channels r Hwf). destruct Hok as (_ & _ & _ & _ & Hdv & Hcs).
    rewrite Hblen. simpl in *. apply Z.le_trans with (capacity_samples buf); [| lia].
    apply Z.le_trans with (capacity_samples buf / channels r * channels r); [nia |].
    rewrite Z.mul_comm. apply Z.mul_div_le. lia. }
  assert (Heos' : eos = true <-> finished r <> 0 /\ level r <= block_frames p).
  { rewrite <- Heos. unfold eos. rewrite andb_true_l. split.
    - intros H%negb_true_iff%bool_decide_eq_false. by apply land_eos in H.
    - intros H. apply negb_true_iff, bool_decide_eq_false. intros H0.
      apply (f_equal (fun x => Z.testbit x 2)) in H0. rewrite Z.land_spec in H0.
      change (flags b1) with (block_flags pl) in H0. rewrite H in H0. discriminate. }
  destruct (process_nodes_spec (Z.to_nat (node_count (config p))) 0 (set_reservoir r' p) w1 buf b1 c1 EAF_OK)
    as (w2 & b2 & c2 & rc2 & Hnodes & Hz2 & Hl2 & Hk2 & _).
  { by apply (config_env_reservoir p r). }
  { lia. }
  { simpl. pose proof (cenv_count _ Hc). lia. }
  { done. }
  { pose proof (rwf_channels r Hwf). split; [simpl; lia |]. split; [unfold b1; simpl; unfold channels in *; word |].
    destruct Hacq as (_ & _ & _ & _ & Hs32). apply splice_forall; [done | by apply pull_block_s32]. }
  { destruct Hacq as (_ & _ & _ & ? & _). lia. }
  change (node_count (config (set_reservoir r' p))) with (node_count (config p)). rewrite Hnodes.
  cbn [mbind option_bind].
  change (output_format (set_reservoir r' p)) with (output_format p) in *.
  change (block_frames (set_reservoir r' p)) with (block_frames p) in *.
  set (rc := if _ && _ then EAF_INVALID else rc2).
  assert (Hrc0 : rc = 0 -> rc2 = 0 /\ Types.format b2 = output_format p /\ frame_count b2 = block_frames p).
  { unfold rc. destruct (decide (rc2 = 0)) as [H0|H0].
    - rewrite (bool_decide_eq_true_2 (rc2 = 0)) by done. simpl.
      destruct (eaf_format_equal _ _) eqn:Ef; simpl; [| done]. apply eaf_format_equal_eq in Ef.
      destruct (decide (frame_count b2 = block_frames p)) as [Hn|Hn].
      + rewrite (bool_decide_eq_true_2 (frame_count b2 = _)) by done. done.
      + rewrite (bool_decide_eq_false_2 (frame_count b2 = _)) by done. done.
    - rewrite (bool_decide_eq_false_2 (rc2 = 0)) by done. simpl. done. }
  assert (Hlw : live w2 = live w) by (rewrite Hl2; apply wakes_live).
  clear Hpull. case_bool_decide as Hrc; cbn [negb].
  - destruct (Hrc0 Hrc) as (Hrc2 & Hf2 & Hn2). eexists r', w2, _, c2, rc, eos. split; [done |].
    split_and!; try done. split_and!.
    + destruct eos; apply (Hk2 Hrc2).
    + destruct eos; done.
    + congruence.
    + done.
    + intros _ Hb. rewrite Hb. cbn [flags set_flags]. rewrite Z.lor_spec. apply orb_true_r.
  - rewrite memset_eq by nia. cbn [mbind option_bind]. eexists r', w2, _, _, rc, eos. split; [done |].
    split_and!; try done. split_and!; try done.
    + rewrite zlen_splice; [congruence | lia |]. rewrite zlen_replicate by nia. lia.
    + intros _. split; [done |].
      pose proof (slice_splice c2 (zeros (block_frames p * num_channels (output_format p))) 0 0
        (block_frames p * num_channels (output_format p))) as Hss.
      change (0 + 0) with 0 in Hss. unfold zeros in *. rewrite Hss by (rewrite ?zlen_replicate by nia; nia).
      apply slice_full; rewrite ?zlen_replicate by nia; lia.
Qed.

Lemma unpulled (p : eaf_pipeline_t W) r :
  reservoir (config p) = Some r -> exists r', p = set_completed (completed p) (set_reservoir r' p) /\
    (r' = r /\ completed p = completed p \/ drawn (block_frames p) r r').
Proof using. intros Hr. exists r. split; [| by left]. destruct p as [[] ? ? ? ? ? ? ?]. simpl in *. by subst. Qed.

Lemma process_inv p w :
  pipeline_inv p w ->
  exists p' w' rc, process_body wake p w = Some (p', (w', rc)) /\ pipeline_inv p' w' /\ pstate p' = pstate p /\
    (pstate p = EAF_RUNNING -> completed p = false -> forall r, reservoir (config p) = Some r ->
       (completed p' = true -> rc = EAF_EOF) /\
       (completed p' = true -> finished r <> 0 /\ level r <= block_frames p)) /\
    (forall r, reservoir (config p) = Some r -> exists r', p' = set_completed (completed p') (set_reservoir r' p) /\
       (r' = r /\ completed p' = completed p \/ drawn (block_frames p) r r')).
Proof using wake_live.
  intros Hinv. unfold process_body. case_bool_decide as Hrun; cbn [negb].
  2:{ exists p, w, EAF_STATE. split_and!; try done. apply unpulled. }
  destruct (completed p) eqn:Ecomp.
  { exists p, w, EAF_EOF. split_and!; try done. rewrite <- Ecomp. apply unpulled. }
  pose proof (pl_config _ _ Hinv ltac:(congruence)) as Hc.
  destruct (cenv_res _ Hc) as (r & Hr & Hwf & _).
  destruct (pl_ready _ _ Hinv (pl_active _ _ Hinv (or_intror (or_introl Hrun)))) as (_ & _ & Hofv & r1 & Hr1 & Hbf & Hch).
  destruct (sink_fn_env p Hc) as (o & He & Hsf). rewrite (Hsf _ sink_acquire_buf).
  destruct (senv_acquire _ He) as (f & -> & Hacq). cbn [mbind option_bind].
  destruct (Hacq w) as (w1 & b & rc & -> & Hl1 & Hcap). cbn [mbind option_bind].
  assert (Hinv1 : pipeline_inv p w1) by (destruct Hinv; split; try done; congruence).
  assert (Hquit : forall rc', exists p' w' rc0, Some (p, (w1, rc')) = Some (p', (w', rc0)) /\ pipeline_inv p' w' /\
    pstate p' = pstate p /\ (pstate p = EAF_RUNNING -> false = false -> forall r, reservoir (config p) = Some r ->
       (completed p' = true -> rc0 = EAF_EOF) /\ (completed p' = true -> finished r <> 0 /\ level r <= block_frames p)) /\
    (forall r, reservoir (config p) = Some r -> exists r', p' = set_completed (completed p') (set_reservoir r' p) /\
       (r' = r /\ completed p' = false \/ drawn (block_frames p) r r'))).
  { intros rc'. exists p, w1, rc'. split_and!; try done; [intros; split; congruence |]. rewrite <- Ecomp. apply unpulled. }
  case_bool_decide as Hrc; cbn [negb]; [| apply Hquit].
  destruct b as [[buf cells]|]; [| apply Hquit].
  destruct (bool_decide (samples buf = 0) || bool_decide (capacity_frames buf < block_frames p)) eqn:Ebad; [apply Hquit |].
  apply orb_false_elim in Ebad as [Hs%bool_decide_eq_false Hcf%bool_decide_eq_false].
  rewrite Hr in Hr1. injection Hr1 as <-. pose proof (rwf_channels r Hwf).
  rewrite decide_False by lia. case_decide as Hcs; [apply Hquit |].
  destruct (render_spec p w1 r buf cells Hinv1 Hrun Hr) as (r' & w2 & b & c2 & rc2 & eos & -> & Hwf' & Hf' & Hcap' & Hl2 & _ & Heos & Hdrawn).
  { destruct (Hcap buf cells eq_refl). split_and!; try done; lia. }
  cbn [mbind option_bind]. change (sink_fn sink_commit_buf (set_reservoir r' p)) with (sink_fn sink_commit_buf p).
  rewrite (Hsf _ sink_commit_buf). destruct (senv_commit _ He) as (g & -> & Hcommit). cbn [mbind option_bind].
  destruct (Hcommit w2 (b, c2)) as (w3 & rc3 & -> & Hl3). cbn [mbind option_bind].
  assert (Hinv2 : pipeline_inv (set_reservoir r' p) w3).
  { apply (inv_reservoir p w3 r); try done; [| congruence]. destruct Hinv1; split; try done; congruence. }
  destruct (bool_decide (rc2 = 0) && bool_decide (rc3 = 0) && eos) eqn:Eend.
  - apply andb_true_iff in Eend as [_ ->]. eexists _, w3, EAF_EOF. split; [done |].
    split; [destruct Hinv2; split; done |]. split; [done |]. split; intros; simplify_eq.
    + split; [done |]. intros _. by apply Heos.
    + exists r'. split; [done | by right].
  - eexists _, w3, _. split; [done |]. split; [done |]. split; [done |]. simpl. rewrite Ecomp. split; [done |].
    intros r0 Hr0. simplify_eq. exists r'. split; [| by right]. by destruct p; simpl in *; subst.
Qed.

Lemma nodes_ok_total k l i n :
  (forall j, 0 <= j < n -> exists x, ld l j = Some (Some x)) -> 0 <= i -> i + Z.of_nat k <= n ->
  exists b, nodes_ok (W:=W) k l i = Some b.
Proof using.
  intros Hl. revert i. induction k as [|k IH]; intros i Hi Hk; simpl; [eauto |].
  destruct (Hl i ltac:(lia)) as [x Hx]. unfold node_bad. rewrite Hx. simpl.
  destruct (node_ops x) as [o|]; simpl; [| eauto].
  destruct (node_init o), (node_process o), (node_reset o), (node_deinit o); simpl; eauto.
  case_decide; simpl; eauto. case_decide; simpl; [apply IH; lia |].
  destruct (Hl (i - 1) ltac:(lia)) as [y Hy]. rewrite Hy. simpl. case_bool_decide; [eauto | apply IH; lia].
Qed.

Lemma init_inv p w c :
  pipeline_inv p w -> config_env c ->
  exists p' rc, eaf_pipeline_init (Some p) (Some c) = Some (Some p', rc) /\ pipeline_inv p' w /\
    (rc = EAF_OK -> pstate p' = EAF_INITIALIZED /\ config p' = c) /\ (rc <> EAF_OK -> p' = p).
Proof using.
  intros Hinv Hc. unfold eaf_pipeline_init, on_ptr.
  destruct (cenv_res _ Hc) as (r & -> & _). destruct (cenv_sink _ Hc) as (o & -> & _).
  destruct (cenv_nodes _ Hc) as (l & -> & Hl). case_bool_decide as Hst; cbn [negb].
  2:{ exists p, EAF_STATE. split_and!; try done. }
  destruct (sink_ops_ok o); cbn [negb]; [| exists p, EAF_INVALID; by split_and!].
  destruct (nodes_ok_total (Z.to_nat (node_count c)) l 0 (node_count c)) as [b ->].
  { intros j Hj. destruct (Hl j Hj) as (n & ? & Hn & _). eauto. }
  { lia. } { pose proof (cenv_count _ Hc). lia. }
  simpl. destruct b; [| exists p, EAF_INVALID; by split_and!].
  eexists _, EAF_OK. split; [done |]. split; [| done].
  destruct (pl_fresh _ _ Hinv Hst) as (Hn0 & Hs0 & Hr0 & _). pose proof (pl_live _ _ Hinv) as Hl0.
  split; simpl; try done; try congruence; [lia | naive_solver].
Qed.

Lemma deinit_inv p w :
  pipeline_inv p w ->
  exists p' w' rc, eaf_pipeline_deinit (Some p) w = Some (Some p', (w', rc)) /\ pipeline_inv p' w' /\
    (rc = EAF_OK -> p' = pipeline_zero /\ live w' = []) /\ (rc <> EAF_OK -> config p' = config p).
Proof using.
  intros Hinv. unfold eaf_pipeline_deinit, on_ptr. case_decide as Hrun.
  { exists p, w, EAF_STATE. by split_and!. }
  assert (Hzero : forall w', live w' = [] -> pipeline_inv pipeline_zero w').
  { intros w' Hw. split; simpl; try done. naive_solver. }
  destruct (decide (pstate p = EAF_UNINITIALIZED)) as [Hu|Hu].
  - destruct (pl_fresh _ _ Hinv Hu) as (Hn0 & Hs0 & _). rewrite (release_fresh p w Hn0 Hs0). simpl.
    assert (live w = []) by (rewrite (pl_live _ _ Hinv), Hn0; done).
    eexists _, w, EAF_OK. split; [done |]. split; [by apply Hzero | done].
  - destruct (release_spec p w (inv_config _ _ Hinv Hu) (inv_counts _ _ Hinv Hu) (pl_live _ _ Hinv))
      as (p1 & w1 & rc & -> & [(-> & -> & Hl) | (Hrc & -> & Hsi & Hl)]); simpl.
    + eexists _, w1, EAF_OK. split; [done |]. split; [by apply Hzero | done].
    + rewrite bool_decide_eq_false_2 by done. simpl. eexists _, w1, rc. split; [done |]. split; [| done].
      destruct Hinv. split; simpl; try done; [| congruence | naive_solver]. intros _. auto.
Qed.

(** ** Sessions: any order of lifecycle calls, with the producer in between *)
Inductive pipeline_op :=
| PInit (c : eaf_pipeline_config_t W)
| PConfigure (frames : Z)
| PStart
| PProcess
| PStop
| PDeinit
| PProduce (src : list Z) (frames : Z)
| PFinish.

Definition pipeline_op_ok (op : pipeline_op) : Prop :=
  match op with
  | PInit c => config_env c
  | PConfigure frames => 0 <= frames
  | PProduce src frames => 0 <= frames /\ frames * 4 <= zlen src /\ Forall is_s32 src
  | _ => True
  end.

(** The producer's calls on [p->config.reservoir]. *)
Definition produce (f : ptr eaf_reservoir_t -> ub (ptr eaf_reservoir_t)) (p : eaf_pipeline_t W)
  : ub (eaf_pipeline_t W) :=
  match reservoir (config p) with
  | None => Some p
  | Some r => r' ← f (Some r); r' ← r'; Some (set_reservoir r' p)
  end.

Definition pipeline_exec (op : pipeline_op) (p : eaf_pipeline_t W) (w : W) : ub (eaf_pipeline_t W * W) :=
  match op with
  | PInit c => '(p', _) ← with_ref (fun q => eaf_pipeline_init q (Some c)) p; Some (p', w)
  | PConfigure n => '(p', (w', _)) ← with_ref (fun q => eaf_pipeline_configure q w n) p; Some (p', w')
  | PStart => '(p', (w', _)) ← with_ref (fun q => eaf_pipeline_start q w) p; Some (p', w')
  | PProcess => '(p', (w', _)) ← with_ref (fun q => eaf_pipeline_process wake q w) p; Some (p', w')
  | PStop => '(p', (w', _)) ← with_ref (fun q => eaf_pipeline_stop q w) p; Some (p', w')
  | PDeinit => '(p', (w', _)) ← with_ref (fun q => eaf_pipeline_deinit q w) p; Some (p', w')
  | PProduce src n => p' ← produce (fun r => '(r', _) ← eaf_reservoir_write r (Some src) n; Some r') p; Some (p', w)
  | PFinish => p' ← produce (fun r => Some (eaf_reservoir_finish r)) p; Some (p', w)
  end.

Fixpoint pipeline_run (ops : list pipeline_op) (p : eaf_pipeline_t W) (w : W) : ub (eaf_pipeline_t W * W) :=
  match ops with
  | [] => Some (p, w)
  | op :: ops' => '(p', w') ← pipeline_exec op p w; pipeline_run ops' p' w'
  end.

Lemma produce_inv f p w :
  pipeline_inv p w ->
  (forall r, reservoir_wf r -> channels r <= 4  -> exists r', f (Some r) = Some (Some r') /\ reservoir_wf r' /\
     Reservoir.format r' = Reservoir.format r /\ capacity r' = capacity r) ->
  exists p', produce f p = Some p' /\ pipeline_inv p' w.
Proof using.
  intros Hinv Hf. unfold produce. destruct (reservoir (config p)) as [r|] eqn:Hr; [| eauto].
  assert (Hne : pstate p <> EAF_UNINITIALIZED)
    by (intros E; destruct (pl_fresh _ _ Hinv E) as (_ & _ & _ & ?); congruence).
  destruct (cenv_res _ (inv_config _ _ Hinv Hne)) as (r0 & Hr0 & Hwf & _). rewrite Hr in Hr0. injection Hr0 as <-.
  destruct (Hf r Hwf (proj2 (rwf_channels r Hwf))) as (r' & -> & Hwf' & Hfm & Hcap). simpl. eexists. split; [done |].
  by apply (inv_reservoir p w r).
Qed.

Lemma pipeline_exec_inv op p w :
  pipeline_inv p w -> pipeline_op_ok op ->
  exists p' w', pipeline_exec op p w = Some (p', w') /\ pipeline_inv p' w'.
Proof using wake_live.
  intros Hinv Hop. destruct op as [c|n| | | | |src n|]; simpl in *; unfold with_ref.
  - destruct (init_inv p w c Hinv Hop) as (p' & rc & -> & Hp & _). simpl. eauto.
  - unfold eaf_pipeline_configure, on_ptr. destruct (configure_inv p w n Hinv Hop) as (p' & w' & rc & -> & Hp & _). simpl. eauto.
  - unfold eaf_pipeline_start, on_ptr. destruct (start_inv p w Hinv) as (p' & w' & rc & -> & Hp & _). simpl. eauto.
  - unfold eaf_pipeline_process, on_ptr. destruct (process_inv p w Hinv) as (p' & w' & rc & -> & Hp & _). simpl. eauto.
  - unfold eaf_pipeline_stop, on_ptr. destruct (stop_inv p w Hinv) as (p' & w' & rc & -> & Hp & _). simpl. eauto.
  - destruct (deinit_inv p w Hinv) as (p' & w' & rc & -> & Hp & _). simpl. eauto.
  - destruct Hop as (Hn & Hs & H32).
    destruct (produce_inv (fun r => '(r', _) ← eaf_reservoir_write r (Some src) n; Some r') p w Hinv) as (p' & -> & Hp).
    { intros r Hwf Hch. pose proof (rwf_channels r Hwf). destruct (decide (finished r = 0)) as [Hf|Hf].
      - destruct (res_write_spec r src n Hwf Hn ltac:(nia) H32 Hf) as (l & -> & Hwf' & _). simpl. eauto.
      - unfold eaf_reservoir_write, on_ptr. rewrite bool_decide_eq_false_2 by done. simpl. eauto. }
    simpl. eauto.
  - destruct (produce_inv (fun r => Some (eaf_reservoir_finish r)) p w Hinv) as (p' & -> & Hp).
    { intros r Hwf _. exists (set_finished 1 r). split; [done |]. split; [| done]. by destruct Hwf. }
    simpl. eauto.
Qed.

Lemma pipeline_run_inv ops p w :
  pipeline_inv p w -> Forall pipeline_op_ok ops ->
  exists p' w', pipeline_run ops p w = Some (p', w') /\ pipeline_inv p' w'.
Proof using wake_live.
  revert p w. induction ops as [|op ops IH]; intros p w Hinv Hops; [by exists p, w |].
  apply List.Forall_cons_iff in Hops as [Hop Hops]. simpl.
  destruct (pipeline_exec_inv op p w Hinv Hop) as (p1 & w1 & -> & Hinv1). simpl. by apply IH.
Qed.

Lemma zero_inv w : live w = [] -> pipeline_inv pipeline_zero w.
Proof using. intros Hw. split; simpl; try done. naive_solver. Qed.
End env.

(** ** A small environment for the witnesses: worlds are the live lists *)
Definition demo_node (i : Z) : eaf_node_ops (list Z) :=
  NodeOps (Some (fun w a _ => Some (i :: w, a, 0))) (Some (fun w b => Some (w, b, 0)))
    (Some (fun w => Some (w, 0))) (Some (fun w => Some (filter (fun j => j <> i) w))).
Definition demo_sink_buf : eaf_buffer_t := Buffer 16 0 4 8 format_zero 0.
Definition demo_sink : eaf_sink_ops (list Z) :=
  SinkOps (Some (fun w _ _ => Some (w, 0))) (Some (fun w => Some (w, 0))) (Some (fun w => Some (w, 0)))
    (Some (fun w => Some (w, Some (demo_sink_buf, replicate 8 0), 0)))
    (Some (fun w _ => Some (w, 0))) (Some (fun w => Some (w, 0))).
Definition demo_config : eaf_pipeline_config_t (list Z) :=
  PipelineConfig (Some demo_reservoir) (Some [Some (Node 1 (Some (demo_node 0)))]) 1 (Some (Some demo_sink)).
Definition demo_wake (h : Z * Z) (w : list Z) : list Z := w.

Lemma demo_node_env i : node_env (fun w => w) i (demo_node i).
Proof.
  split; (eexists; split; [reflexivity |]); intros; eexists; repeat eexists; try done; apply H.
Qed.
Lemma demo_sink_env : sink_env (fun w => w) demo_sink.
Proof.
  split; (eexists; split; [reflexivity |]); intros; try (by repeat eexists).
  do 3 eexists. split; [reflexivity |]. split; [done |]. intros buf cells [= <- <-]. split; [by vm_compute | repeat constructor; word].
Qed.
Lemma demo_config_env : config_env (fun w => w) demo_config.
Proof.
  split; simpl.
  - exists demo_reservoir. split; [done |]. split; [apply demo_reservoir_wf | done].
  - done.
  - eexists. split; [done |]. intros i Hi. replace i with 0 by lia.
    eexists _, _. split; [done |]. split; [done |]. apply demo_node_env.
  - eexists. split; [done |]. apply demo_sink_env.
Qed.

(** ** Properties *)




Definition demo_running : eaf_pipeline_t (list Z) :=
  Pipeline demo_config EAF_RUNNING (Format 48000 2 3) 2 1 true true false.
Lemma demo_running_inv : pipeline_inv (fun w => w) demo_running [0].
Proof.
  split; simpl; try done.
  - intros _. apply demo_config_env.
  - intros _. split_and!; try done. by exists demo_reservoir.
Qed.


(** Completion: a running pipeline turns completed only together with an
    [EAF_EOF] result, only when the producer had finished and the committed block
    took all that was left; from then on processing reports [EAF_EOF] and leaves
    the pipeline, the nodes and the sink untouched. *)
Theorem pipeline_eof_once {W} (live : W -> list Z) (wake : Z * Z -> W -> W)
    (p : eaf_pipeline_t W) (w : W) (r : eaf_reservoir_t) :
  (forall h w, live (wake h w) = live w) -> pipeline_inv live p w -> pstate p = EAF_RUNNING ->
  completed p = false -> reservoir (config p) = Some r ->
  exists p' w' rc, eaf_pipeline_process wake (Some p) w = Some (Some p', (w', rc)) /\
    pipeline_inv live p' w' /\ pstate p' = EAF_RUNNING /\
    (completed p' = true -> rc = EAF_EOF /\ finished r <> 0 /\ level r <= block_frames p /\
       forall v, eaf_pipeline_process wake (Some p') v = Some (Some p', (v, EAF_EOF))).
Proof.
  intros Hwake Hinv Hrun Hcomp Hr. unfold eaf_pipeline_process, on_ptr.
  destruct (process_inv live wake Hwake p w Hinv) as (p' & w' & rc & -> & Hinv' & Hst & Hc & _).
  destruct (Hc Hrun Hcomp r Hr) as (Hrc & Hend). exists p', w', rc. split; [done |]. split; [done |].
  split; [congruence |]. intros Hd. split; [by apply Hrc |]. destruct (Hend Hd) as [Hf Hl].
  split; [done |]. split; [done |]. intros v. unfold process_body.
  rewrite bool_decide_eq_true_2 by congruence. by rewrite Hd.
Qed.

Lemma pipeline_eof_once_witness :
  exists p' w' rc, eaf_pipeline_process demo_wake (Some demo_running) [0] = Some (Some p', (w', rc)) /\
    pstate p' = EAF_RUNNING.
Proof.
  destruct (pipeline_eof_once (fun w => w) demo_wake demo_running [0] demo_reservoir)
    as (p' & w' & rc & H1 & _ & H2 & _);
    [reflexivity | apply demo_running_inv | reflexivity | reflexivity | reflexivity |].
  exists p', w', rc. split; [exact H1 | exact H2].
Defined.
