(* ===== verification/Float.v ===== *)
(** Double precision arithmetic: the C type [double] as IEEE 754 binary64 with
    rounding to nearest even, on the executable specification of the standard
    library ([SpecFloat]), and the conversions between [double] and the integer
    types.  A conversion that does not fit is undefined behaviour.

    The lemmas bound a rounded result by every representable number that bounds
    the exact one; they are what the users of floating point need to show that
    their conversions are defined. *)

From Stdlib Require Import SpecFloat.
From S2P Require Import Prelude.

Abbreviation double := spec_float.

Definition dadd : double -> double -> double := SFadd 53 1024.
Definition dsub : double -> double -> double := SFsub 53 1024.
Definition dmul : double -> double -> double := SFmul 53 1024.
Definition ddiv : double -> double -> double := SFdiv 53 1024.
Definition dsqrt : double -> double := SFsqrt 53 1024.
Definition dneg : double -> double := SFopp.
Definition dabs : double -> double := SFabs.
Definition dlt : double -> double -> bool := SFltb.
Definition dle : double -> double -> bool := SFleb.
Definition deq : double -> double -> bool := SFeqb.

Definition d_zero : double := S754_zero false.
Definition d_inf : double := S754_infinity false.   (* HUGE_VAL *)

Definition d_isinf (x : double) : bool := match x with S754_infinity _ => true | _ => false end.
Definition d_isfinite (x : double) : bool :=
  match x with S754_zero _ | S754_finite _ _ _ => true | _ => false end.

(** [(double)n] for an integer, and a decimal literal [n / d] whose numerator and
    denominator are exact. *)
Definition d_of_Z (n : Z) : double := binary_normalize 53 1024 n 0 false.
Definition d_lit (n d : Z) : double := ddiv (d_of_Z n) (d_of_Z d).

(** Truncation towards zero; [None] on NaN and the infinities. *)
Definition d_trunc (x : double) : option Z :=
  match x with
  | S754_zero _ => Some 0
  | S754_finite s m e =>
      let q := if decide (0 <= e) then Z.pos m * 2 ^ e else Z.pos m / 2 ^ (- e) in
      Some (cond_Zopp s q)
  | _ => None
  end.

(** [(int64_t)x], [(int32_t)x] and [(uint32_t)x]. *)
Definition d_to_s64 (x : double) : ub Z := n ← d_trunc x; if decide (is_s64 n) then Some n else None.
Definition d_to_s32 (x : double) : ub Z := n ← d_trunc x; if decide (is_s32 n) then Some n else None.
Definition d_to_u32 (x : double) : ub Z := n ← d_trunc x; if decide (is_u32 n) then Some n else None.

(** [round(x)]: to the nearest integer, halves away from zero. *)
Definition d_round (x : double) : double :=
  match x with
  | S754_finite s m e =>
      if decide (0 <= e) then x
      else
        let q := (Z.pos m + 2 ^ (- e - 1)) / 2 ^ (- e) in
        if decide (q = 0) then S754_zero s else d_of_Z (cond_Zopp s q)
  | _ => x
  end.

Example d_third : ddiv (d_of_Z 1) (d_of_Z 3) = S754_finite false 6004799503160661 (-54).
Proof. reflexivity. Qed.
Example d_round_half : d_to_s64 (d_round (d_lit (-5) 2)) = Some (-3).
Proof. reflexivity. Qed.
Example d_nan_cast : d_to_s64 (dsub d_inf d_inf) = None.
Proof. reflexivity. Qed.

(** ** Values

    The value of a finite number, scaled to an integer: every exponent below is at
    least [- scale]. *)
Definition scale : Z := 2148.
Definition sc (m e : Z) : Z := m * 2 ^ (e + scale).
#[global] Arguments sc : simpl never.

Definition d_valid (x : double) : Prop := valid_binary 53 1024 x = true.

Lemma digits_pos m : 2 ^ (Z.pos (digits2_pos m) - 1) <= Z.pos m < 2 ^ Z.pos (digits2_pos m).
Proof.
  assert (Hstep : forall d, 2 ^ Z.pos d = 2 * 2 ^ (Z.pos d - 1)).
  { intros d. rewrite <- Z.pow_succ_r by lia. f_equal. lia. }
  induction m as [m IH|m IH|]; simpl digits2_pos; try (split; reflexivity);
    rewrite Pos2Z.inj_succ; replace (Z.succ (Z.pos (digits2_pos m)) - 1) with (Z.pos (digits2_pos m)) by lia;
    rewrite Z.pow_succ_r by lia; rewrite Hstep in *; lia.
Qed.

Lemma digits_unique m d : 0 < d -> 2 ^ (d - 1) <= Z.pos m < 2 ^ d -> Z.pos (digits2_pos m) = d.
Proof.
  intros Hd Hm. pose proof (digits_pos m) as Hp.
  assert (~ Z.pos (digits2_pos m) < d).
  { intros Hlt. assert (2 ^ Z.pos (digits2_pos m) <= 2 ^ (d - 1)) by (apply Z.pow_le_mono_r; lia). lia. }
  assert (~ d < Z.pos (digits2_pos m)).
  { intros Hlt. assert (2 ^ d <= 2 ^ (Z.pos (digits2_pos m) - 1)) by (apply Z.pow_le_mono_r; lia). lia. }
  lia.
Qed.

(** What validity says of a finite number: in the grid of its binade. *)
Lemma valid_finite s m e :
  d_valid (S754_finite s m e) <->
  -1074 <= e <= 971 /\ Z.pos m < 2 ^ 53 /\ (-1074 < e -> 2 ^ 52 <= Z.pos m).
Proof.
  unfold d_valid. simpl. unfold bounded, canonical_mantissa, fexp, emin. rewrite andb_true_iff, Z.eqb_eq, Z.leb_le.
  pose proof (digits_pos m) as Hp. set (d := Z.pos (digits2_pos m)) in *.
  assert (Hd : 0 < d) by (unfold d; lia). split.
  - intros [He Hb]. split; [lia |]. assert (d <= 53) by lia. split.
    + apply Z.lt_le_trans with (2 ^ d); [lia | apply Z.pow_le_mono_r; lia].
    + intros Hlt. assert (d = 53) by lia. replace 52 with (d - 1) by lia. lia.
  - intros (He & Hm & Hn). assert (d <= 53).
    { destruct (decide (d <= 53)); [done |]. assert (2 ^ 53 <= 2 ^ (d - 1)) by (apply Z.pow_le_mono_r; lia). lia. }
    split; [| lia]. destruct (decide (-1074 < e)) as [Hlt|]; [| lia].
    assert (d = 53); [| lia]. apply digits_unique; [lia |]. change (53 - 1) with 52. lia.
Qed.

(** ** Shifting right with a location *)
Definition loc_shift (l : location) (m : Z) (n : Z) (mrs : shr_record) : Prop :=
  shr_m mrs = m / 2 ^ n /\ (l = loc_Exact -> m mod 2 ^ n = 0 -> shr_r mrs = false /\ shr_s mrs = false).

Lemma shr_1_spec l m n mrs :
  0 <= m -> 0 <= n -> loc_shift l m n mrs -> loc_shift l m (n + 1) (shr_1 mrs).
Proof.
  intros Hm Hn [Hq Hx]. destruct mrs as [q r s]. simpl in Hq, Hx.
  assert (Hp : 0 < 2 ^ n) by (apply Z.pow_pos_nonneg; lia).
  assert (Hpow : 2 ^ (n + 1) = 2 ^ n * 2) by (rewrite Z.pow_add_r by lia; lia).
  assert (Hdiv : m / 2 ^ (n + 1) = q / 2) by (rewrite Hpow, <- Z.div_div, <- Hq by lia; done).
  assert (Hmod : m mod 2 ^ (n + 1) = 0 -> m mod 2 ^ n = 0 /\ q mod 2 = 0).
  { rewrite Hpow, Z.rem_mul_r, <- Hq by lia. pose proof (Z.mod_pos_bound m (2 ^ n) Hp).
    pose proof (Z.mod_pos_bound q 2 ltac:(lia)). nia. }
  assert (Hq0 : 0 <= q) by (rewrite Hq; apply Z.div_pos; lia).
  unfold loc_shift. rewrite Hdiv. destruct q as [|[p|p|]|p]; simpl; try lia.
  - split; [done |]. intros Hl [H1 _]%Hmod. destruct (Hx Hl H1) as [-> ->]. done.
  - split; [rewrite <- (Zdiv_unique (Z.pos p~1) 2 (Z.pos p) 1) by lia; done |]. intros _ [_ H2]%Hmod. exfalso.
    rewrite <- (Zmod_unique (Z.pos p~1) 2 (Z.pos p) 1) in H2 by lia. lia.
  - split; [rewrite <- (Zdiv_unique (Z.pos p~0) 2 (Z.pos p) 0) by lia; done |]. intros Hl [H1 _]%Hmod.
    destruct (Hx Hl H1) as [-> ->]. done.
  - split; [done |]. intros _ [_ H2]%Hmod. discriminate H2.
Qed.

Lemma iter_pos_add {A} (f : A -> A) n x : SpecFloat.iter_pos f n x = Pos.iter f x n.
Proof.
  revert x. induction n as [n IH|n IH|]; intros x; simpl; rewrite ?IH; [| done | done].
  by rewrite <- !Pos.iter_swap.
Qed.

Lemma shr_spec l m e n mrs' e' :
  0 <= m -> shr (shr_record_of_loc m l) e n = (mrs', e') ->
  e' = e + Z.max 0 n /\ loc_shift l m (Z.max 0 n) mrs'.
Proof.
  intros Hm. assert (H0 : loc_shift l m 0 (shr_record_of_loc m l)).
  { split; [destruct l as [|[| |]]; simpl; by rewrite Z.div_1_r | by intros -> _]. }
  unfold shr. destruct n as [|p|p]; intros [= <- <-]; [split; [lia | done] | | split; [lia | done]].
  split; [done |]. rewrite iter_pos_add. replace (Z.max 0 (Z.pos p)) with (Z.pos p) by lia.
  generalize p. clear p. induction p as [|p IH] using Pos.peano_ind.
  - exact (shr_1_spec l m 0 _ Hm ltac:(lia) H0).
  - rewrite Pos.iter_succ, Pos2Z.inj_succ. apply (shr_1_spec l m (Z.pos p)); [done | lia | done].
Qed.

(** A location rounds down or up, and only up when it is not exact. *)
Lemma round_loc l m n mrs :
  0 <= n -> loc_shift l m n mrs ->
  let k := round_nearest_even (shr_m mrs) (loc_of_shr_record mrs) in
  k = m / 2 ^ n \/ k = m / 2 ^ n + 1 /\ (l = loc_Exact -> m mod 2 ^ n <> 0).
Proof.
  intros Hn [Hq Hx]. destruct mrs as [q r s]. simpl in *. rewrite Hq.
  destruct r, s; simpl; try destruct (Z.even _); auto;
    right; (split; [done |]); intros Hl H; destruct (Hx Hl H); done.
Qed.

(** ** The rounding core

    [mag_le x m e] and [mag_ge x m e] compare the magnitude of [x] with
    [m * 2 ^ e]. *)
Definition mag_le (x : double) (m e : Z) : Prop :=
  match x with
  | S754_zero _ => 0 <= m
  | S754_finite _ m' e' => sc (Z.pos m') e' <= sc m e
  | _ => False
  end.
Definition mag_ge (x : double) (m e : Z) : Prop :=
  match x with
  | S754_zero _ => m <= 0
  | S754_finite _ m' e' => sc m e <= sc (Z.pos m') e'
  | S754_infinity _ => True
  | S754_nan => False
  end.
Definition signed (s : bool) (x : double) : Prop :=
  match x with S754_nan => False | S754_zero s' | S754_infinity s' | S754_finite s' _ _ => s' = s end.

(** [c]: any representable magnitude, zero included. *)
Definition grid (m e : Z) : Prop := -1074 <= e <= 971 /\ 0 <= m < 2 ^ 53 /\ (-1074 < e -> 2 ^ 52 <= m \/ m = 0).

Lemma sc_split m e k : 0 <= k -> -scale <= e -> sc m (e + k) = m * 2 ^ k * 2 ^ (e + scale).
Proof.
  intros Hk He. unfold sc. replace (e + k + scale) with (k + (e + scale)) by lia.
  rewrite (Z.pow_add_r 2 k) by lia. lia.
Qed.
Lemma sc_mono e m n : -scale <= e -> m <= n <-> sc m e <= sc n e.
Proof.
  intros He. unfold sc. assert (0 < 2 ^ (e + scale)) by (apply Z.pow_pos_nonneg; lia). nia.
Qed.

Lemma pow_lt_scale m e k : -scale <= e -> 0 <= k -> m < 2 ^ k -> sc m e < 2 ^ (k + e + scale).
Proof.
  intros He Hk Hm. unfold sc. replace (k + e + scale) with (k + (e + scale)) by lia.
  rewrite (Z.pow_add_r 2 k) by lia. apply Z.mul_lt_mono_pos_r; [apply Z.pow_pos_nonneg; lia | done].
Qed.
Lemma pow_le_scale m e k : -scale <= e -> 0 <= k -> 2 ^ k <= m -> 2 ^ (k + e + scale) <= sc m e.
Proof.
  intros He Hk Hm. unfold sc. replace (k + e + scale) with (k + (e + scale)) by lia.
  rewrite (Z.pow_add_r 2 k) by lia. apply Z.mul_le_mono_nonneg_r; [apply Z.pow_nonneg; lia | done].
Qed.

(** What rounding to the grid of exponent [e0] does to [m * 2 ^ e]. *)
Section rounding.
Context (m e e0 q : Z).
Hypothesis (Hm : 0 < m) (He : -scale <= e <= e0) (He0 : -1074 <= e0).
Hypothesis (Hq : q = m / 2 ^ (e0 - e) \/ q = m / 2 ^ (e0 - e) + 1 /\ m mod 2 ^ (e0 - e) <> 0).
(** Either the bottom of the range, or a full significand. *)
Hypothesis (Hfull : e0 = -1074 \/ 2 ^ 52 <= m / 2 ^ (e0 - e)).

Lemma rounding_le mc ec : grid mc ec -> sc m e <= sc mc ec -> sc q e0 <= sc mc ec.
Proof.
  intros (Hec & Hmc & Hn) Hle. unfold scale in *. set (p := 2 ^ (e0 - e)) in *.
  assert (Hp : 0 < p) by (apply Z.pow_pos_nonneg; lia).
  pose proof (Z.div_mod m p ltac:(lia)) as Hdm. pose proof (Z.mod_pos_bound m p Hp).
  assert (Hme : sc m e = m * 2 ^ (e + 2148)) by done.
  assert (Hw : 0 < 2 ^ (e + 2148)) by (apply Z.pow_pos_nonneg; lia).
  assert (Hqe : sc q e0 = q * p * 2 ^ (e + 2148)).
  { replace e0 with (e + (e0 - e)) by lia. rewrite sc_split by (unfold scale; lia). done. }
  destruct (decide (e0 <= ec)) as [Hge|Hlt].
  - set (k := mc * 2 ^ (ec - e0)).
    assert (Hc : sc mc ec = k * p * 2 ^ (e + 2148)).
    { replace ec with (e + (ec - e)) by lia. rewrite sc_split by (unfold scale; lia). unfold k, p.
      replace (e + (ec - e)) with ec by lia. replace (ec - e) with ((ec - e0) + (e0 - e)) by lia.
      rewrite Z.pow_add_r by lia. unfold scale. lia. }
    rewrite Hqe, Hc. rewrite Hme, Hc in Hle. apply Z.mul_le_mono_nonneg_r; [lia |].
    assert (Hmk : m <= k * p) by nia. apply Z.mul_le_mono_nonneg_r; [lia |].
    destruct Hq as [->|[-> Hr]]; [apply Z.div_le_upper_bound; lia |].
    assert (m / p < k); [| lia]. apply Z.div_lt_upper_bound; [lia |]. destruct (decide (m = p * k)); [| lia].
    exfalso. apply Hr. subst m. rewrite Z.mul_comm. apply Z.mod_mul. lia.
  - exfalso. destruct Hfull as [->|Hf]; [lia |].
    assert (H1 : sc mc ec < 2 ^ (53 + ec + scale)) by (apply pow_lt_scale; unfold scale; lia).
    assert (H2 : 2 ^ (52 + e0 + scale) <= sc (m / p) e0) by (apply pow_le_scale; unfold scale; try lia; done).
    assert (H3 : 2 ^ (53 + ec + scale) <= 2 ^ (52 + e0 + scale)) by (apply Z.pow_le_mono_r; unfold scale; lia).
    assert (H4 : sc (m / p) e0 <= sc m e); [| lia].
    replace e0 with (e + (e0 - e)) at 1 by lia. rewrite sc_split by (unfold scale; lia).
    fold p. unfold sc, scale. apply Z.mul_le_mono_nonneg_r; lia.
Qed.

Lemma rounding_ge mc ec : grid mc ec -> sc mc ec <= sc m e -> sc mc ec <= sc q e0.
Proof.
  intros (Hec & Hmc & Hn) Hle. unfold scale in *. set (p := 2 ^ (e0 - e)) in *.
  assert (Hp : 0 < p) by (apply Z.pow_pos_nonneg; lia).
  pose proof (Z.div_mod m p ltac:(lia)) as Hdm. pose proof (Z.mod_pos_bound m p Hp).
  assert (Hw : 0 < 2 ^ (e + 2148)) by (apply Z.pow_pos_nonneg; lia).
  assert (Hqm : sc (m / p) e0 <= sc q e0) by (apply sc_mono; [unfold scale |]; lia).
  destruct (decide (e0 <= ec)) as [Hge|Hlt].
  - set (k := mc * 2 ^ (ec - e0)).
    assert (Hc : sc mc ec = sc k e0).
    { replace ec with (e0 + (ec - e0)) at 1 by lia. rewrite sc_split by (unfold scale; lia). done. }
    assert (Hc2 : sc mc ec = k * p * 2 ^ (e + 2148)).
    { rewrite Hc. replace e0 with (e + (e0 - e)) by lia. rewrite sc_split by (unfold scale; lia). done. }
    apply Z.le_trans with (sc (m / p) e0); [| done]. rewrite Hc. apply sc_mono; [unfold scale; lia |].
    apply Z.div_le_lower_bound; [lia |]. rewrite Hc2 in Hle. unfold sc, scale in Hle. nia.
  - destruct Hfull as [->|Hf]; [lia |].
    assert (H1 : sc mc ec < 2 ^ (53 + ec + scale)) by (apply pow_lt_scale; unfold scale; lia).
    assert (H2 : 2 ^ (52 + e0 + scale) <= sc (m / p) e0) by (apply pow_le_scale; unfold scale; try lia; done).
    assert (H3 : 2 ^ (53 + ec + scale) <= 2 ^ (52 + e0 + scale)) by (apply Z.pow_le_mono_r; unfold scale; lia).
    lia.
Qed.
End rounding.

(** An inexact significand: strictly below a number, it is not rounded above it. *)
Lemma rounding_lt m e e0 q mc ec :
  0 <= m -> -scale <= e <= e0 -> -1074 <= e0 -> (q = m / 2 ^ (e0 - e) \/ q = m / 2 ^ (e0 - e) + 1) ->
  (e0 = -1074 \/ 2 ^ 52 <= m / 2 ^ (e0 - e)) -> grid mc ec -> sc m e < sc mc ec -> sc q e0 <= sc mc ec.
Proof.
  intros Hm He He0 Hq Hfull Hg Hlt. assert (Hp : 0 < 2 ^ (e0 - e)) by (apply Z.pow_pos_nonneg; lia).
  assert (Hg1 : 0 < 2 ^ (e + scale)) by (apply Z.pow_pos_nonneg; lia).
  assert (Hge : sc (m / 2 ^ (e0 - e)) e0 <= sc m e).
  { replace e0 with (e + (e0 - e)) at 2 by lia. rewrite sc_split by lia. unfold sc.
    apply Z.mul_le_mono_nonneg_r; [lia |]. pose proof (Z.mul_div_le m _ Hp). lia. }
  destruct Hq as [->| ->]; [lia |]. destruct Hg as (Hec & Hmc & _). destruct (decide (e0 <= ec)) as [Hle|Hgt].
  - set (k := mc * 2 ^ (ec - e0)).
    assert (Hc : sc mc ec = sc k e0).
    { replace ec with (e0 + (ec - e0)) at 1 by lia. rewrite sc_split by (unfold scale in *; lia). done. }
    rewrite Hc. apply sc_mono; [unfold scale in *; lia |]. rewrite Hc in Hlt.
    assert (m / 2 ^ (e0 - e) < k); [| lia]. apply Z.div_lt_upper_bound; [done |].
    replace e0 with (e + (e0 - e)) in Hlt by lia. rewrite sc_split in Hlt by lia. unfold sc in Hlt. nia.
  - exfalso. destruct Hfull as [->|Hf]; [lia |].
    assert (sc mc ec < 2 ^ (53 + ec + scale)) by (apply pow_lt_scale; unfold scale; lia).
    assert (2 ^ (52 + e0 + scale) <= sc (m / 2 ^ (e0 - e)) e0) by (apply pow_le_scale; unfold scale in *; try lia; done).
    assert (2 ^ (53 + ec + scale) <= 2 ^ (52 + e0 + scale)) by (apply Z.pow_le_mono_r; unfold scale; lia). lia.
Qed.

Lemma fexp_eq e : fexp 53 1024 e = Z.max (e - 53) (-1074).
Proof. done. Qed.

Lemma grid_bound mc ec : grid mc ec -> sc mc ec < 2 ^ (1024 + scale).
Proof.
  intros (Hec & Hmc & _). apply Z.lt_le_trans with (2 ^ (53 + ec + scale)).
  - apply pow_lt_scale; unfold scale; lia.
  - apply Z.pow_le_mono_r; unfold scale; lia.
Qed.

(** The last step: a significand of at most 53 bits at its grid, or the overflow. *)
Definition pack (s : bool) (q e0 : Z) : double :=
  match q with
  | Z.pos m => if e0 <=? 971 then S754_finite s m e0 else S754_infinity s
  | Z0 => S754_zero s
  | Z.neg _ => S754_nan
  end.

Lemma pack_spec s q e0 :
  0 <= q < 2 ^ 53 -> -1074 <= e0 -> (e0 = -1074 \/ 2 ^ 52 <= q) ->
  d_valid (pack s q e0) /\ signed s (pack s q e0) /\
  (forall mc ec, grid mc ec -> sc q e0 <= sc mc ec -> mag_le (pack s q e0) mc ec) /\
  (forall mc ec, grid mc ec -> sc mc ec <= sc q e0 -> mag_ge (pack s q e0) mc ec).
Proof.
  intros Hq He Hn. assert (Hpos : forall mc ec, grid mc ec -> 0 < 2 ^ (ec + scale)).
  { intros mc ec (? & _). apply Z.pow_pos_nonneg; unfold scale; lia. }
  destruct q as [|m|m]; simpl; [| | lia].
  - split; [done |]. split; [done |]. split; intros mc ec Hg Hle; specialize (Hpos mc ec Hg);
      destruct Hg as (_ & ? & _); unfold sc in Hle; nia.
  - destruct (Z.leb_spec e0 971) as [Hle|Hgt].
    + split; [apply valid_finite; split_and!; lia |]. split; [done |]. split; done.
    + split; [done |]. split; [done |]. split; [| done]. intros mc ec Hg Hle. simpl.
      pose proof (grid_bound mc ec Hg). assert (2 ^ (52 + e0 + scale) <= sc (Z.pos m) e0)
        by (apply pow_le_scale; unfold scale; lia).
      assert (2 ^ (1024 + scale) <= 2 ^ (52 + e0 + scale)) by (apply Z.pow_le_mono_r; unfold scale; lia). lia.
Qed.

Lemma round_aux_pack s l m e :
  0 <= m -> -scale <= e -> e <= fexp 53 1024 (Zdigits2 m + e) ->
  exists q e0, -scale <= e <= e0 /\ -1074 <= e0 /\
    (q = m / 2 ^ (e0 - e) \/ q = m / 2 ^ (e0 - e) + 1 /\ (l = loc_Exact -> m mod 2 ^ (e0 - e) <> 0)) /\
    (e0 = -1074 \/ 2 ^ 52 <= m / 2 ^ (e0 - e)) /\ 0 <= q <= 2 ^ 53 /\
    binary_round_aux 53 1024 s m e l = if decide (q = 2 ^ 53) then pack s (2 ^ 52) (e0 + 1) else pack s q e0.
Proof.
  intros Hm He Hf. unfold binary_round_aux, shr_fexp. rewrite fexp_eq in *. set (d := Zdigits2 m) in *.
  set (e1 := Z.max (d + e - 53) (-1074)) in *.
  destruct (shr (shr_record_of_loc m l) e (e1 - e)) as [mrs e'] eqn:Es.
  destruct (shr_spec l m e (e1 - e) mrs e' Hm Es) as [-> Hl].
  replace (Z.max 0 (e1 - e)) with (e1 - e) in * by lia. replace (e + (e1 - e)) with e1 by lia.
  set (q := round_nearest_even _ _).
  assert (Hq : q = m / 2 ^ (e1 - e) \/ q = m / 2 ^ (e1 - e) + 1 /\ (l = loc_Exact -> m mod 2 ^ (e1 - e) <> 0))
    by (apply round_loc; [lia | done]).
  clearbody q. clear Es Hl.
  assert (Hp : 0 < 2 ^ (e1 - e)) by (apply Z.pow_pos_nonneg; lia).
  assert (Hd : m = 0 /\ d = 0 \/ 0 < d /\ 2 ^ (d - 1) <= m < 2 ^ d).
  { destruct m as [|pm|pm]; [by left | right | lia]. split; [done | apply digits_pos]. }
  assert (Hup : m / 2 ^ (e1 - e) < 2 ^ 53).
  { apply Z.div_lt_upper_bound; [done |]. destruct Hd as [[-> _]|[Hd0 Hd]]; [nia |]. rewrite <- Z.pow_add_r by lia.
    apply Z.lt_le_trans with (2 ^ d); [lia | apply Z.pow_le_mono_r; lia]. }
  assert (Hlow : 0 <= m / 2 ^ (e1 - e)) by (apply Z.div_pos; lia).
  assert (Hfull : e1 = -1074 \/ 2 ^ 52 <= m / 2 ^ (e1 - e)).
  { destruct (decide (e1 = -1074)); [by left | right]. destruct Hd as [[-> ->]|[Hd0 Hd]]; [lia |].
    apply Z.div_le_lower_bound; [done |].
    rewrite <- Z.pow_add_r by lia. replace (e1 - e + 52) with (d - 1) by lia. lia. }
  exists q, e1. split; [lia |]. split; [lia |]. split; [done |]. split; [done |]. split; [lia |].
  destruct (shr (shr_record_of_loc q loc_Exact) e1 (fexp 53 1024 (Zdigits2 q + e1) - e1)) as [mrs2 e2] eqn:Es2.
  destruct (shr_spec loc_Exact q e1 _ mrs2 e2 ltac:(lia) Es2) as [-> [Hm2 _]]. rewrite fexp_eq in Hm2 |- *.
  rewrite Hm2. clear Es2 Hm2. case_decide as H53.
  - rewrite H53. change (Zdigits2 (2 ^ 53)) with 54.
    replace (Z.max 0 (Z.max (54 + e1 - 53) (-1074) - e1)) with 1 by lia. done.
  - assert (Hz : Z.max 0 (Z.max (Zdigits2 q + e1 - 53) (-1074) - e1) = 0).
    { assert (Zdigits2 q <= 53); [| lia]. destruct q as [|pq|pq]; simpl; [lia | | lia].
      pose proof (digits_pos pq) as Hdq. destruct (decide (Z.pos (digits2_pos pq) <= 53)); [done |].
      assert (2 ^ 53 <= 2 ^ (Z.pos (digits2_pos pq) - 1)) by (apply Z.pow_le_mono_r; lia). lia. }
    rewrite Hz, Z.div_1_r, Z.add_0_r. done.
Qed.

(** Whatever the location, the result is valid and keeps the sign. *)
Lemma round_aux_valid s l m e :
  0 <= m -> -scale <= e -> e <= fexp 53 1024 (Zdigits2 m + e) ->
  d_valid (binary_round_aux 53 1024 s m e l) /\ signed s (binary_round_aux 53 1024 s m e l).
Proof.
  intros Hm He Hf. destruct (round_aux_pack s l m e Hm He Hf) as (q & e0 & He0 & Hb & Hq & Hfull & Hr & ->).
  case_decide as H53.
  - destruct (pack_spec s (2 ^ 52) (e0 + 1)) as (H1 & H2 & _); [done | lia | by right | done].
  - destruct (pack_spec s q e0) as (H1 & H2 & _); [lia | lia | destruct Hfull; [by left | right; lia] | done].
Qed.

Lemma round_aux_lt s l m e mc ec :
  0 <= m -> -scale <= e -> e <= fexp 53 1024 (Zdigits2 m + e) -> grid mc ec -> sc m e < sc mc ec ->
  mag_le (binary_round_aux 53 1024 s m e l) mc ec.
Proof.
  intros Hm He Hf Hg Hlt. destruct (round_aux_pack s l m e Hm He Hf) as (q & e0 & He0 & Hb & Hq & Hfull & Hr & ->).
  assert (Hle : sc q e0 <= sc mc ec)
    by (apply (rounding_lt m e); try done; destruct Hq as [?|[? _]]; auto).
  case_decide as H53.
  - destruct (pack_spec s (2 ^ 52) (e0 + 1)) as (_ & _ & H3 & _); [done | lia | by right |]. apply H3; [done |].
    rewrite sc_split by lia. by subst q.
  - destruct (pack_spec s q e0) as (_ & _ & H3 & _); [lia | lia | destruct Hfull; [by left | right; lia] |]. by apply H3.
Qed.

(** Rounding an exact value: valid, of the given sign, and on the right side of
    every representable number. *)
Definition rounds (s : bool) (m e : Z) (x : double) : Prop :=
  d_valid x /\ signed s x /\
  (forall mc ec, grid mc ec -> sc m e <= sc mc ec -> mag_le x mc ec) /\
  (forall mc ec, grid mc ec -> sc mc ec <= sc m e -> mag_ge x mc ec).

Lemma round_aux_spec s m e :
  0 < m -> -scale <= e -> e <= fexp 53 1024 (Zdigits2 m + e) ->
  rounds s m e (binary_round_aux 53 1024 s m e loc_Exact).
Proof.
  intros Hm He Hf. destruct (round_aux_pack s loc_Exact m e ltac:(lia) He Hf) as (q & e0 & He0 & Hb & Hq0 & Hfull & Hr & ->).
  assert (Hq : q = m / 2 ^ (e0 - e) \/ q = m / 2 ^ (e0 - e) + 1 /\ m mod 2 ^ (e0 - e) <> 0)
    by (destruct Hq0 as [?|[? Hx]]; [by left | right; split; [done | by apply Hx]]).
  assert (Hle : forall mc ec, grid mc ec -> sc m e <= sc mc ec -> sc q e0 <= sc mc ec)
    by (intros mc ec; by apply rounding_le).
  assert (Hge : forall mc ec, grid mc ec -> sc mc ec <= sc m e -> sc mc ec <= sc q e0)
    by (intros mc ec; by apply rounding_ge).
  case_decide as H53.
  - assert (Hsame : sc (2 ^ 52) (e0 + 1) = sc q e0) by (rewrite sc_split by lia; by subst q).
    destruct (pack_spec s (2 ^ 52) (e0 + 1)) as (H1 & H2 & H3 & H4); [done | lia | by right |].
    rewrite Hsame in *. split_and!; auto.
  - destruct (pack_spec s q e0) as (H1 & H2 & H3 & H4); [lia | lia | destruct Hfull; [by left | right; lia] |].
    split_and!; auto.
Qed.

(** ** Signed values and bounds *)
Definition dval (x : double) : Z :=
  match x with S754_finite s m e => cond_Zopp s (sc (Z.pos m) e) | _ => 0 end.

(** Finite and in its grid. *)
Definition d_num (x : double) : Prop := d_valid x /\ d_isfinite x = true.

Definition below (x : double) (v : Z) : Prop :=
  match x with S754_nan => False | S754_infinity s => s = true | _ => dval x <= v end.
Definition above (x : double) (v : Z) : Prop :=
  match x with S754_nan => False | S754_infinity s => s = false | _ => v <= dval x end.

(** [x] is the exact value [v] (scaled) rounded: on the right side of every number. *)
Definition near (v : Z) (x : double) : Prop :=
  d_valid x /\ forall c, d_num c -> (v <= dval c -> below x (dval c)) /\ (dval c <= v -> above x (dval c)).

Lemma sc_pos m e : -scale <= e -> 0 < m -> 0 < sc m e.
Proof. intros He Hm. unfold sc. pose proof (Z.pow_pos_nonneg 2 (e + scale)). nia. Qed.
Lemma sc_opp m e : sc (- m) e = - sc m e.
Proof. unfold sc. lia. Qed.
Lemma sc_cond s m e : sc (cond_Zopp s m) e = cond_Zopp s (sc m e).
Proof. destruct s; simpl; [apply sc_opp | done]. Qed.

Lemma valid_scale s m e : d_valid (S754_finite s m e) -> -scale <= e.
Proof. intros H%valid_finite. unfold scale. lia. Qed.

Lemma finite_grid s m e : d_valid (S754_finite s m e) -> grid (Z.pos m) e.
Proof. intros (He & Hm & Hn)%valid_finite. split_and!; lia. Qed.

(** The cases of a number: its sign and a magnitude of the grid. *)
Lemma num_cases c :
  d_num c -> exists s mc ec, grid mc ec /\ dval c = cond_Zopp s (sc mc ec).
Proof.
  intros [Hv Hf]. destruct c as [s|s| |s m e]; try done.
  - exists s, 0, 0. split; [| by destruct s]. split_and!; lia.
  - exists s, (Z.pos m), e. split; [by apply (finite_grid s) | done].
Qed.

Lemma rounds_near s m e x : 0 < m -> -scale <= e -> rounds s m e x -> near (cond_Zopp s (sc m e)) x.
Proof.
  intros Hm He (Hv & Hs & Hle & Hge). split; [done |]. intros c Hc.
  destruct (num_cases c Hc) as (t & mc & ec & Hg & ->). pose proof (sc_pos m e He Hm) as Hpos.
  assert (Hc0 : 0 <= sc mc ec).
  { destruct Hg as (? & ? & _). unfold sc. apply Z.mul_nonneg_nonneg; [lia | apply Z.pow_nonneg; lia]. }
  specialize (Hle mc ec Hg). specialize (Hge mc ec Hg).
  assert (Hx : forall s' m' e', x = S754_finite s' m' e' -> 0 < sc (Z.pos m') e').
  { intros s' m' e' ->. apply sc_pos; [by apply (valid_scale s' m') | lia]. }
  destruct s; simpl; destruct t; simpl; split; intros Hcmp; try (exfalso; lia);
    destruct x as [s'|s'| |s' m' e']; simpl in *; subst; simpl; try done; try (specialize (Hx _ _ _ eq_refl)); try lia;
    try (specialize (Hle ltac:(lia))); try (specialize (Hge ltac:(lia))); try done; try lia.
  all: try (destruct Hg as (? & ? & _); unfold sc in *; pose proof (Z.pow_nonneg 2 (ec + scale)); nia).
Qed.

Lemma binary_round_spec s m e :
  -scale <= e -> rounds s (Z.pos m) e (binary_round 53 1024 s m e).
Proof.
  intros He. unfold binary_round, shl_align. rewrite fexp_eq. set (d := Z.pos (digits2_pos m)).
  pose proof (digits_pos m) as Hd. fold d in Hd. assert (Hd0 : 0 < d) by (unfold d; lia).
  set (f := Z.max (d + e - 53) (-1074)). destruct (f - e) as [|k|k] eqn:Ek.
  - apply round_aux_spec; [lia | done |]. rewrite fexp_eq. simpl. fold d. lia.
  - apply round_aux_spec; [lia | done |]. rewrite fexp_eq. simpl. fold d. lia.
  - assert (Hm : Z.pos (Pos.iter xO m k) = Z.pos m * 2 ^ Z.pos k).
    { clear. induction k as [|k IH] using Pos.peano_ind; [simpl; lia |].
      rewrite Pos.iter_succ, Pos2Z.inj_xO, IH, Pos2Z.inj_succ, Z.pow_succ_r by lia. lia. }
    assert (Hsc : sc (Z.pos (Pos.iter xO m k)) f = sc (Z.pos m) e).
    { rewrite Hm. replace e with (f + Z.pos k) by lia. rewrite sc_split by (unfold scale in *; lia). unfold sc. lia. }
    destruct (round_aux_spec s (Z.pos (Pos.iter xO m k)) f) as (H1 & H2 & H3 & H4).
    + lia.
    + unfold scale. lia.
    + assert (Hdig : Zdigits2 (Z.pos (Pos.iter xO m k)) = d + Z.pos k).
      { apply digits_unique; [lia |]. rewrite Hm. replace (d + Z.pos k - 1) with (d - 1 + Z.pos k) by lia.
        rewrite !Z.pow_add_r by lia. pose proof (Z.pow_pos_nonneg 2 (Z.pos k)). nia. }
      rewrite Hdig, fexp_eq. lia.
    + rewrite Hsc in H3, H4. by split_and!.
Qed.

(** Rounding a signed integer multiple of [2 ^ e]. *)
Lemma normalize_near n e sz : -scale <= e -> near (sc n e) (binary_normalize 53 1024 n e sz).
Proof.
  intros He. destruct n as [|m|m]; simpl.
  - split; [done |]. intros c _. split; intros H; simpl; unfold sc in H; lia.
  - apply (rounds_near false (Z.pos m) e); [lia | done | by apply binary_round_spec].
  - change (sc (Z.neg m) e) with (sc (- Z.pos m) e). rewrite sc_opp.
    apply (rounds_near true (Z.pos m) e); [lia | done | by apply binary_round_spec].
Qed.

(** A value that is a number is kept. *)
Lemma near_exact c : d_num c -> near (dval c) c.
Proof.
  intros [Hv Hf]. split; [done |]. intros c' _. destruct c as [s|s| |s m e]; try done; split; intros H; exact H.
Qed.

Lemma near_between v x lo hi :
  near v x -> d_num lo -> d_num hi -> dval lo <= v <= dval hi -> d_num x /\ dval lo <= dval x <= dval hi.
Proof.
  intros [Hv Hn] Hlo Hhi Hb. destruct (Hn hi Hhi) as [H1 _]. destruct (Hn lo Hlo) as [_ H2].
  specialize (H1 ltac:(lia)). specialize (H2 ltac:(lia)).
  destruct x as [s|s| |s m e]; simpl in H1, H2; try done; by subst.
Qed.

Lemma near_num v x c : near v x -> d_num c -> v = dval c -> d_num x /\ dval x = v.
Proof.
  intros Hn Hc ->. destruct (near_between _ x c c Hn Hc Hc ltac:(lia)) as [? ?]. split; [done | lia].
Qed.

Lemma dval_opp x : dval (SFopp x) = - dval x.
Proof. destruct x as [s|s| |s m e]; simpl; try done. destruct s; simpl; lia. Qed.
Lemma num_opp x : d_num x -> d_num (SFopp x).
Proof. intros [Hv Hf]. by destruct x. Qed.

Lemma align_value s m e ez :
  -scale <= ez <= e -> sc (cond_Zopp s (Z.pos (fst (shl_align m e ez)))) ez = cond_Zopp s (sc (Z.pos m) e).
Proof.
  intros He. rewrite sc_cond. f_equal. unfold shl_align. destruct (ez - e) as [|k|k] eqn:Ek; simpl.
  - f_equal. lia.
  - lia.
  - assert (Hm : Z.pos (Pos.iter xO m k) = Z.pos m * 2 ^ Z.pos k).
    { clear. induction k as [|k IH] using Pos.peano_ind; [simpl; lia |].
      rewrite Pos.iter_succ, Pos2Z.inj_xO, IH, Pos2Z.inj_succ, Z.pow_succ_r by lia. lia. }
    rewrite Hm. replace e with (ez + Z.pos k) by lia. rewrite sc_split by lia. unfold sc. lia.
Qed.

Lemma dadd_near x y : d_num x -> d_num y -> near (dval x + dval y) (dadd x y).
Proof.
  intros Hx Hy. pose proof (near_exact x Hx) as Ex. pose proof (near_exact y Hy) as Ey.
  destruct Hx as [Vx Fx], Hy as [Vy Fy].
  destruct x as [sx|sx| |sx mx ex]; try done; destruct y as [sy|sy| |sy my ey]; try done.
  - replace (dval (S754_zero sx) + dval (S754_zero sy)) with 0 by done. destruct sx, sy; apply (near_exact (S754_zero _)); done.
  - rewrite Z.add_0_r. exact Ex.
  - pose proof (valid_scale _ _ _ Vx). pose proof (valid_scale _ _ _ Vy).
    simpl. rewrite <- (align_value sx mx ex (Z.min ex ey)), <- (align_value sy my ey (Z.min ex ey)) by lia.
    unfold sc. rewrite <- Z.mul_add_distr_r. apply normalize_near. lia.
Qed.

Lemma dsub_near x y : d_num x -> d_num y -> near (dval x - dval y) (dsub x y).
Proof.
  intros Hx Hy. pose proof (near_exact x Hx) as Ex. pose proof (near_exact _ (num_opp y Hy)) as Ey.
  rewrite dval_opp in Ey. destruct Hx as [Vx Fx], Hy as [Vy Fy].
  destruct x as [sx|sx| |sx mx ex]; try done; destruct y as [sy|sy| |sy my ey]; try done.
  - replace (dval (S754_zero sx) - dval (S754_zero sy)) with 0 by done. destruct sx, sy; apply (near_exact (S754_zero _)); done.
  - rewrite Z.sub_0_r. exact Ex.
  - pose proof (valid_scale _ _ _ Vx). pose proof (valid_scale _ _ _ Vy).
    simpl. rewrite <- (align_value sx mx ex (Z.min ex ey)), <- (align_value sy my ey (Z.min ex ey)) by lia.
    unfold sc. rewrite <- Z.mul_sub_distr_r. apply normalize_near. lia.
Qed.

(** The product of two values carries the scale twice. *)
Lemma dmul_near x y v :
  d_num x -> d_num y -> dval x * dval y = v * 2 ^ scale -> near v (dmul x y).
Proof.
  intros [Vx Fx] [Vy Fy] Hv. assert (Hp : 0 < 2 ^ scale) by (apply Z.pow_pos_nonneg; unfold scale; lia).
  destruct x as [sx|sx| |sx mx ex]; try done; destruct y as [sy|sy| |sy my ey]; try done;
    try (assert (v = 0) as -> by (simpl in Hv; rewrite ?Z.mul_0_r in Hv; nia); apply (near_exact (S754_zero _)); done).
  apply valid_finite in Vx as (Hex & Hmx & Hnx). apply valid_finite in Vy as (Hey & Hmy & Hny).
  simpl. assert (Hval : v = cond_Zopp (xorb sx sy) (sc (Z.pos (mx * my)) (ex + ey))).
  { apply (Z.mul_reg_r _ _ (2 ^ scale)); [lia |]. rewrite <- Hv. simpl. rewrite Pos2Z.inj_mul.
    assert (Hs : sc (Z.pos mx) ex * sc (Z.pos my) ey = sc (Z.pos mx * Z.pos my) (ex + ey) * 2 ^ scale).
    { unfold sc. replace (ex + ey + scale + scale) with ((ex + scale) + (ey + scale)) by lia.
      rewrite <- (Z.mul_assoc (Z.pos mx * Z.pos my)), <- Z.pow_add_r by (unfold scale; lia).
      replace (ex + ey + scale + scale) with ((ex + scale) + (ey + scale)) by lia.
      rewrite (Z.pow_add_r 2 (ex + scale)) by (unfold scale; lia). ring. }
    destruct sx, sy; simpl; rewrite <- ?Hs; lia. }
  rewrite Hval. apply rounds_near; [lia | unfold scale; lia |]. apply round_aux_spec; [lia | unfold scale; lia |].
  rewrite fexp_eq. simpl Zdigits2. pose proof (digits_pos (mx * my)) as Hd. set (d := Z.pos (digits2_pos (mx * my))) in *.
  assert (Hd0 : 0 < d) by (unfold d; lia).
  assert (Hbig : 2 ^ 52 <= Z.pos (mx * my) -> 53 <= d).
  { intros Hb. destruct (decide (53 <= d)); [done |]. assert (2 ^ d <= 2 ^ 52) by (apply Z.pow_le_mono_r; lia). lia. }
  rewrite Pos2Z.inj_mul in Hbig.
  destruct (decide (-1074 < ex)) as [H1|]; [specialize (Hnx H1); specialize (Hbig ltac:(nia)); lia |].
  destruct (decide (-1074 < ey)) as [H1|]; [specialize (Hny H1); specialize (Hbig ltac:(nia)); lia | lia].
Qed.

Lemma dmul_value x y : d_num x -> d_num y -> exists v, dval x * dval y = v * 2 ^ scale /\ near v (dmul x y).
Proof.
  intros Hx Hy. assert (Hv : exists v, dval x * dval y = v * 2 ^ scale).
  { destruct Hx as [Vx Fx], Hy as [Vy Fy].
    destruct x as [sx|sx| |sx mx ex]; try done; destruct y as [sy|sy| |sy my ey]; try done; simpl;
      try (exists 0; lia).
    apply valid_finite in Vx as (Hex & _). apply valid_finite in Vy as (Hey & _).
    exists (cond_Zopp (xorb sx sy) (Z.pos mx * Z.pos my * 2 ^ (ex + ey + scale))).
    assert (Hs : sc (Z.pos mx) ex * sc (Z.pos my) ey = Z.pos mx * Z.pos my * 2 ^ (ex + ey + scale) * 2 ^ scale).
    { unfold sc. rewrite <- (Z.mul_assoc (Z.pos mx * Z.pos my)), <- Z.pow_add_r by (unfold scale; lia).
      replace (ex + ey + scale + scale) with ((ex + scale) + (ey + scale)) by lia.
      rewrite (Z.pow_add_r 2 (ex + scale)) by (unfold scale; lia). ring. }
    destruct sx, sy; simpl; lia. }
  destruct Hv as [v Hv]. exists v. split; [done | by apply dmul_near].
Qed.

(** A quotient is a rounded significand with a location. *)
Lemma div_core s s' mx ex my ey :
  d_valid (S754_finite s mx ex) -> d_valid (S754_finite s' my ey) ->
  exists q e l, ddiv (S754_finite s mx ex) (S754_finite s' my ey) = binary_round_aux 53 1024 (xorb s s') q e l /\
    0 <= q /\ -scale <= e /\ e <= fexp 53 1024 (Zdigits2 q + e) /\
    sc q e * sc (Z.pos my) ey <= sc (Z.pos mx) ex * 2 ^ scale.
Proof.
  intros (Hex & Hmx & _)%valid_finite (Hey & Hmy & _)%valid_finite.
  unfold ddiv. cbn [SFdiv]. unfold SFdiv_core_binary. rewrite fexp_eq. simpl Zdigits2.
  pose proof (digits_pos mx) as Hdx. pose proof (digits_pos my) as Hdy.
  set (d1 := Z.pos (digits2_pos mx)) in *. set (d2 := Z.pos (digits2_pos my)) in *.
  assert (Hpos : 0 < d1 /\ 0 < d2) by (unfold d1, d2; lia).
  set (e' := Z.min (Z.max (d1 + ex - (d2 + ey) - 53) (-1074)) (ex - ey)). set (k := ex - ey - e').
  assert (Hs : 0 <= k) by lia.
  set (m' := match k with Z0 => Z.pos mx | Zpos _ => Z.shiftl (Z.pos mx) k | Zneg _ => 0 end).
  assert (Hm' : m' = Z.pos mx * 2 ^ k).
  { unfold m'. destruct k as [|p|p]; [lia | apply Z.shiftl_mul_pow2; lia | lia]. }
  pose proof (Z_div_mod m' (Z.pos my) ltac:(lia)) as Hdm. destruct (Z.div_eucl m' (Z.pos my)) as [q r].
  destruct Hdm as [Heq Hr]. assert (Hps : 0 < 2 ^ k) by (apply Z.pow_pos_nonneg; lia).
  assert (Hq0 : 0 <= q) by nia.
  assert (Hdig : d1 + k - d2 <= Zdigits2 q).
  { destruct (decide (d1 + k - d2 <= 0)) as [Hle|Hgt]; [destruct q; simpl; lia |].
    assert (Hlow : 2 ^ (d1 + k - d2 - 1) <= q).
    { assert (Hprod : 2 ^ (d1 + k - d2 - 1) * 2 ^ d2 = 2 ^ (d1 - 1) * 2 ^ k) by (rewrite <- !Z.pow_add_r by lia; f_equal; lia).
      pose proof (Z.pow_pos_nonneg 2 (d1 + k - d2 - 1) ltac:(lia) ltac:(lia)). nia. }
    destruct q as [|pq|pq]; [pose proof (Z.pow_pos_nonneg 2 (d1 + k - d2 - 1) ltac:(lia) ltac:(lia)); lia | | lia].
    simpl. pose proof (digits_pos pq) as Hdq. destruct (decide (d1 + k - d2 <= Z.pos (digits2_pos pq))); [done |].
    assert (2 ^ Z.pos (digits2_pos pq) <= 2 ^ (d1 + k - d2 - 1)) by (apply Z.pow_le_mono_r; lia). lia. }
  exists q, e', (new_location (Z.pos my) r). split; [done |]. split; [done |]. split; [unfold scale; lia |].
  split; [rewrite fexp_eq; lia |]. unfold sc.
  assert (Hpow : 2 ^ k * 2 ^ (ey + scale) * 2 ^ (e' + scale) = 2 ^ (ex + scale) * 2 ^ scale)
    by (rewrite <- !Z.pow_add_r by (unfold scale; lia); f_equal; lia).
  assert (0 < 2 ^ (ey + scale)) by (apply Z.pow_pos_nonneg; unfold scale; lia).
  assert (0 < 2 ^ (e' + scale)) by (apply Z.pow_pos_nonneg; unfold scale; lia).
  transitivity (q * Z.pos my * (2 ^ (ey + scale) * 2 ^ (e' + scale))); [lia |].
  transitivity (Z.pos mx * 2 ^ k * (2 ^ (ey + scale) * 2 ^ (e' + scale))).
  - apply Z.mul_le_mono_nonneg_r; nia.
  - rewrite <- !Z.mul_assoc, <- Hpow. lia.
Qed.

(** The quotient of numbers by a nonzero one is never NaN. *)
Lemma ddiv_valid x y :
  d_num x -> d_num y -> dval y <> 0 -> d_valid (ddiv x y) /\ ddiv x y <> S754_nan.
Proof.
  intros [Vx Fx] [Vy Fy] Hy.
  destruct x as [sx|sx| |sx mx ex]; try done; destruct y as [sy|sy| |sy my ey]; try done.
  destruct (div_core sx sy mx ex my ey Vx Vy) as (q & e & l & -> & Hq & He & Hf & _).
  destruct (round_aux_valid (xorb sx sy) l q e Hq He Hf) as [H1 H2]. split; [done |]. intros Hn. by rewrite Hn in H2.
Qed.

(** A division by 2 or more does not overflow. *)
Lemma ddiv_shrinks x y :
  d_num x -> d_num y -> 2 * 2 ^ scale <= dval y ->
  d_num (ddiv x y) /\ Z.abs (dval (ddiv x y)) <= Z.abs (dval x) /\ (0 <= dval x -> 0 <= dval (ddiv x y)).
Proof.
  intros [Vx Fx] [Vy Fy] Hy. assert (Hw : 0 < 2 ^ scale) by (apply Z.pow_pos_nonneg; unfold scale; lia).
  destruct y as [sy|sy| |sy my ey]; try done; cbn [dval] in Hy; try lia.
  pose proof (sc_pos (Z.pos my) ey (valid_scale _ _ _ Vy) ltac:(lia)) as Hmy.
  destruct sy; cbn [cond_Zopp] in Hy; [lia |].
  destruct x as [sx|sx| |sx mx ex]; try done.
  destruct (div_core sx false mx ex my ey Vx Vy) as (q & e & l & -> & Hq & He & Hf & Hle).
  pose proof (sc_pos (Z.pos mx) ex (valid_scale _ _ _ Vx) ltac:(lia)) as Hmx.
  assert (Hlt : sc q e < sc (Z.pos mx) ex).
  { assert (0 <= sc q e) by (unfold sc; pose proof (Z.pow_nonneg 2 (e + scale)); nia). nia. }
  destruct (round_aux_valid (xorb sx false) l q e Hq He Hf) as [H1 H2].
  pose proof (round_aux_lt (xorb sx false) l q e _ _ Hq He Hf (finite_grid _ _ _ Vx) Hlt) as H3.
  set (z := binary_round_aux _ _ _ _ _ _) in *. split; [by destruct z |].
  destruct z as [s|s| |s m f]; cbn [dval mag_le signed] in *; try done; subst;
    [destruct sx; cbn; lia |].
  pose proof (sc_pos (Z.pos m) f (valid_scale _ _ _ H1) ltac:(lia)). destruct sx; cbn [xorb cond_Zopp] in *; lia.
Qed.

(** ** Comparison *)
Lemma sc_compare s m e s' m' e' :
  d_valid (S754_finite s m e) -> d_valid (S754_finite s' m' e') ->
  (sc (Z.pos m) e ?= sc (Z.pos m') e') =
    match Z.compare e e' with Lt => Lt | Gt => Gt | Eq => Pos.compare_cont Eq m m' end.
Proof.
  intros (He & Hm & Hn)%valid_finite (He' & Hm' & Hn')%valid_finite.
  assert (Hcmp : forall a ea b eb, -1074 <= ea < eb -> 0 < a < 2 ^ 53 -> 2 ^ 52 <= b -> sc a ea < sc b eb).
  { intros a ea b eb Hlt Ha Hb. apply Z.lt_le_trans with (2 ^ (53 + ea + scale)).
    - apply pow_lt_scale; unfold scale; lia.
    - apply Z.le_trans with (2 ^ (52 + eb + scale)).
      + apply Z.pow_le_mono_r; unfold scale; lia.
      + apply pow_le_scale; unfold scale; lia. }
  destruct (Z.compare_spec e e') as [->|Hlt|Hgt].
  - change (Pos.compare_cont Eq m m') with (Z.pos m ?= Z.pos m').
    unfold sc. assert (0 < 2 ^ (e' + scale)) by (apply Z.pow_pos_nonneg; unfold scale; lia).
    by rewrite <- Zmult_compare_compat_r by lia.
  - apply Z.compare_lt_iff. apply Hcmp; lia.
  - apply Z.compare_gt_iff. apply Hcmp; lia.
Qed.

Lemma compare_val x y : d_num x -> d_num y -> SFcompare x y = Some (dval x ?= dval y).
Proof.
  intros [Vx Fx] [Vy Fy].
  destruct x as [sx|sx| |sx mx ex]; try done; destruct y as [sy|sy| |sy my ey]; try done; cbn [SFcompare dval].
  - pose proof (sc_pos (Z.pos my) ey (valid_scale _ _ _ Vy) ltac:(lia)). f_equal. symmetry.
    destruct sy; cbn [cond_Zopp]; [apply Z.compare_gt_iff | apply Z.compare_lt_iff]; lia.
  - pose proof (sc_pos (Z.pos mx) ex (valid_scale _ _ _ Vx) ltac:(lia)). f_equal. symmetry.
    destruct sx; cbn [cond_Zopp]; [apply Z.compare_lt_iff | apply Z.compare_gt_iff]; lia.
  - pose proof (sc_pos (Z.pos mx) ex (valid_scale _ _ _ Vx) ltac:(lia)).
    pose proof (sc_pos (Z.pos my) ey (valid_scale _ _ _ Vy) ltac:(lia)).
    pose proof (sc_compare sx mx ex sy my ey Vx Vy) as Hc. f_equal.
    destruct sx, sy; cbn [cond_Zopp].
    + rewrite Z.compare_opp, (Z.compare_antisym (sc (Z.pos mx) ex)), Hc. by destruct (ex ?= ey).
    + symmetry. apply Z.compare_lt_iff. lia.
    + symmetry. apply Z.compare_gt_iff. lia.
    + by rewrite Hc.
Qed.

Lemma dlt_val x y : d_num x -> d_num y -> dlt x y = bool_decide (dval x < dval y).
Proof.
  intros Hx Hy. unfold dlt, SFltb. rewrite (compare_val x y Hx Hy). destruct (Z.compare_spec (dval x) (dval y));
    [rewrite bool_decide_eq_false_2 by lia | rewrite bool_decide_eq_true_2 by lia | rewrite bool_decide_eq_false_2 by lia]; done.
Qed.
Lemma dle_val x y : d_num x -> d_num y -> dle x y = bool_decide (dval x <= dval y).
Proof.
  intros Hx Hy. unfold dle, SFleb. rewrite (compare_val x y Hx Hy). destruct (Z.compare_spec (dval x) (dval y));
    [rewrite bool_decide_eq_true_2 by lia | rewrite bool_decide_eq_true_2 by lia | rewrite bool_decide_eq_false_2 by lia]; done.
Qed.

(** ** Integers *)
Lemma int_num n : - 2 ^ 53 < n < 2 ^ 53 -> d_num (d_of_Z n) /\ dval (d_of_Z n) = n * 2 ^ scale.
Proof.
  intros Hn. pose proof (normalize_near n 0 false ltac:(unfold scale; lia)) as Hnear.
  change (sc n 0) with (n * 2 ^ scale) in Hnear. fold (d_of_Z n) in Hnear.
  assert (Hc : exists c, d_num c /\ dval c = n * 2 ^ scale).
  { destruct (decide (n = 0)) as [->|H0]; [by exists d_zero |].
    assert (Hp : exists p s, n = cond_Zopp s (Z.pos p)) by (destruct n as [|p|p]; [done | by exists p, false | by exists p, true]).
    destruct Hp as (p & s & Hp). pose proof (digits_pos p) as Hd. set (d := Z.pos (digits2_pos p)) in *.
    assert (Hd0 : 0 < d <= 53).
    { split; [unfold d; lia |]. destruct (decide (d <= 53)); [done |].
      assert (2 ^ 53 <= 2 ^ (d - 1)) by (apply Z.pow_le_mono_r; lia). destruct s; simpl in Hp; lia. }
    assert (Hpow : 0 < 2 ^ (53 - d)) by (apply Z.pow_pos_nonneg; lia).
    assert (Hm : exists m, Z.pos m = Z.pos p * 2 ^ (53 - d)).
    { exists (Z.to_pos (Z.pos p * 2 ^ (53 - d))). rewrite Z2Pos.id; nia. }
    destruct Hm as [m Hm]. exists (S754_finite s m (d - 53)). split.
    - split; [| done]. apply valid_finite. split; [lia |]. rewrite Hm.
      assert (2 ^ 53 = 2 ^ d * 2 ^ (53 - d)) by (rewrite <- Z.pow_add_r by lia; f_equal; lia).
      assert (2 ^ 52 = 2 ^ (d - 1) * 2 ^ (53 - d)) by (rewrite <- Z.pow_add_r by lia; f_equal; lia).
      split; [nia | intros _; nia].
    - simpl. rewrite Hm, Hp. unfold sc. rewrite <- Z.mul_assoc, <- Z.pow_add_r by (unfold scale; lia).
      replace (53 - d + (d - 53 + scale)) with scale by lia. by destruct s; simpl; rewrite ?Z.mul_opp_l. }
  destruct Hc as (c & Hc & Hv). by apply (near_num _ _ c).
Qed.

Lemma trunc_val x : d_num x -> d_trunc x = Some (Z.quot (dval x) (2 ^ scale)).
Proof.
  intros [Vx Fx]. destruct x as [s|s| |s m e]; try done; cbn [d_trunc dval].
  apply valid_finite in Vx as (He & _). f_equal.
  assert (Hq : (if decide (0 <= e) then Z.pos m * 2 ^ e else Z.pos m / 2 ^ (- e)) = sc (Z.pos m) e / 2 ^ scale).
  { unfold sc. case_decide.
    - rewrite Z.pow_add_r, Z.mul_assoc, Z.div_mul by (unfold scale; lia). done.
    - replace (2 ^ scale) with (2 ^ (- e) * 2 ^ (e + scale)) by (rewrite <- Z.pow_add_r by (unfold scale; lia); f_equal; lia).
      rewrite Z.div_mul_cancel_r; [done | |]; apply Z.pow_nonzero; unfold scale; lia. }
  rewrite Hq. pose proof (sc_pos (Z.pos m) e ltac:(unfold scale; lia) ltac:(lia)).
  assert (0 < 2 ^ scale) by (apply Z.pow_pos_nonneg; unfold scale; lia).
  destruct s; cbn [cond_Zopp].
  - rewrite Z.quot_opp_l, Z.quot_div_nonneg by lia. done.
  - rewrite Z.quot_div_nonneg by lia. done.
Qed.

(** A truncation lies between the integers that bound the number. *)
Lemma trunc_between x lo hi :
  d_num x -> lo <= 0 <= hi -> lo * 2 ^ scale <= dval x <= hi * 2 ^ scale ->
  exists n, d_trunc x = Some n /\ lo <= n <= hi /\ n * 2 ^ scale - 2 ^ scale < dval x < n * 2 ^ scale + 2 ^ scale /\
    (0 <= dval x -> 0 <= n /\ n * 2 ^ scale <= dval x).
Proof.
  intros Hx Hb Hv. rewrite (trunc_val x Hx). eexists. split; [done |].
  assert (Hp : 0 < 2 ^ scale) by (apply Z.pow_pos_nonneg; unfold scale; lia). generalize dependent (2 ^ scale). intros w.
  intros. split; [split; [apply Z.quot_le_lower_bound | apply Z.quot_le_upper_bound]; lia |].
  pose proof (Z.quot_rem' (dval x) w). pose proof (Z.rem_bound_abs (dval x) w ltac:(lia)). split; [lia |].
  intros Hd. split; [by apply Z.quot_pos |]. pose proof (Z.rem_bound_pos (dval x) w Hd Hp). lia.
Qed.

(** ** Conversions that are defined *)
Lemma near_valid v x : near v x -> d_valid x /\ x <> S754_nan.
Proof.
  intros [Hv Hn]. split; [done |]. intros ->. destruct (Hn d_zero) as [H1 H2]; [done |].
  change (dval d_zero) with 0 in *. destruct (decide (v <= 0)); [by apply H1 | apply H2; lia].
Qed.

Lemma round_valid x : d_valid x -> x <> S754_nan -> d_valid (d_round x) /\ d_round x <> S754_nan.
Proof.
  intros Hv Hn. destruct x as [s|s| |s m e]; try done. simpl. case_decide; [done |]. case_decide; [done |].
  apply (near_valid (sc (cond_Zopp s ((Z.pos m + 2 ^ (- e - 1)) / 2 ^ (- e))) 0)), normalize_near. unfold scale. lia.
Qed.

(** A number that passed the comparisons with the bounds of [int64_t] fits. *)
Lemma cast_s64 x :
  d_valid x -> x <> S754_nan -> dle (d_of_Z INT64_MAX) x = false -> dlt x (d_of_Z INT64_MIN) = false ->
  exists n, d_to_s64 x = Some n /\ is_s64 n.
Proof.
  intros Hv Hn Hhi Hlo.
  assert (Hx : d_num x).
  { destruct x as [s|[|]| |s m e]; done. }
  assert (Hb : d_num (d_of_Z INT64_MAX) /\ d_num (d_of_Z INT64_MIN)) by (split; split; vm_compute; done).
  destruct Hb as [Hb1 Hb2]. rewrite dle_val in Hhi by done. rewrite dlt_val in Hlo by done.
  apply bool_decide_eq_false in Hhi, Hlo.
  assert (Hw : 0 < 2 ^ scale) by (apply Z.pow_pos_nonneg; unfold scale; lia).
  assert (Hmax : dval (d_of_Z INT64_MAX) = 9223372036854775808 * 2 ^ scale) by (vm_compute; reflexivity).
  assert (Hmin : dval (d_of_Z INT64_MIN) = -9223372036854775808 * 2 ^ scale) by (vm_compute; reflexivity).
  rewrite Hmax in Hhi. rewrite Hmin in Hlo.
  destruct (trunc_between x (-9223372036854775808) 9223372036854775808 Hx) as (n & Hr & Hn1 & Hn2 & Hn3); [lia | lia |].
  exists n. unfold d_to_s64. rewrite Hr. simpl. assert (is_s64 n) by (unfold is_s64; clear Hmax Hmin Hr; generalize dependent (2 ^ scale); intros; destruct (decide (0 <= dval x)); nia).
  by rewrite decide_True by done.
Qed.

(** ** Every operation yields a [double] from [double]s *)
Lemma valid_cases x : d_valid x -> d_num x \/ d_isfinite x = false.
Proof. intros Hv. destruct (d_isfinite x) eqn:E; [left; by split | by right]. Qed.

Ltac closed_op Hx Hy num :=
  destruct (valid_cases _ Hx) as [Nx|Nx]; [destruct (valid_cases _ Hy) as [Ny|Ny]; [num Nx Ny |] |];
  match goal with
  | |- d_valid (_ ?x ?y) =>
      destruct x as [[]|[]| |[] ? ?]; try discriminate; destruct y as [[]|[]| |[] ? ?]; try discriminate; exact eq_refl
  end.

Lemma dadd_closed x y : d_valid x -> d_valid y -> d_valid (dadd x y).
Proof. intros Hx Hy. closed_op Hx Hy ltac:(fun Nx Ny => by apply (near_valid _ _ (dadd_near x y Nx Ny))). Qed.
Lemma dsub_closed x y : d_valid x -> d_valid y -> d_valid (dsub x y).
Proof. intros Hx Hy. closed_op Hx Hy ltac:(fun Nx Ny => by apply (near_valid _ _ (dsub_near x y Nx Ny))). Qed.
Lemma dmul_closed x y : d_valid x -> d_valid y -> d_valid (dmul x y).
Proof.
  intros Hx Hy. closed_op Hx Hy ltac:(fun Nx Ny =>
    destruct (dmul_value x y Nx Ny) as (v & _ & Hn); by apply (near_valid _ _ Hn)).
Qed.
Lemma ddiv_by_zero x y : d_num x -> d_num y -> dval y = 0 -> d_valid (ddiv x y).
Proof.
  intros [_ Fx] [Vy Fy] Hz. destruct y as [[]|[]| |s m e]; try discriminate;
    [destruct x as [[]|[]| |[] ? ?]; try discriminate; exact eq_refl .. |].
  exfalso. pose proof (sc_pos (Z.pos m) e (valid_scale _ _ _ Vy) ltac:(lia)). destruct s; simpl in Hz; lia.
Qed.
Lemma ddiv_closed x y : d_valid x -> d_valid y -> d_valid (ddiv x y).
Proof.
  intros Hx Hy. closed_op Hx Hy ltac:(fun Nx Ny => destruct (decide (dval y = 0)) as [Hz|Hz];
    [by apply ddiv_by_zero | by apply (ddiv_valid x y Nx Ny Hz)]).
Qed.

(** A rounded product with a number is a number when it is finite. *)
Lemma round_product v c :
  d_valid v -> d_num c -> d_isfinite (d_round (dmul v c)) = true -> d_num (d_round (dmul v c)).
Proof.
  intros Hv Hc Hf. split; [| done]. destruct (valid_cases v Hv) as [Hn|Hn].
  - destruct (dmul_value v c Hn Hc) as (p & _ & Hnear). destruct (near_valid _ _ Hnear). by apply round_valid.
  - destruct Hc as [Vc Fc]. by destruct v as [[]|[]| |[] ? ?]; destruct c as [[]|[]| |[] ? ?].
Qed.

(** Products and powers of two never take part: only their bounds are used. *)
#[global] Opaque dadd dsub dmul ddiv dsqrt d_of_Z.
