(* ===== verification/Dsp.v ===== *)
(** Fixed-point signal processing and the built-in nodes: [core/eaf_dsp.c],
    [include/eaf/eaf_dsp.h].  Signed 64-bit arithmetic is checked: an overflow is
    undefined behaviour ([None]). *)

From S2P Require Import Prelude Types Float.

Definition EAF_EQ_MAX_BANDS : Z := 8.

Record eaf_biquad_coeff_t := BiquadCoeff { b0 : Z; b1 : Z; b2 : Z; a1 : Z; a2 : Z }.
Record eaf_biquad_state_t := BiquadState { x1 : Z; x2 : Z; y1 : Z; y2 : Z }.
#[export] Instance biquad_state_inhabited : Inhabited eaf_biquad_state_t := populate (BiquadState 0 0 0 0).
#[export] Instance biquad_coeff_inhabited : Inhabited eaf_biquad_coeff_t := populate (BiquadCoeff 0 0 0 0 0).

Record eaf_volume_ctx_t := VolumeCtx { gain : list Z (* int32_t gain[EAF_MAX_CHANNELS] *) }.
Record eaf_eq_ctx_t := EqCtx {
  bands : Z;
  coeff : list eaf_biquad_coeff_t;          (* [EAF_EQ_MAX_BANDS] *)
  eq_state : list (list eaf_biquad_state_t) (* [EAF_MAX_CHANNELS][EAF_EQ_MAX_BANDS] *)
}.
Record eaf_crossover_2_1_ctx_t := CrossoverCtx {
  lp : eaf_biquad_coeff_t;
  hp : eaf_biquad_coeff_t;
  frequency_hz : double;
  low : list eaf_biquad_state_t;            (* [2] *)
  high : list (list eaf_biquad_state_t)     (* [2][2] *)
}.

(** ** Arithmetic *)

Definition chk64 (x : Z) : ub Z := if decide (is_s64 x) then Some x else None.

Definition sat (x : Z) : Z :=
  if decide (INT32_MAX < x) then INT32_MAX else if decide (x < INT32_MIN) then INT32_MIN else s32 x.

Definition eaf_q31_multiply (sample gain : Z) : ub Z :=
  if decide (gain = INT32_MAX) then Some sample
  else p ← chk64 (sample * gain); Some (sat (Z.quot p 2147483648)).

(** [gain << 15] on a signed [int32_t]: undefined when it does not fit. *)
Definition eaf_q16_multiply (sample gain : Z) : ub Z :=
  if decide (65536 <= gain) then Some sample
  else if decide (0 <= gain /\ gain * 32768 <= INT32_MAX) then eaf_q31_multiply sample (gain * 32768)
  else None.

Definition eaf_biquad_tick (c : eaf_biquad_coeff_t) (s : eaf_biquad_state_t) (x : Z)
  : ub (eaf_biquad_state_t * Z) :=
  p0 ← chk64 (b0 c * x); p1 ← chk64 (b1 c * x1 s); p2 ← chk64 (b2 c * x2 s);
  p3 ← chk64 (a1 c * y1 s); p4 ← chk64 (a2 c * y2 s);
  acc ← chk64 (Z.quot p0 4 + Z.quot p1 4);
  acc ← chk64 (acc + Z.quot p2 4);
  acc ← chk64 (acc - Z.quot p3 4);
  acc ← chk64 (acc - Z.quot p4 4);
  let y := sat (Z.quot acc 268435456) in
  Some (BiquadState x (x1 s) y (y1 s), y).

(** ** Nodes.  [ctx] is [n->ctx]; a buffer is its descriptor and its cells. *)

Definition valid_buffer (b : ptr eaf_buffer_t) : bool :=
  match b with
  | None => false
  | Some b =>
      negb (bool_decide (samples b = 0)) && eaf_format_valid (Some (format b))
      && bool_decide (frame_count b <= capacity_frames b)
      && bool_decide (frame_count b <= capacity_samples b / num_channels (format b))
  end.

Definition volume_init (ctx : ptr eaf_volume_ctx_t) (inf : ptr eaf_format_t) (out : eaf_format_t)
  : ub (eaf_format_t * Z) :=
  match ctx, inf with
  | Some v, Some f =>
      if negb (eaf_format_valid (Some f)) then Some (out, EAF_INVALID)
      else
        ok ← for_to (num_channels f) (fun ch ok =>
               g ← ld (gain v) ch; Some (ok && negb (bool_decide (g < 0)))) true;
        if ok : bool then Some (f, EAF_OK) else Some (out, EAF_INVALID)
  | _, _ => Some (out, EAF_INVALID)
  end.

Definition volume_process (ctx : ptr eaf_volume_ctx_t) (b : ptr eaf_buffer_t) (cells : list Z)
  : ub (list Z * Z) :=
  match b with
  | Some b' =>
      if negb (valid_buffer b) then Some (cells, EAF_INVALID)
      else
        v ← ctx;
        let ch_n := num_channels (format b') in
        cells ← for_to (frame_count b') (fun i cells =>
          for_to ch_n (fun ch cells =>
            let slot := i * ch_n + ch in
            x ← ld cells slot; g ← ld (gain v) ch;
            y ← eaf_q31_multiply x g; st cells slot y) cells) cells;
        Some (cells, EAF_OK)
  | None => Some (cells, EAF_INVALID)
  end.

Definition state_zero : eaf_biquad_state_t := BiquadState 0 0 0 0.

Definition eq_reset (ctx : ptr eaf_eq_ctx_t) : ub (ptr eaf_eq_ctx_t * Z) :=
  e ← ctx;
  Some (Some (EqCtx (bands e) (coeff e) (replicate 4 (replicate 8 state_zero))), EAF_OK).

Definition eq_init (ctx : ptr eaf_eq_ctx_t) (inf : ptr eaf_format_t) (out : eaf_format_t)
  : ub (ptr eaf_eq_ctx_t * eaf_format_t * Z) :=
  match ctx, inf with
  | Some e, Some f =>
      if bool_decide (EAF_EQ_MAX_BANDS < bands e) || negb (eaf_format_valid (Some f))
      then Some (Some e, out, EAF_INVALID)
      else '(c, rc) ← eq_reset (Some e); Some (c, f, rc)
  | c, _ => Some (c, out, EAF_INVALID)
  end.

(** [b->samples[slot] = eaf_biquad_tick(&coeff[band], &state[ch][band], b->samples[slot])] *)
Definition eq_tick (coeffs : list eaf_biquad_coeff_t) (slot ch band : Z)
    (st0 : list (list eaf_biquad_state_t) * list Z) : ub (list (list eaf_biquad_state_t) * list Z) :=
  let '(states, cells) := st0 in
  c ← ld coeffs band; row ← ld states ch; s ← ld row band; x ← ld cells slot;
  '(s', y) ← eaf_biquad_tick c s x;
  row' ← st row band s'; states' ← st states ch row'; cells' ← st cells slot y;
  Some (states', cells').

Definition eq_process (ctx : ptr eaf_eq_ctx_t) (b : ptr eaf_buffer_t) (cells : list Z)
  : ub (ptr eaf_eq_ctx_t * ptr eaf_buffer_t * list Z * Z) :=
  match b with
  | Some b' =>
      if negb (valid_buffer b) then Some (ctx, b, cells, EAF_INVALID)
      else
        e ← ctx;
        let ch_n := num_channels (format b') in
        '(states, cells) ← for_to (frame_count b') (fun i st =>
          for_to ch_n (fun ch st =>
            for_to (bands e) (eq_tick (coeff e) (i * ch_n + ch) ch) st) st) (eq_state e, cells);
        Some (Some (EqCtx (bands e) (coeff e) states),
              Some (set_flags (Z.land (flags b') (u32 (Z.lnot EAF_FRAME_SILENCE))) b'), cells, EAF_OK)
  | None => Some (ctx, b, cells, EAF_INVALID)
  end.

Definition cross_reset (ctx : ptr eaf_crossover_2_1_ctx_t) : ub (ptr eaf_crossover_2_1_ctx_t * Z) :=
  c ← ctx;
  Some (Some (CrossoverCtx (lp c) (hp c) (frequency_hz c) (replicate 2 state_zero) (replicate 2 (replicate 2 state_zero))), EAF_OK).

(** [for (i = frame_count; i > 0; --i)]: the in-place expansion, last frame first. *)
Fixpoint expand_loop (i : nat) (cells : list Z) : ub (list Z) :=
  match i with
  | O => Some cells
  | S i' =>
      let j := Z.of_nat i' in
      l ← ld cells (j * 2); r ← ld cells (j * 2 + 1);
      cells ← st cells (j * 3) l;
      cells ← st cells (j * 3 + 1) r;
      cells ← st cells (j * 3 + 2) (s32 (Z.quot (l + r) 2));
      expand_loop i' cells
  end.

(** One stage of one frame: both high-pass channels, then the low-pass sum. *)
Definition cross_stage (c : eaf_crossover_2_1_ctx_t) (i stage : Z)
    (st0 : list (list eaf_biquad_state_t) * list eaf_biquad_state_t * list Z)
  : ub (list (list eaf_biquad_state_t) * list eaf_biquad_state_t * list Z) :=
  let '(highs, lows, cells) := st0 in
  '(highs, cells) ← for_to 2 (fun ch st =>
      eq_tick [hp c; hp c] (i * 3 + ch) ch stage st) (highs, cells);
  s ← ld lows stage; x ← ld cells (i * 3 + 2);
  '(s', y) ← eaf_biquad_tick (lp c) s x;
  lows ← st lows stage s'; cells ← st cells (i * 3 + 2) y;
  Some (highs, lows, cells).

Definition cross_process (ctx : ptr eaf_crossover_2_1_ctx_t) (b : ptr eaf_buffer_t) (cells : list Z)
  : ub (ptr eaf_crossover_2_1_ctx_t * ptr eaf_buffer_t * list Z * Z) :=
  match b with
  | Some b' =>
      if negb (valid_buffer b) || negb (bool_decide (num_channels (format b') = 2))
         || negb (bool_decide (channel_mask (format b') = 3))
         || bool_decide (capacity_samples b' / 3 < frame_count b')
      then Some (ctx, b, cells, EAF_INVALID)
      else
        c ← ctx;
        cells ← expand_loop (Z.to_nat (frame_count b')) cells;
        '(highs, lows, cells) ← for_to (frame_count b') (fun i st =>
            for_to 2 (fun stage st => cross_stage c i stage st) st) (high c, low c, cells);
        Some (Some (CrossoverCtx (lp c) (hp c) (frequency_hz c) lows highs),
              Some (set_flags (Z.land (flags b') (u32 (Z.lnot EAF_FRAME_SILENCE)))
                      (set_format (Format (sample_rate (format b')) 3 7) b')), cells, EAF_OK)
  | None => Some (ctx, b, cells, EAF_INVALID)
  end.

(** ** Arithmetic lemmas *)

Lemma sat_range x : is_s32 (sat x).
Proof. unfold sat. repeat case_decide; word. Qed.
Lemma sat_small x : is_s32 x -> sat x = x.
Proof. intros. unfold sat. repeat case_decide; word. Qed.
#[export] Hint Resolve sat_range : eaf.

Lemma chk64_eq x : is_s64 x -> chk64 x = Some x.
Proof. intros. unfold chk64. by rewrite decide_True. Qed.

Definition coeff_wf (c : eaf_biquad_coeff_t) : Prop :=
  is_s32 (b0 c) /\ is_s32 (b1 c) /\ is_s32 (b2 c) /\ is_s32 (a1 c) /\ is_s32 (a2 c).
Definition state_wf (s : eaf_biquad_state_t) : Prop :=
  is_s32 (x1 s) /\ is_s32 (x2 s) /\ is_s32 (y1 s) /\ is_s32 (y2 s).

(** A product of two 32-bit values, and a quarter of it. *)
Lemma mul_s32 a b : is_s32 a -> is_s32 b -> -4611686018427387904 <= a * b <= 4611686018427387904.
Proof. unfold is_s32. intros. nia. Qed.
Lemma quarter_s32 a b :
  is_s32 a -> is_s32 b -> is_s64 (a * b) /\ -1152921504606846976 <= Z.quot (a * b) 4 <= 1152921504606846976.
Proof.
  intros Ha Hb. pose proof (mul_s32 a b Ha Hb). split; [word |].
  split; [apply Z.quot_le_lower_bound | apply Z.quot_le_upper_bound]; lia.
Qed.

(** The accumulator before saturation. *)
Definition biquad_acc (c : eaf_biquad_coeff_t) (s : eaf_biquad_state_t) (x : Z) : Z :=
  Z.quot (b0 c * x) 4 + Z.quot (b1 c * x1 s) 4 + Z.quot (b2 c * x2 s) 4
  - Z.quot (a1 c * y1 s) 4 - Z.quot (a2 c * y2 s) 4.
Definition biquad_out (c : eaf_biquad_coeff_t) (s : eaf_biquad_state_t) (x : Z) : Z :=
  sat (Z.quot (biquad_acc c s x) 268435456).

Lemma biquad_tick_eq c s x :
  coeff_wf c -> state_wf s -> is_s32 x ->
  eaf_biquad_tick c s x = Some (BiquadState x (x1 s) (biquad_out c s x) (y1 s), biquad_out c s x) /\
  state_wf (BiquadState x (x1 s) (biquad_out c s x) (y1 s)).
Proof.
  intros (H0 & H1 & H2 & H3 & H4) (S1 & S2 & S3 & S4) Hx. unfold eaf_biquad_tick.
  destruct (quarter_s32 _ _ H0 Hx) as [K0 R0]. destruct (quarter_s32 _ _ H1 S1) as [K1 R1].
  destruct (quarter_s32 _ _ H2 S2) as [K2 R2]. destruct (quarter_s32 _ _ H3 S3) as [K3 R3].
  destruct (quarter_s32 _ _ H4 S4) as [K4 R4].
  rewrite !chk64_eq by done. cbn [mbind option_bind].
  repeat (rewrite chk64_eq by (unfold is_s64; lia); cbn [mbind option_bind]).
  split; [done |]. split_and!; simpl; try done. apply sat_range.
Qed.

Lemma q31_multiply_eq x g :
  is_s32 x -> 0 <= g <= INT32_MAX ->
  exists y, eaf_q31_multiply x g = Some y /\ is_s32 y /\ Z.min 0 x <= y <= Z.max 0 x /\
    (g = INT32_MAX -> y = x) /\ (g <> INT32_MAX -> y = Z.quot (x * g) 2147483648).
Proof.
  intros Hx Hg. unfold eaf_q31_multiply. case_decide as Hu.
  { exists x. split_and!; try done; lia. }
  assert (Hr : Z.min 0 x <= Z.quot (x * g) 2147483648 <= Z.max 0 x).
  { word_unfold. split; [apply Z.quot_le_lower_bound | apply Z.quot_le_upper_bound]; nia. }
  rewrite chk64_eq by (pose proof (mul_s32 x g Hx ltac:(word)); word). cbn [mbind option_bind].
  rewrite sat_small by word. eexists. split; [done |]. split_and!; try done; word.
Qed.

(** ** Node lemmas *)

(** A buffer that passes [valid_buffer], with its cells. *)
Lemma valid_buffer_facts b (cells : list Z) :
  valid_buffer (Some b) = true -> capacity_samples b <= zlen cells -> is_u8 (num_channels (format b)) ->
  0 <= frame_count b ->
  1 <= num_channels (format b) <= 4 /\ frame_count b * num_channels (format b) <= zlen cells.
Proof.
  unfold valid_buffer. intros Hv Hc Hu Hf.
  apply andb_true_iff in Hv as [[[_ Hfv]%andb_true_iff _]%andb_true_iff Hd%bool_decide_eq_true].
  destruct (eaf_format_valid_channels _ Hfv) as (H4 & H0 & _).
  assert (1 <= num_channels (format b) <= 4) as Hn by (unfold is_u8 in Hu; lia). split; [done |].
  apply Z.le_trans with (capacity_samples b / num_channels (format b) * num_channels (format b)); [nia |].
  rewrite Z.mul_comm. etransitivity; [apply Z.mul_div_le; lia | lia].
Qed.

Definition gains_ok (v : eaf_volume_ctx_t) : Prop :=
  zlen (gain v) = 4 /\ Forall (fun g => 0 <= g <= INT32_MAX) (gain v).

Definition states_wf (states : list (list eaf_biquad_state_t)) (rows cols : Z) : Prop :=
  zlen states = rows /\ Forall (fun row => zlen row = cols /\ Forall state_wf row) states.

Lemma st_forall {A} (P : A -> Prop) (l : list A) i x :
  0 <= i < zlen l -> Forall P l -> P x ->
  exists l', st l i x = Some l' /\ zlen l' = zlen l /\ Forall P l'.
Proof.
  intros Hi Hl Hx. rewrite st_eq by done. eexists. split; [done |]. rewrite zlen_insert. split; [done |].
  by apply Forall_insert.
Qed.

Lemma ld_forall {A} (P : A -> Prop) (l : list A) i :
  0 <= i < zlen l -> Forall P l -> exists x, ld l i = Some x /\ P x.
Proof.
  intros Hi Hl. destruct (ld_is_Some l i Hi) as [x Hx]. exists x. split; [done |].
  rewrite ld_lookup in Hx by lia. rewrite Forall_lookup in Hl. by eapply Hl.
Qed.

Lemma eq_tick_ok coeffs slot ch band states cells rows cols :
  Forall coeff_wf coeffs -> 0 <= band < zlen coeffs -> band < cols -> 0 <= ch < rows ->
  states_wf states rows cols -> 0 <= slot < zlen cells -> Forall is_s32 cells ->
  exists states' cells', eq_tick coeffs slot ch band (states, cells) = Some (states', cells') /\
    states_wf states' rows cols /\ zlen cells' = zlen cells /\ Forall is_s32 cells'.
Proof.
  intros Hc Hb Hbc Hch [Hz Hst] Hslot Hcells. unfold eq_tick.
  destruct (ld_forall _ coeffs band Hb Hc) as (c & -> & Hcw). cbn [mbind option_bind].
  destruct (ld_forall _ states ch ltac:(lia) Hst) as (row & -> & Hrz & Hrw). cbn [mbind option_bind].
  destruct (ld_forall _ row band ltac:(lia) Hrw) as (s & -> & Hsw). cbn [mbind option_bind].
  destruct (ld_forall _ cells slot Hslot Hcells) as (x & -> & Hx). cbn [mbind option_bind].
  destruct (biquad_tick_eq c s x Hcw Hsw Hx) as [-> Hsw']. cbn [mbind option_bind].
  destruct (st_forall state_wf row band _ ltac:(lia) Hrw Hsw') as (row' & -> & Hrz' & Hrw'). cbn [mbind option_bind].
  destruct (st_forall (fun row => zlen row = cols /\ Forall state_wf row) states ch row' ltac:(lia) Hst) as (states' & -> & Hz' & Hst').
  { split; [lia | done]. }
  cbn [mbind option_bind].
  destruct (st_forall is_s32 cells slot (biquad_out c s x) Hslot Hcells (sat_range _)) as (cells' & -> & Hcz & Hc32).
  cbn [mbind option_bind]. eexists _, _. split; [done |]. split; [split; [lia | done] |]. done.
Qed.

(** A loop over well-formed filter states and samples stays well-formed. *)
Lemma for_to_total {S} (P : S -> Prop) (f : Z -> S -> ub S) n s :
  0 <= n -> P s -> (forall j t, 0 <= j < n -> P t -> exists t', f j t = Some t' /\ P t') ->
  exists s', for_to n f s = Some s' /\ P s'.
Proof. intros Hn Hs Hf. by apply (for_to_inv (fun _ => P)). Qed.

Lemma expand_loop_spec i cells :
  3 * Z.of_nat i <= zlen cells -> Forall is_s32 cells ->
  exists cells', expand_loop i cells = Some cells' /\ zlen cells' = zlen cells /\ Forall is_s32 cells' /\
    (forall j l r, 0 <= j < Z.of_nat i -> ld cells (j * 2) = Some l -> ld cells (j * 2 + 1) = Some r ->
       ld cells' (j * 3) = Some l /\ ld cells' (j * 3 + 1) = Some r /\
       ld cells' (j * 3 + 2) = Some (Z.quot (l + r) 2)) /\
    (forall k, 3 * Z.of_nat i <= k -> ld cells' k = ld cells k).
Proof.
  revert cells. induction i as [|i IH]; intros cells Hz Hs.
  { exists cells. split_and!; try done; lia. }
  cbn [expand_loop]. set (j := Z.of_nat i) in *.
  destruct (ld_forall _ cells (j * 2) ltac:(lia) Hs) as (l & Hl & Hl32). rewrite Hl. cbn [mbind option_bind].
  destruct (ld_forall _ cells (j * 2 + 1) ltac:(lia) Hs) as (r & Hr & Hr32). rewrite Hr. cbn [mbind option_bind].
  assert (Hq : is_s32 (Z.quot (l + r) 2)) by word. rewrite (s32_small _ Hq).
  assert (H3 : exists c3, (c1 ← st cells (j * 3) l; c2 ← st c1 (j * 3 + 1) r; st c2 (j * 3 + 2) (Z.quot (l + r) 2)) = Some c3 /\
    zlen c3 = zlen cells /\ Forall is_s32 c3 /\
    forall k, 0 <= k -> ld c3 k = if decide (k = j * 3 + 2) then Some (Z.quot (l + r) 2)
      else if decide (k = j * 3 + 1) then Some r else if decide (k = j * 3) then Some l else ld cells k).
  { rewrite st_eq by lia. cbn [mbind option_bind]. rewrite st_eq by (rewrite zlen_insert; lia).
    cbn [mbind option_bind]. rewrite st_eq by (rewrite !zlen_insert; lia). eexists. split; [done |].
    rewrite !zlen_insert. split; [done |]. split; [by repeat apply Forall_insert |].
    intros k Hk. rewrite !ld_lookup by lia.
    repeat (destruct (decide (k = _)) as [->|]; [rewrite list_lookup_insert_eq; [done | rewrite ?length_insert; unfold zlen in *; lia]
      | rewrite list_lookup_insert_ne by lia]). done. }
  destruct H3 as (c3 & Hrun & Hz3 & Hs3 & Hld).
  destruct (st cells (j * 3) l) as [c1|]; [| done]. cbn [mbind option_bind] in *.
  destruct (st c1 (j * 3 + 1) r) as [c2|]; [| done]. cbn [mbind option_bind] in *. rewrite Hrun. cbn [mbind option_bind].
  destruct (IH c3 ltac:(lia) Hs3) as (cells' & -> & Hz' & Hs' & Hlo & Hhi).
  exists cells'. split; [done |]. split; [lia |]. split; [done |]. split.
  - intros j' l' r' Hj' Hl' Hr'. destruct (decide (j' = j)) as [->|].
    + rewrite !Hhi, !Hld by lia. decide_lia. rewrite Hl in Hl'. rewrite Hr in Hr'. by injection Hl' as <-; injection Hr' as <-.
    + apply Hlo; [lia | |]; rewrite Hld by lia; by decide_lia.
  - intros k Hk. rewrite Hhi, Hld by lia. by decide_lia.
Qed.

(** ** Properties *)

(** Gains: multiplying by a Q1.31 gain never overflows, yields a value between
    zero and the sample, is the rounded-toward-zero product, and the maximal gain
    is exact unity; likewise for the Q16 gains, of which 65536 is unity. *)
Theorem q31_multiply_bounded (x g : Z) :
  is_s32 x ->
  (0 <= g <= INT32_MAX -> exists y, eaf_q31_multiply x g = Some y /\ is_s32 y /\
     Z.min 0 x <= y <= Z.max 0 x /\ (g = INT32_MAX -> y = x) /\
     (g <> INT32_MAX -> y = Z.quot (x * g) 2147483648)) /\
  (0 <= g <= 65536 -> exists y, eaf_q16_multiply x g = Some y /\ is_s32 y /\
     Z.min 0 x <= y <= Z.max 0 x /\ y = Z.quot (x * g) 65536).
Proof.
  intros Hx. split; [intros; by apply q31_multiply_eq |]. intros Hg. unfold eaf_q16_multiply.
  case_decide as Hu.
  - replace g with 65536 by lia. rewrite Z.quot_mul by lia. exists x. split_and!; done || lia.
  - rewrite decide_True by word.
    destruct (q31_multiply_eq x (g * 32768) Hx ltac:(word)) as (y & Hy & Hr & Hb & _ & Hq).
    exists y. split_and!; try done; try apply Hr; try lia. rewrite Hq by word.
    replace (x * (g * 32768)) with (x * g * 32768) by lia. by rewrite (Z.quot_mul_cancel_r _ 65536 32768) by lia.
Qed.

Lemma q31_multiply_bounded_witness :
  exists y, eaf_q16_multiply (-100000) 32768 = Some y /\ is_s32 y /\
    Z.min 0 (-100000) <= y <= Z.max 0 (-100000) /\ y = Z.quot (-100000 * 32768) 65536.
Proof. apply (q31_multiply_bounded (-100000) 32768); [split; done | split; discriminate]. Defined.

(** The biquad: for every coefficient, state and sample that are 32-bit values no
    64-bit operation overflows, the output is the saturated accumulator, and the
    state shifts by one sample and stays within 32 bits. *)
Theorem biquad_no_overflow (c : eaf_biquad_coeff_t) (s : eaf_biquad_state_t) (x : Z) :
  coeff_wf c -> state_wf s -> is_s32 x ->
  exists s' y, eaf_biquad_tick c s x = Some (s', y) /\ state_wf s' /\ is_s32 y /\
    s' = BiquadState x (x1 s) y (y1 s) /\
    (is_s32 (Z.quot (biquad_acc c s x) 268435456) -> y = Z.quot (biquad_acc c s x) 268435456).
Proof.
  intros Hc Hs Hx. destruct (biquad_tick_eq c s x Hc Hs Hx) as [-> Hs'].
  eexists _, _. split; [done |]. split; [done |]. split; [apply sat_range |]. split; [done |].
  intros. by apply sat_small.
Qed.

Lemma biquad_no_overflow_witness :
  exists s' y, eaf_biquad_tick (BiquadCoeff INT32_MIN INT32_MIN INT32_MIN INT32_MAX INT32_MAX)
      (BiquadState INT32_MIN INT32_MIN INT32_MIN INT32_MIN) INT32_MIN = Some (s', y) /\ is_s32 y.
Proof.
  destruct (biquad_no_overflow (BiquadCoeff INT32_MIN INT32_MIN INT32_MIN INT32_MAX INT32_MAX)
    (BiquadState INT32_MIN INT32_MIN INT32_MIN INT32_MIN) INT32_MIN) as (s' & y & H1 & _ & H2 & _);
    [repeat split; done | repeat split; done | split; done | exists s', y; split; assumption].
Defined.

(** The volume node multiplies every sample of the block by its channel's gain,
    in bounds, and touches nothing beyond the block. *)
Theorem volume_process_correct (v : eaf_volume_ctx_t) (b : eaf_buffer_t) (cells : list Z) :
  gains_ok v -> valid_buffer (Some b) = true -> capacity_samples b <= zlen cells ->
  is_u8 (num_channels (format b)) -> 0 <= frame_count b -> Forall is_s32 cells ->
  exists cells', volume_process (Some v) (Some b) cells = Some (cells', EAF_OK) /\ zlen cells' = zlen cells /\
    (forall k x, 0 <= k < frame_count b * num_channels (format b) -> ld cells k = Some x ->
       exists g y, ld (gain v) (k mod num_channels (format b)) = Some g /\ ld cells' k = Some y /\
         eaf_q31_multiply x g = Some y) /\
    (forall k, frame_count b * num_channels (format b) <= k -> ld cells' k = ld cells k).
Proof.
  intros [Hgz Hg] Hv Hc Hu Hf Hs. destruct (valid_buffer_facts b cells Hv Hc Hu Hf) as [Hn Hfit].
  set (m := num_channels (format b)) in *. unfold volume_process. rewrite Hv. cbn [negb mbind option_bind].
  fold m. set (F := fun k l => x ← ld l k; y ← (g ← ld (gain v) (k mod m); eaf_q31_multiply x g); st l k y).
  match goal with |- context [for_to (frame_count b) ?f cells] =>
    replace (for_to (frame_count b) f cells) with (for_to (frame_count b * m) F cells) end.
  2:{ rewrite <- for_nested by lia. apply for_to_ext. intros i t Hi. apply for_to_ext. intros ch u Hch. unfold F.
      replace ((i * m + ch) mod m) with ch by (rewrite Z.add_comm, Z.mod_add by lia; by rewrite Z.mod_small by lia).
      destruct (ld u (i * m + ch)); cbn [mbind option_bind]; [| done].
      by destruct (ld (gain v) ch). }
  unfold F. clear F.
  destruct (for_update (fun k x => g ← ld (gain v) (k mod m); eaf_q31_multiply x g)
    (fun k x y => exists g, ld (gain v) (k mod m) = Some g /\ eaf_q31_multiply x g = Some y) cells (frame_count b * m))
    as (cells' & -> & Hz & Hlo & Hhi).
  - nia.
  - intros k x Hk Hx. pose proof (Z.mod_pos_bound k m ltac:(lia)).
    destruct (ld_forall _ (gain v) (k mod m) ltac:(lia) Hg) as (g & Hgk & Hgr). rewrite Hgk. cbn [mbind option_bind].
    assert (is_s32 x) as Hx32.
    { rewrite ld_lookup in Hx by lia. rewrite Forall_lookup in Hs. by eapply Hs. }
    destruct (q31_multiply_eq x g Hx32 Hgr) as (y & Hy & _). exists y. split; [done |]. eauto.
  - cbn [mbind option_bind]. exists cells'. split; [done |]. split; [done |]. split; [| done].
    intros k x Hk Hx. destruct (Hlo k x Hk Hx) as (y & Hy & g & Hgk & Hm). eauto.
Qed.

Lemma volume_process_correct_witness :
  exists cells', volume_process (Some (VolumeCtx [1073741824; INT32_MAX; 0; 0]))
      (Some (Buffer 8 2 2 4 (Format 48000 2 3) 0)) [10; -10; 7; -7; 99] = Some (cells', EAF_OK) /\ zlen cells' = 5.
Proof.
  destruct (volume_process_correct (VolumeCtx [1073741824; INT32_MAX; 0; 0])
    (Buffer 8 2 2 4 (Format 48000 2 3) 0) [10; -10; 7; -7; 99]) as (cells' & H1 & H2 & _).
  - split; [reflexivity | repeat constructor; word].
  - reflexivity.
  - discriminate.
  - split; [discriminate | reflexivity].
  - discriminate.
  - repeat constructor; word.
  - exists cells'. split; [exact H1 | exact H2].
Defined.

(** The crossover's in-place expansion from two to three channels, walking from
    the last frame down, never overwrites a sample it still has to read: every
    frame becomes left, right and their mean. *)
Theorem crossover_expand_in_place (n : nat) (cells : list Z) :
  3 * Z.of_nat n <= zlen cells -> Forall is_s32 cells ->
  exists cells', expand_loop n cells = Some cells' /\ zlen cells' = zlen cells /\
    (forall j l r, 0 <= j < Z.of_nat n -> ld cells (j * 2) = Some l -> ld cells (j * 2 + 1) = Some r ->
       ld cells' (j * 3) = Some l /\ ld cells' (j * 3 + 1) = Some r /\
       ld cells' (j * 3 + 2) = Some (Z.quot (l + r) 2)) /\
    (forall k, 3 * Z.of_nat n <= k -> ld cells' k = ld cells k).
Proof. intros Hz Hs. destruct (expand_loop_spec n cells Hz Hs) as (c & ? & ? & _ & ? & ?). eauto. Qed.

Lemma crossover_expand_in_place_witness :
  exists cells', expand_loop 2 [10; 20; 30; 50; 0; 0; 7] = Some cells' /\ zlen cells' = 7.
Proof.
  destruct (crossover_expand_in_place 2 [10; 20; 30; 50; 0; 0; 7]) as (c & H1 & H2 & _);
    [discriminate | repeat constructor; word | exists c; split; assumption].
Defined.
