(* ===== verification/Design.v ===== *)
(** Filter design in double precision: [design], [eaf_biquad_lowpass],
    [eaf_biquad_highpass] and [cross_init] of [core/eaf_dsp.c].  The sine and the
    cosine of the C library are parameters, about which nothing is assumed but
    that they return a [double]; the square root and [round] are exactly defined. *)

From Stdlib Require Import SpecFloat.
From S2P Require Import Prelude Types Float Dsp.

(** The literal [6.2831853071795864769] rounded to a [double]. *)
Definition d_two_pi : double := S754_finite false 7074237752028440 (-50).
Example two_pi_rounded :
  2 * Z.abs (62831853071795864769 * 2 ^ 50 - 7074237752028440 * 10 ^ 19) <= 10 ^ 19.
Proof. apply Z.leb_le. vm_compute. reflexivity. Qed.

Section design.
Context (cos sin : double -> double).

Definition design_refused (rate hz : double) : bool :=
  negb (d_isfinite rate) || negb (d_isfinite hz) || dle rate d_zero || dle hz d_zero
  || dle (ddiv rate (d_of_Z 2)) hz.

(** [double values[5]] *)
Definition design_values (rate hz : double) (high : bool) : list double :=
  let w := dmul d_two_pi (ddiv hz rate) in
  let cs := cos w in
  let alpha := ddiv (sin w) (dsqrt (d_of_Z 2)) in
  let a0 := dadd (d_of_Z 1) alpha in
  let b0 := ddiv (if high then dadd (d_of_Z 1) cs else dsub (d_of_Z 1) cs) (dmul (d_of_Z 2) a0) in
  [b0; dmul (if high then d_of_Z (-2) else d_of_Z 2) b0; b0;
   ddiv (dmul (d_of_Z (-2)) cs) a0; ddiv (dsub (d_of_Z 1) alpha) a0].

(** One round of the loop: [inl] is the early return. *)
Definition quantise_one (value : double) : ub (Z + Z) :=
  let scaled := d_round (dmul value (d_of_Z 1073741824)) in
  if negb (d_isfinite scaled) || dlt scaled (d_of_Z INT32_MIN) || dlt (d_of_Z INT32_MAX) scaled
  then Some (inl EAF_INVALID)
  else q ← d_to_s32 scaled; Some (inr q).

Fixpoint quantise (values : list double) : ub (Z + list Z) :=
  match values with
  | [] => Some (inr [])
  | v :: values' =>
      one ← quantise_one v;
      match one with
      | inl rc => Some (inl rc)
      | inr q => rest ← quantise values'; Some (match rest with inl rc => inl rc | inr qs => inr (q :: qs) end)
      end
  end.

Definition design (c : ptr eaf_biquad_coeff_t) (rate hz : double) (high : bool)
  : ub (ptr eaf_biquad_coeff_t * Z) :=
  match c with
  | None => Some (None, EAF_INVALID)
  | Some c =>
      if design_refused rate hz then Some (Some c, EAF_INVALID)
      else
        q ← quantise (design_values rate hz high);
        match q with
        | inl rc => Some (Some c, rc)
        | inr q =>
            q0 ← ld q 0; q1 ← ld q 1; q2 ← ld q 2; q3 ← ld q 3; q4 ← ld q 4;
            Some (Some (BiquadCoeff q0 q1 q2 q3 q4), EAF_OK)
        end
  end.

Definition eaf_biquad_lowpass (c : ptr eaf_biquad_coeff_t) (rate hz : double) := design c rate hz false.
Definition eaf_biquad_highpass (c : ptr eaf_biquad_coeff_t) (rate hz : double) := design c rate hz true.

Definition cross_init (ctx : ptr eaf_crossover_2_1_ctx_t) (inf : ptr eaf_format_t) (out : eaf_format_t)
  : ub (ptr eaf_crossover_2_1_ctx_t * eaf_format_t * Z) :=
  match ctx, inf with
  | Some c, Some f =>
      if negb (eaf_format_valid inf) || negb (bool_decide (num_channels f = 2))
         || negb (bool_decide (channel_mask f = 3))
      then Some (ctx, out, EAF_INVALID)
      else
        let rate := d_of_Z (sample_rate f) in
        '(l, rc) ← with_ref (fun p => eaf_biquad_lowpass p rate (frequency_hz c)) (lp c);
        '(h, rc) ← (if decide (rc = 0)
                    then with_ref (fun p => eaf_biquad_highpass p rate (frequency_hz c)) (hp c)
                    else Some (hp c, rc));
        let c := CrossoverCtx l h (frequency_hz c) (low c) (high c) in
        if negb (bool_decide (rc = 0)) then Some (Some c, out, rc)
        else '(c, rc) ← cross_reset (Some c); Some (c, Format (sample_rate f) 3 7, rc)
  | c, _ => Some (c, out, EAF_INVALID)
  end.

(** ** Conversion *)
(** A number within the bounds of [int32_t] converts. *)
Lemma cast_s32 x :
  d_num x -> dlt x (d_of_Z INT32_MIN) = false -> dlt (d_of_Z INT32_MAX) x = false ->
  exists n, d_to_s32 x = Some n /\ is_s32 n.
Proof.
  intros Hx Hlo Hhi.
  destruct (int_num INT32_MIN ltac:(split; done)) as [Hm1 Hv1]. destruct (int_num INT32_MAX ltac:(split; done)) as [Hm2 Hv2].
  rewrite dlt_val in Hlo, Hhi by done. apply bool_decide_eq_false in Hlo, Hhi. rewrite Hv1 in Hlo. rewrite Hv2 in Hhi.
  destruct (trunc_between x INT32_MIN INT32_MAX Hx) as (n & Hn & Hb & _); [split; done | lia |].
  exists n. unfold d_to_s32. rewrite Hn. cbn [mbind option_bind]. rewrite decide_True by (clear - Hb; unfold is_s32; word). split; [done | clear - Hb; word].
Qed.

Lemma quantise_one_spec v : d_valid v ->
  exists r, quantise_one v = Some r /\ match r with inl rc => rc = EAF_INVALID | inr q => is_s32 q end.
Proof.
  intros Hv. unfold quantise_one.
  destruct (int_num 1073741824 ltac:(split; done)) as [Hc _].
  destruct (d_isfinite _) eqn:Ef; cbn [negb orb]; [| by eexists].
  pose proof (round_product v _ Hv Hc Ef) as Hn.
  destruct (dlt _ (d_of_Z INT32_MIN)) eqn:E1; cbn [orb]; [by eexists |].
  destruct (dlt (d_of_Z INT32_MAX) _) eqn:E2; [by eexists |].
  destruct (cast_s32 _ Hn E1 E2) as (n & -> & Hr). by eexists.
Qed.

Lemma quantise_spec vs : Forall d_valid vs ->
  exists r, quantise vs = Some r /\
    match r with inl rc => rc = EAF_INVALID | inr qs => zlen qs = zlen vs /\ Forall is_s32 qs end.
Proof.
  induction 1 as [|v vs Hv Hvs IH]; [by eexists |]. cbn [quantise].
  destruct (quantise_one_spec v Hv) as (r & -> & Hr). cbn [mbind option_bind]. destruct r as [rc|q]; [by eexists |].
  destruct IH as (r & -> & Hrs). cbn [mbind option_bind]. destruct r as [rc|qs]; eexists; (split; [done |]); [done |].
  rewrite !zlen_cons. destruct Hrs. split; [lia | by constructor].
Qed.

Hypothesis (cos_double : forall x, d_valid (cos x)).
Hypothesis (sin_double : forall x, d_valid (sin x)).

Lemma design_values_valid rate hz high : Forall d_valid (design_values rate hz high).
Proof.
  assert (Hone : forall n, - 2 ^ 53 < n < 2 ^ 53 -> d_valid (d_of_Z n)) by (intros n Hn; apply (int_num n Hn)).
  assert (Hsq : d_valid (dsqrt (d_of_Z 2))) by (vm_compute; reflexivity).
  assert (d_valid (d_of_Z 1) /\ d_valid (d_of_Z 2) /\ d_valid (d_of_Z (-2))) as (H1 & H2 & H3)
    by (split_and!; apply Hone; lia).
  unfold design_values. repeat constructor; destruct high;
    repeat first [assumption | apply dadd_closed | apply dsub_closed | apply dmul_closed | apply ddiv_closed];
    auto.
Qed.

Lemma design_spec c rate hz high :
  exists c' rc, design (Some c) rate hz high = Some (Some c', rc) /\
    (rc = EAF_OK /\ coeff_wf c' /\ design_refused rate hz = false \/ rc = EAF_INVALID /\ c' = c).
Proof using cos_double sin_double.
  unfold design. destruct (design_refused rate hz) eqn:Er; [eexists _, _; split; [done | by right] |].
  destruct (quantise_spec _ (design_values_valid rate hz high)) as (r & -> & Hr). cbn [mbind option_bind].
  destruct r as [rc|q]; [subst; eexists _, _; split; [done | by right] |].
  destruct Hr as [Hz Hq]. change (zlen (design_values rate hz high)) with 5 in Hz.
  destruct q as [|q0 [|q1 [|q2 [|q3 [|q4 [|]]]]]]; try (vm_compute in Hz; discriminate).
  2:{ rewrite !zlen_cons in Hz. pose proof (zlen_nonneg l). lia. }
  eexists _, _. split; [reflexivity |]. left. split; [done |]. split; [| done].
  apply List.Forall_cons_iff in Hq as [Q0 Hq]. apply List.Forall_cons_iff in Hq as [Q1 Hq].
  apply List.Forall_cons_iff in Hq as [Q2 Hq]. apply List.Forall_cons_iff in Hq as [Q3 Hq].
  apply List.Forall_cons_iff in Hq as [Q4 _]. done.
Qed.
End design.

(** ** Properties *)



(** A quarter-rate low-pass: numerator 1/(2 + sqrt 2) and its double. *)
Example quarter_rate_lowpass :
  design (fun _ => d_zero) (fun _ => d_of_Z 1) (Some (BiquadCoeff 0 0 0 0 0)) (d_of_Z 48000) (d_of_Z 12000) false
    = Some (Some (BiquadCoeff 314491699 628983398 314491699 0 184224972), EAF_OK).
Proof. vm_compute. reflexivity. Qed.
