(* ===== verification/Nodes.v ===== *)
(** The signal processing nodes in a pipeline: the operation tables
    [eaf_volume_ops], [eaf_biquad_eq_ops] and [eaf_crossover_2_1_ops] of
    [core/eaf_dsp.c] as the callbacks the pipeline of [Graph] runs, and that each
    keeps the pipeline's contract [node_env].

    A node's [ctx] is a cell of the world; the world also carries the ghost list
    of nodes initialised and not yet released. *)

From S2P Require Import Prelude Types Float Dsp Design Reservoir Graph.

(** A context [C] in the world: how it is read and written, and what C's types
    say of its value. *)
Record ctx_cell (W C : Type) := CtxCell { get : W -> C; put : C -> W -> W }.
Arguments get {W C}.
Arguments put {W C}.

Section nodes.
Context {W : Type} (live : W -> list Z) (up down : Z -> W -> W).

Definition noop_reset {C} (c : C) : ub (C * Z) := Some (c, EAF_OK).
Definition noop_deinit (w : W) : ub W := Some w.

(** A table of callbacks over the context of [cell]; the ghost list is updated
    when an initialisation succeeds and at the release. *)
Definition ctx_node {C} (cell : ctx_cell W C) (i : Z)
    (init : C -> eaf_format_t -> eaf_format_t -> ub (C * eaf_format_t * Z))
    (process : C -> eaf_buffer_t -> list Z -> ub (C * eaf_buffer_t * list Z * Z))
    (reset : C -> ub (C * Z)) (deinit : W -> ub W) : eaf_node_ops W :=
  NodeOps
    (Some (fun w inf out =>
       '(c, fmt, rc) ← init (get cell w) inf out;
       let w := put cell c w in Some (if decide (rc = 0) then up i w else w, fmt, rc)))
    (Some (fun w b =>
       '(c, buf, cells, rc) ← process (get cell w) b.1 b.2; Some (put cell c w, (buf, cells), rc)))
    (Some (fun w => '(c, rc) ← reset (get cell w); Some (put cell c w, rc)))
    (Some (fun w => w ← deinit w; Some (down i w))).

Definition eaf_volume_ops (cell : ctx_cell W eaf_volume_ctx_t) (i : Z) : eaf_node_ops W :=
  ctx_node cell i
    (fun c inf out => '(fmt, rc) ← volume_init (Some c) (Some inf) out; Some (c, fmt, rc))
    (fun c b cells => '(cells, rc) ← volume_process (Some c) (Some b) cells; Some (c, b, cells, rc))
    noop_reset noop_deinit.

Definition eaf_biquad_eq_ops (cell : ctx_cell W eaf_eq_ctx_t) (i : Z) : eaf_node_ops W :=
  ctx_node cell i
    (fun c inf out => '(c, fmt, rc) ← eq_init (Some c) (Some inf) out; c ← c; Some (c, fmt, rc))
    (fun c b cells => '(c, b, cells, rc) ← eq_process (Some c) (Some b) cells; c ← c; b ← b; Some (c, b, cells, rc))
    (fun c => '(c, rc) ← eq_reset (Some c); c ← c; Some (c, rc)) noop_deinit.

Definition eaf_crossover_2_1_ops (cos sin : double -> double) (cell : ctx_cell W eaf_crossover_2_1_ctx_t) (i : Z)
  : eaf_node_ops W :=
  ctx_node cell i
    (fun c inf out => '(c, fmt, rc) ← cross_init cos sin (Some c) (Some inf) out; c ← c; Some (c, fmt, rc))
    (fun c b cells => '(c, b, cells, rc) ← cross_process (Some c) (Some b) cells; c ← c; b ← b; Some (c, b, cells, rc))
    (fun c => '(c, rc) ← cross_reset (Some c); c ← c; Some (c, rc)) noop_deinit.

(** What is assumed of the world: the ghost list, and a cell that only ever
    holds values of its type and does not touch the ghost list. *)
Class GhostWorld := {
  up_live i w : live (up i w) = i :: live w;
  down_live i w : live (down i w) = filter (fun j => j <> i) (live w)
}.
Record cell_env {C} (cell : ctx_cell W C) (typed : C -> Prop) : Prop := {
  cell_typed w : typed (get cell w);
  cell_live c w : live (put cell c w) = live w
}.

(** What the callbacks of a context must do on values of their types. *)
Record ctx_laws {C} (typed : C -> Prop)
    (init : C -> eaf_format_t -> eaf_format_t -> ub (C * eaf_format_t * Z))
    (process : C -> eaf_buffer_t -> list Z -> ub (C * eaf_buffer_t * list Z * Z))
    (reset : C -> ub (C * Z)) : Prop := {
  law_init c inf out : typed c -> exists c' fmt rc, init c inf out = Some (c', fmt, rc) /\ typed c';
  law_process c b cells : typed c -> block_typed b cells -> capacity_samples b <= zlen cells ->
    exists c' b' cells' rc, process c b cells = Some (c', b', cells', rc) /\ typed c' /\
      zlen cells' = zlen cells /\ block_typed b' cells';
  law_reset c : typed c -> exists c' rc, reset c = Some (c', rc) /\ typed c'
}.

Lemma ctx_node_env {C} (cell : ctx_cell W C) typed init process reset i :
  GhostWorld -> cell_env cell typed -> ctx_laws typed init process reset ->
  node_env live i (ctx_node cell i init process reset noop_deinit).
Proof.
  intros [Hup Hdown] [Htyped Hlive] [Hinit Hprocess Hreset].
  split; (eexists; split; [reflexivity |]).
  - intros w a b. destruct (Hinit (get cell w) a b (Htyped w)) as (c & fmt & rc & -> & _). cbn [mbind option_bind].
    eexists _, fmt, rc. split; [done |]. case_decide; by rewrite ?Hup, Hlive.
  - intros w b cells Hb Hc. cbn [fst snd].
    destruct (Hprocess (get cell w) b cells (Htyped w) Hb Hc) as (c & b' & cells' & rc & -> & _ & Hz & Hb').
    cbn [mbind option_bind]. eexists _, b', cells', rc. split; [done |]. by rewrite Hlive.
  - intros w. destruct (Hreset (get cell w) (Htyped w)) as (c & rc & -> & _). cbn [mbind option_bind].
    eexists _, rc. by rewrite Hlive.
  - intros w. eexists. split; [reflexivity |]. apply Hdown.
Qed.
End nodes.

(** ** The three nodes keep the contract *)

Definition volume_typed (v : eaf_volume_ctx_t) : Prop := zlen (gain v) = 4 /\ Forall is_s32 (gain v).
Definition eq_typed (e : eaf_eq_ctx_t) : Prop :=
  0 <= bands e <= 8 /\ zlen (coeff e) = 8 /\ Forall coeff_wf (coeff e) /\ states_wf (eq_state e) 4 8.
Definition cross_typed (c : eaf_crossover_2_1_ctx_t) : Prop :=
  coeff_wf (lp c) /\ coeff_wf (hp c) /\ zlen (low c) = 2 /\ Forall state_wf (low c) /\ states_wf (high c) 2 2.

(** A gain of either sign: the product fits in 64 bits. *)
Lemma q31_multiply_total x g : is_s32 x -> is_s32 g -> exists y, eaf_q31_multiply x g = Some y /\ is_s32 y.
Proof.
  intros Hx Hg. unfold eaf_q31_multiply. case_decide; [by exists x |].
  rewrite chk64_eq by (pose proof (mul_s32 x g Hx Hg); word). eexists. split; [done | apply sat_range].
Qed.

(** The samples of a block as a loop invariant. *)
Definition samples_inv (cells cells' : list Z) : Prop := zlen cells' = zlen cells /\ Forall is_s32 cells'.

Lemma volume_process_total v b cells :
  volume_typed v -> block_typed b cells -> capacity_samples b <= zlen cells ->
  exists cells' rc, volume_process (Some v) (Some b) cells = Some (cells', rc) /\ samples_inv cells cells'.
Proof.
  intros [Hgz Hg] (Hf & Hu & Hs) Hc. unfold volume_process.
  destruct (valid_buffer (Some b)) eqn:Hv; cbn [negb]; [| by eexists _, _].
  destruct (valid_buffer_facts b cells Hv Hc Hu Hf) as [Hn Hfit]. cbn [mbind option_bind].
  destruct (for_to_total (samples_inv cells) (fun i t => for_to (num_channels (Types.format b)) (fun ch t =>
      x ← ld t (i * num_channels (Types.format b) + ch); g ← ld (gain v) ch; y ← eaf_q31_multiply x g;
      st t (i * num_channels (Types.format b) + ch) y) t) (frame_count b) cells) as (cells' & Hrun & Hok);
    [done | done | | rewrite Hrun; cbn [mbind option_bind]; by eexists _, _].
  intros i t Hi Ht. apply for_to_total; [lia | done |]. intros ch u Hch [Hz Hs'].
  destruct (ld_forall is_s32 u (i * num_channels (Types.format b) + ch) ltac:(nia) Hs') as (x & -> & Hx).
  destruct (ld_forall is_s32 (gain v) ch ltac:(lia) Hg) as (g & -> & Hgs). cbn [mbind option_bind].
  destruct (q31_multiply_total x g Hx Hgs) as (y & -> & Hy). cbn [mbind option_bind].
  destruct (st_forall is_s32 u (i * num_channels (Types.format b) + ch) y ltac:(nia) Hs' Hy) as (u' & -> & Hz' & Hu').
  eexists. split; [done |]. split; [lia | done].
Qed.

Lemma volume_laws : ctx_laws volume_typed
  (fun c inf out => '(fmt, rc) ← volume_init (Some c) (Some inf) out; Some (c, fmt, rc))
  (fun c b cells => '(cells, rc) ← volume_process (Some c) (Some b) cells; Some (c, b, cells, rc))
  noop_reset.
Proof.
  split.
  - intros v inf out [Hgz Hg]. unfold volume_init. destruct (eaf_format_valid (Some inf)) eqn:Hv; cbn [negb mbind option_bind];
      [| by eexists _, _, _].
    destruct (eaf_format_valid_channels _ Hv) as (H4 & H0 & _).
    destruct (decide (0 <= num_channels inf)).
    + destruct (for_to_total (fun _ => True) (fun ch ok => g ← ld (gain v) ch; Some (ok && negb (bool_decide (g < 0))))
        (num_channels inf) true) as (ok & -> & _); [lia | done | |].
      * intros ch ok Hch _. destruct (ld_is_Some (gain v) ch ltac:(lia)) as [g ->]. by eexists.
      * cbn [mbind option_bind]. destruct ok; by eexists _, _, _.
    + unfold for_to. replace (Z.to_nat (num_channels inf)) with 0%nat by lia. by eexists _, _, _.
  - intros v b cells Hv Hb Hc. destruct (volume_process_total v b cells Hv Hb Hc) as (cells' & rc & -> & Hz & Hs).
    cbn [mbind option_bind]. eexists _, _, _, _. split; [done |]. destruct Hb as (? & ? & _). by split_and!.
  - intros v Hv. by eexists _, _.
Qed.

Lemma silent_states n m : 0 <= n -> 0 <= m ->
  states_wf (replicate (Z.to_nat n) (replicate (Z.to_nat m) state_zero)) n m.
Proof.
  intros Hn Hm. split; [by rewrite zlen_replicate |]. apply Forall_replicate. split; [by rewrite zlen_replicate |].
  apply Forall_replicate. repeat split; done.
Qed.

Lemma eq_process_total e b cells :
  eq_typed e -> block_typed b cells -> capacity_samples b <= zlen cells ->
  exists e' b' cells' rc, eq_process (Some e) (Some b) cells = Some (Some e', Some b', cells', rc) /\ eq_typed e' /\
    samples_inv cells cells' /\ block_typed b' cells'.
Proof.
  intros (Hb & Hcz & Hcw & Hst) Ht Hc. pose proof Ht as (Hf & Hu & Hs). unfold eq_process.
  destruct (valid_buffer (Some b)) eqn:Hv; cbn [negb]; [| by eexists _, _, _, _].
  destruct (valid_buffer_facts b cells Hv Hc Hu Hf) as [Hn Hfit]. cbn [mbind option_bind].
  set (ch_n := num_channels (Types.format b)) in *.
  set (inv := fun st : list (list eaf_biquad_state_t) * list Z => states_wf st.1 4 8 /\ samples_inv cells st.2).
  destruct (for_to_total inv (fun i st => for_to ch_n (fun ch st =>
      for_to (bands e) (eq_tick (coeff e) (i * ch_n + ch) ch) st) st) (frame_count b) (eq_state e, cells))
    as ([states cells'] & Hrun & Hst' & Hz' & Hs'); [done | done | | ].
  - intros i st Hi Hinv. apply for_to_total; [lia | done |]. intros ch st1 Hch Hinv1.
    apply for_to_total; [lia | done |]. intros band [sts t] Hband [H1 [H2 H3]]. cbn [fst snd] in *.
    destruct (eq_tick_ok (coeff e) (i * ch_n + ch) ch band sts t 4 8) as (s' & t' & -> & ? & ? & ?);
      try done; try lia; [nia |].
    eexists. split; [done |]. split; [done |]. split; [cbn; lia | done].
  - rewrite Hrun. cbn [mbind option_bind]. eexists _, _, _, _. split; [done |]. by split_and!.
Qed.

Lemma eq_laws : ctx_laws eq_typed
  (fun c inf out => '(c, fmt, rc) ← eq_init (Some c) (Some inf) out; c ← c; Some (c, fmt, rc))
  (fun c b cells => '(c, b, cells, rc) ← eq_process (Some c) (Some b) cells; c ← c; b ← b; Some (c, b, cells, rc))
  (fun c => '(c, rc) ← eq_reset (Some c); c ← c; Some (c, rc)).
Proof.
  assert (Hreset : forall e, eq_typed e -> eq_typed (EqCtx (bands e) (coeff e) (replicate 4 (replicate 8 state_zero)))).
  { intros e (? & ? & ? & _). split; [done |]. split; [done |]. split; [done |]. by apply (silent_states 4 8). }
  split.
  - intros e inf out He. unfold eq_init. case_match; cbn [mbind option_bind]; [by eexists _, _, _ |].
    eexists _, _, _. split; [reflexivity |]. by apply Hreset.
  - intros e b cells He Hb Hc. destruct (eq_process_total e b cells He Hb Hc) as (e' & b' & cells' & rc & -> & ? & [? ?] & ?).
    cbn [mbind option_bind]. by eexists _, _, _, _.
  - intros e He. eexists _, _. split; [reflexivity |]. by apply Hreset.
Qed.

(** One stage of one frame keeps the filters and the samples. *)
Lemma cross_stage_total c i stage highs lows cells cells0 :
  coeff_wf (lp c) -> coeff_wf (hp c) -> 0 <= stage < 2 -> 0 <= i -> 3 * i + 3 <= zlen cells0 ->
  states_wf highs 2 2 -> zlen lows = 2 /\ Forall state_wf lows -> samples_inv cells0 cells ->
  exists highs' lows' cells', cross_stage c i stage (highs, lows, cells) = Some (highs', lows', cells') /\
    states_wf highs' 2 2 /\ (zlen lows' = 2 /\ Forall state_wf lows') /\ samples_inv cells0 cells'.
Proof.
  intros Hl Hh Hstage Hi Hfit Hst [Hlz Hlw] [Hz Hs]. unfold cross_stage.
  destruct (for_to_total (fun st => states_wf st.1 2 2 /\ samples_inv cells0 st.2)
    (fun ch st => eq_tick [hp c; hp c] (i * 3 + ch) ch stage st) 2 (highs, cells)) as ([highs' cells'] & -> & Hst' & Hz' & Hs');
    [lia | done | |].
  - intros ch [sts t] Hch [H1 [H2 H3]]. cbn [fst snd] in *.
    destruct (eq_tick_ok [hp c; hp c] (i * 3 + ch) ch stage sts t 2 2) as (s' & t' & -> & ? & ? & ?);
      try done; try lia; [apply Forall_cons_2; [done | by apply Forall_cons_2] | .. ]; try (change (zlen [hp c; hp c]) with 2; lia).
    eexists. split; [done |]. split; [done |]. split; [cbn; lia | done].
  - cbn [mbind option_bind fst snd] in *.
    destruct (ld_forall state_wf lows stage ltac:(lia) Hlw) as (s & -> & Hsw).
    destruct (ld_forall is_s32 cells' (i * 3 + 2) ltac:(lia) Hs') as (x & -> & Hx). cbn [mbind option_bind].
    destruct (biquad_tick_eq (lp c) s x Hl Hsw Hx) as [-> Hsw']. cbn [mbind option_bind].
    destruct (st_forall state_wf lows stage _ ltac:(lia) Hlw Hsw') as (lows' & -> & ? & ?). cbn [mbind option_bind].
    destruct (st_forall is_s32 cells' (i * 3 + 2) (biquad_out (lp c) s x) ltac:(lia) Hs' (sat_range _)) as (c2 & -> & ? & ?).
    cbn [mbind option_bind]. eexists _, _, _. split; [done |]. split; [done |]. split; [split; [lia | done] |]. split; [lia | done].
Qed.

Lemma cross_process_total c b cells :
  cross_typed c -> block_typed b cells -> capacity_samples b <= zlen cells ->
  exists c' b' cells' rc, cross_process (Some c) (Some b) cells = Some (Some c', Some b', cells', rc) /\ cross_typed c' /\
    samples_inv cells cells' /\ block_typed b' cells'.
Proof.
  intros Hc Ht Hcap. pose proof Hc as (Hl & Hh & Hlz & Hlw & Hhs). pose proof Ht as (Hf & Hu & Hs).
  unfold cross_process. destruct (_ || _ || _ || _) eqn:Eb; [by eexists _, _, _, _ |].
  apply orb_false_elim in Eb as [_ Hfit%bool_decide_eq_false]. cbn [mbind option_bind].
  assert (H3 : 3 * frame_count b <= zlen cells).
  { pose proof (Z.mul_div_le (capacity_samples b) 3). lia. }
  destruct (expand_loop_spec (Z.to_nat (frame_count b)) cells ltac:(lia) Hs) as (c1 & -> & Hz1 & Hs1 & _).
  cbn [mbind option_bind].
  set (inv := fun st : list (list eaf_biquad_state_t) * list eaf_biquad_state_t * list Z =>
    states_wf st.1.1 2 2 /\ (zlen st.1.2 = 2 /\ Forall state_wf st.1.2) /\ samples_inv cells st.2).
  destruct (for_to_total inv (fun i st => for_to 2 (fun stage st => cross_stage c i stage st) st) (frame_count b)
    (high c, low c, c1)) as ([[highs lows] cells'] & Hrun & Hst & [Hz2 Hw2] & Hz & Hs'); [done | done | |].
  - intros i st Hi Hinv. apply for_to_total; [lia | done |]. intros stage [[hs ls] t] Hstage (H1 & H2 & H4).
    destruct (cross_stage_total c i stage hs ls t cells Hl Hh Hstage ltac:(lia) ltac:(lia) H1 H2 H4)
      as (hs' & ls' & t' & -> & ?). by eexists.
  - rewrite Hrun. cbn [mbind option_bind]. eexists _, _, _, _. split; [done |].
    split; [by split_and! |]. split; [done |]. split; [done |]. split; [simpl; word | done].
Qed.

Section crossover.
Context (cos sin : double -> double).
Hypothesis (cos_double : forall x, d_valid (cos x)).
Hypothesis (sin_double : forall x, d_valid (sin x)).

Lemma cross_laws : ctx_laws cross_typed
  (fun c inf out => '(c, fmt, rc) ← cross_init cos sin (Some c) (Some inf) out; c ← c; Some (c, fmt, rc))
  (fun c b cells => '(c, b, cells, rc) ← cross_process (Some c) (Some b) cells; c ← c; b ← b; Some (c, b, cells, rc))
  (fun c => '(c, rc) ← cross_reset (Some c); c ← c; Some (c, rc)).
Proof using cos_double sin_double.
  assert (Hsilent : states_wf (replicate 2 (replicate 2 state_zero)) 2 2) by (by apply (silent_states 2 2)).
  assert (Hlow : Forall state_wf (replicate 2 state_zero)) by (apply Forall_replicate; repeat split; done).
  split.
  - intros c inf out (Hl & Hh & Hlz & Hlw & Hhs). unfold cross_init.
    destruct (_ || _ || _); cbn [mbind option_bind]; [by eexists _, _, _ |].
    unfold with_ref, eaf_biquad_lowpass, eaf_biquad_highpass.
    destruct (design_spec cos sin cos_double sin_double (lp c) (d_of_Z (sample_rate inf)) (frequency_hz c) false)
      as (l & rc & -> & Hlp). cbn [mbind option_bind].
    assert (Hl' : coeff_wf l) by (destruct Hlp as [(_ & ? & _)|[_ ->]]; done).
    case_decide as Hrc; cbn [mbind option_bind].
    + destruct (design_spec cos sin cos_double sin_double (hp c) (d_of_Z (sample_rate inf)) (frequency_hz c) true)
        as (h & rc' & -> & Hhp). cbn [mbind option_bind].
      assert (Hh' : coeff_wf h) by (destruct Hhp as [(_ & ? & _)|[_ ->]]; done).
      case_bool_decide; cbn [negb mbind option_bind cross_reset]; eexists _, _, _; (split; [reflexivity |]); by split_and!.
    + rewrite bool_decide_eq_false_2 by done. cbn [negb mbind option_bind]. eexists _, _, _.
      split; [reflexivity |]. by split_and!.
  - intros c b cells Hc Hb Hcap.
    destruct (cross_process_total c b cells Hc Hb Hcap) as (c' & b' & cells' & rc & -> & ? & [? ?] & ?).
    cbn [mbind option_bind]. by eexists _, _, _, _.
  - intros c (Hl & Hh & _). eexists _, _. split; [reflexivity |]. by split_and!.
Qed.
End crossover.

(** ** Properties *)

(** Each built-in node keeps the contract the pipeline asks of its nodes: on
    any samples and any descriptor that fits its storage, with any context of
    its type, every callback returns without an invalid access or an overflow,
    stays within the storage and leaves 32-bit samples.  So whatever is proved of
    the pipeline for nodes that keep the contract holds for chains of these. *)
Theorem builtin_nodes_lawful {W} (live : W -> list Z) (up down : Z -> W -> W) (cos sin : double -> double)
    (vol : ctx_cell W eaf_volume_ctx_t) (eq : ctx_cell W eaf_eq_ctx_t) (cross : ctx_cell W eaf_crossover_2_1_ctx_t) (i : Z) :
  GhostWorld live up down -> (forall x, d_valid (cos x)) -> (forall x, d_valid (sin x)) ->
  (cell_env live vol volume_typed -> node_env live i (eaf_volume_ops up down vol i)) /\
  (cell_env live eq eq_typed -> node_env live i (eaf_biquad_eq_ops up down eq i)) /\
  (cell_env live cross cross_typed -> node_env live i (eaf_crossover_2_1_ops up down cos sin cross i)).
Proof.
  intros Hw Hcos Hsin. split_and!; intros Hc; (eapply ctx_node_env; [done | exact Hc |]);
    [apply volume_laws | apply eq_laws | by apply cross_laws].
Qed.

(** The witness's world: the ghost list next to contexts that stay put. *)
Definition demo_cell {C} (c : C) : ctx_cell (list Z) C := CtxCell _ _ (fun _ => c) (fun _ w => w).
Definition demo_up (i : Z) (w : list Z) : list Z := i :: w.
Definition demo_down (i : Z) (w : list Z) : list Z := filter (fun j => j <> i) w.

Lemma builtin_nodes_lawful_witness :
  node_env (fun w => w) 3 (eaf_volume_ops demo_up demo_down (demo_cell (VolumeCtx [0; -1; INT32_MAX; INT32_MIN])) 3) /\
  node_env (fun w => w) 3 (eaf_biquad_eq_ops demo_up demo_down
    (demo_cell (EqCtx 2 (replicate 8 (BiquadCoeff 1 2 3 4 5)) (replicate 4 (replicate 8 state_zero)))) 3).
Proof.
  destruct (builtin_nodes_lawful (fun w => w) demo_up demo_down (fun _ => d_zero) (fun _ => d_zero)
    (demo_cell (VolumeCtx [0; -1; INT32_MAX; INT32_MIN]))
    (demo_cell (EqCtx 2 (replicate 8 (BiquadCoeff 1 2 3 4 5)) (replicate 4 (replicate 8 state_zero))))
    (demo_cell (CrossoverCtx (BiquadCoeff 0 0 0 0 0) (BiquadCoeff 0 0 0 0 0) d_zero [] [])) 3) as (H1 & H2 & _).
  - split; reflexivity.
  - reflexivity.
  - reflexivity.
  - split; [apply H1 | apply H2]; (split; [intros w | reflexivity]).
    + split; [reflexivity | repeat constructor; word].
    + split; [split; discriminate |]. split; [reflexivity |]. split; [| by apply (silent_states 4 8)].
      apply Forall_replicate. repeat split; discriminate.
Defined.
