(* ===== verification/Sync.v ===== *)
(** The linear resampler of [core/eaf_sync.c]; the controller of the same file is
    modelled in [Rate].  The final 32-bit addition
    is checked: a signed overflow is undefined behaviour ([None]). *)

From S2P Require Import Prelude.

Definition chk32 (x : Z) : ub Z := if decide (is_s32 x) then Some x else None.

Definition interpolate (a b fraction : Z) : ub Z :=
  let delta := b - a in
  let product := delta * Z.shiftr fraction 1 in
  if decide (0 <= product) then chk32 (a + s32 (Z.shiftr (product + 1073741824) 31))
  else chk32 (a - s32 (Z.shiftr (- product + 1073741824) 31)).

(** [for (c = 0; c < channels; ++c) out[i * channels + c] = f(c)] *)
Definition out_frame (channels i : Z) (f : Z -> ub Z) (out : list Z) : ub (list Z) :=
  for_to channels (fun c out => x ← f c; st out (i * channels + c) x) out.

Definition resample_round (inp : list Z) (in_frames channels step i : Z) (out : list Z) : ub (list Z) :=
  let position := u64 (i * step) in
  let index := u32 (Z.shiftr position 32) in
  if decide (in_frames - 1 <= index) then
    out_frame channels i (fun c => ld inp ((in_frames - 1) * channels + c)) out
  else
    let fraction := u32 position in
    out_frame channels i (fun c =>
      a ← ld inp (index * channels + c); b ← ld inp ((index + 1) * channels + c);
      interpolate a b fraction) out.

Definition eaf_sync_resample (inp : ptr (list Z)) (in_frames : Z) (out : ptr (list Z)) (out_frames channels : Z)
  : ub (ptr (list Z) * Z) :=
  match inp, out with
  | Some inp, Some cells =>
      if bool_decide (in_frames = 0) || bool_decide (out_frames = 0)
         || (negb (bool_decide (channels = 1)) && negb (bool_decide (channels = 2)))
      then Some (out, 0)
      else if decide (in_frames = 1) then
        cells ← for_to out_frames (fun i => out_frame channels i (fun c => ld inp c)) cells;
        Some (Some cells, out_frames)
      else
        let step := u64 (Z.shiftl in_frames 32) / out_frames in
        cells ← for_to out_frames (resample_round inp in_frames channels step) cells;
        Some (Some cells, out_frames)
  | _, _ => Some (out, 0)
  end.

(** ** Interpolation *)

Lemma interpolate_between a b f :
  is_s32 a -> is_s32 b -> is_u32 f -> Z.abs (b - a) <= INT32_MAX ->
  exists y, interpolate a b f = Some y /\ Z.min a b <= y <= Z.max a b.
Proof.
  intros Ha Hb Hf Hd. unfold interpolate. rewrite Z.shiftr_div_pow2 by lia. change (2 ^ 1) with 2.
  set (h := f / 2). assert (Hh : 0 <= h < 2147483648) by (unfold h; word).
  assert (Hmag : forall d, 0 <= d <= INT32_MAX -> 0 <= Z.shiftr (d * h + 1073741824) 31 <= d).
  { intros d Hdd. rewrite Z.shiftr_div_pow2 by lia. change (2 ^ 31) with 2147483648.
    split; [apply Z.div_pos; nia |].
    apply Z.lt_succ_r, Z.div_lt_upper_bound; nia. }
  destruct (decide (0 <= b - a)).
  - rewrite decide_True by nia. pose proof (Hmag (b - a) ltac:(lia)). unfold chk32.
    rewrite s32_small by word. rewrite decide_True by word. eexists. split; [done |]. lia.
  - destruct (decide (h = 0)) as [E|].
    + rewrite E, Z.mul_0_r. rewrite decide_True by lia. change (s32 (Z.shiftr (0 + 1073741824) 31)) with 0.
      rewrite Z.add_0_r. unfold chk32. rewrite decide_True by done. eexists. split; [done |]. lia.
    + rewrite decide_False by nia. replace (- ((b - a) * h)) with ((a - b) * h) by lia.
      pose proof (Hmag (a - b) ltac:(lia)). unfold chk32. rewrite s32_small by word.
      rewrite decide_True by word. eexists. split; [done |]. lia.
Qed.

Lemma interpolate_zero a b : is_s32 a -> is_s32 b -> interpolate a b 0 = Some a.
Proof.
  intros Ha Hb. unfold interpolate. change (Z.shiftr 0 1) with 0. rewrite Z.mul_0_r.
  rewrite decide_True by lia. change (s32 (Z.shiftr (0 + 1073741824) 31)) with 0.
  rewrite Z.add_0_r. unfold chk32. by rewrite decide_True.
Qed.

(** ** The resampler *)

Section resample.
Context (inp : list Z) (in_frames out_frames channels : Z).
Hypothesis (Hin : 2 <= in_frames < 4294967296) (Hout : 1 <= out_frames < 4294967296).
Hypothesis (Hch : channels = 1 \/ channels = 2) (Hlen : in_frames * channels <= zlen inp).
Hypothesis (H32 : Forall is_s32 inp).
(** No full-scale jump between neighbouring frames. *)
Hypothesis (Hjump : forall k a b, 0 <= k -> k + channels < in_frames * channels ->
  ld inp k = Some a -> ld inp (k + channels) = Some b -> Z.abs (b - a) <= INT32_MAX).

Let step := u64 (Z.shiftl in_frames 32) / out_frames.
Let index (i : Z) := i * step / 4294967296.

Lemma resample_position i :
  0 <= i < out_frames ->
  u64 (i * step) = i * step /\ u32 (Z.shiftr (i * step) 32) = index i /\ 0 <= index i < in_frames.
Proof using Hin Hout.
  intros Hi. rewrite Z.shiftr_div_pow2 by lia. change (2 ^ 32) with 4294967296.
  assert (Hs : step = in_frames * 4294967296 / out_frames).
  { unfold step. rewrite Z.shiftl_mul_pow2 by lia. change (2 ^ 32) with 4294967296.
    rewrite u64_small; [done | unfold is_u64; lia]. }
  assert (0 <= step) by (rewrite Hs; apply Z.div_pos; lia).
  assert (out_frames * step <= in_frames * 4294967296) by (rewrite Hs; apply Z.mul_div_le; lia).
  assert (Hpos : 0 <= i * step < in_frames * 4294967296) by nia.
  assert (Hidx : 0 <= index i < in_frames).
  { split; [apply Z.div_pos; lia | apply Z.div_lt_upper_bound; lia]. }
  split; [apply u64_small; unfold is_u64; lia |]. split; [| done]. apply u32_small. unfold is_u32. fold (index i). lia.
Qed.

(** The value channel [c] of output frame [i] gets. *)
Definition resampled (i c : Z) : ub Z :=
  if decide (in_frames - 1 <= index i) then ld inp ((in_frames - 1) * channels + c)
  else a ← ld inp (index i * channels + c); b ← ld inp ((index i + 1) * channels + c);
       interpolate a b (u32 (i * step)).

(** It is defined and lies between the two input frames around it. *)
Lemma resampled_between i c :
  0 <= i < out_frames -> 0 <= c < channels ->
  exists j y a b, resampled i c = Some y /\ 0 <= j < in_frames /\ ld inp (j * channels + c) = Some a /\
    ld inp (Z.min (j + 1) (in_frames - 1) * channels + c) = Some b /\ Z.min a b <= y <= Z.max a b.
Proof using Hin Hout Hch Hlen H32 Hjump.
  intros Hi Hc. destruct (resample_position i Hi) as (_ & _ & Hidx). unfold resampled. case_decide as Hd.
  - destruct (ld_is_Some inp ((in_frames - 1) * channels + c)) as [a Ha]; [nia |].
    exists (in_frames - 1), a, a, a. split_and!; try done; try lia.
    replace (Z.min (in_frames - 1 + 1) (in_frames - 1)) with (in_frames - 1) by lia. done.
  - destruct (ld_is_Some inp (index i * channels + c)) as [a Ha]; [nia |].
    destruct (ld_is_Some inp ((index i + 1) * channels + c)) as [b Hb]; [nia |].
    rewrite Ha, Hb. cbn [mbind option_bind].
    assert (Hs : forall k x, ld inp k = Some x -> is_s32 x).
    { intros k x Hx. unfold ld in Hx. case_decide; [| done]. rewrite Forall_lookup in H32. by eapply H32. }
    destruct (interpolate_between a b (u32 (i * step))) as (y & -> & Hy); eauto with eaf.
    { eapply (Hjump (index i * channels + c)); [nia | nia | done |]. rewrite <- Hb. f_equal. lia. }
    exists (index i), y, a, b. split_and!; try done; try lia.
    replace (Z.min (index i + 1) (in_frames - 1)) with (index i + 1) by lia. done.
Qed.

Lemma resample_round_eq i out :
  0 <= i < out_frames ->
  resample_round inp in_frames channels step i out = out_frame channels i (resampled i) out.
Proof using Hin Hout.
  intros Hi. destruct (resample_position i Hi) as (Hp & Hidx & _). unfold resample_round. rewrite Hp, Hidx.
  unfold resampled. by case_decide.
Qed.

Lemma resample_run out :
  out_frames * channels <= zlen out ->
  exists out', for_to out_frames (resample_round inp in_frames channels step) out = Some out' /\
    zlen out' = zlen out /\
    (forall i c, 0 <= i < out_frames -> 0 <= c < channels -> ld out' (i * channels + c) = resampled i c) /\
    (forall k, out_frames * channels <= k -> ld out' k = ld out k).
Proof using Hin Hout Hch Hlen H32 Hjump.
  intros Hfit. set (g := fun k => default 0 (resampled (k / channels) (k mod channels))).
  assert (Hg : forall i c, 0 <= i < out_frames -> 0 <= c < channels -> resampled i c = Some (g (i * channels + c))).
  { intros i c Hi Hc. unfold g. rewrite Z.div_add_l, (Z.div_small c), Z.add_0_r by lia.
    rewrite Z.add_comm, Z.mod_add, Z.mod_small by lia.
    by destruct (resampled_between i c Hi Hc) as (j & y & a & b & -> & _). }
  assert (Hrun : for_to out_frames (resample_round inp in_frames channels step) out
    = for_to (out_frames * channels) (fun k o => st o (0 + k) (g k)) out).
  { rewrite <- for_nested by lia. apply for_to_ext. intros i o Hi. rewrite resample_round_eq by done.
    unfold out_frame. apply for_to_ext. intros c o' Hc. rewrite Hg by done. done. }
  destruct (for_st g out 0 (out_frames * channels)) as (out' & Hst & Hz & Heq); [lia | nia | lia |].
  rewrite Hrun, Hst. exists out'. split; [done |]. split; [done |].
  assert (Hgz : zlen (g <$> seqZ 0 (out_frames * channels)) = out_frames * channels)
    by (rewrite zlen_fmap; apply zlen_seqZ; nia).
  split.
  - intros i c Hi Hc. rewrite (Hg i c Hi Hc), Heq, ld_lookup, lookup_splice by nia. rewrite decide_True by nia.
    rewrite list_lookup_fmap, lookup_seqZ_lt by nia. simpl. do 2 f_equal. nia.
  - intros k Hk. unfold ld. case_decide; [| done]. rewrite Heq, lookup_splice by lia. by rewrite decide_False by lia.
Qed.
End resample.

(** ** Properties *)

(** Resampling a block: with no full-scale jump between neighbouring input
    frames, every output sample is written, lies between the two neighbouring
    input samples of its channel (so it never overshoots), all reads and writes
    are in bounds, and nothing beyond the output block is touched. *)
Theorem resample_interpolates (inp out : list Z) (in_frames out_frames channels : Z) :
  2 <= in_frames < 4294967296 -> 1 <= out_frames < 4294967296 -> (channels = 1 \/ channels = 2) ->
  in_frames * channels <= zlen inp -> out_frames * channels <= zlen out -> Forall is_s32 inp ->
  (forall k a b, 0 <= k -> k + channels < in_frames * channels ->
     ld inp k = Some a -> ld inp (k + channels) = Some b -> Z.abs (b - a) <= INT32_MAX) ->
  exists out', eaf_sync_resample (Some inp) in_frames (Some out) out_frames channels = Some (Some out', out_frames) /\
    zlen out' = zlen out /\ (forall k, out_frames * channels <= k -> ld out' k = ld out k) /\
    (forall i c, 0 <= i < out_frames -> 0 <= c < channels ->
       exists j y a b, ld out' (i * channels + c) = Some y /\ 0 <= j < in_frames /\
         ld inp (j * channels + c) = Some a /\
         ld inp (Z.min (j + 1) (in_frames - 1) * channels + c) = Some b /\ Z.min a b <= y <= Z.max a b).
Proof.
  intros Hin Hout Hch Hlen Hfit H32 Hjump. unfold eaf_sync_resample.
  rewrite !bool_decide_eq_false_2 by lia. cbn [orb].
  replace (negb (bool_decide (channels = 1)) && negb (bool_decide (channels = 2))) with false
    by (destruct Hch as [-> | ->]; done).
  rewrite decide_False by lia.
  destruct (resample_run inp in_frames out_frames channels Hin Hout Hch Hlen H32 Hjump out Hfit)
    as (out' & -> & Hz & Hval & Hrest).
  exists out'. split; [done |]. split; [done |]. split; [done |]. intros i c Hi Hc. rewrite Hval by done.
  by apply resampled_between.
Qed.

Lemma resample_interpolates_witness :
  exists out', eaf_sync_resample (Some [0; 100; -100; 50]) 4 (Some (replicate 8 7)) 6 1 = Some (Some out', 6) /\
    zlen out' = 8.
Proof.
  destruct (resample_interpolates [0; 100; -100; 50] (replicate 8 7) 4 6 1) as (o & H1 & H2 & _);
    [lia | lia | by left | discriminate | discriminate | repeat constructor; word | |
     exists o; split; [exact H1 | exact H2]].
  intros k a b H0 Hk Ha Hb. assert (Hs : forall j x, ld [0; 100; -100; 50] j = Some x -> -100 <= x <= 100).
  { intros j x Hx. unfold ld in Hx. destruct (decide (0 <= j)); [| discriminate].
    assert (Hall : Forall (fun x => -100 <= x <= 100) [0; 100; -100; 50]) by (repeat constructor; lia).
    rewrite Forall_lookup in Hall. by eapply Hall. }
  pose proof (Hs _ _ Ha). pose proof (Hs _ _ Hb). unfold INT32_MAX. lia.
Defined.

(** Equal rates are the identity: a block resampled to its own length is copied
    unchanged, whatever the samples. *)
Theorem resample_identity (inp out : list Z) (n channels : Z) :
  2 <= n < 4294967296 -> (channels = 1 \/ channels = 2) -> zlen inp = n * channels -> zlen out = n * channels ->
  Forall is_s32 inp ->
  eaf_sync_resample (Some inp) n (Some out) n channels = Some (Some inp, n).
Proof.
  intros Hn Hch Hi Ho H32. unfold eaf_sync_resample.
  rewrite !bool_decide_eq_false_2 by lia. cbn [orb].
  replace (negb (bool_decide (channels = 1)) && negb (bool_decide (channels = 2))) with false
    by (destruct Hch as [-> | ->]; done).
  rewrite decide_False by lia. rewrite Z.shiftl_mul_pow2 by lia. change (2 ^ 32) with 4294967296.
  rewrite u64_small by (unfold is_u64; lia). replace (n * 4294967296 / n) with 4294967296
    by (rewrite Z.mul_comm; by rewrite Z.div_mul by lia).
  set (g := fun k => default 0 (ld inp k)).
  assert (Hg : forall k, 0 <= k < n * channels -> ld inp k = Some (g k)).
  { intros k Hk. unfold g. by destruct (ld_is_Some inp k ltac:(lia)) as [x ->]. }
  assert (Hs : forall k, 0 <= k < n * channels -> is_s32 (g k)).
  { intros k Hk. pose proof (Hg k Hk) as Hl. rewrite ld_lookup in Hl by lia. rewrite Forall_lookup in H32. by eapply H32. }
  assert (Hrun : for_to n (resample_round inp n channels 4294967296) out
    = for_to (n * channels) (fun k o => st o (0 + k) (g k)) out).
  { rewrite <- for_nested by lia. apply for_to_ext. intros i o Hir. unfold resample_round, out_frame.
    rewrite u64_small by (unfold is_u64; lia). rewrite Z.shiftr_div_pow2 by lia. change (2 ^ 32) with 4294967296.
    rewrite Z.div_mul, (u32_small i) by (unfold is_u32; lia). replace (u32 (i * 4294967296)) with 0 by (unfold u32; by rewrite Z.mod_mul).
    case_decide as Hd; apply for_to_ext; intros c o' Hc.
    - replace (n - 1) with i by lia. rewrite Hg by nia. done.
    - rewrite Hg by nia. cbn [mbind option_bind]. rewrite Hg by nia. cbn [mbind option_bind].
      rewrite interpolate_zero by (apply Hs; nia). done. }
  destruct (for_st g out 0 (n * channels)) as (out' & Hst & Hz & Heq); [lia | nia | lia |].
  rewrite Hrun, Hst. cbn [mbind option_bind]. do 3 f_equal. rewrite Heq. apply list_eq. intros k.
  assert (Hgz : zlen (g <$> seqZ 0 (n * channels)) = n * channels) by (rewrite zlen_fmap; apply zlen_seqZ; nia).
  rewrite lookup_splice by lia. case_decide.
  - rewrite list_lookup_fmap, lookup_seqZ_lt by lia. simpl.
    pose proof (Hg (Z.of_nat k) ltac:(lia)) as Hl. rewrite ld_lookup, Nat2Z.id in Hl by lia. rewrite Hl.
    do 2 f_equal. lia.
  - rewrite !lookup_ge_None_2; [done | |]; unfold zlen in *; lia.
Qed.

Lemma resample_identity_witness :
  eaf_sync_resample (Some [INT32_MIN; 5; INT32_MAX; 6]) 2 (Some [0; 0; 0; 0]) 2 2
    = Some (Some [INT32_MIN; 5; INT32_MAX; 6], 2).
Proof. apply resample_identity; [lia | by right | reflexivity | reflexivity | repeat constructor; word]. Defined.

(** A full-scale jump between neighbouring samples makes the interpolation
    overflow a signed 32-bit addition, which C leaves undefined: halfway between
    the two extremes the increment is 2{^31}, which the cast wraps to a negative
    number that is then added to the most negative sample. *)
Theorem interpolate_full_scale_overflow :
  interpolate INT32_MIN INT32_MAX 2147483648 = None /\
  eaf_sync_resample (Some [INT32_MIN; INT32_MAX]) 2 (Some [0; 0; 0; 0]) 4 1 = None.
Proof. split; vm_compute; reflexivity. Qed.
