(* ===== verification/BtIngress.v ===== *)
(** The Bluetooth A2DP packet queue: [apps/bt/bt_ingress.c], [include/eaf/eaf_bt.h]. *)

From S2P Require Import Prelude Types Ring Spsc Bytes.

Definition EAF_BT_PACKET_BYTES : Z := 1024.
Definition EAF_BT_QUEUE_PACKETS : Z := 8.

Record eaf_bt_packet_t := BtPacket {
  sequence : Z;
  pkt_length : Z;          (* uint16_t length *)
  timestamp : Z;
  pkt_frame_count : Z;     (* uint8_t frame_count *)
  pkt_discontinuity : bool;
  pkt_data : list Z        (* uint8_t data[EAF_BT_PACKET_BYTES] *)
}.
Definition packet_zero : eaf_bt_packet_t :=
  BtPacket 0 0 0 0 false (replicate (Z.to_nat EAF_BT_PACKET_BYTES) 0).
#[export] Instance bt_packet_inhabited : Inhabited eaf_bt_packet_t := populate packet_zero.

Record eaf_bt_ingress_t := BtIngress {
  slots : list eaf_bt_packet_t;
  read_cursor : Z;
  write_cursor : Z;
  dropped : Z;
  expected_sequence : Z;
  have_sequence : bool;
  discontinuity : bool
}.

Definition eaf_bt_ingress_init (q : eaf_bt_ingress_t) : eaf_bt_ingress_t :=
  BtIngress (replicate (Z.to_nat EAF_BT_QUEUE_PACKETS) packet_zero) 0 0 0 0 false false.

(** [++q->dropped; q->discontinuity = true;] *)
Definition drop_packet (q : eaf_bt_ingress_t) : eaf_bt_ingress_t :=
  BtIngress (slots q) (read_cursor q) (write_cursor q) (u32 (dropped q + 1)) (expected_sequence q)
    (have_sequence q) true.

Definition receive_invalid (payload : list Z) (length : Z) : ub bool :=
  if decide (length < 2 \/ length - 1 > EAF_BT_PACKET_BYTES) then Some true
  else
    header ← ld payload 0;
    Some (negb (bool_decide (Z.land header 240 = 0)) || bool_decide (Z.land header 15 = 0)).

Definition eaf_bt_sbc_receive (q : ptr eaf_bt_ingress_t) (seq ts : Z) (payload : ptr (list Z)) (length : Z)
  : ub (ptr eaf_bt_ingress_t * Z) :=
  on_ptr q EAF_INVALID (fun q =>
    invalid ← (match payload with None => Some true | Some pl => receive_invalid pl length end);
    if invalid : bool then Some (drop_packet q, EAF_INVALID)
    else
      pl ← payload;
      header ← ld pl 0;
      let gap := have_sequence q && negb (bool_decide (seq = expected_sequence q)) in
      let q := BtIngress (slots q) (read_cursor q) (write_cursor q) (dropped q) (u16 (seq + 1)) true
                 (discontinuity q) in
      let write := write_cursor q in
      if decide (u32 (write - read_cursor q) = EAF_BT_QUEUE_PACKETS) then Some (drop_packet q, EAF_IO)
      else
        let slot := write mod EAF_BT_QUEUE_PACKETS in
        p ← ld (slots q) slot;
        data ← memcpy (pkt_data p) 0 pl 1 (length - 1);
        let p := BtPacket seq (u16 (length - 1)) ts (Z.land header 15) (gap || discontinuity q) data in
        slots' ← st (slots q) slot p;
        Some (BtIngress slots' (read_cursor q) (u32 (write + 1)) (dropped q) (expected_sequence q)
                (have_sequence q) false, EAF_OK)).

(** [out] is the caller's packet: only [length] bytes of its data are written. *)
Definition eaf_bt_ingress_pop (q : ptr eaf_bt_ingress_t) (out : ptr eaf_bt_packet_t)
  : ub (ptr eaf_bt_ingress_t * (ptr eaf_bt_packet_t * bool)) :=
  on_ptr q (out, false) (fun q =>
    match out with
    | None => Some (q, (None, false))
    | Some o =>
        let read := read_cursor q in
        if decide (read = write_cursor q) then Some (q, (Some o, false))
        else
          p ← ld (slots q) (read mod EAF_BT_QUEUE_PACKETS);
          data ← memcpy (pkt_data o) 0 (pkt_data p) 0 (pkt_length p);
          Some (BtIngress (slots q) (u32 (read + 1)) (write_cursor q) (dropped q) (expected_sequence q)
                  (have_sequence q) (discontinuity q),
                (Some (BtPacket (sequence p) (pkt_length p) (timestamp p) (pkt_frame_count p)
                         (pkt_discontinuity p) data), true))
    end).

(** ** Reference view

    A packet is observed through the bytes its length covers. *)
Record packet := Packet {
  p_sequence : Z; p_timestamp : Z; p_frames : Z; p_flag : bool; p_bytes : list Z
}.
Definition view (p : eaf_bt_packet_t) : packet :=
  Packet (sequence p) (timestamp p) (pkt_frame_count p) (pkt_discontinuity p)
    (slice (pkt_data p) 0 (pkt_length p)).

Definition packet_wf (p : eaf_bt_packet_t) : Prop :=
  zlen (pkt_data p) = EAF_BT_PACKET_BYTES /\ 0 <= pkt_length p <= EAF_BT_PACKET_BYTES.

Definition queued (q : eaf_bt_ingress_t) : Z := u32 (write_cursor q - read_cursor q).
Definition contents (q : eaf_bt_ingress_t) : list packet :=
  view <$> ring_view (slots q) (read_cursor q) (queued q).

Record ingress_wf (q : eaf_bt_ingress_t) : Prop := {
  in_slots : zlen (slots q) = EAF_BT_QUEUE_PACKETS;
  in_read : is_u32 (read_cursor q);
  in_write : is_u32 (write_cursor q);
  in_level : queued q <= EAF_BT_QUEUE_PACKETS;
  in_packets : Forall packet_wf (slots q)
}.

(** The media packets A2DP may hand over: an unfragmented SBC header and at
    least one byte, at most a slot's worth. *)
Definition media_ok (pl : list Z) : bool :=
  bool_decide (2 <= zlen pl <= EAF_BT_PACKET_BYTES + 1) &&
  bool_decide (1 <= default 0 (pl !! 0%nat) <= 15).

Definition media_packet (seq ts : Z) (pl : list Z) (flag : bool) : packet :=
  Packet seq ts (default 0 (pl !! 0%nat)) flag (drop 1 pl).

Lemma header_test h :
  is_u8 h -> (negb (bool_decide (Z.land h 240 = 0)) || bool_decide (Z.land h 15 = 0))
             = negb (bool_decide (1 <= h <= 15)).
Proof.
  intros Hh. apply eqb_prop.
  refine (check_range (fun x : Z => Bool.eqb (negb (bool_decide (Z.land x 240 = 0)) || bool_decide (Z.land x 15 = 0))
    (negb (bool_decide (1 <= x <= 15)))) 0 256 h _ Hh). by vm_compute.
Qed.

Lemma header_frames h : 1 <= h <= 15 -> Z.land h 15 = h.
Proof.
  intros. change 15 with (2 ^ 4 - 1). rewrite land_mask_mod by lia. change (2 ^ 4) with 16. word.
Qed.

Lemma receive_invalid_media pl :
  bytes_wf pl -> receive_invalid pl (zlen pl) = Some (negb (media_ok pl)).
Proof.
  intros Hb. unfold receive_invalid, media_ok, EAF_BT_PACKET_BYTES. case_decide as Hl.
  - rewrite bool_decide_eq_false_2 by lia. done.
  - rewrite bool_decide_eq_true_2 by lia. destruct pl as [|h pl]; [unfold zlen in Hl; simpl in Hl; lia |].
    inversion_clear Hb. simpl. by rewrite header_test by done.
Qed.

Lemma packet_slot_mod x : u32 x mod 8 = x mod 8.
Proof. apply u32_mod_divides; [lia | by exists 536870912]. Qed.

(** ** Operations on a well-formed queue *)

Lemma receive_spec q seq ts pl :
  ingress_wf q -> bytes_wf pl ->
  let full := bool_decide (zlen (contents q) = EAF_BT_QUEUE_PACKETS) in
  let gap := have_sequence q && negb (bool_decide (seq = expected_sequence q)) in
  exists q',
    eaf_bt_sbc_receive (Some q) seq ts (Some pl) (zlen pl)
      = Some (Some q', if media_ok pl then if full then EAF_IO else EAF_OK else EAF_INVALID) /\
    ingress_wf q' /\
    contents q' = (if media_ok pl && negb full
                   then contents q ++ [media_packet seq ts pl (gap || discontinuity q)] else contents q) /\
    discontinuity q' = negb (media_ok pl && negb full) /\
    have_sequence q' = (have_sequence q || media_ok pl) /\
    expected_sequence q' = (if media_ok pl then u16 (seq + 1) else expected_sequence q).
Proof.
  intros [Hs Hr Hw Hl Hp] Hb full gap.
  assert (Hlen : zlen (contents q) = queued q).
  { unfold contents. rewrite zlen_fmap, zlen_ring_view; [done |]. unfold queued. word. }
  unfold eaf_bt_sbc_receive, on_ptr. rewrite receive_invalid_media by done. simpl.
  destruct (media_ok pl) eqn:Hm; simpl.
  2: { eexists. split; [done |]. rewrite orb_false_r. split; [by split | done]. }
  unfold media_ok in Hm. apply andb_true_iff in Hm as [Hm1%bool_decide_eq_true Hm2%bool_decide_eq_true].
  unfold EAF_BT_PACKET_BYTES in Hm1. destruct pl as [|h pl]; [unfold zlen in Hm1; simpl in Hm1; lia |].
  simpl in Hm2. cbn [ld]. simpl. rewrite orb_true_r. fold (queued q).
  unfold full. rewrite Hlen. case_decide as Hfull; simpl.
  { rewrite (bool_decide_eq_true_2 (queued q = _)) by done. eexists. split; [done |]. simpl. split; [by split | done]. }
  rewrite (bool_decide_eq_false_2 (queued q = _)) by done. unfold EAF_BT_QUEUE_PACKETS in *.
  assert (Hslot : 0 <= write_cursor q mod 8 < 8) by (apply Z.mod_pos_bound; lia).
  rewrite ld_total by lia. simpl.
  set (p := slots q !!! _).
  assert (Hpw : packet_wf p).
  { rewrite Forall_lookup in Hp. apply (Hp (Z.to_nat (write_cursor q mod 8))).
    apply list_lookup_lookup_total_lt, length_zlen. lia. }
  destruct Hpw as [Hpd Hpl]. unfold EAF_BT_PACKET_BYTES in *.
  rewrite zlen_cons in *. rewrite memcpy_eq by (rewrite ?zlen_cons; lia). simpl. rewrite st_eq by lia. simpl.
  set (data := splice _ _ _).
  assert (Hsl : slice (h :: pl) 1 (zlen pl + 1 - 1) = pl).
  { unfold slice. simpl. apply take_ge. unfold zlen. lia. }
  assert (Hdl : zlen data = 1024).
  { unfold data. rewrite Hsl, zlen_splice; lia. }
  assert (Hn : u32 (u32 (write_cursor q + 1) - read_cursor q) = queued q + 1) by (unfold queued in *; word).
  eexists. split; [done |]. split.
  { split; simpl; [by rewrite zlen_insert | done | apply u32_range | |].
    - unfold queued in *. simpl. rewrite Hn. unfold EAF_BT_QUEUE_PACKETS. lia.
    - apply Forall_insert; [done |]. split; simpl; [done |]. unfold EAF_BT_PACKET_BYTES. word. }
  split; [| done]. unfold contents, queued at 1. simpl. rewrite Hn.
  set (x := BtPacket _ _ _ _ _ _).
  pose proof (store2_view (slots q) (read_cursor q) (queued q) [x] ltac:(unfold queued; word) ltac:(lia)) as Hv.
  change (zlen [x]) with 1 in Hv. specialize (Hv ltac:(lia)).
  assert (Hw8 : (read_cursor q + queued q) mod zlen (slots q) = write_cursor q mod 8).
  { rewrite Hs. unfold queued. rewrite <- Z.add_mod_idemp_r, packet_slot_mod, Z.add_mod_idemp_r by lia.
    f_equal. lia. }
  rewrite Hw8, store2_singleton in Hv by lia. rewrite Hv, fmap_app. f_equal. simpl. f_equal.
  unfold x, view, media_packet. simpl. rewrite header_frames by lia. f_equal.
  rewrite u16_small by word. unfold data. rewrite Hsl. rewrite drop_0.
  replace (zlen pl + 1 - 1) with (zlen pl) by lia.
  pose proof (slice_splice (pkt_data p) pl 0 0 (zlen pl)) as Hss. change (0 + 0) with 0 in Hss.
  rewrite Hss by lia. apply slice_0_all.
Qed.

Lemma pop_spec q o :
  ingress_wf q -> zlen (pkt_data o) = EAF_BT_PACKET_BYTES ->
  exists q' o' b,
    eaf_bt_ingress_pop (Some q) (Some o) = Some (Some q', (Some o', b)) /\ ingress_wf q' /\
    (if b : bool then contents q = view o' :: contents q' /\ packet_wf o'
     else q' = q /\ o' = o /\ contents q = []) /\
    discontinuity q' = discontinuity q /\ have_sequence q' = have_sequence q /\
    expected_sequence q' = expected_sequence q.
Proof.
  intros [Hs Hr Hw Hl Hp] Ho. unfold eaf_bt_ingress_pop, on_ptr. case_decide as Hempty; simpl.
  { exists q, o, false. split; [done |]. split; [done |]. split; [| done]. split; [done |]. split; [done |].
    unfold contents, queued. by rewrite Hempty, Z.sub_diag. }
  unfold EAF_BT_QUEUE_PACKETS, EAF_BT_PACKET_BYTES in *.
  assert (Hslot : 0 <= read_cursor q mod 8 < 8) by (apply Z.mod_pos_bound; lia).
  rewrite ld_total by lia. simpl. set (p := slots q !!! _).
  assert (Hpw : packet_wf p).
  { rewrite Forall_lookup in Hp. apply (Hp (Z.to_nat (read_cursor q mod 8))).
    apply list_lookup_lookup_total_lt, length_zlen. lia. }
  destruct Hpw as [Hpd Hpl]. unfold EAF_BT_PACKET_BYTES in *. rewrite memcpy_eq by lia. simpl.
  eexists _, _, true. split; [done |].
  assert (Hss : zlen (slice (pkt_data p) 0 (pkt_length p)) = pkt_length p) by (rewrite zlen_slice; lia).
  split.
  { split; simpl; [done | apply u32_range | done | | done]. unfold queued, EAF_BT_QUEUE_PACKETS in *. simpl. word. }
  split; [| done]. split.
  - unfold contents. rewrite ring_view_cons, Hs by (unfold queued; word). rewrite fmap_cons. f_equal.
    + unfold view. simpl. fold p. f_equal.
      pose proof (slice_splice (pkt_data o) (slice (pkt_data p) 0 (pkt_length p)) 0 0 (pkt_length p)) as H1.
      change (0 + 0) with 0 in H1. rewrite H1 by lia. symmetry. apply slice_full; lia.
    + f_equal. unfold queued. simpl.
      replace (u32 (write_cursor q - u32 (read_cursor q + 1)))
        with (u32 (write_cursor q - read_cursor q) - 1) by word.
      apply ring_view_congr; rewrite Hs; [lia |]. by rewrite packet_slot_mod.
  - split; simpl; [| done]. rewrite zlen_splice; unfold EAF_BT_PACKET_BYTES; lia.
Qed.

(** ** The reference queue

    At most eight packets; a packet is flagged unless it is the very first
    reception or directly continues the previous one, which was accepted. *)
Record reference := Reference {
  waiting : list packet;
  previous : option (option Z)   (* the last reception, and its sequence number if accepted *)
}.
Definition continues (prev : option (option Z)) (seq : Z) : bool :=
  match prev with
  | None => true
  | Some None => false
  | Some (Some s) => bool_decide (seq = u16 (s + 1))
  end.
Definition ref_receive (r : reference) (seq ts : Z) (pl : list Z) : reference * Z :=
  if media_ok pl then
    if decide (zlen (waiting r) = EAF_BT_QUEUE_PACKETS) then (Reference (waiting r) (Some None), EAF_IO)
    else (Reference (waiting r ++ [media_packet seq ts pl (negb (continues (previous r) seq))])
            (Some (Some seq)), EAF_OK)
  else (Reference (waiting r) (Some None), EAF_INVALID).

Inductive bt_op := Receive (seq ts : Z) (pl : list Z) | Fetch.

Fixpoint ref_run (ops : list bt_op) (r : reference) : reference * list Z * list packet :=
  match ops with
  | [] => (r, [], [])
  | Receive seq ts pl :: ops =>
      let '(r1, rc) := ref_receive r seq ts pl in
      let '(r2, rcs, outs) := ref_run ops r1 in (r2, rc :: rcs, outs)
  | Fetch :: ops =>
      match waiting r with
      | [] => ref_run ops r
      | p :: w => let '(r2, rcs, outs) := ref_run ops (Reference w (previous r)) in (r2, rcs, p :: outs)
      end
  end.

(** The same script on the queue; [o] is the consumer's scratch packet. *)
Fixpoint bt_run (ops : list bt_op) (q : eaf_bt_ingress_t) (o : eaf_bt_packet_t)
  : ub (eaf_bt_ingress_t * list Z * list packet) :=
  match ops with
  | [] => Some (q, [], [])
  | Receive seq ts pl :: ops =>
      '(q1, rc) ← with_ref (fun p => eaf_bt_sbc_receive p seq ts (Some pl) (zlen pl)) q;
      '(q2, rcs, outs) ← bt_run ops q1 o;
      Some (q2, rc :: rcs, outs)
  | Fetch :: ops =>
      '(q1, (o1, b)) ← with_ref (fun p => eaf_bt_ingress_pop p (Some o)) q;
      o1 ← o1;
      '(q2, rcs, outs) ← bt_run ops q1 o1;
      Some (q2, rcs, if b : bool then view o1 :: outs else outs)
  end.

Definition bt_op_ok (op : bt_op) : Prop :=
  match op with Receive _ _ pl => bytes_wf pl | Fetch => True end.

(** What the cursors and flags of a queue stand for. *)
Record refines (q : eaf_bt_ingress_t) (r : reference) : Prop := {
  ref_wf : ingress_wf q;
  ref_waiting : contents q = waiting r;
  ref_previous :
    match previous r with
    | None => discontinuity q = false /\ have_sequence q = false
    | Some None => discontinuity q = true
    | Some (Some s) => discontinuity q = false /\ have_sequence q = true /\ expected_sequence q = u16 (s + 1)
    end
}.

Lemma refines_flag q r seq :
  refines q r ->
  have_sequence q && negb (bool_decide (seq = expected_sequence q)) || discontinuity q
  = negb (continues (previous r) seq).
Proof.
  intros [_ _ Hp]. destruct (previous r) as [[s|]|]; simpl.
  - destruct Hp as (-> & -> & ->). simpl. by rewrite orb_false_r.
  - rewrite Hp. apply orb_true_r.
  - destruct Hp as [-> ->]. done.
Qed.

Lemma refines_receive q r seq ts pl :
  refines q r -> bytes_wf pl ->
  exists q', eaf_bt_sbc_receive (Some q) seq ts (Some pl) (zlen pl)
      = Some (Some q', (ref_receive r seq ts pl).2) /\ refines q' (ref_receive r seq ts pl).1.
Proof.
  intros Href Hb. pose proof (refines_flag q r seq Href) as Hflag. destruct Href as [Hwf Hc Hp].
  destruct (receive_spec q seq ts pl Hwf Hb) as (q' & Hrun & Hwf' & Hc' & Hd & Hh & He).
  exists q'. unfold ref_receive. rewrite Hrun. rewrite Hflag in Hc'. rewrite Hc in *.
  destruct (media_ok pl); simpl in *; [| by split].
  rewrite orb_true_r in Hh. destruct (decide (zlen (waiting r) = EAF_BT_QUEUE_PACKETS)) as [Hf|Hf].
  - rewrite (bool_decide_eq_true_2 (zlen (waiting r) = _)) in Hc', Hd |- * by done. by split; [| split].
  - rewrite (bool_decide_eq_false_2 (zlen (waiting r) = _)) in Hc', Hd |- * by done. by split; [| split].
Qed.

Lemma bt_run_refines ops q r o :
  Forall bt_op_ok ops -> refines q r -> zlen (pkt_data o) = EAF_BT_PACKET_BYTES ->
  exists q' rcs outs r',
    bt_run ops q o = Some (q', rcs, outs) /\ ref_run ops r = (r', rcs, outs) /\ refines q' r'.
Proof.
  revert q r o. induction ops as [|[seq ts pl|] ops IH]; intros q r o Hok Href Ho; simpl.
  - eexists _, _, _, _. done.
  - apply List.Forall_cons_iff in Hok as [Hb Hok].
    destruct (refines_receive q r seq ts pl Href Hb) as (q1 & Hrun & Href1).
    unfold with_ref. rewrite Hrun. simpl. destruct (ref_receive r seq ts pl) as [r1 rc].
    destruct (IH q1 r1 o Hok Href1 Ho) as (q' & rcs & outs & r' & -> & -> & Href'). simpl.
    eexists _, _, _, _. done.
  - apply List.Forall_cons_iff in Hok as [_ Hok]. destruct Href as [Hwf Hc Hp].
    destruct (pop_spec q o Hwf Ho) as (q1 & o1 & b & Hrun & Hwf1 & Hb & Hd & Hh & He).
    unfold with_ref. rewrite Hrun. simpl. destruct b.
    + destruct Hb as [Hb [Ho1 _]]. rewrite Hc in Hb. rewrite Hb.
      destruct (IH q1 (Reference (contents q1) (previous r)) o1 Hok) as (q' & rcs & outs & r' & -> & -> & Href');
        [split; simpl; [done | done | by rewrite Hd, Hh, He] | done |]. simpl. eexists _, _, _, _. done.
    + destruct Hb as (-> & -> & Hb). rewrite Hc in Hb. rewrite Hb.
      destruct (IH q r o Hok) as (q' & rcs & outs & r' & -> & -> & Href'); [by split | done |].
      eexists _, _, _, _. done.
Qed.

Lemma packet_zero_wf : packet_wf packet_zero.
Proof. split; done. Qed.

Lemma ingress_init_refines q : refines (eaf_bt_ingress_init q) (Reference [] None).
Proof.
  split; [| done | done]. split; [done | done | done | done |].
  unfold eaf_bt_ingress_init. apply Forall_replicate, packet_zero_wf.
Qed.

(** ** Concurrency: the calls are runs of the interleaving model's steps. *)

Abbreviation bt_step := (spsc_step EAF_BT_QUEUE_PACKETS 1).

Lemma ingress_geometry q : ingress_wf q -> spsc_geometry EAF_BT_QUEUE_PACKETS 1 (slots q).
Proof.
  intros [Hs _ _ _ _]. unfold EAF_BT_QUEUE_PACKETS in *.
  split; [lia | lia | by exists 536870912 | lia].
Qed.

Lemma receive_steps q q' seq ts pl cs se re :
  ingress_wf q -> bytes_wf pl ->
  eaf_bt_sbc_receive (Some q) seq ts (Some pl) (zlen pl) = Some (Some q', EAF_OK) ->
  exists p, p_bytes (view p) = drop 1 pl /\ sequence p = seq /\
    rtc bt_step (Spsc (slots q) (read_cursor q) (write_cursor q) false P_idle cs se re)
      (Spsc (slots q') (read_cursor q') (write_cursor q') false P_idle cs (se ++ [p]) re).
Proof.
  intros Hwf Hb Hrun. destruct (receive_spec q seq ts pl Hwf Hb) as (q1 & Hrun1 & _ & Hc & _).
  rewrite Hrun in Hrun1. destruct (media_ok pl) eqn:Hm; [| done].
  destruct (bool_decide _) eqn:Hfull; [done |]. injection Hrun1 as ->. simpl in Hc.
  revert Hrun Hc. destruct Hwf as [Hs Hr Hw Hl Hp]. unfold eaf_bt_sbc_receive, on_ptr.
  rewrite receive_invalid_media, Hm by done. simpl. destruct (ld pl 0); [| done]. simpl.
  destruct (decide (u32 (write_cursor q - read_cursor q) = EAF_BT_QUEUE_PACKETS)) as [Hf|Hf]; [done |].
  unfold EAF_BT_QUEUE_PACKETS in *.
  assert (Hslot : 0 <= write_cursor q mod 8 < 8) by (apply Z.mod_pos_bound; lia).
  rewrite ld_total by lia. simpl. destruct (memcpy _ _ _ _ _) as [data|]; [| simpl; done].
  cbn [mbind option_bind]. rewrite st_eq by lia. cbn [mbind option_bind]. intros [= <-] Hc.
  set (p := BtPacket _ _ _ _ _ _) in *. exists p. simpl.
  fold (queued q) in Hf.
  split; [| split; [done |]].
  - unfold contents, queued at 1 in Hc. simpl in Hc.
    replace (u32 (u32 (write_cursor q + 1) - read_cursor q)) with (queued q + 1) in Hc
      by (unfold queued in *; word).
    pose proof (store2_view (slots q) (read_cursor q) (queued q) [p] ltac:(unfold queued; word) ltac:(lia)) as Hv.
    change (zlen [p]) with 1 in Hv. specialize (Hv ltac:(lia)).
    replace ((read_cursor q + queued q) mod zlen (slots q)) with (write_cursor q mod 8) in Hv.
    2: { rewrite Hs. unfold queued. rewrite <- Z.add_mod_idemp_r, packet_slot_mod, Z.add_mod_idemp_r by lia.
         f_equal. lia. }
    rewrite store2_singleton in Hv by lia. rewrite Hv, fmap_app in Hc. apply app_inv_head in Hc.
    apply (f_equal (fun l => p_bytes <$> head l)) in Hc. simpl in Hc. by injection Hc.
  - eapply rtc_l; [apply (p_load _ _ [p]) |].
    eapply rtc_l; [apply (p_check _ _ _ _ 1 [p]); [unfold queued in *; word | done | done] |].
    eapply rtc_l; [apply p_copy |]. eapply rtc_l; [apply p_publish |].
    rewrite Z.mul_1_r, store2_singleton; [apply rtc_refl |]. lia.
Qed.

Lemma fetch_steps q q' o o' ps f se re :
  ingress_wf q -> zlen (pkt_data o) = EAF_BT_PACKET_BYTES ->
  eaf_bt_ingress_pop (Some q) (Some o) = Some (Some q', (Some o', true)) ->
  exists p, view p = view o' /\
    rtc bt_step (Spsc (slots q) (read_cursor q) (write_cursor q) f ps C_idle se re)
      (Spsc (slots q') (read_cursor q') (write_cursor q') f ps C_idle se (re ++ [p])).
Proof.
  intros Hwf Ho Hrun. destruct (pop_spec q o Hwf Ho) as (q1 & o1 & b & Hrun1 & _ & Hb & _).
  rewrite Hrun in Hrun1. injection Hrun1 as <- <- <-. destruct Hb as [Hb _].
  revert Hrun Hb. destruct Hwf as [Hs Hr Hw Hl Hp]. unfold eaf_bt_ingress_pop, on_ptr.
  case_decide as Hempty; [done |]. unfold EAF_BT_QUEUE_PACKETS in *.
  assert (Hslot : 0 <= read_cursor q mod 8 < 8) by (apply Z.mod_pos_bound; lia).
  rewrite ld_total by lia. simpl. destruct (memcpy _ _ _ _ _) as [data|]; [| simpl; done].
  cbn [mbind option_bind]. intros [= <- <-] Hb. simpl.
  exists (slots q !!! Z.to_nat (read_cursor q mod 8)). split.
  - unfold contents in Hb. rewrite ring_view_cons, Hs in Hb by (unfold queued; word).
    rewrite fmap_cons in Hb. apply (f_equal head) in Hb. cbn [head] in Hb. injection Hb as Hb.
    unfold view. simpl. by rewrite Hb.
  - eapply rtc_l; [apply c_load |]. eapply rtc_l; [apply (c_check _ _ _ _ 1); unfold queued in *; word |].
    eapply rtc_l; [apply c_copy |]. eapply rtc_l; [apply c_release |].
    rewrite !Z.mul_1_l, Z.mul_1_r, load2_view, ring_view_1, Hs, Z.mod_mod by lia. apply rtc_refl.
Qed.

(** ** Properties *)

(** For every sequence of receptions and fetches on an initialised queue, the
    calls return what the reference queue returns: a well-formed packet is
    accepted unless eight are waiting, packets come out once, in order, with
    their own bytes, and a packet carries the discontinuity flag exactly when it
    does not directly continue the previous reception. *)
Theorem bt_ingress_refines (q : eaf_bt_ingress_t) (ops : list bt_op) :
  Forall bt_op_ok ops ->
  exists q' rcs outs r',
    bt_run ops (eaf_bt_ingress_init q) packet_zero = Some (q', rcs, outs) /\
    ref_run ops (Reference [] None) = (r', rcs, outs) /\
    contents q' = waiting r' /\ zlen (contents q') <= EAF_BT_QUEUE_PACKETS.
Proof.
  intros Hok.
  destruct (bt_run_refines ops _ _ packet_zero Hok (ingress_init_refines q)) as
    (q' & rcs & outs & r' & Hrun & Href & [Hwf Hc _]); [apply packet_zero_wf |].
  exists q', rcs, outs, r'. split; [done |]. split; [done |]. split; [done |].
  unfold contents. rewrite zlen_fmap, zlen_ring_view; [apply Hwf |]. unfold queued. word.
Qed.

Lemma bt_ingress_refines_witness :
  exists q' r',
    bt_run [Receive 65535 7 [1; 9]; Receive 0 8 [16; 9]; Receive 1 9 [2; 4; 4]; Fetch; Fetch]
      (eaf_bt_ingress_init (BtIngress [] 0 0 0 0 false false)) packet_zero
      = Some (q', [EAF_OK; EAF_INVALID; EAF_OK], [Packet 65535 7 1 false [9]; Packet 1 9 2 true [4; 4]]) /\
    contents q' = waiting r'.
Proof.
  destruct (bt_ingress_refines (BtIngress [] 0 0 0 0 false false)
    [Receive 65535 7 [1; 9]; Receive 0 8 [16; 9]; Receive 1 9 [2; 4; 4]; Fetch; Fetch]) as
    (q' & rcs & outs & r' & H1 & H2 & H3 & _); [repeat constructor; done |].
  vm_compute in H2. injection H2 as _ <- <-. exists q', r'. split; [exact H1 | exact H3].
Defined.

(** With the Bluetooth callback and the decode worker on different threads,
    interleaved at every atomic access: an accepted reception and a successful
    fetch are runs of their thread's steps (moving that packet's bytes), the
    worker receives a prefix of what was published, at most eight packets are in
    flight, and the slot being filled is never the slot being copied out. *)
Theorem bt_ingress_concurrent (q : eaf_bt_ingress_t) (s : spsc) :
  spsc_reachable EAF_BT_QUEUE_PACKETS 1 (slots (eaf_bt_ingress_init q)) s ->
  recv s `prefix_of` sent s /\ zlen (sent s) <= zlen (recv s) + EAF_BT_QUEUE_PACKETS /\
  (forall xs w f r a, producer s = P_room xs w 1 -> consumer s = C_avail f r a 1 ->
     w mod EAF_BT_QUEUE_PACKETS <> r mod EAF_BT_QUEUE_PACKETS) /\
  (forall q1 q2 seq ts pl cs se re, ingress_wf q1 -> bytes_wf pl ->
     eaf_bt_sbc_receive (Some q1) seq ts (Some pl) (zlen pl) = Some (Some q2, EAF_OK) ->
     exists p, p_bytes (view p) = drop 1 pl /\ sequence p = seq /\
       rtc bt_step (Spsc (slots q1) (read_cursor q1) (write_cursor q1) false P_idle cs se re)
         (Spsc (slots q2) (read_cursor q2) (write_cursor q2) false P_idle cs (se ++ [p]) re)) /\
  (forall q1 q2 o o' ps f se re, ingress_wf q1 -> zlen (pkt_data o) = EAF_BT_PACKET_BYTES ->
     eaf_bt_ingress_pop (Some q1) (Some o) = Some (Some q2, (Some o', true)) ->
     exists p, view p = view o' /\
       rtc bt_step (Spsc (slots q1) (read_cursor q1) (write_cursor q1) f ps C_idle se re)
         (Spsc (slots q2) (read_cursor q2) (write_cursor q2) f ps C_idle se (re ++ [p]))).
Proof.
  intros Hreach. pose proof (ingress_geometry _ (ref_wf _ _ (ingress_init_refines q))) as Hg.
  destruct (spsc_prefix _ _ _ _ Hg Hreach) as (Hpre & Hbound). split; [done |].
  split; [lia |]. split.
  - intros xs w f r a Hp Hc Heq.
    pose proof (spsc_race_free _ _ _ _ _ _ _ _ _ _ _ 0 0 Hg Hreach Hp Hc ltac:(lia) ltac:(lia)) as Hne.
    apply Hne. rewrite !Z.mul_1_r, !Z.add_0_r. by rewrite Heq.
  - split; intros; [by eapply receive_steps | by eapply fetch_steps].
Qed.

Lemma bt_ingress_concurrent_witness :
  let q := eaf_bt_ingress_init (BtIngress [] 0 0 0 0 false false) in
  let s := Spsc (slots q) 0 0 false (P_loaded [packet_zero] 0) C_idle [] [] in
  recv s `prefix_of` sent s /\ zlen (sent s) <= zlen (recv s) + EAF_BT_QUEUE_PACKETS.
Proof.
  intros q s.
  destruct (bt_ingress_concurrent (BtIngress [] 0 0 0 0 false false) s) as (H1 & H2 & _); [| split; assumption].
  apply rtc_once, (p_load _ _ [packet_zero]).
Defined.
