(* ===== verification/BtDecoder.v ===== *)
(** The Bluetooth decode worker: [apps/bt/bt_decoder.c], [include/eaf/eaf_bt_decoder.h].
    The SBC codec is a third-party library: its two entry points are functions
    on an abstract codec state [C]. *)

From S2P Require Import Prelude Types Bytes BtIngress Reservoir.

Section decoder.
Context {C : Type}.

(** [frame] is given the bytes from the current offset and their count, and the
    caller's [pcm16]; it returns its code, the bytes used, [pcm16], the frames
    produced and their format. *)
Record eaf_sbc_decoder_t := SbcDecoder {
  sbc_reset : option (C -> ub (C * Z));
  sbc_frame : option (C -> list Z -> Z -> list Z -> ub (C * (Z * Z * list Z * Z * eaf_format_t)));
  sbc_ctx : C
}.

Record eaf_bt_decoder_t := BtDecoder {
  ingress : ptr eaf_bt_ingress_t;
  reservoir : ptr eaf_reservoir_t;
  decoder : eaf_sbc_decoder_t;
  bt_packet : eaf_bt_packet_t;
  offset : Z;
  frames_left : Z;
  pcm16 : list Z;     (* int16_t [256] *)
  pcm31 : list Z;     (* int32_t [256] *)
  pending : Z;
  sent : Z;
  rejected : Z
}.

Definition set_codec (x : C) (d : eaf_bt_decoder_t) : eaf_bt_decoder_t :=
  BtDecoder (ingress d) (reservoir d) (SbcDecoder (sbc_reset (decoder d)) (sbc_frame (decoder d)) x)
    (bt_packet d) (offset d) (frames_left d) (pcm16 d) (pcm31 d) (pending d) (sent d) (rejected d).
Definition set_pcm (r : ptr eaf_reservoir_t) (p16 p31 : list Z) (p s : Z) (d : eaf_bt_decoder_t) : eaf_bt_decoder_t :=
  BtDecoder (ingress d) r (decoder d) (bt_packet d) (offset d) (frames_left d) p16 p31 p s (rejected d).
Definition set_packet (q : ptr eaf_bt_ingress_t) (p : eaf_bt_packet_t) (o f : Z) (d : eaf_bt_decoder_t) : eaf_bt_decoder_t :=
  BtDecoder q (reservoir d) (decoder d) p o f (pcm16 d) (pcm31 d) (pending d) (sent d) (rejected d).

(** [d->decoder.reset(d->decoder.ctx)] *)
Definition codec_reset (d : eaf_bt_decoder_t) : ub (eaf_bt_decoder_t * Z) :=
  f ← sbc_reset (decoder d);
  '(x, rc) ← f (sbc_ctx (decoder d));
  Some (set_codec x d, rc).

Definition eaf_bt_decoder_reset (d : ptr eaf_bt_decoder_t) : ub (ptr eaf_bt_decoder_t * Z) :=
  on_ptr d EAF_INVALID (fun d =>
    match sbc_reset (decoder d) with
    | None => Some (d, EAF_INVALID)
    | Some _ =>
        codec_reset (set_packet (ingress d) (bt_packet d) 0 0
                       (set_pcm (reservoir d) (pcm16 d) (pcm31 d) 0 0 d))
    end).

Definition eaf_bt_decoder_init (d : ptr eaf_bt_decoder_t) (q : ptr eaf_bt_ingress_t) (r : ptr eaf_reservoir_t)
    (codec : ptr eaf_sbc_decoder_t) : ub (ptr eaf_bt_decoder_t * Z) :=
  on_ptr d EAF_INVALID (fun d =>
    match q, r, codec with
    | Some _, Some res, Some codec =>
        (* [r->storage] is the array of the reservoir: not NULL *)
        if negb (match sbc_frame codec with Some _ => true | None => false end) ||
           negb (match sbc_reset codec with Some _ => true | None => false end) ||
           negb (bool_decide (num_channels (format res) = 2)) ||
           negb (bool_decide (channel_mask (format res) = 3))
        then Some (d, EAF_INVALID)
        else codec_reset (BtDecoder q r codec packet_zero 0 0 (replicate 256 0) (replicate 256 0) 0 0 0)
    | _, _, _ => Some (d, EAF_INVALID)
    end).

Definition reject (d : eaf_bt_decoder_t) (rc : Z) : ub (eaf_bt_decoder_t * Z) :=
  let d := BtDecoder (ingress d) (reservoir d) (decoder d) (bt_packet d) (offset d) 0 (pcm16 d) (pcm31 d)
             0 0 (u32 (rejected d + 1)) in
  '(d, reset) ← codec_reset d;
  Some (d, if decide (reset = 0) then rc else reset).

(** Decode one frame of the current packet and hand it to the reservoir. *)
Definition decode_frame (d : eaf_bt_decoder_t) : ub (eaf_bt_decoder_t * Z) :=
  let remaining := pkt_length (bt_packet d) - offset d in
  (* [packet.length - offset] is a [size_t]; the data pointer needs [offset] inside the array *)
  if decide (remaining < 0 \/ zlen (pkt_data (bt_packet d)) < offset d) then None
  else
    f ← sbc_frame (decoder d);
    '(x, (rc, used, p16, frames, fmt)) ←
      f (sbc_ctx (decoder d)) (drop (Z.to_nat (offset d)) (pkt_data (bt_packet d))) remaining (pcm16 d);
    let d := set_codec x (set_pcm (reservoir d) p16 (pcm31 d) (pending d) (sent d) d) in
    if decide (rc <> 0) then reject d rc
    else
      r ← reservoir d;
      if decide (used = 0 \/ remaining < used \/ frames = 0 \/ 128 < frames \/
                 eaf_format_equal fmt (format r) = false) then reject d EAF_INVALID
      else
        let d := set_packet (ingress d) (bt_packet d) (offset d + used) (u32 (frames_left d - 1)) d in
        if decide ((frames_left d = 0 /\ offset d <> pkt_length (bt_packet d)) \/
                   (frames_left d <> 0 /\ offset d = pkt_length (bt_packet d)))
        then reject d EAF_INVALID
        else
          p31 ← eaf_s16_to_q31_interleaved (pcm16 d) frames 2 (pcm31 d) 2;
          '(r', k) ← eaf_reservoir_write (Some r) (Some p31) frames;
          Some (set_pcm r' (pcm16 d) p31 frames k d, EAF_OK).

(** Make sure a packet is open, then decode. *)
Definition next_frame (d : eaf_bt_decoder_t) : ub (eaf_bt_decoder_t * Z) :=
  if decide (frames_left d <> 0) then decode_frame d
  else
    '(q, (p, got)) ← eaf_bt_ingress_pop (ingress d) (Some (bt_packet d));
    p ← p;
    if (got : bool) then
      let d := set_packet q p 0 (pkt_frame_count p) d in
      if pkt_discontinuity p then
        '(d, rc) ← codec_reset d;
        if decide (rc <> 0) then reject d rc else decode_frame d
      else decode_frame d
    else Some (set_packet q p (offset d) (frames_left d) d, EAF_OK).

Definition step_body (d : eaf_bt_decoder_t) : ub (eaf_bt_decoder_t * Z) :=
  '(d, blocked) ←
    (if decide (sent d < pending d) then
       if decide (zlen (pcm31 d) < sent d * 2) then None
       else
         '(r', k) ← eaf_reservoir_write (reservoir d) (Some (drop (Z.to_nat (sent d * 2)) (pcm31 d)))
                      (pending d - sent d);
         let d := set_pcm r' (pcm16 d) (pcm31 d) (pending d) (u32 (sent d + k)) d in
         Some (d, bool_decide (sent d < pending d))
     else Some (d, false));
  if (blocked : bool) then Some (d, EAF_OK)
  else next_frame (set_pcm (reservoir d) (pcm16 d) (pcm31 d) 0 0 d).

Definition eaf_bt_decoder_step (d : ptr eaf_bt_decoder_t) : ub (ptr eaf_bt_decoder_t * Z) :=
  on_ptr d EAF_INVALID (fun d =>
    match ingress d, reservoir d with
    | Some _, Some _ => step_body d
    | _, _ => Some (d, EAF_INVALID)
    end).
End decoder.
Arguments eaf_sbc_decoder_t : clear implicits.
Arguments eaf_bt_decoder_t : clear implicits.

(** ** Lemmas *)

(** A reservoir write on any well-formed reservoir, finished or not. *)
Lemma res_write_any r src frames :
  reservoir_wf r -> 0 <= frames -> frames * channels r <= zlen src -> Forall is_s32 src ->
  exists r' k, eaf_reservoir_write (Some r) (Some src) frames = Some (Some r', k) /\
    reservoir_wf r' /\ format r' = format r /\ 0 <= k <= frames /\
    res_frames r' = res_frames r ++ slice src 0 (k * channels r).
Proof.
  intros Hwf Hf Hl H32. destruct (decide (finished r = 0)) as [Hfin|Hfin].
  - destruct (res_write_spec r src frames Hwf Hf Hl H32 Hfin) as (l & Hrun & Hwf' & Hc).
    pose proof (level_range r Hwf). eexists _, _. split; [exact Hrun |]. split; [done |]. split; [done |].
    split; [lia |]. exact Hc.
  - exists r, 0. unfold eaf_reservoir_write, on_ptr. rewrite bool_decide_eq_false_2 by done. simpl.
    split; [done |]. split; [done |]. split; [done |]. split; [lia |]. by rewrite app_nil_r.
Qed.

(** Widening a stereo block. *)
Lemma s16_block src frames dst :
  0 <= frames -> frames * 2 <= zlen src -> frames * 2 <= zlen dst -> Forall is_s16 src -> Forall is_s32 dst ->
  exists dst', eaf_s16_to_q31_interleaved src frames 2 dst 2 = Some dst' /\ zlen dst' = zlen dst /\
    slice dst' 0 (frames * 2) = eaf_pcm16_to_q31 <$> slice src 0 (frames * 2) /\ Forall is_s32 dst'.
Proof.
  intros Hf Hs Hd H16 H32.
  destruct (interleave_spec eaf_pcm16_to_q31 src frames 2 dst 2) as (dst' & Hrun & Hz & Hlo & Hhi);
    [by right | by right | done | done | done |].
  assert (Hat : forall k, 0 <= k < frames * 2 -> ld dst' k = eaf_pcm16_to_q31 <$> ld src k).
  { intros k Hk. rewrite Hlo by done. unfold interleaved_at. rewrite decide_True by done.
    do 2 f_equal. word. }
  exists dst'. split; [done |]. split; [done |]. split.
  - apply list_eq. intros k. rewrite list_lookup_fmap. destruct (decide (Z.of_nat k < frames * 2)).
    + rewrite !lookup_slice by lia. specialize (Hat (Z.of_nat k) ltac:(lia)).
      rewrite !ld_lookup, Nat2Z.id in Hat by lia. simpl. exact Hat.
    + by rewrite !lookup_slice_ge by lia.
  - apply Forall_lookup. intros k x Hk. pose proof (lookup_lt_Some _ _ _ Hk) as Hlt.
    destruct (decide (Z.of_nat k < frames * 2)) as [Hin|Hout].
    + specialize (Hat (Z.of_nat k) ltac:(lia)). rewrite !ld_lookup, Nat2Z.id, Hk in Hat by lia.
      destruct (src !! k) as [y|] eqn:Hy; [| done]. injection Hat as ->.
      apply pcm16_range. by apply (proj1 (Forall_lookup _ _) H16 k).
    + specialize (Hhi (Z.of_nat k) ltac:(lia)). rewrite !ld_lookup, Nat2Z.id, Hk in Hhi by lia.
      by apply (proj1 (Forall_lookup _ _) H32 k).
Qed.

Section laws.
Context {C : Type} (rst : C -> ub (C * Z))
  (frm : C -> list Z -> Z -> list Z -> ub (C * (Z * Z * list Z * Z * eaf_format_t))).

(** The codec terminates, and writes 16-bit samples inside the array it is given. *)
Record sbc_laws : Prop := {
  sbc_reset_total c : exists c' rc, rst c = Some (c', rc);
  sbc_frame_total c data n pcm : 0 <= n <= zlen data -> zlen pcm = 256 -> Forall is_s16 pcm ->
    exists c' rc used p16 frames fmt, frm c data n pcm = Some (c', (rc, used, p16, frames, fmt)) /\
      zlen p16 = 256 /\ Forall is_s16 p16 /\ 0 <= used /\ 0 <= frames
}.

(** What the ingress queue guarantees of a packet. *)
Definition packet_sound (p : packet) : Prop := 1 <= p_frames p <= 15.

Record bt_inv (d : eaf_bt_decoder_t C) (q : eaf_bt_ingress_t) (r : eaf_reservoir_t) : Prop := {
  bt_q : ingress d = Some q;
  bt_r : reservoir d = Some r;
  bt_qwf : ingress_wf q;
  bt_queue : Forall packet_sound (contents q);
  bt_rwf : reservoir_wf r;
  bt_stereo : channels r = 2;
  bt_reset : sbc_reset (decoder d) = Some rst;
  bt_frame : sbc_frame (decoder d) = Some frm;
  bt_16 : zlen (pcm16 d) = 256 /\ Forall is_s16 (pcm16 d);
  bt_31 : zlen (pcm31 d) = 256 /\ Forall is_s32 (pcm31 d);
  bt_sent : 0 <= sent d <= pending d /\ pending d <= 128;
  bt_pkt : packet_wf (bt_packet d);
  bt_off : 0 <= offset d <= pkt_length (bt_packet d);
  bt_left : 0 <= frames_left d <= 15
}.

(** Decoded samples the reservoir has not taken yet; all samples in custody. *)
Definition held (d : eaf_bt_decoder_t C) : list Z :=
  slice (pcm31 d) (sent d * 2) ((pending d - sent d) * 2).
Definition custody (d : eaf_bt_decoder_t C) (r : eaf_reservoir_t) : list Z := res_frames r ++ held d.

(** The samples one successful call of the codec on the packet at hand yields. *)
Definition codec_output (fmt : eaf_format_t) (out : list Z) : Prop :=
  exists c c' data n pcm used p16 frames,
    frm c data n pcm = Some (c', (EAF_OK, used, p16, frames, fmt)) /\
    1 <= used <= n /\ 1 <= frames <= 128 /\ out = eaf_pcm16_to_q31 <$> slice p16 0 (frames * 2).

(** Outcome of a step that starts with an empty [pcm31]. *)
Definition frame_post (d : eaf_bt_decoder_t C) (r : eaf_reservoir_t) (res : ub (eaf_bt_decoder_t C * Z)) : Prop :=
  exists d' rc q' r' new, res = Some (d', rc) /\ bt_inv d' q' r' /\ format r' = format r /\
    custody d' r' = res_frames r ++ new /\
    if decide (rc = EAF_OK) then rejected d' = rejected d /\ (new = [] \/ codec_output (format r) new)
    else new = [] /\ rejected d' = u32 (rejected d + 1) /\ frames_left d' = 0.

Context (Hsbc : sbc_laws).

Lemma codec_reset_inv d q r :
  bt_inv d q r ->
  exists x rc, codec_reset d = Some (set_codec x d, rc) /\ bt_inv (set_codec x d) q r.
Proof.
  intros []. destruct (sbc_reset_total Hsbc (sbc_ctx (decoder d))) as (x & rc & Hx).
  exists x, rc. unfold codec_reset. rewrite bt_reset0. simpl. rewrite Hx. split; [done |]. by split.
Qed.

Lemma reject_post d0 d q r rc :
  bt_inv d q r -> rejected d = rejected d0 -> rc <> EAF_OK -> frame_post d0 r (reject d rc).
Proof.
  intros Hinv Hrej Hrc. unfold reject. set (d1 := BtDecoder _ _ _ _ _ _ _ _ _ _ _).
  assert (Hinv1 : bt_inv d1 q r) by (destruct Hinv; split; simpl; done || lia).
  destruct (codec_reset_inv d1 q r Hinv1) as (x & rc' & -> & Hinv2). simpl.
  eexists _, _, q, r, []. split; [done |]. split; [exact Hinv2 |]. split; [done |].
  split; [unfold custody, held; simpl; by rewrite slice_nil_n |].
  rewrite decide_False.
  - simpl. by rewrite Hrej.
  - case_decide; [done |]. done.
Qed.

Lemma decode_frame_post d q r :
  bt_inv d q r -> pending d = 0 -> sent d = 0 -> frames_left d <> 0 -> frame_post d r (decode_frame d).
Proof.
  intros Hinv Hp0 Hs0 Hleft. pose proof Hinv as Hinv0. destruct Hinv as [bq br bqwf bque brwf bst brs bfm b16 b31 bsent bpkt boff blf]. destruct b16, b31, bpkt. unfold decode_frame.
  rewrite decide_False by lia. rewrite bfm. simpl.
  destruct (sbc_frame_total Hsbc (sbc_ctx (decoder d)) (drop (Z.to_nat (offset d)) (pkt_data (bt_packet d)))
    (pkt_length (bt_packet d) - offset d) (pcm16 d)) as (x & rc & used & p16 & frames & fmt & Hfr & Hz & H16 & Hu & Hn);
    [rewrite drop_slice, zlen_slice by lia; lia | done | done |].
  rewrite Hfr. simpl. set (d1 := set_codec x _).
  assert (Hinv1 : bt_inv d1 q r) by (split; done).
  case_decide as Hrc; [by apply (reject_post d d1 q) |]. rewrite br. simpl.
  case_decide as Hbad; [by apply (reject_post d d1 q) |].
  set (d2 := set_packet _ _ _ _ _).
  assert (Hinv2 : bt_inv d2 q r) by (split; simpl; done || word).
  case_decide as Hend; [by apply (reject_post d d2 q) |].
  destruct (s16_block p16 frames (pcm31 d)) as (p31 & Hrun & Hz31 & Hsl & H32); [lia | lia | lia | done | done |].
  rewrite Hrun. simpl.
  destruct (res_write_any r p31 frames brwf) as (r' & k & Hw & Hwf' & Hf' & Hk & Hc); [lia | lia | done |].
  rewrite Hw. simpl. rewrite bst in Hc.
  eexists _, _, q, r', (slice p31 0 (frames * 2)). split; [done |]. split.
  { destruct Hinv2 as []. split; simpl; try done; try lia. { unfold channels in *. by rewrite Hf'. } split; [lia | done]. }
  split; [done |]. rewrite decide_True by done. split; [| split; [done |]].
  - unfold custody, held. simpl. rewrite Hc, <- app_assoc. f_equal.
    replace (frames * 2) with (k * 2 + (frames - k) * 2) by lia. by rewrite slice_add by lia.
  - right. destruct (eaf_format_equal fmt (format r)) eqn:Hfmt; [| tauto].
    apply eaf_format_equal_eq in Hfmt as ->.
    exists (sbc_ctx (decoder d)), x, (drop (Z.to_nat (offset d)) (pkt_data (bt_packet d))),
      (pkt_length (bt_packet d) - offset d), (pcm16 d), used, p16, frames.
    split; [rewrite Hfr; replace rc with EAF_OK by (unfold EAF_OK; lia); done |]. split; [lia |]. split; [lia |].
    by rewrite Hsl.
Qed.

Lemma next_frame_post d q r :
  bt_inv d q r -> pending d = 0 -> sent d = 0 -> frame_post d r (next_frame d).
Proof.
  intros Hinv Hp0 Hs0. unfold next_frame. case_decide as Hleft; [by apply (decode_frame_post d q) |].
  pose proof Hinv as Hinv0. destruct Hinv as [bq br bqwf bque brwf bst brs bfm b16 b31 bsent bpkt boff blf]. rewrite bq. destruct bpkt as [Hpl _].
  destruct (pop_spec q (bt_packet d) bqwf Hpl) as (q' & o & b & -> & Hwf' & Hb & _). simpl. destruct b.
  - destruct Hb as [Hc Ho]. rewrite Hc in bque. apply List.Forall_cons_iff in bque as [Hps Hpq].
    unfold packet_sound in Hps. simpl in Hps. set (d1 := set_packet _ _ _ _ _).
    assert (Hinv1 : bt_inv d1 q' r) by (destruct Ho; split; simpl; done || lia).
    assert (Hl1 : frames_left d1 <> 0) by (simpl; lia).
    destruct (pkt_discontinuity o); [| by apply (decode_frame_post d1 q')].
    destruct (codec_reset_inv d1 q' r Hinv1) as (x & rc & -> & Hinv2). simpl.
    case_decide; [by apply (reject_post d (set_codec x d1) q') |].
    by apply (decode_frame_post (set_codec x d1) q').
  - destruct Hb as (-> & -> & Hc). eexists _, _, q, r, []. split; [done |]. split.
    { split; simpl; try done. apply Hinv0. }
    split; [done |]. split.
    { unfold custody, held. simpl. rewrite Hp0, Hs0. by rewrite slice_nil_n. }
    by split; [| left].
Qed.

Lemma step_body_post d q r :
  bt_inv d q r ->
  exists d' rc q' r' new, step_body d = Some (d', rc) /\ bt_inv d' q' r' /\ format r' = format r /\
    custody d' r' = custody d r ++ new /\
    if decide (rc = EAF_OK) then rejected d' = rejected d /\ (new = [] \/ codec_output (format r) new)
    else new = [] /\ rejected d' = u32 (rejected d + 1) /\ frames_left d' = 0.
Proof.
  intros Hinv. pose proof Hinv as Hinv0. destruct Hinv as [bq br bqwf bque brwf bst brs bfm b16 b31 bsent bpkt boff blf]. unfold step_body. case_decide as Hpend.
  - destruct b31 as [Hz31 H31]. rewrite decide_False by lia. rewrite br. simpl.
    assert (Hdr : drop (Z.to_nat (sent d * 2)) (pcm31 d) = slice (pcm31 d) (sent d * 2) (256 - sent d * 2)).
    { rewrite drop_slice by lia. by rewrite Hz31. }
    destruct (res_write_any r (drop (Z.to_nat (sent d * 2)) (pcm31 d)) (pending d - sent d) brwf)
      as (r' & k & Hw & Hwf' & Hf' & Hk & Hc);
      [lia | rewrite Hdr, zlen_slice by lia; lia | rewrite Hdr; by apply slice_forall |].
    rewrite Hw. simpl. rewrite bst in Hc. rewrite u32_small by word.
    assert (Hsp : held d = slice (pcm31 d) (sent d * 2) (k * 2)
              ++ slice (pcm31 d) ((sent d + k) * 2) ((pending d - (sent d + k)) * 2)).
    { unfold held. replace ((sent d + k) * 2) with (sent d * 2 + k * 2) by lia.
      rewrite <- slice_add by lia. f_equal. lia. }
    assert (Hhead : slice (drop (Z.to_nat (sent d * 2)) (pcm31 d)) 0 (k * 2) = slice (pcm31 d) (sent d * 2) (k * 2)).
    { unfold slice. by rewrite drop_0. }
    rewrite Hhead in Hc. case_bool_decide as Hblk.
    + simpl in Hblk. eexists _, _, q, r', []. split; [done |]. split.
      { split; simpl; try done; try lia. unfold channels in *. by rewrite Hf'. }
      split; [done |]. split; [| by split; [| left]].
      unfold custody. rewrite app_nil_r, Hc, Hsp, <- app_assoc. done.
    + simpl in Hblk. set (d1 := set_pcm _ _ _ _ _ _).
      destruct (next_frame_post d1 q r') as (d' & rc & q' & r'' & new & Hrun & Hinv' & Hf'' & Hcu & Hout);
        [split; simpl; try done; try lia; unfold channels in *; by rewrite Hf' | done | done |].
      exists d', rc, q', r'', new. split; [exact Hrun |]. split; [done |]. split; [congruence |].
      split; [| by rewrite <- Hf'].
      rewrite Hcu, Hc. unfold custody. rewrite Hsp, <- !app_assoc. do 2 f_equal.
      replace (pending d - (sent d + k)) with 0 by lia. done.
  - simpl. set (d1 := set_pcm _ _ _ _ _ _).
    destruct (next_frame_post d1 q r) as (d' & rc & q' & r'' & new & Hrun & Hinv' & Hf'' & Hcu & Hout);
      [split; simpl; try done; lia | done | done |].
    exists d', rc, q', r'', new. split; [exact Hrun |]. split; [done |]. split; [done |].
    split; [| done]. rewrite Hcu. unfold custody, held. replace (pending d - sent d) with 0 by lia.
    by rewrite slice_nil_n, app_nil_r.
Qed.
End laws.

(** A reception leaves the queue fit for the decoder. *)
Lemma receive_sound q seq ts pl :
  ingress_wf q -> Forall packet_sound (contents q) -> bytes_wf pl ->
  exists q' rc, eaf_bt_sbc_receive (Some q) seq ts (Some pl) (zlen pl) = Some (Some q', rc) /\
    ingress_wf q' /\ Forall packet_sound (contents q').
Proof.
  intros Hwf Hq Hb. destruct (receive_spec q seq ts pl Hwf Hb) as (q' & Hrun & Hwf' & Hc & _).
  eexists q', _. split; [exact Hrun |]. split; [done |]. rewrite Hc.
  destruct (media_ok pl) eqn:Hm; [| done]. destruct (negb _); [| done]. simpl.
  apply Forall_app_2; [done |]. constructor; [| done]. unfold packet_sound, media_packet. simpl.
  unfold media_ok in Hm. apply andb_true_iff in Hm as [_ Hm%bool_decide_eq_true]. exact Hm.
Qed.

(** ** Property *)


(** A codec that turns one byte into one frame. *)
Definition demo_rst (c : unit) : ub (unit * Z) := Some (c, EAF_OK).
Definition demo_frm (c : unit) (data : list Z) (n : Z) (pcm : list Z)
  : ub (unit * (Z * Z * list Z * Z * eaf_format_t)) :=
  Some (c, (EAF_OK, 1, pcm, 1, format demo_reservoir)).
Lemma demo_sbc_laws : sbc_laws demo_rst demo_frm.
Proof.
  split; [intros; eexists _, _; reflexivity |].
  intros. eexists _, _, _, _, _, _. split; [reflexivity |]. done.
Qed.
Definition demo_queue : eaf_bt_ingress_t :=
  eaf_bt_ingress_init (BtIngress [] 0 0 0 0 false false).
Definition demo_bt : eaf_bt_decoder_t unit :=
  BtDecoder (Some demo_queue) (Some demo_reservoir) (SbcDecoder (Some demo_rst) (Some demo_frm) ())
    packet_zero 0 0 (replicate 256 0) (replicate 256 0) 0 0 0.
Lemma demo_bt_inv : bt_inv demo_rst demo_frm demo_bt demo_queue demo_reservoir.
Proof.
  split; try done.
  - apply (ref_wf _ _ (ingress_init_refines (BtIngress [] 0 0 0 0 false false))).
  - apply demo_reservoir_wf.
  - split; [done |]. apply Forall_replicate. done.
  - split; [done |]. apply Forall_replicate. done.
Qed.

