(* ===== verification/BtVolume.v ===== *)
(** The AVRCP volume ramp: [apps/bt/bt_volume.c], [include/eaf/eaf_bt_volume.h]. *)

From S2P Require Import Prelude Types Dsp Sync.

Record eaf_bt_volume_t := BtVolume { current : Z; target : Z; remaining : Z }.

(** One step of the gain towards its target. *)
Definition ramp_gain (g : eaf_bt_volume_t) : ub eaf_bt_volume_t :=
  if decide (remaining g = 0) then Some g
  else
    delta ← chk32 (s32 (target g) - s32 (current g));
    (* the divisor is [(int32_t)gain->remaining] *)
    if decide (s32 (remaining g) = 0) then None
    else
      d ← chk32 (Z.quot delta (s32 (remaining g)));
      c ← chk32 (s32 (current g) + d);
      Some (BtVolume (u32 c) (target g) (u32 (remaining g - 1))).

Definition volume_frame (i : Z) (st' : eaf_bt_volume_t * list Z) : ub (eaf_bt_volume_t * list Z) :=
  let '(g, stereo) := st' in
  g ← ramp_gain g;
  stereo ← for_to 2 (fun ch stereo =>
    x ← ld stereo (i * 2 + ch);
    y ← eaf_q16_multiply x (s32 (current g));
    st stereo (i * 2 + ch) y) stereo;
  Some (g, stereo).

Definition volume_target (volume : Z) (muted : bool) : Z :=
  let v := if decide (127 < volume) then 127 else volume in
  if muted then 0 else u32 (u32 (v * v) * 65536) / (127 * 127).

Definition eaf_bt_volume_apply (g : eaf_bt_volume_t) (stereo : list Z) (frames volume : Z) (muted : bool)
  : ub (eaf_bt_volume_t * list Z) :=
  let t := volume_target volume muted in
  let g := if decide (t = target g) then g else BtVolume (current g) t 256 in
  for_to frames volume_frame (g, stereo).

(** ** Reference ramp *)

(** A gain that started at zero initialisation: within unity, and at its target
    once no ramp is in progress. *)
Definition gain_wf (g : eaf_bt_volume_t) : Prop :=
  0 <= current g <= 65536 /\ 0 <= target g <= 65536 /\ 0 <= remaining g <= 256 /\
  (remaining g = 0 -> current g = target g).

(** The gain after one frame, and after [n] frames. *)
Definition gain_next (g : eaf_bt_volume_t) : eaf_bt_volume_t :=
  if decide (remaining g = 0) then g
  else BtVolume (current g + Z.quot (target g - current g) (remaining g)) (target g) (remaining g - 1).
Fixpoint gain_after (n : nat) (g : eaf_bt_volume_t) : eaf_bt_volume_t :=
  match n with O => g | S n => gain_next (gain_after n g) end.

(** What a unity-bounded Q16 gain does to a sample. *)
Definition scaled (gain x : Z) : Z :=
  if decide (65536 <= gain) then x else Z.quot (x * (gain * 32768)) 2147483648.

Lemma quot_step d r :
  1 <= r -> (0 <= d -> 0 <= Z.quot d r <= d) /\ (d <= 0 -> d <= Z.quot d r <= 0) /\ (r = 1 -> Z.quot d r = d).
Proof.
  intros Hr. split; [| split].
  - intros. rewrite Z.quot_div_nonneg by lia. split; [apply Z.div_pos; lia |].
    apply Z.div_le_upper_bound; [lia |]. nia.
  - intros. replace d with (- (- d)) by lia. rewrite Z.quot_opp_l by lia.
    rewrite Z.quot_div_nonneg by lia. assert (0 <= - d / r <= - d); [| lia].
    split; [apply Z.div_pos; lia |]. apply Z.div_le_upper_bound; [lia |]. nia.
  - intros ->. apply Z.quot_1_r.
Qed.

Lemma gain_next_wf g : gain_wf g -> gain_wf (gain_next g).
Proof.
  intros (Hc & Ht & Hr & H0). unfold gain_next. case_decide as H; [done |].
  destruct (quot_step (target g - current g) (remaining g) ltac:(lia)) as (Hp & Hn & H1).
  unfold gain_wf. simpl. split_and!; try lia.
Qed.
Lemma gain_after_wf n g : gain_wf g -> gain_wf (gain_after n g).
Proof. intros. induction n; simpl; auto using gain_next_wf. Qed.

Lemma ramp_gain_eq g : gain_wf g -> ramp_gain g = Some (gain_next g).
Proof.
  intros Hg. pose proof (gain_next_wf g Hg) as Hg'. destruct Hg as (Hc & Ht & Hr & H0).
  unfold ramp_gain, gain_next in *. case_decide as H; [done |].
  destruct Hg' as (Hc' & _). simpl in Hc'.
  destruct (quot_step (target g - current g) (remaining g) ltac:(lia)) as (Hp & Hn & H1).
  rewrite !s32_small by word. unfold chk32. rewrite decide_True by word. cbn [mbind option_bind].
  rewrite decide_False by lia. rewrite decide_True by word. cbn [mbind option_bind].
  rewrite decide_True by word. cbn [mbind option_bind]. by rewrite !u32_small by word.
Qed.

Lemma gain_toward g :
  gain_wf g ->
  target (gain_next g) = target g /\
  (current g <= target g -> current g <= current (gain_next g) <= target g) /\
  (target g <= current g -> target g <= current (gain_next g) <= current g) /\
  remaining (gain_next g) = Z.max 0 (remaining g - 1).
Proof.
  intros (Hc & Ht & Hr & H0). unfold gain_next. case_decide as H; simpl.
  - rewrite H0 by done. lia.
  - destruct (quot_step (target g - current g) (remaining g) ltac:(lia)) as (Hp & Hn & _). lia.
Qed.

Lemma gain_after_remaining n g :
  gain_wf g -> target (gain_after n g) = target g /\
  remaining (gain_after n g) = Z.max 0 (remaining g - Z.of_nat n).
Proof.
  intros Hg. induction n as [|n [IH1 IH2]]; cbn [gain_after].
  - destruct Hg as (_ & _ & Hr & _). split; [done | lia].
  - destruct (gain_toward _ (gain_after_wf n g Hg)) as (H1 & _ & _ & H2). rewrite H1, H2, IH1, IH2.
    split; [done | lia].
Qed.

Lemma q16_multiply_eq gain x :
  0 <= gain <= 65536 -> is_s32 x ->
  eaf_q16_multiply x gain = Some (scaled gain x) /\ Z.abs (scaled gain x) <= Z.abs x.
Proof.
  intros Hg Hx. unfold eaf_q16_multiply, scaled. destruct (decide (65536 <= gain)); [split; [done | lia] |].
  rewrite decide_True by word. unfold eaf_q31_multiply. rewrite decide_False by word.
  assert (Hb : Z.abs (Z.quot (x * (gain * 32768)) 2147483648) <= Z.abs x).
  { rewrite <- Z.quot_abs by lia. rewrite (Z.abs_eq 2147483648) by lia.
    rewrite Z.quot_div_nonneg by lia. apply Z.div_le_upper_bound; [lia |]. rewrite Z.abs_mul. nia. }
  rewrite chk64_eq by (word_unfold; nia). simpl. split; [| done]. rewrite sat_small; [done |].
  word.
Qed.

Lemma volume_frame_eq i g stereo :
  gain_wf g -> Forall is_s32 stereo -> 0 <= i -> i * 2 + 2 <= zlen stereo ->
  volume_frame i (g, stereo) = Some (gain_next g,
    splice stereo (i * 2) (scaled (current (gain_next g)) <$> slice stereo (i * 2) 2)).
Proof.
  intros Hg Hs Hi Hl. unfold volume_frame. rewrite ramp_gain_eq by done. cbn [mbind option_bind].
  destruct (gain_next_wf g Hg) as (Hc & _). set (k := current (gain_next g)) in *.
  rewrite s32_small by word.
  assert (Hget : forall j, 0 <= j < zlen stereo -> exists x, ld stereo j = Some x /\ is_s32 x).
  { intros j Hj. destruct (ld_is_Some stereo j Hj) as [x Hx]. exists x. split; [done |].
    rewrite Forall_lookup in Hs. apply (Hs (Z.to_nat j)). rewrite <- ld_lookup by lia. done. }
  destruct (Hget (i * 2)) as (x & Hx & Hx32); [lia |].
  destruct (Hget (i * 2 + 1)) as (y & Hy & Hy32); [lia |].
  unfold for_to. change (Z.to_nat 2) with 2%nat. cbn [for_from]. rewrite Z.add_0_r, Hx. cbn [mbind option_bind].
  destruct (q16_multiply_eq k x Hc Hx32) as [-> _]. cbn [mbind option_bind]. rewrite st_eq by lia.
  cbn [mbind option_bind]. change (0 + 1) with 1.
  rewrite ld_lookup, list_lookup_insert_ne, <- ld_lookup, Hy by lia. cbn [mbind option_bind].
  destruct (q16_multiply_eq k y Hc Hy32) as [-> _]. cbn [mbind option_bind].
  rewrite st_eq by (rewrite zlen_insert; lia). cbn [mbind option_bind]. do 2 f_equal.
  replace (slice stereo (i * 2) 2) with [x; y].
  - cbn [fmap list_fmap]. rewrite <- !splice_singleton by (rewrite ?zlen_insert; lia).
    rewrite splice_app; [done | lia |]. unfold zlen in *. simpl. lia.
  - rewrite (slice_cons _ _ _ x), (slice_cons _ _ _ y) by (done || lia). done.
Qed.

(** The ramp a call starts: a changed target restarts it. *)
Definition retarget (g : eaf_bt_volume_t) (t : Z) : eaf_bt_volume_t :=
  if decide (t = target g) then g else BtVolume (current g) t 256.

Lemma volume_target_range v m : 0 <= v < 256 -> 0 <= volume_target v m <= 65536.
Proof.
  intros Hv. unfold volume_target. destruct m; [lia |].
  set (w := if decide _ then _ else _). assert (0 <= w <= 127) by (unfold w; case_decide; lia).
  change (127 * 127) with 16129. clearbody w.
  rewrite (u32_small (w * w)) by (word_unfold; nia). rewrite u32_small by (word_unfold; nia).
  split; [apply Z.div_pos; nia | apply Z.div_le_upper_bound; nia].
Qed.

Lemma retarget_wf g t : gain_wf g -> 0 <= t <= 65536 -> gain_wf (retarget g t).
Proof.
  intros (Hc & Ht & Hr & H0) Hb. unfold retarget. case_decide; [done |].
  unfold gain_wf. simpl. split_and!; lia.
Qed.

(** The frames of a block, each scaled by its own gain. *)
Definition ramped (g : eaf_bt_volume_t) (stereo : list Z) (i : Z) : list Z :=
  scaled (current (gain_after (S (Z.to_nat i)) g)) <$> slice stereo (i * 2) 2.

Lemma ramped_len g stereo i : 0 <= i -> i * 2 + 2 <= zlen stereo -> zlen (ramped g stereo i) = 2.
Proof. intros. unfold ramped. rewrite zlen_fmap, zlen_slice; lia. Qed.

Lemma volume_loop g stereo frames :
  gain_wf g -> Forall is_s32 stereo -> 0 <= frames -> frames * 2 <= zlen stereo ->
  for_to frames volume_frame (g, stereo) =
    Some (gain_after (Z.to_nat frames) g,
          splice stereo 0 (concat (ramped g stereo <$> seqZ 0 frames))).
Proof.
  intros Hg Hs Hf Hl.
  destruct (for_to_inv (fun i p => p = (gain_after (Z.to_nat i) g,
      splice stereo 0 (concat (ramped g stereo <$> seqZ 0 i))) /\
      zlen (concat (ramped g stereo <$> seqZ 0 i)) = i * 2 /\
      Forall is_s32 p.2)
    volume_frame frames (g, stereo)) as (p & -> & -> & _); [lia | | | done].
  { split; [| done]. simpl. by rewrite splice_nil. }
  intros i p Hi (-> & Hz & H32). simpl in H32. set (xs := concat _) in *.
  pose proof (gain_after_wf (Z.to_nat i) g Hg) as Hgi.
  rewrite volume_frame_eq by (rewrite ?zlen_splice; done || lia). eexists. split; [done |].
  assert (Hsl : slice (splice stereo 0 xs) (i * 2) 2 = slice stereo (i * 2) 2).
  { apply list_eq. intros k. destruct (decide (Z.of_nat k < 2)).
    - rewrite !lookup_slice, lookup_splice by lia. by rewrite decide_False by lia.
    - by rewrite !lookup_slice_ge by lia. }
  rewrite Hsl. rewrite seqZ_snoc, fmap_app, concat_app by lia. fold xs. simpl. rewrite app_nil_r.
  replace (Z.to_nat (i + 1)) with (S (Z.to_nat i)) by lia.
  assert (Hr : scaled (current (gain_next (gain_after (Z.to_nat i) g))) <$> slice stereo (i * 2) 2
    = ramped g stereo i) by done.
  rewrite Hr. pose proof (ramped_len g stereo i ltac:(lia) ltac:(lia)) as Hrl. split; [| split].
  - f_equal. pose proof (splice_app stereo xs (ramped g stereo i) 0) as Hsa.
    rewrite Hz in Hsa. apply Hsa; lia.
  - rewrite zlen_app. lia.
  - apply splice_forall; [done |]. rewrite <- Hr. rewrite Forall_fmap. destruct (gain_next_wf _ Hgi) as (Hc & _).
    apply Forall_lookup. intros k x Hk. simpl.
    assert (Hx : is_s32 x) by (by apply (proj1 (Forall_lookup _ _) (slice_forall _ stereo (i * 2) 2 Hs) k)).
    pose proof (proj2 (q16_multiply_eq _ x Hc Hx)). unfold scaled in *. case_decide; [done |]. word.
Qed.

(** ** Property *)

(** Volume changes never click or overshoot: no step of the ramp overflows; each
    frame of the block is scaled by its own gain and no sample grows; the gain
    moves monotonically from its old value towards the new target, staying
    within unity; 256 frames after a change it is exactly the target; and cells
    past the block are not touched. *)
Theorem bt_volume_ramp (g : eaf_bt_volume_t) (stereo : list Z) (frames volume : Z) (muted : bool) :
  gain_wf g -> Forall is_s32 stereo -> 0 <= frames -> frames * 2 <= zlen stereo -> 0 <= volume < 256 ->
  let t := volume_target volume muted in
  let g0 := retarget g t in
  exists g' out,
    eaf_bt_volume_apply g stereo frames volume muted = Some (g', out) /\ gain_wf g' /\ zlen out = zlen stereo /\
    target g' = t /\ (256 <= frames -> current g' = t) /\
    (forall i ch x, 0 <= i < frames -> 0 <= ch < 2 -> ld stereo (i * 2 + ch) = Some x ->
       ld out (i * 2 + ch) = Some (scaled (current (gain_after (S (Z.to_nat i)) g0)) x) /\
       Z.abs (scaled (current (gain_after (S (Z.to_nat i)) g0)) x) <= Z.abs x) /\
    (forall k, frames * 2 <= k -> ld out k = ld stereo k) /\
    (forall n, let a := current (gain_after n g0) in let b := current (gain_after (S n) g0) in
       (a <= t -> a <= b <= t) /\ (t <= a -> t <= b <= a)).
Proof.
  intros Hg Hs Hf Hl Hv t g0. pose proof (volume_target_range volume muted Hv) as Ht.
  pose proof (retarget_wf g t Hg Ht) as Hg0. fold g0 in Hg0.
  assert (Ht0 : target g0 = t) by (unfold g0, retarget; case_decide; done).
  set (xs := concat (ramped g0 stereo <$> seqZ 0 frames)).
  assert (Hlk : forall i ch, 0 <= i < frames -> 0 <= ch < 2 ->
    xs !! Z.to_nat (i * 2 + ch) = ramped g0 stereo i !! Z.to_nat ch).
  { intros. apply lookup_concat_blocks; [lia | | lia | lia]. intros j Hj. apply ramped_len; lia. }
  assert (Hxl : zlen xs = frames * 2).
  { apply zlen_concat_blocks; [lia |]. intros j Hj. apply ramped_len; lia. }
  exists (gain_after (Z.to_nat frames) g0), (splice stereo 0 xs).
  split; [by apply volume_loop |]. split; [by apply gain_after_wf |]. split; [rewrite zlen_splice; lia |].
  destruct (gain_after_remaining (Z.to_nat frames) g0 Hg0) as [Htn Hrn].
  split; [congruence |]. split.
  { intros H256. rewrite <- Ht0, <- Htn. destruct (gain_after_wf (Z.to_nat frames) g0 Hg0) as (_ & _ & _ & H0).
    apply H0. rewrite Hrn. destruct Hg0 as (_ & _ & ? & _). lia. }
  split; [| split].
  - intros i ch x Hi Hch Hx. pose proof (ld_Some _ _ _ Hx).
    assert (Hx32 : is_s32 x).
    { rewrite Forall_lookup in Hs. apply (Hs (Z.to_nat (i * 2 + ch))). rewrite <- ld_lookup by lia. done. }
    destruct (gain_after_wf (S (Z.to_nat i)) g0 Hg0) as (Hc & _). split; [| by apply q16_multiply_eq].
    rewrite ld_lookup in * by lia. rewrite lookup_splice, decide_True, Nat.sub_0_r, Hlk by lia.
    unfold ramped. rewrite list_lookup_fmap, lookup_slice by lia.
    replace (Z.to_nat (i * 2) + Z.to_nat ch)%nat with (Z.to_nat (i * 2 + ch)) by lia. by rewrite Hx.
  - intros k Hk. rewrite !ld_lookup, lookup_splice by lia. by rewrite decide_False by lia.
  - intros n a b. destruct (gain_toward _ (gain_after_wf n g0 Hg0)) as (_ & H1 & H2 & _).
    rewrite (proj1 (gain_after_remaining n g0 Hg0)), Ht0 in H1, H2. split; [exact H1 | exact H2].
Qed.

Lemma bt_volume_ramp_witness :
  exists g' out,
    eaf_bt_volume_apply (BtVolume 0 0 0) [5; 6; 7; 8; 9] 2 127 false = Some (g', out) /\
    gain_wf g' /\ zlen out = 5 /\ target g' = 65536.
Proof.
  destruct (bt_volume_ramp (BtVolume 0 0 0) [5; 6; 7; 8; 9] 2 127 false) as (g' & out & H1 & H2 & H3 & H4 & _);
    [done | repeat constructor; done | done | done | done | exists g', out; split_and!; assumption].
Defined.
