(* ===== verification/SinkNull.v ===== *)
(** The null sink, a paced sink without hardware: [hal/common/sink_null.c],
    [include/eaf/eaf_sink_null.h].  The clock and the sleep of the operating
    system ([hal_monotonic_time_us], [hal_sleep_until_us]) are functions on an
    abstract world [W]. *)

From S2P Require Import Prelude Types.

Definition EAF_NULL_MAX_FRAMES : Z := 1024.

Record eaf_null_sink_ctx_t := NullCtx {
  storage : list (list Z);             (* int32_t [2][EAF_NULL_MAX_FRAMES * EAF_MAX_CHANNELS] *)
  buffers : list eaf_buffer_t;         (* [2]; the storage pointer of buffer [i] is [i + 1] *)
  epoch_us : Z;
  frames_committed : Z;
  active : Z;
  initialized : bool;
  running : bool;
  acquired : bool
}.

Section sink.
Context {W : Type} (hal_monotonic_time_us : W -> W * Z) (hal_sleep_until_us : W -> Z -> W * Z).

Definition init (sink : ptr eaf_null_sink_ctx_t) (fmt : ptr eaf_format_t) (frames : Z)
  : ub (ptr eaf_null_sink_ctx_t * Z) :=
  match sink, fmt with
  | Some s, Some f =>
      if negb (eaf_format_valid fmt) || bool_decide (frames = 0) || bool_decide (EAF_NULL_MAX_FRAMES < frames)
      then Some (sink, EAF_INVALID)
      else if running s then Some (sink, EAF_STATE)
      else
        let buffer i := Buffer i (u32 frames) EAF_NULL_MAX_FRAMES (EAF_NULL_MAX_FRAMES * EAF_MAX_CHANNELS) f 0 in
        Some (Some (NullCtx (storage s) [buffer 1; buffer 2] (epoch_us s) (frames_committed s) 0
                      true (running s) false), EAF_OK)
  | _, _ => Some (sink, EAF_INVALID)
  end.

Definition start (s : eaf_null_sink_ctx_t) (w : W) : eaf_null_sink_ctx_t * W * Z :=
  if negb (initialized s) || running s then (s, w, EAF_STATE)
  else
    let '(w, now) := hal_monotonic_time_us w in
    (NullCtx (storage s) (buffers s) now 0 0 (initialized s) true false, w, EAF_OK).

Definition stop (s : eaf_null_sink_ctx_t) : eaf_null_sink_ctx_t * Z :=
  (NullCtx (storage s) (buffers s) (epoch_us s) (frames_committed s) (active s) (initialized s) false false,
   EAF_OK).

(** On success [*buf] becomes [&s->buffers[i]], returned as its index [i];
    [buf] tells whether the caller passed a location for it. *)
Definition acquire (s : eaf_null_sink_ctx_t) (buf : bool) : eaf_null_sink_ctx_t * ptr Z * Z :=
  if negb (running s) || acquired s || negb buf then (s, None, EAF_STATE)
  else
    (NullCtx (storage s) (buffers s) (epoch_us s) (frames_committed s) (active s) (initialized s) (running s) true,
     Some (active s), EAF_OK).

(** The stream time of [frames] frames, in microseconds. *)
Definition duration_us (frames rate : Z) : ub Z :=
  if decide (rate = 0) then None
  else Some (u64 (u64 (frames / rate * 1000000) + u64 (frames mod rate * 1000000) / rate)).

(** [buf] is the index of the committed descriptor when it is one of [s->buffers]. *)
Definition commit (s : eaf_null_sink_ctx_t) (w : W) (buf : ptr Z) : ub (eaf_null_sink_ctx_t * W * Z) :=
  if negb (running s) || negb (acquired s) || negb (bool_decide (buf = Some (active s)))
  then Some (s, w, EAF_STATE)
  else
    b ← ld (buffers s) (active s);
    let committed := u64 (frames_committed s + frame_count b) in
    duration ← duration_us committed (sample_rate (format b));
    let '(w, rc) := hal_sleep_until_us w (u64 (epoch_us s + duration)) in
    Some (NullCtx (storage s) (buffers s) (epoch_us s) committed (Z.lxor (active s) 1) (initialized s)
            (running s) false, w, rc).

Definition adjust (ppm : Z) : Z := EAF_UNSUPPORTED.

Definition deinit (sink : ptr eaf_null_sink_ctx_t) : ptr eaf_null_sink_ctx_t * Z :=
  ((fun s => NullCtx (storage s) (buffers s) (epoch_us s) (frames_committed s) (active s) false false false) <$> sink,
   EAF_OK).
End sink.

(** ** Pacing *)

(** The split computation of the stream time loses nothing. *)
Lemma duration_us_exact frames rate :
  0 <= frames < 2 ^ 44 -> 0 < rate < 4294967296 ->
  duration_us frames rate = Some (frames * 1000000 / rate).
Proof.
  intros Hf Hr. unfold duration_us. rewrite decide_False by lia. f_equal.
  pose proof (Z.mod_pos_bound frames rate ltac:(lia)) as Hm.
  pose proof (Z.div_mod frames rate ltac:(lia)) as Hd.
  assert (0 <= frames / rate <= frames) by (split; [apply Z.div_pos; lia | apply Z.div_le_upper_bound; nia]).
  change (2 ^ 44) with 17592186044416 in *.
  rewrite (u64_small (frames / rate * 1000000)) by (word_unfold; lia).
  rewrite (u64_small (frames mod rate * 1000000)) by (word_unfold; lia).
  assert (Heq : frames / rate * 1000000 + frames mod rate * 1000000 / rate = frames * 1000000 / rate).
  { rewrite <- Z.div_add_l by lia. f_equal. nia. }
  rewrite Heq. apply u64_small. word_unfold. split; [apply Z.div_pos; lia |].
  apply Z.div_lt_upper_bound; nia.
Qed.

Section pacing.
Context {W : Type} (hal_sleep_until_us : W -> Z -> W * Z) (log : W -> list Z).

(** One block: acquire, let the pipeline set the frame count, commit. *)
Definition play_block (n : Z) (s : eaf_null_sink_ctx_t) (w : W) : ub (eaf_null_sink_ctx_t * W * ptr Z) :=
  let '(s, got, _) := acquire s true in
  i ← got;
  b ← ld (buffers s) i;
  bs ← st (buffers s) i (set_frame_count n b);
  let s := NullCtx (storage s) bs (epoch_us s) (frames_committed s) (active s) (initialized s) (running s)
             (acquired s) in
  '(s, w, _) ← commit hal_sleep_until_us s w (Some i);
  Some (s, w, Some i).

Fixpoint play (ns : list Z) (s : eaf_null_sink_ctx_t) (w : W) : ub (eaf_null_sink_ctx_t * W * list Z) :=
  match ns with
  | [] => Some (s, w, [])
  | n :: ns =>
      '(s, w, i) ← play_block n s w;
      '(s, w, used) ← play ns s w;
      Some (s, w, match i with Some i => i :: used | None => used end)
  end.

(** Deadlines and buffers of a session that has already committed [done] frames. *)
Fixpoint deadlines (epoch rate done : Z) (ns : list Z) : list Z :=
  match ns with
  | [] => []
  | n :: ns => u64 (epoch + (done + n) * 1000000 / rate) :: deadlines epoch rate (done + n) ns
  end.
Fixpoint alternate (i : Z) (ns : list Z) : list Z :=
  match ns with [] => [] | _ :: ns => i :: alternate (1 - i) ns end.

Definition ready (rate : Z) (s : eaf_null_sink_ctx_t) : Prop :=
  running s = true /\ acquired s = false /\ (active s = 0 \/ active s = 1) /\ zlen (buffers s) = 2 /\
  Forall (fun b => sample_rate (format b) = rate) (buffers s).

Lemma play_block_spec n rate s w :
  ready rate s -> 0 < rate < 4294967296 -> 0 <= frames_committed s -> 0 <= n ->
  frames_committed s + n < 2 ^ 44 ->
  let w' := (hal_sleep_until_us w (u64 (epoch_us s + (frames_committed s + n) * 1000000 / rate))).1 in
  exists s', play_block n s w = Some (s', w', Some (active s)) /\ ready rate s' /\ epoch_us s' = epoch_us s /\
    frames_committed s' = frames_committed s + n /\ active s' = 1 - active s.
Proof.
  intros (Hrun & Hacq & Hact & Hz & Hrate) Hr Hf Hn Htot w'.
  unfold play_block, acquire. rewrite Hrun, Hacq. simpl.
  destruct (ld_is_Some (buffers s) (active s)) as [b Hb]; [lia |]. rewrite Hb. simpl.
  rewrite st_eq by lia. simpl. unfold commit. simpl. rewrite bool_decide_eq_true_2 by done. simpl.
  rewrite ld_lookup, list_lookup_insert_eq by (unfold zlen in *; lia). simpl.
  assert (Hbr : sample_rate (format b) = rate).
  { rewrite ld_lookup in Hb by lia. by apply (proj1 (Forall_lookup _ _) Hrate (Z.to_nat (active s))). }
  rewrite Hbr, u64_small, duration_us_exact by (change (2 ^ 44) with 17592186044416 in *; word_unfold; lia).
  cbn [mbind option_bind]. unfold w'. destruct (hal_sleep_until_us w _) as [w1 rc]. simpl.
  eexists. split; [done |]. split; [| split; [done |]; split; [done |]; by destruct Hact as [-> | ->]].
  split; [done |]. split; [done |]. split; [simpl; destruct Hact as [-> | ->]; [by right | by left] |].
  simpl. rewrite zlen_insert. split; [done |]. apply Forall_insert; done.
Qed.

Lemma play_spec ns rate s w :
  (forall w d, log (hal_sleep_until_us w d).1 = log w ++ [d]) ->
  ready rate s -> 0 < rate < 4294967296 -> 0 <= frames_committed s -> Forall (fun n => 0 <= n) ns ->
  frames_committed s + foldr Z.add 0 ns < 2 ^ 44 ->
  exists s' w', play ns s w = Some (s', w', alternate (active s) ns) /\ ready rate s' /\
    log w' = log w ++ deadlines (epoch_us s) rate (frames_committed s) ns.
Proof.
  intros Hlog. revert s w. induction ns as [|n ns IH]; intros s w Hs Hr Hf Hns Htot; simpl.
  { eexists _, _. split; [done |]. by rewrite app_nil_r. }
  apply List.Forall_cons_iff in Hns as [Hn Hns]. simpl in Htot.
  assert (0 <= foldr Z.add 0 ns) by (clear -Hns; induction Hns; simpl; lia).
  destruct (play_block_spec n rate s w Hs Hr Hf Hn ltac:(lia)) as (s1 & -> & Hs1 & He & Hc & Ha). simpl.
  set (w1 := (hal_sleep_until_us w _).1).
  destruct (IH s1 w1 Hs1 Hr ltac:(lia) Hns ltac:(lia)) as (s' & w' & -> & Hs' & Hl). simpl.
  eexists _, _. split; [by rewrite Ha |]. split; [done |].
  rewrite Hl, He, Hc. unfold w1. rewrite Hlog, <- app_assoc. done.
Qed.
End pacing.

(** Once started, the null sink plays in real time without drift: block by block
    it lends its two buffers alternately and sleeps until the epoch plus the
    exact stream time of all frames committed so far, rounded down to the
    microsecond, whatever the sleeps return. *)
Theorem null_sink_paces {W} (hal_sleep_until_us : W -> Z -> W * Z) (log : W -> list Z)
    (hal_monotonic_time_us : W -> W * Z) (s0 : eaf_null_sink_ctx_t) (fmt : eaf_format_t) (frames : Z)
    (w : W) (ns : list Z) :
  (forall w d, log (hal_sleep_until_us w d).1 = log w ++ [d]) ->
  (forall w, log (hal_monotonic_time_us w).1 = log w) ->
  eaf_format_valid (Some fmt) = true -> is_u32 (sample_rate fmt) -> running s0 = false ->
  0 < frames <= EAF_NULL_MAX_FRAMES -> Forall (fun n => 0 <= n) ns -> foldr Z.add 0 ns < 2 ^ 44 ->
  exists s1 s2 w2 s3 w3,
    init (Some s0) (Some fmt) frames = Some (Some s1, EAF_OK) /\
    start hal_monotonic_time_us s1 w = (s2, w2, EAF_OK) /\
    play hal_sleep_until_us ns s2 w2 = Some (s3, w3, alternate 0 ns) /\
    log w3 = log w ++ deadlines ((hal_monotonic_time_us w).2) (sample_rate fmt) 0 ns.
Proof.
  intros Hlog Hmono Hfmt Hrate Hrun Hfr Hns Htot.
  destruct (eaf_format_valid_channels fmt Hfmt) as (_ & _ & Hr0).
  unfold init. rewrite Hfmt, !bool_decide_eq_false_2, Hrun by lia. simpl.
  set (s1 := NullCtx _ _ _ _ _ _ _ _). exists s1. unfold start. simpl.
  destruct (hal_monotonic_time_us w) as [w2 now] eqn:Hnow.
  set (s2 := NullCtx (storage s1) (buffers s1) now 0 0 true true false).
  assert (Hready : ready (sample_rate fmt) s2).
  { split; [done |]. split; [done |]. split; [by left |]. split; [done |]. repeat constructor. }
  destruct (play_spec hal_sleep_until_us log ns (sample_rate fmt) s2 w2 Hlog Hready) as (s3 & w3 & Hp & _ & Hl);
    [word | done | done | exact Htot |].
  exists s2, w2, s3, w3. split; [done |]. split; [done |]. split; [exact Hp |].
  rewrite Hl. specialize (Hmono w). rewrite Hnow in Hmono. simpl in Hmono. by rewrite Hmono.
Qed.

Lemma null_sink_paces_witness :
  exists s1 s2 w2 s3 w3,
    init (Some (NullCtx [] [] 0 0 0 false false false)) (Some (Format 48000 2 3)) 256 = Some (Some s1, EAF_OK) /\
    start (fun w : list Z => (w, 77)) s1 [] = (s2, w2, EAF_OK) /\
    play (fun (w : list Z) d => (w ++ [d], EAF_TIMEOUT)) [256; 256; 10] s2 w2 = Some (s3, w3, [0; 1; 0]) /\
    w3 = [] ++ deadlines 77 48000 0 [256; 256; 10].
Proof.
  apply (null_sink_paces (fun (w : list Z) d => (w ++ [d], EAF_TIMEOUT)) (fun w => w) (fun w => (w, 77)));
    [done | done | done | done | done | done | repeat constructor; done | done].
Defined.
