(* ===== verification/I2sCore.v ===== *)
(** The I2S sink shared by the hardware backends: [hal/common/sink_i2s_core.c],
    [include/eaf/eaf_sink_i2s_core.h].  A backend (Zephyr or ESP-IDF driver code)
    is a record of functions on the device state [W]; it may read the core. *)

From S2P Require Import Prelude Types.

Definition EAF_I2S_CORE_MAX_FRAMES : Z := 1024.

(** The operation named to the error handler. *)
Inductive i2s_operation :=
| Op_drain | Op_disable | Op_allocate | Op_enable | Op_write | Op_start | Op_drop | Op_delete
| Op_new_channel | Op_init_std                      (* ESP-IDF *)
| Op_device_ready | Op_configure.                   (* Zephyr *)

Section core.
Context {W : Type}.

(** [dma] is the address of the block the core owns. *)
Record eaf_i2s_core_t := I2sCore {
  buffer : eaf_buffer_t;
  dma : ptr Z;
  frames : Z;
  submitted_blocks : Z;
  configured : bool;
  running : bool;
  started : bool;
  paused : bool;
  held : bool;
  error_handler : option (i2s_operation -> Z -> Z -> W -> W)
}.

Record eaf_i2s_backend_t := I2sBackend {
  be_configure : eaf_i2s_core_t -> W -> eaf_format_t -> Z -> ub (W * Z);
  be_enable : option (eaf_i2s_core_t -> W -> ub (W * Z));
  be_write : eaf_i2s_core_t -> W -> ptr Z -> Z -> ub (W * (Z * Z));     (* code, bytes written *)
  be_start : option (eaf_i2s_core_t -> W -> ub (W * Z));
  be_drop : option (eaf_i2s_core_t -> W -> ub (W * Z));
  be_drain : eaf_i2s_core_t -> W -> ub (W * Z);
  be_disable : option (eaf_i2s_core_t -> W -> ub (W * Z));
  be_delete_channel : option (eaf_i2s_core_t -> W -> ub (W * Z));
  be_tune_ppm : option (eaf_i2s_core_t -> W -> Z -> ub (W * Z));
  be_dma_alloc : eaf_i2s_core_t -> W -> Z -> ub (W * ptr Z);
  be_dma_free : eaf_i2s_core_t -> W -> ptr Z -> ub W;
  enable_before_write : bool
}.

Definition outcome := ub (eaf_i2s_core_t * W * Z).

Definition set_started (b : bool) (c : eaf_i2s_core_t) : eaf_i2s_core_t :=
  I2sCore (buffer c) (dma c) (frames c) (submitted_blocks c) (configured c) (running c) b (paused c) (held c)
    (error_handler c).
Definition set_paused (b : bool) (c : eaf_i2s_core_t) : eaf_i2s_core_t :=
  I2sCore (buffer c) (dma c) (frames c) (submitted_blocks c) (configured c) (running c) (started c) b (held c)
    (error_handler c).
Definition set_running (b p : bool) (c : eaf_i2s_core_t) : eaf_i2s_core_t :=
  I2sCore (buffer c) (dma c) (frames c) (submitted_blocks c) (configured c) b (started c) p (held c)
    (error_handler c).
Definition set_configured (b : bool) (c : eaf_i2s_core_t) : eaf_i2s_core_t :=
  I2sCore (buffer c) (dma c) (frames c) (submitted_blocks c) b (running c) (started c) (paused c) (held c)
    (error_handler c).
Definition set_block (d : ptr Z) (h : bool) (n : Z) (c : eaf_i2s_core_t) : eaf_i2s_core_t :=
  I2sCore (buffer c) d (frames c) n (configured c) (running c) (started c) (paused c) h (error_handler c).
Definition set_buffer (b : eaf_buffer_t) (c : eaf_i2s_core_t) : eaf_i2s_core_t :=
  I2sCore b (dma c) (frames c) (submitted_blocks c) (configured c) (running c) (started c) (paused c) (held c)
    (error_handler c).

Definition eaf_i2s_core_set_error_handler (c : eaf_i2s_core_t)
    (h : option (i2s_operation -> Z -> Z -> W -> W)) : eaf_i2s_core_t :=
  I2sCore (buffer c) (dma c) (frames c) (submitted_blocks c) (configured c) (running c) (started c) (paused c)
    (held c) h.

Definition eaf_i2s_core_io_error (c : eaf_i2s_core_t) (w : W) (operation : i2s_operation) (error : Z) : W * Z :=
  (match error_handler c with Some h => h operation error (submitted_blocks c) w | None => w end, EAF_IO).

(** [return eaf_i2s_core_io_error(core, operation, error);] *)
Definition fail (c : eaf_i2s_core_t) (w : W) (operation : i2s_operation) (error : Z) : outcome :=
  let '(w, rc) := eaf_i2s_core_io_error c w operation error in Some (c, w, rc).

(** The backend is reached through [core->backend]: NULL is an invalid access. *)
Definition eaf_i2s_core_drain (be : ptr eaf_i2s_backend_t) (c : eaf_i2s_core_t) (w : W) : outcome :=
  if negb (started c) then Some (c, w, EAF_OK)
  else
    b ← be;
    '(w, rc) ← be_drain b c w;
    if decide (rc <> 0) then fail c w Op_drain rc
    else
      match be_disable b with
      | None => Some (set_started false c, w, EAF_OK)
      | Some f =>
          '(w, rc) ← f c w;
          if decide (rc <> 0) then fail c w Op_disable rc else Some (set_started false c, w, EAF_OK)
      end.

Definition eaf_i2s_core_pause (be : ptr eaf_i2s_backend_t) (c : eaf_i2s_core_t) (w : W) (p : bool) : outcome :=
  if negb (running c) || held c then Some (c, w, EAF_STATE)
  else if bool_decide (paused c = p) then Some (c, w, EAF_OK)
  else if p && started c then
    '(c, w, rc) ← eaf_i2s_core_drain be c w;
    if decide (rc <> 0) then Some (c, w, rc) else Some (set_paused p c, w, EAF_OK)
  else Some (set_paused p c, w, EAF_OK).

Definition core_init (be : ptr eaf_i2s_backend_t) (core : ptr eaf_i2s_core_t) (w : W) (fmt : ptr eaf_format_t)
    (nframes : Z) : ub (ptr eaf_i2s_core_t * W * Z) :=
  match core, be with
  | Some c, Some b =>
      if configured c || running c then Some (core, w, EAF_STATE)
      else
        match fmt with
        | Some f =>
            if negb (eaf_format_valid fmt) || negb (bool_decide (num_channels f = 2)) ||
               negb (bool_decide (channel_mask f = 3)) || bool_decide (nframes = 0)
            then Some (core, w, EAF_INVALID)
            else
              let n := if decide (EAF_I2S_CORE_MAX_FRAMES < nframes) then EAF_I2S_CORE_MAX_FRAMES else nframes in
              '(w, rc) ← be_configure b c w f n;
              if decide (rc <> 0) then Some (core, w, rc)
              else
                Some (Some (I2sCore (Buffer 0 (u32 n) (u32 n) (n * 2) f 0) None (u32 n) (submitted_blocks c) true
                              (running c) (started c) (paused c) false (error_handler c)), w, EAF_OK)
        | None => Some (core, w, EAF_INVALID)
        end
  | _, _ => Some (core, w, EAF_STATE)
  end.

Definition core_start (c : eaf_i2s_core_t) (w : W) : outcome :=
  if negb (configured c) || running c then Some (c, w, EAF_STATE)
  else
    Some (I2sCore (buffer c) (dma c) (frames c) 0 (configured c) true false false false (error_handler c),
          w, EAF_OK).

(** [out] tells whether the caller passed a location; on success it receives
    [&core->buffer]. *)
Definition core_acquire (be : ptr eaf_i2s_backend_t) (c : eaf_i2s_core_t) (w : W) (out : bool) : outcome :=
  if negb (running c) || paused c || held c || negb out then Some (c, w, EAF_STATE)
  else
    b ← be;
    '(w, block) ← be_dma_alloc b c w (frames c * 2 * 4);
    match block with
    | None => fail c w Op_allocate EAF_IO
    | Some a =>
        let buf := Buffer a (frames c) (capacity_frames (buffer c)) (capacity_samples (buffer c))
                     (format (buffer c)) 0 in
        Some (set_buffer buf (set_block (Some a) true (submitted_blocks c) c), w, EAF_OK)
    end.

(** The tail of [core_commit]: after the block has been handed over. *)
Definition commit_started (be : ptr eaf_i2s_backend_t) (c : eaf_i2s_core_t) (w : W) : outcome :=
  if negb (bool_decide (Z.land (flags (buffer c)) EAF_FRAME_EOS = 0))
  then eaf_i2s_core_drain be c w else Some (c, w, EAF_OK).

Definition commit_write (be : ptr eaf_i2s_backend_t) (c : eaf_i2s_core_t) (w : W) : outcome :=
  b ← be;
  let bytes := frame_count (buffer c) * 2 * 4 in
  '(w, (rc, written)) ← be_write b c w (dma c) bytes;
  if decide (rc <> 0 \/ written <> bytes) then fail c w Op_write (if decide (rc <> 0) then rc else EAF_IO)
  else
    let c := set_block None false (u32 (submitted_blocks c + 1)) c in
    if negb (started c) then
      f ← be_start b;
      '(w, rc) ← f c w;
      if decide (rc <> 0) then fail c w Op_start rc else commit_started be (set_started true c) w
    else commit_started be c w.

(** [own]: the committed descriptor is [&core->buffer]. *)
Definition core_commit (be : ptr eaf_i2s_backend_t) (c : eaf_i2s_core_t) (w : W) (own : bool) : outcome :=
  if negb (running c) || negb (held c) || negb own then Some (c, w, EAF_STATE)
  else
    b ← be;
    if negb (started c) && enable_before_write b then
      f ← be_enable b;
      '(w, rc) ← f c w;
      if decide (rc <> 0) then fail c w Op_enable rc else commit_write be (set_started true c) w
    else commit_write be c w.

Definition stop_drop (be : ptr eaf_i2s_backend_t) (c : eaf_i2s_core_t) (w : W) : outcome :=
  b ← be;
  match be_drop b with
  | None => Some (set_running false false c, w, EAF_OK)
  | Some f =>
      '(w, rc) ← f c w;
      if decide (rc <> 0) then fail c w Op_drop rc else Some (set_running false false c, w, EAF_OK)
  end.

Definition stop_tail (be : ptr eaf_i2s_backend_t) (c : eaf_i2s_core_t) (w : W) : outcome :=
  if started c then
    '(c, w, rc) ← eaf_i2s_core_drain be c w;
    if decide (rc <> 0) then Some (c, w, rc) else stop_drop be c w
  else stop_drop be c w.

Definition core_stop (be : ptr eaf_i2s_backend_t) (c : eaf_i2s_core_t) (w : W) : outcome :=
  '(c, w) ← (if held c then
               b ← be;
               w ← be_dma_free b c w (dma c);
               Some (set_block None false (submitted_blocks c) c, w)
             else Some (c, w));
  stop_tail be c w.

Definition core_deinit (be : ptr eaf_i2s_backend_t) (c : eaf_i2s_core_t) (w : W) : outcome :=
  '(c, w, rc) ← core_stop be c w;
  if decide (rc <> 0) then Some (c, w, rc)
  else
    b ← be;
    match be_delete_channel b with
    | None => Some (set_configured false c, w, EAF_OK)
    | Some f =>
        '(w, rc) ← f c w;
        if decide (rc <> 0) then fail c w Op_delete rc else Some (set_configured false c, w, EAF_OK)
    end.

Definition core_adjust (be : ptr eaf_i2s_backend_t) (c : eaf_i2s_core_t) (w : W) (ppm : Z) : outcome :=
  b ← be;
  match be_tune_ppm b with
  | None => Some (c, w, EAF_UNSUPPORTED)
  | Some f => '(w, rc) ← f c w ppm; Some (c, w, rc)
  end.
End core.
Arguments eaf_i2s_core_t : clear implicits.
Arguments eaf_i2s_backend_t : clear implicits.
Arguments outcome : clear implicits.
#[global] Arguments commit_write : simpl never.
#[global] Arguments commit_started : simpl never.
#[global] Arguments stop_drop : simpl never.
#[global] Arguments eaf_i2s_core_drain : simpl never.
#[global] Arguments fail : simpl never.

(** ** What the core relies on

    [owned w] lists the DMA blocks handed out by [dma_alloc] and neither freed
    nor taken over by a complete write, with their sizes in bytes. *)
Section laws.
Context {W : Type} (owned : W -> list (Z * Z)).

Definition neutral (f : eaf_i2s_core_t W -> W -> ub (W * Z)) : Prop :=
  forall c w, exists w' rc, f c w = Some (w', rc) /\ owned w' = owned w.

Definition handler_laws (h : option (i2s_operation -> Z -> Z -> W -> W)) : Prop :=
  match h with Some h => forall o e n w, owned (h o e n w) = owned w | None => True end.

Record backend_laws (b : eaf_i2s_backend_t W) : Prop := {
  law_configure c w f n : handler_laws (error_handler c) -> exists w' rc, be_configure b c w f n = Some (w', rc) /\ owned w' = owned w;
  law_enable : enable_before_write b = true -> exists f, be_enable b = Some f /\ neutral f;
  law_start : enable_before_write b = false -> exists f, be_start b = Some f /\ neutral f;
  law_drop : match be_drop b with Some f => neutral f | None => True end;
  (* draining relies on the format the sink was configured with *)
  law_drain c w : eaf_format_valid (Some (format (buffer c))) = true ->
    exists w' rc, be_drain b c w = Some (w', rc) /\ owned w' = owned w;
  law_disable : match be_disable b with Some f => neutral f | None => True end;
  law_delete : match be_delete_channel b with Some f => neutral f | None => True end;
  law_tune : match be_tune_ppm b with
             | Some f => forall c w p, exists w' rc, f c w p = Some (w', rc) /\ owned w' = owned w
             | None => True
             end;
  (* a block may be larger than asked *)
  law_alloc c w n : 0 <= n <= EAF_I2S_CORE_MAX_FRAMES * 2 * 4 -> exists w' a, be_dma_alloc b c w n = Some (w', a) /\
    match a with Some a => exists m, n <= m /\ owned w' = (a, m) :: owned w | None => owned w' = owned w end;
  (* freeing needs ownership, and so does writing, which also stays inside the block *)
  law_free c w a n l : owned w = (a, n) :: l -> exists w', be_dma_free b c w (Some a) = Some w' /\ owned w' = l;
  law_write c w a n bytes l : owned w = (a, n) :: l -> 0 <= bytes <= n ->
    exists w' rc k, be_write b c w (Some a) bytes = Some (w', (rc, k)) /\
      owned w' = if decide (rc = 0 /\ k = bytes) then l else owned w
}.

(** ** The invariant: the core owns exactly the block it says it holds *)

Record i2s_inv (c : eaf_i2s_core_t W) (w : W) : Prop := {
  inv_block : if held c then exists a m, dma c = Some a /\ frames c * 2 * 4 <= m /\ owned w = [(a, m)]
              else dma c = None /\ owned w = [];
  inv_count : held c = true -> 0 <= frame_count (buffer c) <= frames c;
  inv_frames : 0 <= frames c <= EAF_I2S_CORE_MAX_FRAMES;
  inv_held : held c = true -> running c = true /\ paused c = false;
  inv_running : running c = true -> configured c = true;
  inv_started : started c = true -> running c = true /\ paused c = false;
  inv_paused : paused c = true -> running c = true;
  inv_handler : handler_laws (error_handler c);
  inv_format : configured c = true -> eaf_format_valid (Some (format (buffer c))) = true
}.

(** An outcome that keeps the invariant and satisfies [post]. *)
Definition yields (res : outcome W) (post : eaf_i2s_core_t W -> W -> Z -> Prop) : Prop :=
  exists c' w' rc, res = Some (c', w', rc) /\ i2s_inv c' w' /\ post c' w' rc.

Lemma i2s_inv_world c w w' : i2s_inv c w -> owned w' = owned w -> i2s_inv c w'.
Proof. intros [] Ho. by split; rewrite ?Ho. Qed.

Lemma fail_yields c w op e (post : eaf_i2s_core_t W -> W -> Z -> Prop) :
  i2s_inv c w -> (forall w', owned w' = owned w -> post c w' EAF_IO) -> yields (fail c w op e) post.
Proof.
  intros Hinv Hpost. unfold fail, eaf_i2s_core_io_error, yields.
  pose proof (inv_handler _ _ Hinv) as Hh. unfold handler_laws in Hh.
  destruct (error_handler c) as [h|] eqn:He.
  - eexists _, _, _. split; [done |]. split; [| by apply Hpost]. by apply (i2s_inv_world c w).
  - eexists _, _, _. split; [done |]. split; [done | by apply Hpost].
Qed.

Context (b : eaf_i2s_backend_t W) (Hb : backend_laws b).

Lemma drain_yields c w :
  i2s_inv c w -> held c = false ->
  yields (eaf_i2s_core_drain (Some b) c w) (fun c' w' rc =>
    if decide (rc = EAF_OK) then c' = set_started false c else c' = c).
Proof.
  intros Hinv Hh. unfold eaf_i2s_core_drain. destruct (started c) eqn:Hs; simpl.
  2: { exists c, w, EAF_OK. split; [done |]. split; [done |]. simpl. destruct c; simpl in *. by subst. }
  assert (Hset : forall w', owned w' = owned w -> i2s_inv (set_started false c) w').
  { intros w' Ho. destruct Hinv. split; simpl; rewrite ?Ho; done. }
  destruct (law_drain b Hb c w (inv_format _ _ Hinv (inv_running _ _ Hinv (proj1 (inv_started _ _ Hinv Hs))))) as (w1 & rc & -> & Ho). simpl.
  case_decide as Hrc; [apply fail_yields; [by apply (i2s_inv_world c w) | done] |].
  pose proof (law_disable b Hb) as Hd. destruct (be_disable b) as [f|].
  - destruct (Hd c w1) as (w2 & rc2 & -> & Ho2). simpl.
    case_decide as Hrc2.
    + apply fail_yields; [apply (i2s_inv_world c w); [done | congruence] | done].
    + eexists _, _, _. split; [done |]. split; [apply Hset; congruence | done].
  - eexists _, _, _. split; [done |]. split; [by apply Hset | done].
Qed.

Lemma pause_yields c w p :
  i2s_inv c w ->
  yields (eaf_i2s_core_pause (Some b) c w p) (fun c' w' rc =>
    if decide (rc = EAF_OK) then paused c' = p /\ running c' = true /\ (p = true -> started c' = false)
    else c' = c).
Proof.
  intros Hinv. unfold eaf_i2s_core_pause.
  destruct (running c) eqn:Hr, (held c) eqn:Hh; simpl; try (by exists c, w, EAF_STATE).
  case_bool_decide as Hp.
  { exists c, w, EAF_OK. split; [done |]. split; [done |]. rewrite decide_True by done. split; [done |].
    split; [done |]. intros ->. destruct (started c) eqn:Hs; [| done].
    destruct (inv_started _ _ Hinv Hs). congruence. }
  assert (Hset : forall c' w', i2s_inv c' w' -> running c' = true -> held c' = false ->
    (p = true -> started c' = false) -> i2s_inv (set_paused p c') w').
  { intros c' w' Hi Hr' Hh' Hs'. destruct Hi as [H1 H2 H3 H4 H5 H6 H7 H8 Hfv]. split; simpl; try done.
    - intros H9. by rewrite H9 in Hh'.
    - intros H9. split; [done |]. destruct p; [| done]. by rewrite Hs' in H9. }
  destruct (p && started c) eqn:Hps.
  - destruct (drain_yields c w Hinv Hh) as (c' & w' & rc & -> & Hi & Hpost). simpl.
    destruct (decide (rc = EAF_OK)) as [->|Hrc].
    + simpl in Hpost. subst c'. rewrite decide_False by (intros H; by apply H). eexists _, _, _.
      split; [done |]. split; [by apply Hset | done].
    + subst c'. rewrite decide_True by done. eexists _, _, _. split; [done |]. split; [done |].
      by rewrite decide_False by done.
  - exists (set_paused p c), w, EAF_OK. split; [done |]. simpl.
    assert (Hs : p = true -> started c = false) by (intros ->; done).
    split; [by apply Hset | done].
Qed.

Lemma init_yields c w fmt n :
  i2s_inv c w -> 0 <= n ->
  exists c' w' rc, core_init (Some b) (Some c) w fmt n = Some (Some c', w', rc) /\ i2s_inv c' w' /\
    if decide (rc = EAF_OK) then
      configured c' = true /\ frames c' = Z.min n EAF_I2S_CORE_MAX_FRAMES /\ 0 < n /\
      exists f, fmt = Some f /\ eaf_format_valid fmt = true /\ num_channels f = 2 /\ channel_mask f = 3
    else c' = c.
Proof.
  intros Hinv Hn. unfold core_init. destruct (configured c) eqn:Hc, (running c) eqn:Hr; simpl;
    try (by exists c, w, EAF_STATE).
  assert (Hh : held c = false).
  { destruct (held c) eqn:Hh; [| done]. destruct (inv_held _ _ Hinv Hh). congruence. }
  destruct fmt as [f|]; [| by exists c, w, EAF_INVALID].
  destruct (eaf_format_valid (Some f)) eqn:Hf; [| by exists c, w, EAF_INVALID]. cbn [negb orb].
  case_bool_decide as H2; [| by exists c, w, EAF_INVALID]. cbn [negb orb].
  case_bool_decide as H3; [| by exists c, w, EAF_INVALID]. cbn [negb orb].
  case_bool_decide as H0; [by exists c, w, EAF_INVALID |].
  set (m := if decide _ then _ else _). assert (Hm : m = Z.min n EAF_I2S_CORE_MAX_FRAMES) by (unfold m; case_decide; lia).
  unfold EAF_I2S_CORE_MAX_FRAMES in Hm.
  destruct (law_configure b Hb c w f m (inv_handler _ _ Hinv)) as (w' & rc & -> & Ho). simpl.
  case_decide as Hrc.
  { exists c, w', rc. split; [done |]. split; [by apply (i2s_inv_world c w) |]. by rewrite decide_False by done. }
  eexists _, _, _. split; [done |]. destruct Hinv as [H1' H2' H3' H4' H5' H6' H7' H8' Hfv']. rewrite Hh in H1'. split.
  - split; simpl; try done; try congruence.
    + rewrite Ho. split; [done | apply H1'].
    + unfold EAF_I2S_CORE_MAX_FRAMES. word.
    + intros Hx. destruct (H6' Hx). congruence.
    + intros Hx. specialize (H7' Hx). congruence.
  - simpl. split; [done |]. unfold EAF_I2S_CORE_MAX_FRAMES. split; [word |]. split; [lia |]. by exists f.
Qed.

Lemma start_yields c w :
  i2s_inv c w -> yields (core_start c w) (fun c' w' rc =>
    if decide (rc = EAF_OK) then running c' = true /\ started c' = false /\ submitted_blocks c' = 0
    else c' = c).
Proof.
  intros Hinv. unfold core_start. destruct (configured c) eqn:Hc, (running c) eqn:Hr; simpl;
    try (by exists c, w, EAF_STATE).
  eexists _, _, _. split; [done |]. split; [| done].
  assert (Hh : held c = false).
  { destruct (held c) eqn:Hh; [| done]. destruct (inv_held _ _ Hinv Hh). congruence. }
  destruct Hinv as [H1 H2 H3 H4 H5 H6 H7 H8 Hfv]. rewrite Hh in H1. split; simpl; try done; auto.
Qed.

Lemma acquire_yields c w out :
  i2s_inv c w -> yields (core_acquire (Some b) c w out) (fun c' w' rc =>
    if decide (rc = EAF_OK) then
      held c = false /\ held c' = true /\ Some (samples (buffer c')) = dma c' /\ frame_count (buffer c') = frames c
    else c' = c).
Proof.
  intros Hinv. unfold core_acquire.
  destruct (running c) eqn:Hr, (paused c) eqn:Hp, (held c) eqn:Hh, out; simpl; try (by exists c, w, EAF_STATE).
  pose proof (inv_frames _ _ Hinv) as Hfr.
  destruct (law_alloc b Hb c w (frames c * 2 * 4) ltac:(lia)) as (w' & a & -> & Ho). simpl.
  pose proof (inv_block _ _ Hinv) as Hbl. rewrite Hh in Hbl. destruct Hbl as [Hd Hw].
  destruct a as [a|].
  - destruct Ho as (m & Hm & Ho). eexists _, _, _. split; [done |]. split; [| done].
    destruct Hinv as [H1 H2 H3 H4 H5 H6 H7 H8 Hfv]. split; simpl; try done.
    + exists a, m. by rewrite Ho, Hw.
    + lia.
  - apply fail_yields; [by apply (i2s_inv_world c w) | done].
Qed.

(** A commit that returns [EAF_OK] handed the block over; one that fails either
    keeps it for [stop] to free, or handed it over before failing. *)
Definition commit_post (c c' : eaf_i2s_core_t W) (rc : Z) : Prop :=
  (held c' = true /\ rc <> EAF_OK /\ dma c' = dma c /\ submitted_blocks c' = submitted_blocks c) \/
  (held c' = false /\ submitted_blocks c' = u32 (submitted_blocks c + 1) /\
   (rc = EAF_OK -> started c' = bool_decide (Z.land (flags (buffer c)) EAF_FRAME_EOS = 0))).

Lemma commit_started_yields c w :
  i2s_inv c w -> held c = false -> started c = true ->
  yields (commit_started (Some b) c w) (fun c' w' rc =>
    held c' = false /\ submitted_blocks c' = submitted_blocks c /\
    (rc = EAF_OK -> started c' = bool_decide (Z.land (flags (buffer c)) EAF_FRAME_EOS = 0))).
Proof.
  intros Hinv Hh Hs. unfold commit_started. case_bool_decide as He; simpl.
  - by exists c, w, EAF_OK.
  - destruct (drain_yields c w Hinv Hh) as (c' & w' & rc & -> & Hi & Hpost).
    eexists _, _, _. split; [done |]. split; [done |]. simpl in Hpost. case_decide as Hrc; by subst c'.
Qed.

Lemma commit_write_yields c w :
  i2s_inv c w -> held c = true -> (started c = false -> enable_before_write b = false) ->
  yields (commit_write (Some b) c w) (fun c' w' rc => commit_post c c' rc).
Proof.
  intros Hinv Hh Hs. unfold commit_write. simpl.
  pose proof (inv_block _ _ Hinv) as Hbl. rewrite Hh in Hbl. destruct Hbl as (a & m & Hd & Hm & Ho).
  pose proof (inv_count _ _ Hinv Hh) as Hn.
  destruct (law_write b Hb c w a m (frame_count (buffer c) * 2 * 4) [] Ho ltac:(lia))
    as (w1 & rc & k & Hw & Ho1). rewrite Hd, Hw. simpl.
  destruct (decide (rc <> 0 \/ k <> frame_count (buffer c) * 2 * 4)) as [Hbad|Hbad].
  { rewrite decide_False in Ho1 by (intros [-> ->]; lia).
    apply fail_yields; [by apply (i2s_inv_world c w) |]. intros w' _. left.
    split; [done |]. by split. }
  rewrite decide_True in Ho1 by lia. set (c1 := set_block None false _ c).
  assert (Hinv1 : i2s_inv c1 w1).
  { destruct Hinv as [H1 H2 H3 H4 H5 H6 H7 H8 Hfv]. split; simpl; try done. }
  assert (Hfin : forall c2 w2, i2s_inv c2 w2 -> held c2 = false -> started c2 = true ->
    submitted_blocks c2 = submitted_blocks c1 -> flags (buffer c2) = flags (buffer c) ->
    yields (commit_started (Some b) c2 w2) (fun c' w' rc => commit_post c c' rc)).
  { intros c2 w2 Hi2 Hh2 Hs2 Hsub Hfl.
    destruct (commit_started_yields c2 w2 Hi2 Hh2 Hs2) as (c' & w' & rc' & -> & Hi' & Hp1 & Hp2 & Hp3).
    eexists _, _, _. split; [done |]. split; [done |]. right. rewrite Hp2, Hsub, <- Hfl. done. }
  destruct (started c) eqn:Hst; simpl; [by apply Hfin |].
  destruct (law_start b Hb (Hs eq_refl)) as (f & Hf & Hneu). rewrite Hf. simpl.
  destruct (Hneu c1 w1) as (w2 & rc2 & -> & Ho2). simpl. case_decide as Hrc2.
  - apply fail_yields; [by apply (i2s_inv_world c1 w1) |]. intros w' _. right. split; [done |]. by split.
  - apply Hfin; try done. apply (i2s_inv_world _ w1); [| done].
    destruct Hinv as [H1 H2 H3 H4 H5 H6 H7 H8 Hfv]. destruct (H4 Hh). split; simpl; try done.
Qed.

Lemma commit_yields c w own :
  i2s_inv c w -> yields (core_commit (Some b) c w own) (fun c' w' rc =>
    (running c = true /\ held c = true /\ own = true /\ commit_post c c' rc) \/ (c' = c /\ rc = EAF_STATE)).
Proof.
  intros Hinv. unfold core_commit.
  destruct (running c) eqn:Hr, (held c) eqn:Hh, own; simpl;
    try (exists c, w, EAF_STATE; split; [done |]; split; [done |]; by right).
  assert (Hlift : forall c0 w0, i2s_inv c0 w0 -> held c0 = true -> buffer c0 = buffer c -> dma c0 = dma c ->
    submitted_blocks c0 = submitted_blocks c ->
    (started c0 = false -> enable_before_write b = false) ->
    yields (commit_write (Some b) c0 w0) (fun c' w' rc =>
      (true = true /\ true = true /\ true = true /\ commit_post c c' rc) \/ (c' = c /\ rc = EAF_STATE))).
  { intros c0 w0 Hi0 Hh0 Hb0 Hd0 Hs0 He0.
    destruct (commit_write_yields c0 w0 Hi0 Hh0 He0) as (c' & w' & rc & -> & Hi & Hp).
    eexists _, _, _. split; [done |]. split; [done |]. left. split_and!; try done.
    unfold commit_post in *. by rewrite Hb0, Hd0, Hs0 in Hp. }
  destruct (started c) eqn:Hs; simpl; [by apply Hlift; try done; rewrite Hs |].
  destruct (enable_before_write b) eqn:He; simpl; [| by apply Hlift].
  destruct (law_enable b Hb He) as (f & Hf & Hneu). rewrite Hf. simpl.
  destruct (Hneu c w) as (w1 & rc & -> & Ho). simpl. case_decide as Hrc.
  - apply fail_yields; [by apply (i2s_inv_world c w) |]. intros w' _. left. split_and!; try done. by left.
  - apply Hlift; try done. apply (i2s_inv_world _ w); [| done].
    destruct Hinv as [H1 H2 H3 H4 H5 H6 H7 H8 Hfv]. destruct (H4 Hh). split; simpl; done.
Qed.

Lemma stop_drop_yields c w :
  i2s_inv c w -> held c = false -> started c = false ->
  yields (stop_drop (Some b) c w) (fun c' w' rc =>
    held c' = false /\ started c' = false /\ (rc = EAF_OK -> running c' = false /\ paused c' = false) /\
    (rc <> EAF_OK -> running c' = running c) /\ configured c' = configured c).
Proof.
  intros Hinv Hh Hs. unfold stop_drop. simpl.
  assert (Hset : forall w', owned w' = owned w -> i2s_inv (set_running false false c) w').
  { intros w' Ho. pose proof (inv_block _ _ Hinv) as Hbl.
    destruct Hinv as [H1 H2 H3 H4 H5 H6 H7 H8 Hfv]. split; simpl; rewrite ?Ho; try done; congruence. }
  pose proof (law_drop b Hb) as Hd. destruct (be_drop b) as [f|].
  - destruct (Hd c w) as (w1 & rc & -> & Ho). simpl. case_decide as Hrc.
    + apply fail_yields; [by apply (i2s_inv_world c w) | done].
    + eexists _, _, _. split; [done |]. split; [by apply Hset | done].
  - eexists _, _, _. split; [done |]. split; [by apply Hset | done].
Qed.

Lemma stop_yields c w :
  i2s_inv c w -> yields (core_stop (Some b) c w) (fun c' w' rc =>
    held c' = false /\ (rc = EAF_OK -> running c' = false /\ started c' = false /\ paused c' = false) /\
    (rc <> EAF_OK -> running c' = running c) /\ configured c' = configured c).
Proof.
  intros Hinv. unfold core_stop.
  assert (Htail : forall c0 w0, i2s_inv c0 w0 -> held c0 = false -> running c0 = running c ->
    configured c0 = configured c ->
    yields (stop_tail (Some b) c0 w0) (fun c' w' rc =>
    held c' = false /\ (rc = EAF_OK -> running c' = false /\ started c' = false /\ paused c' = false) /\
    (rc <> EAF_OK -> running c' = running c) /\ configured c' = configured c)).
  { intros c0 w0 Hi Hh Hr Hc. unfold stop_tail. destruct (started c0) eqn:Hs.
    - destruct (drain_yields c0 w0 Hi Hh) as (c1 & w1 & rc & -> & Hi1 & Hpost). simpl in *.
      destruct (decide (rc = EAF_OK)) as [->|Hrc].
      + subst c1. rewrite decide_False by (intros H; by apply H).
        destruct (stop_drop_yields (set_started false c0) w1 Hi1 Hh eq_refl)
          as (c' & w' & rc & -> & Hi' & Hp1 & Hp2 & Hp3 & Hp4 & Hp5).
        eexists _, _, _. split; [done |]. split; [done |]. split; [done |]. split; [naive_solver |].
        split; [intros Hrc; by rewrite Hp4 | by rewrite Hp5].
      + subst c1. rewrite decide_True by done. eexists _, _, _. split; [done |]. by split.
    - destruct (stop_drop_yields c0 w0 Hi Hh Hs) as (c' & w' & rc & -> & Hi' & Hp1 & Hp2 & Hp3 & Hp4 & Hp5).
      eexists _, _, _. split; [done |]. split; [done |]. split; [done |]. split; [naive_solver |].
      split; [intros Hrc; by rewrite Hp4 | by rewrite Hp5]. }
  pose proof (inv_block _ _ Hinv) as Hbl. destruct (held c) eqn:Hh.
  - destruct Hbl as (a & m & Hd & _ & Ho). simpl. rewrite Hd.
    destruct (law_free b Hb c w a _ [] Ho) as (w1 & -> & Ho1). simpl.
    apply (Htail (set_block None false (submitted_blocks c) c) w1); try done.
    destruct Hinv as [H1 H2 H3 H4 H5 H6 H7 H8 Hfv]. split; simpl; try done.
  - simpl. by apply Htail.
Qed.

Lemma deinit_yields c w :
  i2s_inv c w -> yields (core_deinit (Some b) c w) (fun c' w' rc =>
    held c' = false /\
    (rc = EAF_OK -> configured c' = false /\ running c' = false /\ started c' = false /\ owned w' = []) /\
    (rc <> EAF_OK -> configured c' = configured c)).
Proof.
  intros Hinv. unfold core_deinit.
  destruct (stop_yields c w Hinv) as (c1 & w1 & rc & -> & Hi1 & Hh & Hok & _ & Hcf). simpl.
  case_decide as Hrc.
  { eexists _, _, _. split; [done |]. split; [done |]. split; [done |]. split; [naive_solver |].
    intros H. done. }
  assert (rc = 0) as -> by lia. destruct (Hok eq_refl) as (Hr & Hs & Hp).
  assert (Hset : forall w', owned w' = owned w1 -> i2s_inv (set_configured false c1) w' /\ owned w' = []).
  { intros w' Ho. pose proof (inv_block _ _ Hi1) as Hbl. rewrite Hh in Hbl. destruct Hbl as [Hd Hw].
    split; [| congruence]. destruct Hi1 as [H1 H2 H3 H4 H5 H6 H7 H8 Hfv].
    split; simpl; rewrite ?Ho; try done; congruence. }
  pose proof (law_delete b Hb) as Hd. destruct (be_delete_channel b) as [f|].
  - destruct (Hd c1 w1) as (w2 & rc2 & -> & Ho). simpl. case_decide as Hrc2.
    + apply fail_yields; [by apply (i2s_inv_world c1 w1) |]. intros. split; [done |]. by split.
    + destruct (Hset w2 Ho). eexists _, _, _. split; [done |]. split; [done |]. split; [done |]. by split.
  - destruct (Hset w1 eq_refl). eexists _, _, _. split; [done |]. split; [done |]. split; [done |]. by split.
Qed.
End laws.

(** ** Scripts of the audio owner *)

Inductive i2s_op {W : Type} :=
| Init (fmt : ptr eaf_format_t) (n : Z)
| Start
| Stop
| Acquire (out : bool)
| Fill (n fl : Z)          (* the pipeline sets the frame count and flags of a lent buffer *)
| Commit (own : bool)
| Deinit
| Pause (p : bool)
| Adjust (ppm : Z)
| SetHandler (h : option (i2s_operation -> Z -> Z -> W -> W)).
Arguments i2s_op : clear implicits.

#[global] Arguments core_init : simpl never.
#[global] Arguments core_start : simpl never.
#[global] Arguments core_stop : simpl never.
#[global] Arguments core_acquire : simpl never.
#[global] Arguments core_commit : simpl never.
#[global] Arguments core_deinit : simpl never.
#[global] Arguments core_adjust : simpl never.
#[global] Arguments eaf_i2s_core_pause : simpl never.

Section scripts.
Context {W : Type} (owned : W -> list (Z * Z)).

Definition i2s_op_ok (op : i2s_op W) : Prop :=
  match op with Init _ n => 0 <= n | SetHandler h => handler_laws owned h | _ => True end.

Definition drop_rc (res : outcome W) : ub (eaf_i2s_core_t W * W) := '(c, w, _) ← res; Some (c, w).

Definition i2s_exec (b : eaf_i2s_backend_t W) (op : i2s_op W) (c : eaf_i2s_core_t W) (w : W)
  : ub (eaf_i2s_core_t W * W) :=
  match op with
  | Init fmt n => '(c, w, _) ← core_init (Some b) (Some c) w fmt n; c ← c; Some (c, w)
  | Start => drop_rc (core_start c w)
  | Stop => drop_rc (core_stop (Some b) c w)
  | Acquire out => drop_rc (core_acquire (Some b) c w out)
  | Fill n fl => if decide (0 <= n <= frames c)
                 then Some (set_buffer (set_flags fl (set_frame_count n (buffer c))) c, w) else Some (c, w)
  | Commit own => drop_rc (core_commit (Some b) c w own)
  | Deinit => drop_rc (core_deinit (Some b) c w)
  | Pause p => drop_rc (eaf_i2s_core_pause (Some b) c w p)
  | Adjust ppm => drop_rc (core_adjust (Some b) c w ppm)
  | SetHandler h => Some (eaf_i2s_core_set_error_handler c h, w)
  end.

Fixpoint i2s_run (b : eaf_i2s_backend_t W) (ops : list (i2s_op W)) (c : eaf_i2s_core_t W) (w : W)
  : ub (eaf_i2s_core_t W * W) :=
  match ops with
  | [] => Some (c, w)
  | op :: ops => '(c, w) ← i2s_exec b op c w; i2s_run b ops c w
  end.

Lemma yields_exec res post :
  yields owned res post -> exists c' w', drop_rc res = Some (c', w') /\ i2s_inv owned c' w'.
Proof. intros (c' & w' & rc & -> & Hi & _). by eexists _, _. Qed.

Lemma i2s_exec_inv b op c w :
  backend_laws owned b -> i2s_inv owned c w -> i2s_op_ok op ->
  exists c' w', i2s_exec b op c w = Some (c', w') /\ i2s_inv owned c' w'.
Proof.
  intros Hb Hinv Hop. destruct op as [fmt n| | |out|n fl|own| |p|ppm|h]; simpl in *.
  - destruct (init_yields owned b Hb c w fmt n Hinv Hop) as (c' & w' & rc & -> & Hi & _). by eexists _, _.
  - by eapply yields_exec, start_yields.
  - by eapply yields_exec, stop_yields.
  - by eapply yields_exec, acquire_yields.
  - case_decide; [| by eexists _, _]. eexists _, _. split; [done |].
    destruct Hinv as [H1 H2 H3 H4 H5 H6 H7 H8 Hfv]. by split.
  - by eapply yields_exec, commit_yields.
  - by eapply yields_exec, deinit_yields.
  - by eapply yields_exec, pause_yields.
  - unfold core_adjust. simpl. pose proof (law_tune _ b Hb) as Ht. destruct (be_tune_ppm b) as [f|].
    + destruct (Ht c w ppm) as (w' & rc & -> & Ho). eexists _, _. split; [done |]. by apply (i2s_inv_world owned c w).
    + by eexists _, _.
  - eexists _, _. split; [done |]. destruct Hinv as [H1 H2 H3 H4 H5 H6 H7 H8 Hfv]. by split.
Qed.

Lemma i2s_run_inv b ops c w :
  backend_laws owned b -> i2s_inv owned c w -> Forall i2s_op_ok ops ->
  exists c' w', i2s_run b ops c w = Some (c', w') /\ i2s_inv owned c' w'.
Proof.
  intros Hb. revert c w. induction ops as [|op ops IH]; intros c w Hinv Hops; [by eexists _, _ |].
  apply List.Forall_cons_iff in Hops as [Hop Hops].
  destruct (i2s_exec_inv b op c w Hb Hinv Hop) as (c' & w' & Hrun & Hinv'). simpl. rewrite Hrun. by apply IH.
Qed.
End scripts.

(** The static zero of an [eaf_i2s_core_t]. *)
Definition core_zero {W} : eaf_i2s_core_t W :=
  I2sCore (Buffer 0 0 0 0 format_zero 0) None 0 0 false false false false false None.

Lemma core_zero_inv {W} (owned : W -> list (Z * Z)) w : owned w = [] -> i2s_inv owned core_zero w.
Proof. intros. split; simpl; try done. Qed.

(** A driver for the witnesses: it hands out block 1 and takes every write. *)
Definition demo_backend : eaf_i2s_backend_t (list (Z * Z)) :=
  let f := fun (_ : eaf_i2s_core_t (list (Z * Z))) (w : list (Z * Z)) => Some (w, 0) in
  I2sBackend (fun _ w _ _ => Some (w, 0)) (Some f)
    (fun _ w _ n => Some (tail w, (0, n))) (Some f) None f None None None
    (fun _ w n => Some ((1, n) :: w, Some 1)) (fun _ w _ => Some (tail w)) true.
Lemma demo_backend_laws : backend_laws (fun w => w) demo_backend.
Proof.
  split; try done.
  - intros. by eexists _, _.
  - intros _. eexists. split; [done |]. intros c w. by eexists _, _.
  - intros c w. by eexists _, _.
  - intros c w n _. eexists _, (Some 1). split; [done |]. by exists n.
  - intros c w a n l ->. by eexists _.
  - intros c w a n bytes l -> _. eexists _, _, _. split; [done |]. by rewrite decide_True by done.
Qed.

(** ** Properties *)

(** DMA blocks are never leaked, freed twice or used after being handed over,
    whatever the audio owner calls in whatever order and whatever the driver
    answers: from the zeroed core every call returns, and the blocks allocated
    and neither freed nor taken by a complete write are exactly the one block
    the core says it holds, which is large enough for what will be written. *)
Theorem i2s_block_ownership {W} (owned : W -> list (Z * Z)) (b : eaf_i2s_backend_t W) (w : W)
    (ops : list (i2s_op W)) :
  backend_laws owned b -> owned w = [] -> Forall (i2s_op_ok owned) ops ->
  exists c' w', i2s_run b ops core_zero w = Some (c', w') /\ i2s_inv owned c' w'.
Proof. intros Hb Hw Hops. apply i2s_run_inv; [done | by apply core_zero_inv | done]. Qed.

Lemma i2s_block_ownership_witness :
  exists c' w', i2s_run demo_backend [Init (Some (Format 48000 2 3)) 4096; Start; Acquire true; Fill 8 4;
                                      Commit true; Acquire true; Stop; Deinit] core_zero [] = Some (c', w') /\
    i2s_inv (fun w => w) c' w'.
Proof.
  apply (i2s_block_ownership (fun w => w)); [apply demo_backend_laws | done | repeat constructor; done].
Defined.

(** What a failing driver leaves behind.  A commit either reports an error and
    still holds its block (which stop then frees), or handed it over and counted
    it, and when it returns success the hardware runs unless the block ended the
    stream, in which case the queue was drained.  A stop or deinit that fails
    keeps the sink running or configured, so it can be retried; a successful
    deinit leaves nothing running and no block allocated.  A pause that succeeds
    has drained the hardware. *)
Theorem i2s_failure_contract {W} (owned : W -> list (Z * Z)) (b : eaf_i2s_backend_t W)
    (c : eaf_i2s_core_t W) (w : W) :
  backend_laws owned b -> i2s_inv owned c w ->
  (forall own, yields owned (core_commit (Some b) c w own) (fun c' w' rc =>
    (running c = true /\ held c = true /\ own = true /\ commit_post c c' rc) \/ (c' = c /\ rc = EAF_STATE))) /\
  yields owned (core_stop (Some b) c w) (fun c' w' rc => held c' = false /\
    (rc = EAF_OK -> running c' = false /\ started c' = false /\ paused c' = false) /\
    (rc <> EAF_OK -> running c' = running c) /\ configured c' = configured c) /\
  yields owned (core_deinit (Some b) c w) (fun c' w' rc => held c' = false /\
    (rc = EAF_OK -> configured c' = false /\ running c' = false /\ started c' = false /\ owned w' = []) /\
    (rc <> EAF_OK -> configured c' = configured c)) /\
  (forall p, yields owned (eaf_i2s_core_pause (Some b) c w p) (fun c' w' rc =>
    if decide (rc = EAF_OK) then paused c' = p /\ running c' = true /\ (p = true -> started c' = false)
    else c' = c)).
Proof.
  intros Hb Hinv. split_and!; intros;
    [by apply commit_yields | by apply stop_yields | by apply deinit_yields | by apply pause_yields].
Qed.

Lemma i2s_failure_contract_witness :
  yields (fun w => w) (core_deinit (Some demo_backend) core_zero []) (fun c' w' rc => held c' = false /\
    (rc = EAF_OK -> configured c' = false /\ running c' = false /\ started c' = false /\ w' = []) /\
    (rc <> EAF_OK -> configured c' = false)).
Proof.
  destruct (i2s_failure_contract (fun w => w) demo_backend core_zero [] demo_backend_laws) as (_ & _ & H & _);
    [by apply core_zero_inv | exact H].
Defined.
