(* ===== verification/Text.v ===== *)
(** Characters, C strings and the string functions of the C library the parsers
    and message builders use.  A character is its code; a C string is an array of
    characters with a NUL. *)

From stdpp Require Import strings.
From S2P Require Import Prelude.

(** The characters of a literal (without the terminating NUL). *)
Fixpoint chars (s : string) : list Z :=
  match s with
  | EmptyString => []
  | String a s => Z.of_N (Ascii.N_of_ascii a) :: chars s
  end.

(** [strlen]: reads up to the NUL; a string without one is an invalid access. *)
Fixpoint strlen (s : list Z) : ub Z :=
  match s with
  | [] => None
  | c :: s => if decide (c = 0) then Some 0 else n ← strlen s; Some (n + 1)
  end.

(** [while (len < max && s[len]) ++len;] *)
Fixpoint strnlen (fuel : nat) (s : list Z) (len max : Z) : ub Z :=
  if decide (len < max) then
    c ← ld s len;
    if decide (c = 0) then Some len
    else match fuel with O => None | S fuel => strnlen fuel s (len + 1) max end
  else Some len.

(** [memcmp(p + i, literal, n) == 0] *)
Definition memeq (p : list Z) (i : Z) (lit : list Z) : ub bool :=
  xs ← ldn p i (zlen lit); Some (bool_decide (xs = lit)).

(** A NUL-terminated string holding the characters [t]. *)
Definition c_string (t s : list Z) : Prop := Forall (fun c => c <> 0) t /\ exists rest, s = t ++ 0 :: rest.

Lemma strlen_string t s : c_string t s -> strlen s = Some (zlen t).
Proof.
  intros [Ht [rest ->]]. induction Ht as [|c t Hc Ht IH]; simpl; [done |].
  rewrite decide_False by done. rewrite IH. simpl. by rewrite zlen_cons.
Qed.

Lemma strnlen_string fuel t s len max :
  c_string t s -> 0 <= len <= zlen t -> (Z.to_nat (Z.min (zlen t) max - len) <= fuel)%nat ->
  strnlen fuel s len max = Some (if decide (len < max) then Z.min (zlen t) max else len).
Proof.
  intros [Ht [rest ->]]. revert len. induction fuel as [|fuel IH]; intros len Hl Hf; simpl; case_decide; try done.
  - assert (len = zlen t) as -> by lia. rewrite ld_lookup by lia.
    rewrite lookup_app_r by (unfold zlen; lia). unfold zlen in *. rewrite Nat2Z.id, Nat.sub_diag. simpl. f_equal. lia.
  - rewrite ld_lookup by lia. destruct (decide (len = zlen t)) as [->|Hne].
    + rewrite lookup_app_r by (unfold zlen; lia). unfold zlen in *. rewrite Nat2Z.id, Nat.sub_diag. simpl. f_equal. lia.
    + rewrite lookup_app_l by (unfold zlen in *; lia).
      destruct (lookup_lt_is_Some_2 t (Z.to_nat len)) as [c Hc]; [unfold zlen in *; lia |]. rewrite Hc. simpl.
      rewrite decide_False by (by apply (proj1 (Forall_lookup _ _) Ht (Z.to_nat len))).
      rewrite IH by lia. f_equal. case_decide; lia.
Qed.

Lemma chars_nonzero s : forallb (fun c => negb (c =? 0)) (chars s) = true -> Forall (fun c => c <> 0) (chars s).
Proof.
  intros H. apply Forall_lookup. intros i c Hc ->. rewrite forallb_forall in H.
  specialize (H 0). rewrite <- list_elem_of_In in H. specialize (H (list_elem_of_lookup_2 _ _ _ Hc)). done.
Qed.

Lemma memeq_eq p i lit : 0 <= i -> i + zlen lit <= zlen p -> memeq p i lit = Some (bool_decide (slice p i (zlen lit) = lit)).
Proof. intros. unfold memeq. by rewrite ldn_eq by (try apply zlen_nonneg; lia). Qed.
