(* ===== verification/LmsProtocol.v ===== *)
(** The SlimProto wire format of the LMS client: [apps/lms/lms_protocol.c],
    [include/eaf/eaf_lms.h]. *)

From stdpp Require Import strings.
From S2P Require Import Prelude Types Bytes Text.

Definition EAF_LMS_MAX_PACKET : Z := 2048.

Record eaf_lms_stream_t := LmsStream {
  ls_command : Z; ls_autostart : Z; ls_codec : Z; ls_sample_size : Z; ls_sample_rate : Z; ls_channels : Z;
  ls_endianness : Z; ls_flags : Z; ls_threshold_kib : Z; ls_output_threshold_ds : Z;
  ls_replay_gain : Z; ls_server_ipv4 : Z; ls_server_port : Z;
  ls_request : list Z; ls_request_length : Z
}.

Section parser.
Context {C : Type}.

(** [ctx] is the state behind the callback's context pointer. *)
Record eaf_lms_parser_t := LmsParser {
  packet : list Z;         (* uint8_t [EAF_LMS_MAX_PACKET] *)
  prefix : list Z;         (* uint8_t [2] *)
  prefix_used : Z;
  used : Z;
  expected : Z;
  failed : bool;
  on_packet : option (C -> list Z -> Z -> C * Z);
  ctx : C
}.

Definition eaf_lms_parser_init (callback : option (C -> list Z -> Z -> C * Z)) (c : C) : eaf_lms_parser_t :=
  LmsParser (replicate (Z.to_nat EAF_LMS_MAX_PACKET) 0) [0; 0] 0 0 0 false callback c.

Definition set_failed (p : eaf_lms_parser_t) : eaf_lms_parser_t :=
  LmsParser (packet p) (prefix p) (prefix_used p) (used p) (expected p) true (on_packet p) (ctx p).

(** The second half of a round: copy payload, dispatch a complete packet.  The
    last component is the code of an early return. *)
Definition feed_payload (p : eaf_lms_parser_t) (bytes : list Z) (length : Z)
  : ub (eaf_lms_parser_t * list Z * Z * option Z) :=
  let take := if decide (length < expected p - used p) then length else expected p - used p in
  packet' ← memcpy (packet p) (used p) bytes 0 take;
  let p := LmsParser packet' (prefix p) (prefix_used p) (used p + take) (expected p) (failed p) (on_packet p) (ctx p) in
  let bytes := drop (Z.to_nat take) bytes in
  let length := length - take in
  if decide (used p = expected p) then
    f ← on_packet p;
    let '(c, rc) := f (ctx p) (slice (packet p) 0 (expected p)) (expected p) in
    let p := LmsParser (packet p) (prefix p) 0 0 0 (failed p) (on_packet p) c in
    if decide (rc <> 0) then Some (set_failed p, bytes, length, Some rc)
    else Some (p, bytes, length, None)
  else Some (p, bytes, length, None).

Definition feed_round (p : eaf_lms_parser_t) (bytes : list Z) (length : Z)
  : ub (eaf_lms_parser_t * list Z * Z * option Z) :=
  if decide (prefix_used p < 2) then
    b ← ld bytes 0;
    prefix' ← st (prefix p) (prefix_used p) b;
    let p := LmsParser (packet p) prefix' (prefix_used p + 1) (used p) (expected p) (failed p) (on_packet p) (ctx p) in
    let bytes := drop 1 bytes in
    let length := length - 1 in
    if decide (prefix_used p < 2) then Some (p, bytes, length, None)
    else
      p0 ← ld (prefix p) 0; p1 ← ld (prefix p) 1;
      let p := LmsParser (packet p) (prefix p) (prefix_used p) (used p) (p0 * 256 + p1) (failed p) (on_packet p) (ctx p) in
      if decide (expected p < 4 \/ EAF_LMS_MAX_PACKET < expected p)
      then Some (set_failed p, bytes, length, Some EAF_INVALID)
      else feed_payload p bytes length
  else feed_payload p bytes length.

Fixpoint feed_loop (fuel : nat) (p : eaf_lms_parser_t) (bytes : list Z) (length : Z) : ub (eaf_lms_parser_t * Z) :=
  if decide (length = 0) then Some (p, EAF_OK)
  else
    match fuel with
    | O => None
    | S fuel =>
        '(p, bytes, length, ret) ← feed_round p bytes length;
        match ret with Some rc => Some (p, rc) | None => feed_loop fuel p bytes length end
    end.

(** Every round takes at least one byte: [length] rounds are enough. *)
Definition eaf_lms_feed (p : ptr eaf_lms_parser_t) (bytes : ptr (list Z)) (length : Z) : ub (ptr eaf_lms_parser_t * Z) :=
  on_ptr p EAF_INVALID (fun p =>
    match on_packet p, bytes with
    | Some _, Some bytes => if failed p then Some (p, EAF_STATE) else feed_loop (Z.to_nat length) p bytes length
    | Some _, None => if decide (length <> 0) then Some (p, EAF_INVALID)
                      else if failed p then Some (p, EAF_STATE) else Some (p, EAF_OK)
    | None, _ => Some (p, EAF_INVALID)
    end).
End parser.
Arguments eaf_lms_parser_t : clear implicits.

Definition eaf_lms_parse_stream (p : ptr (list Z)) (length : Z) (out : ptr eaf_lms_stream_t)
  : ub (ptr eaf_lms_stream_t * Z) :=
  match p, out with
  | Some p, Some _ =>
      if decide (length < 28) then Some (out, EAF_INVALID)
      else
        strm ← memeq p 0 (chars "strm");
        if negb strm then Some (out, EAF_INVALID)
        else
          command ← ld p 4; autostart ← ld p 5; codec ← ld p 6; sample_size ← ld p 7; sample_rate ← ld p 8;
          channels ← ld p 9; endianness ← ld p 10; flags ← ld p 15; threshold ← ld p 11; output ← ld p 16;
          replay_gain ← eaf_bytes_read_u32 p 18; port ← eaf_bytes_read_u16 p 22; ipv4 ← eaf_bytes_read_u32 p 24;
          Some (Some (LmsStream command autostart codec sample_size sample_rate channels endianness flags threshold
                        output replay_gain ipv4 port (drop 28 p) (length - 28)), EAF_OK)
  | _, _ => Some (out, EAF_INVALID)
  end.

(** [capacity] bounds [dst]; the result carries [*written]. *)
Definition eaf_lms_helo (dst : ptr (list Z)) (capacity : Z) (mac capabilities : ptr (list Z)) (written : ptr Z)
  : ub (ptr (list Z) * ptr Z * Z) :=
  match dst, mac, capabilities, written with
  | Some d, Some mac, Some caps, Some _ =>
      len ← strnlen (Z.to_nat EAF_LMS_MAX_PACKET) caps 0 EAF_LMS_MAX_PACKET;
      if decide (len = EAF_LMS_MAX_PACKET \/ capacity < 44 + len) then Some (dst, Some 0, EAF_INVALID)
      else
        d ← memset d 0 0 44;
        d ← memcpy d 0 (chars "HELO") 0 4;
        d ← eaf_bytes_write_u32 d 4 (u32 (len + 36));
        d ← st d 8 12;
        d ← memcpy d 10 mac 0 6;
        d ← memcpy d 44 caps 0 len;
        Some (Some d, Some (44 + len), EAF_OK)
  | _, _, _, _ => Some (dst, written, EAF_INVALID)
  end.

(** ** Feeding in pieces *)

Section feeding.
Context {C : Type} (f : C -> list Z -> Z -> C * Z).

Record lms_inv (p : eaf_lms_parser_t C) : Prop := {
  lp_packet : zlen (packet p) = EAF_LMS_MAX_PACKET;
  lp_prefix : zlen (prefix p) = 2;
  lp_prefix_used : 0 <= prefix_used p <= 2;
  lp_header : prefix_used p < 2 -> used p = 0;
  lp_payload : prefix_used p = 2 -> 0 <= used p < expected p /\ 4 <= expected p <= EAF_LMS_MAX_PACKET;
  lp_callback : on_packet p = Some f;
  lp_failed : failed p = false
}.

Definition feed (p : eaf_lms_parser_t C) (bs : list Z) : ub (eaf_lms_parser_t C * Z) :=
  feed_loop (length bs) p bs (zlen bs).

Definition sound_return (p : eaf_lms_parser_t C) (ret : option Z) : Prop :=
  match ret with None => lms_inv p | Some rc => rc <> EAF_OK end.

(** What a round leaves: fewer bytes, and a sound parser unless it returned. *)
Definition round_ok (bs : list Z) (res : ub (eaf_lms_parser_t C * list Z * Z * option Z)) : Prop :=
  exists p' bs' ret, res = Some (p', bs', zlen bs', ret) /\ (length bs' < length bs)%nat /\
    sound_return p' ret.

Lemma payload_ok p bs : lms_inv p -> prefix_used p = 2 ->
  exists p' bs' ret, feed_payload p bs (zlen bs) = Some (p', bs', zlen bs', ret) /\
    (length bs' <= length bs)%nat /\ (bs <> [] -> length bs' < length bs)%nat /\ sound_return p' ret.
Proof.
  intros Hinv Hpu. destruct (lp_payload _ Hinv Hpu) as [Hu He]. unfold feed_payload.
  pose proof (lp_packet _ Hinv) as Hpk. pose proof (zlen_nonneg bs). unfold EAF_LMS_MAX_PACKET in *.
  set (take := if decide _ then _ else _).
  assert (Ht : take = Z.min (zlen bs) (expected p - used p)) by (unfold take; case_decide; lia).
  rewrite memcpy_eq by lia. cbn [mbind option_bind].
  set (packet' := splice _ _ _).
  assert (Hpk' : zlen packet' = 2048) by (unfold packet'; rewrite zlen_splice; rewrite ?zlen_slice; lia).
  assert (Hdz : zlen bs - take = zlen (drop (Z.to_nat take) bs)) by (unfold zlen in *; rewrite length_drop; lia).
  assert (Hdl : (length (drop (Z.to_nat take) bs) <= length bs)%nat) by (rewrite length_drop; lia).
  assert (Hdl' : (bs <> [] -> length (drop (Z.to_nat take) bs) < length bs)%nat).
  { intros Hne. rewrite length_drop. destruct bs; [done |]. unfold zlen in *. simpl in *. lia. }
  rewrite Hdz. cbn [used expected on_packet ctx packet]. case_decide as Hend.
  - rewrite (lp_callback _ Hinv). cbn [mbind option_bind].
    destruct (f _ _ _) as [c rc]. case_decide; eexists _, _, _; (split; [done |]); (split; [done |]);
      (split; [done |]); [done |]. destruct Hinv. split; simpl; done || lia.
  - eexists _, _, _. split; [done |]. split; [done |]. split; [done |]. destruct Hinv.
    split; cbn; unfold EAF_LMS_MAX_PACKET; done || lia.
Qed.

Lemma feed_round_ok p bs : lms_inv p -> bs <> [] -> round_ok bs (feed_round p bs (zlen bs)).
Proof.
  intros Hinv Hne. unfold feed_round. case_decide as Hpu.
  2: { pose proof (lp_prefix_used _ Hinv).
       destruct (payload_ok p bs Hinv ltac:(lia)) as (p' & bs' & ret & -> & _ & Hl & Hi).
       eexists _, _, _. split; [done |]. split; [by apply Hl | done]. }
  destruct bs as [|b bs]; [done |]. pose proof (lp_prefix_used _ Hinv). pose proof (lp_prefix _ Hinv) as Hpf.
  replace (ld (b :: bs) 0) with (Some b) by done. cbn [mbind option_bind].
  rewrite st_eq by lia. cbn [mbind option_bind]. rewrite zlen_cons, Z.add_simpl_r. cbn [drop prefix_used].
  rewrite (lp_header _ Hinv Hpu). case_decide as Hp1.
  { eexists _, _, None. split; [done |]. split; [simpl; lia |]. destruct Hinv.
    split; simpl; rewrite ?zlen_insert; done || lia. }
  cbn [prefix]. destruct (ld_is_Some (<[Z.to_nat (prefix_used p):=b]> (prefix p)) 0) as [p0 Hp0];
    [rewrite zlen_insert; lia |].
  destruct (ld_is_Some (<[Z.to_nat (prefix_used p):=b]> (prefix p)) 1) as [p1 Hp1'];
    [rewrite zlen_insert; lia |].
  rewrite Hp0, Hp1'. cbn [mbind option_bind expected]. case_decide as Hbad.
  { eexists _, bs, _. split; [done |]. split; [simpl; lia | done]. }
  edestruct payload_ok as (p' & bs' & ret & -> & Hl & _ & Hi); cycle 2.
  - eexists _, _, _. split; [done |]. rewrite drop_0 in Hl. split; [simpl; lia | done].
  - destruct Hinv. unfold EAF_LMS_MAX_PACKET in *. split; cbn; rewrite ?zlen_insert; try done. all: unfold EAF_LMS_MAX_PACKET; lia.
  - cbn. lia.
Qed.

Lemma feed_loop_fuel n m p bs :
  lms_inv p -> (length bs <= n)%nat -> (length bs <= m)%nat ->
  feed_loop n p bs (zlen bs) = feed_loop m p bs (zlen bs).
Proof.
  revert m p bs. induction n as [|n IH]; intros m p bs Hinv Hn Hm.
  - destruct bs; [| simpl in *; lia]. by destruct m.
  - destruct bs as [|b bs]; [by destruct m |]. destruct m as [|m]; [simpl in *; lia |].
    assert (Hz : zlen (b :: bs) <> 0) by (unfold zlen; simpl; lia). cbn [feed_loop].
    rewrite !(decide_False (P := zlen (b :: bs) = 0)) by done.
    destruct (feed_round_ok p (b :: bs) Hinv ltac:(done)) as (p' & bs' & ret & -> & Hl & Hi). simpl.
    destruct ret; [done |]. simpl in Hl, Hn, Hm. apply IH; [done | lia | lia].
Qed.


(** Payload bytes may be taken one at a time. *)
Definition took (p : eaf_lms_parser_t C) (b : Z) : eaf_lms_parser_t C :=
  LmsParser (splice (packet p) (used p) [b]) (prefix p) (prefix_used p) (used p + 1) (expected p) (failed p)
    (on_packet p) (ctx p).

Lemma took_inv p b : lms_inv p -> prefix_used p = 2 -> used p + 1 < expected p -> lms_inv (took p b).
Proof.
  intros Hinv Hpu Hlt. destruct (lp_payload _ Hinv Hpu) as [Hu He]. pose proof (lp_packet _ Hinv) as Hpk.
  unfold EAF_LMS_MAX_PACKET in *. destruct Hinv. split; cbn; try done; unfold EAF_LMS_MAX_PACKET; try lia.
  rewrite zlen_splice; [lia | lia |]. change (zlen [b]) with 1. lia.
Qed.

Lemma payload_one p b :
  lms_inv p -> prefix_used p = 2 -> used p + 1 < expected p -> feed_payload p [b] 1 = Some (took p b, [], 0, None).
Proof.
  intros Hinv Hpu Hlt. destruct (lp_payload _ Hinv Hpu) as [Hu He]. pose proof (lp_packet _ Hinv) as Hpk.
  unfold feed_payload. unfold EAF_LMS_MAX_PACKET in *. rewrite decide_True by lia.
  change 1 with (zlen [b]) at 1. rewrite memcpy_eq; change (zlen [b]) with 1; [| lia..].
  cbn [mbind option_bind]. change (slice [b] 0 1) with [b]. cbn [used expected].
  rewrite decide_False by lia. done.
Qed.

Lemma payload_step p b bs :
  lms_inv p -> prefix_used p = 2 -> used p + 1 < expected p -> bs <> [] ->
  feed_payload p (b :: bs) (zlen (b :: bs)) = feed_payload (took p b) bs (zlen bs).
Proof.
  intros Hinv Hpu Hlt Hne. destruct (lp_payload _ Hinv Hpu) as [Hu He]. pose proof (lp_packet _ Hinv) as Hpk.
  unfold EAF_LMS_MAX_PACKET in *. rewrite zlen_cons. pose proof (zlen_nonneg bs).
  unfold feed_payload. cbn [took packet prefix prefix_used used expected failed on_packet ctx].
  set (t := if decide (zlen bs < _) then _ else _).
  assert (Ht : t = Z.min (zlen bs) (expected p - used p - 1)) by (unfold t; case_decide; lia). clearbody t.
  replace (if decide (zlen bs + 1 < expected p - used p) then zlen bs + 1 else expected p - used p) with (t + 1)
    by (case_decide; lia).
  assert (1 <= t) by (destruct bs; [done | rewrite zlen_cons in *; pose proof (zlen_nonneg bs); lia]).
  rewrite !memcpy_eq by (rewrite ?zlen_splice, ?zlen_cons; change (zlen [b]) with 1; lia).
  assert (Hsl : slice (b :: bs) 0 (t + 1) = b :: slice bs 0 t).
  { rewrite (slice_cons _ _ _ b) by (done || lia). f_equal. rewrite Z.add_simpl_r. done. }
  assert (Hsp : splice (splice (packet p) (used p) [b]) (used p + 1) (slice bs 0 t)
    = splice (packet p) (used p) (b :: slice bs 0 t)).
  { pose proof (splice_app (packet p) [b] (slice bs 0 t) (used p)) as Hs. change (zlen [b]) with 1 in Hs.
    rewrite zlen_slice in Hs by lia. apply Hs; lia. }
  rewrite Hsl, Hsp. cbn [mbind option_bind].
  replace (used p + 1 + t) with (used p + (t + 1)) by lia.
  replace (zlen bs + 1 - (t + 1)) with (zlen bs - t) by lia.
  replace (drop (Z.to_nat (t + 1)) (b :: bs)) with (drop (Z.to_nat t) bs); [done |].
  replace (Z.to_nat (t + 1)) with (S (Z.to_nat t)) by lia. done.
Qed.

Lemma feed_unfold p b bs :
  feed p (b :: bs) =
    '(p', bs', n, ret) ← feed_round p (b :: bs) (zlen (b :: bs));
    match ret with Some rc => Some (p', rc) | None => feed_loop (length bs) p' bs' n end.
Proof.
  unfold feed. cbn [length feed_loop]. rewrite decide_False; [done |]. unfold zlen. simpl. lia.
Qed.

Lemma feed_round_payload (p : eaf_lms_parser_t C) b bs :
  prefix_used p = 2 -> feed_round p (b :: bs) (zlen (b :: bs)) = feed_payload p (b :: bs) (zlen (b :: bs)).
Proof. intros Hpu. unfold feed_round. by rewrite decide_False by lia. Qed.

(** Feeding is feeding the first byte, then the rest unless it stopped. *)
Lemma feed_payload_cons p b bs :
  lms_inv p -> prefix_used p = 2 ->
  feed p (b :: bs) = '(p1, rc) ← feed p [b]; if decide (rc = EAF_OK) then feed p1 bs else Some (p1, rc).
Proof.
  intros Hinv Hpu. rewrite !feed_unfold, !feed_round_payload by done.
  destruct (lp_payload _ Hinv Hpu) as [Hu He]. change (zlen [b]) with 1.
  destruct (decide (used p + 1 < expected p)) as [Hlt|Hlast].
  - rewrite payload_one by done. cbn [mbind option_bind].
    change (feed_loop (length []) (took p b) [] 0) with (Some (took p b, EAF_OK)). cbn [mbind option_bind].
    rewrite (decide_True (P := EAF_OK = EAF_OK)) by done.
    destruct bs as [|b2 bs]; [change (zlen [b]) with 1; by rewrite payload_one |].
    rewrite payload_step, feed_unfold, feed_round_payload by done.
    destruct (payload_ok (took p b) (b2 :: bs)) as (p' & bs' & ret & -> & _ & Hl & Hs);
      [by apply took_inv | done |]. cbn [mbind option_bind]. destruct ret; [done |].
    simpl in Hs. specialize (Hl ltac:(done)). simpl in Hl. apply feed_loop_fuel; [done | simpl; lia | lia].
  - (* the last byte of the packet *)
    assert (Heq : exists p' ret, feed_payload p (b :: bs) (zlen (b :: bs)) = Some (p', bs, zlen bs, ret) /\
      feed_payload p [b] 1 = Some (p', [], 0, ret)).
    { pose proof (lp_packet _ Hinv) as Hpk. unfold EAF_LMS_MAX_PACKET in *. pose proof (zlen_nonneg bs).
      unfold feed_payload. rewrite zlen_cons. replace (expected p - used p) with 1 by lia.
      rewrite decide_False, decide_False by lia. change (zlen [b]) with 1.
      rewrite !memcpy_eq by (rewrite ?zlen_cons; change (zlen (@nil Z)) with 0; lia).
      change (slice (b :: bs) 0 1) with [b]. change (slice [b] 0 1) with [b].
      cbn [mbind option_bind used expected on_packet ctx packet].
      rewrite !(decide_True (P := used p + 1 = expected p)) by lia.
      rewrite (lp_callback _ Hinv). cbn [mbind option_bind]. destruct (f _ _ _) as [c rc].
      change (drop (Z.to_nat 1) (b :: bs)) with bs. replace (zlen bs + 1 - 1) with (zlen bs) by lia.
      case_decide; eexists _, _; split; reflexivity. }
    destruct Heq as (p' & ret & -> & H1). rewrite H1. cbn [mbind option_bind].
    destruct (payload_ok p [b] Hinv Hpu) as (p1 & bs1 & ret1 & H2 & _ & _ & Hs). change (zlen [b]) with 1 in H2.
    rewrite H1 in H2. injection H2 as <- <- _ <-. destruct ret as [rc|]; simpl in Hs; [cbn; by rewrite decide_False |].
    cbn. done.
Qed.

Lemma feed_cons p b bs :
  lms_inv p ->
  feed p (b :: bs) = '(p1, rc) ← feed p [b]; if decide (rc = EAF_OK) then feed p1 bs else Some (p1, rc).
Proof.
  intros Hinv. pose proof (lp_prefix_used _ Hinv). pose proof (lp_prefix _ Hinv) as Hpf.
  destruct (decide (prefix_used p = 2)) as [Hpu|Hpu]; [by apply feed_payload_cons |].
  rewrite !feed_unfold. unfold feed_round. rewrite !(decide_True (P := prefix_used p < 2)) by lia.
  change (ld (b :: bs) 0) with (Some b). change (ld [b] 0) with (Some b). cbn [mbind option_bind].
  rewrite st_eq by lia. cbn [mbind option_bind]. rewrite !zlen_cons, !Z.add_simpl_r. cbn [drop prefix_used].
  case_decide as Hp1; [done |]. cbn [prefix].
  destruct (ld_is_Some (<[Z.to_nat (prefix_used p):=b]> (prefix p)) 0) as [p0 Hp0];
    [rewrite zlen_insert; lia |].
  destruct (ld_is_Some (<[Z.to_nat (prefix_used p):=b]> (prefix p)) 1) as [p1 Hp1'];
    [rewrite zlen_insert; lia |].
  rewrite Hp0, Hp1'. cbn [mbind option_bind expected]. case_decide as Hbad; [done |].
  rewrite (lp_header _ Hinv) by lia. set (p2 := LmsParser _ _ _ _ _ _ _ _). change (zlen []) with 0. rewrite !drop_0.
  assert (Hinv2 : lms_inv p2).
  { destruct Hinv. unfold EAF_LMS_MAX_PACKET in *. split; cbn; rewrite ?zlen_insert; try done.
    all: unfold EAF_LMS_MAX_PACKET; lia. }
  assert (H2 : prefix_used p2 = 2) by (cbn; lia). destruct (lp_payload _ Hinv2 H2) as [Hu He].
  assert (Hnil : feed_payload p2 [] 0 = Some (p2, [], 0, None)).
  { unfold feed_payload. rewrite decide_True by lia. change 0 with (zlen (@nil Z)) at 2.
    pose proof (lp_packet _ Hinv2) as Hpk. unfold EAF_LMS_MAX_PACKET in *.
    rewrite memcpy_eq; change (zlen (@nil Z)) with 0; [| lia..]. cbn [mbind option_bind used expected].
    rewrite slice_nil_n, splice_nil, Z.add_0_r, decide_False by lia. done. }
  rewrite Hnil. cbn [mbind option_bind].
  change (feed_loop (length []) p2 [] 0) with (Some (p2, EAF_OK)). cbn [mbind option_bind].
  rewrite (decide_True (P := EAF_OK = EAF_OK)) by done. destruct bs as [|b2 bs].
  { change (zlen []) with 0. by rewrite Hnil. }
  rewrite feed_unfold, feed_round_payload by done.
  destruct (payload_ok p2 (b2 :: bs) Hinv2 H2) as (p' & bs' & ret & -> & _ & Hl & Hs). cbn [mbind option_bind].
  destruct ret; [done |]. specialize (Hl ltac:(done)). simpl in Hl, Hs.
  apply feed_loop_fuel; [done | simpl; lia | lia].
Qed.

(** What feeding does to the callback's state: it hands packets over, nothing else. *)
Definition kept_by (Q : C -> Prop) : Prop := forall c pkt n, Q c -> zlen pkt = n -> 4 <= n -> Q (f c pkt n).1.

Lemma payload_ctx (Q : C -> Prop) p bs p' bs' n ret : kept_by Q -> lms_inv p -> prefix_used p = 2 -> Q (ctx p) ->
  feed_payload p bs (zlen bs) = Some (p', bs', n, ret) -> Q (ctx p').
Proof.
  intros HQ Hinv Hpu Hc. destruct (lp_payload _ Hinv Hpu) as [Hu He]. pose proof (lp_packet _ Hinv) as Hpk. pose proof (zlen_nonneg bs).
  unfold feed_payload, EAF_LMS_MAX_PACKET in *. set (take := if decide _ then _ else _).
  assert (Ht : 0 <= take <= zlen bs /\ used p + take <= expected p) by (unfold take; case_decide; lia). clearbody take.
  rewrite memcpy_eq by lia. cbn [mbind option_bind used expected on_packet ctx packet].
  set (packet' := splice _ _ _).
  assert (Hpk' : zlen packet' = 2048) by (unfold packet'; rewrite zlen_splice; rewrite ?zlen_slice; lia).
  case_decide; [| by intros [= <- _ _ _]]. rewrite (lp_callback _ Hinv). cbn [mbind option_bind].
  pose proof (HQ (ctx p) (slice packet' 0 (expected p)) (expected p) Hc) as Hf. rewrite zlen_slice in Hf by lia. specialize (Hf eq_refl ltac:(lia)).
  destruct (f _ _ _) as [c rc]. case_decide; intros [= <- _ _ _]; exact Hf.
Qed.

Lemma round_ctx (Q : C -> Prop) p bs p' bs' n ret : kept_by Q -> lms_inv p -> Q (ctx p) -> bs <> [] ->
  feed_round p bs (zlen bs) = Some (p', bs', n, ret) -> Q (ctx p').
Proof.
  intros HQ Hinv Hc Hne. unfold feed_round. pose proof (lp_prefix_used _ Hinv). pose proof (lp_prefix _ Hinv) as Hpf.
  case_decide as Hpu; [| by apply payload_ctx; [| | lia |]]. destruct bs as [|b bs]; [done |].
  change (ld (b :: bs) 0) with (Some b). cbn [mbind option_bind]. rewrite st_eq by lia. cbn [mbind option_bind].
  rewrite zlen_cons, Z.add_simpl_r. cbn [drop prefix_used]. case_decide; [by intros [= <- _ _ _] |]. cbn [prefix].
  destruct (ld_is_Some (<[Z.to_nat (prefix_used p):=b]> (prefix p)) 0) as [p0 ->]; [rewrite zlen_insert; lia |].
  destruct (ld_is_Some (<[Z.to_nat (prefix_used p):=b]> (prefix p)) 1) as [p1 ->]; [rewrite zlen_insert; lia |].
  cbn [mbind option_bind expected]. case_decide as Hbad; [by intros [= <- _ _ _] |]. rewrite drop_0.
  apply payload_ctx; [done | | cbn; lia | done]. rewrite (lp_header _ Hinv) by lia.
  destruct Hinv. unfold EAF_LMS_MAX_PACKET in *. split; cbn; rewrite ?zlen_insert; try done. all: unfold EAF_LMS_MAX_PACKET; lia.
Qed.

Lemma feed_keeps (Q : C -> Prop) fuel p bs : kept_by Q -> lms_inv p -> Q (ctx p) -> (length bs <= fuel)%nat ->
  exists p' rc, feed_loop fuel p bs (zlen bs) = Some (p', rc) /\ Q (ctx p') /\ (rc = EAF_OK -> lms_inv p').
Proof.
  intros HQ. revert p bs. induction fuel as [|fuel IH]; intros p bs Hinv Hc Hf.
  - destruct bs; [| simpl in *; lia]. by exists p, EAF_OK.
  - destruct bs as [|b bs]; [by exists p, EAF_OK |]. cbn [feed_loop]. rewrite decide_False by (unfold zlen; simpl; lia).
    assert (Hne : b :: bs <> []) by done. destruct (feed_round_ok p (b :: bs) Hinv Hne) as (p' & bs' & ret & Hrun & Hl & Hi).
    pose proof (round_ctx Q _ _ _ _ _ _ HQ Hinv Hc Hne Hrun) as Hc'. rewrite Hrun. cbn [mbind option_bind].
    destruct ret as [rc|].
    + exists p', rc. split; [done |]. split; [done |]. intros E. by destruct (Hi E).
    + apply IH; [done | done |]. simpl in *. lia.
Qed.

Lemma feed_nil p : feed p [] = Some (p, EAF_OK).
Proof. done. Qed.

Lemma feed_ok p bs p' : lms_inv p -> feed p bs = Some (p', EAF_OK) -> lms_inv p'.
Proof.
  revert p. induction bs as [|b bs IH]; intros p Hinv; [by intros [= <-] |].
  rewrite feed_cons by done. rewrite feed_unfold.
  destruct (feed_round_ok p [b] Hinv ltac:(done)) as (p1 & bs1 & ret & -> & Hl & Hs). cbn [mbind option_bind].
  destruct ret as [rc|]; simpl in Hs.
  - cbn. rewrite decide_False by done. intros [= _ ->]. done.
  - destruct bs1; [| simpl in Hl; lia]. cbn. by apply IH.
Qed.

(** The parser does not see how its input is cut. *)
Lemma feed_app p xs ys :
  lms_inv p ->
  feed p (xs ++ ys) = '(p1, rc) ← feed p xs; if decide (rc = EAF_OK) then feed p1 ys else Some (p1, rc).
Proof.
  revert p. induction xs as [|b xs IH]; intros p Hinv; [done |].
  rewrite <- app_comm_cons, feed_cons, (feed_cons p b xs) by done.
  destruct (feed p [b]) as [[p1 rc]|] eqn:H1; [| done]. cbn [mbind option_bind].
  destruct (decide (rc = EAF_OK)) as [->|Hrc].
  - apply IH. by eapply feed_ok.
  - cbn. by rewrite decide_False.
Qed.

(** ** Framing *)

Definition frame (pkt : list Z) : list Z := be_bytes 2 (zlen pkt) ++ pkt.
Definition packet_ok (pkt : list Z) : Prop := 4 <= zlen pkt <= EAF_LMS_MAX_PACKET.

(** The callback on each packet in turn, until it objects. *)
Fixpoint deliver (pkts : list (list Z)) (c : C) : C * Z :=
  match pkts with
  | [] => (c, EAF_OK)
  | pkt :: pkts => let '(c, rc) := f c pkt (zlen pkt) in
                   if decide (rc = EAF_OK) then deliver pkts c else (c, rc)
  end.

Definition idle (p : eaf_lms_parser_t C) : Prop := lms_inv p /\ prefix_used p = 0.

Lemma feed_prefix p b : idle p ->
  exists p1, feed p [b] = Some (p1, EAF_OK) /\ lms_inv p1 /\ prefix_used p1 = 1 /\ ctx p1 = ctx p /\ prefix p1 !! 0%nat = Some b.
Proof.
  intros [Hinv Hpu]. pose proof (lp_prefix _ Hinv) as Hpf. pose proof (lp_header _ Hinv ltac:(lia)) as Hu.
  rewrite feed_unfold. unfold feed_round. rewrite decide_True by lia.
  change (ld [b] 0) with (Some b). cbn [mbind option_bind]. rewrite st_eq by lia. cbn [mbind option_bind prefix_used].
  rewrite Hpu, decide_True by lia. cbn. eexists. split; [done |]. split; [| split; [done |]; split; [done |]].
  - destruct Hinv. split; cbn; rewrite ?zlen_insert; done || lia.
  - cbn. rewrite ?Hpu. apply list_lookup_insert_eq. unfold zlen in *. lia.
Qed.

(** The second byte completes the header. *)
Lemma feed_header p b0 b1 bs :
  lms_inv p -> prefix_used p = 1 -> prefix p !! 0%nat = Some b0 ->
  let n := b0 * 256 + b1 in
  exists p2, prefix_used p2 = 2 /\ used p2 = 0 /\ expected p2 = n /\ ctx p2 = ctx p /\
    (packet_ok (replicate (Z.to_nat n) 0) -> lms_inv p2) /\
    feed_round p (b1 :: bs) (zlen (b1 :: bs)) =
      if decide (n < 4 \/ EAF_LMS_MAX_PACKET < n) then Some (set_failed p2, bs, zlen bs, Some EAF_INVALID)
      else feed_payload p2 bs (zlen bs).
Proof.
  intros Hinv Hpu Hp0 n. pose proof (lp_prefix _ Hinv) as Hpf. pose proof (lp_header _ Hinv ltac:(lia)) as Hu.
  exists (LmsParser (packet p) (<[1%nat := b1]> (prefix p)) 2 0 n (failed p) (on_packet p) (ctx p)).
  do 4 (split; [done |]). split.
  - unfold packet_ok. intros Hn. unfold zlen in Hn. rewrite length_replicate in Hn. destruct Hinv.
    unfold EAF_LMS_MAX_PACKET in *. split; cbn; rewrite ?zlen_insert; try done; unfold EAF_LMS_MAX_PACKET; lia.
  - unfold feed_round. rewrite decide_True by lia. change (ld (b1 :: bs) 0) with (Some b1).
    cbn [mbind option_bind]. rewrite st_eq by lia. cbn [mbind option_bind prefix_used prefix].
    rewrite Hpu, Hu, decide_False by lia. rewrite zlen_cons, Z.add_simpl_r. change (Z.to_nat 1) with 1%nat.
    rewrite !ld_lookup by lia. change (Z.to_nat 0) with 0%nat. change (Z.to_nat 1) with 1%nat.
    rewrite (list_lookup_insert_ne (prefix p) 1 0) by done. rewrite Hp0. cbn [mbind option_bind].
    rewrite (list_lookup_insert_eq (prefix p) 1) by (unfold zlen in *; lia). cbn [mbind option_bind expected].
    change (1 + 1) with 2. done.
Qed.

Lemma be_bytes_2 n : 0 <= n < 65536 -> be_bytes 2 n = [n / 256; n mod 256].
Proof. intros. unfold be_bytes. simpl. do 2 f_equal. word. Qed.

Lemma feed_frame p pkt :
  idle p -> packet_ok pkt ->
  exists p', feed p (frame pkt) = Some (p', (f (ctx p) pkt (zlen pkt)).2) /\
    ctx p' = (f (ctx p) pkt (zlen pkt)).1 /\ ((f (ctx p) pkt (zlen pkt)).2 = EAF_OK -> idle p').
Proof.
  intros Hidle Hok. unfold packet_ok, EAF_LMS_MAX_PACKET in Hok. unfold frame.
  rewrite be_bytes_2 by lia. cbn [app]. set (n := zlen pkt) in *.
  rewrite feed_cons by apply Hidle.
  destruct (feed_prefix p (n / 256) Hidle) as (p1 & -> & Hinv1 & Hpu1 & Hc1 & Hb1). cbn [mbind option_bind].
  rewrite decide_True by done. rewrite feed_unfold.
  destruct (feed_header p1 (n / 256) (n mod 256) pkt Hinv1 Hpu1 Hb1) as (p2 & Hpu2 & Hu2 & He2 & Hc2 & Hinv2 & ->).
  replace (n / 256 * 256 + n mod 256) with n in * by word. unfold EAF_LMS_MAX_PACKET. rewrite decide_False by lia.
  specialize (Hinv2 ltac:(unfold packet_ok, EAF_LMS_MAX_PACKET, zlen; rewrite length_replicate; lia)).
  pose proof (lp_packet _ Hinv2) as Hpk. unfold EAF_LMS_MAX_PACKET in Hpk.
  unfold feed_payload. rewrite He2, Hu2. rewrite decide_False by (unfold n; lia). rewrite Z.sub_0_r.
  rewrite memcpy_eq by (unfold n in *; lia). cbn [mbind option_bind used expected on_packet ctx packet].
  rewrite decide_True by lia. rewrite (lp_callback _ Hinv2). cbn [mbind option_bind].
  rewrite (slice_full pkt) by (unfold n; lia).
  pose proof (slice_splice (packet p2) pkt 0 0 n) as Hs. change (0 + 0) with 0 in Hs. rewrite Hs by lia.
  rewrite (slice_full pkt) by (unfold n; lia). rewrite Hc2, Hc1.
  destruct (f (ctx p) pkt n) as [c rc]. cbn [fst snd]. rewrite Z.sub_diag.
  replace (drop (Z.to_nat n) pkt) with (@nil Z) by (rewrite drop_ge; [done | unfold n, zlen; lia]).
  case_decide as Hrc; cbn [mbind option_bind].
  - eexists. split; [done |]. split; [done |]. intros ->. by destruct Hrc.
  - eexists. change 0 with (zlen (@nil Z)) at 5. split.
    + destruct (length pkt); simpl; (replace rc with EAF_OK by (unfold EAF_OK; lia)); done.
    + split; [done |]. intros _. split; [| done]. destruct Hinv2. unfold EAF_LMS_MAX_PACKET in *.
      split; cbn; try done; try lia. rewrite zlen_splice; [done | lia |]. fold n. lia.
Qed.

Lemma feed_frames pkts p :
  idle p -> Forall packet_ok pkts ->
  exists p', feed p (concat (frame <$> pkts)) = Some (p', (deliver pkts (ctx p)).2) /\
    ctx p' = (deliver pkts (ctx p)).1 /\ ((deliver pkts (ctx p)).2 = EAF_OK -> idle p').
Proof.
  intros Hidle Hok. revert p Hidle. induction Hok as [|pkt pkts Hp Hok IH]; intros p Hidle.
  { by exists p. }
  rewrite fmap_cons. cbn [concat deliver]. rewrite feed_app by apply Hidle.
  destruct (feed_frame p pkt Hidle Hp) as (p1 & -> & Hc & Hi). cbn [mbind option_bind].
  destruct (f (ctx p) pkt (zlen pkt)) as [c rc]. cbn [fst snd] in *. case_decide as Hrc.
  - subst. destruct (IH p1 (Hi eq_refl)) as (p' & -> & Hc' & Hi'). by exists p'.
  - by exists p1.
Qed.

(** A socket's worth of reads, stopping at the first error. *)
Fixpoint feed_chunks (p : eaf_lms_parser_t C) (chunks : list (list Z)) : ub (eaf_lms_parser_t C * Z) :=
  match chunks with
  | [] => Some (p, EAF_OK)
  | bs :: chunks =>
      '(p1, rc) ← with_ref (fun p => eaf_lms_feed p (Some bs) (zlen bs)) p;
      if decide (rc = EAF_OK) then feed_chunks p1 chunks else Some (p1, rc)
  end.

Lemma eaf_lms_feed_eq p bs : lms_inv p -> with_ref (fun p => eaf_lms_feed p (Some bs) (zlen bs)) p = feed p bs.
Proof.
  intros Hinv. unfold with_ref, eaf_lms_feed, on_ptr. rewrite (lp_callback _ Hinv), (lp_failed _ Hinv).
  unfold feed, zlen. rewrite Nat2Z.id. by destruct (feed_loop _ _ _ _) as [[? ?]|].
Qed.

Lemma feed_chunks_concat p chunks : lms_inv p -> feed_chunks p chunks = feed p (concat chunks).
Proof.
  revert p. induction chunks as [|bs chunks IH]; intros p Hinv; [done |]. cbn [feed_chunks concat].
  rewrite eaf_lms_feed_eq, feed_app by done. destruct (feed p bs) as [[p1 rc]|] eqn:Hf; [| done]. cbn [mbind option_bind].
  case_decide as Hrc; [| done]. subst. apply IH. by eapply feed_ok.
Qed.

Lemma init_idle c : idle (eaf_lms_parser_init (Some f) c).
Proof. split; [| done]. split; done. Qed.

(** A frame length out of range poisons the parser. *)
Lemma feed_bad p b0 b1 :
  idle p -> b0 * 256 + b1 < 4 \/ EAF_LMS_MAX_PACKET < b0 * 256 + b1 ->
  exists p', feed p [b0; b1] = Some (p', EAF_INVALID) /\ ctx p' = ctx p /\
    forall bs, eaf_lms_feed (Some p') (Some bs) (zlen bs) = Some (Some p', EAF_STATE).
Proof.
  intros Hidle Hbad. rewrite feed_cons by apply Hidle.
  destruct (feed_prefix p b0 Hidle) as (p1 & -> & Hinv1 & Hpu1 & Hc1 & Hb1). cbn [mbind option_bind].
  rewrite decide_True by done. pose proof (lp_callback _ Hinv1) as Hcb. rewrite feed_unfold.
  unfold feed_round. pose proof (lp_prefix _ Hinv1) as Hpf. rewrite decide_True by lia.
  change (ld [b1] 0) with (Some b1). cbn [mbind option_bind]. rewrite st_eq by lia.
  cbn [mbind option_bind prefix_used prefix]. rewrite Hpu1, decide_False by lia.
  change (Z.to_nat 1) with 1%nat. rewrite !ld_lookup by lia.
  change (Z.to_nat 0) with 0%nat. change (Z.to_nat 1) with 1%nat.
  rewrite (list_lookup_insert_ne (prefix p1) 1 0), Hb1 by done. cbn [mbind option_bind].
  rewrite (list_lookup_insert_eq (prefix p1) 1) by (unfold zlen in *; lia). cbn [mbind option_bind expected].
  rewrite decide_True by done. eexists. split; [done |]. split; [done |].
  intros bs. unfold eaf_lms_feed, on_ptr. cbn. by rewrite Hcb.
Qed.
End feeding.

(** ** Messages *)

(** The HELO message: opcode, payload length, device id and revision, MAC,
    zeroes, capabilities. *)
Definition helo_message (mac caps : list Z) : list Z :=
  chars "HELO" ++ be_bytes 4 (zlen caps + 36) ++ [12; 0] ++ mac ++ replicate 28 0 ++ caps.

Lemma list_of_len {A} (l : list A) (n : nat) : zlen l = Z.of_nat n -> length l = n.
Proof. unfold zlen. lia. Qed.

Lemma helo_bytes (mac caps d0 : list Z) n :
  zlen mac = 6 -> zlen caps + 44 <= zlen d0 ->
  splice (splice (<[8%nat := 12]> (splice (splice (splice d0 0 (replicate 44 0)) 0 (chars "HELO")) 4 (be_bytes 4 n)))
    10 mac) 44 caps
  = splice d0 0 (chars "HELO" ++ be_bytes 4 n ++ [12; 0] ++ mac ++ replicate 28 0 ++ caps).
Proof.
  intros Hm Hl. pose proof (zlen_nonneg caps).
  assert (Hz : zlen (replicate 44 0) = 44) by done. pose proof (zlen_be_bytes 4 n) as Hb. change (Z.of_nat 4) with 4 in Hb.
  change (<[8%nat:=12]>) with (<[Z.to_nat 8:=12]> : list Z -> list Z).
  assert (Hc : zlen (chars "HELO") = 4) by done. assert (H12 : zlen [12] = 1) by done.
  assert (H1 : zlen (splice d0 0 (replicate 44 0)) = zlen d0) by (apply zlen_splice; lia).
  assert (H2 : zlen (splice (replicate 44 0) 0 (chars "HELO")) = 44) by done.
  assert (H3 : zlen (splice (splice (replicate 44 0) 0 (chars "HELO")) 4 (be_bytes 4 n)) = 44)
    by (rewrite zlen_splice; lia).
  rewrite (splice_within d0 (replicate 44 0)) by lia.
  rewrite (splice_within d0 (splice _ _ _)) by lia.
  rewrite <- splice_singleton by (rewrite zlen_splice; lia). rewrite splice_within by lia.
  assert (H4 : zlen (splice (splice (splice (replicate 44 0) 0 (chars "HELO")) 4 (be_bytes 4 n)) 8 [12]) = 44)
    by (rewrite zlen_splice; lia).
  rewrite splice_within by lia.
  set (head44 := splice (splice _ _ _) _ mac).
  assert (Hh : head44 = chars "HELO" ++ be_bytes 4 n ++ [12; 0] ++ mac ++ replicate 28 0).
  { apply (list_of_len _ 4) in Hb. apply (list_of_len _ 6) in Hm. unfold head44. destruct (be_bytes 4 n) as [|? [|? [|? [|? []]]]]; try done.
    by destruct mac as [|? [|? [|? [|? [|? [|? []]]]]]]. }
  assert (Hh44 : zlen head44 = 44).
  { rewrite Hh, !zlen_app, Hb, Hm. done. }
  pose proof (splice_app d0 head44 caps 0) as Happ. rewrite Hh44 in Happ. change (0 + 44) with 44 in Happ.
  rewrite Happ by lia.
  rewrite Hh. by rewrite <- !app_assoc.
Qed.

Lemma zlen_helo mac caps : zlen mac = 6 -> zlen (helo_message mac caps) = 44 + zlen caps.
Proof.
  intros Hm. unfold helo_message. rewrite !zlen_app, zlen_be_bytes, Hm.
  change (zlen (chars "HELO")) with 4. change (zlen [12; 0]) with 2. change (zlen (replicate 28 0)) with 28. lia.
Qed.

(** ** Properties *)

(** The parser delivers the framed packets, in order and unchanged, to its
    callback, however TCP cuts the byte stream; it stops at the first packet the
    callback refuses and returns that code; and a frame length outside 4..2048 is
    rejected after the packets before it, and every later feed is refused. *)
Theorem lms_stream_framing {C} (f : C -> list Z -> Z -> C * Z) (c : C) (pkts chunks : list (list Z)) :
  Forall packet_ok pkts ->
  (concat chunks = concat (frame <$> pkts) ->
     exists p', feed_chunks (eaf_lms_parser_init (Some f) c) chunks = Some (p', (deliver f pkts c).2) /\
       ctx p' = (deliver f pkts c).1) /\
  (forall b0 b1, b0 * 256 + b1 < 4 \/ EAF_LMS_MAX_PACKET < b0 * 256 + b1 -> (deliver f pkts c).2 = EAF_OK ->
     concat chunks = concat (frame <$> pkts) ++ [b0; b1] ->
     exists p', feed_chunks (eaf_lms_parser_init (Some f) c) chunks = Some (p', EAF_INVALID) /\
       ctx p' = (deliver f pkts c).1 /\
       forall bs, eaf_lms_feed (Some p') (Some bs) (zlen bs) = Some (Some p', EAF_STATE)).
Proof.
  intros Hok. pose proof (init_idle f c) as Hidle.
  destruct (feed_frames f pkts _ Hidle Hok) as (p1 & Hrun & Hc & Hi). cbn [ctx eaf_lms_parser_init] in *.
  split.
  - intros Hcut. exists p1. rewrite (feed_chunks_concat f) by apply Hidle. by rewrite Hcut.
  - intros b0 b1 Hbad Hrc Hcut. rewrite (feed_chunks_concat f) by apply Hidle.
    rewrite Hcut, (feed_app f), Hrun, Hrc by apply Hidle. cbn [mbind option_bind]. rewrite decide_True by done.
    destruct (feed_bad f p1 b0 b1 (Hi Hrc) Hbad) as (p' & Hb & Hcb & Hst). exists p'.
    split; [done |]. split; [congruence | done].
Qed.

Lemma lms_stream_framing_witness :
  exists p', feed_chunks (eaf_lms_parser_init (Some (fun (l : list (list Z)) p n => (l ++ [p], EAF_OK))) [])
      [[0]; [4; 1; 2]; [3; 4; 0; 5; 9]; [9; 9; 9; 9]] = Some (p', EAF_OK) /\
    ctx p' = [[1; 2; 3; 4]; [9; 9; 9; 9; 9]].
Proof.
  destruct (lms_stream_framing (fun (l : list (list Z)) p n => (l ++ [p], EAF_OK)) []
    [[1; 2; 3; 4]; [9; 9; 9; 9; 9]] [[0]; [4; 1; 2]; [3; 4; 0; 5; 9]; [9; 9; 9; 9]]) as [H _];
    [repeat constructor; unfold packet_ok; by vm_compute |].
  exact (H eq_refl).
Defined.

(** The HELO message is laid out as SlimProto prescribes: when it fits it is
    written at the start of the destination and nothing else changes, its length
    field counts exactly the bytes after it, and when it does not fit, or the
    capabilities are too long, nothing is written. *)
Theorem lms_helo_layout (dst mac caps s : list Z) (capacity w : Z) :
  c_string caps s -> zlen mac = 6 -> bytes_wf caps -> capacity <= zlen dst ->
  eaf_lms_helo (Some dst) capacity (Some mac) (Some s) (Some w) =
    (if decide (zlen caps < EAF_LMS_MAX_PACKET /\ 44 + zlen caps <= capacity)
     then Some (Some (splice dst 0 (helo_message mac caps)), Some (44 + zlen caps), EAF_OK)
     else Some (Some dst, Some 0, EAF_INVALID)) /\
  zlen (helo_message mac caps) = 44 + zlen caps /\
  (zlen caps < EAF_LMS_MAX_PACKET ->
     eaf_bytes_read_u32 (helo_message mac caps) 4 = Some (zlen (helo_message mac caps) - 8)).
Proof.
  intros Hs Hm Hb Hcap. pose proof (zlen_nonneg caps). pose proof (zlen_helo mac caps Hm) as Hz.
  split; [| split; [done |]].
  - unfold eaf_lms_helo. rewrite (strnlen_string _ caps) by (done || lia).
    unfold EAF_LMS_MAX_PACKET. rewrite (decide_True (P := 0 < 2048)) by lia. cbn [mbind option_bind].
    destruct (decide (zlen caps < 2048 /\ 44 + zlen caps <= capacity)) as [[H1 H2]|Hno].
    + rewrite Z.min_l, decide_False by lia. rewrite memset_eq by lia. cbn [mbind option_bind].
      assert (Hz1 : zlen (splice dst 0 (replicate (Z.to_nat 44) 0)) = zlen dst).
      { apply zlen_splice; [lia |]. rewrite zlen_replicate; lia. }
      rewrite memcpy_eq by (rewrite ?Hz1; change (zlen (chars "HELO")) with 4; lia).
      cbn [mbind option_bind]. change (slice (chars "HELO") 0 4) with (chars "HELO").
      assert (Hz2 : zlen (splice (splice dst 0 (replicate (Z.to_nat 44) 0)) 0 (chars "HELO")) = zlen dst).
      { rewrite zlen_splice; rewrite ?Hz1; change (zlen (chars "HELO")) with 4; lia. }
      rewrite write_u32_splice by (rewrite ?Hz2; lia). cbn [mbind option_bind].
      assert (Hz3 : forall d, zlen d = zlen dst -> zlen (splice d 4 (be_bytes 4 (u32 (zlen caps + 36)))) = zlen dst).
      { intros d Hd. rewrite zlen_splice; rewrite ?zlen_be_bytes; lia. }
      rewrite st_eq by (rewrite ?Hz3 by done; lia). cbn [mbind option_bind].
      rewrite memcpy_eq by (rewrite ?zlen_insert, ?Hz3 by done; lia). cbn [mbind option_bind].
      rewrite memcpy_eq; [| lia | lia | | lia |].
      * cbn [mbind option_bind]. rewrite (slice_full mac) by lia.
        destruct Hs as [_ [rest ->]]. rewrite slice_app_head by done. rewrite u32_small by word.
        change (Z.to_nat 44) with 44%nat. change (Z.to_nat 8) with 8%nat. rewrite helo_bytes by lia. done.
      * destruct Hs as [_ [rest ->]]. rewrite zlen_app. pose proof (zlen_nonneg (0 :: rest)). lia.
      * rewrite zlen_splice; rewrite ?zlen_insert, ?Hz3 by done; [lia | lia |]. rewrite zlen_slice; lia.
    + rewrite decide_True by lia. done.
  - intros Hlt. unfold EAF_LMS_MAX_PACKET in Hlt. rewrite Hz. erewrite (read_u32_at _ 4 (be_bytes 4 (zlen caps + 36))).
    + f_equal. rewrite be_value_bytes; [lia |]. change (256 ^ Z.of_nat 4) with 4294967296. lia.
    + unfold bytes_at. rewrite zlen_be_bytes, Hz. change (Z.of_nat 4) with 4. split; [lia |]. split; [lia |].
      unfold helo_message, slice. change (drop (Z.to_nat 4) (chars "HELO" ++ ?x)) with x.
      rewrite take_app_le, take_ge; rewrite ?be_bytes_length; done || lia.
    + by rewrite zlen_be_bytes.
    + apply be_bytes_wf.
Qed.

Lemma lms_helo_layout_witness :
  eaf_lms_helo (Some (replicate 50 7)) 50 (Some [1; 2; 3; 4; 5; 6]) (Some [112; 99; 109; 0]) (Some 9)
    = Some (Some (splice (replicate 50 7) 0 (helo_message [1; 2; 3; 4; 5; 6] [112; 99; 109])), Some 47, EAF_OK).
Proof.
  destruct (lms_helo_layout (replicate 50 7) [1; 2; 3; 4; 5; 6] [112; 99; 109] [112; 99; 109; 0] 50 9) as [H _];
    [split; [repeat constructor; done | by exists []] | done | repeat constructor; done | done | exact H].
Defined.

(** A stream command never reads past the packet: long enough and well tagged, it
    yields its fields and the request that follows; anything else is refused. *)
Lemma parse_stream_spec p n o :
  zlen p = n ->
  exists out, eaf_lms_parse_stream (Some p) n (Some o) =
      Some (Some out, if decide (28 <= n /\ slice p 0 4 = chars "strm") then EAF_OK else EAF_INVALID) /\
    (28 <= n -> slice p 0 4 = chars "strm" ->
       ld p 4 = Some (ls_command out) /\ ls_request out = drop 28 p /\ ls_request_length out = n - 28).
Proof.
  intros Hn. unfold eaf_lms_parse_stream. case_decide as Hs.
  { rewrite decide_False by lia. eexists. split; [done |]. lia. }
  assert (H4 : zlen (chars "strm") = 4) by done.
  rewrite memeq_eq by (rewrite ?H4; lia). rewrite H4. cbn [mbind option_bind]. case_bool_decide as Ht; cbn [negb].
  2: { rewrite decide_False by tauto. eexists. split; [done |]. done. }
  rewrite (decide_True (P := 28 <= n /\ _)) by (split; [lia | done]).
  assert (Hld : forall i, 0 <= i < 28 -> exists x, ld p i = Some x) by (intros; apply ld_is_Some; lia).
  repeat match goal with
  | |- context [ld p ?i] => let x := fresh "x" in let Hx := fresh "Hx" in
      destruct (Hld i ltac:(lia)) as [x Hx]; rewrite Hx; cbn [mbind option_bind]
  end.
  assert (H32 : forall i, 0 <= i -> i + 4 <= 28 -> exists x, eaf_bytes_read_u32 p i = Some x).
  { intros i Hi Hi'. unfold eaf_bytes_read_u32.
    destruct (Hld i ltac:(lia)) as [? ->], (Hld (i + 1) ltac:(lia)) as [? ->], (Hld (i + 2) ltac:(lia)) as [? ->],
      (Hld (i + 3) ltac:(lia)) as [? ->].
    cbn [mbind option_bind]. eauto. }
  assert (H16 : exists x, eaf_bytes_read_u16 p 22 = Some x).
  { unfold eaf_bytes_read_u16. destruct (Hld 22 ltac:(lia)) as [? ->], (Hld (22 + 1) ltac:(lia)) as [? ->]. cbn [mbind option_bind]. eauto. }
  destruct (H32 18) as [? ->]; [lia.. |]. cbn [mbind option_bind]. destruct H16 as [? ->]. cbn [mbind option_bind].
  destruct (H32 24) as [? ->]; [lia.. |]. cbn [mbind option_bind].
  eexists. split; [done |]. intros _ _. done.
Qed.
