(* ===== verification/Net.v ===== *)
(** The network and the clock a transport uses: [include/eaf/eaf_net.h] and
    [hal_monotonic_time_us] of [include/eaf/eaf_hal.h].  Every platform supplies
    them; here they are operations on a world [W], with the laws the clients rely
    on. *)

From S2P Require Import Prelude Types Bytes.

Definition EAF_AGAIN : Z := -5.

Record eaf_tcp_t := Tcp { fd : Z; tcp_open : bool }.

(** The transport and the clock: the operations every platform supplies. *)
Class NetHal (W : Type) := {
  hal_tcp_connect : eaf_tcp_t -> Z -> Z -> Z -> W -> eaf_tcp_t * W * Z;
  hal_tcp_send : eaf_tcp_t -> list Z -> W -> eaf_tcp_t * W * Z * Z;      (* .., *sent, rc *)
  hal_tcp_recv : eaf_tcp_t -> Z -> W -> eaf_tcp_t * W * list Z * Z;      (* .., the bytes received, rc *)
  hal_tcp_close : eaf_tcp_t -> W -> eaf_tcp_t * W;
  hal_monotonic_time_us : W -> W * Z
}.

(** The transport: a count never exceeds what was offered, a connection is open
    exactly between a successful connect and a close. *)
Class NetHalLaws (W : Type) `{NetHal W} := {
  send_count : forall t data w t' w' n rc, hal_tcp_send t data w = (t', w', n, rc) -> 0 <= n <= zlen data;
  recv_count : forall t cap w t' w' data rc, hal_tcp_recv t cap w = (t', w', data, rc) -> 0 <= cap -> rc = EAF_OK -> zlen data <= cap;
  recv_bytes : forall t cap w t' w' data rc, hal_tcp_recv t cap w = (t', w', data, rc) -> bytes_wf data;
  close_closes : forall t w, tcp_open (hal_tcp_close t w).1 = false;
  connect_fails : forall t ip port ms w t' w' rc, hal_tcp_connect t ip port ms w = (t', w', rc) -> rc <> 0 -> tcp_open t' = tcp_open t
}.
