(* ===== verification/WsEncode.v ===== *)
(** The sending half of the WebSocket client: generator, handshake and frame
    encoder of [apps/sendspin/sendspin_ws.c] (lines 5-121). *)

From stdpp Require Import strings.
From S2P Require Import Prelude Types Ring Bytes Text.

(** ** Generator and client key *)

Record eaf_sendspin_ws_prng_t := Prng { prng_state : Z }.

Definition eaf_sendspin_ws_prng_init (seed : Z) : eaf_sendspin_ws_prng_t :=
  Prng (if decide (seed <> 0) then seed else 2654435769).

Definition eaf_sendspin_ws_prng_next (p : eaf_sendspin_ws_prng_t) : eaf_sendspin_ws_prng_t * Z :=
  let x := prng_state p in
  let x := Z.lxor x (u32 (Z.shiftl x 13)) in
  let x := Z.lxor x (Z.shiftr x 17) in
  let x := Z.lxor x (u32 (Z.shiftl x 5)) in
  (Prng x, x).

Definition alphabet : list Z := chars "ABCDEFGHIJKLMNOPQRSTUVWXYZabcdefghijklmnopqrstuvwxyz0123456789+/".

Definition key_bytes_round (k : Z) (st' : eaf_sendspin_ws_prng_t * list Z) : ub (eaf_sendspin_ws_prng_t * list Z) :=
  let '(p, bytes) := st' in
  let '(p, r) := eaf_sendspin_ws_prng_next p in
  let i := k * 4 in
  bytes ← st bytes i (u8 r);
  bytes ← st bytes (i + 1) (u8 (Z.shiftr r 8));
  bytes ← st bytes (i + 2) (u8 (Z.shiftr r 16));
  bytes ← st bytes (i + 3) (u8 (Z.shiftr r 24));
  Some (p, bytes).

Definition put_char (out : list Z) (used index : Z) : ub (list Z * Z) :=
  c ← ld alphabet index; out ← st out used c; Some (out, used + 1).

Definition key_group (bytes : list Z) (k : Z) (st' : list Z * Z) : ub (list Z * Z) :=
  let '(out, used) := st' in
  let i := k * 3 in
  b0 ← ld bytes i; b1 ← ld bytes (i + 1); b2 ← ld bytes (i + 2);
  let value := Z.lor (Z.lor (u32 (Z.shiftl b0 16)) (u32 (Z.shiftl b1 8))) b2 in
  '(out, used) ← put_char out used (Z.land (Z.shiftr value 18) 63);
  '(out, used) ← put_char out used (Z.land (Z.shiftr value 12) 63);
  '(out, used) ← put_char out used (Z.land (Z.shiftr value 6) 63);
  put_char out used (Z.land value 63).

Definition eaf_sendspin_ws_client_key (p : eaf_sendspin_ws_prng_t) (out : list Z)
  : ub (eaf_sendspin_ws_prng_t * list Z) :=
  '(p, bytes) ← for_to 4 key_bytes_round (p, replicate 16 0);
  '(out, used) ← for_to 5 (key_group bytes) (out, 0);
  b15 ← ld bytes 15;
  let tail := u32 (Z.shiftl b15 16) in
  '(out, used) ← put_char out used (Z.land (Z.shiftr tail 18) 63);
  '(out, used) ← put_char out used (Z.land (Z.shiftr tail 12) 63);
  out ← st out used 61;
  out ← st out (used + 1) 61;
  out ← st out (used + 2) 0;
  Some (p, out).

(** ** Handshake *)

(** [append]: [text] is a C string. *)
Definition append (dst : list Z) (capacity used : Z) (text : list Z) : ub (list Z * Z * Z) :=
  length ← strlen text;
  if decide (used + length + 1 > capacity) then Some (dst, used, EAF_INVALID)
  else
    dst ← memcpy dst used text 0 length;
    dst ← st dst (used + length) 0;
    Some (dst, used + length, EAF_OK).

(** [if (append(...) || append(...) ...) return EAF_INVALID;] *)
Fixpoint append_all (dst : list Z) (capacity used : Z) (texts : list (list Z)) : ub (list Z * Z * Z) :=
  match texts with
  | [] => Some (dst, used, EAF_OK)
  | text :: texts =>
      '(dst, used, rc) ← append dst capacity used text;
      if decide (rc <> 0) then Some (dst, used, EAF_INVALID) else append_all dst capacity used texts
  end.

Definition crlf : list Z := [13; 10].
Definition literal (parts : list (list Z)) : list Z := concat parts ++ [0].

Definition upgrade_texts (host path key : list Z) : list (list Z) :=
  [literal [chars "GET "]; path; literal [chars " HTTP/1.1"; crlf; chars "Host: "]; host;
   literal [crlf; chars "Upgrade: websocket"; crlf; chars "Connection: Upgrade"; crlf;
            chars "Sec-WebSocket-Version: 13"; crlf; chars "Sec-WebSocket-Key: "]; key;
   literal [crlf; crlf]].

Definition eaf_sendspin_ws_build_upgrade (dst : ptr (list Z)) (capacity : Z) (host path key : ptr (list Z))
    (written : ptr Z) : ub (ptr (list Z) * ptr Z * Z) :=
  match dst, host, path, key, written with
  | Some d, Some host, Some path, Some key, Some w =>
      if decide (capacity = 0) then Some (dst, written, EAF_INVALID)
      else
        d ← st d 0 0;
        '(d, used, rc) ← append_all d capacity 0 (upgrade_texts host path key);
        if decide (rc <> 0) then Some (Some d, Some w, EAF_INVALID) else Some (Some d, Some used, EAF_OK)
  | _, _, _, _, _ => Some (dst, written, EAF_INVALID)
  end.

(** [memchr(s, c, n)] as an index. *)
Definition memchr (s : list Z) (c n : Z) : option Z :=
  Z.of_nat <$> (fst <$> list_find (fun x => x = c) (take (Z.to_nat n) s)).

Definition eaf_sendspin_ws_check_upgrade_response (response : ptr (list Z)) (length : Z) : ub Z :=
  match response with
  | None => Some EAF_INVALID
  | Some r =>
      if decide (length < 12) then Some EAF_INVALID
      else
        http ← memeq r 0 (chars "HTTP/");
        if negb http then Some EAF_INVALID
        else
          match memchr r 32 length with
          | None => Some EAF_INVALID
          | Some i =>
              let space := i + 1 in
              if decide (length - space < 3) then Some EAF_INVALID
              else ok ← memeq r space (chars "101"); Some (if ok : bool then EAF_OK else EAF_INVALID)
          end
  end.

(** ** Frame encoder *)

(** One masked byte: [out[i] = payload[i] ^ dst[position + j]]. *)
Definition mask_byte (payload : list Z) (position i j : Z) (dst : list Z) : ub (list Z) :=
  b ← ld payload i; m ← ld dst (position + j);
  st dst (position + 4 + i) (u8 (Z.lxor b m)).

Definition mask_word (payload : list Z) (position k : Z) (dst : list Z) : ub (list Z) :=
  let i := k * 4 in
  dst ← mask_byte payload position i 0 dst;
  dst ← mask_byte payload position (i + 1) 1 dst;
  dst ← mask_byte payload position (i + 2) 2 dst;
  mask_byte payload position (i + 3) 3 dst.

(** [length] as a [uint8_t] expression of the length field. *)
Definition write_length (dst : list Z) (length : Z) : ub (list Z) :=
  if decide (length <= 125) then st dst 1 (Z.lor 128 (u8 length))
  else if decide (length <= 65535) then
    dst ← st dst 1 (Z.lor 128 126);
    dst ← st dst 2 (u8 (Z.shiftr length 8));
    st dst 3 (u8 length)
  else
    dst ← st dst 1 (Z.lor 128 127);
    eaf_bytes_write_u64 dst 2 (u64 length).

Definition encode_position (length : Z) : Z :=
  if decide (125 < length) then 2 + (if decide (length <= 65535) then 2 else 8) else 2.

Definition eaf_sendspin_ws_encode (dst : ptr (list Z)) (capacity opcode : Z) (payload : ptr (list Z))
    (length mask_key : Z) (written : ptr Z) : ub (ptr (list Z) * ptr Z * Z) :=
  match dst, written with
  | Some d, Some _ =>
      if negb (match payload with Some _ => true | None => false end) && negb (bool_decide (length = 0))
      then Some (dst, written, EAF_INVALID)
      else
        let pl := default [] payload in
        let position := encode_position length in
        let total := position + 4 + length in
        if decide (total > capacity) then Some (dst, written, EAF_INVALID)
        else
          d ← st d 0 (u8 (Z.lor 128 (Z.land opcode 15)));
          d ← write_length d length;
          d ← st d position (u8 mask_key);
          d ← st d (position + 1) (u8 (Z.shiftr mask_key 8));
          d ← st d (position + 2) (u8 (Z.shiftr mask_key 16));
          d ← st d (position + 3) (u8 (Z.shiftr mask_key 24));
          d ← for_to (length / 4) (mask_word pl position) d;
          d ← for_from (length / 4 * 4) (Z.to_nat (length mod 4))
                (fun i d => mask_byte pl position i (Z.land i 3) d) d;
          Some (Some d, Some total, EAF_OK)
  | _, _ => Some (dst, written, EAF_INVALID)
  end.

(** ** The generator *)

Lemma unit_factor x a inv :
  is_u32 x -> (a * inv) mod 4294967296 = 1 -> (x * a) mod 4294967296 = 0 -> x = 0.
Proof.
  intros Hx Ha Hm. unfold is_u32 in Hx. rewrite <- (Z.mod_small x 4294967296) by done.
  rewrite <- (Z.mul_1_r x), <- Ha, Z.mul_mod_idemp_r, Z.mul_assoc, <- Z.mul_mod_idemp_l, Hm by lia. done.
Qed.

Lemma shift_step_nonzero x k inv :
  is_u32 x -> 0 < k -> ((2 ^ k - 1) * inv) mod 4294967296 = 1 -> x <> 0 ->
  Z.lxor x (u32 (Z.shiftl x k)) <> 0.
Proof.
  intros Hx Hk Hinv Hne H%Z.lxor_eq. apply Hne. apply (unit_factor x (2 ^ k - 1) inv); [done | done |].
  rewrite Z.shiftl_mul_pow2 in H by lia. unfold u32 in H.
  replace (x * (2 ^ k - 1)) with (x * 2 ^ k - x) by ring. rewrite Zminus_mod, <- H.
  rewrite (Z.mod_small x) by done. by rewrite Z.sub_diag.
Qed.

Lemma shr_step_nonzero x k : is_u32 x -> 0 < k -> x <> 0 -> Z.lxor x (Z.shiftr x k) <> 0.
Proof.
  intros Hx Hk Hne H%Z.lxor_eq. rewrite Z.shiftr_div_pow2 in H by lia.
  assert (1 < 2 ^ k) by (apply Z.pow_gt_1; lia).
  pose proof (Z.div_lt x (2 ^ k)). unfold is_u32 in Hx. lia.
Qed.

Lemma lxor_u32 a b : is_u32 a -> is_u32 b -> is_u32 (Z.lxor a b).
Proof.
  unfold is_u32. intros Ha Hb. split; [apply Z.lxor_nonneg; lia |].
  destruct (decide (Z.lxor a b = 0)) as [->|Hne]; [lia |].
  change 4294967296 with (2 ^ 32). apply Z.log2_lt_pow2.
  { assert (0 <= Z.lxor a b) by (apply Z.lxor_nonneg; lia). lia. }
  eapply Z.le_lt_trans; [apply Z.log2_lxor; lia |].
  assert (Hl : forall c, 0 <= c < 4294967296 -> Z.log2 c < 32).
  { intros c Hc. destruct (decide (c = 0)) as [->|]; [done |]. apply Z.log2_lt_pow2; [lia | done || lia]. }
  pose proof (Hl a Ha). pose proof (Hl b Hb). lia.
Qed.

Lemma prng_next_range p :
  is_u32 (prng_state p) -> prng_state p <> 0 ->
  let r := (eaf_sendspin_ws_prng_next p).2 in
  is_u32 r /\ r <> 0 /\ prng_state (eaf_sendspin_ws_prng_next p).1 = r.
Proof.
  intros Hp Hne. unfold eaf_sendspin_ws_prng_next. cbn [fst snd].
  set (x1 := Z.lxor (prng_state p) _). set (x2 := Z.lxor x1 _). set (x3 := Z.lxor x2 _).
  assert (H1 : is_u32 x1 /\ x1 <> 0).
  { split; [apply lxor_u32; [done | apply u32_range] | by apply (shift_step_nonzero _ _ 4227850239)]. }
  assert (H2 : is_u32 x2 /\ x2 <> 0).
  { split; [| destruct H1; by apply shr_step_nonzero]. destruct H1 as [H1 _]. apply lxor_u32; [exact H1 |]. unfold is_u32 in *.
    rewrite Z.shiftr_div_pow2 by lia. change (2 ^ 17) with 131072. word. }
  destruct H2 as [H2 H2']. split; [apply lxor_u32; [exact H2 | apply u32_range] |]. split; [by apply (shift_step_nonzero _ _ 3186588639) | done].
Qed.

(** ** The client key is base64 *)

Definition b64_char (i : Z) : Z := alphabet !!! Z.to_nat i.

(** RFC 4648. *)
Fixpoint b64_encode (bytes : list Z) : list Z :=
  match bytes with
  | b0 :: b1 :: b2 :: rest =>
      let v := (b0 * 256 + b1) * 256 + b2 in
      [b64_char (v / 262144); b64_char (v / 4096 mod 64); b64_char (v / 64 mod 64); b64_char (v mod 64)]
        ++ b64_encode rest
  | [b0; b1] =>
      let v := (b0 * 256 + b1) * 256 in
      [b64_char (v / 262144); b64_char (v / 4096 mod 64); b64_char (v / 64 mod 64); 61]
  | [b0] => let v := b0 * 65536 in [b64_char (v / 262144); b64_char (v / 4096 mod 64); 61; 61]
  | [] => []
  end.

Lemma group_value b0 b1 b2 :
  is_u8 b0 -> is_u8 b1 -> is_u8 b2 ->
  Z.lor (Z.lor (u32 (Z.shiftl b0 16)) (u32 (Z.shiftl b1 8))) b2 = (b0 * 256 + b1) * 256 + b2.
Proof.
  unfold is_u8. intros H0 H1 H2. rewrite !u32_small by (rewrite Z.shiftl_mul_pow2 by lia; word_unfold; lia).
  rewrite (lor_shift_add b0 16) by (rewrite ?Z.shiftl_mul_pow2 by lia; lia).
  replace (b0 * 2 ^ 16 + Z.shiftl b1 8) with (Z.shiftl (b0 * 256 + b1) 8)
    by (rewrite !Z.shiftl_mul_pow2 by lia; lia).
  rewrite lor_shift_add by lia. lia.
Qed.

Lemma digit_eq v k : 0 <= k -> Z.land (Z.shiftr v k) 63 = v / 2 ^ k mod 64.
Proof. intros. rewrite Z.shiftr_div_pow2 by lia. by apply (land_mask_mod _ 6). Qed.

Lemma put_char_eq out used i :
  0 <= i < 64 -> 0 <= used < zlen out -> put_char out used i = Some (splice out used [b64_char i], used + 1).
Proof.
  intros Hi Hu. unfold put_char. rewrite ld_total by (change (zlen alphabet) with 64; lia). cbn [mbind option_bind].
  rewrite st_eq, splice_singleton by lia. done.
Qed.

Lemma put_two out used xs i :
  0 <= i < 64 -> 0 <= used -> used + zlen xs < zlen out ->
  put_char (splice out used xs) (used + zlen xs) i = Some (splice out used (xs ++ [b64_char i]), used + zlen xs + 1).
Proof.
  intros. pose proof (zlen_nonneg xs).
  rewrite put_char_eq by (rewrite ?zlen_splice; lia). rewrite splice_app; [done | lia |].
  change (zlen [b64_char i]) with 1. lia.
Qed.

Lemma key_group_eq bytes k out b0 b1 b2 :
  bytes !! Z.to_nat (k * 3) = Some b0 -> bytes !! Z.to_nat (k * 3 + 1) = Some b1 ->
  bytes !! Z.to_nat (k * 3 + 2) = Some b2 -> is_u8 b0 -> is_u8 b1 -> is_u8 b2 -> 0 <= k ->
  forall used, 0 <= used -> used + 4 <= zlen out ->
  key_group bytes k (out, used) = Some (splice out used (b64_encode [b0; b1; b2]), used + 4).
Proof.
  intros H0 H1 H2 Hb0 Hb1 Hb2 Hk used Hu Hl. unfold key_group.
  rewrite !ld_lookup, H0, H1, H2 by lia. cbn [mbind option_bind]. rewrite group_value by done.
  set (v := (b0 * 256 + b1) * 256 + b2). assert (Hv : 0 <= v < 16777216) by (unfold v, is_u8 in *; lia).
  rewrite !digit_eq by lia. change (2 ^ 18) with 262144. change (2 ^ 12) with 4096. change (2 ^ 6) with 64.
  replace (Z.land v 63) with (v mod 64) by (symmetry; by apply (land_mask_mod v 6)).
  replace (v / 262144 mod 64) with (v / 262144) by word.
  rewrite put_char_eq by (try lia; word). cbn [mbind option_bind].
  rewrite (put_two out used [_]) by (change (zlen [_]) with 1; try lia; word). cbn [mbind option_bind app].
  replace (used + zlen [_] + 1) with (used + zlen [b64_char (v / 262144); b64_char (v / 4096 mod 64)])
    by (unfold zlen; simpl; lia).
  rewrite put_two by (unfold zlen in *; simpl; try lia; word). cbn [mbind option_bind app].
  set (xs := [_; _; b64_char (v / 64 mod 64)]).
  replace (used + zlen _ + 1) with (used + zlen xs) by (unfold zlen; simpl; lia).
  rewrite put_two by (unfold zlen in *; simpl; try lia; word). do 2 f_equal. unfold zlen, xs. simpl. lia.
Qed.

Definition le4 (r : Z) : list Z := [u8 r; u8 (Z.shiftr r 8); u8 (Z.shiftr r 16); u8 (Z.shiftr r 24)].

(** The next [n] outputs of the generator. *)
Fixpoint outputs (n : nat) (p : eaf_sendspin_ws_prng_t) : list Z :=
  match n with
  | O => []
  | S n => let '(p, r) := eaf_sendspin_ws_prng_next p in r :: outputs n p
  end.

Lemma splice4 (bytes : list Z) i a b c d :
  0 <= i -> i + 4 <= zlen bytes ->
  (bytes ← st bytes i a; bytes ← st bytes (i + 1) b; bytes ← st bytes (i + 2) c; st bytes (i + 3) d)
  = Some (splice bytes i [a; b; c; d]).
Proof.
  intros Hi Hl. rewrite st_eq by lia. cbn [mbind option_bind]. rewrite st_eq by (rewrite !zlen_insert; lia).
  cbn [mbind option_bind]. rewrite st_eq by (rewrite !zlen_insert; lia). cbn [mbind option_bind].
  rewrite st_eq by (rewrite !zlen_insert; lia). f_equal. apply list_eq. intros k.
  rewrite lookup_splice by (change (zlen [a; b; c; d]) with 4; lia). change (zlen [a; b; c; d]) with 4.
  rewrite !list_lookup_insert, !length_insert. unfold zlen in *.
  destruct (decide (i <= Z.of_nat k < i + 4)) as [Hk|Hk].
  - assert (Hj : exists j, (j < 4)%nat /\ k = (Z.to_nat i + j)%nat) by (exists (k - Z.to_nat i)%nat; lia).
    destruct Hj as (j & Hj & ->). replace (Z.to_nat i + j - Z.to_nat i)%nat with j by lia.
    destruct j as [|[|[|[|]]]]; [| | | | lia]; repeat case_decide; done || lia.
  - repeat case_decide; try lia. done.
Qed.

Lemma key_bytes_round_eq k p bytes :
  0 <= k -> k * 4 + 4 <= zlen bytes ->
  key_bytes_round k (p, bytes) =
    Some ((eaf_sendspin_ws_prng_next p).1, splice bytes (k * 4) (le4 (eaf_sendspin_ws_prng_next p).2)).
Proof.
  intros Hk Hl. unfold key_bytes_round. destruct (eaf_sendspin_ws_prng_next p) as [p' r]. cbn [fst snd].
  pose proof (splice4 bytes (k * 4) (u8 r) (u8 (Z.shiftr r 8)) (u8 (Z.shiftr r 16)) (u8 (Z.shiftr r 24)) ltac:(lia) Hl) as H4.
  fold (le4 r) in H4. rewrite st_eq in * by lia. cbn [mbind option_bind] in *.
  rewrite st_eq in * by (rewrite !zlen_insert; lia). cbn [mbind option_bind] in *.
  rewrite st_eq in * by (rewrite !zlen_insert; lia). cbn [mbind option_bind] in *. by rewrite H4.
Qed.

Lemma le4_u8 r : Forall is_u8 (le4 r).
Proof. repeat constructor; apply u8_range. Qed.

Lemma key_bytes_eq p :
  exists p', for_to 4 key_bytes_round (p, replicate 16 0) = Some (p', concat (le4 <$> outputs 4 p)).
Proof.
  unfold for_to. change (Z.to_nat 4) with 4%nat. cbn [for_from outputs].
  set (next := eaf_sendspin_ws_prng_next).
  rewrite key_bytes_round_eq by done. fold next. destruct (next p) as [p1 r1] eqn:H1. cbn [mbind option_bind fst snd].
  rewrite key_bytes_round_eq by (rewrite ?zlen_splice; done). fold next. destruct (next p1) as [p2 r2]. cbn [mbind option_bind fst snd].
  rewrite key_bytes_round_eq by (rewrite ?zlen_splice; done). fold next. destruct (next p2) as [p3 r3]. cbn [mbind option_bind fst snd].
  rewrite key_bytes_round_eq by (rewrite ?zlen_splice; done). fold next. destruct (next p3) as [p4 r4]. cbn [mbind option_bind fst snd].
  exists p4. done.
Qed.

(** Filling the 25 cells of the key. *)
Lemma client_key_spec p out :
  25 <= zlen out ->
  exists p', eaf_sendspin_ws_client_key p out
    = Some (p', splice out 0 (b64_encode (concat (le4 <$> outputs 4 p)) ++ [0])).
Proof.
  intros Hl. unfold eaf_sendspin_ws_client_key. destruct (key_bytes_eq p) as [p' ->]. exists p'. cbn [mbind option_bind].
  assert (Hz : length (outputs 4 p) = 4%nat).
  { cbn [outputs]. repeat (destruct (eaf_sendspin_ws_prng_next _) as [? ?]; cbn [length]). done. }
  destruct (outputs 4 p) as [|r1 [|r2 [|r3 [|r4 []]]]]; try done. clear Hz.
  unfold le4. cbn [fmap list_fmap concat app].
  set (bytes := [_; _; _; _; _; _; _; _; _; _; _; _; _; _; _; _]).
  assert (Hb : Forall is_u8 bytes) by (repeat constructor; apply u8_range).
  assert (Hbz : zlen bytes = 16) by done.
  unfold for_to. change (Z.to_nat 5) with 5%nat. cbn [for_from]. clearbody bytes.
  destruct bytes as [|b0 [|b1 [|b2 [|b3 [|b4 [|b5 [|b6 [|b7 [|b8 [|b9 [|b10 [|b11 [|b12 [|b13 [|b14 [|b15 []]]]]]]]]]]]]]]]];
    try (unfold zlen in Hbz; simpl in Hbz; lia).
  rewrite !List.Forall_cons_iff in Hb. destruct Hb as (? & ? & ? & ? & ? & ? & ? & ? & ? & ? & ? & ? & ? & ? & ? & ? & _).
  assert (Hg : forall k xs x0 x1 x2, [b0; b1; b2; b3; b4; b5; b6; b7; b8; b9; b10; b11; b12; b13; b14; b15] !! Z.to_nat (k * 3) = Some x0 ->
    [b0; b1; b2; b3; b4; b5; b6; b7; b8; b9; b10; b11; b12; b13; b14; b15] !! Z.to_nat (k * 3 + 1) = Some x1 ->
    [b0; b1; b2; b3; b4; b5; b6; b7; b8; b9; b10; b11; b12; b13; b14; b15] !! Z.to_nat (k * 3 + 2) = Some x2 ->
    is_u8 x0 -> is_u8 x1 -> is_u8 x2 -> 0 <= k -> zlen xs = k * 4 -> k < 5 ->
    key_group [b0; b1; b2; b3; b4; b5; b6; b7; b8; b9; b10; b11; b12; b13; b14; b15] k (splice out 0 xs, zlen xs)
    = Some (splice out 0 (xs ++ b64_encode [x0; x1; x2]), zlen (xs ++ b64_encode [x0; x1; x2]))).
  { intros k xs x0 x1 x2 E0 E1 E2 U0 U1 U2 Hk Hx Hk5.
    rewrite (key_group_eq _ k _ x0 x1 x2) by (rewrite ?zlen_splice; done || lia).
    rewrite zlen_app. change (zlen (b64_encode [x0; x1; x2])) with 4.
    pose proof (splice_app out xs (b64_encode [x0; x1; x2]) 0) as Ha. rewrite Z.add_0_l in Ha. rewrite Ha; [done | lia |].
    change (zlen (b64_encode [x0; x1; x2])) with 4. lia. }
  replace (out, 0) with (splice out 0 [], zlen (@nil Z)) by (by rewrite splice_nil).
  rewrite (Hg 0 [] b0 b1 b2) by done. cbn [mbind option_bind].
  rewrite (Hg (0 + 1) _ b3 b4 b5) by done. cbn [mbind option_bind].
  rewrite (Hg (0 + 1 + 1) _ b6 b7 b8) by done. cbn [mbind option_bind].
  rewrite (Hg (0 + 1 + 1 + 1) _ b9 b10 b11) by done. cbn [mbind option_bind].
  rewrite (Hg (0 + 1 + 1 + 1 + 1) _ b12 b13 b14) by done. cbn [mbind option_bind].
  set (xs := (_ ++ b64_encode [b12; b13; b14])%list). assert (Hxs : zlen xs = 20) by done.
  replace (ld _ 15) with (Some b15) by done. cbn [mbind option_bind].
  rewrite u32_small by (rewrite Z.shiftl_mul_pow2 by lia; word).
  assert (Hv : Z.shiftl b15 16 = b15 * 65536) by (rewrite Z.shiftl_mul_pow2 by lia; done).
  rewrite !digit_eq, Hv by lia. change (2 ^ 18) with 262144. change (2 ^ 12) with 4096.
  replace (b15 * 65536 / 262144 mod 64) with (b15 * 65536 / 262144) by word.
  pose proof (put_two out 0 xs) as Hp. rewrite Z.add_0_l in Hp. rewrite Hp by (try lia; word). clear Hp. cbn [mbind option_bind].
  set (xs1 := xs ++ [b64_char (b15 * 65536 / 262144)]). assert (Hxs1 : zlen xs1 = 21) by done.
  pose proof (put_two out 0 xs1) as Hp. rewrite Z.add_0_l, Hxs1 in Hp. rewrite Hxs. change (20 + 1) with 21.
  rewrite Hp by (try lia; word). cbn [mbind option_bind].
  set (xs2 := xs1 ++ [b64_char (b15 * 65536 / 4096 mod 64)]). assert (Hxs2 : zlen xs2 = 22) by done.
  change (21 + 1) with 22. change (22 + 1) with 23. change (22 + 2) with 24.
  assert (Ht : forall i (ys : list Z) c, zlen ys = i -> i < 25 -> st (splice out 0 ys) i c = Some (splice out 0 (ys ++ [c]))).
  { intros i ys c Hy Hi. pose proof (zlen_nonneg ys). rewrite st_eq by (rewrite zlen_splice; lia).
    rewrite <- splice_singleton by (rewrite zlen_splice; lia).
    pose proof (splice_app out ys [c] 0) as Ha. rewrite Z.add_0_l, Hy in Ha. rewrite Ha; [done | lia |].
    change (zlen [c]) with 1. lia. }
  rewrite (Ht 22 xs2) by (done || lia). cbn [mbind option_bind].
  rewrite (Ht 23 (xs2 ++ [61])) by (done || lia). cbn [mbind option_bind].
  rewrite (Ht 24 ((xs2 ++ [61]) ++ [61])) by (done || lia). cbn [mbind option_bind]. done.
Qed.

(** ** The upgrade request *)

Lemma append_spec d0 pre capacity s t :
  c_string t s -> capacity <= zlen d0 -> zlen pre + 1 <= capacity ->
  append (splice d0 0 (pre ++ [0])) capacity (zlen pre) s =
    if decide (zlen pre + zlen t + 1 <= capacity)
    then Some (splice d0 0 ((pre ++ t) ++ [0]), zlen (pre ++ t), EAF_OK)
    else Some (splice d0 0 (pre ++ [0]), zlen pre, EAF_INVALID).
Proof.
  intros Ht Hcap Hpre. pose proof (zlen_nonneg pre). pose proof (zlen_nonneg t).
  unfold append. rewrite (strlen_string t) by done. cbn [mbind option_bind].
  destruct (decide (zlen pre + zlen t + 1 <= capacity)) as [Hfit|Hno].
  2: { by rewrite decide_True by lia. }
  rewrite decide_False by lia. assert (H1 : zlen [0] = 1) by done.
  assert (Hz : zlen (splice d0 0 (pre ++ [0])) = zlen d0) by (apply zlen_splice; rewrite ?zlen_app; lia).
  assert (Hts : slice s 0 (zlen t) = t) by (destruct Ht as [_ [r ->]]; by apply slice_app_head).
  assert (Hsz : zlen t <= zlen s).
  { destruct Ht as [_ [r ->]]. rewrite zlen_app. pose proof (zlen_nonneg (0 :: r)). lia. }
  rewrite memcpy_eq by lia. rewrite Hts. cbn [mbind option_bind].
  rewrite st_eq by (rewrite zlen_splice; lia). cbn [mbind option_bind].
  rewrite <- splice_singleton by (rewrite zlen_splice; lia). rewrite splice_app by lia.
  assert (Hsp : splice d0 0 (pre ++ [0]) = splice (splice d0 0 pre) (zlen pre) [0]).
  { pose proof (splice_app d0 pre [0] 0) as Ha. rewrite Z.add_0_l in Ha. rewrite Ha; [done | lia | lia]. }
  rewrite Hsp, splice_overwrite; [| lia | rewrite zlen_app; lia | rewrite zlen_splice, zlen_app; lia].
  pose proof (splice_app d0 pre (t ++ [0]) 0) as Ha. rewrite Z.add_0_l in Ha.
  rewrite Ha by (rewrite ?zlen_app; lia). by rewrite zlen_app, app_assoc.
Qed.

Lemma append_all_spec d0 pre capacity ss ts :
  Forall2 c_string ts ss -> capacity <= zlen d0 -> zlen pre + 1 <= capacity ->
  exists d' used' rc, append_all (splice d0 0 (pre ++ [0])) capacity (zlen pre) ss = Some (d', used', rc) /\
    zlen d' = zlen d0 /\ (forall k, capacity <= k -> ld d' k = ld d0 k) /\
    if decide (zlen pre + zlen (concat ts) + 1 <= capacity)
    then rc = EAF_OK /\ used' = zlen (pre ++ concat ts) /\ d' = splice d0 0 ((pre ++ concat ts) ++ [0])
    else rc = EAF_INVALID.
Proof.
  intros Hall Hcap. revert pre. induction Hall as [|t s ts ss Ht Hall IH]; intros pre Hpre;
    pose proof (zlen_nonneg pre); assert (H1 : zlen [0] = 1) by done.
  - cbn [append_all concat]. rewrite app_nil_r. change (zlen []) with 0. eexists _, _, _. split; [done |].
    split; [apply zlen_splice; rewrite ?zlen_app; lia |]. split.
    { intros k Hk. rewrite !ld_lookup, lookup_splice by (rewrite ?zlen_app; lia).
      by rewrite decide_False by (rewrite zlen_app; lia). }
    by rewrite decide_True by lia.
  - cbn [append_all concat]. rewrite (append_spec d0 pre capacity s t) by done. pose proof (zlen_nonneg t).
    rewrite (zlen_app t (concat ts)). pose proof (zlen_nonneg (concat ts)).
    destruct (decide (zlen pre + zlen t + 1 <= capacity)) as [Hfit|Hno]; cbn [mbind option_bind].
    + change (EAF_OK <> 0) with (0 <> 0). rewrite decide_False by lia.
      destruct (IH (pre ++ t)) as (d' & used' & rc & Hrun & Hz & Hk & Hres); [rewrite zlen_app; lia |].
      eexists _, _, _. split; [exact Hrun |]. split; [done |]. split; [done |].
      rewrite zlen_app in Hres. rewrite (app_assoc pre). case_decide; case_decide; done || lia.
    + change (EAF_INVALID <> 0) with (-1 <> 0). rewrite decide_True by lia.
      eexists _, _, _. split; [done |]. split; [apply zlen_splice; rewrite ?zlen_app; lia |]. split.
      { intros k Hk. rewrite !ld_lookup, lookup_splice by (rewrite ?zlen_app; lia).
        by rewrite decide_False by (rewrite zlen_app; lia). }
      by rewrite decide_False by lia.
Qed.

(** The request the handshake sends. *)
Definition upgrade_request (host path key : list Z) : list Z :=
  chars "GET " ++ path ++ chars " HTTP/1.1" ++ crlf ++
  chars "Host: " ++ host ++ crlf ++
  chars "Upgrade: websocket" ++ crlf ++ chars "Connection: Upgrade" ++ crlf ++
  chars "Sec-WebSocket-Version: 13" ++ crlf ++
  chars "Sec-WebSocket-Key: " ++ key ++ crlf ++ crlf.

Lemma literal_string parts : forallb (fun c => negb (c =? 0)) (concat parts) = true ->
  c_string (concat parts) (literal parts).
Proof.
  intros H. split; [| by exists []]. apply Forall_lookup. intros i c Hc ->. rewrite forallb_forall in H.
  specialize (H 0). rewrite <- list_elem_of_In in H. by specialize (H (list_elem_of_lookup_2 _ _ _ Hc)).
Qed.

Lemma build_upgrade_spec d0 capacity host path key sh sp sk w :
  c_string host sh -> c_string path sp -> c_string key sk -> 1 <= capacity <= zlen d0 ->
  exists d' w' rc,
    eaf_sendspin_ws_build_upgrade (Some d0) capacity (Some sh) (Some sp) (Some sk) (Some w) = Some (Some d', Some w', rc) /\
    zlen d' = zlen d0 /\ (forall k, capacity <= k -> ld d' k = ld d0 k) /\
    if decide (zlen (upgrade_request host path key) + 1 <= capacity)
    then rc = EAF_OK /\ w' = zlen (upgrade_request host path key) /\
         d' = splice d0 0 (upgrade_request host path key ++ [0])
    else rc = EAF_INVALID /\ w' = w.
Proof.
  intros Hh Hp Hk Hcap. unfold eaf_sendspin_ws_build_upgrade. rewrite decide_False by lia.
  rewrite st_eq by lia. cbn [mbind option_bind].
  rewrite <- splice_singleton by lia.
  set (ts := [concat [chars "GET "]; path; concat [chars " HTTP/1.1"; crlf; chars "Host: "]; host;
   concat [crlf; chars "Upgrade: websocket"; crlf; chars "Connection: Upgrade"; crlf;
            chars "Sec-WebSocket-Version: 13"; crlf; chars "Sec-WebSocket-Key: "]; key; concat [crlf; crlf]]).
  assert (Hreq : concat ts = upgrade_request host path key).
  { unfold ts, upgrade_request. cbn [concat]. rewrite ?app_nil_r. by rewrite <- !app_assoc. }
  destruct (append_all_spec d0 [] capacity (upgrade_texts sh sp sk) ts) as (d' & used' & rc & Hrun & Hz & Hkeep & Hres).
  { unfold ts, upgrade_texts.
    repeat (apply Forall2_cons_2; [done || (apply literal_string; by vm_compute) |]). constructor. }
  { lia. } { change (zlen []) with 0. lia. }
  change ([] ++ [0]) with [0] in Hrun. change (zlen []) with 0 in Hrun.
  rewrite Hrun. cbn [mbind option_bind]. cbn [app] in Hres. rewrite Hreq in Hres. change (zlen []) with 0 in Hres.
  rewrite Z.add_0_l in Hres. destruct (decide (zlen (upgrade_request host path key) + 1 <= capacity)) as [Hfit|Hno].
  - destruct Hres as (-> & -> & ->). change (EAF_OK <> 0) with (0 <> 0). rewrite decide_False by lia.
    eexists _, _, _. done.
  - subst rc. change (EAF_INVALID <> 0) with (-1 <> 0). rewrite decide_True by lia. eexists _, _, _. done.
Qed.

(** ** Frames on the wire *)

(** XOR with the four mask bytes, starting at payload offset [k]. *)
Fixpoint mask_from (mask : list Z) (k : Z) (bs : list Z) : list Z :=
  match bs with
  | [] => []
  | b :: bs => Z.lxor b (mask !!! Z.to_nat (k mod 4)) :: mask_from mask (k + 1) bs
  end.

Definition ws_length_bytes (masked n : Z) : list Z :=
  if decide (n <= 125) then [masked * 128 + n]
  else if decide (n <= 65535) then [masked * 128 + 126] ++ be_bytes 2 n
  else [masked * 128 + 127] ++ be_bytes 8 n.

(** A final masked frame (RFC 6455, section 5.2). *)
Definition ws_frame (opcode : Z) (payload : list Z) (key : Z) : list Z :=
  [128 + opcode mod 16] ++ ws_length_bytes 1 (zlen payload) ++ le4 key ++ mask_from (le4 key) 0 payload.

Lemma mask_from_lookup mask k bs (i : nat) :
  mask_from mask k bs !! i = (fun b => Z.lxor b (mask !!! Z.to_nat ((k + Z.of_nat i) mod 4))) <$> bs !! i.
Proof.
  revert k i. induction bs as [|b bs IH]; intros k i; [done |]. destruct i as [|i]; simpl.
  - by rewrite Z.add_0_r.
  - rewrite IH. destruct (bs !! i); simpl; [| done]. do 5 f_equal. lia.
Qed.

Lemma zlen_mask_from mask k bs : zlen (mask_from mask k bs) = zlen bs.
Proof. revert k. induction bs as [|b bs IH]; intros k; [done |]. simpl. by rewrite !zlen_cons, IH. Qed.

Lemma mask_from_app mask k xs ys : mask_from mask k (xs ++ ys) = mask_from mask k xs ++ mask_from mask (k + zlen xs) ys.
Proof.
  revert k. induction xs as [|x xs IH]; intros k; simpl; [by rewrite Z.add_0_r |]. rewrite IH, zlen_cons.
  do 3 f_equal. lia.
Qed.

(** Masking twice restores the payload. *)
Lemma mask_from_involutive mask k bs : mask_from mask k (mask_from mask k bs) = bs.
Proof.
  revert k. induction bs as [|b bs IH]; intros k; [done |]. simpl. f_equal; [| apply IH].
  by rewrite Z.lxor_assoc, Z.lxor_nilpotent, Z.lxor_0_r.
Qed.

Lemma lxor_u8 a b : is_u8 a -> is_u8 b -> is_u8 (Z.lxor a b).
Proof.
  unfold is_u8. intros Ha Hb.
  assert (Hn : 0 <= Z.lxor a b) by (apply Z.lxor_nonneg; lia). split; [done |].
  destruct (decide (Z.lxor a b = 0)) as [->|Hne]; [lia |].
  change 256 with (2 ^ 8). apply Z.log2_lt_pow2; [lia |].
  eapply Z.le_lt_trans; [apply Z.log2_lxor; lia |].
  assert (Hl : forall c, 0 <= c < 256 -> Z.log2 c < 8).
  { intros c Hc. destruct (decide (c = 0)) as [->|]; [done |]. apply Z.log2_lt_pow2; [lia | done || lia]. }
  pose proof (Hl a Ha). pose proof (Hl b Hb). lia.
Qed.

Lemma le4_at key i : 0 <= i < 4 -> le4 key !! Z.to_nat i = Some (le4 key !!! Z.to_nat i).
Proof. intros. apply list_lookup_lookup_total_lt. unfold le4. simpl. lia. Qed.

(** ** Encoding *)

Lemma st_snoc {A} (d xs : list A) off c :
  0 <= off -> off + zlen xs < zlen d -> st (splice d off xs) (off + zlen xs) c = Some (splice d off (xs ++ [c])).
Proof.
  intros Ho Hl. pose proof (zlen_nonneg xs). rewrite st_eq by (rewrite zlen_splice; lia).
  rewrite <- splice_singleton by (rewrite zlen_splice; lia). rewrite splice_app; [done | lia |].
  change (zlen [c]) with 1. lia.
Qed.

Lemma write_length_eq d h n :
  0 <= n < 18446744073709551616 -> encode_position n < zlen d ->
  write_length (splice d 0 [h]) n = Some (splice d 0 (h :: ws_length_bytes 1 n)) /\
  zlen (h :: ws_length_bytes 1 n) = encode_position n.
Proof.
  intros Hn Hl. unfold write_length, encode_position, ws_length_bytes in *.
  assert (Hs : forall c, 1 < zlen d -> st (splice d 0 [h]) 1 c = Some (splice d 0 [h; c])).
  { intros c Hd. apply (st_snoc d [h] 0 c); [lia |]. done. }
  destruct (decide (n <= 125)) as [H1|H1].
  - rewrite decide_False in Hl by lia. rewrite Hs by lia. rewrite decide_False by lia. split; [| done].
    do 3 f_equal. rewrite u8_small by (unfold is_u8; lia). f_equal. apply (lor_shift_add 1 7); lia.
  - rewrite decide_True in Hl by lia. rewrite (decide_True (P := 125 < n)) by lia.
    destruct (decide (n <= 65535)) as [H2|H2].
    + rewrite Hs by lia. cbn [mbind option_bind].
      rewrite (st_snoc d [h; _] 0) by (unfold zlen in *; simpl; lia). cbn [mbind option_bind app].
      rewrite (st_snoc d [h; _; _] 0) by (unfold zlen in *; simpl; lia). cbn [app].
      rewrite be_bytes_16. done.
    + rewrite Hs by lia. cbn [mbind option_bind].
      rewrite write_u64_splice by (rewrite ?zlen_splice; unfold zlen in *; simpl; lia).
      pose proof (splice_app d [h; 1 * 128 + 127] (be_bytes 8 n) 0) as Ha.
      change (0 + zlen [h; 1 * 128 + 127]) with 2 in Ha. rewrite u64_small by (unfold is_u64; lia).
      change (Z.lor 128 127) with (1 * 128 + 127). rewrite Ha.
      * split; [done |]. rewrite zlen_cons, zlen_app, zlen_be_bytes. done.
      * lia.
      * rewrite zlen_be_bytes. change (zlen [h; 1 * 128 + 127]) with 2. change (Z.of_nat 8) with 8. lia.
Qed.

Section masking.
Context (d payload : list Z) (head : list Z) (key position : Z).
Context (Hhead : zlen head = position) (Hpos : 0 <= position)
  (Hfit : position + 4 + zlen payload <= zlen d) (Hwf : bytes_wf payload).

Let masked := mask_from (le4 key) 0 payload.
Let written (n : Z) := splice d 0 ((head ++ le4 key) ++ take (Z.to_nat n) masked).

Lemma written_len n : 0 <= n <= zlen payload -> zlen (take (Z.to_nat n) masked) = n.
Proof using. intros Hn. rewrite take_slice, zlen_slice; [done | lia | lia |]. unfold masked. rewrite zlen_mask_from. lia. Qed.

Lemma mask_byte_eq i j :
  0 <= i < zlen payload -> j = i mod 4 -> mask_byte payload position i j (written i) = Some (written (i + 1)).
Proof using Hhead Hpos Hfit Hwf.
  intros Hi ->. pose proof (Z.mod_pos_bound i 4 ltac:(lia)) as Hm. unfold mask_byte.
  destruct (ld_is_Some payload i Hi) as [b Hb]. rewrite Hb. cbn [mbind option_bind].
  pose proof (written_len i ltac:(lia)) as Hl. change (zlen (le4 key)) with 4 in *.
  assert (H4 : zlen (le4 key) = 4) by done.
  assert (Hz : zlen ((head ++ le4 key) ++ take (Z.to_nat i) masked) = position + 4 + i)
    by (rewrite !zlen_app, Hl, H4, Hhead; done).
  assert (Hmk : ld (written i) (position + i mod 4) = Some (le4 key !!! Z.to_nat (i mod 4))).
  { unfold written. rewrite ld_lookup, lookup_splice, decide_True, Nat.sub_0_r by lia.
    rewrite lookup_app_l by (rewrite length_app; unfold zlen in *; lia).
    rewrite lookup_app_r by (unfold zlen in *; lia).
    replace (Z.to_nat (position + i mod 4) - length head)%nat with (Z.to_nat (i mod 4)) by (unfold zlen in *; lia).
    by apply le4_at. }
  rewrite Hmk. cbn [mbind option_bind]. unfold written.
  replace (position + 4 + i) with (0 + zlen ((head ++ le4 key) ++ take (Z.to_nat i) masked)) by lia.
  rewrite st_snoc by lia. rewrite <- (app_assoc (head ++ le4 key)). do 3 f_equal.
  replace (Z.to_nat (i + 1)) with (S (Z.to_nat i)) by lia. symmetry. apply take_S_r.
  unfold masked. rewrite mask_from_lookup. rewrite ld_lookup in Hb by lia. rewrite Hb. simpl. f_equal.
  rewrite Z2Nat.id by lia. rewrite Z.add_0_l. rewrite u8_small; [done |].
  apply lxor_u8; [by apply (proj1 (Forall_lookup _ _) Hwf (Z.to_nat i)) |].
  apply (proj1 (Forall_lookup _ _) (le4_u8 key) (Z.to_nat (i mod 4))). by apply le4_at.
Qed.

Lemma mask_word_eq k :
  0 <= k -> k * 4 + 4 <= zlen payload -> mask_word payload position k (written (k * 4)) = Some (written ((k + 1) * 4)).
Proof using Hhead Hpos Hfit Hwf.
  intros Hk Hl. unfold mask_word.
  rewrite mask_byte_eq by (try lia; word). cbn [mbind option_bind].
  rewrite mask_byte_eq by (try lia; word). cbn [mbind option_bind].
  replace (k * 4 + 1 + 1) with (k * 4 + 2) by lia.
  rewrite mask_byte_eq by (try lia; word). cbn [mbind option_bind].
  replace (k * 4 + 2 + 1) with (k * 4 + 3) by lia.
  rewrite mask_byte_eq by (try lia; word). do 2 f_equal. lia.
Qed.

(** The word loop and the tail loop together mask the whole payload. *)
Lemma mask_loops :
  (d1 ← for_to (zlen payload / 4) (mask_word payload position) (splice d 0 (head ++ le4 key));
   for_from (zlen payload / 4 * 4) (Z.to_nat (zlen payload mod 4))
     (fun i d => mask_byte payload position i (Z.land i 3) d) d1)
  = Some (splice d 0 ((head ++ le4 key) ++ masked)).
Proof using Hhead Hpos Hfit Hwf.
  pose proof (zlen_nonneg payload). pose proof (Z.mod_pos_bound (zlen payload) 4 ltac:(lia)) as Hm.
  pose proof (Z.div_mod (zlen payload) 4 ltac:(lia)) as Hdm.
  assert (0 <= zlen payload / 4) by (apply Z.div_pos; lia).
  assert (Hw0 : splice d 0 (head ++ le4 key) = written 0) by (unfold written; simpl; by rewrite app_nil_r).
  rewrite Hw0.
  destruct (for_to_inv (fun k s => s = written (k * 4)) (mask_word payload position) (zlen payload / 4) (written 0))
    as (d1 & -> & ->); [lia | done | |].
  { intros k s Hk ->. eexists. split; [apply mask_word_eq; lia | done]. }
  cbn [mbind option_bind].
  destruct (for_from_inv (fun i s => s = written i) (fun i d => mask_byte payload position i (Z.land i 3) d)
    (Z.to_nat (zlen payload mod 4)) (zlen payload / 4 * 4) (written (zlen payload / 4 * 4))) as (d2 & -> & ->); [done | |].
  { intros i s Hi ->. eexists. split; [| done]. apply mask_byte_eq; [lia |]. by apply (land_mask_mod i 2). }
  rewrite Z2Nat.id by lia. replace (zlen payload / 4 * 4 + zlen payload mod 4) with (zlen payload) by lia.
  unfold written. f_equal. f_equal. f_equal. apply take_ge. unfold masked.
  pose proof (zlen_mask_from (le4 key) 0 payload). unfold zlen in *. lia.
Qed.
End masking.

Lemma ws_frame_parts opcode payload key :
  ws_frame opcode payload key =
    (((128 + opcode mod 16) :: ws_length_bytes 1 (zlen payload)) ++ le4 key) ++ mask_from (le4 key) 0 payload.
Proof. unfold ws_frame. by rewrite <- app_assoc. Qed.

Lemma zlen_ws_frame opcode payload key :
  zlen (ws_frame opcode payload key) = encode_position (zlen payload) + 4 + zlen payload.
Proof.
  rewrite ws_frame_parts, !zlen_app, zlen_mask_from. change (zlen (le4 key)) with 4.
  unfold ws_length_bytes, encode_position.
  repeat case_decide; try lia; rewrite !zlen_cons, ?zlen_app, ?zlen_cons, ?zlen_be_bytes; change (zlen []) with 0; lia.
Qed.

Lemma ws_encode_spec d capacity opcode payload key w :
  bytes_wf payload -> is_u8 opcode -> capacity <= zlen d -> zlen payload < 18446744073709551616 ->
  eaf_sendspin_ws_encode (Some d) capacity opcode (Some payload) (zlen payload) key (Some w) =
    if decide (zlen (ws_frame opcode payload key) <= capacity)
    then Some (Some (splice d 0 (ws_frame opcode payload key)), Some (zlen (ws_frame opcode payload key)), EAF_OK)
    else Some (Some d, Some w, EAF_INVALID).
Proof.
  intros Hwf Hop Hcap Hbig. pose proof (zlen_nonneg payload). rewrite zlen_ws_frame.
  unfold eaf_sendspin_ws_encode. cbn [negb andb]. change (default [] (Some payload)) with payload.
  set (n := zlen payload) in *. set (pos := encode_position n).
  assert (Hpos : 2 <= pos) by (unfold pos, encode_position; repeat case_decide; lia).
  destruct (decide (pos + 4 + n <= capacity)) as [Hfit|Hno]; [| by rewrite decide_True by lia].
  rewrite decide_False by lia. rewrite st_eq by lia. cbn [mbind option_bind]. rewrite <- splice_singleton by lia.
  assert (Hop16 : u8 (Z.lor 128 (Z.land opcode 15)) = 128 + opcode mod 16).
  { change 15 with (2 ^ 4 - 1). rewrite land_mask_mod by lia. change (2 ^ 4) with 16.
    pose proof (Z.mod_pos_bound opcode 16 ltac:(lia)).
    change 128 with (Z.shiftl 1 7) at 1. rewrite lor_shift_add by lia. rewrite u8_small; [lia |]. unfold is_u8. lia. }
  rewrite Hop16. set (h := 128 + opcode mod 16).
  destruct (write_length_eq d h n) as [-> Hhl]; [lia | fold pos; lia |]. cbn [mbind option_bind]. fold pos in Hhl.
  set (head := h :: ws_length_bytes 1 n) in *.
  assert (Hst : forall xs c, zlen xs < zlen d -> st (splice d 0 xs) (zlen xs) c = Some (splice d 0 (xs ++ [c]))).
  { intros xs c Hx. apply (st_snoc d xs 0 c); lia. }
  rewrite <- Hhl at 1. rewrite Hst by lia. cbn [mbind option_bind].
  set (h1 := head ++ [u8 key]). assert (Hh1 : zlen h1 = pos + 1) by (unfold h1; rewrite zlen_app, Hhl; done).
  rewrite <- Hh1. rewrite Hst by lia. cbn [mbind option_bind].
  set (h2 := h1 ++ _). assert (Hh2 : zlen h2 = pos + 2) by (unfold h2; rewrite zlen_app, Hh1; unfold zlen; simpl; lia).
  rewrite <- Hh2. rewrite Hst by lia. cbn [mbind option_bind].
  set (h3 := h2 ++ _). assert (Hh3 : zlen h3 = pos + 3) by (unfold h3; rewrite zlen_app, Hh2; unfold zlen; simpl; lia).
  rewrite <- Hh3. rewrite Hst by lia. cbn [mbind option_bind].
  assert (Hall : h3 ++ [u8 (Z.shiftr key 24)] = head ++ le4 key) by (unfold h3, h2, h1; by rewrite <- !app_assoc).
  rewrite Hall. pose proof (mask_loops d payload head key pos Hhl ltac:(lia) ltac:(fold n; lia) Hwf) as Hloops.
  fold n in Hloops. destruct (for_to (n / 4) _ _) as [d1|]; [| done]. cbn [mbind option_bind] in *.
  rewrite Hloops. cbn [mbind option_bind]. rewrite ws_frame_parts. done.
Qed.

(** ** Properties *)

Lemma prng_init_nonzero seed : is_u32 seed ->
  is_u32 (prng_state (eaf_sendspin_ws_prng_init seed)) /\ prng_state (eaf_sendspin_ws_prng_init seed) <> 0.
Proof. intros Hs. unfold eaf_sendspin_ws_prng_init. case_decide; simpl; [done |]. unfold is_u32. lia. Qed.

Lemma outputs_nonzero n p :
  is_u32 (prng_state p) -> prng_state p <> 0 -> Forall (fun r => is_u32 r /\ r <> 0) (outputs n p).
Proof.
  revert p. induction n as [|n IH]; intros p Hp Hne; [constructor |].
  destruct (prng_next_range p Hp Hne) as (Hr & Hn & Hs). cbn [outputs].
  destruct (eaf_sendspin_ws_prng_next p) as [p' r]. cbn [fst snd] in *. constructor; [by split |].
  apply IH; by rewrite Hs.
Qed.

(** From any seed the generator never reaches the fixed point zero, and the
    handshake key is the RFC 4648 base64 text of its next four outputs in
    little-endian order, NUL-terminated in the first 25 cells; cells past them
    are not written. *)
Theorem ws_client_key_base64 (seed : Z) (n : nat) (out : list Z) :
  is_u32 seed -> 25 <= zlen out ->
  let p := eaf_sendspin_ws_prng_init seed in
  Forall (fun r => is_u32 r /\ r <> 0) (outputs n p) /\
  exists p', eaf_sendspin_ws_client_key p out
    = Some (p', splice out 0 (b64_encode (concat (le4 <$> outputs 4 p)) ++ [0])).
Proof.
  intros Hs Hl p. destruct (prng_init_nonzero seed Hs) as [Hp Hne]. split; [by apply outputs_nonzero |].
  by apply client_key_spec.
Qed.

Lemma ws_client_key_base64_witness :
  exists p', eaf_sendspin_ws_client_key (eaf_sendspin_ws_prng_init 0) (replicate 25 0)
    = Some (p', splice (replicate 25 0) 0 (b64_encode (concat (le4 <$> outputs 4 (eaf_sendspin_ws_prng_init 0))) ++ [0])).
Proof. destruct (ws_client_key_base64 0 0 (replicate 25 0)) as [_ H]; [done | done | exact H]. Defined.

(** The upgrade request is the exact RFC 6455 handshake text when it fits with
    its NUL, and is otherwise refused; bytes past the capacity are never written. *)
Theorem ws_upgrade_request_exact (d0 : list Z) (capacity : Z) (host path key sh sp sk : list Z) (w : Z) :
  c_string host sh -> c_string path sp -> c_string key sk -> 1 <= capacity <= zlen d0 ->
  exists d' w' rc,
    eaf_sendspin_ws_build_upgrade (Some d0) capacity (Some sh) (Some sp) (Some sk) (Some w) = Some (Some d', Some w', rc) /\
    zlen d' = zlen d0 /\ (forall k, capacity <= k -> ld d' k = ld d0 k) /\
    if decide (zlen (upgrade_request host path key) + 1 <= capacity)
    then rc = EAF_OK /\ w' = zlen (upgrade_request host path key) /\
         d' = splice d0 0 (upgrade_request host path key ++ [0])
    else rc = EAF_INVALID /\ w' = w.
Proof. apply build_upgrade_spec. Qed.

Lemma ws_upgrade_request_exact_witness :
  exists d' w' rc,
    eaf_sendspin_ws_build_upgrade (Some (replicate 200 7)) 200 (Some [104; 0]) (Some [47; 0]) (Some [107; 0]) (Some 5)
      = Some (Some d', Some w', rc) /\ zlen d' = 200.
Proof.
  destruct (ws_upgrade_request_exact (replicate 200 7) 200 [104] [47] [107] [104; 0] [47; 0] [107; 0] 5)
    as (d' & w' & rc & H1 & H2 & _);
    try (split; [repeat constructor; done | by exists []]); [done |].
  exists d', w', rc. split; [exact H1 | exact H2].
Defined.
