(* ===== verification/WsRx.v ===== *)
(** The receiving half of the WebSocket client: [apps/sendspin/sendspin_ws.c]
    (lines 123-270), a streaming frame decoder. *)

From S2P Require Import Prelude Types Ring Bytes WsEncode.

Definition EAF_SENDPIN_WS_TEXT : Z := 1.
Definition EAF_SENDPIN_WS_BINARY : Z := 2.
Definition EAF_SENDPIN_WS_CLOSE : Z := 8.
Definition EAF_SENDPIN_WS_PING : Z := 9.
Definition EAF_SENDPIN_WS_PONG : Z := 10.
Definition EAF_SENDPIN_WS_HEADER_MAX : Z := 14.

Record eaf_sendspin_ws_rx_t := WsRx {
  header : list Z;            (* uint8_t [EAF_SENDPIN_WS_HEADER_MAX] *)
  header_used : Z;
  header_needed : Z;
  payload_length : Z;         (* uint64_t *)
  payload_used : Z;
  mask : list Z;              (* uint8_t [4] *)
  opcode : Z;
  fin : bool;
  rx_masked : bool;
  frame_ready : bool;
  message : ptr (list Z);
  message_capacity : Z;
  message_length : Z;
  message_opcode : Z;
  fragmenting : bool;
  control : list Z;           (* uint8_t [125] *)
  control_length : Z
}.

Definition eaf_sendspin_ws_rx_init (message : ptr (list Z)) (capacity : Z) : eaf_sendspin_ws_rx_t :=
  WsRx (replicate 14 0) 0 0 0 0 (replicate 4 0) 0 false false false message capacity 0 0 false (replicate 125 0) 0.

Definition is_control (op : Z) : bool :=
  bool_decide (op = EAF_SENDPIN_WS_CLOSE) || bool_decide (op = EAF_SENDPIN_WS_PING) ||
  bool_decide (op = EAF_SENDPIN_WS_PONG).

Definition set_header (h : list Z) (u n : Z) (r : eaf_sendspin_ws_rx_t) : eaf_sendspin_ws_rx_t :=
  WsRx h u n (payload_length r) (payload_used r) (mask r) (opcode r) (fin r) (rx_masked r) (frame_ready r)
    (message r) (message_capacity r) (message_length r) (message_opcode r) (fragmenting r) (control r) (control_length r).
Definition set_flags (op : Z) (f m : bool) (r : eaf_sendspin_ws_rx_t) : eaf_sendspin_ws_rx_t :=
  WsRx (header r) (header_used r) (header_needed r) (payload_length r) (payload_used r) (mask r) op f m (frame_ready r)
    (message r) (message_capacity r) (message_length r) (message_opcode r) (fragmenting r) (control r) (control_length r).
Definition set_mask (m : list Z) (r : eaf_sendspin_ws_rx_t) : eaf_sendspin_ws_rx_t :=
  WsRx (header r) (header_used r) (header_needed r) (payload_length r) (payload_used r) m (opcode r) (fin r) (rx_masked r)
    (frame_ready r) (message r) (message_capacity r) (message_length r) (message_opcode r) (fragmenting r) (control r)
    (control_length r).
Definition set_payload (l u : Z) (ready : bool) (r : eaf_sendspin_ws_rx_t) : eaf_sendspin_ws_rx_t :=
  WsRx (header r) (header_used r) (header_needed r) l u (mask r) (opcode r) (fin r) (rx_masked r) ready
    (message r) (message_capacity r) (message_length r) (message_opcode r) (fragmenting r) (control r) (control_length r).
Definition set_message (m : ptr (list Z)) (l op : Z) (r : eaf_sendspin_ws_rx_t) : eaf_sendspin_ws_rx_t :=
  WsRx (header r) (header_used r) (header_needed r) (payload_length r) (payload_used r) (mask r) (opcode r) (fin r)
    (rx_masked r) (frame_ready r) m (message_capacity r) l op (fragmenting r) (control r) (control_length r).
Definition set_fragmenting (b : bool) (r : eaf_sendspin_ws_rx_t) : eaf_sendspin_ws_rx_t :=
  WsRx (header r) (header_used r) (header_needed r) (payload_length r) (payload_used r) (mask r) (opcode r) (fin r)
    (rx_masked r) (frame_ready r) (message r) (message_capacity r) (message_length r) (message_opcode r) b (control r)
    (control_length r).
Definition set_control (c : list Z) (l : Z) (r : eaf_sendspin_ws_rx_t) : eaf_sendspin_ws_rx_t :=
  WsRx (header r) (header_used r) (header_needed r) (payload_length r) (payload_used r) (mask r) (opcode r) (fin r)
    (rx_masked r) (frame_ready r) (message r) (message_capacity r) (message_length r) (message_opcode r) (fragmenting r) c l.

(** The header is complete: decode the length, check the opcode and the room. *)
Definition begin_frame (r : eaf_sendspin_ws_rx_t) : ub (eaf_sendspin_ws_rx_t * Z) :=
  b1 ← ld (header r) 1;
  let code := Z.land b1 127 in
  '(len, position) ← (if decide (code = 126) then n ← eaf_bytes_read_u16 (header r) 2; Some (n, 4)
                      else if decide (code = 127) then n ← eaf_bytes_read_u64 (header r) 2; Some (n, 10)
                      else Some (code, 2));
  r ← (if rx_masked r then m ← memcpy (mask r) 0 (header r) position 4; Some (set_mask m r) else Some r);
  '(r, rc) ←
    Some (if decide (opcode r = 0) then
            if negb (fragmenting r) then (r, EAF_INVALID) else (r, EAF_OK)
          else if bool_decide (opcode r = EAF_SENDPIN_WS_TEXT) || bool_decide (opcode r = EAF_SENDPIN_WS_BINARY) then
            if fragmenting r then (r, EAF_INVALID) else (set_message (message r) 0 (opcode r) r, EAF_OK)
          else if is_control (opcode r) then (set_control (control r) 0 r, EAF_OK)
          else (r, EAF_UNSUPPORTED));
  if decide (rc <> 0) then Some (r, rc)
  else
    let target := if is_control (opcode r) then control_length r else message_length r in
    let room := if is_control (opcode r) then 125 else message_capacity r in
    if decide (room - target < 0) then None   (* size_t subtraction *)
    else if decide (room - target < len) then Some (r, EAF_UNSUPPORTED)
    else Some (set_payload len 0 (frame_ready r) r, EAF_OK).

(** [target[used + i] = data[i] ^ mask[(payload_used + i) & 3]] *)
Definition put_byte (masked : bool) (m data : list Z) (used pu i : Z) (target : list Z) : ub (list Z) :=
  b ← ld data i;
  b ← (if masked then x ← ld m (Z.land (u64 (pu + i)) 3); Some (u8 (Z.lxor b x)) else Some b);
  st target (used + i) b.

(** [while (i < take && ((payload_used + i) & 3u) != 0u)]: at most three rounds. *)
Fixpoint align_loop (fuel : nat) (m data : list Z) (used pu take i : Z) (target : list Z) : ub (list Z * Z) :=
  if decide (i < take /\ Z.land (u64 (pu + i)) 3 <> 0) then
    match fuel with
    | O => None
    | S fuel =>
        target ← put_byte true m data used pu i target;
        align_loop fuel m data used pu take (i + 1) target
    end
  else Some (target, i).

(** A 32-bit word in memory, and its four bytes (the order does not matter for
    the XOR of two words). *)
Definition le_word (bs : list Z) : Z := foldr (fun b v => b + 256 * v) 0 bs.

(** [for (; i + 4u <= take; i += 4u)] *)
Fixpoint word_loop (fuel : nat) (m data : list Z) (used take i : Z) (target : list Z) : ub (list Z * Z) :=
  if decide (i + 4 <= take) then
    match fuel with
    | O => None
    | S fuel =>
        w ← ldn data i 4;
        target ← stn target (used + i) (le4 (Z.lxor (le_word w) (le_word m)));
        word_loop fuel m data used take (i + 4) target
    end
  else Some (target, i).

Definition copy_payload (masked : bool) (m data : list Z) (used pu take : Z) (target : list Z) : ub (list Z) :=
  '(target, i) ←
    (if masked then
       '(target, i) ← align_loop 4 m data used pu take 0 target;
       word_loop (Z.to_nat take) m data used take i target
     else Some (target, 0));
  for_from i (Z.to_nat (take - i)) (put_byte masked m data used pu) target.

Section feed.
Context {C : Type} (callback : option (C -> Z -> list Z -> Z -> C * Z)).

(** Dispatch of a complete frame; the code of a refusing callback is returned. *)
Definition end_frame (r : eaf_sendspin_ws_rx_t) (c : C) : ub (eaf_sendspin_ws_rx_t * C * option Z) :=
  let reset r := set_payload 0 0 false (set_header (header r) 0 0 r) in
  if is_control (opcode r) then
    let '(c, rc) := match callback with
                    | Some f => f c (opcode r) (slice (control r) 0 (control_length r)) (control_length r)
                    | None => (c, 0)
                    end in
    if decide (rc <> 0) then Some (r, c, Some rc) else Some (reset r, c, None)
  else if fin r then
    '(c, rc) ← Some match callback with
                    | Some f => f c (message_opcode r) (slice (default [] (message r)) 0 (message_length r)) (message_length r)
                    | None => (c, 0)
                    end;
    if decide (rc <> 0) then Some (r, c, Some rc)
    else Some (reset (set_message (message r) 0 (message_opcode r) (set_fragmenting false r)), c, None)
  else Some (reset (set_fragmenting true r), c, None).

(** Lines 212-267: copy what the frame still needs, then maybe dispatch. *)
Definition feed_payload (r : eaf_sendspin_ws_rx_t) (c : C) (data : list Z) (length : Z)
  : ub (eaf_sendspin_ws_rx_t * C * list Z * Z * option Z) :=
  let left := u64 (payload_length r - payload_used r) in
  let take := if decide (left < length) then left else length in
  let target := if is_control (opcode r) then Some (control r) else message r in
  let used := if is_control (opcode r) then control_length r else message_length r in
  if negb (bool_decide (take = 0)) && negb (match target with Some _ => true | None => false end)
  then Some (r, c, data, length, Some EAF_INVALID)
  else
    t ← copy_payload (rx_masked r) (mask r) data used (payload_used r) take (default [] target);
    let t := match target with Some _ => Some t | None => None end in
    let r := if is_control (opcode r) then set_control (default [] t) (control_length r + take) r
             else set_message t (message_length r + take) (message_opcode r) r in
    let r := set_payload (payload_length r) (u64 (payload_used r + take)) (frame_ready r) r in
    let data := drop (Z.to_nat take) data in
    let length := length - take in
    if decide (payload_used r = payload_length r) then
      '(r, c, ret) ← end_frame r c; Some (r, c, data, length, ret)
    else Some (r, c, data, length, None).

(** Lines 206-211. *)
Definition feed_ready (r : eaf_sendspin_ws_rx_t) (c : C) (data : list Z) (length : Z)
  : ub (eaf_sendspin_ws_rx_t * C * list Z * Z * option Z) :=
  if frame_ready r then feed_payload r c data length
  else
    '(r, rc) ← begin_frame r;
    if decide (rc <> 0) then Some (r, c, data, length, Some rc)
    else feed_payload (set_payload (payload_length r) (payload_used r) true r) c data length.

(** One round of [while (length)]. *)
Definition feed_round (r : eaf_sendspin_ws_rx_t) (c : C) (data : list Z) (length : Z)
  : ub (eaf_sendspin_ws_rx_t * C * list Z * Z * option Z) :=
  if decide (header_used r < 2) then
    b ← ld data 0;
    h ← st (header r) (header_used r) b;
    let r := set_header h (header_used r + 1) (header_needed r) r in
    let data := drop 1 data in
    let length := length - 1 in
    if decide (header_used r < 2) then Some (r, c, data, length, None)
    else
      b0 ← ld (header r) 0; b1 ← ld (header r) 1;
      let r := set_flags (Z.land b0 15) (negb (bool_decide (Z.land b0 128 = 0)))
                 (negb (bool_decide (Z.land b1 128 = 0))) r in
      let code := Z.land b1 127 in
      let needed := (if decide (code = 126) then 4 else if decide (code = 127) then 10 else 2)
                    + (if rx_masked r then 4 else 0) in
      Some (set_header (header r) (header_used r) needed r, c, data, length, None)
  else if decide (header_used r < header_needed r) then
    let need := header_needed r - header_used r in
    let take := if decide (length < need) then length else need in
    h ← memcpy (header r) (header_used r) data 0 take;
    let r := set_header h (header_used r + take) (header_needed r) r in
    let data := drop (Z.to_nat take) data in
    let length := length - take in
    if decide (header_used r < header_needed r) then Some (r, c, data, length, None)
    else feed_ready r c data length
  else feed_ready r c data length.

Fixpoint feed_loop (fuel : nat) (r : eaf_sendspin_ws_rx_t) (c : C) (data : list Z) (length : Z)
  : ub (eaf_sendspin_ws_rx_t * C * Z) :=
  if decide (length = 0) then Some (r, c, EAF_OK)
  else
    match fuel with
    | O => None
    | S fuel =>
        '(r, c, data, length, ret) ← feed_round r c data length;
        match ret with Some rc => Some (r, c, rc) | None => feed_loop fuel r c data length end
    end.

(** A round that takes no byte dispatches an empty frame and is followed by one
    that takes a header byte: twice the input plus one round is enough. *)
Definition eaf_sendspin_ws_rx_feed (r : ptr eaf_sendspin_ws_rx_t) (data : ptr (list Z)) (length : Z) (c : C)
  : ub (ptr eaf_sendspin_ws_rx_t * (C * Z)) :=
  on_ptr r (c, EAF_INVALID) (fun r =>
    match data with
    | None => if decide (length <> 0) then Some (r, (c, EAF_INVALID))
              else Some (r, (c, if decide (message r = None /\ message_capacity r <> 0) then EAF_INVALID else EAF_OK))
    | Some data =>
        if decide (message r = None /\ message_capacity r <> 0) then Some (r, (c, EAF_INVALID))
        else '(r, c, rc) ← feed_loop (2 * Z.to_nat length + 1) r c data length; Some (r, (c, rc))
    end).
End feed.

(** ** Copying and unmasking *)

Lemma u8_lxor a b : u8 (Z.lxor a b) = Z.lxor (u8 a) (u8 b).
Proof.
  unfold u8. change 256 with (2 ^ 8). rewrite <- !Z.land_ones by lia.
  apply Z.bits_inj'. intros n Hn. rewrite !Z.land_spec, !Z.lxor_spec, !Z.land_spec.
  by destruct (Z.testbit (Z.ones 8) n), (Z.testbit a n), (Z.testbit b n).
Qed.

Lemma le_word_byte b0 b1 b2 b3 :
  is_u8 b0 -> is_u8 b1 -> is_u8 b2 -> is_u8 b3 -> le4 (le_word [b0; b1; b2; b3]) = [b0; b1; b2; b3].
Proof.
  unfold is_u8, le4, le_word, u8. intros. cbn [foldr]. rewrite !Z.shiftr_div_pow2 by lia.
  change (2 ^ 8) with 256. change (2 ^ 16) with 65536. change (2 ^ 24) with 16777216.
  repeat f_equal; Z.to_euclidean_division_equations; lia.
Qed.

Lemma le4_lxor a b : le4 (Z.lxor a b) = zip_with Z.lxor (le4 a) (le4 b).
Proof. unfold le4. simpl. by rewrite !Z.shiftr_lxor, !u8_lxor. Qed.

Lemma list4 {A} (l : list A) : zlen l = 4 -> exists a b c d, l = [a; b; c; d].
Proof.
  destruct l as [|a [|b [|c [|d []]]]]; unfold zlen; simpl; try lia. intros _. by exists a, b, c, d.
Qed.

(** XOR of whole words is XOR of bytes, at an aligned offset. *)
Lemma xor_word m a k :
  zlen m = 4 -> zlen a = 4 -> bytes_wf m -> bytes_wf a -> k mod 4 = 0 ->
  le4 (Z.lxor (le_word a) (le_word m)) = mask_from m k a.
Proof.
  intros Hm Ha Hmw Haw Hk.
  destruct (list4 m Hm) as (m0 & m1 & m2 & m3 & ->). destruct (list4 a Ha) as (a0 & a1 & a2 & a3 & ->).
  unfold bytes_wf in *. rewrite !List.Forall_cons_iff in Hmw, Haw.
  rewrite le4_lxor, !le_word_byte by tauto. simpl.
  replace ((k + 1) mod 4) with 1 by word. replace ((k + 1 + 1) mod 4) with 2 by word.
  replace ((k + 1 + 1 + 1) mod 4) with 3 by word. by rewrite Hk.
Qed.

Section copy.
Context (masked : bool) (m data target : list Z) (used pu take : Z).
Context (Hm : zlen m = 4) (Hmw : bytes_wf m) (Hdw : bytes_wf data)
  (Htake : 0 <= take <= zlen data) (Hused : 0 <= used) (Hfit : used + take <= zlen target)
  (Hpu : 0 <= pu) (Hpu64 : pu + take < 18446744073709551616).

Definition plain (masked : bool) (m : list Z) (pu : Z) (bs : list Z) : list Z :=
  if masked then mask_from m pu bs else bs.

Let X := plain masked m pu (slice data 0 take).
Let written (i : Z) := splice target used (list.take (Z.to_nat i) X).

Lemma zlen_plain : zlen X = take.
Proof using All. unfold X, plain. destruct masked; rewrite ?zlen_mask_from, zlen_slice; lia. Qed.

Lemma zlen_done i : 0 <= i <= take -> zlen (list.take (Z.to_nat i) X) = i.
Proof using All. intros. rewrite take_slice, zlen_slice; [done | lia | lia |]. rewrite zlen_plain. lia. Qed.

Lemma plain_at i b :
  0 <= i < take -> ld data i = Some b ->
  X !! Z.to_nat i = Some (if masked then Z.lxor b (m !!! Z.to_nat ((pu + i) mod 4)) else b).
Proof using All.
  intros Hi Hb. rewrite ld_lookup in Hb by lia.
  assert (Hs : slice data 0 take !! Z.to_nat i = Some b) by (rewrite lookup_slice by lia; done).
  unfold X, plain. destruct masked; [| done]. rewrite mask_from_lookup, Hs. simpl. by rewrite Z2Nat.id by lia.
Qed.

Lemma put_byte_eq i :
  0 <= i < take -> put_byte masked m data used pu i (written i) = Some (written (i + 1)).
Proof using All.
  intros Hi. unfold put_byte. destruct (ld_is_Some data i ltac:(lia)) as [b Hb]. rewrite Hb. cbn [mbind option_bind].
  pose proof (plain_at i b Hi Hb) as Hx. pose proof (Z.mod_pos_bound (pu + i) 4 ltac:(lia)) as Hmod.
  rewrite u64_small by (unfold is_u64; lia).
  replace (Z.land (pu + i) 3) with ((pu + i) mod 4) by (symmetry; by apply (land_mask_mod _ 2)).
  assert (Hb8 : is_u8 b) by (rewrite ld_lookup in Hb by lia; by apply (proj1 (Forall_lookup _ _) Hdw (Z.to_nat i))).
  assert (Hst : forall c, X !! Z.to_nat i = Some c -> st (written i) (used + i) c = Some (written (i + 1))).
  { intros c Hc. unfold written. pose proof (zlen_done i ltac:(lia)) as Hd. rewrite <- Hd at 2.
    rewrite st_snoc by lia. replace (Z.to_nat (i + 1)) with (S (Z.to_nat i)) by lia. by rewrite (take_S_r _ _ c). }
  destruct masked; [| by apply Hst].
  rewrite ld_total by lia. cbn [mbind option_bind]. apply Hst. rewrite Hx. f_equal. symmetry. apply u8_small, lxor_u8; [done |].
  apply (proj1 (Forall_lookup _ _) Hmw (Z.to_nat ((pu + i) mod 4))). apply list_lookup_lookup_total_lt, length_zlen. lia.
Qed.

Lemma align_loop_eq fuel i :
  masked = true -> 0 <= i <= take -> (- (pu + i)) mod 4 <= Z.of_nat fuel ->
  exists i', align_loop fuel m data used pu take i (written i) = Some (written i', i') /\
    i <= i' <= take /\ (i' < take -> (pu + i') mod 4 = 0).
Proof using All.
  intros Hmask. revert i. induction fuel as [|fuel IH]; intros i Hi Hf; cbn [align_loop];
    rewrite u64_small by (unfold is_u64; lia);
    replace (Z.land (pu + i) 3) with ((pu + i) mod 4) by (symmetry; by apply (land_mask_mod _ 2));
    case_decide as Hc; try (exists i; split; [done |]; split; [lia |]; intros; lia).
  - exfalso. word.
  - pose proof (put_byte_eq i ltac:(lia)) as Hp. rewrite Hmask in Hp. rewrite Hp. cbn [mbind option_bind].
    destruct (IH (i + 1)) as (i' & -> & Hi' & Hal); [lia | word |]. exists i'. split; [done |]. split; [lia | done].
Qed.

Lemma word_loop_eq fuel i :
  masked = true -> 0 <= i <= take -> (i < take -> (pu + i) mod 4 = 0) -> take - i <= Z.of_nat fuel ->
  exists i', word_loop fuel m data used take i (written i) = Some (written i', i') /\ i <= i' <= take.
Proof using All.
  intros Hmask. revert i. induction fuel as [|fuel IH]; intros i Hi Hal Hf; cbn [word_loop];
    case_decide as Hc; try (exists i; split; [done |]; lia); [lia |].
  rewrite ldn_eq by lia. cbn [mbind option_bind].
  rewrite (xor_word m (slice data i 4) (pu + i)); [| done | rewrite zlen_slice; lia | done | by apply slice_forall | apply Hal; lia].
  pose proof (zlen_done i ltac:(lia)) as Hd.
  set (w := mask_from m (pu + i) (slice data i 4)).
  assert (Hw : zlen w = 4) by (unfold w; rewrite zlen_mask_from, zlen_slice; lia).
  assert (Hnext : list.take (Z.to_nat (i + 4)) X = list.take (Z.to_nat i) X ++ w).
  { unfold X, plain. rewrite Hmask. rewrite <- (slice_full (mask_from m pu (slice data 0 take)) 0 take);
      [| lia | rewrite zlen_mask_from, zlen_slice; lia].
    assert (Hcut : slice data 0 take = slice data 0 i ++ slice data i 4 ++ slice data (i + 4) (take - (i + 4))).
    { rewrite <- !slice_add by lia. f_equal. lia. }
    rewrite slice_full by (rewrite ?zlen_mask_from, ?zlen_slice; lia).
    rewrite Hcut, !mask_from_app. rewrite zlen_slice by lia. fold w.
    assert (Hp : zlen (mask_from m pu (slice data 0 i)) = i) by (rewrite zlen_mask_from, zlen_slice; lia).
    rewrite app_assoc. rewrite take_app_le by (rewrite length_app; unfold zlen in *; lia).
    rewrite take_ge by (rewrite length_app; unfold zlen in *; lia).
    rewrite <- app_assoc, take_app_le, take_ge by (unfold zlen in *; lia). done. }
  assert (Hst : stn (written i) (used + i) w = Some (written (i + 4))).
  { unfold written. rewrite stn_eq by (rewrite ?zlen_splice; lia). f_equal. rewrite Hnext.
    rewrite <- Hd at 2. apply splice_app; lia. }
  rewrite Hst. cbn [mbind option_bind]. destruct (IH (i + 4)) as (i' & -> & Hi'); [lia | | lia |].
  { intros _. specialize (Hal ltac:(lia)). word. }
  exists i'. split; [done | lia].
Qed.

Lemma copy_payload_eq : copy_payload masked m data used pu take target = Some (splice target used X).
Proof using All.
  unfold copy_payload. assert (H0 : target = written 0) by (unfold written; change (list.take (Z.to_nat 0) X) with (@nil Z); by rewrite splice_nil).
  rewrite H0.
  assert (Hpre : exists i, (if masked then
       '(target, i) ← align_loop 4 m data used pu take 0 (written 0);
       word_loop (Z.to_nat take) m data used take i target else Some (written 0, 0)) = Some (written i, i) /\ 0 <= i <= take).
  { assert (Hmask : masked = true \/ masked = false) by (clear; destruct masked; auto).
    destruct Hmask as [Hmask|Hmask]; rewrite Hmask; [| exists 0; split; [done | lia]].
    destruct (align_loop_eq 4 0) as (i & -> & Hi & Hal); [done | lia | word |]. cbn [mbind option_bind].
    destruct (word_loop_eq (Z.to_nat take) i) as (i' & -> & Hi'); [done | lia | done | lia |].
    exists i'. split; [done | lia]. }
  destruct Hpre as (i & Hpre & Hi). rewrite Hpre. cbn [mbind option_bind].
  destruct (for_from_inv (fun i s => s = written i) (put_byte masked m data used pu) (Z.to_nat (take - i)) i (written i))
    as (s & -> & ->); [done | |].
  { intros j s Hj ->. eexists. split; [apply put_byte_eq; lia | done]. }
  replace (i + Z.of_nat (Z.to_nat (take - i))) with take by lia. unfold written.
  f_equal. change (splice target used (list.take (Z.to_nat 0) X)) with (written 0). rewrite <- H0. f_equal.
  apply take_ge. pose proof zlen_plain. unfold zlen in *. lia.
Qed.
End copy.

(** ** The receiver's invariant *)

(** Room left in the buffer the current frame goes to. *)
Definition room (r : eaf_sendspin_ws_rx_t) : Z :=
  if is_control (opcode r) then 125 - control_length r else message_capacity r - message_length r.

Record rx_inv (r : eaf_sendspin_ws_rx_t) : Prop := {
  rx_header : zlen (header r) = EAF_SENDPIN_WS_HEADER_MAX /\ bytes_wf (header r);
  rx_mask : zlen (mask r) = 4 /\ bytes_wf (mask r);
  rx_control : zlen (control r) = 125;
  rx_message : match message r with Some m => message_capacity r <= zlen m | None => message_capacity r = 0 end;
  rx_lengths : 0 <= message_length r <= message_capacity r /\ 0 <= control_length r <= 125;
  rx_used : 0 <= header_used r <= 14;
  rx_needed : 2 <= header_used r -> header_used r <= header_needed r <= 14;
  rx_early : header_used r < 2 -> frame_ready r = false;
  rx_ready : frame_ready r = true ->
    header_used r = header_needed r /\
    0 <= payload_used r <= payload_length r /\ payload_length r < 18446744073709551616 /\
    payload_length r - payload_used r <= room r
}.

Definition round_post {C} (data : list Z) (res : ub (eaf_sendspin_ws_rx_t * C * list Z * Z * option Z))
    (progress : eaf_sendspin_ws_rx_t -> list Z -> Prop) : Prop :=
  exists r' c' data' ret, res = Some (r', c', data', zlen data', ret) /\ rx_inv r' /\ bytes_wf data' /\
    (ret = None -> progress r' data').

(** Rounds still to be paid for, twice the bytes left plus one for a header
    waiting to be acted on. *)
Definition debt (r : eaf_sendspin_ws_rx_t) (data : list Z) : Z :=
  2 * zlen data + (if decide (2 <= header_used r) then 1 else 0).

Section safety.
Context {C : Type} (callback : option (C -> Z -> list Z -> Z -> C * Z)).

Lemma end_frame_inv r c :
  rx_inv r -> payload_used r = payload_length r ->
  exists r' c' ret, end_frame callback r c = Some (r', c', ret) /\ rx_inv r' /\ (ret = None -> header_used r' = 0).
Proof.
  intros Hinv Hdone.
  assert (Hreset : forall r1, rx_inv r1 -> rx_inv (set_payload 0 0 false (set_header (header r1) 0 0 r1))).
  { intros r1 []. split; simpl; try done; lia. }
  unfold end_frame. destruct (is_control (opcode r)).
  - destruct (match callback with Some f => _ | None => _ end) as [c' rc].
    case_decide; eexists _, _, _; (split; [done |]); split; try done. by apply Hreset.
  - destruct (fin r).
    + cbn [mbind option_bind]. destruct (match callback with Some f => _ | None => _ end) as [c' rc].
      case_decide; eexists _, _, _; (split; [done |]); split; try done.
      destruct Hinv as [H1 H2 H3 H4 H5 H6 H7 H8 H9]. split; simpl; try done; lia.
    + eexists _, _, _. split; [done |]. split; [| done].
      destruct Hinv as [H1 H2 H3 H4 H5 H6 H7 H8 H9]. split; simpl; try done; lia.
Qed.

(** The receiver right after [take] payload bytes have been copied. *)
Definition received (r : eaf_sendspin_ws_rx_t) (data : list Z) (take : Z) : eaf_sendspin_ws_rx_t :=
  let bytes := plain (rx_masked r) (mask r) (payload_used r) (slice data 0 take) in
  let r1 := if is_control (opcode r) then set_control (splice (control r) (control_length r) bytes) (control_length r + take) r
            else set_message ((fun m => splice m (message_length r) bytes) <$> message r) (message_length r + take) (message_opcode r) r in
  set_payload (payload_length r) (payload_used r + take) (frame_ready r) r1.

Lemma zlen_plain_bytes masked m pu bs : zlen (plain masked m pu bs) = zlen bs.
Proof. unfold plain. destruct masked; [apply zlen_mask_from | done]. Qed.

Lemma feed_payload_eq r c data :
  rx_inv r -> frame_ready r = true -> bytes_wf data ->
  let take := Z.min (zlen data) (payload_length r - payload_used r) in
  feed_payload callback r c data (zlen data) =
    (let r1 := received r data take in
     let data1 := drop (Z.to_nat take) data in
     if decide (payload_used r1 = payload_length r1) then
       '(r2, c2, ret) ← end_frame callback r1 c; Some (r2, c2, data1, zlen data1, ret)
     else Some (r1, c, data1, zlen data1, None)) /\
  rx_inv (received r data take).
Proof.
  intros Hinv Hready Hdw take. destruct (rx_ready _ Hinv Hready) as (Hu & Hpl & Hp64 & Hroom).
  pose proof (zlen_nonneg data). destruct (rx_lengths _ Hinv) as [Hml Hcl]. destruct (rx_mask _ Hinv) as [Hm Hmw].
  pose proof (rx_control _ Hinv) as Hc. pose proof (rx_message _ Hinv) as Hmsg.
  assert (Htake : 0 <= take <= zlen data /\ take <= payload_length r - payload_used r) by lia.
  unfold room in Hroom.
  assert (Hsl : zlen (plain (rx_masked r) (mask r) (payload_used r) (slice data 0 take)) = take).
  { rewrite zlen_plain_bytes, zlen_slice; lia. }
  assert (Hdz : zlen data - take = zlen (drop (Z.to_nat take) data)) by (unfold zlen in *; rewrite length_drop; lia).
  split.
  - unfold feed_payload. cbv zeta. rewrite !(u64_small (payload_length r - payload_used r)) by (unfold is_u64; lia).
    replace (if decide (payload_length r - payload_used r < zlen data) then _ else _) with take by (case_decide; lia).
    rewrite !Hdz. unfold received.
    destruct (is_control (opcode r)) eqn:Hop.
    + rewrite andb_false_r. change (default [] (Some (control r))) with (control r).
      rewrite copy_payload_eq by (done || lia). cbn [mbind option_bind].
      cbn [set_payload set_control payload_used payload_length frame_ready].
      rewrite !(u64_small (payload_used r + take)) by (unfold is_u64; lia). done.
    + destruct (message r) as [m|].
      * rewrite andb_false_r. change (default [] (Some m)) with m.
        rewrite copy_payload_eq by (done || lia). cbn [mbind option_bind].
        cbn [set_payload set_message payload_used payload_length frame_ready].
        rewrite !(u64_small (payload_used r + take)) by (unfold is_u64; lia). done.
      * assert (Ht0 : take = 0) by lia. rewrite Ht0. change (bool_decide (0 = 0)) with true. cbn [negb andb].
        cbn [set_payload set_message payload_used payload_length frame_ready].
        rewrite !(u64_small (payload_used r + 0)) by (unfold is_u64; lia).
        replace (copy_payload _ _ _ _ _ 0 _) with (Some (@nil Z)); [done |].
        unfold copy_payload. destruct (rx_masked r); [| done]. cbn [align_loop].
        rewrite decide_False by lia. done.
  - destruct Hinv as [H1 H2 H3 H4 H5 H6 H7 H8 H9]. unfold received.
    destruct (is_control (opcode r)) eqn:Hop; split; simpl; try done; try lia; unfold room; simpl; rewrite ?Hop; try lia.
    + rewrite zlen_splice; lia.
    + destruct (message r) as [m|]; simpl; [| done]. rewrite zlen_splice; lia.
Qed.

(** Big-endian reads inside the header. *)
Lemma header_read16 h : zlen h = 14 -> bytes_wf h -> exists n, eaf_bytes_read_u16 h 2 = Some n /\ 0 <= n < 65536.
Proof using Type.
  intros Hz Hw. exists (be_value (slice h 2 2)).
  assert (Hl : zlen (slice h 2 2) = 2) by (rewrite zlen_slice; lia).
  split; [apply read_u16_at; [split; [lia |]; rewrite Hl; split; [lia | done] | done | by apply slice_forall] |].
  pose proof (be_value_range (slice h 2 2) (slice_forall _ h 2 2 Hw)) as Hr. rewrite Hl in Hr. done.
Qed.
Lemma header_read64 h : zlen h = 14 -> bytes_wf h ->
  exists n, eaf_bytes_read_u64 h 2 = Some n /\ 0 <= n < 18446744073709551616.
Proof using Type.
  intros Hz Hw. exists (be_value (slice h 2 8)).
  assert (Hl : zlen (slice h 2 8) = 8) by (rewrite zlen_slice; lia).
  split; [apply read_u64_at; [split; [lia |]; rewrite Hl; split; [lia | done] | done | by apply slice_forall] |].
  pose proof (be_value_range (slice h 2 8) (slice_forall _ h 2 8 Hw)) as Hr. rewrite Hl in Hr. done.
Qed.

Lemma begin_frame_inv r :
  rx_inv r -> frame_ready r = false ->
  exists r' rc, begin_frame r = Some (r', rc) /\ rx_inv r' /\ frame_ready r' = false /\
    header_used r' = header_used r /\ header_needed r' = header_needed r /\
    (rc = 0 -> payload_used r' = 0 /\ 0 <= payload_length r' < 18446744073709551616 /\ payload_length r' <= room r').
Proof using Type.
  intros Hinv Hnr. pose proof Hinv as [[Hhz Hhw] [Hmz Hmw] Hcz Hmsg [Hml Hcl] Hu Hn He Hrd].
  unfold EAF_SENDPIN_WS_HEADER_MAX in Hhz. unfold begin_frame.
  destruct (ld_is_Some (header r) 1) as [b1 Hb1]; [lia |]. rewrite Hb1. cbn [mbind option_bind].
  assert (Hcode : 0 <= Z.land b1 127 < 128).
  { change 127 with (2 ^ 7 - 1). rewrite land_mask_mod by lia. apply Z.mod_pos_bound. lia. }
  set (code := Z.land b1 127) in *.
  assert (Hlen : exists len position, (if decide (code = 126) then n ← eaf_bytes_read_u16 (header r) 2; Some (n, 4)
      else if decide (code = 127) then n ← eaf_bytes_read_u64 (header r) 2; Some (n, 10) else Some (code, 2))
      = Some (len, position) /\ 0 <= len < 18446744073709551616 /\ 0 <= position <= 10).
  { destruct (header_read16 (header r) Hhz Hhw) as (n16 & -> & ?).
    destruct (header_read64 (header r) Hhz Hhw) as (n64 & -> & ?).
    repeat case_decide; eexists _, _; (split; [done |]); lia. }
  destruct Hlen as (len & position & -> & Hl & Hp). cbn [mbind option_bind].
  assert (Hmk : exists m', (if rx_masked r then m ← memcpy (mask r) 0 (header r) position 4; Some (set_mask m r) else Some r)
      = Some (set_mask m' r) /\ zlen m' = 4 /\ bytes_wf m').
  { destruct (rx_masked r).
    - rewrite memcpy_eq by lia. cbn [mbind option_bind]. eexists. split; [done |].
      rewrite zlen_splice by (rewrite ?zlen_slice; lia). split; [done |].
      apply splice_forall; [done | by apply slice_forall].
    - exists (mask r). split; [by destruct r | done]. }
  destruct Hmk as (m' & -> & Hm'z & Hm'w). cbn [mbind option_bind]. set (r1 := set_mask m' r).
  assert (Hinv1 : rx_inv r1) by (split; simpl; rewrite ?Hnr; done).
  assert (Hops : exists r2 rc, (if decide (opcode r1 = 0) then if negb (fragmenting r1) then (r1, EAF_INVALID) else (r1, EAF_OK)
      else if bool_decide (opcode r1 = EAF_SENDPIN_WS_TEXT) || bool_decide (opcode r1 = EAF_SENDPIN_WS_BINARY) then
        if fragmenting r1 then (r1, EAF_INVALID) else (set_message (message r1) 0 (opcode r1) r1, EAF_OK)
      else if is_control (opcode r1) then (set_control (control r1) 0 r1, EAF_OK) else (r1, EAF_UNSUPPORTED)) = (r2, rc) /\
      rx_inv r2 /\ frame_ready r2 = false /\ header_used r2 = header_used r /\ header_needed r2 = header_needed r).
  { assert (Hmsg1 : rx_inv (set_message (message r1) 0 (opcode r1) r1)) by (split; simpl; rewrite ?Hnr; done || lia).
    assert (Hctl1 : rx_inv (set_control (control r1) 0 r1)) by (split; simpl; rewrite ?Hnr; done || lia).
    case_decide; [destruct (fragmenting r1); eexists _, _; done |].
    destruct (_ || _); [destruct (fragmenting r1); eexists _, _; done |].
    destruct (is_control (opcode r1)); eexists _, _; done. }
  destruct Hops as (r2 & rc & -> & Hinv2 & Hr2 & Hu2 & Hn2). case_decide as Hrc.
  { eexists _, _. split; [done |]. split; [done |]. split; [done |]. split; [done |]. split; [done |]. done. }
  pose proof (rx_lengths _ Hinv2) as [Hml2 Hcl2].
  rewrite decide_False by (destruct (is_control (opcode r2)); lia). case_decide as Hroom.
  { eexists _, _. split; [done |]. split; [done |]. split; [done |]. split; [done |]. split; [done |]. done. }
  eexists _, _. split; [done |]. simpl. split; [| split; [done |]; split; [done |]; split; [done |]].
  - destruct Hinv2. split; simpl; rewrite ?Hr2; done.
  - intros _. split; [done |]. split; [lia |]. unfold room. simpl. destruct (is_control (opcode r2)); lia.
Qed.

Lemma drop_facts (data : list Z) n :
  0 <= n <= zlen data -> bytes_wf data ->
  bytes_wf (drop (Z.to_nat n) data) /\ zlen (drop (Z.to_nat n) data) = zlen data - n.
Proof using Type.
  intros Hn Hw. split; [| unfold zlen in *; rewrite length_drop; lia].
  rewrite drop_slice by lia. by apply slice_forall.
Qed.

Lemma feed_payload_inv r c data :
  rx_inv r -> frame_ready r = true -> bytes_wf data ->
  exists r' c' data' ret, feed_payload callback r c data (zlen data) = Some (r', c', data', zlen data', ret) /\
    rx_inv r' /\ bytes_wf data' /\ zlen data' <= zlen data /\
    (ret = None -> zlen data' = zlen data -> data = [] \/ header_used r' = 0).
Proof using Type.
  intros Hinv Hready Hdw. destruct (feed_payload_eq r c data Hinv Hready Hdw) as [-> Hinv1].
  destruct (rx_ready _ Hinv Hready) as (_ & Hpl & _ & _). pose proof (zlen_nonneg data).
  set (take := Z.min _ _) in *. set (r1 := received r data take) in *.
  destruct (drop_facts data take ltac:(lia) Hdw) as [Hdw1 Hdz]. cbv zeta.
  assert (Hr1 : payload_used r1 = payload_used r + take /\ payload_length r1 = payload_length r).
  { unfold r1, received. by destruct (is_control (opcode r)). }
  destruct Hr1 as [Hpu1 Hpl1]. case_decide as Hdone.
  - destruct (end_frame_inv r1 c Hinv1 Hdone) as (r2 & c2 & ret & -> & Hinv2 & Hh). cbn [mbind option_bind].
    eexists _, _, _, _. split; [done |]. split; [done |]. split; [done |]. split; [lia |].
    intros -> _. right. by apply Hh.
  - eexists _, _, _, _. split; [done |]. split; [done |]. split; [done |]. split; [lia |].
    intros _ Heq. left. apply zlen_0_nil. lia.
Qed.

Lemma feed_ready_inv r c data :
  rx_inv r -> 2 <= header_used r -> header_used r = header_needed r -> bytes_wf data ->
  exists r' c' data' ret, feed_ready callback r c data (zlen data) = Some (r', c', data', zlen data', ret) /\
    rx_inv r' /\ bytes_wf data' /\ zlen data' <= zlen data /\
    (ret = None -> zlen data' = zlen data -> data = [] \/ header_used r' = 0).
Proof using Type.
  intros Hinv H2 Hfull Hdw.
  unfold feed_ready. destruct (frame_ready r) eqn:Hr; [by apply feed_payload_inv |].
  destruct (begin_frame_inv r Hinv Hr) as (r1 & rc & -> & Hinv1 & Hr1 & Hu1 & Hn1 & Hok). cbn [mbind option_bind].
  case_decide as Hrc.
  { eexists _, _, _, _. split; [done |]. split; [done |]. split; [done |]. split; [lia | done]. }
  apply feed_payload_inv; [| done | done]. destruct (Hok ltac:(lia)) as (Hp0 & Hpl & Hrm).
  destruct Hinv1. split; simpl; try done; try lia.
  intros _. unfold room in *. simpl. lia.
Qed.

(** A round keeps the invariant and pays for itself. *)
Lemma feed_round_inv r c data :
  rx_inv r -> bytes_wf data -> data <> [] ->
  exists r' c' data' ret, feed_round callback r c data (zlen data) = Some (r', c', data', zlen data', ret) /\
    rx_inv r' /\ bytes_wf data' /\ (ret = None -> debt r' data' < debt r data).
Proof using Type.
  intros Hinv Hdw Hne. unfold feed_round, debt. pose proof Hinv as [[Hhz Hhw] [Hmz Hmw] Hcz Hmsg [Hml Hcl] Hu Hn He Hrd].
  unfold EAF_SENDPIN_WS_HEADER_MAX in Hhz. destruct (decide (header_used r < 2)) as [H2|H2].
  - destruct data as [|b data]; [done |]. unfold bytes_wf in Hdw. apply List.Forall_cons_iff in Hdw as [Hb Hdw].
    replace (ld (b :: data) 0) with (Some b) by done. cbn [mbind option_bind]. rewrite st_eq by lia.
    cbn [mbind option_bind]. rewrite zlen_cons, Z.add_simpl_r. cbn [drop].
    set (h := <[Z.to_nat (header_used r):=b]> (header r)).
    assert (Hh : zlen h = 14 /\ bytes_wf h).
    { unfold h. rewrite zlen_insert. split; [done |]. by apply Forall_insert. }
    destruct Hh as [Hh14 Hhw']. specialize (He H2). change (drop 0 data) with data in *.
    case_decide as H2'; simpl in H2'.
    + eexists _, _, data, None. split; [done |]. split; [split; simpl; rewrite ?He; done || lia |]. split; [done |].
      intros _. simpl. rewrite !decide_False by lia. lia.
    + destruct (ld_is_Some h 0) as [b0 Hb0]; [lia |]. destruct (ld_is_Some h 1) as [b1 Hb1]; [lia |].
      simpl. rewrite Hb0, Hb1. cbn [mbind option_bind]. eexists _, _, data, None. split; [done |].
      split; [split; simpl; rewrite ?He; try done; try lia; repeat case_decide; destruct (negb _); lia |].
      split; [done |]. intros _. simpl. rewrite decide_True, decide_False by lia. lia.
  - assert (H2' : 2 <= header_used r) by lia. specialize (Hn H2'). pose proof (zlen_nonneg data).
    assert (Hd1 : 1 <= zlen data) by (destruct data; [done | rewrite zlen_cons; pose proof (zlen_nonneg data); lia]).
    rewrite (decide_True (P := 2 <= header_used r)) by done.
    case_decide as Hneed.
    + set (take := if decide (zlen data < _) then _ else _).
      assert (Ht : take = Z.min (zlen data) (header_needed r - header_used r)) by (unfold take; case_decide; lia).
      rewrite memcpy_eq by lia. cbn [mbind option_bind].
      destruct (drop_facts data take ltac:(lia) Hdw) as [Hdw1 Hdz]. rewrite <- Hdz. cbv zeta.
      set (r1 := set_header _ _ _ _).
      assert (Hnr : frame_ready r = false).
      { destruct (frame_ready r) eqn:E; [| done]. destruct (rx_ready _ Hinv E). lia. }
      assert (Hinv1 : rx_inv r1).
      { split; simpl; rewrite ?Hnr; try done; try lia.
        split; [rewrite zlen_splice; rewrite ?zlen_slice; unfold EAF_SENDPIN_WS_HEADER_MAX; lia |].
        apply splice_forall; [done | by apply slice_forall]. }
      case_decide as Hmore; simpl in Hmore.
      * eexists _, _, _, None. split; [done |]. split; [done |]. split; [done |]. intros _. simpl.
        case_decide; lia.
      * destruct (feed_ready_inv r1 c (drop (Z.to_nat take) data) Hinv1) as
          (r' & c' & data' & ret & -> & Hi & Hw & Hl & _); [simpl; lia | simpl; lia | done |].
        eexists _, _, _, _. split; [done |]. split; [done |]. split; [done |]. intros _. case_decide; lia.
    + destruct (feed_ready_inv r c data Hinv) as (r' & c' & data' & ret & -> & Hi & Hw & Hl & Hp); [done | lia | done |].
      eexists _, _, _, _. split; [done |]. split; [done |]. split; [done |]. intros Hret.
      destruct (decide (zlen data' = zlen data)) as [Heq|]; [| case_decide; lia].
      destruct (Hp Hret Heq) as [?|Hz]; [done |]. rewrite decide_False by lia. lia.
Qed.

Lemma feed_loop_inv fuel r c data :
  rx_inv r -> bytes_wf data -> debt r data <= Z.of_nat fuel ->
  exists r' c' rc, feed_loop callback fuel r c data (zlen data) = Some (r', c', rc) /\ rx_inv r'.
Proof using Type.
  revert r c data. induction fuel as [|fuel IH]; intros r c data Hinv Hdw Hf; cbn [feed_loop]; case_decide as H0.
  - eexists _, _, _. done.
  - pose proof (zlen_nonneg data). unfold debt in Hf. case_decide; lia.
  - eexists _, _, _. done.
  - destruct (feed_round_inv r c data Hinv Hdw) as (r1 & c1 & data1 & ret & -> & Hinv1 & Hdw1 & Hd);
      [intros ->; by apply H0 |].
    cbn [mbind option_bind]. destruct ret; [eexists _, _, _; done |]. apply IH; [done | done |].
    specialize (Hd eq_refl). lia.
Qed.

Lemma rx_feed_inv r c data :
  rx_inv r -> bytes_wf data ->
  exists r' c' rc, eaf_sendspin_ws_rx_feed callback (Some r) (Some data) (zlen data) c = Some (Some r', (c', rc)) /\ rx_inv r'.
Proof using Type.
  intros Hinv Hdw. unfold eaf_sendspin_ws_rx_feed, on_ptr. case_decide.
  - eexists _, _, _. done.
  - destruct (feed_loop_inv (2 * Z.to_nat (zlen data) + 1) r c data Hinv Hdw) as (r' & c' & rc & -> & Hinv').
    + pose proof (zlen_nonneg data). unfold debt. case_decide; lia.
    + eexists _, _, _. done.
Qed.
End safety.

(** ** Messages: the reference the decoder is measured against *)

Record frame := Frame { f_fin : bool; f_op : Z; f_key : option Z; f_payload : list Z }.

(** RFC 6455 framing, masked or not. *)
Definition frame_header (f : frame) : list Z :=
  let m := match f_key f with Some _ => 1 | None => 0 end in
  [(if f_fin f then 128 else 0) + f_op f] ++ ws_length_bytes m (zlen (f_payload f))
    ++ match f_key f with Some key => le4 key | None => [] end.
Definition wire (f : frame) : list Z :=
  frame_header f ++ match f_key f with Some key => mask_from (le4 key) 0 (f_payload f) | None => f_payload f end.

(** A message under reassembly: its opcode and the bytes so far. *)
Definition partial := option (Z * list Z).

Definition frame_ok (cap : Z) (acc : partial) (f : frame) : Prop :=
  bytes_wf (f_payload f) /\
  if is_control (f_op f) then zlen (f_payload f) <= 125
  else match acc with
       | Some (_, bytes) => f_op f = 0 /\ zlen bytes + zlen (f_payload f) <= cap
       | None => (f_op f = 1 \/ f_op f = 2) /\ zlen (f_payload f) <= cap
       end.

(** The message a frame completes, if any, and what remains under reassembly. *)
Definition assemble (acc : partial) (f : frame) : option (Z * list Z) * partial :=
  if is_control (f_op f) then (Some (f_op f, f_payload f), acc)
  else
    let '(op, bytes) := match acc with Some (op, bytes) => (op, bytes ++ f_payload f) | None => (f_op f, f_payload f) end in
    if f_fin f then (Some (op, bytes), None) else (None, Some (op, bytes)).

Lemma land_128 b : 0 <= b < 256 -> bool_decide (Z.land b 128 = 0) = bool_decide (b < 128).
Proof.
  intros Hb. apply eqb_prop.
  refine (check_range (fun x : Z => Bool.eqb (bool_decide (Z.land x 128 = 0)) (bool_decide (x < 128))) 0 256 b _ Hb).
  by vm_compute.
Qed.

Lemma land_15 b : Z.land b 15 = b mod 16.
Proof. by apply (land_mask_mod b 4). Qed.
Lemma land_127 b : Z.land b 127 = b mod 128.
Proof. by apply (land_mask_mod b 7). Qed.

Definition is_masked (f : frame) : bool := match f_key f with Some _ => true | None => false end.
Definition ext_bytes (n : Z) : list Z :=
  if decide (n <= 125) then [] else if decide (n <= 65535) then be_bytes 2 n else be_bytes 8 n.
Definition len_code (n : Z) : Z := if decide (n <= 125) then n else if decide (n <= 65535) then 126 else 127.

Lemma frame_header_eq f :
  frame_header f =
    [(if f_fin f then 128 else 0) + f_op f; (if is_masked f then 1 else 0) * 128 + len_code (zlen (f_payload f))]
    ++ ext_bytes (zlen (f_payload f)) ++ match f_key f with Some key => le4 key | None => [] end.
Proof.
  unfold frame_header, ws_length_bytes, ext_bytes, len_code, is_masked.
  destruct (f_key f); repeat case_decide; try done; rewrite <- ?app_assoc; done.
Qed.

Section frames.
Context {C : Type} (callback : option (C -> Z -> list Z -> Z -> C * Z)).

Definition feed (r : eaf_sendspin_ws_rx_t) (c : C) (data : list Z) : ub (eaf_sendspin_ws_rx_t * C * Z) :=
  feed_loop callback (2 * length data + 1) r c data (zlen data).

Lemma rx_feed_fuel n m r c data :
  rx_inv r -> bytes_wf data -> debt r data <= Z.of_nat n -> debt r data <= Z.of_nat m ->
  feed_loop callback n r c data (zlen data) = feed_loop callback m r c data (zlen data).
Proof using Type.
  revert m r c data. induction n as [|n IH]; intros m r c data Hinv Hdw Hn Hm;
    destruct (decide (zlen data = 0)) as [H0|H0].
  - destruct m; cbn [feed_loop]; by rewrite !decide_True by done.
  - pose proof (zlen_nonneg data). unfold debt in Hn. case_decide; lia.
  - destruct m; cbn [feed_loop]; by rewrite !decide_True by done.
  - pose proof (zlen_nonneg data). destruct m as [|m]; [unfold debt in Hm; case_decide; lia |].
    cbn [feed_loop]. rewrite !(decide_False (P := zlen data = 0)) by done.
    destruct (feed_round_inv callback r c data Hinv Hdw) as (r1 & c1 & data1 & ret & -> & Hinv1 & Hdw1 & Hd);
      [intros ->; by apply H0 |]. cbn [mbind option_bind]. destruct ret; [done |]. specialize (Hd eq_refl).
    apply IH; [done | done | lia | lia].
Qed.

Lemma rx_feed_nil r c : feed r c [] = Some (r, c, EAF_OK).
Proof using Type. done. Qed.

Lemma feed_step r c data :
  rx_inv r -> bytes_wf data -> data <> [] ->
  exists r1 c1 data1 ret, feed_round callback r c data (zlen data) = Some (r1, c1, data1, zlen data1, ret) /\
    rx_inv r1 /\ bytes_wf data1 /\
    feed r c data = match ret with Some rc => Some (r1, c1, rc) | None => feed r1 c1 data1 end.
Proof using Type.
  intros Hinv Hdw Hne. pose proof (zlen_nonneg data). pose proof (zlen_nonneg data).
  destruct (feed_round_inv callback r c data Hinv Hdw Hne) as (r1 & c1 & data1 & ret & Hrun & Hinv1 & Hdw1 & Hd).
  exists r1, c1, data1, ret. split; [done |]. split; [done |]. split; [done |].
  assert (Hz : zlen data <> 0) by (intros ?%zlen_0_nil; done).
  unfold feed at 1. replace (2 * length data + 1)%nat with (S (2 * length data)) by lia. cbn [feed_loop].
  rewrite decide_False by done. rewrite Hrun. cbn [mbind option_bind]. destruct ret; [done |]. specialize (Hd eq_refl).
  unfold feed. apply rx_feed_fuel; [done | done | |]; unfold debt in *; unfold zlen in *; repeat case_decide; lia.
Qed.

Definition op_ok (f : frame) : Prop := f_op f = 0 \/ f_op f = 1 \/ f_op f = 2 \/ is_control (f_op f) = true.

Lemma op_ok_range f : op_ok f -> 0 <= f_op f < 16.
Proof using Type.
  unfold op_ok, is_control, EAF_SENDPIN_WS_CLOSE, EAF_SENDPIN_WS_PING, EAF_SENDPIN_WS_PONG.
  repeat case_bool_decide; simpl; intros; lia || naive_solver lia.
Qed.

Definition b0_of (f : frame) : Z := (if f_fin f then 128 else 0) + f_op f.
Definition b1_of (f : frame) : Z := (if is_masked f then 1 else 0) * 128 + len_code (zlen (f_payload f)).
Definition rest_of_header (f : frame) : list Z :=
  ext_bytes (zlen (f_payload f)) ++ match f_key f with Some key => le4 key | None => [] end.
Definition body (f : frame) : list Z :=
  match f_key f with Some key => mask_from (le4 key) 0 (f_payload f) | None => f_payload f end.
Definition needed (f : frame) : Z := 2 + zlen (rest_of_header f).

Lemma wire_eq f : wire f = b0_of f :: b1_of f :: rest_of_header f ++ body f.
Proof using Type. unfold wire. rewrite frame_header_eq. unfold rest_of_header, body. by rewrite <- !app_assoc. Qed.

Lemma needed_eq f : needed f =
  (if decide (len_code (zlen (f_payload f)) = 126) then 4 else if decide (len_code (zlen (f_payload f)) = 127) then 10 else 2)
  + (if is_masked f then 4 else 0).
Proof using Type.
  unfold needed, rest_of_header, ext_bytes, len_code, is_masked. rewrite zlen_app. pose proof (zlen_nonneg (f_payload f)).
  repeat case_decide; try lia; rewrite ?zlen_be_bytes; destruct (f_key f);
    change (zlen []) with 0; try change (zlen (le4 _)) with 4; lia.
Qed.

Lemma needed_range f : 2 <= needed f <= 14.
Proof using Type. rewrite needed_eq. repeat case_decide; destruct (is_masked f); lia. Qed.

Lemma b0_u8 f : op_ok f -> is_u8 (b0_of f).
Proof using Type. intros H%op_ok_range. unfold b0_of, is_u8. destruct (f_fin f); lia. Qed.
Lemma b1_u8 f : is_u8 (b1_of f).
Proof using Type.
  unfold b1_of, is_u8, len_code. pose proof (zlen_nonneg (f_payload f)). repeat case_decide; destruct (is_masked f); lia.
Qed.

(** The state once the first two header bytes are in. *)
Definition opened (f : frame) (h : list Z) (u : Z) (r : eaf_sendspin_ws_rx_t) : eaf_sendspin_ws_rx_t :=
  set_header h u (needed f) (set_flags (f_op f) (f_fin f) (is_masked f) r).

Lemma feed_two r c f data :
  rx_inv r -> header_used r = 0 -> op_ok f -> bytes_wf data ->
  exists h, zlen h = 14 /\ bytes_wf h /\ slice h 0 2 = [b0_of f; b1_of f] /\ rx_inv (opened f h 2 r) /\
    feed r c (b0_of f :: b1_of f :: data) = feed (opened f h 2 r) c data.
Proof using Type.
  intros Hinv Hu0 Hop Hdw. pose proof (b0_u8 f Hop) as Hb0. pose proof (b1_u8 f) as Hb1.
  pose proof (op_ok_range f Hop) as Hopr. pose proof Hinv as [[Hhz Hhw] Hm Hc Hmsg Hl Hu Hn He Hrd].
  unfold EAF_SENDPIN_WS_HEADER_MAX in Hhz. specialize (He ltac:(lia)).
  destruct (feed_step r c (b0_of f :: b1_of f :: data) Hinv) as (r1 & c1 & d1 & ret & H1 & Hi1 & Hd1 & ->);
    [unfold bytes_wf; apply Forall_cons_2; [done | apply Forall_cons_2; done] | done |].
  unfold feed_round in H1. rewrite decide_True in H1 by lia.
  change (ld (b0_of f :: b1_of f :: data) 0) with (Some (b0_of f)) in H1. cbn [mbind option_bind] in H1.
  rewrite st_eq in H1 by lia. cbn [mbind option_bind] in H1. cbn [header_used set_header] in H1. rewrite Hu0 in H1.
  rewrite decide_True in H1 by lia. injection H1 as <- <- <- _ <-. change (drop 0 (b1_of f :: data)) with (b1_of f :: data).
  set (h1 := <[Z.to_nat 0:=b0_of f]> (header r)) in *.
  destruct (feed_step _ c (b1_of f :: data) Hi1) as (r2 & c2 & d2 & ret & H2 & Hi2 & Hd2 & ->); [done | done |].
  unfold feed_round in H2. cbn [set_header header_used header] in H2. rewrite decide_True in H2 by lia.
  change (ld (b1_of f :: data) 0) with (Some (b1_of f)) in H2. cbn [mbind option_bind] in H2.
  assert (Hh1 : zlen h1 = 14) by (unfold h1; by rewrite zlen_insert).
  rewrite st_eq in H2 by lia. cbn [mbind option_bind set_header header_used header] in H2.
  rewrite decide_False in H2 by lia. set (h2 := <[Z.to_nat (0 + 1):=b1_of f]> h1) in *.
  assert (Hh2 : zlen h2 = 14) by (unfold h2; by rewrite zlen_insert).
  assert (E0 : ld h2 0 = Some (b0_of f)).
  { rewrite ld_lookup by lia. unfold h2, h1. change (Z.to_nat (0 + 1)) with 1%nat. change (Z.to_nat 0) with 0%nat.
    rewrite list_lookup_insert_ne by done. apply list_lookup_insert_eq. unfold zlen in *. lia. }
  assert (E1 : ld h2 1 = Some (b1_of f)).
  { rewrite ld_lookup by lia. unfold h2. change (Z.to_nat (0 + 1)) with 1%nat. change (Z.to_nat 1) with 1%nat.
    apply list_lookup_insert_eq. unfold zlen in *. lia. }
  rewrite E0, E1 in H2. cbn [mbind option_bind] in H2.
  assert (Hlc : 0 <= len_code (zlen (f_payload f)) < 128).
  { unfold len_code. pose proof (zlen_nonneg (f_payload f)). repeat case_decide; lia. }
  rewrite land_15, land_127, !land_128 in H2 by done.
  assert (Q0 : b0_of f mod 16 = f_op f) by (unfold b0_of; destruct (f_fin f); word).
  assert (Q1 : b1_of f mod 128 = len_code (zlen (f_payload f))) by (unfold b1_of; destruct (is_masked f); word).
  assert (Q2 : negb (bool_decide (b0_of f < 128)) = f_fin f).
  { unfold b0_of. destruct (f_fin f); [rewrite bool_decide_eq_false_2 by lia | rewrite bool_decide_eq_true_2 by lia]; done. }
  assert (Q3 : negb (bool_decide (b1_of f < 128)) = is_masked f).
  { unfold b1_of. destruct (is_masked f); [rewrite bool_decide_eq_false_2 by lia | rewrite bool_decide_eq_true_2 by lia]; done. }
  rewrite Q0, Q1, Q2, Q3 in H2. cbn [set_flags rx_masked] in H2. rewrite <- needed_eq in H2.
  injection H2 as <- <- <- _ <-. exists h2. split; [done |].
  split; [exact (proj2 (rx_header _ Hi2)) |]. split.
  - rewrite (slice_cons _ _ _ (b0_of f)), (slice_cons _ _ _ (b1_of f)) by (done || lia). done.
  - split; [exact Hi2 | done].
Qed.

(** The rest of the header, taken in one round. *)
Lemma feed_rest r f h c data :
  rx_inv (opened f h 2 r) -> frame_ready r = false -> zlen h = 14 -> bytes_wf h ->
  slice h 0 2 = [b0_of f; b1_of f] -> bytes_wf (rest_of_header f) ->
  exists h', slice h' 0 (needed f) = frame_header f /\ rx_inv (opened f h' (needed f) r) /\
    feed_round callback (opened f h 2 r) c (rest_of_header f ++ data) (zlen (rest_of_header f ++ data))
    = feed_ready callback (opened f h' (needed f) r) c data (zlen data).
Proof using Type.
  intros Hinv Hnr Hh Hw H2 Hrw. pose proof (needed_range f) as Hn. unfold needed in Hn.
  pose proof (zlen_nonneg data). pose proof (zlen_nonneg (rest_of_header f)).
  unfold feed_round. cbn [opened set_header set_flags header_used header_needed header].
  rewrite decide_False by lia. destruct (decide (2 < needed f)) as [Hlt|Hge].
  - unfold needed in Hlt. rewrite zlen_app.
    replace (if decide (zlen (rest_of_header f) + zlen data < needed f - 2) then _ else _) with (zlen (rest_of_header f))
      by (unfold needed; case_decide; lia).
    rewrite memcpy_eq by (rewrite ?zlen_app; lia). cbn [mbind option_bind].
    rewrite slice_app_head by done. set (h' := splice h 2 (rest_of_header f)).
    replace (2 + zlen (rest_of_header f)) with (needed f) by done.
    cbn [set_header header_used header_needed]. rewrite decide_False by lia.
    exists h'. split; [| split].
    + rewrite frame_header_eq. fold (b0_of f) (b1_of f) (rest_of_header f). rewrite <- H2.
      unfold needed. rewrite slice_add by lia. unfold h'.
      assert (Hlo : slice (splice h 2 (rest_of_header f)) 0 2 = slice h 0 2).
      { apply list_eq. intros k. destruct (decide (Z.of_nat k < 2)).
        - rewrite !lookup_slice, lookup_splice by lia. by rewrite decide_False by lia.
        - by rewrite !lookup_slice_ge by lia. }
      rewrite Hlo. f_equal. change (0 + 2) with (2 + 0). rewrite slice_splice by lia. by apply slice_full.
    + destruct Hinv. split; simpl in *; try done; try lia; rewrite ?Hnr; try done.
      split; [unfold h'; rewrite zlen_splice; unfold EAF_SENDPIN_WS_HEADER_MAX; lia |].
      unfold h'. by apply splice_forall.
    + replace (drop (Z.to_nat (zlen (rest_of_header f))) (rest_of_header f ++ data)) with data.
      2: { unfold zlen. rewrite Nat2Z.id. by rewrite drop_app_length. }
      replace (zlen (rest_of_header f) + zlen data - zlen (rest_of_header f)) with (zlen data) by lia. done.
  - assert (Hr0 : rest_of_header f = []) by (apply zlen_0_nil; unfold needed in *; lia).
    assert (Hn2 : needed f = 2) by (unfold needed; rewrite Hr0; done).
    exists h. rewrite Hn2, Hr0. split; [| split; [done | done]].
    rewrite frame_header_eq. fold (b0_of f) (b1_of f) (rest_of_header f). rewrite Hr0, app_nil_r. done.
Qed.

Definition frame_mask (f : frame) (r : eaf_sendspin_ws_rx_t) : list Z :=
  match f_key f with Some key => le4 key | None => mask r end.

(** The state once the frame has been accepted. *)
Definition begun (f : frame) (h : list Z) (r : eaf_sendspin_ws_rx_t) : eaf_sendspin_ws_rx_t :=
  let r1 := set_mask (frame_mask f r) (opened f h (needed f) r) in
  let r2 := if decide (f_op f = 0) then r1
            else if is_control (f_op f) then set_control (control r1) 0 r1
            else set_message (message r1) 0 (f_op f) r1 in
  set_payload (zlen (f_payload f)) 0 true r2.

Definition fits (f : frame) (r : eaf_sendspin_ws_rx_t) : Prop :=
  if is_control (f_op f) then zlen (f_payload f) <= 125
  else if decide (f_op f = 0) then fragmenting r = true /\ message_length r + zlen (f_payload f) <= message_capacity r
  else fragmenting r = false /\ zlen (f_payload f) <= message_capacity r.

Lemma rx_slice_prefix {A} (l hd xs tl : list A) n :
  slice l 0 n = hd ++ xs ++ tl -> n = zlen (hd ++ xs ++ tl) -> n <= zlen l -> slice l (zlen hd) (zlen xs) = xs.
Proof using Type.
  intros Hl Hn Hle. pose proof (slice_slice l n (zlen hd) (zlen xs)) as Hs. rewrite Hl in Hs.
  rewrite !zlen_app in Hn. pose proof (zlen_nonneg hd). pose proof (zlen_nonneg xs). pose proof (zlen_nonneg tl).
  rewrite <- Hs by lia. unfold slice, zlen. rewrite !Nat2Z.id, drop_app_length. apply take_app_length.
Qed.

Lemma header_parts f h :
  slice h 0 (needed f) = frame_header f -> zlen h = 14 ->
  ld h 1 = Some (b1_of f) /\ slice h 2 (zlen (ext_bytes (zlen (f_payload f)))) = ext_bytes (zlen (f_payload f)) /\
  (forall key, f_key f = Some key -> slice h (2 + zlen (ext_bytes (zlen (f_payload f)))) 4 = le4 key).
Proof using Type.
  intros Hs Hz. pose proof (needed_range f) as Hn. rewrite frame_header_eq in Hs. fold (b0_of f) (b1_of f) in Hs.
  assert (Hnz : needed f = zlen ([b0_of f; b1_of f] ++ ext_bytes (zlen (f_payload f)) ++
    match f_key f with Some key => le4 key | None => [] end)).
  { unfold needed, rest_of_header. rewrite (zlen_app [_; _]). done. }
  split; [| split].
  - pose proof (lookup_slice h 0 (needed f) 1%nat ltac:(lia)) as Hl. rewrite Hs in Hl.
    rewrite ld_lookup by lia. change (Z.to_nat 1) with 1%nat. symmetry. exact Hl.
  - pose proof (rx_slice_prefix h _ _ _ _ Hs Hnz ltac:(lia)) as Hp. exact Hp.
  - intros key Hk. rewrite Hk in Hs, Hnz.
    assert (Hs2 : slice h 0 (needed f) = ([b0_of f; b1_of f] ++ ext_bytes (zlen (f_payload f))) ++ le4 key ++ [])
      by (rewrite Hs, app_nil_r; by rewrite <- app_assoc).
    pose proof (rx_slice_prefix h _ _ _ _ Hs2 ltac:(by rewrite Hnz, app_nil_r, <- app_assoc) ltac:(lia)) as Hp.
    rewrite zlen_app in Hp. exact Hp.
Qed.

Lemma begin_length f h :
  slice h 0 (needed f) = frame_header f -> zlen h = 14 -> zlen (f_payload f) < 18446744073709551616 ->
  (if decide (Z.land (b1_of f) 127 = 126) then n ← eaf_bytes_read_u16 h 2; Some (n, 4)
   else if decide (Z.land (b1_of f) 127 = 127) then n ← eaf_bytes_read_u64 h 2; Some (n, 10)
   else Some (Z.land (b1_of f) 127, 2))
  = Some (zlen (f_payload f), 2 + zlen (ext_bytes (zlen (f_payload f)))).
Proof using Type.
  intros Hs Hz Hbig. destruct (header_parts f h Hs Hz) as (_ & He & _). pose proof (zlen_nonneg (f_payload f)).
  assert (Hc : Z.land (b1_of f) 127 = len_code (zlen (f_payload f))).
  { rewrite land_127. unfold b1_of, len_code. repeat case_decide; destruct (is_masked f); word. }
  rewrite Hc. clear Hc. unfold len_code, ext_bytes in *. set (n := zlen (f_payload f)) in *.
  destruct (decide (n <= 125)).
  { rewrite !decide_False by lia. done. }
  destruct (decide (n <= 65535)).
  - rewrite decide_True by done. change (zlen (be_bytes 2 n)) with 2 in *.
    rewrite (read_u16_at h 2 (be_bytes 2 n)).
    + rewrite be_value_bytes by (change (256 ^ Z.of_nat 2) with 65536; lia). done.
    + unfold bytes_at. rewrite zlen_be_bytes. split; [lia |]. split; [lia | done].
    + by rewrite zlen_be_bytes.
    + apply be_bytes_wf.
  - rewrite decide_False, decide_True by done. change (zlen (be_bytes 8 n)) with 8 in *.
    rewrite (read_u64_at h 2 (be_bytes 8 n)).
    + rewrite be_value_bytes by (change (256 ^ Z.of_nat 8) with 18446744073709551616; lia). done.
    + unfold bytes_at. rewrite zlen_be_bytes. split; [lia |]. split; [lia | done].
    + by rewrite zlen_be_bytes.
    + apply be_bytes_wf.
Qed.

Lemma begin_frame_eq f h r :
  slice h 0 (needed f) = frame_header f -> rx_inv (opened f h (needed f) r) -> frame_ready r = false ->
  op_ok f -> fits f r -> zlen (f_payload f) < 18446744073709551616 ->
  exists r', begin_frame (opened f h (needed f) r) = Some (r', EAF_OK) /\
    set_payload (payload_length r') (payload_used r') true r' = begun f h r.
Proof using Type.
  intros Hs Hinv Hnr Hop Hfit Hbig. pose proof Hinv as [[Hhz Hhw] [Hmz Hmw] Hcz Hmsg [Hml Hcl] Hu Hn He Hrd].
  cbn [opened set_header set_flags header mask message_length message_capacity control_length] in *.
  change EAF_SENDPIN_WS_HEADER_MAX with 14 in Hhz. pose proof (zlen_nonneg (f_payload f)).
  destruct (header_parts f h Hs Hhz) as (H1 & Hex & Hkey). unfold begin_frame.
  set (R := opened f h (needed f) r) in *. change (header R) with h. rewrite H1. cbn [mbind option_bind].
  rewrite begin_length by done. cbn [mbind option_bind].
  assert (Hmk : (if rx_masked R then m ← memcpy (mask R) 0 h (2 + zlen (ext_bytes (zlen (f_payload f)))) 4; Some (set_mask m R)
      else Some R) = Some (set_mask (frame_mask f r) R)).
  { change (rx_masked R) with (is_masked f). change (mask R) with (mask r).
    unfold frame_mask, is_masked in *. destruct (f_key f) as [key|] eqn:Hk; [| by unfold R].
    assert (Hext : 0 <= zlen (ext_bytes (zlen (f_payload f))) <= 8).
    { unfold ext_bytes. repeat case_decide; rewrite ?zlen_be_bytes; change (zlen []) with 0; lia. }
    rewrite memcpy_eq by lia. cbn [mbind option_bind]. rewrite (Hkey key eq_refl). do 2 f_equal.
    destruct (list4 _ Hmz) as (a & b & c & d & ->). done. }
  rewrite Hmk. cbn [mbind option_bind]. unfold R. clear Hmk. unfold opened.
  cbn [set_mask set_header set_flags opcode fragmenting message control]. unfold begun, opened.
  unfold op_ok in Hop. unfold fits in Hfit.
  destruct (decide (f_op f = 0)) as [H0|H0].
  - rewrite H0 in *. change (is_control 0) with false in *. destruct Hfit as [-> Hfit]. cbn [negb mbind option_bind].
    rewrite (decide_False (P := EAF_OK <> 0)) by (intros H00; by apply H00). cbn [set_mask set_header set_flags opcode message_length message_capacity].
    change (is_control 0) with false. cbn [message_length message_capacity]. rewrite !decide_False by lia.
    eexists. split; [done |]. done.
  - destruct (is_control (f_op f)) eqn:Hctl.
    + assert (Hnt : bool_decide (f_op f = EAF_SENDPIN_WS_TEXT) || bool_decide (f_op f = EAF_SENDPIN_WS_BINARY) = false).
      { rewrite !bool_decide_eq_false_2; [done | intros E; by rewrite E in Hctl ..]. }
      rewrite Hnt. cbn [mbind option_bind]. rewrite (decide_False (P := EAF_OK <> 0)) by (intros H00; by apply H00).
      cbn [set_control set_mask set_header set_flags opcode control_length]. rewrite Hctl.
      cbn [set_control control_length]. rewrite !decide_False by lia. eexists. split; done.
    + assert (Htb : bool_decide (f_op f = EAF_SENDPIN_WS_TEXT) || bool_decide (f_op f = EAF_SENDPIN_WS_BINARY) = true).
      { unfold EAF_SENDPIN_WS_TEXT, EAF_SENDPIN_WS_BINARY. destruct Hop as [?|[->| [->|?]]]; congruence || done. }
      rewrite Htb. destruct Hfit as [-> Hfit]. cbn [mbind option_bind]. rewrite (decide_False (P := EAF_OK <> 0)) by (intros H00; by apply H00).
      cbn [set_message set_mask set_header set_flags opcode message_length message_capacity]. rewrite Hctl.
      cbn [message_length message_capacity set_message]. rewrite !decide_False by lia. eexists. split; done.
Qed.

Lemma begun_inv f h r :
  rx_inv (opened f h (needed f) r) -> frame_ready r = false -> slice h 0 (needed f) = frame_header f ->
  op_ok f -> fits f r -> zlen (f_payload f) < 18446744073709551616 ->
  rx_inv (begun f h r) /\
  forall c data, feed_ready callback (opened f h (needed f) r) c data (zlen data)
    = feed_payload callback (begun f h r) c data (zlen data).
Proof using Type.
  intros Hinv Hnr Hs Hop Hfit Hbig.
  destruct (begin_frame_eq f h r) as (r' & Hrun & Heq); [done.. |].
  destruct (begin_frame_inv (opened f h (needed f) r) Hinv Hnr) as (r1 & rc & Hrun' & Hinv1 & Hnr1 & Hu1 & Hn1 & Hok).
  rewrite Hrun in Hrun'. injection Hrun' as <- <-. destruct (Hok eq_refl) as (Hpu & Hpl & Hroom). split.
  - rewrite <- Heq. pose proof (needed_range f).
    change (header_used (opened f h (needed f) r)) with (needed f) in Hu1.
    change (header_needed (opened f h (needed f) r)) with (needed f) in Hn1.
    destruct Hinv1. split; simpl; try done; try lia.
    intros _. split; [lia |]. split; [lia |]. split; [lia |]. unfold room in *. simpl. rewrite Hpu, Z.sub_0_r. exact Hroom.
  - intros c data. unfold feed_ready. change (frame_ready (opened f h (needed f) r)) with (frame_ready r). rewrite Hnr, Hrun.
    cbn [mbind option_bind]. rewrite (decide_False (P := EAF_OK <> 0)) by (intros H00; by apply H00). by rewrite Heq.
Qed.

(** ** One whole frame *)

Definition frame_end (f : frame) (h : list Z) (r : eaf_sendspin_ws_rx_t) : eaf_sendspin_ws_rx_t :=
  received (begun f h r) (body f) (zlen (f_payload f)).

Lemma zlen_body f : zlen (body f) = zlen (f_payload f).
Proof using Type. unfold body. destruct (f_key f); [apply zlen_mask_from | done]. Qed.

Lemma feed_payload_body f h r c rest :
  rx_inv (begun f h r) -> bytes_wf (body f ++ rest) ->
  rx_inv (frame_end f h r) /\ payload_used (frame_end f h r) = payload_length (frame_end f h r) /\
  feed_payload callback (begun f h r) c (body f ++ rest) (zlen (body f ++ rest)) =
    ('(r2, c2, ret) ← end_frame callback (frame_end f h r) c; Some (r2, c2, rest, zlen rest, ret)).
Proof using Type.
  intros Hinv Hw. destruct (feed_payload_eq callback (begun f h r) c (body f ++ rest) Hinv eq_refl Hw) as [Hrun Hinv'].
  assert (Hpl : payload_length (begun f h r) = zlen (f_payload f)) by done.
  assert (Hpu : payload_used (begun f h r) = 0) by done. rewrite Hpl, Hpu, Z.sub_0_r in *.
  pose proof (zlen_nonneg rest). pose proof (zlen_nonneg (f_payload f)).
  rewrite zlen_app, zlen_body in Hrun, Hinv'. rewrite Z.min_r in Hrun, Hinv' by lia.
  assert (Hrec : received (begun f h r) (body f ++ rest) (zlen (f_payload f)) = frame_end f h r).
  { unfold frame_end, received. rewrite <- (zlen_body f). rewrite slice_app_head by done. by rewrite slice_full by lia. }
  rewrite Hrec in *. split; [done |].
  assert (Hdone : payload_used (frame_end f h r) = payload_length (frame_end f h r)).
  { unfold frame_end, received. cbn [set_payload payload_used payload_length]. by rewrite Hpl, Hpu. }
  split; [done |]. rewrite zlen_app, zlen_body. cbv zeta in Hrun. rewrite decide_True in Hrun by done. rewrite Hrun.
  assert (Hdr : drop (Z.to_nat (zlen (f_payload f))) (body f ++ rest) = rest).
  { rewrite <- (zlen_body f). unfold zlen. rewrite Nat2Z.id. apply drop_app_length. }
  by rewrite Hdr.
Qed.

Lemma bytes_wf_app_inv (a b : list Z) : bytes_wf (a ++ b) -> bytes_wf a /\ bytes_wf b.
Proof using Type. unfold bytes_wf. rewrite Forall_app. done. Qed.

Lemma wire_wf f : op_ok f -> bytes_wf (f_payload f) -> bytes_wf (rest_of_header f) /\ bytes_wf (body f).
Proof using Type.
  intros Hop Hw. unfold rest_of_header, body, ext_bytes. split.
  - apply Forall_app. split; [repeat case_decide; first [apply be_bytes_wf | constructor] |].
    destruct (f_key f); [apply le4_u8 | constructor].
  - destruct (f_key f) as [key|]; [| done]. unfold bytes_wf. apply Forall_lookup. intros k b. rewrite mask_from_lookup.
    destruct (f_payload f !! k) as [x|] eqn:Hx; [| done]. simpl. intros [= <-].
    apply lxor_u8; [by apply (proj1 (Forall_lookup _ _) Hw k) |].
    pose proof (Z.mod_pos_bound (0 + Z.of_nat k) 4 ltac:(lia)).
    eapply (proj1 (Forall_lookup _ _) (le4_u8 key)). by apply le4_at.
Qed.

(** Every frame that the header leaves something to read of is completed by the
    call that brings its last byte. *)
Lemma rx_feed_frame r c f rest :
  rx_inv r -> header_used r = 0 -> op_ok f -> fits f r -> bytes_wf (f_payload f) ->
  zlen (f_payload f) < 18446744073709551616 -> bytes_wf rest -> rest_of_header f ++ body f ++ rest <> [] ->
  exists h, rx_inv (frame_end f h r) /\ payload_used (frame_end f h r) = payload_length (frame_end f h r) /\
    rx_inv (begun f h r) /\
    feed r c (wire f ++ rest) =
      ('(r2, c2, ret) ← end_frame callback (frame_end f h r) c;
       match ret with Some rc => Some (r2, c2, rc) | None => feed r2 c2 rest end).
Proof using Type.
  intros Hinv Hu0 Hop Hfit Hpw Hbig Hrw Hne. destruct (wire_wf f Hop Hpw) as [Hhw Hbw].
  assert (Hnr : frame_ready r = false) by (apply (rx_early _ Hinv); lia).
  assert (Hdw : bytes_wf (body f ++ rest)) by (apply Forall_app; done).
  assert (Hallw : bytes_wf (rest_of_header f ++ body f ++ rest)) by (apply Forall_app; done).
  destruct (feed_two r c f (rest_of_header f ++ body f ++ rest)) as (h & Hz & Hw & H2 & Hinv2 & Hrun); [done.. |].
  destruct (feed_rest r f h c (body f ++ rest)) as (h' & Hs & Hinv3 & Hrun2); [done.. |].
  destruct (begun_inv f h' r) as [Hinv4 Hrun3]; [done.. |].
  destruct (feed_payload_body f h' r c rest) as (Hinv5 & Hdone & Hrun4); [done.. |].
  exists h'. split; [done |]. split; [done |]. split; [done |].
  rewrite wire_eq. rewrite <- !app_comm_cons, <- app_assoc, Hrun.
  destruct (feed_step (opened f h 2 r) c _ Hinv2 Hallw Hne) as (r1 & c1 & data1 & ret & Hround & _ & _ & ->).
  rewrite Hrun2, Hrun3, Hrun4 in Hround.
  destruct (end_frame callback (frame_end f h' r) c) as [[[r2 c2] ret2]|]; [| done].
  cbn [mbind option_bind] in *. by injection Hround as <- <- <- _ <-.
Qed.

(** ** One frame, one message *)

(** Between frames: what the receiver holds of the message under reassembly. *)
Definition rx_at (cap : Z) (acc : partial) (r : eaf_sendspin_ws_rx_t) : Prop :=
  rx_inv r /\ header_used r = 0 /\ message_capacity r = cap /\
  exists m, message r = Some m /\
  match acc with
  | Some (op, bytes) => fragmenting r = true /\ message_opcode r = op /\ message_length r = zlen bytes /\
                        slice m 0 (zlen bytes) = bytes
  | None => fragmenting r = false
  end.

Definition deliver (c : C) (op : Z) (bytes : list Z) : C * Z :=
  match callback with Some f => f c op bytes (zlen bytes) | None => (c, 0) end.

Lemma frame_ok_fits cap acc f r : rx_at cap acc r -> frame_ok cap acc f -> op_ok f /\ fits f r.
Proof using Type.
  intros (_ & _ & Hcap & m & _ & Hacc) [_ Hok]. unfold op_ok, fits. destruct (is_control (f_op f)) eqn:Hc; [tauto |].
  destruct acc as [[op bytes]|].
  - destruct Hacc as (Hf & _ & Hl & _), Hok as [H0 Hfit]. split; [tauto |]. rewrite decide_True by done.
    rewrite Hl, Hcap. done.
  - destruct Hok as [Hop Hfit]. split; [tauto |]. rewrite decide_False by lia. rewrite Hcap. done.
Qed.

Lemma plain_body f r : plain (is_masked f) (frame_mask f r) 0 (body f) = f_payload f.
Proof using Type.
  unfold plain, is_masked, frame_mask, body. destruct (f_key f); [apply mask_from_involutive | done].
Qed.

Lemma frame_end_payload f :
  slice (body f) 0 (zlen (f_payload f)) = body f.
Proof using Type. rewrite <- zlen_body. by apply slice_full. Qed.

(** What the completed frame leaves in the two buffers. *)
Lemma frame_end_control f h r :
  is_control (f_op f) = true -> f_op f <> 0 ->
  let e := frame_end f h r in
  is_control (opcode e) = true /\ opcode e = f_op f /\ control e = splice (control r) 0 (f_payload f) /\
  control_length e = zlen (f_payload f) /\ header e = h /\ message e = message r /\ message_capacity e = message_capacity r /\
  message_length e = message_length r /\ message_opcode e = message_opcode r /\ fragmenting e = fragmenting r.
Proof using Type.
  intros Hc H0 e. unfold e, frame_end, received, begun. rewrite !frame_end_payload by done.
  rewrite decide_False, Hc by done. simpl. rewrite Hc. simpl. rewrite plain_body. done.
Qed.

Lemma frame_end_data f h r m :
  is_control (f_op f) = false -> message r = Some m ->
  let e := frame_end f h r in
  let at_ := if decide (f_op f = 0) then message_length r else 0 in
  opcode e = f_op f /\ fin e = f_fin f /\ message e = Some (splice m at_ (f_payload f)) /\
  message_length e = at_ + zlen (f_payload f) /\ header e = h /\ message_capacity e = message_capacity r /\
  message_opcode e = (if decide (f_op f = 0) then message_opcode r else f_op f).
Proof using Type.
  intros Hc Hm e at_. unfold e, at_, frame_end, received, begun. rewrite !frame_end_payload by done. rewrite Hc.
  destruct (decide (f_op f = 0)); simpl; rewrite Hc, Hm; simpl; rewrite plain_body; done.
Qed.

Lemma reset_inv r : rx_inv r -> rx_inv (set_payload 0 0 false (set_header (header r) 0 0 r)).
Proof using Type. intros []. split; simpl; try done; lia. Qed.

Lemma feed_message cap acc r c f rest :
  rx_at cap acc r -> frame_ok cap acc f -> zlen (f_payload f) < 18446744073709551616 -> bytes_wf rest ->
  rest_of_header f ++ body f ++ rest <> [] ->
  exists r' r'', rx_at cap (assemble acc f).2 r' /\
    feed r c (wire f ++ rest) =
      match (assemble acc f).1 with
      | Some (op, bytes) =>
          let '(c', rc) := deliver c op bytes in if decide (rc <> 0) then Some (r'', c', rc) else feed r' c' rest
      | None => feed r' c rest
      end.
Proof using Type.
  intros Hat Hok Hbig Hrw Hne. destruct (frame_ok_fits cap acc f r Hat Hok) as [Hop Hfit].
  pose proof Hat as (Hinv & Hu0 & Hcap & m & Hm & Hacc). destruct Hok as [Hpw Hok].
  destruct (rx_feed_frame r c f rest) as (h & Hend & Hdone & _ & ->); [done.. |].
  set (e := frame_end f h r) in *. pose proof (zlen_nonneg (f_payload f)).
  pose proof (rx_message r Hinv) as Hmz. rewrite Hm in Hmz. pose proof (rx_control r Hinv) as Hcz.
  destruct (is_control (f_op f)) eqn:Hc.
  - destruct (frame_end_control f h r Hc) as (E1 & E2 & E3 & E4 & E5 & E6 & E7 & E8 & E9 & E10).
    { intros E0. rewrite E0 in Hc. done. }
    fold e in E1, E2, E3, E4, E5, E6, E7, E8, E9, E10. clearbody e.
    assert (Hasm : assemble acc f = (Some (f_op f, f_payload f), acc)) by (unfold assemble; by rewrite Hc).
    rewrite Hasm. clear Hasm. exists (set_payload 0 0 false (set_header (header e) 0 0 e)), e. split.
    + split; [by apply reset_inv |]. split; [done |]. split; [change (message_capacity e = cap); rewrite <- Hcap; exact E7 |].
      exists m. cbn [set_payload set_header message fragmenting message_opcode message_length]. rewrite E6, E8, E9, E10. done.
    + unfold end_frame. rewrite E1, E2, E3, E4. rewrite (slice_splice (control r) (f_payload f) 0 0) by lia.
      rewrite slice_full by lia. cbn [fst snd]. unfold deliver.
      destruct (match callback with Some g => _ | None => _ end) as [c' rc]. case_decide; done.
  - destruct (frame_end_data f h r m Hc Hm) as (E1 & E2 & E3 & E4 & E5 & E6 & E7). fold e in E1, E2, E3, E4, E5, E6, E7. clearbody e.
    set (at_ := if decide (f_op f = 0) then message_length r else 0) in *.
    set (prev := match acc with Some (_, bytes) => bytes | None => [] end).
    set (op := match acc with Some (op, _) => op | None => f_op f end).
    assert (Hpp : at_ = zlen prev /\ slice m 0 (zlen prev) = prev /\ message_opcode e = op /\ at_ + zlen (f_payload f) <= cap).
    { unfold at_, prev, op. rewrite E7. destruct acc as [[op' bytes]|].
      - destruct Hacc as (_ & <- & <- & ->), Hok as [Ho Hf]. rewrite !(decide_True (P := f_op f = 0)) by done.
        destruct Hat as (_ & _ & _ & ? & _ & _ & _ & Hml & _). rewrite Hml. done.
      - destruct Hok as [Ho Hf]. rewrite !(decide_False (P := f_op f = 0)) by lia. rewrite Z.add_0_l. done. }
    destruct Hpp as (Hat0 & Hprev & Hop' & Hroom). clear E7.
    pose proof (zlen_nonneg prev).
    assert (Hmsg : slice (splice m at_ (f_payload f)) 0 (at_ + zlen (f_payload f)) = prev ++ f_payload f).
    { rewrite slice_add by lia. rewrite slice_splice_before by lia. rewrite Hat0 at 1. rewrite Hprev. f_equal.
      replace (0 + at_) with (at_ + 0) by lia. rewrite slice_splice by lia. by apply slice_full. }
    assert (Hasm : assemble acc f = if f_fin f then (Some (op, prev ++ f_payload f), None) else (None, Some (op, prev ++ f_payload f))).
    { unfold assemble, op, prev. rewrite Hc. destruct acc as [[? ?]|]; done. }
    rewrite Hasm. clear Hasm. unfold end_frame. rewrite E1, Hc, E2. destruct (f_fin f).
    + exists (set_payload 0 0 false (set_header (header e) 0 0 (set_message (message e) 0 (message_opcode e) (set_fragmenting false e)))), e. split.
      * split; [| split; [done |]; split; [change (message_capacity e = cap); by rewrite <- Hcap |]; eexists; split; [exact E3 | done]].
        refine (reset_inv (set_message (message e) 0 (message_opcode e) (set_fragmenting false e)) _). pose proof Hend as [I1 I2 I3 I4 I5 I6 I7 I8 I9]. split; simpl; try done; try lia.
        intros Hrd. specialize (I9 Hrd). unfold room in *. simpl. rewrite E1, Hc in *. lia.
      * assert (Hcb : match callback with
          | Some g => g c (message_opcode e) (slice (default [] (message e)) 0 (message_length e)) (message_length e)
          | None => (c, 0) end = deliver c op (prev ++ f_payload f)).
        { unfold deliver. rewrite E3, E4, Hop'. cbn [default from_option id]. by rewrite Hmsg, zlen_app, <- Hat0. }
        rewrite Hcb. cbn [fst snd]. destruct (deliver c op _) as [c' rc]. cbn [mbind option_bind]. case_decide; done.
    + exists (set_payload 0 0 false (set_header (header e) 0 0 (set_fragmenting true e))), e. split; [| done].
      split; [refine (reset_inv (set_fragmenting true e) _); destruct Hend; by split |]. split; [done |]. split; [change (message_capacity e = cap); by rewrite <- Hcap |].
      exists (splice m at_ (f_payload f)). split; [done |]. cbn [snd]. split; [done |]. split; [done |].
      rewrite zlen_app, <- Hat0. split; [done |]. exact Hmsg.
Qed.

(** ** Chunks: where the input is cut does not matter *)

Definition cont (res : ub (eaf_sendspin_ws_rx_t * C * list Z * Z * option Z)) : ub (eaf_sendspin_ws_rx_t * C * Z) :=
  '(r, c, data, _, ret) ← res;
  match ret with Some rc => Some (r, c, rc) | None => feed r c data end.

Lemma feed_cont r c data :
  rx_inv r -> bytes_wf data -> data <> [] -> feed r c data = cont (feed_round callback r c data (zlen data)).
Proof using Type.
  intros Hinv Hw Hne. by destruct (feed_step r c data Hinv Hw Hne) as (r1 & c1 & data1 & ret & -> & _ & _ & ->).
Qed.

Lemma end_frame_refusal r c r' c' rc : end_frame callback r c = Some (r', c', Some rc) -> rc <> 0.
Proof using Type.
  unfold end_frame. destruct (is_control (opcode r)); [| destruct (fin r)].
  - destruct (match callback with Some g => _ | None => _ end) as [? ?]. case_decide; by intros [= <- <- <-].
  - cbn [mbind option_bind]. destruct (match callback with Some g => _ | None => _ end) as [? ?]. case_decide; by intros [= <- <- <-].
  - done.
Qed.

Lemma received_nil r : frame_ready r = true -> received r [] 0 = r.
Proof using Type.
  intros Hr. unfold received, slice. change (take (Z.to_nat 0) (drop (Z.to_nat 0) [])) with (@nil Z).
  assert (Hp : plain (rx_masked r) (mask r) (payload_used r) [] = []) by (unfold plain; by destruct (rx_masked r)).
  rewrite Hp. destruct r as [h hu hn pl pu mk op fi rm fr msg mc ml mo fg ct cl]; simpl in *.
  rewrite !Z.add_0_r. destruct (is_control op); [by rewrite splice_nil |]. destruct msg; simpl; by rewrite ?splice_nil.
Qed.

Lemma received_zero r data : received r data 0 = received r [] 0.
Proof using Type. unfold received. done. Qed.

(** A round on a ready frame: first with no byte, then with the bytes. *)
Lemma payload_nil r c data :
  rx_inv r -> 2 <= header_used r -> frame_ready r = true -> bytes_wf data ->
  cont (feed_payload callback r c data (zlen data)) =
    ('(r1, c1, _, _, ret) ← feed_payload callback r c [] 0;
     match ret with Some rc => Some (r1, c1, rc) | None => feed r1 c1 data end).
Proof using Type.
  intros Hinv H2 Hr Hw. destruct (rx_ready _ Hinv Hr) as (Hu & Hpl & _).
  destruct (feed_payload_eq callback r c data Hinv Hr Hw) as [E1 _].
  destruct (feed_payload_eq callback r c [] Hinv Hr (List.Forall_nil _)) as [E2 _].
  change (zlen []) with 0 in E2. rewrite (Z.min_l 0) in E2 by lia. rewrite (received_nil r Hr) in E2. cbv zeta in E2.
  rewrite E2. change (drop (Z.to_nat 0) []) with (@nil Z). pose proof (zlen_nonneg data).
  destruct (decide (payload_used r = payload_length r)) as [Hd|Hd].
  - rewrite E1. cbv zeta. rewrite (Z.min_r (zlen data)) by lia. replace (payload_length r - payload_used r) with 0 by lia.
    rewrite received_zero, (received_nil r Hr). rewrite decide_True by done. change (drop (Z.to_nat 0) data) with data.
    destruct (end_frame callback r c) as [[[r2 c2] ret]|]; [| done]. cbn [mbind option_bind cont]. done.
  - cbn [mbind option_bind]. destruct (decide (data = [])) as [->|Hne].
    + change (zlen []) with 0. rewrite E2. done.
    + rewrite feed_cont by done. unfold feed_round. rewrite !decide_False by lia. unfold feed_ready. by rewrite Hr.
Qed.

Lemma ready_nil r c data :
  rx_inv r -> 2 <= header_used r -> header_used r = header_needed r -> bytes_wf data ->
  cont (feed_ready callback r c data (zlen data)) =
    ('(r1, c1, _, _, ret) ← feed_ready callback r c [] 0;
     match ret with Some rc => Some (r1, c1, rc) | None => feed r1 c1 data end).
Proof using Type.
  intros Hinv H2 Hfull Hw. unfold feed_ready. destruct (frame_ready r) eqn:Hr; [by apply payload_nil |].
  destruct (begin_frame_inv r Hinv Hr) as (r1 & rc & -> & Hinv1 & Hr1 & Hu1 & Hn1 & Hok). cbn [mbind option_bind].
  case_decide as Hrc; [done |]. destruct (Hok ltac:(lia)) as (Hp0 & Hpl & Hrm).
  apply payload_nil; [| simpl; lia | done | done].
  destruct Hinv1. split; simpl; try done; try lia. intros _. unfold room in *. simpl. lia.
Qed.

(** Feeding [b] after [a], unless [a] was refused. *)
Definition andthen (res : ub (eaf_sendspin_ws_rx_t * C * Z)) (b : list Z) : ub (eaf_sendspin_ws_rx_t * C * Z) :=
  '(r, c, rc) ← res; if decide (rc <> 0) then Some (r, c, rc) else feed r c b.

Lemma andthen_ok r c b : andthen (Some (r, c, EAF_OK)) b = feed r c b.
Proof using Type. unfold andthen. cbn [mbind option_bind]. apply decide_False. intros H. by apply H. Qed.
Lemma andthen_refused r c rc b : rc <> 0 -> andthen (Some (r, c, rc)) b = Some (r, c, rc).
Proof using Type. intros. unfold andthen. cbn [mbind option_bind]. by rewrite decide_True. Qed.

Lemma feed_inv r c data :
  rx_inv r -> bytes_wf data -> exists r' c' rc, feed r c data = Some (r', c', rc) /\ rx_inv r'.
Proof using Type.
  intros Hinv Hw. apply feed_loop_inv; [done | done |]. unfold debt, zlen. case_decide; lia.
Qed.

Lemma received_cons r x data k :
  rx_inv r -> frame_ready r = true -> 0 <= k <= zlen data -> 1 + k <= payload_length r - payload_used r ->
  received (received r [x] 1) data k = received r (x :: data) (1 + k).
Proof using Type.
  intros Hinv Hr Hk Hroom. destruct (rx_ready _ Hinv Hr) as (_ & Hpl & _ & Hrm).
  destruct (rx_lengths _ Hinv) as [Hml Hcl]. pose proof (rx_control _ Hinv) as Hc. pose proof (rx_message _ Hinv) as Hmsg.
  assert (Hs : slice (x :: data) 0 (1 + k) = x :: slice data 0 k).
  { unfold slice. change (drop (Z.to_nat 0) (x :: data)) with (x :: data). change (drop (Z.to_nat 0) data) with data.
    replace (Z.to_nat (1 + k)) with (S (Z.to_nat k)) by lia. done. }
  assert (Hp : plain (rx_masked r) (mask r) (payload_used r) (x :: slice data 0 k)
    = plain (rx_masked r) (mask r) (payload_used r) [x] ++ plain (rx_masked r) (mask r) (payload_used r + 1) (slice data 0 k)).
  { unfold plain. by destruct (rx_masked r). }
  assert (Hz : zlen (plain (rx_masked r) (mask r) (payload_used r) [x]) = 1) by (by rewrite zlen_plain_bytes).
  assert (Hz2 : zlen (plain (rx_masked r) (mask r) (payload_used r + 1) (slice data 0 k)) = k)
    by (rewrite zlen_plain_bytes, zlen_slice; lia).
  assert (Hsp : forall l off, 0 <= off -> off + (1 + k) <= zlen l ->
    splice (splice l off (plain (rx_masked r) (mask r) (payload_used r) [x])) (off + 1)
      (plain (rx_masked r) (mask r) (payload_used r + 1) (slice data 0 k))
    = splice l off (plain (rx_masked r) (mask r) (payload_used r) [x] ++
        plain (rx_masked r) (mask r) (payload_used r + 1) (slice data 0 k))).
  { intros l off ? ?. rewrite <- splice_app by lia. by rewrite Hz. }
  unfold room in Hrm. unfold received. rewrite Hs, Hp. change (slice [x] 0 1) with [x].
  destruct (is_control (opcode r)) eqn:Hop; simpl; rewrite Hop; simpl.
  - rewrite Hsp by lia. rewrite <- !Z.add_assoc. done.
  - destruct (message r) as [m|]; simpl; [rewrite Hsp by lia |]; by rewrite <- !Z.add_assoc.
Qed.

Lemma cont_end r c data :
  cont ('(r2, c2, ret) ← end_frame callback r c; Some (r2, c2, data, zlen data, ret)) =
  andthen (cont ('(r2, c2, ret) ← end_frame callback r c; Some (r2, c2, [], 0, ret))) data.
Proof using Type.
  destruct (end_frame callback r c) as [[[r2 c2] [rc|]]|] eqn:He; [| | done]; cbn [mbind option_bind cont].
  - symmetry. apply andthen_refused. by apply (end_frame_refusal r c r2 c2).
  - rewrite rx_feed_nil. by rewrite andthen_ok.
Qed.

Lemma payload_cons r c x data :
  rx_inv r -> 2 <= header_used r -> frame_ready r = true -> payload_used r < payload_length r ->
  bytes_wf (x :: data) ->
  cont (feed_payload callback r c (x :: data) (zlen (x :: data))) =
  andthen (cont (feed_payload callback r c [x] 1)) data.
Proof using Type.
  intros Hinv H2 Hr Hleft Hw. pose proof Hw as Hw'. unfold bytes_wf in Hw'. apply List.Forall_cons_iff in Hw' as [Hx Hdw].
  destruct (feed_payload_eq callback r c (x :: data) Hinv Hr Hw) as [-> _].
  destruct (feed_payload_eq callback r c [x] Hinv Hr (Forall_cons_2 _ _ _ Hx (List.Forall_nil _))) as [E1 Hinv1].
  change (zlen [x]) with 1 in E1, Hinv1. rewrite (Z.min_l 1) in E1, Hinv1 by lia. cbv zeta in E1. rewrite E1.
  change (drop (Z.to_nat 1) [x]) with (@nil Z). change (zlen []) with 0. pose proof (zlen_nonneg data). rewrite zlen_cons. cbv zeta.
  set (left := payload_length r - payload_used r) in *.
  assert (Hpu : forall d k, payload_used (received r d k) = payload_used r + k /\ payload_length (received r d k) = payload_length r) by done.
  destruct (Hpu [x] 1) as [Hu1 Hl1]. destruct (decide (left = 1)) as [H1|H1].
  - rewrite (Z.min_r (zlen data + 1)) by lia. rewrite H1. change (drop (Z.to_nat 1) (x :: data)) with data.
    assert (Hsame : received r (x :: data) 1 = received r [x] 1) by done. rewrite Hsame.
    rewrite !decide_True by lia. by rewrite cont_end.
  - rewrite (decide_False (P := payload_used (received r [x] 1) = _)) by lia.
    cbn [cont mbind option_bind]. rewrite rx_feed_nil, andthen_ok.
    set (k := Z.min (zlen data) (left - 1)). replace (Z.min (zlen data + 1) left) with (1 + k) by lia.
    rewrite <- received_cons by (done || lia).
    replace (drop (Z.to_nat (1 + k)) (x :: data)) with (drop (Z.to_nat k) data)
      by (replace (Z.to_nat (1 + k)) with (S (Z.to_nat k)) by lia; done).
    destruct (decide (data = [])) as [->|Hne].
    { change (zlen []) with 0 in k. assert (Hk0 : k = 0) by lia. rewrite Hk0. rewrite received_nil by done.
      rewrite decide_False by lia. done. }
    rewrite (feed_cont (received r [x] 1)) by done. unfold feed_round.
    assert (Hhu : header_used (received r [x] 1) = header_used r) by (unfold received; destruct (is_control _); done).
    assert (Hhn : header_needed (received r [x] 1) = header_needed r) by (unfold received; destruct (is_control _); done).
    destruct (rx_ready _ Hinv Hr) as (Hu & _). rewrite Hhu, Hhn, (decide_False (P := header_used r < 2)), (decide_False (P := header_used r < header_needed r)) by lia.
    unfold feed_ready. change (frame_ready (received r [x] 1)) with (frame_ready r). rewrite Hr.
    destruct (feed_payload_eq callback (received r [x] 1) c data Hinv1 Hr Hdw) as [-> _]. cbv zeta.
    rewrite Hu1, Hl1. replace (Z.min (zlen data) (payload_length r - (payload_used r + 1))) with k by lia. done.
Qed.

Lemma wf_one x : is_u8 x -> bytes_wf [x].
Proof using Type. intros. by apply Forall_cons_2. Qed.

(** A byte of the first two header bytes. *)
Lemma round_early r c x :
  rx_inv r -> header_used r < 2 -> is_u8 x ->
  exists r1, rx_inv r1 /\ forall data, feed_round callback r c (x :: data) (zlen (x :: data)) = Some (r1, c, data, zlen data, None).
Proof using Type.
  intros Hinv H2 Hx.
  assert (Hrun : exists r1, forall data, feed_round callback r c (x :: data) (zlen (x :: data)) = Some (r1, c, data, zlen data, None)).
  { pose proof Hinv as [[Hhz Hhw] _ _ _ _ Hu _ _ _]. unfold EAF_SENDPIN_WS_HEADER_MAX in Hhz.
    unfold feed_round. set (h := <[Z.to_nat (header_used r):=x]> (header r)). assert (Hh : zlen h = 14) by (unfold h; by rewrite zlen_insert).
    destruct (ld_is_Some h 0) as [b0 Hb0]; [lia |]. destruct (ld_is_Some h 1) as [b1 Hb1]; [lia |].
    destruct (decide (header_used r + 1 < 2)) as [H1|H1]; eexists; intros data;
      rewrite (decide_True (P := header_used r < 2)) by done;
      change (ld (x :: data) 0) with (Some x); cbn [mbind option_bind];
      rewrite st_eq by lia; fold h; cbn [mbind option_bind set_header header header_used];
      [rewrite decide_True by done | rewrite decide_False, Hb0, Hb1 by done];
      rewrite zlen_cons, Z.add_simpl_r; cbn [drop mbind option_bind]; done. }
  destruct Hrun as [r1 Hrun]. exists r1. split; [| exact Hrun].
  destruct (feed_round_inv callback r c [x] Hinv (wf_one x Hx)) as (r' & c' & d' & ret & Hrun' & Hinv' & _); [done |].
  rewrite Hrun in Hrun'. by injection Hrun' as <- _ _ _ _.
Qed.

(** States from which one byte is consumed at a time without ending a frame first. *)
Definition steady (r : eaf_sendspin_ws_rx_t) : Prop :=
  header_used r < 2 \/ 2 <= header_used r /\ frame_ready r = true /\ payload_used r < payload_length r.

Lemma feed_cons_steady r c x data :
  rx_inv r -> steady r -> bytes_wf (x :: data) -> feed r c (x :: data) = andthen (feed r c [x]) data.
Proof using Type.
  intros Hinv Hst Hw. pose proof Hw as Hw'. unfold bytes_wf in Hw'. apply List.Forall_cons_iff in Hw' as [Hx Hdw].
  rewrite !feed_cont by (done || by apply wf_one). destruct Hst as [H2|(H2 & Hr & Hleft)].
  - destruct (round_early r c x Hinv H2 Hx) as (r1 & Hinv1 & Hrun). rewrite !Hrun. cbn [cont mbind option_bind].
    by rewrite rx_feed_nil, andthen_ok.
  - destruct (rx_ready _ Hinv Hr) as (Hu & _). unfold feed_round.
    rewrite !(decide_False (P := header_used r < 2)), !(decide_False (P := header_used r < header_needed r)) by lia.
    unfold feed_ready. rewrite Hr. by apply payload_cons.
Qed.

Lemma payload_nil_state r c r1 c1 d n ret :
  rx_inv r -> frame_ready r = true -> 2 <= header_used r -> feed_payload callback r c [] 0 = Some (r1, c1, d, n, ret) ->
  match ret with Some rc => rc <> 0 | None => rx_inv r1 /\ steady r1 end.
Proof using Type.
  intros Hinv Hr H2 Hrun. destruct (rx_ready _ Hinv Hr) as (Hu & Hpl & _).
  destruct (feed_payload_eq callback r c [] Hinv Hr (List.Forall_nil _)) as [E _].
  change (zlen []) with 0 in E. rewrite (Z.min_l 0) in E by lia. rewrite (received_nil r Hr) in E. cbv zeta in E.
  rewrite E in Hrun. case_decide as Hd.
  - destruct (end_frame_inv callback r c Hinv Hd) as (r2 & c2 & ret2 & He & Hinv2 & H0). rewrite He in Hrun.
    cbn [mbind option_bind] in Hrun. injection Hrun as <- <- _ _ <-.
    destruct ret2; [by apply (end_frame_refusal r c r2 c2) |]. split; [done |]. left. rewrite H0 by done. lia.
  - injection Hrun as <- <- _ _ <-. split; [done |]. right. split; [done |]. split; [done |]. lia.
Qed.

Lemma ready_nil_state r c :
  rx_inv r -> 2 <= header_used r -> header_used r = header_needed r ->
  exists r1 c1 d n ret, feed_ready callback r c [] 0 = Some (r1, c1, d, n, ret) /\
    match ret with Some rc => rc <> 0 | None => rx_inv r1 /\ steady r1 end.
Proof using Type.
  intros Hinv H2 Hfull.
  destruct (feed_ready_inv callback r c [] Hinv H2 Hfull (List.Forall_nil _)) as (r1 & c1 & d & ret & Hrun & _).
  change (zlen []) with 0 in Hrun. exists r1, c1, d, (zlen d), ret. split; [done |].
  unfold feed_ready in Hrun. destruct (frame_ready r) eqn:Hr; [by apply (payload_nil_state r c _ _ _ _ _ Hinv Hr H2 Hrun) |].
  destruct (begin_frame_inv r Hinv Hr) as (r2 & rc & Hb & Hinv1 & Hr1 & Hu1 & Hn1 & Hok). rewrite Hb in Hrun.
  cbn [mbind option_bind] in Hrun. case_decide as Hrc; [by injection Hrun as _ _ _ _ <- |].
  destruct (Hok ltac:(lia)) as (Hp0 & Hpl & Hrm). refine (payload_nil_state _ c _ _ _ _ _ _ _ _ Hrun); [| done | simpl; lia].
  destruct Hinv1. split; simpl; try done; try lia. intros _. unfold room in *. simpl. lia.
Qed.

Lemma ready_cons r c x data :
  rx_inv r -> 2 <= header_used r -> header_used r = header_needed r -> bytes_wf (x :: data) ->
  cont (feed_ready callback r c (x :: data) (zlen (x :: data))) = andthen (cont (feed_ready callback r c [x] 1)) data.
Proof using Type.
  intros Hinv H2 Hfull Hw. pose proof Hw as Hw'. unfold bytes_wf in Hw'. apply List.Forall_cons_iff in Hw' as [Hx Hdw].
  rewrite ready_nil by done. change 1 with (zlen [x]). rewrite ready_nil by (done || by apply wf_one).
  destruct (ready_nil_state r c Hinv H2 Hfull) as (r1 & c1 & d & n & ret & -> & Hret). cbn [mbind option_bind].
  destruct ret as [rc|]; [by rewrite andthen_refused |]. destruct Hret. by apply feed_cons_steady.
Qed.

Lemma rx_feed_cons r c x data :
  rx_inv r -> bytes_wf (x :: data) -> feed r c (x :: data) = andthen (feed r c [x]) data.
Proof using Type.
  intros Hinv Hw. pose proof Hw as Hw'. unfold bytes_wf in Hw'. apply List.Forall_cons_iff in Hw' as [Hx Hdw].
  destruct (decide (header_used r < 2)) as [H2|H2]; [apply feed_cons_steady; [done | by left | done] |].
  pose proof (rx_needed r Hinv ltac:(lia)) as Hn. pose proof Hinv as [[Hhz Hhw] _ _ _ _ _ _ _ _].
  change EAF_SENDPIN_WS_HEADER_MAX with 14 in Hhz. pose proof (zlen_nonneg data).
  rewrite !feed_cont by (done || by apply wf_one).
  unfold feed_round. rewrite !(decide_False (P := header_used r < 2)) by done.
  destruct (decide (header_used r < header_needed r)) as [Hneed|Hfull]; [| apply ready_cons; [done | lia | lia | done]].
  set (r1 := set_header (splice (header r) (header_used r) [x]) (header_used r + 1) (header_needed r) r).
  assert (Hnr : frame_ready r = false).
  { destruct (frame_ready r) eqn:E; [| done]. destruct (rx_ready _ Hinv E). lia. }
  assert (Hinv1 : rx_inv r1).
  { destruct Hinv. split; simpl; rewrite ?Hnr; try done; try lia.
    split; [rewrite zlen_splice; change (zlen [x]) with 1; unfold EAF_SENDPIN_WS_HEADER_MAX; lia |].
    apply splice_forall; [done | by apply wf_one]. }
  change (zlen [x]) with 1. rewrite (zlen_cons x data). set (need := header_needed r - header_used r) in *.
  replace (if decide (1 < need) then 1 else need) with 1 by (case_decide; lia).
  rewrite (memcpy_eq (header r) (header_used r) [x] 0 1) by (change (zlen [x]) with 1; lia).
  change (slice [x] 0 1) with [x]. cbn [mbind option_bind]. fold r1.
  destruct (decide (need = 1)) as [H1|H1].
  - replace (if decide (zlen data + 1 < need) then zlen data + 1 else need) with 1 by (case_decide; lia).
    rewrite (memcpy_eq (header r) (header_used r) (x :: data) 0 1) by (rewrite ?zlen_cons; lia).
    change (slice (x :: data) 0 1) with [x]. cbn [mbind option_bind]. fold r1.
    change (drop (Z.to_nat 1) (x :: data)) with data. change (drop (Z.to_nat 1) [x]) with (@nil Z).
    change (header_used r1) with (header_used r + 1). change (header_needed r1) with (header_needed r).
    rewrite !(decide_False (P := header_used r + 1 < header_needed r)) by lia.
    replace (zlen data + 1 - 1) with (zlen data) by lia. change (1 - 1) with 0.
    rewrite ready_nil by (done || simpl; lia).
    destruct (ready_nil_state r1 c Hinv1) as (r2 & c2 & d & n & ret & Hrun & Hret); [simpl; lia | simpl; lia |].
    pose proof (ready_nil r1 c [] Hinv1 ltac:(simpl; lia) ltac:(simpl; lia) (List.Forall_nil _)) as E.
    change (zlen []) with 0 in E. rewrite E, Hrun. cbn [mbind option_bind].
    destruct ret as [rc|]; [by rewrite andthen_refused |]. by rewrite rx_feed_nil, andthen_ok.
  - assert (Hsingle : cont (if decide (header_used r1 < header_needed r1) then Some (r1, c, drop (Z.to_nat 1) [x], 1 - 1, None)
      else feed_ready callback r1 c (drop (Z.to_nat 1) [x]) (1 - 1)) = Some (r1, c, EAF_OK)).
    { rewrite decide_True by (simpl; lia). cbn [cont mbind option_bind]. done. }
    rewrite Hsingle, andthen_ok.
    set (k := Z.min (zlen data) (need - 1)).
    replace (if decide (zlen data + 1 < need) then zlen data + 1 else need) with (1 + k) by (destruct (decide (zlen data + 1 < need)); lia).
    rewrite memcpy_eq by (rewrite ?zlen_cons; lia). cbn [mbind option_bind].
    assert (Hs : slice (x :: data) 0 (1 + k) = [x] ++ slice data 0 k).
    { unfold slice. change (drop (Z.to_nat 0) (x :: data)) with (x :: data). change (drop (Z.to_nat 0) data) with data.
      replace (Z.to_nat (1 + k)) with (S (Z.to_nat k)) by lia. done. }
    pose proof (splice_app (header r) [x] (slice data 0 k) (header_used r)) as Ha. change (zlen [x]) with 1 in Ha.
    rewrite Hs, <- Ha by (rewrite ?zlen_slice; lia). clear Ha.
    replace (drop (Z.to_nat (1 + k)) (x :: data)) with (drop (Z.to_nat k) data)
      by (replace (Z.to_nat (1 + k)) with (S (Z.to_nat k)) by lia; done).
    replace (zlen data + 1 - (1 + k)) with (zlen data - k) by lia.
    destruct (decide (data = [])) as [->|Hne].
    { change (zlen []) with 0 in *. assert (Hk0 : k = 0) by lia. rewrite Hk0.
      change (slice [] 0 0) with (@nil Z). rewrite splice_nil. fold r1.
      change (header_used (set_header ?h ?u ?n r)) with u. rewrite decide_True by (simpl; lia). done. }
    rewrite (feed_cont r1) by done. unfold feed_round.
    change (header_used r1) with (header_used r + 1). change (header_needed r1) with (header_needed r).
    rewrite (decide_False (P := header_used r + 1 < 2)), (decide_True (P := header_used r + 1 < header_needed r)) by lia.
    replace (if decide (zlen data < header_needed r - (header_used r + 1)) then zlen data else header_needed r - (header_used r + 1))
      with k by (destruct (decide (zlen data < header_needed r - (header_used r + 1))); lia).
    rewrite memcpy_eq by (simpl; rewrite ?zlen_splice; change (zlen [x]) with 1; lia). cbn [mbind option_bind].
    change (header r1) with (splice (header r) (header_used r) [x]).
    replace (header_used r + (1 + k)) with (header_used r + 1 + k) by lia. done.
Qed.

Lemma rx_feed_app r c a b :
  rx_inv r -> bytes_wf (a ++ b) -> feed r c (a ++ b) = andthen (feed r c a) b.
Proof using Type.
  revert r c. induction a as [|x a IH]; intros r c Hinv Hw; [by rewrite rx_feed_nil, andthen_ok |].
  pose proof (bytes_wf_app_inv _ _ Hw) as [Ha Hb]. rewrite <- app_comm_cons in *.
  rewrite rx_feed_cons by done. rewrite (rx_feed_cons r c x a) by done.
  unfold bytes_wf in *. apply List.Forall_cons_iff in Hw as [Hx Hw].
  destruct (feed_inv r c [x] Hinv (wf_one x Hx)) as (r1 & c1 & rc & -> & Hinv1). destruct (decide (rc = 0)) as [->|Hrc].
  - change 0 with EAF_OK. rewrite !andthen_ok. by apply IH.
  - by rewrite !(andthen_refused r1 c1 rc).
Qed.

(** ** The public entry point, call after call *)

Fixpoint feed_chunks (r : eaf_sendspin_ws_rx_t) (c : C) (chunks : list (list Z)) : ub (eaf_sendspin_ws_rx_t * C * Z) :=
  match chunks with
  | [] => Some (r, c, EAF_OK)
  | d :: chunks =>
      '(p, (c, rc)) ← eaf_sendspin_ws_rx_feed callback (Some r) (Some d) (zlen d) c;
      let r := default r p in
      if decide (rc <> 0) then Some (r, c, rc) else feed_chunks r c chunks
  end.

Lemma rx_feed_eq r c d :
  rx_inv r ->
  eaf_sendspin_ws_rx_feed callback (Some r) (Some d) (zlen d) c = ('(r1, c1, rc) ← feed r c d; Some (Some r1, (c1, rc))).
Proof using Type.
  intros Hinv. unfold eaf_sendspin_ws_rx_feed, on_ptr. pose proof (rx_message r Hinv) as Hm.
  rewrite decide_False by (intros [E Hc]; by rewrite E in Hm).
  unfold feed. replace (Z.to_nat (zlen d)) with (length d) by (unfold zlen; lia). cbn [mbind option_bind].
  by destruct (feed_loop callback _ r c d (zlen d)) as [[[r1 c1] rc]|].
Qed.

Lemma feed_chunks_eq r c chunks :
  rx_inv r -> bytes_wf (concat chunks) ->
  feed_chunks r c chunks = feed r c (concat chunks) /\
  exists r' c' rc, feed_chunks r c chunks = Some (r', c', rc) /\ rx_inv r'.
Proof using Type.
  revert r c. induction chunks as [|d chunks IH]; intros r c Hinv Hw; [split; [done |]; by eexists _, _, _ |].
  cbn [feed_chunks concat] in *. rewrite rx_feed_eq, rx_feed_app by done. apply bytes_wf_app_inv in Hw as [Hd Hw].
  destruct (feed_inv r c d Hinv Hd) as (r1 & c1 & rc & -> & Hinv1). unfold andthen. cbn [mbind option_bind default from_option id].
  case_decide; [split; [done |]; by eexists _, _, _ |]. by apply IH.
Qed.
End frames.

(** ** Receiving a sequence of frames *)

(** Each frame is acceptable in the state the previous ones leave. *)
Fixpoint frames_ok (cap : Z) (acc : partial) (fs : list frame) : Prop :=
  match fs with
  | [] => True
  | f :: fs => frame_ok cap acc f /\ zlen (f_payload f) < 18446744073709551616 /\ frames_ok cap (assemble acc f).2 fs
  end.

Fixpoint messages (acc : partial) (fs : list frame) : list (Z * list Z) :=
  match fs with
  | [] => []
  | f :: fs => option_list (assemble acc f).1 ++ messages (assemble acc f).2 fs
  end.

(** The last frame has something after its first two bytes. *)
Definition prompt (fs : list frame) : Prop :=
  match list.last fs with Some f => is_masked f = true \/ f_payload f <> [] | None => True end.

(** A callback that records what it is given and never refuses. *)
Definition record_message (seen : list (Z * list Z)) (op : Z) (m : list Z) (n : Z) : list (Z * list Z) * Z :=
  (seen ++ [(op, take (Z.to_nat n) m)], EAF_OK).

Definition wires (fs : list frame) : list Z := concat (wire <$> fs).

Lemma prompt_tail f fs : prompt (f :: fs) -> prompt fs.
Proof. unfold prompt. by destruct fs. Qed.

Lemma prompt_rest f fs : prompt (f :: fs) -> rest_of_header f ++ body f ++ wires fs <> [].
Proof.
  unfold prompt. destruct fs as [|g fs].
  - simpl. intros Hp E. apply app_eq_nil in E as [E1 E2]. apply app_eq_nil in E2 as [E2 _].
    unfold rest_of_header, body, is_masked in *. apply app_eq_nil in E1 as [_ E1]. destruct (f_key f); [done |].
    by destruct Hp.
  - intros _ E. apply app_eq_nil in E as [_ E]. apply app_eq_nil in E as [_ E].
    unfold wires in E. cbn [fmap list_fmap concat] in E. rewrite wire_eq in E. done.
Qed.

Lemma frame_ok_op cap acc f : frame_ok cap acc f -> op_ok f.
Proof.
  intros [_ H]. unfold op_ok. destruct (is_control (f_op f)); [tauto |]. destruct acc as [[? ?]|]; tauto.
Qed.

Lemma wires_wf cap acc fs : frames_ok cap acc fs -> bytes_wf (wires fs).
Proof.
  revert acc. induction fs as [|f fs IH]; intros acc; [constructor |]. intros (Hok & _ & Hrest).
  unfold wires. cbn [fmap list_fmap concat]. apply Forall_app. split; [| by apply (IH (assemble acc f).2)].
  pose proof (frame_ok_op _ _ _ Hok) as Hop. destruct (wire_wf f Hop (proj1 Hok)) as [H1 H2]. rewrite wire_eq.
  apply Forall_cons_2; [by apply b0_u8 |]. apply Forall_cons_2; [apply b1_u8 |]. by apply Forall_app.
Qed.

Lemma rx_feed_frames cap acc fs r seen :
  rx_at cap acc r -> frames_ok cap acc fs -> prompt fs ->
  exists r', feed (Some record_message) r seen (wires fs) = Some (r', seen ++ messages acc fs, EAF_OK) /\
    rx_inv r' /\ header_used r' = 0.
Proof.
  revert acc r seen. induction fs as [|f fs IH]; intros acc r seen Hat Hok Hp.
  { exists r. simpl. rewrite app_nil_r. split; [done |]. by destruct Hat as (? & ? & _). }
  destruct Hok as (Hok & Hbig & Hrest). unfold wires. cbn [fmap list_fmap concat]. fold (wires fs).
  destruct (feed_message (Some record_message) cap acc r seen f (wires fs) Hat Hok Hbig) as (r1 & r2 & Hat1 & ->);
    [by apply (wires_wf cap (assemble acc f).2) | by apply prompt_rest |].
  cbn [messages]. destruct (assemble acc f).1 as [[op bytes]|] eqn:E.
  - unfold deliver, record_message at 1. cbn [fst snd]. rewrite decide_False by (intros H; by apply H).
    replace (take (Z.to_nat (zlen bytes)) bytes) with bytes
      by (unfold zlen; rewrite Nat2Z.id; symmetry; apply take_ge; lia).
    destruct (IH _ r1 (seen ++ [(op, bytes)]) Hat1 Hrest (prompt_tail _ _ Hp)) as (r' & -> & H').
    exists r'. by rewrite <- app_assoc.
  - destruct (IH _ r1 seen Hat1 Hrest (prompt_tail _ _ Hp)) as (r' & -> & H'). by exists r'.
Qed.

Lemma zeros_wf n : bytes_wf (replicate n 0).
Proof. by apply Forall_replicate. Qed.

Lemma rx_init_inv m cap : 0 <= cap <= zlen m -> rx_inv (eaf_sendspin_ws_rx_init (Some m) cap).
Proof.
  intros Hc. constructor; simpl; try done; try lia.
  - split; [done | apply (zeros_wf 14)].
  - split; [done | apply (zeros_wf 4)].
Qed.

Lemma rx_init_at m cap : 0 <= cap <= zlen m -> rx_at cap None (eaf_sendspin_ws_rx_init (Some m) cap).
Proof. intros Hc. split; [by apply rx_init_inv |]. split; [done |]. split; [done |]. by exists m. Qed.

(** The wire form of what [eaf_sendspin_ws_encode] writes. *)
Lemma ws_frame_wire op payload key :
  0 <= op < 16 -> ws_frame op payload key = wire (Frame true op (Some key) payload).
Proof.
  intros Ho. unfold ws_frame, wire, frame_header. cbn [f_fin f_op f_key f_payload]. rewrite Z.mod_small by done.
  by rewrite <- !app_assoc.
Qed.

Lemma slice_splice_all (d xs : list Z) : zlen xs <= zlen d -> slice (splice d 0 xs) 0 (zlen xs) = xs.
Proof.
  intros H. pose proof (zlen_nonneg xs). pose proof (slice_splice d xs 0 0 (zlen xs)) as E.
  change (0 + 0) with 0 in E. rewrite E by lia. by apply slice_full.
Qed.

(** ** Properties *)

(** C6: Whatever bytes arrive, in whatever chunks, and whatever the callback
    answers, every call of the receiver returns (the model's fuel suffices and
    no access leaves a buffer) and its counters stay within its buffers. *)
Theorem ws_rx_safe {C} (callback : option (C -> Z -> list Z -> Z -> C * Z)) (m : list Z) (cap : Z) (c : C) (chunks : list (list Z)) :
  0 <= cap <= zlen m -> bytes_wf (concat chunks) ->
  feed_chunks callback (eaf_sendspin_ws_rx_init (Some m) cap) c chunks
    = feed_chunks callback (eaf_sendspin_ws_rx_init (Some m) cap) c [concat chunks] /\
  exists r' c' rc, feed_chunks callback (eaf_sendspin_ws_rx_init (Some m) cap) c chunks = Some (r', c', rc) /\
    rx_inv r'.
Proof.
  intros Hc Hw. pose proof (rx_init_inv m cap Hc) as Hinv.
  destruct (feed_chunks_eq callback _ c chunks Hinv Hw) as (E1 & r' & c' & rc & Hrun & Hinv').
  assert (Hw1 : bytes_wf (concat [concat chunks])) by (simpl; by rewrite app_nil_r).
  destruct (feed_chunks_eq callback _ c [concat chunks] Hinv Hw1) as (E2 & _).
  split; [rewrite E1, E2; simpl; by rewrite app_nil_r |]. by exists r', c', rc.
Qed.

Lemma ws_rx_safe_witness :
  exists r' c' rc, feed_chunks (Some record_message) (eaf_sendspin_ws_rx_init (Some (replicate 8 0)) 8) [] [[129]; [2; 104; 105; 255]]
    = Some (r', c', rc) /\ rx_inv r'.
Proof.
  destruct (ws_rx_safe (Some record_message) (replicate 8 0) 8 [] [[129]; [2; 104; 105; 255]]) as [_ H];
    [done | by repeat constructor | exact H].
Defined.



(** ** Client to server *)

(** One message through [eaf_sendspin_ws_encode] into a buffer of its own. *)
Definition ws_send (buf : list Z) (msg : Z * list Z * Z) : ub (list Z) :=
  let '(op, payload, key) := msg in
  '(d, w, rc) ← eaf_sendspin_ws_encode (Some buf) (zlen buf) op (Some payload) (zlen payload) key (Some 0);
  if decide (rc <> EAF_OK) then None else Some (slice (default [] d) 0 (default 0 w)).

Definition sendable (cap : Z) (buf : list Z) (msg : Z * list Z * Z) : Prop :=
  let '(op, payload, key) := msg in
  bytes_wf payload /\ zlen (ws_frame op payload key) <= zlen buf /\
  if is_control op then zlen payload <= 125 else (op = 1 \/ op = 2) /\ zlen payload <= cap.

Definition frame_of (msg : Z * list Z * Z) : frame :=
  let '(op, payload, key) := msg in Frame true op (Some key) payload.

Lemma ws_send_wire cap buf msg :
  sendable cap buf msg -> zlen buf < 18446744073709551616 ->
  ws_send buf msg = Some (wire (frame_of msg)) /\ frame_ok cap None (frame_of msg) /\
  zlen (f_payload (frame_of msg)) < 18446744073709551616.
Proof.
  destruct msg as [[op payload] key]. intros (Hw & Hfit & Hop) Hbig. pose proof (zlen_nonneg payload).
  assert (Ho : 0 <= op < 16).
  { apply (op_ok_range (Frame true op (Some key) payload)). unfold op_ok. cbn [f_op]. destruct (is_control op); tauto. }
  assert (Hp : zlen payload < 18446744073709551616).
  { rewrite zlen_ws_frame in Hfit. unfold encode_position in Hfit. repeat case_decide; lia. }
  split; [| split; [split; [done |] | done]; cbn [f_op f_payload frame_of]; by destruct (is_control op)].
  unfold ws_send. rewrite ws_encode_spec by (done || unfold is_u8; lia). rewrite decide_True by done.
  cbn [mbind option_bind default from_option id]. rewrite decide_False by tauto.
  by rewrite slice_splice_all, ws_frame_wire by done.
Qed.

Lemma ws_send_all cap buf msgs :
  Forall (sendable cap buf) msgs -> zlen buf < 18446744073709551616 ->
  mapM (ws_send buf) msgs = Some (wire <$> (frame_of <$> msgs)) /\ frames_ok cap None (frame_of <$> msgs) /\
  messages None (frame_of <$> msgs) = (fun '(op, payload, _) => (op, payload)) <$> msgs /\ prompt (frame_of <$> msgs).
Proof.
  intros Hok Hbig. induction Hok as [|msg msgs Hmsg Hok (IH1 & IH2 & IH3 & IH4)]; [done |].
  destruct (ws_send_wire cap buf msg Hmsg Hbig) as (H1 & H2 & H3). cbn [mapM fmap list_fmap].
  rewrite H1. cbn [mbind option_bind]. rewrite IH1. cbn [mbind option_bind fmap list_fmap].
  assert (Ha : assemble None (frame_of msg) = (Some (let '(op, payload, _) := msg in (op, payload)), None)).
  { destruct msg as [[op payload] key]. unfold assemble. cbn [frame_of f_op f_fin f_payload]. by destruct (is_control op). }
  split; [done |]. split; [split; [done |]; by rewrite Ha |]. split; [cbn [messages]; by rewrite Ha, <- IH3 |].
  unfold prompt in *. destruct msgs as [|g msgs]; [| exact IH4]. simpl. left. by destruct msg as [[? ?] ?].
Qed.

(** C8: Round trip: messages sent through the frame encoder and cut anywhere on the
    way are received unchanged, in order, each exactly once. *)
Theorem ws_roundtrip (m buf : list Z) (cap : Z) (msgs : list (Z * list Z * Z)) :
  0 <= cap <= zlen m -> zlen buf < 18446744073709551616 -> Forall (sendable cap buf) msgs ->
  exists sent, mapM (ws_send buf) msgs = Some sent /\
  forall chunks, concat chunks = concat sent ->
  exists r', feed_chunks (Some record_message) (eaf_sendspin_ws_rx_init (Some m) cap) [] chunks
    = Some (r', (fun '(op, payload, _) => (op, payload)) <$> msgs, EAF_OK).
Proof.
  intros Hc Hbig Hok. destruct (ws_send_all cap buf msgs Hok Hbig) as (H1 & H2 & H3 & H4).
  eexists. split; [exact H1 |]. intros chunks Hch. pose proof (rx_init_inv m cap Hc) as Hinv.
  destruct (feed_chunks_eq (Some record_message) _ [] chunks Hinv) as [-> _].
  { rewrite Hch. by apply (wires_wf cap None). }
  rewrite Hch, <- H3. destruct (rx_feed_frames cap None _ _ [] (rx_init_at m cap Hc) H2 H4) as (r' & Hrun & _).
  unfold wires in Hrun. rewrite Hrun. by exists r'.
Qed.

Lemma ws_roundtrip_witness :
  exists sent, mapM (ws_send (replicate 64 0)) [(1, [104; 105], 305419896); (10, [], 5)] = Some sent /\
  forall chunks, concat chunks = concat sent ->
  exists r', feed_chunks (Some record_message) (eaf_sendspin_ws_rx_init (Some (replicate 8 0)) 8) [] chunks
    = Some (r', [(1, [104; 105]); (10, [])], EAF_OK).
Proof.
  apply (ws_roundtrip (replicate 8 0) (replicate 64 0) 8 [(1, [104; 105], 305419896); (10, [], 5)]); [done | done |].
  repeat constructor; try done; vm_compute; congruence.
Defined.

(** An empty unmasked frame, such as a bare server ping, is not dispatched by
    the call that brings its last byte; the next byte, whatever it is, releases it. *)
Theorem ws_empty_frame_deferred (b : Z) (m : list Z) :
  let feed bytes := (fun '(_, seen, rc) => (seen, rc)) <$>
    feed_chunks (Some record_message) (eaf_sendspin_ws_rx_init (Some m) (zlen m)) [] [bytes] in
  feed [137; 0] = Some ([], EAF_OK) /\ feed [137; 0; b] = Some ([(9, [])], EAF_OK).
Proof.
  cbv zeta. cbn [feed_chunks]. unfold eaf_sendspin_ws_rx_feed, on_ptr. rewrite !decide_False by (intros [? ?]; done).
  split; vm_compute; reflexivity.
Qed.
