(* ===== verification/WsDeliver.v ===== *)
(** What the WebSocket receiver hands to its callback, and the safety of the frame
    encoder on any payload: the two facts about [WsRx] and [WsEncode] that a client
    which answers from inside the callback needs. *)

From S2P Require Import Prelude Types Ring Bytes Text WsEncode WsRx.

(** ** The callback's state *)
Section deliver.
(** [P] holds as long as the callback accepts, [Q] also once it refuses. *)
Context {C : Type} (f : C -> Z -> list Z -> Z -> C * Z) (P Q : C -> Prop) (K : Z).
Context (HK : 125 <= K) (HPQ : forall c, P c -> Q c).
Context (Hf : forall c op p, P c -> zlen p <= K -> let '(c', rc) := f c op p (zlen p) in Q c' /\ (rc = 0 -> P c')).

(** A round that goes on keeps [P]; one that ends the call does not report success. *)
Definition accepted (ret : option Z) (c : C) : Prop := match ret with Some rc => rc <> 0 | None => P c end.

Lemma end_frame_delivers r c r' c' ret :
  rx_inv r -> message_capacity r <= K -> P c -> end_frame (Some f) r c = Some (r', c', ret) ->
  Q c' /\ accepted ret c' /\ message_capacity r' = message_capacity r.
Proof using HK HPQ Hf.
  intros Hinv Hcap Hc. pose proof (rx_lengths _ Hinv) as [Hml Hcl]. pose proof (rx_control _ Hinv) as Hz.
  pose proof (rx_message _ Hinv) as Hm. unfold end_frame. destruct (is_control (opcode r)).
  - pose proof (Hf c (opcode r) (slice (control r) 0 (control_length r)) Hc) as H. rewrite zlen_slice in H by lia.
    specialize (H ltac:(lia)). destruct (f _ _ _ _) as [c1 rc]. destruct H as [HQ HP].
    case_decide; intros [= <- <- <-]; split_and!; auto; unfold accepted; try done; apply HP; lia.
  - destruct (fin r); [| intros [= <- <- <-]; by auto]. cbn [mbind option_bind].
    pose proof (Hf c (message_opcode r) (slice (default [] (message r)) 0 (message_length r)) Hc) as H.
    assert (Hl : zlen (slice (default [] (message r)) 0 (message_length r)) = message_length r).
    { revert Hm. destruct (message r) as [m|]; intros Hm; [change (default [] (Some m)) with m |]; [rewrite zlen_slice; lia |].
      replace (message_length r) with 0 by lia. done. }
    rewrite Hl in H. specialize (H ltac:(lia)). destruct (f _ _ _ _) as [c1 rc]. destruct H as [HQ HP].
    case_decide; intros [= <- <- <-]; split_and!; auto; unfold accepted; try done; apply HP; lia.
Qed.

Lemma received_capacity r data n : message_capacity (received r data n) = message_capacity r.
Proof. unfold received. by destruct (is_control (opcode r)). Qed.

Lemma feed_payload_delivers r c data r' c' data' n ret :
  rx_inv r -> frame_ready r = true -> bytes_wf data -> message_capacity r <= K -> P c ->
  feed_payload (Some f) r c data (zlen data) = Some (r', c', data', n, ret) ->
  Q c' /\ accepted ret c' /\ message_capacity r' = message_capacity r.
Proof using HK HPQ Hf.
  intros Hinv Hr Hw Hcap Hc. destruct (feed_payload_eq (Some f) r c data Hinv Hr Hw) as [-> Hinv1]. cbv zeta.
  set (r1 := received r data _) in *. assert (Hcap1 : message_capacity r1 = message_capacity r) by apply received_capacity.
  case_decide; [| intros [= <- <- <- <- <-]; by auto].
  destruct (end_frame (Some f) r1 c) as [[[r2 c2] ret2]|] eqn:E; [| done]. cbn [mbind option_bind]. intros [= <- <- <- <- <-].
  destruct (end_frame_delivers r1 c r2 c2 ret2 Hinv1 ltac:(lia) Hc E) as (? & ? & ?). split_and!; [done | done | congruence].
Qed.

Lemma begin_frame_capacity r r' rc : begin_frame r = Some (r', rc) -> message_capacity r' = message_capacity r.
Proof.
  unfold begin_frame. destruct (ld (header r) 1) as [b1|]; [| done]. cbn [mbind option_bind].
  destruct (if decide (_ = 126) then _ else _) as [[len position]|]; [| done]. cbn [mbind option_bind].
  destruct (rx_masked r); [destruct (memcpy _ _ _ _ _); [| done] |]; cbn [mbind option_bind];
    (match goal with |- context [let '(_, _) := ?x in _] => let E := fresh "E" in destruct x as [r2 rc2] eqn:E;
       assert (Hc : message_capacity r2 = message_capacity r) by (repeat case_decide; repeat (destruct (negb _) || destruct (_ || _) || destruct (fragmenting _) || destruct (is_control _)); by injection E as <- _) end);
    repeat case_decide; intros [=]; subst; done.
Qed.

Lemma feed_ready_delivers r c data r' c' data' n ret :
  rx_inv r -> 2 <= header_used r -> header_used r = header_needed r -> bytes_wf data -> message_capacity r <= K -> P c ->
  feed_ready (Some f) r c data (zlen data) = Some (r', c', data', n, ret) ->
  Q c' /\ accepted ret c' /\ message_capacity r' = message_capacity r.
Proof using HK HPQ Hf.
  intros Hinv H2 Hfull Hw Hcap Hc. unfold feed_ready. destruct (frame_ready r) eqn:Hr; [by apply feed_payload_delivers |].
  destruct (begin_frame_inv r Hinv Hr) as (r1 & rc & Hb & Hinv1 & Hr1 & Hu1 & Hn1 & Hok). rewrite Hb. cbn [mbind option_bind].
  pose proof (begin_frame_capacity r r1 rc Hb) as Hc1. case_decide as Hrc; [intros [= <- <- <- <- <-]; by auto |]. intros Hrun.
  destruct (Hok ltac:(lia)) as (Hp0 & Hpl & Hrm).
  assert (Hinv2 : rx_inv (set_payload (payload_length r1) (payload_used r1) true r1)).
  { destruct Hinv1. split; simpl; try done; try lia. intros _. unfold room in *. simpl. lia. }
  destruct (feed_payload_delivers _ c data r' c' data' n ret Hinv2 eq_refl Hw ltac:(cbn; lia) Hc Hrun) as (HQ & HP & He).
  split; [done |]. split; [done |]. rewrite He. exact Hc1.
Qed.

Lemma feed_round_delivers r c data r' c' data' n ret :
  rx_inv r -> bytes_wf data -> data <> [] -> message_capacity r <= K -> P c ->
  feed_round (Some f) r c data (zlen data) = Some (r', c', data', n, ret) ->
  Q c' /\ accepted ret c' /\ message_capacity r' = message_capacity r.
Proof using HK HPQ Hf.
  intros Hinv Hw Hne Hcap Hc. unfold feed_round. pose proof (rx_needed _ Hinv) as Hn. destruct (decide (header_used r < 2)).
  - destruct (ld data 0); [| done]. cbn [mbind option_bind]. destruct (st _ _ _) as [h|]; [| done]. cbn [mbind option_bind].
    case_decide; [intros [= <- <- <- <- <-]; by auto |].
    repeat (match goal with |- context [ld ?x ?y] => destruct (ld x y); [| done] end; cbn [mbind option_bind]). intros [= <- <- <- <- <-]; by auto.
  - specialize (Hn ltac:(lia)). pose proof (zlen_nonneg data). destruct (rx_header _ Hinv) as [Hhz Hhw].
    unfold EAF_SENDPIN_WS_HEADER_MAX in Hhz.
    destruct (decide (header_used r < header_needed r)) as [Hneed|]; [| intros Hrun; apply (feed_ready_delivers r c data r' c' data' n ret); done || lia].
    set (take := if decide (zlen data < _) then _ else _).
    assert (Ht : take = Z.min (zlen data) (header_needed r - header_used r)) by (unfold take; case_decide; lia).
    rewrite memcpy_eq by lia. cbn [mbind option_bind].
    destruct (drop_facts data take ltac:(lia) Hw) as [Hdw1 Hdz]. rewrite <- Hdz. cbv zeta. set (r1 := set_header _ _ _ _).
    assert (Hnr : frame_ready r = false).
    { destruct (frame_ready r) eqn:E; [| done]. destruct (rx_ready _ Hinv E). lia. }
    assert (Hinv1 : rx_inv r1).
    { destruct Hinv as [_ H2 H3 H4 H5 H6 H7 H8 H9]. split; simpl; rewrite ?Hnr; try done; try lia.
      split; [rewrite zlen_splice; rewrite ?zlen_slice; unfold EAF_SENDPIN_WS_HEADER_MAX; lia |].
      apply splice_forall; [done | by apply slice_forall]. }
    case_decide as Hmore; simpl in Hmore; [intros [= <- <- <- <- <-]; by auto |]. intros Hrun.
    apply (feed_ready_delivers r1 c (drop (Z.to_nat take) data) r' c' data' n ret Hinv1); done || (simpl; lia).
Qed.

Lemma feed_loop_delivers fuel r c data r' c' rc :
  rx_inv r -> bytes_wf data -> message_capacity r <= K -> P c ->
  feed_loop (Some f) fuel r c data (zlen data) = Some (r', c', rc) ->
  Q c' /\ (rc = EAF_OK -> P c') /\ message_capacity r' = message_capacity r.
Proof using HK HPQ Hf.
  revert r c data. induction fuel as [|fuel IH]; intros r c data Hinv Hw Hcap Hc; cbn [feed_loop]; case_decide as H0; try done;
    try (intros [=]; subst; by auto).
  assert (Hne : data <> []) by (intros ->; by apply H0).
  destruct (feed_round_inv (Some f) r c data Hinv Hw Hne) as (r1 & c1 & data1 & ret & Hrun & Hinv1 & Hw1 & _). rewrite Hrun.
  cbn [mbind option_bind]. destruct (feed_round_delivers r c data r1 c1 data1 _ ret Hinv Hw Hne Hcap Hc Hrun) as (Hq1 & Hp1 & Hk1).
  destruct ret as [rc1|]; [intros [= <- <- <-]; split_and!; [done | done | done] |].
  intros Hrest. destruct (IH r1 c1 data1 Hinv1 Hw1 ltac:(lia) Hp1 Hrest) as (? & ? & ?). split_and!; [done | done | congruence].
Qed.

(** Every message of a chunk is handed over with its length, which never exceeds
    the receiver's buffers. *)
Lemma rx_feed_delivers r c data :
  rx_inv r -> bytes_wf data -> message_capacity r <= K -> P c ->
  exists r' c' rc, eaf_sendspin_ws_rx_feed (Some f) (Some r) (Some data) (zlen data) c = Some (Some r', (c', rc)) /\
    rx_inv r' /\ Q c' /\ (rc = EAF_OK -> P c') /\ message_capacity r' = message_capacity r.
Proof using HK HPQ Hf.
  intros Hinv Hw Hcap Hc. destruct (rx_feed_inv (Some f) r c data Hinv Hw) as (r' & c' & rc & Hrun & Hinv').
  exists r', c', rc. split; [done |]. split; [done |]. revert Hrun. unfold eaf_sendspin_ws_rx_feed, on_ptr.
  case_decide; [intros [= <- <- <-]; by auto |].
  destruct (feed_loop _ _ r c data _) as [[[r2 c2] rc2]|] eqn:E; [| done]. cbn [mbind option_bind]. intros [= <- <- <-].
  exact (feed_loop_delivers _ r c data r2 c2 rc2 Hinv Hw Hcap Hc E).
Qed.
End deliver.

(** ** In order, each once *)
Section order.
Context {C : Type} (f : C -> Z -> list Z -> Z -> C * Z).

(** The callback run on the messages, one after the other; [None] is a refusal. *)
Fixpoint hand_over (c : C) (ms : list (Z * list Z)) : option C :=
  match ms with
  | [] => Some c
  | (op, p) :: ms => let '(c, rc) := f c op p (zlen p) in if decide (rc <> 0) then None else hand_over c ms
  end.

Lemma hand_over_app c ms1 ms2 : hand_over c (ms1 ++ ms2) = c ← hand_over c ms1; hand_over c ms2.
Proof.
  revert c. induction ms1 as [|[op p] ms1 IH]; intros c; [done |]. cbn [hand_over app]. destruct (f c op p (zlen p)) as [c1 rc].
  case_decide; [done |]. apply IH.
Qed.

Lemma feed_frames_handed cap acc fs r c c' :
  rx_at cap acc r -> frames_ok cap acc fs -> prompt fs -> hand_over c (messages acc fs) = Some c' ->
  exists r', feed (Some f) r c (wires fs) = Some (r', c', EAF_OK) /\ rx_inv r' /\ header_used r' = 0.
Proof.
  revert acc r c. induction fs as [|g fs IH]; intros acc r c Hat Hok Hp Hrun.
  { injection Hrun as <-. exists r. split; [done |]. by destruct Hat as (? & ? & _). }
  destruct Hok as (Hok & Hbig & Hrest). unfold wires. cbn [fmap list_fmap concat]. fold (wires fs). cbn [messages] in Hrun.
  destruct (feed_message (Some f) cap acc r c g (wires fs) Hat Hok Hbig) as (r1 & r2 & Hat1 & ->);
    [by apply (wires_wf cap (assemble acc g).2) | by apply prompt_rest |].
  rewrite hand_over_app in Hrun.
  destruct (assemble acc g).1 as [[op bytes]|] eqn:E.
  - change (option_list (Some (op, bytes))) with [(op, bytes)] in Hrun. cbn [hand_over] in Hrun. unfold deliver. destruct (f c op bytes (zlen bytes)) as [c1 rc]. cbn [fst snd].
    destruct (decide (rc <> 0)); [discriminate Hrun |]. cbn [mbind option_bind] in Hrun. by apply (IH (assemble acc g).2 r1 c1 Hat1 Hrest (prompt_tail _ _ Hp)).
  - change (option_list None) with (@nil (Z * list Z)) in Hrun. cbn [hand_over mbind option_bind] in Hrun. by apply (IH (assemble acc g).2 r1 c Hat1 Hrest (prompt_tail _ _ Hp)).
Qed.

(** From any cut of the frames into chunks, the callback runs on the messages. *)
Lemma chunks_handed m cap fs chunks c c' :
  0 <= cap <= zlen m -> frames_ok cap None fs -> prompt fs -> concat chunks = wires fs -> hand_over c (messages None fs) = Some c' ->
  exists r', feed_chunks (Some f) (eaf_sendspin_ws_rx_init (Some m) cap) c chunks = Some (r', c', EAF_OK).
Proof.
  intros Hc Hok Hp Hch Hrun. pose proof (rx_init_inv m cap Hc) as Hinv.
  destruct (feed_chunks_eq (Some f) _ c chunks Hinv) as [-> _].
  { rewrite Hch. by apply (wires_wf cap None). }
  rewrite Hch. destruct (feed_frames_handed cap None fs _ c c' (rx_init_at m cap Hc) Hok Hp Hrun) as (r' & Hr & _). by exists r'.
Qed.
End order.

(** ** Encoding *)

Lemma mask_byte_safe payload position i j d :
  0 <= i < zlen payload -> 0 <= position -> 0 <= j < 4 -> position + 4 + zlen payload <= zlen d ->
  exists d', mask_byte payload position i j d = Some d' /\ zlen d' = zlen d.
Proof.
  intros Hi Hp Hj Hd. unfold mask_byte. destruct (ld_is_Some payload i Hi) as [b ->]. destruct (ld_is_Some d (position + j) ltac:(lia)) as [m ->].
  cbn [mbind option_bind]. rewrite st_eq by lia. eexists. split; [done |]. apply zlen_insert.
Qed.

Lemma mask_word_safe payload position k d :
  0 <= k -> k * 4 + 4 <= zlen payload -> 0 <= position -> position + 4 + zlen payload <= zlen d ->
  exists d', mask_word payload position k d = Some d' /\ zlen d' = zlen d.
Proof.
  intros Hk Hl Hp Hd. unfold mask_word.
  destruct (mask_byte_safe payload position (k * 4) 0 d) as (d1 & -> & H1); [lia.. |]. cbn [mbind option_bind].
  destruct (mask_byte_safe payload position (k * 4 + 1) 1 d1) as (d2 & -> & H2); [lia.. |]. cbn [mbind option_bind].
  destruct (mask_byte_safe payload position (k * 4 + 2) 2 d2) as (d3 & -> & H3); [lia.. |]. cbn [mbind option_bind].
  destruct (mask_byte_safe payload position (k * 4 + 3) 3 d3) as (d4 & -> & H4); [lia.. |]. exists d4. split; [done | lia].
Qed.

Lemma write_length_safe d n :
  0 <= n -> encode_position n <= zlen d -> exists d', write_length d n = Some d' /\ zlen d' = zlen d.
Proof.
  intros Hn. unfold encode_position, write_length. intros Hd. repeat case_decide; try lia.
  - rewrite st_eq by lia. cbn [mbind option_bind]. rewrite st_eq by (rewrite zlen_insert; lia). cbn [mbind option_bind].
    rewrite st_eq by (rewrite !zlen_insert; lia). eexists. split; [done |]. by rewrite !zlen_insert.
  - rewrite st_eq by lia. cbn [mbind option_bind]. pose proof (zlen_be_bytes 8 (u64 n)) as Hz. change (Z.of_nat 8) with 8 in Hz.
    rewrite write_u64_splice by (rewrite ?zlen_insert; lia). eexists. split; [done |].
    rewrite zlen_splice by (rewrite ?zlen_insert; lia). apply zlen_insert.
  - rewrite st_eq by lia. eexists. split; [done |]. apply zlen_insert.
Qed.

Lemma ws_encode_safe d capacity op payload key w :
  capacity <= zlen d ->
  exists d' w' rc, eaf_sendspin_ws_encode (Some d) capacity op (Some payload) (zlen payload) key (Some w) = Some (Some d', Some w', rc) /\
    zlen d' = zlen d /\ (rc = EAF_OK /\ 0 <= w' <= capacity \/ rc = EAF_INVALID).
Proof.
  intros Hcap. pose proof (zlen_nonneg payload) as Hn. unfold eaf_sendspin_ws_encode. cbn [negb andb].
  change (default [] (Some payload)) with payload. set (n := zlen payload) in *.
  assert (Hpos : 2 <= encode_position n) by (unfold encode_position; repeat case_decide; lia).
  set (pos := encode_position n) in *. case_decide as Hfit; [eexists _, _, _; split; [done |]; split; [done | by right] |].
  rewrite st_eq by lia. cbn [mbind option_bind].
  destruct (write_length_safe (<[Z.to_nat 0:=u8 (Z.lor 128 (Z.land op 15))]> d) n) as (d1 & -> & H1);
    [lia | rewrite zlen_insert; fold pos; lia |].
  rewrite zlen_insert in H1. cbn [mbind option_bind].
  do 4 (rewrite st_eq by (rewrite ?zlen_insert; lia); cbn [mbind option_bind]).
  match goal with |- context [for_to (n / 4) _ ?x] => set (d2 := x) end.
  assert (H2 : zlen d2 = zlen d) by (unfold d2; rewrite !zlen_insert; done).
  pose proof (Z.div_mod n 4 ltac:(lia)) as Hdm. pose proof (Z.mod_pos_bound n 4 ltac:(lia)) as Hmb.
  destruct (for_to_inv (fun _ t => zlen t = zlen d) (mask_word payload pos) (n / 4) d2) as (d3 & -> & H3);
    [lia | done | intros j t Hj Ht; destruct (mask_word_safe payload pos j t) as (t' & ? & ?); [lia.. |]; exists t'; split; [done | lia] |].
  cbn [mbind option_bind].
  destruct (for_from_inv (fun _ t => zlen t = zlen d) (fun i d => mask_byte payload pos i (Z.land i 3) d) (Z.to_nat (n mod 4)) (n / 4 * 4) d3)
    as (d4 & -> & H4); [done | |].
  { intros j t Hj Ht. assert (0 <= Z.land j 3 < 4) by (change 3 with (2 ^ 2 - 1); rewrite land_mask_mod by lia; apply Z.mod_pos_bound; lia).
    destruct (mask_byte_safe payload pos j (Z.land j 3) t) as (t' & ? & ?); [lia.. |]. exists t'. split; [done | lia]. }
  cbn [mbind option_bind]. eexists _, _, _. split; [done |]. split; [done |]. left. split; [done | lia].
Qed.
