(* ===== verification/Json.v ===== *)
(** The bounded JSON reader of [apps/sendspin/sendspin_protocol.c] (lines 5-440).

    The message is one array of characters; a [const char *] into it is an index
    and a cursor is the index [p] with the end [e] of the view it walks, so every
    view the reader returns keeps pointing into the caller's buffer. *)

From stdpp Require Import strings.
From S2P Require Import Prelude Types Ring Bytes Text.

Inductive eaf_sendspin_json_type_t :=
  | EAF_SENDPIN_JSON_NULL | EAF_SENDPIN_JSON_BOOL | EAF_SENDPIN_JSON_NUMBER
  | EAF_SENDPIN_JSON_STRING | EAF_SENDPIN_JSON_ARRAY | EAF_SENDPIN_JSON_OBJECT.

#[export] Instance json_type_eq_dec : EqDecision eaf_sendspin_json_type_t.
Proof. solve_decision. Defined.

Record eaf_sendspin_json_value_t := JsonValue {
  type : eaf_sendspin_json_type_t;
  boolean : bool;
  number : Z;                 (* int64_t *)
  string_at : ptr Z;          (* const char *string *)
  string_length : Z;
  raw : ptr Z;
  raw_length : Z
}.

Definition json_zero : eaf_sendspin_json_value_t :=
  JsonValue EAF_SENDPIN_JSON_NULL false 0 None 0 None 0.

(** The characters the reader compares with. *)
Definition c_quote : Z := 34.
Definition c_backslash : Z := 92.
Definition c_comma : Z := 44.
Definition c_minus : Z := 45.
Definition c_dot : Z := 46.
Definition c_colon : Z := 58.
Definition c_lbracket : Z := 91.
Definition c_rbracket : Z := 93.
Definition c_lbrace : Z := 123.
Definition c_rbrace : Z := 125.

Definition is_ws (x : Z) : bool :=
  bool_decide (x = 32) || bool_decide (x = 9) || bool_decide (x = 10) || bool_decide (x = 13).
Definition digit (x : Z) : bool := bool_decide (48 <= x <= 57).
Definition is_exp (x : Z) : bool := bool_decide (x = 101) || bool_decide (x = 69).

Section reader.
Context (b : list Z) (e : Z).

(** [while (p < end && test( *p)) ++p;] *)
Fixpoint skip_while (fuel : nat) (test : Z -> bool) (p : Z) : ub Z :=
  if decide (p < e) then
    x ← ld b p;
    if test x then match fuel with O => None | S fuel => skip_while fuel test (p + 1) end else Some p
  else Some p.
Definition run_while (test : Z -> bool) (p : Z) : ub Z := skip_while (Z.to_nat (e - p)) test p.

Definition skip_ws (p : Z) : ub Z := run_while is_ws p.

(** [p < end && test( *p)] *)
Definition next_is (test : Z -> bool) (p : Z) : ub bool :=
  if decide (p < e) then x ← ld b p; Some (test x) else Some false.
Definition eqc (c x : Z) : bool := bool_decide (x = c).

(** The loop of [scan_string]; returns the closing quote's index. *)
Fixpoint string_loop (fuel : nat) (p : Z) : ub (Z * Z) :=
  if decide (p < e) then
    x ← ld b p;
    match fuel with
    | O => None
    | S fuel =>
        if decide (x = c_backslash) then
          if decide (e - p < 2) then Some (p, EAF_INVALID) else string_loop fuel (p + 2)
        else if decide (x = c_quote) then Some (p, EAF_OK)
        else string_loop fuel (p + 1)
    end
  else Some (p, EAF_INVALID).

(** Cursor, start, length and code; start and length only count on success. *)
Definition scan_string (p : Z) : ub (Z * Z * Z * Z) :=
  open ← next_is (eqc c_quote) p;
  if negb open then Some (p, 0, 0, EAF_INVALID)
  else
    '(q, rc) ← string_loop (Z.to_nat (e - p)) (p + 1);
    if decide (rc <> 0) then Some (q, 0, 0, rc) else Some (q + 1, p + 1, q - (p + 1), EAF_OK).

Definition match_literal (p : Z) (literal : list Z) : ub (Z * Z) :=
  if decide (e - p < zlen literal) then Some (p, EAF_INVALID)
  else
    eq ← memeq b p literal;
    if negb eq then Some (p, EAF_INVALID) else Some (p + zlen literal, EAF_OK).

Definition skip_number (p : Z) : ub (Z * Z) :=
  minus ← next_is (eqc c_minus) p;
  let p := if minus : bool then p + 1 else p in
  ok ← next_is digit p;
  if negb ok then Some (p, EAF_INVALID)
  else
    p ← run_while digit p;
    dot ← next_is (eqc c_dot) p;
    p ← (if dot : bool then run_while digit (p + 1) else Some p);
    ex ← next_is is_exp p;
    if ex : bool then
      sign ← next_is (fun x => eqc 43 x || eqc c_minus x) (p + 1);
      p ← run_while digit (if sign : bool then p + 2 else p + 1);
      Some (p, EAF_OK)
    else Some (p, EAF_OK).

(** [skip_object] and [skip_array] up to their loops: the opening bracket, and
    the empty container. *)
Definition skip_open (close : Z) (loop : Z -> ub (Z * Z)) (p : Z) : ub (Z * Z) :=
  p ← skip_ws (p + 1);
  empty ← next_is (eqc close) p;
  if empty : bool then Some (p + 1, EAF_OK) else loop p.

(** After a member: [','] goes on, the closing bracket ends. *)
Definition separator (close : Z) (p : Z) : ub (Z * option Z) :=
  p ← skip_ws p;
  if decide (p >= e) then Some (p, Some EAF_INVALID)
  else
    x ← ld b p;
    if decide (x = c_comma) then Some (p + 1, None)
    else if decide (x = close) then Some (p + 1, Some EAF_OK)
    else Some (p, Some EAF_INVALID).

(** The colon between a key and its value. *)
Definition colon (p : Z) : ub (Z * Z) :=
  p ← skip_ws p;
  ok ← next_is (eqc c_colon) p;
  if negb ok then Some (p, EAF_INVALID) else Some (p + 1, EAF_OK).

(** [skip_value], [skip_object]'s loop and [skip_array]'s loop. *)
Fixpoint skip_value (fuel : nat) (p : Z) {struct fuel} : ub (Z * Z) :=
  match fuel with
  | O => None
  | S fuel =>
      p ← skip_ws p;
      if decide (p >= e) then Some (p, EAF_INVALID)
      else
        x ← ld b p;
        if decide (x = c_lbrace) then skip_open c_rbrace (object_loop fuel) p
        else if decide (x = c_lbracket) then skip_open c_rbracket (array_loop fuel) p
        else if decide (x = c_quote) then '(p, _, _, rc) ← scan_string p; Some (p, rc)
        else if decide (x = 116) then match_literal p (chars "true")
        else if decide (x = 102) then match_literal p (chars "false")
        else if decide (x = 110) then match_literal p (chars "null")
        else skip_number p
  end
with object_loop (fuel : nat) (p : Z) {struct fuel} : ub (Z * Z) :=
  match fuel with
  | O => None
  | S fuel =>
      '(p, _, _, rc) ← scan_string p;
      if decide (rc <> 0) then Some (p, rc)
      else
        '(p, rc) ← colon p;
        if decide (rc <> 0) then Some (p, rc)
        else
          '(p, rc) ← skip_value fuel p;
          if decide (rc <> 0) then Some (p, rc)
          else
            '(p, stop) ← separator c_rbrace p;
            match stop with Some rc => Some (p, rc) | None => object_loop fuel p end
  end
with array_loop (fuel : nat) (p : Z) {struct fuel} : ub (Z * Z) :=
  match fuel with
  | O => None
  | S fuel =>
      '(p, rc) ← skip_value fuel p;
      if decide (rc <> 0) then Some (p, rc)
      else
        '(p, stop) ← separator c_rbracket p;
        match stop with Some rc => Some (p, rc) | None => array_loop fuel p end
  end.

(** Every call and every round of a loop consumes a character or is the last:
    two units of fuel per character are enough. *)
Definition fuel_for (p : Z) : nat := Z.to_nat (2 * (e - p) + 4).

Definition skip_object (p : Z) : ub (Z * Z) := skip_open c_rbrace (object_loop (fuel_for p)) p.
Definition skip_array (p : Z) : ub (Z * Z) := skip_open c_rbracket (array_loop (fuel_for p)) p.

(** The digit loop of [parse_number]. *)
Fixpoint number_loop (fuel : nat) (p magnitude : Z) (overflow : bool) : ub (Z * Z * bool) :=
  more ← next_is digit p;
  if more : bool then
    match fuel with
    | O => None
    | S fuel =>
        x ← ld b p;
        let d := x - 48 in
        if negb overflow then
          if decide (magnitude > (UINT64_MAX - d) / 10) then number_loop fuel (p + 1) magnitude true
          else number_loop fuel (p + 1) (u64 (u64 (magnitude * 10) + d)) false
        else number_loop fuel (p + 1) magnitude true
    end
  else Some (p, magnitude, overflow).

Definition parse_number (p : Z) : ub (Z * Z * Z) :=
  negative ← next_is (eqc c_minus) p;
  let q := if negative : bool then p + 1 else p in
  ok ← next_is digit q;
  if negb ok then Some (p, 0, EAF_INVALID)
  else
    '(q, magnitude, overflow) ← number_loop (Z.to_nat (e - q)) q 0 false;
    real ← next_is (fun x => eqc c_dot x || is_exp x) q;
    if real : bool then Some (p, 0, EAF_INVALID)
    else
      let out :=
        if negative : bool then
          if overflow || bool_decide (magnitude > INT64_MAX + 1) then INT64_MIN else s64 (u64 (0 - magnitude))
        else if overflow || bool_decide (magnitude > INT64_MAX) then INT64_MAX
        else magnitude in
      Some (q, out, EAF_OK).

(** [out->raw = start; out->raw_length = c->p - start] on success. *)
Definition parsed (start p rc : Z) (v : eaf_sendspin_json_value_t) : Z * eaf_sendspin_json_value_t * Z :=
  if decide (rc <> 0) then (p, v, EAF_INVALID)
  else (p, JsonValue (type v) (boolean v) (number v) (string_at v) (string_length v) (Some start) (p - start), EAF_OK).

Definition json_of (t : eaf_sendspin_json_type_t) : eaf_sendspin_json_value_t := JsonValue t false 0 None 0 None 0.

Definition parse_value (p : Z) : ub (Z * eaf_sendspin_json_value_t * Z) :=
  p ← skip_ws p;
  if decide (p >= e) then Some (p, json_zero, EAF_INVALID)
  else
    x ← ld b p;
    if decide (x = c_lbrace) then '(q, rc) ← skip_object p; Some (parsed p q rc (json_of EAF_SENDPIN_JSON_OBJECT))
    else if decide (x = c_lbracket) then '(q, rc) ← skip_array p; Some (parsed p q rc (json_of EAF_SENDPIN_JSON_ARRAY))
    else if decide (x = c_quote) then
      '(q, start, len, rc) ← scan_string p;
      Some (parsed p q rc (JsonValue EAF_SENDPIN_JSON_STRING false 0
              (if decide (rc = 0) then Some start else None) len None 0))
    else if decide (x = 116) then
      '(q, rc) ← match_literal p (chars "true"); Some (parsed p q rc (JsonValue EAF_SENDPIN_JSON_BOOL true 0 None 0 None 0))
    else if decide (x = 102) then
      '(q, rc) ← match_literal p (chars "false"); Some (parsed p q rc (JsonValue EAF_SENDPIN_JSON_BOOL false 0 None 0 None 0))
    else if decide (x = 110) then
      '(q, rc) ← match_literal p (chars "null"); Some (parsed p q rc (json_of EAF_SENDPIN_JSON_NULL))
    else
      '(q, n, rc) ← parse_number p;
      Some (parsed p q rc (JsonValue EAF_SENDPIN_JSON_NUMBER false n None 0 None 0)).

(** The element loop of [parse_array_membership]. *)
Fixpoint member_loop (fuel : nat) (needle : list Z) (p : Z) (member : bool) : ub (Z * bool * Z) :=
  match fuel with
  | O => None
  | S fuel =>
      p ← skip_ws p;
      quote ← next_is (eqc c_quote) p;
      '(p, member, rc) ←
        (if quote : bool then
           '(p, start, len, rc) ← scan_string p;
           if decide (rc <> 0) then Some (p, member, rc)
           else if negb member && bool_decide (len = zlen needle) then
             eq ← memeq b start needle; Some (p, eq, EAF_OK)
           else Some (p, member, EAF_OK)
         else '(p, rc) ← skip_value (fuel_for p) p; Some (p, member, rc));
      if decide (rc <> 0) then Some (p, member, rc)
      else
        '(p, stop) ← separator c_rbracket p;
        match stop with Some rc => Some (p, member, rc) | None => member_loop fuel needle p member end
  end.

Definition parse_array_membership (p : Z) (needle : list Z) (member : bool) : ub (Z * bool * Z) :=
  p ← skip_ws p;
  array ← next_is (eqc c_lbracket) p;
  if negb array then '(p, rc) ← skip_value (fuel_for p) p; Some (p, false, rc)
  else
    p ← skip_ws (p + 1);
    empty ← next_is (eqc c_rbracket) p;
    if empty : bool then Some (p + 1, member, EAF_OK)
    else member_loop (fuel_for p) needle p member.
End reader.

(** ** Fields of an object *)

Record json_field_t := JsonField {
  key : list Z;               (* const char *key, size_t key_length *)
  needle : ptr (list Z);      (* const char *needle, size_t needle_length *)
  value : ptr eaf_sendspin_json_value_t;   (* a local variable of the caller *)
  member : bool;
  found : bool
}.

Definition field (key : string) : json_field_t := JsonField (chars key) None (Some json_zero) false false.
Definition field_member (key needle : string) : json_field_t :=
  JsonField (chars key) (Some (chars needle)) None false false.

Definition reset_field (f : json_field_t) : json_field_t :=
  JsonField (key f) (needle f) ((fun _ => json_zero) <$> value f) (member f) (found f).

(** [!memcmp(b + at, text, n)] once the lengths agree. *)
Definition key_matches (b : list Z) (start len : Z) (text : list Z) : ub bool :=
  if decide (len = zlen text) then memeq b start text else Some false.

(** The first field not found yet with this key. *)
Fixpoint find_field (b : list Z) (start len : Z) (i : nat) (fields : list json_field_t) : ub (option nat) :=
  match fields with
  | [] => Some None
  | f :: fields =>
      eq ← (if found f then Some false else key_matches b start len (key f));
      if eq : bool then Some (Some i) else find_field b start len (S i) fields
  end.

(** The value of a matched field. *)
Definition parse_field (b : list Z) (e p : Z) (f : json_field_t) : ub (Z * json_field_t * Z) :=
  match needle f with
  | Some n =>
      '(p, m, rc) ← parse_array_membership b e p n (member f);
      Some (p, JsonField (key f) (needle f) (value f) m true, rc)
  | None =>
      _ ← value f;
      '(p, v, rc) ← parse_value b e p;
      Some (p, JsonField (key f) (needle f) (Some v) (member f) true, rc)
  end.

(** The member loop of [scan_fields]. *)
Fixpoint fields_loop (fuel : nat) (b : list Z) (e p : Z) (fields : list json_field_t)
  : ub (Z * list json_field_t * Z) :=
  match fuel with
  | O => None
  | S fuel =>
      p ← skip_ws b e p;
      if decide (p >= e) then Some (p, fields, EAF_INVALID)
      else
        close ← next_is b e (eqc c_rbrace) p;
        if close : bool then Some (p + 1, fields, EAF_OK)
        else
          '(p, start, len, rc) ← scan_string b e p;
          if decide (rc <> 0) then Some (p, fields, rc)
          else
            '(p, rc) ← colon b e p;
            if decide (rc <> 0) then Some (p, fields, rc)
            else
              match_ ← find_field b start len 0 fields;
              '(p, fields, rc) ←
                match match_ with
                | None => '(p, rc) ← skip_value b e (fuel_for e p) p; Some (p, fields, rc)
                | Some i =>
                    f ← fields !! i;
                    '(p, f, rc) ← parse_field b e p f;
                    Some (p, <[i := f]> fields, rc)
                end;
              if decide (rc <> 0) then Some (p, fields, rc)
              else
                '(p, stop) ← separator b e c_rbrace p;
                match stop with Some rc => Some (p, fields, rc) | None => fields_loop fuel b e p fields end
  end.

Definition scan_fields (b : list Z) (e p : Z) (fields : list json_field_t) : ub (Z * list json_field_t * Z) :=
  let fields := reset_field <$> fields in
  p ← skip_ws b e p;
  open ← next_is b e (eqc c_lbrace) p;
  if negb open then Some (p, fields, EAF_INVALID) else fields_loop (fuel_for e p) b e (p + 1) fields.

(** ** Path lookup *)

(** The member loop of [descend]; [segment] is the key looked for. *)
Fixpoint descend_loop (fuel : nat) (b : list Z) (e p : Z) (segment : list Z) (out : eaf_sendspin_json_value_t) (leaf : bool)
  : ub (Z * eaf_sendspin_json_value_t * Z) :=
  match fuel with
  | O => None
  | S fuel =>
      p ← skip_ws b e p;
      if decide (p >= e) then Some (p, out, EAF_INVALID)
      else
        close ← next_is b e (eqc c_rbrace) p;
        if close : bool then Some (p + 1, out, EAF_UNSUPPORTED)
        else
          '(p, start, len, rc) ← scan_string b e p;
          if decide (rc <> 0) then Some (p, out, rc)
          else
            '(p, rc) ← colon b e p;
            if decide (rc <> 0) then Some (p, out, rc)
            else
              eq ← key_matches b start len segment;
              if eq : bool then if leaf : bool then parse_value b e p else Some (p, out, EAF_OK)
              else
                '(p, rc) ← skip_value b e (fuel_for e p) p;
                if decide (rc <> 0) then Some (p, out, rc)
                else
                  '(p, stop) ← separator b e c_rbrace p;
                  match stop with
                  | Some rc => Some (p, out, if decide (rc = EAF_OK) then EAF_UNSUPPORTED else rc)
                  | None => descend_loop fuel b e p segment out leaf
                  end
  end.

Definition descend (b : list Z) (e p : Z) (segment : list Z) (out : eaf_sendspin_json_value_t) (leaf : bool)
  : ub (Z * eaf_sendspin_json_value_t * Z) :=
  p ← skip_ws b e p;
  open ← next_is b e (eqc c_lbrace) p;
  if negb open then Some (p, out, EAF_INVALID) else descend_loop (fuel_for e p) b e (p + 1) segment out leaf.

(** [strchr(s, c)] as an index: [None] is a missing NUL, [Some None] the NULL result. *)
Fixpoint strchr (s : list Z) (c : Z) : ub (option Z) :=
  match s with
  | [] => None
  | x :: s =>
      if decide (x = c) then Some (Some 0)
      else if decide (x = 0) then Some None
      else r ← strchr s c; Some (Z.succ <$> r : option Z)
  end.

(** The segments of the path; [path] is what is left of it from [segment]. *)
Fixpoint get_loop (fuel : nat) (b : list Z) (e p : Z) (path : list Z) (out : eaf_sendspin_json_value_t)
  : ub (eaf_sendspin_json_value_t * Z) :=
  match fuel with
  | O => None
  | S fuel =>
      dot ← strchr path c_dot;
      segment_length ← match dot with Some n => Some n | None => strlen path end;
      let leaf := match dot with None => true | Some _ => false end in
      segment ← ldn path 0 segment_length;
      '(p, out, rc) ← descend b e p segment out leaf;
      if decide (rc <> 0) then Some (out, rc)
      else if leaf then Some (out, EAF_OK)
      else get_loop fuel b e p (drop (Z.to_nat (segment_length + 1)) path) out
  end.

Definition eaf_sendspin_json_get (json : ptr (list Z)) (length : Z) (path : ptr (list Z)) (out : ptr eaf_sendspin_json_value_t)
  : ub (ptr eaf_sendspin_json_value_t * Z) :=
  match json, path, out with
  | Some b, Some path, Some o =>
      first ← ld path 0;
      if decide (first = 0) then Some (out, EAF_INVALID)
      else '(o, rc) ← get_loop (Datatypes.length path) b length 0 path o; Some (Some o, rc)
  | _, _, _ => Some (out, EAF_INVALID)
  end.

(** [b] is the buffer the views of [array] and [value] point into. *)
Definition eaf_sendspin_json_array_contains (b : list Z) (array : ptr eaf_sendspin_json_value_t) (needle : ptr (list Z)) : ub Z :=
  match array, needle with
  | Some a, Some needle =>
      if decide (type a <> EAF_SENDPIN_JSON_ARRAY) then Some 0
      else
        start ← raw a;
        n ← strlen needle;
        text ← ldn needle 0 n;
        '(_, member, _) ← parse_array_membership b (start + raw_length a) start text false;
        Some (if member : bool then 1 else 0)
  | _, _ => Some 0
  end.

(** [text] is a literal. *)
Definition eaf_sendspin_json_string_equals (b : list Z) (value : ptr eaf_sendspin_json_value_t) (text : string) : ub bool :=
  match value with
  | Some v =>
      if decide (type v <> EAF_SENDPIN_JSON_STRING) then Some false
      else if decide (string_length v <> zlen (chars text)) then Some false
      else at_ ← string_at v; memeq b at_ (chars text)
  | None => Some false
  end.

(** ** Safety on arbitrary input *)

Section safety.
Context (b : list Z) (e : Z) (He : e <= zlen b).

(** The cursor moves forward inside the view; [OK] consumes something. *)
Definition moved (p : Z) (r : ub (Z * Z)) : Prop :=
  exists q rc, r = Some (q, rc) /\ p <= q <= e /\ (rc = EAF_INVALID \/ rc = EAF_OK /\ p < q).

Lemma moved_fail p q : p <= q <= e -> moved p (Some (q, EAF_INVALID)).
Proof. intros. exists q, EAF_INVALID. auto. Qed.
Lemma moved_ok p q : p < q <= e -> moved p (Some (q, EAF_OK)).
Proof. intros. exists q, EAF_OK. split; [done |]. split; [lia |]. right. split; [done | lia]. Qed.
Lemma moved_weaken p p' r : p' <= p -> moved p r -> moved p' r.
Proof.
  intros Hp (q & rc & -> & Hq & Hrc). exists q, rc. split; [done |]. split; [lia |].
  destruct Hrc as [?|[? ?]]; [by left | right; split; [done | lia]].
Qed.

Lemma ld_view p : 0 <= p < e -> exists x, ld b p = Some x.
Proof. intros. apply ld_is_Some. lia. Qed.

Lemma skip_while_safe fuel test p :
  0 <= p <= e -> e - p <= Z.of_nat fuel -> exists q, skip_while b e fuel test p = Some q /\ p <= q <= e.
Proof.
  revert p. induction fuel as [|fuel IH]; intros p Hp Hf; cbn [skip_while]; case_decide as Hpe; try (exists p; split; [done | lia]); [lia |].
  destruct (ld_view p ltac:(lia)) as [x ->]. cbn [mbind option_bind]. destruct (test x); [| exists p; split; [done | lia]].
  destruct (IH (p + 1)) as (q & -> & Hq); [lia | lia |]. exists q. split; [done | lia].
Qed.
Lemma run_while_safe test p : 0 <= p <= e -> exists q, run_while b e test p = Some q /\ p <= q <= e.
Proof. intros. apply skip_while_safe; lia. Qed.
Lemma skip_ws_safe p : 0 <= p <= e -> exists q, skip_ws b e p = Some q /\ p <= q <= e.
Proof. apply run_while_safe. Qed.

Lemma next_is_safe test p : 0 <= p <= e -> exists r, next_is b e test p = Some r /\ (r = true -> p < e).
Proof.
  intros. unfold next_is. case_decide; [| by exists false].
  destruct (ld_view p ltac:(lia)) as [x ->]. by exists (test x).
Qed.

Lemma string_loop_safe fuel p :
  0 <= p <= e -> e - p <= Z.of_nat fuel ->
  exists q rc, string_loop b e fuel p = Some (q, rc) /\ p <= q <= e /\ (rc = EAF_INVALID \/ rc = EAF_OK /\ q < e).
Proof.
  revert p. induction fuel as [|fuel IH]; intros p Hp Hf; cbn [string_loop]; case_decide as Hpe;
    try (exists p, EAF_INVALID; split; [done |]; split; [lia | by left]); [lia |].
  destruct (ld_view p ltac:(lia)) as [x ->]. cbn [mbind option_bind]. case_decide; [case_decide |].
  - exists p, EAF_INVALID. split; [done |]. split; [lia | by left].
  - destruct (IH (p + 2)) as (q & rc & -> & Hq & Hrc); [lia | lia |]. exists q, rc. split; [done |]. split; [lia | done].
  - case_decide.
    + exists p, EAF_OK. split; [done |]. split; [lia | by right].
    + destruct (IH (p + 1)) as (q & rc & -> & Hq & Hrc); [lia | lia |]. exists q, rc. split; [done |]. split; [lia | done].
Qed.

Lemma scan_string_safe p :
  0 <= p <= e ->
  exists q s n rc, scan_string b e p = Some (q, s, n, rc) /\ p <= q <= e /\
    (rc = EAF_INVALID \/ rc = EAF_OK /\ p + 2 <= q /\ s = p + 1 /\ 0 <= n /\ q = s + n + 1).
Proof.
  intros Hp. unfold scan_string. destruct (next_is_safe (eqc c_quote) p Hp) as (r & -> & Hr). cbn [mbind option_bind].
  destruct r; cbn [negb]; [| eexists _, _, _, _; split; [done |]; split; [lia | by left]]. specialize (Hr eq_refl).
  destruct (string_loop_safe (Z.to_nat (e - p)) (p + 1)) as (q & rc & -> & Hq & Hrc); [lia | lia |]. cbn [mbind option_bind].
  destruct Hrc as [->|[-> Hlt]]; case_decide as Hd; try done; eexists _, _, _, _; (split; [done |]); (split; [lia |]); [by left |].
  right. split; [done |]. split; [lia |]. split; [done |]. split; lia.
Qed.

Lemma match_literal_safe p lit : 0 <= p <= e -> 0 < zlen lit -> moved p (match_literal b e p lit).
Proof.
  intros. unfold match_literal. case_decide; [apply moved_fail; lia |].
  rewrite memeq_eq by lia. cbn [mbind option_bind]. case_bool_decide; cbn [negb]; [apply moved_ok | apply moved_fail]; lia.
Qed.

Lemma run_while_moves test p :
  0 <= p <= e -> next_is b e test p = Some true -> exists q, run_while b e test p = Some q /\ p < q <= e.
Proof.
  unfold next_is, run_while. intros Hp Hn. case_decide as Hpe; [| done].
  destruct (Z.to_nat (e - p)) as [|n] eqn:En; [lia |]. cbn [skip_while]. rewrite decide_True by done.
  destruct (ld b p) as [x|]; [| done]. cbn [mbind option_bind] in *. injection Hn as ->.
  destruct (skip_while_safe n test (p + 1)) as (q & -> & Hq); [lia | lia |]. exists q. split; [done | lia].
Qed.

Ltac next_step := cbn [mbind option_bind negb]; match goal with
  | |- context [next_is b e ?t ?p] =>
      let r := fresh "r" in let H := fresh "Hr" in let E := fresh "En" in
      destruct (next_is_safe t p ltac:(lia)) as (r & E & H); rewrite E;
      destruct r; try specialize (H eq_refl); cbn [mbind option_bind negb]
  | E : next_is b e ?t ?p = Some true |- context [run_while b e ?t ?p] =>
      let q := fresh "q" in let H := fresh "Hq" in
      destruct (run_while_moves t p ltac:(lia) E) as (q & -> & H); cbn [mbind option_bind]
  | |- context [run_while b e ?t ?p] =>
      let q := fresh "q" in let H := fresh "Hq" in
      destruct (run_while_safe t p ltac:(lia)) as (q & -> & H); cbn [mbind option_bind]
  | |- context [skip_ws b e ?p] =>
      let q := fresh "q" in let H := fresh "Hq" in
      destruct (skip_ws_safe p ltac:(lia)) as (q & -> & H); cbn [mbind option_bind]
  end.

Lemma skip_number_safe p : 0 <= p <= e -> moved p (skip_number b e p).
Proof.
  intros Hp. unfold skip_number. repeat next_step; try (apply moved_fail; lia); apply moved_ok; lia.
Qed.

Lemma skip_open_safe close loop p :
  0 <= p < e -> (forall q, p + 1 <= q <= e -> moved q (loop q)) -> moved p (skip_open b e close loop p).
Proof.
  intros Hp Hloop. unfold skip_open. repeat next_step; [apply moved_ok; lia |].
  apply (moved_weaken q); [lia |]. apply Hloop. lia.
Qed.

Lemma separator_safe close p :
  0 <= p <= e ->
  exists q stop, separator b e close p = Some (q, stop) /\ p <= q <= e /\
    match stop with Some rc => rc = EAF_INVALID \/ rc = EAF_OK /\ p < q | None => p < q end.
Proof.
  intros Hp. unfold separator. next_step. case_decide; [eexists _, _; split; [done |]; split; [lia | by left] |].
  destruct (ld_view q ltac:(lia)) as [x ->]. cbn [mbind option_bind].
  repeat case_decide; eexists _, _; (split; [done |]); (split; [lia |]); [lia | right; split; [done | lia] | by left].
Qed.

Lemma colon_safe p : 0 <= p <= e -> moved p (colon b e p).
Proof. intros Hp. unfold colon. repeat next_step; [apply moved_ok | apply moved_fail]; lia. Qed.

(** Run a sub-reader: on refusal its code is passed on, on success go on from
    a later position. *)
Lemma moved_bind p p' r (k : Z -> ub (Z * Z)) :
  p' <= p -> moved p r -> (forall q, p < q <= e -> moved p' (k q)) ->
  moved p' ('(q, rc) ← r; if decide (rc <> 0) then Some (q, rc) else k q).
Proof.
  intros Hp (q & rc & -> & Hq & Hrc) Hk. cbn [mbind option_bind].
  destruct Hrc as [->|[-> Hlt]]; case_decide as Hd; try done; [apply moved_fail; lia | apply Hk; lia].
Qed.

Lemma after_string p (k : Z -> ub (Z * Z)) :
  0 <= p <= e -> (forall q, p + 2 <= q <= e -> moved p (k q)) ->
  moved p ('(q, _, _, rc) ← scan_string b e p; if decide (rc <> 0) then Some (q, rc) else k q).
Proof.
  intros Hp Hk. destruct (scan_string_safe p Hp) as (q & s & n & rc & -> & Hq & Hrc). cbn [mbind option_bind].
  destruct Hrc as [->|(-> & Hlen & _)]; case_decide as Hd; try done; [apply moved_fail; lia | apply Hk; lia].
Qed.

Lemma after_separator p p' close (loop : Z -> ub (Z * Z)) :
  p' < p -> 0 <= p <= e -> (forall q, p < q <= e -> moved q (loop q)) ->
  moved p' ('(q, stop) ← separator b e close p; match stop with Some rc => Some (q, rc) | None => loop q end).
Proof.
  intros Hp' Hp Hk. destruct (separator_safe close p Hp) as (q & stop & -> & Hq & Hs). cbn [mbind option_bind].
  destruct stop as [rc|]; [destruct Hs as [->|[-> ?]]; [apply moved_fail | apply moved_ok]; lia |].
  apply (moved_weaken q); [lia |]. apply Hk. lia.
Qed.

Lemma skip_safe fuel :
  (forall p, 0 <= p <= e -> 2 * (e - p) + 1 <= Z.of_nat fuel -> moved p (skip_value b e fuel p)) /\
  (forall p, 0 <= p <= e -> 2 * (e - p) + 2 <= Z.of_nat fuel -> moved p (object_loop b e fuel p)) /\
  (forall p, 0 <= p <= e -> 2 * (e - p) + 2 <= Z.of_nat fuel -> moved p (array_loop b e fuel p)).
Proof.
  induction fuel as [|fuel (IHv & IHo & IHa)]; [repeat split; intros; lia |].
  split; [| split]; intros p Hp Hf; cbn [skip_value object_loop array_loop].
  - next_step. apply (moved_weaken q); [lia |]. case_decide; [apply moved_fail; lia |].
    destruct (ld_view q ltac:(lia)) as [x ->]. cbn [mbind option_bind].
    repeat case_decide; [| | | apply match_literal_safe; done || lia.. | apply skip_number_safe; lia].
    + apply skip_open_safe; [lia |]. intros. apply IHo; lia.
    + apply skip_open_safe; [lia |]. intros. apply IHa; lia.
    + destruct (scan_string_safe q ltac:(lia)) as (q1 & s & n & rc & -> & Hq1 & Hrc). cbn [mbind option_bind].
      destruct Hrc as [->|(-> & Hlen & _)]; [apply moved_fail | apply moved_ok]; lia.
  - apply after_string; [lia |]. intros q Hq.
    apply (moved_bind q); [lia | apply colon_safe; lia |]. intros q1 Hq1.
    apply (moved_bind q1); [lia | apply IHv; lia |]. intros q2 Hq2.
    apply after_separator; [lia | lia |]. intros. apply IHo; lia.
  - apply (moved_bind p); [lia | apply IHv; lia |]. intros q2 Hq2.
    apply after_separator; [lia | lia |]. intros. apply IHa; lia.
Qed.

Lemma skip_value_safe p : 0 <= p <= e -> moved p (skip_value b e (fuel_for e p) p).
Proof. intros. apply skip_safe; unfold fuel_for; lia. Qed.
Lemma skip_object_safe p : 0 <= p < e -> moved p (skip_object b e p).
Proof. intros. apply skip_open_safe; [done |]. intros. apply skip_safe; unfold fuel_for; lia. Qed.
Lemma skip_array_safe p : 0 <= p < e -> moved p (skip_array b e p).
Proof. intros. apply skip_open_safe; [done |]. intros. apply skip_safe; unfold fuel_for; lia. Qed.

Lemma number_loop_safe fuel p m o :
  0 <= p <= e -> e - p <= Z.of_nat fuel -> 0 <= m <= UINT64_MAX ->
  exists q m' o', number_loop b e fuel p m o = Some (q, m', o') /\ p <= q <= e /\ 0 <= m' <= UINT64_MAX /\
    (next_is b e digit p = Some true -> p < q).
Proof.
  revert p m o. induction fuel as [|fuel IH]; intros p m o Hp Hf Hm; cbn [number_loop]; next_step;
    try (eexists _, _, _; split; [done |]; split; [lia | by split]); [lia |].
  pose proof En as En'. unfold next_is in En. case_decide; [| done]. destruct (ld b p) as [x|] eqn:Hx; [| done].
  cbn [mbind option_bind] in *. injection En as Hdig. unfold digit in Hdig. apply bool_decide_eq_true in Hdig.
  assert (Hgo : forall m o, 0 <= m <= UINT64_MAX -> exists q m' o', number_loop b e fuel (p + 1) m o = Some (q, m', o') /\
    p <= q <= e /\ 0 <= m' <= UINT64_MAX /\ (Some true = Some true -> p < q)).
  { intros m1 o1 Hm1. destruct (IH (p + 1) m1 o1) as (q & m' & o' & -> & Hq & Hm' & _); [lia | lia | done |].
    exists q, m', o'. split; [done |]. split; [lia |]. split; [done | lia]. }
  destruct o; cbn [negb]; [by apply Hgo |]. case_decide; apply Hgo; [done |]. word.
Qed.

(** The value [parse_number] computes from the digits. *)
Definition saturate (negative overflow : bool) (magnitude : Z) : Z :=
  if negative then if overflow || bool_decide (magnitude > INT64_MAX + 1) then INT64_MIN else s64 (u64 (0 - magnitude))
  else if overflow || bool_decide (magnitude > INT64_MAX) then INT64_MAX else magnitude.

Lemma saturate_range neg o m : 0 <= m <= UINT64_MAX -> is_s64 (saturate neg o m).
Proof. unfold saturate. destruct neg, o; repeat case_bool_decide; cbn [orb]; word. Qed.

Lemma parse_number_safe p :
  0 <= p <= e ->
  exists q n rc, parse_number b e p = Some (q, n, rc) /\ p <= q <= e /\
    (rc = EAF_INVALID \/ rc = EAF_OK /\ p < q /\ is_s64 n).
Proof.
  intros Hp. unfold parse_number. repeat next_step; try (eexists _, _, _; split; [done |]; split; [lia | by left]).
  all: match goal with |- context [number_loop b e ?n ?q 0 false] =>
    destruct (number_loop_safe n q 0 false) as (q1 & m & o & Hrun & Hq1 & Hm & Hlt); [lia | lia | word | rewrite Hrun] end.
  all: repeat next_step; try (eexists _, _, _; split; [done |]; split; [lia | by left]).
  all: eexists _, _, _; split; [done |]; split; [lia |]; right; split; [done |]; split; [specialize (Hlt ltac:(done)); lia |].
  - by apply (saturate_range true).
  - by apply (saturate_range false).
Qed.

(** The views of a value lie between [lo] and [hi]. *)
Definition view (lo hi : Z) (v : eaf_sendspin_json_value_t) : Prop :=
  is_s64 (number v) /\
  (exists s, raw v = Some s /\ lo <= s /\ 0 < raw_length v /\ s + raw_length v <= hi) /\
  (type v = EAF_SENDPIN_JSON_STRING -> exists s, string_at v = Some s /\ lo <= s /\ 0 <= string_length v /\ s + string_length v <= hi).

Definition parsed_ok (p : Z) (r : ub (Z * eaf_sendspin_json_value_t * Z)) : Prop :=
  exists q v rc, r = Some (q, v, rc) /\ p <= q <= e /\ (rc = EAF_INVALID \/ rc = EAF_OK /\ p < q /\ view p q v).

Lemma parsed_safe p q rc v :
  p <= q <= e -> (rc = EAF_INVALID \/ rc = EAF_OK /\ p < q) -> is_s64 (number v) ->
  (rc = EAF_OK -> type v = EAF_SENDPIN_JSON_STRING ->
    exists s, string_at v = Some s /\ p <= s /\ 0 <= string_length v /\ s + string_length v <= q) ->
  parsed_ok p (Some (parsed p q rc v)).
Proof.
  intros Hq Hrc Hn Hstr. unfold parsed. destruct Hrc as [->|[-> Hlt]]; case_decide as Hd; try done.
  - exists q, v, EAF_INVALID. split; [done |]. split; [lia | by left].
  - eexists _, _, _. split; [done |]. split; [lia |]. right. split; [done |]. split; [done |].
    split; [done |]. split; [exists p; cbn [raw raw_length]; split; [done | lia] |]. cbn [type string_at string_length]. auto.
Qed.

Lemma parsed_moved p r v :
  moved p r -> type v <> EAF_SENDPIN_JSON_STRING -> is_s64 (number v) ->
  parsed_ok p ('(q, rc) ← r; Some (parsed p q rc v)).
Proof.
  intros (q & rc & -> & Hq & Hrc) Ht Hn. cbn [mbind option_bind]. apply parsed_safe; [done | done | done |].
  intros _ ?. by destruct Ht.
Qed.

Lemma parse_value_safe p : 0 <= p <= e -> parsed_ok p (parse_value b e p).
Proof.
  intros Hp. unfold parse_value. next_step.
  assert (Hw : forall r, parsed_ok q r -> parsed_ok p r).
  { intros r (q1 & v & rc & -> & Hq1 & Hrc). exists q1, v, rc. split; [done |]. split; [lia |].
    destruct Hrc as [?|(? & ? & Hn & (s & ? & ?) & Hs)]; [by left |]. right. split; [done |]. split; [lia |].
    split; [done |]. split; [exists s; split; [done | lia] |]. intros Ht. destruct (Hs Ht) as (t & ? & ?).
    exists t. split; [done | lia]. }
  apply Hw. case_decide; [eexists _, _, _; split; [done |]; split; [lia | by left] |].
  destruct (ld_view q ltac:(lia)) as [x ->]. cbn [mbind option_bind]. repeat case_decide.
  - apply parsed_moved; [apply skip_object_safe; lia | done | by split].
  - apply parsed_moved; [apply skip_array_safe; lia | done | by split].
  - destruct (scan_string_safe q ltac:(lia)) as (q1 & s & n & rc & -> & Hq1 & Hrc). cbn [mbind option_bind].
    apply parsed_safe; [lia | destruct Hrc as [->|(-> & ? & _)]; [by left | right; split; [done | lia]] | by split |].
    intros -> _. cbn [string_at string_length]. rewrite decide_True by done. exists s. split; [done |].
    destruct Hrc as [?|(_ & ? & ? & ? & ?)]; [done | lia].
  - apply parsed_moved; [by apply match_literal_safe; [lia |] | done | by split].
  - apply parsed_moved; [by apply match_literal_safe; [lia |] | done | by split].
  - apply parsed_moved; [by apply match_literal_safe; [lia |] | done | by split].
  - destruct (parse_number_safe q ltac:(lia)) as (q1 & n & rc & -> & Hq1 & Hrc). cbn [mbind option_bind].
    destruct Hrc as [->|(-> & Hlt & Hn)].
    + eexists _, _, _. split; [done |]. split; [lia | by left].
    + apply parsed_safe; [lia | by right | done | done].
Qed.

Lemma key_matches_safe start len text :
  0 <= start -> 0 <= len -> start + len <= e -> exists r, key_matches b start len text = Some r.
Proof.
  intros. unfold key_matches. case_decide; [| by exists false]. rewrite memeq_eq by lia. by eexists.
Qed.

Lemma member_loop_safe fuel needle p m :
  0 <= p <= e -> e - p < Z.of_nat fuel ->
  exists q m' rc, member_loop b e fuel needle p m = Some (q, m', rc) /\ p <= q <= e /\ (rc = EAF_INVALID \/ rc = EAF_OK /\ p < q).
Proof.
  revert p m. induction fuel as [|fuel IH]; intros p m Hp Hf; [lia |]. cbn [member_loop]. next_step.
  assert (Hsep : forall q1 m1, q < q1 <= e -> exists q2 m' rc,
    ('(p, stop) ← separator b e c_rbracket q1;
     match stop with Some rc => Some (p, m1, rc) | None => member_loop b e fuel needle p m1 end) = Some (q2, m', rc) /\
    p <= q2 <= e /\ (rc = EAF_INVALID \/ rc = EAF_OK /\ p < q2)).
  { intros q1 m1 Hq1. destruct (separator_safe c_rbracket q1 ltac:(lia)) as (q2 & stop & -> & Hq2 & Hs). cbn [mbind option_bind].
    destruct stop as [rc|]; [eexists _, _, _; split; [done |]; split; [lia | destruct Hs as [?|[? ?]]; [by left | right; split; [done | lia]]] |].
    destruct (IH q2 m1) as (q3 & m' & rc & -> & Hq3 & Hrc); [lia | lia |]. eexists _, _, _. split; [done |]. split; [lia |].
    destruct Hrc as [?|[? ?]]; [by left | right; split; [done | lia]]. }
  next_step.
  - destruct (scan_string_safe q ltac:(lia)) as (q1 & s & n & rc & -> & Hq1 & Hrc). cbn [mbind option_bind].
    destruct Hrc as [->|(-> & Hq2len & -> & Hn & Hq1')].
    + rewrite decide_True by done. cbn [mbind option_bind]. rewrite decide_True by done.
      eexists _, _, _. split; [done |]. split; [lia | by left].
    + rewrite (decide_False (P := EAF_OK <> 0)) by (intros HH; by apply HH).
      destruct (negb m && bool_decide (n = zlen needle)) eqn:Eq.
      * apply andb_prop in Eq as [_ Eq%bool_decide_eq_true]. rewrite memeq_eq by lia. cbn [mbind option_bind].
        rewrite decide_False by (intros HH; by apply HH). apply Hsep. lia.
      * cbn [mbind option_bind]. rewrite decide_False by (intros HH; by apply HH). apply Hsep. lia.
  - destruct (skip_value_safe q ltac:(lia)) as (q1 & rc & -> & Hq1 & Hrc). cbn [mbind option_bind].
    destruct Hrc as [->|[-> Hlt]].
    + rewrite decide_True by done. eexists _, _, _. split; [done |]. split; [lia | by left].
    + rewrite decide_False by (intros HH; by apply HH). apply Hsep. lia.
Qed.

Lemma membership_safe needle p m :
  0 <= p <= e ->
  exists q m' rc, parse_array_membership b e p needle m = Some (q, m', rc) /\ p <= q <= e /\ (rc = EAF_INVALID \/ rc = EAF_OK /\ p < q).
Proof.
  intros Hp. unfold parse_array_membership. repeat next_step.
  - eexists _, _, _. split; [done |]. split; [lia |]. right. split; [done | lia].
  - destruct (member_loop_safe (fuel_for e q0) needle q0 m) as (q1 & m' & rc & -> & Hq1 & Hrc); [lia | unfold fuel_for; lia |].
    eexists _, _, _. split; [done |]. split; [lia |]. destruct Hrc as [?|[? ?]]; [by left | right; split; [done | lia]].
  - destruct (skip_value_safe q ltac:(lia)) as (q1 & rc & -> & Hq1 & Hrc). cbn [mbind option_bind].
    eexists _, _, _. split; [done |]. split; [lia |]. destruct Hrc as [?|[? ?]]; [by left | right; split; [done | lia]].
Qed.

(** A field the scanner may have filled. *)
Definition field_ok (lo : Z) (f : json_field_t) : Prop :=
  (needle f = None -> value f <> None) /\ (forall v, value f = Some v -> v = json_zero \/ view lo e v).

Definition same_field (f g : json_field_t) : Prop :=
  key f = key g /\ needle f = needle g /\ (value f = None <-> value g = None).

Lemma find_field_safe start len i fields :
  0 <= start -> 0 <= len -> start + len <= e ->
  exists r, find_field b start len i fields = Some r /\
    forall k, r = Some k -> (i <= k < i + length fields)%nat.
Proof.
  intros Hs Hl He2. revert i. induction fields as [|f fields IH]; intros i; cbn [find_field]; [by exists None |].
  assert (Heq : exists m, (if found f then Some false else key_matches b start len (key f)) = Some m).
  { destruct (found f); [by exists false | by apply key_matches_safe]. }
  destruct Heq as [m ->]. cbn [mbind option_bind]. destruct m.
  - eexists. split; [done |]. intros k [= <-]. simpl. lia.
  - destruct (IH (S i)) as (r & -> & Hr). exists r. split; [done |]. intros k Hk. specialize (Hr k Hk). simpl. lia.
Qed.

Lemma parse_field_safe lo p f :
  0 <= lo <= p -> p <= e -> field_ok lo f ->
  exists q f' rc, parse_field b e p f = Some (q, f', rc) /\ p <= q <= e /\
    (rc = EAF_INVALID \/ rc = EAF_OK /\ p < q /\ field_ok lo f') /\ same_field f f'.
Proof.
  intros Hlo Hp [Hn Hv]. unfold parse_field. destruct (needle f) as [nd|] eqn:En.
  - destruct (membership_safe nd p (member f) ltac:(lia)) as (q & m & rc & -> & Hq & Hrc). cbn [mbind option_bind].
    eexists _, _, _. split; [done |]. split; [lia |]. split; [| by rewrite <- En].
    destruct Hrc as [?|[-> ?]]; [by left | right]. split; [done |]. split; [done |]. by split.
  - destruct (value f) as [v0|] eqn:Ev; [| by destruct (Hn eq_refl)]. cbn [mbind option_bind].
    destruct (parse_value_safe p ltac:(lia)) as (q & v & rc & -> & Hq & Hrc). cbn [mbind option_bind].
    eexists _, _, _. split; [done |]. split; [lia |]. split; [| split; [done |]; split; [by rewrite En | by rewrite Ev]].
    destruct Hrc as [?|(-> & Hlt & Hw1 & (s & ? & ?) & Hs)]; [by left | right]. split; [done |]. split; [done |]. split; [done |].
    intros v1 [= <-]. right. split; [done |]. split; [exists s; split; [done | lia] |]. intros Ht. destruct (Hs Ht) as (t & ? & ?).
    exists t. split; [done | lia].
Qed.

Lemma same_field_refl f : same_field f f.
Proof. by repeat split. Qed.
Lemma same_fields_refl fs : Forall2 same_field fs fs.
Proof. induction fs; constructor; auto using same_field_refl. Qed.
Lemma same_field_trans f g h : same_field f g -> same_field g h -> same_field f h.
Proof. intros (? & ? & ?) (? & ? & ?). split; [congruence |]. split; [congruence | tauto]. Qed.
Lemma same_fields_trans fs gs hs : Forall2 same_field fs gs -> Forall2 same_field gs hs -> Forall2 same_field fs hs.
Proof.
  intros H. revert hs. induction H; intros hs H'; inversion H'; subst; constructor; eauto using same_field_trans.
Qed.
Lemma same_fields_insert fs i f f' : fs !! i = Some f -> same_field f f' -> Forall2 same_field fs (<[i := f']> fs).
Proof.
  revert i. induction fs as [|g fs IH]; intros [|i] Hi Hs; try done; simpl in *.
  - injection Hi as ->. constructor; [done | apply same_fields_refl].
  - constructor; [apply same_field_refl | by apply IH].
Qed.

Definition fields_post (lo p : Z) (fields : list json_field_t) (r : ub (Z * list json_field_t * Z)) : Prop :=
  exists q fields' rc, r = Some (q, fields', rc) /\ p <= q <= e /\
    (rc = EAF_INVALID \/ rc = EAF_OK /\ Forall (field_ok lo) fields') /\ Forall2 same_field fields fields'.

Lemma fields_loop_safe fuel lo p fields :
  0 <= lo <= p -> p <= e -> e - p < Z.of_nat fuel -> Forall (field_ok lo) fields ->
  fields_post lo p fields (fields_loop fuel b e p fields).
Proof.
  revert p fields. induction fuel as [|fuel IH]; intros p fields Hlo Hp Hf Hok; [lia |]. cbn [fields_loop]. next_step.
  assert (Hfail : forall q1, q <= q1 <= e -> forall fields1, Forall2 same_field fields fields1 ->
    fields_post lo p fields (Some (q1, fields1, EAF_INVALID))).
  { intros q1 Hq1 fields1 Hs. eexists _, _, _. split; [done |]. split; [lia |]. by split; [left |]. }
  case_decide; [by apply Hfail; [lia | apply same_fields_refl] |]. next_step.
  { eexists _, _, _. split; [done |]. split; [lia |]. split; [by right | apply same_fields_refl]. }
  destruct (scan_string_safe q ltac:(lia)) as (q1 & s & n & rc & -> & Hq1 & Hrc). cbn [mbind option_bind].
  destruct Hrc as [->|(-> & Hq2len & -> & Hn & Hq1')]; [rewrite decide_True by done; by apply Hfail; [lia | apply same_fields_refl] |].
  rewrite decide_False by (intros HH; by apply HH).
  destruct (colon_safe q1 ltac:(lia)) as (q2 & rc & -> & Hq2 & Hrc). cbn [mbind option_bind].
  destruct Hrc as [->|[-> Hlt]]; [rewrite decide_True by done; by apply Hfail; [lia | apply same_fields_refl] |].
  rewrite decide_False by (intros HH; by apply HH).
  destruct (find_field_safe (q + 1) n 0 fields ltac:(lia) ltac:(lia) ltac:(lia)) as (r & -> & Hfind). cbn [mbind option_bind].
  assert (Hval : exists q3 fields3 rc, match r with
      | None => '(p, rc) ← skip_value b e (fuel_for e q2) q2; Some (p, fields, rc)
      | Some i => f ← fields !! i; '(p, f, rc) ← parse_field b e q2 f; Some (p, <[i := f]> fields, rc)
      end = Some (q3, fields3, rc) /\ q2 <= q3 <= e /\ (rc = EAF_INVALID \/ rc = EAF_OK /\ Forall (field_ok lo) fields3) /\
      Forall2 same_field fields fields3).
  { destruct r as [i|].
    - destruct (lookup_lt_is_Some_2 fields i) as [f Hi]; [by apply Hfind |]. rewrite Hi. cbn [mbind option_bind].
      destruct (parse_field_safe lo q2 f ltac:(lia) ltac:(lia) (proj1 (Forall_lookup _ _) Hok _ _ Hi)) as (q3 & f' & rc & -> & Hq3 & Hrc & Hsame).
      cbn [mbind option_bind]. eexists _, _, _. split; [done |]. split; [lia |]. split; [| by eapply same_fields_insert].
      destruct Hrc as [?|(-> & _ & Hf')]; [by left | right; split; [done | by apply Forall_insert]].
    - destruct (skip_value_safe q2 ltac:(lia)) as (q3 & rc & -> & Hq3 & Hrc). cbn [mbind option_bind].
      eexists _, _, _. split; [done |]. split; [lia |]. split; [| apply same_fields_refl].
      destruct Hrc as [?|[-> _]]; [by left | by right]. }
  destruct Hval as (q3 & fields3 & rc & -> & Hq3 & Hrc & Hsame). cbn [mbind option_bind].
  destruct Hrc as [->|[-> Hok3]]; [rewrite decide_True by done; apply Hfail; [lia | done] |].
  rewrite decide_False by (intros HH; by apply HH).
  destruct (separator_safe c_rbrace q3 ltac:(lia)) as (q4 & stop & -> & Hq4 & Hs). cbn [mbind option_bind].
  destruct stop as [rc|].
  - destruct Hs as [->|[-> ?]]; [apply Hfail; [lia | done] |]. eexists _, _, _. split; [done |]. split; [lia |].
    split; [by right | done].
  - destruct (IH q4 fields3) as (q5 & fields5 & rc & -> & Hq5 & Hrc & Hsame5); [lia | lia | lia | done |].
    eexists _, _, _. split; [done |]. split; [lia |]. split; [done |]. by eapply same_fields_trans.
Qed.

Lemma reset_field_ok lo f : (needle f = None -> value f <> None) -> field_ok lo (reset_field f).
Proof. intros Hn. split; simpl; [intros E; specialize (Hn E); by destruct (value f) |]. destruct (value f); [| done]. intros v [= <-]. by left. Qed.

(** Every scan of an object returns, and on success every view it filled lies
    between the start of the scan and the end of the view. *)
Lemma scan_fields_safe p fields :
  0 <= p <= e -> Forall (fun f => needle f = None -> value f <> None) fields ->
  fields_post p p (reset_field <$> fields) (scan_fields b e p fields).
Proof.
  intros Hp Hok. unfold scan_fields. repeat next_step.
  - assert (Hok2 : Forall (field_ok p) (reset_field <$> fields)) by (apply Forall_fmap; refine (List.Forall_impl _ _ Hok); intros; by apply reset_field_ok).
    destruct (fields_loop_safe (fuel_for e q) p (q + 1) (reset_field <$> fields)) as (q1 & fs & rc & -> & Hq1 & Hrc & Hs);
      [lia | lia | unfold fuel_for; lia | done |].
    eexists _, _, _. split; [done |]. split; [lia | done].
  - eexists _, _, _. split; [done |]. split; [lia |]. split; [by left | apply same_fields_refl].
Qed.

Definition get_post (p : Z) (leaf : bool) (r : ub (Z * eaf_sendspin_json_value_t * Z)) : Prop :=
  exists q v rc, r = Some (q, v, rc) /\ p <= q <= e /\
    (rc = EAF_INVALID \/ rc = EAF_UNSUPPORTED \/ rc = EAF_OK /\ (leaf = true -> view p e v)).

Lemma view_weaken lo hi lo' hi' v : lo' <= lo -> hi <= hi' -> view lo hi v -> view lo' hi' v.
Proof.
  intros Hlo Hhi (Hn & (s & ? & ?) & Hs). split; [done |]. split; [exists s; split; [done | lia] |].
  intros Ht. destruct (Hs Ht) as (t & ? & ?). exists t. split; [done | lia].
Qed.

Lemma get_fail p q v rc leaf : p <= q <= e -> rc = EAF_INVALID \/ rc = EAF_UNSUPPORTED -> get_post p leaf (Some (q, v, rc)).
Proof. intros Hq Hrc. exists q, v, rc. split; [done |]. split; [lia | tauto]. Qed.
Lemma get_weaken p p' leaf r : p <= p' -> get_post p' leaf r -> get_post p leaf r.
Proof.
  intros Hp (q & v & rc & -> & Hq & Hrc). exists q, v, rc. split; [done |]. split; [lia |].
  destruct Hrc as [?|[?|[? Hv]]]; [tauto | tauto |]. right. right. split; [done |]. intros Hl.
  by apply (view_weaken p' e); [| | apply Hv].
Qed.

Lemma descend_loop_safe fuel p segment out leaf :
  0 <= p <= e -> e - p < Z.of_nat fuel -> get_post p leaf (descend_loop fuel b e p segment out leaf).
Proof.
  revert p. induction fuel as [|fuel IH]; intros p Hp Hf; [lia |]. cbn [descend_loop]. next_step.
  case_decide; [apply get_fail; [lia | by left] |]. next_step; [apply get_fail; [lia | by right] |].
  destruct (scan_string_safe q ltac:(lia)) as (q1 & s & n & rc & -> & Hq1 & Hrc). cbn [mbind option_bind].
  destruct Hrc as [->|(-> & Hq2len & -> & Hn & Hq1')]; [rewrite decide_True by done; apply get_fail; [lia | by left] |].
  rewrite decide_False by (intros HH; by apply HH).
  destruct (colon_safe q1 ltac:(lia)) as (q2 & rc & -> & Hq2 & Hrc). cbn [mbind option_bind].
  destruct Hrc as [->|[-> Hlt]]; [rewrite decide_True by done; apply get_fail; [lia | by left] |].
  rewrite decide_False by (intros HH; by apply HH).
  destruct (key_matches_safe (q + 1) n segment ltac:(lia) ltac:(lia) ltac:(lia)) as [m ->]. cbn [mbind option_bind].
  destruct m.
  - destruct leaf; [| exists q2, out, EAF_OK; split; [done |]; split; [lia |]; right; right; done].
    destruct (parse_value_safe q2 ltac:(lia)) as (q3 & v & rc & -> & Hq3 & Hrc). exists q3, v, rc. split; [done |]. split; [lia |].
    destruct Hrc as [?|(-> & _ & Hv)]; [by left |]. right. right. split; [done |]. intros _. apply (view_weaken q2 q3); [lia | lia | done].
  - destruct (skip_value_safe q2 ltac:(lia)) as (q3 & rc & -> & Hq3 & Hrc). cbn [mbind option_bind].
    destruct Hrc as [->|[-> Hlt3]]; [rewrite decide_True by done; apply get_fail; [lia | by left] |].
    rewrite decide_False by (intros HH; by apply HH).
    destruct (separator_safe c_rbrace q3 ltac:(lia)) as (q4 & stop & -> & Hq4 & Hs). cbn [mbind option_bind].
    destruct stop as [rc|].
    + destruct Hs as [->|[-> ?]]; apply get_fail; [lia | by left | lia | by right].
    + apply (get_weaken p q4); [lia |]. apply IH; lia.
Qed.

Lemma descend_safe p segment out leaf : 0 <= p <= e -> get_post p leaf (descend b e p segment out leaf).
Proof.
  intros Hp. unfold descend. repeat next_step.
  - apply (get_weaken p (q + 1)); [lia |]. apply descend_loop_safe; unfold fuel_for; lia.
  - apply get_fail; [lia | by left].
Qed.
End safety.

Lemma strchr_string t s c :
  c_string t s -> c <> 0 ->
  exists r, strchr s c = Some r /\
    match r with
    | Some n => exists t1 t2, t = t1 ++ c :: t2 /\ n = zlen t1 /\ c ∉ t1
    | None => c ∉ t
    end.
Proof.
  intros [Ht [rest ->]] Hc. induction Ht as [|x t Hx Ht IH]; simpl.
  - rewrite decide_False by done. exists None. split; [done | set_solver].
  - case_decide as Hxc.
    + subst x. exists (Some 0). split; [done |]. exists [], t. split; [done |]. split; [done | set_solver].
    + rewrite decide_False by done. destruct IH as (r & -> & Hr). simpl. eexists. split; [done |]. destruct r as [n|]; simpl.
      * destruct Hr as (t1 & t2 & -> & -> & Hn). exists (x :: t1), t2. split; [done |]. split; [rewrite zlen_cons; lia | set_solver].
      * set_solver.
Qed.

Lemma c_string_drop t1 x t2 s : c_string (t1 ++ x :: t2) s -> c_string t2 (drop (Z.to_nat (zlen t1 + 1)) s).
Proof.
  intros [Ht [rest ->]]. apply Forall_app in Ht as [_ Ht]. apply List.Forall_cons_iff in Ht as [_ Ht]. split; [done |].
  exists rest. rewrite <- app_assoc. replace (Z.to_nat (zlen t1 + 1)) with (length (t1 ++ [x])) by (rewrite length_app; unfold zlen; simpl; lia).
  change ((x :: t2) ++ 0 :: rest) with ([x] ++ t2 ++ 0 :: rest). rewrite app_assoc. apply drop_app_length.
Qed.

Lemma c_string_len t s : c_string t s -> zlen t < zlen s.
Proof. intros [_ [rest ->]]. rewrite zlen_app, zlen_cons. pose proof (zlen_nonneg rest). lia. Qed.

Lemma get_loop_safe b e fuel p path t out :
  e <= zlen b -> 0 <= p <= e -> c_string t path -> (length t < fuel)%nat ->
  exists v rc, get_loop fuel b e p path out = Some (v, rc) /\
    (rc = EAF_INVALID \/ rc = EAF_UNSUPPORTED \/ rc = EAF_OK /\ view 0 e v).
Proof.
  intros He. revert p path t out. induction fuel as [|fuel IH]; intros p path t out Hp Ht Hf; [lia |]. cbn [get_loop].
  destruct (strchr_string t path c_dot Ht) as (r & -> & Hr); [done |]. cbn [mbind option_bind].
  pose proof (c_string_len t path Ht) as Hl. pose proof (zlen_nonneg t).
  assert (Hlen : exists n, match r with Some n => Some n | None => strlen path end = Some n /\ 0 <= n <= zlen t).
  { destruct r as [n|]; [| rewrite (strlen_string t) by done; exists (zlen t); split; [done | lia]].
    destruct Hr as (t1 & t2 & -> & -> & _). exists (zlen t1). split; [done |]. rewrite zlen_app. pose proof (zlen_nonneg t1).
    pose proof (zlen_nonneg (c_dot :: t2)). lia. }
  destruct Hlen as (n & Hn & Hnt). rewrite Hn. cbn [mbind option_bind]. rewrite ldn_eq by lia. cbn [mbind option_bind].
  set (leaf := match r with None => true | Some _ => false end).
  destruct (descend_safe b e He p (slice path 0 n) out leaf Hp) as (q & v & rc & -> & Hq & Hrc). cbn [mbind option_bind].
  case_decide as Hd; [exists v, rc; split; [done |]; destruct Hrc as [?|[?|[-> _]]]; [tauto | tauto | done] |].
  assert (Hv : r = None -> view p e v) by (intros ->; destruct Hrc as [->|[->|[_ Hv]]]; [discriminate Hd | discriminate Hd | by apply Hv]).
  clear Hrc. destruct r as [m|]; subst leaf; simpl.
  - injection Hn as ->. destruct Hr as (t1 & t2 & -> & -> & _). apply (IH q _ t2); [lia | by eapply c_string_drop |].
    rewrite length_app in Hf. simpl in Hf. lia.
  - exists v, EAF_OK. split; [done |]. right. right. split; [done |]. apply (view_weaken p e); [lia | lia | by apply Hv].
Qed.

(** A lookup in arbitrary bytes, hostile or truncated, always returns: no read
    leaves the message, no recursion or loop outlives the bytes, and on success
    the number is in range and the views lie inside the message. *)
Theorem json_get_safe (b path t : list Z) (n : Z) (out : eaf_sendspin_json_value_t) :
  0 <= n <= zlen b -> c_string t path ->
  exists v rc, eaf_sendspin_json_get (Some b) n (Some path) (Some out) = Some (Some v, rc) /\
    (rc = EAF_INVALID \/ rc = EAF_UNSUPPORTED \/ rc = EAF_OK /\ view 0 n v).
Proof.
  intros Hn Ht. unfold eaf_sendspin_json_get. pose proof (c_string_len t path Ht) as Hl. pose proof (zlen_nonneg t).
  destruct (ld_is_Some path 0) as [x ->]; [lia |]. cbn [mbind option_bind].
  case_decide; [exists out, EAF_INVALID; split; [done | by left] |].
  destruct (get_loop_safe b n (length path) 0 path t out) as (v & rc & -> & Hrc); [lia | lia | done | unfold zlen in Hl; lia |].
  by exists v, rc.
Qed.

Lemma json_get_safe_witness :
  exists v rc, eaf_sendspin_json_get (Some [123; 34; 92; 34; 58; 91; 91]) 7 (Some [97; 46; 98; 0]) (Some json_zero) = Some (Some v, rc) /\
    (rc = EAF_INVALID \/ rc = EAF_UNSUPPORTED \/ rc = EAF_OK /\ view 0 7 v).
Proof.
  apply (json_get_safe [123; 34; 92; 34; 58; 91; 91] [97; 46; 98; 0] [97; 46; 98] 7); [done |].
  split; [repeat constructor; done | by exists []].
Defined.
