(* ===== verification/JsonRender.v ===== *)
(** What the JSON reader of [Json] computes on well-formed messages: JSON values
    as trees, their compact text, and the reader's answers read off the tree. *)

From stdpp Require Import strings.
From S2P Require Import Prelude Types Ring Bytes Text Json.

(** ** Values and their compact text *)

(** Strings and keys are kept as written between the quotes, escapes included;
    numbers as sign, integer digits and fraction digits. *)
#[warnings="-register-all"]
Inductive json :=
  | JNull
  | JBool (x : bool)
  | JNum (neg : bool) (digits : list Z) (frac : option (list Z))
  | JStr (body : list Z)
  | JArr (vs : list json)
  | JObj (kvs : list (list Z * json)).

Section induction.
Context (P : json -> Prop) (Hnull : P JNull) (Hbool : forall x, P (JBool x))
  (Hnum : forall neg ds fr, P (JNum neg ds fr)) (Hstr : forall t, P (JStr t))
  (Harr : forall vs, Forall P vs -> P (JArr vs))
  (Hobj : forall kvs, Forall (fun kv => P kv.2) kvs -> P (JObj kvs)).

Fixpoint json_ind' (v : json) : P v :=
  match v with
  | JNull => Hnull
  | JBool x => Hbool x
  | JNum neg ds fr => Hnum neg ds fr
  | JStr t => Hstr t
  | JArr vs => Harr vs ((fix go vs : Forall P vs :=
      match vs with [] => List.Forall_nil _ | v :: vs => List.Forall_cons _ v vs (json_ind' v) (go vs) end) vs)
  | JObj kvs => Hobj kvs ((fix go kvs : Forall (fun kv => P kv.2) kvs :=
      match kvs with [] => List.Forall_nil _ | kv :: kvs => List.Forall_cons _ kv kvs (json_ind' kv.2) (go kvs) end) kvs)
  end.
End induction.

Fixpoint sep_by (parts : list (list Z)) : list Z :=
  match parts with
  | [] => []
  | [t] => t
  | t :: parts => t ++ [c_comma] ++ sep_by parts
  end.

Definition quoted (body : list Z) : list Z := [c_quote] ++ body ++ [c_quote].
Definition number_text (neg : bool) (ds : list Z) (fr : option (list Z)) : list Z :=
  (if neg then [c_minus] else []) ++ ds ++ match fr with Some f => [c_dot] ++ f | None => [] end.

Fixpoint render (v : json) : list Z :=
  match v with
  | JNull => chars "null"
  | JBool true => chars "true"
  | JBool false => chars "false"
  | JNum neg ds fr => number_text neg ds fr
  | JStr t => quoted t
  | JArr vs => [c_lbracket] ++ sep_by (map render vs) ++ [c_rbracket]
  | JObj kvs => [c_lbrace] ++ sep_by (map (fun kv => quoted kv.1 ++ [c_colon] ++ render kv.2) kvs) ++ [c_rbrace]
  end.

(** No unescaped quote, no dangling backslash. *)
Fixpoint body_ok (t : list Z) : bool :=
  match t with
  | [] => true
  | x :: t =>
      if decide (x = c_backslash) then match t with [] => false | _ :: t => body_ok t end
      else negb (eqc c_quote x) && body_ok t
  end.

Definition digits_ok (ds : list Z) : bool := forallb digit ds.

Fixpoint wf_json (v : json) : bool :=
  match v with
  | JNull | JBool _ => true
  | JNum _ ds fr => negb (bool_decide (ds = [])) && digits_ok ds && match fr with Some f => digits_ok f | None => true end
  | JStr t => body_ok t
  | JArr vs => forallb wf_json vs
  | JObj kvs => forallb (fun kv => body_ok kv.1 && wf_json kv.2) kvs
  end.

Definition member_text (kv : list Z * json) : list Z := quoted kv.1 ++ [c_colon] ++ render kv.2.

Lemma render_obj kvs : render (JObj kvs) = [c_lbrace] ++ sep_by (map member_text kvs) ++ [c_rbrace].
Proof. done. Qed.

(** ** Text at a position of the message *)

Section reading.
Context (b : list Z) (e : Z) (He : e <= zlen b).

Definition seen (p : Z) (t : list Z) : Prop := 0 <= p /\ p + zlen t <= e /\ slice b p (zlen t) = t.

Lemma seen_app p s t : seen p (s ++ t) <-> seen p s /\ seen (p + zlen s) t.
Proof.
  unfold seen. rewrite zlen_app. pose proof (zlen_nonneg s). pose proof (zlen_nonneg t). split.
  - intros (Hp & Hl & Hs). rewrite slice_add in Hs by lia. apply app_inj_1 in Hs as [H1 H2].
    2: { unfold zlen in *. apply Nat2Z.inj.
         pose proof (zlen_slice b p (zlen s)) as Hz. unfold zlen in Hz. rewrite Hz; lia. }
    split; [split; [done |]; split; [lia | done] |]. split; [lia |]. split; [lia | done].
  - intros ((Hp & Hl & Hs) & (_ & Hl2 & Ht)). split; [done |]. split; [lia |]. rewrite slice_add by lia. by rewrite Hs, Ht.
Qed.

Lemma seen_one p x : seen p [x] <-> 0 <= p /\ p + 1 <= e /\ ld b p = Some x.
Proof.
  unfold seen. change (zlen [x]) with 1. split; intros (Hp & Hl & Hs); (split; [done |]); (split; [done |]).
  - destruct (ld_is_Some b p) as [y Hy]; [lia |]. rewrite (slice_cons _ _ _ y) in Hs by (done || lia).
    injection Hs as ->. done.
  - by rewrite (slice_cons _ _ _ x) by (done || lia).
Qed.

Lemma seen_cons p x t : seen p (x :: t) <-> (0 <= p /\ p + 1 <= e /\ ld b p = Some x) /\ seen (p + 1) t.
Proof. change (x :: t) with ([x] ++ t). rewrite seen_app, seen_one. done. Qed.

Lemma seen_bounds p t : seen p t -> 0 <= p /\ p + zlen t <= e.
Proof. intros (? & ? & _). done. Qed.

Lemma next_is_at test p x : p < e -> ld b p = Some x -> next_is b e test p = Some (test x).
Proof. intros Hp Hx. unfold next_is. rewrite decide_True by done. by rewrite Hx. Qed.
Lemma next_is_end test p : p >= e -> next_is b e test p = Some false.
Proof. intros. unfold next_is. by rewrite decide_False by lia. Qed.

(** What may follow: the end of the view or a character refused by [test]. *)
Definition stops (test : Z -> bool) (p : Z) : Prop := next_is b e test p = Some false.

Lemma skip_while_eq fuel test p t :
  seen p t -> forallb test t = true -> stops test (p + zlen t) -> (length t <= fuel)%nat ->
  skip_while b e fuel test p = Some (p + zlen t).
Proof.
  revert p fuel. induction t as [|x t IH]; intros p fuel Hs Ht Hstop Hf.
  - rewrite Z.add_0_r in *. unfold stops, next_is in Hstop.
    destruct fuel; cbn [skip_while]; (case_decide; [| done]); destruct (ld b p); try done; cbn [mbind option_bind] in *;
      injection Hstop as ->; done.
  - apply seen_cons in Hs as [(Hp & Hp1 & Hx) Hs]. simpl in Ht, Hf. apply andb_prop in Ht as [Hx' Ht].
    destruct fuel as [|fuel]; [lia |]. cbn [skip_while]. rewrite decide_True by lia. rewrite Hx. cbn [mbind option_bind].
    rewrite Hx'. rewrite zlen_cons in *. rewrite (IH (p + 1)); [f_equal; lia | done | done | | lia].
    replace (p + 1 + zlen t) with (p + (zlen t + 1)) by lia. done.
Qed.
Lemma run_while_eq test p t :
  seen p t -> forallb test t = true -> stops test (p + zlen t) -> run_while b e test p = Some (p + zlen t).
Proof.
  intros Hs Ht Hstop. apply skip_while_eq; [done | done | done |]. destruct Hs as (? & ? & _). unfold zlen in *. lia.
Qed.
Lemma run_while_stop test p : 0 <= p -> p <= e -> stops test p -> run_while b e test p = Some p.
Proof.
  intros Hp Hpe Hs. pose proof (run_while_eq test p []) as Hr. rewrite Z.add_0_r in Hr. apply Hr; [| done | done].
  split; [done |]. split; [change (zlen []) with 0; lia | done].
Qed.

Lemma string_loop_eq fuel p t :
  seen p (t ++ [c_quote]) -> body_ok t = true -> (length t < fuel)%nat ->
  string_loop b e fuel p = Some (p + zlen t, EAF_OK).
Proof.
  intros Hs Ht Hf. remember (length t) as n eqn:Hn. assert (Hle : (length t <= n)%nat) by lia. clear Hn.
  revert t p fuel Hs Ht Hf Hle. induction n as [|n IH]; intros t p fuel Hs Ht Hf Hle.
  - destruct t; [| simpl in Hle; lia]. apply seen_one in Hs as (Hp & Hp1 & Hx). destruct fuel; [lia |]. cbn [string_loop].
    rewrite decide_True, Hx by lia. cbn [mbind option_bind]. rewrite decide_False, decide_True by done.
    by rewrite Z.add_0_r.
  - destruct t as [|x t].
    { apply (IH [] p fuel); [done | done | lia | simpl; lia]. }
    rewrite <- app_comm_cons in Hs. apply seen_cons in Hs as [(Hp & Hp1 & Hx) Hs]. destruct fuel as [|fuel]; [lia |].
    cbn [string_loop]. rewrite decide_True, Hx by lia. cbn [mbind option_bind]. cbn [body_ok] in Ht. simpl in Hle, Hf.
    pose proof (seen_bounds _ _ Hs) as Hb. rewrite zlen_app in Hb. change (zlen [c_quote]) with 1 in Hb. pose proof (zlen_nonneg t).
    rewrite zlen_cons. destruct (decide (x = c_backslash)) as [->|Hne].
    + destruct t as [|y t]; [done |]. rewrite <- app_comm_cons in Hs. apply seen_cons in Hs as [_ Hs]. rewrite zlen_cons in *.
      rewrite decide_False by lia. simpl in Hle, Hf. pose proof (zlen_nonneg t).
      rewrite (IH t (p + 2)); [do 2 f_equal; lia | | done | lia | lia]. replace (p + 2) with (p + 1 + 1) by lia. done.
    + apply andb_prop in Ht as [Hq Ht]. unfold eqc in Hq. apply negb_true_iff, bool_decide_eq_false in Hq.
      rewrite decide_False by done. rewrite (IH t (p + 1)); [do 2 f_equal; lia | done | done | lia | lia].
Qed.

Lemma scan_string_eq p t :
  seen p (quoted t) -> body_ok t = true ->
  scan_string b e p = Some (p + zlen (quoted t), p + 1, zlen t, EAF_OK).
Proof.
  unfold quoted. intros Hs Ht. simpl app in Hs. apply seen_cons in Hs as [(Hp & Hp1 & Hx) Hs].
  pose proof (seen_bounds _ _ Hs) as Hb. rewrite zlen_app in Hb. change (zlen [c_quote]) with 1 in Hb.
  unfold scan_string. rewrite (next_is_at _ p c_quote) by (done || lia). cbn [mbind option_bind]. change (negb (eqc c_quote c_quote)) with false.
  cbv iota. rewrite (string_loop_eq _ (p + 1) t) by (done || unfold zlen in *; lia). cbn [mbind option_bind].
  rewrite decide_False by (intros HH; by apply HH). rewrite !zlen_app. change (zlen [c_quote]) with 1.
  replace (p + 1 + zlen t + 1) with (p + (1 + (zlen t + 1))) by lia. by replace (p + 1 + zlen t - (p + 1)) with (zlen t) by lia.
Qed.

Lemma seen_slice p t : seen p t -> slice b p (zlen t) = t.
Proof. by intros (_ & _ & ?). Qed.

Lemma match_literal_eq p t : seen p t -> match_literal b e p t = Some (p + zlen t, EAF_OK).
Proof.
  intros (Hp & Hl & Hs). unfold match_literal. rewrite decide_False by lia.
  rewrite memeq_eq by lia. rewrite Hs. cbn [mbind option_bind]. by rewrite bool_decide_eq_true_2.
Qed.

Lemma ws_stop p x : 0 <= p < e -> ld b p = Some x -> is_ws x = false -> skip_ws b e p = Some p.
Proof.
  intros Hp Hx Hw. apply run_while_stop; [lia | lia |]. unfold stops. rewrite (next_is_at _ p x) by (done || lia). by rewrite Hw.
Qed.

(** A value is followed by the end of the view or by punctuation. *)
Definition follow (p : Z) : Prop := p = e \/ p < e /\ exists x, ld b p = Some x /\ (x = c_comma \/ x = c_rbracket \/ x = c_rbrace).

Lemma follow_stops test p :
  follow p -> test c_comma = false -> test c_rbracket = false -> test c_rbrace = false -> stops test p.
Proof.
  intros [->|[Hp (x & Hx & Hc)]] H1 H2 H3; unfold stops; [apply next_is_end; lia |].
  rewrite (next_is_at _ _ x) by done. f_equal. destruct Hc as [->|[->| ->]]; done.
Qed.

Lemma digit_range x : digit x = true -> 48 <= x <= 57.
Proof. unfold digit. by intros H%bool_decide_eq_true. Qed.

Lemma digit_not x c : digit x = true -> (c < 48 \/ 57 < c) -> x <> c.
Proof. intros H%digit_range. lia. Qed.

Lemma seen_head p x t : seen p (x :: t) -> 0 <= p /\ p < e /\ ld b p = Some x.
Proof. intros [(? & ? & ?) _]%seen_cons. split; [done |]. split; [lia | done]. Qed.

Lemma next_is_seen test p x t : seen p (x :: t) -> next_is b e test p = Some (test x).
Proof. intros (? & ? & ?)%seen_head. by apply next_is_at. Qed.

(** The sign of a number, and its digits. *)
Lemma sign_at p (neg : bool) ds t d ds' :
  ds = d :: ds' -> digit d = true -> seen p ((if neg then [c_minus] else []) ++ ds ++ t) ->
  next_is b e (eqc c_minus) p = Some neg /\
  seen (if neg then p + 1 else p) (ds ++ t) /\
  p + zlen (if neg then [c_minus] else []) = (if neg then p + 1 else p).
Proof.
  intros -> Hd Hs. pose proof Hs as Hs'. apply seen_app in Hs' as [_ Hs']. destruct neg.
  - split; [by rewrite (next_is_seen _ _ _ _ Hs) |]. by split.
  - change (zlen []) with 0 in *. rewrite Z.add_0_r in *. split; [| by split].
    rewrite (next_is_seen _ _ _ _ Hs). unfold eqc. rewrite bool_decide_eq_false_2; [done |].
    apply digit_not; [done |]. by left.
Qed.

Lemma frac_follow p fr :
  seen p (match fr with Some f => [c_dot] ++ f | None => [] end) ->
  follow (p + zlen (match fr with Some f => [c_dot] ++ f | None => [] end)) ->
  stops digit p /\
  next_is b e (eqc c_dot) p = Some (match fr with Some _ => true | None => false end).
Proof.
  intros Hs Hf. destruct fr as [f|].
  - unfold stops. by rewrite !(next_is_seen _ _ _ _ Hs).
  - rewrite Z.add_0_r in Hf. split; by apply follow_stops.
Qed.

Lemma skip_number_eq p neg ds fr :
  seen p (number_text neg ds fr) -> wf_json (JNum neg ds fr) = true ->
  follow (p + zlen (number_text neg ds fr)) ->
  skip_number b e p = Some (p + zlen (number_text neg ds fr), EAF_OK).
Proof.
  intros Hs Hwf Hfol. unfold number_text in *. cbn [wf_json] in Hwf. rewrite !andb_true_iff in Hwf.
  destruct Hwf as ((Hne & Hds) & Hfr). apply negb_true_iff, bool_decide_eq_false in Hne.
  destruct ds as [|d ds'] eqn:Eds; [done |]. rewrite <- Eds in *. assert (Hd : digit d = true).
  { rewrite Eds in Hds. simpl in Hds. by apply andb_prop in Hds as [? _]. }
  destruct (sign_at p neg ds _ d ds' Eds Hd Hs) as (Hm & Hs1 & Hq). unfold skip_number.
  rewrite Hm. cbn [mbind option_bind]. rewrite !zlen_app in *. set (q := if neg then p + 1 else p) in *.
  pose proof Hs1 as Hs2. apply seen_app in Hs2 as [Hsd Hsf].
  set (tail := match fr with Some f => [c_dot] ++ f | None => [] end) in *.
  destruct (frac_follow (q + zlen ds) fr Hsf) as [Hstop Hdot].
  { fold tail. replace (q + zlen ds + zlen tail) with (p + (zlen (if neg then [c_minus] else []) + (zlen ds + zlen tail))) by lia. done. }
  rewrite Eds in Hsd at 1. rewrite (next_is_seen _ _ _ _ Hsd), Hd. cbn [mbind option_bind negb]. rewrite <- Eds in Hsd.
  rewrite (run_while_eq digit q ds) by done. cbn [mbind option_bind]. rewrite Hdot. cbn [mbind option_bind].
  assert (Hrun : (if match fr with Some _ => true | None => false end then run_while b e digit (q + zlen ds + 1) else Some (q + zlen ds))
    = Some (q + zlen ds + zlen tail)).
  { unfold tail in *. destruct fr as [f|]; [| by rewrite Z.add_0_r]. apply seen_cons in Hsf as [_ Hsf].
    rewrite (run_while_eq digit _ f); [| done | done |].
    - f_equal. rewrite zlen_app. change (zlen [c_dot]) with 1. lia.
    - apply follow_stops; [| done | done | done]. rewrite zlen_app in Hfol. change (zlen [c_dot]) with 1 in Hfol.
      replace (q + zlen ds + 1 + zlen f) with (p + (zlen (if neg then [c_minus] else []) + (zlen ds + (1 + zlen f)))) by lia. done. }
  rewrite Hrun. cbn [mbind option_bind].
  replace (q + zlen ds + zlen tail) with (p + (zlen (if neg then [c_minus] else []) + (zlen ds + zlen tail))) by lia.
  by rewrite (follow_stops is_exp _ Hfol).
Qed.

(** ** Skipping a value *)

Lemma ws_seen p x t : seen p (x :: t) -> is_ws x = false -> skip_ws b e p = Some p.
Proof. intros (? & ? & ?)%seen_head. by apply ws_stop. Qed.

Lemma colon_eq p t : seen p (c_colon :: t) -> colon b e p = Some (p + 1, EAF_OK).
Proof.
  intros Hs. unfold colon. rewrite (ws_seen _ _ _ Hs) by done. cbn [mbind option_bind].
  by rewrite (next_is_seen _ _ _ _ Hs).
Qed.

Lemma separator_comma close p t : seen p (c_comma :: t) -> separator b e close p = Some (p + 1, None).
Proof.
  intros Hs. pose proof (seen_head _ _ _ Hs) as (Hp & Hpe & Hx). unfold separator.
  rewrite (ws_seen _ _ _ Hs) by done. cbn [mbind option_bind]. rewrite decide_False by lia. rewrite Hx. done.
Qed.
Lemma separator_close close p t :
  seen p (close :: t) -> is_ws close = false -> close <> c_comma -> separator b e close p = Some (p + 1, Some EAF_OK).
Proof.
  intros Hs Hw Hc. pose proof (seen_head _ _ _ Hs) as (Hp & Hpe & Hx). unfold separator.
  rewrite (ws_seen _ _ _ Hs) by done. cbn [mbind option_bind]. rewrite decide_False by lia. rewrite Hx.
  cbn [mbind option_bind]. by rewrite decide_False, decide_True by done.
Qed.

(** The first character of a value. *)
Definition head_ok (x : Z) : Prop :=
  x = c_lbrace \/ x = c_lbracket \/ x = c_quote \/ x = 116 \/ x = 102 \/ x = 110 \/ x = c_minus \/ digit x = true.

Lemma head_not_ws x : head_ok x -> is_ws x = false /\ x <> c_rbrace /\ x <> c_rbracket.
Proof.
  intros H. assert (Hd : digit x = true -> is_ws x = false /\ x <> c_rbrace /\ x <> c_rbracket).
  { intros Hd%digit_range. unfold is_ws, c_rbrace, c_rbracket. rewrite !bool_decide_eq_false_2 by lia. split; [done | lia]. }
  destruct H as [->|[->|[->|[->|[->|[->|[->|H]]]]]]]; [done.. | by apply Hd].
Qed.

Lemma number_head neg ds fr : wf_json (JNum neg ds fr) = true -> exists x t, number_text neg ds fr = x :: t /\
  (x = c_minus \/ digit x = true).
Proof.
  cbn [wf_json]. rewrite !andb_true_iff. intros ((Hne & Hds) & _). destruct ds as [|d ds]; [done |].
  simpl in Hds. apply andb_prop in Hds as [Hd _]. unfold number_text. destruct neg; simpl; eexists _, _; split; try done; tauto.
Qed.

Lemma render_head v : wf_json v = true -> exists x t, render v = x :: t /\ head_ok x.
Proof.
  unfold head_ok. destruct v as [|[]|neg ds fr|t|vs|kvs]; intros Hwf; try (eexists _, _; split; [done | tauto]).
  destruct (number_head neg ds fr Hwf) as (x & t & E & Hx). exists x, t. split; [exact E | tauto].
Qed.

Lemma sep_by_cons t parts : parts <> [] -> sep_by (t :: parts) = t ++ [c_comma] ++ sep_by parts.
Proof. by destruct parts. Qed.

(** [skip_value] from a value's first character. *)
Lemma skip_value_at fuel p x t :
  seen p (x :: t) -> is_ws x = false ->
  skip_value b e (S fuel) p =
    if decide (x = c_lbrace) then skip_open b e c_rbrace (object_loop b e fuel) p
    else if decide (x = c_lbracket) then skip_open b e c_rbracket (array_loop b e fuel) p
    else if decide (x = c_quote) then '(p, _, _, rc) ← scan_string b e p; Some (p, rc)
    else if decide (x = 116) then match_literal b e p (chars "true")
    else if decide (x = 102) then match_literal b e p (chars "false")
    else if decide (x = 110) then match_literal b e p (chars "null")
    else skip_number b e p.
Proof.
  intros Hs Hw. pose proof (seen_head _ _ _ Hs) as (Hp & Hpe & Hx). cbn [skip_value].
  rewrite (ws_seen _ _ _ Hs Hw). cbn [mbind option_bind]. rewrite decide_False by lia. by rewrite Hx.
Qed.

Lemma skip_open_eq close loop p x t :
  seen p (x :: close :: t) -> is_ws close = false -> skip_open b e close loop p = Some (p + 2, EAF_OK).
Proof.
  intros Hs Hw. apply seen_cons in Hs as [_ Hs]. unfold skip_open. rewrite (ws_seen _ _ _ Hs Hw). cbn [mbind option_bind].
  rewrite (next_is_seen _ _ _ _ Hs). cbn [mbind option_bind]. unfold eqc. rewrite bool_decide_eq_true_2 by done.
  do 2 f_equal. lia.
Qed.
Lemma skip_open_loop close loop p x y t :
  seen p (x :: y :: t) -> is_ws y = false -> y <> close -> skip_open b e close loop p = loop (p + 1).
Proof.
  intros Hs Hw Hne. apply seen_cons in Hs as [_ Hs]. unfold skip_open. rewrite (ws_seen _ _ _ Hs Hw). cbn [mbind option_bind].
  rewrite (next_is_seen _ _ _ _ Hs). cbn [mbind option_bind]. unfold eqc. by rewrite bool_decide_eq_false_2.
Qed.

Definition skips (v : json) : Prop := forall fuel p,
  seen p (render v) -> follow (p + zlen (render v)) -> 2 * zlen (render v) + 1 <= Z.of_nat fuel ->
  skip_value b e fuel p = Some (p + zlen (render v), EAF_OK).

Lemma follow_at p x t : seen p (x :: t) -> x = c_comma \/ x = c_rbracket \/ x = c_rbrace -> follow p.
Proof. intros (Hp & Hpe & Hx)%seen_head Hc. right. split; [done |]. by exists x. Qed.

(** One member: key, colon, value. *)
Lemma member_eq p k v t :
  seen p (member_text (k, v) ++ t) -> body_ok k = true ->
  exists q, scan_string b e p = Some (q, p + 1, zlen k, EAF_OK) /\ colon b e q = Some (q + 1, EAF_OK) /\
    seen (q + 1) (render v ++ t) /\ q + 1 + zlen (render v) = p + zlen (member_text (k, v)) /\ seen (p + 1) k /\ p < q.
Proof.
  unfold member_text. cbn [fst snd]. intros Hs Hk. rewrite <- !app_assoc in Hs.
  apply seen_app in Hs as [Hs1 Hs2]. exists (p + zlen (quoted k)).
  split; [by apply scan_string_eq |]. split; [by eapply colon_eq |]. simpl app in Hs2. apply seen_cons in Hs2 as [_ Hs2].
  split; [done |]. unfold quoted in *. rewrite !zlen_app. change (zlen [c_colon]) with 1. change (zlen [c_quote]) with 1.
  split; [lia |]. apply seen_app in Hs1 as [_ Hs1]. apply seen_app in Hs1 as [Hs1 _]. split; [exact Hs1 |]. pose proof (zlen_nonneg k). lia.
Qed.

Lemma EAF_OK_zero : ~ EAF_OK <> 0.
Proof. intros H. by apply H. Qed.

Lemma object_loop_eq kvs fuel p :
  kvs <> [] -> Forall (fun kv => skips kv.2) kvs -> forallb (fun kv => body_ok kv.1 && wf_json kv.2) kvs = true ->
  seen p (sep_by (map member_text kvs) ++ [c_rbrace]) ->
  2 * zlen (sep_by (map member_text kvs)) + 2 <= Z.of_nat fuel ->
  object_loop b e fuel p = Some (p + zlen (sep_by (map member_text kvs)) + 1, EAF_OK).
Proof.
  revert fuel p. induction kvs as [|[k v] kvs IH]; intros fuel p Hne Hsk Hwf Hs Hf; [done |].
  apply List.Forall_cons_iff in Hsk as [Hv Hsk]. cbn [snd] in Hv. cbn [forallb fst snd] in Hwf.
  rewrite !andb_true_iff in Hwf. destruct Hwf as ((Hk & Hwv) & Hwf). cbn [map] in *.
  pose proof (zlen_nonneg (render v)). pose proof (zlen_nonneg (sep_by (map member_text kvs))).
  pose proof (zlen_nonneg (sep_by (member_text (k, v) :: map member_text kvs))). destruct fuel as [|fuel]; [lia |]. cbn [object_loop].
  assert (Hcase : exists rest, sep_by (member_text (k, v) :: map member_text kvs) ++ [c_rbrace] = member_text (k, v) ++ rest /\
    ((kvs = [] /\ rest = [c_rbrace]) \/ (kvs <> [] /\ rest = c_comma :: sep_by (map member_text kvs) ++ [c_rbrace]))).
  { destruct kvs as [|kv kvs]; [eexists; split; [done | by left] |]. eexists. split; [| by right].
    rewrite sep_by_cons by done. rewrite <- !app_assoc. done. }
  destruct Hcase as (rest & E & Hrest). rewrite E in Hs.
  destruct (member_eq p k v rest Hs Hk) as (q & -> & Hc & Hsv & Hq & _ & Hpq). cbn [mbind option_bind].
  rewrite decide_False by apply EAF_OK_zero. rewrite Hc. cbn [mbind option_bind]. rewrite decide_False by apply EAF_OK_zero.
  apply seen_app in Hsv as [Hsv Hsr]. rewrite Hq in Hsr.
  assert (Hml : zlen (member_text (k, v)) <= zlen (sep_by (member_text (k, v) :: map member_text kvs))).
  { destruct kvs; [done |]. rewrite sep_by_cons, zlen_app by done. pose proof (zlen_nonneg ([c_comma] ++ sep_by (map member_text (p0 :: kvs)))). lia. }
  assert (Hrl : zlen (render v) + 1 <= zlen (member_text (k, v))) by lia.
  rewrite Hv; [| done | | lia].
  2: { rewrite Hq. destruct Hrest as [[-> ->]|[_ ->]]; (eapply follow_at; [exact Hsr | tauto]). }
  cbn [mbind option_bind]. rewrite decide_False by apply EAF_OK_zero. rewrite Hq.
  destruct Hrest as [[-> ->]|[Hkv ->]].
  - rewrite (separator_close c_rbrace _ []) by done. cbn [mbind option_bind sep_by map]. done.
  - rewrite (separator_comma _ _ _ Hsr). cbn [mbind option_bind]. apply seen_cons in Hsr as [_ Hsr].
    rewrite sep_by_cons, !zlen_app in * by (by destruct kvs). change (zlen [c_comma]) with 1 in *.
    rewrite (IH fuel); [do 2 f_equal; lia | done | done | done | done | lia].
Qed.

Lemma array_loop_eq vs fuel p :
  vs <> [] -> Forall skips vs -> forallb wf_json vs = true ->
  seen p (sep_by (map render vs) ++ [c_rbracket]) ->
  2 * zlen (sep_by (map render vs)) + 2 <= Z.of_nat fuel ->
  array_loop b e fuel p = Some (p + zlen (sep_by (map render vs)) + 1, EAF_OK).
Proof.
  revert fuel p. induction vs as [|v vs IH]; intros fuel p Hne Hsk Hwf Hs Hf; [done |].
  apply List.Forall_cons_iff in Hsk as [Hv Hsk]. cbn [forallb] in Hwf. apply andb_prop in Hwf as [Hwv Hwf]. cbn [map] in *.
  pose proof (zlen_nonneg (render v)). pose proof (zlen_nonneg (sep_by (map render vs))).
  pose proof (zlen_nonneg (sep_by (render v :: map render vs))). destruct fuel as [|fuel]; [lia |]. cbn [array_loop].
  destruct (decide (vs = [])) as [->|Hvs].
  - cbn [sep_by map] in *. apply seen_app in Hs as [Hs1 Hs2]. rewrite Hv; [| done | eapply follow_at; [exact Hs2 | tauto] | lia].
    cbn [mbind option_bind]. rewrite decide_False by apply EAF_OK_zero. by rewrite (separator_close c_rbracket _ []).
  - rewrite sep_by_cons, !zlen_app in * by (by destruct vs). change (zlen [c_comma]) with 1 in *.
    rewrite <- !app_assoc in Hs. apply seen_app in Hs as [Hs1 Hs2]. simpl app in Hs2.
    rewrite Hv; [| done | eapply follow_at; [exact Hs2 | tauto] | lia].
    cbn [mbind option_bind]. rewrite decide_False by apply EAF_OK_zero. rewrite (separator_comma _ _ _ Hs2).
    cbn [mbind option_bind]. apply seen_cons in Hs2 as [_ Hs2].
    rewrite (IH fuel); [do 2 f_equal; lia | done | done | done | done | lia].
Qed.

Lemma sep_by_head parts t x t' : parts = t :: t' -> (exists r, t = x :: r) -> exists r, sep_by parts = x :: r.
Proof. intros -> [r ->]. destruct t'; simpl; by eexists. Qed.

Lemma array_head v vs : wf_json v = true -> exists y t, sep_by (map render (v :: vs)) = y :: t /\ head_ok y.
Proof.
  intros Hw. destruct (render_head v Hw) as (y & t & E & Hy).
  destruct (sep_by_head (map render (v :: vs)) (render v) y (map render vs)) as [r Hr]; [done | by exists t |]. by exists y, r.
Qed.
Lemma object_head kv kvs : exists t, sep_by (map member_text (kv :: kvs)) = c_quote :: t.
Proof. apply (sep_by_head _ (member_text kv) c_quote (map member_text kvs)); [done |]. by eexists. Qed.

Lemma skip_array_body loop p vs :
  seen p (render (JArr vs)) -> forallb wf_json vs = true ->
  (forall q, vs <> [] -> seen q (sep_by (map render vs) ++ [c_rbracket]) -> q = p + 1 ->
    loop q = Some (q + zlen (sep_by (map render vs)) + 1, EAF_OK)) ->
  skip_open b e c_rbracket loop p = Some (p + zlen (render (JArr vs)), EAF_OK).
Proof.
  intros Hs Hwf Hloop. cbn [render] in *. simpl app in Hs. rewrite !zlen_app. change (zlen [c_lbracket]) with 1.
  change (zlen [c_rbracket]) with 1. destruct vs as [|v vs].
  - rewrite (skip_open_eq _ _ _ _ [] Hs) by done. done.
  - pose proof Hs as Hs'. apply seen_cons in Hs' as [_ Hs']. cbn [forallb] in Hwf. apply andb_prop in Hwf as [Hwv _].
    destruct (array_head v vs Hwv) as (y & t & E & Hy). destruct (head_not_ws y Hy) as (Hyw & _ & Hyb).
    specialize (Hloop (p + 1)). rewrite E in *. rewrite <- app_comm_cons in *.
    rewrite (skip_open_loop _ _ _ _ _ _ Hs) by done. rewrite Hloop by done. do 2 f_equal. lia.
Qed.

Lemma skip_object_body loop p kvs :
  seen p (render (JObj kvs)) ->
  (forall q, kvs <> [] -> seen q (sep_by (map member_text kvs) ++ [c_rbrace]) -> q = p + 1 ->
    loop q = Some (q + zlen (sep_by (map member_text kvs)) + 1, EAF_OK)) ->
  skip_open b e c_rbrace loop p = Some (p + zlen (render (JObj kvs)), EAF_OK).
Proof.
  rewrite render_obj. intros Hs Hloop. simpl app in Hs. rewrite !zlen_app. change (zlen [c_lbrace]) with 1.
  change (zlen [c_rbrace]) with 1. destruct kvs as [|kv kvs].
  - rewrite (skip_open_eq _ _ _ _ [] Hs) by done. done.
  - pose proof Hs as Hs'. apply seen_cons in Hs' as [_ Hs']. destruct (object_head kv kvs) as (t & E).
    specialize (Hloop (p + 1)). rewrite E in *. rewrite <- app_comm_cons in *.
    rewrite (skip_open_loop _ _ _ _ _ _ Hs) by done. rewrite Hloop by done. do 2 f_equal. lia.
Qed.

Lemma all_skip vs : Forall (fun v => wf_json v = true -> skips v) vs -> forallb wf_json vs = true -> Forall skips vs.
Proof.
  induction 1 as [|v vs Hv _ IH]; intros Hwf; [constructor |]. cbn [forallb] in Hwf. apply andb_prop in Hwf as [Hw Hwf].
  constructor; auto.
Qed.
Lemma members_skip kvs :
  Forall (fun kv => wf_json kv.2 = true -> skips kv.2) kvs -> forallb (fun kv => body_ok kv.1 && wf_json kv.2) kvs = true ->
  Forall (fun kv : list Z * json => skips kv.2) kvs.
Proof.
  induction 1 as [|v vs Hv _ IH]; intros Hwf; [constructor |]. cbn [forallb] in Hwf. rewrite !andb_true_iff in Hwf.
  destruct Hwf as ((_ & Hw) & Hwf). constructor; auto.
Qed.

(** A well-formed value is skipped exactly. *)
Lemma skip_value_render v : wf_json v = true -> skips v.
Proof.
  induction v as [|x|neg ds fr|t|vs IH|kvs IH] using json_ind'; intros Hwf fuel p Hs Hfol Hf;
    (destruct fuel as [|fuel]; [match type of Hf with context [zlen ?r] => pose proof (zlen_nonneg r) end; lia |]).
  - rewrite (skip_value_at fuel p _ _ Hs) by done. by apply match_literal_eq.
  - destruct x; rewrite (skip_value_at fuel p _ _ Hs) by done; by apply match_literal_eq.
  - destruct (number_head neg ds fr Hwf) as (x & t & E & Hx). cbn [render] in *.
    rewrite E in Hs. destruct (head_not_ws x) as (Hw & _); [unfold head_ok; tauto |].
    rewrite (skip_value_at fuel p _ _ Hs Hw). rewrite <- E in Hs.
    assert (Hr : x = 45 \/ 48 <= x <= 57) by (destruct Hx as [->|Hx%digit_range]; [by left | by right]).
    unfold c_lbrace, c_lbracket, c_quote. rewrite !decide_False by lia. by apply skip_number_eq.
  - rewrite (skip_value_at fuel p _ _ Hs) by done. cbn [render wf_json] in *.
    rewrite !decide_False, decide_True by done. by rewrite (scan_string_eq p t).
  - rewrite (skip_value_at fuel p _ _ Hs) by done. cbn [wf_json] in Hwf.
    rewrite decide_False, decide_True by done. apply skip_array_body; [done | done |].
    intros q Hne Hq ->. apply array_loop_eq; [done | by apply all_skip | done | done |].
    cbn [render] in Hf. rewrite !zlen_app in Hf. change (zlen [c_lbracket]) with 1 in Hf. change (zlen [c_rbracket]) with 1 in Hf. lia.
  - rewrite (skip_value_at fuel p _ _ Hs) by done. cbn [wf_json] in Hwf.
    rewrite decide_True by done. apply skip_object_body; [done |].
    intros q Hne Hq ->. apply object_loop_eq; [done | by apply members_skip | done | done |].
    rewrite render_obj, !zlen_app in Hf. change (zlen [c_lbrace]) with 1 in Hf. change (zlen [c_rbrace]) with 1 in Hf. lia.
Qed.

(** ** Reading a value *)

(** The integer a number denotes, clamped to [int64_t]. *)
Definition int_value (neg : bool) (ds : list Z) : Z :=
  Z.max INT64_MIN (Z.min INT64_MAX (if neg then - dec_value ds else dec_value ds)).

(** The true value [V] of the digits read so far against the loop's state. *)
Definition counted (V m : Z) (o : bool) : Prop := if o then V > UINT64_MAX else V = m /\ 0 <= m <= UINT64_MAX.

Lemma number_loop_eq fuel q ds V m o :
  seen q ds -> digits_ok ds = true -> stops digit (q + zlen ds) -> (length ds <= fuel)%nat -> counted V m o ->
  exists m' o', number_loop b e fuel q m o = Some (q + zlen ds, m', o') /\
    counted (foldl (fun v c => v * 10 + (c - 48)) V ds) m' o'.
Proof.
  revert fuel q V m o. induction ds as [|d ds IH]; intros fuel q V m o Hs Hd Hstop Hf HV.
  - rewrite Z.add_0_r in *. unfold stops in Hstop. exists m, o. split; [| done].
    destruct fuel; cbn [number_loop]; by rewrite Hstop.
  - pose proof (seen_head _ _ _ Hs) as (Hq & Hqe & Hx). cbn [digits_ok forallb] in Hd. apply andb_prop in Hd as [Hd Hds].
    simpl in Hf. destruct fuel as [|fuel]; [lia |]. cbn [number_loop]. rewrite (next_is_seen _ _ _ _ Hs), Hd.
    cbn [mbind option_bind]. rewrite Hx. cbn [mbind option_bind]. apply seen_cons in Hs as [_ Hs]. rewrite zlen_cons in Hstop.
    replace (q + (zlen ds + 1)) with (q + 1 + zlen ds) in Hstop by lia. rewrite zlen_cons.
    apply digit_range in Hd. cbn [foldl].
    assert (Hgo : forall m o, counted (V * 10 + (d - 48)) m o -> exists m' o',
      number_loop b e fuel (q + 1) m o = Some (q + (zlen ds + 1), m', o') /\
      counted (foldl (fun v c => v * 10 + (c - 48)) (V * 10 + (d - 48)) ds) m' o').
    { intros m1 o1 H1. destruct (IH fuel (q + 1) _ m1 o1 Hs Hds Hstop ltac:(lia) H1) as (m' & o' & -> & HV').
      exists m', o'. split; [do 3 f_equal; lia | done]. }
    unfold counted in HV. destruct o; cbn [negb].
    + apply Hgo. unfold counted. word.
    + destruct HV as [-> Hm]. case_decide as Hov; apply Hgo; unfold counted.
      * word.
      * rewrite !u64_small by word. split; [lia | word].
Qed.

Lemma saturate_clamp neg V m o : 0 <= V -> counted V m o ->
  saturate neg o m = Z.max INT64_MIN (Z.min INT64_MAX (if neg then - V else V)).
Proof.
  unfold counted, saturate. intros HV HC. destruct o; cbn [orb].
  - destruct neg; word_unfold; lia.
  - destruct HC as [-> Hm]. destruct neg; case_bool_decide; word.
Qed.

Lemma dec_fold_nonneg ds V : 0 <= V -> digits_ok ds = true -> 0 <= foldl (fun v c => v * 10 + (c - 48)) V ds.
Proof.
  revert V. induction ds as [|d ds IH]; intros V HV Hd; [done |]. cbn [digits_ok forallb] in Hd.
  apply andb_prop in Hd as [Hd Hds]. apply digit_range in Hd. cbn [foldl]. apply IH; [lia | done].
Qed.

Lemma parse_number_eq p neg ds :
  seen p (number_text neg ds None) -> wf_json (JNum neg ds None) = true ->
  follow (p + zlen (number_text neg ds None)) ->
  parse_number b e p = Some (p + zlen (number_text neg ds None), int_value neg ds, EAF_OK).
Proof.
  intros Hs Hwf Hfol. unfold number_text in *. cbn [wf_json] in Hwf. rewrite andb_true_r, andb_true_iff in Hwf.
  destruct Hwf as (Hne & Hds). apply negb_true_iff, bool_decide_eq_false in Hne.
  destruct ds as [|d ds'] eqn:Eds; [done |]. rewrite <- Eds in *. assert (Hd : digit d = true).
  { rewrite Eds in Hds. simpl in Hds. by apply andb_prop in Hds as [? _]. }
  destruct (sign_at p neg ds _ d ds' Eds Hd Hs) as (Hm & Hs1 & Hq). unfold parse_number.
  rewrite Hm. cbn [mbind option_bind]. rewrite !zlen_app in *. change (zlen []) with 0 in *.
  set (q := if neg then p + 1 else p) in *. rewrite app_nil_r in Hs1.
  replace (p + (zlen (if neg then [c_minus] else []) + (zlen ds + 0))) with (q + zlen ds) in * by lia.
  rewrite Eds in Hs1 at 1. rewrite (next_is_seen _ _ _ _ Hs1), Hd. cbn [mbind option_bind negb]. rewrite <- Eds in Hs1.
  pose proof (seen_bounds _ _ Hs1) as Hb.
  destruct (number_loop_eq (Z.to_nat (e - q)) q ds 0 0 false) as (m & o & -> & HV);
    [done | done | by apply follow_stops | unfold zlen in *; lia | by split |]. cbn [mbind option_bind].
  rewrite (follow_stops (fun x => eqc c_dot x || is_exp x) _ Hfol) by done. cbn [mbind option_bind].
  do 3 f_equal. change (saturate neg o m = int_value neg ds). apply saturate_clamp; [by apply dec_fold_nonneg | done].
Qed.

(** What the reader reports for the value [v] found at [p]. *)
Definition value_of (p : Z) (v : json) : eaf_sendspin_json_value_t :=
  let n := zlen (render v) in
  match v with
  | JNull => JsonValue EAF_SENDPIN_JSON_NULL false 0 None 0 (Some p) n
  | JBool x => JsonValue EAF_SENDPIN_JSON_BOOL x 0 None 0 (Some p) n
  | JNum neg ds _ => JsonValue EAF_SENDPIN_JSON_NUMBER false (int_value neg ds) None 0 (Some p) n
  | JStr t => JsonValue EAF_SENDPIN_JSON_STRING false 0 (Some (p + 1)) (zlen t) (Some p) n
  | JArr _ => JsonValue EAF_SENDPIN_JSON_ARRAY false 0 None 0 (Some p) n
  | JObj _ => JsonValue EAF_SENDPIN_JSON_OBJECT false 0 None 0 (Some p) n
  end.

(** Numbers with a fraction are skipped but refused as values. *)
Definition readable (v : json) : bool := match v with JNum _ _ (Some _) => false | _ => true end.

Lemma parse_value_at p x t :
  seen p (x :: t) -> is_ws x = false ->
  parse_value b e p =
    if decide (x = c_lbrace) then '(q, rc) ← skip_object b e p; Some (parsed p q rc (json_of EAF_SENDPIN_JSON_OBJECT))
    else if decide (x = c_lbracket) then '(q, rc) ← skip_array b e p; Some (parsed p q rc (json_of EAF_SENDPIN_JSON_ARRAY))
    else if decide (x = c_quote) then
      '(q, start, len, rc) ← scan_string b e p;
      Some (parsed p q rc (JsonValue EAF_SENDPIN_JSON_STRING false 0 (if decide (rc = 0) then Some start else None) len None 0))
    else if decide (x = 116) then
      '(q, rc) ← match_literal b e p (chars "true"); Some (parsed p q rc (JsonValue EAF_SENDPIN_JSON_BOOL true 0 None 0 None 0))
    else if decide (x = 102) then
      '(q, rc) ← match_literal b e p (chars "false"); Some (parsed p q rc (JsonValue EAF_SENDPIN_JSON_BOOL false 0 None 0 None 0))
    else if decide (x = 110) then
      '(q, rc) ← match_literal b e p (chars "null"); Some (parsed p q rc (json_of EAF_SENDPIN_JSON_NULL))
    else
      '(q, n, rc) ← parse_number b e p;
      Some (parsed p q rc (JsonValue EAF_SENDPIN_JSON_NUMBER false n None 0 None 0)).
Proof.
  intros Hs Hw. pose proof (seen_head _ _ _ Hs) as (Hp & Hpe & Hx). unfold parse_value.
  rewrite (ws_seen _ _ _ Hs Hw). cbn [mbind option_bind]. rewrite decide_False by lia. by rewrite Hx.
Qed.

Lemma parsed_done p n v : parsed p (p + n) EAF_OK v =
  (p + n, JsonValue (type v) (boolean v) (number v) (string_at v) (string_length v) (Some p) n, EAF_OK).
Proof.
  unfold parsed. rewrite decide_False by apply EAF_OK_zero. by replace (p + n - p) with n by lia.
Qed.

(** [skip_object] and [skip_array] with their own fuel. *)
Lemma skip_object_eq p kvs : wf_json (JObj kvs) = true -> seen p (render (JObj kvs)) ->
  skip_object b e p = Some (p + zlen (render (JObj kvs)), EAF_OK).
Proof.
  intros Hwf Hs. apply skip_object_body; [done |]. intros q Hne Hq ->. cbn [wf_json] in Hwf.
  pose proof (seen_bounds _ _ Hq) as Hb. rewrite zlen_app in Hb. change (zlen [c_rbrace]) with 1 in Hb.
  apply object_loop_eq; [done | | done | done | unfold fuel_for; lia].
  apply members_skip; [| done]. apply List.Forall_forall. intros kv _. apply skip_value_render.
Qed.
Lemma skip_array_eq p vs : wf_json (JArr vs) = true -> seen p (render (JArr vs)) ->
  skip_array b e p = Some (p + zlen (render (JArr vs)), EAF_OK).
Proof.
  intros Hwf Hs. apply skip_array_body; [done | done |]. intros q Hne Hq ->. cbn [wf_json] in Hwf.
  pose proof (seen_bounds _ _ Hq) as Hb. rewrite zlen_app in Hb. change (zlen [c_rbracket]) with 1 in Hb.
  apply array_loop_eq; [done | | done | done | unfold fuel_for; lia].
  apply all_skip; [| done]. apply List.Forall_forall. intros kv _. apply skip_value_render.
Qed.

Lemma parse_value_render p v :
  wf_json v = true -> readable v = true -> seen p (render v) -> follow (p + zlen (render v)) ->
  parse_value b e p = Some (p + zlen (render v), value_of p v, EAF_OK).
Proof.
  intros Hwf Hr Hs Hfol. destruct v as [|x|neg ds [fr|]|t|vs|kvs]; try done.
  - rewrite (parse_value_at p _ _ Hs) by done. rewrite !decide_False by done. rewrite decide_True by done.
    rewrite (match_literal_eq p) by done. cbn [mbind option_bind]. by rewrite parsed_done.
  - destruct x; rewrite (parse_value_at p _ _ Hs) by done; rewrite !decide_False by done; rewrite decide_True by done;
      rewrite (match_literal_eq p) by done; cbn [mbind option_bind]; by rewrite parsed_done.
  - destruct (number_head neg ds None Hwf) as (x & t & E & Hx). cbn [render] in *. rewrite E in Hs.
    destruct (head_not_ws x) as (Hw & _); [unfold head_ok; tauto |].
    rewrite (parse_value_at p _ _ Hs Hw). rewrite <- E in Hs.
    assert (Hd : x = 45 \/ 48 <= x <= 57) by (destruct Hx as [->|Hx%digit_range]; [by left | by right]).
    unfold c_lbrace, c_lbracket, c_quote. rewrite !decide_False by lia. rewrite (parse_number_eq p neg ds) by done.
    cbn [mbind option_bind]. by rewrite parsed_done.
  - rewrite (parse_value_at p _ _ Hs) by done. cbn [render wf_json] in *. rewrite !decide_False, decide_True by done.
    rewrite (scan_string_eq p t) by done. cbn [mbind option_bind]. by rewrite parsed_done.
  - rewrite (parse_value_at p _ _ Hs) by done. rewrite decide_False, decide_True by done. rewrite (skip_array_eq p vs) by done.
    cbn [mbind option_bind]. by rewrite parsed_done.
  - rewrite (parse_value_at p _ _ Hs) by done. rewrite decide_True by done. rewrite (skip_object_eq p kvs) by done.
    cbn [mbind option_bind]. by rewrite parsed_done.
Qed.

(** ** Path lookup *)

Fixpoint lookup_key (k : list Z) (kvs : list (list Z * json)) : option json :=
  match kvs with
  | [] => None
  | kv :: kvs => if decide (kv.1 = k) then Some kv.2 else lookup_key k kvs
  end.

Lemma key_matches_eq p k text : seen p k -> key_matches b p (zlen k) text = Some (bool_decide (k = text)).
Proof.
  intros (Hp & Hl & Hs). unfold key_matches. case_decide as Hz.
  - rewrite memeq_eq by lia. by rewrite <- Hz, Hs.
  - rewrite bool_decide_eq_false_2; [done |]. by intros ->.
Qed.

Definition members_wf (kvs : list (list Z * json)) : Prop := forallb (fun kv => body_ok kv.1 && wf_json kv.2) kvs = true.

Lemma members_wf_cons k v kvs : members_wf ((k, v) :: kvs) <-> body_ok k = true /\ wf_json v = true /\ members_wf kvs.
Proof. unfold members_wf. cbn [forallb fst snd]. rewrite !andb_true_iff. tauto. Qed.

(** The members from [p] to the closing brace. *)
Definition members_at (p : Z) (kvs : list (list Z * json)) : Prop :=
  members_wf kvs /\ seen p (sep_by (map member_text kvs) ++ [c_rbrace]).

(** The reader at the first of the remaining members: where its key, value and
    successor are, and that the value can be skipped. *)
Lemma members_step p k v kvs :
  members_at p ((k, v) :: kvs) ->
  skip_ws b e p = Some p /\ p < e /\ next_is b e (eqc c_rbrace) p = Some false /\ wf_json v = true /\
  exists q, scan_string b e p = Some (q, p + 1, zlen k, EAF_OK) /\ colon b e q = Some (q + 1, EAF_OK) /\ seen (p + 1) k /\
    seen (q + 1) (render v) /\ follow (q + 1 + zlen (render v)) /\ p < q /\
    (if decide (kvs = []) then exists r, separator b e c_rbrace (q + 1 + zlen (render v)) = Some (r, Some EAF_OK)
     else exists r, separator b e c_rbrace (q + 1 + zlen (render v)) = Some (r, None) /\ members_at r kvs).
Proof.
  intros [Hwf Hs]. apply members_wf_cons in Hwf as (Hk & Hv & Hwf).
  assert (Hcase : exists rest, sep_by (map member_text ((k, v) :: kvs)) ++ [c_rbrace] = member_text (k, v) ++ rest /\
    ((kvs = [] /\ rest = [c_rbrace]) \/ (kvs <> [] /\ rest = c_comma :: sep_by (map member_text kvs) ++ [c_rbrace]))).
  { cbn [map]. destruct kvs as [|kv kvs]; [eexists; split; [done | by left] |]. eexists. split; [| by right].
    cbn [map]. rewrite sep_by_cons by done. rewrite <- !app_assoc. done. }
  destruct Hcase as (rest & E & Hrest). rewrite E in Hs.
  assert (Hh : exists t, member_text (k, v) ++ rest = c_quote :: t) by (eexists; done). destruct Hh as [t Hh].
  pose proof Hs as Hs'. rewrite Hh in Hs'. pose proof (seen_head _ _ _ Hs') as (Hp & Hpe & _).
  split; [by eapply ws_seen |]. split; [done |]. split; [by rewrite (next_is_seen _ _ _ _ Hs') |]. split; [done |].
  destruct (member_eq p k v rest Hs Hk) as (q & Hscan & Hc & Hsv & Hq & Hkey & Hpq). exists q.
  apply seen_app in Hsv as [Hsv Hsr]. split; [done |]. split; [done |]. split; [done |]. split; [done |].
  destruct Hrest as [[-> ->]|[Hne ->]].
  - split; [eapply follow_at; [exact Hsr | tauto] |]. split; [done |]. rewrite decide_True by done.
    eexists. by apply (separator_close c_rbrace _ []).
  - split; [eapply follow_at; [exact Hsr | tauto] |]. split; [done |]. rewrite decide_False by done.
    eexists. split; [by eapply separator_comma |]. apply seen_cons in Hsr as [_ Hsr]. by split.
Qed.

Lemma skip_here q v : wf_json v = true -> seen q (render v) -> follow (q + zlen (render v)) ->
  skip_value b e (fuel_for e q) q = Some (q + zlen (render v), EAF_OK).
Proof.
  intros Hv Hs Hf. pose proof (seen_bounds _ _ Hs). apply skip_value_render; [done | done | done |]. unfold fuel_for. lia.
Qed.

Definition descends (kvs : list (list Z * json)) (segment : list Z) (out : eaf_sendspin_json_value_t) (leaf : bool)
    (r : ub (Z * eaf_sendspin_json_value_t * Z)) : Prop :=
  match lookup_key segment kvs with
  | Some v => exists q, wf_json v = true /\ seen q (render v) /\ follow (q + zlen (render v)) /\
                        r = if leaf then parse_value b e q else Some (q, out, EAF_OK)
  | None => exists q, r = Some (q, out, EAF_UNSUPPORTED)
  end.

Lemma descend_loop_eq fuel p kvs segment out leaf :
  members_at p kvs -> kvs <> [] -> (length kvs <= fuel)%nat ->
  descends kvs segment out leaf (descend_loop fuel b e p segment out leaf).
Proof.
  revert p kvs. induction fuel as [|fuel IH]; intros p kvs Hm Hne Hf; [destruct kvs; [done | simpl in Hf; lia] |].
  destruct kvs as [|[k v] kvs]; [done |]. simpl in Hf.
  destruct (members_step p k v kvs Hm) as (Hws & Hpe & Hnb & Hv & q & Hscan & Hc & Hkey & Hsv & Hfol & Hpq & Hsep).
  cbn [descend_loop]. rewrite Hws. cbn [mbind option_bind]. rewrite decide_False by lia. rewrite Hnb. cbn [mbind option_bind].
  rewrite Hscan. cbn [mbind option_bind]. rewrite decide_False by apply EAF_OK_zero. rewrite Hc. cbn [mbind option_bind].
  rewrite decide_False by apply EAF_OK_zero. rewrite (key_matches_eq (p + 1) k) by done. cbn [mbind option_bind].
  unfold descends. cbn [lookup_key fst snd]. destruct (decide (k = segment)) as [Heq|Hneq].
  - rewrite bool_decide_eq_true_2 by done. by exists (q + 1).
  - rewrite bool_decide_eq_false_2 by done. rewrite (skip_here _ v) by done. cbn [mbind option_bind].
    rewrite decide_False by apply EAF_OK_zero. destruct (decide (kvs = [])) as [->|Hkv].
    + destruct Hsep as [r ->]. cbn [mbind option_bind lookup_key]. rewrite decide_True by done. by exists r.
    + destruct Hsep as (r & -> & Hm'). cbn [mbind option_bind]. apply IH; [done | done | lia].
Qed.

Lemma sep_by_zlen parts : Forall (fun t => 0 < zlen t) parts -> Z.of_nat (length parts) <= zlen (sep_by parts).
Proof.
  induction 1 as [|t parts Ht Hp IH]; [done |]. destruct parts as [|u parts]; [simpl; lia |].
  rewrite sep_by_cons, !zlen_app by done. change (zlen [c_comma]) with 1. simpl length in *. lia.
Qed.

Lemma members_count p kvs : members_at p kvs -> p + Z.of_nat (length kvs) + 1 <= e.
Proof.
  intros [_ Hs]. pose proof (seen_bounds _ _ Hs) as Hb. rewrite zlen_app in Hb. change (zlen [c_rbrace]) with 1 in Hb.
  pose proof (sep_by_zlen (map member_text kvs)) as Hz. rewrite length_map in Hz.
  assert (Forall (fun t : list Z => 0 < zlen t) (map member_text kvs)).
  { apply List.Forall_map, List.Forall_forall. intros [k v] _. unfold member_text, quoted. rewrite !zlen_app.
    change (zlen [c_quote]) with 1. pose proof (zlen_nonneg k). pose proof (zlen_nonneg [c_colon]). pose proof (zlen_nonneg (render v)).
    cbn [fst snd]. lia. }
  specialize (Hz H). lia.
Qed.

(** At an object's brace. *)
Lemma object_at p kvs : wf_json (JObj kvs) = true -> seen p (render (JObj kvs)) ->
  skip_ws b e p = Some p /\ next_is b e (eqc c_lbrace) p = Some true /\ members_at (p + 1) kvs.
Proof.
  rewrite render_obj. intros Hwf Hs. simpl app in Hs. split; [by eapply ws_seen |].
  split; [by rewrite (next_is_seen _ _ _ _ Hs) |]. apply seen_cons in Hs as [_ Hs]. by split.
Qed.

Lemma descend_object p kvs segment out leaf :
  wf_json (JObj kvs) = true -> seen p (render (JObj kvs)) ->
  descends kvs segment out leaf (descend b e p segment out leaf).
Proof.
  intros Hwf Hs. destruct (object_at p kvs Hwf Hs) as (Hws & Hb & Hm). unfold descend. rewrite Hws. cbn [mbind option_bind].
  rewrite Hb. cbn [mbind option_bind negb]. pose proof (members_count _ _ Hm) as Hcount.
  destruct kvs as [|kv kvs].
  - destruct Hm as [_ Hm]. simpl app in Hm. pose proof (seen_head _ _ _ Hm) as (Hp & Hpe & _).
    destruct (fuel_for e p) as [|fuel] eqn:Ef; [unfold fuel_for in Ef; lia |]. cbn [descend_loop].
    rewrite (ws_seen _ _ _ Hm) by done. cbn [mbind option_bind]. rewrite decide_False by lia.
    rewrite (next_is_seen _ _ _ _ Hm). cbn [mbind option_bind]. unfold descends. simpl. by eexists.
  - apply descend_loop_eq; [done | done |]. unfold fuel_for. simpl length in *. lia.
Qed.

Lemma descend_other p v segment out leaf :
  wf_json v = true -> seen p (render v) -> (forall kvs, v <> JObj kvs) ->
  exists q, descend b e p segment out leaf = Some (q, out, EAF_INVALID).
Proof.
  intros Hwf Hs Hno. destruct (render_head v Hwf) as (x & t & E & Hx). rewrite E in Hs.
  destruct (head_not_ws x Hx) as (Hw & _). unfold descend. rewrite (ws_seen _ _ _ Hs Hw). cbn [mbind option_bind].
  rewrite (next_is_seen _ _ _ _ Hs). cbn [mbind option_bind].
  assert (Hne : x <> c_lbrace).
  { destruct v as [|[]|neg ds fr|s|vs|kvs]; try (injection E as <- _; done); [| by destruct (Hno kvs)].
    destruct (number_head neg ds fr Hwf) as (y & u & E2 & Hy). cbn [render] in E. rewrite E2 in E. injection E as <- _.
    destruct Hy as [->|Hy%digit_range]; [done | unfold c_lbrace; lia]. }
  unfold eqc. rewrite bool_decide_eq_false_2 by done. cbn [negb]. by eexists.
Qed.
End reading.

(** ** Dotted paths *)

Fixpoint dotted (segs : list (list Z)) : list Z :=
  match segs with
  | [] => []
  | [s] => s
  | s :: segs => s ++ [c_dot] ++ dotted segs
  end.

(** What a path leads to, or the reader's error code. *)
Fixpoint json_path (segs : list (list Z)) (v : json) : json + Z :=
  match segs with
  | [] => inl v
  | s :: segs =>
      match v with
      | JObj kvs => match lookup_key s kvs with Some w => json_path segs w | None => inr EAF_UNSUPPORTED end
      | _ => inr EAF_INVALID
      end
  end.

Definition lookup_post (b : list Z) (e : Z) (out : eaf_sendspin_json_value_t) (r : ub (eaf_sendspin_json_value_t * Z)) (res : json + Z) : Prop :=
  match res with
  | inl w => if readable w then exists q, seen b e q (render w) /\ r = Some (value_of q w, EAF_OK)
             else exists o, r = Some (o, EAF_INVALID)
  | inr rc => r = Some (out, rc)
  end.

Section lookup.
Context (b : list Z) (e : Z) (He : e <= zlen b).

Lemma parse_fraction p neg ds f :
  wf_json (JNum neg ds (Some f)) = true -> seen b e p (render (JNum neg ds (Some f))) ->
  exists q o, parse_value b e p = Some (q, o, EAF_INVALID).
Proof.
  intros Hwf Hs. destruct (number_head neg ds (Some f) Hwf) as (x & t & E & Hx). cbn [render] in Hs. rewrite E in Hs.
  destruct (head_not_ws x) as (Hw & _); [unfold head_ok; tauto |].
  rewrite (parse_value_at b e He p _ _ Hs Hw). rewrite <- E in Hs.
  assert (Hr : x = 45 \/ 48 <= x <= 57) by (destruct Hx as [->|Hx%digit_range]; [by left | by right]).
  unfold c_lbrace, c_lbracket, c_quote. rewrite !decide_False by lia. clear x t E Hx Hw Hr.
  cbn [wf_json] in Hwf. rewrite !andb_true_iff in Hwf. destruct Hwf as ((Hne & Hds) & Hf).
  apply negb_true_iff, bool_decide_eq_false in Hne. destruct ds as [|d ds'] eqn:Eds; [done |]. rewrite <- Eds in *.
  assert (Hd : digit d = true) by (rewrite Eds in Hds; simpl in Hds; by apply andb_prop in Hds as [? _]).
  destruct (sign_at b e He p neg ds _ d ds' Eds Hd Hs) as (Hm & Hs1 & _). unfold parse_number. rewrite Hm. cbn [mbind option_bind].
  set (q := if neg then p + 1 else p) in *. apply seen_app in Hs1 as [Hsd Hsf]; [| done]. simpl app in Hsf.
  rewrite Eds in Hsd at 1. rewrite (next_is_seen b e He _ _ _ _ Hsd), Hd. cbn [mbind option_bind negb]. rewrite <- Eds in Hsd.
  pose proof (seen_bounds b e _ _ Hsd) as Hb.
  destruct (number_loop_eq b e He (Z.to_nat (e - q)) q ds 0 0 false) as (m & o & -> & _);
    [done | done | unfold stops; by rewrite (next_is_seen b e He _ _ _ _ Hsf) | unfold zlen in *; lia | by split |].
  cbn [mbind option_bind]. rewrite (next_is_seen b e He _ _ _ _ Hsf). cbn [mbind option_bind].
  change (eqc c_dot c_dot || is_exp c_dot) with true. cbn [mbind option_bind]. eexists _, _. unfold parsed. by rewrite decide_True by done.
Qed.

Lemma dotted_cons s segs : segs <> [] -> dotted (s :: segs) = s ++ [c_dot] ++ dotted segs.
Proof. by destruct segs. Qed.

Lemma first_dot (s t1 t2 t : list Z) : c_dot ∉ s -> c_dot ∉ t1 -> s ++ c_dot :: t = t1 ++ c_dot :: t2 -> s = t1 /\ t = t2.
Proof.
  revert t1. induction s as [|x s IH]; intros [|y t1] Hs Ht E; simpl in *.
  - by injection E as ->.
  - injection E as <- _. set_solver.
  - injection E as -> _. set_solver.
  - injection E as -> E. destruct (IH t1) as [-> ->]; [set_solver | set_solver | done | done].
Qed.

(** One segment of the path. *)
Lemma get_step fuel p path s segs out :
  c_string (dotted (s :: segs)) path -> c_dot ∉ s ->
  exists leaf, (leaf = true <-> segs = []) /\ (segs <> [] -> c_string (dotted segs) (drop (Z.to_nat (zlen s + 1)) path)) /\
  get_loop (S fuel) b e p path out =
    ('(p, out, rc) ← descend b e p s out leaf;
     if decide (rc <> 0) then Some (out, rc)
     else if leaf then Some (out, EAF_OK) else get_loop fuel b e p (drop (Z.to_nat (zlen s + 1)) path) out).
Proof.
  intros Hpath Hdot. destruct (strchr_string _ _ c_dot Hpath) as (r & Hr & Hspec); [done |].
  pose proof (c_string_len _ _ Hpath) as Hlen. pose proof (zlen_nonneg s). cbn [get_loop]. rewrite Hr. cbn [mbind option_bind].
  destruct (decide (segs = [])) as [->|Hsegs].
  - exists true. split; [done |]. split; [done |].
    destruct r as [n|]; [destruct Hspec as (t1 & t2 & E & _ & _); simpl in E; subst s; set_solver |].
    rewrite (strlen_string _ _ Hpath). cbn [mbind option_bind dotted] in *. rewrite ldn_eq by lia. cbn [mbind option_bind].
    destruct Hpath as [_ [rest ->]]. by rewrite slice_app_head.
  - exists false. split; [done |]. rewrite dotted_cons in * by done. split; [intros _; eapply c_string_drop; exact Hpath |].
    destruct r as [n|]; [| set_solver]. destruct Hspec as (t1 & t2 & E & -> & Hn). simpl app in E.
    destruct (first_dot _ _ _ _ Hdot Hn E) as [<- _]. cbn [mbind option_bind].
    rewrite !zlen_app in Hlen. pose proof (zlen_nonneg (dotted segs)). pose proof (zlen_nonneg [c_dot]).
    rewrite ldn_eq by lia. cbn [mbind option_bind]. destruct Hpath as [_ [rest ->]]. rewrite <- app_assoc. by rewrite slice_app_head.
Qed.

Lemma parse_found q w out : wf_json w = true -> seen b e q (render w) -> follow b e (q + zlen (render w)) ->
  lookup_post b e out ('(_, o, rc) ← parse_value b e q; if decide (rc <> 0) then Some (o, rc) else Some (o, EAF_OK)) (inl w).
Proof.
  intros Hw Hs Hf. unfold lookup_post. destruct (readable w) eqn:Hr.
  - exists q. split; [done |]. rewrite (parse_value_render b e He q w) by done. cbn [mbind option_bind].
    by rewrite decide_False by apply EAF_OK_zero.
  - destruct w as [|x|neg ds [f|]|t|vs|kvs]; try done. destruct (parse_fraction q neg ds f Hw Hs) as (q' & o & ->).
    exists o. done.
Qed.

Lemma get_loop_eq fuel p path segs v out :
  c_string (dotted segs) path -> segs <> [] -> Forall (fun s => c_dot ∉ s) segs -> (length segs <= fuel)%nat ->
  wf_json v = true -> seen b e p (render v) ->
  lookup_post b e out (get_loop fuel b e p path out) (json_path segs v).
Proof.
  revert p path segs v out. induction fuel as [|fuel IH]; intros p path segs v out Hpath Hne Hdots Hf Hwf Hs;
    [destruct segs; [done | simpl in Hf; lia] |].
  destruct segs as [|s segs]; [done |]. apply List.Forall_cons_iff in Hdots as [Hdot Hdots]. simpl in Hf.
  destruct (get_step fuel p path s segs out Hpath Hdot) as (leaf & Hleaf & Hnext & ->).
  assert (Hcase : (exists kvs, v = JObj kvs) \/ (forall kvs, v <> JObj kvs)) by (destruct v; [by right.. | left; by eexists]).
  destruct Hcase as [[kvs ->]|Hno].
  - pose proof (descend_object b e He p kvs s out leaf Hwf Hs) as Hd. unfold descends in Hd. cbn [json_path].
    destruct (lookup_key s kvs) as [w|]; [| destruct Hd as [q ->]; cbn [mbind option_bind]; by rewrite decide_True by done].
    destruct Hd as (q & Hw & Hsq & Hfq & ->). destruct leaf.
    + rewrite (proj1 Hleaf eq_refl). cbn [json_path]. by apply parse_found.
    + cbn [mbind option_bind]. rewrite decide_False by apply EAF_OK_zero.
      assert (segs <> []) by (intros ->; by destruct Hleaf as [_ Hl]; specialize (Hl eq_refl)). apply IH; auto. lia.
  - destruct (descend_other b e He p v s out leaf Hwf Hs Hno) as [q ->]. cbn [mbind option_bind].
    rewrite decide_True by done. cbn [json_path]. destruct v; try done. by destruct (Hno kvs).
Qed.
End lookup.

Lemma json_get_spec (v : json) (segs : list (list Z)) (b path : list Z) (out : eaf_sendspin_json_value_t) :
  wf_json v = true -> dotted segs <> [] -> Forall (fun s => c_dot ∉ s) segs -> c_string (dotted segs) path ->
  slice b 0 (zlen (render v)) = render v ->
  exists o rc, eaf_sendspin_json_get (Some b) (zlen (render v)) (Some path) (Some out) = Some (Some o, rc) /\
    match json_path segs v with
    | inl w => if readable w
               then rc = EAF_OK /\ exists q, o = value_of q w /\ slice b q (zlen (render w)) = render w
               else rc = EAF_INVALID
    | inr err => rc = err /\ o = out
    end.
Proof.
  intros Hwf Hne Hdots Hpath Hb. unfold eaf_sendspin_json_get.
  assert (Hlb : zlen (render v) <= zlen b).
  { pose proof (f_equal zlen Hb) as Hz. unfold slice, zlen in *. rewrite length_take, length_drop in Hz. lia. }
  assert (Hsegs : segs <> []) by (by intros ->). pose proof (c_string_len _ _ Hpath) as Hlen.
  assert (Hfirst : exists x, ld path 0 = Some x /\ x <> 0).
  { destruct Hpath as [Hnz [rest ->]]. destruct (dotted segs) as [|x t]; [done |]. exists x. split; [done |].
    by apply List.Forall_cons_iff in Hnz as [? _]. }
  destruct Hfirst as (x & -> & Hx). cbn [mbind option_bind]. rewrite decide_False by done.
  assert (Hcount : forall l, (length l <= length (dotted l) + 1)%nat).
  { clear. induction l as [|s l IH]; [simpl; lia |]. destruct l as [|s' l]; [simpl; lia |].
    rewrite dotted_cons, !length_app by done. simpl length in *. lia. }
  pose proof (get_loop_eq b (zlen (render v)) Hlb (length path) 0 path segs v out Hpath Hsegs Hdots) as H.
  unfold lookup_post in H. specialize (Hcount segs).
  assert (Hfuel : (length segs <= length path)%nat) by (unfold zlen in Hlen; lia).
  assert (Hseen : seen b (zlen (render v)) 0 (render v)) by (split; [done |]; split; [lia | done]).
  specialize (H Hfuel Hwf Hseen). destruct (json_path segs v) as [w|err].
  - destruct (readable w).
    + destruct H as (q & (_ & _ & Hq) & ->). eexists _, _. split; [done |]. split; [done |]. by exists q.
    + destruct H as [o ->]. by exists o, EAF_INVALID.
  - rewrite H. by exists out, err.
Qed.


(** [{"a":{"n":-5},"s":"x"}] *)
Definition sample : json := JObj [([97], JObj [([110], JNum true [53] None)]); ([115], JStr [120])].


(** Whitespace after a comma: accepted between the members of the object a path
    walks through, refused inside an object that is skipped over, so one legal
    space in an unrelated member hides every later key. *)
Theorem json_nested_space_refused :
  let q t := [c_quote] ++ chars t ++ [c_quote] in
  let message space_in space_out :=
    chars "{" ++ q "skip" ++ chars ":{" ++ q "x" ++ chars ":1," ++ space_in ++ q "y" ++ chars ":2}," ++ space_out ++
    q "type" ++ chars ":" ++ q "t" ++ chars "}" in
  let type_of m := snd <$> eaf_sendspin_json_get (Some m) (zlen m) (Some (chars "type" ++ [0])) (Some json_zero) in
  type_of (message [] []) = Some EAF_OK /\ type_of (message [] [32]) = Some EAF_OK /\
  type_of (message [32] []) = Some EAF_INVALID.
Proof. by vm_compute. Qed.
