(* ===== verification/JsonFields.v ===== *)
(** One pass over an object fills a set of fields: [scan_fields] and
    [parse_array_membership] of [Json] on well-formed messages. *)

From stdpp Require Import strings.
From S2P Require Import Prelude Types Ring Bytes Text Json JsonRender.

Section fields.
Context (b : list Z) (e : Z) (He : e <= zlen b).

Lemma member_head_quote v x t : wf_json v = true -> render v = x :: t -> x = c_quote -> exists s, v = JStr s.
Proof.
  intros Hwf E ->. destruct v as [|[]|neg ds fr|s|vs|kvs]; try done; [| by eexists].
  destruct (number_head neg ds fr Hwf) as (y & u & E2 & Hy). cbn [render] in E. rewrite E2 in E. injection E as -> _.
  destruct Hy as [?|Hy%digit_range]; [done | unfold c_quote in Hy; lia].
Qed.

(** ** Membership in an array of strings *)

Definition contains (n : list Z) (v : json) : bool :=
  match v with
  | JArr vs => existsb (fun w => match w with JStr t => bool_decide (t = n) | _ => false end) vs
  | _ => false
  end.

(** The element of the array at [q]: recognised, or skipped. *)
Lemma element_eq n q v m :
  wf_json v = true -> seen b e q (render v) -> follow b e (q + zlen (render v)) ->
  (quote ← next_is b e (eqc c_quote) q;
   if quote : bool then
     '(p, start, len, rc) ← scan_string b e q;
     if decide (rc <> 0) then Some (p, m, rc)
     else if negb m && bool_decide (len = zlen n) then eq ← memeq b start n; Some (p, eq, EAF_OK)
     else Some (p, m, EAF_OK)
   else '(p, rc) ← skip_value b e (fuel_for e q) q; Some (p, m, rc))
  = Some (q + zlen (render v), m || match v with JStr t => bool_decide (t = n) | _ => false end, EAF_OK).
Proof.
  intros Hwf Hs Hf. destruct (render_head v Hwf) as (x & t & E & Hx). pose proof Hs as Hs'. rewrite E in Hs'.
  rewrite (next_is_seen b e He _ _ _ _ Hs'). cbn [mbind option_bind]. unfold eqc. case_bool_decide as Hq.
  - destruct (member_head_quote v x t Hwf E Hq) as [s ->]. cbn [render wf_json] in *.
    rewrite (scan_string_eq b e He q s) by done. cbn [mbind option_bind]. rewrite decide_False by apply EAF_OK_zero.
    assert (Hk : seen b e (q + 1) s).
    { unfold quoted in Hs. apply seen_app in Hs as [_ Hs]; [| done]. by apply seen_app in Hs as [Hs _]. }
    destruct m; cbn [negb andb orb]; [done |]. case_bool_decide as Hz.
    + destruct Hk as (Hq1 & Hl & Hsl). rewrite memeq_eq by lia. cbn [mbind option_bind]. by rewrite <- Hz, Hsl.
    + rewrite bool_decide_eq_false_2; [done |]. by intros ->.
  - rewrite (skip_here b e He q v) by done. cbn [mbind option_bind].
    replace (match v with JStr t => bool_decide (t = n) | _ => false end) with false; [by rewrite orb_false_r |].
    destruct v; try done. cbn [render] in E. injection E as <- _. done.
Qed.

Lemma member_loop_eq n vs fuel q m :
  vs <> [] -> forallb wf_json vs = true -> seen b e q (sep_by (map render vs) ++ [c_rbracket]) -> (length vs <= fuel)%nat ->
  member_loop b e fuel n q m = Some (q + zlen (sep_by (map render vs)) + 1, m || contains n (JArr vs), EAF_OK).
Proof.
  revert fuel q m. induction vs as [|v vs IH]; intros fuel q m Hne Hwf Hs Hf; [done |].
  cbn [forallb] in Hwf. apply andb_prop in Hwf as [Hwv Hwf]. simpl length in Hf. destruct fuel as [|fuel]; [lia |].
  cbn [member_loop]. destruct (array_head v vs Hwv) as (y & t & E & Hy). destruct (head_not_ws y Hy) as (Hyw & _).
  pose proof Hs as Hs'. rewrite E, <- app_comm_cons in Hs'. rewrite (ws_seen b e He _ _ _ Hs' Hyw). cbn [mbind option_bind].
  cbn [map contains existsb] in *. fold (contains n (JArr vs)).
  destruct (decide (vs = [])) as [->|Hvs].
  - cbn [sep_by map] in *. apply seen_app in Hs as [Hs1 Hs2]; [| done].
    pose proof (element_eq n q v m Hwv Hs1 ltac:(eapply follow_at; [done | exact Hs2 | tauto])) as Hel.
    destruct (next_is b e (eqc c_quote) q) as [quote|]; [| done]. cbn [mbind option_bind] in *. rewrite Hel. cbn [mbind option_bind].
    rewrite decide_False by apply EAF_OK_zero. rewrite (separator_close b e He c_rbracket _ []) by done. cbn [mbind option_bind].
    by rewrite orb_false_r.
  - rewrite sep_by_cons, !zlen_app in * by (by destruct vs). change (zlen [c_comma]) with 1 in *.
    rewrite <- !app_assoc in Hs. apply seen_app in Hs as [Hs1 Hs2]; [| done]. simpl app in Hs2.
    pose proof (element_eq n q v m Hwv Hs1 ltac:(eapply follow_at; [done | exact Hs2 | tauto])) as Hel.
    destruct (next_is b e (eqc c_quote) q) as [quote|]; [| done]. cbn [mbind option_bind] in *. rewrite Hel. cbn [mbind option_bind].
    rewrite decide_False by apply EAF_OK_zero. rewrite (separator_comma b e He _ _ _ Hs2). cbn [mbind option_bind].
    apply seen_cons in Hs2 as [_ Hs2]; [| done].
    rewrite (IH fuel) by (done || lia). rewrite orb_assoc. do 3 f_equal. lia.
Qed.

Lemma membership_eq n q v :
  wf_json v = true -> seen b e q (render v) -> follow b e (q + zlen (render v)) ->
  parse_array_membership b e q n false = Some (q + zlen (render v), contains n v, EAF_OK).
Proof.
  intros Hwf Hs Hf. destruct (render_head v Hwf) as (x & t & E & Hx). pose proof Hs as Hs'. rewrite E in Hs'.
  destruct (head_not_ws x Hx) as (Hxw & _). unfold parse_array_membership.
  rewrite (ws_seen b e He _ _ _ Hs' Hxw). cbn [mbind option_bind]. rewrite (next_is_seen b e He _ _ _ _ Hs').
  cbn [mbind option_bind]. unfold eqc at 1. case_bool_decide as Hb; cbn [negb].
  - assert (Hv : exists vs, v = JArr vs).
    { destruct v as [|[]|neg ds fr|s|vs|kvs]; try (cbn in E; injection E as <- _; done); [| by eexists].
      destruct (number_head neg ds fr Hwf) as (y & u & E2 & Hy). cbn [render] in E. rewrite E2 in E. injection E as -> _.
      subst. destruct Hy as [?|Hy%digit_range]; [done | unfold c_lbracket in Hy; lia]. }
    destruct Hv as [vs ->]. cbn [render wf_json] in *. simpl app in Hs. clear E Hs' Hx.
    pose proof Hs as Hs1. apply seen_cons in Hs1 as [_ Hs1]; [| done]. rewrite !zlen_app.
    change (zlen [c_lbracket]) with 1. change (zlen [c_rbracket]) with 1. destruct vs as [|v vs].
    + rewrite (ws_seen b e He _ _ _ Hs1) by done. cbn [mbind option_bind]. rewrite (next_is_seen b e He _ _ _ _ Hs1).
      cbn [mbind option_bind]. change (eqc c_rbracket c_rbracket) with true. cbn [contains existsb].
      do 3 f_equal. change (zlen (sep_by (map render []))) with 0. lia.
    + pose proof Hwf as Hwf'. cbn [forallb] in Hwf'. apply andb_prop in Hwf' as [Hwv _].
      destruct (array_head v vs Hwv) as (y & u & E & Hy). destruct (head_not_ws y Hy) as (Hyw & _ & Hyb).
      pose proof Hs1 as Hs2. rewrite E, <- app_comm_cons in Hs2. rewrite (ws_seen b e He _ _ _ Hs2 Hyw). cbn [mbind option_bind].
      rewrite (next_is_seen b e He _ _ _ _ Hs2). cbn [mbind option_bind]. unfold eqc. rewrite bool_decide_eq_false_2 by done.
      pose proof (seen_bounds b e _ _ Hs1) as Hbd. rewrite zlen_app in Hbd. change (zlen [c_rbracket]) with 1 in Hbd.
      pose proof (sep_by_zlen (map render (v :: vs))) as Hcount. rewrite length_map in Hcount.
      assert (Hpos : Forall (fun t : list Z => 0 < zlen t) (map render (v :: vs))).
      { apply List.Forall_map, List.Forall_forall. intros w Hw. rewrite forallb_forall in Hwf.
        destruct (render_head w (Hwf w Hw)) as (z & r & Ez & _). rewrite Ez, zlen_cons. pose proof (zlen_nonneg r). lia. }
      specialize (Hcount Hpos). rewrite (member_loop_eq n (v :: vs)) by (done || unfold fuel_for; lia). cbn [orb]. do 3 f_equal. lia.
  - rewrite (skip_here b e He q v) by done. cbn [mbind option_bind].
    replace (contains n v) with false; [done |]. destruct v; try done. cbn [render] in E. injection E as <- _. done.
Qed.

(** ** Filling the fields *)

Definition filled (kvs : list (list Z * json)) (f f' : json_field_t) : Prop :=
  if found f then f' = f
  else match lookup_key (key f) kvs with
  | None => f' = f
  | Some v =>
      key f' = key f /\ needle f' = needle f /\ found f' = true /\
      match needle f with
      | Some n => value f' = value f /\ member f' = contains n v
      | None => member f' = member f /\ exists q, seen b e q (render v) /\ value f' = Some (value_of q v)
      end
  end.

(** What the fields need of the members they match. *)
Definition field_wants (kvs : list (list Z * json)) (f : json_field_t) : Prop :=
  member f = false /\ (needle f = None -> value f <> None) /\
  (forall v, needle f = None -> lookup_key (key f) kvs = Some v -> readable v = true).

Lemma find_field_eq start k i fields :
  seen b e start k ->
  exists r, find_field b start (zlen k) i fields = Some r /\
    match r with
    | Some j => exists f, (i <= j)%nat /\ fields !! (j - i)%nat = Some f /\ found f = false /\ key f = k
    | None => Forall (fun f => found f = true \/ key f <> k) fields
    end.
Proof.
  intros Hs. revert i. induction fields as [|f fields IH]; intros i; cbn [find_field]; [by exists None |].
  assert (Heq : (if found f then Some false else key_matches b start (zlen k) (key f))
    = Some (negb (found f) && bool_decide (k = key f))).
  { destruct (found f); [done |]. by rewrite (key_matches_eq b e He start k). }
  rewrite Heq. cbn [mbind option_bind]. destruct (negb (found f) && bool_decide (k = key f)) eqn:Hm.
  - apply andb_prop in Hm as [Hnf Hk%bool_decide_eq_true]. apply negb_true_iff in Hnf. exists (Some i). split; [done |].
    exists f. replace (i - i)%nat with 0%nat by lia. done.
  - destruct (IH (S i)) as (r & -> & Hr). exists r. split; [done |]. destruct r as [j|].
    + destruct Hr as (g & Hj & Hg & Hnf & Hk). exists g. split; [lia |]. replace (j - i)%nat with (S (j - S i)) by lia. done.
    + constructor; [| done]. apply andb_false_iff in Hm as [Hf|Hk]; [left; by apply negb_false_iff in Hf |].
      apply bool_decide_eq_false in Hk. right. congruence.
Qed.

Lemma parse_field_eq q f v kvs :
  wf_json v = true -> seen b e q (render v) -> follow b e (q + zlen (render v)) ->
  found f = false -> lookup_key (key f) kvs = Some v -> field_wants kvs f ->
  exists f', parse_field b e q f = Some (q + zlen (render v), f', EAF_OK) /\ filled kvs f f' /\ found f' = true /\ key f' = key f.
Proof.
  intros Hwf Hs Hf Hnf Hl (Hm & Hv & Hr). unfold parse_field, filled. rewrite Hnf, Hl. destruct (needle f) as [n|] eqn:En.
  - rewrite Hm, (membership_eq n q v) by done. cbn [mbind option_bind]. eexists. split; [done |]. cbn. by rewrite <- En.
  - destruct (value f) as [v0|] eqn:Ev; [| by destruct (Hv eq_refl)]. cbn [mbind option_bind].
    rewrite (parse_value_render b e He q v); [| done | by apply Hr | done | done]. cbn [mbind option_bind].
    eexists. split; [done |]. cbn. split; [| done]. split; [done |]. split; [done |]. split; [done |]. split; [done |]. by exists q.
Qed.

Lemma filled_skip k v kvs f f' : found f = true \/ key f <> k -> filled kvs f f' -> filled ((k, v) :: kvs) f f'.
Proof.
  unfold filled. intros Hk Hf. destruct (found f); [done |]. cbn [lookup_key fst snd].
  rewrite decide_False; [done |]. destruct Hk as [?|?]; [done | congruence].
Qed.

Lemma wants_skip k v kvs f : key f <> k -> field_wants ((k, v) :: kvs) f -> field_wants kvs f.
Proof.
  intros Hk (Hm & Hv & Hr). split; [done |]. split; [done |]. intros w Hn Hl. apply Hr; [done |]. cbn [lookup_key fst snd].
  rewrite decide_False; [done | congruence].
Qed.

(** The fields not found yet, against the members that remain. *)
Definition pending (kvs : list (list Z * json)) (fields : list json_field_t) : Prop :=
  NoDup (key <$> fields) /\ Forall (fun f => found f = true \/ field_wants kvs f) fields.

Lemma pending_step k v kvs fields i f f1 :
  pending ((k, v) :: kvs) fields -> fields !! i = Some f -> found f = false -> key f = k ->
  found f1 = true -> key f1 = key f -> pending kvs (<[i := f1]> fields) /\
  forall fields', Forall2 (filled kvs) (<[i := f1]> fields) fields' -> filled ((k, v) :: kvs) f f1 ->
    Forall2 (filled ((k, v) :: kvs)) fields fields'.
Proof.
  intros [Hnd Hw] Hi Hnf Hk Hf1 Hk1.
  assert (Hother : forall j g, fields !! j = Some g -> j <> i -> key g <> k).
  { intros j g Hj Hji Hgk. apply Hji. apply (NoDup_lookup (key <$> fields) j i k); [done | |];
      rewrite list_lookup_fmap; [rewrite Hj | rewrite Hi]; simpl; congruence. }
  split; [split |].
  - rewrite list_fmap_insert, Hk1. rewrite list_insert_id; [done |]. rewrite list_lookup_fmap, Hi. done.
  - apply Forall_lookup. intros j g Hg. destruct (decide (j = i)) as [->|Hji].
    + rewrite list_lookup_insert_eq in Hg by (by apply lookup_lt_Some in Hi). injection Hg as <-. by left.
    + rewrite list_lookup_insert_ne in Hg by done. destruct (proj1 (Forall_lookup _ _) Hw j g Hg) as [?|Hwants]; [by left |].
      right. apply (wants_skip k v); [by apply (Hother j) | done].
  - intros fields' Hall Hfil.
    apply Forall2_lookup. intros j. apply Forall2_lookup with (i := j) in Hall.
    destruct (decide (j = i)) as [->|Hji].
    + rewrite Hi. rewrite list_lookup_insert_eq in Hall by (by apply lookup_lt_Some in Hi). inversion Hall as [? f' Hf|]; subst.
      constructor. unfold filled in Hf. rewrite Hf1 in Hf. by subst.
    + rewrite list_lookup_insert_ne in Hall by done. destruct (fields !! j) as [g|] eqn:Hg; [| inversion Hall; constructor].
      inversion Hall as [? f' Hf|]; subst. constructor. apply filled_skip; [right; by apply (Hother j) | done].
Qed.

Lemma pending_skip k v kvs fields :
  pending ((k, v) :: kvs) fields -> Forall (fun f => found f = true \/ key f <> k) fields -> pending kvs fields /\
  forall fields', Forall2 (filled kvs) fields fields' -> Forall2 (filled ((k, v) :: kvs)) fields fields'.
Proof.
  intros [Hnd Hw] Hk. split; [split; [done |] |].
  - apply Forall_lookup. intros j g Hg. pose proof (proj1 (Forall_lookup _ _) Hw j g Hg). pose proof (proj1 (Forall_lookup _ _) Hk j g Hg) as Hkg.
    destruct H as [?|H]; [by left |]. destruct Hkg as [?|?]; [by left |]. right. by apply (wants_skip k v).
  - intros fields' Hall. apply Forall2_lookup. intros j. apply Forall2_lookup with (i := j) in Hall.
    destruct (fields !! j) as [g|] eqn:Hg; [| inversion Hall; constructor]. inversion Hall as [? f' Hf|]; subst. constructor. apply filled_skip; [| done].
    by apply (proj1 (Forall_lookup _ _) Hk j g).
Qed.

Lemma filled_nil fields : Forall2 (filled []) fields fields.
Proof. induction fields as [|f fields IH]; constructor; [| done]. unfold filled. by destruct (found f). Qed.

Lemma fields_loop_eq fuel p kvs fields :
  members_at b e p kvs -> kvs <> [] -> (length kvs <= fuel)%nat -> pending kvs fields ->
  exists q fields', fields_loop fuel b e p fields = Some (q, fields', EAF_OK) /\ Forall2 (filled kvs) fields fields'.
Proof.
  revert p kvs fields. induction fuel as [|fuel IH]; intros p kvs fields Hm Hne Hf Hpend; [destruct kvs; [done | simpl in Hf; lia] |].
  destruct kvs as [|[k v] kvs]; [done |]. simpl in Hf.
  destruct (members_step b e He p k v kvs Hm) as (Hws & Hpe & Hnb & Hv & q & Hscan & Hc & Hkey & Hsv & Hfol & Hpq & Hsep).
  cbn [fields_loop]. rewrite Hws. cbn [mbind option_bind]. rewrite decide_False by lia. rewrite Hnb. cbn [mbind option_bind].
  rewrite Hscan. cbn [mbind option_bind]. rewrite decide_False by apply EAF_OK_zero. rewrite Hc. cbn [mbind option_bind].
  rewrite decide_False by apply EAF_OK_zero.
  destruct (find_field_eq (p + 1) k 0 fields Hkey) as (r & -> & Hr). cbn [mbind option_bind].
  assert (Hval : exists fields1, match r with
      | None => '(p, rc) ← skip_value b e (fuel_for e (q + 1)) (q + 1); Some (p, fields, rc)
      | Some i => f ← fields !! i; '(p, f, rc) ← parse_field b e (q + 1) f; Some (p, <[i := f]> fields, rc)
      end = Some (q + 1 + zlen (render v), fields1, EAF_OK) /\ pending kvs fields1 /\
      forall fields', Forall2 (filled kvs) fields1 fields' -> Forall2 (filled ((k, v) :: kvs)) fields fields').
  { destruct r as [i|].
    - destruct Hr as (f & _ & Hi & Hnf & Hk). rewrite Nat.sub_0_r in Hi. rewrite Hi. cbn [mbind option_bind].
      assert (Hl : lookup_key (key f) ((k, v) :: kvs) = Some v) by (cbn [lookup_key fst snd]; by rewrite decide_True).
      destruct Hpend as [Hnd Hw]. destruct (proj1 (Forall_lookup _ _) Hw i f Hi) as [?|Hwants]; [congruence |].
      destruct (parse_field_eq (q + 1) f v _ Hv Hsv Hfol Hnf Hl Hwants) as (f1 & -> & Hfil & Hf1 & Hk1). cbn [mbind option_bind].
      eexists. split; [done |].
      destruct (pending_step k v kvs fields i f f1 (conj Hnd Hw) Hi Hnf Hk Hf1 Hk1) as [Hp' Hall]. split; [done |].
      intros. by apply Hall.
    - rewrite (skip_here b e He (q + 1) v) by done. cbn [mbind option_bind]. eexists. split; [done |]. by apply pending_skip. }
  destruct Hval as (fields1 & -> & Hpend1 & Hall). cbn [mbind option_bind]. rewrite decide_False by apply EAF_OK_zero.
  destruct (decide (kvs = [])) as [->|Hkv].
  - destruct Hsep as [r' ->]. cbn [mbind option_bind]. eexists _, _. split; [done |]. apply Hall, filled_nil.
  - destruct Hsep as (r' & -> & Hm'). cbn [mbind option_bind].
    destruct (IH r' kvs fields1 Hm' Hkv ltac:(lia) Hpend1) as (q' & fields' & -> & Hfil). eexists _, _. split; [done |]. by apply Hall.
Qed.

(** [scan_fields] at an object fills each field from the first member with its
    key and leaves the others reset. *)
Lemma scan_fields_eq p kvs fields :
  wf_json (JObj kvs) = true -> seen b e p (render (JObj kvs)) ->
  NoDup (key <$> fields) -> Forall (fun f => found f = true \/ field_wants kvs f) (reset_field <$> fields) ->
  exists q fields', scan_fields b e p fields = Some (q, fields', EAF_OK) /\ Forall2 (filled kvs) (reset_field <$> fields) fields'.
Proof.
  intros Hwf Hs Hnd Hw. destruct (object_at b e He p kvs Hwf Hs) as (Hws & Hb & Hm). unfold scan_fields. rewrite Hws.
  cbn [mbind option_bind]. rewrite Hb. cbn [mbind option_bind negb]. pose proof (members_count b e _ _ Hm) as Hcount.
  assert (Hpend : pending kvs (reset_field <$> fields)).
  { split; [| done]. rewrite <- list_fmap_compose. by rewrite (list_fmap_ext _ key fields) by done. }
  destruct kvs as [|kv kvs].
  - destruct Hm as [_ Hm]. simpl app in Hm. pose proof (seen_head b e He _ _ _ Hm) as (Hp & Hpe & _).
    destruct (fuel_for e p) as [|fuel] eqn:Ef; [unfold fuel_for in Ef; lia |]. cbn [fields_loop].
    rewrite (ws_seen b e He _ _ _ Hm) by done. cbn [mbind option_bind]. rewrite decide_False by lia.
    rewrite (next_is_seen b e He _ _ _ _ Hm). cbn [mbind option_bind]. eexists _, _. split; [done |]. apply filled_nil.
  - apply fields_loop_eq; [done | done | unfold fuel_for; simpl length in *; lia | done].
Qed.
End fields.
