(* ===== verification/Messages.v ===== *)
(** The protocol messages of [apps/sendspin/sendspin_protocol.c] (lines 442-902):
    parsers of the server's messages and builders of the client's. *)

From stdpp Require Import strings.
From S2P Require Import Prelude Types Ring Bytes Text Json JsonRender JsonFields.

(** ** Messages *)

Inductive eaf_sendspin_codec_t :=
  | EAF_SENDPIN_CODEC_UNKNOWN | EAF_SENDPIN_CODEC_PCM | EAF_SENDPIN_CODEC_FLAC
  | EAF_SENDPIN_CODEC_OPUS | EAF_SENDPIN_CODEC_MP3 | EAF_SENDPIN_CODEC_VORBIS.

Inductive eaf_sendspin_command_t :=
  | EAF_SENDPIN_COMMAND_UNKNOWN | EAF_SENDPIN_COMMAND_VOLUME
  | EAF_SENDPIN_COMMAND_MUTE | EAF_SENDPIN_COMMAND_SET_STATIC_DELAY.

#[export] Instance codec_eq_dec : EqDecision eaf_sendspin_codec_t.
Proof. solve_decision. Defined.

(** A [const char *] with its length is an optional index and a length. *)
Record eaf_sendspin_server_hello_t := ServerHello {
  version : Z; player_active : bool;
  server_id : ptr Z; server_id_length : Z;
  server_name : ptr Z; server_name_length : Z;
  connection_reason : ptr Z; connection_reason_length : Z
}.
Record eaf_sendspin_server_time_t := ServerTime { client_transmitted : Z; server_received : Z; server_transmitted : Z }.
Record eaf_sendspin_stream_start_t := StreamStart {
  start_transmitted : Z; start_codec : eaf_sendspin_codec_t; start_sample_rate : Z; start_channels : Z; start_bit_depth : Z;
  codec_header : ptr Z; codec_header_length : Z
}.
Record eaf_sendspin_stream_end_t := StreamEnd { end_transmitted : Z; end_player : bool }.
Record eaf_sendspin_group_update_t := GroupUpdate {
  playback_state : ptr Z; playback_state_length : Z; group_id : ptr Z; group_id_length : Z
}.
Record eaf_sendspin_server_command_t := ServerCommand {
  command : eaf_sendspin_command_t; command_volume : Z; command_muted : bool; command_delay_ms : Z
}.

Definition path_of (s : string) : ptr (list Z) := Some (chars s ++ [0]).

(** [eaf_sendspin_json_get(json, length, path, &local)] on a fresh local. *)
Definition get_value (b : list Z) (length : Z) (path : string) : ub (eaf_sendspin_json_value_t * Z) :=
  with_ref (eaf_sendspin_json_get (Some b) length (path_of path)) json_zero.

(** [scan_fields] over the object a value views. *)
Definition scan_object (b : list Z) (v : eaf_sendspin_json_value_t) (fields : list json_field_t) : ub (list json_field_t * Z) :=
  start ← raw v;
  '(_, fields, rc) ← scan_fields b (start + raw_length v) start fields;
  Some (fields, rc).

Definition local (fields : list json_field_t) (i : nat) : ub eaf_sendspin_json_value_t := f ← fields !! i; value f.
Definition is_number (v : eaf_sendspin_json_value_t) : bool := bool_decide (type v = EAF_SENDPIN_JSON_NUMBER).
Definition is_string (v : eaf_sendspin_json_value_t) : bool := bool_decide (type v = EAF_SENDPIN_JSON_STRING).
Definition is_object (v : eaf_sendspin_json_value_t) : bool := bool_decide (type v = EAF_SENDPIN_JSON_OBJECT).

Definition codec_from_value (b : list Z) (v : eaf_sendspin_json_value_t) : ub eaf_sendspin_codec_t :=
  pcm ← eaf_sendspin_json_string_equals b (Some v) "pcm";
  if pcm : bool then Some EAF_SENDPIN_CODEC_PCM
  else flac ← eaf_sendspin_json_string_equals b (Some v) "flac";
  if flac : bool then Some EAF_SENDPIN_CODEC_FLAC
  else opus ← eaf_sendspin_json_string_equals b (Some v) "opus";
  if opus : bool then Some EAF_SENDPIN_CODEC_OPUS
  else mp3 ← eaf_sendspin_json_string_equals b (Some v) "mp3";
  if mp3 : bool then Some EAF_SENDPIN_CODEC_MP3
  else vorbis ← eaf_sendspin_json_string_equals b (Some v) "vorbis";
  if vorbis : bool then Some EAF_SENDPIN_CODEC_VORBIS
  else Some EAF_SENDPIN_CODEC_UNKNOWN.

(** A string member's view, when it was found and is a string. *)
Definition string_view (found : bool) (v : eaf_sendspin_json_value_t) : ptr Z * Z :=
  if found && is_string v then (string_at v, string_length v) else (None, 0).

Definition hello_fields : list json_field_t :=
  [field_member "active_roles" "player@v1"; field "server_id"; field "name"; field "connection_reason"; field "version"].

Definition eaf_sendspin_parse_server_hello (json : ptr (list Z)) (length : Z) (out : ptr eaf_sendspin_server_hello_t)
  : ub (ptr eaf_sendspin_server_hello_t * Z) :=
  match json, out with
  | Some b, Some _ =>
      let zero := ServerHello 0 false None 0 None 0 None 0 in
      '(payload, rc) ← get_value b length "payload";
      if bool_decide (rc <> 0) || negb (is_object payload) then Some (Some zero, EAF_INVALID)
      else
        '(fields, rc) ← scan_object b payload hello_fields;
        roles ← fields !! 0%nat;
        if bool_decide (rc <> 0) || negb (found roles) then Some (Some zero, EAF_INVALID)
        else
          id ← local fields 1; id_f ← found <$> fields !! 1%nat;
          name ← local fields 2; name_f ← found <$> fields !! 2%nat;
          reason ← local fields 3; reason_f ← found <$> fields !! 3%nat;
          v ← local fields 4; v_f ← found <$> fields !! 4%nat;
          let '(id, id_n) := string_view id_f id in
          let '(name, name_n) := string_view name_f name in
          let '(reason, reason_n) := string_view reason_f reason in
          Some (Some (ServerHello (if v_f && is_number v then u32 (number v) else 0) (member roles)
                        id id_n name name_n reason reason_n), EAF_OK)
  | _, _ => Some (out, EAF_INVALID)
  end.

Definition time_fields : list json_field_t :=
  [field "client_transmitted"; field "server_received"; field "server_transmitted"].

Definition eaf_sendspin_parse_server_time (json : ptr (list Z)) (length : Z) (out : ptr eaf_sendspin_server_time_t)
  : ub (ptr eaf_sendspin_server_time_t * Z) :=
  match json, out with
  | Some b, Some _ =>
      '(payload, rc) ← get_value b length "payload";
      if bool_decide (rc <> 0) || negb (is_object payload) then Some (out, EAF_INVALID)
      else
        '(fields, rc) ← scan_object b payload time_fields;
        if decide (rc <> 0) then Some (out, EAF_INVALID)
        else
          a ← local fields 0; r ← local fields 1; t ← local fields 2;
          if negb (is_number a) || negb (is_number r) || negb (is_number t) then Some (out, EAF_INVALID)
          else Some (Some (ServerTime (number a) (number r) (number t)), EAF_OK)
  | _, _ => Some (out, EAF_INVALID)
  end.

Definition stream_payload_fields : list json_field_t := [field "player"; field "server_transmitted"].
Definition stream_player_fields : list json_field_t :=
  [field "codec"; field "sample_rate"; field "channels"; field "bit_depth"; field "codec_header"].

(** Lines 560-584: the player object. *)
Definition parse_stream_player (b : list Z) (player transmitted : eaf_sendspin_json_value_t) (zero : eaf_sendspin_stream_start_t)
  : ub (ptr eaf_sendspin_stream_start_t * Z) :=
  '(fields, rc) ← scan_object b player stream_player_fields;
  codec_f ← found <$> fields !! 0%nat;
  if bool_decide (rc <> 0) || negb codec_f then Some (Some zero, EAF_INVALID)
  else
    codec ← local fields 0; rate ← local fields 1; channels ← local fields 2; depth ← local fields 3; hdr ← local fields 4;
    codec ← codec_from_value b codec;
    if negb (is_number rate) || negb (is_number channels) || negb (is_number depth)
    then Some (Some (StreamStart 0 codec 0 0 0 None 0), EAF_INVALID)
    else
      let '(header, header_n) := string_view true hdr in
      Some (Some (StreamStart (if is_number transmitted then number transmitted else 0) codec
                    (u32 (number rate)) (u8 (number channels)) (u8 (number depth)) header header_n), EAF_OK).

Definition eaf_sendspin_parse_stream_start (json : ptr (list Z)) (length : Z) (out : ptr eaf_sendspin_stream_start_t)
  : ub (ptr eaf_sendspin_stream_start_t * Z) :=
  match json, out with
  | Some b, Some _ =>
      let zero := StreamStart 0 EAF_SENDPIN_CODEC_UNKNOWN 0 0 0 None 0 in
      '(payload, rc) ← get_value b length "payload";
      if bool_decide (rc <> 0) || negb (is_object payload) then Some (Some zero, EAF_INVALID)
      else
        '(fields, rc) ← scan_object b payload stream_payload_fields;
        player ← local fields 0; player_f ← found <$> fields !! 0%nat; transmitted ← local fields 1;
        if bool_decide (rc <> 0) || negb player_f || negb (is_object player) then Some (Some zero, EAF_INVALID)
        else parse_stream_player b player transmitted zero
  | _, _ => Some (out, EAF_INVALID)
  end.

Definition end_fields : list json_field_t := [field "server_transmitted"; field_member "roles" "player"].

Definition eaf_sendspin_parse_stream_end (json : ptr (list Z)) (length : Z) (out : ptr eaf_sendspin_stream_end_t)
  : ub (ptr eaf_sendspin_stream_end_t * Z) :=
  match json, out with
  | Some b, Some _ =>
      let zero := StreamEnd 0 false in
      '(payload, prc) ← get_value b length "payload";
      if decide (prc = EAF_UNSUPPORTED) then Some (Some (StreamEnd 0 true), EAF_OK)
      else if bool_decide (prc <> 0) || negb (is_object payload) then Some (Some zero, EAF_INVALID)
      else
        '(fields, rc) ← scan_object b payload end_fields;
        if decide (rc <> 0) then Some (Some zero, EAF_INVALID)
        else
          transmitted ← local fields 0; roles ← fields !! 1%nat;
          Some (Some (StreamEnd (if is_number transmitted then number transmitted else 0)
                        (negb (found roles) || member roles)), EAF_OK)
  | _, _ => Some (out, EAF_INVALID)
  end.

Definition group_fields : list json_field_t := [field "playback_state"; field "group_id"].

Definition eaf_sendspin_parse_group_update (json : ptr (list Z)) (length : Z) (out : ptr eaf_sendspin_group_update_t)
  : ub (ptr eaf_sendspin_group_update_t * Z) :=
  match json, out with
  | Some b, Some _ =>
      let zero := GroupUpdate None 0 None 0 in
      '(payload, rc) ← get_value b length "payload";
      if bool_decide (rc <> 0) || negb (is_object payload) then Some (Some zero, EAF_OK)
      else
        '(fields, rc) ← scan_object b payload group_fields;
        if decide (rc <> 0) then Some (Some zero, EAF_OK)
        else
          state ← local fields 0; group ← local fields 1;
          let '(state, state_n) := string_view true state in
          let '(group, group_n) := string_view true group in
          Some (Some (GroupUpdate state state_n group group_n), EAF_OK)
  | _, _ => Some (out, EAF_INVALID)
  end.

Definition command_payload_fields : list json_field_t := [field "player"].
Definition command_player_fields : list json_field_t :=
  [field "command"; field "volume"; field "mute"; field "static_delay_ms"].

Definition command_from_value (b : list Z) (v : eaf_sendspin_json_value_t) : ub eaf_sendspin_command_t :=
  volume ← eaf_sendspin_json_string_equals b (Some v) "volume";
  if volume : bool then Some EAF_SENDPIN_COMMAND_VOLUME
  else mute ← eaf_sendspin_json_string_equals b (Some v) "mute";
  if mute : bool then Some EAF_SENDPIN_COMMAND_MUTE
  else delay ← eaf_sendspin_json_string_equals b (Some v) "set_static_delay";
  if delay : bool then Some EAF_SENDPIN_COMMAND_SET_STATIC_DELAY
  else Some EAF_SENDPIN_COMMAND_UNKNOWN.

Definition eaf_sendspin_parse_server_command (json : ptr (list Z)) (length : Z) (out : ptr eaf_sendspin_server_command_t)
  : ub (ptr eaf_sendspin_server_command_t * Z) :=
  match json, out with
  | Some b, Some _ =>
      let initial := ServerCommand EAF_SENDPIN_COMMAND_UNKNOWN (-1) false (-1) in
      '(payload, rc) ← get_value b length "payload";
      if bool_decide (rc <> 0) || negb (is_object payload) then Some (Some initial, EAF_INVALID)
      else
        '(fields, rc) ← scan_object b payload command_payload_fields;
        player ← local fields 0; player_f ← found <$> fields !! 0%nat;
        if bool_decide (rc <> 0) || negb player_f || negb (is_object player) then Some (Some initial, EAF_INVALID)
        else
          '(fields, rc) ← scan_object b player command_player_fields;
          command_f ← found <$> fields !! 0%nat;
          if bool_decide (rc <> 0) || negb command_f then Some (Some initial, EAF_INVALID)
          else
            c ← local fields 0; v ← local fields 1; m ← local fields 2; d ← local fields 3;
            c ← command_from_value b c;
            Some (Some (ServerCommand c (if is_number v then s32 (number v) else -1)
                          (if bool_decide (type m = EAF_SENDPIN_JSON_BOOL) then boolean m else false)
                          (if is_number d then s32 (number d) else -1)), EAF_OK)
  | _, _ => Some (out, EAF_INVALID)
  end.

(** ** Builders *)

Record writer_t := Writer { buf : list Z; capacity : Z; used : Z; ok : bool }.

Definition wr_raw (w : writer_t) (data : list Z) (length : Z) : ub writer_t :=
  if negb (ok w) || bool_decide (used w + length > capacity w) then Some (Writer (buf w) (capacity w) (used w) false)
  else
    d ← memcpy (buf w) (used w) data 0 length;
    Some (Writer d (capacity w) (used w + length) (ok w)).

Definition wr_char (w : writer_t) (c : Z) : ub writer_t := wr_raw w [c] 1.

(** [literal] is a C string literal. *)
Definition wr_lit (w : writer_t) (literal : list Z) : ub writer_t :=
  n ← strlen (literal ++ [0]); wr_raw w (literal ++ [0]) n.

Definition wr_u64 (w : writer_t) (value : Z) : ub writer_t :=
  if negb (ok w) then Some w
  else
    '(d, n) ← eaf_bytes_write_u64_dec (buf w) (used w) (capacity w - used w) value;
    if decide (n = 0) then Some (Writer d (capacity w) (used w) false)
    else Some (Writer d (capacity w) (used w + n) (ok w)).

Definition wr_i64 (w : writer_t) (value : Z) : ub writer_t :=
  if decide (value < 0) then
    w ← wr_char w c_minus;
    wr_u64 w (u64 (u64 (- (value + 1)) + 1))
  else wr_u64 w (u64 value).

Definition hex : list Z := chars "0123456789abcdef".

(** One character of [wr_json_string]. *)
Definition wr_json_char (data : list Z) (i : Z) (w : writer_t) : ub writer_t :=
  x ← ld data i;
  let c := u8 x in
  if decide (c = c_quote) then wr_lit w [c_backslash; c_quote]
  else if decide (c = c_backslash) then wr_lit w [c_backslash; c_backslash]
  else if decide (c = 8) then wr_lit w [c_backslash; 98]
  else if decide (c = 12) then wr_lit w [c_backslash; 102]
  else if decide (c = 10) then wr_lit w [c_backslash; 110]
  else if decide (c = 13) then wr_lit w [c_backslash; 114]
  else if decide (c = 9) then wr_lit w [c_backslash; 116]
  else if decide (c < 32) then
    h1 ← ld hex (Z.shiftr c 4); h0 ← ld hex (Z.land c 15);
    wr_raw w [c_backslash; 117; 48; 48; h1; h0] 6
  else wr_char w c.

Definition wr_json_string (w : writer_t) (data : list Z) (length : Z) : ub writer_t :=
  w ← wr_char w c_quote;
  w ← for_to length (wr_json_char data) w;
  wr_char w c_quote.

Definition codec_name (c : eaf_sendspin_codec_t) : ptr (list Z) :=
  match c with
  | EAF_SENDPIN_CODEC_PCM => Some (chars "pcm")
  | EAF_SENDPIN_CODEC_FLAC => Some (chars "flac")
  | EAF_SENDPIN_CODEC_OPUS => Some (chars "opus")
  | EAF_SENDPIN_CODEC_MP3 => Some (chars "mp3")
  | EAF_SENDPIN_CODEC_VORBIS => Some (chars "vorbis")
  | EAF_SENDPIN_CODEC_UNKNOWN => None
  end.

Record eaf_sendspin_format_t := Format { codec : eaf_sendspin_codec_t; sample_rate : Z; channels : Z; bit_depth : Z }.

(** A literal with single quotes standing for double quotes. *)
Fixpoint requote (t : list Z) : list Z :=
  match t with [] => [] | c :: t => (if decide (c = 39) then c_quote else c) :: requote t end.
Definition text (s : string) : list Z := requote (chars s).

Definition write_format (w : writer_t) (f : eaf_sendspin_format_t) : ub writer_t :=
  name ← codec_name (codec f);
  w ← wr_lit w (text "{'codec':");
  n ← strlen (name ++ [0]);
  w ← wr_json_string w (name ++ [0]) n;
  w ← wr_lit w (text ",'channels':");
  w ← wr_u64 w (channels f);
  w ← wr_lit w (text ",'sample_rate':");
  w ← wr_u64 w (sample_rate f);
  w ← (if decide (codec f = EAF_SENDPIN_CODEC_PCM /\ bit_depth f <> 0) then
         w ← wr_lit w (text ",'bit_depth':"); wr_u64 w (bit_depth f)
       else Some w);
  wr_lit w (text "}").

(** [finish] with the buffer handed back. *)
Definition finish (w : writer_t) (written : Z) : ptr (list Z) * ptr Z * Z :=
  if negb (ok w) then (Some (buf w), Some written, EAF_INVALID) else (Some (buf w), Some (used w), EAF_OK).

Record eaf_sendspin_client_hello_t := ClientHello {
  client_id : ptr (list Z); client_name : ptr (list Z);
  product_name : ptr (list Z); manufacturer : ptr (list Z); software_version : ptr (list Z);
  formats : ptr (list eaf_sendspin_format_t);   (* with [format_count] entries used *)
  format_count : Z;
  hello_rate : Z; hello_channels : Z; hello_depth : Z;
  buffer_capacity : Z; support_volume : bool; support_mute : bool
}.

(** [wr_json_string(w, s, strlen(s))] *)
Definition wr_cstring (w : writer_t) (s : list Z) : ub writer_t := n ← strlen s; wr_json_string w s n.

(** An optional entry of [device_info]; [first] is the literal without comma. *)
Definition device_entry (w : writer_t) (comma : bool) (key : string) (s : ptr (list Z)) : ub (writer_t * bool) :=
  match s with
  | None => Some (w, comma)
  | Some s =>
      w ← wr_lit w ((if comma then [c_comma] else []) ++ text key);
      w ← wr_cstring w s;
      Some (w, true)
  end.

Definition device_info (w : writer_t) (h : eaf_sendspin_client_hello_t) : ub writer_t :=
  match product_name h, manufacturer h, software_version h with
  | None, None, None => Some w
  | p, m, s =>
      w ← wr_lit w (text ",'device_info':{");
      '(w, comma) ← device_entry w false "'product_name':" p;
      '(w, comma) ← device_entry w comma "'manufacturer':" m;
      '(w, _) ← device_entry w comma "'software_version':" s;
      wr_lit w (text "}")
  end.

(** One round of the format loop; [emitted] counts the entries written. *)
Definition format_round (fs : list eaf_sendspin_format_t) (i : Z) (st : writer_t * Z) : ub (writer_t * Z) :=
  let '(w, emitted) := st in
  f ← ld fs i;
  match codec_name (codec f) with
  | None => Some (w, emitted)
  | Some _ =>
      w ← (if decide (emitted <> 0) then wr_char w c_comma else Some w);
      w ← write_format w f;
      Some (w, emitted + 1)
  end.

Definition write_formats (w : writer_t) (h : eaf_sendspin_client_hello_t) : ub writer_t :=
  '(w, emitted) ← match formats h with
                  | Some fs => for_to (format_count h) (format_round fs) (w, 0)
                  | None => Some (w, 0)
                  end;
  if decide (emitted = 0)
  then write_format w (Format EAF_SENDPIN_CODEC_PCM (hello_rate h) (hello_channels h) (hello_depth h))
  else Some w.

Definition eaf_sendspin_build_client_hello (dst : ptr (list Z)) (capacity : Z) (hello : ptr eaf_sendspin_client_hello_t) (written : ptr Z)
  : ub (ptr (list Z) * ptr Z * Z) :=
  match dst, hello, written with
  | Some d, Some h, Some n =>
      match client_id h, client_name h with
      | Some id, Some name =>
          if decide (capacity = 0) then Some (dst, written, EAF_INVALID)
          else
            let w := Writer d capacity 0 true in
            w ← wr_lit w (text "{'payload':{'client_id':");
            w ← wr_cstring w id;
            w ← wr_lit w (text ",'name':");
            w ← wr_cstring w name;
            w ← wr_lit w (text ",'version':1,'supported_roles':['player@v1']");
            w ← device_info w h;
            w ← wr_lit w (text ",'player@v1_support':{'supported_formats':[");
            w ← write_formats w h;
            w ← wr_lit w (text "],'buffer_capacity':");
            w ← wr_u64 w (buffer_capacity h);
            w ← wr_lit w (text ",'supported_commands':[");
            w ← (if support_volume h then
                   w ← wr_lit w (text "'volume'");
                   if support_mute h then wr_lit w (text ",") else Some w
                 else Some w);
            w ← (if support_mute h then wr_lit w (text "'mute'") else Some w);
            w ← wr_lit w (text "]}");
            w ← wr_lit w (text "},'type':'client/hello'}");
            Some (finish w n)
      | _, _ => Some (dst, written, EAF_INVALID)
      end
  | _, _, _ => Some (dst, written, EAF_INVALID)
  end.

Definition eaf_sendspin_build_client_time (dst : ptr (list Z)) (capacity client_transmitted : Z) (written : ptr Z)
  : ub (ptr (list Z) * ptr Z * Z) :=
  match dst, written with
  | Some d, Some n =>
      if decide (capacity = 0) then Some (dst, written, EAF_INVALID)
      else
        let w := Writer d capacity 0 true in
        w ← wr_lit w (text "{'payload':{'client_transmitted':");
        w ← wr_i64 w client_transmitted;
        w ← wr_lit w (text "},'type':'client/time'}");
        Some (finish w n)
  | _, _ => Some (dst, written, EAF_INVALID)
  end.

Record eaf_sendspin_player_state_t := PlayerState {
  state_volume : Z; state_muted : bool; state_delay_ms : Z; state_lead_ms : Z; state_buffer_ms : Z
}.

Definition eaf_sendspin_build_client_state (dst : ptr (list Z)) (capacity : Z) (state : ptr eaf_sendspin_player_state_t) (written : ptr Z)
  : ub (ptr (list Z) * ptr Z * Z) :=
  match dst, state, written with
  | Some d, Some s, Some n =>
      if decide (capacity = 0) then Some (dst, written, EAF_INVALID)
      else
        let w := Writer d capacity 0 true in
        w ← wr_lit w (text "{'payload':{'player':{'state':'synchronized','volume':");
        w ← wr_i64 w (state_volume s);
        w ← wr_lit w (text ",'muted':");
        w ← wr_lit w (if state_muted s then text "true" else text "false");
        w ← wr_lit w (text ",'static_delay_ms':");
        w ← wr_i64 w (state_delay_ms s);
        w ← wr_lit w (text ",'required_lead_time_ms':");
        w ← wr_i64 w (state_lead_ms s);
        w ← wr_lit w (text ",'min_buffer_ms':");
        w ← wr_i64 w (state_buffer_ms s);
        w ← wr_lit w (text "}},'type':'client/state'}");
        Some (finish w n)
  | _, _, _ => Some (dst, written, EAF_INVALID)
  end.

(** ** What a writer step emits *)

Definition valid (w : writer_t) : Prop := 0 <= used w <= capacity w /\ capacity w <= zlen (buf w).

(** From any writer the step appends exactly [t], or reports the overflow; it
    never writes at or past the capacity. *)
Definition emits (f : writer_t -> ub writer_t) (t : list Z) : Prop :=
  forall w, valid w -> exists w', f w = Some w' /\ valid w' /\ capacity w' = capacity w /\ zlen (buf w') = zlen (buf w) /\
    (forall k, capacity w <= k -> ld (buf w') k = ld (buf w) k) /\
    if ok w && bool_decide (used w + zlen t <= capacity w)
    then ok w' = true /\ used w' = used w + zlen t /\ buf w' = splice (buf w) (used w) t
    else ok w' = false.

Lemma emits_nil : emits (fun w => Some w) [].
Proof.
  intros w Hw. exists w. split; [done |]. split; [done |]. split; [done |]. split; [done |]. split; [done |].
  destruct Hw as [? ?]. change (zlen []) with 0. rewrite bool_decide_eq_true_2 by lia. rewrite andb_true_r.
  destruct (ok w) eqn:E; [| done]. split; [done |]. split; [lia |]. by rewrite splice_nil.
Qed.

Lemma emits_bind f g s t : emits f s -> emits g t -> emits (fun w => w ← f w; g w) (s ++ t).
Proof.
  intros Hf Hg w Hw. destruct (Hf w Hw) as (w1 & -> & Hw1 & Hc1 & Hz1 & Hk1 & H1). cbn [mbind option_bind].
  destruct (Hg w1 Hw1) as (w2 & -> & Hw2 & Hc2 & Hz2 & Hk2 & H2). exists w2. split; [done |]. split; [done |].
  split; [congruence |]. split; [congruence |]. split; [intros k Hk; rewrite Hk2, Hk1 by lia; done |].
  rewrite zlen_app. pose proof (zlen_nonneg s). pose proof (zlen_nonneg t). destruct (ok w) eqn:E; cbn [andb] in *.
  - destruct (bool_decide (used w + zlen s <= capacity w)) eqn:Hs.
    + destruct H1 as (Ho1 & Hu & Hb). rewrite Ho1, Hu, Hc1 in H2. cbn [andb] in H2.
      rewrite <- Z.add_assoc in H2. destruct (bool_decide (used w + (zlen s + zlen t) <= capacity w)) eqn:Ht; [| done].
      destruct H2 as (-> & -> & ->). split; [done |]. split; [lia |].
      rewrite Hb. destruct Hw as [? ?]. apply bool_decide_eq_true in Ht. apply splice_app; lia.
    + rewrite H1 in H2. cbn [andb] in H2. apply bool_decide_eq_false in Hs. by rewrite bool_decide_eq_false_2 by lia.
  - by rewrite H1 in H2.
Qed.

Lemma emits_eq f t t' : t = t' -> emits f t -> emits f t'.
Proof. by intros ->. Qed.

Lemma emits_raw data n : 0 <= n <= zlen data -> emits (fun w => wr_raw w data n) (slice data 0 n).
Proof.
  intros Hn w [Hu Hc]. unfold wr_raw. rewrite zlen_slice by lia.
  destruct (ok w) eqn:E; cbn [negb orb andb].
  - case_bool_decide; case_bool_decide; try lia.
    + eexists. split; [done |]. done.
    + rewrite memcpy_eq by lia. cbn [mbind option_bind]. eexists. split; [done |]. cbn [valid buf used capacity ok].
      rewrite zlen_splice by (rewrite ?zlen_slice; lia). split; [unfold valid; cbn [buf used capacity ok]; rewrite zlen_splice by (rewrite ?zlen_slice; lia); lia |].
      split; [done |]. split; [done |]. split; [| done].
      intros k Hk. rewrite !ld_lookup, lookup_splice by (rewrite ?zlen_slice; lia). rewrite zlen_slice by lia.
      by rewrite decide_False by lia.
  - eexists. split; [done |]. done.
Qed.

Lemma emits_char c : emits (fun w => wr_char w c) [c].
Proof. apply (emits_raw [c] 1). done. Qed.

Lemma emits_lit t : Forall (fun c => c <> 0) t -> emits (fun w => wr_lit w t) t.
Proof.
  intros Ht. assert (Hs : c_string t (t ++ [0])) by (split; [done | by exists []]).
  unfold wr_lit. rewrite (strlen_string t) by done. cbn [mbind option_bind].
  eapply emits_eq; [| apply emits_raw; rewrite zlen_app; pose proof (zlen_nonneg t); change (zlen [0]) with 1; lia].
  by apply slice_app_head.
Qed.

Lemma emits_u64 v : is_u64 v -> emits (fun w => wr_u64 w v) (decimal v).
Proof.
  intros Hv w [Hu Hc]. unfold wr_u64. pose proof (decimal_length v) as Hd. destruct (ok w) eqn:E; cbn [negb andb].
  - rewrite write_u64_dec_spec by (done || lia). cbn [mbind option_bind].
    case_decide as Hf; case_bool_decide; try lia.
    + rewrite decide_True by done. eexists. split; [done |]. done.
    + rewrite decide_False by lia. eexists. split; [done |]. cbn [buf used capacity ok].
      rewrite zlen_splice by lia. split; [unfold valid; cbn [buf used capacity ok]; rewrite zlen_splice by lia; lia |]. split; [done |]. split; [done |].
      split; [| done]. intros k Hk. rewrite !ld_lookup, lookup_splice by lia. by rewrite decide_False by lia.
  - exists w. split; [done |]. by rewrite E.
Qed.

(** The decimal text of a signed integer. *)
Definition int_text (v : Z) : list Z := if decide (v < 0) then [c_minus] ++ decimal (- v) else decimal v.

Lemma emits_i64 v : is_s64 v -> emits (fun w => wr_i64 w v) (int_text v).
Proof.
  intros Hv. unfold wr_i64, int_text. case_decide.
  - replace (u64 (u64 (- (v + 1)) + 1)) with (- v) by word.
    apply (emits_bind (fun w => wr_char w c_minus)); [apply emits_char | apply emits_u64; word].
  - rewrite u64_small by word. apply emits_u64. word.
Qed.

Lemma emits_ext f g t : (forall w, f w = g w) -> emits f t -> emits g t.
Proof. intros Hfg Hf w Hw. rewrite <- Hfg. by apply Hf. Qed.

Lemma emits_for (f : Z -> writer_t -> ub writer_t) (ts : Z -> list Z) i (n : nat) :
  (forall j, i <= j < i + Z.of_nat n -> emits (f j) (ts j)) -> emits (for_from i n f) (concat (ts <$> seqZ i (Z.of_nat n))).
Proof.
  revert i. induction n as [|n IH]; intros i Hf; [apply emits_nil |].
  rewrite seqZ_cons by lia. cbn [fmap list_fmap concat for_from]. replace (Z.pred (Z.of_nat (S n))) with (Z.of_nat n) by lia.
  apply emits_bind; [apply Hf; lia |]. replace (i + 1) with (Z.succ i) by lia. apply IH. intros. apply Hf. lia.
Qed.

(** ** JSON strings *)

Definition hex_digit (n : Z) : Z := hex !!! Z.to_nat n.

Definition escape_char (x : Z) : list Z :=
  let c := u8 x in
  if decide (c = c_quote) then [c_backslash; c_quote]
  else if decide (c = c_backslash) then [c_backslash; c_backslash]
  else if decide (c = 8) then [c_backslash; 98]
  else if decide (c = 12) then [c_backslash; 102]
  else if decide (c = 10) then [c_backslash; 110]
  else if decide (c = 13) then [c_backslash; 114]
  else if decide (c = 9) then [c_backslash; 116]
  else if decide (c < 32) then [c_backslash; 117; 48; 48; hex_digit (c / 16); hex_digit (c mod 16)]
  else [c].
Definition escape (t : list Z) : list Z := concat (escape_char <$> t).

Lemma body_ok_app s t : body_ok s = true -> body_ok t = true -> body_ok (s ++ t) = true.
Proof.
  remember (length s) as n eqn:Hn. assert (Hle : (length s <= n)%nat) by lia. clear Hn. revert s Hle.
  induction n as [|n IH]; intros s Hle Hs Ht; [by destruct s; [| simpl in Hle; lia] |].
  destruct s as [|x s]; [done |]. cbn [body_ok app] in *. simpl in Hle. destruct (decide (x = c_backslash)).
  - destruct s as [|y s]; [done |]. cbn [app]. apply IH; [simpl in Hle; lia | done | done].
  - apply andb_prop in Hs as [-> Hs]. apply IH; [lia | done | done].
Qed.

Lemma escape_char_ok x : body_ok (escape_char x) = true.
Proof.
  unfold escape_char. repeat case_decide; try done.
  - assert (Hq : 0 <= u8 x / 16 < 2) by word.
    assert (Hd : forall n, 0 <= n < 16 -> body_ok [hex_digit n] = true).
    { intros n Hn. apply (check_range (fun n => body_ok [hex_digit n]) 0 16 n); [by vm_compute | lia]. }
    apply (body_ok_app [c_backslash; 117; 48; 48]); [done |].
    apply (body_ok_app [_] [_]); apply Hd; [lia | apply Z.mod_pos_bound; lia].
  - cbn [body_ok]. rewrite decide_False by done. unfold eqc. by rewrite bool_decide_eq_false_2.
Qed.

Lemma escape_ok t : body_ok (escape t) = true.
Proof.
  unfold escape. induction t as [|x t IH]; [done |]. cbn [fmap list_fmap concat]. apply body_ok_app; [apply escape_char_ok | done].
Qed.

Lemma emits_json_char data i x : ld data i = Some x -> emits (wr_json_char data i) (escape_char x).
Proof.
  intros Hx. unfold wr_json_char, escape_char. rewrite Hx. cbn [mbind option_bind]. pose proof (u8_range x) as Hr.
  repeat case_decide; try (apply emits_lit; by repeat constructor).
  - unfold is_u8 in Hr. rewrite Z.shiftr_div_pow2 by lia. change (2 ^ 4) with 16.
    assert (Hh : forall n, 0 <= n < 16 -> ld hex n = Some (hex_digit n)).
    { intros n Hn. apply ld_total. change (zlen hex) with 16. lia. }
    rewrite (Hh (u8 x / 16)) by (split; [apply Z.div_pos; lia | apply Z.div_lt_upper_bound; lia]).
    replace (Z.land (u8 x) 15) with (u8 x mod 16) by (symmetry; by apply (land_mask_mod _ 4)).
    rewrite (Hh (u8 x mod 16)) by (apply Z.mod_pos_bound; lia). cbn [mbind option_bind].
    apply (emits_raw [c_backslash; 117; 48; 48; hex_digit (u8 x / 16); hex_digit (u8 x mod 16)] 6). done.
  - apply emits_char.
Qed.

Lemma emits_json_string t s : c_string t s -> emits (fun w => wr_json_string w s (zlen t)) (quoted (escape t)).
Proof.
  intros [Ht [rest ->]]. unfold wr_json_string, quoted.
  apply emits_bind; [apply emits_char |]. apply emits_bind; [| apply emits_char].
  apply (emits_eq _ (concat ((fun i => escape_char (t !!! Z.to_nat i)) <$> seqZ 0 (Z.of_nat (Z.to_nat (zlen t)))))).
  { unfold escape. f_equal. apply list_eq. intros k. rewrite !list_lookup_fmap. unfold zlen. rewrite Nat2Z.id.
    destruct (t !! k) as [x|] eqn:Hk.
    - rewrite lookup_seqZ_lt by (apply lookup_lt_Some in Hk; lia). cbn [fmap option_fmap option_map].
      rewrite Z.add_0_l, Nat2Z.id. by rewrite (list_lookup_total_correct t k x).
    - rewrite lookup_seqZ_ge; [done |]. apply lookup_ge_None in Hk. lia. }
  apply (emits_for (wr_json_char (t ++ 0 :: rest))). intros j Hj. apply emits_json_char.
  unfold zlen in Hj. rewrite ld_lookup, lookup_app_l by lia. apply list_lookup_lookup_total_lt. lia.
Qed.

(** The characters of a C string, when it is terminated. *)
Definition cstr (s : list Z) : list Z := match strlen s with Some n => take (Z.to_nat n) s | None => [] end.
Definition terminated (s : list Z) : Prop := 0 ∈ s.

Lemma terminated_string s : terminated s -> c_string (cstr s) s.
Proof.
  intros Hs. assert (Hc : exists t, c_string t s).
  { induction s as [|x s IH]; [by inversion Hs |].
    destruct (decide (x = 0)) as [->|Hx]; [exists []; split; [constructor | by exists s] |].
    destruct IH as (t & Ht & rest & ->); [set_solver |]. exists (x :: t). split; [by constructor | by exists rest]. }
  destruct Hc as [t Ht]. unfold cstr. rewrite (strlen_string t s Ht). destruct Ht as [Ht [rest ->]].
  unfold zlen. rewrite Nat2Z.id, take_app_length. split; [done | by exists rest].
Qed.

Lemma emits_cstring s : terminated s -> emits (fun w => wr_cstring w s) (quoted (escape (cstr s))).
Proof.
  intros Hs. pose proof (terminated_string s Hs) as Hc. eapply emits_ext; [| by apply emits_json_string].
  intros w. unfold wr_cstring. by rewrite (strlen_string (cstr s)).
Qed.

(** ** The messages as trees *)

Definition key_of (s : string) : list Z := chars s.
Definition num (v : Z) : json := JNum (bool_decide (v < 0)) (decimal (Z.abs v)) None.
Definition str (s : string) : json := JStr (chars s).
Definition cjson (s : list Z) : json := JStr (escape (cstr s)).

Lemma render_num v : render (num v) = int_text v.
Proof.
  unfold num, int_text. cbn [render]. unfold number_text. rewrite app_nil_r.
  case_bool_decide; case_decide; try lia; [by rewrite Z.abs_neq by lia | by rewrite Z.abs_eq by lia].
Qed.

Lemma decimal_digits v : digits_ok (decimal v) = true.
Proof.
  unfold digits_ok. apply forallb_forall. intros x Hx.
  assert (Hd : Forall is_digit (decimal v)) by (apply Forall_rev, lsd_digits_digit).
  rewrite List.Forall_forall in Hd. specialize (Hd x Hx). unfold digit, is_digit in *. apply bool_decide_eq_true. lia.
Qed.

Lemma num_wf v : wf_json (num v) = true.
Proof.
  cbn [num wf_json]. rewrite decimal_digits. pose proof (decimal_length (Z.abs v)) as Hl.
  destruct (decimal (Z.abs v)); [unfold zlen in Hl; simpl in Hl; lia | done].
Qed.

Lemma num_value v : is_s64 v -> int_value (bool_decide (v < 0)) (decimal (Z.abs v)) = v.
Proof.
  intros Hv. unfold int_value, decimal. rewrite lsd_digits_value by (change (10 ^ Z.of_nat 20) with 100000000000000000000; word).
  case_bool_decide; word.
Qed.

Lemma cjson_wf s : wf_json (cjson s) = true.
Proof. apply escape_ok. Qed.

Definition client_time_tree (t : Z) : json :=
  JObj [(key_of "payload", JObj [(key_of "client_transmitted", num t)]); (key_of "type", str "client/time")].

Definition client_state_tree (s : eaf_sendspin_player_state_t) : json :=
  JObj [(key_of "payload", JObj [(key_of "player", JObj [
           (key_of "state", str "synchronized"); (key_of "volume", num (state_volume s));
           (key_of "muted", JBool (state_muted s)); (key_of "static_delay_ms", num (state_delay_ms s));
           (key_of "required_lead_time_ms", num (state_lead_ms s)); (key_of "min_buffer_ms", num (state_buffer_ms s))])]);
        (key_of "type", str "client/state")].

Definition format_tree (f : eaf_sendspin_format_t) : json :=
  JObj ([(key_of "codec", JStr (default [] (codec_name (codec f)))); (key_of "channels", num (channels f));
         (key_of "sample_rate", num (sample_rate f))]
        ++ if decide (codec f = EAF_SENDPIN_CODEC_PCM /\ bit_depth f <> 0) then [(key_of "bit_depth", num (bit_depth f))] else []).

(** The formats offered: those with a name, or the fallback. *)
Definition named (f : eaf_sendspin_format_t) : bool := match codec_name (codec f) with Some _ => true | None => false end.
Definition advertised (h : eaf_sendspin_client_hello_t) : list eaf_sendspin_format_t :=
  match List.filter named (take (Z.to_nat (format_count h)) (default [] (formats h))) with
  | [] => [Format EAF_SENDPIN_CODEC_PCM (hello_rate h) (hello_channels h) (hello_depth h)]
  | fs => fs
  end.

Definition opt_member (key : string) (s : ptr (list Z)) : list (list Z * json) :=
  match s with Some s => [(key_of key, cjson s)] | None => [] end.
Definition device_members (h : eaf_sendspin_client_hello_t) : list (list Z * json) :=
  match opt_member "product_name" (product_name h) ++ opt_member "manufacturer" (manufacturer h)
        ++ opt_member "software_version" (software_version h) with
  | [] => []
  | ms => [(key_of "device_info", JObj ms)]
  end.

Definition client_hello_tree (h : eaf_sendspin_client_hello_t) (id name : list Z) : json :=
  JObj [(key_of "payload", JObj (
           [(key_of "client_id", cjson id); (key_of "name", cjson name); (key_of "version", num 1);
            (key_of "supported_roles", JArr [str "player@v1"])]
           ++ device_members h ++
           [(key_of "player@v1_support", JObj [
               (key_of "supported_formats", JArr (format_tree <$> advertised h));
               (key_of "buffer_capacity", num (buffer_capacity h));
               (key_of "supported_commands",
                  JArr ((if support_volume h then [str "volume"] else []) ++ (if support_mute h then [str "mute"] else [])))])]));
        (key_of "type", str "client/hello")].

Definition format_ok (f : eaf_sendspin_format_t) : Prop := is_u32 (sample_rate f) /\ is_u8 (channels f) /\ is_u8 (bit_depth f).
Definition hello_ok (h : eaf_sendspin_client_hello_t) : Prop :=
  Forall (fun s => match s with Some s => terminated s | None => True end) [product_name h; manufacturer h; software_version h] /\
  match formats h with Some fs => 0 <= format_count h <= zlen fs /\ Forall format_ok fs | None => True end /\
  format_ok (Format EAF_SENDPIN_CODEC_PCM (hello_rate h) (hello_channels h) (hello_depth h)) /\ is_u32 (buffer_capacity h).

(** A finished build. *)
Definition built (d : list Z) (cap n : Z) (t : list Z) (r : ub (ptr (list Z) * ptr Z * Z)) : Prop :=
  exists d' n' rc, r = Some (Some d', Some n', rc) /\ zlen d' = zlen d /\ (forall k, cap <= k -> ld d' k = ld d k) /\
    if decide (zlen t <= cap) then rc = EAF_OK /\ n' = zlen t /\ d' = splice d 0 t else rc = EAF_INVALID /\ n' = n.

(** What is left of a build, [finish] included. *)
Definition concludes (n : Z) (g : writer_t -> ub (ptr (list Z) * ptr Z * Z)) (t : list Z) : Prop :=
  forall w, valid w -> exists d' n' rc, g w = Some (Some d', Some n', rc) /\ zlen d' = zlen (buf w) /\
    (forall k, capacity w <= k -> ld d' k = ld (buf w) k) /\
    if ok w && bool_decide (used w + zlen t <= capacity w)
    then rc = EAF_OK /\ n' = used w + zlen t /\ d' = splice (buf w) (used w) t else rc = EAF_INVALID /\ n' = n.

Lemma concludes_finish n : concludes n (fun w => Some (finish w n)) [].
Proof.
  intros w [Hu Hc]. unfold finish. change (zlen []) with 0. rewrite bool_decide_eq_true_2 by lia. rewrite andb_true_r.
  destruct (ok w); cbn [negb]; eexists _, _, _; (split; [done |]); (split; [done |]); (split; [done |]); [| done].
  split; [done |]. split; [lia |]. by rewrite splice_nil.
Qed.

Lemma concludes_bind n f g s t : emits f s -> concludes n g t -> concludes n (fun w => w ← f w; g w) (s ++ t).
Proof.
  intros Hf Hg w Hw. destruct (Hf w Hw) as (w1 & -> & Hw1 & Hc1 & Hz1 & Hk1 & H1). cbn [mbind option_bind].
  destruct (Hg w1 Hw1) as (d' & n' & rc & -> & Hz2 & Hk2 & H2). exists d', n', rc. split; [done |].
  split; [congruence |]. split; [intros k Hk; rewrite Hk2, Hk1 by lia; done |].
  rewrite zlen_app. pose proof (zlen_nonneg s). pose proof (zlen_nonneg t). destruct (ok w); cbn [andb] in *.
  - destruct (bool_decide (used w + zlen s <= capacity w)) eqn:Hs.
    + destruct H1 as (Ho1 & Hu & Hb). rewrite Ho1, Hu, Hc1 in H2. cbn [andb] in H2.
      rewrite <- Z.add_assoc in H2. destruct (bool_decide (used w + (zlen s + zlen t) <= capacity w)) eqn:Ht; [| done].
      destruct H2 as (-> & -> & ->). split; [done |]. split; [lia |].
      rewrite Hb. destruct Hw as [? ?]. apply bool_decide_eq_true in Ht. apply splice_app; lia.
    + rewrite H1 in H2. cbn [andb] in H2. apply bool_decide_eq_false in Hs. by rewrite bool_decide_eq_false_2 by lia.
  - by rewrite H1 in H2.
Qed.

Lemma concludes_last n f t : emits f t -> concludes n (fun w => w ← f w; Some (finish w n)) t.
Proof. intros Hf. rewrite <- (app_nil_r t). apply concludes_bind; [done | apply concludes_finish]. Qed.

Lemma build_concludes d cap n t g :
  0 <= cap <= zlen d -> concludes n g t -> built d cap n t (g (Writer d cap 0 true)).
Proof.
  intros Hc Hg. destruct (Hg (Writer d cap 0 true)) as (d' & n' & rc & Hrun & Hz & Hk & Hw); [split; cbn; lia |].
  cbn [buf capacity used ok andb] in *. rewrite Z.add_0_l in Hw. exists d', n', rc. split; [done |]. split; [done |]. split; [done |].
  case_bool_decide; [by rewrite decide_True | by rewrite decide_False].
Qed.

Ltac emit_step := first
  [ apply emits_lit; by repeat constructor
  | apply emits_i64; assumption || word
  | apply emits_u64; word
  | apply emits_cstring; assumption  ].
Ltac emit_all := repeat match goal with
  | |- concludes _ (fun _ => _ ← _; Some (finish _ _)) _ => eapply concludes_last
  | |- concludes _ (fun _ => _ ← _; _) _ => eapply concludes_bind; [emit_step |]
  | |- emits (fun _ => _ ← _; _) _ => eapply emits_bind; [emit_step |]
  | |- emits _ _ => emit_step
  end.

(** Two texts that differ in how their pieces are grouped. *)
Ltac render_text :=
  cbn [render map sep_by fst snd]; unfold quoted; rewrite <- ?app_assoc; reflexivity.

Lemma concludes_eq n g t t' : t = t' -> concludes n g t -> concludes n g t'.
Proof. by intros ->. Qed.

Lemma client_time_built d cap t n :
  1 <= cap <= zlen d -> is_s64 t ->
  built d cap n (render (client_time_tree t)) (eaf_sendspin_build_client_time (Some d) cap t (Some n)).
Proof.
  intros Hc Ht. unfold eaf_sendspin_build_client_time. rewrite decide_False by lia.
  refine (build_concludes d cap n _ (fun w => w ← wr_lit w _; w ← wr_i64 w t; w ← wr_lit w _; Some (finish w n)) _ _); [lia |].
  eapply concludes_eq; [| emit_all]. unfold client_time_tree. rewrite <- render_num. by render_text.
Qed.

Lemma client_state_built d cap s n :
  1 <= cap <= zlen d -> is_s32 (state_volume s) -> is_s32 (state_delay_ms s) -> is_s32 (state_lead_ms s) -> is_s32 (state_buffer_ms s) ->
  built d cap n (render (client_state_tree s)) (eaf_sendspin_build_client_state (Some d) cap (Some s) (Some n)).
Proof.
  intros Hc H1 H2 H3 H4. unfold eaf_sendspin_build_client_state. rewrite decide_False by lia.
  refine (build_concludes d cap n _ (fun w => w ← wr_lit w _; w ← wr_i64 w (state_volume s); w ← wr_lit w _;
    w ← wr_lit w (if state_muted s then text "true" else text "false"); w ← wr_lit w _;
    w ← wr_i64 w (state_delay_ms s); w ← wr_lit w _; w ← wr_i64 w (state_lead_ms s); w ← wr_lit w _;
    w ← wr_i64 w (state_buffer_ms s); w ← wr_lit w _; Some (finish w n)) _ _); [lia |].
  unfold client_state_tree. destruct (state_muted s); (eapply concludes_eq; [| emit_all]); rewrite <- !render_num; by render_text.
Qed.

(** ** The hello message *)

Lemma emits_pair {A} (f0 : writer_t -> ub writer_t) (bit : A) (g : writer_t -> A -> ub writer_t) s t :
  emits f0 s -> emits (fun w => g w bit) t -> emits (fun w => '(w, c) ← (w ← f0 w; Some (w, bit)); g w c) (s ++ t).
Proof.
  intros Hf Hg. eapply emits_ext; [| by apply (emits_bind f0 (fun w => g w bit))].
  intros w. cbn. by destruct (f0 w).
Qed.

Definition entry_text (comma : bool) (key : string) (s : list Z) : list Z :=
  ((if comma then [c_comma] else []) ++ text key) ++ quoted (escape (cstr s)).

Lemma emits_entry comma key s t (g : writer_t -> bool -> ub writer_t) :
  Forall (fun c => c <> 0) (text key) -> match s with Some s => terminated s | None => True end ->
  emits (fun w => g w (match s with Some _ => true | None => comma end)) t ->
  emits (fun w => '(w, c) ← device_entry w comma key s; g w c) (match s with Some s => entry_text comma key s | None => [] end ++ t).
Proof.
  intros Hk Hs Hg. destruct s as [s|]; [| exact Hg]. unfold device_entry.
  eapply emits_ext; [| apply (emits_pair (fun w => w ← wr_lit w ((if comma then [c_comma] else []) ++ text key); wr_cstring w s) true g);
    [| exact Hg]].
  - intros w. cbn. destruct (wr_lit w _); [| done]. cbn. by destruct (wr_cstring _ s).
  - apply emits_bind; [| by apply emits_cstring]. apply emits_lit. apply Forall_app. split; [| done].
    destruct comma; by repeat constructor.
Qed.

Definition device_text (h : eaf_sendspin_client_hello_t) : list Z :=
  match device_members h with
  | [] => []
  | ms => [c_comma] ++ sep_by (map member_text ms)
  end.

Lemma entry_member comma key quoted_key s :
  text quoted_key = [c_quote] ++ key_of key ++ [c_quote; c_colon] ->
  entry_text comma quoted_key s = (if comma then [c_comma] else []) ++ member_text (key_of key, cjson s).
Proof.
  intros E. unfold entry_text, member_text, quoted. rewrite E. cbn [fst snd cjson render]. unfold quoted. by rewrite <- !app_assoc.
Qed.

Lemma emits_device h : hello_ok h -> emits (fun w => device_info w h) (device_text h).
Proof.
  intros (Hs & _). apply List.Forall_cons_iff in Hs as [H1 Hs]. apply List.Forall_cons_iff in Hs as [H2 Hs].
  apply List.Forall_cons_iff in Hs as [H3 _].
  assert (Hall : forall p m s, match p with Some s => terminated s | None => True end -> match m with Some s => terminated s | None => True end ->
    match s with Some s => terminated s | None => True end ->
    emits (fun w => w ← wr_lit w (text ",'device_info':{"); '(w, c) ← device_entry w false "'product_name':" p;
      '(w, c) ← device_entry w c "'manufacturer':" m; '(w, _) ← device_entry w c "'software_version':" s; wr_lit w (text "}"))
    (text ",'device_info':{" ++ match p with Some s => entry_text false "'product_name':" s | None => [] end ++
      match m with Some s => entry_text (match p with Some _ => true | None => false end) "'manufacturer':" s | None => [] end ++
      match s with Some s => entry_text (match m with Some _ => true | None => match p with Some _ => true | None => false end end)
                               "'software_version':" s | None => [] end ++ text "}")).
  { intros p m s Hp Hm Hv. apply emits_bind; [apply emits_lit; by repeat constructor |].
    apply emits_entry; [by repeat constructor | done |]. apply emits_entry; [by repeat constructor | done |].
    apply emits_entry; [by repeat constructor | done |]. apply emits_lit. by repeat constructor. }
  specialize (Hall _ _ _ H1 H2 H3). unfold device_info, device_text, device_members.
  destruct (product_name h) as [p|], (manufacturer h) as [m|], (software_version h) as [s|]; cbn [opt_member app map];
    try (eapply emits_eq; [| exact Hall]); try apply emits_nil;
    rewrite ?(entry_member _ "product_name" "'product_name':"), ?(entry_member _ "manufacturer" "'manufacturer':"),
      ?(entry_member _ "software_version" "'software_version':") by done;
    cbn [sep_by map]; unfold member_text; cbn [fst snd render map sep_by]; unfold quoted; rewrite <- ?app_assoc; reflexivity.
Qed.

Lemma emits_format f : named f = true -> format_ok f -> emits (fun w => write_format w f) (render (format_tree f)).
Proof.
  unfold named. intros Hn (Hr & Hc & Hd). unfold write_format, format_tree.
  assert (Hname : exists name, codec_name (codec f) = Some name /\ Forall (fun c => c <> 0) name /\ escape name = name).
  { destruct (codec f); cbn in *; try done; eexists; (split; [done |]); (split; [by repeat constructor | by vm_compute]). }
  destruct Hname as (name & -> & Hnz & Hesc). cbn [mbind option_bind default from_option id].
  assert (Hs : c_string name (name ++ [0])) by (split; [done | by exists []]). rewrite (strlen_string name) by done.
  cbn [mbind option_bind].
  assert (Hstr : emits (fun w => wr_json_string w (name ++ [0]) (zlen name)) (quoted name))
    by (pose proof (emits_json_string name (name ++ [0]) Hs) as E; by rewrite Hesc in E).
  assert (Hch : emits (fun w => wr_u64 w (channels f)) (render (num (channels f)))).
  { rewrite render_num. unfold int_text. rewrite decide_False by word. apply emits_u64. word. }
  assert (Hrate : emits (fun w => wr_u64 w (sample_rate f)) (render (num (sample_rate f)))).
  { rewrite render_num. unfold int_text. rewrite decide_False by word. apply emits_u64. word. }
  assert (Hdep : emits (fun w => wr_u64 w (bit_depth f)) (render (num (bit_depth f)))).
  { rewrite render_num. unfold int_text. rewrite decide_False by word. apply emits_u64. word. }
  assert (Hlit : forall s, Forall (fun c => c <> 0) (text s) -> emits (fun w => wr_lit w (text s)) (text s)) by (intros; by apply emits_lit).
  assert (Htail : emits (fun w => if decide (codec f = EAF_SENDPIN_CODEC_PCM /\ bit_depth f <> 0)
      then w ← wr_lit w (text ",'bit_depth':"); wr_u64 w (bit_depth f) else Some w)
    (if decide (codec f = EAF_SENDPIN_CODEC_PCM /\ bit_depth f <> 0) then text ",'bit_depth':" ++ render (num (bit_depth f)) else [])).
  { case_decide; [apply emits_bind; [apply Hlit; by repeat constructor | done] | apply emits_nil]. }
  eapply emits_eq; [| repeat (eapply emits_bind; [first [exact Hstr | exact Hch | exact Hrate | exact Htail | apply Hlit; by repeat constructor] |]);
    apply Hlit; by repeat constructor].
  case_decide; cbn [app]; cbn [render map sep_by fst snd]; unfold quoted; rewrite <- ?app_assoc; reflexivity.
Qed.

Definition formats_text (fs : list eaf_sendspin_format_t) : list Z := sep_by (map (fun f => render (format_tree f)) fs).

Lemma sep_by_snoc parts t : sep_by (parts ++ [t]) = sep_by parts ++ (match parts with [] => [] | _ => [c_comma] end) ++ t.
Proof.
  induction parts as [|u parts IH]; [done |]. destruct parts as [|v parts]; [done |].
  change ((u :: v :: parts) ++ [t]) with (u :: (v :: parts) ++ [t]). rewrite sep_by_cons by done. rewrite IH.
  rewrite (sep_by_cons u) by done. by rewrite <- !app_assoc.
Qed.

(** The format loop is a plain step per entry once the number of entries
    already written is known. *)
Lemma format_loop_emits fs (k : nat) :
  (k <= length fs)%nat -> Forall format_ok fs ->
  exists g, emits g (formats_text (List.filter named (take k fs))) /\
    forall w, for_to (Z.of_nat k) (format_round fs) (w, 0) = (w' ← g w; Some (w', zlen (List.filter named (take k fs)))).
Proof.
  intros Hk Hok. induction k as [|k IH].
  - exists (fun w => Some w). split; [apply emits_nil | done].
  - destruct IH as (g & Hg & Hrun); [lia |]. destruct (lookup_lt_is_Some_2 fs k) as [f Hf]; [lia |].
    rewrite (take_S_r _ _ f Hf), List.filter_app. cbn [List.filter]. set (fs0 := List.filter named (take k fs)) in *.
    assert (Hstep : forall w, for_to (Z.of_nat (S k)) (format_round fs) (w, 0) = (w' ← g w; format_round fs (Z.of_nat k) (w', zlen fs0))).
    { intros w. unfold for_to in *. rewrite !Nat2Z.id in *. rewrite for_from_bind, Hrun. destruct (g w); [| done].
      cbn [mbind option_bind]. by rewrite Z.add_0_l. }
    assert (Hld : ld fs (Z.of_nat k) = Some f) by (rewrite ld_lookup by lia; by rewrite Nat2Z.id).
    pose proof (proj1 (Forall_lookup _ _) Hok k f Hf) as Hfok. destruct (named f) eqn:Hn.
    + exists (fun w => w ← g w; w ← (if decide (zlen fs0 <> 0) then wr_char w c_comma else Some w); write_format w f). split.
      * unfold formats_text. rewrite map_app. cbn [map]. rewrite sep_by_snoc.
        apply (emits_bind g); [done |]. apply emits_bind; [| by apply emits_format].
        clear Hstep. clearbody fs0. destruct (decide (zlen fs0 <> 0)) as [Hz|Hz], fs0 as [|f0 fs0]; [| apply emits_char | apply emits_nil |].
        { by destruct Hz. }
        rewrite zlen_cons in Hz. pose proof (zlen_nonneg fs0). lia.
      * intros w. rewrite Hstep. destruct (g w) as [w1|]; [| done]. cbn [mbind option_bind]. unfold format_round.
        rewrite Hld. cbn [mbind option_bind]. unfold named in Hn. destruct (codec_name (codec f)); [| done].
        destruct (if decide (zlen fs0 <> 0) then _ else _) as [w2|]; [| done]. cbn [mbind option_bind].
        destruct (write_format w2 f); [| done]. cbn [mbind option_bind]. by rewrite zlen_app.
    + exists g. rewrite app_nil_r. split; [done |]. intros w. rewrite Hstep. destruct (g w) as [w1|]; [| done].
      cbn [mbind option_bind]. unfold format_round. rewrite Hld. cbn [mbind option_bind]. unfold named in Hn. by destruct (codec_name (codec f)).
Qed.

Lemma emits_formats h : hello_ok h -> emits (fun w => write_formats w h) (sep_by (map render (format_tree <$> advertised h))).
Proof.
  intros (_ & Hfs & Hfall & _). unfold write_formats, advertised.
  set (fb := Format EAF_SENDPIN_CODEC_PCM (hello_rate h) (hello_channels h) (hello_depth h)) in *.
  assert (Hfb : emits (fun w => write_format w fb) (render (format_tree fb))) by (by apply emits_format).
  destruct (formats h) as [fs|]; cbn [default from_option id]; [| rewrite take_nil; exact Hfb].
  destruct Hfs as [Hn Hok]. destruct (format_loop_emits fs (Z.to_nat (format_count h))) as (g & Hg & Hrun); [unfold zlen in Hn; lia | done |].
  rewrite Z2Nat.id in Hrun by lia. set (adv := List.filter named _) in *. destruct adv as [|f0 adv].
  - eapply emits_ext; [| apply (emits_bind g (fun w => write_format w fb) [] _ Hg Hfb)].
    intros w. rewrite Hrun. cbn. by destruct (g w).
  - eapply emits_ext; [| refine (emits_eq _ _ _ _ Hg)].
    + intros w. rewrite Hrun. destruct (g w); [| done]. cbn [mbind option_bind]. rewrite decide_False; [done |].
      rewrite zlen_cons. pose proof (zlen_nonneg adv). lia.
    + unfold formats_text. f_equal. clear. induction (f0 :: adv) as [|x l IH]; [done |]. cbn [fmap list_fmap map]. f_equal. exact IH.
Qed.

Definition commands_text (volume mute : bool) : list Z :=
  (if volume then text "'volume'" ++ (if mute then text "," else []) else []) ++ (if mute then text "'mute'" else []).

Lemma client_hello_built d cap h id name n :
  1 <= cap <= zlen d -> client_id h = Some id -> client_name h = Some name -> terminated id -> terminated name -> hello_ok h ->
  built d cap n (render (client_hello_tree h id name)) (eaf_sendspin_build_client_hello (Some d) cap (Some h) (Some n)).
Proof.
  intros Hc Hid Hname Ti Tn Hok. pose proof Hok as (_ & _ & _ & Hb). unfold eaf_sendspin_build_client_hello. rewrite Hid, Hname.
  rewrite decide_False by lia. pose proof (emits_cstring id Ti) as Ei. pose proof (emits_cstring name Tn) as En.
  pose proof (emits_device h Hok) as Ed. pose proof (emits_formats h Hok) as Ef.
  assert (Eb : emits (fun w => wr_u64 w (buffer_capacity h)) (render (num (buffer_capacity h)))).
  { rewrite render_num. unfold int_text. rewrite decide_False by word. apply emits_u64. word. }
  assert (Ev : emits (fun w => if support_volume h then w ← wr_lit w (text "'volume'"); if support_mute h then wr_lit w (text ",") else Some w else Some w)
    (if support_volume h then text "'volume'" ++ (if support_mute h then text "," else []) else [])).
  { destruct (support_volume h); [| apply emits_nil]. apply emits_bind; [apply emits_lit; by repeat constructor |].
    destruct (support_mute h); [apply emits_lit; by repeat constructor | apply emits_nil]. }
  assert (Em : emits (fun w => if support_mute h then wr_lit w (text "'mute'") else Some w) (if support_mute h then text "'mute'" else [])).
  { destruct (support_mute h); [apply emits_lit; by repeat constructor | apply emits_nil]. }
  refine (build_concludes d cap n _ (fun w => w ← wr_lit w _; w ← wr_cstring w id; w ← wr_lit w _; w ← wr_cstring w name;
    w ← wr_lit w _; w ← device_info w h; w ← wr_lit w _; w ← write_formats w h; w ← wr_lit w _; w ← wr_u64 w (buffer_capacity h);
    w ← wr_lit w _; w ← (if support_volume h then _ else _); w ← (if support_mute h then _ else _); w ← wr_lit w _; w ← wr_lit w _;
    Some (finish w n)) _ _); [lia |].
  eapply concludes_eq; [| repeat (eapply concludes_bind;
    [first [exact Ei | exact En | exact Ed | exact Ef | exact Eb | exact Ev | exact Em | apply emits_lit; by repeat constructor] |]);
    apply concludes_finish].
  unfold client_hello_tree, device_text. set (dm := device_members h). set (ft := format_tree <$> advertised h).
  assert (Hdm : dm = [] \/ exists kv, dm = [kv]) by (unfold dm, device_members; destruct (_ ++ _ ++ _); [by left | right; by eexists]).
  clearbody dm ft. destruct Hdm as [->|[kv ->]]; destruct (support_volume h), (support_mute h);
    unfold cjson; cbn [app map sep_by]; unfold member_text; cbn [render map sep_by fst snd]; unfold quoted; rewrite <- ?app_assoc; reflexivity.
Qed.

(** ** Reading the server's messages *)

(** [b] starts with the compact text of the message [v]. *)
Definition message (b : list Z) (v : json) : Prop := wf_json v = true /\ slice b 0 (zlen (render v)) = render v.

Lemma slice_bound (b t : list Z) : slice b 0 (zlen t) = t -> zlen t <= zlen b.
Proof. intros Hb. pose proof (f_equal zlen Hb) as Hz. unfold slice, zlen in *. rewrite length_take, length_drop in Hz. lia. Qed.

Lemma get_value_eq b v key w :
  message b v -> json_path [key_of key] v = inl w -> readable w = true -> key_of key <> [] -> Forall (fun c => c <> 0) (key_of key) ->
  c_dot ∉ key_of key ->
  exists q, get_value b (zlen (render v)) key = Some (value_of q w, EAF_OK) /\ 0 <= q /\ q + zlen (render w) <= zlen b /\
    slice b q (zlen (render w)) = render w.
Proof.
  intros [Hwf Hb] Hp Hr Hne Hnz Hdot. pose proof (slice_bound _ _ Hb) as Hl. unfold get_value, with_ref, path_of.
  assert (Hpath : c_string (dotted [key_of key]) (chars key ++ [0])) by (split; [done | by exists []]).
  pose proof (get_loop_eq b (zlen (render v)) Hl (length (chars key ++ [0])) 0 _ [key_of key] v json_zero Hpath) as H.
  unfold eaf_sendspin_json_get.
  assert (Hfirst : exists x, ld (chars key ++ [0]) 0 = Some x /\ x <> 0).
  { unfold key_of in *. destruct (chars key) as [|x t]; [done |]. exists x. split; [done |]. by apply List.Forall_cons_iff in Hnz as [? _]. }
  destruct Hfirst as (x & -> & Hx). cbn [mbind option_bind]. rewrite decide_False by done.
  rewrite Hp in H. unfold lookup_post in H. rewrite Hr in H.
  destruct H as (q & (Hq & Hql & Hqs) & Hrun); [done | by repeat constructor | rewrite length_app; simpl; lia | done |
    split; [done |]; split; [lia | done] |].
  rewrite Hrun. cbn [mbind option_bind]. exists q. split; [done |]. split; [done |]. split; [lia | done].
Qed.

Lemma scan_object_eq b q kvs fields :
  wf_json (JObj kvs) = true -> 0 <= q -> q + zlen (render (JObj kvs)) <= zlen b ->
  slice b q (zlen (render (JObj kvs))) = render (JObj kvs) ->
  NoDup (key <$> fields) -> Forall (fun f => found f = true \/ field_wants kvs f) (reset_field <$> fields) ->
  exists fields', scan_object b (value_of q (JObj kvs)) fields = Some (fields', EAF_OK) /\
    Forall2 (filled b (q + zlen (render (JObj kvs))) kvs) (reset_field <$> fields) fields'.
Proof.
  intros Hwf Hq Hl Hs Hnd Hw. unfold scan_object. cbn [value_of raw raw_length mbind option_bind].
  destruct (scan_fields_eq b (q + zlen (render (JObj kvs))) Hl q kvs fields) as (q' & fields' & -> & Hf);
    [done | split; [done |]; split; [lia | done] | done | done |].
  by exists fields'.
Qed.

Lemma field_wants_value kvs name :
  (forall v, lookup_key (key_of name) kvs = Some v -> readable v = true) -> field_wants kvs (reset_field (field name)).
Proof. intros Hr. split; [done |]. split; [done |]. intros v _ Hv. by apply Hr. Qed.

(** What a value field holds after the scan. *)
Definition holds (b : list Z) (e : Z) (kvs : list (list Z * json)) (name : string) (f : json_field_t) : Prop :=
  match lookup_key (key_of name) kvs with
  | Some v => found f = true /\ exists q, seen b e q (render v) /\ value f = Some (value_of q v)
  | None => found f = false /\ value f = Some json_zero
  end.

Lemma filled_holds b e kvs name f : filled b e kvs (reset_field (field name)) f -> holds b e kvs name f.
Proof.
  unfold filled, holds. cbn. unfold key_of. destruct (lookup_key (chars name) kvs) as [v|]; [| by intros ->].
  intros (_ & _ & Hf & _ & Hv). done.
Qed.

Lemma value_of_number q w neg ds : w = JNum neg ds None -> is_number (value_of q w) = true /\ number (value_of q w) = int_value neg ds.
Proof. by intros ->. Qed.

Lemma lookup_wf kvs k v : members_wf kvs -> lookup_key k kvs = Some v -> wf_json v = true.
Proof.
  induction kvs as [|[k' w] kvs IH]; [done |]. intros (_ & Hw & Hwf)%members_wf_cons. cbn [lookup_key fst snd].
  case_decide; [by intros [= <-] | by apply IH].
Qed.

Ltac by_decision := apply (bool_decide_eq_true _); by vm_compute.

(** The object under a top-level key, as every parser fetches it. *)
Lemma get_object b kvs name pk :
  message b (JObj kvs) -> lookup_key (key_of name) kvs = Some (JObj pk) ->
  key_of name <> [] /\ Forall (fun c => c <> 0) (key_of name) /\ c_dot ∉ key_of name ->
  exists q, get_value b (zlen (render (JObj kvs))) name = Some (value_of q (JObj pk), EAF_OK) /\ wf_json (JObj pk) = true /\
    0 <= q /\ q + zlen (render (JObj pk)) <= zlen b /\ slice b q (zlen (render (JObj pk))) = render (JObj pk).
Proof.
  intros Hm Hl (Hne & Hnz & Hdot).
  destruct (get_value_eq b (JObj kvs) name (JObj pk) Hm) as (q & -> & Hq); [cbn; by rewrite Hl | done | done | done | done |].
  exists q. split; [done |]. split; [| done]. destruct Hm as [Hwf _]. by apply (lookup_wf kvs (key_of name)).
Qed.

Lemma payload_key : key_of "payload" <> [] /\ Forall (fun c => c <> 0) (key_of "payload") /\ c_dot ∉ key_of "payload".
Proof. split; [done |]. split; [by repeat constructor | by_decision]. Qed.

Lemma holds_number b e kvs name f neg ds :
  holds b e kvs name f -> lookup_key (key_of name) kvs = Some (JNum neg ds None) ->
  exists v, value f = Some v /\ is_number v = true /\ number v = int_value neg ds.
Proof. unfold holds. intros H Hl. rewrite Hl in H. destruct H as (_ & q & _ & ->). by eexists. Qed.

Lemma wants_number kvs name neg ds :
  lookup_key (key_of name) kvs = Some (JNum neg ds None) -> field_wants kvs (reset_field (field name)).
Proof. intros Hl. apply field_wants_value. rewrite Hl. by intros v [= <-]. Qed.

Lemma server_time_eq (b : list Z) (kvs pk : list (list Z * json)) (out : eaf_sendspin_server_time_t) na da nr dr nt dt :
  message b (JObj kvs) -> lookup_key (key_of "payload") kvs = Some (JObj pk) ->
  lookup_key (key_of "client_transmitted") pk = Some (JNum na da None) ->
  lookup_key (key_of "server_received") pk = Some (JNum nr dr None) ->
  lookup_key (key_of "server_transmitted") pk = Some (JNum nt dt None) ->
  eaf_sendspin_parse_server_time (Some b) (zlen (render (JObj kvs))) (Some out)
    = Some (Some (ServerTime (int_value na da) (int_value nr dr) (int_value nt dt)), EAF_OK).
Proof.
  intros Hm Hpay Ha Hr Ht. unfold eaf_sendspin_parse_server_time.
  destruct (get_object b kvs "payload" pk Hm Hpay payload_key) as (q & -> & Hwf & Hq & Hl & Hs). cbn [mbind option_bind].
  rewrite bool_decide_eq_false_2 by apply EAF_OK_zero. change (is_object (value_of q (JObj pk))) with true. cbn [negb orb].
  destruct (scan_object_eq b q pk time_fields Hwf Hq Hl Hs) as (fields & -> & Hf); [by_decision | |].
  { unfold time_fields. cbn [fmap list_fmap].
    apply Forall_cons_2; [right; by eapply wants_number |]. apply Forall_cons_2; [right; by eapply wants_number |].
    apply Forall_cons_2; [right; by eapply wants_number |]. constructor. }
  cbn [mbind option_bind]. rewrite decide_False by apply EAF_OK_zero. unfold time_fields in Hf. cbn [fmap list_fmap] in Hf.
  apply Forall2_cons_inv_l in Hf as (f0 & fs0 & Hf0 & Hf & ->). apply Forall2_cons_inv_l in Hf as (f1 & fs1 & Hf1 & Hf & ->).
  apply Forall2_cons_inv_l in Hf as (f2 & fs2 & Hf2 & Hf & ->).
  destruct (holds_number _ _ _ _ _ _ _ (filled_holds _ _ _ _ _ Hf0) Ha) as (v0 & E0 & N0 & V0).
  destruct (holds_number _ _ _ _ _ _ _ (filled_holds _ _ _ _ _ Hf1) Hr) as (v1 & E1 & N1 & V1).
  destruct (holds_number _ _ _ _ _ _ _ (filled_holds _ _ _ _ _ Hf2) Ht) as (v2 & E2 & N2 & V2).
  unfold local. change ((f0 :: ?l) !! 0%nat) with (Some f0).
  cbn [lookup list_lookup mbind option_bind]. rewrite E0, E1, E2. cbn [mbind option_bind]. rewrite N0, N1, N2. cbn [negb orb].
  by rewrite V0, V1, V2.
Qed.
