(* ===== verification/MessageSpec.v ===== *)
(** The contract of the message layer of sendspin_protocol.c: what each parser
    returns for a compact message of the server, and that what the client
    sends is JSON its own reader finds the values in again. *)

From stdpp Require Import strings.
From S2P Require Import Prelude Types Ring Bytes Text Json JsonRender JsonFields Messages.

(** ** Members of an object, as the parsers look at them *)

Definition number_member (kvs : list (list Z * json)) (name : string) : option Z :=
  match lookup_key (key_of name) kvs with Some (JNum neg ds None) => Some (int_value neg ds) | _ => None end.

Definition string_member (kvs : list (list Z * json)) (name : string) : option (list Z) :=
  match lookup_key (key_of name) kvs with Some (JStr t) => Some t | _ => None end.

(** No number with a fraction under the name: such a value is refused. *)
Definition plain (kvs : list (list Z * json)) (name : string) : Prop :=
  forall v, lookup_key (key_of name) kvs = Some v -> readable v = true.

(** A string the parser reports as a view of the message. *)
Definition views (b : list Z) (t : option (list Z)) (at_ : ptr Z) (n : Z) : Prop :=
  match t with
  | Some t => exists q, at_ = Some q /\ n = zlen t /\ slice b q n = t
  | None => at_ = None /\ n = 0
  end.

Lemma plain_wants kvs names : Forall (plain kvs) names -> Forall (fun f => found f = true \/ field_wants kvs f) (reset_field <$> (field <$> names)).
Proof. intros H. induction H as [|name names Hn _ IH]; constructor; [right; by apply field_wants_value | exact IH]. Qed.

Lemma holds_found b e kvs name f : holds b e kvs name f -> found f = bool_decide (is_Some (lookup_key (key_of name) kvs)).
Proof. unfold holds. destruct (lookup_key (key_of name) kvs); [by intros [-> _] | by intros [-> _]]. Qed.

Lemma holds_number_member b e kvs name f :
  holds b e kvs name f -> plain kvs name ->
  exists v, value f = Some v /\
    match number_member kvs name with Some n => is_number v = true /\ number v = n | None => is_number v = false end.
Proof.
  unfold holds, plain, number_member. destruct (lookup_key (key_of name) kvs) as [w|]; intros H Hp.
  - destruct H as (_ & q & _ & Hv). exists (value_of q w). split; [done |]. specialize (Hp w eq_refl). by destruct w as [| |neg ds [|]| | |].
  - destruct H as (_ & Hv). by exists json_zero.
Qed.

Lemma slice_seen b e p t : seen b e p t -> slice b p (zlen t) = t.
Proof. by intros (_ & _ & H). Qed.

Lemma quoted_view b e q t : e <= zlen b -> seen b e q (quoted t) -> seen b e (q + 1) t.
Proof. unfold quoted. intros He H. apply (seen_app b e He) in H as [_ H]. by apply (seen_app b e He) in H as [H _]. Qed.

Lemma holds_string_member b e kvs name f :
  e <= zlen b -> holds b e kvs name f ->
  exists v, value f = Some v /\ views b (string_member kvs name) (string_view true v).1 (string_view true v).2 /\
    match string_member kvs name with
    | Some t => exists q, v = value_of q (JStr t) /\ seen b e (q + 1) t
    | None => is_string v = false
    end.
Proof.
  unfold holds, string_member. destruct (lookup_key (key_of name) kvs) as [w|]; intros He H.
  - destruct H as (_ & q & Hs & Hv). exists (value_of q w). split; [done |]. destruct w; try done.
    apply (quoted_view b e q _ He) in Hs. split; [exists (q + 1) | by exists q].
    split; [done |]. split; [done |]. by apply slice_seen in Hs.
  - destruct H as (_ & Hv). exists json_zero. by split.
Qed.

Lemma string_equals_eq b e q t s : e <= zlen b -> seen b e (q + 1) t ->
  eaf_sendspin_json_string_equals b (Some (value_of q (JStr t))) s = Some (bool_decide (t = chars s)).
Proof.
  intros He (Hq & Hl & Hs). unfold eaf_sendspin_json_string_equals. cbn [value_of type string_length string_at mbind option_bind].
  rewrite decide_False by (intros H; by apply H). destruct (decide (zlen t <> zlen (chars s))) as [Hne|Heq].
  - f_equal. symmetry. apply bool_decide_eq_false. by intros ->.
  - assert (Hz : zlen (chars s) = zlen t) by (destruct (decide (zlen t = zlen (chars s))); [done | by destruct Heq]).
    rewrite memeq_eq by lia. by rewrite Hz, Hs.
Qed.

(** ** The codec of a stream *)

Definition codec_of (t : list Z) : eaf_sendspin_codec_t :=
  if decide (t = chars "pcm") then EAF_SENDPIN_CODEC_PCM else if decide (t = chars "flac") then EAF_SENDPIN_CODEC_FLAC
  else if decide (t = chars "opus") then EAF_SENDPIN_CODEC_OPUS else if decide (t = chars "mp3") then EAF_SENDPIN_CODEC_MP3
  else if decide (t = chars "vorbis") then EAF_SENDPIN_CODEC_VORBIS else EAF_SENDPIN_CODEC_UNKNOWN.

Lemma codec_from_value_eq b e q t : e <= zlen b -> seen b e (q + 1) t ->
  codec_from_value b (value_of q (JStr t)) = Some (codec_of t).
Proof.
  intros He Hs. unfold codec_from_value, codec_of. rewrite !(string_equals_eq b e q t _ He Hs). cbn [mbind option_bind].
  repeat (destruct (decide (t = chars _)) as [->|?]; [done |]; rewrite bool_decide_eq_false_2 by done; cbn [mbind option_bind]).
  done.
Qed.

Lemma codec_from_other b v : is_string v = false -> codec_from_value b v = Some EAF_SENDPIN_CODEC_UNKNOWN.
Proof.
  unfold is_string. intros H%bool_decide_eq_false. unfold codec_from_value, eaf_sendspin_json_string_equals.
  rewrite !decide_True by done. cbn [mbind option_bind]. done.
Qed.

(** ** [stream/start] as a function of the message's tree *)

(** What the player object says: the codec, and the three numbers it needs. *)
Definition stream_of (player : list (list Z * json)) : option (option (eaf_sendspin_codec_t * Z * Z * Z)) :=
  match lookup_key (key_of "codec") player with
  | None => None
  | Some _ => Some (
      rate ← number_member player "sample_rate"; channels ← number_member player "channels";
      depth ← number_member player "bit_depth";
      Some (match string_member player "codec" with Some t => codec_of t | None => EAF_SENDPIN_CODEC_UNKNOWN end,
            u32 rate, u8 channels, u8 depth))
  end.

Definition stream_result (b : list Z) (payload : list (list Z * json)) (o : eaf_sendspin_stream_start_t) (rc : Z) : Prop :=
  match lookup_key (key_of "player") payload with
  | Some (JObj player) =>
      match stream_of player with
      | Some (Some (c, rate, channels, depth)) =>
          rc = EAF_OK /\ start_transmitted o = default 0 (number_member payload "server_transmitted") /\
          start_codec o = c /\ start_sample_rate o = rate /\ start_channels o = channels /\ start_bit_depth o = depth /\
          views b (string_member player "codec_header") (codec_header o) (codec_header_length o)
      | _ => rc = EAF_INVALID
      end
  | _ => rc = EAF_INVALID
  end.

Definition stream_player_names : list string := ["codec"; "sample_rate"; "channels"; "bit_depth"; "codec_header"]%string.

Ltac next_field H := let f := fresh "f" in let fs := fresh "fs" in let Hf := fresh "Hf" in
  apply Forall2_cons_inv_l in H as (f & fs & Hf & H & ->); apply filled_holds in Hf.

Lemma parse_stream_player_eq b q player transmitted zero :
  wf_json (JObj player) = true -> 0 <= q -> q + zlen (render (JObj player)) <= zlen b ->
  slice b q (zlen (render (JObj player))) = render (JObj player) -> Forall (plain player) stream_player_names ->
  exists o rc, parse_stream_player b (value_of q (JObj player)) transmitted zero = Some (Some o, rc) /\
    match stream_of player with
    | Some (Some (c, rate, channels, depth)) =>
        rc = EAF_OK /\ start_transmitted o = (if is_number transmitted then number transmitted else 0) /\
        start_codec o = c /\ start_sample_rate o = rate /\ start_channels o = channels /\ start_bit_depth o = depth /\
        views b (string_member player "codec_header") (codec_header o) (codec_header_length o)
    | _ => rc = EAF_INVALID
    end.
Proof.
  intros Hwf Hq Hl Hs Hp. unfold parse_stream_player.
  destruct (scan_object_eq b q player stream_player_fields Hwf Hq Hl Hs) as (fields & -> & Hf);
    [by_decision | exact (plain_wants _ _ Hp) |].
  set (e := q + zlen (render (JObj player))) in *. cbn [mbind option_bind].
  rewrite bool_decide_eq_false_2 by apply EAF_OK_zero. cbn [orb].
  unfold stream_player_fields in Hf. cbn [fmap list_fmap] in Hf.
  next_field Hf. next_field Hf. next_field Hf. next_field Hf. next_field Hf. apply Forall2_nil_inv_l in Hf as ->.
  unfold local. cbn [lookup list_lookup mbind option_bind fmap option_fmap option_map].
  rewrite (holds_found _ _ _ _ _ Hf0). unfold stream_of.
  pose proof (list.Forall_cons_1 _ _ _ Hp) as [_ Hp1]. pose proof (list.Forall_cons_1 _ _ _ Hp1) as [Hrate Hp2].
  pose proof (list.Forall_cons_1 _ _ _ Hp2) as [Hch Hp3]. pose proof (list.Forall_cons_1 _ _ _ Hp3) as [Hdepth _].
  destruct (holds_string_member _ _ _ _ _ Hl Hf0) as (v0 & E0 & V0 & S0). destruct (holds_number_member _ _ _ _ _ Hf1 Hrate) as (v1 & -> & N1).
  destruct (holds_number_member _ _ _ _ _ Hf2 Hch) as (v2 & -> & N2). destruct (holds_number_member _ _ _ _ _ Hf3 Hdepth) as (v3 & -> & N3).
  destruct (holds_string_member _ _ _ _ _ Hl Hf4) as (v4 & -> & V4 & _).
  assert (Hc : codec_from_value b v0 = Some (match string_member player "codec" with Some t => codec_of t | None => EAF_SENDPIN_CODEC_UNKNOWN end)).
  { destruct (string_member player "codec") as [t|].
    - destruct S0 as (p & -> & Hseen). by apply (codec_from_value_eq b e).
    - by apply codec_from_other. }
  rewrite E0. cbn [mbind option_bind]. rewrite Hc. cbn [mbind option_bind]. clear Hc E0 V0 S0.
  destruct (lookup_key (key_of "codec") player); [| by eexists _, _].
  rewrite bool_decide_eq_true_2 by by eexists. cbn [negb].
  destruct (number_member player "sample_rate") as [rate|]; [destruct N1 as [-> ->] | rewrite N1; by eexists _, _].
  destruct (number_member player "channels") as [channels|]; [destruct N2 as [-> ->] | rewrite N2; by eexists _, _].
  destruct (number_member player "bit_depth") as [depth|]; [destruct N3 as [-> ->] | rewrite N3; by eexists _, _].
  cbn [negb orb mbind option_bind]. destruct (string_view true v4) as [header header_n]. by eexists _, _.
Qed.




(** A [server/time] message gives back the three times it carries, clamped to
    [int64_t]. *)
Theorem server_time_parsed (b : list Z) (kvs payload : list (list Z * json)) (out : eaf_sendspin_server_time_t) na da nr dr nt dt :
  message b (JObj kvs) -> lookup_key (key_of "payload") kvs = Some (JObj payload) ->
  lookup_key (key_of "client_transmitted") payload = Some (JNum na da None) ->
  lookup_key (key_of "server_received") payload = Some (JNum nr dr None) ->
  lookup_key (key_of "server_transmitted") payload = Some (JNum nt dt None) ->
  eaf_sendspin_parse_server_time (Some b) (zlen (render (JObj kvs))) (Some out)
    = Some (Some (ServerTime (int_value na da) (int_value nr dr) (int_value nt dt)), EAF_OK).
Proof. exact (server_time_eq b kvs payload out na da nr dr nt dt). Qed.

(** Keys and literals of a tree are computed, its data rewritten. *)
Ltac wf_text := repeat match goal with |- context [body_ok ?t] => change (body_ok t) with true end.
Ltac wf_tree := cbn [app wf_json str forallb fst snd]; rewrite ?num_wf, ?cjson_wf; wf_text; try reflexivity.

Lemma format_tree_wf f : wf_json (format_tree f) = true.
Proof. unfold format_tree. destruct f as [c rate ch depth]; destruct c; cbn [codec codec_name default]; destruct (decide _); by wf_tree. Qed.

Abbreviation member_ok := (fun kv : list Z * json => body_ok kv.1 && wf_json kv.2).

Lemma opt_member_wf k s : body_ok (key_of k) = true -> forallb member_ok (opt_member k s) = true.
Proof. intros Hk. destruct s as [s|]; [| done]. cbn [opt_member forallb fst snd]. by rewrite Hk, cjson_wf. Qed.

Lemma device_members_wf h : forallb member_ok (device_members h) = true.
Proof.
  unfold device_members. destruct (_ ++ _ ++ _) as [|m ms] eqn:E; [done |]. cbn [forallb fst snd]. wf_text.
  rewrite andb_true_r. cbn [andb]. change (forallb member_ok (m :: ms) = true). rewrite <- E.
  by rewrite !forallb_app, !opt_member_wf.
Qed.

Lemma formats_wf fs : forallb wf_json (format_tree <$> fs) = true.
Proof. induction fs as [|f fs IH]; [done |]. cbn [fmap list_fmap forallb]. rewrite format_tree_wf. exact IH. Qed.

Lemma client_hello_wf h id name : wf_json (client_hello_tree h id name) = true.
Proof.
  unfold client_hello_tree. cbn [wf_json forallb fst snd]. rewrite forallb_app, forallb_app, device_members_wf. wf_tree.
  rewrite formats_wf. destruct (support_volume h), (support_mute h); by wf_tree.
Qed.

Lemma client_state_wf s : wf_json (client_state_tree s) = true.
Proof. unfold client_state_tree. by wf_tree. Qed.

Lemma client_time_wf t : wf_json (client_time_tree t) = true.
Proof. unfold client_time_tree. by wf_tree. Qed.

(** The hello message is a well-formed JSON document carrying the client's
    identity, its device (only the strings given), the formats it can name (the
    fallback when there is none), its buffer and its commands, every string
    escaped; a buffer too small for it is refused, the written count untouched,
    and nothing beyond the capacity is ever stored. *)
Theorem client_hello_json (d : list Z) (cap : Z) (h : eaf_sendspin_client_hello_t) (id name : list Z) (n : Z) :
  1 <= cap <= zlen d -> client_id h = Some id -> client_name h = Some name -> terminated id -> terminated name -> hello_ok h ->
  wf_json (client_hello_tree h id name) = true /\
  built d cap n (render (client_hello_tree h id name)) (eaf_sendspin_build_client_hello (Some d) cap (Some h) (Some n)).
Proof. intros. split; [apply client_hello_wf | by apply client_hello_built]. Qed.

(** The state message is a well-formed JSON document with the five values of the
    player's state, on every input in range, in the space given or refused. *)
Theorem client_state_json (d : list Z) (cap : Z) (s : eaf_sendspin_player_state_t) (n : Z) :
  1 <= cap <= zlen d -> is_s32 (state_volume s) -> is_s32 (state_delay_ms s) -> is_s32 (state_lead_ms s) -> is_s32 (state_buffer_ms s) ->
  wf_json (client_state_tree s) = true /\
  built d cap n (render (client_state_tree s)) (eaf_sendspin_build_client_state (Some d) cap (Some s) (Some n)).
Proof. intros. split; [apply client_state_wf | by apply client_state_built]. Qed.

Definition time_path : list Z := chars "payload.client_transmitted" ++ [0].

(** The time message round trip: what the client sends in it, any [int64_t], its
    reader finds again under [payload.client_transmitted]. *)
Theorem client_time_roundtrip (d : list Z) (cap t n : Z) (out : eaf_sendspin_json_value_t) :
  cap <= zlen d -> is_s64 t -> zlen (render (client_time_tree t)) <= cap ->
  exists d' n' o, eaf_sendspin_build_client_time (Some d) cap t (Some n) = Some (Some d', Some n', EAF_OK) /\
    eaf_sendspin_json_get (Some d') n' (Some time_path) (Some out) = Some (Some o, EAF_OK) /\
    type o = EAF_SENDPIN_JSON_NUMBER /\ number o = t.
Proof.
  intros Hc Ht Hfit. pose proof (zlen_nonneg (render (client_time_tree t))) as H0.
  assert (Hpos : 1 <= zlen (render (client_time_tree t))).
  { unfold client_time_tree. rewrite render_obj, !zlen_app. change (zlen [c_lbrace]) with 1. pose proof (zlen_nonneg [c_rbrace]).
    pose proof (zlen_nonneg (sep_by (map member_text [(key_of "payload", JObj [(key_of "client_transmitted", num t)]); (key_of "type", str "client/time")]))). lia. }
  destruct (client_time_built d cap t n) as (d' & n' & rc & -> & Hz & _ & Hb); [lia | done |].
  rewrite decide_True in Hb by done. destruct Hb as (-> & -> & ->).
  destruct (json_get_spec (client_time_tree t) [key_of "payload"; key_of "client_transmitted"]
    (splice d 0 (render (client_time_tree t))) time_path out) as (o & rc & Hrun & Hr).
  - apply client_time_wf.
  - done.
  - by_decision.
  - split; [by_decision | by exists []].
  - rewrite (slice_splice d _ 0 0) by lia. by rewrite slice_full.
  - change (json_path _ (client_time_tree t)) with (@inl json Z (num t)) in Hr. cbn [readable num] in Hr.
    destruct Hr as (-> & q & -> & _). eexists _, _, _. split; [done |]. split; [exact Hrun |]. split; [done |].
    cbn [value_of num number]. by apply num_value.
Qed.

(** ** Witnesses *)

Lemma client_hello_json_witness :
  let h := ClientHello (Some [97; 0]) (Some [34; 0]) None None None (Some [Format EAF_SENDPIN_CODEC_FLAC 48000 2 16]) 1 48000 2 16 4096 true false in
  built (replicate 400 0) 400 0 (render (client_hello_tree h [97; 0] [34; 0]))
    (eaf_sendspin_build_client_hello (Some (replicate 400 0)) 400 (Some h) (Some 0)).
Proof.
  intros h. apply (client_hello_json (replicate 400 0) 400 h [97; 0] [34; 0] 0); try done.
  - by_decision.
  - by_decision.
  - repeat split; repeat constructor; done.
Defined.

Lemma client_state_json_witness :
  built (replicate 200 0) 200 7 (render (client_state_tree (PlayerState 80 true (-5) 100 200)))
    (eaf_sendspin_build_client_state (Some (replicate 200 0)) 200 (Some (PlayerState 80 true (-5) 100 200)) (Some 7)).
Proof. apply (client_state_json (replicate 200 0) 200 (PlayerState 80 true (-5) 100 200) 7); done. Defined.

Lemma client_time_roundtrip_witness :
  exists d' n' o, eaf_sendspin_build_client_time (Some (replicate 100 0)) 100 INT64_MIN (Some 0) = Some (Some d', Some n', EAF_OK) /\
    eaf_sendspin_json_get (Some d') n' (Some time_path) (Some json_zero) = Some (Some o, EAF_OK) /\
    type o = EAF_SENDPIN_JSON_NUMBER /\ number o = INT64_MIN.
Proof. apply client_time_roundtrip; by_decision. Defined.

Definition time_message : list (list Z * json) :=
  [(key_of "type", str "server/time");
   (key_of "payload", JObj [(key_of "client_transmitted", JNum false [53] None); (key_of "server_received", JNum true [49; 48] None);
                            (key_of "server_transmitted", JNum false [55] None)])].

Lemma server_time_parsed_witness :
  eaf_sendspin_parse_server_time (Some (render (JObj time_message))) (zlen (render (JObj time_message))) (Some (ServerTime 0 0 0))
    = Some (Some (ServerTime 5 (-10) 7), EAF_OK).
Proof.
  assert (Hm : message (render (JObj time_message)) (JObj time_message)) by (split; by vm_compute).
  exact (server_time_parsed _ _ _ (ServerTime 0 0 0) _ _ _ _ _ _ Hm eq_refl eq_refl eq_refl eq_refl).
Defined.

Definition stream_message : list (list Z * json) :=
  [(key_of "payload", JObj [(key_of "player", JObj [(key_of "codec", str "flac"); (key_of "sample_rate", JNum false (chars "48000") None);
      (key_of "channels", JNum false [50] None); (key_of "bit_depth", JNum false (chars "16") None); (key_of "codec_header", str "ZkxhQw")])])].

