(* ===== verification/MessageSafe.v ===== *)
(** The readers of the server's messages on any input: whatever bytes arrive, every
    reader returns, the numbers it stores fit their fields, and the texts it returns
    lie inside the message. *)

From stdpp Require Import strings.
From S2P Require Import Prelude Types Bytes Text Json JsonFields Messages.

(** A text the message holds: a view of it, or no text. *)
Definition inside (n : Z) (at_ : ptr Z) (len : Z) : Prop :=
  match at_ with Some s => 0 <= s /\ 0 <= len /\ s + len <= n | None => len = 0 end.

(** A value the scanner left alone, or a view of the message. *)
Definition value_ok (n : Z) (v : eaf_sendspin_json_value_t) : Prop := v = json_zero \/ view 0 n v.

Local Arguments codec_from_value : simpl never.
Local Arguments command_from_value : simpl never.

Section safe.
Context (b : list Z) (n : Z) (Hn : 0 <= n <= zlen b).

Lemma get_value_safe path t :
  c_string t (chars path ++ [0]) -> t <> [] ->
  exists v rc, get_value b n path = Some (v, rc) /\
    (rc = EAF_INVALID \/ rc = EAF_UNSUPPORTED \/ rc = EAF_OK /\ view 0 n v).
Proof using Hn.
  intros Ht Hne. unfold get_value, with_ref, path_of, eaf_sendspin_json_get.
  destruct (ld_is_Some (chars path ++ [0]) 0) as [x Hx].
  { pose proof (zlen_nonneg (chars path)). pose proof (zlen_app (chars path) [0]) as E. change (zlen [0]) with 1 in E. lia. }
  rewrite Hx. cbn [mbind option_bind]. assert (x <> 0).
  { pose proof Ht as [Hz [rest Hr]]. destruct t as [|y t]; [done |]. rewrite Hr in Hx. injection Hx as <-.
    by apply List.Forall_cons_iff in Hz as [? _]. }
  rewrite decide_False by done.
  destruct (get_loop_safe b n (length (chars path ++ [0])) 0 (chars path ++ [0]) t json_zero) as (v & rc & -> & Hrc);
    [lia | lia | done | pose proof (c_string_len _ _ Ht); unfold zlen in *; lia |].
  cbn [mbind option_bind]. by exists v, rc.
Qed.

Lemma literal_path path : forallb (fun c => negb (c =? 0)) (chars path) = true -> c_string (chars path) (chars path ++ [0]).
Proof. intros H. split; [by apply chars_nonzero | by exists []]. Qed.

(** What a scan leaves in a field with a value. *)
Definition scanned (rc : Z) (f g : json_field_t) : Prop :=
  needle f = None -> exists v, value g = Some v /\ (rc = EAF_OK -> value_ok n v).

Lemma scan_object_safe v fields :
  view 0 n v -> Forall (fun f => needle f = None -> value f <> None) fields ->
  exists fs rc, scan_object b v fields = Some (fs, rc) /\ (rc = EAF_INVALID \/ rc = EAF_OK) /\ Forall2 (scanned rc) fields fs.
Proof using Hn.
  intros (_ & (s & Hraw & Hs & Hlen & Hend) & _) Hf. unfold scan_object. rewrite Hraw. cbn [mbind option_bind].
  destruct (scan_fields_safe b (s + raw_length v) ltac:(lia) s fields ltac:(lia) Hf) as (q & fs & rc & -> & Hq & Hrc & Hsame).
  cbn [mbind option_bind]. exists fs, rc. split; [done |]. split; [tauto |].
  assert (Hok : rc = EAF_OK -> Forall (field_ok (s + raw_length v) s) fs) by (destruct Hrc as [->|[_ ?]]; done).
  clear Hrc. revert fs Hsame Hok. induction fields as [|f fields IH]; intros fs Hsame Hok; inversion Hsame as [|? g ? gs Hfg Hrest]; subst; constructor.
  - intros Hnone. apply List.Forall_cons_iff in Hf as [Hf _]. specialize (Hf Hnone). destruct Hfg as (_ & _ & Hv).
    destruct (value g) as [w|] eqn:Eg.
    + exists w. split; [done |]. intros Hrc. specialize (Hok Hrc). apply List.Forall_cons_iff in Hok as [[_ Hok] _].
      destruct (Hok w Eg) as [?|Hw]; [by left |]. right. eapply view_weaken; [| | exact Hw]; lia.
    + exfalso. apply Hf. destruct Hv as [_ Hv]. specialize (Hv eq_refl). revert Hv. unfold reset_field. cbn. by destruct (value f).
  - apply List.Forall_cons_iff in Hf as [_ Hf]. apply IH; [done | done |]. intros Hrc. specialize (Hok Hrc).
    by apply List.Forall_cons_iff in Hok as [_ ?].
Qed.

Lemma string_equals_safe v text : value_ok n v -> exists r, eaf_sendspin_json_string_equals b (Some v) text = Some r.
Proof using Hn.
  intros Hv. unfold eaf_sendspin_json_string_equals. case_decide as Ht; [by eexists |]. case_decide as Hl; [by eexists |].
  destruct Hv as [->|(_ & _ & Hs)]; [discriminate Ht |].
  destruct Hs as (s & -> & Hs & Hl0 & Hend); [done |].
  cbn [mbind option_bind]. rewrite memeq_eq by lia. by eexists.
Qed.

Lemma value_number v : value_ok n v -> is_s64 (number v).
Proof. intros [->|[? _]]; [by split | done]. Qed.

Lemma string_view_inside found v : value_ok n v -> inside n (string_view found v).1 (string_view found v).2.
Proof.
  intros Hv. unfold string_view, is_string. destruct found; [| done]. cbn [andb]. case_bool_decide as Ht; [| done].
  destruct Hv as [->|(_ & _ & Hs)]; [done |]. destruct (Hs Ht) as (s & -> & ?). cbn. lia.
Qed.

Lemma object_view v rc (P : Prop) :
  (rc = EAF_INVALID \/ rc = EAF_UNSUPPORTED \/ rc = EAF_OK /\ P) -> bool_decide (rc <> 0) || negb (is_object v) = false -> P.
Proof. intros [->|[->|[_ HP]]] Hb; done. Qed.

(** Run a lookup of a literal key, and a scan of the object found. *)
Ltac look path Hv := let v := fresh "v" in let rc := fresh "rc" in let E := fresh "E" in
  destruct (get_value_safe path (chars path) ltac:(apply literal_path; reflexivity) ltac:(discriminate)) as (v & rc & E & Hv);
  rewrite E; clear E; cbn [mbind option_bind].
Ltac one_slot H := let f := fresh "f" in let fs := fresh "fs" in let Hf := fresh "Hf" in
  apply Forall2_cons_inv_l in H as (f & fs & Hf & H & ->);
  try (let v := fresh "v" in let Hv := fresh "Hv" in let Hok := fresh "Hok" in destruct (Hf eq_refl) as (v & Hv & Hok); clear Hf).
Ltac scan Hview := let fs := fresh "fs" in let rc := fresh "rc" in let E := fresh "E" in let H := fresh "H" in
  match goal with |- context [scan_object b ?v ?fields] =>
    destruct (scan_object_safe v fields Hview ltac:(repeat constructor; done)) as (fs & rc & E & ? & H);
    rewrite E; clear E; cbn [mbind option_bind]; repeat one_slot H; apply Forall2_nil_inv_l in H as -> end.

(** A reader returned; when it accepted, what it stored is [good]. *)
Definition reads {T} (good : T -> Prop) (r : ub (ptr T * Z)) : Prop :=
  exists o rc, r = Some (Some o, rc) /\ (rc = EAF_OK -> good o).

Lemma reads_refusal {T} (good : T -> Prop) o rc : rc <> EAF_OK -> reads good (Some (Some o, rc)).
Proof. intros. exists o, rc. done. Qed.
Lemma reads_ok {T} (good : T -> Prop) (o : T) rc : good o -> reads good (Some (Some o, rc)).
Proof. intros. by exists o, rc. Qed.

Definition hello_good (h : eaf_sendspin_server_hello_t) : Prop :=
  is_u32 (version h) /\ inside n (server_id h) (server_id_length h) /\ inside n (server_name h) (server_name_length h) /\
  inside n (connection_reason h) (connection_reason_length h).

Lemma hello_safe o : reads hello_good (eaf_sendspin_parse_server_hello (Some b) n (Some o)).
Proof using Hn.
  unfold eaf_sendspin_parse_server_hello. look "payload"%string Hv.
  destruct (bool_decide (rc <> 0) || _) eqn:Eo; [by apply reads_refusal |]. pose proof (object_view v rc _ Hv Eo) as Hview.
  scan Hview. cbn. destruct (bool_decide (rc0 <> 0) || _) eqn:E0; [by apply reads_refusal |].
  assert (Hrc0 : rc0 = EAF_OK) by (destruct H0 as [-> | ->]; done).
  unfold local. cbn. rewrite ?Hv0, ?Hv1, ?Hv2, ?Hv3. cbn.
  pose proof (string_view_inside (found f0) v0 (Hok Hrc0)). pose proof (string_view_inside (found f1) v1 (Hok0 Hrc0)).
  pose proof (string_view_inside (found f2) v2 (Hok1 Hrc0)).
  destruct (string_view (found f0) v0), (string_view (found f1) v1), (string_view (found f2) v2).
  apply reads_ok. split_and!; try done. cbn. destruct (found f3 && is_number v3); [apply u32_range | done].
Qed.

(** [!= EAF_OK] was refused, so the scan succeeded. *)
Lemma scan_ok rc (P : Prop) (x : bool) : (rc = EAF_INVALID \/ rc = EAF_OK) -> bool_decide (rc <> 0) || x = false -> rc = EAF_OK.
Proof. intros [-> | ->]; done. Qed.

Definition time_good (t : eaf_sendspin_server_time_t) : Prop :=
  is_s64 (client_transmitted t) /\ is_s64 (server_received t) /\ is_s64 (server_transmitted t).

Lemma time_safe o : reads time_good (eaf_sendspin_parse_server_time (Some b) n (Some o)).
Proof using Hn.
  unfold eaf_sendspin_parse_server_time. look "payload"%string Hv.
  destruct (bool_decide (rc <> 0) || _) eqn:Eo; [by apply reads_refusal |]. pose proof (object_view v rc _ Hv Eo) as Hview.
  scan Hview. destruct (decide (rc0 <> 0)); [by apply reads_refusal |]. assert (Hrc0 : rc0 = EAF_OK) by (unfold EAF_OK; lia).
  unfold local. cbn. rewrite Hv0, Hv1, Hv2. cbn. destruct (negb (is_number _) || _ || _); [by apply reads_refusal |].
  apply reads_ok. split_and!; apply value_number; auto.
Qed.

Definition start_good (s : eaf_sendspin_stream_start_t) : Prop :=
  is_s64 (start_transmitted s) /\ is_u32 (start_sample_rate s) /\ is_u8 (start_channels s) /\ is_u8 (start_bit_depth s) /\
  inside n (codec_header s) (codec_header_length s).

Lemma codec_safe v : value_ok n v -> exists c, codec_from_value b v = Some c.
Proof using Hn.
  intros Hv. unfold codec_from_value.
  repeat match goal with |- context [eaf_sendspin_json_string_equals b (Some v) ?t] =>
    let r := fresh "r" in destruct (string_equals_safe v t Hv) as [r ->]; cbn [mbind option_bind]; destruct r; [by eexists |] end.
  by eexists.
Qed.

Lemma player_safe player transmitted zero :
  view 0 n player -> value_ok n transmitted -> reads start_good (parse_stream_player b player transmitted zero).
Proof using Hn.
  intros Hview Ht. unfold parse_stream_player. scan Hview. cbn.
  destruct (bool_decide (rc <> 0) || _) eqn:E0; [by apply reads_refusal |]. pose proof (scan_ok rc True _ H0 E0) as Hrc.
  unfold local. cbn. rewrite Hv, Hv0, Hv1, Hv2, Hv3. cbn. destruct (codec_safe v (Hok Hrc)) as [c ->]. cbn.
  destruct (negb (is_number _) || _ || _); [by apply reads_refusal |]. pose proof (string_view_inside true v3 (Hok3 Hrc)) as Hi.
  destruct (string_view true v3). apply reads_ok. split_and!; try apply u32_range; try apply u8_range; [| exact Hi].
  cbn. destruct (is_number transmitted); [by apply value_number | done].
Qed.

Lemma stream_start_safe o : reads start_good (eaf_sendspin_parse_stream_start (Some b) n (Some o)).
Proof using Hn.
  unfold eaf_sendspin_parse_stream_start. look "payload"%string Hv.
  destruct (bool_decide (rc <> 0) || _) eqn:Eo; [by apply reads_refusal |]. pose proof (object_view v rc _ Hv Eo) as Hview.
  scan Hview. unfold local. cbn. rewrite Hv0, Hv1. cbn. destruct (bool_decide (rc0 <> 0) || _ || _) eqn:E0; [by apply reads_refusal |].
  rewrite <- orb_assoc in E0. pose proof (scan_ok rc0 True _ H0 E0) as Hrc0. apply player_safe; [| by apply Hok0].
  destruct (Hok Hrc0) as [->|?]; [| done]. destruct H0 as [-> | ->]; [done |]. by destruct (found f).
Qed.

Lemma stream_end_safe o : reads (fun e => is_s64 (end_transmitted e)) (eaf_sendspin_parse_stream_end (Some b) n (Some o)).
Proof using Hn.
  unfold eaf_sendspin_parse_stream_end. look "payload"%string Hv. destruct (decide (rc = EAF_UNSUPPORTED)); [by apply reads_ok |].
  destruct (bool_decide (rc <> 0) || _) eqn:Eo; [by apply reads_refusal |]. pose proof (object_view v rc _ Hv Eo) as Hview.
  scan Hview. destruct (decide (rc0 <> 0)); [by apply reads_refusal |]. assert (Hrc0 : rc0 = EAF_OK) by (unfold EAF_OK; lia).
  unfold local. cbn. rewrite Hv0. cbn. apply reads_ok. cbn. destruct (is_number v0); [apply value_number; auto | done].
Qed.

Definition group_good (g : eaf_sendspin_group_update_t) : Prop :=
  inside n (playback_state g) (playback_state_length g) /\ inside n (group_id g) (group_id_length g).

Lemma group_safe o : reads group_good (eaf_sendspin_parse_group_update (Some b) n (Some o)).
Proof using Hn.
  unfold eaf_sendspin_parse_group_update. look "payload"%string Hv.
  destruct (bool_decide (rc <> 0) || _) eqn:Eo; [by apply reads_ok |]. pose proof (object_view v rc _ Hv Eo) as Hview.
  scan Hview. destruct (decide (rc0 <> 0)); [by apply reads_ok |]. assert (Hrc0 : rc0 = EAF_OK) by (unfold EAF_OK; lia).
  unfold local. cbn. rewrite Hv0, Hv1. cbn.
  pose proof (string_view_inside true v0 (Hok Hrc0)). pose proof (string_view_inside true v1 (Hok0 Hrc0)).
  destruct (string_view true v0), (string_view true v1). by apply reads_ok.
Qed.

Definition command_good (c : eaf_sendspin_server_command_t) : Prop := is_s32 (command_volume c) /\ is_s32 (command_delay_ms c).

Lemma command_name_safe v : value_ok n v -> exists c, command_from_value b v = Some c.
Proof using Hn.
  intros Hv. unfold command_from_value.
  repeat match goal with |- context [eaf_sendspin_json_string_equals b (Some v) ?t] =>
    let r := fresh "r" in destruct (string_equals_safe v t Hv) as [r ->]; cbn [mbind option_bind]; destruct r; [by eexists |] end.
  by eexists.
Qed.

Lemma command_safe o : reads command_good (eaf_sendspin_parse_server_command (Some b) n (Some o)).
Proof using Hn.
  unfold eaf_sendspin_parse_server_command. look "payload"%string Hv.
  destruct (bool_decide (rc <> 0) || _) eqn:Eo; [by apply reads_refusal |]. pose proof (object_view v rc _ Hv Eo) as Hview.
  scan Hview. unfold local. cbn. rewrite Hv0. cbn. destruct (bool_decide (rc0 <> 0) || _ || _) eqn:E0; [by apply reads_refusal |].
  rewrite <- orb_assoc in E0. pose proof (scan_ok rc0 True _ H0 E0) as Hrc0.
  assert (Hplayer : view 0 n v0).
  { destruct (Hok Hrc0) as [->|?]; [| done]. destruct H0 as [-> | ->]; [done |]. by destruct (found f). }
  scan Hplayer. cbn. destruct (bool_decide (rc1 <> 0) || _) eqn:E1; [by apply reads_refusal |]. pose proof (scan_ok rc1 True _ H1 E1) as Hrc1.
  rewrite ?Hv1, ?Hv2, ?Hv3, ?Hv4. cbn. destruct (command_name_safe v1 (Hok0 Hrc1)) as [c ->]. cbn. apply reads_ok.
  split; cbn; [destruct (is_number v2) | destruct (is_number v4)]; first [apply s32_range | done].
Qed.
End safe.

(** ** Properties *)

(** C18: Whatever bytes a server sends as a message, every reader of a message type
    returns (no access leaves the message, and the recursion ends), what it accepts
    fits its fields, and every text it returns lies inside the message. *)
Theorem server_messages_safe (b : list Z) (n : Z) hello time start end_ group command :
  0 <= n <= zlen b ->
  reads (hello_good n) (eaf_sendspin_parse_server_hello (Some b) n (Some hello)) /\
  reads time_good (eaf_sendspin_parse_server_time (Some b) n (Some time)) /\
  reads (start_good n) (eaf_sendspin_parse_stream_start (Some b) n (Some start)) /\
  reads (fun e => is_s64 (end_transmitted e)) (eaf_sendspin_parse_stream_end (Some b) n (Some end_)) /\
  reads (group_good n) (eaf_sendspin_parse_group_update (Some b) n (Some group)) /\
  reads command_good (eaf_sendspin_parse_server_command (Some b) n (Some command)).
Proof.
  intros Hn. split_and!; [by apply hello_safe | by apply time_safe | by apply stream_start_safe | by apply stream_end_safe |
    by apply group_safe | by apply command_safe].
Qed.

Lemma server_messages_safe_witness :
  let b := chars "{'payload':{'player':[[" in
  reads (start_good 23) (eaf_sendspin_parse_stream_start (Some b) 23 (Some (StreamStart 0 EAF_SENDPIN_CODEC_UNKNOWN 0 0 0 None 0))).
Proof.
  destruct (server_messages_safe (chars "{'payload':{'player':[[") 23 (ServerHello 0 false None 0 None 0 None 0) (ServerTime 0 0 0)
    (StreamStart 0 EAF_SENDPIN_CODEC_UNKNOWN 0 0 0 None 0) (StreamEnd 0 false) (GroupUpdate None 0 None 0)
    (ServerCommand EAF_SENDPIN_COMMAND_UNKNOWN 0 false 0)) as (_ & _ & H & _); [split; vm_compute; discriminate | exact H].
Defined.
