(* ===== verification/Wav.v ===== *)
(** The WAVE source: apps/decoders/dec_wav.c with include/eaf/eaf_wav.h and
    include/eaf/eaf_source.h.  The reader that fetches the file's bytes is a
    parameter; the samples are read on a little-endian machine, as the cast of
    the 16-bit path assumes. *)

From stdpp Require Import strings.
From S2P Require Import Prelude Types Text Bytes Pcm.

(** ** Data *)

(** [read_at(ctx, offset, dst, bytes)]: the new contents of the [bytes] bytes at
    [dst], and the result. *)
Record eaf_reader_t (R : Type) := Reader {
  read_at : option (R -> Z -> list Z -> R * list Z * Z);
  reader_ctx : R;
  reader_size : Z
}.
#[global] Arguments Reader {R}.
#[global] Arguments read_at {R}.
#[global] Arguments reader_ctx {R}.
#[global] Arguments reader_size {R}.

Definition EAF_WAV_BLOCK_FRAMES : Z := 256.

Record eaf_wav_t (R : Type) := Wav {
  reader : eaf_reader_t R; data_offset : Z; position : Z; total_frames : Z;
  format : eaf_format_t; bits : Z; block_align : Z;
  scratch : list Z                       (* EAF_WAV_BLOCK_FRAMES * 2 * 4 bytes *)
}.
#[global] Arguments Wav {R}.
#[global] Arguments reader {R}.
#[global] Arguments data_offset {R}.
#[global] Arguments position {R}.
#[global] Arguments total_frames {R}.
#[global] Arguments format {R}.
#[global] Arguments bits {R}.
#[global] Arguments block_align {R}.
#[global] Arguments scratch {R}.

(** What [eaf_wav_open] stores in the source: its format and length; the
    operations and the context are the decoder's own. *)
Record eaf_source_t := Source { source_format : eaf_format_t; source_frames : Z }.

(** ** Operations *)

Definition le16 (p : list Z) (i : Z) : ub Z :=
  a ← ld p i; b ← ld p (i + 1); Some (u16 (Z.lor (u16 a) (u16 (Z.shiftl b 8)))).

Definition le32 (p : list Z) (i : Z) : ub Z :=
  a ← ld p i; b ← ld p (i + 1); c ← ld p (i + 2); d ← ld p (i + 3);
  Some (Z.lor (Z.lor (Z.lor a (Z.shiftl b 8)) (Z.shiftl c 16)) (u32 (Z.shiftl d 24))).

Section operations.
Context {R : Type}.
Implicit Types (w : eaf_wav_t R) (rd : eaf_reader_t R).

Definition set_ctx (x : R) (rd : eaf_reader_t R) : eaf_reader_t R := Reader (read_at rd) x (reader_size rd).
Definition set_scratch (rd : eaf_reader_t R) (s : list Z) (w : eaf_wav_t R) : eaf_wav_t R :=
  Wav rd (data_offset w) (position w) (total_frames w) (format w) (bits w) (block_align w) s.
Definition set_position (p : Z) (w : eaf_wav_t R) : eaf_wav_t R :=
  Wav (reader w) (data_offset w) p (total_frames w) (format w) (bits w) (block_align w) (scratch w).

(** A call of the reader for the [n] bytes at [off] of [dst]. *)
Definition call_read (rd : eaf_reader_t R) (offset : Z) (dst : list Z) (off n : Z) : ub (eaf_reader_t R * list Z * Z) :=
  f ← read_at rd;
  old ← ldn dst off n;
  let '(x, new, rc) := f (reader_ctx rd) offset old in
  dst ← stn dst off new;
  Some (set_ctx x rd, dst, rc).

(** The 16-bit view of the scratch bytes. *)
Definition as_int16 (bytes : list Z) (n : Z) : ub (list Z) :=
  for_to n (fun i acc => a ← ld bytes (i * 2); b ← ld bytes (i * 2 + 1); Some (acc ++ [s16 (a + 256 * b)])) [].

(** Lines 31-34 *)
Definition raw_sample (bytes : list Z) (p width : Z) : ub Z :=
  for_to width (fun b raw => x ← ld bytes (p + b); Some (Z.lor raw (u32 (Z.shiftl x (b * 8))))) 0.

(** Lines 30-42 *)
Definition wide_sample (bytes : list Z) (bits width : Z) (i : Z) (samples : list Z) : ub (list Z) :=
  raw ← raw_sample bytes (i * width) width;
  if decide (bits = 24)
  then let raw := if decide (Z.land raw 8388608 <> 0) then Z.lor raw 4278190080 else raw in
       st samples i (eaf_pcm24_to_q31 (s32 raw))
  else st samples i (eaf_pcm32_to_q31 (s32 raw)).

Definition take_of (w : eaf_wav_t R) (capacity : Z) : Z :=
  let left := u64 (total_frames w - position w) in
  let take := if decide (capacity < EAF_WAV_BLOCK_FRAMES) then capacity else EAF_WAV_BLOCK_FRAMES in
  if decide (left < take) then u32 left else take.

(** [source->ctx] is the decoder. *)
Definition read_frames (source : ptr (eaf_wav_t R)) (samples : ptr (list Z)) (capacity : Z) (frames : ptr Z)
  : ub (ptr (eaf_wav_t R) * ptr (list Z) * ptr Z * Z) :=
  match source, samples, frames with
  | Some w, Some smp, Some _ =>
      if decide (capacity = 0) then Some (source, samples, frames, EAF_INVALID)
      else
        let take := take_of w capacity in
        if decide (take = 0) then Some (source, samples, Some 0, EAF_OK)
        else
          '(rd, s, rc) ← call_read (reader w) (u64 (data_offset w + u64 (position w * block_align w)))
                           (scratch w) 0 (take * block_align w);
          let w := set_scratch rd s w in
          if decide (rc <> 0) then Some (Some w, samples, Some 0, rc)
          else
            let ch := num_channels (format w) in
            let width := bits w / 8 in
            smp ← (if decide (bits w = 16)
                   then src ← as_int16 s (take * ch); eaf_s16_to_q31_interleaved src take ch smp ch
                   else for_to (take * ch) (wide_sample s (bits w) width) smp);
            Some (Some (set_position (u64 (position w + take)) w), Some smp, Some take, EAF_OK)
  | _, _, _ => Some (source, samples, frames, EAF_INVALID)
  end.

Definition seek_frame (source : ptr (eaf_wav_t R)) (frame : Z) : ptr (eaf_wav_t R) * Z :=
  match source with
  | Some w => if decide (total_frames w < frame) then (source, EAF_INVALID) else (Some (set_position frame w), EAF_OK)
  | None => (source, EAF_INVALID)
  end.

(** ** Opening *)

(** The locals of the chunk loop. *)
Record wav_scan := Scan {
  sc_reader : eaf_reader_t R; header : list Z; offset : Z; fmt : eaf_format_t; sbits : Z; align : Z;
  sdata_offset : Z; data_size : Z; have_fmt : bool; have_data : bool
}.

Definition set_read (rd : eaf_reader_t R) (h : list Z) (s : wav_scan) : wav_scan :=
  Scan rd h (offset s) (fmt s) (sbits s) (align s) (sdata_offset s) (data_size s) (have_fmt s) (have_data s).
Definition set_offset (o : Z) (s : wav_scan) : wav_scan :=
  Scan (sc_reader s) (header s) o (fmt s) (sbits s) (align s) (sdata_offset s) (data_size s) (have_fmt s) (have_data s).
Definition set_fmt (f : eaf_format_t) (b a : Z) (have : bool) (s : wav_scan) : wav_scan :=
  Scan (sc_reader s) (header s) (offset s) f b a (sdata_offset s) (data_size s) have (have_data s).
Definition set_data (o n : Z) (s : wav_scan) : wav_scan :=
  Scan (sc_reader s) (header s) (offset s) (fmt s) (sbits s) (align s) o n (have_fmt s) true.

(** Lines 84-105; [Some rc] leaves the function. *)
Definition fmt_chunk (size : Z) (s : wav_scan) : ub (wav_scan * option Z) :=
  if have_fmt s || bool_decide (size < 16) then Some (s, Some EAF_INVALID)
  else
    '(rd, h, rc) ← call_read (sc_reader s) (offset s) (header s) 0 16;
    let s := set_read rd h s in
    if decide (rc <> 0) then Some (s, Some rc)
    else
      tag ← le16 h 0;
      if decide (tag <> 1) then Some (s, Some EAF_UNSUPPORTED)
      else
        channels ← le16 h 2;
        if decide (channels <> 1 /\ channels <> 2) then Some (s, Some EAF_UNSUPPORTED)
        else
          b ← le16 h 14; a ← le16 h 12;
          if decide (b <> 16 /\ b <> 24 /\ b <> 32) then Some (set_fmt (fmt s) b a (have_fmt s) s, Some EAF_UNSUPPORTED)
          else
            rate ← le32 h 4; byte_rate ← le32 h 8;
            let f := Format rate (u8 channels) (if decide (channels = 1) then EAF_CH_FRONT_CENTER else 3) in
            if negb (eaf_format_valid (Some f)) || bool_decide (a <> channels * (b / 8))
               || bool_decide (u64 (sample_rate f * a) <> byte_rate)
            then Some (set_fmt f b a (have_fmt s) s, Some EAF_INVALID)
            else Some (set_fmt f b a true s, None).

Definition data_chunk (size : Z) (s : wav_scan) : wav_scan * option Z :=
  if have_data s then (s, Some EAF_INVALID) else (set_data (offset s) size s, None).

(** Lines 72-113: one chunk. *)
Definition chunk_round (end_ : Z) (s : wav_scan) : ub (wav_scan * option Z) :=
  if decide (u64 (end_ - offset s) < 8) then Some (s, Some EAF_INVALID)
  else
    '(rd, h, rc) ← call_read (sc_reader s) (offset s) (header s) 0 8;
    let s := set_read rd h s in
    if decide (rc <> 0) then Some (s, Some rc)
    else
      size ← le32 h 4;
      let padded := size + Z.land size 1 in
      let s := set_offset (u64 (offset s + 8)) s in
      if decide (u64 (end_ - offset s) < padded) then Some (s, Some EAF_INVALID)
      else
        is_fmt ← memeq h 0 (chars "fmt ");
        is_data ← memeq h 0 (chars "data");
        '(s, ret) ← (if is_fmt : bool then fmt_chunk size s
                     else Some (if is_data : bool then data_chunk size s else (s, None)));
        match ret with
        | Some rc => Some (s, Some rc)
        | None => Some (set_offset (u64 (offset s + padded)) s, None)
        end.

Fixpoint chunk_loop (fuel : nat) (end_ : Z) (s : wav_scan) : ub (wav_scan * option Z) :=
  if decide (offset s < end_) then
    match fuel with
    | O => None
    | S fuel =>
        '(s, ret) ← chunk_round end_ s;
        match ret with Some rc => Some (s, Some rc) | None => chunk_loop fuel end_ s end
    end
  else Some (s, None).

Definition scan_zero (rd : eaf_reader_t R) (h : list Z) : wav_scan := Scan rd h 12 (Format 0 0 0) 0 0 0 0 false false.

(** Lines 117-125 *)
Definition open_finish (w : eaf_wav_t R) (source : eaf_source_t) (s : wav_scan)
  : ub (eaf_wav_t R * eaf_source_t * eaf_reader_t R * Z) :=
  if negb (have_fmt s) || negb (have_data s) then Some (w, source, sc_reader s, EAF_INVALID)
  else if decide (align s = 0) then None
  else if decide (data_size s mod align s <> 0) then Some (w, source, sc_reader s, EAF_INVALID)
  else
    let w := Wav (sc_reader s) (sdata_offset s) 0 (data_size s / align s) (fmt s) (sbits s) (align s)
               (replicate (Z.to_nat (EAF_WAV_BLOCK_FRAMES * 2 * 4)) 0) in
    Some (w, Source (fmt s) (total_frames w), sc_reader s, EAF_OK).

(** Lines 63-125, past the argument checks. *)
Definition open_body (w : eaf_wav_t R) (source : eaf_source_t) (rd : eaf_reader_t R)
  : ub (eaf_wav_t R * eaf_source_t * eaf_reader_t R * Z) :=
  '(rd, h, rc) ← call_read rd 0 (replicate 16 0) 0 12;
  if decide (rc <> 0) then Some (w, source, rd, rc)
  else
    riff ← memeq h 0 (chars "RIFF"); wave ← memeq h 8 (chars "WAVE");
    if negb riff || negb wave then Some (w, source, rd, EAF_UNSUPPORTED)
    else
      size ← le32 h 4;
      let end_ := size + 8 in
      if decide (end_ < 12 \/ reader_size rd < end_) then Some (w, source, rd, EAF_INVALID)
      else
        '(s, ret) ← chunk_loop (Z.to_nat end_) end_ (scan_zero rd h);
        match ret with
        | Some rc => Some (w, source, sc_reader s, rc)
        | None => open_finish w source s
        end.

Definition eaf_wav_open (w : ptr (eaf_wav_t R)) (source : ptr eaf_source_t) (rd : ptr (eaf_reader_t R))
  : ub (ptr (eaf_wav_t R) * ptr eaf_source_t * ptr (eaf_reader_t R) * Z) :=
  match w, source, rd with
  | Some w', Some src, Some r =>
      if bool_decide (read_at r = None) || bool_decide (reader_size r < 12) then Some (w, source, rd, EAF_INVALID)
      else '(w', src, r, rc) ← open_body w' src r; Some (Some w', Some src, Some r, rc)
  | _, _, _ => Some (w, source, rd, EAF_INVALID)
  end.

End operations.
#[global] Arguments wav_scan : clear implicits.

(** ** Reading samples *)

(** The [n] samples of [width] bytes each at the start of [data], in Q1.31. *)
Definition wav_samples (width n : Z) (data : list Z) : list Z :=
  (fun i => sample_value (slice data (i * width) width)) <$> seqZ 0 n.

Lemma raw_sample_eq bytes p width :
  0 <= p -> 0 <= width <= 4 -> p + width <= zlen bytes -> bytes_wf (slice bytes p width) ->
  raw_sample bytes p width = Some (le_value (slice bytes p width)).
Proof.
  intros Hp Hw Hl Hb. rewrite <- sample_loop by done. unfold raw_sample. apply for_to_ext.
  intros j t Hj. unfold sample_body. by rewrite (Z.mul_comm 8).
Qed.

(** Signed meaning of 2, 3 and 4 bytes, as the code computes it. *)
Lemma sample16 bs : zlen bs = 2 -> bytes_wf bs -> eaf_pcm16_to_q31 (s16 (le_value bs)) = sample_value bs.
Proof.
  intros Hz Hb. pose proof (le_value_range bs Hb) as Hr. unfold sample_value. rewrite Hz in *.
  set (v := le_value bs) in *. clearbody v. cbn [Z.mul Pos.mul] in *. unfold eaf_pcm16_to_q31.
  simpl in *. case_decide; word.
Qed.

Lemma sample24 bs : zlen bs = 3 -> bytes_wf bs ->
  eaf_pcm24_to_q31 (s32 (if decide (Z.land (le_value bs) 8388608 <> 0) then Z.lor (le_value bs) 4278190080 else le_value bs)) = sample_value bs.
Proof.
  intros Hz Hb. pose proof (le_value_range bs Hb) as Hr. unfold sample_value. rewrite Hz in *.
  set (v := le_value bs) in *. clearbody v. cbn [Z.mul Pos.mul] in *. simpl in Hr. destruct (decide (8388608 <= v)).
  - rewrite decide_True by (apply bit23; lia). rewrite sign_extend24 by lia.
    replace (s32 (v + 4278190080)) with (v - 16777216) by word. unfold eaf_pcm24_to_q31. decide_lia. simpl. lia.
  - rewrite decide_False by (rewrite bit23; lia). replace (s32 v) with v by word.
    unfold eaf_pcm24_to_q31. decide_lia. simpl. lia.
Qed.

Lemma sample32 bs : zlen bs = 4 -> bytes_wf bs -> eaf_pcm32_to_q31 (s32 (le_value bs)) = sample_value bs.
Proof.
  intros Hz Hb. pose proof (le_value_range bs Hb) as Hr. unfold sample_value. rewrite Hz in *.
  set (v := le_value bs) in *. clearbody v. cbn [Z.mul Pos.mul] in *. unfold eaf_pcm32_to_q31. simpl in *. case_decide; word.
Qed.

(** The [i]-th sample's bytes. *)
Lemma sample_bytes_at bytes width n i :
  bytes_wf (slice bytes 0 (n * width)) -> 0 <= width -> 0 <= i < n -> n * width <= zlen bytes ->
  0 <= i * width /\ i * width + width <= zlen bytes /\ bytes_wf (slice bytes (i * width) width) /\
  zlen (slice bytes (i * width) width) = width.
Proof. intros Hb Hw Hi Hl. assert (Hf : 0 <= i * width /\ i * width + width <= zlen bytes) by nia.
  destruct Hf. split; [done |]. split; [done |]. split; [| rewrite zlen_slice; lia].
  rewrite <- (slice_slice bytes (n * width)) by nia. by apply slice_forall.
Qed.

Lemma wide_loop bytes b width n smp :
  (b = 24 /\ width = 3 \/ b = 32 /\ width = 4) -> bytes_wf (slice bytes 0 (n * width)) -> 0 <= n <= zlen smp -> n * width <= zlen bytes ->
  for_to n (wide_sample bytes b width) smp = Some (splice smp 0 (wav_samples width n bytes)).
Proof.
  intros Hw Hb Hn Hl.
  destruct (for_st (fun i => sample_value (slice bytes (i * width) width)) smp 0 n) as (p' & Hrun & _ & ->); [lia | lia | lia |].
  unfold wav_samples. rewrite <- Hrun. apply for_to_ext. intros j t Hj. unfold wide_sample. rewrite Z.add_0_l.
  destruct (sample_bytes_at bytes width n j Hb ltac:(lia) Hj Hl) as (H1 & H2 & H3 & H4).
  rewrite raw_sample_eq by (done || lia). cbn [mbind option_bind].
  destruct Hw as [[-> ->]|[-> ->]].
  - rewrite decide_True by done. by rewrite sample24.
  - rewrite decide_False by done. by rewrite sample32.
Qed.

Lemma as_int16_eq bytes n : 0 <= n -> n * 2 <= zlen bytes ->
  as_int16 bytes n = Some ((fun i => s16 (le_value (slice bytes (i * 2) 2))) <$> seqZ 0 n).
Proof.
  intros Hn Hl. unfold as_int16.
  match goal with |- for_to _ ?f _ = _ =>
    destruct (for_to_inv (fun i acc => acc = (fun i => s16 (le_value (slice bytes (i * 2) 2))) <$> seqZ 0 i) f n []) as (acc & -> & ->)
  end; [done | done | | done].
  intros j t Hj ->. destruct (ld_is_Some bytes (j * 2)) as [x Hx]; [lia |].
  destruct (ld_is_Some bytes (j * 2 + 1)) as [y Hy]; [lia |]. rewrite Hx, Hy. cbn [mbind option_bind].
  eexists. split; [done |]. rewrite seqZ_snoc, fmap_app by lia. do 3 f_equal. cbn [fmap list_fmap].
  rewrite (slice_cons _ _ _ x), (slice_cons _ _ _ y) by (done || lia). rewrite slice_nil_n. unfold le_value. cbn [foldr]. do 2 f_equal. lia.
Qed.

Lemma narrow_loop bytes take ch smp :
  (ch = 1 \/ ch = 2) -> bytes_wf (slice bytes 0 (take * ch * 2)) -> 0 <= take -> take * ch <= zlen smp -> take * ch * 2 <= zlen bytes ->
  (src ← as_int16 bytes (take * ch); eaf_s16_to_q31_interleaved src take ch smp ch)
    = Some (splice smp 0 (wav_samples 2 (take * ch) bytes)).
Proof.
  intros Hch Hb Ht Hs Hl. rewrite as_int16_eq by nia. cbn [mbind option_bind]. set (src := _ <$> _).
  assert (Hz : zlen src = take * ch) by (unfold src; rewrite zlen_fmap, zlen_seqZ; nia).
  destruct (interleave_spec eaf_pcm16_to_q31 src take ch smp ch) as (dst & Hrun & Hzd & Hlo & Hhi); [done | done | done | lia | done |].
  unfold eaf_s16_to_q31_interleaved. rewrite Hrun. f_equal. apply splice_of_loop; [nia | done | | done].
  intros k Hk. rewrite Hlo by done. unfold interleaved_at.
  replace (k / ch * ch + (if decide (ch = 2) then k mod ch else 0)) with k by (destruct Hch as [-> | ->]; decide_lia; word).
  unfold src. rewrite ld_lookup, list_lookup_fmap, lookup_seqZ_lt by lia. simpl. rewrite Z2Nat.id by lia.
  destruct (sample_bytes_at bytes 2 (take * ch) k Hb ltac:(lia) Hk ltac:(lia)) as (H1 & H2 & H3 & H4). by rewrite sample16.
Qed.

(** ** The reader's contract and the state of an open file *)

Section playback.
Context {R : Type} (file : list Z) (Hfile : bytes_wf file) (Hsize : is_u64 (zlen file)).
Implicit Types (w : eaf_wav_t R) (rd : eaf_reader_t R).

(** [read_at] is exact: inside the file it succeeds with the file's bytes. *)
Definition reads_exactly (rd : eaf_reader_t R) : Prop :=
  exists f, read_at rd = Some f /\
    forall x o old, 0 <= o -> o + zlen old <= zlen file -> exists x', f x o old = (x', slice file o (zlen old), 0).

Lemma call_read_eq rd o dst off n :
  reads_exactly rd -> 0 <= o -> o + n <= zlen file -> 0 <= off -> 0 <= n -> off + n <= zlen dst ->
  exists x, call_read rd o dst off n = Some (set_ctx x rd, splice dst off (slice file o n), 0).
Proof.
  intros (f & Hf & Hex) Ho Hn Hoff H0 Hd. unfold call_read. rewrite Hf. cbn [mbind option_bind].
  rewrite ldn_eq by done. cbn [mbind option_bind].
  destruct (Hex (reader_ctx rd) o (slice dst off n) Ho) as [x ->]; [rewrite zlen_slice; lia |].
  rewrite zlen_slice by lia. exists x. by rewrite stn_eq by (rewrite ?zlen_slice; lia).
Qed.

Lemma reads_set_ctx rd x : reads_exactly rd -> reads_exactly (set_ctx x rd).
Proof. by intros (f & Hf & Hex); exists f. Qed.

Record wav_ok (w : eaf_wav_t R) : Prop := {
  wo_reads : reads_exactly (reader w);
  wo_channels : num_channels (format w) = 1 \/ num_channels (format w) = 2;
  wo_bits : bits w = 16 \/ bits w = 24 \/ bits w = 32;
  wo_align : block_align w = num_channels (format w) * (bits w / 8);
  wo_data : 0 <= data_offset w /\ data_offset w + total_frames w * block_align w <= zlen file;
  wo_position : 0 <= position w <= total_frames w;
  wo_scratch : zlen (scratch w) = EAF_WAV_BLOCK_FRAMES * 2 * 4
}.

Definition width w : Z := bits w / 8.
(** The [n] frames from frame [p] on, decoded. *)
Definition frames_at (w : eaf_wav_t R) (p n : Z) : list Z :=
  wav_samples (width w) (n * num_channels (format w)) (slice file (data_offset w + p * block_align w) (n * block_align w)).

Lemma width_of w : wav_ok w -> (bits w = 16 /\ width w = 2) \/ (bits w = 24 /\ width w = 3) \/ (bits w = 32 /\ width w = 4).
Proof. intros H. unfold width. destruct (wo_bits w H) as [-> |[-> | ->]]; [by left | by right; left | by right; right]. Qed.

(** One read: the next [min capacity 256 left] frames. *)
Lemma read_frames_eq w smp cap f0 :
  wav_ok w -> 1 <= cap < 4294967296 ->
  let take := Z.min cap (Z.min EAF_WAV_BLOCK_FRAMES (total_frames w - position w)) in
  take * num_channels (format w) <= zlen smp ->
  exists w', read_frames (Some w) (Some smp) cap (Some f0)
      = Some (Some w', Some (splice smp 0 (frames_at w (position w) take)), Some take, EAF_OK) /\
    wav_ok w' /\ position w' = position w + take /\ total_frames w' = total_frames w /\ format w' = format w /\
    bits w' = bits w /\ block_align w' = block_align w /\ data_offset w' = data_offset w.
Proof.
  intros Hok Hcap take Hroom. pose proof Hok as [Hr Hch Hb Ha [Hd0 Hd] Hp Hs]. pose proof (width_of w Hok) as Hwd.
  assert (Hw4 : 2 <= width w <= 4) by (destruct Hwd as [[_ ->]|[[_ ->]|[_ ->]]]; lia).
  fold (width w) in Ha. assert (Hal : 2 <= block_align w <= 8) by nia. unfold EAF_WAV_BLOCK_FRAMES in *.
  assert (Htot : total_frames w <= zlen file) by nia.
  assert (Htake : take_of w cap = take).
  { unfold take_of, EAF_WAV_BLOCK_FRAMES. rewrite u64_small by (unfold is_u64 in *; lia).
    unfold take. repeat case_decide; rewrite ?u32_small by (unfold is_u32; lia); lia. }
  assert (Ht : 0 <= take <= 256 /\ take <= total_frames w - position w) by (unfold take; lia).
  unfold read_frames. rewrite decide_False by lia. rewrite Htake. clearbody take. destruct (decide (take = 0)) as [->|Hne].
  { exists w. unfold frames_at, wav_samples. change (seqZ 0 (0 * _)) with (@nil Z). cbn [fmap list_fmap].
    rewrite splice_nil. split; [done |]. split; [done |]. split; [lia | done]. }
  assert (Hbytes : position w * block_align w + take * block_align w <= total_frames w * block_align w) by nia.
  assert (Hoff : u64 (data_offset w + u64 (position w * block_align w)) = data_offset w + position w * block_align w).
  { unfold is_u64 in Hsize. rewrite (u64_small (position w * _)) by (unfold is_u64; nia). apply u64_small. unfold is_u64. nia. }
  rewrite Hoff. set (o := data_offset w + position w * block_align w) in *.
  destruct (call_read_eq (reader w) o (scratch w) 0 (take * block_align w) Hr) as [x ->]; [nia | nia | lia | nia | nia |].
  cbn [mbind option_bind]. rewrite decide_False by lia. set (w1 := set_scratch _ _ _).
  set (data := slice file o (take * block_align w)).
  assert (Hzd : zlen data = take * block_align w) by (unfold data; rewrite zlen_slice; nia).
  set (s := splice (scratch w) 0 data). set (ch := num_channels (format w)) in *.
  assert (Hsame : forall n, 0 <= n -> n * width w <= zlen data -> wav_samples (width w) n s = wav_samples (width w) n data).
  { intros n Hn Hl. apply list_fmap_ext. intros i j Hy. apply lookup_seqZ in Hy as [Hj Hi]. f_equal. unfold s.
    assert (Hj2 : 0 <= j * width w /\ j * width w + width w <= n * width w) by nia.
    rewrite <- (Z.add_0_l (j * width w)) at 1. apply slice_splice; nia. }
  assert (Hwf : bytes_wf data) by by apply slice_forall.
  assert (Hz : zlen s = 256 * 2 * 4) by (unfold s; rewrite zlen_splice; nia).
  assert (Hrun : (if decide (bits w = 16) then src ← as_int16 s (take * ch); eaf_s16_to_q31_interleaved src take ch smp ch
                  else for_to (take * ch) (wide_sample s (bits w) (width w)) smp)
                 = Some (splice smp 0 (frames_at w (position w) take))).
  { assert (Hws : forall n, n * width w = take * block_align w -> bytes_wf (slice s 0 (n * width w))).
    { intros n ->. unfold s. rewrite <- Hzd, (slice_splice (scratch w) data 0 0) by lia. by rewrite slice_full. }
    unfold frames_at. fold ch o data. rewrite <- Hsame by nia. destruct Hwd as [[Eb Ew]|[[Eb Ew]|[Eb Ew]]]; rewrite Eb.
    - rewrite decide_True by done. rewrite Ew in *. apply narrow_loop; [done | apply Hws; nia | lia | lia | nia].
    - rewrite decide_False by done. apply wide_loop; [left; by split | apply Hws; nia | lia | nia].
    - rewrite decide_False by done. apply wide_loop; [right; by split | apply Hws; nia | lia | nia]. }
  exists (set_position (position w + take) w1). unfold w1 in *. cbn [set_scratch format bits]. fold ch (width w) s. rewrite Hrun.
  cbn [mbind option_bind]. rewrite u64_small by (unfold is_u64 in *; cbn; lia). split; [done |].
  split; [| done]. split; cbn [set_position set_scratch reader data_offset total_frames position format bits block_align scratch];
    try done; lia.
Qed.

(** Consecutive frames are consecutive samples. *)
Lemma frames_at_add w p m n :
  wav_ok w -> 0 <= p -> 0 <= m -> 0 <= n -> p + m + n <= total_frames w ->
  frames_at w p (m + n) = frames_at w p m ++ frames_at w (p + m) n.
Proof.
  intros Hok Hp Hm Hn Hl. pose proof Hok as [_ Hch _ Ha [Hd0 Hd] _ _]. pose proof (width_of w Hok) as Hwd.
  fold (width w) in Ha. set (ch := num_channels (format w)) in *.
  assert (Hw4 : 2 <= width w <= 4) by (destruct Hwd as [[_ ->]|[[_ ->]|[_ ->]]]; lia).
  unfold frames_at, wav_samples. fold ch. set (a := block_align w) in *. set (d := data_offset w) in *.
  assert (Ha8 : 2 <= a <= 8) by (destruct Hch as [E|E]; rewrite E in Ha; lia). assert (Hpa : 0 <= p * a) by nia. assert (Hma : 0 <= m * a) by nia. assert (Hna : 0 <= n * a) by nia.
  assert (Hin : forall q r j, 0 <= q -> 0 <= j * width w -> j * width w + width w <= r ->
    slice (slice file (d + q) r) (j * width w) (width w) = slice file (d + q + j * width w) (width w)).
  { intros q r j Hq Hj Hr. apply slice_inner; lia. }
  rewrite (Z.mul_add_distr_r m n ch), seqZ_app, fmap_app by nia. f_equal.
  - apply list_fmap_ext. intros i j Hy. apply lookup_seqZ in Hy as [Hj Hi]. f_equal.
    assert (Hj2 : 0 <= j * width w /\ j * width w + width w <= m * ch * width w) by nia. rewrite !Hin by nia. done.
  - apply list_eq. intros i. rewrite !list_lookup_fmap. destruct (decide (Z.of_nat i < n * ch)) as [Hi|Hi].
    + rewrite !lookup_seqZ_lt by lia. cbn [fmap option_fmap option_map]. do 2 f_equal.
      assert (Hj2 : 0 <= Z.of_nat i * width w /\ Z.of_nat i * width w + width w <= n * ch * width w) by nia.
      rewrite !Hin by nia. f_equal. nia.
    + by rewrite !lookup_seqZ_ge by lia.
Qed.

(** A consumer that reads blocks of at most [cap] frames until none comes. *)
Fixpoint play (fuel : nat) (w : eaf_wav_t R) (cap : Z) : ub (list Z * eaf_wav_t R) :=
  let ch := num_channels (format w) in
  '(w', smp, frames, rc) ← read_frames (Some w) (Some (replicate (Z.to_nat (cap * ch)) 0)) cap (Some 0);
  w' ← w'; smp ← smp; n ← frames;
  if decide (rc <> 0 \/ n = 0) then Some ([], w')
  else match fuel with
       | O => None
       | S fuel => '(rest, w') ← play fuel w' cap; Some (slice smp 0 (n * ch) ++ rest, w')
       end.

Lemma zlen_frames_at w p n : wav_ok w -> 0 <= n -> zlen (frames_at w p n) = n * num_channels (format w).
Proof. intros Hok Hn. unfold frames_at, wav_samples. rewrite zlen_fmap, zlen_seqZ; [done |]. destruct (wo_channels w Hok); nia. Qed.

Lemma play_eq fuel w cap :
  wav_ok w -> 1 <= cap < 4294967296 -> total_frames w - position w <= Z.of_nat fuel ->
  exists w', play fuel w cap = Some (frames_at w (position w) (total_frames w - position w), w') /\
    wav_ok w' /\ position w' = total_frames w /\ total_frames w' = total_frames w.
Proof.
  revert w. induction fuel as [|fuel IH]; intros w Hok Hcap Hf; set (ch := num_channels (format w)).
  all: pose proof (wo_channels w Hok) as Hch; fold ch in Hch; pose proof (wo_position w Hok) as Hp.
  all: destruct (read_frames_eq w (replicate (Z.to_nat (cap * ch)) 0) cap 0 Hok Hcap) as (w1 & Hrun & Hok1 & Hp1 & Ht1 & Hf1 & Hb1 & Ha1 & Hd1);
    [rewrite zlen_replicate by nia; nia |]; set (take := Z.min cap _) in *; cbn [play]; fold ch; rewrite Hrun; cbn [mbind option_bind].
  all: unfold EAF_WAV_BLOCK_FRAMES in take.
  - rewrite decide_True by (right; unfold take; lia). assert (E : total_frames w - position w = 0) by lia. exists w1. rewrite E.
    assert (E2 : take = 0) by (unfold take; lia). split; [done |]. split; [done |]. split; [lia | done].
  - destruct (decide (take = 0)) as [E|E].
    + rewrite decide_True by by right. assert (E0 : total_frames w - position w = 0) by (unfold take in E; lia). exists w1. rewrite E0.
      split; [done |]. split; [done |]. split; [lia | done].
    + rewrite decide_False by (intros [H|H]; [by apply H | done]).
      assert (Htk : 1 <= take <= total_frames w - position w /\ take <= cap) by (unfold take in *; lia).
      destruct (IH w1 Hok1 Hcap) as (w2 & -> & Hok2 & Hp2 & Ht2); [lia |]. cbn [mbind option_bind].
      exists w2. split; [| split; [done |]; split; congruence]. do 2 f_equal.
      assert (Hfr : forall p n, frames_at w1 p n = frames_at w p n) by (intros; unfold frames_at, width; by rewrite Hb1, Hf1, Ha1, Hd1).
      rewrite Hfr, Hp1, Ht1.
      pose proof (frames_at_add w (position w) take (total_frames w - (position w + take)) Hok ltac:(lia) ltac:(lia) ltac:(lia) ltac:(lia)) as Hadd.
      replace (take + (total_frames w - (position w + take))) with (total_frames w - position w) in Hadd by lia.
      rewrite Hadd. f_equal.
      pose proof (zlen_frames_at w (position w) take Hok ltac:(lia)) as Hz. fold ch in Hz.
      rewrite <- Hz. rewrite (slice_splice _ (frames_at w (position w) take) 0 0) by (rewrite ?zlen_replicate by nia; nia).
      by rewrite slice_full.
Qed.
End playback.

(** ** Little-endian fields *)

Lemma slice_two (p : list Z) i : 0 <= i -> i + 2 <= zlen p ->
  exists a b, ld p i = Some a /\ ld p (i + 1) = Some b /\ slice p i 2 = [a; b].
Proof.
  intros Hi Hl. destruct (ld_is_Some p i) as [a Ha]; [lia |]. destruct (ld_is_Some p (i + 1)) as [b Hb]; [lia |].
  exists a, b. split; [done |]. split; [done |]. rewrite (slice_cons _ _ _ a), (slice_cons _ _ _ b) by (done || lia). by rewrite slice_nil_n.
Qed.

Lemma le16_at p i : 0 <= i -> i + 2 <= zlen p -> bytes_wf (slice p i 2) -> le16 p i = Some (le_value (slice p i 2)).
Proof.
  intros Hi Hl Hb. destruct (slice_two p i Hi Hl) as (a & b & Ha & Hb' & Hs). rewrite Hs in *. unfold le16. rewrite Ha, Hb'.
  cbn [mbind option_bind]. f_equal. apply List.Forall_cons_iff in Hb as [Wa Hb]. apply List.Forall_cons_iff in Hb as [Wb _].
  unfold is_u8 in *. rewrite (u16_small a) by (unfold is_u16; lia).
  rewrite (u16_small (Z.shiftl b 8)) by (rewrite Z.shiftl_mul_pow2 by lia; unfold is_u16; lia).
  rewrite Z.lor_comm, lor_shift_add by lia. unfold le_value. cbn [foldr]. rewrite u16_small by (unfold is_u16; lia). lia.
Qed.

Lemma le32_at p i : 0 <= i -> i + 4 <= zlen p -> bytes_wf (slice p i 4) -> le32 p i = Some (le_value (slice p i 4)).
Proof.
  intros Hi Hl Hb. destruct (slice_two p i Hi ltac:(lia)) as (a & b & Ha & Hb' & Hs).
  destruct (slice_two p (i + 2) ltac:(lia) ltac:(lia)) as (c & d & Hc & Hd & Hs2).
  change 4 with (2 + 2) in *. rewrite slice_add, Hs, Hs2 in * by lia. replace (i + 2 + 1) with (i + 3) in Hd by lia.
  unfold le32. rewrite Ha, Hb', Hc, Hd. cbn [mbind option_bind app] in *. f_equal.
  apply List.Forall_cons_iff in Hb as [Wa Hb]. apply List.Forall_cons_iff in Hb as [Wb Hb].
  apply List.Forall_cons_iff in Hb as [Wc Hb]. apply List.Forall_cons_iff in Hb as [Wd _]. unfold is_u8 in *.
  rewrite u32_small by (rewrite Z.shiftl_mul_pow2 by lia; unfold is_u32; lia).
  rewrite (Z.lor_comm a), lor_shift_add by lia. rewrite (Z.lor_comm _ (Z.shiftl c 16)), lor_shift_add by lia.
  rewrite (Z.lor_comm _ (Z.shiftl d 24)), lor_shift_add by lia. unfold le_value. cbn [foldr]. lia.
Qed.

(** ** RIFF files *)

Record chunk := Chunk { id : list Z; body : list Z; pad : list Z }.

Definition chunk_ok (c : chunk) : Prop :=
  zlen (id c) = 4 /\ zlen (body c) < 4294967296 /\ zlen (pad c) = Z.land (zlen (body c)) 1.

Definition le4 (n : Z) : list Z := [u8 n; u8 (n / 256); u8 (n / 65536); u8 (n / 16777216)].
Definition chunk_text (c : chunk) : list Z := id c ++ le4 (zlen (body c)) ++ body c ++ pad c.
Definition chunks_text (cs : list chunk) : list Z := concat (chunk_text <$> cs).
Definition riff (cs : list chunk) : list Z :=
  chars "RIFF" ++ le4 (4 + zlen (chunks_text cs)) ++ chars "WAVE" ++ chunks_text cs.

(** What the format chunk says, or why it is refused. *)
Definition fmt_meaning (b : list Z) : (eaf_format_t * Z * Z) + Z :=
  let v16 k := le_value (slice b k 2) in
  let v32 k := le_value (slice b k 4) in
  if decide (zlen b < 16) then inr EAF_INVALID
  else if decide (v16 0 <> 1) then inr EAF_UNSUPPORTED
  else if decide (v16 2 <> 1 /\ v16 2 <> 2) then inr EAF_UNSUPPORTED
  else if decide (v16 14 <> 16 /\ v16 14 <> 24 /\ v16 14 <> 32) then inr EAF_UNSUPPORTED
  else
    let f := Format (v32 4) (v16 2) (if decide (v16 2 = 1) then EAF_CH_FRONT_CENTER else 3) in
    if decide (eaf_format_valid (Some f) = true /\ v16 12 = v16 2 * (v16 14 / 8) /\ v32 4 * v16 12 = v32 8)
    then inl (f, v16 14, v16 12) else inr EAF_INVALID.

(** What a sequence of chunks means: the first format and data chunk, each at
    most once, whole frames; the others are skipped. *)
Fixpoint wav_meaning (cs : list chunk) (f : option (eaf_format_t * Z * Z)) (d : option (list Z))
  : (eaf_format_t * Z * Z * list Z) + Z :=
  match cs with
  | [] => match f, d with
          | Some (fmt, bits, align), Some data =>
              if decide (zlen data mod align = 0) then inl (fmt, bits, align, data) else inr EAF_INVALID
          | _, _ => inr EAF_INVALID
          end
  | c :: cs =>
      if decide (id c = chars "fmt ") then
        match f with
        | Some _ => inr EAF_INVALID
        | None => match fmt_meaning (body c) with inl f => wav_meaning cs (Some f) d | inr rc => inr rc end
        end
      else if decide (id c = chars "data") then
        match d with Some _ => inr EAF_INVALID | None => wav_meaning cs f (Some (body c)) end
      else wav_meaning cs f d
  end.

(** ** The chunk loop *)

Section opening.
Context {R : Type} (file : list Z) (Hfile : bytes_wf file) (Hsize : is_u64 (zlen file)).
Implicit Types (s : wav_scan R) (rd : eaf_reader_t R).

Lemma fmt_meaning_inl b f bt al : bytes_wf b -> fmt_meaning b = inl (f, bt, al) ->
  (num_channels f = 1 \/ num_channels f = 2) /\ (bt = 16 \/ bt = 24 \/ bt = 32) /\ al = num_channels f * (bt / 8).
Proof.
  intros _. unfold fmt_meaning. repeat (destruct (decide _); [done |]).
  set (v2 := le_value (slice b 2 2)) in *. set (v14 := le_value (slice b 14 2)) in *.
  destruct (decide _) as [(_ & Ha & _)|]; [| done]. intros [= <- <- <-]. cbn [num_channels].
  split; [lia |]. split; [lia | exact Ha].
Qed.

Lemma slice_header rd o (h h' : list Z) n k m :
  h' = splice h 0 (slice file o n) -> 0 <= o -> 0 <= n -> o + n <= zlen file -> n <= zlen h -> 0 <= k -> 0 <= m -> k + m <= n ->
  slice h' k m = slice file (o + k) m.
Proof.
  intros -> Ho Hn Hl Hh Hk Hm Hkm. rewrite <- (Z.add_0_l k) at 1.
  rewrite slice_splice by (rewrite ?zlen_slice; lia). by apply slice_inner.
Qed.

Lemma fmt_chunk_eq s size :
  reads_exactly file (sc_reader s) -> zlen (header s) = 16 -> 0 <= offset s -> 0 <= size -> offset s + size <= zlen file ->
  exists x h, zlen h = 16 /\ let s1 := set_read (set_ctx x (sc_reader s)) h s in
    if have_fmt s then fmt_chunk size s = Some (s, Some EAF_INVALID)
    else match fmt_meaning (slice file (offset s) size) with
    | inl (f, b, a) => fmt_chunk size s = Some (set_fmt f b a true s1, None)
    | inr rc => rc <> 0 /\ exists s', reads_exactly file (sc_reader s') /\ fmt_chunk size s = Some (s', Some rc)
    end.
Proof.
  intros Hr Hh Ho H0 Hl. unfold fmt_chunk. destruct (have_fmt s) eqn:Hf; [by exists (reader_ctx (sc_reader s)), (header s) |].
  cbn [orb]. set (b := slice file (offset s) size).
  assert (Hzb : zlen b = size) by (unfold b; rewrite zlen_slice; lia).
  destruct (decide (size < 16)) as [Hlt|Hge].
  { exists (reader_ctx (sc_reader s)), (header s). split; [done |]. cbn zeta. rewrite bool_decide_eq_true_2 by done.
    unfold fmt_meaning. rewrite decide_True by lia. split; [done |]. by exists s. }
  rewrite bool_decide_eq_false_2 by done.
  destruct (call_read_eq file (sc_reader s) (offset s) (header s) 0 16 Hr) as [x Hcall]; [lia | lia | lia | lia | lia |].
  rewrite Hcall. cbn [mbind option_bind]. rewrite decide_False by lia.
  set (h := splice (header s) 0 (slice file (offset s) 16)). exists x, h.
  assert (Hzh : zlen h = 16) by (unfold h; rewrite zlen_splice; rewrite ?zlen_slice; lia). split; [done |]. cbn zeta.
  set (s1 := set_read _ h s).
  assert (Hfield : forall k m, 0 <= k -> 0 <= m -> k + m <= 16 -> slice h k m = slice b k m).
  { intros k m Hk Hm Hkm. rewrite (slice_header (sc_reader s) (offset s) (header s) h 16 k m) by (done || lia).
    unfold b. by rewrite slice_inner by lia. }
  assert (Hwb : forall k m, 0 <= k -> 0 <= m -> k + m <= 16 -> bytes_wf (slice h k m)).
  { intros k m Hk Hm Hkm. rewrite Hfield by done. by apply slice_forall, slice_forall. }
  assert (H16 : forall k, 0 <= k -> k + 2 <= 16 -> le16 h k = Some (le_value (slice b k 2))).
  { intros k Hk Hk2. rewrite le16_at by (try apply Hwb; lia). by rewrite Hfield by lia. }
  assert (H32 : forall k, 0 <= k -> k + 4 <= 16 -> le32 h k = Some (le_value (slice b k 4))).
  { intros k Hk Hk2. rewrite le32_at by (try apply Hwb; lia). by rewrite Hfield by lia. }
  assert (Hr1 : forall f bt al v, reads_exactly file (sc_reader (set_fmt f bt al v s1))) by (intros; exact (reads_set_ctx file _ _ Hr)).
  assert (Hr0 : reads_exactly file (sc_reader s1)) by exact (reads_set_ctx file _ _ Hr).
  rewrite !H16, !H32 by lia. unfold fmt_meaning. rewrite (decide_False (P := zlen b < 16)) by lia. cbn [mbind option_bind].
  destruct (decide (_ <> 1)); [split; [done |]; eexists; split; [| reflexivity]; exact Hr0 |].
  destruct (decide (_ <> 1 /\ _)) as [|Hch]; [split; [done |]; eexists; split; [| reflexivity]; exact Hr0 |].
  destruct (decide (_ <> 16 /\ _)) as [|Hbits]; [split; [done |]; eexists; split; [| reflexivity]; apply Hr1 |].
  set (v2 := le_value (slice b 2 2)) in *. set (v14 := le_value (slice b 14 2)) in *. set (v12 := le_value (slice b 12 2)).
  set (v4 := le_value (slice b 4 4)). set (v8 := le_value (slice b 8 4)).
  assert (Hv : forall k m, 0 <= k -> 0 <= m -> k + m <= 16 -> 0 <= le_value (slice b k m) < 2 ^ (8 * m)).
  { intros k m Hk Hm Hkm. pose proof (le_value_range (slice h k m) (Hwb k m Hk Hm Hkm)) as Hrange.
    rewrite zlen_slice in Hrange by lia. by rewrite Hfield in Hrange by lia. }
  rewrite (u8_small v2) by (unfold is_u8; lia). cbn [sample_rate].
  rewrite (u64_small (v4 * v12)).
  2:{ pose proof (Hv 4 4 ltac:(lia) ltac:(lia) ltac:(lia)) as B1. pose proof (Hv 12 2 ltac:(lia) ltac:(lia) ltac:(lia)) as B2.
      fold v4 in B1. fold v12 in B2. change (2 ^ (8 * 4)) with 4294967296 in B1. change (2 ^ (8 * 2)) with 65536 in B2. unfold is_u64. nia. }
  destruct (decide (_ /\ _ /\ _)) as [(E1 & E2 & E3)|Hbad].
  - rewrite E1, !bool_decide_eq_false_2 by (intros H; by apply H). done.
  - split; [done |]. match goal with |- context [if ?c then _ else _] => destruct c eqn:E end; [eexists; split; [| reflexivity]; apply Hr1 |].
    exfalso. apply Hbad. apply orb_false_iff in E as [E E3]. apply orb_false_iff in E as [E1 E2].
    apply negb_false_iff in E1. apply bool_decide_eq_false, dec_stable in E2, E3. done.
Qed.

Definition padded (n : Z) : Z := n + Z.land n 1.

Lemma padded_bound n : 0 <= n -> n <= padded n <= n + 1.
Proof. intros Hn. unfold padded. pose proof (Z.land_ones n 1 ltac:(lia)) as E. change (Z.ones 1) with 1 in E. change (2 ^ 1) with 2 in E. word. Qed.

(** The length field of the chunk at [o], and its padded end. *)
Definition chunk_size (o : Z) : Z := le_value (slice file (o + 4) 4).

Lemma chunk_size_range o : 0 <= o -> o + 8 <= zlen file -> 0 <= chunk_size o < 4294967296.
Proof.
  intros Ho Hl. unfold chunk_size. pose proof (le_value_range (slice file (o + 4) 4) (slice_forall _ _ _ _ Hfile)) as H.
  rewrite zlen_slice in H by lia. exact H.
Qed.

Lemma chunk_round_eq end_ s :
  reads_exactly file (sc_reader s) -> zlen (header s) = 16 -> 0 <= offset s < end_ -> end_ <= zlen file ->
  if decide (end_ - offset s < 8) then chunk_round end_ s = Some (s, Some EAF_INVALID)
  else exists x h, zlen h = 16 /\
    let s1 := set_offset (offset s + 8) (set_read (set_ctx x (sc_reader s)) h s) in
    let n := chunk_size (offset s) in
    chunk_round end_ s =
      if decide (end_ - (offset s + 8) < padded n) then Some (s1, Some EAF_INVALID)
      else
        '(s2, ret) ← (if decide (slice file (offset s) 4 = chars "fmt ") then fmt_chunk n s1
                      else Some (if decide (slice file (offset s) 4 = chars "data") then data_chunk n s1 else (s1, None)));
        match ret with
        | Some rc => Some (s2, Some rc)
        | None => Some (set_offset (u64 (offset s2 + padded n)) s2, None)
        end.
Proof.
  intros Hr Hh Ho He. unfold chunk_round. unfold is_u64 in Hsize. rewrite (u64_small (end_ - offset s)) by (unfold is_u64; lia).
  destruct (decide (end_ - offset s < 8)) as [|Hge]; [done |].
  destruct (call_read_eq file (sc_reader s) (offset s) (header s) 0 8 Hr) as [x Hcall]; [lia | lia | lia | lia | lia |].
  rewrite Hcall. cbn [mbind option_bind]. rewrite decide_False by lia.
  set (h := splice (header s) 0 (slice file (offset s) 8)). exists x, h.
  assert (Hzh : zlen h = 16) by (unfold h; rewrite zlen_splice; rewrite ?zlen_slice; lia). split; [done |]. cbn zeta.
  assert (Hfield : forall k m, 0 <= k -> 0 <= m -> k + m <= 8 -> slice h k m = slice file (offset s + k) m).
  { intros k m Hk Hm Hkm. apply (slice_header (sc_reader s) (offset s) (header s) h 8 k m); done || lia. }
  rewrite le32_at by (rewrite ?Hfield by lia; try apply slice_forall; done || lia). rewrite Hfield by lia. cbn [mbind option_bind].
  fold (chunk_size (offset s)). fold (padded (chunk_size (offset s))).
  cbn [set_read set_offset offset sc_reader header fmt sbits align sdata_offset data_size have_fmt have_data].
  rewrite (u64_small (offset s + 8)) by (unfold is_u64; lia). rewrite (u64_small (end_ - (offset s + 8))) by (unfold is_u64; lia).
  destruct (decide (_ < padded _)); [done |]. rewrite !memeq_eq by (change (zlen (chars _)) with 4; lia).
  change (zlen (chars _)) with 4. rewrite Hfield, Z.add_0_r by lia. cbn [mbind option_bind].
  destruct (decide (_ = chars "fmt ")) as [E|E]; [by rewrite (bool_decide_eq_true_2 _ E) |]. rewrite (bool_decide_eq_false_2 _ E).
  destruct (decide (_ = chars "data")) as [E2|E2]; [by rewrite (bool_decide_eq_true_2 _ E2) | by rewrite (bool_decide_eq_false_2 _ E2)].
Qed.

(** What every chunk leaves behind. *)
Record scan_ok (end_ : Z) (s : wav_scan R) : Prop := {
  so_reads : reads_exactly file (sc_reader s);
  so_header : zlen (header s) = 16;
  so_offset : 0 <= offset s <= end_;
  so_fmt : have_fmt s = true -> (num_channels (fmt s) = 1 \/ num_channels (fmt s) = 2) /\
    (sbits s = 16 \/ sbits s = 24 \/ sbits s = 32) /\ align s = num_channels (fmt s) * (sbits s / 8);
  so_data : have_data s = true -> 0 <= sdata_offset s /\ 0 <= data_size s /\ sdata_offset s + data_size s <= end_
}.

Lemma chunk_round_ok end_ s :
  scan_ok end_ s -> offset s < end_ -> end_ <= zlen file ->
  exists s' ret, chunk_round end_ s = Some (s', ret) /\
    match ret with Some rc => rc <> 0 | None => scan_ok end_ s' /\ offset s + 8 <= offset s' end.
Proof.
  intros [Hr Hh Ho Hf Hd] Hlt He. pose proof (chunk_round_eq end_ s Hr Hh ltac:(lia) He) as Hrun.
  destruct (decide (end_ - offset s < 8)) as [|Hge]; [by eexists _, _ |]. destruct Hrun as (x & h & Hzh & ->). cbn zeta.
  set (s1 := set_offset _ _). set (n := chunk_size (offset s)).
  pose proof (chunk_size_range (offset s) ltac:(lia) ltac:(lia)) as Hn. fold n in Hn. pose proof (padded_bound n ltac:(lia)) as Hp.
  destruct (decide (_ < padded n)) as [|Hfit]; [by eexists _, _ |]. unfold is_u64 in Hsize.
  assert (Hr1 : reads_exactly file (sc_reader s1)) by exact (reads_set_ctx file _ _ Hr).
  assert (Hnext : forall s2 : wav_scan R, reads_exactly file (sc_reader s2) -> zlen (header s2) = 16 -> offset s2 = offset s + 8 ->
    (have_fmt s2 = true -> (num_channels (fmt s2) = 1 \/ num_channels (fmt s2) = 2) /\
      (sbits s2 = 16 \/ sbits s2 = 24 \/ sbits s2 = 32) /\ align s2 = num_channels (fmt s2) * (sbits s2 / 8)) ->
    (have_data s2 = true -> 0 <= sdata_offset s2 /\ 0 <= data_size s2 /\ sdata_offset s2 + data_size s2 <= end_) ->
    scan_ok end_ (set_offset (u64 (offset s2 + padded n)) s2) /\ offset s + 8 <= offset (set_offset (u64 (offset s2 + padded n)) s2)).
  { intros s2 R2 Z2 O2 F2 D2. rewrite O2, u64_small by (unfold is_u64; lia).
    split; [split; cbn; done || lia | cbn; lia]. }
  destruct (decide (_ = chars "fmt ")) as [_|_]; [| destruct (decide (_ = chars "data")) as [_|_]].
  - destruct (fmt_chunk_eq s1 n Hr1 Hzh ltac:(cbn; lia) ltac:(lia) ltac:(cbn; lia)) as (y & h2 & Hz2 & Hrun). cbn zeta in Hrun.
    change (have_fmt s1) with (have_fmt s) in Hrun. destruct (have_fmt s); [rewrite Hrun; by eexists _, _ |].
    destruct (fmt_meaning _) as [[[f b] a]|rc] eqn:Hm; cycle 1.
    { destruct Hrun as (Hrc & s' & _ & ->). by eexists _, _. }
    rewrite Hrun. cbn [mbind option_bind]. eexists _, None. split; [done |].
    apply Hnext; [exact (reads_set_ctx file _ _ Hr1) | done | done | | done].
    intros _. cbn. by apply (fmt_meaning_inl _ _ _ _ (slice_forall _ _ _ _ Hfile) Hm).
  - unfold data_chunk. change (have_data s1) with (have_data s). destruct (have_data s); cbn [mbind option_bind]; [by eexists _, _ |].
    eexists _, None. split; [done |]. apply Hnext; [done | done | done | done |]. intros _. cbn. lia.
  - cbn [mbind option_bind]. eexists _, None. split; [done |]. by apply Hnext.
Qed.

Lemma chunk_loop_ok fuel end_ s :
  scan_ok end_ s -> end_ <= zlen file -> end_ - offset s <= Z.of_nat fuel ->
  exists s' ret, chunk_loop fuel end_ s = Some (s', ret) /\
    match ret with Some rc => rc <> 0 | None => scan_ok end_ s' end.
Proof.
  revert s. induction fuel as [|fuel IH]; intros s Hok He Hf; cbn [chunk_loop].
  - destruct (decide (offset s < end_)); [lia |]. by eexists _, None.
  - destruct (decide (offset s < end_)) as [Hlt|]; [| by eexists _, None].
    destruct (chunk_round_ok end_ s Hok Hlt He) as (s1 & [rc|] & -> & H); cbn [mbind option_bind]; [by eexists _, _ |].
    destruct H as [Hok1 Ho1]. apply IH; [done | done | lia].
Qed.

(** The loop's locals stand for what was found so far. *)
Definition represents (s : wav_scan R) (f : option (eaf_format_t * Z * Z)) (d : option (list Z)) : Prop :=
  match f with
  | Some (fm, b, a) => have_fmt s = true /\ fmt s = fm /\ sbits s = b /\ align s = a
  | None => have_fmt s = false
  end /\
  match d with
  | Some data => have_data s = true /\ data_size s = zlen data /\ slice file (sdata_offset s) (zlen data) = data
  | None => have_data s = false
  end.

Lemma le4_value n : is_u32 n -> le_value (le4 n) = n.
Proof. intros Hn. unfold le4, le_value. cbn [foldr]. word. Qed.

Lemma slice_prefix (o : Z) (xs ys : list Z) : 0 <= o ->
  slice file o (zlen (xs ++ ys)) = xs ++ ys -> slice file o (zlen xs) = xs /\ slice file (o + zlen xs) (zlen ys) = ys.
Proof.
  intros Ho H. rewrite zlen_app in H. pose proof (zlen_nonneg xs). pose proof (zlen_nonneg ys).
  assert (Hl : o + (zlen xs + zlen ys) <= zlen file \/ xs ++ ys = []).
  { pose proof (f_equal zlen H) as Hz. unfold slice, zlen in Hz. rewrite length_take, length_drop, length_app in Hz.
    destruct (decide (length xs + length ys = 0)%nat) as [E|E]; [right; apply length_zero_iff_nil; rewrite length_app; lia |].
    left. unfold zlen. lia. }
  destruct Hl as [Hl|Hnil].
  - rewrite slice_add in H by lia. apply app_inj_1 in H as [Hx Hy]; [done |].
    pose proof (zlen_slice file o (zlen xs) ltac:(lia) ltac:(lia) ltac:(lia)) as Hz. unfold zlen in *. lia.
  - apply app_eq_nil in Hnil as [-> ->]. by rewrite !slice_nil_n.
Qed.

Lemma chunk_at o c rest :
  0 <= o -> chunk_ok c -> slice file o (zlen (chunk_text c ++ rest)) = chunk_text c ++ rest ->
  slice file o 4 = id c /\ chunk_size o = zlen (body c) /\ slice file (o + 8) (zlen (body c)) = body c /\
  zlen (chunk_text c) = 8 + padded (zlen (body c)) /\ slice file (o + zlen (chunk_text c)) (zlen rest) = rest.
Proof.
  intros Ho (Hid & Hb & Hpad) H. apply slice_prefix in H as [H Hrest]; [| done]. pose proof (zlen_nonneg (body c)) as H0.
  assert (Hz : zlen (chunk_text c) = 8 + padded (zlen (body c))).
  { unfold chunk_text, padded. rewrite !zlen_app, Hid, Hpad. change (zlen (le4 _)) with 4. lia. }
  unfold chunk_text in H. apply slice_prefix in H as [H1 H]; [| done]. rewrite Hid in *.
  apply slice_prefix in H as [H2 H]; [| lia]. change (zlen (le4 _)) with 4 in *.
  apply slice_prefix in H as [H3 _]; [| lia]. replace (o + 4 + 4) with (o + 8) in H3 by lia.
  split; [done |]. split; [| done]. unfold chunk_size. rewrite H2. by apply le4_value.
Qed.

Lemma chunk_step end_ s c rest f d :
  reads_exactly file (sc_reader s) -> zlen (header s) = 16 -> 0 <= offset s -> represents s f d -> chunk_ok c ->
  slice file (offset s) (zlen (chunk_text c ++ rest)) = chunk_text c ++ rest ->
  offset s + zlen (chunk_text c ++ rest) <= end_ -> end_ <= zlen file ->
  exists s' ret, chunk_round end_ s = Some (s', ret) /\
    match ret with
    | Some rc => forall cs, wav_meaning (c :: cs) f d = inr rc
    | None => reads_exactly file (sc_reader s') /\ zlen (header s') = 16 /\ offset s' = offset s + zlen (chunk_text c) /\
        exists f' d', represents s' f' d' /\ forall cs, wav_meaning (c :: cs) f d = wav_meaning cs f' d'
    end.
Proof.
  intros Hr Hh Ho [Rf Rd] Hc Hs Hend He. destruct (chunk_at _ _ _ Ho Hc Hs) as (Hid & Hn & Hb & Hz & _).
  pose proof (zlen_nonneg (body c)) as Hb0. pose proof (padded_bound (zlen (body c)) Hb0) as Hp. rewrite zlen_app in Hend. pose proof (zlen_nonneg rest).
  pose proof (chunk_round_eq end_ s Hr Hh ltac:(lia) He) as Hrun. rewrite decide_False in Hrun by lia.
  destruct Hrun as (x & h & Hzh & ->). cbn zeta. set (s1 := set_offset _ _). rewrite Hn, Hid. rewrite decide_False by lia.
  assert (Hr1 : reads_exactly file (sc_reader s1)) by exact (reads_set_ctx file _ _ Hr). unfold is_u64 in Hsize.
  cbn [wav_meaning]. destruct (decide (id c = chars "fmt ")) as [_|_]; [| destruct (decide (id c = chars "data")) as [_|_]].
  - destruct (fmt_chunk_eq s1 (zlen (body c)) Hr1 Hzh ltac:(cbn; lia) ltac:(lia) ltac:(cbn; lia)) as (y & h2 & Hz2 & Hf). cbn zeta in Hf.
    change (have_fmt s1) with (have_fmt s) in Hf. change (offset s1) with (offset s + 8) in Hf. rewrite Hb in Hf.
    destruct f as [[[fm b] a]|]; [destruct Rf as [E _]; rewrite E in Hf; rewrite Hf; by eexists _, _ |]. rewrite Rf in Hf.
    destruct (fmt_meaning (body c)) as [[[fm b] a]|rc].
    + rewrite Hf. cbn [mbind option_bind]. eexists _, None. split; [done |]. split; [exact (reads_set_ctx file _ _ Hr1) |].
      split; [done |]. split; [cbn; rewrite u64_small by (unfold is_u64; lia); lia |]. exists (Some (fm, b, a)), d. split; [| done].
      by split.
    + destruct Hf as (_ & s' & _ & ->). by eexists _, _.
  - unfold data_chunk. change (have_data s1) with (have_data s).
    destruct d as [data|]; [destruct Rd as [E _]; rewrite E; by eexists _, _ |]. rewrite Rd.
    cbn [mbind option_bind]. eexists _, None. split; [done |]. split; [exact Hr1 |]. split; [done |].
    split; [cbn; rewrite u64_small by (unfold is_u64; lia); lia |]. exists f, (Some (body c)). split; [| done]. by split.
  - cbn [mbind option_bind]. eexists _, None. split; [done |]. split; [exact Hr1 |]. split; [done |].
    split; [cbn; rewrite u64_small by (unfold is_u64; lia); lia |]. exists f, d. by split.
Qed.

Lemma chunk_loop_eq cs fuel end_ s f d :
  reads_exactly file (sc_reader s) -> zlen (header s) = 16 -> 0 <= offset s -> represents s f d -> Forall chunk_ok cs ->
  slice file (offset s) (zlen (chunks_text cs)) = chunks_text cs -> offset s + zlen (chunks_text cs) = end_ -> end_ <= zlen file ->
  (length cs <= fuel)%nat ->
  exists s' ret, chunk_loop fuel end_ s = Some (s', ret) /\
    match ret with
    | Some rc => wav_meaning cs f d = inr rc
    | None => exists f' d', represents s' f' d' /\ wav_meaning cs f d = wav_meaning [] f' d'
    end.
Proof.
  revert fuel s f d. induction cs as [|c cs IH]; intros fuel s f d Hr Hh Ho Hrep Hok Hs Hend He Hf.
  - change (chunks_text []) with (@nil Z) in Hend. change (zlen []) with 0 in Hend.
    destruct fuel; cbn [chunk_loop]; rewrite decide_False by lia; (exists s, None; split; [done | by exists f, d]).
  - apply List.Forall_cons_iff in Hok as [Hc Hok]. cbn [length] in Hf. destruct fuel as [|fuel]; [lia |].
    change (chunks_text (c :: cs)) with (chunk_text c ++ chunks_text cs) in *.
    destruct (chunk_at _ _ _ Ho Hc Hs) as (_ & _ & _ & Hz & Hrest). pose proof (zlen_nonneg (body c)) as Hb0.
    pose proof (padded_bound (zlen (body c)) Hb0) as Hp. pose proof (zlen_nonneg (chunks_text cs)).
    cbn [chunk_loop]. rewrite decide_True by (rewrite zlen_app in Hend; lia).
    destruct (chunk_step end_ s c (chunks_text cs) f d) as (s1 & [rc|] & -> & Hpost); try done; [lia | exists s1, (Some rc); split; [done | exact (Hpost cs)] |].
    cbn [mbind option_bind]. destruct Hpost as (Hr1 & Hh1 & Ho1 & f1 & d1 & Hrep1 & Hm).
    destruct (IH fuel s1 f1 d1) as (s2 & ret & -> & H2); try done; [lia | by rewrite Ho1 | rewrite zlen_app in Hend; lia | lia |].
    exists s2, ret. split; [done |]. destruct ret; rewrite Hm; done.
Qed.

(** ** Opening a file *)

Lemma open_finish_eq (w : eaf_wav_t R) src s f d end_ :
  scan_ok end_ s -> end_ <= zlen file -> represents s f d ->
  exists w' src' rc, open_finish w src s = Some (w', src', sc_reader s, rc) /\
    match wav_meaning [] f d with
    | inl (fm, b, a, data) =>
        rc = EAF_OK /\ wav_ok file w' /\ position w' = 0 /\ format w' = fm /\ bits w' = b /\
        src' = Source fm (total_frames w') /\ total_frames w' * block_align w' = zlen data /\
        slice file (data_offset w') (zlen data) = data
    | inr e => rc = e /\ w' = w /\ src' = src
    end.
Proof.
  intros [Hr Hh Ho Hf Hd] He [Rf Rd]. unfold open_finish. cbn [wav_meaning].
  destruct f as [[[fm b] a]|]; [destruct Rf as (Hhf & <- & <- & <-) | rewrite Rf; by eexists _, _, _].
  destruct d as [data|]; [destruct Rd as (Hhd & Hn & Hs) | rewrite Hhf, Rd; by eexists _, _, _].
  rewrite Hhf, Hhd. cbn [negb orb]. destruct (Hf Hhf) as (Hch & Hb & Ha). destruct (Hd Hhd) as (Hd0 & Hds & Hde).
  assert (Hal : 2 <= align s) by (destruct Hb as [E|[E|E]]; rewrite E in Ha; change (16 / 8) with 2 in Ha; change (24 / 8) with 3 in Ha;
    change (32 / 8) with 4 in Ha; lia).
  rewrite decide_False by lia. rewrite Hn. destruct (decide (zlen data mod align s = 0)) as [E|E].
  - rewrite (decide_False (P := zlen data mod align s <> 0)) by (intros H; by apply H).
    assert (Hdiv : zlen data / align s * align s = zlen data) by (pose proof (Z.div_mod (zlen data) (align s)); lia).
    eexists _, _, _. split; [done |]. split; [done |]. split; [| done].
    split; cbn [reader format bits block_align data_offset total_frames position scratch]; try done; [rewrite Hdiv; lia |].
    split; [done |]. apply Z.div_pos; lia.
  - rewrite decide_True by done. by eexists _, _, _.
Qed.

Lemma open_start (w : eaf_wav_t R) src rd :
  reads_exactly file rd -> reader_size rd = zlen file -> 12 <= zlen file ->
  exists x h, zlen h = 16 /\ let rd1 := set_ctx x rd in
    open_body w src rd =
      if decide (slice file 0 4 <> chars "RIFF" \/ slice file 8 4 <> chars "WAVE") then Some (w, src, rd1, EAF_UNSUPPORTED)
      else let end_ := le_value (slice file 4 4) + 8 in
        if decide (end_ < 12 \/ zlen file < end_) then Some (w, src, rd1, EAF_INVALID)
        else
          '(s, ret) ← chunk_loop (Z.to_nat end_) end_ (scan_zero rd1 h);
          match ret with Some rc => Some (w, src, sc_reader s, rc) | None => open_finish w src s end.
Proof.
  intros Hr Hsz H12. unfold open_body.
  destruct (call_read_eq file rd 0 (replicate 16 0) 0 12 Hr) as [x Hcall]; [lia | lia | lia | lia | done |].
  rewrite Hcall. cbn [mbind option_bind]. rewrite decide_False by lia.
  set (h := splice (replicate 16 0) 0 (slice file 0 12)). exists x, h.
  assert (Hz16 : zlen (replicate 16 0) = 16) by done.
  assert (Hzh : zlen h = 16) by (unfold h; rewrite zlen_splice; rewrite ?zlen_slice; lia). split; [done |]. cbn zeta.
  assert (Hfield : forall k m, 0 <= k -> 0 <= m -> k + m <= 12 -> slice h k m = slice file k m).
  { intros k m Hk Hm Hkm. rewrite (slice_header rd 0 (replicate 16 0) h 12 k m) by (done || lia). by rewrite Z.add_0_l. }
  rewrite !memeq_eq by (change (zlen (chars _)) with 4; lia). change (zlen (chars _)) with 4. rewrite !Hfield by lia. cbn [mbind option_bind].
  rewrite le32_at by (rewrite ?Hfield by lia; try apply slice_forall; done || lia). rewrite Hfield by lia. cbn [mbind option_bind].
  change (reader_size (set_ctx x rd)) with (reader_size rd). rewrite Hsz.
  destruct (decide (slice file 0 4 = chars "RIFF")) as [E1|E1].
  - rewrite (bool_decide_eq_true_2 _ E1). destruct (decide (slice file 8 4 = chars "WAVE")) as [E2|E2].
    + rewrite (bool_decide_eq_true_2 _ E2). cbn [negb orb]. rewrite (decide_False (P := slice file 0 4 <> _ \/ _)) by (intros [H|H]; by apply H). done.
    + rewrite (bool_decide_eq_false_2 _ E2). cbn [negb orb]. by rewrite (decide_True (P := slice file 0 4 <> _ \/ _)) by by right.
  - rewrite (bool_decide_eq_false_2 _ E1). cbn [negb orb]. by rewrite (decide_True (P := slice file 0 4 <> _ \/ _)) by by left.
Qed.

(** On any file at all, opening ends, reads nothing outside the file, and either
    refuses it, leaving decoder and source alone, or leaves a decoder whose every
    later read stays inside the sample data. *)
Theorem wav_open_safe (w : eaf_wav_t R) (src : eaf_source_t) (rd : eaf_reader_t R) :
  reads_exactly file rd -> reader_size rd = zlen file ->
  exists w' src' rd' rc, eaf_wav_open (Some w) (Some src) (Some rd) = Some (Some w', Some src', Some rd', rc) /\
    if decide (rc = EAF_OK) then wav_ok file w' /\ position w' = 0 /\ src' = Source (format w') (total_frames w')
    else w' = w /\ src' = src.
Proof.
  intros Hr Hsz. unfold eaf_wav_open. pose proof Hr as (g & Hg & _). rewrite (bool_decide_eq_false_2 (read_at rd = None)) by (by rewrite Hg).
  cbn [orb]. rewrite Hsz. destruct (decide (zlen file < 12)) as [|H12]; [rewrite bool_decide_eq_true_2 by done; by eexists _, _, _, _ |].
  rewrite bool_decide_eq_false_2 by done. destruct (open_start w src rd Hr Hsz ltac:(lia)) as (x & h & Hh & ->). cbn zeta.
  destruct (decide (_ \/ _)); [by eexists _, _, _, _ |]. set (end_ := le_value (slice file 4 4) + 8).
  destruct (decide (_ \/ _)) as [|Hend]; [by eexists _, _, _, _ |].
  assert (Hok : scan_ok end_ (scan_zero (set_ctx x rd) h)) by (split; try done; cbn; lia).
  destruct (chunk_loop_ok (Z.to_nat end_) end_ _ Hok ltac:(lia) ltac:(cbn; lia)) as (s & [rc|] & -> & Hs); cbn [mbind option_bind].
  { exists w, src, (sc_reader s), rc. split; [done |]. by rewrite decide_False. }
  destruct (open_finish_eq w src s (if have_fmt s then Some (fmt s, sbits s, align s) else None)
    (if have_data s then Some (slice file (sdata_offset s) (data_size s)) else None) end_ Hs ltac:(lia))
    as (w' & src' & rc & -> & Hres).
  { destruct Hs as [_ _ _ _ Hd]. split; [by destruct (have_fmt s) |]. destruct (have_data s); [| done]. destruct (Hd eq_refl) as (? & ? & ?).
    rewrite zlen_slice by lia. done. }
  exists w', src', (sc_reader s), rc. split; [done |]. destruct (wav_meaning _ _ _) as [[[[fm b] a] data]|e] eqn:Hm.
  - destruct Hres as (-> & Hw & Hp & Hf & _ & Hsrc & _). rewrite decide_True by done. rewrite Hsrc, Hf. done.
  - destruct Hres as (-> & -> & ->). rewrite decide_False; [done |]. intros ->. cbn [wav_meaning] in Hm.
    repeat (case_match; try done).
Qed.

Lemma open_parses (w : eaf_wav_t R) (src : eaf_source_t) (rd : eaf_reader_t R) (cs : list chunk) (rest : list Z) :
  file = riff cs ++ rest -> Forall chunk_ok cs -> zlen (chunks_text cs) < 4294967292 ->
  reads_exactly file rd -> reader_size rd = zlen file ->
  exists w' src' rd' rc, eaf_wav_open (Some w) (Some src) (Some rd) = Some (Some w', Some src', Some rd', rc) /\
    match wav_meaning cs None None with
    | inl (fm, b, a, data) =>
        rc = EAF_OK /\ wav_ok file w' /\ position w' = 0 /\ format w' = fm /\ bits w' = b /\
        src' = Source fm (total_frames w') /\ total_frames w' * block_align w' = zlen data /\
        slice file (data_offset w') (zlen data) = data
    | inr e => rc = e /\ w' = w /\ src' = src
    end.
Proof.
  intros Hfile_eq Hcs Hlen Hr Hsz. set (body := chunks_text cs) in *. pose proof (zlen_nonneg body) as Hb0. pose proof (zlen_nonneg rest).
  assert (Hz : zlen file = 12 + zlen body + zlen rest).
  { rewrite Hfile_eq. unfold riff. rewrite !zlen_app. fold body. change (zlen (chars _)) with 4. change (zlen (le4 _)) with 4. lia. }
  assert (Hwhole : slice file 0 (zlen (riff cs)) = riff cs) by (rewrite Hfile_eq; by apply slice_app_head).
  unfold riff in Hwhole. fold body in Hwhole. apply slice_prefix in Hwhole as [S1 Hwhole]; [| done]. change (zlen (chars _)) with 4 in *.
  apply slice_prefix in Hwhole as [S2 Hwhole]; [| lia]. change (zlen (le4 _)) with 4 in *.
  apply slice_prefix in Hwhole as [S3 S4]; [| lia]. change (zlen (chars _)) with 4 in *.
  unfold eaf_wav_open. pose proof Hr as (g & Hg & _). rewrite (bool_decide_eq_false_2 (read_at rd = None)) by (by rewrite Hg).
  cbn [orb]. rewrite Hsz, bool_decide_eq_false_2 by lia. destruct (open_start w src rd Hr Hsz ltac:(lia)) as (x & h & Hh & ->). cbn zeta.
  change (0 + 4 + 4 + 4) with 12 in *. change (0 + 4 + 4) with 8 in *. change (0 + 4) with 4 in *.
  rewrite decide_False by (intros [H'|H']; by apply H'). rewrite S2, le4_value by (unfold is_u32; lia).
  rewrite decide_False by lia. set (end_ := 4 + zlen body + 8).
  destruct (chunk_loop_eq cs (Z.to_nat end_) end_ (scan_zero (set_ctx x rd) h) None None) as (s & ret & Hrun & Hm);
    try done; [unfold end_; cbn [scan_zero offset]; fold body; lia | unfold end_; lia | |].
  { assert (Hc : (8 * length cs <= length body)%nat); [| unfold end_, zlen; lia]. subst body. clear -Hcs.
    induction Hcs as [|c cs (Hi & _) _ IH]; [simpl; lia |]. change (chunks_text (c :: cs)) with (chunk_text c ++ chunks_text cs).
    rewrite length_app. unfold chunk_text. rewrite !length_app. unfold zlen in Hi. simpl. lia. }
  rewrite Hrun. cbn [mbind option_bind]. destruct ret as [rc|].
  { rewrite Hm. by exists w, src, (sc_reader s), rc. }
  destruct Hm as (f & d & Hrep & ->).
  assert (Hok : scan_ok end_ (scan_zero (set_ctx x rd) h)) by (split; try done; unfold end_; cbn; lia).
  destruct (chunk_loop_ok (Z.to_nat end_) end_ _ Hok) as (s2 & ret & Hrun2 & Hs); [unfold end_; lia | cbn; lia |].
  rewrite Hrun in Hrun2. injection Hrun2 as <- <-.
  destruct (open_finish_eq w src s f d end_ Hs) as (w' & src' & rc & -> & Hres); [unfold end_; lia | done |].
  by exists w', src', (sc_reader s), rc.
Qed.
(** Opening a RIFF file yields exactly what its chunks say: the format chunk's
    format and the data chunk's samples, whatever other chunks surround them and
    whatever follows the RIFF chunk; a missing or repeated chunk, an unsupported
    encoding, inconsistent sizes or a broken frame is refused with the code of the
    first offence. *)
Theorem wav_open_parses (w : eaf_wav_t R) (src : eaf_source_t) (rd : eaf_reader_t R) (cs : list chunk) (rest : list Z) :
  file = riff cs ++ rest -> Forall chunk_ok cs -> zlen (chunks_text cs) < 4294967292 ->
  reads_exactly file rd -> reader_size rd = zlen file ->
  exists w' src' rd' rc, eaf_wav_open (Some w) (Some src) (Some rd) = Some (Some w', Some src', Some rd', rc) /\
    match wav_meaning cs None None with
    | inl (fm, b, a, data) =>
        rc = EAF_OK /\ wav_ok file w' /\ position w' = 0 /\ format w' = fm /\ bits w' = b /\
        src' = Source fm (total_frames w') /\ total_frames w' * block_align w' = zlen data /\
        slice file (data_offset w') (zlen data) = data
    | inr e => rc = e /\ w' = w /\ src' = src
    end.
Proof. exact (open_parses w src rd cs rest). Qed.

(** C32: Playing a RIFF file to its end: a consumer that reads blocks of any size until
    none comes gets every sample of the data chunk, decoded, once and in order, and
    then stops. *)
Theorem wav_plays_file (w : eaf_wav_t R) (src : eaf_source_t) (rd : eaf_reader_t R) (cs : list chunk) (rest : list Z)
    (fm : eaf_format_t) (b a : Z) (data : list Z) (cap : Z) :
  file = riff cs ++ rest -> Forall chunk_ok cs -> zlen (chunks_text cs) < 4294967292 ->
  reads_exactly file rd -> reader_size rd = zlen file -> 1 <= cap < 4294967296 ->
  wav_meaning cs None None = inl (fm, b, a, data) ->
  exists w' src' rd' w'', eaf_wav_open (Some w) (Some src) (Some rd) = Some (Some w', Some src', Some rd', EAF_OK) /\
    play (Z.to_nat (source_frames src')) w' cap = Some (wav_samples (b / 8) (zlen data / (b / 8)) data, w'') /\
    position w'' = source_frames src' /\ source_frames src' * (num_channels fm * (b / 8)) = zlen data.
Proof.
  intros Hf Hcs Hl Hr Hsz Hcap Hm. destruct (open_parses w src rd cs rest Hf Hcs Hl Hr Hsz) as (w' & src' & rd' & rc & Hopen & Hres).
  rewrite Hm in Hres. destruct Hres as (-> & Hok & Hp & Hfm & Hb & -> & Ht & Hs). pose proof (wo_position file w' Hok) as Hpos.
  destruct (play_eq file Hfile Hsize (Z.to_nat (total_frames w')) w' cap Hok Hcap) as (w'' & Hplay & _ & Hend & _); [lia |].
  exists w', (Source fm (total_frames w')), rd', w''. split; [done |]. cbn [source_frames]. rewrite Hplay, Hp, Z.sub_0_r.
  pose proof (wo_align file w' Hok) as Ha. rewrite Hfm, Hb in Ha. split; [| split; [lia | by rewrite <- Ha]].
  do 2 f_equal. unfold frames_at, width. rewrite Hfm, Hb, Z.mul_0_l, Z.add_0_r, Ht, Hs. f_equal.
  pose proof (width_of file w' Hok) as Hw. unfold width in Hw. rewrite Hb in Hw.
  rewrite <- Ht, Ha, Z.mul_assoc. symmetry. apply Z.div_mul. destruct Hw as [[_ ->]|[[_ ->]|[_ ->]]]; lia.
Qed.
End opening.

(** ** Witnesses *)

Definition demo_chunks : list chunk :=
  [Chunk (chars "LIST") [7] [0];
   Chunk (chars "fmt ") ([1; 0; 1; 0] ++ le4 8000 ++ le4 16000 ++ [2; 0; 16; 0]) [];
   Chunk (chars "data") [1; 0; 255; 255; 0; 128] []].
Definition demo_file : list Z := riff demo_chunks ++ [9; 9].
Definition demo_reader : eaf_reader_t unit := Reader (Some (fun x o old => (x, slice demo_file o (zlen old), 0))) tt (zlen demo_file).
Definition demo_wav : eaf_wav_t unit := Wav demo_reader 0 0 0 (Format 0 0 0) 0 0 [].

Lemma demo_file_ok : bytes_wf demo_file /\ is_u64 (zlen demo_file) /\ Forall chunk_ok demo_chunks /\ reads_exactly demo_file demo_reader.
Proof.
  split; [apply (bool_decide_eq_true _); by vm_compute |]. split; [by vm_compute |]. split.
  - repeat constructor.
  - eexists. split; [done |]. intros x o old _ _. by exists x.
Qed.

Lemma wav_open_safe_witness :
  exists w' src' rd' rc, eaf_wav_open (Some demo_wav) (Some (Source (Format 0 0 0) 0)) (Some demo_reader) = Some (Some w', Some src', Some rd', rc) /\
    rc = EAF_OK /\ src' = Source (Format 8000 1 EAF_CH_FRONT_CENTER) 3.
Proof.
  destruct demo_file_ok as (Hb & Hs & _ & Hr).
  destruct (wav_open_safe demo_file Hb Hs demo_wav (Source (Format 0 0 0) 0) demo_reader Hr eq_refl) as (w' & src' & rd' & rc & Hrun & _).
  exists w', src', rd', rc. split; [exact Hrun |].
  pose proof (f_equal (fun r => match r with Some (_, Some s, _, rc) => Some (s, rc) | _ => None end) Hrun) as E.
  vm_compute in E. injection E as <- <-. by split.
Defined.

Lemma wav_open_parses_witness :
  exists w' src' rd', eaf_wav_open (Some demo_wav) (Some (Source (Format 0 0 0) 0)) (Some demo_reader) = Some (Some w', Some src', Some rd', EAF_OK) /\
    format w' = Format 8000 1 EAF_CH_FRONT_CENTER /\ bits w' = 16 /\ slice demo_file (data_offset w') 6 = [1; 0; 255; 255; 0; 128].
Proof.
  destruct demo_file_ok as (Hb & Hs & Hc & Hr).
  destruct (wav_open_parses demo_file Hb Hs demo_wav (Source (Format 0 0 0) 0) demo_reader demo_chunks [9; 9] eq_refl Hc eq_refl Hr eq_refl)
    as (w' & src' & rd' & rc & Hrun & Hres).
  assert (E : wav_meaning demo_chunks None None = inl (Format 8000 1 EAF_CH_FRONT_CENTER, 16, 2, [1; 0; 255; 255; 0; 128])) by by vm_compute.
  rewrite E in Hres.
  destruct Hres as (-> & _ & _ & Hf & Hbt & _ & _ & Hd). exists w', src', rd'.
  split; [exact Hrun |]. split; [exact Hf |]. split; [exact Hbt | exact Hd].
Defined.

Lemma wav_plays_file_witness :
  exists w' src' rd' w'', eaf_wav_open (Some demo_wav) (Some (Source (Format 0 0 0) 0)) (Some demo_reader) = Some (Some w', Some src', Some rd', EAF_OK) /\
    play (Z.to_nat (source_frames src')) w' 2 = Some ([65536; -65536; -2147483648], w'').
Proof.
  destruct demo_file_ok as (Hb & Hs & Hc & Hr).
  destruct (wav_plays_file demo_file Hb Hs demo_wav (Source (Format 0 0 0) 0) demo_reader demo_chunks [9; 9]
    (Format 8000 1 EAF_CH_FRONT_CENTER) 16 2 [1; 0; 255; 255; 0; 128] 2 eq_refl Hc eq_refl Hr eq_refl) as (w' & src' & rd' & w'' & Ho & Hp & _);
    [done | by vm_compute |].
  exists w', src', rd', w''. split; [exact Ho |]. rewrite Hp. by vm_compute.
Defined.
