(* ===== verification/LmsClient.v ===== *)
(** The LMS streaming client, apps/lms/lms_client.c with
    include/eaf/eaf_lms_client.h: the control connection, the HTTP body of the
    current track, the ingress ring, the PCM chunk and the progress reports.
    The sockets and the clock are those of [Net]; the player's callbacks act on
    the same world [W] and are parameters. *)

From stdpp Require Import strings.
From S2P Require Import Prelude Types Bytes Text Net LmsProtocol.

(** ** Data *)

Definition EAF_LMS_PCM_FRAMES : Z := 512.
Definition EAF_LMS_INGRESS_BYTES : Z := 4096.
Definition TX_BYTES : Z := 4096.
Definition RX_BYTES : Z := 1024.

Record eaf_lms_buffer_request_t := BufferRequest { stream_bytes : Z; output_ms : Z; sample_bytes : Z }.
Record eaf_lms_buffer_limits_t := BufferLimits { capacity_frames : Z; ready_frames : Z; clamped : bool }.

Record eaf_lms_callbacks_t (W : Type) := Callbacks {
  start : option (eaf_format_t -> W -> W * Z);
  cb_pcm : option (list Z -> Z -> W -> W * Z);
  eof : option (W -> W);
  stop : option (W -> W);
  pause : option (bool -> W -> W * Z);
  volume : option (Z -> Z -> W -> W * Z);
  start_buffered : option (eaf_format_t -> eaf_lms_buffer_request_t -> eaf_lms_buffer_limits_t -> W -> eaf_lms_buffer_limits_t * W * Z);
  release : option (W -> W * Z)
}.
#[global] Arguments Callbacks {W}.
#[global] Arguments start {W}.
#[global] Arguments cb_pcm {W}.
#[global] Arguments eof {W}.
#[global] Arguments stop {W}.
#[global] Arguments pause {W}.
#[global] Arguments volume {W}.
#[global] Arguments start_buffered {W}.
#[global] Arguments release {W}.

Record eaf_lms_playback_t := Playback { elapsed_ms : Z; buffer_bytes : Z; queued_bytes : Z; started : bool }.

Inductive eaf_lms_stage_t :=
  | EAF_LMS_STAGE_NONE | EAF_LMS_STAGE_CONNECT | EAF_LMS_STAGE_CONTROL_SEND | EAF_LMS_STAGE_CONTROL_RECV
  | EAF_LMS_STAGE_COMMAND | EAF_LMS_STAGE_HTTP_CONNECT | EAF_LMS_STAGE_OUTPUT_START | EAF_LMS_STAGE_HTTP_SEND
  | EAF_LMS_STAGE_HTTP_RECV | EAF_LMS_STAGE_HEADERS | EAF_LMS_STAGE_DECODE | EAF_LMS_STAGE_PCM | EAF_LMS_STAGE_STATUS.
#[export] Instance lms_stage_eq_dec : EqDecision eaf_lms_stage_t.
Proof. solve_decision. Defined.

Record eaf_lms_diagnostics_t := Diagnostics {
  http_bytes : Z; pcm_frames : Z; recv_again : Z; backpressure : Z; budget_yields : Z;
  first_error : Z; error_stage : eaf_lms_stage_t; error_opcode : list Z;
  http_status : Z; http_length_known : bool; http_content_length : Z; http_content_type : list Z
}.
Record eaf_lms_pump_result_t := PumpResult { steps : Z; progressed : bool; budget_exhausted : bool; backpressured : bool }.

(** The client's fields, grouped: the control transmit queue, the HTTP exchange,
    the decoding of its body, the playing session and the reports. *)
Record lms_tx_t := Tx {
  t_tx : list Z; t_tx_used : Z; t_tx_sent : Z
}.
Record lms_exchange_t := Exchange {
  x_request : list Z; x_request_used : Z; x_request_sent : Z; x_header : list Z; x_header_used : Z;
  x_headers_done : bool; x_has_length : bool; x_remaining : Z; x_body_done : bool
}.
Record lms_decode_t := Decode {
  d_tail : list Z; d_tail_used : Z; d_pcm : list Z; d_pcm_count : Z; d_pcm_sent : Z; d_ingress : list Z;
  d_ingress_used : Z; d_format : eaf_format_t; d_width : Z; d_big_endian : bool
}.
Record lms_session_t := Session {
  s_streaming : bool; s_wait_cont : bool; s_wait_start : bool; s_ready_sent : bool; s_started_sent : bool;
  s_playback : eaf_lms_playback_t; s_bytes_received : Z; s_buffered_output : bool; s_output_released : bool;
  s_output_paused : bool; s_input_eof : bool; s_eof_sent : bool; s_prefill_frames : Z;
  s_buffer_limits : eaf_lms_buffer_limits_t
}.
Record lms_progress_t := Progress {
  p_diagnostics : eaf_lms_diagnostics_t; p_stage : eaf_lms_stage_t; p_opcode : list Z; p_step_progress : bool;
  p_step_backpressure : bool
}.

Record eaf_lms_client_t (W : Type) := LmsClient {
  control : eaf_tcp_t; http : eaf_tcp_t; callbacks : eaf_lms_callbacks_t W; server : Z;
  tx_part : lms_tx_t; exchange : lms_exchange_t; decode : lms_decode_t; session : lms_session_t; progress : lms_progress_t
}.
#[global] Arguments LmsClient {W}.
#[global] Arguments control {W}.
#[global] Arguments http {W}.
#[global] Arguments callbacks {W}.
#[global] Arguments server {W}.
#[global] Arguments tx_part {W}.
#[global] Arguments exchange {W}.
#[global] Arguments decode {W}.
#[global] Arguments session {W}.
#[global] Arguments progress {W}.

Abbreviation tx c := (t_tx (tx_part c)).
Abbreviation tx_used c := (t_tx_used (tx_part c)).
Abbreviation tx_sent c := (t_tx_sent (tx_part c)).
Abbreviation request c := (x_request (exchange c)).
Abbreviation request_used c := (x_request_used (exchange c)).
Abbreviation request_sent c := (x_request_sent (exchange c)).
Abbreviation header c := (x_header (exchange c)).
Abbreviation header_used c := (x_header_used (exchange c)).
Abbreviation headers_done c := (x_headers_done (exchange c)).
Abbreviation has_length c := (x_has_length (exchange c)).
Abbreviation remaining c := (x_remaining (exchange c)).
Abbreviation body_done c := (x_body_done (exchange c)).
Abbreviation tail c := (d_tail (decode c)).
Abbreviation tail_used c := (d_tail_used (decode c)).
Abbreviation pcm c := (d_pcm (decode c)).
Abbreviation pcm_count c := (d_pcm_count (decode c)).
Abbreviation pcm_sent c := (d_pcm_sent (decode c)).
Abbreviation ingress c := (d_ingress (decode c)).
Abbreviation ingress_used c := (d_ingress_used (decode c)).
Abbreviation format c := (d_format (decode c)).
Abbreviation width c := (d_width (decode c)).
Abbreviation big_endian c := (d_big_endian (decode c)).
Abbreviation streaming c := (s_streaming (session c)).
Abbreviation wait_cont c := (s_wait_cont (session c)).
Abbreviation wait_start c := (s_wait_start (session c)).
Abbreviation ready_sent c := (s_ready_sent (session c)).
Abbreviation started_sent c := (s_started_sent (session c)).
Abbreviation playback c := (s_playback (session c)).
Abbreviation bytes_received c := (s_bytes_received (session c)).
Abbreviation buffered_output c := (s_buffered_output (session c)).
Abbreviation output_released c := (s_output_released (session c)).
Abbreviation output_paused c := (s_output_paused (session c)).
Abbreviation input_eof c := (s_input_eof (session c)).
Abbreviation eof_sent c := (s_eof_sent (session c)).
Abbreviation prefill_frames c := (s_prefill_frames (session c)).
Abbreviation buffer_limits c := (s_buffer_limits (session c)).
Abbreviation diagnostics c := (p_diagnostics (progress c)).
Abbreviation stage c := (p_stage (progress c)).
Abbreviation opcode c := (p_opcode (progress c)).
Abbreviation step_progress c := (p_step_progress (progress c)).
Abbreviation step_backpressure c := (p_step_backpressure (progress c)).

Section setters.
Context {W : Type}.
Implicit Types (c : eaf_lms_client_t W).
Definition put_control (v : eaf_tcp_t) c := LmsClient v (http c) (callbacks c) (server c) (tx_part c) (exchange c) (decode c) (session c) (progress c).
Definition put_http (v : eaf_tcp_t) c := LmsClient (control c) v (callbacks c) (server c) (tx_part c) (exchange c) (decode c) (session c) (progress c).
Definition put_callbacks (v : eaf_lms_callbacks_t W) c := LmsClient (control c) (http c) v (server c) (tx_part c) (exchange c) (decode c) (session c) (progress c).
Definition put_server (v : Z) c := LmsClient (control c) (http c) (callbacks c) v (tx_part c) (exchange c) (decode c) (session c) (progress c).
Definition put_tx_part (v : lms_tx_t) c := LmsClient (control c) (http c) (callbacks c) (server c) v (exchange c) (decode c) (session c) (progress c).
Definition put_exchange (v : lms_exchange_t) c := LmsClient (control c) (http c) (callbacks c) (server c) (tx_part c) v (decode c) (session c) (progress c).
Definition put_decode (v : lms_decode_t) c := LmsClient (control c) (http c) (callbacks c) (server c) (tx_part c) (exchange c) v (session c) (progress c).
Definition put_session (v : lms_session_t) c := LmsClient (control c) (http c) (callbacks c) (server c) (tx_part c) (exchange c) (decode c) v (progress c).
Definition put_progress (v : lms_progress_t) c := LmsClient (control c) (http c) (callbacks c) (server c) (tx_part c) (exchange c) (decode c) (session c) v.
Definition set_tx (v : list Z) c := put_tx_part (Tx v (tx_used c) (tx_sent c)) c.
Definition set_tx_used (v : Z) c := put_tx_part (Tx (tx c) v (tx_sent c)) c.
Definition set_tx_sent (v : Z) c := put_tx_part (Tx (tx c) (tx_used c) v) c.
Definition set_request (v : list Z) c := put_exchange (Exchange v (request_used c) (request_sent c) (header c) (header_used c) (headers_done c) (has_length c) (remaining c) (body_done c)) c.
Definition set_request_used (v : Z) c := put_exchange (Exchange (request c) v (request_sent c) (header c) (header_used c) (headers_done c) (has_length c) (remaining c) (body_done c)) c.
Definition set_request_sent (v : Z) c := put_exchange (Exchange (request c) (request_used c) v (header c) (header_used c) (headers_done c) (has_length c) (remaining c) (body_done c)) c.
Definition set_header (v : list Z) c := put_exchange (Exchange (request c) (request_used c) (request_sent c) v (header_used c) (headers_done c) (has_length c) (remaining c) (body_done c)) c.
Definition set_header_used (v : Z) c := put_exchange (Exchange (request c) (request_used c) (request_sent c) (header c) v (headers_done c) (has_length c) (remaining c) (body_done c)) c.
Definition set_headers_done (v : bool) c := put_exchange (Exchange (request c) (request_used c) (request_sent c) (header c) (header_used c) v (has_length c) (remaining c) (body_done c)) c.
Definition set_has_length (v : bool) c := put_exchange (Exchange (request c) (request_used c) (request_sent c) (header c) (header_used c) (headers_done c) v (remaining c) (body_done c)) c.
Definition set_remaining (v : Z) c := put_exchange (Exchange (request c) (request_used c) (request_sent c) (header c) (header_used c) (headers_done c) (has_length c) v (body_done c)) c.
Definition set_body_done (v : bool) c := put_exchange (Exchange (request c) (request_used c) (request_sent c) (header c) (header_used c) (headers_done c) (has_length c) (remaining c) v) c.
Definition set_tail (v : list Z) c := put_decode (Decode v (tail_used c) (pcm c) (pcm_count c) (pcm_sent c) (ingress c) (ingress_used c) (format c) (width c) (big_endian c)) c.
Definition set_tail_used (v : Z) c := put_decode (Decode (tail c) v (pcm c) (pcm_count c) (pcm_sent c) (ingress c) (ingress_used c) (format c) (width c) (big_endian c)) c.
Definition set_pcm (v : list Z) c := put_decode (Decode (tail c) (tail_used c) v (pcm_count c) (pcm_sent c) (ingress c) (ingress_used c) (format c) (width c) (big_endian c)) c.
Definition set_pcm_count (v : Z) c := put_decode (Decode (tail c) (tail_used c) (pcm c) v (pcm_sent c) (ingress c) (ingress_used c) (format c) (width c) (big_endian c)) c.
Definition set_pcm_sent (v : Z) c := put_decode (Decode (tail c) (tail_used c) (pcm c) (pcm_count c) v (ingress c) (ingress_used c) (format c) (width c) (big_endian c)) c.
Definition set_ingress (v : list Z) c := put_decode (Decode (tail c) (tail_used c) (pcm c) (pcm_count c) (pcm_sent c) v (ingress_used c) (format c) (width c) (big_endian c)) c.
Definition set_ingress_used (v : Z) c := put_decode (Decode (tail c) (tail_used c) (pcm c) (pcm_count c) (pcm_sent c) (ingress c) v (format c) (width c) (big_endian c)) c.
Definition set_format (v : eaf_format_t) c := put_decode (Decode (tail c) (tail_used c) (pcm c) (pcm_count c) (pcm_sent c) (ingress c) (ingress_used c) v (width c) (big_endian c)) c.
Definition set_width (v : Z) c := put_decode (Decode (tail c) (tail_used c) (pcm c) (pcm_count c) (pcm_sent c) (ingress c) (ingress_used c) (format c) v (big_endian c)) c.
Definition set_big_endian (v : bool) c := put_decode (Decode (tail c) (tail_used c) (pcm c) (pcm_count c) (pcm_sent c) (ingress c) (ingress_used c) (format c) (width c) v) c.
Definition set_streaming (v : bool) c := put_session (Session v (wait_cont c) (wait_start c) (ready_sent c) (started_sent c) (playback c) (bytes_received c) (buffered_output c) (output_released c) (output_paused c) (input_eof c) (eof_sent c) (prefill_frames c) (buffer_limits c)) c.
Definition set_wait_cont (v : bool) c := put_session (Session (streaming c) v (wait_start c) (ready_sent c) (started_sent c) (playback c) (bytes_received c) (buffered_output c) (output_released c) (output_paused c) (input_eof c) (eof_sent c) (prefill_frames c) (buffer_limits c)) c.
Definition set_wait_start (v : bool) c := put_session (Session (streaming c) (wait_cont c) v (ready_sent c) (started_sent c) (playback c) (bytes_received c) (buffered_output c) (output_released c) (output_paused c) (input_eof c) (eof_sent c) (prefill_frames c) (buffer_limits c)) c.
Definition set_ready_sent (v : bool) c := put_session (Session (streaming c) (wait_cont c) (wait_start c) v (started_sent c) (playback c) (bytes_received c) (buffered_output c) (output_released c) (output_paused c) (input_eof c) (eof_sent c) (prefill_frames c) (buffer_limits c)) c.
Definition set_started_sent (v : bool) c := put_session (Session (streaming c) (wait_cont c) (wait_start c) (ready_sent c) v (playback c) (bytes_received c) (buffered_output c) (output_released c) (output_paused c) (input_eof c) (eof_sent c) (prefill_frames c) (buffer_limits c)) c.
Definition set_playback (v : eaf_lms_playback_t) c := put_session (Session (streaming c) (wait_cont c) (wait_start c) (ready_sent c) (started_sent c) v (bytes_received c) (buffered_output c) (output_released c) (output_paused c) (input_eof c) (eof_sent c) (prefill_frames c) (buffer_limits c)) c.
Definition set_bytes_received (v : Z) c := put_session (Session (streaming c) (wait_cont c) (wait_start c) (ready_sent c) (started_sent c) (playback c) v (buffered_output c) (output_released c) (output_paused c) (input_eof c) (eof_sent c) (prefill_frames c) (buffer_limits c)) c.
Definition set_buffered_output (v : bool) c := put_session (Session (streaming c) (wait_cont c) (wait_start c) (ready_sent c) (started_sent c) (playback c) (bytes_received c) v (output_released c) (output_paused c) (input_eof c) (eof_sent c) (prefill_frames c) (buffer_limits c)) c.
Definition set_output_released (v : bool) c := put_session (Session (streaming c) (wait_cont c) (wait_start c) (ready_sent c) (started_sent c) (playback c) (bytes_received c) (buffered_output c) v (output_paused c) (input_eof c) (eof_sent c) (prefill_frames c) (buffer_limits c)) c.
Definition set_output_paused (v : bool) c := put_session (Session (streaming c) (wait_cont c) (wait_start c) (ready_sent c) (started_sent c) (playback c) (bytes_received c) (buffered_output c) (output_released c) v (input_eof c) (eof_sent c) (prefill_frames c) (buffer_limits c)) c.
Definition set_input_eof (v : bool) c := put_session (Session (streaming c) (wait_cont c) (wait_start c) (ready_sent c) (started_sent c) (playback c) (bytes_received c) (buffered_output c) (output_released c) (output_paused c) v (eof_sent c) (prefill_frames c) (buffer_limits c)) c.
Definition set_eof_sent (v : bool) c := put_session (Session (streaming c) (wait_cont c) (wait_start c) (ready_sent c) (started_sent c) (playback c) (bytes_received c) (buffered_output c) (output_released c) (output_paused c) (input_eof c) v (prefill_frames c) (buffer_limits c)) c.
Definition set_prefill_frames (v : Z) c := put_session (Session (streaming c) (wait_cont c) (wait_start c) (ready_sent c) (started_sent c) (playback c) (bytes_received c) (buffered_output c) (output_released c) (output_paused c) (input_eof c) (eof_sent c) v (buffer_limits c)) c.
Definition set_buffer_limits (v : eaf_lms_buffer_limits_t) c := put_session (Session (streaming c) (wait_cont c) (wait_start c) (ready_sent c) (started_sent c) (playback c) (bytes_received c) (buffered_output c) (output_released c) (output_paused c) (input_eof c) (eof_sent c) (prefill_frames c) v) c.
Definition set_diagnostics (v : eaf_lms_diagnostics_t) c := put_progress (Progress v (stage c) (opcode c) (step_progress c) (step_backpressure c)) c.
Definition set_stage (v : eaf_lms_stage_t) c := put_progress (Progress (diagnostics c) v (opcode c) (step_progress c) (step_backpressure c)) c.
Definition set_opcode (v : list Z) c := put_progress (Progress (diagnostics c) (stage c) v (step_progress c) (step_backpressure c)) c.
Definition set_step_progress (v : bool) c := put_progress (Progress (diagnostics c) (stage c) (opcode c) v (step_backpressure c)) c.
Definition set_step_backpressure (v : bool) c := put_progress (Progress (diagnostics c) (stage c) (opcode c) (step_progress c) v) c.
End setters.

Definition count_http (n : Z) (d : eaf_lms_diagnostics_t) : eaf_lms_diagnostics_t :=
  Diagnostics (u64 (http_bytes d + n)) (pcm_frames d) (recv_again d) (backpressure d) (budget_yields d) (first_error d)
    (error_stage d) (error_opcode d) (http_status d) (http_length_known d) (http_content_length d) (http_content_type d).
Definition count_pcm (n : Z) (d : eaf_lms_diagnostics_t) : eaf_lms_diagnostics_t :=
  Diagnostics (http_bytes d) (u64 (pcm_frames d + n)) (recv_again d) (backpressure d) (budget_yields d) (first_error d)
    (error_stage d) (error_opcode d) (http_status d) (http_length_known d) (http_content_length d) (http_content_type d).
Definition count_waits (again back yields : Z) (d : eaf_lms_diagnostics_t) : eaf_lms_diagnostics_t :=
  Diagnostics (http_bytes d) (pcm_frames d) (u32 (recv_again d + again)) (u32 (backpressure d + back)) (u32 (budget_yields d + yields))
    (first_error d) (error_stage d) (error_opcode d) (http_status d) (http_length_known d) (http_content_length d) (http_content_type d).
Definition note_error (rc : Z) (st : eaf_lms_stage_t) (op : list Z) (d : eaf_lms_diagnostics_t) : eaf_lms_diagnostics_t :=
  Diagnostics (http_bytes d) (pcm_frames d) (recv_again d) (backpressure d) (budget_yields d) rc st op
    (http_status d) (http_length_known d) (http_content_length d) (http_content_type d).
Definition note_http (status : Z) (known : bool) (len : Z) (ty : list Z) (d : eaf_lms_diagnostics_t) : eaf_lms_diagnostics_t :=
  Diagnostics (http_bytes d) (pcm_frames d) (recv_again d) (backpressure d) (budget_yields d) (first_error d)
    (error_stage d) (error_opcode d) status known len ty.
Definition diagnostics_zero : eaf_lms_diagnostics_t :=
  Diagnostics 0 0 0 0 0 0 EAF_LMS_STAGE_NONE [0; 0; 0; 0] 0 false 0 (replicate 32 0).

(** ** Buffer limits (lines 5-19) *)

Definition eaf_lms_buffer_limits (fmt : ptr eaf_format_t) (req : ptr eaf_lms_buffer_request_t) (capacity preferred : Z)
    (limits : ptr eaf_lms_buffer_limits_t) : ub (ptr eaf_lms_buffer_limits_t * Z) :=
  match fmt, req, limits with
  | Some f, Some r, Some _ =>
      if negb (eaf_format_valid fmt) || bool_decide (capacity = 0) || bool_decide (preferred = 0) || bool_decide (capacity < preferred)
         || bool_decide (sample_bytes r < 2) || bool_decide (4 < sample_bytes r)
      then Some (limits, EAF_INVALID)
      else
        let frame_bytes := u32 (sample_bytes r * num_channels f) in
        if decide (frame_bytes = 0) then None
        else
          let stream := u64 (stream_bytes r + frame_bytes - 1) / frame_bytes in
          let output := u64 (u64 (output_ms r * sample_rate f) + 999) / 1000 in
          let ready := if decide (output < stream) then stream else output in
          let ready := if decide (ready < preferred) then preferred else ready in
          Some (Some (BufferLimits capacity (if decide (capacity < ready) then capacity else u32 ready)
                        (bool_decide (capacity < ready))), EAF_OK)
  | _, _, _ => Some (limits, EAF_INVALID)
  end.

Section client.
Context {W : Type} `{NetHal W}.
Implicit Types (c : eaf_lms_client_t W) (w : W).

(** Call a step of an object on the object itself. *)
Definition with_ref_w {T} (f : ptr T -> W -> ub (ptr T * W * Z)) (x : T) (w : W) : ub (T * W * Z) :=
  '(p, w, rc) ← f (Some x) w; x ← p; Some (x, w, rc).

(** A call of an operation that may fail: go on only when it returned 0. *)
Definition check (r : ub (eaf_lms_client_t W * W * Z)) (k : eaf_lms_client_t W -> W -> ub (eaf_lms_client_t W * W * Z))
  : ub (eaf_lms_client_t W * W * Z) :=
  '(c, w, rc) ← r; if decide (rc <> 0) then Some (c, w, rc) else k c w.

Definition progress_if (b : bool) c : eaf_lms_client_t W := set_step_progress (step_progress c || b) c.

(** ** Reports (lines 20-60) *)

Definition record_error c (rc : Z) : ub (eaf_lms_client_t W) :=
  if bool_decide (rc <> 0) && bool_decide (first_error (diagnostics c) = 0) then
    let named := bool_decide (stage c = EAF_LMS_STAGE_COMMAND) || bool_decide (stage c = EAF_LMS_STAGE_HTTP_CONNECT)
                 || bool_decide (stage c = EAF_LMS_STAGE_OUTPUT_START) in
    op ← (if named : bool then memcpy (error_opcode (diagnostics c)) 0 (opcode c) 0 4 else Some (error_opcode (diagnostics c)));
    Some (set_diagnostics (note_error rc (stage c) op (diagnostics c)) c)
  else Some c.

(** The room left for a message of [n] bytes, computed in [size_t]. *)
Definition tx_room (used n : Z) : bool := bool_decide (n <= TX_BYTES - 8) && bool_decide (used <= TX_BYTES - 8 - n).

Definition enqueue c (op : list Z) (body : list Z) (n : Z) : ub (eaf_lms_client_t W * Z) :=
  c ← (if decide (tx_sent c <> 0)
       then moved ← ldn (tx c) (tx_sent c) (tx_used c - tx_sent c);
            t ← stn (tx c) 0 moved;
            Some (set_tx_sent 0 (set_tx_used (tx_used c - tx_sent c) (set_tx t c)))
       else Some c);
  if negb (tx_room (tx_used c) n) then Some (c, EAF_IO)
  else
    t ← memcpy (tx c) (tx_used c) op 0 4;
    t ← eaf_bytes_write_u32 t (tx_used c + 4) (u32 n);
    t ← (if decide (n <> 0) then memcpy t (tx_used c + 8) body 0 n else Some t);
    Some (set_tx_used (tx_used c + (8 + n)) (set_tx t c), EAF_OK).

(** The STAT body. *)
Definition status_body c (event : list Z) (timestamp jiffies : Z) : ub (list Z) :=
  b ← memcpy (replicate 53 0) 0 event 0 4;
  b ← eaf_bytes_write_u32 b 15 (u32 (Z.shiftr (bytes_received c) 32));
  b ← eaf_bytes_write_u32 b 19 (u32 (bytes_received c));
  b ← eaf_bytes_write_u32 b 25 jiffies;
  b ← eaf_bytes_write_u32 b 29 (buffer_bytes (playback c));
  b ← eaf_bytes_write_u32 b 33 (queued_bytes (playback c));
  b ← eaf_bytes_write_u32 b 37 (elapsed_ms (playback c) / 1000);
  b ← eaf_bytes_write_u32 b 43 (elapsed_ms (playback c));
  eaf_bytes_write_u32 b 47 timestamp.

Definition status c w (event : string) (timestamp : Z) : ub (eaf_lms_client_t W * W * Z) :=
  let '(w, us) := hal_monotonic_time_us w in
  b ← status_body c (chars event) timestamp (u32 (us / 1000));
  '(c, rc) ← enqueue c (chars "STAT") b 53;
  Some (c, w, rc).

Definition playback_zero : eaf_lms_playback_t := Playback 0 0 0 false.
Definition limits_zero : eaf_lms_buffer_limits_t := BufferLimits 0 0 false.

(** ** Stopping (lines 61-79) *)

Definition stop_stream c w : ub (eaf_lms_client_t W * W) :=
  let '(t, w) := hal_tcp_close (http c) w in
  let c := put_http t c in
  w ← (if streaming c then f ← stop (callbacks c); Some (f w) else Some w);
  let c := set_streaming false c in
  let c := set_output_paused false (set_output_released false (set_buffered_output false c)) in
  let c := set_eof_sent false (set_input_eof false c) in
  let c := set_prefill_frames 0 c in
  let c := set_buffer_limits limits_zero c in
  let c := set_pcm_sent 0 (set_pcm_count 0 c) in
  let c := set_body_done false c in
  let c := set_started_sent false (set_ready_sent false (set_wait_start false (set_wait_cont false c))) in
  Some (set_bytes_received 0 (set_playback playback_zero c), w).

(** ** Server commands (lines 80-203) *)

(** Lines 91-94: one gain, Q16.16 to Q1.31 without amplification. *)
Definition gain (p : list Z) (ch : Z) : ub Z :=
  let v := 14 + ch * 4 in
  v0 ← ld p v; v1 ← ld p (v + 1); v2 ← ld p (v + 2); v3 ← ld p (v + 3); adjust ← ld p 12;
  let raw := Z.lor (Z.lor (Z.lor (u32 (Z.shiftl v0 24)) (Z.shiftl v1 16)) (Z.shiftl v2 8)) v3 in
  Some (if decide (adjust = 0 \/ 65536 <= raw) then INT32_MAX else s32 (u32 (Z.shiftl raw 15))).

Definition command_audg c w (p : list Z) (n : Z) : ub (eaf_lms_client_t W * W * Z) :=
  if decide (n < 22) then Some (c, w, EAF_INVALID)
  else
    g0 ← gain p 0; g1 ← gain p 1;
    match volume (callbacks c) with
    | Some f => let '(w, rc) := f g0 g1 w in Some (c, w, rc)
    | None => Some (c, w, EAF_OK)
    end.

Definition command_cont c w (p : list Z) (n : Z) : ub (eaf_lms_client_t W * W * Z) :=
  if decide (n < 9) then Some (c, w, EAF_INVALID)
  else if negb (streaming c) || negb (wait_cont c) then Some (c, w, EAF_OK)
  else
    meta ← ldn p 4 5;
    if existsb (fun b => bool_decide (b <> 0)) meta then Some (c, w, EAF_UNSUPPORTED)
    else Some (set_wait_cont false c, w, EAF_OK).

Definition command_unpause c w (s : eaf_lms_stream_t) : ub (eaf_lms_client_t W * W * Z) :=
  if decide (ls_replay_gain s <> 0) then Some (c, w, EAF_UNSUPPORTED)
  else if negb (streaming c) || wait_cont c then Some (c, w, EAF_STATE)
  else
    check (if wait_start c then
             if negb (ready_sent c) then Some (c, w, EAF_STATE) else Some (set_wait_start false c, w, EAF_OK)
           else match pause (callbacks c) with
                | None => Some (c, w, EAF_UNSUPPORTED)
                | Some f => let '(w, rc) := f false w in Some (c, w, rc)
                end)
      (fun c w => status (set_output_paused false c) w "STMr" 0).

Definition command_pause c w (s : eaf_lms_stream_t) : ub (eaf_lms_client_t W * W * Z) :=
  match pause (callbacks c) with
  | Some f =>
      if decide (ls_replay_gain s <> 0) then Some (c, w, EAF_UNSUPPORTED)
      else if negb (streaming c) then Some (c, w, EAF_STATE)
      else
        let '(w, rc) := f true w in
        if decide (rc = 0) then status (set_output_paused true c) w "STMp" 0 else Some (c, w, rc)
  | None => Some (c, w, EAF_UNSUPPORTED)
  end.

Definition rates : list Z := [11025; 22050; 32000; 44100; 48000; 8000; 12000; 16000; 24000; 96000; 88200].

(** Lines 157-163 *)
Definition stream_supported (s : eaf_lms_stream_t) : ub bool :=
  if bool_decide (Z.land (ls_flags s) 32 <> 0) || bool_decide (ls_codec s <> 112) || bool_decide (ls_autostart s < 48)
     || bool_decide (51 < ls_autostart s) || bool_decide (ls_sample_size s < 49) || bool_decide (51 < ls_sample_size s)
     || bool_decide (ls_sample_rate s < 48) || bool_decide (zlen rates <= ls_sample_rate s - 48)
     || (bool_decide (ls_channels s <> 49) && bool_decide (ls_channels s <> 50))
     || (bool_decide (ls_endianness s <> 48) && bool_decide (ls_endianness s <> 49))
     || bool_decide (ls_request_length s < 4) || bool_decide (EAF_LMS_MAX_PACKET < ls_request_length s)
  then Some false
  else memeq (ls_request s) (ls_request_length s - 4) [13; 10; 13; 10].

(** Lines 172-186: hand the stream to the output. *)
Definition start_output c w (s : eaf_lms_stream_t) : ub (eaf_lms_client_t W * W * Z) :=
  let c := set_stage EAF_LMS_STAGE_OUTPUT_START c in
  let c := set_buffered_output (bool_decide (is_Some (start_buffered (callbacks c)))) c in
  match start_buffered (callbacks c) with
  | Some f =>
      let req := BufferRequest (u32 (ls_threshold_kib s * 1024)) (u32 (ls_output_threshold_ds s * 100)) (u8 (width c)) in
      let '(limits, w, rc) := f (format c) req (buffer_limits c) w in
      let c := set_buffer_limits limits c in
      if bool_decide (rc = 0) && (bool_decide (ready_frames limits = 0) || bool_decide (capacity_frames limits < ready_frames limits))
      then g ← stop (callbacks c); Some (c, g w, EAF_INVALID)
      else Some (c, w, rc)
  | None => f ← start (callbacks c); let '(w, rc) := f (format c) w in Some (c, w, rc)
  end.

(** Lines 191-202 *)
Definition begin_stream c w (s : eaf_lms_stream_t) : ub (eaf_lms_client_t W * W * Z) :=
  let c := set_has_length false (set_headers_done false (set_header_used 0 (set_streaming true c))) in
  let c := set_wait_cont (bool_decide (50 <= ls_autostart s)) c in
  let c := set_wait_start (bool_decide (ls_autostart s = 48) || bool_decide (ls_autostart s = 50)) c in
  let c := set_bytes_received 0 (set_tail_used 0 c) in
  let c := set_request_sent 0 (set_request_used (ls_request_length s) c) in
  r ← memcpy (request c) 0 (ls_request s) 0 (ls_request_length s);
  status (set_request r c) w "STMc" 0.

(** Lines 154-202 *)
Definition command_start c w (s : eaf_lms_stream_t) : ub (eaf_lms_client_t W * W * Z) :=
  '(c, w) ← stop_stream c w;
  ok ← stream_supported s;
  if negb ok then Some (c, w, EAF_UNSUPPORTED)
  else
    let c := set_big_endian (bool_decide (ls_endianness s = 48)) (set_width (ls_sample_size s - 48 + 1) c) in
    rate ← ld rates (ls_sample_rate s - 48);
    let c := set_format (Format rate (u8 (ls_channels s - 48)) (if decide (ls_channels s = 49) then 8 else 3)) c in
    let c := set_stage EAF_LMS_STAGE_HTTP_CONNECT c in
    let '(t, w, rc) := hal_tcp_connect (http c) (if decide (ls_server_ipv4 s <> 0) then ls_server_ipv4 s else server c) (ls_server_port s) 500 w in
    let c := put_http t c in
    if decide (rc <> 0) then Some (c, w, rc)
    else
      '(c, w, rc) ← start_output c w s;
      if decide (rc <> 0) then let '(t, w) := hal_tcp_close (http c) w in Some (put_http t c, w, rc)
      else begin_stream c w s.

(** Lines 112-202 *)
Definition command_strm c w (p : list Z) (n : Z) : ub (eaf_lms_client_t W * W * Z) :=
  '(s, rc) ← with_ref (eaf_lms_parse_stream (Some p) n) (LmsStream 0 0 0 0 0 0 0 0 0 0 0 0 0 [] 0);
  if decide (rc <> 0) then Some (c, w, rc)
  else if decide (ls_command s = 116) then status c w "STMt" (ls_replay_gain s)
  else if decide (ls_command s = 113 \/ ls_command s = 102) then
    '(c, w) ← stop_stream c w; status c w "STMf" 0
  else if decide (ls_command s = 117) then command_unpause c w s
  else if decide (ls_command s = 112) then command_pause c w s
  else if decide (ls_command s <> 115) then Some (c, w, EAF_UNSUPPORTED)
  else command_start c w s.

Definition command c w (p : list Z) (n : Z) : ub (eaf_lms_client_t W * W * Z) :=
  let c := set_stage EAF_LMS_STAGE_COMMAND c in
  op ← memcpy (opcode c) 0 p 0 4;
  let c := set_opcode op c in
  audg ← memeq p 0 (chars "audg");
  if audg : bool then command_audg c w p n
  else
    cont ← memeq p 0 (chars "cont");
    if cont : bool then command_cont c w p n
    else
      strm ← memeq p 0 (chars "strm");
      if negb strm then Some (c, w, EAF_OK) else command_strm c w p n.

(** ** The object: the client and the parser whose context it is *)

(** Between two calls the parser's context is the client; a packet that makes the
    client fail without a defined result leaves [None] there. *)
Record lms_object := LmsObject { self : eaf_lms_client_t W; parser : eaf_lms_parser_t (ub (eaf_lms_client_t W * W)) }.

Definition on_command (x : ub (eaf_lms_client_t W * W)) (p : list Z) (n : Z) : ub (eaf_lms_client_t W * W) * Z :=
  match x with
  | Some (c, w) => match command c w p n with Some (c, w, rc) => (Some (c, w), rc) | None => (None, EAF_INVALID) end
  | None => (None, EAF_INVALID)
  end.

Definition client_zero (cb : eaf_lms_callbacks_t W) : eaf_lms_client_t W :=
  LmsClient (Tcp 0 false) (Tcp 0 false) cb 0
    (Tx (replicate (Z.to_nat TX_BYTES) 0) 0 0)
    (Exchange (replicate (Z.to_nat EAF_LMS_MAX_PACKET) 0) 0 0 (replicate (Z.to_nat (EAF_LMS_MAX_PACKET + 1)) 0) 0 false false 0 false)
    (Decode (replicate 8 0) 0 (replicate (Z.to_nat (EAF_LMS_PCM_FRAMES * 2)) 0) 0 0 (replicate (Z.to_nat EAF_LMS_INGRESS_BYTES) 0) 0
       (Format 0 0 0) 0 false)
    (Session false false false false false playback_zero 0 false false false false false 0 limits_zero)
    (Progress diagnostics_zero EAF_LMS_STAGE_NONE [0; 0; 0; 0] false false).

Definition has {A} (f : option A) : bool := match f with Some _ => true | None => false end.

Definition eaf_lms_client_init (o : ptr lms_object) (cb : ptr (eaf_lms_callbacks_t W)) : ub (ptr lms_object * Z) :=
  match o, cb with
  | Some _, Some cb =>
      if (negb (has (start cb)) && negb (has (start_buffered cb))) || negb (has (cb_pcm cb)) || negb (has (stop cb)) || negb (has (eof cb))
         || xorb (has (start_buffered cb)) (has (release cb))
      then Some (o, EAF_INVALID)
      else let c := client_zero cb in Some (Some (LmsObject c (eaf_lms_parser_init (Some on_command) None)), EAF_OK)
  | _, _ => Some (o, EAF_INVALID)
  end.

Definition capabilities : list Z := chars "Model=eaf,MaxSampleRate=96000,pcm" ++ [0].

Definition eaf_lms_client_connect (o : ptr lms_object) w (server_ip port : Z) (mac : ptr (list Z)) : ub (ptr lms_object * W * Z) :=
  match o, mac with
  | Some ob, Some _ =>
      let c := self ob in
      if (negb (has (start (callbacks c))) && negb (has (start_buffered (callbacks c)))) || tcp_open (control c)
      then Some (o, w, EAF_INVALID)
      else
        let c := set_stage EAF_LMS_STAGE_CONNECT (set_diagnostics diagnostics_zero c) in
        let '(t, w, rc) := hal_tcp_connect (control c) server_ip port 500 w in
        let c := put_control t c in
        if decide (rc <> 0) then c ← record_error c rc; Some (Some (LmsObject c (parser ob)), w, rc)
        else
          let c := set_tx_sent 0 (put_server server_ip c) in
          '(d, n, rc) ← eaf_lms_helo (Some (tx c)) TX_BYTES mac (Some capabilities) (Some (tx_used c));
          d ← d; n ← n;
          let c := set_tx_used n (set_tx d c) in
          let '(c, w) := if decide (rc <> 0) then let '(t, w) := hal_tcp_close (control c) w in (put_control t c, w) else (c, w) in
          Some (Some (LmsObject c (eaf_lms_parser_init (Some on_command) None)), w, rc)
  | _, _ => Some (o, w, EAF_INVALID)
  end.

(** ** The HTTP response (lines 231-305) *)

Definition lower (ch : Z) : Z := if decide (65 <= ch <= 90) then ch + 32 else ch.

(** [key(h + p, n, name)] *)
Fixpoint key_loop (h : list Z) (p : Z) (name : list Z) : ub bool :=
  match name with
  | [] => Some true
  | x :: name => ch ← ld h p; if decide (lower ch <> x) then Some false else key_loop h (p + 1) name
  end.
Definition key (h : list Z) (p n : Z) (name : string) : ub bool :=
  if decide (n < zlen (chars name)) then Some false else key_loop h p (chars name).

(** [strstr(h + p, CR LF)] *)
Fixpoint strstr_crlf (fuel : nat) (h : list Z) (p : Z) : ub (option Z) :=
  a ← ld h p;
  if decide (a = 0) then Some None
  else
    b ← (if decide (a = 13) then ld h (p + 1) else Some 0);
    if decide (a = 13 /\ b = 10) then Some (Some p)
    else match fuel with O => None | S fuel => strstr_crlf fuel h (p + 1) end.

(** [while (v < end && ( *v == ' ' || *v == TAB)) ++v;] *)
Fixpoint skip_blank (fuel : nat) (h : list Z) (v e : Z) : ub Z :=
  if decide (v < e) then
    x ← ld h v;
    if decide (x = 32 \/ x = 9) then match fuel with O => None | S fuel => skip_blank fuel h (v + 1) e end else Some v
  else Some v.
Definition blanks (h : list Z) (v e : Z) : ub Z := skip_blank (Z.to_nat (e - v)) h v e.

(** Lines 282-288; the value is [None] when it leaves [uint64_t]. *)
Fixpoint length_loop (fuel : nat) (h : list Z) (v e value : Z) (digit : bool) : ub (option (Z * Z * bool)) :=
  if decide (v < e) then
    x ← ld h v;
    if decide (48 <= x <= 57) then
      let d := x - 48 in
      if decide ((UINT64_MAX - d) / 10 < value) then Some None
      else match fuel with O => None | S fuel => length_loop fuel h (v + 1) e (value * 10 + d) true end
    else Some (Some (v, value, digit))
  else Some (Some (v, value, digit)).

(** Lines 265-272: the content type, for the reports. *)
Definition content_type c (h : list Z) (p e : Z) : ub (eaf_lms_client_t W) :=
  v ← blanks h (p + 13) e;
  let n := if decide (32 <= e - v) then 31 else e - v in
  let d := diagnostics c in
  ty ← memcpy (http_content_type d) 0 h v n;
  ty ← st ty n 0;
  Some (set_diagnostics (note_http (http_status d) (http_length_known d) (http_content_length d) ty d) c).

(** Lines 275-296 *)
Definition content_length c (h : list Z) (p e : Z) : ub (eaf_lms_client_t W * Z) :=
  if has_length c then Some (c, EAF_INVALID)
  else
    v ← blanks h (p + 15) e;
    r ← length_loop (Z.to_nat (e - v)) h v e 0 false;
    match r with
    | None => Some (c, EAF_INVALID)
    | Some (v, value, digit) =>
        v ← blanks h v e;
        if negb digit || bool_decide (v <> e) then Some (c, EAF_INVALID)
        else
          let d := diagnostics c in
          let c := set_has_length true (set_remaining value c) in
          Some (set_diagnostics (note_http (http_status d) true (if decide (UINT32_MAX < value) then UINT32_MAX else value)
                                   (http_content_type d) d) c, EAF_OK)
    end.

(** One header line, [h] from [p] to [e]. *)
Definition header_line c (h : list Z) (p e : Z) : ub (eaf_lms_client_t W * Z) :=
  let len := e - p in
  te ← key h p len "transfer-encoding:"; ce ← key h p len "content-encoding:"; im ← key h p len "icy-metaint:";
  if te || ce || im then Some (c, EAF_UNSUPPORTED)
  else
    ct ← key h p len "content-type:";
    c ← (if ct : bool then content_type c h p e else Some c);
    cl ← key h p len "content-length:";
    if cl : bool then content_length c h p e else Some (c, EAF_OK).

(** Lines 256-299 *)
Fixpoint header_loop (fuel : nat) c (h : list Z) (p : Z) : ub (eaf_lms_client_t W * Z) :=
  x ← ld h p;
  blank ← (if decide (x <> 0) then memeq h p [13; 10] else Some true);
  if blank : bool then Some (c, EAF_OK)
  else
    e ← strstr_crlf (length h) h p;
    match e with
    | None => Some (c, EAF_INVALID)
    | Some e =>
        '(c, rc) ← header_line c h p e;
        if decide (rc <> 0) then Some (c, rc)
        else match fuel with O => None | S fuel => header_loop fuel c h (e + 2) end
    end.

Definition headers c : ub (eaf_lms_client_t W * Z) :=
  let h := header c in
  ok ← (if decide (header_used c < 12) then Some false
        else v0 ← memeq h 0 (chars "HTTP/1.0 200 "); v1 ← (if v0 : bool then Some true else memeq h 0 (chars "HTTP/1.1 200 ")); Some v1);
  if negb ok then Some (c, EAF_IO)
  else
    a ← ld h 9; b ← ld h 10; k ← ld h 11;
    let d := diagnostics c in
    let status := u16 (u32 (u32 ((a - 48) * 100) + u32 ((b - 48) * 10) + (k - 48))) in
    let c := set_diagnostics (note_http status (http_length_known d) (http_content_length d) (http_content_type d) d) c in
    p ← strstr_crlf (length h) h 0;
    match p with
    | None => Some (c, EAF_INVALID)
    | Some p =>
        '(c, rc) ← header_loop (length h) c h (p + 2);
        if decide (rc <> 0) then Some (c, rc)
        else
          let c := set_step_progress true (set_headers_done true c) in
          let c := if has_length c && bool_decide (remaining c = 0) then set_body_done true c else c in
          enqueue c (chars "RESP") (header c) (header_used c)
    end.

(** ** The body: ring, decoder, output (lines 306-377) *)

Definition ingress_fill c (p : list Z) (n : Z) : ub (eaf_lms_client_t W * Z) :=
  if decide (n = 0) then Some (c, EAF_OK)
  else if decide (EAF_LMS_INGRESS_BYTES - ingress_used c < n) then Some (c, EAF_INVALID)
  else if has_length c && bool_decide (remaining c < n) then Some (c, EAF_INVALID)
  else
    let c := if has_length c
             then let c := set_remaining (remaining c - n) c in set_body_done (bool_decide (remaining c = 0)) c
             else c in
    let c := set_bytes_received (u64 (bytes_received c + n)) c in
    r ← memcpy (ingress c) (ingress_used c) p 0 n;
    Some (set_ingress_used (ingress_used c + n) (set_ingress r c), EAF_OK).

(** Lines 334-338: the bytes of channel [ch] of the frame in [tail]. *)
Definition raw_value (big : bool) (width ch : Z) (tail : list Z) : ub Z :=
  for_to width (fun b raw =>
    let byte := if big then b else width - b - 1 in
    x ← ld tail (ch * width + byte); Some (Z.lor (u32 (Z.shiftl raw 8)) x)) 0.

(** Lines 339-344: its Q1.31 sample. *)
Definition lms_sample (raw width : Z) : Z :=
  let bits := width * 8 in
  let sample := if decide (Z.land raw (u32 (Z.shiftl 1 (bits - 1))) <> 0) then raw - Z.shiftl 1 bits else raw in
  s32 (sample * Z.shiftl 1 (32 - bits)).

(** Lines 333-345: one frame into the chunk. *)
Definition decode_frame (d : lms_decode_t) : ub (list Z) :=
  for_to (num_channels (d_format d)) (fun ch pcm =>
    raw ← raw_value (d_big_endian d) (d_width d) ch (d_tail d);
    st pcm (d_pcm_count d * num_channels (d_format d) + ch) (lms_sample raw (d_width d))) (d_pcm d).

Definition put_tail (t : list Z) (u : Z) (d : lms_decode_t) : lms_decode_t :=
  Decode t u (d_pcm d) (d_pcm_count d) (d_pcm_sent d) (d_ingress d) (d_ingress_used d) (d_format d) (d_width d) (d_big_endian d).
Definition put_pcm (p : list Z) (n : Z) (d : lms_decode_t) : lms_decode_t :=
  Decode (d_tail d) (d_tail_used d) p n (d_pcm_sent d) (d_ingress d) (d_ingress_used d) (d_format d) (d_width d) (d_big_endian d).
Definition put_ingress (r : list Z) (u : Z) (d : lms_decode_t) : lms_decode_t :=
  Decode (d_tail d) (d_tail_used d) (d_pcm d) (d_pcm_count d) (d_pcm_sent d) r u (d_format d) (d_width d) (d_big_endian d).

(** Lines 330-347: one byte from the ring to the frame in progress. *)
Definition decode_byte (frame_bytes consumed : Z) (d : lms_decode_t) : ub lms_decode_t :=
  x ← ld (d_ingress d) consumed;
  t ← st (d_tail d) (d_tail_used d) x;
  let d := put_tail t (d_tail_used d + 1) d in
  if decide (d_tail_used d <> frame_bytes) then Some d
  else p ← decode_frame d; Some (put_tail (d_tail d) 0 (put_pcm p (u32 (d_pcm_count d + 1)) d)).

Fixpoint decode_loop (fuel : nat) (frame_bytes consumed : Z) (d : lms_decode_t) : ub (lms_decode_t * Z) :=
  if decide (d_pcm_count d < EAF_LMS_PCM_FRAMES /\ consumed < d_ingress_used d) then
    match fuel with
    | O => None
    | S fuel => d ← decode_byte frame_bytes consumed d; decode_loop fuel frame_bytes (consumed + 1) d
    end
  else Some (d, consumed).

Definition decode_run (d : lms_decode_t) : ub lms_decode_t :=
  '(d, consumed) ← decode_loop (Z.to_nat (d_ingress_used d)) (d_width d * num_channels (d_format d)) 0 d;
  if decide (consumed <> 0) then
    rest ← ldn (d_ingress d) consumed (d_ingress_used d - consumed);
    r ← stn (d_ingress d) 0 rest;
    Some (put_ingress r (d_ingress_used d - consumed) d)
  else Some d.

Definition ingress_decode c : ub (eaf_lms_client_t W * Z) := d ← decode_run (decode c); Some (put_decode d c, EAF_OK).

Definition flush_pcm c w : ub (eaf_lms_client_t W * W * Z) :=
  if decide (pcm_count c <= pcm_sent c) then Some (c, w, EAF_OK)
  else
    let left := pcm_count c - pcm_sent c in
    let c := set_stage EAF_LMS_STAGE_PCM c in
    f ← cb_pcm (callbacks c);
    frames ← ldn (pcm c) (pcm_sent c * num_channels (format c)) (left * num_channels (format c));
    let '(w, wrote) := f frames left w in
    if decide (left < wrote) then Some (c, w, EAF_INVALID)
    else
      let c := set_pcm_sent (pcm_sent c + wrote) c in
      let c := set_diagnostics (count_pcm wrote (diagnostics c)) c in
      let held := buffered_output c && negb (output_released c) in
      if held && bool_decide (u32 (capacity_frames (buffer_limits c) - prefill_frames c) < wrote) then Some (c, w, EAF_INVALID)
      else
        let c := if held then set_prefill_frames (u32 (prefill_frames c + wrote)) c else c in
        let c := progress_if (bool_decide (wrote <> 0)) c in
        let c := if decide (wrote < left)
                 then set_step_backpressure true (set_diagnostics (count_waits 0 1 0 (diagnostics c)) c) else c in
        Some (c, w, EAF_OK).

(** ** Readiness and release (lines 378-407) *)

Definition service_ready c w : ub (eaf_lms_client_t W * W * Z) :=
  if wait_start c && negb (ready_sent c)
  then check (status c w "STMl" 0) (fun c w => Some (set_step_progress true (set_ready_sent true c), w, EAF_OK))
  else Some (c, w, EAF_OK).

Definition service_release c w : ub (eaf_lms_client_t W * W * Z) :=
  if negb (wait_start c) && negb (output_paused c) && negb (output_released c) then
    let c := set_stage EAF_LMS_STAGE_OUTPUT_START c in
    f ← release (callbacks c);
    let '(w, rc) := f w in
    if decide (rc <> 0) then Some (c, w, rc) else Some (set_step_progress true (set_output_released true c), w, EAF_OK)
  else Some (c, w, EAF_OK).

Definition service_eof c w : ub (eaf_lms_client_t W * W * Z) :=
  if input_eof c && output_released c && negb (eof_sent c)
  then check (status c w "STMd" 0) (fun c w => Some (set_step_progress true (set_eof_sent true c), w, EAF_OK))
  else Some (c, w, EAF_OK).

Definition service_buffered c w : ub (eaf_lms_client_t W * W * Z) :=
  if negb (buffered_output c) || wait_cont c
     || (bool_decide (prefill_frames c < ready_frames (buffer_limits c)) && negb (input_eof c))
  then Some (c, w, EAF_OK)
  else check (service_ready c w) (fun c w => check (service_release c w) service_eof).

(** ** One round of the HTTP side (lines 408-510) *)

(** Lines 418-428: a legacy output has not been started; true: return now. *)
Definition hold_legacy c w : ub (eaf_lms_client_t W * W * Z * bool) :=
  if negb (buffered_output c) && headers_done c && wait_start c
     && (bool_decide (pcm_count c <> 0) || bool_decide (ingress_used c <> 0) || body_done c)
  then '(c, w, rc) ← service_ready c w; Some (c, w, rc, true)
  else Some (c, w, EAF_OK, false).

(** Lines 430-445 *)
Definition pump_drain c w : ub (eaf_lms_client_t W * W * Z) :=
  check (flush_pcm c w) (fun c w =>
    if decide (pcm_sent c = pcm_count c) then
      let c := set_pcm_sent 0 (set_pcm_count 0 c) in
      '(c, rc) ← ingress_decode c;
      if decide (rc <> 0) then Some (c, w, rc)
      else if decide (pcm_count c <> 0) then flush_pcm (set_step_progress true c) w
      else Some (c, w, EAF_OK)
    else Some (c, w, EAF_OK)).

(** Lines 447-455 *)
Definition pump_complete c w : ub (eaf_lms_client_t W * W * Z) :=
  if decide (tail_used c <> 0) then Some (c, w, EAF_INVALID)
  else
    let c := set_step_progress true c in
    f ← eof (callbacks c);
    let w := f w in
    let c := set_input_eof true c in
    let '(t, w) := hal_tcp_close (http c) w in
    let c := put_http t c in
    if buffered_output c then service_buffered c w else status c w "STMd" 0.

(** Lines 460-472 *)
Definition pump_request c w : ub (eaf_lms_client_t W * W * Z) :=
  let c := set_stage EAF_LMS_STAGE_HTTP_SEND c in
  data ← ldn (request c) (request_sent c) (request_used c - request_sent c);
  let '(t, w, n, rc) := hal_tcp_send (http c) data w in
  let c := put_http t c in
  if decide (rc = EAF_AGAIN) then Some (c, w, EAF_OK)
  else if decide (rc <> 0) then Some (c, w, rc)
  else Some (progress_if (bool_decide (n <> 0)) (set_request_sent (request_sent c + n) c), w, EAF_OK).

(** Lines 495-506: one received byte of the header. *)
Definition header_byte c (ch : Z) : ub (eaf_lms_client_t W * Z) :=
  if decide (header_used c = EAF_LMS_MAX_PACKET) then Some (c, EAF_INVALID)
  else if decide (ch = 0) then Some (c, EAF_INVALID)
  else
    h ← st (header c) (header_used c) ch;
    h ← st h (header_used c + 1) 0;
    let c := set_header_used (header_used c + 1) (set_header h c) in
    blank ← (if decide (4 <= header_used c) then memeq (header c) (header_used c - 4) [13; 10; 13; 10] else Some false);
    if blank : bool then headers c else Some (c, EAF_OK).

(** The loop over them; the result also says how many bytes it took. *)
Fixpoint header_bytes c (data : list Z) (i : Z) : ub (eaf_lms_client_t W * Z * Z) :=
  match data with
  | ch :: data =>
      if headers_done c then Some (c, i, EAF_OK)
      else
        '(c, rc) ← header_byte c ch;
        if decide (rc <> 0) then Some (c, i + 1, rc) else header_bytes c data (i + 1)
  | [] => Some (c, i, EAF_OK)
  end.

(** Lines 473-509 *)
Definition pump_receive c w : ub (eaf_lms_client_t W * W * Z) :=
  let space := EAF_LMS_INGRESS_BYTES - ingress_used c in
  let want := if decide (space < RX_BYTES) then space else RX_BYTES in
  let c := set_stage EAF_LMS_STAGE_HTTP_RECV c in
  let '(t, w, data, rc) := hal_tcp_recv (http c) want w in
  let c := put_http t c in
  if decide (rc = EAF_AGAIN) then Some (set_diagnostics (count_waits 1 0 0 (diagnostics c)) c, w, EAF_OK)
  else if decide (rc = EAF_EOF) then
    if negb (headers_done c) || (has_length c && bool_decide (remaining c <> 0)) then Some (c, w, EAF_IO)
    else Some (set_step_progress true (set_body_done true c), w, EAF_OK)
  else if decide (rc <> 0) then Some (c, w, rc)
  else
    let n := zlen data in
    let c := set_diagnostics (count_http n (diagnostics c)) c in
    let c := progress_if (bool_decide (n <> 0)) c in
    let c := set_stage EAF_LMS_STAGE_HEADERS c in
    '(c, i, rc) ← header_bytes c data 0;
    if decide (rc <> 0) then Some (c, w, rc)
    else
      let c := set_stage EAF_LMS_STAGE_DECODE c in
      '(c, rc) ← ingress_fill c (drop (Z.to_nat i) data) (n - i);
      Some (c, w, rc).

(** Lines 430-509 *)
Definition pump_open c w : ub (eaf_lms_client_t W * W * Z) :=
  check (pump_drain c w) (fun c w =>
    if body_done c && bool_decide (ingress_used c = 0) && bool_decide (pcm_sent c = pcm_count c) then pump_complete c w
    else if body_done c || bool_decide (EAF_LMS_INGRESS_BYTES <= ingress_used c) then Some (c, w, EAF_OK)
    else if decide (request_sent c < request_used c) then pump_request c w
    else pump_receive c w).

Definition pump_http c w : ub (eaf_lms_client_t W * W * Z) :=
  if negb (streaming c) then Some (c, w, EAF_OK)
  else
    check (service_buffered c w) (fun c w =>
      if negb (tcp_open (http c)) then Some (c, w, EAF_OK)
      else if headers_done c && wait_cont c then Some (c, w, EAF_OK)
      else
        '(c, w, rc, hold) ← hold_legacy c w;
        if hold : bool then Some (c, w, rc) else pump_open c w).

(** ** Steps (lines 511-592) *)

Definition eaf_lms_client_close c w : ub (eaf_lms_client_t W * W) :=
  '(c, w) ← stop_stream c w;
  let '(t, w) := hal_tcp_close (control c) w in
  Some (set_tx_sent 0 (set_tx_used 0 (put_control t c)), w).

(** Lines 520-529 *)
Definition step_send c w : ub (eaf_lms_client_t W * W * Z) :=
  if decide (tx_sent c < tx_used c) then
    let c := set_stage EAF_LMS_STAGE_CONTROL_SEND c in
    data ← ldn (tx c) (tx_sent c) (tx_used c - tx_sent c);
    let '(t, w, n, rc) := hal_tcp_send (control c) data w in
    let c := put_control t c in
    let rc := if decide (rc = EAF_AGAIN) then 0 else rc in
    if decide (rc = 0) then Some (progress_if (bool_decide (n <> 0)) (set_tx_sent (tx_sent c + n) c), w, rc)
    else Some (c, w, rc)
  else Some (c, w, EAF_OK).

(** Lines 530-540: the parser runs on the client, which its packets change. *)
Definition step_receive (o : lms_object) w : ub (lms_object * W * Z) :=
  let c := set_stage EAF_LMS_STAGE_CONTROL_RECV (self o) in
  let '(t, w, incoming, rc) := hal_tcp_recv (control c) 256 w in
  let c := put_control t c in
  if decide (rc = EAF_AGAIN) then Some (LmsObject c (parser o), w, EAF_OK)
  else if decide (rc <> 0) then Some (LmsObject c (parser o), w, rc)
  else
    let n := zlen incoming in
    let c := progress_if (bool_decide (n <> 0)) c in
    let p := parser o in
    let p := LmsParser (packet p) (prefix p) (prefix_used p) (used p) (expected p) (failed p) (on_packet p) (Some (c, w)) in
    '(p, rc) ← with_ref (fun p => eaf_lms_feed p (Some incoming) n) p;
    '(c, w) ← ctx p;
    Some (LmsObject c p, w, rc).

Definition eaf_lms_client_step (o : ptr lms_object) w : ub (ptr lms_object * W * Z) :=
  match o with
  | None => Some (o, w, EAF_STATE)
  | Some o =>
      let c := set_step_backpressure false (set_step_progress false (self o)) in
      if negb (tcp_open (control c)) then Some (Some (LmsObject c (parser o)), w, EAF_STATE)
      else
        '(c, w, rc) ← step_send c w;
        '(o, w, rc) ← (if decide (rc = 0) then step_receive (LmsObject c (parser o)) w else Some (LmsObject c (parser o), w, rc));
        '(c, w, rc) ← (if decide (rc = 0) then pump_http (self o) w else Some (self o, w, rc));
        if decide (rc <> 0) then
          c ← record_error c rc;
          '(c, w) ← eaf_lms_client_close c w;
          Some (Some (LmsObject c (parser o)), w, rc)
        else Some (Some (LmsObject c (parser o)), w, rc)
  end.

(** The batch; [fuel] bounds its rounds. *)
Fixpoint pump_loop (fuel : nat) (o : lms_object) w (max_steps max_us begin_us : Z) (r : eaf_lms_pump_result_t)
  : ub (lms_object * W * eaf_lms_pump_result_t * Z) :=
  '(o, w, rc) ← with_ref_w (fun o w => eaf_lms_client_step o w) o w;
  let r := PumpResult (u32 (steps r + 1)) (progressed r || step_progress (self o)) (budget_exhausted r)
             (backpressured r || step_backpressure (self o)) in
  if bool_decide (rc <> 0) || negb (step_progress (self o)) then Some (o, w, r, rc)
  else
    let '(w, over) := if decide (max_steps <= steps r) then (w, true)
                      else let '(w, now) := hal_monotonic_time_us w in (w, bool_decide (max_us <= u64 (now - begin_us))) in
    if over : bool then
      let c := self o in
      Some (LmsObject (set_diagnostics (count_waits 0 0 1 (diagnostics c)) c) (parser o), w,
            PumpResult (steps r) (progressed r) true (backpressured r), EAF_OK)
    else match fuel with O => None | S fuel => pump_loop fuel o w max_steps max_us begin_us r end.

Definition eaf_lms_client_pump (o : ptr lms_object) w (max_steps max_us : Z) (result : ptr eaf_lms_pump_result_t)
  : ub (ptr lms_object * W * ptr eaf_lms_pump_result_t * Z) :=
  match o, result with
  | Some ob, Some _ =>
      if decide (max_steps = 0 \/ 64 < max_steps \/ max_us = 0 \/ 10000 < max_us) then Some (o, w, result, EAF_INVALID)
      else
        let '(w, begin_us) := hal_monotonic_time_us w in
        '(ob, w, r, rc) ← pump_loop (Z.to_nat max_steps) ob w max_steps max_us begin_us (PumpResult 0 false false false);
        Some (Some ob, w, Some r, rc)
  | _, _ => Some (o, w, result, EAF_INVALID)
  end.

Definition eaf_lms_client_report_playback (o : ptr lms_object) w (p : ptr eaf_lms_playback_t) : ub (ptr lms_object * W * Z) :=
  match o, p with
  | Some ob, Some pl =>
      let c := self ob in
      if decide (buffer_bytes pl < queued_bytes pl) then Some (o, w, EAF_INVALID)
      else if negb (tcp_open (control c)) || negb (streaming c) || wait_cont c || wait_start c then Some (o, w, EAF_STATE)
      else if started_sent c && negb (started pl) then Some (o, w, EAF_STATE)
      else
        let c := set_playback pl c in
        let first := started pl && negb (started_sent c) in
        let c := set_stage EAF_LMS_STAGE_STATUS c in
        '(c, w, rc) ← status c w (if first then "STMs" else "STMt") 0;
        c ← record_error c rc;
        let c := if bool_decide (rc = 0) && first then set_started_sent true c else c in
        Some (Some (LmsObject c (parser ob)), w, rc)
  | _, _ => Some (o, w, EAF_INVALID)
  end.
End client.
