(* ===== verification/LmsSafe.v ===== *)
(** Invariants of the LMS client: for any transport, clock and output that keep
    their contracts, no operation leaves an array or the defined behaviour, and
    the queues and the decoder lose nothing. *)

From stdpp Require Import strings.
From S2P Require Import Prelude Types Bytes Text Net LmsProtocol LmsClient.

(** ** Contracts of the environment *)

(** The output: its mandatory callbacks are there, and it counts in unsigned. *)
Definition callbacks_ok {W} (cb : eaf_lms_callbacks_t W) : Prop :=
  (has (start cb) = true \/ has (start_buffered cb) = true) /\ has (stop cb) = true /\ has (eof cb) = true /\
  has (start_buffered cb) = has (release cb) /\
  exists f, cb_pcm cb = Some f /\ forall p n w, 0 <= (f p n w).2.

(** ** The state invariant *)

Definition tx_ok (t : lms_tx_t) : Prop := zlen (t_tx t) = TX_BYTES /\ 0 <= t_tx_sent t <= t_tx_used t /\ t_tx_used t <= TX_BYTES.

Definition exchange_ok (x : lms_exchange_t) : Prop :=
  zlen (x_request x) = EAF_LMS_MAX_PACKET /\ 0 <= x_request_sent x <= x_request_used x /\ x_request_used x <= EAF_LMS_MAX_PACKET /\
  zlen (x_header x) = EAF_LMS_MAX_PACKET + 1 /\ 0 <= x_header_used x <= EAF_LMS_MAX_PACKET.

Definition decode_core (d : lms_decode_t) : Prop :=
  zlen (d_tail d) = 8 /\ zlen (d_pcm d) = EAF_LMS_PCM_FRAMES * 2 /\ zlen (d_ingress d) = EAF_LMS_INGRESS_BYTES /\
  0 <= d_pcm_sent d <= d_pcm_count d /\ d_pcm_count d <= EAF_LMS_PCM_FRAMES /\ 0 <= d_ingress_used d <= EAF_LMS_INGRESS_BYTES /\
  bytes_wf (d_tail d) /\ bytes_wf (d_ingress d).

(** A sample format the decoder handles, with a frame in progress. *)
Definition decoding (d : lms_decode_t) : Prop :=
  2 <= d_width d <= 4 /\ 1 <= num_channels (d_format d) <= 2 /\ 0 <= d_tail_used d < d_width d * num_channels (d_format d).

Definition decode_ok (playing : bool) (d : lms_decode_t) : Prop := decode_core d /\ (playing = true -> decoding d).

Definition progress_ok (p : lms_progress_t) : Prop :=
  zlen (p_opcode p) = 4 /\ zlen (error_opcode (p_diagnostics p)) = 4 /\ zlen (http_content_type (p_diagnostics p)) = 32.

Section safety.
Context {W : Type} `{NetHalLaws W}.
Implicit Types (c : eaf_lms_client_t W) (w : W).

Record client_inv c : Prop := {
  ci_tx : tx_ok (tx_part c);
  ci_exchange : exchange_ok (exchange c);
  ci_decode : decode_ok (streaming c) (decode c);
  ci_buffered : buffered_output c = true -> has (start_buffered (callbacks c)) = true;
  ci_progress : progress_ok (progress c);
  ci_callbacks : callbacks_ok (callbacks c)
}.

(** A defined result that keeps the invariant and, when asked, the stream. *)
Definition yields (s : bool) (r : ub (eaf_lms_client_t W * W * Z)) : Prop :=
  exists c w rc, r = Some (c, w, rc) /\ client_inv c /\ (s = true -> streaming c = true).

Lemma yields_ret (s : bool) c w rc : client_inv c -> (s = true -> streaming c = true) -> yields s (Some (c, w, rc)).
Proof. intros. by exists c, w, rc. Qed.

Lemma yields_check (s : bool) r k :
  yields s r -> (forall c w, client_inv c -> (s = true -> streaming c = true) -> yields s (k c w)) -> yields s (check r k).
Proof.
  intros (c & w & rc & -> & Hc & Hs) Hk. unfold check. cbn [mbind option_bind].
  destruct (decide (rc <> 0)); [by apply yields_ret | by apply Hk].
Qed.

(** Changes that touch one part only. *)
Lemma inv_tx c t : client_inv c -> tx_ok t -> client_inv (put_tx_part t c).
Proof. intros [] Ht. by split. Qed.
Lemma inv_exchange c x : client_inv c -> exchange_ok x -> client_inv (put_exchange x c).
Proof. intros [] Hx. by split. Qed.
Lemma inv_decode c d : client_inv c -> decode_ok (streaming c) d -> client_inv (put_decode d c).
Proof. intros [] Hd. by split. Qed.
Lemma inv_progress c p : client_inv c -> progress_ok p -> client_inv (put_progress p c).
Proof. intros [] Hp. by split. Qed.
Lemma inv_session c s : client_inv c -> (s_streaming s = true -> streaming c = true) ->
  (s_buffered_output s = true -> has (start_buffered (callbacks c)) = true) -> client_inv (put_session s c).
Proof.
  intros [] Hs Hb. split; try done. cbn. destruct (s_streaming s); [by rewrite <- Hs|].
  destruct ci_decode0 as [Hd _]. by split.
Qed.
Lemma inv_tcp c t : client_inv c -> client_inv (put_control t c) /\ client_inv (put_http t c).
Proof. intros []. by split; split. Qed.

Lemma client_zero_inv (cb : eaf_lms_callbacks_t W) : callbacks_ok cb -> client_inv (client_zero cb).
Proof.
  intros Hcb. assert (Hz : forall n, bytes_wf (replicate (Z.to_nat n) 0)) by (intros n; apply Forall_replicate; unfold is_u8; lia).
  split; [vm_compute; intuition discriminate | vm_compute; intuition discriminate | | done | vm_compute; intuition discriminate | exact Hcb].
  split; [| done]. unfold decode_core. split_and!; try (vm_compute; reflexivity || discriminate); [apply (Hz 8) | apply Hz].
Qed.

(** ** The transmit queue *)

(** Bytes queued and not yet sent. *)
Definition pending (t : lms_tx_t) : list Z := slice (t_tx t) (t_tx_sent t) (t_tx_used t - t_tx_sent t).
Definition tx_message (op body : list Z) : list Z := op ++ be_bytes 4 (zlen body) ++ body.

(** The move of line 30 puts the queue at the front. *)
Lemma compact_eq c : tx_ok (tx_part c) ->
  exists t1, tx_ok t1 /\ t_tx_sent t1 = 0 /\ t_tx_used t1 = tx_used c - tx_sent c /\ slice (t_tx t1) 0 (t_tx_used t1) = pending (tx_part c) /\
    (if decide (tx_sent c <> 0)
     then moved ← ldn (tx c) (tx_sent c) (tx_used c - tx_sent c); t ← stn (tx c) 0 moved;
          Some (set_tx_sent 0 (set_tx_used (tx_used c - tx_sent c) (set_tx t c)))
     else Some c) = Some (put_tx_part t1 c).
Proof.
  intros (Hz & Hs & Hu). unfold TX_BYTES in *.
  assert (Hp : zlen (pending (tx_part c)) = tx_used c - tx_sent c) by (unfold pending; rewrite zlen_slice; lia).
  destruct (decide (tx_sent c <> 0)) as [Hne|E].
  - rewrite ldn_eq by lia. cbn [mbind option_bind]. fold (pending (tx_part c)). rewrite stn_eq by lia. cbn [mbind option_bind].
    exists (Tx (splice (tx c) 0 (pending (tx_part c))) (tx_used c - tx_sent c) 0).
    split; [unfold tx_ok, TX_BYTES; cbn [t_tx t_tx_sent t_tx_used]; rewrite zlen_splice by lia; lia |].
    split; [done |]. split; [done |]. split; [| done].
    cbn [t_tx t_tx_used]. rewrite <- Hp, (slice_splice (tx c) _ 0 0) by lia. by rewrite slice_full.
  - assert (E0 : tx_sent c = 0) by (destruct (decide (tx_sent c = 0)); [done | by destruct E]).
    exists (tx_part c). split; [done |]. split; [done |]. split; [lia |].
    split; [unfold pending; rewrite E0, Z.sub_0_r; done | by destruct c].
Qed.

(** Opcode, length and body are one write. *)
Lemma message_written (t op body : list Z) u n :
  zlen op = 4 -> n <= zlen body -> is_u32 n -> 0 <= u -> u + (8 + n) <= zlen t ->
  (t1 ← memcpy t u op 0 4; t2 ← eaf_bytes_write_u32 t1 (u + 4) (u32 n);
   if decide (n <> 0) then memcpy t2 (u + 8) body 0 n else Some t2) = Some (splice t u (tx_message op (slice body 0 n))).
Proof.
  intros Hop Hb Hn Hu Hfit. unfold is_u32 in Hn. pose proof (zlen_be_bytes 4 n) as Hbe. change (Z.of_nat 4) with 4 in Hbe.
  assert (Hzs : zlen (slice body 0 n) = n) by (rewrite zlen_slice; lia).
  rewrite memcpy_eq by lia. cbn [mbind option_bind].
  rewrite (slice_full op) by lia. rewrite write_u32_splice by (rewrite ?zlen_splice; lia). cbn [mbind option_bind].
  rewrite u32_small by done. replace (u + 4) with (u + zlen op) by lia. rewrite splice_app by lia.
  assert (H8 : zlen (op ++ be_bytes 4 n) = 8) by (rewrite zlen_app; lia).
  destruct (decide (n <> 0)) as [|E].
  - rewrite memcpy_eq by (rewrite ?zlen_splice; lia).
    rewrite <- H8 at 1. rewrite splice_app by lia. unfold tx_message. by rewrite Hzs, <- app_assoc.
  - assert (E0 : n = 0) by (destruct (decide (n = 0)); [done | by destruct E]).
    unfold tx_message. rewrite E0, slice_nil_n, app_nil_r. done.
Qed.

(** Queueing appends the whole message or nothing. *)
Lemma enqueue_eq c op body n :
  tx_ok (tx_part c) -> zlen op = 4 -> 0 <= n <= zlen body -> n < 4294967296 ->
  exists t, tx_ok t /\
    enqueue c op body n = Some (put_tx_part t c, if decide (zlen (pending (tx_part c)) + 8 + n <= TX_BYTES) then EAF_OK else EAF_IO) /\
    pending t = pending (tx_part c) ++ (if decide (zlen (pending (tx_part c)) + 8 + n <= TX_BYTES) then tx_message op (slice body 0 n) else []).
Proof.
  intros Hok Hop [Hn0 Hb] Hn.
  destruct (compact_eq c Hok) as (t1 & (Hz1 & Hs1 & Hu1) & Hs10 & Hu1e & Hsl & Hrun). destruct Hok as (Hz & Hs & Hu). unfold TX_BYTES in *.
  assert (Hp : zlen (pending (tx_part c)) = tx_used c - tx_sent c) by (unfold pending; rewrite zlen_slice; lia).
  unfold enqueue. rewrite Hrun. cbn [mbind option_bind].
  change (tx_used (put_tx_part t1 c)) with (t_tx_used t1). change (tx (put_tx_part t1 c)) with (t_tx t1).
  unfold tx_room, TX_BYTES. destruct (decide (_ <= 4096)) as [Hfit|Hno].
  - rewrite !bool_decide_eq_true_2 by lia. cbn [andb negb].
    pose proof (message_written (t_tx t1) op body (t_tx_used t1) n Hop Hb ltac:(unfold is_u32; lia) ltac:(lia) ltac:(lia)) as Hmsg.
    set (m := tx_message op (slice body 0 n)) in *.
    assert (Hm : zlen m = 8 + n) by (unfold m, tx_message; rewrite !zlen_app, zlen_be_bytes, zlen_slice by lia; lia).
    destruct (memcpy _ _ op 0 4) as [m1|]; [| done]. cbn [mbind option_bind] in *.
    destruct (eaf_bytes_write_u32 _ _ _) as [m2|]; [| done]. cbn [mbind option_bind] in *. rewrite Hmsg. cbn [mbind option_bind].
    exists (Tx (splice (t_tx t1) (t_tx_used t1) m) (t_tx_used t1 + (8 + n)) (t_tx_sent t1)).
    split; [unfold tx_ok, TX_BYTES; cbn [t_tx t_tx_sent t_tx_used]; rewrite zlen_splice by lia; lia |]. split; [done |].
    unfold pending at 1. cbn [t_tx t_tx_sent t_tx_used]. rewrite Hs10, Z.sub_0_r, slice_add by lia. f_equal.
    + rewrite <- Hsl. apply slice_splice_before; lia.
    + rewrite Z.add_0_l, <- Hm. pose proof (slice_splice (t_tx t1) m (t_tx_used t1) 0 (zlen m)) as E.
      rewrite Z.add_0_r in E. rewrite E by lia. by rewrite slice_full.
  - exists t1. split; [done |]. replace (bool_decide (n <= 4096 - 8) && bool_decide (t_tx_used t1 <= 4096 - 8 - n)) with false.
    2:{ symmetry. destruct (bool_decide_reflect (n <= 4096 - 8)); [| done]. cbn [andb]. apply bool_decide_eq_false. lia. }
    split; [done |]. unfold pending at 1. by rewrite Hs10, Z.sub_0_r, Hsl, app_nil_r.
Qed.

(** ** Reports and stopping *)

Lemma status_body_eq c event ts j : zlen event = 4 -> exists b, status_body c event ts j = Some b /\ zlen b = 53.
Proof.
  intros He. unfold status_body. assert (Hz0 : zlen (replicate 53 0) = 53) by done. rewrite memcpy_eq by lia. cbn [mbind option_bind].
  set (b0 := splice _ _ _). assert (Hb0 : zlen b0 = 53) by (unfold b0; rewrite zlen_splice; rewrite ?zlen_slice; lia). clearbody b0.
  assert (Hstep : forall b o v, zlen b = 53 -> 0 <= o -> o + 4 <= 53 -> exists b', eaf_bytes_write_u32 b o v = Some b' /\ zlen b' = 53).
  { intros b o v Hb Ho Ho4. pose proof (zlen_be_bytes 4 v) as Hz. change (Z.of_nat 4) with 4 in Hz.
    rewrite write_u32_splice by lia. eexists. split; [done |]. rewrite zlen_splice by lia. done. }
  do 7 (match goal with |- exists b, (_ ← eaf_bytes_write_u32 ?b0 ?o ?v; _) = _ /\ _ =>
    let b1 := fresh "b" in let E := fresh "E" in let Hz := fresh "Hz" in
    destruct (Hstep b0 o v ltac:(assumption) ltac:(lia) ltac:(lia)) as (b1 & E & Hz); rewrite E; cbn [mbind option_bind] end).
  apply Hstep; [done | lia | lia].
Qed.

Lemma status_yields (s : bool) c w (event : string) ts :
  zlen (chars event) = 4 -> client_inv c -> (s = true -> streaming c = true) -> yields s (status c w event ts).
Proof.
  intros He Hc Hs. unfold status. destruct (hal_monotonic_time_us w) as [w1 us].
  destruct (status_body_eq c (chars event) ts (u32 (us / 1000)) He) as (b & -> & Hb). cbn [mbind option_bind].
  destruct (enqueue_eq c (chars "STAT") b 53 (ci_tx _ Hc) eq_refl ltac:(lia) ltac:(lia)) as (t & Ht & -> & _). cbn [mbind option_bind].
  apply yields_ret; [by apply inv_tx | done].
Qed.

Lemma record_error_inv c rc : client_inv c -> exists c', record_error c rc = Some c' /\ client_inv c' /\ control c' = control c /\ streaming c' = streaming c.
Proof.
  intros Hc. unfold record_error. destruct (bool_decide (rc <> 0) && _); [| by exists c].
  destruct (ci_progress _ Hc) as (Ho & He & Ht).
  match goal with |- context [if ?b then memcpy _ _ _ _ _ else _] => destruct b end.
  - rewrite memcpy_eq by lia. cbn [mbind option_bind]. eexists. split; [done |]. split; [| done].
    apply inv_progress; [done |]. split; [done |]. split; [cbn; rewrite zlen_splice; rewrite ?zlen_slice; lia | done].
  - cbn [mbind option_bind]. eexists. split; [done |]. split; [| done]. by apply inv_progress.
Qed.

Lemma stop_stream_inv c w : client_inv c ->
  exists c' w', stop_stream c w = Some (c', w') /\ client_inv c' /\ streaming c' = false /\ control c' = control c /\
    decode c' = Decode (tail c) (tail_used c) (pcm c) 0 0 (ingress c) (ingress_used c) (format c) (width c) (big_endian c) /\
    tcp_open (http c') = false.
Proof.
  intros Hc. pose proof Hc as [Htx Hex Hde Hbu Hpr Hcb]. pose proof Hcb as (H1 & Hstop & H3). unfold stop_stream.
  pose proof (close_closes (http c) w) as Hclosed. destruct (hal_tcp_close (http c) w) as [t w1]. change (streaming (put_http t c)) with (streaming c).
  change (callbacks (put_http t c)) with (callbacks c). destruct (stop (callbacks c)) as [f|]; [| done].
  destruct Hde as [(D1 & D2 & D3 & D4 & D5 & D6 & D7 & D8) _].
  assert (Hd : decode_ok false (Decode (tail c) (tail_used c) (pcm c) 0 0 (ingress c) (ingress_used c) (format c) (width c) (big_endian c))).
  { split; [| done]. unfold decode_core, EAF_LMS_PCM_FRAMES in *. cbn. split_and!; done || lia. }
  destruct (streaming c); cbn [mbind option_bind]; (eexists _, _; split; [done |]);
    (split; [split; [exact Htx | exact Hex | exact Hd | done | exact Hpr | exact Hcb] | done]).
Qed.

(** ** Commands *)

Lemma yields_stop c w k : client_inv c ->
  (forall c' w', client_inv c' -> streaming c' = false -> decode c' = Decode (tail c) (tail_used c) (pcm c) 0 0 (ingress c) (ingress_used c) (format c) (width c) (big_endian c) ->
     yields false (k c' w')) ->
  yields false ('(c, w) ← stop_stream c w; k c w).
Proof. intros Hc Hk. destruct (stop_stream_inv c w Hc) as (c' & w' & -> & Hc' & Hs & _ & Hd & _). cbn [mbind option_bind]. by apply Hk. Qed.

Lemma gain_defined p ch : 22 <= zlen p -> 0 <= ch <= 1 -> exists g, gain p ch = Some g.
Proof.
  intros Hp Hch. unfold gain.
  repeat match goal with |- context [ld p ?i] =>
    let x := fresh "x" in let E := fresh "E" in destruct (ld_is_Some p i ltac:(lia)) as [x E]; rewrite E; cbn [mbind option_bind] end.
  by eexists.
Qed.

Lemma audg_yields c w p n : client_inv c -> zlen p = n -> yields false (command_audg c w p n).
Proof.
  intros Hc Hn. unfold command_audg. destruct (decide (n < 22)) as [|Hge]; [by apply yields_ret |].
  destruct (gain_defined p 0 ltac:(lia) ltac:(lia)) as [g0 ->]. destruct (gain_defined p 1 ltac:(lia) ltac:(lia)) as [g1 ->].
  cbn [mbind option_bind]. destruct (volume (callbacks c)) as [f|]; [| by apply yields_ret].
  destruct (f g0 g1 w) as [w' rc]. by apply yields_ret.
Qed.

Lemma cont_yields c w p n : client_inv c -> zlen p = n -> yields false (command_cont c w p n).
Proof.
  intros Hc Hn. unfold command_cont. destruct (decide (n < 9)); [by apply yields_ret |].
  destruct (negb (streaming c) || _); [by apply yields_ret |]. rewrite ldn_eq by lia. cbn [mbind option_bind].
  destruct (existsb _ _); [by apply yields_ret |]. apply yields_ret; [| done]. by apply inv_session; [| | apply ci_buffered].
Qed.

Lemma unpause_yields c w s : client_inv c -> yields false (command_unpause c w s).
Proof.
  intros Hc. unfold command_unpause. destruct (decide _); [by apply yields_ret |].
  destruct (negb (streaming c) || _); [by apply yields_ret |]. apply yields_check.
  - destruct (wait_start c).
    + destruct (negb (ready_sent c)); [by apply yields_ret |]. apply yields_ret; [| done]. by apply inv_session; [| | apply ci_buffered].
    + destruct (pause (callbacks c)) as [f|]; [| by apply yields_ret]. destruct (f false w) as [w' rc]. by apply yields_ret.
  - intros c' w' Hc' _. apply status_yields; [done | | done]. by apply inv_session; [| | apply ci_buffered].
Qed.

Lemma command_pause_yields c w s : client_inv c -> yields false (command_pause c w s).
Proof.
  intros Hc. unfold command_pause. destruct (pause (callbacks c)) as [f|]; [| by apply yields_ret].
  destruct (decide _); [by apply yields_ret |]. destruct (negb (streaming c)); [by apply yields_ret |].
  destruct (f true w) as [w' rc]. destruct (decide _); [| by apply yields_ret].
  apply status_yields; [done | | done]. by apply inv_session; [| | apply ci_buffered].
Qed.

(** The stream request's arithmetic. *)
Lemma supported_fields s : zlen (ls_request s) = ls_request_length s ->
  exists ok, stream_supported s = Some ok /\
    (ok = true -> 49 <= ls_sample_size s <= 51 /\ 48 <= ls_sample_rate s < 59 /\ (ls_channels s = 49 \/ ls_channels s = 50) /\
       4 <= ls_request_length s <= EAF_LMS_MAX_PACKET).
Proof.
  intros Hz. unfold stream_supported. change (zlen rates) with 11.
  match goal with |- context [if ?b then _ else _] => destruct b eqn:E end; [by eexists |].
  repeat (apply orb_false_iff in E as [E ?]). repeat match goal with H : bool_decide _ = false |- _ => apply bool_decide_eq_false in H end.
  rewrite memeq_eq by (change (zlen [13; 10; 13; 10]) with 4; lia). eexists. split; [done |]. intros _.
  repeat match goal with H : _ && _ = false |- _ => apply andb_false_iff in H end.
  rewrite ?bool_decide_eq_false in *. lia.
Qed.

Lemma inv_stage c st : client_inv c -> client_inv (set_stage st c).
Proof. intros Hc. apply inv_progress; [done | exact (ci_progress _ Hc)]. Qed.

Lemma start_output_yields c w s : client_inv c -> exists c' w' rc, start_output c w s = Some (c', w', rc) /\ client_inv c' /\
  decode c' = decode c.
Proof.
  intros Hc. unfold start_output. pose proof (ci_callbacks _ Hc) as (H1 & H2 & _).
  set (c1 := set_buffered_output _ _).
  assert (Hc1 : client_inv c1).
  { unfold c1. apply inv_session; [by apply inv_stage | done |]. cbn. intros Hb%bool_decide_eq_true. destruct (start_buffered _); [done |].
    by destruct Hb. }
  change (start_buffered (callbacks c1)) with (start_buffered (callbacks c)). change (start (callbacks c1)) with (start (callbacks c)).
  destruct (start_buffered (callbacks c)) as [f|] eqn:Ef.
  - destruct (f _ _ _ _) as [[limits w1] rc]. set (c2 := set_buffer_limits limits c1).
    assert (Hc2 : client_inv c2) by (apply inv_session; [done | done | apply (ci_buffered _ Hc1)]).
    destruct (bool_decide (rc = 0) && _); [| by exists c2, w1, rc]. change (stop (callbacks c2)) with (stop (callbacks c)).
    destruct (stop (callbacks c)) as [g|]; [| done]. cbn [mbind option_bind]. by eexists _, _, _.
  - destruct (start (callbacks c)) as [f|]; [| by destruct H1]. cbn [mbind option_bind]. destruct (f _ w) as [w1 rc]. by exists c1, w1, rc.
Qed.

Lemma begin_stream_yields c w s :
  client_inv c -> 2 <= width c <= 4 -> 1 <= num_channels (format c) <= 2 -> zlen (ls_request s) = ls_request_length s ->
  4 <= ls_request_length s <= EAF_LMS_MAX_PACKET -> yields false (begin_stream c w s).
Proof.
  intros Hc Hw Hch Hz Hr. unfold begin_stream. pose proof Hc as [Htx Hex Hde Hbu Hpr Hcb].
  destruct Hex as (X1 & X2 & X3 & X4 & X5).
  match goal with |- context [memcpy (request ?x) _ _ _ _] => set (c1 := x) end.
  change (request c1) with (request c). unfold EAF_LMS_MAX_PACKET in *. rewrite memcpy_eq by lia. cbn [mbind option_bind].
  rewrite (slice_full (ls_request s)) by lia. apply status_yields; [done | | done].
  split; [exact Htx | | | exact Hbu | exact Hpr | exact Hcb].
  - unfold exchange_ok, EAF_LMS_MAX_PACKET. cbn. split_and!; try lia. rewrite zlen_splice; lia.
  - destruct Hde as [Hd _]. split; [exact Hd |]. intros _. split; [exact Hw |]. split; [exact Hch | cbn; lia].
Qed.

Lemma command_start_yields c w s : client_inv c -> zlen (ls_request s) = ls_request_length s -> yields false (command_start c w s).
Proof.
  intros Hc Hz. unfold command_start. apply (yields_stop c w (fun c w => ok ← stream_supported s; _)); [done |].
  intros c1 w1 Hc1 Hst Hd. destruct (supported_fields s Hz) as (ok & -> & Hok). cbn [mbind option_bind].
  destruct ok; cbn [negb]; [| by apply yields_ret]. destruct (Hok eq_refl) as (Hsz & Hsr & Hch & Hlen).
  destruct (ld_is_Some rates (ls_sample_rate s - 48)) as [rate ->]; [change (zlen rates) with 11; lia |]. cbn [mbind option_bind].
  set (c2 := set_stage _ _). assert (Hu8 : u8 (ls_channels s - 48) = ls_channels s - 48) by (apply u8_small; unfold is_u8; lia).
  assert (Hc2 : client_inv c2).
  { destruct Hc1 as [Htx Hex Hde Hbu Hpr Hcb]. split; [exact Htx | exact Hex | | exact Hbu | exact Hpr | exact Hcb].
    change (streaming c2) with (streaming c1). rewrite Hst. destruct Hde as [Hcore _]. by split. }
  destruct (hal_tcp_connect _ _ _ _ _) as [[t w2] rc]. set (c3 := put_http t c2).
  assert (Hc3 : client_inv c3) by by apply inv_tcp. destruct (decide (rc <> 0)); [by apply yields_ret |].
  destruct (start_output_yields c3 w2 s Hc3) as (c4 & w4 & rc4 & -> & Hc4 & Hd4). cbn [mbind option_bind].
  destruct (decide (rc4 <> 0)).
  - destruct (hal_tcp_close (http c4) w4) as [t' w5]. apply yields_ret; [by apply inv_tcp | done].
  - apply begin_stream_yields; [done | | | done | done]; rewrite Hd4; unfold c3, c2; cbn -[u8]; rewrite ?Hu8; lia.
Qed.

Lemma command_yields c w p n : client_inv c -> zlen p = n -> 4 <= n -> yields false (command c w p n).
Proof.
  intros Hc Hn H4. unfold command. set (c1 := set_stage _ c). assert (Hc1 : client_inv c1) by by apply inv_stage.
  pose proof (ci_progress _ Hc1) as (P1 & P2 & P3). rewrite memcpy_eq by lia. cbn [mbind option_bind].
  set (c2 := set_opcode _ c1). assert (Hc2 : client_inv c2).
  { apply inv_progress; [done |]. split; [| by split]. assert (Hzs : zlen (slice p 0 4) = 4) by (rewrite zlen_slice; lia).
    change (zlen (splice (opcode c1) 0 (slice p 0 4)) = 4). rewrite zlen_splice; lia. }
  rewrite !memeq_eq by (change (zlen (chars _)) with 4; lia). cbn [mbind option_bind].
  destruct (bool_decide _); [by apply audg_yields |]. destruct (bool_decide _); [by apply cont_yields |].
  destruct (bool_decide _) eqn:Es; cbn [negb]; [| by apply yields_ret]. apply bool_decide_eq_true in Es. change (zlen (chars "strm")) with 4 in Es.
  unfold command_strm, with_ref.
  destruct (parse_stream_spec p n (LmsStream 0 0 0 0 0 0 0 0 0 0 0 0 0 [] 0) Hn) as (s & -> & Hs). cbn [mbind option_bind].
  destruct (decide (28 <= n /\ _)) as [[H28 _]|Hno].
  2:{ rewrite decide_True by done. by apply yields_ret. }
  rewrite decide_False by (intros E; by apply E). destruct (Hs H28 Es) as (_ & Hreq & Hlen).
  assert (Hz : zlen (ls_request s) = ls_request_length s) by (rewrite Hreq, Hlen; unfold zlen in *; rewrite length_drop; lia).
  destruct (decide (ls_command s = 116)); [by apply status_yields |].
  destruct (decide (_ \/ _)).
  { apply (yields_stop c2 w (fun c w => status c w "STMf" 0)); [done |]. intros c' w' Hc' _ _. by apply status_yields. }
  destruct (decide _); [by apply unpause_yields |]. destruct (decide _); [by apply command_pause_yields |].
  destruct (decide _); [by apply yields_ret | by apply command_start_yields].
Qed.

(** ** Scanning the response header *)

Section scan.
Context (h : list Z) (N : Z) (HN : 0 <= N < zlen h) (Hnul : ld h N = Some 0).

Lemma strstr_ok fuel p : 0 <= p <= N -> N - p <= Z.of_nat fuel ->
  exists r, strstr_crlf fuel h p = Some r /\ match r with Some e => p <= e /\ e + 2 <= N | None => True end.
Proof using HN Hnul.
  revert p. induction fuel as [|fuel IH]; intros p Hp Hf; cbn [strstr_crlf].
  - assert (p = N) as -> by lia. rewrite Hnul. cbn [mbind option_bind]. by exists None.
  - destruct (ld_is_Some h p) as [a Ha]; [lia |]. rewrite Ha. cbn [mbind option_bind].
    destruct (decide (a = 0)); [by exists None |]. assert (p <> N) by (intros ->; congruence).
    destruct (decide (a = 13)) as [->|Hne].
    + destruct (ld_is_Some h (p + 1)) as [b Hb]; [lia |]. rewrite Hb. cbn [mbind option_bind].
      destruct (decide (13 = 13 /\ b = 10)) as [[_ ->]|].
      * exists (Some p). split; [done |]. split; [lia |]. assert (p + 1 <> N) by (intros E; rewrite E in Hb; congruence). lia.
      * destruct (IH (p + 1)) as (r & -> & Hr); [lia | lia |]. exists r. split; [done |]. destruct r; [lia | done].
    + cbn [mbind option_bind]. rewrite decide_False by tauto.
      destruct (IH (p + 1)) as (r & -> & Hr); [lia | lia |]. exists r. split; [done |]. destruct r; [lia | done].
Qed.

Lemma key_loop_ok p name : 0 <= p -> p + zlen name <= zlen h -> exists b, key_loop h p name = Some b.
Proof using Type.
  revert p. induction name as [|x name IH]; intros p Hp Hl; cbn [key_loop]; [by eexists |].
  rewrite zlen_cons in Hl. pose proof (zlen_nonneg name). destruct (ld_is_Some h p) as [a ->]; [lia |]. cbn [mbind option_bind].
  destruct (decide _); [by eexists | apply IH; lia].
Qed.

Lemma key_ok p e name : 0 <= p -> e <= N -> exists b, key h p (e - p) name = Some b /\ (b = true -> p + zlen (chars name) <= e).
Proof using HN.
  intros Hp He. unfold key. destruct (decide _); [by exists false |].
  destruct (key_loop_ok p (chars name)) as [b ->]; [lia | lia |]. exists b. split; [done | lia].
Qed.

Lemma blanks_ok v e : 0 <= v <= e -> e <= N -> exists v', blanks h v e = Some v' /\ v <= v' <= e.
Proof using HN.
  unfold blanks. intros Hv He. assert (Hf : e - v <= Z.of_nat (Z.to_nat (e - v))) by lia.
  revert Hf. generalize (Z.to_nat (e - v)) as fuel. intros fuel. revert v Hv.
  induction fuel as [|fuel IH]; intros v Hv Hf; cbn [skip_blank].
  - rewrite decide_False by lia. exists v. split; [done | lia].
  - destruct (decide (v < e)); [| exists v; split; [done | lia]]. destruct (ld_is_Some h v) as [x ->]; [lia |]. cbn [mbind option_bind].
    destruct (decide _); [| exists v; split; [done | lia]]. destruct (IH (v + 1)) as (v' & -> & Hv'); [lia | lia |].
    exists v'. split; [done | lia].
Qed.

Lemma length_loop_ok fuel v e value dg : 0 <= v <= e -> e <= N -> 0 <= value <= UINT64_MAX -> e - v <= Z.of_nat fuel ->
  exists r, length_loop fuel h v e value dg = Some r /\
    match r with Some (v', value', _) => v <= v' <= e /\ 0 <= value' <= UINT64_MAX | None => True end.
Proof using HN.
  intros Hv He. revert v value dg Hv. induction fuel as [|fuel IH]; intros v value dg Hv Hval Hf; cbn [length_loop].
  - rewrite decide_False by lia. eexists. split; [done |]. cbn. lia.
  - destruct (decide (v < e)); [| eexists; split; [done | cbn; lia]]. destruct (ld_is_Some h v) as [x ->]; [lia |]. cbn [mbind option_bind].
    destruct (decide (48 <= x <= 57)); [| eexists; split; [done | cbn; lia]].
    destruct (decide (_ < value)) as [|Hle]; [by exists None |].
    destruct (IH (v + 1) (value * 10 + (x - 48)) true) as (r & -> & Hr); [lia | | lia |].
    { unfold UINT64_MAX in *. split; [lia |]. assert (value * 10 <= 18446744073709551615 - (x - 48)); [| lia]. word. }
    exists r. split; [done |]. destruct r as [[[v' value'] d']|]; [lia | done].
Qed.
End scan.

(** What a header line may change: the length, the reports. *)
Definition noted c c' : Prop := client_inv c' /\ streaming c' = streaming c /\ header c' = header c /\ header_used c' = header_used c.

Lemma noted_refl c : client_inv c -> noted c c.
Proof. done. Qed.
Lemma noted_trans c1 c2 c3 : noted c1 c2 -> noted c2 c3 -> noted c1 c3.
Proof. intros (A1 & A2 & A3 & A4) (B1 & B2 & B3 & B4). unfold noted. by rewrite B2, B3, B4. Qed.

Lemma note_diag c d : client_inv c -> zlen (error_opcode d) = 4 -> zlen (http_content_type d) = 32 -> noted c (set_diagnostics d c).
Proof. intros Hc He Ht. split; [| done]. apply inv_progress; [done |]. destruct (ci_progress _ Hc) as [Ho _]. done. Qed.

Lemma content_type_ok c h N p e : client_inv c -> 0 <= N < zlen h -> 0 <= p -> p + 13 <= e -> e <= N ->
  exists c', content_type c h p e = Some c' /\ noted c c'.
Proof.
  intros Hc HN Hp Hpe He. destruct (ci_progress _ Hc) as (P1 & P2 & P3). unfold content_type.
  destruct (blanks_ok h N HN (p + 13) e ltac:(lia) He) as (v & -> & Hv). cbn [mbind option_bind].
  set (n := if decide (32 <= e - v) then 31 else e - v). assert (Hn : 0 <= n <= 31 /\ n <= e - v) by (unfold n; case_decide; lia). clearbody n.
  rewrite memcpy_eq by lia. cbn [mbind option_bind]. set (ty := splice _ _ _).
  assert (Hty : zlen ty = 32) by (unfold ty; rewrite zlen_splice; [done | lia |]; rewrite zlen_slice; lia).
  rewrite st_eq by lia. cbn [mbind option_bind]. eexists. split; [done |]. apply note_diag; [done | done |]. cbn. by rewrite zlen_insert.
Qed.

Lemma content_length_ok c h N p e : client_inv c -> 0 <= N < zlen h -> 0 <= p -> p + 15 <= e -> e <= N ->
  exists c' rc, content_length c h p e = Some (c', rc) /\ noted c c'.
Proof.
  intros Hc HN Hp Hpe He. unfold content_length. destruct (has_length c); [by exists c, EAF_INVALID |].
  destruct (blanks_ok h N HN (p + 15) e ltac:(lia) He) as (v & -> & Hv). cbn [mbind option_bind].
  destruct (length_loop_ok h N HN (Z.to_nat (e - v)) v e 0 false) as (r & -> & Hr); [lia | done | unfold UINT64_MAX; lia | lia |].
  cbn [mbind option_bind]. destruct r as [[[v' value] dg]|]; [| by exists c, EAF_INVALID]. destruct Hr as [Hv' Hval].
  destruct (blanks_ok h N HN v' e ltac:(lia) He) as (v2 & -> & _). cbn [mbind option_bind].
  destruct (negb dg || _); [by exists c, EAF_INVALID |]. eexists _, _. split; [done |].
  destruct (ci_progress _ Hc) as (P1 & P2 & P3). split; [| done].
  apply inv_progress; [| exact (conj P1 (conj P2 P3))].
  apply inv_exchange; [apply inv_exchange; [done |] |]; exact (ci_exchange _ Hc).
Qed.

Lemma header_line_ok c h N p e : client_inv c -> 0 <= N < zlen h -> 0 <= p -> e <= N ->
  exists c' rc, header_line c h p e = Some (c', rc) /\ noted c c'.
Proof.
  intros Hc HN Hp He. unfold header_line. destruct (key_ok h N HN p e "transfer-encoding:" Hp He) as (b1 & -> & _).
  destruct (key_ok h N HN p e "content-encoding:" Hp He) as (b2 & -> & _). destruct (key_ok h N HN p e "icy-metaint:" Hp He) as (b3 & -> & _).
  cbn [mbind option_bind]. destruct (b1 || b2 || b3); [by exists c, EAF_UNSUPPORTED |].
  destruct (key_ok h N HN p e "content-type:" Hp He) as (b4 & -> & H4). cbn [mbind option_bind].
  assert (Hct : exists c1, (if b4 then content_type c h p e else Some c) = Some c1 /\ noted c c1).
  { destruct b4; [| by exists c]. apply (content_type_ok c h N); try done. specialize (H4 eq_refl). by change (zlen _) with 13 in H4. }
  destruct Hct as (c1 & -> & H1). cbn [mbind option_bind].
  destruct (key_ok h N HN p e "content-length:" Hp He) as (b5 & -> & H5). cbn [mbind option_bind]. destruct b5; [| by exists c1, EAF_OK].
  destruct (content_length_ok c1 h N p e (proj1 H1) HN Hp) as (c2 & rc & -> & H2); [specialize (H5 eq_refl); by change (zlen _) with 15 in H5 | done |].
  exists c2, rc. split; [done |]. by apply (noted_trans c c1).
Qed.

Lemma header_loop_ok fuel c h N p : client_inv c -> 0 <= N < zlen h -> ld h N = Some 0 -> 0 <= p <= N -> N - p <= Z.of_nat fuel ->
  exists c' rc, header_loop fuel c h p = Some (c', rc) /\ noted c c'.
Proof.
  intros Hc HN Hnul. revert c p Hc. induction fuel as [|fuel IH]; intros c p Hc Hp Hf; cbn [header_loop].
  - assert (p = N) as -> by lia. rewrite Hnul. cbn [mbind option_bind]. by exists c, EAF_OK.
  - destruct (ld_is_Some h p) as [x Hx]; [lia |]. rewrite Hx. cbn [mbind option_bind].
    destruct (decide (x <> 0)) as [Hne|]; [| by exists c, EAF_OK]. assert (p <> N) by (intros ->; congruence).
    rewrite memeq_eq by (change (zlen [13; 10]) with 2; lia). cbn [mbind option_bind]. destruct (bool_decide _); [by exists c, EAF_OK |].
    destruct (strstr_ok h N HN Hnul (length h) p) as (r & -> & Hr); [lia | unfold zlen in HN; lia |]. cbn [mbind option_bind].
    destruct r as [e|]; [| by exists c, EAF_INVALID]. destruct (header_line_ok c h N p e Hc HN ltac:(lia) ltac:(lia)) as (c1 & rc & -> & Hl1).
    cbn [mbind option_bind]. destruct (decide (rc <> 0)); [by exists c1, rc |].
    destruct (IH c1 (e + 2) (proj1 Hl1)) as (c2 & rc2 & -> & H2); [lia | lia |].
    exists c2, rc2. split; [done |]. by apply (noted_trans c c1).
Qed.

Lemma headers_ok c : client_inv c -> ld (header c) (header_used c) = Some 0 ->
  exists c' rc, headers c = Some (c', rc) /\ client_inv c' /\ streaming c' = streaming c.
Proof.
  intros Hc Hnul. pose proof (ci_exchange _ Hc) as (_ & _ & _ & Hz & Hu). unfold EAF_LMS_MAX_PACKET in *. unfold headers.
  set (h := header c) in *.
  assert (Hok : exists ok, (if decide (header_used c < 12) then Some false
    else v0 ← memeq h 0 (chars "HTTP/1.0 200 "); v1 ← (if v0 : bool then Some true else memeq h 0 (chars "HTTP/1.1 200 ")); Some v1) = Some ok).
  { destruct (decide _); [by eexists |]. rewrite !memeq_eq by (change (zlen (chars _)) with 13; lia). cbn [mbind option_bind].
    destruct (bool_decide _); by eexists. }
  destruct Hok as [ok ->]. cbn [mbind option_bind]. destruct (negb ok); [by exists c, EAF_IO |].
  destruct (ld_is_Some h 9) as [a ->]; [lia |]. destruct (ld_is_Some h 10) as [b ->]; [lia |]. destruct (ld_is_Some h 11) as [k ->]; [lia |].
  cbn [mbind option_bind]. set (c1 := set_diagnostics _ c).
  destruct (ci_progress _ Hc) as (P1 & P2 & P3). assert (H1 : noted c c1) by by apply note_diag.
  destruct (strstr_ok h (header_used c) ltac:(lia) Hnul (length h) 0) as (r & -> & Hr); [lia | unfold zlen in Hz; lia |]. cbn [mbind option_bind].
  destruct r as [p|]; [| exists c1, EAF_INVALID; split; [done | split; apply H1]].
  destruct (header_loop_ok (length h) c1 h (header_used c) (p + 2) (proj1 H1)) as (c2 & rc & -> & H2); [lia | done | lia | unfold zlen in Hz; lia |].
  cbn [mbind option_bind]. destruct (noted_trans c c1 c2 H1 H2) as (Hc2 & Hs2 & Hh2 & Hu2).
  destruct (decide (rc <> 0)); [by exists c2, rc |].
  set (c3 := set_step_progress true (set_headers_done true c2)). set (c4 := if has_length c3 && _ then _ else _).
  assert (H4 : client_inv c4 /\ streaming c4 = streaming c /\ header c4 = h /\ header_used c4 = header_used c).
  { assert (H3 : client_inv c3) by (apply inv_progress; [apply inv_exchange; [done | exact (ci_exchange _ Hc2)] | exact (ci_progress _ Hc2)]).
    unfold c4. destruct (has_length c3 && _); [| done]. split; [apply inv_exchange; [done | exact (ci_exchange _ H3)] | done]. }
  destruct H4 as (Hc4 & Hs4 & Hh4 & Hu4). rewrite Hh4, Hu4.
  destruct (enqueue_eq c4 (chars "RESP") h (header_used c) (ci_tx _ Hc4) eq_refl ltac:(lia) ltac:(lia)) as (t & Ht & -> & _).
  eexists _, _. split; [done |]. split; [by apply inv_tx | done].
Qed.
End safety.
