(* ===== verification/LmsDecode.v ===== *)
(** The body decoder of the LMS client: whatever the sizes in which the body
    arrives and the output takes it, the PCM chunk receives every complete frame
    once, in order, correctly decoded, and the rest waits. *)

From S2P Require Import Prelude Types Bytes Text Net LmsProtocol LmsClient LmsSafe.

(** ** The meaning of the bytes *)

(** The sample of [width] bytes in stream order, in Q1.31. *)
Definition lms_value (big : bool) (width : Z) (bs : list Z) : Z :=
  let v := be_value (if big then bs else reverse bs) in
  (if decide (v < 2 ^ (8 * width - 1)) then v else v - 2 ^ (8 * width)) * 2 ^ (32 - 8 * width).

Definition lms_frame (big : bool) (width channels : Z) (fr : list Z) : list Z :=
  (fun ch => lms_value big width (slice fr (ch * width) width)) <$> seqZ 0 channels.

(** The first [k] frames of a byte stream. *)
Fixpoint lms_frames (big : bool) (width channels : Z) (k : nat) (bytes : list Z) : list Z :=
  match k with
  | O => []
  | S k => lms_frame big width channels (take (Z.to_nat (width * channels)) bytes)
           ++ lms_frames big width channels k (drop (Z.to_nat (width * channels)) bytes)
  end.

Lemma raw_value_eq (big : bool) (width ch : Z) (tail : list Z) :
  2 <= width <= 4 -> 0 <= ch -> (ch + 1) * width <= zlen tail -> bytes_wf tail ->
  raw_value big width ch tail = Some (be_value (if big then slice tail (ch * width) width else reverse (slice tail (ch * width) width))).
Proof.
  intros Hw Hch Hl Hb. set (bs := slice tail (ch * width) width). assert (Hz : zlen bs = width) by (unfold bs; rewrite zlen_slice; nia).
  assert (Hbs : bytes_wf bs) by by apply slice_forall.
  assert (Hld : forall k, 0 <= k < width -> exists x, ld tail (ch * width + k) = Some x /\ bs !! Z.to_nat k = Some x).
  { intros k Hk. destruct (ld_is_Some tail (ch * width + k)) as [x Hx]; [nia |]. exists x. split; [done |].
    unfold bs. rewrite lookup_slice by nia. rewrite ld_lookup in Hx by nia. rewrite <- Hx. f_equal. lia. }
  set (order := if big then bs else reverse bs).
  assert (Hzo : zlen order = width) by (unfold order; destruct big; [done |]; unfold zlen in *; by rewrite length_reverse).
  assert (Hwo : bytes_wf order) by (unfold order; destruct big; [done |]; by apply Forall_reverse).
  unfold raw_value. rewrite <- (take_ge order (Z.to_nat width)) by (unfold zlen in *; lia).
  match goal with |- for_to _ ?f _ = _ =>
    destruct (for_to_inv (fun k v => v = be_value (take (Z.to_nat k) order)) f width 0) as (v & -> & ->) end; [lia | done | | done].
  intros k v Hk ->. set (j := if big then k else width - k - 1).
  destruct (Hld j) as (x & Hx & Hbx); [unfold j; destruct big; lia |]. fold j. rewrite Hx. cbn [mbind option_bind].
  assert (Ho : order !! Z.to_nat k = Some x).
  { unfold order, j in *. destruct big; [done |]. rewrite reverse_lookup by (unfold zlen in *; lia). rewrite <- Hbx. f_equal.
    unfold zlen in *. lia. }
  eexists. split; [done |]. replace (Z.to_nat (k + 1)) with (S (Z.to_nat k)) by lia. rewrite (take_S_r _ _ _ Ho), be_value_app.
  assert (Hx8 : is_u8 x) by (eapply (proj1 (Forall_lookup _ _) Hwo); exact Ho).
  pose proof (be_value_range (take (Z.to_nat k) order) (Forall_take _ _ _ Hwo)) as Hr. set (v := be_value _) in *.
  assert (Hv : v < 2 ^ 24).
  { apply Z.lt_le_trans with (256 ^ zlen (take (Z.to_nat k) order)); [lia |].
    assert (Hk3 : zlen (take (Z.to_nat k) order) <= 3) by (pose proof (zlen_take_le order (Z.to_nat k)); lia).
    pose proof (zlen_nonneg (take (Z.to_nat k) order)).
    change (2 ^ 24) with (256 ^ 3). apply Z.pow_le_mono_r; lia. }
  change (2 ^ 24) with 16777216 in Hv. unfold is_u8 in Hx8.
  rewrite u32_small by (rewrite Z.shiftl_mul_pow2 by lia; unfold is_u32; lia). rewrite lor_shift_add by lia. change (2 ^ 8) with 256. lia.
Qed.

(** The top bit of an [n + 1]-bit value. *)
Lemma top_bit n v : 0 <= n -> 0 <= v < 2 ^ (n + 1) -> Z.land v (Z.shiftl 1 n) <> 0 <-> 2 ^ n <= v.
Proof.
  intros Hn Hv. rewrite Z.pow_add_r in Hv by lia. change (2 ^ 1) with 2 in Hv. split.
  - intros Hne. destruct (decide (2 ^ n <= v)); [done |]. exfalso. apply Hne. rewrite Z.land_comm. apply land_shift_low; lia.
  - intros Hle Hz. assert (Hb : Z.testbit (Z.land v (Z.shiftl 1 n)) n = true); [| by rewrite Hz, Z.bits_0 in Hb].
    rewrite Z.land_spec, Z.shiftl_spec, Z.sub_diag by lia. change (Z.testbit 1 0) with true. rewrite andb_true_r.
    apply Z.testbit_true; [lia |]. assert (v / 2 ^ n = 1) as ->; [| done]. symmetry. apply (Z.div_unique _ _ 1 (v - 2 ^ n)); lia.
Qed.

Lemma lms_sample_eq (big : bool) (width : Z) (bs : list Z) : 2 <= width <= 4 -> zlen bs = width -> bytes_wf bs ->
  lms_sample (be_value (if big then bs else reverse bs)) width = lms_value big width bs.
Proof.
  intros Hw Hz Hb. set (order := if big then bs else reverse bs).
  assert (Hr : 0 <= be_value order < 256 ^ width).
  { assert (Hzo : zlen order = width) by (unfold order; destruct big; [done |]; unfold zlen in *; by rewrite length_reverse).
    rewrite <- Hzo. apply be_value_range. unfold order. destruct big; [done |]. by apply Forall_reverse. }
  unfold lms_value. fold order. set (v := be_value order) in *. clearbody v. unfold lms_sample.
  assert (Hw3 : width = 2 \/ width = 3 \/ width = 4) by lia. destruct Hw3 as [E|[E|E]]; rewrite E in *.
  - change (256 ^ 2) with 65536 in Hr. pose proof (top_bit 15 v ltac:(lia) Hr) as Hbit.
    change (u32 (Z.shiftl 1 (2 * 8 - 1))) with (Z.shiftl 1 15). change (Z.shiftl 1 (2 * 8)) with 65536. change (Z.shiftl 1 (32 - 2 * 8)) with 65536.
    change (2 ^ (8 * 2 - 1)) with 32768. change (2 ^ (8 * 2)) with 65536. change (2 ^ (32 - 8 * 2)) with 65536. change (2 ^ 15) with 32768 in Hbit.
    destruct (decide (Z.land v _ <> 0)) as [Ht|Ht]; rewrite Hbit in Ht; decide_lia; word.
  - change (256 ^ 3) with 16777216 in Hr. pose proof (top_bit 23 v ltac:(lia) Hr) as Hbit.
    change (u32 (Z.shiftl 1 (3 * 8 - 1))) with (Z.shiftl 1 23). change (Z.shiftl 1 (3 * 8)) with 16777216. change (Z.shiftl 1 (32 - 3 * 8)) with 256.
    change (2 ^ (8 * 3 - 1)) with 8388608. change (2 ^ (8 * 3)) with 16777216. change (2 ^ (32 - 8 * 3)) with 256. change (2 ^ 23) with 8388608 in Hbit.
    destruct (decide (Z.land v _ <> 0)) as [Ht|Ht]; rewrite Hbit in Ht; decide_lia; word.
  - change (256 ^ 4) with 4294967296 in Hr. pose proof (top_bit 31 v ltac:(lia) Hr) as Hbit.
    change (u32 (Z.shiftl 1 (4 * 8 - 1))) with (Z.shiftl 1 31). change (Z.shiftl 1 (4 * 8)) with 4294967296. change (Z.shiftl 1 (32 - 4 * 8)) with 1.
    change (2 ^ (8 * 4 - 1)) with 2147483648. change (2 ^ (8 * 4)) with 4294967296. change (2 ^ (32 - 8 * 4)) with 1. change (2 ^ 31) with 2147483648 in Hbit.
    destruct (decide (Z.land v _ <> 0)) as [Ht|Ht]; rewrite Hbit in Ht; decide_lia; word.
Qed.

(** ** The bookkeeping of frames *)

Section frames.
Context (big : bool) (wd ch : Z) (Hwd : 2 <= wd <= 4) (Hch : 1 <= ch <= 2).
Let fb := wd * ch.

Lemma zlen_lms_frame fr : zlen (lms_frame big wd ch fr) = ch.
Proof using Hch. unfold lms_frame. rewrite zlen_fmap, zlen_seqZ; lia. Qed.

Lemma zlen_lms_frames k bytes : zlen (lms_frames big wd ch k bytes) = Z.of_nat k * ch.
Proof using Hch.
  revert bytes. induction k as [|k IH]; intros bytes; cbn [lms_frames]; [done |]. rewrite zlen_app, IH, zlen_lms_frame. lia.
Qed.

Lemma lms_frames_add k j bytes : lms_frames big wd ch (k + j) bytes
  = lms_frames big wd ch k bytes ++ lms_frames big wd ch j (drop (k * Z.to_nat fb) bytes).
Proof using Type.
  revert bytes. induction k as [|k IH]; intros bytes; [done |]. cbn [lms_frames Nat.add]. rewrite IH, <- app_assoc. do 2 f_equal.
  rewrite drop_drop. do 2 f_equal.
Qed.

Lemma lms_frames_prefix k a b : Z.of_nat k * fb <= zlen a -> lms_frames big wd ch k (a ++ b) = lms_frames big wd ch k a.
Proof using Hwd Hch.
  revert a. induction k as [|k IH]; intros a Hk; [done |]. cbn [lms_frames]. unfold zlen, fb in *.
  rewrite take_app_le, drop_app_le by nia. rewrite IH; [done |]. rewrite length_drop. nia.
Qed.

(** Every complete frame of a byte stream. *)
Definition decode_all (bytes : list Z) : list Z := lms_frames big wd ch (Z.to_nat (zlen bytes / fb)) bytes.

Lemma decode_all_split k bytes : Z.of_nat k * fb <= zlen bytes ->
  decode_all bytes = lms_frames big wd ch k bytes ++ decode_all (drop (k * Z.to_nat fb) bytes).
Proof using Hwd Hch.
  intros Hk. unfold decode_all. assert (Hfb : 0 < fb) by (unfold fb; nia).
  assert (Hz : zlen (drop (k * Z.to_nat fb) bytes) = zlen bytes - Z.of_nat k * fb) by (unfold zlen in *; rewrite length_drop; nia).
  rewrite Hz, <- lms_frames_add. f_equal. replace (zlen bytes - Z.of_nat k * fb) with (zlen bytes + (- Z.of_nat k) * fb) by lia.
  rewrite Z.div_add by lia. assert (Z.of_nat k <= zlen bytes / fb) by (apply Z.div_le_lower_bound; lia). lia.
Qed.

Lemma decode_all_short bytes : zlen bytes < fb -> decode_all bytes = [].
Proof using Type. intros Hl. unfold decode_all. pose proof (zlen_nonneg bytes). by rewrite Z.div_small by lia. Qed.
End frames.

(** ** One frame *)

Lemma decode_frame_eq d :
  2 <= d_width d <= 4 -> 1 <= num_channels (d_format d) <= 2 -> zlen (d_tail d) = 8 -> bytes_wf (d_tail d) ->
  zlen (d_pcm d) = EAF_LMS_PCM_FRAMES * 2 -> 0 <= d_pcm_count d < EAF_LMS_PCM_FRAMES ->
  decode_frame d = Some (splice (d_pcm d) (d_pcm_count d * num_channels (d_format d))
    (lms_frame (d_big_endian d) (d_width d) (num_channels (d_format d)) (slice (d_tail d) 0 (d_width d * num_channels (d_format d))))).
Proof.
  intros Hw Hch Hz Hb Hp Hc. unfold EAF_LMS_PCM_FRAMES in *. set (wd := d_width d) in *. set (ch := num_channels (d_format d)) in *.
  unfold lms_frame. set (g := fun i => lms_value (d_big_endian d) wd (slice (slice (d_tail d) 0 (wd * ch)) (i * wd) wd)).
  destruct (for_st g (d_pcm d) (d_pcm_count d * ch) ch) as (p' & Hrun & _ & ->); [nia | lia | nia |]. rewrite <- Hrun.
  unfold decode_frame. fold wd ch. apply for_to_ext. intros j t Hj.
  rewrite raw_value_eq by (done || nia). cbn [mbind option_bind].
  rewrite lms_sample_eq; [| done | rewrite zlen_slice; nia | by apply slice_forall]. unfold g. by rewrite slice_slice by nia.
Qed.

(** ** The decoding loop *)

(** Received and not yet decoded: the frame in progress, then the ring. *)
Definition waiting_from (consumed : Z) (d : lms_decode_t) : list Z :=
  slice (d_tail d) 0 (d_tail_used d) ++ slice (d_ingress d) consumed (d_ingress_used d - consumed).
Definition waiting (d : lms_decode_t) : list Z := waiting_from 0 d.

(** What the loop does to [d] when it completes [k] frames. *)
Definition decoded (consumed : Z) (d : lms_decode_t) (consumed' : Z) (d' : lms_decode_t) (k : nat) : Prop :=
  let ch := num_channels (d_format d) in
  let fb := d_width d * ch in
  d_pcm_sent d' = d_pcm_sent d /\ d_format d' = d_format d /\ d_width d' = d_width d /\ d_big_endian d' = d_big_endian d /\
  d_ingress d' = d_ingress d /\ d_ingress_used d' = d_ingress_used d /\ consumed <= consumed' <= d_ingress_used d /\
  d_pcm_count d' = d_pcm_count d + Z.of_nat k /\ Z.of_nat k * fb <= zlen (waiting_from consumed d) /\
  d_pcm d' = splice (d_pcm d) (d_pcm_count d * ch) (lms_frames (d_big_endian d) (d_width d) ch k (waiting_from consumed d)) /\
  waiting_from consumed' d' = drop (k * Z.to_nat fb) (waiting_from consumed d) /\
  (d_pcm_count d' = EAF_LMS_PCM_FRAMES \/ consumed' = d_ingress_used d).

Lemma decode_loop_eq fuel consumed d :
  decode_core d -> decoding d -> 0 <= consumed <= d_ingress_used d -> d_ingress_used d - consumed <= Z.of_nat fuel ->
  exists d' consumed' k, decode_loop fuel (d_width d * num_channels (d_format d)) consumed d = Some (d', consumed') /\
    decode_core d' /\ decoding d' /\ decoded consumed d consumed' d' k.
Proof.
  revert consumed d. induction fuel as [|fuel IH]; intros consumed d Hcore Hdec Hc Hf;
    pose proof Hcore as (D1 & D2 & D3 & D4 & D5 & D6 & D7 & D8); pose proof Hdec as (W1 & W2 & W3);
    cbn [decode_loop]; unfold EAF_LMS_PCM_FRAMES, EAF_LMS_INGRESS_BYTES in *.
  all: destruct (decide (_ /\ _)) as [[Hroom Hmore]|Hstop]; [| exists d, consumed, 0%nat; split; [done |]; split; [done |]; split; [done |];
    unfold decoded, EAF_LMS_PCM_FRAMES; cbn [lms_frames]; rewrite splice_nil; pose proof (zlen_nonneg (waiting_from consumed d)); split_and!; done || lia].
  { lia. }
  set (wd := d_width d) in *. set (ch := num_channels (d_format d)) in *. set (fb := wd * ch) in *.
  assert (Hfb : 2 <= fb <= 8) by (unfold fb; nia).
  destruct (ld_is_Some (d_ingress d) consumed) as [x Hx]; [lia |]. unfold decode_byte. rewrite Hx. cbn [mbind option_bind].
  rewrite st_eq by lia. cbn [mbind option_bind]. set (t := <[_ := x]> (d_tail d)). set (d1 := put_tail t (d_tail_used d + 1) d).
  assert (Ht : zlen t = 8) by (unfold t; by rewrite zlen_insert).
  assert (Hx8 : is_u8 x) by (rewrite ld_lookup in Hx by lia; eapply (proj1 (Forall_lookup _ _) D8); exact Hx).
  assert (Htb : bytes_wf t) by by apply Forall_insert.
  assert (Hsl : slice t 0 (d_tail_used d + 1) = slice (d_tail d) 0 (d_tail_used d) ++ [x]).
  { unfold t. rewrite <- splice_singleton by lia. rewrite slice_add by lia. rewrite Z.add_0_l. f_equal.
    - apply slice_splice_before; change (zlen [x]) with 1; lia.
    - pose proof (slice_splice (d_tail d) [x] (d_tail_used d) 0 1) as E. rewrite Z.add_0_r in E. change (zlen [x]) with 1 in E. by rewrite E by lia. }
  assert (Hring : slice (d_ingress d) consumed (d_ingress_used d - consumed) = x :: slice (d_ingress d) (consumed + 1) (d_ingress_used d - (consumed + 1))).
  { rewrite (slice_cons _ _ _ x) by (done || lia). do 2 f_equal. lia. }
  assert (Hwait : slice t 0 (d_tail_used d + 1) ++ slice (d_ingress d) (consumed + 1) (d_ingress_used d - (consumed + 1)) = waiting_from consumed d).
  { unfold waiting_from. by rewrite Hsl, Hring, <- app_assoc. }
  change (d_tail_used d1) with (d_tail_used d + 1). destruct (decide (d_tail_used d + 1 <> fb)) as [Hpart|Hfull]; cbn [mbind option_bind].
  - destruct (IH (consumed + 1) d1) as (d' & consumed' & k & Hrun & Hcore' & Hdec' & Hd).
    + unfold decode_core, d1, EAF_LMS_PCM_FRAMES, EAF_LMS_INGRESS_BYTES. cbn. split_and!; done || lia.
    + split; [exact W1 |]. split; [exact W2 |]. cbn. fold wd ch fb. lia.
    + cbn. lia.
    + cbn. lia.
    + exists d', consumed', k. split; [exact Hrun |]. split; [exact Hcore' |]. split; [exact Hdec' |].
      unfold decoded in *. cbn [d1 put_tail d_pcm_sent d_format d_width d_big_endian d_ingress d_ingress_used d_pcm_count d_pcm] in Hd.
      replace (waiting_from (consumed + 1) d1) with (waiting_from consumed d) in Hd by (symmetry; exact Hwait).
      destruct Hd as (E1 & E2 & E3 & E4 & E5 & E6 & E7 & E8 & E9 & E10 & E11 & E12). split_and!; try done; lia.
  - assert (Hfull' : d_tail_used d + 1 = fb) by lia. rewrite Hfull' in *.
    assert (Hd1p : d_pcm_count d1 = d_pcm_count d) by done.
    rewrite decode_frame_eq; [| done | done | done | done | exact D2 | rewrite Hd1p; unfold EAF_LMS_PCM_FRAMES; lia]. cbn [mbind option_bind].
    change (d_big_endian d1) with (d_big_endian d). change (d_width d1) with wd. change (num_channels (d_format d1)) with ch. fold fb.
    change (d_tail d1) with t. change (d_pcm d1) with (d_pcm d). rewrite Hd1p. rewrite (u32_small (d_pcm_count d + 1)) by (unfold is_u32; lia).
    set (fr := slice t 0 fb) in *. set (p1 := splice _ _ _).
    pose proof (zlen_lms_frame (d_big_endian d) wd ch W2 fr) as Hfr.
    assert (Hp1 : zlen p1 = 1024) by (unfold p1; rewrite zlen_splice by nia; lia).
    match goal with |- context [decode_loop fuel fb (consumed + 1) ?x] => set (d2 := x) end.
    assert (Hzf : zlen fr = fb) by (unfold fr; rewrite zlen_slice; lia).
    assert (Hdrop : waiting_from (consumed + 1) d2 = drop (Z.to_nat fb) (waiting_from consumed d)).
    { rewrite <- Hwait. rewrite drop_app_length' by (unfold zlen in Hzf; lia). unfold waiting_from. cbn. by rewrite slice_nil_n. }
    assert (Htake : take (Z.to_nat fb) (waiting_from consumed d) = fr).
    { rewrite <- Hwait. by rewrite take_app_length' by (unfold zlen in Hzf; lia). }
    assert (Hzw : fb <= zlen (waiting_from consumed d)).
    { rewrite <- Hwait, zlen_app, Hzf. pose proof (zlen_nonneg (slice (d_ingress d) (consumed + 1) (d_ingress_used d - (consumed + 1)))). lia. }
    destruct (IH (consumed + 1) d2) as (d' & consumed' & k & Hrun & Hcore' & Hdec' & Hd).
    + unfold decode_core, d2, EAF_LMS_PCM_FRAMES, EAF_LMS_INGRESS_BYTES. cbn. split_and!; done || lia.
    + split; [exact W1 |]. split; [exact W2 |]. cbn. fold wd ch fb. lia.
    + cbn. lia.
    + cbn. lia.
    + exists d', consumed', (S k). split; [exact Hrun |]. split; [exact Hcore' |]. split; [exact Hdec' |].
      assert (Hk512 : Z.of_nat k + d_pcm_count d + 1 <= 512) by (destruct Hd as (_ & _ & _ & _ & _ & _ & _ & E & _); destruct Hcore' as (_ & _ & _ & _ & E5 & _); cbn in E; unfold EAF_LMS_PCM_FRAMES in E5; lia).
      unfold decoded in *. rewrite Hdrop in Hd.
      cbn [d2 d1 put_tail put_pcm d_pcm_sent d_format d_width d_big_endian d_ingress d_ingress_used d_pcm_count d_pcm] in Hd. fold wd ch fb in Hd. fold wd ch fb.
      destruct Hd as (E1 & E2 & E3 & E4 & E5 & E6 & E7 & E8 & E9 & E10 & E11 & E12).
      assert (Hzd : zlen (drop (Z.to_nat fb) (waiting_from consumed d)) = zlen (waiting_from consumed d) - fb) by (unfold zlen in *; rewrite length_drop; lia).
      split_and!; try done; try lia.
      * rewrite E10. unfold p1. cbn [lms_frames]. fold fb. rewrite Htake.
        set (frs := lms_frames _ _ _ k _). assert (Hfrs : zlen frs = Z.of_nat k * ch) by (unfold frs; by apply zlen_lms_frames).
        replace ((d_pcm_count d + 1) * ch) with (d_pcm_count d * ch + zlen (lms_frame (d_big_endian d) wd ch fr)) by lia.
        rewrite splice_app by nia. done.
      * rewrite E11, drop_drop. done.
Qed.

(** The ring is moved to the front: the same bytes wait. *)
Lemma decode_run_eq d : decode_ok true d ->
  exists d' k, decode_run d = Some d' /\ decode_ok true d' /\
    d_pcm_sent d' = d_pcm_sent d /\ d_format d' = d_format d /\ d_width d' = d_width d /\ d_big_endian d' = d_big_endian d /\
    d_pcm_count d' = d_pcm_count d + Z.of_nat k /\ Z.of_nat k * (d_width d * num_channels (d_format d)) <= zlen (waiting d) /\
    d_pcm d' = splice (d_pcm d) (d_pcm_count d * num_channels (d_format d))
                 (lms_frames (d_big_endian d) (d_width d) (num_channels (d_format d)) k (waiting d)) /\
    waiting d' = drop (k * Z.to_nat (d_width d * num_channels (d_format d))) (waiting d) /\
    (d_pcm_count d' = EAF_LMS_PCM_FRAMES \/ d_ingress_used d' = 0).
Proof.
  intros [Hcore Hdec]. specialize (Hdec eq_refl). pose proof Hcore as (D1 & D2 & D3 & D4 & D5 & D6 & D7 & D8).
  destruct (decode_loop_eq (Z.to_nat (d_ingress_used d)) 0 d Hcore Hdec) as (d1 & consumed & k & Hrun & Hcore1 & Hdec1 & Hd); [lia | lia |].
  unfold decoded in Hd. destruct Hd as (E1 & E2 & E3 & E4 & E5 & E6 & E7 & E8 & E9 & E10 & E11 & E12).
  unfold decode_run. rewrite Hrun. cbn [mbind option_bind]. unfold waiting. destruct (decide (consumed <> 0)) as [Hne|E0].
  - unfold EAF_LMS_INGRESS_BYTES in *. rewrite E5, E6. rewrite ldn_eq by lia. cbn [mbind option_bind].
    set (rest := slice (d_ingress d) consumed (d_ingress_used d - consumed)).
    assert (Hz : zlen rest = d_ingress_used d - consumed) by (unfold rest; rewrite zlen_slice; lia).
    rewrite stn_eq by lia. cbn [mbind option_bind]. eexists _, k. split; [done |].
    split; [split; [| intros _; exact Hdec1] | cbn [put_ingress d_pcm_sent d_format d_width d_big_endian d_ingress d_ingress_used d_pcm_count d_pcm]; split_and!; try done].
    + destruct Hcore1 as (C1 & C2 & C3 & C4 & C5 & C6 & C7 & C8). unfold decode_core, EAF_LMS_INGRESS_BYTES. cbn.
      split_and!; try done; try lia; [rewrite zlen_splice; lia |]. apply splice_forall; [done |]. by apply slice_forall.
    + rewrite <- E11. unfold waiting_from. cbn. rewrite E5, E6. f_equal. fold rest. rewrite Z.sub_0_r, <- Hz.
      rewrite (slice_splice (d_ingress d) rest 0 0) by lia. by rewrite slice_full.
    + destruct E12 as [|E12]; [by left | right; lia].
  - assert (consumed = 0) as -> by (destruct (decide (consumed = 0)); [done | by destruct E0]).
    exists d1, k. split; [done |]. split; [by split |]. split_and!; try done. destruct E12 as [|E12]; [by left | right; lia].
Qed.

(** ** Handing the chunk to the output *)

Section output.
Context {W : Type} `{NetHalLaws W}.
Implicit Types (c : eaf_lms_client_t W) (w : W).

(** Decoded and not yet taken by the output. *)
Definition unheard c : list Z :=
  slice (pcm c) (pcm_sent c * num_channels (format c)) ((pcm_count c - pcm_sent c) * num_channels (format c)).

(** The parts a drain leaves alone. *)
Definition same_stream c c' : Prop :=
  streaming c' = true /\ format c' = format c /\ width c' = width c /\ big_endian c' = big_endian c /\ callbacks c' = callbacks c.

Lemma same_stream_trans c1 c2 c3 : same_stream c1 c2 -> same_stream c2 c3 -> same_stream c1 c3.
Proof. unfold same_stream. intuition congruence. Qed.

(** The output is offered exactly what it has not heard; what it takes of that is
    crossed off, and a claim to have taken more changes nothing. *)
Definition flushed c w c' w' : Prop :=
  let left := pcm_count c - pcm_sent c in
  (left <= 0 /\ decode c' = decode c /\ w' = w) \/
  exists f wrote, cb_pcm (callbacks c) = Some f /\ f (unheard c) left w = (w', wrote) /\ 0 < left /\
    decode c' = if decide (left < wrote) then decode c else decode (set_pcm_sent (pcm_sent c + wrote) c).

Lemma flush_cases c w : client_inv c -> streaming c = true ->
  exists c' w' rc, flush_pcm c w = Some (c', w', rc) /\ client_inv c' /\ same_stream c c' /\ flushed c w c' w' /\
    (rc = EAF_OK \/ rc = EAF_INVALID).
Proof.
  intros Hc Hs. pose proof Hc as [Htx Hex [Hcore Hdec] Hbu Hpr (B1 & B2 & B3 & B4 & f & Hf & Hpos)]. specialize (Hdec Hs).
  destruct Hcore as (D1 & D2 & D3 & D4 & D5 & D6 & D7 & D8). destruct Hdec as (W1 & W2 & W3). unfold EAF_LMS_PCM_FRAMES in *.
  unfold flush_pcm. destruct (decide (pcm_count c <= pcm_sent c)) as [|Hgt].
  { exists c, w, EAF_OK. split; [done |]. split; [done |]. split; [done |]. split; [left; split_and!; done || lia | by left]. }
  change (callbacks (set_stage EAF_LMS_STAGE_PCM c)) with (callbacks c). rewrite Hf. cbn [mbind option_bind].
  change (decode (set_stage EAF_LMS_STAGE_PCM c)) with (decode c).
  set (left := pcm_count c - pcm_sent c). rewrite ldn_eq by (unfold left; nia). cbn [mbind option_bind].
  change (slice (pcm c) (pcm_sent c * num_channels (format c)) (left * num_channels (format c))) with (unheard c).
  pose proof (Hpos (unheard c) left w) as Hn. destruct (f (unheard c) left w) as [w' wrote] eqn:Ef. cbn [snd] in Hn.
  assert (Hflushed : forall c', decode c' = (if decide (left < wrote) then decode c else decode (set_pcm_sent (pcm_sent c + wrote) c)) -> flushed c w c' w').
  { intros c' Hd. right. exists f, wrote. split; [done |]. split; [exact Ef |]. split; [lia | exact Hd]. }
  destruct (decide (left < wrote)) as [|Hle].
  { exists (set_stage EAF_LMS_STAGE_PCM c), w', EAF_INVALID. split; [done |]. split; [by apply inv_stage |]. split; [by split_and! |].
    split; [by apply Hflushed | by right]. }
  set (c1 := set_stage EAF_LMS_STAGE_PCM c). set (c2 := set_pcm_sent _ c1). set (c3 := set_diagnostics _ c2).
  assert (Hc3 : client_inv c3).
  { apply inv_progress; [| exact Hpr]. apply inv_decode; [by apply inv_stage |]. split; [| intros _; split; [exact W1 | split; [exact W2 | exact W3]]].
    unfold decode_core, EAF_LMS_PCM_FRAMES. cbn. unfold left in *. split_and!; done || lia. }
  assert (Hdone : forall c' rc, client_inv c' -> decode c' = decode c3 -> streaming c' = true -> callbacks c' = callbacks c ->
    rc = EAF_OK \/ rc = EAF_INVALID ->
    exists c'' w'' rc', Some (c', w', rc) = Some (c'', w'', rc') /\ client_inv c'' /\ same_stream c c'' /\ flushed c w c'' w'' /\
      (rc' = EAF_OK \/ rc' = EAF_INVALID)).
  { intros c' rc Hc' Hd Hs' Hcb Hrc. exists c', w', rc. split; [done |]. split; [done |]. split; [unfold same_stream; by rewrite Hd |].
    split; [by apply Hflushed | done]. }
  destruct (buffered_output c3 && negb _ && bool_decide _); [by apply Hdone; try right |].
  set (c4 := if buffered_output c3 && negb (output_released c3) then _ else c3).
  assert (Hc4 : client_inv c4 /\ decode c4 = decode c3 /\ streaming c4 = true /\ callbacks c4 = callbacks c).
  { unfold c4. destruct (_ && _); [| by split_and!]. split; [| by split_and!]. apply inv_session; [done | done | exact Hbu]. }
  destruct Hc4 as (Hc4 & Hd4 & Hs4 & Hb4). set (c5 := progress_if _ c4).
  assert (Hc5 : client_inv c5) by (apply inv_progress; [done | exact (ci_progress _ Hc4)]).
  destruct (decide (wrote < left)); apply Hdone; try done; try (by left).
  apply inv_progress; [apply inv_progress; [done |] |]; exact (ci_progress _ Hc5).
Qed.

(** A drain keeps whatever its parts keep. *)
Lemma drain_keeps (P : eaf_lms_client_t W -> W -> Prop) c w :
  (forall c w, P c w -> exists c' w' rc, flush_pcm c w = Some (c', w', rc) /\ P c' w' /\ (rc = EAF_OK \/ rc = EAF_INVALID)) ->
  (forall c w, P c w -> pcm_sent c = pcm_count c -> P (set_pcm_sent 0 (set_pcm_count 0 c)) w) ->
  (forall c w, P c w -> pcm_sent c = 0 -> pcm_count c = 0 -> exists d, decode_run (decode c) = Some d /\ P (put_decode d c) w) ->
  (forall c w, P c w -> P (set_step_progress true c) w) ->
  P c w -> exists c' w' rc, pump_drain c w = Some (c', w', rc) /\ P c' w' /\ (rc = EAF_OK \/ rc = EAF_INVALID).
Proof.
  intros Hflush Hreset Hdecode Hprog Hc. unfold pump_drain. destruct (Hflush c w Hc) as (c1 & w1 & rc1 & -> & H1 & R1).
  unfold check. cbn [mbind option_bind]. destruct (decide (rc1 <> 0)); [by exists c1, w1, rc1 |].
  destruct (decide (pcm_sent c1 = pcm_count c1)) as [E|]; [| exists c1, w1, EAF_OK; split; [done | split; [done | by left]]].
  pose proof (Hreset c1 w1 H1 E) as H2. set (c2 := set_pcm_sent 0 _) in *.
  destruct (Hdecode c2 w1 H2 eq_refl eq_refl) as (d & Hrun & H3). unfold ingress_decode. rewrite Hrun. cbn [mbind option_bind].
  rewrite decide_False by (intros Ht; by apply Ht).
  destruct (decide _); [exact (Hflush _ w1 (Hprog _ _ H3)) |]. exists (put_decode d c2), w1, EAF_OK. split; [done | split; [done | by left]].
Qed.

Lemma reset_chunk_inv c : client_inv c -> client_inv (set_pcm_sent 0 (set_pcm_count 0 c)).
Proof.
  intros Hc. pose proof (ci_decode _ Hc) as [(D1 & D2 & D3 & D4 & D5 & D6 & D7 & D8) Hdec]. apply (inv_decode c); [done |]. split; [| exact Hdec].
  unfold decode_core, EAF_LMS_PCM_FRAMES in *. cbn. split_and!; done || lia.
Qed.

Lemma progress_inv c b : client_inv c -> client_inv (set_step_progress b c).
Proof. intros Hc. apply inv_progress; [done | exact (ci_progress _ Hc)]. Qed.
End output.

(** ** The ledger *)

(** The output takes a prefix of what it is offered and remembers it. *)
Definition output_laws {W} (cb : eaf_lms_callbacks_t W) (heard : W -> list Z) (ch : Z) : Prop :=
  exists f, cb_pcm cb = Some f /\ forall p n w, 0 <= n -> zlen p = n * ch ->
    0 <= (f p n w).2 <= n /\ heard (f p n w).1 = heard w ++ slice p 0 ((f p n w).2 * ch).

Section ledger.
Context {W : Type} `{NetHalLaws W} (heard : W -> list Z).
Implicit Types (c : eaf_lms_client_t W) (w : W).

(** Everything the output has heard or will hear once [more] has arrived. *)
Definition owed (more : list Z) c w : list Z :=
  heard w ++ unheard c ++ decode_all (big_endian c) (width c) (num_channels (format c)) (waiting (decode c) ++ more).

Lemma flush_owed c w c' w' : client_inv c -> streaming c = true -> output_laws (callbacks c) heard (num_channels (format c)) ->
  flushed c w c' w' -> forall more, owed more c' w' = owed more c w.
Proof.
  intros Hc Hs (f & Hf & Hlaw) Hfl more. pose proof (ci_decode _ Hc) as [(D1 & D2 & D3 & D4 & D5 & D6 & D7 & D8) Hdec].
  destruct (Hdec Hs) as (W1 & W2 & W3). unfold EAF_LMS_PCM_FRAMES in *.
  destruct Hfl as [(_ & Hd & ->)|(f' & wrote & Hf' & Hrun & Hleft & Hd)]; [unfold owed, unheard; by rewrite Hd |].
  assert (f' = f) as -> by congruence. set (ch := num_channels (format c)) in *. set (left := pcm_count c - pcm_sent c) in *.
  assert (Hzp : zlen (unheard c) = left * ch) by (unfold unheard; rewrite zlen_slice; nia).
  destruct (Hlaw (unheard c) left w) as [Hn Hh]; [lia | done |]. rewrite Hrun in Hn, Hh. cbn [fst snd] in Hn, Hh.
  rewrite decide_False in Hd by lia. unfold owed. rewrite Hh, Hd, <- app_assoc. f_equal. rewrite app_assoc. f_equal.
  unfold unheard at 2. rewrite Hd. change (pcm (set_pcm_sent (pcm_sent c + wrote) c)) with (pcm c).
  change (format (set_pcm_sent (pcm_sent c + wrote) c)) with (format c). fold ch.
  change (pcm_count (set_pcm_sent (pcm_sent c + wrote) c)) with (pcm_count c).
  change (pcm_sent (set_pcm_sent (pcm_sent c + wrote) c)) with (pcm_sent c + wrote).
  unfold unheard. fold ch left. rewrite slice_inner by (unfold left in *; nia). rewrite Z.add_0_r.
  replace (left * ch) with (wrote * ch + (pcm_count c - (pcm_sent c + wrote)) * ch) by (unfold left; lia).
  rewrite slice_add by (unfold left in *; nia). do 2 f_equal. lia.
Qed.

Lemma decode_owed c w d : client_inv c -> streaming c = true -> pcm_sent c = 0 -> pcm_count c = 0 -> decode_run (decode c) = Some d ->
  client_inv (put_decode d c) /\ same_stream c (put_decode d c) /\ forall more, owed more (put_decode d c) w = owed more c w.
Proof.
  intros Hc Hs Hsent Hcount Hrun. pose proof (ci_decode _ Hc) as Hok. rewrite Hs in Hok.
  destruct (decode_run_eq _ Hok) as (d' & k & Hrun' & Hok' & E1 & E2 & E3 & E4 & E5 & E6 & E7 & E8 & _).
  assert (d' = d) as -> by congruence. destruct Hok as [(D1 & D2 & D3 & D4 & D5 & D6 & D7 & D8) Hdec]. destruct (Hdec eq_refl) as (W1 & W2 & W3).
  destruct Hok' as [Hcore' Hdec']. pose proof Hcore' as (_ & _ & _ & _ & C5 & _). unfold EAF_LMS_PCM_FRAMES in *.
  split; [apply inv_decode; [done |]; split; [exact Hcore' | intros _; exact (Hdec' eq_refl)] |]. split; [unfold same_stream; by split_and! |]. intros more. unfold owed.
  set (wd := width c) in *. set (ch := num_channels (format c)) in *. set (big := big_endian c) in *.
  change (big_endian (put_decode d c)) with (d_big_endian d). change (width (put_decode d c)) with (d_width d).
  change (format (put_decode d c)) with (d_format d). change (decode (put_decode d c)) with d. rewrite E2, E3, E4. fold wd ch big.
  f_equal. unfold unheard. change (format (put_decode d c)) with (d_format d). change (pcm (put_decode d c)) with (d_pcm d).
  change (pcm_sent (put_decode d c)) with (d_pcm_sent d). change (pcm_count (put_decode d c)) with (d_pcm_count d).
  rewrite E1, E2, E5, E7, Hsent, Hcount. fold ch. rewrite !Z.mul_0_l, Z.sub_0_r, Z.add_0_l, slice_nil_n. cbn [app].
  set (frs := lms_frames _ _ _ k _). assert (Hz : zlen frs = Z.of_nat k * ch) by (unfold frs; by apply zlen_lms_frames).
  pose proof (slice_splice (pcm c) frs 0 0 (Z.of_nat k * ch) ltac:(lia) ltac:(nia) ltac:(lia) ltac:(nia) ltac:(lia)) as Hsl.
  rewrite Z.add_0_l in Hsl. rewrite Hsl, slice_full by lia. rewrite E8.
  rewrite (decode_all_split big wd ch W1 W2 k (waiting (decode c) ++ more)) by (rewrite zlen_app; pose proof (zlen_nonneg more); lia).
  rewrite lms_frames_prefix by done. unfold frs. f_equal. f_equal. rewrite drop_app_le; [done |]. unfold zlen in *. nia.
Qed.

Lemma drain_drains c w : client_inv c -> streaming c = true -> output_laws (callbacks c) heard (num_channels (format c)) ->
  exists c' w' rc, pump_drain c w = Some (c', w', rc) /\ client_inv c' /\ same_stream c c' /\ (forall more, owed more c' w' = owed more c w).
Proof.
  intros Hc Hs Hlaw. set (P c' w' := client_inv c' /\ same_stream c c' /\ forall more, owed more c' w' = owed more c w).
  destruct (drain_keeps P c w) as (c' & w' & rc & Hrun & HP & _); [| | | | | by exists c', w', rc].
  - intros c1 w1 (H1 & S1 & O1). pose proof S1 as (Hs1 & F1 & _ & _ & C1).
    destruct (flush_cases c1 w1 H1 Hs1) as (c2 & w2 & rc & Hrun & H2 & S2 & Hfl & Hrc). exists c2, w2, rc. split; [done |]. split; [| done].
    split; [done |]. split; [by apply (same_stream_trans c c1) |]. intros more. rewrite <- O1. apply flush_owed; [done | done | by rewrite C1, F1 | done].
  - intros c1 w1 (H1 & S1 & O1) E. split; [by apply reset_chunk_inv |]. split; [exact S1 |]. intros more. rewrite <- O1.
    unfold owed, unheard. change (waiting (decode (set_pcm_sent 0 (set_pcm_count 0 c1)))) with (waiting (decode c1)). cbn.
    rewrite E, !Z.sub_diag, ?Z.mul_0_l, !slice_nil_n. reflexivity.
  - intros c1 w1 (H1 & S1 & O1) E1 E2. pose proof (ci_decode _ H1) as Hok. rewrite (proj1 S1) in Hok.
    destruct (decode_run_eq _ Hok) as (d & k & Hrun & _). exists d. split; [done |].
    destruct (decode_owed c1 w1 d H1 (proj1 S1) E1 E2 Hrun) as (H3 & S3 & O3). split; [done |].
    split; [by apply (same_stream_trans c c1) |]. intros more. by rewrite O3, O1.
  - intros c1 w1 (H1 & S1 & O1). split; [by apply progress_inv | exact (conj S1 O1)].
  - by split.
Qed.

(** Received bytes join the waiting ones, all of them or none. *)
Lemma fill_owed c p : client_inv c -> bytes_wf p ->
  exists c' rc, ingress_fill c p (zlen p) = Some (c', rc) /\ client_inv c' /\ streaming c' = streaming c /\ format c' = format c /\
    width c' = width c /\ big_endian c' = big_endian c /\ callbacks c' = callbacks c /\
    (rc <> EAF_OK -> c' = c) /\ (rc = EAF_OK -> forall more w, owed more c' w = owed (p ++ more) c w).
Proof.
  intros Hc Hp. pose proof (zlen_nonneg p) as Hzp. unfold ingress_fill. destruct (decide (zlen p = 0)) as [E|Hne].
  { exists c, EAF_OK. apply zlen_0_nil in E. rewrite E. split_and!; done. }
  destruct (decide (EAF_LMS_INGRESS_BYTES - ingress_used c < zlen p)); [by exists c, EAF_INVALID |].
  destruct (has_length c && bool_decide (remaining c < zlen p)); [by exists c, EAF_INVALID |].
  pose proof (ci_decode _ Hc) as [(D1 & D2 & D3 & D4 & D5 & D6 & D7 & D8) Hdec]. unfold EAF_LMS_INGRESS_BYTES in *.
  set (c1 := if has_length c then _ else c).
  assert (H1 : client_inv c1 /\ decode c1 = decode c /\ session c1 = session c /\ callbacks c1 = callbacks c).
  { unfold c1. destruct (has_length c); [| done]. split; [| done]. apply inv_exchange; [apply inv_exchange; [done |] |]; exact (ci_exchange _ Hc). }
  destruct H1 as (H1 & Hd1 & Hs1 & Hcb1). set (c2 := set_bytes_received _ c1).
  assert (H2 : client_inv c2) by (apply inv_session; [done | done | exact (ci_buffered _ H1)]).
  change (decode c2) with (decode c1). rewrite Hd1. rewrite memcpy_eq by lia. cbn [mbind option_bind]. rewrite (slice_full p) by lia.
  set (r := splice (ingress c) (ingress_used c) p). assert (Hr : zlen r = 4096) by (unfold r; rewrite zlen_splice; lia).
  eexists _, EAF_OK. split; [done |].
  split.
  { assert (Hd : forall u, 0 <= u <= 4096 ->
      decode_ok (streaming c) (Decode (tail c) (tail_used c) (pcm c) (pcm_count c) (pcm_sent c) r u (format c) (width c) (big_endian c))).
    { intros u Hu. split; [| exact Hdec]. unfold decode_core, EAF_LMS_INGRESS_BYTES. cbn. split_and!; try done; try lia. by apply splice_forall. }
    apply inv_decode; [apply inv_decode; [done |] |]; cbn; rewrite ?Hs1, ?Hd1; apply Hd; lia. }
  cbn -[owed]. rewrite Hs1, Hd1. split_and!; try done. intros _ more w. unfold owed, unheard, waiting, waiting_from. cbn. rewrite Hd1.
  do 3 f_equal. rewrite !Z.sub_0_r, <- !app_assoc. f_equal. rewrite app_assoc. f_equal. rewrite slice_add by lia. f_equal.
  - apply slice_splice_before; lia.
  - rewrite Z.add_0_l. pose proof (slice_splice (ingress c) p (ingress_used c) 0 (zlen p)) as E. rewrite Z.add_0_r in E.
    unfold r. rewrite E by lia. by rewrite slice_full.
Qed.

(** ** A stream *)

Inductive lms_body_op := LBody (p : list Z) | LDrain.

(** Body bytes arriving and the drains of the pump, in any order; the third result
    is what was taken in. *)
Fixpoint body_run (ops : list lms_body_op) c w (taken : list Z) : ub (eaf_lms_client_t W * W * list Z) :=
  match ops with
  | [] => Some (c, w, taken)
  | LBody p :: ops =>
      '(c, rc) ← ingress_fill c p (zlen p);
      body_run ops c w (if decide (rc = EAF_OK) then taken ++ p else taken)
  | LDrain :: ops => '(c, w, _) ← pump_drain c w; body_run ops c w taken
  end.

Definition body_op_ok (op : lms_body_op) : Prop := match op with LBody p => bytes_wf p | LDrain => True end.

Lemma body_run_owed ops c w taken :
  client_inv c -> streaming c = true -> output_laws (callbacks c) heard (num_channels (format c)) -> Forall body_op_ok ops ->
  exists c' w' got, body_run ops c w taken = Some (c', w', taken ++ got) /\ client_inv c' /\ same_stream c c' /\
    forall more, owed more c' w' = owed (got ++ more) c w.
Proof.
  revert c w taken. induction ops as [|op ops IH]; intros c w taken Hc Hs Hlaw Hops; cbn [body_run].
  { exists c, w, []. rewrite app_nil_r. split_and!; done. }
  pose proof (Forall_inv Hops) as Hop. pose proof (Forall_inv_tail Hops) as Hrest. clear Hops. destruct op as [p|].
  - destruct (fill_owed c p Hc Hop) as (c1 & rc & -> & H1 & S1 & F1 & W1 & B1 & C1 & Hno & Hyes). cbn [mbind option_bind].
    destruct (IH c1 w (if decide (rc = EAF_OK) then taken ++ p else taken)) as (c2 & w2 & got & Hrun & H2 & S2 & O2);
      [done | by rewrite S1 | by rewrite C1, F1 | exact Hrest |].
    assert (Hst : same_stream c c2) by (apply (same_stream_trans c c1); [unfold same_stream; by rewrite S1 | exact S2]).
    rewrite Hrun. destruct (decide (rc = EAF_OK)) as [E|E].
    + exists c2, w2, (p ++ got). rewrite app_assoc. split_and!; try done; try apply Hst. intros more. rewrite O2, (Hyes E), app_assoc. done.
    + rewrite (Hno E) in *. exists c2, w2, got. split; [done |]. split; [done |]. split; [exact Hst | exact O2].
  - destruct (drain_drains c w Hc Hs Hlaw) as (c1 & w1 & rc & -> & H1 & S1 & O1). cbn [mbind option_bind].
    pose proof S1 as (Hs1 & F1 & _ & _ & C1).
    destruct (IH c1 w1 taken) as (c2 & w2 & got & Hrun & H2 & S2 & O2); [done | done | by rewrite C1, F1 | exact Hrest |].
    exists c2, w2, got. split; [done |]. split; [done |]. split; [by apply (same_stream_trans c c1) |]. intros more. by rewrite O2, O1.
Qed.
End ledger.

(** ** The claim *)


(** ** A concrete client *)

(** The world is what the output heard; the network is silent. *)
#[export] Instance demo_hal : NetHal (list Z) := {
  hal_tcp_connect t _ _ _ w := (t, w, EAF_IO);
  hal_tcp_send t _ w := (t, w, 0, EAF_AGAIN);
  hal_tcp_recv t _ w := (t, w, [], EAF_AGAIN);
  hal_tcp_close t w := (Tcp (fd t) false, w);
  hal_monotonic_time_us w := (w, 0)
}.
#[export] Instance demo_hal_laws : NetHalLaws (list Z).
Proof.
  split.
  - intros t data w t' w' n rc [= <- <- <- <-]. pose proof (zlen_nonneg data). lia.
  - intros t cap w t' w' data rc [= <- <- <- <-] _ E. discriminate E.
  - intros t cap w t' w' data rc [= <- <- <- <-]. constructor.
  - done.
  - intros t ip port ms w t' w' rc [= <- _ _] _. done.
Qed.

(** An output that takes at most one frame at a time. *)
Definition demo_output (ch : Z) : eaf_lms_callbacks_t (list Z) :=
  Callbacks (Some (fun _ w => (w, EAF_OK))) (Some (fun p n w => (w ++ slice p 0 (Z.max 0 (Z.min n 1) * ch), Z.max 0 (Z.min n 1))))
    (Some (fun w => w)) (Some (fun w => w)) None None None None.

(** 16-bit big-endian stereo. *)
Definition demo_client : eaf_lms_client_t (list Z) :=
  set_big_endian true (set_width 2 (set_format (Format 44100 2 3) (set_streaming true (client_zero (demo_output 2))))).

Lemma demo_output_laws : output_laws (demo_output 2) (fun w => w) 2.
Proof.
  eexists. split; [reflexivity |]. intros p n w Hn Hp. cbn [fst snd]. split; [lia | done].
Qed.

Lemma demo_client_inv : client_inv demo_client.
Proof.
  assert (Hcb : callbacks_ok (demo_output 2)).
  { unfold callbacks_ok. split; [by left |]. split_and!; try done. eexists. split; [reflexivity |]. intros p n w. cbn [snd]. lia. }
  pose proof (client_zero_inv (demo_output 2) Hcb) as [Htx Hex [Hcore _] Hbu Hpr _].
  split; [exact Htx | exact Hex | | done | exact Hpr | exact Hcb]. split; [exact Hcore |]. intros _. unfold decoding. cbn. lia.
Qed.


Example lms_decode_demo :
  (fun '(_, w, _) => w) <$> body_run [LBody [0; 1; 255; 255; 128]; LDrain; LBody [0; 127; 255]; LDrain] demo_client [] []
    = Some [65536; -65536; -2147483648; 2147418112].
Proof. vm_compute. reflexivity. Qed.
