(* ===== verification/LmsStep.v ===== *)
(** The steps of the LMS client: every call of its interface, in any order and
    whatever the server, the transport and the output do, returns and keeps the
    invariant of [LmsSafe]; a failing step leaves both connections closed. *)

From stdpp Require Import strings.
From S2P Require Import Prelude Types Bytes Text Net LmsProtocol LmsClient LmsSafe LmsDecode.

Section step.
Context {W : Type} `{NetHalLaws W}.
Implicit Types (c : eaf_lms_client_t W) (w : W).

(** ** Readiness, release and end of the track *)

Lemma status_keeps c w (event : string) ts : zlen (chars event) = 4 -> client_inv c ->
  exists t w' rc, status c w event ts = Some (put_tx_part t c, w', rc) /\ tx_ok t.
Proof.
  intros He Hc. unfold status. destruct (hal_monotonic_time_us w) as [w1 us].
  destruct (status_body_eq c (chars event) ts (u32 (us / 1000)) He) as (b & -> & Hb). cbn [mbind option_bind].
  destruct (enqueue_eq c (chars "STAT") b 53 (ci_tx _ Hc) eq_refl ltac:(lia) ltac:(lia)) as (t & Ht & -> & _).
  cbn [mbind option_bind]. by eexists t, w1, _.
Qed.

(** [r] leaves a sound client that still plays to the same output. *)
Definition plays (cb : eaf_lms_callbacks_t W) (r : ub (eaf_lms_client_t W * W * Z)) : Prop :=
  exists c w rc, r = Some (c, w, rc) /\ client_inv c /\ streaming c = true /\ callbacks c = cb.

Lemma plays_ret cb c w rc : client_inv c -> streaming c = true -> callbacks c = cb -> plays cb (Some (c, w, rc)).
Proof. intros. by exists c, w, rc. Qed.

Lemma plays_check cb r k :
  plays cb r -> (forall c w, client_inv c -> streaming c = true -> callbacks c = cb -> plays cb (k c w)) -> plays cb (check r k).
Proof.
  intros (c & w & rc & -> & Hc & Hs & Hcb) Hk. unfold check. cbn [mbind option_bind].
  destruct (decide (rc <> 0)); [by apply plays_ret | by apply Hk].
Qed.

Lemma plays_yields cb r : plays cb r -> yields true r.
Proof. intros (c & w & rc & -> & Hc & Hs & _). by apply yields_ret. Qed.

(** Report, then note in the session that it was sent. *)
Lemma report_plays cb c w (event : string) (note : eaf_lms_client_t W -> lms_session_t) :
  zlen (chars event) = 4 -> client_inv c -> streaming c = true -> callbacks c = cb ->
  (forall c, s_streaming (note c) = streaming c /\ s_buffered_output (note c) = buffered_output c) ->
  plays cb (check (status c w event 0) (fun c w => Some (set_step_progress true (put_session (note c) c), w, EAF_OK))).
Proof.
  intros He Hc Hs Hcb Hn. apply plays_check.
  - destruct (status_keeps c w event 0 He Hc) as (t & w' & rc & -> & Ht). apply plays_ret; [by apply inv_tx | exact Hs | exact Hcb].
  - intros c1 w1 H1 S1 C1. destruct (Hn c1) as [N1 N2]. apply plays_ret; [| cbn; by rewrite N1 | exact C1].
    apply progress_inv, inv_session; [done | by rewrite N1 | rewrite N2; exact (ci_buffered _ H1)].
Qed.

Lemma ready_plays cb c w : client_inv c -> streaming c = true -> callbacks c = cb -> plays cb (service_ready c w).
Proof.
  intros Hc Hs Hcb. unfold service_ready. destruct (wait_start c && _); [| by apply plays_ret].
  by apply (report_plays cb c w "STMl" (fun c => session (set_ready_sent true c))).
Qed.

Lemma eof_plays cb c w : client_inv c -> streaming c = true -> callbacks c = cb -> plays cb (service_eof c w).
Proof.
  intros Hc Hs Hcb. unfold service_eof. destruct (input_eof c && _ && _); [| by apply plays_ret].
  by apply (report_plays cb c w "STMd" (fun c => session (set_eof_sent true c))).
Qed.

Lemma release_plays cb c w : has (release cb) = true -> client_inv c -> streaming c = true -> callbacks c = cb ->
  plays cb (service_release c w).
Proof.
  intros Hrel Hc Hs Hcb. unfold service_release. destruct (_ && _ && _); [| by apply plays_ret].
  change (callbacks (set_stage EAF_LMS_STAGE_OUTPUT_START c)) with (callbacks c). rewrite Hcb.
  destruct (release cb) as [f|]; [| done]. cbn [mbind option_bind]. destruct (f w) as [w' rc].
  pose proof (inv_stage c EAF_LMS_STAGE_OUTPUT_START Hc) as H1. destruct (decide (rc <> 0)); [by apply plays_ret |].
  apply plays_ret; [| done | done]. apply progress_inv, inv_session; [done | done | exact (ci_buffered _ H1)].
Qed.

Lemma buffered_plays c w : client_inv c -> streaming c = true -> plays (callbacks c) (service_buffered c w).
Proof.
  intros Hc Hs. unfold service_buffered. destruct (buffered_output c) eqn:Hb; cbn [negb orb]; [| by apply plays_ret].
  destruct (_ || _); [by apply plays_ret |].
  assert (Hrel : has (release (callbacks c)) = true).
  { destruct (ci_callbacks _ Hc) as (_ & _ & _ & <- & _). by apply (ci_buffered _ Hc). }
  apply plays_check; [by apply ready_plays |]. intros c1 w1 H1 S1 C1.
  apply plays_check; [by apply release_plays |]. intros c2 w2 H2 S2 C2. by apply eof_plays.
Qed.

(** ** The HTTP side *)

Lemma fill_inv c p : client_inv c -> bytes_wf p ->
  exists c' rc, ingress_fill c p (zlen p) = Some (c', rc) /\ client_inv c' /\ streaming c' = streaming c.
Proof.
  intros Hc Hp. destruct (fill_owed (fun _ => []) c p Hc Hp) as (c' & rc & Hrun & Hc' & Hs & _). by exists c', rc.
Qed.

Lemma lms_drain_yields c w : client_inv c -> streaming c = true -> yields true (pump_drain c w).
Proof.
  intros Hc Hs. destruct (drain_keeps (fun c w => client_inv c /\ streaming c = true) c w) as (c' & w' & rc & -> & (Hc' & Hs') & _);
    [| | | | done | by apply yields_ret].
  - intros c1 w1 (H1 & S1). destruct (flush_cases c1 w1 H1 S1) as (c2 & w2 & rc & Hrun & H2 & (S2 & _) & _ & Hrc).
    exists c2, w2, rc. split; [exact Hrun |]. by split.
  - intros c1 w1 (H1 & S1) _. split; [by apply reset_chunk_inv | exact S1].
  - intros c1 w1 (H1 & S1) _ _. pose proof (ci_decode _ H1) as Hok. rewrite S1 in Hok.
    destruct (decode_run_eq _ Hok) as (d & k & Hrun & Hd & _). exists d. split; [exact Hrun |]. split; [| exact S1].
    apply inv_decode; [done |]. by rewrite S1.
  - intros c1 w1 (H1 & S1). split; [by apply progress_inv | exact S1].
Qed.

Lemma complete_yields c w : client_inv c -> streaming c = true -> yields true (pump_complete c w).
Proof.
  intros Hc Hs. unfold pump_complete. destruct (decide _); [by apply yields_ret |].
  pose proof (progress_inv c true Hc) as H1. change (callbacks (set_step_progress true c)) with (callbacks c).
  destruct (ci_callbacks _ Hc) as (_ & _ & He & _). destruct (eof (callbacks c)) as [f|]; [| done]. cbn [mbind option_bind].
  set (c2 := set_input_eof true _). assert (H2 : client_inv c2) by (apply inv_session; [done | done | exact (ci_buffered _ H1)]).
  destruct (hal_tcp_close (http c2) (f w)) as [t w1]. destruct (inv_tcp c2 t H2) as [_ H3]. set (c3 := put_http t c2) in *.
  destruct (buffered_output c3); [apply (plays_yields (callbacks c3)); by apply buffered_plays | by apply status_yields].
Qed.

Lemma request_yields c w : client_inv c -> streaming c = true -> request_sent c < request_used c -> yields true (pump_request c w).
Proof.
  intros Hc Hs Hlt. unfold pump_request. pose proof (inv_stage c EAF_LMS_STAGE_HTTP_SEND Hc) as H1.
  set (c1 := set_stage _ c) in *. pose proof (ci_exchange _ H1) as (X1 & X2 & X3 & X4 & X5). unfold EAF_LMS_MAX_PACKET in *.
  assert (Hlt1 : request_sent c1 < request_used c1) by exact Hlt.
  rewrite ldn_eq by lia. cbn [mbind option_bind].
  destruct (hal_tcp_send _ _ w) as [[[t w1] n] rc] eqn:Es. destruct (inv_tcp c1 t H1) as [_ H2]. set (c2 := put_http t c1) in *.
  destruct (decide (rc = EAF_AGAIN)); [by apply yields_ret |]. destruct (decide (rc <> 0)); [by apply yields_ret |].
  apply yields_ret; [| done]. apply progress_inv, inv_exchange; [done |].
  pose proof (send_count _ _ _ _ _ _ _ Es) as Hn. rewrite zlen_slice in Hn by lia.
  change (exchange c1) with (exchange c) in *. unfold exchange_ok, EAF_LMS_MAX_PACKET. cbn. split_and!; lia.
Qed.

Lemma header_byte_ok c ch : client_inv c -> exists c' rc, header_byte c ch = Some (c', rc) /\ client_inv c' /\ streaming c' = streaming c.
Proof.
  intros Hc. unfold header_byte. pose proof (ci_exchange _ Hc) as (X1 & X2 & X3 & X4 & X5). unfold EAF_LMS_MAX_PACKET in *.
  destruct (decide (header_used c = 2048)); [by exists c, EAF_INVALID |]. destruct (decide (ch = 0)); [by exists c, EAF_INVALID |].
  rewrite st_eq by lia. cbn [mbind option_bind]. rewrite st_eq by (rewrite zlen_insert; lia). cbn [mbind option_bind].
  set (c1 := set_header_used _ _). set (h := <[_ := 0]> _) in *.
  assert (Hzh : zlen h = 2049) by (unfold h; rewrite !zlen_insert; lia).
  assert (H1 : client_inv c1).
  { apply (inv_exchange (set_header h c)); [apply inv_exchange; [done |] |]; unfold exchange_ok, EAF_LMS_MAX_PACKET; cbn; split_and!; lia. }
  change (header_used c1) with (header_used c + 1). change (header c1) with h.
  assert (Hblank : exists b, (if decide (4 <= header_used c + 1) then memeq h (header_used c + 1 - 4) [13; 10; 13; 10] else Some false) = Some b).
  { destruct (decide _); [| by eexists]. rewrite memeq_eq by (change (zlen [13; 10; 13; 10]) with 4; lia). by eexists. }
  destruct Hblank as [b ->]. cbn [mbind option_bind]. destruct b; [| by exists c1, EAF_OK].
  assert (Hnul : ld (header c1) (header_used c1) = Some 0).
  { change (ld h (header_used c + 1) = Some 0). rewrite ld_lookup by lia. unfold h. apply list_lookup_insert_eq.
    rewrite length_insert. unfold zlen in X4. lia. }
  destruct (headers_ok c1 H1 Hnul) as (c2 & rc & Hrun & H2 & S2). by exists c2, rc.
Qed.

Lemma header_bytes_ok c data i : client_inv c -> exists c' j rc, header_bytes c data i = Some (c', j, rc) /\ client_inv c' /\
  streaming c' = streaming c /\ i <= j <= i + zlen data.
Proof.
  revert c i. induction data as [|ch data IH]; intros c i Hc; cbn [header_bytes].
  - exists c, i, EAF_OK. change (zlen []) with 0. split_and!; done || lia.
  - rewrite zlen_cons. pose proof (zlen_nonneg data) as Hzd. destruct (headers_done c).
    { exists c, i, EAF_OK. split_and!; done || lia. }
    destruct (header_byte_ok c ch Hc) as (c1 & rc1 & -> & H1 & S1). cbn [mbind option_bind].
    destruct (decide (rc1 <> 0)). { exists c1, (i + 1), rc1. split_and!; done || lia. }
    destruct (IH c1 (i + 1) H1) as (c2 & j & rc & -> & H2 & S2 & Hj). exists c2, j, rc. split; [done |]. split; [done |].
    split; [by rewrite S2 | lia].
Qed.

Lemma receive_yields c w : client_inv c -> streaming c = true -> ingress_used c < EAF_LMS_INGRESS_BYTES -> yields true (pump_receive c w).
Proof.
  intros Hc Hs Hroom. unfold pump_receive. pose proof (inv_stage c EAF_LMS_STAGE_HTTP_RECV Hc) as H1. set (c1 := set_stage _ c) in *.
  set (want := if decide _ then _ else _). assert (Hw : 0 <= want) by (unfold want, EAF_LMS_INGRESS_BYTES, RX_BYTES in *; case_decide; lia).
  destruct (hal_tcp_recv (http c1) want w) as [[[t w1] data] rc] eqn:Er. destruct (inv_tcp c1 t H1) as [_ H2]. set (c2 := put_http t c1) in *.
  pose proof (ci_progress _ H2) as (P1 & P2 & P3).
  destruct (decide (rc = EAF_AGAIN)). { apply yields_ret; [| done]. apply inv_progress; [done |]. by split. }
  destruct (decide (rc = EAF_EOF)).
  { destruct (_ || _); [by apply yields_ret |]. apply yields_ret; [| done]. apply progress_inv, inv_exchange; [done |]. exact (ci_exchange _ H2). }
  destruct (decide (rc <> 0)); [by apply yields_ret |].
  set (c3 := set_stage EAF_LMS_STAGE_HEADERS _).
  assert (H3 : client_inv c3) by (apply inv_stage, progress_inv, inv_progress; [done |]; by split).
  destruct (header_bytes_ok c3 data 0 H3) as (c4 & i & rc4 & -> & H4 & S4 & Hi). cbn [mbind option_bind].
  assert (Hs4 : streaming c4 = true) by (rewrite S4; exact Hs). destruct (decide (rc4 <> 0)); [by apply yields_ret |].
  pose proof (recv_bytes _ _ _ _ _ _ _ Er) as Hb. pose proof (inv_stage c4 EAF_LMS_STAGE_DECODE H4) as H5. set (c5 := set_stage _ c4) in *.
  replace (zlen data - i) with (zlen (drop (Z.to_nat i) data)) by (unfold zlen in *; rewrite length_drop; lia).
  destruct (fill_inv c5 (drop (Z.to_nat i) data) H5 (Forall_drop _ _ _ Hb)) as (c6 & rc6 & -> & H6 & S6). cbn [mbind option_bind].
  apply yields_ret; [done |]. intros _. by rewrite S6.
Qed.

Lemma open_yields c w : client_inv c -> streaming c = true -> yields true (pump_open c w).
Proof.
  intros Hc Hs. unfold pump_open. apply yields_check; [by apply lms_drain_yields |]. intros c1 w1 H1 S1. specialize (S1 eq_refl).
  destruct (body_done c1 && _ && _); [by apply complete_yields |]. destruct (body_done c1 || _) eqn:Eb; [by apply yields_ret |].
  apply orb_false_iff in Eb as [_ Eb]. apply bool_decide_eq_false in Eb.
  destruct (decide (request_sent c1 < request_used c1)); [by apply request_yields | apply receive_yields; [done | done | lia]].
Qed.

Lemma http_yields c w : client_inv c -> yields (streaming c) (pump_http c w).
Proof.
  intros Hc. unfold pump_http. destruct (streaming c) eqn:Hs; cbn [negb]; [| by apply yields_ret].
  apply yields_check; [by apply (plays_yields (callbacks c)), buffered_plays |]. intros c1 w1 H1 S1. specialize (S1 eq_refl).
  destruct (negb _); [by apply yields_ret |]. destruct (headers_done c1 && _); [by apply yields_ret |].
  unfold hold_legacy. destruct (_ && _ && _ && _).
  - destruct (ready_plays (callbacks c1) c1 w1 H1 S1 eq_refl) as (c2 & w2 & rc & -> & H2 & S2 & _). cbn [mbind option_bind]. by apply yields_ret.
  - cbn [mbind option_bind]. by apply open_yields.
Qed.

(** ** Closing and stepping *)

(** Nothing of the session is left. *)
Definition closed c : Prop := tcp_open (control c) = false /\ tcp_open (http c) = false /\ streaming c = false /\ pending (tx_part c) = [].

Lemma close_ok c w : client_inv c -> exists c' w', eaf_lms_client_close c w = Some (c', w') /\ client_inv c' /\ closed c'.
Proof.
  intros Hc. unfold eaf_lms_client_close. destruct (stop_stream_inv c w Hc) as (c1 & w1 & -> & H1 & S1 & _ & _ & T1). cbn [mbind option_bind].
  pose proof (close_closes (control c1) w1) as Hclosed. destruct (hal_tcp_close (control c1) w1) as [t w2]. eexists _, _. split; [done |].
  destruct (inv_tcp c1 t H1) as [H2 _]. pose proof (ci_tx _ H2) as (T & _).
  split; [apply (inv_tx (put_control t c1)); [done |]; unfold tx_ok, TX_BYTES in *; cbn; split_and!; done || lia |].
  split; [exact Hclosed |]. split; [exact T1 |]. split; [exact S1 |]. apply slice_nil_n.
Qed.

Lemma send_ok c w : client_inv c -> exists c' w' rc, step_send c w = Some (c', w', rc) /\ client_inv c'.
Proof.
  intros Hc. unfold step_send. destruct (decide (tx_sent c < tx_used c)) as [Hlt|]; [| by exists c, w, EAF_OK].
  pose proof (inv_stage c EAF_LMS_STAGE_CONTROL_SEND Hc) as H1. set (c1 := set_stage _ c) in *.
  pose proof (ci_tx _ H1) as (T1 & T2 & T3). unfold TX_BYTES in *.
  change (tx_part c1) with (tx_part c) in *. rewrite ldn_eq by lia. cbn [mbind option_bind].
  destruct (hal_tcp_send _ _ w) as [[[t w1] n] rc] eqn:Es. destruct (inv_tcp c1 t H1) as [H2 _]. set (c2 := put_control t c1) in *.
  destruct (decide _); [| by eexists _, _, _]. eexists _, _, _. split; [done |]. apply progress_inv, inv_tx; [done |].
  pose proof (send_count _ _ _ _ _ _ _ Es) as Hn. rewrite zlen_slice in Hn by lia. unfold tx_ok, TX_BYTES. cbn. split_and!; lia.
Qed.

Definition sound_ctx (x : ub (eaf_lms_client_t W * W)) : Prop := exists c w, x = Some (c, w) /\ client_inv c.

Lemma commands_keep : kept_by on_command sound_ctx.
Proof.
  intros x p n (c & w & -> & Hc) Hn H4. cbn [on_command]. destruct (command_yields c w p n Hc Hn H4) as (c' & w' & rc & -> & Hc' & _).
  by exists c', w'.
Qed.

Lemma receive_ok o w : client_inv (self o) -> lms_inv on_command (parser o) ->
  exists o' w' rc, step_receive o w = Some (o', w', rc) /\ client_inv (self o') /\ (rc = EAF_OK -> lms_inv on_command (parser o')).
Proof.
  intros Hc Hp. unfold step_receive. pose proof (inv_stage (self o) EAF_LMS_STAGE_CONTROL_RECV Hc) as H1. set (c1 := set_stage _ _) in *.
  destruct (hal_tcp_recv (control c1) 256 w) as [[[t w1] data] rc] eqn:Er. destruct (inv_tcp c1 t H1) as [H2 _]. set (c2 := put_control t c1) in *.
  destruct (decide (rc = EAF_AGAIN)); [by eexists _, _, _ |]. destruct (decide (rc <> 0)) as [Hrc|]; [eexists _, _, _; by split_and! |].
  set (c3 := progress_if _ c2). assert (H3 : client_inv c3) by by apply progress_inv.
  set (p := LmsParser _ _ _ _ _ _ _ _). assert (Hp' : lms_inv on_command p) by (destruct Hp; by split).
  rewrite (eaf_lms_feed_eq on_command) by done. unfold feed.
  destruct (feed_keeps on_command sound_ctx (length data) p data commands_keep Hp') as (p' & rc' & -> & (c4 & w4 & Hctx & H4) & Hi); [by exists c3, w1 | lia |].
  cbn [mbind option_bind]. rewrite Hctx. cbn [mbind option_bind]. by eexists _, _, _.
Qed.

Definition object_inv (o : lms_object) : Prop :=
  client_inv (self o) /\ (tcp_open (control (self o)) = true -> lms_inv on_command (parser o)).

Lemma flags_inv c : client_inv c -> client_inv (set_step_backpressure false (set_step_progress false c)).
Proof. intros Hc. apply inv_progress; [by apply progress_inv |]. exact (ci_progress _ Hc). Qed.

Lemma step_ok o w : object_inv o ->
  exists o' w' rc, eaf_lms_client_step (Some o) w = Some (Some o', w', rc) /\ object_inv o' /\
    (rc <> EAF_OK -> tcp_open (control (self o)) = true -> closed (self o')).
Proof.
  intros [Hc Hp]. unfold eaf_lms_client_step. pose proof (flags_inv _ Hc) as H1. set (c1 := set_step_backpressure _ _) in *.
  change (control c1) with (control (self o)). destruct (tcp_open (control (self o))) eqn:Ho; cbn [negb].
  2:{ eexists _, _, _. split; [done |]. split; [| done]. split; [done |]. cbn. by rewrite Ho. }
  specialize (Hp eq_refl). destruct (send_ok c1 w H1) as (c2 & w2 & rc2 & -> & H2). cbn [mbind option_bind].
  assert (Hrecv : exists o3 w3 rc3, (if decide (rc2 = 0) then step_receive (LmsObject c2 (parser o)) w2 else Some (LmsObject c2 (parser o), w2, rc2)) = Some (o3, w3, rc3) /\
    client_inv (self o3) /\ (rc3 = EAF_OK -> lms_inv on_command (parser o3))).
  { destruct (decide (rc2 = 0)); [by apply receive_ok | by eexists _, _, _]. }
  destruct Hrecv as (o3 & w3 & rc3 & -> & H3 & Hp3). cbn [mbind option_bind].
  assert (Hhttp : exists c4 w4 rc4, (if decide (rc3 = 0) then pump_http (self o3) w3 else Some (self o3, w3, rc3)) = Some (c4, w4, rc4) /\
    client_inv c4 /\ (rc4 = EAF_OK -> rc3 = EAF_OK)).
  { destruct (decide (rc3 = 0)); [| by eexists _, _, _]. destruct (http_yields (self o3) w3 H3) as (c4 & w4 & rc4 & -> & H4 & _). by eexists _, _, _. }
  destruct Hhttp as (c4 & w4 & rc4 & -> & H4 & Hrc4). cbn [mbind option_bind]. destruct (decide (rc4 <> 0)) as [Hne|E].
  - destruct (record_error_inv c4 rc4 H4) as (c5 & -> & H5 & _). cbn [mbind option_bind].
    destruct (close_ok c5 w4 H5) as (c6 & w6 & -> & H6 & Hcl). cbn [mbind option_bind]. eexists _, _, _. split; [done |].
    split; [split; [done |]; cbn; destruct Hcl as [-> _]; done | done].
  - assert (Erc : rc4 = EAF_OK) by (destruct (decide (rc4 = 0)); [done | by destruct E]).
    eexists _, _, _. split; [done |]. split; [split; [done |]; intros _; by apply Hp3, Hrc4 | by rewrite Erc].
Qed.

(** ** Batches *)

Lemma pump_loop_ok fuel o w max_steps max_us begin_us r :
  object_inv o -> 0 <= steps r < max_steps -> max_steps <= 64 -> max_steps - steps r <= Z.of_nat fuel + 1 ->
  exists o' w' r' rc, pump_loop fuel o w max_steps max_us begin_us r = Some (o', w', r', rc) /\ object_inv o' /\
    steps r < steps r' <= max_steps.
Proof.
  revert o w r. induction fuel as [|fuel IH]; intros o w r Ho Hr Hm Hf; cbn [pump_loop]; unfold with_ref_w.
  all: destruct (step_ok o w Ho) as (o1 & w1 & rc1 & -> & H1 & _); cbn [mbind option_bind]; set (r1 := PumpResult _ _ _ _);
    (assert (Hs1 : steps r1 = steps r + 1) by (unfold r1; cbn [steps]; rewrite u32_small; [done | unfold is_u32; lia]));
    destruct (bool_decide (rc1 <> 0) || _); [exists o1, w1, r1, rc1; split_and!; done || lia |].
  all: assert (Hyield : forall w2, exists o' w' r' rc, Some (LmsObject (set_diagnostics (count_waits 0 0 1 (diagnostics (self o1))) (self o1)) (parser o1), w2,
      PumpResult (steps r1) (progressed r1) true (backpressured r1), EAF_OK) = Some (o', w', r', rc) /\ object_inv o' /\ steps r < steps r' <= max_steps).
  1,3: intros w2; eexists _, _, _, _; split; [done |]; split; [| cbn [steps]; lia]; destruct H1 as [Hc Hp];
    (split; [| exact Hp]); pose proof (ci_progress _ Hc) as (P1 & P2 & P3); apply inv_progress; [done | by split].
  - rewrite decide_True by lia. apply Hyield.
  - destruct (decide (max_steps <= steps r1)); [apply Hyield |]. destruct (hal_monotonic_time_us w1) as [w2 now].
    destruct (bool_decide _); [apply Hyield |]. destruct (IH o1 w2 r1 H1) as (o' & w' & r' & rc & Hrun & Ho' & Hr'); [lia | lia | lia |].
    exists o', w', r', rc. split_and!; done || lia.
Qed.

Lemma pump_ok o w max_steps max_us r : object_inv o -> 0 <= max_steps -> 0 <= max_us ->
  exists o' w' r' rc, eaf_lms_client_pump (Some o) w max_steps max_us (Some r) = Some (Some o', w', Some r', rc) /\ object_inv o' /\
    (r' = r /\ rc = EAF_INVALID \/ 1 <= steps r' <= max_steps /\ max_steps <= 64).
Proof.
  intros Ho Hm Hu. unfold eaf_lms_client_pump. destruct (decide _) as [|Hok]; [eexists o, w, r, EAF_INVALID; split_and!; try done; by left |].
  destruct (hal_monotonic_time_us w) as [w1 t]. cbn [mbind option_bind].
  destruct (pump_loop_ok (Z.to_nat max_steps) o w1 max_steps max_us t (PumpResult 0 false false false)) as (o' & w' & r' & rc & -> & Ho' & Hr');
    [done | cbn; lia | lia | cbn; lia |].
  cbn [mbind option_bind]. exists o', w', r', rc. split; [done |]. split; [done |]. right. cbn in Hr'. lia.
Qed.

(** ** Connecting and reporting *)

Lemma helo_ok d0 mac n0 : zlen mac = 6 -> zlen d0 = TX_BYTES ->
  exists d n rc, eaf_lms_helo (Some d0) TX_BYTES (Some mac) (Some capabilities) (Some n0) = Some (Some d, Some n, rc) /\
    zlen d = TX_BYTES /\ 0 <= n <= TX_BYTES.
Proof.
  intros Hm Hd. set (caps := chars "Model=eaf,MaxSampleRate=96000,pcm").
  assert (Hs : c_string caps capabilities) by (split; [repeat constructor; done | by exists []]).
  assert (Hb : bytes_wf caps) by (repeat constructor; done).
  destruct (lms_helo_layout d0 mac caps capabilities TX_BYTES n0 Hs Hm Hb ltac:(lia)) as (-> & Hz & _).
  change (zlen caps) with 33 in *. unfold TX_BYTES in *. rewrite decide_True by (unfold EAF_LMS_MAX_PACKET; lia).
  eexists _, _, _. split; [done |]. split; [rewrite zlen_splice; lia | lia].
Qed.

Lemma fresh_parser x : lms_inv on_command (eaf_lms_parser_init (Some on_command) x).
Proof. exact (proj1 (init_idle on_command x)). Qed.

Lemma connect_ok o w ip port mac : object_inv o -> zlen mac = 6 ->
  exists o' w' rc, eaf_lms_client_connect (Some o) w ip port (Some mac) = Some (Some o', w', rc) /\ object_inv o'.
Proof.
  intros [Hc Hp] Hm. unfold eaf_lms_client_connect. destruct (_ || tcp_open (control (self o))) eqn:Eb; [by eexists o, w, _ |].
  apply orb_false_iff in Eb as [_ Hopen].
  set (c1 := set_stage _ _). assert (H1 : client_inv c1).
  { apply inv_stage, inv_progress; [done |]. destruct (ci_progress _ Hc) as (P1 & _). split; [exact P1 | by split]. }
  destruct (hal_tcp_connect _ _ _ _ w) as [[t w1] rc] eqn:Ec. destruct (inv_tcp c1 t H1) as [H2 _]. set (c2 := put_control t c1) in *.
  destruct (decide (rc <> 0)) as [Hne|].
  { destruct (record_error_inv c2 rc H2) as (c3 & -> & H3 & C3 & _). cbn [mbind option_bind]. eexists _, _, _. split; [done |].
    split; [done |]. cbn. rewrite C3. cbn. rewrite (connect_fails _ _ _ _ _ _ _ _ Ec Hne). change (control c1) with (control (self o)). by rewrite Hopen. }
  set (c3 := set_tx_sent 0 (put_server ip c2)). pose proof (ci_tx _ H2) as (T1 & T2 & T3).
  destruct (helo_ok (tx c3) mac (tx_used c3) Hm T1) as (d & n1 & rc' & -> & Hd & Hn).
  cbn [mbind option_bind]. set (c4 := set_tx_used n1 _).
  assert (H4 : client_inv c4).
  { apply (inv_tx c3); [apply (inv_tx (put_server ip c2)); [destruct H2; by split |] |]; unfold tx_ok, TX_BYTES in *; cbn in *;
      split_and!; lia. }
  destruct (decide (rc' <> 0)).
  - destruct (hal_tcp_close (control c4) w1) as [t' w2]. destruct (inv_tcp c4 t' H4) as [H5 _]. eexists _, _, _. split; [done |].
    split; [exact H5 | intros _; apply fresh_parser].
  - eexists _, _, _. split; [done |]. split; [exact H4 | intros _; apply fresh_parser].
Qed.

Lemma report_ok o w pl : object_inv o ->
  exists o' w' rc, eaf_lms_client_report_playback (Some o) w (Some pl) = Some (Some o', w', rc) /\ object_inv o'.
Proof.
  intros [Hc Hp]. unfold eaf_lms_client_report_playback. destruct (decide _); [by eexists o, w, _ |].
  destruct (_ || _ || _ || _); [by eexists o, w, _ |]. destruct (_ && _); [by eexists o, w, _ |].
  set (c1 := set_stage _ _). assert (H1 : client_inv c1) by (apply inv_stage, inv_session; [done | done | exact (ci_buffered _ Hc)]).
  set (first := _ && _).
  destruct (status_keeps c1 w (if first then "STMs" else "STMt") 0) as (t & w1 & rc & -> & Ht); [by destruct first | done |].
  cbn [mbind option_bind]. destruct (record_error_inv (put_tx_part t c1) rc (inv_tx _ _ H1 Ht)) as (c3 & -> & H3 & C3 & _). cbn [mbind option_bind].
  eexists _, _, _. split; [done |]. destruct (bool_decide (rc = 0) && first); (split; [| intros Hopen; apply Hp; rewrite <- Hopen; symmetry; exact (f_equal tcp_open C3)]); [| done].
  apply inv_session; [done | done | exact (ci_buffered _ H3)].
Qed.

(** ** Sessions *)

(** A call of the client's interface, or whatever the rest of the world does in
    between. *)
Inductive lms_call :=
  | LConnect (ip port : Z) (mac : list Z) | LStep | LPump (max_steps max_us : Z) | LReport (pl : eaf_lms_playback_t) | LClose
  | LWorld (f : W -> W).

Definition lms_call_ok (x : lms_call) : Prop :=
  match x with LConnect _ _ mac => zlen mac = 6 | LPump n us => 0 <= n /\ 0 <= us | _ => True end.

Definition lms_exec (x : lms_call) (o : lms_object) w : ub (lms_object * W) :=
  match x with
  | LConnect ip port mac => '(o, w, _) ← eaf_lms_client_connect (Some o) w ip port (Some mac); o ← o; Some (o, w)
  | LStep => '(o, w, _) ← eaf_lms_client_step (Some o) w; o ← o; Some (o, w)
  | LPump n us => '(o, w, _, _) ← eaf_lms_client_pump (Some o) w n us (Some (PumpResult 0 false false false)); o ← o; Some (o, w)
  | LReport pl => '(o, w, _) ← eaf_lms_client_report_playback (Some o) w (Some pl); o ← o; Some (o, w)
  | LClose => '(c, w) ← eaf_lms_client_close (self o) w; Some (LmsObject c (parser o), w)
  | LWorld f => Some (o, f w)
  end.

Fixpoint lms_run (xs : list lms_call) (o : lms_object) w : ub (lms_object * W) :=
  match xs with [] => Some (o, w) | x :: xs => '(o, w) ← lms_exec x o w; lms_run xs o w end.

Lemma lms_exec_ok x o w : object_inv o -> lms_call_ok x -> exists o' w', lms_exec x o w = Some (o', w') /\ object_inv o'.
Proof.
  intros Ho Hx. destruct x as [ip port mac| |n us|pl| |f]; cbn [lms_exec].
  - destruct (connect_ok o w ip port mac Ho Hx) as (o' & w' & rc & -> & Ho'). by exists o', w'.
  - destruct (step_ok o w Ho) as (o' & w' & rc & -> & Ho' & _). by exists o', w'.
  - destruct Hx as [Hn Hu]. destruct (pump_ok o w n us (PumpResult 0 false false false) Ho Hn Hu) as (o' & w' & r' & rc & -> & Ho' & _). by exists o', w'.
  - destruct (report_ok o w pl Ho) as (o' & w' & rc & -> & Ho'). by exists o', w'.
  - destruct Ho as [Hc Hp]. destruct (close_ok (self o) w Hc) as (c' & w' & -> & Hc' & Hcl). cbn [mbind option_bind]. eexists _, _. split; [done |].
    split; [exact Hc' |]. cbn. destruct Hcl as [-> _]. done.
  - by exists o, (f w).
Qed.

Lemma lms_run_ok xs o w : object_inv o -> Forall lms_call_ok xs -> exists o' w', lms_run xs o w = Some (o', w') /\ object_inv o'.
Proof.
  revert o w. induction xs as [|x xs IH]; intros o w Ho Hxs; cbn [lms_run]; [by exists o, w |].
  destruct (lms_exec_ok x o w Ho (Forall_inv Hxs)) as (o1 & w1 & -> & H1). cbn [mbind option_bind]. apply IH; [done |]. exact (Forall_inv_tail Hxs).
Qed.
End step.

(** ** The claim *)


(** ** A scripted server *)

(** What the control connection and the HTTP connection will deliver, how many
    frames the output will take, and what it heard. *)
Record script := Script { control_in : list (list Z); http_in : list (list Z); room : Z; heard : list Z }.

Definition control_port : Z := 3483.

(** Sending takes everything; a read delivers the next piece, cut to the capacity. *)
#[export] Instance script_hal : NetHal script := {
  hal_tcp_connect t _ port _ w := (Tcp port true, w, EAF_OK);
  hal_tcp_send t data w := (t, w, zlen data, EAF_OK);
  hal_tcp_recv t cap w :=
    if decide (fd t = control_port) then
      match control_in w with
      | d :: rest => (t, Script rest (http_in w) (room w) (heard w), u8 <$> take (Z.to_nat cap) d, EAF_OK)
      | [] => (t, w, [], EAF_AGAIN)
      end
    else
      match http_in w with
      | d :: rest => (t, Script (control_in w) rest (room w) (heard w), u8 <$> take (Z.to_nat cap) d, EAF_OK)
      | [] => (t, w, [], EAF_AGAIN)
      end;
  hal_tcp_close t w := (Tcp (fd t) false, w);
  hal_monotonic_time_us w := (w, 0)
}.

Lemma zlen_take_cap (d : list Z) cap : 0 <= cap -> zlen (u8 <$> take (Z.to_nat cap) d) <= cap.
Proof. intros Hc. rewrite zlen_fmap. pose proof (zlen_take_le d (Z.to_nat cap)). lia. Qed.

Lemma u8_bytes (d : list Z) : bytes_wf (u8 <$> d).
Proof. apply Forall_fmap, Forall_true. intros x. cbn. unfold is_u8, u8. word. Qed.

#[export] Instance script_hal_laws : NetHalLaws script.
Proof.
  split.
  - intros t data w t' w' n rc [= <- <- <- <-]. pose proof (zlen_nonneg data). lia.
  - intros t cap w t' w' data rc. cbn. destruct (decide _); [destruct (control_in w) | destruct (http_in w)]; intros [= <- <- <- <-] Hcap Hrc;
      try discriminate Hrc; by apply zlen_take_cap.
  - intros t cap w t' w' data rc. cbn. destruct (decide _); [destruct (control_in w) | destruct (http_in w)]; intros [= <- <- <- <-];
      try apply u8_bytes; constructor.
  - done.
  - intros t ip port ms w t' w' rc [= <- <- <-] Hrc. by destruct Hrc.
Qed.

Definition script_output : eaf_lms_callbacks_t script :=
  Callbacks (Some (fun _ w => (w, EAF_OK)))
    (Some (fun p n w => let k := Z.max 0 (Z.min n (room w)) in
       (Script (control_in w) (http_in w) (room w - k) (heard w ++ slice p 0 (k * 2)), k)))
    (Some (fun w => w)) (Some (fun w => w)) None None None None.

(** A framed [strm] packet, and the start of a 16-bit little-endian stereo track
    that plays at once. *)
Definition framed (p : list Z) : list Z := [zlen p / 256; zlen p mod 256] ++ p.
Definition strm (cmd : Z) (fields request : list Z) : list Z :=
  framed (chars "strm" ++ [cmd] ++ fields ++ replicate (23 - length fields) 0 ++ request).
Definition crlf2 : list Z := [13; 10; 13; 10].
Definition get_request : list Z := chars "GET / HTTP/1.0" ++ crlf2.
Definition start_track : list Z := strm 115 [49; 112; 49; 51; 50; 49] get_request.
Definition quit_track : list Z := strm 113 [] [].
Definition answer (body : list Z) : list Z := chars "HTTP/1.0 200 OK" ++ crlf2 ++ body.

Definition script_start (cb : eaf_lms_callbacks_t script) : lms_object :=
  LmsObject (client_zero cb) (eaf_lms_parser_init (Some on_command) None).


(** A track plays: connect, start, one frame of body. *)
Example lms_plays :
  (fun '(_, w) => heard w) <$> lms_run [LConnect 1 control_port [1; 2; 3; 4; 5; 6]; LStep; LPump 8 100]
    (script_start script_output) (Script [start_track] [answer [1; 0; 2; 0]] 1 []) = Some [65536; 131072].
Proof. vm_compute. reflexivity. Qed.

(** ** A finding *)

(** The ring of received bytes survives the end of its track: when the server
    stops a track of which received bytes are still undecoded, and starts another
    one, the new track begins with the old track's bytes.  Here the second track
    is one frame of the samples 5 and 6; the output hears two frames. *)
Theorem lms_stale_ingress :
  (fun '(_, w) => heard w) <$> lms_run
     [LConnect 1 control_port [1; 2; 3; 4; 5; 6]; LStep; LPump 8 100;
      LWorld (fun w => Script [quit_track; start_track] [answer [5; 0; 6; 0]] 100 (heard w)); LPump 8 100]
     (script_start script_output)
     (Script [start_track] [answer [1; 0; 2; 0]; [3; 0; 4; 0]] 0 [])
  = Some [3 * 65536; 4 * 65536; 5 * 65536; 6 * 65536].
Proof. vm_compute. reflexivity. Qed.
