(* ===== verification/Player.v ===== *)
(** The file player: [apps/player/eaf_player.c], [include/eaf/eaf_player.h] and
    the source interface of [include/eaf/eaf_source.h].

    The decoder thread is a machine of its own: a program point and one step per
    stretch of code between two looks at the shared flags.  The owner's calls are
    functions; between them, and while [eaf_player_start] holds the gate, the
    thread takes any number of steps.  (Interleaved accesses of one write and one
    pull are the model of [Spsc].)  Joining the thread runs it to its end; a join
    that would wait forever has no result.  [W] is the world behind nodes, sink,
    semaphores and threads, [S] the state behind the source's [ctx]. *)

From S2P Require Import Prelude Types Ring Reservoir Control Dsp Graph.

Definition EAF_PLAYER_DECODE_FRAMES : Z := 256.

(** The operating system ([include/eaf/eaf_hal.h]), up to the handles: a new
    world and the result code; the code ignores what [hal_sem_take] reports. *)
Class PlayerHal (W : Type) := {
  hal_sem_init : W -> W * Z;
  hal_sem_take : W -> Z -> W;
  hal_sem_give : W -> W;
  hal_sem_deinit : W -> W;
  hal_thread_create : W -> W * Z;
  hal_thread_join : W -> W * Z
}.

Section player.
Context {W S : Type} `{PlayerHal W}.

(** [read] fills the buffer and [*frames]; both are returned with the result. *)
Record eaf_source_ops := SourceOps {
  read : ptr (S -> list Z -> Z -> Z -> ub (S * list Z * Z * Z));
  seek : ptr (S -> Z -> ub (S * Z))
}.
Record eaf_source_t := Source {
  src_ops : ptr eaf_source_ops;
  src_ctx : S;
  src_format : eaf_format_t;
  total_frames : Z
}.

(** A pointer to the volume context of a node: the context it reads and writes in
    the world, and for which nodes [i] of the pipeline the comparisons
    [nodes[i]->ctx == volume && nodes[i]->ops == &eaf_volume_ops] hold. *)
Record volume_ref := VolumeRef {
  vol_get : W -> eaf_volume_ctx_t;
  vol_put : eaf_volume_ctx_t -> W -> W;
  vol_node : Z -> bool
}.

(** The program points of [produce]: the gate, the head of the main loop with
    [ended], the wait under back-pressure, the read, the write loop with [offset]
    and [frames], and the return. *)
Inductive producer_pc :=
| AtGate
| AtLoop (ended : bool)
| AtPressure
| AtRead
| AtWrite (offset frames : Z)
| AtEnd.

Record eaf_player_t := Player {
  pipeline : eaf_pipeline_t W;
  source : eaf_source_t;
  volume : ptr volume_ref;
  commands : eaf_control_queue_t;
  decoder : option producer_pc;     (* decoder.impl, and where the thread is *)
  gate : Z;
  quit : Z;
  failed : Z;
  source_error : Z;
  decode_buffer : list Z;
  initialized : bool
}.

Definition set_pipeline (g : eaf_pipeline_t W) (p : eaf_player_t) : eaf_player_t :=
  Player g (source p) (volume p) (commands p) (decoder p) (gate p) (quit p) (failed p) (source_error p)
    (decode_buffer p) (initialized p).
Definition set_source (s : S) (buf : list Z) (p : eaf_player_t) : eaf_player_t :=
  Player (pipeline p) (Source (src_ops (source p)) s (src_format (source p)) (total_frames (source p)))
    (volume p) (commands p) (decoder p) (gate p) (quit p) (failed p) (source_error p) buf (initialized p).
Definition set_commands (q : eaf_control_queue_t) (p : eaf_player_t) : eaf_player_t :=
  Player (pipeline p) (source p) (volume p) q (decoder p) (gate p) (quit p) (failed p) (source_error p)
    (decode_buffer p) (initialized p).
Definition set_decoder (d : option producer_pc) (p : eaf_player_t) : eaf_player_t :=
  Player (pipeline p) (source p) (volume p) (commands p) d (gate p) (quit p) (failed p) (source_error p)
    (decode_buffer p) (initialized p).
Definition set_shared (g q f e : Z) (p : eaf_player_t) : eaf_player_t :=
  Player (pipeline p) (source p) (volume p) (commands p) (decoder p) g q f e (decode_buffer p) (initialized p).
Definition set_gate (x : Z) (p : eaf_player_t) : eaf_player_t :=
  set_shared x (quit p) (failed p) (source_error p) p.
Definition set_quit (x : Z) (p : eaf_player_t) : eaf_player_t :=
  set_shared (gate p) x (failed p) (source_error p) p.
Definition set_initialized_flag (b : bool) (p : eaf_player_t) : eaf_player_t :=
  Player (pipeline p) (source p) (volume p) (commands p) (decoder p) (gate p) (quit p) (failed p)
    (source_error p) (decode_buffer p) b.

(** [p->pipeline->config.reservoir] and an update of what it points to. *)
Definition player_reservoir (p : eaf_player_t) : ub eaf_reservoir_t := reservoir (config (pipeline p)).
Definition put_reservoir (r : eaf_reservoir_t) (p : eaf_player_t) : eaf_player_t :=
  set_pipeline (set_reservoir r (pipeline p)) p.

Definition set_hook (f ctx : Z) (r : eaf_reservoir_t) : eaf_reservoir_t :=
  Reservoir (storage r) (capacity r) (high_watermark r) (backpressure_low r) (backpressure_high r)
    (Reservoir.format r) (Reservoir.read_cursor r) (Reservoir.write_cursor r) (finished r) (state r)
    (underruns r) (frames_read r) (last r) f ctx.

(** ** The decoder thread *)

(** [p->source->ops->read(...)] and what the loop makes of it. *)
Definition produce_read (p : eaf_player_t) (r : eaf_reservoir_t) : ub eaf_player_t :=
  o ← src_ops (source p); rd ← read o;
  '(s, buf, rc, frames) ← rd (src_ctx (source p)) (decode_buffer p) EAF_PLAYER_DECODE_FRAMES 0;
  let p := set_source s buf p in
  if negb (bool_decide (rc = 0)) || bool_decide (EAF_PLAYER_DECODE_FRAMES < frames) then
    Some (set_decoder (Some (AtLoop true))
            (set_shared (gate p) (quit p) 1 (if decide (rc = 0) then EAF_INVALID else rc) p))
  else if decide (frames = 0) then
    r' ← eaf_reservoir_finish (Some r);
    Some (set_decoder (Some (AtLoop true)) (put_reservoir r' p))
  else Some (set_decoder (Some (AtWrite 0 frames)) p).

Definition produce_write (p : eaf_player_t) (w : W) (r : eaf_reservoir_t) (offset frames : Z)
  : ub (eaf_player_t * W) :=
  '(r', n) ← with_ref (fun q => eaf_reservoir_write q
      (Some (drop (Z.to_nat (offset * channels r)) (decode_buffer p))) (u32 (frames - offset))) r;
  Some (set_decoder (Some (AtWrite (u32 (offset + n)) frames)) (put_reservoir r' p),
        if decide (n = 0) then hal_sem_take w 20 else w).

Definition produce_step (p : eaf_player_t) (w : W) : ub (eaf_player_t * W) :=
  let quitting := negb (bool_decide (quit p = 0)) in
  let goto pc := Some (set_decoder (Some pc) p, w) in
  match decoder p with
  | None => Some (p, w)
  | Some pc =>
      r ← player_reservoir p;
      match pc with
      | AtGate =>
          if bool_decide (gate p = 0) && negb quitting then Some (p, hal_sem_take w 20)
          else goto (AtLoop false)
      | AtLoop ended =>
          if quitting then goto AtEnd
          else if ended : bool then Some (p, hal_sem_take w 20)
          else if eaf_reservoir_backpressure r then goto AtPressure
          else goto AtRead
      | AtPressure =>
          if bool_decide (backpressure_low r <= eaf_reservoir_level r) && negb quitting
          then Some (p, hal_sem_take w 20)
          else goto AtRead
      | AtRead =>
          if quitting then goto AtEnd
          else p ← produce_read p r; Some (p, w)
      | AtWrite offset frames =>
          if bool_decide (offset < frames) && negb quitting then produce_write p w r offset frames
          else goto (AtLoop false)
      | AtEnd => Some (p, w)
      end
  end.

Fixpoint run_producer (fuel : nat) (p : eaf_player_t) (w : W) : ub (eaf_player_t * W) :=
  match decoder p, fuel with
  | None, _ | Some AtEnd, _ => Some (p, w)
  | Some _, O => None
  | Some _, Datatypes.S fuel' => '(p, w) ← produce_step p w; run_producer fuel' p w
  end.

(** [hal_thread_join(&p->decoder)]: on success the thread has returned and the
    handle is cleared; otherwise the handle stays. *)
Definition thread_join (p : eaf_player_t) (w : W) : ub (eaf_player_t * (W * Z)) :=
  let '(w, rc) := hal_thread_join w in
  if decide (rc = 0) then
    '(p, w) ← run_producer 3 p w;
    Some (set_decoder None p, (w, rc))
  else Some (p, (w, rc)).

(** ** The owner's calls *)

(** [wake_producer] and [&p->wake] as the reservoir's hook: two addresses. *)
Context (hook hook_ctx : Z) (wake : Z * Z -> W -> W).

Fixpoint volume_found (k : nat) (i : Z) (v : volume_ref) (found : bool) : bool :=
  match k with
  | O => found
  | Datatypes.S k' => volume_found k' (i + 1) v (found || vol_node v i)
  end.

(** The assignment of the whole structure and the initialised atomics. *)
Definition fresh_player (g : eaf_pipeline_t W) (src : eaf_source_t) (vol : ptr volume_ref) : eaf_player_t :=
  Player g src vol (eaf_control_init (ControlQueue (replicate 16 (Command 0 0 0)) 0 0)) None 0 0 0 0
    (replicate 1024 0) false.

Definition init_body (p : eaf_player_t) (w : W) (g : eaf_pipeline_t W) (src : eaf_source_t)
    (vol : ptr volume_ref) : ub (eaf_player_t * (W * Z)) :=
  if negb (bool_decide (pstate g = EAF_CONFIGURED)) && negb (bool_decide (pstate g = EAF_STOPPED))
  then Some (p, (w, EAF_STATE))
  else
    r ← reservoir (config g);
    if negb (eaf_format_equal (Reservoir.format r) (src_format src))
       || negb (bool_decide (wake_producer r = 0)) || bool_decide (backpressure_low r = 0)
       || bool_decide (backpressure_high r <= backpressure_low r)
       || bool_decide (capacity r < backpressure_high r)
       || bool_decide (backpressure_high r < high_watermark r)
       || bool_decide (backpressure_high r < block_frames g)
    then Some (p, (w, EAF_INVALID))
    else if match vol with
            | Some v => negb (volume_found (Z.to_nat (node_count (config g))) 0 v false)
            | None => false
            end
    then Some (p, (w, EAF_INVALID))
    else
      let p := fresh_player g src vol in
      let '(w, rc) := hal_sem_init w in
      if negb (bool_decide (rc = 0)) then Some (p, (w, rc))
      else Some (set_initialized_flag true (put_reservoir (set_hook hook hook_ctx r) p), (w, EAF_OK)).

Definition source_complete (src : eaf_source_t) : bool :=
  match src_ops src with
  | None => false
  | Some o =>
      match read o, seek o with
      | Some _, Some _ => eaf_format_valid (Some (src_format src))
      | _, _ => false
      end
  end.

Definition eaf_player_init (p : ptr eaf_player_t) (w : W) (g : ptr (eaf_pipeline_t W))
    (src : ptr eaf_source_t) (vol : ptr volume_ref) : ub (ptr eaf_player_t * (W * Z)) :=
  on_ptr p (w, EAF_INVALID) (fun p =>
    match g, src with
    | Some g, Some src =>
        if initialized p || negb (source_complete src) then Some (p, (w, EAF_INVALID))
        else init_body p w g src vol
    | _, _ => Some (p, (w, EAF_INVALID))
    end).

(** The guard [!p || !p->initialized] every other call starts with. *)
Definition on_player {R} (p : ptr eaf_player_t) (bad : R) (f : eaf_player_t -> ub (eaf_player_t * R))
  : ub (ptr eaf_player_t * R) :=
  on_ptr p bad (fun p => if initialized p then f p else Some (p, bad)).

Definition start_player (p : eaf_player_t) (w : W) : ub (eaf_player_t * (W * Z)) :=
  if bool_decide (is_Some (decoder p))
     || negb (bool_decide (pstate (pipeline p) = EAF_CONFIGURED))
        && negb (bool_decide (pstate (pipeline p) = EAF_STOPPED))
  then Some (p, (w, EAF_STATE))
  else
    let p := set_shared 0 0 0 0 p in
    let '(w, rc) := hal_thread_create w in
    if negb (bool_decide (rc = 0)) then Some (p, (w, rc))
    else
      let p := set_decoder (Some AtGate) p in
      '(g, (w, rc)) ← with_ref (fun q => eaf_pipeline_start q w) (pipeline p);
      let p := set_pipeline g p in
      if negb (bool_decide (rc = 0)) then
        '(p, (w, _)) ← thread_join (set_quit 1 p) (hal_sem_give w);
        Some (p, (w, rc))
      else Some (set_gate 1 p, (hal_sem_give w, EAF_OK)).

Definition eaf_player_start (p : ptr eaf_player_t) (w : W) : ub (ptr eaf_player_t * (W * Z)) :=
  on_player p (w, EAF_INVALID) (fun p => start_player p w).

Definition stop_player (p : eaf_player_t) (w : W) : ub (eaf_player_t * (W * Z)) :=
  '(g, (w, rc)) ← (if bool_decide (pstate (pipeline p) = EAF_RUNNING)
                      || bool_decide (pstate (pipeline p) = EAF_RECOVERY)
                   then with_ref (fun q => eaf_pipeline_stop q w) (pipeline p)
                   else Some (pipeline p, (w, EAF_OK)));
  let p := set_quit 1 (set_pipeline g p) in
  let w := hal_sem_give w in
  if negb (bool_decide (rc = 0)) then Some (p, (w, rc))
  else if bool_decide (is_Some (decoder p)) then thread_join p w
  else Some (p, (w, rc)).

Definition eaf_player_stop (p : ptr eaf_player_t) (w : W) : ub (ptr eaf_player_t * (W * Z)) :=
  on_player p (w, EAF_INVALID) (fun p => stop_player p w).

Definition seek_player (p : eaf_player_t) (w : W) (frame : Z) : ub (eaf_player_t * (W * Z)) :=
  if decide (total_frames (source p) < frame) then Some (p, (w, EAF_INVALID))
  else
    let running := bool_decide (pstate (pipeline p) = EAF_RUNNING) in
    '(p, (w, rc)) ← with_ref (fun q => eaf_player_stop q w) p;
    if negb (bool_decide (rc = 0)) then Some (p, (w, rc))
    else
      o ← src_ops (source p); sk ← seek o;
      '(s, rc) ← sk (src_ctx (source p)) frame;
      let p := set_source s (decode_buffer p) p in
      if negb (bool_decide (rc = 0)) then Some (p, (w, rc))
      else
        r ← player_reservoir p;
        let p := put_reservoir (eaf_reservoir_reset r) p in
        if running then with_ref (fun q => eaf_player_start q w) p else Some (p, (w, EAF_OK)).

Definition eaf_player_seek (p : ptr eaf_player_t) (w : W) (frame : Z) : ub (ptr eaf_player_t * (W * Z)) :=
  on_player p (w, EAF_INVALID) (fun p => seek_player p w frame).

(** The [switch] of [eaf_player_command]. *)
Definition command_accepted (p : eaf_player_t) (c : eaf_command_t) : bool :=
  if decide (cmd_type c = EAF_COMMAND_STOP) then true
  else if decide (cmd_type c = EAF_COMMAND_SEEK) then
    negb (bool_decide (total_frames (source p) < cmd_frame c))
  else if decide (cmd_type c = EAF_COMMAND_GAIN) then
    bool_decide (is_Some (volume p)) && negb (bool_decide (cmd_gain c < 0))
  else false.

Definition eaf_player_command (p : ptr eaf_player_t) (c : ptr eaf_command_t) : ub (ptr eaf_player_t * bool) :=
  on_player p false (fun p =>
    match c with
    | None => Some (p, false)
    | Some c' =>
        if command_accepted p c' then
          '(q, ok) ← with_ref (fun q => eaf_control_push q c) (commands p);
          Some (set_commands q p, ok)
        else Some (p, false)
    end).

(** [for (i < EAF_MAX_CHANNELS) p->volume->gain[i] = command.gain] *)
Definition write_gain (p : eaf_player_t) (w : W) (g : Z) : ub W :=
  v ← volume p;
  gains ← for_to EAF_MAX_CHANNELS (fun i l => Prelude.st l i g) (gain (vol_get v w));
  Some (vol_put v (VolumeCtx gains) w).

(** The second half of [eaf_player_step]: one audio block. *)
Definition step_block (p : eaf_player_t) (w : W) : ub (eaf_player_t * (W * Z)) :=
  if negb (bool_decide (pstate (pipeline p) = EAF_RUNNING)) then Some (p, (w, EAF_STATE))
  else
    '(p, (w, rc)) ← (if negb (bool_decide (failed p = 0)) then Some (p, (w, source_error p))
                     else '(g, r) ← with_ref (fun q => eaf_pipeline_process wake q w) (pipeline p);
                          Some (set_pipeline g p, r));
    if negb (bool_decide (rc = 0)) then
      '(p, (w, stopped)) ← with_ref (fun q => eaf_player_stop q w) p;
      Some (p, (w, if decide (stopped = 0) then rc else stopped))
    else Some (p, (w, rc)).

Definition step_player (p : eaf_player_t) (w : W) : ub (eaf_player_t * (W * Z)) :=
  '(q, (popped, out)) ← with_ref (fun q => eaf_control_pop q (Some (Command 0 0 0))) (commands p);
  let p := set_commands q p in
  c ← out;
  if negb popped then step_block p w
  else if decide (cmd_type c = EAF_COMMAND_STOP) then
    '(p, (w, rc)) ← with_ref (fun q => eaf_player_stop q w) p;
    Some (p, (w, if decide (rc = 0) then EAF_EOF else rc))
  else if decide (cmd_type c = EAF_COMMAND_SEEK) then
    '(p, (w, rc)) ← with_ref (fun q => eaf_player_seek q w (cmd_frame c)) p;
    if negb (bool_decide (rc = 0)) then Some (p, (w, rc)) else step_block p w
  else if decide (cmd_type c = EAF_COMMAND_GAIN) then
    w ← write_gain p w (cmd_gain c); step_block p w
  else Some (p, (w, EAF_INVALID)).

Definition eaf_player_step (p : ptr eaf_player_t) (w : W) : ub (ptr eaf_player_t * (W * Z)) :=
  on_player p (w, EAF_INVALID) (fun p => step_player p w).

Definition eaf_player_deinit (p : ptr eaf_player_t) (w : W) : ub (ptr eaf_player_t * (W * Z)) :=
  on_player p (w, EAF_INVALID) (fun p =>
    '(p, (w, rc)) ← with_ref (fun q => eaf_player_stop q w) p;
    if negb (bool_decide (rc = 0)) then Some (p, (w, rc))
    else
      r ← player_reservoir p;
      Some (set_initialized_flag false (put_reservoir (set_hook 0 0 r) p), (hal_sem_deinit w, EAF_OK))).
End player.

#[global] Arguments eaf_source_ops : clear implicits.
#[global] Arguments eaf_source_t : clear implicits.
#[global] Arguments volume_ref : clear implicits.
#[global] Arguments eaf_player_t : clear implicits.

(** ** What the environment guarantees *)
Section laws.
Context {W S : Type} `{PlayerHal W} (live : W -> list Z).

(** Semaphores and threads do not touch the pipeline's nodes. *)
Class PlayerHalLaws := {
  sem_init_live w : live (hal_sem_init w).1 = live w;
  sem_take_live w ms : live (hal_sem_take w ms) = live w;
  sem_give_live w : live (hal_sem_give w) = live w;
  sem_deinit_live w : live (hal_sem_deinit w) = live w;
  create_live w : live (hal_thread_create w).1 = live w;
  join_live w : live (hal_thread_join w).1 = live w
}.

(** A source's callbacks return, and a read keeps to the buffer it was given. *)
Record source_env (o : eaf_source_ops S) : Prop := {
  srcenv_read : exists rd, read o = Some rd /\ forall s buf, zlen buf = 1024 -> Forall is_s32 buf ->
    exists s' buf' rc n, rd s buf EAF_PLAYER_DECODE_FRAMES 0 = Some (s', buf', rc, n) /\
      zlen buf' = 1024 /\ Forall is_s32 buf' /\ 0 <= n;
  srcenv_seek : exists sk, seek o = Some sk /\ forall s f, exists s' rc, sk s f = Some (s', rc)
}.

Definition volume_env (v : volume_ref W) : Prop :=
  (forall w, zlen (gain (vol_get v w)) = 4) /\ forall w c, live (vol_put v c w) = live w.

(** ** The invariant of an initialised player *)
Record player_inv (p : eaf_player_t W S) (w : W) : Prop := {
  pi_up : initialized p = true;
  pi_pipe : pipeline_inv live (pipeline p) w;
  pi_config : pstate (pipeline p) <> EAF_UNINITIALIZED;
  pi_thread : pstate (pipeline p) = EAF_RUNNING -> is_Some (decoder p);
  pi_source : exists o, src_ops (source p) = Some o /\ source_env o;
  pi_format : forall r, player_reservoir p = Some r -> Reservoir.format r = src_format (source p);
  pi_buffer : zlen (decode_buffer p) = 1024 /\ Forall is_s32 (decode_buffer p);
  pi_queue : control_wf (commands p);
  pi_commands : Forall (fun c => command_accepted p c = true) (control_abs (commands p));
  pi_volume : forall v, volume p = Some v -> volume_env v;
  pi_write : forall off n, decoder p = Some (AtWrite off n) -> 0 <= off <= n /\ n <= 256
}.

Lemma player_inv_world p w w' : player_inv p w -> live w' = live w -> player_inv p w'.
Proof. intros [] Hl. split; try done. by eapply pipeline_inv_world. Qed.

Lemma inv_has_reservoir p w :
  player_inv p w -> exists r, player_reservoir p = Some r /\ reservoir_wf r.
Proof.
  intros [_ Hp Hc]. destruct (cenv_res _ _ (inv_config live _ _ Hp Hc)) as (r & Hr & Hwf & _). by exists r.
Qed.

Lemma put_reservoir_inv p w r r' :
  player_inv p w -> player_reservoir p = Some r -> reservoir_wf r' ->
  Reservoir.format r' = Reservoir.format r -> capacity r' = capacity r -> player_inv (put_reservoir r' p) w.
Proof.
  intros [] Hr Hwf Hf Hc. split; try done.
  - by apply (inv_reservoir live _ w r).
  - intros r0 [= <-]. rewrite Hf. by apply pi_format0.
Qed.

(** Moving the thread, the flags or the source. *)
Lemma set_decoder_inv p w d :
  player_inv p w -> (pstate (pipeline p) = EAF_RUNNING -> is_Some d) ->
  (forall off n, d = Some (AtWrite off n) -> 0 <= off <= n /\ n <= 256) -> player_inv (set_decoder d p) w.
Proof. intros [] Hd Hw. by split. Qed.

Lemma set_shared_inv p w g q f e : player_inv p w -> player_inv (set_shared g q f e p) w.
Proof. intros []. by split. Qed.

Lemma set_source_inv p w s buf :
  player_inv p w -> zlen buf = 1024 -> Forall is_s32 buf -> player_inv (set_source s buf p) w.
Proof. intros []. by split. Qed.

Lemma set_commands_inv p w q :
  player_inv p w -> control_wf q -> Forall (fun c => command_accepted p c = true) (control_abs q) ->
  player_inv (set_commands q p) w.
Proof. intros []. by split. Qed.

Lemma set_pipeline_inv p w g :
  player_inv p w -> pipeline_inv live g w -> pstate g <> EAF_UNINITIALIZED ->
  (pstate g = EAF_RUNNING -> is_Some (decoder p)) ->
  (forall r, reservoir (config g) = Some r -> Reservoir.format r = src_format (source p)) ->
  player_inv (set_pipeline g p) w.
Proof. intros [] ????. by split. Qed.

Context {Hlaws : PlayerHalLaws}.
Ltac hal_live := rewrite ?sem_take_live, ?sem_give_live, ?sem_deinit_live.

(** ** The decoder thread *)
Lemma goto_inv p w d pc :
  player_inv p w -> decoder p = Some d -> (forall off n, pc = AtWrite off n -> 0 <= off <= n /\ n <= 256) ->
  player_inv (set_decoder (Some pc) p) w.
Proof. intros Hinv Hd Hpc. apply set_decoder_inv; [done | by eexists | intros off n [= ->]; by apply Hpc]. Qed.

Lemma produce_read_inv p w r d :
  player_inv p w -> player_reservoir p = Some r -> decoder p = Some d ->
  exists p' pc, produce_read p r = Some p' /\ player_inv p' w /\ decoder p' = Some pc.
Proof.
  intros Hinv Hr Hd. destruct (pi_source _ _ Hinv) as (o & Ho & He). unfold produce_read. rewrite Ho. simpl.
  destruct (srcenv_read _ He) as (rd & -> & Hrd). simpl. destruct (pi_buffer _ _ Hinv) as [Hl H32].
  destruct (Hrd (src_ctx (source p)) _ Hl H32) as (s & buf & rc & n & -> & Hl' & H32' & Hn). simpl.
  pose proof (set_source_inv p w s buf Hinv Hl' H32') as Hs.
  destruct (_ || _) eqn:Ebad.
  - eexists _, _. split; [done |]. split; [| done]. eapply goto_inv; [by apply set_shared_inv | done | done].
  - apply orb_false_elim in Ebad as [_ Hle%bool_decide_eq_false]. unfold EAF_PLAYER_DECODE_FRAMES in Hle.
    case_decide; simpl; eexists _, _; (split; [done |]; split; [| done]).
    + destruct (inv_has_reservoir p w Hinv) as (r0 & Hr0 & Hwf). rewrite Hr in Hr0. injection Hr0 as <-.
      eapply goto_inv; [| done | done]. apply (put_reservoir_inv _ w r); try done. by destruct Hwf.
    + eapply goto_inv; [done | done |]. intros off m [= <- <-]. lia.
Qed.

Lemma produce_write_inv p w r off n :
  player_inv p w -> player_reservoir p = Some r -> decoder p = Some (AtWrite off n) -> off < n ->
  exists p' w' pc, produce_write p w r off n = Some (p', w') /\ player_inv p' w' /\ decoder p' = Some pc.
Proof.
  intros Hinv Hr Hd Hlt. destruct (pi_write _ _ Hinv _ _ Hd) as [Ho Hn].
  destruct (inv_has_reservoir p w Hinv) as (r0 & Hr0 & Hwf). rewrite Hr in Hr0. injection Hr0 as <-.
  destruct (pi_buffer _ _ Hinv) as [Hl H32]. pose proof (rwf_channels r Hwf) as Hch.
  unfold produce_write, with_ref. rewrite (u32_small (n - off)) by word.
  assert (Hcont : forall r' k, reservoir_wf r' -> Reservoir.format r' = Reservoir.format r -> capacity r' = capacity r ->
    0 <= k <= n - off -> player_inv (set_decoder (Some (AtWrite (u32 (off + k)) n)) (put_reservoir r' p))
      (if decide (k = 0) then hal_sem_take w 20 else w)).
  { intros r' k Hwf' Hf Hc Hk. apply (player_inv_world _ w); [| by case_decide; hal_live].
    eapply goto_inv; [by apply (put_reservoir_inv _ _ r) | done |]. intros o m [= <- <-].
    rewrite u32_small by word. lia. }
  destruct (decide (finished r = 0)) as [Hf|Hf].
  - destruct (res_write_spec r (drop (Z.to_nat (off * channels r)) (decode_buffer p)) (n - off) Hwf) as (l & -> & Hwf' & _);
      [lia | | by apply Forall_drop | done |].
    { rewrite drop_slice, zlen_slice by nia. nia. }
    simpl. eexists _, _, _. split; [done |]. split; [| done]. pose proof (level_range r Hwf).
    apply Hcont; [exact Hwf' | done | done | lia].
  - unfold eaf_reservoir_write, on_ptr. rewrite bool_decide_eq_false_2 by done. simpl.
    eexists _, _, _. split; [done |]. split; [| done]. apply Hcont; [done | done | done | lia].
Qed.

Lemma produce_step_inv p w :
  player_inv p w -> exists p' w', produce_step p w = Some (p', w') /\ player_inv p' w'.
Proof.
  intros Hinv. unfold produce_step. destruct (decoder p) as [pc|] eqn:Hd; [| by exists p, w].
  destruct (inv_has_reservoir p w Hinv) as (r & Hr & Hwf). rewrite Hr. simpl.
  assert (Hgoto : forall pc', (forall off n, pc' <> AtWrite off n) -> exists p' w',
    Some (set_decoder (Some pc') p, w) = Some (p', w') /\ player_inv p' w').
  { intros pc' Hpc. eexists _, w. split; [done |]. eapply goto_inv; [done | done |]. intros off n ->. by destruct (Hpc off n). }
  assert (Hwait : exists p' w', Some (p, hal_sem_take w 20) = Some (p', w') /\ player_inv p' w').
  { eexists _, _. split; [done |]. apply (player_inv_world _ w); [done | by hal_live]. }
  destruct pc as [|ended| | |off n|].
  - destruct (_ && _); [done | by apply Hgoto].
  - destruct (negb _); [by apply Hgoto |]. destruct ended; [done |]. destruct (eaf_reservoir_backpressure r); by apply Hgoto.
  - destruct (_ && _); [done | by apply Hgoto].
  - destruct (negb _); [by apply Hgoto |].
    destruct (produce_read_inv p w r _ Hinv Hr Hd) as (p' & pc & -> & Hinv' & _). simpl. by exists p', w.
  - destruct (bool_decide (off < n) && _) eqn:Eg; [| by apply Hgoto].
    apply andb_true_iff in Eg as [Hlt%bool_decide_eq_true _].
    destruct (produce_write_inv p w r off n Hinv Hr Hd Hlt) as (p' & w' & pc & -> & Hinv' & _). by exists p', w'.
  - by exists p, w.
Qed.

Lemma produce_commands (p : eaf_player_t W S) w p' w' :
  produce_step p w = Some (p', w') -> commands p' = commands p.
Proof using.
  unfold produce_step, produce_read, produce_write. intros Hrun.
  repeat (simplify_option_eq; try done;
    match goal with Hx : (match ?x with _ => _ end) = Some _ |- _ => destruct x end).
Qed.

(** Once [quit] is set the thread returns and writes nothing on its way. *)
Lemma run_quitting (p : eaf_player_t W S) w r :
  quit p <> 0 -> player_reservoir p = Some r ->
  run_producer 3 p w = Some (set_decoder (match decoder p with None => None | Some _ => Some AtEnd end) p, w).
Proof.
  intros Hq Hr. destruct p as [g src vol cmds d ga q f e buf ini].
  unfold player_reservoir in Hr. simpl in Hq, Hr.
  assert (Hb : bool_decide (q = 0) = false) by by apply bool_decide_eq_false_2.
  destruct d as [[|ended| | |off n|]|]; cbn [run_producer decoder]; try done;
    do 3 (unfold produce_step, player_reservoir; cbn; rewrite ?Hr; cbn; rewrite ?Hb; cbn; rewrite ?andb_false_r; cbn); done.
Qed.

Lemma thread_join_spec (p : eaf_player_t W S) w r :
  quit p <> 0 -> player_reservoir p = Some r ->
  exists w' rc, thread_join p w = Some (if decide (rc = 0) then set_decoder None p else p, (w', rc)) /\
    live w' = live w.
Proof.
  intros Hq Hr. unfold thread_join. pose proof (join_live w) as Hl. destruct (hal_thread_join w) as [w1 rc]. simpl in Hl.
  exists w1, rc. split; [| done]. case_decide; [| done]. rewrite (run_quitting p w1 r Hq Hr). done.
Qed.

(** ** Stopping and starting *)

(** What a stop leaves of the player: only the pipeline's state, [quit] and the
    thread handle change. *)
Definition stopped_from (p p' : eaf_player_t W S) : Prop :=
  exists s d, p' = set_decoder d (set_quit 1 (set_pipeline (set_state s (pipeline p)) p)) /\
    (d = None \/ d = decoder p).

Definition quiet (p : eaf_player_t W S) : Prop :=
  decoder p = None /\ pstate (pipeline p) <> EAF_RUNNING /\ pstate (pipeline p) <> EAF_RECOVERY.

Lemma quitting_inv p w s w' :
  player_inv p w -> pipeline_inv live (set_state s (pipeline p)) w' -> s <> EAF_UNINITIALIZED ->
  (s = EAF_RUNNING -> is_Some (decoder p)) -> live w' = live w ->
  player_inv (set_quit 1 (set_pipeline (set_state s (pipeline p)) p)) w'.
Proof.
  intros Hinv Hg Hs Hd Hl. apply set_shared_inv, set_pipeline_inv; try done.
  - by apply (player_inv_world p w).
  - by destruct Hinv.
Qed.

Lemma joined_inv p w r :
  player_inv p w -> quit p <> 0 -> player_reservoir p = Some r -> pstate (pipeline p) <> EAF_RUNNING ->
  exists w' rc d, thread_join p w = Some (set_decoder d p, (w', rc)) /\ player_inv (set_decoder d p) w' /\
    (d = None \/ d = decoder p) /\ (rc = 0 -> d = None) /\ (rc <> 0 -> d = decoder p).
Proof.
  intros Hinv Hq Hr Hrun. destruct (thread_join_spec p w r Hq Hr) as (w' & rc & -> & Hl).
  pose proof (player_inv_world _ _ _ Hinv Hl) as Hinv'. exists w', rc.
  case_decide; [exists None | exists (decoder p)].
  - split; [done |]. split; [| by split; [left |]]. by apply set_decoder_inv.
  - split; [by destruct p |]. split; [by destruct p |]. split; [by right |]. by split.
Qed.

Lemma stop_player_spec p w :
  player_inv p w ->
  exists p' w' rc, stop_player p w = Some (p', (w', rc)) /\ player_inv p' w' /\ stopped_from p p' /\
    (rc = 0 -> quiet p') /\ (rc <> 0 -> decoder p' = decoder p).
Proof.
  intros Hinv. unfold stop_player, eaf_pipeline_stop. rewrite with_ref_on_ptr.
  assert (Hstop : exists g w1 rc s, (if bool_decide (pstate (pipeline p) = EAF_RUNNING)
        || bool_decide (pstate (pipeline p) = EAF_RECOVERY) then stop_body (pipeline p) w
      else Some (pipeline p, (w, EAF_OK))) = Some (g, (w1, rc)) /\ pipeline_inv live g w1 /\
      g = set_state s (pipeline p) /\ s <> EAF_UNINITIALIZED /\ (s = EAF_RUNNING -> pstate (pipeline p) = EAF_RUNNING) /\
      live w1 = live w /\ (rc = 0 -> s <> EAF_RUNNING /\ s <> EAF_RECOVERY)).
  { destruct (_ || _) eqn:Est.
    - destruct (stop_inv live _ w (pi_pipe _ _ Hinv)) as (g & w1 & rc & -> & Hg & Hok & Hrec & [s ->]).
      exists (set_state s (pipeline p)), w1, rc, s. split_and!; try done.
      + intros ->. destruct (pl_fresh _ _ _ Hg eq_refl) as (_ & _ & _ & Hnone).
        destruct (inv_has_reservoir p w Hinv) as (r & Hr & _). unfold player_reservoir in Hr. simpl in Hnone. congruence.
      + intros ->. apply orb_true_iff in Est as [Hx%bool_decide_eq_true|Hx%bool_decide_eq_true]; [done |].
        by destruct (Hrec Hx).
      + rewrite (pl_live _ _ _ Hg). simpl. by rewrite (pl_live _ _ _ (pi_pipe _ _ Hinv)).
      + intros Hrc. destruct (Hok Hrc) as [Hs|Hs]; simpl in Hs; by subst.
    - apply orb_false_elim in Est as [Hx%bool_decide_eq_false Hy%bool_decide_eq_false].
      eexists _, w, 0, (pstate (pipeline p)). split; [done |]. split; [apply Hinv |].
      split; [by destruct (pipeline p) |]. split_and!; try done. apply Hinv. }
  destruct Hstop as (g & w1 & rc & s & -> & Hg & -> & Hup & Hrun & Hl & Hok). simpl.
  assert (Hq : player_inv (set_quit 1 (set_pipeline (set_state s (pipeline p)) p)) (hal_sem_give w1)).
  { apply (quitting_inv p w); try done; [| | by hal_live].
    - apply (pipeline_inv_world live _ w1); [done | by hal_live].
    - intros Hs. by apply (pi_thread _ _ Hinv), Hrun. }
  set (p1 := set_quit 1 _) in *.
  assert (Hd1 : p1 = set_decoder (decoder p) p1) by (by destruct p).
  case_bool_decide as Hrc; cbn [negb].
  2:{ exists p1, (hal_sem_give w1), rc. split_and!; [done | done | exists s, (decoder p); split; [by destruct p | by right] | done | done]. }
  destruct (Hok Hrc) as [Hnr Hnrec]. case_bool_decide as Hd.
  - destruct (inv_has_reservoir _ _ Hq) as (r & Hr & _).
    destruct (joined_inv p1 _ r Hq) as (w2 & rc2 & d & -> & Hinv2 & Hdd & Hrc2 & Hrc3); try done.
    eexists _, w2, rc2. split; [done |]. split; [done |]. split; [by exists s, d |].
    split; [intros H0; split; [by apply Hrc2 | done] | exact Hrc3].
  - exists p1, (hal_sem_give w1), rc. split_and!; try done.
    + exists s, (decoder p). split; [by destruct p | by right].
    + intros _. split; [| done]. simpl. destruct (decoder p); [| done]. destruct Hd. by eexists.
Qed.

(** The player right after a successful start. *)
Definition started (p : eaf_player_t W S) (r : eaf_reservoir_t) : eaf_player_t W S :=
  set_gate 1 (set_pipeline
    (set_state EAF_RUNNING (set_completed false (set_reservoir (eaf_reservoir_reset r) (pipeline p))))
    (set_decoder (Some AtGate) (set_shared 0 0 0 0 p))).

(** The pipeline's part of a start, with the thread held at the gate. *)
Lemma gated_start (p : eaf_player_t W S) w r :
  player_inv p w -> player_reservoir p = Some r -> is_Some (decoder p) ->
  pstate (pipeline p) = EAF_CONFIGURED \/ pstate (pipeline p) = EAF_STOPPED ->
  exists g w' rc, start_body (pipeline p) w = Some (g, (w', rc)) /\ player_inv (set_pipeline g p) w' /\
    (rc <> 0 -> pstate g <> EAF_RUNNING) /\
    (rc = 0 -> g = set_state EAF_RUNNING (set_completed false (set_reservoir (eaf_reservoir_reset r) (pipeline p)))).
Proof.
  intros Hinv Hr Hd Hst. destruct (start_inv live _ w (pi_pipe _ _ Hinv)) as (g & w1 & rc & -> & Hg & Hok & Hno & Hshape).
  exists g, w1, rc. split; [done |].
  assert (Hl : live w1 = live w).
  { rewrite (pl_live _ _ _ Hg), (pl_live _ _ _ (pi_pipe _ _ Hinv)).
    destruct (Hshape r Hr) as [[[-> _] _]|[s ->]]; done. }
  assert (Hres : exists r', reservoir (config g) = Some r' /\ Reservoir.format r' = Reservoir.format r).
  { destruct (Hshape r Hr) as [[[-> _] _]|[s ->]]; [by exists r | by eexists]. }
  destruct Hres as (r' & Hr' & Hf). split; [| split].
  - apply set_pipeline_inv; [by apply (player_inv_world p w) | done | | done |].
    + intros Hu. destruct (pl_fresh _ _ _ Hg Hu) as (_ & _ & _ & ?). congruence.
    + intros r0 Hr0. rewrite Hr' in Hr0. injection Hr0 as <-. rewrite Hf. by apply (pi_format _ _ Hinv).
  - intros Hrc. destruct (Hno Hrc) as [?| ->]; [done |]. destruct Hst as [-> | ->]; done.
  - intros ->. destruct (Hok eq_refl) as [Hrun _]. destruct (Hshape r Hr) as [[[_ ?] _]|[s ->]]; [done |].
    simpl in Hrun. by subst.
Qed.

Lemma start_player_spec p w :
  player_inv p w ->
  exists p' w' rc, start_player p w = Some (p', (w', rc)) /\ player_inv p' w' /\
    (rc = 0 -> exists r, player_reservoir p = Some r /\ p' = started p r).
Proof.
  intros Hinv. unfold start_player, eaf_pipeline_start.
  destruct (bool_decide (is_Some _) || _) eqn:Eg.
  { exists p, w, EAF_STATE. by split_and!. }
  apply orb_false_elim in Eg as [Hd%bool_decide_eq_false Hst].
  assert (Hstate : pstate (pipeline p) = EAF_CONFIGURED \/ pstate (pipeline p) = EAF_STOPPED)
    by (repeat case_bool_decide; simpl in Hst; try done; auto). clear Hst.
  pose proof (create_live w) as Hl1. destruct (hal_thread_create w) as [w1 rc1]. simpl in Hl1.
  pose proof (set_shared_inv p w1 0 0 0 0 (player_inv_world _ _ _ Hinv Hl1)) as Hinv1.
  set (p1 := set_shared 0 0 0 0 p) in *. case_bool_decide as Hrc1; cbn [negb].
  2:{ exists p1, w1, rc1. by split_and!. }
  assert (Hinv2 : player_inv (set_decoder (Some AtGate) p1) w1) by (apply set_decoder_inv; done).
  set (p2 := set_decoder (Some AtGate) p1) in *.
  destruct (inv_has_reservoir _ _ Hinv2) as (r & Hr & _).
  rewrite with_ref_on_ptr. change (pipeline p) with (pipeline p2).
  destruct (gated_start p2 w1 r Hinv2 Hr) as (g & w2 & rc2 & -> & Hinv3 & Hbad & Hgood); [by eexists | done |].
  cbn [mbind option_bind]. pose proof (player_inv_world _ _ (hal_sem_give w2) Hinv3 ltac:(by hal_live)) as Hinv4.
  case_bool_decide as Hrc2; cbn [negb].
  - eexists _, _, EAF_OK. split; [done |]. split; [by apply set_shared_inv |]. intros _.
    exists r. split; [done |]. by rewrite (Hgood Hrc2).
  - destruct (inv_has_reservoir _ _ Hinv4) as (r4 & Hr4 & _).
    destruct (joined_inv (set_quit 1 (set_pipeline g p2)) (hal_sem_give w2) r4) as (w5 & rc5 & d & -> & Hinv5 & _);
      [by apply set_shared_inv | done | done | by apply Hbad |].
    eexists _, w5, rc2. split; [done |]. split; [done |]. intros ->. done.
Qed.

(** ** Calls on the address of an initialised player *)
Lemma with_player {R} (bad : R) (f : eaf_player_t W S -> ub (eaf_player_t W S * R)) p w :
  player_inv p w -> with_ref (fun q => on_player q bad f) p = f p.
Proof.
  intros [Hup]. unfold with_ref, on_player, on_ptr. rewrite Hup. by destruct (f p) as [[? ?]|].
Qed.

(** ** Seeking *)
Lemma seek_player_spec p w f :
  player_inv p w ->
  exists p' w' rc, seek_player p w f = Some (p', (w', rc)) /\ player_inv p' w'.
Proof.
  intros Hinv. unfold seek_player, eaf_player_stop. case_decide as Hf; [by exists p, w, EAF_INVALID |].
  rewrite (with_player _ _ p w Hinv).
  destruct (stop_player_spec p w Hinv) as (p1 & w1 & rc1 & -> & Hinv1 & _ & _). cbn [mbind option_bind].
  case_bool_decide as Hrc1; cbn [negb]; [| by exists p1, w1, rc1].
  destruct (pi_source _ _ Hinv1) as (o & Ho & He). rewrite Ho. cbn [mbind option_bind].
  destruct (srcenv_seek _ He) as (sk & -> & Hsk). cbn [mbind option_bind].
  destruct (Hsk (src_ctx (source p1)) f) as (s & rc2 & ->). cbn [mbind option_bind].
  destruct (pi_buffer _ _ Hinv1). pose proof (set_source_inv p1 w1 s (decode_buffer p1) Hinv1 ltac:(done) ltac:(done)) as Hinv2.
  case_bool_decide as Hrc2; cbn [negb]; [| by eexists _, w1, rc2].
  destruct (inv_has_reservoir _ _ Hinv2) as (r & Hr & Hwf). rewrite Hr. cbn [mbind option_bind].
  pose proof (put_reservoir_inv _ _ r (eaf_reservoir_reset r) Hinv2 Hr (reset_wf _ Hwf) eq_refl eq_refl) as Hinv3.
  case_bool_decide; [| by eexists _, w1, EAF_OK]. unfold eaf_player_start. rewrite (with_player _ _ _ w1 Hinv3).
  destruct (start_player_spec _ _ Hinv3) as (p4 & w4 & rc4 & -> & Hinv4 & _). by exists p4, w4, rc4.
Qed.

(** ** Commands *)
Lemma accepted_ext (p q : eaf_player_t W S) c :
  total_frames (source q) = total_frames (source p) -> volume q = volume p ->
  command_accepted q c = command_accepted p c.
Proof. unfold command_accepted. by intros -> ->. Qed.

Lemma push_command_inv p w c :
  player_inv p w -> command_accepted p c = true ->
  exists q b, eaf_control_push (Some (commands p)) (Some c) = Some (Some q, b) /\ player_inv (set_commands q p) w /\
    (b = true -> control_abs q = control_abs (commands p) ++ [c]).
Proof.
  intros Hinv Hc. destruct (control_push_spec (commands p) c (pi_queue _ _ Hinv)) as (q & b & -> & Hwf & _ & Habs).
  exists q, b. split; [done |]. split; [| by intros ->]. apply set_commands_inv; [done | done |].
  rewrite Habs. destruct b; [| apply Hinv]. apply Forall_app. split; [apply Hinv | by repeat constructor].
Qed.

Lemma write_gain_spec p w v g :
  player_inv p w -> volume p = Some v ->
  write_gain p w g = Some (vol_put v (VolumeCtx [g; g; g; g]) w) /\ live (vol_put v (VolumeCtx [g; g; g; g]) w) = live w.
Proof.
  intros Hinv Hv. destruct (pi_volume _ _ Hinv v Hv) as [Hz Hl]. split; [| by apply Hl].
  unfold write_gain. rewrite Hv. simpl. specialize (Hz w). unfold EAF_MAX_CHANNELS.
  destruct (gain (vol_get v w)) as [|a [|b [|c [|d [|e l]]]]]; try (unfold zlen in Hz; simpl in Hz; lia). done.
Qed.

(** ** One step of the owner *)
Context (wake : Z * Z -> W -> W).
Hypothesis (wake_live : forall h w, live (wake h w) = live w).

(** What one block does to the player: it may draw from the reservoir and
    complete the pipeline, and any result other than 0 stops the player. *)
Definition block_done (p p' : eaf_player_t W S) (rc : Z) : Prop :=
  exists r c r', player_reservoir p = Some r /\
    (r' = r /\ c = completed (pipeline p) \/ drawn (block_frames (pipeline p)) r r') /\
    (completed (pipeline p) = false -> c = true -> finished r <> 0 /\ level r <= block_frames (pipeline p)) /\
    let p1 := set_pipeline (set_completed c (set_reservoir r' (pipeline p))) p in
    (p' = p1 /\ (rc = 0 \/ pstate (pipeline p) <> EAF_RUNNING) \/ stopped_from p1 p').

Lemma process_block p w :
  player_inv p w -> pstate (pipeline p) = EAF_RUNNING ->
  exists g w' rc r c r', process_body wake (pipeline p) w = Some (g, (w', rc)) /\ player_inv (set_pipeline g p) w' /\
    player_reservoir p = Some r /\ g = set_completed c (set_reservoir r' (pipeline p)) /\
    (r' = r /\ c = completed (pipeline p) \/ drawn (block_frames (pipeline p)) r r') /\
    (completed (pipeline p) = false -> c = true -> finished r <> 0 /\ level r <= block_frames (pipeline p)).
Proof using wake_live.
  intros Hinv Hrun. destruct (inv_has_reservoir p w Hinv) as (r & Hr & Hwf).
  destruct (process_inv live wake wake_live _ w (pi_pipe _ _ Hinv)) as (g & w' & rc & -> & Hg & Hst & Hend & Hshape).
  destruct (Hshape r Hr) as (r' & Heq & Hr'). exists g, w', rc, r, (completed g), r'.
  split; [done |]. split; [| split_and!; try done; intros Hc Hd; by apply (Hend Hrun Hc r Hr)].
  apply set_pipeline_inv.
  - apply (player_inv_world p w); [done |]. rewrite (pl_live _ _ _ Hg), (pl_live _ _ _ (pi_pipe _ _ Hinv)). by rewrite Heq.
  - done.
  - rewrite Hst. apply Hinv.
  - intros _. by apply (pi_thread _ _ Hinv).
  - intros r0 Hr0. rewrite Heq in Hr0. simpl in Hr0. injection Hr0 as <-.
    replace (Reservoir.format r') with (Reservoir.format r); [by apply (pi_format _ _ Hinv) |].
    destruct Hr' as [[-> _]|(k & _ & _ & _ & _ & -> & _)]; done.
Qed.

Lemma step_block_spec p w :
  player_inv p w ->
  exists p' w' rc, step_block wake p w = Some (p', (w', rc)) /\ player_inv p' w' /\ block_done p p' rc.
Proof using wake_live Hlaws.
  intros Hinv. unfold step_block, eaf_pipeline_process, eaf_player_stop.
  destruct (inv_has_reservoir p w Hinv) as (r & Hr & Hwf).
  assert (Hsame : p = set_pipeline (set_completed (completed (pipeline p)) (set_reservoir r (pipeline p))) p).
  { destruct p as [[[] ? ? ? ? ? ? ?] ? ? ? ? ? ? ? ? ? ?]. unfold player_reservoir in Hr. simpl in *. by subst. }
  case_bool_decide as Hrun; cbn [negb].
  2:{ exists p, w, EAF_STATE. split; [done |]. split; [done |].
      exists r, (completed (pipeline p)), r. split_and!; try done; [by left | congruence | left; split; [done | by right]]. }
  assert (Hmid : exists p1 w1 rc c r', (if negb (bool_decide (failed p = 0)) then Some (p, (w, source_error p))
       else '(g, r) ← with_ref (fun q => on_ptr q (w, EAF_INVALID) (fun q => process_body wake q w)) (pipeline p);
            Some (set_pipeline g p, r)) = Some (p1, (w1, rc)) /\ player_inv p1 w1 /\
      p1 = set_pipeline (set_completed c (set_reservoir r' (pipeline p))) p /\
      (r' = r /\ c = completed (pipeline p) \/ drawn (block_frames (pipeline p)) r r') /\
      (completed (pipeline p) = false -> c = true -> finished r <> 0 /\ level r <= block_frames (pipeline p))).
  { case_bool_decide as Hf; cbn [negb].
    - rewrite with_ref_on_ptr. destruct (process_block p w Hinv Hrun) as (g & w1 & rc & r0 & c & r' & -> & Hinv1 & Hr0 & -> & Hd & He).
      rewrite Hr in Hr0. injection Hr0 as <-. by eexists _, w1, rc, c, r'.
    - exists p, w, (source_error p), (completed (pipeline p)), r. split_and!; try done; [by left | congruence]. }
  destruct Hmid as (p1 & w1 & rc & c & r' & -> & Hinv1 & Hp1 & Hd & He). cbn [mbind option_bind].
  case_bool_decide as Hrc; cbn [negb].
  - eexists p1, w1, rc. split; [done |]. split; [done |]. exists r, c, r'. split_and!; try done. left. auto.
  - rewrite (with_player _ _ p1 w1 Hinv1). destruct (stop_player_spec p1 w1 Hinv1) as (p2 & w2 & rc2 & -> & Hinv2 & Hfrom & _).
    cbn [mbind option_bind]. eexists p2, w2, _. split; [done |]. split; [done |].
    exists r, c, r'. split_and!; try done. right. by rewrite <- Hp1.
Qed.

(** Taking the next command: it was accepted, and what it needs is still there. *)
Lemma pop_command p w :
  player_inv p w ->
  exists q b c, with_ref (fun q => eaf_control_pop q (Some (Command 0 0 0))) (commands p) = Some (q, (b, Some c)) /\
    player_inv (set_commands q p) w /\
    if b : bool then control_abs (commands p) = c :: control_abs q /\ command_accepted p c = true
    else q = commands p.
Proof using.
  intros Hinv.
  destruct (control_pop_spec (commands p) (Command 0 0 0) (pi_queue _ _ Hinv)) as (q & b & c & Hpop & Hwf & Habs).
  exists q, b, c. split; [unfold with_ref; by rewrite Hpop |]. pose proof (pi_commands _ _ Hinv) as Hcmds.
  destruct b.
  - rewrite Habs in Hcmds. apply List.Forall_cons_iff in Hcmds as [Hc Hcmds]. split; [by apply set_commands_inv | done].
  - destruct Habs as (-> & _). split; [by apply set_commands_inv | done].
Qed.

Lemma gain_step p w q c :
  player_inv (set_commands q p) w -> command_accepted p c = true -> cmd_type c = EAF_COMMAND_GAIN ->
  exists w', write_gain (set_commands q p) w (cmd_gain c) = Some w' /\ player_inv (set_commands q p) w'.
Proof using.
  intros Hinv Hc Hg. unfold command_accepted in Hc. rewrite Hg in Hc. simpl in Hc.
  apply andb_true_iff in Hc as [[v Hv]%bool_decide_eq_true _].
  destruct (write_gain_spec _ w v (cmd_gain c) Hinv Hv) as [-> Hl]. eexists. split; [done |].
  by apply (player_inv_world _ w).
Qed.

Lemma step_player_spec p w :
  player_inv p w -> exists p' w' rc, step_player wake p w = Some (p', (w', rc)) /\ player_inv p' w'.
Proof using wake_live Hlaws.
  intros Hinv. unfold step_player, eaf_player_stop, eaf_player_seek.
  destruct (pop_command p w Hinv) as (q & b & c & -> & Hinv1 & Hb). cbn [mbind option_bind].
  assert (Hblock : forall p2 w2, player_inv p2 w2 -> exists p' w' rc, step_block wake p2 w2 = Some (p', (w', rc)) /\ player_inv p' w').
  { intros p2 w2 H2. destruct (step_block_spec p2 w2 H2) as (p' & w' & rc & ? & ? & _). by exists p', w', rc. }
  destruct b; cbn [negb]; [| by apply Hblock]. destruct Hb as [_ Hc].
  case_decide as Hstop; [| case_decide as Hseek; [| case_decide as Hgain]].
  - rewrite (with_player _ _ _ w Hinv1). destruct (stop_player_spec _ w Hinv1) as (p2 & w2 & rc2 & -> & Hinv2 & _).
    cbn [mbind option_bind]. by eexists p2, w2, _.
  - rewrite (with_player _ _ _ w Hinv1). destruct (seek_player_spec _ w (cmd_frame c) Hinv1) as (p2 & w2 & rc2 & -> & Hinv2).
    cbn [mbind option_bind]. case_bool_decide; cbn [negb]; [by apply Hblock | by exists p2, w2, rc2].
  - destruct (gain_step p w q c Hinv1 Hc Hgain) as (w1 & -> & Hinv2). by apply Hblock.
  - eexists _, w, EAF_INVALID. done.
Qed.

(** ** Initialising and tearing down *)
Lemma set_hook_inv p w r f c :
  player_inv p w -> player_reservoir p = Some r -> player_inv (put_reservoir (set_hook f c r) p) w.
Proof using.
  intros Hinv Hr. destruct (inv_has_reservoir p w Hinv) as (r0 & Hr0 & Hwf). rewrite Hr in Hr0. injection Hr0 as <-.
  apply (put_reservoir_inv p w r); try done. by destruct Hwf.
Qed.

(** Between [eaf_player_deinit] and the next [eaf_player_init]: no thread, the
    pipeline idle, the hook gone. *)
Definition player_down (p : eaf_player_t W S) (w : W) : Prop :=
  initialized p = false /\ quiet p /\ pipeline_inv live (pipeline p) w /\
  exists r, player_reservoir p = Some r /\ wake_producer r = 0.

Lemma deinit_player_spec p w :
  player_inv p w ->
  exists p' w' rc, eaf_player_deinit (Some p) w = Some (Some p', (w', rc)) /\
    (rc = EAF_OK /\ player_down p' w' \/ rc <> EAF_OK /\ player_inv p' w').
Proof using Hlaws.
  intros Hinv. unfold eaf_player_deinit, on_player, on_ptr, eaf_player_stop.
  rewrite (pi_up _ _ Hinv), (with_player _ _ p w Hinv).
  destruct (stop_player_spec p w Hinv) as (p1 & w1 & rc & -> & Hinv1 & _ & Hq & _). cbn [mbind option_bind].
  case_bool_decide as Hrc; cbn [negb]; [| cbn; exists p1, w1, rc; split; [done | by right]].
  destruct (inv_has_reservoir p1 w1 Hinv1) as (r & Hr & _). rewrite Hr. cbn [mbind option_bind].
  eexists _, _, EAF_OK. split; [done |]. left. split; [done |].
  pose proof (set_hook_inv p1 _ r 0 0 (player_inv_world _ _ (hal_sem_deinit w1) Hinv1 ltac:(by hal_live)) Hr) as Hinv2.
  split; [done |]. split; [by apply Hq |]. split; [apply Hinv2 |]. by eexists.
Qed.

(** What [eaf_player_init] may be called with. *)
Record init_env (g : eaf_pipeline_t W) (src : eaf_source_t S) (vol : ptr (volume_ref W)) (w : W) : Prop := {
  ie_pipe : pipeline_inv live g w;
  ie_source : forall o, src_ops src = Some o -> source_env o;
  ie_volume : forall v, vol = Some v -> volume_env v
}.

Lemma volume_found_spec k i (v : volume_ref W) found :
  volume_found k i v found = true <-> found = true \/ exists j, i <= j < i + Z.of_nat k /\ vol_node v j = true.
Proof.
  revert i found. induction k as [|k IH]; intros i found; simpl.
  - split; [auto | intros [?|(j & ? & _)]; [done | lia]].
  - rewrite IH, orb_true_iff. split.
    + intros [[?|?]|(j & ? & ?)]; [by left | right; exists i; split; [lia | done] | right; exists j; split; [lia | done]].
    + intros [?|(j & Hj & ?)]; [auto |]. destruct (decide (j = i)) as [->|]; [auto |].
      right. exists j. split; [lia | done].
Qed.

(** The conditions under which the player can work, in the order of the code. *)
Definition init_accepts (p : eaf_player_t W S) (g : eaf_pipeline_t W) (src : eaf_source_t S)
    (vol : ptr (volume_ref W)) (r : eaf_reservoir_t) : Prop :=
  initialized p = false /\ source_complete src = true /\
  (pstate g = EAF_CONFIGURED \/ pstate g = EAF_STOPPED) /\
  Reservoir.format r = src_format src /\ wake_producer r = 0 /\
  backpressure_low r <> 0 /\ backpressure_low r < backpressure_high r /\ backpressure_high r <= capacity r /\
  high_watermark r <= backpressure_high r /\ block_frames g <= backpressure_high r /\
  (forall v, vol = Some v -> exists i, 0 <= i < node_count (config g) /\ vol_node v i = true).

Context (hook hook_ctx : Z).

Lemma init_player_spec p w g src vol :
  init_env g src vol w -> initialized p = false ->
  exists p' w' rc, eaf_player_init hook hook_ctx (Some p) w (Some g) (Some src) vol = Some (Some p', (w', rc)) /\
    (initialized p' = true -> rc = EAF_OK /\ player_inv p' w' /\ control_abs (commands p') = [] /\
       exists r, reservoir (config g) = Some r /\ init_accepts p g src vol r) /\
    (rc = EAF_OK -> initialized p' = true) /\
    (initialized p' = false -> rc = (hal_sem_init w).2 \/ p' = p).
Proof using Hlaws.
  intros [Hg Hsrc Hvol] Hini. unfold eaf_player_init, on_ptr. rewrite Hini, orb_false_l.
  destruct (source_complete src) eqn:Esrc; cbn [negb]; [| cbn; exists p, w, EAF_INVALID; rewrite Hini; split_and!; try done; by right].
  unfold init_body. destruct (_ && _) eqn:Est; [cbn; exists p, w, EAF_STATE; rewrite Hini; split_and!; try done; by right |].
  assert (Hs : pstate g = EAF_CONFIGURED \/ pstate g = EAF_STOPPED)
    by (repeat case_bool_decide; simpl in Est; try done; auto). clear Est.
  assert (Hne : pstate g <> EAF_UNINITIALIZED) by (destruct Hs as [-> | ->]; done).
  destruct (cenv_res _ _ (inv_config live _ _ Hg Hne)) as (r & Hr & Hwf & _). rewrite Hr. cbn [mbind option_bind].
  destruct (_ || _) eqn:Ebad; [cbn; exists p, w, EAF_INVALID; rewrite Hini; split_and!; try done; by right |].
  rewrite !orb_false_iff, !bool_decide_eq_false, !negb_false_iff, bool_decide_eq_true, eaf_format_equal_eq in Ebad.
  destruct Ebad as ((((((Hf & Hwp) & Hlo) & Hlohi) & Hhi) & Hwm) & Hbf).
  destruct (match vol with Some v => _ | None => false end) eqn:Evol;
    [cbn; exists p, w, EAF_INVALID; rewrite Hini; split_and!; try done; by right |].
  assert (Hfound : forall v, vol = Some v -> exists i, 0 <= i < node_count (config g) /\ vol_node v i = true).
  { intros v ->. apply negb_false_iff, volume_found_spec in Evol as [?|(i & Hi & ?)]; [done |]. exists i. split; [lia | done]. }
  pose proof (sem_init_live w) as Hl. destruct (hal_sem_init w) as [w1 rc] eqn:Esem. simpl in Hl.
  cbn zeta. case_bool_decide as Hrc; cbn [negb]; cbn [mbind option_bind].
  2:{ eexists _, w1, rc. split; [done |]. simpl. split_and!; try done. by left. }
  eexists _, w1, EAF_OK. split; [done |]. split; [| split; done]. intros _. split; [done |].
  split; [| split; [done |]].
  - assert (Ho : exists o, src_ops src = Some o) by (unfold source_complete in Esrc; destruct (src_ops src); [by eexists | done]).
    destruct Ho as [o Ho]. set (p1 := set_initialized_flag true (fresh_player g src vol)).
    assert (Hz : Forall is_s32 (replicate 1024 0)) by (apply Forall_replicate; word).
    assert (Hp1 : player_inv p1 w1).
    { split; simpl; try done; try (by apply (pipeline_inv_world live g w)).
      - destruct Hs as [-> | ->]; done.
      - exists o. split; [done | by apply Hsrc].
      - intros r0 Hr0. unfold player_reservoir in Hr0. simpl in Hr0. congruence. }
    apply (set_hook_inv p1 w1 r hook hook_ctx Hp1 Hr).
  - exists r. split; [done |]. unfold init_accepts. split_and!; try done; lia.
Qed.

(** ** Sessions: any calls of the owner, the thread stepping in between *)
Inductive player_op :=
| OpStart
| OpStop
| OpSeek (frame : Z)
| OpCommand (c : eaf_command_t)
| OpStep
| OpDeinit
| OpProduce.

Definition player_exec (op : player_op) (p : eaf_player_t W S) (w : W) : ub (eaf_player_t W S * W) :=
  match op with
  | OpStart => '(p, (w, _)) ← with_ref (fun q => eaf_player_start q w) p; Some (p, w)
  | OpStop => '(p, (w, _)) ← with_ref (fun q => eaf_player_stop q w) p; Some (p, w)
  | OpSeek f => '(p, (w, _)) ← with_ref (fun q => eaf_player_seek q w f) p; Some (p, w)
  | OpCommand c => '(p, _) ← with_ref (fun q => eaf_player_command q (Some c)) p; Some (p, w)
  | OpStep => '(p, (w, _)) ← with_ref (fun q => eaf_player_step wake q w) p; Some (p, w)
  | OpDeinit => '(p, (w, _)) ← with_ref (fun q => eaf_player_deinit q w) p; Some (p, w)
  | OpProduce => produce_step p w
  end.

Fixpoint player_run (ops : list player_op) (p : eaf_player_t W S) (w : W) : ub (eaf_player_t W S * W) :=
  match ops with
  | [] => Some (p, w)
  | op :: ops' => '(p, w) ← player_exec op p w; player_run ops' p w
  end.

Definition session_inv (p : eaf_player_t W S) (w : W) : Prop := player_inv p w \/ player_down p w.

Lemma down_exec op p w : player_down p w -> player_exec op p w = Some (p, w).
Proof using.
  intros (Hini & (Hd & _) & _). destruct op; simpl; try (unfold produce_step; by rewrite Hd);
    unfold eaf_player_start, eaf_player_stop, eaf_player_seek, eaf_player_command, eaf_player_step, eaf_player_deinit,
      on_player, with_ref, on_ptr; by rewrite Hini.
Qed.

Lemma player_exec_inv op p w :
  session_inv p w -> exists p' w', player_exec op p w = Some (p', w') /\ session_inv p' w'.
Proof using wake_live Hlaws.
  intros [Hinv|Hdown]; [| exists p, w; split; [by apply down_exec | by right]].
  destruct op as [| |f|c| | |]; simpl;
    unfold eaf_player_start, eaf_player_stop, eaf_player_seek, eaf_player_command, eaf_player_step;
    rewrite ?(with_player _ _ p w Hinv).
  - destruct (start_player_spec p w Hinv) as (p' & w' & rc & -> & Hp & _). exists p', w'. split; [done | by left].
  - destruct (stop_player_spec p w Hinv) as (p' & w' & rc & -> & Hp & _). exists p', w'. split; [done | by left].
  - destruct (seek_player_spec p w f Hinv) as (p' & w' & rc & -> & Hp). exists p', w'. split; [done | by left].
  - destruct (command_accepted p c) eqn:Ec; [| exists p, w; split; [done | by left]].
    destruct (push_command_inv p w c Hinv Ec) as (q & b & Hpush & Hp & _). unfold with_ref. rewrite Hpush. simpl.
    eexists _, w. split; [done | by left].
  - destruct (step_player_spec p w Hinv) as (p' & w' & rc & -> & Hp). exists p', w'. split; [done | by left].
  - destruct (deinit_player_spec p w Hinv) as (p' & w' & rc & Hrun & Hp). unfold with_ref. rewrite Hrun. simpl.
    exists p', w'. split; [done |]. destruct Hp as [[_ ?]|[_ ?]]; [by right | by left].
  - destruct (produce_step_inv p w Hinv) as (p' & w' & -> & Hp). exists p', w'. split; [done | by left].
Qed.

Lemma player_run_inv ops p w :
  session_inv p w -> exists p' w', player_run ops p w = Some (p', w') /\ session_inv p' w'.
Proof using wake_live Hlaws.
  revert p w. induction ops as [|op ops IH]; intros p w Hinv; [by exists p, w |]. simpl.
  destruct (player_exec_inv op p w Hinv) as (p1 & w1 & -> & Hinv1). by apply IH.
Qed.

(** ** The stream: what the reservoir holds is a window of the source *)
Context (o : eaf_source_ops S) (content : list Z) (pos : S -> Z) (fmt : eaf_format_t) (total : Z).
Let ch := num_channels fmt.

(** A source that plays [content] from its position; a read that reports no frame
    is at the end. *)
Definition plays_content : Prop :=
  zlen content = total * ch /\
  forall rd, read o = Some rd -> forall s buf, zlen buf = 1024 -> 0 <= pos s <= total ->
    forall s' buf' n, rd s buf EAF_PLAYER_DECODE_FRAMES 0 = Some (s', buf', 0, n) -> 0 <= n <= 256 ->
      pos s' = pos s + n /\ pos s' <= total /\ slice buf' 0 (n * ch) = slice content (pos s * ch) (n * ch) /\
      (n = 0 -> pos s = total).

(** [next] is the first frame not yet in the reservoir. *)
Definition fed (pc : producer_pc) (buf : list Z) (at_ : Z) (fin : Z) (next : Z) : Prop :=
  match pc with
  | AtLoop true | AtEnd => True
  | AtWrite off n => fin = 0 /\ 0 <= at_ <= total /\ next + (n - off) = at_ /\
      slice buf (off * ch) ((n - off) * ch) = slice content (next * ch) ((n - off) * ch)
  | _ => fin = 0 /\ 0 <= at_ <= total /\ next = at_
  end.

(** After [played] frames from [base] on, the reservoir holds the next ones. *)
Record window (base played : Z) (r : eaf_reservoir_t) (done : bool) : Prop := {
  win_played : 0 <= base /\ 0 <= played;
  win_read : frames_read r = u64 played;
  win_total : base + played + level r <= total;
  win_frames : res_frames r = slice content ((base + played) * ch) (level r * ch);
  win_finished : finished r <> 0 -> base + played + level r = total;
  win_done : done = true -> finished r <> 0 /\ level r = 0
}.

Record stream_inv (base : Z) (p : eaf_player_t W S) : Prop := {
  si_ops : src_ops (source p) = Some o;
  si_format : src_format (source p) = fmt;
  si_window : exists r played, player_reservoir p = Some r /\
    window base played r (completed (pipeline p)) /\
    (quit p = 0 -> forall pc, decoder p = Some pc ->
       fed pc (decode_buffer p) (pos (src_ctx (source p))) (finished r) (base + played + level r))
}.

Lemma drawn_window base played r r' n d d' :
  reservoir_wf r -> reservoir_wf r' -> channels r = ch -> window base played r d -> drawn n r r' ->
  (d = false -> d' = true -> finished r <> 0 /\ level r <= n) ->
  exists played', window base played' r' d' /\ base + played' + level r' = base + played + level r /\
    finished r' = finished r.
Proof using.
  intros Hwf Hwf' Hch [[Hb Hp] Hr Ht Hf Hfin Hd] (k & Hk & Hfr & Hall & Happ & Hfm & _ & Hfe) Hend.
  assert (Hch' : channels r' = ch) by (unfold channels in *; congruence).
  pose proof (rwf_channels r Hwf) as Hc. rewrite Hch in Hc. pose proof (level_range r Hwf).
  assert (Hz : zlen (slice (res_frames r) 0 (k * ch)) = k * ch).
  { apply zlen_slice; [done | nia |]. rewrite zlen_res_frames, Hch by done. nia. }
  assert (Hlv : level r' = level r - k).
  { pose proof (f_equal zlen Happ) as Hl. rewrite Hch, zlen_app, Hz, !zlen_res_frames, Hch, Hch' in Hl by done. nia. }
  exists (played + k). split; [| split; [lia | done]]. split.
  - lia.
  - rewrite Hfr, Hr. unfold u64. by rewrite Z.add_mod_idemp_l.
  - lia.
  - rewrite Hlv. rewrite Hch in Happ. rewrite Hf in Happ at 1.
    replace (level r * ch) with (k * ch + (level r - k) * ch) in Happ by lia.
    rewrite slice_add in Happ by nia. apply app_inj_1 in Happ as [_ Happ].
    + rewrite <- Happ. f_equal. lia.
    + apply Nat2Z.inj. fold (zlen (slice content ((base + played) * ch) (k * ch))).
      change (Z.of_nat (length (slice (res_frames r) 0 (k * ch)))) with (zlen (slice (res_frames r) 0 (k * ch))).
      rewrite Hz. pose proof (f_equal zlen Hf) as Hl. rewrite zlen_res_frames, Hch in Hl by done.
      unfold slice, zlen in Hl |- *. rewrite length_take in Hl |- *. lia.
  - intros Hx. rewrite Hfe in Hx. rewrite Hlv. specialize (Hfin Hx). lia.
  - intros Hd'. rewrite Hfe, Hlv. destruct d.
    + destruct (Hd eq_refl) as [? Hl0]. split; [done | lia].
    + destruct (Hend eq_refl Hd') as [Hx Hle]. split; [done |]. rewrite (Hall Hx). lia.
Qed.

Context (Hplays : plays_content).

Lemma stream_facts base p w :
  player_inv p w -> stream_inv base p ->
  source_env o /\ forall r, player_reservoir p = Some r -> reservoir_wf r /\ channels r = ch.
Proof using.
  intros Hinv [Ho Hfm _]. split.
  - destruct (pi_source _ _ Hinv) as (o' & Ho' & He). congruence.
  - intros r Hr. destruct (inv_has_reservoir p w Hinv) as (r0 & Hr0 & Hwf). rewrite Hr in Hr0. injection Hr0 as <-.
    split; [done |]. unfold channels, ch. rewrite (pi_format _ _ Hinv r Hr). congruence.
Qed.

(** The thread moves on without touching the stream. *)
Lemma stream_goto base p pc :
  stream_inv base p ->
  (forall r, quit p = 0 -> player_reservoir p = Some r -> forall old next, decoder p = Some old ->
     fed old (decode_buffer p) (pos (src_ctx (source p))) (finished r) next ->
     fed pc (decode_buffer p) (pos (src_ctx (source p))) (finished r) next) ->
  is_Some (decoder p) -> stream_inv base (set_decoder (Some pc) p).
Proof using.
  intros [Ho Hf (r & k & Hr & Hw & Hfed)] Hpc [old Hd]. split; [done | done |]. exists r, k. split; [done |].
  split; [done |]. intros Hq pc' [= <-]. by apply (Hpc r Hq Hr old), Hfed.
Qed.

Lemma stream_read base p p' w r :
  player_inv p w -> stream_inv base p -> decoder p = Some AtRead -> quit p = 0 -> player_reservoir p = Some r ->
  produce_read p r = Some p' -> stream_inv base p'.
Proof using Hplays.
  intros Hinv Hsi Hd Hq Hr. destruct (stream_facts base p w Hinv Hsi) as [He _].
  destruct Hsi as [Ho Hf (r0 & k & Hr0 & Hw & Hfed)]. rewrite Hr in Hr0. injection Hr0 as <-.
  destruct (Hfed Hq _ Hd) as (Hfin & Hpos & Hnext). unfold produce_read. rewrite Ho. simpl.
  destruct (srcenv_read _ He) as (rd & Hrd & Hcall). rewrite Hrd. simpl.
  destruct (pi_buffer _ _ Hinv) as [Hl H32].
  destruct (Hcall (src_ctx (source p)) _ Hl H32) as (s' & buf' & rc & n & Hrun & _ & _ & Hn). rewrite Hrun. simpl.
  destruct (_ || _) eqn:Ebad.
  { intros [= <-]. split; [done | done |]. exists r, k. split_and!; try done. by intros _ pc [= <-]. }
  apply orb_false_elim in Ebad as [Hrc%negb_false_iff%bool_decide_eq_true Hle%bool_decide_eq_false]. subst rc.
  unfold EAF_PLAYER_DECODE_FRAMES in Hle.
  destruct (proj2 Hplays rd Hrd _ _ Hl Hpos _ _ _ Hrun ltac:(lia)) as (Hp' & Htot & Hsl & Hend).
  case_decide as Hn0; simpl; intros [= <-]; (split; [done | done |]).
  - exists (set_finished 1 r), k. split; [done |]. destruct Hw as [H1 H2 H3 H4 H5 H6]. split.
    + split; try done.
      * intros _. change (level (set_finished 1 r)) with (level r). rewrite Hnext. by apply Hend.
      * intros Hdone. by destruct (H6 Hdone).
    + by intros _ pc [= <-].
  - exists r, k. split; [done |]. split; [done |]. intros _ pc [= <-]. simpl.
    split; [done |]. split; [lia |]. split; [lia |]. rewrite Z.sub_0_r, Hnext. exact Hsl.
Qed.

Lemma stream_write base p p' w w' r off n :
  player_inv p w -> stream_inv base p -> decoder p = Some (AtWrite off n) -> off < n -> quit p = 0 ->
  player_reservoir p = Some r -> produce_write p w r off n = Some (p', w') -> stream_inv base p'.
Proof using Hplays.
  intros Hinv Hsi Hd Hlt Hq Hr. destruct (stream_facts base p w Hinv Hsi) as [_ Hwch].
  destruct (Hwch r Hr) as [Hwf Hch]. pose proof (rwf_channels r Hwf) as Hc. rewrite Hch in Hc.
  destruct Hsi as [Ho Hf (r0 & k & Hr0 & Hw & Hfed)]. rewrite Hr in Hr0. injection Hr0 as <-.
  destruct (Hfed Hq _ Hd) as (Hfin & Hpos & Hnext & Hsl).
  destruct (pi_write _ _ Hinv _ _ Hd) as [Hoff Hn]. destruct (pi_buffer _ _ Hinv) as [Hl H32].
  pose proof (level_range r Hwf) as Hlv. destruct Hw as [H1 H2 H3 H4 H5 H6].
  unfold produce_write, with_ref. rewrite (u32_small (n - off)) by word. rewrite Hch.
  destruct (res_write_spec r (drop (Z.to_nat (off * ch)) (decode_buffer p)) (n - off) Hwf) as (l & -> & Hwf' & Hview);
    [lia | rewrite Hch, drop_slice, zlen_slice by nia; nia | by apply Forall_drop | done |].
  simpl. intros [= <- <-]. set (m := Z.min (n - off) (capacity r - level r)) in *.
  assert (Hm : 0 <= m <= n - off) by lia. rewrite Hch in Hview.
  set (r' := set_write_cursor _ _) in *.
  assert (Hlevel : level r' = level r + m).
  { pose proof (f_equal zlen Hview) as Hz. rewrite zlen_app, !zlen_res_frames in Hz by done.
    change (channels r') with (channels r) in Hz. rewrite Hch, drop_slice in Hz by nia.
    rewrite zlen_slice in Hz; rewrite ?zlen_slice by nia; nia. }
  assert (Hhead : slice (drop (Z.to_nat (off * ch)) (decode_buffer p)) 0 (m * ch)
                  = slice content ((base + k + level r) * ch) (m * ch)).
  { replace ((n - off) * ch) with (m * ch + (n - off - m) * ch) in Hsl by lia.
    rewrite !slice_add in Hsl by nia. apply app_inj_1 in Hsl as [Hsl _]; [by rewrite <- Hsl |].
    apply Nat2Z.inj. change (zlen (slice (decode_buffer p) (off * ch) (m * ch)) = zlen (slice content ((base + k + level r) * ch) (m * ch))).
    destruct Hplays as [Hcz _]. rewrite !zlen_slice by (rewrite ?Hcz; nia). done. }
  split; [done | done |]. exists r', k. split; [done |]. split.
  - split; try done.
    + rewrite Hlevel. lia.
    + rewrite Hview, Hlevel, H4, Hhead. replace ((level r + m) * ch) with (level r * ch + m * ch) by lia.
      rewrite slice_add by nia. do 2 f_equal. lia.
    + intros Hdone. by destruct (H6 Hdone).
  - intros _ pc [= <-]. simpl. rewrite (u32_small (off + m)) by word. rewrite Hlevel.
    split; [done |]. split; [lia |]. split; [lia |].
    replace ((n - off) * ch) with (m * ch + (n - off - m) * ch) in Hsl by lia.
    rewrite !slice_add in Hsl by nia. apply app_inj_2 in Hsl as [_ Hsl].
    + replace ((off + m) * ch) with (off * ch + m * ch) by lia. replace (n - (off + m)) with (n - off - m) by lia.
      rewrite Hsl. f_equal. lia.
    + apply Nat2Z.inj. destruct Hplays as [Hcz _].
      change (zlen (slice (decode_buffer p) (off * ch + m * ch) ((n - off - m) * ch))
        = zlen (slice content ((base + k + level r) * ch + m * ch) ((n - off - m) * ch))).
      rewrite !zlen_slice by (rewrite ?Hcz; nia). done.
Qed.

Lemma stream_produce base p w p' w' :
  player_inv p w -> stream_inv base p -> produce_step p w = Some (p', w') -> stream_inv base p'.
Proof using Hplays.
  intros Hinv Hsi. unfold produce_step. destruct (decoder p) as [pc|] eqn:Hd; [| by intros [= <- <-]].
  destruct (inv_has_reservoir p w Hinv) as (r & Hr & Hwf). rewrite Hr. simpl.
  assert (Hend : stream_inv base (set_decoder (Some AtEnd) p)) by (apply stream_goto; [done | done | by eexists]).
  assert (Hgoto : forall pc', (forall buf a f nx, quit p = 0 -> fed pc buf a f nx -> fed pc' buf a f nx) -> stream_inv base (set_decoder (Some pc') p)).
  { intros pc' Hpc. apply stream_goto; [done | | by eexists]. intros r0 Hq _ old nx Hold. rewrite Hd in Hold.
    injection Hold as <-. by apply Hpc. }
  destruct pc as [|ended| | |off n|].
  - destruct (_ && _); intros [= <- <-]; [done | by apply Hgoto].
  - destruct (negb _); [by intros [= <- <-] |]. destruct ended; [by intros [= <- <-] |].
    destruct (eaf_reservoir_backpressure r); intros [= <- <-]; by apply Hgoto.
  - destruct (_ && _); intros [= <- <-]; [done | by apply Hgoto].
  - destruct (negb _) eqn:Eq; [by intros [= <- <-] |]. apply negb_false_iff, bool_decide_eq_true in Eq.
    destruct (produce_read p r) as [p1|] eqn:E; [| done]. simpl. intros [= <- <-]. by apply (stream_read base p p1 w r).
  - destruct (bool_decide (off < n) && _) eqn:Eg.
    + apply andb_true_iff in Eg as [Hlt%bool_decide_eq_true Hq%negb_true_iff%negb_false_iff%bool_decide_eq_true].
      by apply (stream_write base p p' w w' r off n).
    + intros [= <- <-]. apply Hgoto. intros buf a f nx Hq (Hf & Ha & Hnx & _). simpl. split; [done |]. split; [done |].
      rewrite Hq, andb_true_r in Eg. apply bool_decide_eq_false in Eg.
      destruct (pi_write _ _ Hinv _ _ Hd). lia.
  - by intros [= <- <-].
Qed.

Lemma stream_stopped base p p' : stream_inv base p -> stopped_from p p' -> stream_inv base p'.
Proof using.
  intros [Ho Hf (r & k & Hr & Hw & _)] (s & d & -> & _). split; [done | done |].
  exists r, k. split; [done |]. split; [done |]. intros Hq. discriminate Hq.
Qed.

Lemma stream_block base p w p' w' rc :
  player_inv p w -> player_inv p' w' -> stream_inv base p -> block_done p p' rc -> stream_inv base p'.
Proof using.
  intros Hinv Hinv' Hsi (r & c & r' & Hr & Hdrawn & Hend & Hp').
  destruct (stream_facts base p w Hinv Hsi) as [_ Hwch]. destruct (Hwch r Hr) as [Hwf Hch].
  destruct Hsi as [Ho Hf (r0 & k & Hr0 & Hw & Hfed)]. rewrite Hr in Hr0. injection Hr0 as <-.
  set (p1 := set_pipeline _ p) in *.
  assert (Hwf' : reservoir_wf r').
  { destruct (inv_has_reservoir p' w' Hinv') as (r1 & Hr1 & Hwf1).
    destruct Hp' as [[-> _]|(s & d & -> & _)]; injection Hr1 as <-; done. }
  assert (Hnew : exists k', window base k' r' c /\ base + k' + level r' = base + k + level r /\ finished r' = finished r).
  { destruct Hdrawn as [[-> ->]|Hd]; [by exists k |]. by apply (drawn_window base k r r' (block_frames (pipeline p)) (completed (pipeline p)) c). }
  destruct Hnew as (k' & Hw' & Hnext & Hfin).
  assert (Hsi1 : stream_inv base p1).
  { split; [done | done |]. exists r', k'. split; [done |]. split; [done |]. rewrite Hfin, Hnext. exact Hfed. }
  destruct Hp' as [[-> _]|Hst]; [done | by apply (stream_stopped base p1)].
Qed.

Lemma stream_started p w r :
  player_inv p w -> player_reservoir p = Some r -> src_ops (source p) = Some o -> src_format (source p) = fmt ->
  0 <= pos (src_ctx (source p)) <= total -> stream_inv (pos (src_ctx (source p))) (started p r).
Proof using.
  intros Hinv Hr Ho Hf Hpos. split; [done | done |]. exists (eaf_reservoir_reset r), 0. split; [done |].
  change (level (eaf_reservoir_reset r)) with 0. split.
  - split; try done; change (level (eaf_reservoir_reset r)) with 0; lia.
  - intros _ pc [= <-]. simpl. split; [done |]. split; [done |]. lia.
Qed.

Definition gains_only (p : eaf_player_t W S) : Prop :=
  Forall (fun c => cmd_type c = EAF_COMMAND_GAIN) (control_abs (commands p)).

(** The calls that keep to one stretch of the stream. *)
Definition stream_op (op : player_op) : Prop :=
  match op with
  | OpProduce | OpStep | OpStop => True
  | OpCommand c => cmd_type c = EAF_COMMAND_GAIN
  | _ => False
  end.

Lemma block_commands p p' rc : block_done p p' rc -> commands p' = commands p.
Proof using. intros (r & c & r' & _ & _ & _ & [[-> _]|(s & d & -> & _)]); done. Qed.

Lemma stream_step base p w :
  player_inv p w -> stream_inv base p -> gains_only p ->
  exists p' w' rc, step_player wake p w = Some (p', (w', rc)) /\ player_inv p' w' /\ stream_inv base p' /\ gains_only p'.
Proof using wake_live Hlaws Hplays.
  intros Hinv Hsi Hg. unfold step_player, eaf_player_stop, eaf_player_seek.
  destruct (pop_command p w Hinv) as (q & b & c & -> & Hinv1 & Hb). cbn [mbind option_bind].
  assert (Hsi1 : stream_inv base (set_commands q p)) by (by destruct Hsi).
  assert (Hblock : forall w2, player_inv (set_commands q p) w2 -> gains_only (set_commands q p) ->
    exists p' w' rc, step_block wake (set_commands q p) w2 = Some (p', (w', rc)) /\ player_inv p' w' /\ stream_inv base p' /\ gains_only p').
  { intros w2 H2 Hg2. destruct (step_block_spec _ w2 H2) as (p' & w' & rc & -> & Hp' & Hdone). exists p', w', rc.
    split; [done |]. split; [done |]. split; [by apply (stream_block base (set_commands q p) w2 p' w' rc) |].
    unfold gains_only. by rewrite (block_commands (set_commands q p) p' rc Hdone). }
  destruct b; cbn [negb]; [| apply Hblock; [done | by rewrite Hb]].
  destruct Hb as [Habs Hc]. unfold gains_only in Hg. rewrite Habs in Hg. apply List.Forall_cons_iff in Hg as [Htype Hg].
  rewrite Htype. destruct (gain_step p w q c Hinv1 Hc Htype) as (w1 & Hwr & Hinv2).
  rewrite decide_False, decide_False, decide_True by done. rewrite Hwr. by apply Hblock.
Qed.

Lemma stream_exec base op p w :
  player_inv p w -> stream_inv base p -> gains_only p -> stream_op op ->
  exists p' w', player_exec op p w = Some (p', w') /\ player_inv p' w' /\ stream_inv base p' /\ gains_only p'.
Proof using wake_live Hlaws Hplays.
  intros Hinv Hsi Hg Hop. destruct op as [| |f|c| | |]; try done; simpl;
    unfold eaf_player_stop, eaf_player_command, eaf_player_step; rewrite ?(with_player _ _ p w Hinv).
  - destruct (stop_player_spec p w Hinv) as (p' & w' & rc & -> & Hp & Hfrom & _). exists p', w'. split; [done |].
    split; [done |]. split; [by apply (stream_stopped base p) |]. by destruct Hfrom as (s & d & -> & _).
  - destruct (command_accepted p c) eqn:Ec; [| by exists p, w].
    destruct (control_push_spec (commands p) c (pi_queue _ _ Hinv)) as (q & b & Hpush & Hwf & _ & Habs).
    destruct (push_command_inv p w c Hinv Ec) as (q' & b' & Hpush' & Hp & _). rewrite Hpush in Hpush'. injection Hpush' as <- <-.
    unfold with_ref. rewrite Hpush. simpl. eexists _, w. split; [done |]. split; [done |]. split; [by destruct Hsi |].
    unfold gains_only. simpl. rewrite Habs. destruct b; [| done]. apply Forall_app. split; [done | by repeat constructor].
  - destruct (stream_step base p w Hinv Hsi Hg) as (p' & w' & rc & -> & ?). by exists p', w'.
  - destruct (produce_step_inv p w Hinv) as (p' & w' & Hrun & Hp). exists p', w'. split; [done |]. split; [done |].
    split; [by apply (stream_produce base p w p' w') |].
    unfold gains_only. replace (commands p') with (commands p); [done |]. symmetry. by apply (produce_commands p w p' w').
Qed.

Lemma stream_run base ops p w :
  player_inv p w -> stream_inv base p -> gains_only p -> Forall stream_op ops ->
  exists p' w', player_run ops p w = Some (p', w') /\ player_inv p' w' /\ stream_inv base p'.
Proof using wake_live Hlaws Hplays.
  revert p w. induction ops as [|op ops IH]; intros p w Hinv Hsi Hg Hops; [by exists p, w |].
  apply List.Forall_cons_iff in Hops as [Hop Hops]. simpl.
  destruct (stream_exec base op p w Hinv Hsi Hg Hop) as (p1 & w1 & -> & Hinv1 & Hsi1 & Hg1). by apply IH.
Qed.
End laws.

#[global] Arguments player_op : clear implicits.

(** [n] steps of the decoder thread. *)
Fixpoint produce_steps {W S} `{PlayerHal W} (n : nat) (p : eaf_player_t W S) (w : W) : ub (eaf_player_t W S * W) :=
  match n with
  | O => Some (p, w)
  | Datatypes.S n' => '(p, w) ← produce_step p w; produce_steps n' p w
  end.

Section gate.
Context {W S : Type} `{PlayerHal W} (live : W -> list Z) {Hlaws : PlayerHalLaws live}.

(** A thread at the closed gate only waits. *)
Lemma gate_holds (p : eaf_player_t W S) w r n :
  decoder p = Some AtGate -> gate p = 0 -> quit p = 0 -> player_reservoir p = Some r ->
  exists w', produce_steps n p w = Some (p, w') /\ live w' = live w.
Proof.
  intros Hd Hg Hq Hr. revert w. induction n as [|n IH]; intros w; [by exists w |].
  simpl. unfold produce_step. rewrite Hd, Hr, Hg, Hq. simpl.
  destruct (IH (hal_sem_take w 20)) as (w' & -> & Hl). exists w'. split; [done |].
  by rewrite Hl, sem_take_live.
Qed.
End gate.

(** ** A small environment for the witnesses *)
#[export] Instance demo_player_hal : PlayerHal (list Z) := {
  hal_sem_init w := (w, 0);
  hal_sem_take w _ := w;
  hal_sem_give w := w;
  hal_sem_deinit w := w;
  hal_thread_create w := (w, 0);
  hal_thread_join w := (w, 0)
}.
#[export] Instance demo_player_laws : PlayerHalLaws (fun w : list Z => w).
Proof. split; done. Qed.

(** Six stereo frames; the state is the position. *)
Definition demo_content : list Z := [1; -1; 2; -2; 3; -3; 4; -4; 5; -5; 6; -6].
Definition demo_read (s : Z) (buf : list Z) (cap frames : Z) : ub (Z * list Z * Z * Z) :=
  let n := Z.max 0 (Z.min cap (6 - s)) in
  Some (s + n, splice buf 0 (slice demo_content (s * 2) (n * 2)), 0, n).
Definition demo_source_ops : eaf_source_ops Z := SourceOps (Some demo_read) (Some (fun _ f => Some (f, 0))).
Definition demo_source : eaf_source_t Z := Source (Some demo_source_ops) 0 (Format 48000 2 3) 6.
Definition demo_player_pipeline : eaf_pipeline_t (list Z) :=
  set_reservoir (set_hook 0 0 (eaf_reservoir_reset demo_reservoir)) (set_state EAF_CONFIGURED demo_running).
Definition demo_blank : eaf_player_t (list Z) Z := fresh_player pipeline_zero demo_source None.
Definition demo_ready : eaf_player_t (list Z) Z :=
  set_initialized_flag true (put_reservoir (set_hook 7 8 (set_hook 0 0 (eaf_reservoir_reset demo_reservoir)))
    (fresh_player demo_player_pipeline demo_source None)).

Lemma demo_source_env : source_env demo_source_ops.
Proof.
  split; [| eexists; split; [done | intros; by repeat eexists]].
  eexists. split; [done |]. intros s buf Hl H32. unfold demo_read, EAF_PLAYER_DECODE_FRAMES.
  set (n := Z.max 0 (Z.min 256 (6 - s))). do 4 eexists. split; [reflexivity |].
  pose proof (zlen_take_le (drop (Z.to_nat (s * 2)) demo_content) (Z.to_nat (n * 2))) as Hz.
  assert (Hn : 0 <= n <= 256) by lia. split; [| split; [| lia]].
  - rewrite zlen_splice; [done | lia |]. unfold slice. lia.
  - unfold splice. apply Forall_app. split; [by apply Forall_take |]. apply Forall_app. split; [| by apply Forall_drop].
    apply slice_forall. repeat constructor; word.
Qed.

Lemma demo_plays : plays_content demo_source_ops demo_content (fun s => s) (Format 48000 2 3) 6.
Proof.
  split; [done |]. intros rd [= <-] s buf Hl Hs s' buf' n [= <- <- <-] Hn.
  set (m := Z.max 0 (Z.min EAF_PLAYER_DECODE_FRAMES (6 - s))) in *.
  assert (Hm : m = 6 - s) by (unfold m, EAF_PLAYER_DECODE_FRAMES; lia).
  split; [done |]. split; [lia |]. split; [| lia]. change (num_channels _) with 2.
  assert (Hz : zlen (slice demo_content (s * 2) (m * 2)) = m * 2)
    by (apply zlen_slice; try lia; change (zlen demo_content) with 12; lia).
  pose proof (slice_splice buf (slice demo_content (s * 2) (m * 2)) 0 0 (m * 2)) as Hss.
  change (0 + 0) with 0 in Hss. rewrite Hss by lia. apply slice_full; lia.
Qed.

Lemma demo_player_pipeline_inv : pipeline_inv (fun w => w) demo_player_pipeline [0].
Proof.
  apply (inv_reservoir (fun w => w) (set_state EAF_CONFIGURED demo_running) [0] demo_reservoir); try done.
  - split; simpl; try done; [intros _; apply demo_config_env |]. intros _. split_and!; try done. by exists demo_reservoir.
  - pose proof (reset_wf _ demo_reservoir_wf) as Hwf. by destruct Hwf.
Qed.

Lemma demo_init_env : init_env (fun w => w) demo_player_pipeline demo_source None [0].
Proof. split; [apply demo_player_pipeline_inv | intros o [= <-]; apply demo_source_env | done]. Qed.

Lemma demo_init : eaf_player_init 7 8 (Some demo_blank) [0] (Some demo_player_pipeline) (Some demo_source) None
  = Some (Some demo_ready, ([0], EAF_OK)).
Proof. reflexivity. Qed.

Lemma demo_ready_inv : player_inv (fun w => w) demo_ready [0].
Proof.
  destruct (init_player_spec (fun w => w) 7 8 demo_blank [0] demo_player_pipeline demo_source None demo_init_env eq_refl)
    as (p' & w' & rc & Hrun & Hok & _).
  rewrite demo_init in Hrun. injection Hrun as <- <- <-. by destruct (Hok eq_refl) as (_ & ? & _).
Qed.

(** Six frames through a ring of four: started, decoded, played to completion. *)
Definition demo_turn : list (player_op) := [OpProduce; OpProduce; OpProduce; OpProduce; OpStep].
Example player_plays :
  exists p w, player_run demo_wake (OpStart :: concat (replicate 12 demo_turn)) demo_ready [0] = Some (p, w) /\
    completed (pipeline p) = true /\ decoder p = None /\ pstate (pipeline p) = EAF_STOPPED /\
    frames_read <$> player_reservoir p = Some 6.
Proof. do 2 eexists. split; [vm_compute; reflexivity |]. done. Qed.

(** ** Properties *)

(** C11: Whatever the owner does with an initialised player (start, stop, seek, any
    commands, steps, teardown, in any order), whatever the source, the nodes, the
    sink and the operating system answer, and however far the decoder thread gets
    in between: every call returns without an invalid access or a lost wait, the
    pipeline's lifecycle invariant holds, a running pipeline has its decoder
    thread, every queued command is one the player can carry out, and after
    teardown neither the thread nor the running pipeline nor the wake hook is left. *)
Theorem player_session_safe {W S} `{PlayerHal W} (live : W -> list Z) `{!PlayerHalLaws live}
    (wake : Z * Z -> W -> W) (hook hook_ctx : Z) (p : eaf_player_t W S) (w : W) (g : eaf_pipeline_t W)
    (src : eaf_source_t S) (vol : ptr (volume_ref W)) (ops : list player_op) :
  (forall h w, live (wake h w) = live w) -> init_env live g src vol w -> initialized p = false ->
  exists p1 w1 rc, eaf_player_init hook hook_ctx (Some p) w (Some g) (Some src) vol = Some (Some p1, (w1, rc)) /\
    (rc = EAF_OK -> exists p2 w2, player_run wake ops p1 w1 = Some (p2, w2) /\
       pipeline_inv live (pipeline p2) w2 /\
       (pstate (pipeline p2) = EAF_RUNNING -> is_Some (decoder p2)) /\
       (initialized p2 = true -> Forall (fun c => command_accepted p2 c = true) (control_abs (commands p2))) /\
       (initialized p2 = false -> decoder p2 = None /\ pstate (pipeline p2) <> EAF_RUNNING /\
          exists r, player_reservoir p2 = Some r /\ wake_producer r = 0)).
Proof.
  intros Hwake Henv Hini.
  destruct (init_player_spec live hook hook_ctx p w g src vol Henv Hini) as (p1 & w1 & rc & Hrun & Hok & Hup & _).
  exists p1, w1, rc. split; [done |]. intros Hrc. destruct (Hok (Hup Hrc)) as (_ & Hinv & _).
  destruct (player_run_inv live wake Hwake ops p1 w1 (or_introl Hinv)) as (p2 & w2 & Hops & Hend).
  exists p2, w2. split; [done |]. destruct Hend as [Hi|(Hd & (Hno & Hnr & _) & Hp & Hhook)].
  - split; [apply Hi |]. split; [apply Hi |]. split; [intros _; apply Hi |]. pose proof (pi_up _ _ _ Hi). congruence.
  - split; [done |]. split; [congruence |]. split; [congruence |]. done.
Qed.

Lemma player_session_safe_witness :
  exists p1 w1 rc, eaf_player_init 7 8 (Some demo_blank) [0] (Some demo_player_pipeline) (Some demo_source) None
    = Some (Some p1, (w1, rc)) /\
    (rc = EAF_OK -> exists p2 w2, player_run demo_wake (OpStart :: OpProduce :: OpCommand (Command EAF_COMMAND_SEEK 3 0)
       :: OpStep :: OpProduce :: [OpDeinit]) p1 w1 = Some (p2, w2)).
Proof.
  destruct (player_session_safe (fun w => w) demo_wake 7 8 demo_blank [0] demo_player_pipeline demo_source None
    (OpStart :: OpProduce :: OpCommand (Command EAF_COMMAND_SEEK 3 0) :: OpStep :: OpProduce :: [OpDeinit]))
    as (p1 & w1 & rc & H1 & H2); [reflexivity | apply demo_init_env | reflexivity |].
  exists p1, w1, rc. split; [exact H1 |]. intros Hrc. destruct (H2 Hrc) as (p2 & w2 & Hrun & _).
  exists p2, w2. exact Hrun.
Defined.

(** C12: Playback without gaps or repeats: from a start at source position [base], with
    the thread and the owner's steps in any order, gain changes and a stop in
    between, what waits in the reservoir is exactly the stretch of the source that
    follows the frames already played; the input is declared finished only at the
    source's end, and a completed player has played everything from [base] on. *)
Theorem player_stream_gapless {W S} `{PlayerHal W} (live : W -> list Z) `{!PlayerHalLaws live}
    (wake : Z * Z -> W -> W) (o : eaf_source_ops S) (content : list Z) (pos : S -> Z) (fmt : eaf_format_t)
    (total : Z) (p p1 : eaf_player_t W S) (w w1 : W) (ops : list player_op) :
  (forall h w, live (wake h w) = live w) -> plays_content o content pos fmt total ->
  player_inv live p w -> gains_only p -> src_ops (source p) = Some o -> src_format (source p) = fmt ->
  0 <= pos (src_ctx (source p)) <= total ->
  eaf_player_start (Some p) w = Some (Some p1, (w1, EAF_OK)) -> Forall stream_op ops ->
  let base := pos (src_ctx (source p)) in
  let ch := num_channels fmt in
  exists p2 w2 r played, player_run wake ops p1 w1 = Some (p2, w2) /\ player_reservoir p2 = Some r /\
    frames_read r = u64 played /\ 0 <= played /\ base + played + level r <= total /\
    res_frames r = slice content ((base + played) * ch) (level r * ch) /\
    (finished r <> 0 -> base + played + level r = total) /\
    (completed (pipeline p2) = true -> base + played = total /\ level r = 0).
Proof.
  intros Hwake Hplays Hinv Hg Ho Hf Hpos Hstart Hops base ch.
  destruct (start_player_spec live p w Hinv) as (q & v & rc & Hrun & Hinv1 & Hok).
  unfold eaf_player_start, on_player, on_ptr in Hstart. rewrite (pi_up _ _ _ Hinv), Hrun in Hstart.
  simpl in Hstart. injection Hstart as -> -> ->. destruct (Hok eq_refl) as (r & Hr & ->).
  pose proof (stream_started live o content pos fmt total p w r Hinv Hr Ho Hf Hpos) as Hsi.
  destruct (stream_run live wake Hwake o content pos fmt total Hplays _ ops _ w1 Hinv1 Hsi Hg Hops)
    as (p2 & w2 & Hall & _ & [_ _ (r2 & k & Hr2 & [H1 H2 H3 H4 H5 H6] & _)]).
  exists p2, w2, r2, k. split_and!; try done; try lia; intros Hc; destruct (H6 Hc) as [Hx Hl];
    specialize (H5 Hx); unfold base; lia.
Qed.

Lemma player_stream_gapless_witness :
  let ops := concat (replicate 3 demo_turn) in
  exists p1 w1 p2 w2 r played, eaf_player_start (Some demo_ready) [0] = Some (Some p1, (w1, EAF_OK)) /\
    player_run demo_wake ops p1 w1 = Some (p2, w2) /\ player_reservoir p2 = Some r /\
    res_frames r = slice demo_content ((0 + played) * 2) (level r * 2).
Proof.
  intros ops. set (p1 := started demo_ready (set_hook 7 8 (set_hook 0 0 (eaf_reservoir_reset demo_reservoir)))).
  assert (Hs : eaf_player_start (Some demo_ready) [0] = Some (Some p1, ([0], EAF_OK))) by reflexivity.
  destruct (player_stream_gapless (fun w => w) demo_wake demo_source_ops demo_content (fun s => s) (Format 48000 2 3) 6
    demo_ready p1 [0] [0] ops) as (p2 & w2 & r & played & H1 & H2 & _ & _ & _ & H3 & _);
    [reflexivity | apply demo_plays | apply demo_ready_inv | constructor | reflexivity | reflexivity
    | split; discriminate | exact Hs | repeat constructor |].
  exists p1, [0], p2, w2, r, played. split; [exact Hs |]. split; [exact H1 |]. split; [exact H2 | exact H3].
Defined.

(** The reservoir is only ever reset while nobody fills it. A start resets it
    with the new thread held at the gate, where any number of its steps changes
    nothing of the player; a seek resets it after a stop, and a stop that reports
    success has ended the thread, without another frame written, and left the
    pipeline idle, while a stop that fails keeps the thread's handle for a retry. *)
Theorem player_reset_exclusive {W S} `{PlayerHal W} (live : W -> list Z) `{!PlayerHalLaws live}
    (p : eaf_player_t W S) (w : W) :
  player_inv live p w ->
  (forall n v, exists v', produce_steps n (set_decoder (Some AtGate) (set_shared 0 0 0 0 p)) v
     = Some (set_decoder (Some AtGate) (set_shared 0 0 0 0 p), v') /\ live v' = live v) /\
  exists p' w' rc, eaf_player_stop (Some p) w = Some (Some p', (w', rc)) /\
    player_inv live p' w' /\ player_reservoir p' = player_reservoir p /\
    (rc = EAF_OK -> decoder p' = None /\ pstate (pipeline p') <> EAF_RUNNING /\ pstate (pipeline p') <> EAF_RECOVERY) /\
    (rc <> EAF_OK -> decoder p' = decoder p /\ quit p' <> 0).
Proof.
  intros Hinv. split.
  - intros n v. destruct (inv_has_reservoir live p w Hinv) as (r & Hr & _). by apply (gate_holds live _ v r n).
  - unfold eaf_player_stop, on_player, on_ptr. rewrite (pi_up _ _ _ Hinv).
    destruct (stop_player_spec live p w Hinv) as (p' & w' & rc & -> & Hinv' & (s & d & -> & _) & Hok & Hbad). simpl.
    eexists _, w', rc. split; [done |]. split; [done |]. split; [done |]. split; [apply Hok |].
    intros Hrc. split; [by apply Hbad | done].
Qed.

Lemma player_reset_exclusive_witness :
  exists p' w' rc, eaf_player_stop (Some demo_ready) [0] = Some (Some p', (w', rc)) /\
    player_reservoir p' = player_reservoir demo_ready.
Proof.
  destruct (player_reset_exclusive (fun w => w) demo_ready [0]) as (_ & p' & w' & rc & H1 & _ & H2 & _);
    [apply demo_ready_inv |]. exists p', w', rc. split; [exact H1 | exact H2].
Defined.
