(* ===== verification/TimeFilter.v ===== *)
(** The clock filter of the Sendspin client: [apps/sendspin/sendspin_sync.c].

    A two-state Kalman filter (offset and drift of the server's clock) in double
    precision.  Signed 64-bit subtractions and the conversions from [double] are
    checked: an overflow is undefined behaviour. *)

From Stdlib Require Import SpecFloat.
From S2P Require Import Prelude Float.

Definition EAF_SENDPIN_ADAPTIVE_FORGETTING_CUTOFF : double := d_of_Z 3.
Definition EAF_SENDPIN_MAX_ERROR_SCALE : double := d_lit 1 2.
Definition EAF_SENDPIN_DRIFT_SIGNIFICANCE_THRESHOLD_SQUARED : double := d_of_Z 4.
Definition EAF_SENDPIN_FORGET_VARIANCE_FACTOR : double := d_of_Z 4.
(** 1e-22: the power is exact, so the quotient is the literal. *)
Definition EAF_SENDPIN_DRIFT_PROCESS_VARIANCE : double := d_lit 1 (10 ^ 22).

Record eaf_sendspin_time_element_t := TimeElement {
  e_last_update : Z;   (* uint64_t *)
  e_offset : double;
  e_drift : double;
  use_drift : bool
}.

Record eaf_sendspin_time_filter_t := TimeFilter {
  count : Z;           (* uint32_t *)
  last_update : Z;     (* uint64_t *)
  offset : double;
  drift : double;
  offset_covariance : double;
  offset_drift_covariance : double;
  drift_covariance : double;
  process_variance : double;
  drift_process_variance : double;
  forget_variance_factor : double;
  element : eaf_sendspin_time_element_t
}.

Definition eaf_sendspin_time_filter_reset (f : eaf_sendspin_time_filter_t) : eaf_sendspin_time_filter_t :=
  TimeFilter 0 0 d_zero d_zero d_inf d_zero d_zero (process_variance f) (drift_process_variance f)
    (forget_variance_factor f) (TimeElement 0 d_zero d_zero false).

Definition eaf_sendspin_time_filter_init (f : eaf_sendspin_time_filter_t) : eaf_sendspin_time_filter_t :=
  eaf_sendspin_time_filter_reset
    (TimeFilter (count f) (last_update f) (offset f) (drift f) (offset_covariance f) (offset_drift_covariance f)
       (drift_covariance f) d_zero EAF_SENDPIN_DRIFT_PROCESS_VARIANCE EAF_SENDPIN_FORGET_VARIANCE_FACTOR (element f)).

(** The first and the second sample. *)
Definition first_sample (f : eaf_sendspin_time_filter_t) (measurement time_added : Z) (variance : double)
  : eaf_sendspin_time_filter_t :=
  let off := d_of_Z measurement in
  TimeFilter 1 time_added off d_zero variance (offset_drift_covariance f) (drift_covariance f)
    (process_variance f) (drift_process_variance f) (forget_variance_factor f)
    (TimeElement time_added off d_zero false).

Definition second_sample (f : eaf_sendspin_time_filter_t) (measurement time_added : Z) (dt variance : double)
  : eaf_sendspin_time_filter_t :=
  let dr := ddiv (dsub (d_of_Z measurement) (offset f)) dt in
  let off := d_of_Z measurement in
  let dcov := ddiv (dadd (offset_covariance f) variance) (dmul dt dt) in
  TimeFilter 2 time_added off dr variance (offset_drift_covariance f) dcov
    (process_variance f) (drift_process_variance f) (forget_variance_factor f)
    (TimeElement time_added off dr false).

(** Prediction, adaptive forgetting and correction. *)
Definition kalman_step (f : eaf_sendspin_time_filter_t) (measurement max_error time_added : Z) (dt variance : double)
  : eaf_sendspin_time_filter_t :=
  let off := dadd (offset f) (dmul (drift f) dt) in
  let dt_squared := dmul dt dt in
  let dpv := dmul dt (drift_process_variance f) in
  let ndc := dadd (drift_covariance f) dpv in
  let nodc := dadd (offset_drift_covariance f) (dmul (drift_covariance f) dt) in
  let opv := dmul dt (process_variance f) in
  let noc := dadd (dadd (dadd (offset_covariance f) (dmul (dmul (d_of_Z 2) (offset_drift_covariance f)) dt))
                     (dmul (drift_covariance f) dt_squared)) opv in
  let residual := dsub (d_of_Z measurement) off in
  let cutoff := dmul (d_of_Z max_error) EAF_SENDPIN_ADAPTIVE_FORGETTING_CUTOFF in
  let n := if decide (count f < 100) then count f + 1 else count f in
  let forget := negb (bool_decide (count f < 100)) && dlt cutoff (dabs residual) in
  let widen x := if forget then dmul x (forget_variance_factor f) else x in
  let ndc := widen ndc in let nodc := widen nodc in let noc := widen noc in
  let uncertainty := ddiv (d_of_Z 1) (dadd noc variance) in
  let offset_gain := dmul noc uncertainty in
  let drift_gain := dmul nodc uncertainty in
  let off' := dadd off (dmul offset_gain residual) in
  let dr' := dadd (drift f) (dmul drift_gain residual) in
  let dc' := dsub ndc (dmul drift_gain nodc) in
  let odc' := dsub nodc (dmul drift_gain noc) in
  let oc' := dsub noc (dmul offset_gain noc) in
  let use := dlt (dmul EAF_SENDPIN_DRIFT_SIGNIFICANCE_THRESHOLD_SQUARED dc') (dmul dr' dr') in
  TimeFilter n time_added off' dr' oc' odc' dc' (process_variance f) (drift_process_variance f)
    (forget_variance_factor f) (TimeElement time_added off' dr' use).

Definition filter_update (f : eaf_sendspin_time_filter_t) (measurement max_error time_added : Z)
  : eaf_sendspin_time_filter_t :=
  if decide (time_added <= last_update f) then f
  else
    let dt := d_of_Z (u64 (time_added - last_update f)) in
    let update_std_dev := dmul (d_of_Z max_error) EAF_SENDPIN_MAX_ERROR_SCALE in
    let variance := dmul update_std_dev update_std_dev in
    if decide (count f = 0) then first_sample f measurement time_added variance
    else if decide (count f = 1) then second_sample f measurement time_added dt variance
    else kalman_step f measurement max_error time_added dt variance.

Definition eaf_sendspin_time_filter_update (f : ptr eaf_sendspin_time_filter_t) (measurement max_error time_added : Z)
  : ptr eaf_sendspin_time_filter_t :=
  (fun f => filter_update f measurement max_error time_added) <$> f.

(** [a - b] and [a + b] on [int64_t]. *)
Definition sub64 (a b : Z) : ub Z := if decide (is_s64 (a - b)) then Some (a - b) else None.
Definition add64 (a b : Z) : ub Z := if decide (is_s64 (a + b)) then Some (a + b) else None.

Definition filter_exchange (f : eaf_sendspin_time_filter_t) (client_transmitted server_received server_transmitted
    client_received : Z) : ub eaf_sendspin_time_filter_t :=
  let received := s64 client_received in
  out ← sub64 server_received client_transmitted; back ← sub64 server_transmitted received;
  sum ← add64 out back;
  trip ← sub64 received client_transmitted; held ← sub64 server_transmitted server_received;
  net ← sub64 trip held;
  Some (filter_update f (Z.quot sum 2) (Z.quot net 2) client_received).

Definition eaf_sendspin_time_filter_exchange (f : ptr eaf_sendspin_time_filter_t) (client_transmitted server_received
    server_transmitted client_received : Z) : ub (ptr eaf_sendspin_time_filter_t) :=
  match f with
  | None => Some None
  | Some f => f ← filter_exchange f client_transmitted server_received server_transmitted client_received; Some (Some f)
  end.

Definition effective_drift (e : eaf_sendspin_time_element_t) : double := if use_drift e then e_drift e else d_zero.

Definition eaf_sendspin_compute_server_time (f : ptr eaf_sendspin_time_filter_t) (client_time : Z) : ub Z :=
  match f with
  | None => Some client_time
  | Some f =>
      let e := element f in
      d ← sub64 client_time (s64 (e_last_update e));
      let off := d_round (dadd (e_offset e) (dmul (effective_drift e) (d_of_Z d))) in
      n ← d_to_s64 off; add64 client_time n
  end.

Definition eaf_sendspin_compute_client_time (f : ptr eaf_sendspin_time_filter_t) (server_time : Z) : ub Z :=
  match f with
  | None => Some server_time
  | Some f =>
      let e := element f in
      let dr := effective_drift e in
      let numerator := dadd (dsub (d_of_Z server_time) (e_offset e)) (dmul dr (d_of_Z (s64 (e_last_update e)))) in
      let client_time := d_round (ddiv numerator (dadd (d_of_Z 1) dr)) in
      if dle (d_of_Z INT64_MAX) client_time then Some INT64_MAX
      else if dlt client_time (d_of_Z INT64_MIN) then Some INT64_MIN
      else d_to_s64 client_time
  end.

Definition eaf_sendspin_time_synchronized (f : ptr eaf_sendspin_time_filter_t) : bool :=
  match f with
  | None => false
  | Some f => bool_decide (2 <= count f) && negb (d_isinf (offset_covariance f))
  end.

Definition eaf_sendspin_time_error (f : ptr eaf_sendspin_time_filter_t) : ub Z :=
  match f with
  | None => Some INT64_MAX
  | Some f =>
      if negb (d_isfinite (offset_covariance f)) || dlt (offset_covariance f) d_zero then Some INT64_MAX
      else d_to_s64 (d_round (dsqrt (offset_covariance f)))
  end.

Definition filter_zero : eaf_sendspin_time_filter_t :=
  TimeFilter 0 0 d_zero d_zero d_zero d_zero d_zero d_zero d_zero d_zero (TimeElement 0 d_zero d_zero false).
Definition filter_fresh : eaf_sendspin_time_filter_t := eaf_sendspin_time_filter_init filter_zero.

(** ** Lemmas *)
Local Abbreviation W := (2 ^ scale).

Lemma W_pos : 0 < W.
Proof. apply Z.pow_pos_nonneg; unfold scale; lia. Qed.

(** Powers of two as bounds. *)
Definition p2 (k : Z) : double := d_of_Z (2 ^ k).
Lemma p2_64 : d_num (p2 64) /\ dval (p2 64) = 2 ^ 64 * W /\ d_num (dneg (p2 64)) /\ dval (dneg (p2 64)) = - (2 ^ 64) * W.
Proof. split_and!; try (split; reflexivity); vm_compute; reflexivity. Qed.
Lemma p2_66 : d_num (p2 66) /\ dval (p2 66) = 2 ^ 66 * W /\ d_num (dneg (p2 66)) /\ dval (dneg (p2 66)) = - (2 ^ 66) * W.
Proof. split_and!; try (split; reflexivity); vm_compute; reflexivity. Qed.
Lemma half_num : d_num (d_lit 1 2) /\ 2 * dval (d_lit 1 2) = W.
Proof. split; [split |]; vm_compute; reflexivity. Qed.
Lemma one_num : d_num (d_of_Z 1) /\ dval (d_of_Z 1) = W.
Proof. split; [split |]; vm_compute; reflexivity. Qed.

(** [x] is a number of magnitude at most [b]. *)
Definition within (b : Z) (x : double) : Prop := d_num x /\ - b <= dval x <= b.

Lemma near_within k v x :
  d_num (p2 k) /\ dval (p2 k) = 2 ^ k * W /\ d_num (dneg (p2 k)) /\ dval (dneg (p2 k)) = - (2 ^ k) * W ->
  near v x -> - (2 ^ k * W) <= v <= 2 ^ k * W -> within (2 ^ k * W) x.
Proof.
  intros (H1 & H2 & H3 & H4) Hn Hv. unfold within.
  destruct (near_between v x (dneg (p2 k)) (p2 k) Hn H3 H1) as [? ?]; [lia |]. split; [done | lia].
Qed.

Lemma of_Z_near n : near (n * W) (d_of_Z n).
Proof. apply (normalize_near n 0 false). unfold scale. lia. Qed.

Lemma of_Z_within n : is_s64 n -> within (2 ^ 64 * W) (d_of_Z n).
Proof.
  intros Hn. apply (near_within 64 (n * W)); [apply p2_64 | apply of_Z_near |].
  pose proof W_pos. unfold is_s64 in Hn. generalize dependent W. intros. nia.
Qed.

Lemma effective_within e : d_num (e_drift e) -> 2 * Z.abs (dval (e_drift e)) <= W ->
  d_num (effective_drift e) /\ 2 * Z.abs (dval (effective_drift e)) <= W.
Proof. intros Hn Hb. unfold effective_drift. destruct (use_drift e); [done |]. split; [done |]. simpl. pose proof W_pos. lia. Qed.

(** The numerator and the denominator of the inverse of the clock map. *)
Lemma client_numerator st off dr last :
  is_s64 st -> is_s64 last -> within (2 ^ 64 * W) off -> d_num dr -> 2 * Z.abs (dval dr) <= W ->
  d_num (dadd (dsub (d_of_Z st) off) (dmul dr (d_of_Z last))).
Proof.
  intros Hst Hl [Hoff Hob] Hdr Hdb. pose proof W_pos as Hw.
  destruct (of_Z_within st Hst) as [Hs Hsb]. destruct (of_Z_within last Hl) as [Hln Hlb].
  destruct (dmul_value dr _ Hdr Hln) as (v & Hv & Hnear).
  pose proof (dsub_near _ _ Hs Hoff) as Hsub.
  assert (Hd : within (2 ^ 66 * W) (dsub (d_of_Z st) off)).
  { apply (near_within 66 _ _ p2_66 Hsub). clear -Hob Hsb Hw. generalize dependent W. intros. lia. }
  assert (Hp : within (2 ^ 64 * W) (dmul dr (d_of_Z last))).
  { apply (near_within 64 _ _ p2_64 Hnear). clear -Hv Hdb Hlb Hw. generalize dependent W. intros. nia. }
  destruct Hd as [Hd Hdb2], Hp as [Hp Hpb]. pose proof (dadd_near _ _ Hd Hp) as Hadd.
  assert (Hb : d_num (p2 68) /\ dval (p2 68) = 2 ^ 68 * W /\ d_num (dneg (p2 68)) /\ dval (dneg (p2 68)) = - (2 ^ 68) * W)
    by (split_and!; try (split; reflexivity); vm_compute; reflexivity).
  apply (near_within 68 _ _ Hb Hadd). clear -Hdb2 Hpb Hw. generalize dependent W. intros. lia.
Qed.

Lemma client_denominator dr :
  d_num dr -> 2 * Z.abs (dval dr) <= W -> d_num (dadd (d_of_Z 1) dr) /\ dval (dadd (d_of_Z 1) dr) <> 0.
Proof.
  intros Hdr Hb. destruct one_num as [H1 H1v]. destruct half_num as [Hh Hhv]. pose proof W_pos as Hw.
  pose proof (dadd_near _ _ H1 Hdr) as Hadd. rewrite H1v in Hadd.
  assert (H2 : d_num (d_of_Z 2) /\ dval (d_of_Z 2) = 2 * W) by (split; [split |]; vm_compute; reflexivity).
  destruct (near_between _ _ (d_lit 1 2) (d_of_Z 2) Hadd Hh (proj1 H2)) as [Hn Hv]; [lia |].
  split; [done | lia].
Qed.

Lemma s64_range x : is_s64 (s64 x).
Proof. word. Qed.

Lemma client_time_total f st :
  is_s64 st -> within (2 ^ 64 * W) (e_offset (element f)) -> d_num (e_drift (element f)) ->
  2 * Z.abs (dval (e_drift (element f))) <= W ->
  exists n, eaf_sendspin_compute_client_time (Some f) st = Some n /\ is_s64 n.
Proof.
  intros Hst Hoff Hdr Hb. destruct (effective_within _ Hdr Hb) as [Hed Heb].
  unfold eaf_sendspin_compute_client_time.
  pose proof (client_numerator st _ _ (s64 (e_last_update (element f))) Hst (s64_range _) Hoff Hed Heb) as Hnum.
  destruct (client_denominator _ Hed Heb) as [Hden Hnz].
  destruct (ddiv_valid _ _ Hnum Hden Hnz) as [Hv Hnn]. destruct (round_valid _ Hv Hnn) as [Hrv Hrn].
  set (x := d_round _) in *. destruct (dle _ x) eqn:Ehi; [exists INT64_MAX; split; [done | word] |].
  destruct (dlt x _) eqn:Elo; [exists INT64_MIN; split; [done | word] |]. by apply cast_s64.
Qed.

(** The measured half differences of sane stamps are exact numbers. *)
Definition stamp (t : Z) : Prop := 0 <= t < 2 ^ 51.

Lemma exchange_eq f ct sr st cr :
  stamp ct -> stamp sr -> stamp st -> stamp cr ->
  filter_exchange f ct sr st cr =
    Some (filter_update f (Z.quot ((sr - ct) + (st - cr)) 2) (Z.quot ((cr - ct) - (st - sr)) 2) cr).
Proof.
  unfold stamp. change (2 ^ 51) with 2251799813685248. intros H1 H2 H3 H4. unfold filter_exchange, sub64, add64.
  rewrite (s64_small cr) by word. repeat (rewrite decide_True by word; simpl). done.
Qed.

Lemma half_range x : - 2 ^ 52 < x < 2 ^ 52 -> - 2 ^ 53 < Z.quot x 2 < 2 ^ 53.
Proof. change (2 ^ 52) with 4503599627370496. change (2 ^ 53) with 9007199254740992. intros. Z.to_euclidean_division_equations. lia. Qed.

Lemma variance_finite err :
  - 2 ^ 53 < err < 2 ^ 53 ->
  let sd := dmul (d_of_Z err) EAF_SENDPIN_MAX_ERROR_SCALE in d_num (dmul sd sd).
Proof.
  intros He sd. pose proof W_pos as Hw. destruct (int_num err He) as [Hn Hv]. destruct half_num as [Hh Hhv].
  destruct (dmul_value _ _ Hn Hh) as (v & Hp & Hnear). rewrite Hv in Hp.
  assert (Hsd : within (2 ^ 64 * W) sd).
  { apply (near_within 64 _ _ p2_64 Hnear). assert (2 * v = err * W).
    { clear -Hp Hhv Hw. generalize dependent W. generalize dependent (dval (d_lit 1 2)). intros h w. intros.
      apply (Z.mul_reg_r _ _ w); [lia |]. subst w. nia. }
    change (2 ^ 53) with 9007199254740992 in He. change (2 ^ 64) with 18446744073709551616.
    clear -H He Hw. generalize dependent W. intros. nia. }
  destruct Hsd as [Hsn Hsb]. destruct (dmul_value _ _ Hsn Hsn) as (v2 & Hp2 & Hnear2).
  assert (Hb : d_num (p2 128) /\ dval (p2 128) = 2 ^ 128 * W /\ d_num (dneg (p2 128)) /\ dval (dneg (p2 128)) = - (2 ^ 128) * W)
    by (split_and!; try (split; reflexivity); vm_compute; reflexivity).
  apply (near_within 128 _ _ Hb Hnear2).
  change (2 ^ 128) with (2 ^ 64 * 2 ^ 64). clear -Hp2 Hsb Hw. generalize dependent W. intros w.
  generalize (dval sd). generalize (2 ^ 64). intros k d. intros. nia.
Qed.

(** ** Properties *)

(** Whatever the time stamp a server puts on its audio, its conversion to the
    client's clock is defined and an [int64_t], as long as the filter's estimate is
    sane: an offset of at most 2^64 microseconds and a drift of at most one half. *)
Theorem client_time_defined (f : eaf_sendspin_time_filter_t) (server_time : Z) :
  is_s64 server_time ->
  d_num (e_offset (element f)) -> Z.abs (dval (e_offset (element f))) <= 2 ^ 64 * 2 ^ scale ->
  d_num (e_drift (element f)) -> 2 * Z.abs (dval (e_drift (element f))) <= 2 ^ scale ->
  exists n, eaf_sendspin_compute_client_time (Some f) server_time = Some n /\ is_s64 n.
Proof.
  intros Hst Ho Hob Hd Hdb. apply client_time_total; try done. split; [done |].
  clear -Hob. generalize dependent W. intros. lia.
Qed.

Lemma client_time_defined_witness :
  exists n, eaf_sendspin_compute_client_time (Some filter_fresh) INT64_MIN = Some n /\ is_s64 n.
Proof.
  apply client_time_defined; [split; [apply Z.le_refl | reflexivity] | split; reflexivity | vm_compute; discriminate
    | split; reflexivity | vm_compute; discriminate].
Defined.

(** C19: Two time exchanges at increasing times synchronise a fresh filter, not one:
    the subtractions are defined, the estimated offset is exactly the offset the
    second exchange measured, and an exchange that is not newer changes nothing. *)
Theorem filter_synchronizes (ct1 sr1 st1 cr1 ct2 sr2 st2 cr2 : Z) :
  stamp ct1 -> stamp sr1 -> stamp st1 -> stamp cr1 -> stamp ct2 -> stamp sr2 -> stamp st2 -> stamp cr2 ->
  0 < cr1 < cr2 ->
  exists f1 f2, eaf_sendspin_time_filter_exchange (Some filter_fresh) ct1 sr1 st1 cr1 = Some (Some f1) /\
    eaf_sendspin_time_filter_exchange (Some f1) ct2 sr2 st2 cr2 = Some (Some f2) /\
    eaf_sendspin_time_synchronized (Some f1) = false /\ eaf_sendspin_time_synchronized (Some f2) = true /\
    d_num (offset f2) /\ dval (offset f2) = Z.quot ((sr2 - ct2) + (st2 - cr2)) 2 * 2 ^ scale /\
    last_update f2 = cr2 /\
    (forall m e t, t <= cr2 -> eaf_sendspin_time_filter_update (Some f2) m e t = Some f2).
Proof.
  intros H1 H2 H3 H4 H5 H6 H7 H8 Ht. unfold eaf_sendspin_time_filter_exchange.
  rewrite exchange_eq by done. cbn [mbind option_bind].
  unfold filter_update at 1. rewrite decide_False by (simpl; lia). rewrite decide_True by done.
  eexists _, _. split; [reflexivity |]. rewrite exchange_eq by done. cbn [mbind option_bind].
  unfold filter_update at 1. rewrite decide_False by (simpl; lia). rewrite decide_False by done. rewrite decide_True by done.
  split; [reflexivity |]. split; [done |].
  assert (Hsum : - 2 ^ 53 < Z.quot ((sr2 - ct2) + (st2 - cr2)) 2 < 2 ^ 53).
  { apply half_range. unfold stamp in *. change (2 ^ 51) with 2251799813685248 in *. change (2 ^ 52) with 4503599627370496. lia. }
  assert (Herr : - 2 ^ 53 < Z.quot ((cr2 - ct2) - (st2 - sr2)) 2 < 2 ^ 53).
  { apply half_range. unfold stamp in *. change (2 ^ 51) with 2251799813685248 in *. change (2 ^ 52) with 4503599627370496. lia. }
  pose proof (variance_finite _ Herr) as [_ Hfin]. destruct (int_num _ Hsum) as [Hn Hv].
  split; [| split; [done | split; [done | split; [done |]]]].
  - simpl. by destruct (dmul _ _).
  - intros m e t Hle. simpl. unfold filter_update. by rewrite decide_True by (simpl; lia).
Qed.

Lemma filter_synchronizes_witness :
  exists f1 f2, eaf_sendspin_time_filter_exchange (Some filter_fresh) 1000 501500 501600 2000 = Some (Some f1) /\
    eaf_sendspin_time_filter_exchange (Some f1) 201000 701600 701700 202200 = Some (Some f2) /\
    eaf_sendspin_time_synchronized (Some f2) = true.
Proof.
  destruct (filter_synchronizes 1000 501500 501600 2000 201000 701600 701700 202200)
    as (f1 & f2 & Ha & Hb & _ & Hc & _); try (split; [discriminate | reflexivity]).
  - split; reflexivity.
  - exists f1, f2. split; [exact Ha |]. split; [exact Hb | exact Hc].
Defined.

(** ** Undefined behaviour a server can cause

    The stamps of a server/time message are any 64-bit integers.  One message
    overflows a signed subtraction; three messages drive the covariance so high
    that the conversion of its square root does not fit. *)
Theorem time_exchange_overflow :
  eaf_sendspin_time_filter_exchange (Some filter_fresh) 1 INT64_MIN 0 1000 = None.
Proof. reflexivity. Qed.

Theorem time_error_overflow :
  (f ← filter_exchange filter_fresh 0 (2 ^ 62) 0 1;
   f ← filter_exchange f 0 (2 ^ 62) 0 2;
   f ← filter_exchange f 10000000 10000000 10000000 10000000010;
   Some (eaf_sendspin_time_synchronized (Some f), eaf_sendspin_time_error (Some f))) = Some (true, None).
Proof. vm_compute. reflexivity. Qed.
