(* ===== verification/Rate.v ===== *)
(** The clock-rate controller of [core/eaf_sync.c] and [include/eaf/eaf_sync.h]: a
    bounded proportional-integral controller in double precision. *)

From Stdlib Require Import SpecFloat.
From S2P Require Import Prelude Float.

Record eaf_sync_controller_t := SyncController {
  kp : double;
  ki : double;
  limit_ppm : double;
  integral : double;
  output_ppm : double
}.

Definition eaf_sync_controller_init (c : ptr eaf_sync_controller_t) (p i limit : double) : ptr eaf_sync_controller_t :=
  (fun _ => SyncController p i limit d_zero d_zero) <$> c.

Definition eaf_sync_controller_reset (c : ptr eaf_sync_controller_t) : ptr eaf_sync_controller_t :=
  (fun c => SyncController (kp c) (ki c) (limit_ppm c) d_zero d_zero) <$> c.

(** The clamp both sums go through. *)
Definition clamp (limit x : double) : double :=
  if dlt limit x then limit else if dlt x (dneg limit) then dneg limit else x.

Definition controller_update (c : eaf_sync_controller_t) (error_ms dt_s : double) : eaf_sync_controller_t * double :=
  if dle dt_s d_zero then (c, output_ppm c)
  else
    let i := clamp (limit_ppm c) (dadd (integral c) (dmul (dmul (ki c) error_ms) dt_s)) in
    let out := clamp (limit_ppm c) (dadd (dmul (kp c) error_ms) i) in
    (SyncController (kp c) (ki c) (limit_ppm c) i out, out).

Definition eaf_sync_controller_update (c : ptr eaf_sync_controller_t) (error_ms dt_s : double)
  : ptr eaf_sync_controller_t * double :=
  match c with
  | None => (None, d_zero)
  | Some c => let '(c, out) := controller_update c error_ms dt_s in (Some c, out)
  end.

(** [1.0 + ppm * 1e-6] *)
Definition eaf_sync_ppm_to_ratio (ppm : double) : double :=
  dadd (d_of_Z 1) (dmul ppm (d_lit 1 1000000)).

(** ** Bounds *)

(** Valid and not NaN: what sums and products of numbers are. *)
Definition d_val (x : double) : Prop := d_valid x /\ x <> S754_nan.

Lemma num_val x : d_num x -> d_val x.
Proof. intros [Hv Hf]. split; [done |]. by intros ->. Qed.

Lemma mul_num_val x y : d_num x -> d_num y -> d_val (dmul x y).
Proof. intros Hx Hy. destruct (dmul_value x y Hx Hy) as (v & _ & Hn). by apply (near_valid v). Qed.

Lemma val_cases x : d_val x -> d_num x \/ exists s, x = S754_infinity s.
Proof. intros [Hv Hn]. destruct x as [s|s| |s m e]; try done; [by left | right; by exists s | by left]. Qed.

(** An infinity stays one when multiplied by a nonzero number. *)
Lemma mul_val x y : d_val x -> d_num y -> dval y <> 0 -> d_val (dmul x y).
Proof.
  intros Hx Hy Hy0. destruct (val_cases x Hx) as [Hn|[s ->]]; [by apply mul_num_val |].
  destruct Hy as [_ Hf]. by destruct y.
Qed.

Lemma add_val x y : d_num x -> d_val y -> d_val (dadd x y) /\ d_val (dadd y x).
Proof.
  intros Hx Hy. destruct (val_cases y Hy) as [Hn|[s ->]].
  - split; eapply near_valid; by apply dadd_near.
  - destruct Hx as [_ Hf]. by destruct x.
Qed.

Lemma clamp_within limit x :
  d_num limit -> 0 <= dval limit -> d_val x ->
  d_num (clamp limit x) /\ - dval limit <= dval (clamp limit x) <= dval limit.
Proof.
  intros Hl H0 Hx. pose proof (num_opp limit Hl) as Hl'. fold (dneg limit) in Hl'.
  assert (Hd : dval (dneg limit) = - dval limit) by apply dval_opp. unfold clamp.
  destruct (val_cases x Hx) as [Hn|[s ->]].
  - rewrite !dlt_val by done. case_bool_decide; [split; [done | lia] |].
    case_bool_decide; [split; [done | lia] |]. split; [done | lia].
  - assert (H1 : dlt limit (S754_infinity s) = negb s) by (destruct Hl as [_ Hf]; by destruct limit, s).
    assert (H2 : dlt (S754_infinity s) (dneg limit) = s) by (destruct Hl as [_ Hf]; by destruct limit, s).
    rewrite H1, H2. destruct s; cbn [negb]; (split; [done | lia]).
Qed.

(** The controller's invariant: gains and limit are numbers, both sums are within
    the limit. *)
Record controller_wf (c : eaf_sync_controller_t) : Prop := {
  wf_kp : d_num (kp c);
  wf_ki : d_num (ki c);
  wf_limit : d_num (limit_ppm c) /\ 0 <= dval (limit_ppm c);
  wf_integral : d_num (integral c) /\ Z.abs (dval (integral c)) <= dval (limit_ppm c);
  wf_output : d_num (output_ppm c) /\ Z.abs (dval (output_ppm c)) <= dval (limit_ppm c)
}.

Lemma controller_init_wf p i limit :
  d_num p -> d_num i -> d_num limit -> 0 <= dval limit -> controller_wf (SyncController p i limit d_zero d_zero).
Proof. intros. by split. Qed.

Lemma controller_update_wf c error dt :
  controller_wf c -> d_num error -> d_num dt ->
  controller_wf (controller_update c error dt).1 /\
  (controller_update c error dt).2 = output_ppm (controller_update c error dt).1 /\
  limit_ppm (controller_update c error dt).1 = limit_ppm c.
Proof.
  intros [Hkp Hki [Hl Hl0] [Hi Hib] Ho] He Hdt. unfold controller_update.
  rewrite dle_val by done. change (dval d_zero) with 0. case_bool_decide as Hdt0; [by split_and! |].
  assert (Hx : d_val (dadd (integral c) (dmul (dmul (ki c) error) dt))).
  { refine (proj1 (add_val _ _ Hi _)). apply mul_val; [by apply mul_num_val | done | lia]. }
  destruct (clamp_within (limit_ppm c) _ Hl Hl0 Hx) as [Hi' Hib'].
  set (i := clamp _ _) in *.
  assert (Hy : d_val (dadd (dmul (kp c) error) i)) by (refine (proj2 (add_val _ _ Hi' _)); by apply mul_num_val).
  destruct (clamp_within (limit_ppm c) _ Hl Hl0 Hy) as [Ho' Hob'].
  split_and!; [| done | done]. split; cbn [kp ki limit_ppm integral output_ppm fst]; try done; (split; [done | lia]).
Qed.

(** ** Properties *)

(** A trace of errors and time steps through a controller. *)
Fixpoint controller_run (l : list (double * double)) (c : eaf_sync_controller_t) (out : double)
  : eaf_sync_controller_t * double :=
  match l with
  | [] => (c, out)
  | (e, dt) :: l' => let '(c, out) := controller_update c e dt in controller_run l' c out
  end.

Lemma controller_run_wf l c out :
  controller_wf c -> d_num out -> Z.abs (dval out) <= dval (limit_ppm c) ->
  Forall (fun p => d_num p.1 /\ d_num p.2) l ->
  controller_wf (controller_run l c out).1 /\ limit_ppm (controller_run l c out).1 = limit_ppm c /\
  d_num (controller_run l c out).2 /\ Z.abs (dval (controller_run l c out).2) <= dval (limit_ppm c).
Proof.
  revert c out. induction l as [|[e dt] l IH]; intros c out Hc Ho Hb Hl; [done |].
  apply List.Forall_cons_iff in Hl as [[He Hdt] Hl]. simpl.
  destruct (controller_update_wf c e dt Hc He Hdt) as (Hc' & Hout & Hlim).
  destruct (controller_update c e dt) as [c' out']. simpl in *. subst out'.
  destruct (wf_output _ Hc') as [Hn Hnb]. rewrite <- Hlim. apply IH; done.
Qed.

(** Whatever finite errors and time steps it is given (overflowing products
    included), a controller with finite gains and a limit never produces NaN or an
    infinity: every correction and the stored integral stay within the limit, so a
    long-lived error cannot wind it up. *)
Theorem controller_bounded (p i limit : double) (l : list (double * double)) :
  d_num p -> d_num i -> d_num limit -> 0 <= dval limit -> Forall (fun p => d_num p.1 /\ d_num p.2) l ->
  let '(c, out) := controller_run l (SyncController p i limit d_zero d_zero) d_zero in
  d_num out /\ Z.abs (dval out) <= dval limit /\ d_num (integral c) /\ Z.abs (dval (integral c)) <= dval limit.
Proof.
  intros Hp Hi Hl H0 Hall.
  destruct (controller_run_wf l _ d_zero (controller_init_wf p i limit Hp Hi Hl H0)) as (Hc & Hlim & Ho & Hb); try done.
  destruct (controller_run _ _ _) as [c out]. simpl in *. destruct (wf_integral _ Hc) as [H1 H2].
  rewrite Hlim in H2. done.
Qed.

Lemma controller_bounded_witness :
  let '(c, out) := controller_run [(SFmax_float 53 1024, d_of_Z 5); (d_of_Z (-7), d_lit 1 10)]
    (SyncController (d_of_Z 2) (d_lit 1 10) (d_of_Z 300) d_zero d_zero) d_zero in
  d_num out /\ Z.abs (dval out) <= dval (d_of_Z 300) /\ d_num (integral c) /\ Z.abs (dval (integral c)) <= dval (d_of_Z 300).
Proof.
  apply controller_bounded; try (split; reflexivity); [vm_compute; discriminate |].
  repeat constructor.
Defined.

(** The ratio of a correction of a whole number of parts per million, at most 300. *)
Example ratio_300 : eaf_sync_ppm_to_ratio (d_of_Z 300) = S754_finite false 4504950707258707 (-52).
Proof. vm_compute. reflexivity. Qed.
