(* ===== verification/SendspinPlayer.v ===== *)
(** The Sendspin player: [apps/sendspin/sendspin_player.c],
    [include/eaf/eaf_sendspin_player.h].

    Chunks of a server's audio, PCM or compressed, are decoded to stereo Q1.31,
    optionally resampled by the clock-rate controller, and handed to a sink.  The
    compressed path drives a decode worker whose sink is [decode_sink] on the
    player itself: the fields that function touches are the record
    [player_output], which a call of the worker carries as its sink context.
    The sink and the monotonic clock act on a world [W]. *)

From Stdlib Require Import SpecFloat.
From S2P Require Import Prelude Types Decoder Messages Sync Float TimeFilter Rate.

Definition EAF_SENDPIN_DECODE_STEPS : Z := 64.
Definition EAF_SENDPIN_PLAYER_CHUNK_FRAMES : Z := 128.

(** ** Samples *)
Definition read_le16 (p : list Z) : ub Z :=
  b0 ← ld p 0; b1 ← ld p 1; Some (s16 (Z.lor b0 (Z.shiftl b1 8))).

Definition read_le24 (p : list Z) : ub Z :=
  b0 ← ld p 0; b1 ← ld p 1; b2 ← ld p 2;
  let value := Z.lor (Z.lor b0 (Z.shiftl b1 8)) (Z.shiftl b2 16) in
  let value := if decide (Z.land value 8388608 <> 0) then Z.lor value 4278190080 else value in
  Some (s32 value).

Definition read_le32 (p : list Z) : ub Z :=
  b0 ← ld p 0; b1 ← ld p 1; b2 ← ld p 2; b3 ← ld p 3;
  Some (s32 (Z.lor (Z.lor (Z.lor b0 (Z.shiftl b1 8)) (Z.shiftl b2 16)) (Z.shiftl b3 24))).

Definition sample_to_q31 (p : list Z) (bits : Z) : ub Z :=
  if decide (bits = 16) then x ← read_le16 p; Some (eaf_pcm16_to_q31 x)
  else if decide (bits = 24) then x ← read_le24 p; Some (eaf_pcm24_to_q31 x)
  else x ← read_le32 p; Some (eaf_pcm32_to_q31 x).

Definition decoder_codec (codec : eaf_sendspin_codec_t) : eaf_codec_t :=
  match codec with
  | EAF_SENDPIN_CODEC_FLAC => EAF_CODEC_FLAC
  | EAF_SENDPIN_CODEC_OPUS => EAF_CODEC_OPUS
  | EAF_SENDPIN_CODEC_MP3 => EAF_CODEC_MP3
  | EAF_SENDPIN_CODEC_VORBIS => EAF_CODEC_VORBIS
  | _ => EAF_CODEC_NONE
  end.

(** ** State *)
Record eaf_sendspin_decoder_t (C : Type) := SpDecoder {
  sd_ops : ptr (eaf_decoder_ops_t C);
  sd_ctx : ptr C;
  sd_scratch : ptr (list Z);
  sd_scratch_frames : Z
}.
Arguments SpDecoder {C}. Arguments sd_ops {C}. Arguments sd_ctx {C}.
Arguments sd_scratch {C}. Arguments sd_scratch_frames {C}.

(** The fields of the player its sink side works on. *)
Record player_output (W : Type) := PlayerOutput {
  po_sink : ptr (eaf_pcm_write_fn W);
  po_ctx : W;                    (* *sink_ctx, and the clock *)
  po_active_ratio : double;
  po_resample_credit : double;
  po_resample_scratch : list Z;
  po_frames_written : Z;
  po_frames_dropped : Z
}.
Arguments PlayerOutput {W}. Arguments po_sink {W}. Arguments po_ctx {W}. Arguments po_active_ratio {W}.
Arguments po_resample_credit {W}. Arguments po_resample_scratch {W}. Arguments po_frames_written {W}.
Arguments po_frames_dropped {W}.

Record player_rate := PlayerRate {
  pr_control : bool;
  pr_auto_target : bool;
  pr_target_latency_us : double;
  pr_calibration_sum : double;
  pr_calibration : Z;            (* uint32_t *)
  pr_ppm : Z;                    (* int32_t *)
  pr_update_us : Z;              (* int64_t *)
  pr_controller : eaf_sync_controller_t
}.

Record player_stream := PlayerStream {
  ps_filter : ptr eaf_sendspin_time_filter_t;
  ps_format : eaf_format_t;
  ps_input_channels : Z;
  ps_input_bits : Z;
  ps_active : bool;
  ps_synchronized : bool;
  ps_drop_late : bool;
  ps_compressed : bool;
  ps_last_latency_us : Z;        (* int64_t *)
  ps_chunks : Z
}.

Record eaf_sendspin_player_t (C W : Type) := SendspinPlayer {
  sp_stream : player_stream;
  sp_out : player_output W;
  sp_decoder : eaf_sendspin_decoder_t C;
  sp_worker : eaf_decode_worker_t C (player_output W);
  sp_rate : player_rate
}.
Arguments SendspinPlayer {C W}. Arguments sp_stream {C W}. Arguments sp_out {C W}. Arguments sp_decoder {C W}.
Arguments sp_worker {C W}. Arguments sp_rate {C W}.

Section updates.
Context {W : Type}.
Implicit Types (o : player_output W) (s : player_stream).
Definition po_set_ctx (x : W) o : player_output W :=
  PlayerOutput (po_sink o) x (po_active_ratio o) (po_resample_credit o) (po_resample_scratch o)
    (po_frames_written o) (po_frames_dropped o).
Definition po_set_ratio (r : double) o : player_output W :=
  PlayerOutput (po_sink o) (po_ctx o) r (po_resample_credit o) (po_resample_scratch o)
    (po_frames_written o) (po_frames_dropped o).
Definition po_set_resample (credit : double) (scratch : list Z) o : player_output W :=
  PlayerOutput (po_sink o) (po_ctx o) (po_active_ratio o) credit scratch (po_frames_written o) (po_frames_dropped o).
Definition po_set_frames (written dropped : Z) o : player_output W :=
  PlayerOutput (po_sink o) (po_ctx o) (po_active_ratio o) (po_resample_credit o) (po_resample_scratch o)
    written dropped.

Definition ps_set_active (a : bool) s : player_stream :=
  PlayerStream (ps_filter s) (ps_format s) (ps_input_channels s) (ps_input_bits s) a (ps_synchronized s)
    (ps_drop_late s) (ps_compressed s) (ps_last_latency_us s) (ps_chunks s).
Definition ps_set_compressed (c : bool) s : player_stream :=
  PlayerStream (ps_filter s) (ps_format s) (ps_input_channels s) (ps_input_bits s) (ps_active s) (ps_synchronized s)
    (ps_drop_late s) c (ps_last_latency_us s) (ps_chunks s).
Definition ps_set_sync (b : bool) (latency : Z) s : player_stream :=
  PlayerStream (ps_filter s) (ps_format s) (ps_input_channels s) (ps_input_bits s) (ps_active s) b
    (ps_drop_late s) (ps_compressed s) latency (ps_chunks s).
Definition ps_set_chunks (n : Z) s : player_stream :=
  PlayerStream (ps_filter s) (ps_format s) (ps_input_channels s) (ps_input_bits s) (ps_active s) (ps_synchronized s)
    (ps_drop_late s) (ps_compressed s) (ps_last_latency_us s) n.
(** The filter behind [player->filter] belongs to the client, which updates it
    between the calls of the player. *)
Definition ps_set_filter (f : ptr eaf_sendspin_time_filter_t) s : player_stream :=
  PlayerStream f (ps_format s) (ps_input_channels s) (ps_input_bits s) (ps_active s) (ps_synchronized s)
    (ps_drop_late s) (ps_compressed s) (ps_last_latency_us s) (ps_chunks s).

Definition pr_set_ppm (n : Z) (c : eaf_sync_controller_t) (r : player_rate) : player_rate :=
  PlayerRate (pr_control r) (pr_auto_target r) (pr_target_latency_us r) (pr_calibration_sum r)
    (pr_calibration r) n (pr_update_us r) c.
Definition pr_set_update (n : Z) (r : player_rate) : player_rate :=
  PlayerRate (pr_control r) (pr_auto_target r) (pr_target_latency_us r) (pr_calibration_sum r)
    (pr_calibration r) (pr_ppm r) n (pr_controller r).
Definition pr_set_target (auto : bool) (target sum : double) (n : Z) (r : player_rate) : player_rate :=
  PlayerRate (pr_control r) auto target sum n (pr_ppm r) (pr_update_us r) (pr_controller r).
End updates.

Section player.
Context {C W : Type} (hal_monotonic_time_us : W -> W * Z).
Local Abbreviation player := (eaf_sendspin_player_t C W).
Local Abbreviation output := (player_output W).

Definition sp_set_stream (s : player_stream) (p : player) : player :=
  SendspinPlayer s (sp_out p) (sp_decoder p) (sp_worker p) (sp_rate p).
Definition sp_set_out (o : output) (p : player) : player :=
  SendspinPlayer (sp_stream p) o (sp_decoder p) (sp_worker p) (sp_rate p).
Definition sp_set_decoder (d : eaf_sendspin_decoder_t C) (p : player) : player :=
  SendspinPlayer (sp_stream p) (sp_out p) d (sp_worker p) (sp_rate p).
Definition sp_set_worker (w : eaf_decode_worker_t C output) (p : player) : player :=
  SendspinPlayer (sp_stream p) (sp_out p) (sp_decoder p) w (sp_rate p).
Definition sp_set_rate (r : player_rate) (p : player) : player :=
  SendspinPlayer (sp_stream p) (sp_out p) (sp_decoder p) (sp_worker p) r.

Definition stream_zero : player_stream := PlayerStream None format_zero 0 0 false false false false 0 0.
Definition rate_zero : player_rate :=
  PlayerRate false false d_zero d_zero 0 0 0 (SyncController d_zero d_zero d_zero d_zero d_zero).
Definition worker_zero (o : output) : eaf_decode_worker_t C output :=
  Worker (Decoder None None) format_zero None o None 0 0 0 0 0 false.

Definition eaf_sendspin_player_init (p : player) (sink : ptr (eaf_pcm_write_fn W)) (sink_ctx : W) : player :=
  let o := PlayerOutput sink sink_ctx (d_of_Z 1) d_zero
             (replicate (Z.to_nat ((EAF_SENDPIN_PLAYER_CHUNK_FRAMES + 2) * 2)) 0) 0 0 in
  SendspinPlayer stream_zero o (SpDecoder None None None 0) (worker_zero o) rate_zero.

Definition eaf_sendspin_player_set_decoder (p : ptr player) (decoder : ptr (eaf_sendspin_decoder_t C)) : ptr player :=
  match p, decoder with
  | Some p, Some d => Some (if ps_active (sp_stream p) then p else sp_set_decoder d p)
  | _, _ => p
  end.

(** The clock lives in the world the sink works on. *)
Definition now_us (p : player) : player * Z :=
  let '(x, now) := hal_monotonic_time_us (po_ctx (sp_out p)) in (sp_set_out (po_set_ctx x (sp_out p)) p, now).

(** ** Output *)

(** The rate adjustment of [queue_block]: the frames to produce, the player and
    the block to hand over. *)
Definition resample_block (o : output) (samples : list Z) (count : Z) : ub (output * list Z * Z) :=
  if deq (po_active_ratio o) (d_of_Z 1) then Some (o, samples, count)
  else
    let desired := dadd (dmul (d_of_Z count) (po_active_ratio o)) (po_resample_credit o) in
    produce ← d_to_u32 desired;
    let produce := if decide (u32 (count + 2) < produce) then u32 (count + 2) else produce in
    let credit := dsub desired (d_of_Z produce) in
    '(scratch, _) ← eaf_sync_resample (Some samples) count (Some (po_resample_scratch o)) produce 2;
    scratch ← scratch;
    Some (po_set_resample credit scratch o, scratch, produce).

(** Returns the frames the sink accepted and [*produced]. *)
Definition queue_block (o : output) (samples : list Z) (count : Z) : ub (output * Z * Z) :=
  '(o, block, produce) ← resample_block o samples count;
  sink ← po_sink o;
  '(x, written) ← sink (po_ctx o) block produce;
  let dropped := if decide (written < produce)
                 then u32 (po_frames_dropped o + u32 (produce - written)) else po_frames_dropped o in
  Some (po_set_frames (u32 (po_frames_written o + written)) dropped (po_set_ctx x o), written, produce).

Definition block_frames (frames index : Z) : Z :=
  let count := u32 (frames - index) in
  if decide (EAF_SENDPIN_PLAYER_CHUNK_FRAMES < count) then EAF_SENDPIN_PLAYER_CHUNK_FRAMES else count.

Fixpoint decode_sink_loop (fuel : nat) (o : output) (samples : list Z) (frames index : Z) : ub output :=
  if decide (frames <= index) then Some o
  else match fuel with
  | O => None
  | S fuel =>
      let count := block_frames frames index in
      from ← ldn samples (index * 2) (zlen samples - index * 2);
      '(o, written, produced) ← queue_block o from count;
      let index := u32 (index + count) in
      if decide (written < produced)
      then Some (po_set_frames (po_frames_written o) (u32 (po_frames_dropped o + u32 (frames - index))) o)
      else decode_sink_loop fuel o samples frames index
  end.

Definition decode_sink (o : output) (samples : list Z) (frames : Z) : ub (output * Z) :=
  o ← decode_sink_loop (Z.to_nat frames) o samples frames 0; Some (o, frames).

(** ** Rate control *)
Definition ppm_ratio (p : player) : double := eaf_sync_ppm_to_ratio (d_of_Z (pr_ppm (sp_rate p))).

(** The measurements the target is latched to. *)
Definition calibrate (latency : Z) (r : player_rate) : player_rate :=
  if decide (0 < latency) then
    let sum := dadd (pr_calibration_sum r) (d_of_Z latency) in
    let n := u32 (pr_calibration r + 1) in
    if decide (8 <= n) then pr_set_target false (ddiv sum (d_of_Z 8)) sum n r
    else pr_set_target (pr_auto_target r) (pr_target_latency_us r) sum n r
  else r.

Definition control_rate (latency : Z) (dt : double) (r : player_rate) : ub player_rate :=
  let error_ms := ddiv (dsub (pr_target_latency_us r) (d_of_Z latency)) (d_of_Z 1000) in
  let error_ms := if dlt (d_of_Z (-1)) error_ms && dlt error_ms (d_of_Z 1) then d_zero else error_ms in
  let '(c, out) := controller_update (pr_controller r) error_ms dt in
  ppm ← d_to_s32 out;
  Some (pr_set_ppm ppm c r).

Definition update_rate (p : player) : ub (player * double) :=
  let '(p, now) := now_us p in
  let now := s64 now in
  let last := pr_update_us (sp_rate p) in
  since ← (if decide (last = 0) then Some 0 else sub64 now last);
  if bool_decide (last <> 0) && bool_decide (since < 100000) then Some (p, ppm_ratio p)
  else
    let dt := if decide (last = 0) then d_zero else ddiv (d_of_Z since) (d_of_Z 1000000) in
    let p := sp_set_rate (pr_set_update now (sp_rate p)) p in
    if dle dt d_zero then Some (p, ppm_ratio p)
    else if pr_auto_target (sp_rate p) then
      Some (sp_set_rate (calibrate (ps_last_latency_us (sp_stream p)) (sp_rate p)) p, d_of_Z 1)
    else
      r ← control_rate (ps_last_latency_us (sp_stream p)) dt (sp_rate p);
      let p := sp_set_rate r p in Some (p, ppm_ratio p).

(** ** The worker

    A call of the worker lends it the output fields, and leaves what the
    adapter's context and the scratch memory have become in the binding they
    belong to. *)
Definition worker_call {R} (f : ptr (eaf_decode_worker_t C output) -> ub (ptr (eaf_decode_worker_t C output) * R))
    (p : player) : ub (player * R) :=
  '(w, r) ← with_ref f (set_sink_ctx (sp_out p) (sp_worker p));
  let d := sp_decoder p in
  Some (SendspinPlayer (sp_stream p) (sink_ctx w)
          (SpDecoder (sd_ops d) (ctx (decoder w)) (scratch w) (sd_scratch_frames d)) w (sp_rate p), r).

(** Only an open worker uses its decoder. *)
Definition close_worker (p : player) : ub player :=
  if open (sp_worker p) then
    '(p, _) ← worker_call (fun w => w ← eaf_decode_worker_close w; Some (w, tt)) p; Some p
  else
    w ← eaf_decode_worker_close (Some (sp_worker p)); w ← w; Some (sp_set_worker w p).

(** ** Streams *)
Definition begin_stream (filter : ptr eaf_sendspin_time_filter_t) (start : eaf_sendspin_stream_start_t)
    (s : player_stream) : player_stream :=
  PlayerStream filter (Types.Format (start_sample_rate start) 2 (Z.lor EAF_CH_FRONT_LEFT EAF_CH_FRONT_RIGHT))
    (start_channels start) (if decide (start_bit_depth start = 0) then 16 else start_bit_depth start)
    true false (ps_drop_late s) (ps_compressed s) 0 0.

Definition begin_rate (r : player_rate) : player_rate :=
  let c := pr_controller r in
  PlayerRate (pr_control r) (pr_auto_target r) (pr_target_latency_us r) d_zero 0 0 0
    (SyncController (kp c) (ki c) (limit_ppm c) d_zero d_zero).

(** [message] is the memory the views of [start] point into. *)
Definition decoder_config (message : list Z) (start : eaf_sendspin_stream_start_t) : eaf_decoder_config_t :=
  DecoderConfig (decoder_codec (start_codec start)) (start_sample_rate start) (start_channels start)
    (start_bit_depth start) ((fun i => drop (Z.to_nat i) message) <$> codec_header start) (codec_header_length start).

(** The stream's worker. *)
Definition begin_decoder (message : list Z) (start : eaf_sendspin_stream_start_t) (p : player) : ub (player * Z) :=
  let d := sp_decoder p in
  '(w, rc) ← with_ref (fun w => eaf_decode_worker_init w (Some (Decoder (sd_ops d) (sd_ctx d))) (Some decode_sink)
               (sp_out p) (sd_scratch d) (sd_scratch_frames d) (Some (ps_format (sp_stream p)))) (sp_worker p);
  let p := sp_set_worker w p in
  if negb (bool_decide (rc = 0)) then Some (p, EAF_INVALID)
  else
    '(p, rc) ← worker_call (fun w => eaf_decode_worker_open w (Some (decoder_config message start))) p;
    if negb (bool_decide (rc = 0)) then Some (sp_set_stream (ps_set_active false (sp_stream p)) p, rc)
    else Some (sp_set_stream (ps_set_compressed true (sp_stream p)) p, EAF_OK).

Definition is_pcm (start : eaf_sendspin_stream_start_t) : bool := bool_decide (start_codec start = EAF_SENDPIN_CODEC_PCM).

(** The codec can be played: a bound decoder, or a PCM depth. *)
Definition playable (start : eaf_sendspin_stream_start_t) (d : eaf_sendspin_decoder_t C) : bool :=
  if negb (is_pcm start) then
    negb (bool_decide (decoder_codec (start_codec start) = EAF_CODEC_NONE)
          || match sd_ops d, sd_ctx d, sd_scratch d with Some _, Some _, Some _ => false | _, _, _ => true end
          || bool_decide (sd_scratch_frames d = 0))
  else bool_decide (start_bit_depth start = 16) || bool_decide (start_bit_depth start = 24)
       || bool_decide (start_bit_depth start = 32).

Definition begin (message : list Z) (filter : eaf_sendspin_time_filter_t) (start : eaf_sendspin_stream_start_t)
    (p : player) : ub (player * Z) :=
  if ps_active (sp_stream p) then Some (p, EAF_STATE)
  else if negb (bool_decide (start_channels start = 1)) && negb (bool_decide (start_channels start = 2))
  then Some (p, EAF_UNSUPPORTED)
  else if decide (start_sample_rate start = 0) then Some (p, EAF_UNSUPPORTED)
  else
    p ← close_worker p;
    let p := sp_set_stream (ps_set_compressed false (sp_stream p)) p in
    let p := sp_set_out (po_set_ratio (d_of_Z 1) (sp_out p)) p in
    if negb (playable start (sp_decoder p)) then Some (p, EAF_UNSUPPORTED)
    else
      let p := sp_set_stream (begin_stream (Some filter) start (sp_stream p)) p in
      let o := po_set_frames 0 0 (sp_out p) in
      let p := sp_set_out (po_set_resample d_zero (po_resample_scratch o) o) p in
      let p := sp_set_rate (begin_rate (sp_rate p)) p in
      if negb (is_pcm start) then begin_decoder message start p else Some (p, EAF_OK).

Definition eaf_sendspin_player_begin (message : list Z) (p : ptr player) (filter : ptr eaf_sendspin_time_filter_t)
    (start : ptr eaf_sendspin_stream_start_t) : ub (ptr player * Z) :=
  on_ptr p EAF_INVALID (fun p =>
    match filter, start, po_sink (sp_out p) with
    | Some filter, Some start, Some _ => begin message filter start p
    | _, _, _ => Some (p, EAF_INVALID)
    end).

Definition eaf_sendspin_player_set_rate_control (p : ptr player) (target_latency_ms : double) : ptr player :=
  (fun p =>
     let auto := dle target_latency_ms d_zero in
     let target := if auto then d_zero else dmul target_latency_ms (d_of_Z 1000) in
     let o := sp_out p in
     sp_set_out (po_set_resample d_zero (po_resample_scratch o) o)
       (sp_set_rate (PlayerRate true auto target d_zero 0 0 0
                       (SyncController (d_of_Z 2) (d_lit 1 10) (d_of_Z 300) d_zero d_zero)) p)) <$> p.

(** ** Writing *)

(** One round of the feeding loop: the offset reached, or a decoder's error. *)
Definition feed_round (data : list Z) (length offset : Z) (p : player) : ub (player * Z * Z) :=
  if negb (eaf_decode_worker_can_push (Some (sp_worker p))) then
    '(p, rc) ← worker_call eaf_decode_worker_step p; Some (p, offset, rc)
  else
    from ← ldn data offset (zlen data - offset);
    '(p, (consumed, rc)) ← worker_call (fun w => eaf_decode_worker_push w (Some from) (length - offset) (Some 0)) p;
    consumed ← consumed;
    if negb (bool_decide (rc = 0)) then Some (p, offset, rc)
    else if decide (consumed = 0) then
      '(p, rc) ← worker_call eaf_decode_worker_step p; Some (p, offset, rc)
    else Some (p, offset + consumed, 0).

(** [guard] counts the rounds left. *)
Fixpoint feed_loop (guard : nat) (data : list Z) (length offset : Z) (p : player) : ub (player * Z * Z) :=
  match guard with
  | O => Some (p, offset, 0)
  | S guard =>
      if decide (length <= offset) then Some (p, offset, 0)
      else
        '(p, offset, rc) ← feed_round data length offset p;
        if decide (rc = 0) then feed_loop guard data length offset p else Some (p, offset, rc)
  end.

Fixpoint drain_loop (steps : nat) (p : player) : ub (player * Z) :=
  match steps with
  | O => Some (p, EAF_OK)
  | S steps =>
      let before := frames_written (sp_worker p) in
      '(p, rc) ← worker_call eaf_decode_worker_step p;
      if negb (bool_decide (rc = 0)) then Some (p, rc)
      else if bool_decide (frames_written (sp_worker p) = before) && eaf_decode_worker_can_push (Some (sp_worker p))
      then Some (p, EAF_OK)
      else drain_loop steps p
  end.

Definition write_compressed (data : list Z) (length : Z) (p : player) : ub (player * Z) :=
  '(p, _, rc) ← feed_loop (Z.to_nat EAF_SENDPIN_DECODE_STEPS) data length 0 p;
  if negb (bool_decide (rc = 0)) then Some (p, rc)
  else drain_loop (Z.to_nat EAF_SENDPIN_DECODE_STEPS) p.

(** Frame [i] of a block into the local array. *)
Definition convert_frame (pcm : list Z) (channels bits index i : Z) (scratch : list Z) : ub (list Z) :=
  let sample_bytes := bits / 8 in
  let at_ := (index + i) * (channels * sample_bytes) in
  frame ← ldn pcm at_ (zlen pcm - at_);
  left ← sample_to_q31 frame bits;
  right ← (if decide (channels = 2)
           then next ← ldn frame sample_bytes (zlen frame - sample_bytes); sample_to_q31 next bits
           else Some left);
  scratch ← st scratch (2 * i) left; st scratch (2 * i + 1) right.

Fixpoint pcm_loop (fuel : nat) (pcm : list Z) (channels bits frames index : Z) (scratch : list Z) (o : output)
  : ub output :=
  if decide (frames <= index) then Some o
  else match fuel with
  | O => None
  | S fuel =>
      let count := block_frames frames index in
      scratch ← for_to count (convert_frame pcm channels bits index) scratch;
      '(o, written, produced) ← queue_block o scratch count;
      if decide (written < produced) then Some o
      else pcm_loop fuel pcm channels bits frames (u32 (index + count)) scratch o
  end.

(** The local array [int32_t scratch[EAF_SENDPIN_PLAYER_CHUNK_FRAMES * 2]]; every
    cell handed over was written first. *)
Definition write_scratch : list Z := replicate (Z.to_nat (EAF_SENDPIN_PLAYER_CHUNK_FRAMES * 2)) 0.

Definition count_chunk (p : player) : player :=
  sp_set_stream (ps_set_chunks (u32 (ps_chunks (sp_stream p) + 1)) (sp_stream p)) p.

Definition write_pcm (pcm : list Z) (length : Z) (p : player) : ub (player * Z) :=
  let s := sp_stream p in
  let sample_bytes := ps_input_bits s / 8 in
  let frame_bytes := ps_input_channels s * sample_bytes in
  if decide (length < frame_bytes) then Some (p, EAF_OK)
  else if decide (frame_bytes = 0) then None
  else
    let frames := u32 (length / frame_bytes) in
    o ← pcm_loop (Z.to_nat frames) pcm (ps_input_channels s) (ps_input_bits s) frames 0 write_scratch (sp_out p);
    Some (count_chunk (sp_set_out o p), EAF_OK).

(** Late audio dropped on request. *)
Definition drop_chunk (length : Z) (p : player) : player :=
  let s := sp_stream p in
  let frame_bytes := ps_input_channels s * (ps_input_bits s / 8) in
  let o := sp_out p in
  let p := if ps_compressed s || bool_decide (frame_bytes = 0) then p
           else sp_set_out (po_set_frames (po_frames_written o)
                              (u32 (po_frames_dropped o + u32 (length / frame_bytes))) o) p in
  count_chunk p.

(** Measuring the latency: the player and whether the chunk is late. *)
Definition measure (server_timestamp_us : Z) (p : player) : ub (player * bool) :=
  let s := sp_stream p in
  let sync := eaf_sendspin_time_synchronized (ps_filter s) in
  let p := sp_set_stream (ps_set_sync sync (ps_last_latency_us s) s) p in
  if negb sync then Some (p, false)
  else
    let '(p, now) := now_us p in
    play ← eaf_sendspin_compute_client_time (ps_filter s) server_timestamp_us;
    latency ← sub64 play (s64 now);
    Some (sp_set_stream (ps_set_sync sync latency s) p, bool_decide (play < s64 now)).

Definition write_chunk (server_timestamp_us : Z) (pcm : list Z) (length : Z) (p : player) : ub (player * Z) :=
  '(p, late) ← measure server_timestamp_us p;
  if ps_drop_late (sp_stream p) && late then Some (drop_chunk length p, EAF_OK)
  else
    '(p, ratio) ← (if pr_control (sp_rate p) && ps_synchronized (sp_stream p) then update_rate p
                   else Some (p, d_of_Z 1));
    let p := sp_set_out (po_set_ratio ratio (sp_out p)) p in
    if ps_compressed (sp_stream p) then
      '(p, rc) ← write_compressed pcm length p; Some (count_chunk p, rc)
    else write_pcm pcm length p.

Definition eaf_sendspin_player_write (p : ptr player) (server_timestamp_us : Z) (pcm : ptr (list Z)) (length : Z)
  : ub (ptr player * Z) :=
  on_ptr p EAF_INVALID (fun p =>
    match pcm with
    | Some pcm =>
        if negb (ps_active (sp_stream p)) then Some (p, EAF_INVALID)
        else write_chunk server_timestamp_us pcm length p
    | None => Some (p, EAF_INVALID)
    end).

Definition eaf_sendspin_player_finish (p : ptr player) : ub (ptr player) :=
  match p with
  | None => Some None
  | Some p =>
      p ← close_worker p;
      Some (Some (sp_set_stream (ps_set_active false (ps_set_compressed false (sp_stream p))) p))
  end.
End player.

(** ** The resampled block *)
Local Abbreviation SC := (2 ^ scale).

(** The ratio of a correction of [n] parts per million. *)
Definition ratio_of (n : Z) : double := eaf_sync_ppm_to_ratio (d_of_Z n).

Definition ratio_check (n : Z) : bool :=
  let r := ratio_of n in
  valid_binary 53 1024 r && d_isfinite r && bool_decide (9996 * SC <= 10000 * dval r <= 10004 * SC).

Lemma ratio_checked : forallb ratio_check (seqZ (-300) 601) = true.
Proof. vm_compute. reflexivity. Qed.

Lemma ratio_bounds n :
  -300 <= n <= 300 -> d_num (ratio_of n) /\ 9996 * SC <= 10000 * dval (ratio_of n) <= 10004 * SC.
Proof.
  intros Hn. pose proof ratio_checked as H. rewrite forallb_forall in H.
  specialize (H n). rewrite <- list_elem_of_In, elem_of_seqZ in H. specialize (H ltac:(lia)).
  unfold ratio_check in H. apply andb_prop in H as [[H1 H2]%andb_prop H3%bool_decide_eq_true]. done.
Qed.

Lemma ratio_0 : ratio_of 0 = d_of_Z 1.
Proof. vm_compute. reflexivity. Qed.

Lemma small_int n : 0 <= n <= 1000 -> d_num (d_of_Z n) /\ dval (d_of_Z n) = n * SC.
Proof. intros Hn. apply int_num. change (2 ^ 53) with 9007199254740992. lia. Qed.

(** The frames wanted from a block of [count]: between one less and two more. *)
Lemma desired_bounds n count credit :
  -300 <= n <= 300 -> 1 <= count <= 128 -> d_num credit -> 0 <= dval credit <= SC ->
  let desired := dadd (dmul (d_of_Z count) (ratio_of n)) credit in
  d_num desired /\ (count - 1) * SC <= dval desired <= (count + 2) * SC.
Proof.
  intros Hn Hc Hcr Hcb desired. pose proof W_pos as Hw. destruct (ratio_bounds n Hn) as [Hr Hrb].
  destruct (small_int count ltac:(lia)) as [Hcn Hcv]. destruct (small_int (count - 1) ltac:(lia)) as [Hlo Hlov].
  destruct (small_int (count + 1) ltac:(lia)) as [Hhi Hhiv]. destruct (small_int (count + 2) ltac:(lia)) as [Hh2 Hh2v].
  destruct (dmul_value _ _ Hcn Hr) as (v & Hv & Hnear). rewrite Hcv in Hv.
  assert (Hvb : (count - 1) * SC <= v <= (count + 1) * SC).
  { assert (v = count * dval (ratio_of n)) as ->; [| generalize dependent SC; intros; nia].
    apply (Z.mul_reg_r _ _ SC); [lia |]. rewrite <- Hv. ring. }
  destruct (near_between _ _ _ _ Hnear Hlo Hhi) as [Hm Hmb]; [rewrite Hlov, Hhiv; lia |].
  rewrite Hlov, Hhiv in Hmb. pose proof (dadd_near _ _ Hm Hcr) as Hadd.
  destruct (near_between _ _ _ _ Hadd Hlo Hh2) as [Hd Hdb]; [rewrite Hlov, Hh2v; lia |].
  split; [done |]. rewrite Hlov, Hh2v in Hdb. done.
Qed.

(** Its integer part is produced, and the rest is a credit of at most one frame. *)
Lemma desired_split desired count :
  1 <= count <= 128 -> d_num desired -> (count - 1) * SC <= dval desired <= (count + 2) * SC ->
  exists k, d_to_u32 desired = Some k /\ count - 1 <= k <= count + 2 /\
    d_num (dsub desired (d_of_Z k)) /\ 0 <= dval (dsub desired (d_of_Z k)) <= SC.
Proof.
  intros Hc Hd Hb. pose proof W_pos as Hw.
  destruct (trunc_between desired 0 (count + 2) Hd) as (k & Ht & Hk & Hk2 & Hk3); [lia | generalize dependent SC; intros; nia |].
  destruct Hk3 as [Hk0 Hkle]; [generalize dependent SC; intros; nia |].
  assert (Hkc : count - 1 <= k) by (clear Ht; generalize dependent SC; intros; nia).
  exists k. unfold d_to_u32. rewrite Ht. cbn [mbind option_bind]. rewrite decide_True by (unfold is_u32; lia).
  split; [done |]. split; [lia |]. destruct (small_int k ltac:(lia)) as [Hkn Hkv].
  pose proof (dsub_near _ _ Hd Hkn) as Hs. destruct (small_int 0 ltac:(lia)) as [H0 H0v]. destruct (small_int 1 ltac:(lia)) as [H1 H1v].
  destruct (near_between _ _ _ _ Hs H0 H1) as [Hn Hnb]; [rewrite H0v, H1v, Hkv; lia |].
  rewrite H0v, H1v in Hnb. split; [done | lia].
Qed.

(** ** Queueing *)

(** A sink that takes part of what it is offered. *)
Definition sink_safe {W} (x_inv : W -> Prop) (sink : eaf_pcm_write_fn W) : Prop :=
  forall x from n, x_inv x -> is_u32 n -> n * 2 <= zlen from ->
    exists x' k, sink x from n = Some (x', k) /\ x_inv x' /\ 0 <= k <= n.

(** Samples the resampler may meet: with rate control, 6 dB below full scale, so
    that neighbours are never more than a 32-bit integer apart. *)
Definition material (loud : bool) (x : Z) : Prop :=
  is_s32 x /\ (loud = false -> -1073741824 <= x < 1073741824).

Lemma material_s32 loud x : material loud x -> is_s32 x.
Proof. by intros [? _]. Qed.
Lemma material_0 loud : material loud 0.
Proof. split; [word | intros _; lia]. Qed.

(** One input frame is copied. *)
Lemma resample_single inp out n :
  2 <= zlen inp -> 0 <= n -> n * 2 <= zlen out ->
  exists out', for_to n (fun i => out_frame 2 i (fun c => ld inp c)) out = Some out' /\ zlen out' = zlen out.
Proof.
  intros Hi Hn Ho. apply (for_to_inv (fun _ out' => zlen out' = zlen out)); [done | done |].
  intros j t Hj Ht. unfold out_frame.
  apply (for_to_inv (fun _ t' => zlen t' = zlen out)); [lia | done |]. intros c u Hc Hu.
  destruct (ld_is_Some inp c) as [x ->]; [lia |]. cbn [mbind option_bind]. rewrite st_eq by lia.
  eexists. split; [done |]. by rewrite zlen_insert.
Qed.

Lemma resample_stereo inp out n k :
  1 <= n <= 128 -> 0 <= k <= 130 -> n * 2 <= zlen inp -> k * 2 <= zlen out -> Forall (material false) inp ->
  exists out' r, eaf_sync_resample (Some inp) n (Some out) k 2 = Some (Some out', r) /\ zlen out' = zlen out.
Proof.
  intros Hn Hk Hi Ho Hm. unfold eaf_sync_resample. rewrite (bool_decide_eq_false_2 (n = 0)) by lia. cbn [orb].
  rewrite (bool_decide_eq_true_2 (2 = 2)) by done. rewrite andb_false_r, orb_false_r.
  case_bool_decide; [by eexists _, _ |]. case_decide.
  { destruct (resample_single inp out k) as (out' & -> & Hz); [lia | lia | lia |]. by eexists _, _. }
  destruct (resample_run inp n k 2) with (out := out) as (out' & Hrun & Hz & _); try lia; try by right.
  - exact (List.Forall_impl _ (material_s32 false) Hm).
  - intros j a b Hj Hjk Ha Hb. rewrite Forall_lookup in Hm.
    assert (Hl : forall i x, ld inp i = Some x -> -1073741824 <= x < 1073741824).
    { intros i x Hx. unfold ld in Hx. case_decide; [| done]. destruct (Hm _ _ Hx) as [_ Hh]. by apply Hh. }
    pose proof (Hl _ _ Ha). pose proof (Hl _ _ Hb). word.
  - rewrite Hrun. by eexists _, _.
Qed.

Section output.
Context {W : Type} (x_inv : W -> Prop) (sink : eaf_pcm_write_fn W) (loud : bool).
Hypothesis (Hsink : sink_safe x_inv sink).
Local Abbreviation output := (player_output W).

Record output_inv (o : output) : Prop := {
  oinv_sink : po_sink o = Some sink;
  oinv_ctx : x_inv (po_ctx o);
  oinv_ratio : exists n, -300 <= n <= 300 /\ po_active_ratio o = ratio_of n;
  oinv_loud : loud = true -> po_active_ratio o = d_of_Z 1;
  oinv_credit : d_num (po_resample_credit o) /\ 0 <= dval (po_resample_credit o) <= SC;
  oinv_scratch : zlen (po_resample_scratch o) = 260;
  oinv_written : is_u32 (po_frames_written o);
  oinv_dropped : is_u32 (po_frames_dropped o)
}.

Lemma output_set_frames o a b : output_inv o -> is_u32 a -> is_u32 b -> output_inv (po_set_frames a b o).
Proof. intros [] Ha Hb. by split. Qed.

Lemma resample_block_ok o samples count :
  output_inv o -> 1 <= count <= 128 -> count * 2 <= zlen samples -> Forall (material loud) samples ->
  exists o' block k, resample_block o samples count = Some (o', block, k) /\ output_inv o' /\
    count - 1 <= k <= count + 2 /\ k * 2 <= zlen block /\
    (po_active_ratio o = d_of_Z 1 -> o' = o /\ block = samples /\ k = count).
Proof using.
  intros Ho Hc Hlen Hm. unfold resample_block. destruct (deq (po_active_ratio o) (d_of_Z 1)) eqn:Eq.
  { exists o, samples, count. split_and!; done || lia. }
  destruct (oinv_ratio _ Ho) as (n & Hn & Hr).
  assert (Hl : loud = false).
  { destruct loud eqn:El; [| done]. exfalso. rewrite (oinv_loud _ Ho El) in Eq.
    assert (deq (d_of_Z 1) (d_of_Z 1) = true) by (vm_compute; done). congruence. }
  destruct (oinv_credit _ Ho) as [Hcr Hcb]. rewrite Hr.
  destruct (desired_bounds n count _ Hn Hc Hcr Hcb) as [Hd Hdb]. set (desired := dadd _ _) in *.
  destruct (desired_split desired count Hc Hd Hdb) as (k & -> & Hk & Hkn & Hkb). cbn [mbind option_bind].
  rewrite (u32_small (count + 2)) by word. rewrite decide_False by lia.
  rewrite Hl in Hm. pose proof (oinv_scratch _ Ho) as Hs.
  destruct (resample_stereo samples (po_resample_scratch o) count k) as (out & r & -> & Hz); try done; try lia.
  cbn [mbind option_bind]. eexists _, out, k. split; [done |]. split; [destruct Ho; split; simpl; done || congruence |].
  split; [lia |]. split; [lia |]. intros H1. rewrite Hr, H1 in Eq. exfalso.
  assert (deq (d_of_Z 1) (d_of_Z 1) = true) by (vm_compute; done). congruence.
Qed.

Lemma queue_block_ok o samples count :
  output_inv o -> 1 <= count <= 128 -> count * 2 <= zlen samples -> Forall (material loud) samples ->
  exists o' w k, queue_block o samples count = Some (o', w, k) /\ output_inv o' /\ 0 <= w <= k /\
    count - 1 <= k <= count + 2 /\ po_active_ratio o' = po_active_ratio o.
Proof using Hsink.
  intros Ho Hc Hlen Hm. unfold queue_block.
  destruct (resample_block_ok o samples count Ho Hc Hlen Hm) as (o1 & block & k & Hr & Ho1 & Hk & Hb & _).
  assert (Hra : po_active_ratio o1 = po_active_ratio o).
  { unfold resample_block in Hr. destruct (deq _ _); [by inversion Hr |]. destruct (d_to_u32 _); [| done].
    cbn [mbind option_bind] in Hr. destruct (eaf_sync_resample _ _ _ _ _) as [[[sc|] r]|]; [| done | done].
    by inversion Hr. }
  rewrite Hr. cbn [mbind option_bind]. rewrite (oinv_sink _ Ho1). cbn [mbind option_bind].
  destruct (Hsink (po_ctx o1) block k) as (x' & w & -> & Hx & Hw); [apply Ho1 | word | lia |].
  cbn [mbind option_bind]. eexists _, w, k. split; [done |]. split; [| split; [lia |]; split; [lia | done]].
  destruct Ho1. split; try done; simpl; [apply u32_range |]. case_decide; [apply u32_range | done].
Qed.

Lemma block_frames_eq frames index :
  0 <= index -> index < frames -> is_u32 frames -> block_frames frames index = Z.min 128 (frames - index).
Proof using.
  intros Hi Hlt Hf. unfold block_frames, EAF_SENDPIN_PLAYER_CHUNK_FRAMES. rewrite u32_small by word. case_decide; lia.
Qed.

Lemma decode_sink_loop_ok fuel o samples frames index :
  output_inv o -> 0 <= index -> is_u32 frames -> frames * 2 <= zlen samples -> Forall (material loud) samples ->
  frames - index <= Z.of_nat fuel ->
  exists o', decode_sink_loop fuel o samples frames index = Some o' /\ output_inv o' /\
    po_active_ratio o' = po_active_ratio o.
Proof using Hsink.
  revert o index. induction fuel as [|fuel IH]; intros o index Ho Hi Hf Hlen Hm Hfuel; simpl.
  { rewrite decide_True by lia. by exists o. }
  case_decide as Hd; [by exists o |]. rewrite block_frames_eq by (done || lia).
  set (count := Z.min 128 (frames - index)).
  rewrite ldn_eq by lia. cbn [mbind option_bind].
  destruct (queue_block_ok o (slice samples (index * 2) (zlen samples - index * 2)) count)
    as (o1 & w & k & -> & Ho1 & Hw & Hk & Hr); [done | lia | rewrite zlen_slice; lia | by apply slice_forall |].
  cbn [mbind option_bind]. rewrite (u32_small (index + count)) by word. case_decide.
  - eexists. split; [done |]. split; [| done]. apply output_set_frames; [done | apply Ho1 | apply u32_range].
  - destruct (IH o1 (index + count)) as (o' & -> & Ho' & Hr'); try done; try lia.
    exists o'. split_and!; [done | done | congruence].
Qed.

Lemma decode_sink_ok o samples frames :
  output_inv o -> is_u32 frames -> frames * 2 <= zlen samples -> Forall (material loud) samples ->
  exists o', decode_sink o samples frames = Some (o', frames) /\ output_inv o' /\
    po_active_ratio o' = po_active_ratio o.
Proof using Hsink.
  intros Ho Hf Hlen Hm. unfold decode_sink.
  destruct (decode_sink_loop_ok (Z.to_nat frames) o samples frames 0) as (o' & -> & Ho' & Hr); try done; try lia.
  by exists o'.
Qed.
End output.
