(* ===== verification/SendspinSafe.v ===== *)
(** The safety of the Sendspin player: the worker it drives, the invariant of its
    state, and every sequence of calls. *)

From Stdlib Require Import SpecFloat.
From S2P Require Import Prelude Types Decoder Messages Float TimeFilter Rate SendspinPlayer.

Local Abbreviation SC := (2 ^ scale).

(** ** The worker of a compressed stream *)
Section worker.
Context {C W : Type} (o : eaf_decoder_ops_t C) `{!DecoderLaws o}.
Context (x_inv : W -> Prop) (sink : eaf_pcm_write_fn W) (loud : bool).
Hypothesis (Hsink : sink_safe x_inv sink).

(** Adapters leave material of the expected loudness in the scratch memory. *)
Definition pulls_material : Prop :=
  forall fmt c cells m n fmt0 f c' cells' n' fmt' rc, dec_inv fmt c -> Forall (material loud) cells ->
    op_pull o = Some f -> f (Some c) cells m n fmt0 = Some (c', cells', n', fmt', rc) -> Forall (material loud) cells'.
Hypothesis (Hpull : pulls_material).

Local Abbreviation output := (player_output W).
Local Abbreviation worker := (eaf_decode_worker_t C output).
Local Abbreviation output_inv := (output_inv x_inv sink loud).

(** Nothing is retained between two calls: [decode_sink] takes everything. *)
Record driven (fmt : eaf_format_t) (w : worker) (c : C) (cells : list Z) : Prop := {
  drv_decoder : decoder w = Decoder (Some o) (Some c);
  drv_ctx : dec_inv fmt c;
  drv_format : Decoder.format w = fmt /\ num_channels fmt = 2;
  drv_sink : Decoder.sink w = Some decode_sink;
  drv_output : output_inv (sink_ctx w);
  drv_scratch : scratch w = Some cells;
  drv_material : Forall (material loud) cells;
  drv_frames : 0 < scratch_frames w < 4294967296;
  drv_room : scratch_frames w * 2 <= zlen cells;
  drv_pending : 0 <= sent w <= scratch_frames w /\ pending w = sent w;
  drv_written : is_u32 (frames_written w);
  drv_open : open w = true
}.

(** What a call keeps of the player's output. *)
Definition keeps (w w' : worker) : Prop :=
  po_active_ratio (sink_ctx w') = po_active_ratio (sink_ctx w) /\ scratch_frames w' = scratch_frames w.

Lemma driven_pull fmt w c cells :
  driven fmt w c cells ->
  exists c' cells' n fmt' rc,
    on_decoder (fun d => eaf_decoder_pull d (scratch w) (scratch_frames w) (Some 0) (Some format_zero)) w
      = Some (set_decoder (Decoder (Some o) (Some c')) w, (Some cells', Some n, Some fmt', rc)) /\
    dec_inv fmt c' /\ zlen cells' = zlen cells /\ 0 <= n <= scratch_frames w /\ Forall (material loud) cells'.
Proof using Hpull.
  intros []. destruct drv_format0 as [Hf Hch].
  destruct (law_pull fmt c cells (scratch_frames w) 0 format_zero drv_ctx0 ltac:(lia) ltac:(lia))
    as (f & c' & cells' & n & fmt' & rc & Hop & Hrun & Hc' & Hl & Hn).
  exists c', cells', n, fmt', rc. split; [| split_and!; try done; [lia | lia | exact (Hpull _ _ _ _ _ _ _ _ _ _ _ _ drv_ctx0 drv_material0 Hop Hrun)]].
  unfold on_decoder, with_ref, eaf_decoder_pull, on_ptr. rewrite drv_decoder0, drv_scratch0. simpl. rewrite Hop. simpl.
  rewrite decide_False by lia. by rewrite Hrun.
Qed.

Lemma driven_reset fmt w c cells :
  driven fmt w c cells ->
  exists c' rc, on_decoder eaf_decoder_reset w = Some (set_decoder (Decoder (Some o) (Some c')) w, rc) /\ dec_inv fmt c'.
Proof using.
  intros []. destruct (law_reset fmt c drv_ctx0) as (f & c' & rc & Hop & Hrun & Hc').
  exists c', rc. split; [| done]. unfold on_decoder, with_ref, eaf_decoder_reset, on_ptr. rewrite drv_decoder0. simpl.
  rewrite Hop. simpl. by rewrite Hrun.
Qed.

Lemma drain_driven fmt w c cells n :
  driven fmt w c cells -> 0 <= n <= scratch_frames w ->
  exists w' k, drain (set_progress n 0 (frames_written w) (frames_dropped w) w) = Some (w', k) /\
    driven fmt w' c cells /\ keeps w w'.
Proof using Hsink.
  intros [] Hn. destruct drv_format0 as [Hf Hch]. unfold drain. simpl. rewrite drv_sink0, drv_scratch0, Hf.
  cbn [mbind option_bind]. rewrite ldn_eq by lia. cbn [mbind option_bind].
  replace (zlen cells - 0 * num_channels fmt) with (zlen cells) by lia. replace (0 * num_channels fmt) with 0 by lia.
  rewrite slice_0_all, Z.sub_0_r, (u32_small n) by word.
  destruct (decode_sink_ok x_inv sink loud Hsink (sink_ctx w) cells n) as (x' & -> & Hx & Hr); [done | word | lia | done |].
  cbn [mbind option_bind]. eexists _, n. split; [done |]. rewrite (u32_small (0 + n)) by word.
  split; [| split; [done | done]]. split; simpl; try done; try lia; apply u32_range.
Qed.

Lemma step_driven fmt w c cells :
  driven fmt w c cells ->
  exists w' c' cells' rc, eaf_decode_worker_step (Some w) = Some (Some w', rc) /\ driven fmt w' c' cells' /\ keeps w w'.
Proof using Hsink Hpull.
  intros Hd. unfold eaf_decode_worker_step, on_ptr. rewrite (drv_open _ _ _ _ Hd). cbn [negb].
  destruct (drv_pending _ _ _ _ Hd) as [Hs Hp]. rewrite decide_False by lia.
  set (w0 := set_progress 0 0 (frames_written w) (frames_dropped w) w).
  pose proof (drv_frames _ _ _ _ Hd) as Hfr.
  assert (Hd0 : driven fmt w0 c cells) by (destruct Hd; split; simpl; try done; lia).
  destruct (driven_pull fmt w0 c cells Hd0) as (c' & cells' & n & fmt' & rc & -> & Hc' & Hz & Hn & Hm).
  cbn [mbind option_bind].
  set (w1 := set_scratch (Some cells') (set_decoder (Decoder (Some o) (Some c')) w0)).
  assert (Hd1 : driven fmt w1 c' cells') by (destruct Hd0; split; simpl; try done; simpl in *; lia).
  destruct (negb (bool_decide (rc = 0))).
  { destruct (driven_reset fmt w1 c' cells' Hd1) as (c2 & rc2 & -> & Hc2). cbn [mbind option_bind].
    eexists _, c2, cells', rc. split; [done |]. split; [destruct Hd1; split; done | done]. }
  case_decide; [by exists w1, c', cells', EAF_OK |].
  destruct (negb (eaf_format_equal fmt' _)).
  { destruct (driven_reset fmt w1 c' cells' Hd1) as (c2 & rc2 & -> & Hc2). cbn [mbind option_bind].
    eexists _, c2, cells', EAF_INVALID. split; [done |]. split; [destruct Hd1; split; done | done]. }
  destruct (drain_driven fmt w1 c' cells' n Hd1) as (w2 & k & -> & Hd2 & Hk); [done |]. cbn [mbind option_bind].
  by exists w2, c', cells', EAF_OK.
Qed.

Lemma push_driven fmt w c cells data n :
  driven fmt w c cells -> 0 <= n <= zlen data -> Forall is_u8 data ->
  exists w' c' k rc, eaf_decode_worker_push (Some w) (Some data) n (Some 0) = Some (Some w', (Some k, rc)) /\
    driven fmt w' c' cells /\ keeps w w' /\ 0 <= k <= n.
Proof using.
  intros Hd Hn Hb. unfold eaf_decode_worker_push, on_ptr. rewrite (drv_open _ _ _ _ Hd). cbn [negb].
  destruct (drv_pending _ _ _ _ Hd) as [Hs Hp]. rewrite decide_False by lia.
  destruct (law_push fmt c data n 0 (drv_ctx _ _ _ _ Hd) Hn Hb) as (f & c' & k & rc & Hop & Hrun & Hc' & Hk).
  unfold on_decoder, with_ref, eaf_decoder_push, on_ptr. rewrite (drv_decoder _ _ _ _ Hd). simpl. rewrite Hop. simpl.
  rewrite Hrun. simpl. eexists _, c', k, rc. split; [done |]. split; [destruct Hd; split; done | done].
Qed.

Lemma close_driven fmt w c cells :
  driven fmt w c cells ->
  exists w' c', eaf_decode_worker_close (Some w) = Some (Some w') /\ dec_raw c' /\ open w' = false /\
    decoder w' = Decoder (Some o) (Some c') /\ scratch w' = Some cells /\ sink_ctx w' = sink_ctx w.
Proof using.
  intros []. unfold eaf_decode_worker_close. rewrite drv_open0.
  destruct (law_close fmt c drv_ctx0) as (f & c' & Hop & Hrun & Hc').
  unfold eaf_decoder_close. rewrite drv_decoder0. simpl. rewrite Hop. simpl. rewrite Hrun. simpl.
  by eexists _, c'.
Qed.

Lemma init_open fmt (w0 : worker) c cells n x cfg :
  dec_raw c -> eaf_format_valid (Some fmt) = true -> num_channels fmt = 2 -> 0 < n < 4294967296 ->
  n * 2 <= zlen cells -> Forall (material loud) cells ->
  exists w1, with_ref (fun w => eaf_decode_worker_init w (Some (Decoder (Some o) (Some c))) (Some decode_sink) x
      (Some cells) n (Some fmt)) w0 = Some (w1, EAF_OK) /\
    forall x', output_inv x' ->
      exists w2 c' rc, eaf_decode_worker_open (Some (set_sink_ctx x' w1)) (Some cfg) = Some (Some w2, rc) /\
        decoder w2 = Decoder (Some o) (Some c') /\ dec_raw c' /\ scratch w2 = Some cells /\ scratch_frames w2 = n /\
        sink_ctx w2 = x' /\ (if decide (rc = 0) then driven fmt w2 c' cells else open w2 = false).
Proof using.
  intros Hraw Hfmt Hch Hn Hroom Hm. unfold with_ref, eaf_decode_worker_init, on_ptr. simpl.
  rewrite Hfmt, bool_decide_eq_false_2 by lia. cbn [negb orb mbind option_bind]. eexists. split; [done |].
  intros x' Hx. destruct (law_open c cfg fmt Hraw Hfmt ltac:(lia)) as (f & c' & rc & Hop & Hrun & Hraw' & Hinv).
  unfold eaf_decode_worker_open, on_decoder, with_ref, eaf_decoder_open, on_ptr. simpl. rewrite Hop.
  assert (Hbad : forall w2 c2 r, w2 = Worker (Decoder (Some o) (Some c2)) fmt (Some decode_sink) x' (Some cells) n 0 0 0 0 false ->
    dec_raw c2 -> r <> 0 ->
    exists w2' c' rc, Some (Some w2, r) = Some (Some w2', rc) /\ decoder w2' = Decoder (Some o) (Some c') /\ dec_raw c' /\
      scratch w2' = Some cells /\ scratch_frames w2' = n /\ sink_ctx w2' = x' /\
      (if decide (rc = 0) then driven fmt w2' c' cells else open w2' = false)).
  { intros w2 c2 r -> Hc2 Hr. eexists _, c2, r. rewrite decide_False by done. by split_and!. }
  destruct (op_push o), (op_pull o), (op_reset o), (op_close o); simpl; try (by apply (Hbad _ c EAF_INVALID)).
  destruct (_ || _); simpl; [by apply (Hbad _ c EAF_INVALID) |]. rewrite Hrun. simpl.
  case_decide as Hrc; [| by apply (Hbad _ c' rc)].
  eexists _, c', EAF_OK. split; [done |]. do 5 (split; [done || auto |]).
  rewrite decide_True by done. split; simpl; try done; auto; try lia; word.
Qed.
End worker.

(** ** Rate control *)
Record rate_inv (r : player_rate) : Prop := {
  rinv_controller : controller_wf (pr_controller r) /\ dval (limit_ppm (pr_controller r)) <= 300 * SC;
  rinv_ppm : -300 <= pr_ppm r <= 300;
  rinv_update : 0 <= pr_update_us r < 2 ^ 62;
  rinv_calibration : 0 <= pr_calibration r <= 8 /\ (pr_auto_target r = true -> pr_calibration r < 8);
  rinv_sum : d_num (pr_calibration_sum r) /\ 0 <= dval (pr_calibration_sum r) <= pr_calibration r * (2 ^ 64 * SC);
  rinv_target : within (2 ^ 67 * SC) (pr_target_latency_us r)
}.

Lemma bound_64 k : 0 <= k <= 8 -> d_num (d_of_Z (k * 2 ^ 64)) /\ dval (d_of_Z (k * 2 ^ 64)) = k * (2 ^ 64 * SC).
Proof.
  intros Hk. assert (Hc : k = 0 \/ k = 1 \/ k = 2 \/ k = 3 \/ k = 4 \/ k = 5 \/ k = 6 \/ k = 7 \/ k = 8) by lia.
  decompose [or] Hc; subst k; (split; [split |]; vm_compute; reflexivity).
Qed.

Lemma p2_68 : d_num (p2 68) /\ dval (p2 68) = 2 ^ 68 * SC /\ d_num (dneg (p2 68)) /\ dval (dneg (p2 68)) = - (2 ^ 68) * SC.
Proof. split_and!; try (split; reflexivity); vm_compute; reflexivity. Qed.

Lemma int_divisor n : 2 <= n <= 1000000 -> d_num (d_of_Z n) /\ 2 * SC <= dval (d_of_Z n).
Proof.
  intros Hn. destruct (int_num n) as [H1 H2]; [change (2 ^ 53) with 9007199254740992; lia |].
  split; [done |]. rewrite H2. pose proof W_pos. generalize dependent SC. intros. nia.
Qed.

Lemma calibrate_inv latency r : is_s64 latency -> rate_inv r -> pr_auto_target r = true -> rate_inv (calibrate latency r).
Proof.
  intros Hl [Hctl Hppm Hu [Hn Hna] [Hs Hsb] Ht] Ha. specialize (Hna Ha). unfold calibrate. case_decide as Hpos; [| by split].
  pose proof W_pos as Hw. destruct (of_Z_within latency Hl) as [Hln Hlb].
  rewrite (u32_small (pr_calibration r + 1)) by word. set (n := pr_calibration r) in *.
  assert (Hsum : d_num (dadd (pr_calibration_sum r) (d_of_Z latency)) /\
    0 <= dval (dadd (pr_calibration_sum r) (d_of_Z latency)) <= (n + 1) * (2 ^ 64 * SC)).
  { destruct (bound_64 0 ltac:(lia)) as [H0 H0v]. destruct (bound_64 (n + 1) ltac:(lia)) as [H1 H1v].
    assert (Hl0 : 0 <= dval (d_of_Z latency)).
    { destruct (near_between _ _ _ _ (of_Z_near latency) H0 (proj1 p2_64)) as [_ Hb]; [| rewrite H0v in Hb; lia].
      destruct p2_64 as (_ & -> & _). rewrite H0v. unfold is_s64 in Hl. clear -Hl Hpos Hw. generalize dependent SC. intros. nia. }
    rewrite <- H1v. replace 0 with (dval (d_of_Z (0 * 2 ^ 64))) by (rewrite H0v; lia).
    apply (near_between _ _ _ _ (dadd_near _ _ Hs Hln) H0 H1). rewrite H0v, H1v. lia. }
  destruct Hsum as [Hsn Hsumb]. case_decide as H8.
  - split; simpl; try done; [split; [lia | done] |].
    destruct (int_divisor 8 ltac:(lia)) as [Hd Hdv]. destruct (ddiv_shrinks _ _ Hsn Hd Hdv) as (Hq & Hqb & _).
    split; [done |]. assert (n + 1 = 8) as Hn8 by lia. rewrite Hn8 in Hsumb.
    change (2 ^ 67) with (8 * 2 ^ 64). generalize dependent (2 ^ 64). intros. lia.
  - split; simpl; try done; split; [lia | intros _; lia].
Qed.

Lemma control_rate_ok latency dt r :
  is_s64 latency -> rate_inv r -> d_num dt ->
  exists r', control_rate latency dt r = Some r' /\ rate_inv r' /\ pr_control r' = pr_control r.
Proof.
  intros Hl [[Hctl Hlim] Hppm Hu Hn Hs [Ht Htb]] Hdt. pose proof W_pos as Hw. unfold control_rate.
  destruct (of_Z_within latency Hl) as [Hln Hlb].
  assert (Hsub : within (2 ^ 68 * SC) (dsub (pr_target_latency_us r) (d_of_Z latency))).
  { apply (near_within 68 _ _ p2_68 (dsub_near _ _ Ht Hln)). clear -Htb Hlb Hw.
    change (2 ^ 68) with (16 * 2 ^ 64). change (2 ^ 67) with (8 * 2 ^ 64) in Htb. generalize dependent SC. intros. lia. }
  destruct (int_divisor 1000 ltac:(lia)) as [Hd Hdv]. destruct (ddiv_shrinks _ _ (proj1 Hsub) Hd Hdv) as (He & _).
  set (e0 := ddiv _ _) in *. set (e := if _ && _ then d_zero else e0).
  assert (Hen : d_num e) by (unfold e; destruct (_ && _); done).
  destruct (controller_update_wf (pr_controller r) e dt Hctl Hen Hdt) as (Hc' & Hout & Hlim').
  destruct (controller_update _ _ _) as [c' out]. simpl in *. subst out.
  destruct (wf_output _ Hc') as [Hon Hob]. rewrite Hlim' in Hob.
  assert (Hppm' : exists n, d_to_s32 (output_ppm c') = Some n /\ -300 <= n <= 300).
  { destruct (trunc_between (output_ppm c') (-300) 300 Hon) as (n & Htr & Hnb & _); [lia | lia |].
    exists n. unfold d_to_s32. rewrite Htr. cbn [mbind option_bind]. by rewrite decide_True by (unfold is_s32; lia). }
  destruct Hppm' as (n & -> & Hnb). cbn [mbind option_bind]. eexists. split; [done |]. split; [| done].
  split; simpl; try done. split; [done | by rewrite Hlim'].
Qed.

Lemma begin_rate_inv r : rate_inv r -> rate_inv (begin_rate r).
Proof.
  intros [[[] Hlim] Hppm Hu Hn Hs Ht]. pose proof W_pos as Hw. destruct wf_limit as [Hl Hl0].
  by split.
Qed.

(** ** The player's invariant *)
Section player.
Context {C W : Type} (o : eaf_decoder_ops_t C) `{!DecoderLaws o}.
Context (hal_monotonic_time_us : W -> W * Z).
Context (x_inv : W -> Prop) (sink : eaf_pcm_write_fn W) (loud : bool).
Hypothesis (Hsink : sink_safe x_inv sink) (Hpull : pulls_material o loud).
(** The clock starts with the system and does not wrap. *)
Hypothesis (Hclock : forall x, x_inv x ->
  x_inv (hal_monotonic_time_us x).1 /\ 0 <= (hal_monotonic_time_us x).2 < 2 ^ 62).

Local Abbreviation player := (eaf_sendspin_player_t C W).
Local Abbreviation output_inv := (output_inv x_inv sink loud).
Local Abbreviation driven := (driven o x_inv sink loud).
Local Abbreviation update_rate := (update_rate hal_monotonic_time_us).

(** A binding: complete, with the caller's memory as it promised, or refused later. *)
Record binding_ok (d : eaf_sendspin_decoder_t C) : Prop := {
  bind_ops : sd_ops d = None \/ sd_ops d = Some o;
  bind_ctx c : sd_ctx d = Some c -> dec_raw c;
  bind_frames : is_u32 (sd_scratch_frames d);
  bind_scratch cells : sd_scratch d = Some cells ->
    sd_scratch_frames d * 2 <= zlen cells /\ Forall (material loud) cells
}.

(** The worker runs on the binding, with the output lent to it. *)
Record lent (fmt : eaf_format_t) (p : player) (c : C) (cells : list Z) : Prop := {
  lent_driven : driven fmt (set_sink_ctx (sp_out p) (sp_worker p)) c cells;
  lent_binding : sp_decoder p = SpDecoder (Some o) (Some c) (Some cells) (scratch_frames (sp_worker p))
}.

Record player_inv (p : player) : Prop := {
  pinv_output : output_inv (sp_out p);
  pinv_rate : rate_inv (sp_rate p);
  pinv_loud : loud = true -> pr_control (sp_rate p) = false;
  pinv_decoder : binding_ok (sp_decoder p);
  pinv_latency : is_s64 (ps_last_latency_us (sp_stream p));
  pinv_format : ps_active (sp_stream p) = true ->
    (ps_input_channels (sp_stream p) = 1 \/ ps_input_channels (sp_stream p) = 2) /\
    (ps_compressed (sp_stream p) = false ->
     ps_input_bits (sp_stream p) = 16 \/ ps_input_bits (sp_stream p) = 24 \/ ps_input_bits (sp_stream p) = 32);
  pinv_worker : open (sp_worker p) = ps_active (sp_stream p) && ps_compressed (sp_stream p);
  pinv_lent : open (sp_worker p) = true -> exists fmt c cells, lent fmt p c cells
}.

Lemma now_ok p :
  player_inv p -> exists p' now, now_us hal_monotonic_time_us p = (p', now) /\ player_inv p' /\ 0 <= now < 2 ^ 62 /\
    s64 now = now /\ sp_stream p' = sp_stream p /\ sp_rate p' = sp_rate p /\ sp_decoder p' = sp_decoder p /\
    sp_worker p' = sp_worker p.
Proof using Hclock.
  intros [Ho Hr Hl Hd Hla Hf Hw Hle]. unfold now_us. destruct (Hclock (po_ctx (sp_out p))) as [Hx Ht]; [apply Ho |].
  destruct (hal_monotonic_time_us _) as [x t]. simpl in *. eexists _, t. split; [done |].
  assert (Ho' : output_inv (po_set_ctx x (sp_out p))) by (by destruct Ho).
  split; [| split; [done | split; [apply s64_small; unfold is_s64; change (2 ^ 62) with 4611686018427387904 in Ht; lia | done]]].
  split; try done. intros Hop. destruct (Hle Hop) as (fmt & c & cells & [Hdr Hb]). exists fmt, c, cells.
  split; [| done]. destruct Hdr. by split.
Qed.

Lemma set_rate_inv p r :
  player_inv p -> rate_inv r -> (loud = true -> pr_control r = false) -> player_inv (sp_set_rate r p).
Proof using.
  intros [Ho Hr Hl Hd Hla Hf Hw Hle] H1 H2. split; try done. intros Hop.
  destruct (Hle Hop) as (fmt & c & cells & [Hdr Hb]). exists fmt, c, cells. by split.
Qed.

Lemma set_out_inv p ou : player_inv p -> output_inv ou -> player_inv (sp_set_out ou p).
Proof using.
  intros [Ho Hr Hl Hd Hla Hf Hw Hle] H1. split; try done. intros Hop.
  destruct (Hle Hop) as (fmt & c & cells & [Hdr Hb]). exists fmt, c, cells.
  split; [| done]. destruct Hdr. by split.
Qed.

(** Changes of the stream record that leave the activity alone. *)
Lemma set_stream_inv p s :
  player_inv p -> is_s64 (ps_last_latency_us s) -> ps_active s = ps_active (sp_stream p) ->
  ps_compressed s = ps_compressed (sp_stream p) -> ps_input_channels s = ps_input_channels (sp_stream p) ->
  ps_input_bits s = ps_input_bits (sp_stream p) -> player_inv (sp_set_stream s p).
Proof using.
  intros [Ho Hr Hl Hd Hla Hf Hw Hle] H0 H1 H2 H3 H4. split; simpl; try done; rewrite ?H1, ?H2, ?H3, ?H4; try done.
  intros Hop. destruct (Hle Hop) as (fmt & c & cells & [Hdr Hb]). exists fmt, c, cells. by split.
Qed.

Lemma count_chunk_inv p : player_inv p -> player_inv (count_chunk p).
Proof using. intros Hp. apply set_stream_inv; try done. apply Hp. Qed.

Lemma sub64_eq a b : is_s64 (a - b) -> sub64 a b = Some (a - b).
Proof using. intros. unfold sub64. by rewrite decide_True. Qed.

(** The ratio in use is one of a correction within 300 ppm. *)
Lemma update_rate_ok p :
  player_inv p -> exists p' n, update_rate p = Some (p', ratio_of n) /\ player_inv p' /\ -300 <= n <= 300 /\
    sp_stream p' = sp_stream p /\ sp_decoder p' = sp_decoder p /\ sp_worker p' = sp_worker p /\
    pr_control (sp_rate p') = pr_control (sp_rate p).
Proof using Hclock.
  intros Hp. unfold SendspinPlayer.update_rate.
  destruct (now_ok p Hp) as (p1 & now & -> & Hp1 & Hnow & Hs64 & Hst & Hra & Hde & Hwo). rewrite Hs64, Hra.
  pose proof (pinv_rate _ Hp) as Hr. pose proof (rinv_update _ Hr) as Hu. pose proof (rinv_ppm _ Hr) as Hppm.
  change (2 ^ 62) with 4611686018427387904 in *.
  assert (Hsince : exists d, (if decide (pr_update_us (sp_rate p) = 0) then Some 0 else sub64 now (pr_update_us (sp_rate p)))
    = Some d /\ is_s64 d).
  { case_decide; [by exists 0 |]. eexists. split; [apply sub64_eq |]; unfold is_s64; lia. }
  destruct Hsince as (d & -> & Hd). cbn [mbind option_bind]. destruct (_ && _).
  { exists p1, (pr_ppm (sp_rate p)). unfold ppm_ratio, ratio_of. rewrite Hra. split_and!; try done; lia. }
  set (dt := if decide _ then _ else _).
  assert (Hdt : d_num dt).
  { unfold dt. case_decide; [done |]. destruct (int_divisor 1000000 ltac:(lia)) as [H1 H2].
    destruct (of_Z_within d Hd) as [H3 _]. by destruct (ddiv_shrinks _ _ H3 H1 H2). }
  set (r1 := pr_set_update now (sp_rate p)).
  assert (Hr1 : rate_inv r1) by (destruct Hr; split; done).
  assert (Hl1 : loud = true -> pr_control r1 = false) by apply Hp.
  pose proof (set_rate_inv p1 r1 Hp1 Hr1 Hl1) as Hp2.
  destruct (dle dt d_zero).
  { exists (sp_set_rate r1 p1), (pr_ppm (sp_rate p)). split_and!; try done; lia. }
  destruct (pr_auto_target _) eqn:Ea.
  { eexists _, 0. rewrite ratio_0. split; [done |]. split; [| split_and!; try done; try lia].
    - apply set_rate_inv; [done | apply calibrate_inv; [apply Hp2 | done | done] |].
      intros Hl. rewrite <- (Hl1 Hl). unfold calibrate. by repeat case_decide.
    - unfold calibrate. simpl. by repeat case_decide. }
  destruct (control_rate_ok (ps_last_latency_us (sp_stream p1)) dt r1) as (r2 & Hrun & Hr2 & Hc2); [apply Hp1 | done | done |].
  simpl in *. rewrite Hrun. cbn [mbind option_bind].
  eexists _, (pr_ppm r2). split; [done |]. split; [| split_and!; try done; apply Hr2].
  apply set_rate_inv; [done | done |]. intros Hl. rewrite Hc2. by apply Hl1.
Qed.

(** ** Calls of the worker *)
Lemma set_sink_ctx_same (w : eaf_decode_worker_t C (player_output W)) : set_sink_ctx (sink_ctx w) w = w.
Proof using. by destruct w. Qed.

(** What happens inside a stream: everything but the worker, its memory and the output stays. *)
Definition streams (p p' : player) : Prop :=
  sp_stream p' = sp_stream p /\ sp_rate p' = sp_rate p /\
  po_active_ratio (sp_out p') = po_active_ratio (sp_out p) /\ open (sp_worker p') = true.

Lemma worker_call_ok {R} (f : ptr (eaf_decode_worker_t C (player_output W)) -> ub (ptr (eaf_decode_worker_t C (player_output W)) * R))
    fmt p c cells :
  player_inv p -> lent fmt p c cells -> open (sp_worker p) = true ->
  (forall w, driven fmt w c cells -> exists w' c' cells' r, f (Some w) = Some (Some w', r) /\ driven fmt w' c' cells' /\
     keeps w w') ->
  exists p' r w', worker_call f p = Some (p', r) /\ f (Some (set_sink_ctx (sp_out p) (sp_worker p))) = Some (Some w', r) /\
    sp_worker p' = w' /\ player_inv p' /\ streams p p' /\ exists c' cells', lent fmt p' c' cells'.
Proof using.
  intros [Ho Hr Hl Hd Hla Hf Hw Hle] [Hdr Hb] Hop Hrun. destruct (Hrun _ Hdr) as (w' & c' & cells' & r & Hfr & Hdr' & Hk & Hsf).
  exists (SendspinPlayer (sp_stream p) (sink_ctx w')
          (SpDecoder (sd_ops (sp_decoder p)) (ctx (decoder w')) (scratch w') (sd_scratch_frames (sp_decoder p))) w' (sp_rate p)), r, w'.
  assert (Hlent : lent fmt (SendspinPlayer (sp_stream p) (sink_ctx w')
          (SpDecoder (sd_ops (sp_decoder p)) (ctx (decoder w')) (scratch w') (sd_scratch_frames (sp_decoder p))) w' (sp_rate p)) c' cells').
  { split; simpl; [by rewrite set_sink_ctx_same |]. rewrite (drv_decoder _ _ _ _ _ _ _ _ Hdr'), (drv_scratch _ _ _ _ _ _ _ _ Hdr'), Hb, Hsf. done. }
  unfold worker_call, with_ref. rewrite Hfr. cbn [mbind option_bind].
  pose proof (drv_open _ _ _ _ _ _ _ _ Hdr') as Hopen. split_and!; try done.
  - split; simpl; try done; [by destruct Hdr' | | congruence | intros _; by exists fmt, c', cells'].
    rewrite (drv_decoder _ _ _ _ _ _ _ _ Hdr'), (drv_scratch _ _ _ _ _ _ _ _ Hdr'), Hb. simpl.
    destruct Hdr'. simpl in *. split; simpl; [by right | | unfold is_u32; lia |].
    + intros c0 [= <-]. by eapply inv_raw.
    + intros l [= <-]. split; [lia | done].
  - by exists c', cells'.
Qed.

Lemma player_close_ok p :
  player_inv p -> ps_compressed (sp_stream p) = open (sp_worker p) \/ open (sp_worker p) = false ->
  exists p', close_worker p = Some p' /\ sp_stream p' = sp_stream p /\ sp_rate p' = sp_rate p /\ sp_out p' = sp_out p /\
    binding_ok (sp_decoder p') /\ open (sp_worker p') = false.
Proof using.
  intros Hp Hcomp. unfold close_worker. destruct (open (sp_worker p)) eqn:Eo.
  - destruct (pinv_lent _ Hp Eo) as (fmt & c & cells & [Hdr Hb]).
    destruct (close_driven o x_inv sink loud fmt _ c cells Hdr) as (w' & c' & Hcl & Hraw & Hopen & Hdec & Hscr & Hctx).
    unfold worker_call, with_ref. rewrite Hcl. cbn [mbind option_bind]. eexists. split; [done |]. simpl in *.
    split_and!; try done. rewrite Hdec, Hscr, Hb. destruct Hdr. simpl in *. split; simpl; [by right | by intros c0 [= <-] | unfold is_u32; lia |].
    intros l [= <-]. split; [lia | done].
  - unfold eaf_decode_worker_close. rewrite Eo. cbn [mbind option_bind]. eexists. split; [done |]. split_and!; try done. apply Hp.
Qed.

(** ** Beginning and ending a stream *)
Lemma finish_ok p :
  player_inv p -> exists p', eaf_sendspin_player_finish (Some p) = Some (Some p') /\ player_inv p' /\
    ps_active (sp_stream p') = false /\ open (sp_worker p') = false.
Proof using.
  intros Hp. destruct (player_close_ok p Hp) as (p1 & Hcl & Hs & Hr & Hou & Hb & Hop).
  { rewrite (pinv_worker _ Hp). destruct (ps_active _), (ps_compressed _); auto. }
  unfold eaf_sendspin_player_finish. rewrite Hcl. cbn [mbind option_bind]. eexists. split; [done |]. split; [| done].
  destruct Hp. split; simpl; rewrite ?Hs, ?Hr, ?Hou; try done. by rewrite Hop.
Qed.

(** The output and the rate control of a stream that begins. *)
Lemma begun_output ou :
  output_inv ou -> output_inv (po_set_resample d_zero (po_resample_scratch (po_set_frames 0 0 (po_set_ratio (d_of_Z 1) ou)))
    (po_set_frames 0 0 (po_set_ratio (d_of_Z 1) ou))).
Proof using.
  intros []. pose proof W_pos. split; try done.
  - exists 0. by rewrite ratio_0.
Qed.

(** The state [begin] leaves before it opens a decoder. *)
Definition begun (filter : eaf_sendspin_time_filter_t) (start : eaf_sendspin_stream_start_t) (p : player) : player :=
  let p := sp_set_stream (ps_set_compressed false (sp_stream p)) p in
  let p := sp_set_out (po_set_ratio (d_of_Z 1) (sp_out p)) p in
  let p := sp_set_stream (begin_stream (Some filter) start (sp_stream p)) p in
  let o := po_set_frames 0 0 (sp_out p) in
  let p := sp_set_out (po_set_resample d_zero (po_resample_scratch o) o) p in
  sp_set_rate (begin_rate (sp_rate p)) p.

(** A closed player whose parts are sound. *)
Lemma closed_inv p :
  output_inv (sp_out p) -> rate_inv (sp_rate p) -> (loud = true -> pr_control (sp_rate p) = false) ->
  binding_ok (sp_decoder p) -> is_s64 (ps_last_latency_us (sp_stream p)) -> open (sp_worker p) = false ->
  ps_active (sp_stream p) && ps_compressed (sp_stream p) = false ->
  (ps_active (sp_stream p) = true ->
    (ps_input_channels (sp_stream p) = 1 \/ ps_input_channels (sp_stream p) = 2) /\
    (ps_input_bits (sp_stream p) = 16 \/ ps_input_bits (sp_stream p) = 24 \/ ps_input_bits (sp_stream p) = 32)) ->
  player_inv p.
Proof using.
  intros Ho Hr Hl Hd Hla Hop Hac Hf. split; try done.
  - intros Ha. destruct (Hf Ha). by split.
  - congruence.
  - congruence.
Qed.

Lemma stereo_valid rate : rate <> 0 -> eaf_format_valid (Some (Types.Format rate 2 (Z.lor EAF_CH_FRONT_LEFT EAF_CH_FRONT_RIGHT))) = true.
Proof using. intros Hr. unfold eaf_format_valid. simpl. rewrite bool_decide_eq_false_2 by done. vm_compute. done. Qed.

(** Opening the decoder of a compressed stream. *)
Lemma begin_decoder_ok message filter start p c cells :
  output_inv (sp_out p) -> rate_inv (sp_rate p) -> (loud = true -> pr_control (sp_rate p) = false) ->
  sp_decoder p = SpDecoder (Some o) (Some c) (Some cells) (sd_scratch_frames (sp_decoder p)) ->
  binding_ok (sp_decoder p) -> sd_scratch_frames (sp_decoder p) <> 0 -> start_sample_rate start <> 0 ->
  (start_channels start = 1 \/ start_channels start = 2) -> open (sp_worker p) = false ->
  exists p' rc, begin_decoder message start (begun filter start p) = Some (p', rc) /\ player_inv p' /\
    ps_active (sp_stream p') = bool_decide (rc = 0).
Proof using Hsink Hpull.
  intros Ho Hr Hl Hd [Hops Hctx Hfr Hscr] Hf0 Hrate Hch Hop. unfold is_u32 in Hfr.
  destruct (Hscr cells) as [Hroom Hm]; [by rewrite Hd |].
  pose proof (stereo_valid _ Hrate) as Hv. set (fmt := Types.Format _ _ _) in *.
  assert (Hraw : dec_raw c) by (apply Hctx; by rewrite Hd).
  set (n := sd_scratch_frames (sp_decoder p)) in *.
  destruct (init_open o x_inv sink loud fmt (sp_worker p) c cells n (sp_out (begun filter start p)) (decoder_config message start))
    as (w1 & Hinit & Hopen); [done | done | done | lia | lia | done |].
  unfold begin_decoder. simpl. rewrite Hd. simpl. fold fmt n. simpl in Hinit. rewrite Hinit. cbn [mbind option_bind].
  rewrite bool_decide_eq_true_2 by done. cbn [negb]. pose proof (begun_output _ Ho) as Ho'.
  destruct (Hopen _ Ho') as (w2 & c' & rc & Hrun & Hdec & Hraw' & Hscr2 & Hfr2 & Hctx2 & Hres).
  unfold worker_call, with_ref. simpl. simpl in Hrun. rewrite Hrun. cbn [mbind option_bind].
  assert (Hbind : binding_ok (SpDecoder (Some o) (Some c') (Some cells) n)).
  { split; simpl; [by right | by intros c0 [= <-] | unfold is_u32; lia | by intros l [= <-]]. }
  rewrite Hdec, Hscr2, Hctx2. simpl. case_bool_decide as Hrc; cbn [negb].
  - rewrite decide_True in Hres by done. eexists _, EAF_OK. split; [done |]. split; [| done]. split; simpl; try done.
    + by apply begin_rate_inv.
    + by rewrite Hd.
    + by rewrite (drv_open _ _ _ _ _ _ _ _ Hres).
    + intros _. exists fmt, c', cells. split; simpl; [| by rewrite Hd, Hfr2].
      rewrite <- (set_sink_ctx_same w2), Hctx2 in Hres. exact Hres.
  - rewrite decide_False in Hres by done. eexists _, rc. split; [done |]. split; [| by rewrite bool_decide_eq_false_2].
    apply closed_inv; simpl; try done; [by apply begin_rate_inv | by rewrite Hd].
Qed.

Lemma begin_ok message p filter start :
  player_inv p -> exists p' rc, begin message filter start p = Some (p', rc) /\ player_inv p' /\
    (rc = 0 -> ps_active (sp_stream p') = true).
Proof using Hsink Hpull.
  intros Hp. unfold begin. destruct (ps_active (sp_stream p)) eqn:Ea; [by exists p, EAF_STATE |].
  assert (Hop : open (sp_worker p) = false) by (by rewrite (pinv_worker _ Hp), Ea).
  destruct (negb (bool_decide (start_channels start = 1)) && _) eqn:Ech; [by exists p, EAF_UNSUPPORTED |].
  assert (Hch : start_channels start = 1 \/ start_channels start = 2).
  { destruct (decide (start_channels start = 1)); [by left |]. destruct (decide (start_channels start = 2)); [by right |].
    by rewrite (bool_decide_eq_false_2 (start_channels start = 1)), (bool_decide_eq_false_2 (start_channels start = 2)) in Ech by done. }
  destruct (decide (start_sample_rate start = 0)) as [Hrate|Hrate]; [by exists p, EAF_UNSUPPORTED |].
  destruct (player_close_ok p Hp (or_intror Hop)) as (p1 & -> & Hs & Hr & Hou & Hb & Hop1). cbn [mbind option_bind].
  assert (Ho1 : output_inv (sp_out p1)) by (rewrite Hou; apply Hp).
  assert (Hr1 : rate_inv (sp_rate p1)) by (rewrite Hr; apply Hp).
  assert (Hl1 : loud = true -> pr_control (sp_rate p1) = false) by (rewrite Hr; apply Hp).
  assert (Hor : output_inv (po_set_ratio (d_of_Z 1) (sp_out p1))).
  { destruct Ho1. split; try done. exists 0. by rewrite ratio_0. }
  destruct (playable start (sp_decoder p1)) eqn:Epl; cycle 1.
  { simpl. rewrite Epl. eexists _, EAF_UNSUPPORTED. split; [done |]. split; [| done].
    apply closed_inv; simpl; try done; rewrite Hs; [apply Hp | by rewrite Ea | by rewrite Ea]. }
  simpl. rewrite Epl. cbn [negb]. unfold playable in Epl. destruct (is_pcm start) eqn:Epcm; cbn [negb] in *.
  - eexists _, EAF_OK. split; [done |]. split; [| done].
    assert (Hbits : start_bit_depth start = 16 \/ start_bit_depth start = 24 \/ start_bit_depth start = 32).
    { apply orb_prop in Epl as [[H|H]%orb_prop|H]; apply bool_decide_eq_true in H; auto. }
    apply closed_inv; simpl; try done; [by apply begun_output | by apply begin_rate_inv |].
    intros _. split; [done |]. destruct (decide (start_bit_depth start = 0)); [by left | done].
  - apply negb_true_iff in Epl. apply orb_false_elim in Epl as [[_ Hbd]%orb_false_elim Hn%bool_decide_eq_false].
    destruct (sp_decoder p1) as [[ops|] [c|] [cells|] n] eqn:Ed; try done.
    assert (ops = o) as ->. { destruct (bind_ops _ Hb) as [?|[= ->]]; done. }
    destruct (begin_decoder_ok message filter start p1 c cells) as (p' & rc & Hrun & Hp' & Hact); try done.
    { by rewrite Ed. } { by rewrite Ed. } { by rewrite Ed. }
    exists p', rc. split; [exact Hrun |]. split; [done |]. intros ->. by rewrite Hact.
Qed.

(** ** Compressed chunks *)
Lemma can_push_driven fmt w c cells : driven fmt w c cells -> eaf_decode_worker_can_push (Some w) = true.
Proof using. intros []. simpl. rewrite drv_open0. rewrite bool_decide_eq_true_2; [done | lia]. Qed.

Lemma step_call_ok fmt p c cells :
  player_inv p -> lent fmt p c cells ->
  exists p' rc, worker_call eaf_decode_worker_step p = Some (p', rc) /\ player_inv p' /\ streams p p' /\
    exists c' cells', lent fmt p' c' cells'.
Proof using Hsink Hpull.
  intros Hp Hle. assert (Hop : open (sp_worker p) = true) by apply (drv_open _ _ _ _ _ _ _ _ (lent_driven _ _ _ _ Hle)).
  destruct (worker_call_ok eaf_decode_worker_step fmt p c cells Hp Hle Hop) as (p' & rc & w' & H1 & _ & _ & H3 & H4 & H5).
  - intros w Hw. destruct (step_driven o x_inv sink loud Hsink Hpull fmt w c cells Hw) as (w' & c' & cells' & rc & ? & ? & ?).
    by exists w', c', cells', rc.
  - by exists p', rc.
Qed.

Lemma streams_refl fmt p c cells : lent fmt p c cells -> streams p p.
Proof using. intros Hle. split_and!; try done. apply (drv_open _ _ _ _ _ _ _ _ (lent_driven _ _ _ _ Hle)). Qed.
Lemma streams_trans p1 p2 p3 : streams p1 p2 -> streams p2 p3 -> streams p1 p3.
Proof using. intros (A & B & D & E) (A' & B' & D' & E'). split_and!; congruence. Qed.

Lemma player_feed_round_ok fmt p c cells data length offset :
  player_inv p -> lent fmt p c cells -> 0 <= offset < length -> length <= zlen data -> Forall is_u8 data ->
  exists p' offset' rc, feed_round data length offset p = Some (p', offset', rc) /\ player_inv p' /\ streams p p' /\
    offset <= offset' <= length /\ exists c' cells', lent fmt p' c' cells'.
Proof using Hsink Hpull.
  intros Hp Hle Hoff Hlen Hb. unfold feed_round.
  assert (Hop : open (sp_worker p) = true) by apply (drv_open _ _ _ _ _ _ _ _ (lent_driven _ _ _ _ Hle)).
  assert (Hcan : eaf_decode_worker_can_push (Some (sp_worker p)) = true)
    by apply (can_push_driven _ _ _ _ (lent_driven _ _ _ _ Hle)).
  rewrite Hcan. cbn [negb]. rewrite ldn_eq by lia. cbn [mbind option_bind].
  set (from := slice data offset (zlen data - offset)).
  assert (Hz : zlen from = zlen data - offset) by (apply zlen_slice; lia).
  destruct (worker_call_ok (fun w => eaf_decode_worker_push w (Some from) (length - offset) (Some 0)) fmt p c cells Hp Hle Hop)
    as (p1 & r & w1 & -> & Hrun & _ & Hp1 & Hst & c1 & cells1 & Hle1).
  { intros w Hw. destruct (push_driven o x_inv sink loud fmt w c cells from (length - offset) Hw)
      as (w' & c' & k & rc & ? & ? & ? & _); [lia | by apply slice_forall |]. by exists w', c', cells, (Some k, rc). }
  destruct (push_driven o x_inv sink loud fmt _ c cells from (length - offset) (lent_driven _ _ _ _ Hle))
    as (w' & c' & k & rc & Hrun' & _ & _ & Hk); [lia | by apply slice_forall |].
  rewrite Hrun in Hrun'. injection Hrun' as _ ->. cbn [mbind option_bind].
  destruct (negb (bool_decide (rc = 0))).
  { exists p1, offset, rc. split_and!; try done; try lia. by exists c1, cells1. }
  case_decide.
  - destruct (step_call_ok fmt p1 c1 cells1 Hp1 Hle1) as (p2 & rc2 & -> & Hp2 & Hst2 & Hle2). cbn [mbind option_bind].
    exists p2, offset, rc2. split_and!; try done; try lia. by apply (streams_trans p p1).
  - exists p1, (offset + k), 0. split_and!; try done; try lia. by exists c1, cells1.
Qed.

Lemma feed_loop_ok guard fmt p c cells data length offset :
  player_inv p -> lent fmt p c cells -> 0 <= offset <= length -> length <= zlen data -> Forall is_u8 data ->
  exists p' offset' rc, feed_loop guard data length offset p = Some (p', offset', rc) /\ player_inv p' /\ streams p p' /\
    exists c' cells', lent fmt p' c' cells'.
Proof using Hsink Hpull.
  revert p c cells offset. induction guard as [|guard IH]; intros p c cells offset Hp Hle Hoff Hlen Hb; simpl.
  - exists p, offset, 0. split_and!; try done; [by apply (streams_refl fmt p c cells) | by exists c, cells].
  - case_decide.
    { exists p, offset, 0. split_and!; try done; [by apply (streams_refl fmt p c cells) | by exists c, cells]. }
    destruct (player_feed_round_ok fmt p c cells data length offset Hp Hle) as (p1 & off1 & rc & -> & Hp1 & Hst & Hof & c1 & cells1 & Hle1);
      [lia | done | done |]. cbn [mbind option_bind]. case_decide.
    + destruct (IH p1 c1 cells1 off1 Hp1 Hle1) as (p2 & off2 & rc2 & Hrun & Hp2 & Hst2 & Hle2); [lia | done | done |].
      exists p2, off2, rc2. split_and!; try done. by apply (streams_trans p p1).
    + exists p1, off1, rc. split_and!; try done. by exists c1, cells1.
Qed.

Lemma drain_loop_ok steps fmt p c cells :
  player_inv p -> lent fmt p c cells ->
  exists p' rc, drain_loop steps p = Some (p', rc) /\ player_inv p' /\ streams p p'.
Proof using Hsink Hpull.
  revert p c cells. induction steps as [|steps IH]; intros p c cells Hp Hle; simpl.
  - exists p, EAF_OK. split_and!; try done. by apply (streams_refl fmt p c cells).
  - destruct (step_call_ok fmt p c cells Hp Hle) as (p1 & rc & -> & Hp1 & Hst & c1 & cells1 & Hle1).
    cbn [mbind option_bind]. destruct (negb (bool_decide (rc = 0))); [by exists p1, rc |].
    destruct (_ && _); [by exists p1, EAF_OK |].
    destruct (IH p1 c1 cells1 Hp1 Hle1) as (p2 & rc2 & Hrun & Hp2 & Hst2).
    exists p2, rc2. split_and!; try done. by apply (streams_trans p p1).
Qed.

Lemma write_compressed_ok p data length :
  player_inv p -> open (sp_worker p) = true -> 0 <= length <= zlen data -> Forall is_u8 data ->
  exists p' rc, write_compressed data length p = Some (p', rc) /\ player_inv p'.
Proof using Hsink Hpull.
  intros Hp Hop Hlen Hb. destruct (pinv_lent _ Hp Hop) as (fmt & c & cells & Hle). unfold write_compressed.
  destruct (feed_loop_ok (Z.to_nat EAF_SENDPIN_DECODE_STEPS) fmt p c cells data length 0 Hp Hle)
    as (p1 & off & rc & -> & Hp1 & Hst & c1 & cells1 & Hle1); [lia | lia | done |].
  cbn [mbind option_bind]. destruct (negb (bool_decide (rc = 0))); [by exists p1, rc |].
  destruct (drain_loop_ok (Z.to_nat EAF_SENDPIN_DECODE_STEPS) fmt p1 c1 cells1 Hp1 Hle1) as (p2 & rc2 & -> & Hp2 & _).
  by exists p2, rc2.
Qed.

(** ** PCM chunks *)
Lemma sample_total p bits :
  (bits = 16 \/ bits = 24 \/ bits = 32) -> bits / 8 <= zlen p -> exists x, sample_to_q31 p bits = Some x /\ is_s32 x.
Proof using.
  intros Hb Hlen. unfold sample_to_q31, read_le16, read_le24, read_le32.
  destruct Hb as [->|[->| ->]]; [change (16 / 8) with 2 in Hlen | change (24 / 8) with 3 in Hlen | change (32 / 8) with 4 in Hlen];
    cbn [decide]; destruct (ld_is_Some p 0) as [b0 ->]; try lia; destruct (ld_is_Some p 1) as [b1 ->]; try lia;
    cbn [mbind option_bind].
  - simpl. eexists. split; [done |]. apply pcm16_range. word.
  - destruct (ld_is_Some p 2) as [b2 ->]; [lia |]. simpl. eexists. split; [done |]. apply pcm24_range.
  - destruct (ld_is_Some p 2) as [b2 ->]; [lia |]. destruct (ld_is_Some p 3) as [b3 ->]; [lia |].
    simpl. eexists. split; [done |]. apply s32_range.
Qed.

(** With rate control, a chunk's samples keep the headroom. *)
Definition quiet (bits : Z) (pcm : list Z) : Prop :=
  loud = false -> forall k x, 0 <= k -> sample_to_q31 (drop (Z.to_nat (k * (bits / 8))) pcm) bits = Some x ->
    -1073741824 <= x < 1073741824.

Lemma sample_material pcm bits k :
  (bits = 16 \/ bits = 24 \/ bits = 32) -> quiet bits pcm -> 0 <= k -> (k + 1) * (bits / 8) <= zlen pcm ->
  exists x, sample_to_q31 (drop (Z.to_nat (k * (bits / 8))) pcm) bits = Some x /\ material loud x.
Proof using.
  intros Hb Hq Hk Hlen. assert (Hsb : 0 < bits / 8) by (destruct Hb as [->|[->| ->]]; done).
  destruct (sample_total (drop (Z.to_nat (k * (bits / 8))) pcm) bits Hb) as (x & Hx & Hr).
  { rewrite drop_slice, zlen_slice by nia. nia. }
  exists x. split; [done |]. split; [done |]. intros Hl. by apply (Hq Hl k).
Qed.

Lemma slice_drop {A} (l : list A) i : 0 <= i <= zlen l -> slice l i (zlen l - i) = drop (Z.to_nat i) l.
Proof using. intros Hi. by rewrite drop_slice. Qed.

Lemma convert_frame_ok pcm channels bits index i scr :
  (channels = 1 \/ channels = 2) -> (bits = 16 \/ bits = 24 \/ bits = 32) -> quiet bits pcm -> 0 <= index ->
  0 <= i < 128 -> (index + i + 1) * (channels * (bits / 8)) <= zlen pcm -> zlen scr = 256 -> Forall (material loud) scr ->
  exists scr', convert_frame pcm channels bits index i scr = Some scr' /\ zlen scr' = 256 /\ Forall (material loud) scr'.
Proof using.
  intros Hc Hb Hq Hi0 Hi Hlen Hs Hm. assert (Hsb : 0 < bits / 8) by (destruct Hb as [->|[->| ->]]; done).
  unfold convert_frame. set (sb := bits / 8) in *. set (f := index + i) in *.
  rewrite ldn_eq by nia. cbn [mbind option_bind]. rewrite slice_drop by nia.
  assert (Hat : f * (channels * sb) = (f * channels) * sb) by ring.
  destruct (sample_material pcm bits (f * channels) Hb Hq) as (l & Hl & Hlm); [nia | fold sb; nia |].
  fold sb in Hl. rewrite Hat, Hl. cbn [mbind option_bind].
  assert (Hright : exists r, (if decide (channels = 2) then
      next ← ldn (drop (Z.to_nat (f * channels * sb)) pcm) sb (zlen (drop (Z.to_nat (f * channels * sb)) pcm) - sb);
      sample_to_q31 next bits else Some l) = Some r /\ material loud r).
  { case_decide as H2; [| by exists l]. subst channels.
    assert (Hz : zlen (drop (Z.to_nat (f * 2 * sb)) pcm) = zlen pcm - f * 2 * sb)
      by (rewrite drop_slice, zlen_slice by nia; lia).
    rewrite ldn_eq by nia. cbn [mbind option_bind]. rewrite slice_drop by nia. rewrite drop_drop.
    replace (Z.to_nat (f * 2 * sb) + Z.to_nat sb)%nat with (Z.to_nat ((f * 2 + 1) * sb)) by nia.
    destruct (sample_material pcm bits (f * 2 + 1) Hb Hq) as (r & Hr & Hrm); [nia | fold sb; nia |]. by exists r. }
  destruct Hright as (r & Hr & Hrm). rewrite Hr. cbn [mbind option_bind]. rewrite st_eq by lia. cbn [mbind option_bind].
  rewrite st_eq by (rewrite zlen_insert; lia). eexists. split; [done |]. rewrite !zlen_insert. split; [done |].
  apply Forall_insert; [by apply Forall_insert | done].
Qed.

Lemma pcm_loop_ok fuel pcm channels bits frames index scr ou :
  (channels = 1 \/ channels = 2) -> (bits = 16 \/ bits = 24 \/ bits = 32) -> quiet bits pcm -> 0 <= index ->
  is_u32 frames -> frames * (channels * (bits / 8)) <= zlen pcm -> zlen scr = 256 -> Forall (material loud) scr ->
  frames - index <= Z.of_nat fuel -> output_inv ou ->
  exists ou', pcm_loop fuel pcm channels bits frames index scr ou = Some ou' /\ output_inv ou'.
Proof using Hsink.
  revert index scr ou. induction fuel as [|fuel IH]; intros index scr ou Hc Hb Hq Hi Hf Hlen Hs Hm Hfuel Ho; simpl.
  { rewrite decide_True by lia. by exists ou. }
  case_decide; [by exists ou |]. rewrite (block_frames_eq frames index) by (done || lia).
  set (count := Z.min 128 (frames - index)).
  assert (Hsb : 0 < bits / 8) by (destruct Hb as [->|[->| ->]]; done).
  destruct (for_to_inv (fun _ s => zlen s = 256 /\ Forall (material loud) s)
    (convert_frame pcm channels bits index) count scr) as (scr' & -> & Hs' & Hm'); [lia | done | |].
  { intros j t Hj [Ht Htm]. apply convert_frame_ok; try done; [lia |].
    apply Z.le_trans with (frames * (channels * (bits / 8))); [| done]. apply Z.mul_le_mono_nonneg_r; [nia | lia]. }
  cbn [mbind option_bind].
  destruct (queue_block_ok x_inv sink loud Hsink ou scr' count) as (o1 & w & k & -> & Ho1 & _); [done | lia | lia | done |].
  cbn [mbind option_bind]. case_decide; [by exists o1 |]. rewrite (u32_small (index + count)) by word.
  apply IH; try done; lia.
Qed.

Lemma write_pcm_ok p pcm length :
  player_inv p -> ps_active (sp_stream p) = true -> ps_compressed (sp_stream p) = false -> 0 <= length <= zlen pcm ->
  quiet (ps_input_bits (sp_stream p)) pcm ->
  exists p', write_pcm pcm length p = Some (p', EAF_OK) /\ player_inv p'.
Proof using Hsink.
  intros Hp Ha Hc Hlen Hq. destruct (pinv_format _ Hp Ha) as [Hch Hbits]. specialize (Hbits Hc).
  unfold write_pcm. set (bits := ps_input_bits (sp_stream p)) in *. set (ch := ps_input_channels (sp_stream p)) in *.
  assert (Hsb : 0 < bits / 8) by (destruct Hbits as [->|[->| ->]]; done).
  case_decide; [by exists p |]. rewrite decide_False by nia.
  assert (Hfr : u32 (length / (ch * (bits / 8))) * (ch * (bits / 8)) <= zlen pcm).
  { assert (0 < ch * (bits / 8)) by nia. pose proof (Z.mul_div_le length (ch * (bits / 8)) ltac:(lia)).
    assert (0 <= length / (ch * (bits / 8))) by (apply Z.div_pos; lia).
    assert (u32 (length / (ch * (bits / 8))) <= length / (ch * (bits / 8))) by (apply Z.mod_le; lia). nia. }
  destruct (pcm_loop_ok (Z.to_nat (u32 (length / (ch * (bits / 8))))) pcm ch bits (u32 (length / (ch * (bits / 8)))) 0
    write_scratch (sp_out p)) as (ou & -> & Ho); try done; try apply u32_range; try lia; [| apply Hp |].
  { apply Forall_replicate, material_0. }
  cbn [mbind option_bind]. eexists. split; [done |]. by apply count_chunk_inv, set_out_inv.
Qed.

(** ** Writing a chunk *)

(** The filter's estimate is sane, and the chunk is not scheduled absurdly long ago. *)
Definition filter_sane (f : ptr eaf_sendspin_time_filter_t) (timestamp : Z) : Prop :=
  match f with
  | None => True
  | Some f =>
      is_s64 timestamp /\ within (2 ^ 64 * SC) (e_offset (element f)) /\ d_num (e_drift (element f)) /\
      2 * Z.abs (dval (e_drift (element f))) <= SC /\
      forall n, eaf_sendspin_compute_client_time (Some f) timestamp = Some n -> - 2 ^ 62 <= n
  end.

Lemma measure_ok p ts :
  player_inv p -> filter_sane (ps_filter (sp_stream p)) ts ->
  exists p' late, measure hal_monotonic_time_us ts p = Some (p', late) /\ player_inv p' /\
    ps_active (sp_stream p') = ps_active (sp_stream p) /\ ps_compressed (sp_stream p') = ps_compressed (sp_stream p) /\
    ps_input_bits (sp_stream p') = ps_input_bits (sp_stream p) /\
    ps_input_channels (sp_stream p') = ps_input_channels (sp_stream p) /\ open (sp_worker p') = open (sp_worker p) /\
    sp_rate p' = sp_rate p.
Proof using Hclock.
  intros Hp Hsane. unfold measure. set (s := sp_stream p).
  assert (Hp1 : forall b, player_inv (sp_set_stream (ps_set_sync b (ps_last_latency_us s) s) p))
    by (intros b; apply set_stream_inv; try done; apply Hp).
  destruct (eaf_sendspin_time_synchronized (ps_filter s)) eqn:Esync; cbn [negb].
  2: { eexists _, false. split; [done |]. by split_and!. }
  destruct (now_ok _ (Hp1 true)) as (p1 & now & -> & Hp2 & Hnow & Hs64 & Hst & Hra & Hde & Hwo). rewrite Hs64.
  change (sp_stream p) with s in Hsane. destruct (ps_filter s) as [f|] eqn:Ef; [| done].
  destruct Hsane as (Hts & Hoff & Hdn & Hdb & Hlate).
  destruct (client_time_total f ts Hts Hoff Hdn Hdb) as (play & Hplay & Hr). specialize (Hlate _ Hplay).
  rewrite Hplay. cbn [mbind option_bind]. change (2 ^ 62) with 4611686018427387904 in *.
  assert (Hlat : is_s64 (play - now)) by (unfold is_s64 in *; lia).
  rewrite sub64_eq by done. cbn [mbind option_bind]. eexists _, _. split; [done |].
  simpl in Hwo, Hra. split; [apply set_stream_inv; simpl; rewrite ?Hst; try done |].
  simpl. rewrite Hwo, Hra. done.
Qed.

Lemma write_chunk_ok p ts pcm length :
  player_inv p -> ps_active (sp_stream p) = true -> filter_sane (ps_filter (sp_stream p)) ts -> 0 <= length <= zlen pcm ->
  Forall is_u8 pcm -> (ps_compressed (sp_stream p) = false -> quiet (ps_input_bits (sp_stream p)) pcm) ->
  exists p' rc, write_chunk hal_monotonic_time_us ts pcm length p = Some (p', rc) /\ player_inv p'.
Proof using Hsink Hpull Hclock.
  intros Hp Ha Hsane Hlen Hb Hq. unfold write_chunk.
  destruct (measure_ok p ts Hp Hsane) as (p1 & late & -> & Hp1 & Ha1 & Hc1 & Hb1 & _ & Hop1 & _). cbn [mbind option_bind].
  destruct (ps_drop_late _ && late).
  { eexists _, _. split; [done |]. unfold drop_chunk. apply count_chunk_inv. destruct (_ || _); [done |].
    apply set_out_inv; [done |]. apply output_set_frames; [apply Hp1 | apply Hp1 | apply u32_range]. }
  assert (Hrate : exists p2 r, (if pr_control (sp_rate p1) && ps_synchronized (sp_stream p1) then update_rate p1
      else Some (p1, d_of_Z 1)) = Some (p2, r) /\ player_inv p2 /\ sp_stream p2 = sp_stream p1 /\
      sp_worker p2 = sp_worker p1 /\ output_inv (po_set_ratio r (sp_out p2))).
  { destruct (pr_control (sp_rate p1)) eqn:Ec; cbn [andb].
    - destruct (ps_synchronized (sp_stream p1)).
      + destruct (update_rate_ok p1 Hp1) as (p2 & n & -> & Hp2 & Hn & Hst & Hde & Hwo & Hctl).
        exists p2, (ratio_of n). split_and!; try done. destruct (pinv_output _ Hp2). split; try done; [by exists n |].
        intros Hl. pose proof (pinv_loud _ Hp2 Hl). congruence.
      + exists p1, (d_of_Z 1). split_and!; try done. destruct (pinv_output _ Hp1). split; try done. exists 0. by rewrite ratio_0.
    - exists p1, (d_of_Z 1). split_and!; try done. destruct (pinv_output _ Hp1). split; try done. exists 0. by rewrite ratio_0. }
  destruct Hrate as (p2 & r & -> & Hp2 & Hst & Hwo & Ho2). cbn [mbind option_bind].
  pose proof (set_out_inv p2 _ Hp2 Ho2) as Hp3. set (p3 := sp_set_out _ p2) in *.
  assert (Hs3 : sp_stream p3 = sp_stream p1) by done. rewrite Hs3, Hc1.
  destruct (ps_compressed (sp_stream p)) eqn:Ecomp.
  - destruct (write_compressed_ok p3 pcm length Hp3) as (p4 & rc & -> & Hp4); [| done | done |].
    + change (open (sp_worker p2) = true). by rewrite Hwo, Hop1, (pinv_worker _ Hp), Ha, Ecomp.
    + cbn [mbind option_bind]. eexists _, rc. split; [done |]. by apply count_chunk_inv.
  - destruct (write_pcm_ok p3 pcm length Hp3) as (p4 & -> & Hp4); [by rewrite Hs3, Ha1 | by rewrite Hs3, Hc1 | done | |].
    + rewrite Hs3, Hb1. by apply Hq.
    + by eexists _, _.
Qed.

(** ** Sessions *)
Inductive player_op :=
| ODecoder (d : ptr (eaf_sendspin_decoder_t C))
| ORate (target_latency_ms : double)
| OBegin (message : list Z) (filter : ptr eaf_sendspin_time_filter_t) (start : ptr eaf_sendspin_stream_start_t)
| OWrite (server_timestamp_us : Z) (pcm : ptr (list Z)) (length : Z)
| OFinish
| OFilter (f : eaf_sendspin_time_filter_t).   (* the client's filter moved on *)

Definition player_call (op : player_op) (p : player) : ub player :=
  match op with
  | ODecoder d => eaf_sendspin_player_set_decoder (Some p) d
  | ORate target => eaf_sendspin_player_set_rate_control (Some p) target
  | OBegin message filter start => '(p, _) ← with_ref (fun p => eaf_sendspin_player_begin message p filter start) p; Some p
  | OWrite ts pcm length =>
      '(p, _) ← with_ref (fun p => eaf_sendspin_player_write hal_monotonic_time_us p ts pcm length) p; Some p
  | OFinish => p ← eaf_sendspin_player_finish (Some p); p
  | OFilter f => Some (sp_set_stream (ps_set_filter ((fun _ => f) <$> ps_filter (sp_stream p)) (sp_stream p)) p)
  end.

(** What each call may assume of its arguments, in the state it is made. *)
Definition op_ok (p : player) (op : player_op) : Prop :=
  match op with
  | ODecoder (Some d) => binding_ok d
  | ORate target => loud = false /\ (dle target d_zero = true \/ within (2 ^ 67 * SC) (dmul target (d_of_Z 1000)))
  | OWrite ts (Some pcm) length =>
      filter_sane (ps_filter (sp_stream p)) ts /\ 0 <= length <= zlen pcm /\ Forall is_u8 pcm /\
      (ps_compressed (sp_stream p) = false -> quiet (ps_input_bits (sp_stream p)) pcm)
  | _ => True
  end.

Fixpoint player_session (ops : list player_op) (p : player) : ub player :=
  match ops with
  | [] => Some p
  | op :: ops => p ← player_call op p; player_session ops p
  end.

Fixpoint session_ok (ops : list player_op) (p : player) : Prop :=
  match ops with
  | [] => True
  | op :: ops => op_ok p op /\ forall p', player_call op p = Some p' -> session_ok ops p'
  end.

Lemma set_rate_ok p target :
  player_inv p -> loud = false -> (dle target d_zero = true \/ within (2 ^ 67 * SC) (dmul target (d_of_Z 1000))) ->
  exists p', eaf_sendspin_player_set_rate_control (Some p) target = Some p' /\ player_inv p'.
Proof using.
  intros Hp Hl Ht. eexists. split; [done |]. pose proof W_pos as Hw.
  assert (Ho : output_inv (po_set_resample d_zero (po_resample_scratch (sp_out p)) (sp_out p))).
  { destruct (pinv_output _ Hp). by split. }
  pose proof (set_out_inv p _ Hp Ho) as Hp1. refine (set_rate_inv _ _ Hp1 _ _); [| congruence].
  assert (Hlim : d_num (d_of_Z 300) /\ dval (d_of_Z 300) = 300 * SC) by (apply small_int; lia).
  destruct Hlim as [Hl1 Hl2]. split; cbn [pr_controller pr_ppm pr_update_us pr_calibration pr_auto_target pr_calibration_sum pr_target_latency_us limit_ppm].
  - split; [by apply controller_init_wf | apply Z.eq_le_incl, Hl2].
  - simpl. lia.
  - simpl. lia.
  - simpl. split; [lia | intros _; lia].
  - split; [done |]. simpl. lia.
  - simpl. destruct (dle target d_zero); [| by destruct Ht]. split; [done |]. change (dval d_zero) with 0. lia.
Qed.

Lemma player_call_ok op p : player_inv p -> op_ok p op -> exists p', player_call op p = Some p' /\ player_inv p'.
Proof using Hsink Hpull Hclock.
  intros Hp Hok. destruct op as [d|target|message filter start|ts pcm length| |f]; simpl.
  - destruct d as [d|]; [| by exists p]. destruct (ps_active (sp_stream p)) eqn:Ea; [by exists p |].
    eexists. split; [done |]. assert (Hop : open (sp_worker p) = false) by (by rewrite (pinv_worker _ Hp), Ea).
    apply closed_inv; simpl; try apply Hp; try done; by rewrite Ea.
  - destruct Hok as [Hl Ht]. by apply set_rate_ok.
  - unfold eaf_sendspin_player_begin. rewrite with_ref_on_ptr.
    destruct filter as [filter|]; [| by exists p]. destruct start as [start|]; [| by exists p].
    destruct (po_sink (sp_out p)); [| by exists p].
    destruct (begin_ok message p filter start Hp) as (p' & rc & -> & Hp' & _). by exists p'.
  - unfold eaf_sendspin_player_write. rewrite with_ref_on_ptr. destruct pcm as [pcm|]; [| by exists p].
    destruct (ps_active (sp_stream p)) eqn:Ea; cbn [negb]; [| by exists p].
    destruct Hok as (Hsane & Hlen & Hb & Hq).
    destruct (write_chunk_ok p ts pcm length Hp Ea Hsane Hlen Hb Hq) as (p' & rc & -> & Hp'). by exists p'.
  - destruct (finish_ok p Hp) as (p' & Hf & Hp' & _). simpl in Hf. rewrite Hf. by exists p'.
  - eexists. split; [done |]. apply set_stream_inv; try done. apply Hp.
Qed.

Lemma player_session_ok ops p :
  player_inv p -> session_ok ops p -> exists p', player_session ops p = Some p' /\ player_inv p'.
Proof using Hsink Hpull Hclock.
  revert p. induction ops as [|op ops IH]; intros p Hp Hok; simpl; [by exists p |].
  destruct Hok as [Hop Hok]. destruct (player_call_ok op p Hp Hop) as (p1 & Hrun & Hp1). rewrite Hrun.
  cbn [mbind option_bind]. by apply IH, Hok.
Qed.

Lemma player_init_inv (p0 : player) x : x_inv x -> player_inv (eaf_sendspin_player_init p0 (Some sink) x).
Proof using.
  intros Hx. pose proof W_pos as Hw. apply closed_inv; simpl; try done.
  - split; simpl; try done. exists 0. by rewrite ratio_0.
  - split; simpl; try done. by left.
Qed.
End player.

#[global] Arguments player_op : clear implicits.

(** ** Properties *)


(** *** A concrete client: an adapter that turns every byte into a frame, a sink that
    takes up to a hundred frames, and a clock of 20 ms steps. *)
Definition byte_open (c : ptr (eaf_format_t * Z)) (cfg : eaf_decoder_config_t) (out : eaf_format_t)
  : ub (ptr (eaf_format_t * Z) * Z) :=
  if decide (num_channels out = 2) then Some (Some (out, 0), EAF_OK) else Some (c, EAF_UNSUPPORTED).
Definition byte_push (c : ptr (eaf_format_t * Z)) (data : ptr (list Z)) (n consumed : Z) : ub (ptr (eaf_format_t * Z) * Z * Z) :=
  '(fmt, k) ← c; Some (Some (fmt, k + n), n, EAF_OK).
Definition byte_pull (c : ptr (eaf_format_t * Z)) (cells : list Z) (m n : Z) (fmt0 : eaf_format_t)
  : ub (ptr (eaf_format_t * Z) * list Z * Z * eaf_format_t * Z) :=
  '(fmt, k) ← c;
  let j := Z.min k m in
  cells ← stn cells 0 (replicate (Z.to_nat (j * 2)) 5); Some (Some (fmt, k - j), cells, j, fmt, EAF_OK).
Definition byte_adapter : eaf_decoder_ops_t (eaf_format_t * Z) :=
  DecoderOps (Some byte_open) (Some byte_push) (Some byte_pull) (Some (fun c => Some (c, EAF_OK))) (Some (fun c => Some c)).

#[export] Instance byte_laws : DecoderLaws byte_adapter.
Proof.
  refine {| dec_raw _ := True; dec_inv fmt c := c.1 = fmt /\ num_channels fmt = 2 /\ 0 <= c.2 |}.
  - done.
  - intros c cfg out _ _ _. unfold byte_adapter, byte_open. simpl.
    destruct (decide (num_channels out = 2)); eexists _, _, _; (split; [done |]); (split; [by rewrite ?decide_True, ?decide_False by done |]); done.
  - intros fmt [f k] data n j (Hf & Hc & Hk) Hn _. simpl in *. eexists _, (f, k + n), n, EAF_OK. split; [done |]. split; [done |].
    simpl. split; [split_and!; done || lia | lia].
  - intros fmt [f k] cells m n fmt0 (Hf & Hc & Hk) Hm Hroom. simpl in *. rewrite Hc in Hroom.
    assert (Hz : zlen (replicate (Z.to_nat (Z.min k m * 2)) 5) = Z.min k m * 2) by (apply zlen_replicate; lia).
    eexists _, (f, k - Z.min k m), (splice cells 0 (replicate (Z.to_nat (Z.min k m * 2)) 5)), (Z.min k m), f, EAF_OK.
    split; [done |]. unfold byte_pull. simpl. rewrite stn_eq by lia. simpl. split; [done |].
    split; [split_and!; done || lia |]. split; [apply zlen_splice; lia | lia].
  - intros fmt c Hc. by eexists _, c, EAF_OK.
  - intros fmt c Hc. by eexists _, c.
Defined.

Lemma byte_material : pulls_material byte_adapter false.
Proof.
  intros fmt [f k] cells m n fmt0 g c' cells' n' fmt' rc Hinv Hm [= <-] Hrun. unfold byte_pull in Hrun. simpl in Hrun.
  destruct (stn cells 0 _) as [l|] eqn:El; [| done]. simpl in Hrun. injection Hrun as _ <- _ _ _.
  apply stn_inv in El as (_ & _ & ->). unfold splice. repeat apply Forall_app_2.
  - by apply Forall_take.
  - apply Forall_replicate. split; [word | intros _; lia].
  - by apply Forall_drop.
Qed.

Definition room_sink (x : list Z * Z) (from : list Z) (n : Z) : ub ((list Z * Z) * Z) :=
  let k := Z.min 100 n in Some ((x.1 ++ slice from 0 (k * 2), x.2), k).
Definition step_clock (x : list Z * Z) : (list Z * Z) * Z :=
  ((x.1, if decide (x.2 < 1000000000) then x.2 + 20000 else x.2), x.2).

Definition synced_filter : eaf_sendspin_time_filter_t :=
  default filter_fresh
    (f ← filter_exchange filter_fresh 1000 501500 501600 2000; filter_exchange f 10000 511500 511600 12000).
Definition blank_player : eaf_sendspin_player_t (eaf_format_t * Z) (list Z * Z) :=
  let o := PlayerOutput None ([], 100000) d_zero d_zero [] 0 0 in
  SendspinPlayer stream_zero o (SpDecoder None None None 0) (worker_zero o) rate_zero.
Definition byte_binding : eaf_sendspin_decoder_t (eaf_format_t * Z) :=
  SpDecoder (Some byte_adapter) (Some (format_zero, 0)) (Some (replicate 64 0)) 32.
Definition flac_start : eaf_sendspin_stream_start_t := StreamStart 0 EAF_SENDPIN_CODEC_FLAC 48000 2 16 None 0.
Definition client_session : list (player_op (eaf_format_t * Z)) :=
  [ODecoder (Some byte_binding); ORate (d_of_Z 50); OBegin [] (Some synced_filter) (Some flac_start);
   OWrite 700000 (Some (replicate 300 1)) 300; OFinish].


(** Defects shown on concrete sessions. *)
Definition pcm_start : eaf_sendspin_stream_start_t := StreamStart 0 EAF_SENDPIN_CODEC_PCM 48000 1 16 None 0.
Definition pcm_session (ts : Z) : list (player_op (eaf_format_t * Z)) :=
  [OBegin [] (Some synced_filter) (Some pcm_start); OWrite ts (Some (replicate 512 1)) 512].
Definition run_client (ops : list (player_op (eaf_format_t * Z))) : ub (Z * Z * Z) :=
  p ← player_session step_clock ops (eaf_sendspin_player_init blank_player (Some room_sink) ([], 100000));
  Some (po_frames_written (sp_out p), po_frames_dropped (sp_out p), ps_last_latency_us (sp_stream p)).

(** A chunk of 256 frames into a sink with room for 100 per call: 100 frames are
    written and 28 counted as dropped; the 128 frames of the second block are
    neither written nor counted. *)
Theorem player_pcm_undercount : run_client (pcm_session 700000) = Some (100, 28, 99450).
Proof. vm_compute. reflexivity. Qed.

(** A chunk stamped with the least 64-bit time: its play time is clamped to the
    least value, and the subtraction of the present time overflows. *)
Theorem player_latency_overflow : run_client (pcm_session INT64_MIN) = None.
Proof. vm_compute. reflexivity. Qed.
