(* ===== verification/SendspinPcm.v ===== *)
(** What a Sendspin player hands to its sink: the samples of a PCM chunk. *)

From Stdlib Require Import SpecFloat.
From S2P Require Import Prelude Types Bytes Decoder Pcm Messages Float TimeFilter Rate SendspinPlayer SendspinSafe.

(** ** Samples *)
Lemma sample_value_read p bits :
  (bits = 16 \/ bits = 24 \/ bits = 32) -> bits / 8 <= zlen p -> Forall is_u8 p ->
  sample_to_q31 p bits = Some (sample_value (slice p 0 (bits / 8))).
Proof.
  intros Hb Hlen Hu. unfold sample_to_q31, read_le16, read_le24, read_le32.
  assert (Hl4 : forall k b, ld p k = Some b -> is_u8 b).
  { intros k b Hk. unfold ld in Hk. case_decide; [| done]. rewrite Forall_lookup in Hu. by eapply Hu. }
  destruct p as [|b0 [|b1 p]]; [destruct Hb as [->|[->| ->]]; done .. |].
  pose proof (Hl4 0 b0 eq_refl) as H0. pose proof (Hl4 1 b1 eq_refl) as H1. unfold is_u8 in H0, H1.
  assert (H16 : Z.lor b0 (Z.shiftl b1 8) = b0 + b1 * 256).
  { rewrite Z.lor_comm, lor_shift_add; [change (2 ^ 8) with 256; lia | lia | change (2 ^ 8) with 256; lia]. }
  change (ld (b0 :: b1 :: p) 0) with (Some b0). change (ld (b0 :: b1 :: p) 1) with (Some b1). cbn [mbind option_bind].
  rewrite H16. destruct Hb as [->|[->| ->]]; cbn [decide].
  - simpl. f_equal. change (slice (b0 :: b1 :: p) 0 (16 / 8)) with [b0; b1]. unfold sample_value, eaf_pcm16_to_q31. change (zlen [b0; b1]) with 2. simpl.
    set (v := b0 + b1 * 256). assert (Hv : b0 + 256 * (b1 + 256 * 0) = v) by (unfold v; lia).
    rewrite Hv. assert (Hvr : 0 <= v < 65536) by (unfold v; lia). clearbody v. case_decide; simpl in *; word.
  - destruct p as [|b2 p]; [done |]. pose proof (Hl4 2 b2 eq_refl) as H2. unfold is_u8 in H2.
    assert (H24 : Z.lor (b0 + b1 * 256) (Z.shiftl b2 16) = b0 + b1 * 256 + b2 * 65536).
    { rewrite Z.lor_comm, lor_shift_add; [change (2 ^ 16) with 65536; lia | lia | change (2 ^ 16) with 65536; lia]. }
    change (ld (b0 :: b1 :: b2 :: p) 2) with (Some b2). cbn [mbind option_bind]. rewrite H24. simpl. f_equal.
    change (slice (b0 :: b1 :: b2 :: p) 0 (24 / 8)) with [b0; b1; b2]. unfold sample_value. change (zlen [b0; b1; b2]) with 3. simpl.
    set (v := b0 + b1 * 256 + b2 * 65536). assert (Hv : b0 + 256 * (b1 + 256 * (b2 + 256 * 0)) = v) by (unfold v; lia).
    rewrite Hv. assert (Hvr : 0 <= v < 16777216) by (unfold v; lia). clearbody v.
    destruct (decide (8388608 <= v)).
    + rewrite decide_True by (apply bit23; lia). rewrite sign_extend24 by lia.
      replace (s32 (v + 4278190080)) with (v - 16777216) by word. unfold eaf_pcm24_to_q31. simpl. decide_lia. lia.
    + rewrite decide_False by (rewrite bit23; lia). replace (s32 v) with v by word. unfold eaf_pcm24_to_q31. simpl. decide_lia. lia.
  - destruct p as [|b2 [|b3 p]]; [done | done |]. pose proof (Hl4 2 b2 eq_refl) as H2. pose proof (Hl4 3 b3 eq_refl) as H3.
    unfold is_u8 in H2, H3.
    change (ld (b0 :: b1 :: b2 :: b3 :: p) 2) with (Some b2). change (ld (b0 :: b1 :: b2 :: b3 :: p) 3) with (Some b3).
    cbn [mbind option_bind].
    assert (H24 : Z.lor (b0 + b1 * 256) (Z.shiftl b2 16) = b0 + b1 * 256 + b2 * 65536).
    { rewrite Z.lor_comm, lor_shift_add; [change (2 ^ 16) with 65536; lia | lia | change (2 ^ 16) with 65536; lia]. }
    assert (H32 : Z.lor (b0 + b1 * 256 + b2 * 65536) (Z.shiftl b3 24) = b0 + b1 * 256 + b2 * 65536 + b3 * 16777216).
    { rewrite Z.lor_comm, lor_shift_add; [change (2 ^ 24) with 16777216; lia | lia | change (2 ^ 24) with 16777216; lia]. }
    rewrite H24, H32. simpl. f_equal. change (slice (b0 :: b1 :: b2 :: b3 :: p) 0 (32 / 8)) with [b0; b1; b2; b3].
    unfold sample_value, eaf_pcm32_to_q31. change (zlen [b0; b1; b2; b3]) with 4. simpl.
    set (v := b0 + b1 * 256 + b2 * 65536 + b3 * 16777216).
    assert (Hv : b0 + 256 * (b1 + 256 * (b2 + 256 * (b3 + 256 * 0))) = v) by (unfold v; lia).
    rewrite Hv. assert (Hvr : 0 <= v < 4294967296) by (unfold v; lia). clearbody v. case_decide; simpl in *; word.
Qed.

(** ** A block of frames *)
Section block.
Context (pcm : list Z) (ch bits frames : Z).
Hypothesis (Hch : ch = 1 \/ ch = 2) (Hbits : bits = 16 \/ bits = 24 \/ bits = 32).
Hypothesis (Hu : Forall is_u8 pcm) (Hframes : is_u32 frames) (Hfit : frames * (ch * (bits / 8)) <= zlen pcm).
Let sb := bits / 8.

(** The reference: every frame as a stereo pair of Q1.31 samples. *)
Let decoded : list Z := pcm_decode ch 2 sb frames pcm.

Lemma sb_range : 2 <= sb <= 4.
Proof using All. unfold sb. destruct Hbits as [->|[->| ->]]; split; done || lia. Qed.

Lemma zlen_decoded : zlen decoded = frames * 2.
Proof using All. apply zlen_pcm_decode; [by right | unfold is_u32 in Hframes; lia]. Qed.

Lemma decoded_from index count :
  0 <= index -> 0 <= count -> index + count <= frames ->
  slice decoded (index * 2) (count * 2) =
    concat ((fun i => frame_value ch 2 sb (slice pcm ((index + i) * (ch * sb)) (ch * sb))) <$> seqZ 0 count).
Proof using All.
  intros Hi Hc Hle. apply list_eq. intros k.
  assert (Hz : zlen (concat ((fun i => frame_value ch 2 sb (slice pcm ((index + i) * (ch * sb)) (ch * sb))) <$> seqZ 0 count)) = count * 2)
    by (apply zlen_concat_blocks; done).
  destruct (decide (Z.of_nat k < count * 2)) as [Hk|Hk].
  - rewrite lookup_slice by done. set (q := Z.of_nat k / 2). set (r := Z.of_nat k mod 2).
    assert (Hkq : Z.of_nat k = q * 2 + r) by (unfold q, r; word). assert (Hr : 0 <= r < 2) by (unfold r; word).
    replace k with (Z.to_nat (q * 2 + r)) at 2 by lia. rewrite lookup_concat_blocks; try done; try lia.
    unfold decoded, pcm_decode. replace (Z.to_nat (index * 2) + k)%nat with (Z.to_nat ((index + q) * 2 + r)) by lia.
    rewrite lookup_concat_blocks; try done; lia.
  - rewrite lookup_slice_ge by lia. symmetry. apply lookup_ge_None. unfold zlen in Hz. lia.
Qed.

Lemma convert_frame_eq index i scr :
  0 <= index -> 0 <= i < 128 -> index + i < frames -> zlen scr = 256 ->
  convert_frame pcm ch bits index i scr =
    Some (splice scr (0 + i * 2) (frame_value ch 2 sb (slice pcm ((index + i) * (ch * sb)) (ch * sb)))).
Proof using All.
  intros Hi0 Hi Hlt Hs. unfold convert_frame. pose proof sb_range as Hsb. fold sb in Hfit |- *. set (f := index + i) in *.
  unfold is_u32 in Hframes. assert (Hf : (f + 1) * (ch * sb) <= zlen pcm).
  { apply Z.le_trans with (frames * (ch * sb)); [| done]. apply Z.mul_le_mono_nonneg_r; nia. }
  set (at_ := f * (ch * sb)) in *. assert (Hat : 0 <= at_ /\ at_ + ch * sb <= zlen pcm) by (unfold at_; nia).
  rewrite ldn_eq by lia. cbn [mbind option_bind]. set (frame := slice pcm at_ (zlen pcm - at_)).
  assert (Hz : zlen frame = zlen pcm - at_) by (apply zlen_slice; lia).
  assert (Hfu : Forall is_u8 frame) by by apply slice_forall.
  rewrite (sample_value_read frame bits Hbits); [| fold sb; nia | done]. cbn [mbind option_bind]. fold sb.
  assert (Hl : slice frame 0 sb = slice (slice pcm at_ (ch * sb)) 0 sb).
  { unfold frame. rewrite !slice_inner by nia. done. }
  assert (Hst2 : forall l r, (s ← st scr (2 * i) l; st s (2 * i + 1) r) = Some (splice scr (0 + i * 2) [l; r])).
  { intros l r. rewrite st_eq by lia. cbn [mbind option_bind]. rewrite st_eq by (rewrite zlen_insert; lia). f_equal.
    rewrite <- (splice_singleton scr (2 * i) l) by lia.
    rewrite <- (splice_singleton (splice scr (2 * i) [l]) (2 * i + 1) r)
      by (rewrite zlen_splice; [lia | lia | change (zlen [l]) with 1; lia]).
    replace (0 + i * 2) with (2 * i) by lia. pose proof (splice_app scr [l] [r] (2 * i)) as Hsp.
    change (zlen [l]) with 1 in Hsp. apply Hsp; [lia |]. change (zlen [r]) with 1. lia. }
  unfold frame_value. rewrite <- Hl. change (decide (2 = 2)) with (decide (2 = 2)). rewrite (decide_True (P := 2 = 2)) by done.
  destruct (decide (ch = 2)) as [E|E].
  - rewrite ldn_eq by nia. cbn [mbind option_bind].
    rewrite (sample_value_read _ bits Hbits); [| fold sb; rewrite zlen_slice; nia | by apply slice_forall].
    cbn [mbind option_bind]. fold sb.
    assert (Hr : slice (slice frame sb (zlen frame - sb)) 0 sb = slice (slice pcm at_ (ch * sb)) sb sb).
    { rewrite slice_inner by nia. unfold frame. rewrite !slice_inner by nia. f_equal. lia. }
    rewrite Hr. apply Hst2.
  - cbn [mbind option_bind]. apply Hst2.
Qed.

Lemma convert_block index count scr :
  0 <= index -> 0 <= count <= 128 -> index + count <= frames -> zlen scr = 256 ->
  exists scr', for_to count (convert_frame pcm ch bits index) scr = Some scr' /\ zlen scr' = 256 /\
    slice scr' 0 (count * 2) = slice decoded (index * 2) (count * 2).
Proof using All.
  intros Hi Hc Hle Hs.
  destruct (for_blocks (convert_frame pcm ch bits index)
    (fun i => frame_value ch 2 sb (slice pcm ((index + i) * (ch * sb)) (ch * sb))) scr 0 2 count) as [Hrun Hz]; try lia.
  { intros i q Hq Hzq. apply convert_frame_eq; lia. } { done. }
  eexists. split; [exact Hrun |]. rewrite decoded_from by lia. split; [rewrite zlen_splice; lia |].
  set (l := concat _) in *. pose proof (slice_splice scr l 0 0 (count * 2)) as Hsp.
  change (0 + 0) with 0 in Hsp. rewrite Hsp by lia. apply slice_full; lia.
Qed.
End block.

(** ** Through the sink *)
Section delivery.
Context {W : Type} (x_inv : W -> Prop) (accepted : W -> list Z) (sink : eaf_pcm_write_fn W).
Hypothesis (Hsink : sink_laws 2 x_inv accepted sink).

(** A sink that always has room. *)
Definition greedy : Prop := forall x from n x' k, x_inv x -> sink x from n = Some (x', k) -> k = n.

Lemma queue_exact (o : player_output W) samples count :
  po_sink o = Some sink -> x_inv (po_ctx o) -> po_active_ratio o = d_of_Z 1 -> 0 <= count <= 128 ->
  count * 2 <= zlen samples ->
  exists o' k, queue_block o samples count = Some (o', k, count) /\ 0 <= k <= count /\
    po_sink o' = Some sink /\ x_inv (po_ctx o') /\ po_active_ratio o' = d_of_Z 1 /\
    accepted (po_ctx o') = accepted (po_ctx o) ++ slice samples 0 (k * 2) /\
    po_frames_written o' = u32 (po_frames_written o + k) /\ (k = count -> po_frames_dropped o' = po_frames_dropped o) /\
    (greedy -> k = count).
Proof using Hsink.
  intros Hs Hx Hr Hc Hlen. unfold queue_block, resample_block. rewrite Hr.
  replace (deq (d_of_Z 1) (d_of_Z 1)) with true by (vm_compute; reflexivity). cbn [mbind option_bind]. rewrite Hs.
  cbn [mbind option_bind].
  destruct (Hsink (po_ctx o) samples count) as (x' & k & Hrun & Hx' & Hk & Hacc); [done | lia | word | lia |].
  rewrite Hrun. cbn [mbind option_bind]. eexists _, k. split; [done |]. split; [done |]. simpl.
  split_and!; try done; [intros ->; by rewrite decide_False by lia | intros Hg; exact (Hg _ _ _ _ _ Hx Hrun)].
Qed.

Lemma pcm_loop_exact pcm ch bits frames fuel index scr (o : player_output W) :
  (ch = 1 \/ ch = 2) -> (bits = 16 \/ bits = 24 \/ bits = 32) -> Forall is_u8 pcm -> is_u32 frames ->
  frames * (ch * (bits / 8)) <= zlen pcm -> 0 <= index <= frames -> frames - index <= Z.of_nat fuel -> zlen scr = 256 ->
  po_sink o = Some sink -> x_inv (po_ctx o) -> po_active_ratio o = d_of_Z 1 -> is_u32 (po_frames_written o) ->
  exists o' k, pcm_loop fuel pcm ch bits frames index scr o = Some o' /\ 0 <= k <= frames - index /\
    accepted (po_ctx o') = accepted (po_ctx o) ++ slice (pcm_decode ch 2 (bits / 8) frames pcm) (index * 2) (k * 2) /\
    po_frames_written o' = u32 (po_frames_written o + k) /\
    (k = frames - index -> po_frames_dropped o' = po_frames_dropped o) /\ (greedy -> k = frames - index).
Proof using Hsink.
  intros Hch Hbits Hu Hf Hfit. revert index scr o. induction fuel as [|fuel IH];
    intros index scr o Hi Hfuel Hscr Hs Hx Hr Hw; simpl;
    (destruct (decide (frames <= index)) as [Hend|Hend];
      [exists o, 0; rewrite app_nil_r, Z.add_0_r, u32_small by done; split_and!; done || lia |]); [lia |].
  unfold is_u32 in Hf. rewrite block_frames_eq by (done || lia). set (count := Z.min 128 (frames - index)).
  destruct (convert_block pcm ch bits frames Hch Hbits Hu Hf Hfit index count scr) as (scr' & -> & Hz & Hblock); try lia.
  cbn [mbind option_bind].
  destruct (queue_exact o scr' count Hs Hx Hr) as (o1 & k & -> & Hk & Hs1 & Hx1 & Hr1 & Ha1 & Hw1 & Hd1 & Hg1); [lia | lia |].
  cbn [mbind option_bind]. set (D := pcm_decode ch 2 (bits / 8) frames pcm) in *.
  assert (Hpart : slice scr' 0 (k * 2) = slice D (index * 2) (k * 2)).
  { replace (slice scr' 0 (k * 2)) with (slice (slice scr' 0 (count * 2)) 0 (k * 2)) by (rewrite slice_slice by lia; done).
    rewrite Hblock, slice_inner by lia. f_equal. lia. }
  rewrite Hpart in Ha1. case_decide as Hlt.
  - exists o1, k. split_and!; try done; try lia. intros Hg. specialize (Hg1 Hg). lia.
  - assert (k = count) as -> by lia. rewrite (u32_small (index + count)) by word.
    destruct (IH (index + count) scr' o1) as (o' & j & -> & Hj & Ha & Hwr & Hd & Hg); try done; try lia.
    { rewrite Hw1. apply u32_range. }
    exists o', (count + j). split; [done |]. split; [lia |]. split; [| split; [| split]].
    + rewrite Ha, Ha1, <- app_assoc. f_equal. replace ((count + j) * 2) with (count * 2 + j * 2) by lia.
      rewrite slice_add by lia. do 2 f_equal. lia.
    + rewrite Hwr, Hw1. word.
    + intros E. rewrite Hd by lia. by apply Hd1.
    + intros Hgr. specialize (Hg Hgr). lia.
Qed.
End delivery.

(** ** Properties *)
Section measuring.
Context {C W : Type} (hal_monotonic_time_us : W -> W * Z) (x_inv : W -> Prop) (accepted : W -> list Z).
Hypothesis (Hclock : forall x, x_inv x ->
  x_inv (hal_monotonic_time_us x).1 /\ 0 <= (hal_monotonic_time_us x).2 < 2 ^ 62 /\
  accepted (hal_monotonic_time_us x).1 = accepted x).

(** Measuring only reads the clock. *)
Lemma measure_exact (p : eaf_sendspin_player_t C W) ts :
  x_inv (po_ctx (sp_out p)) -> filter_sane (ps_filter (sp_stream p)) ts ->
  exists x sync latency late, measure hal_monotonic_time_us ts p =
      Some (sp_set_out (po_set_ctx x (sp_out p)) (sp_set_stream (ps_set_sync sync latency (sp_stream p)) p), late) /\
    x_inv x /\ accepted x = accepted (po_ctx (sp_out p)).
Proof using Hclock.
  intros Hx Hsane. unfold measure. destruct (eaf_sendspin_time_synchronized _) eqn:Es; cbn [negb].
  2: { eexists (po_ctx (sp_out p)), _, _, _. split; [| done]. by destruct p as [? []]. }
  unfold now_us. simpl. destruct (Hclock _ Hx) as (Hx' & Ht & Ha).
  destruct (hal_monotonic_time_us _) as [x t]. simpl in *. change (2 ^ 62) with 4611686018427387904 in *.
  destruct (ps_filter (sp_stream p)) as [f|]; [| done]. destruct Hsane as (Hts & Hoff & Hdn & Hdb & Hlate).
  destruct (client_time_total f ts Hts Hoff Hdn Hdb) as (play & Hplay & Hr). specialize (Hlate _ Hplay).
  rewrite Hplay. cbn [mbind option_bind]. rewrite s64_small by (unfold is_s64; lia).
  unfold sub64. rewrite decide_True by (change (2 ^ 62) with 4611686018427387904 in *; unfold is_s64 in *; lia).
  cbn [mbind option_bind]. by eexists x, _, _, _.
Qed.
End measuring.


Definition log_sink (x : list Z * Z) (from : list Z) (n : Z) : ub ((list Z * Z) * Z) :=
  Some ((x.1 ++ slice from 0 (n * 2), x.2), n).
Definition mono_player : eaf_sendspin_player_t unit (list Z * Z) :=
  let o := PlayerOutput (Some log_sink) ([], 5) (d_of_Z 1) d_zero (replicate 260 0) 0 0 in
  SendspinPlayer (PlayerStream (Some synced_filter) (Types.Format 48000 2 3) 1 16 true false false false 0 0) o
    (SpDecoder None None None 0) (worker_zero o) rate_zero.

