(* ===== verification/SendspinClient.v ===== *)
(** The Sendspin client: [apps/sendspin/sendspin_client.c],
    [include/eaf/eaf_sendspin_client.h]: connection, WebSocket upgrade, handshake,
    clock exchanges and the dispatch of the server's messages.

    The transport and the clock are those of [Net]; the clock filter is the class
    [ClockFilter], which [TimeFilter] implements; the application's callbacks act on
    the world [W] and receive the message their views point into. *)

From stdpp Require Import strings.
From S2P Require Import Prelude Types Bytes Text Net WsEncode WsRx Json Messages Float TimeFilter.

Definition EAF_SENDPIN_RX_BYTES : Z := 4096.
Definition EAF_SENDPIN_MESSAGE_BYTES : Z := 8192.
Definition EAF_SENDPIN_JSON_BYTES : Z := 1024.
Definition EAF_SENDPIN_WIRE_BYTES : Z := 2048.
Definition EAF_SENDPIN_HTTP_BYTES : Z := 1024.
Definition EAF_SENDPIN_TIME_BURST_MS : Z := 200.
Definition EAF_SENDPIN_TIME_STEADY_MS : Z := 3000.

(** ** The clock filter the client relies on

    Undefined behaviour of a filter is carried by its own state, so that what the
    client does is told apart from what its filter does: [None] is a filter one of
    whose computations was undefined. *)
Class ClockFilter (F : Type) := {
  clock_init : F;                                     (* a zeroed filter, initialised *)
  clock_exchange : F -> Z -> Z -> Z -> Z -> F;
  clock_synchronized : F -> bool;
  clock_error : F -> F * Z
}.

#[export] Instance kalman_clock : ClockFilter (ub eaf_sendspin_time_filter_t) := {
  clock_init := Some (eaf_sendspin_time_filter_init filter_zero);
  clock_exchange f client_transmitted server_received server_transmitted client_received :=
    f ← f; filter_exchange f client_transmitted server_received server_transmitted client_received;
  clock_synchronized f := eaf_sendspin_time_synchronized f;
  clock_error f := match eaf_sendspin_time_error f with
                   | Some e => (f, e)
                   | None => (None, 0)
                   end
}.

(** ** State *)
Record eaf_sendspin_config_t := ClientConfig {
  cfg_client_id : ptr (list Z); cfg_name : ptr (list Z); cfg_product_name : ptr (list Z);
  cfg_manufacturer : ptr (list Z); cfg_software_version : ptr (list Z);
  cfg_formats : ptr (list eaf_sendspin_format_t); cfg_format_count : Z;
  cfg_rate : Z; cfg_channels : Z; cfg_depth : Z; cfg_buffer_capacity : Z;
  cfg_support_volume : bool; cfg_support_mute : bool;
  cfg_volume : Z; cfg_static_delay_ms : Z; cfg_required_lead_time_ms : Z; cfg_min_buffer_ms : Z
}.

(** The message, the view of it, the world. *)
Record eaf_sendspin_callbacks_t (W : Type) := ClientCallbacks {
  cb_ready : option (list Z -> eaf_sendspin_server_hello_t -> W -> W);
  cb_stream_start : option (list Z -> eaf_sendspin_stream_start_t -> W -> W);
  cb_audio : option (eaf_sendspin_stream_start_t -> Z -> list Z -> Z -> W -> W);
  cb_stream_end : option (bool -> W -> W);
  cb_stream_clear : option (bool -> W -> W);
  cb_group_update : option (list Z -> eaf_sendspin_group_update_t -> W -> W);
  cb_command : option (eaf_sendspin_server_command_t -> W -> W);
  cb_disconnected : option (W -> W)
}.
Arguments ClientCallbacks {W}. Arguments cb_ready {W}. Arguments cb_stream_start {W}. Arguments cb_audio {W}.
Arguments cb_stream_end {W}. Arguments cb_stream_clear {W}. Arguments cb_group_update {W}. Arguments cb_command {W}.
Arguments cb_disconnected {W}.

Inductive eaf_sendspin_client_state_t := EAF_SENDPIN_CLIENT_CLOSED | EAF_SENDPIN_CLIENT_HTTP | EAF_SENDPIN_CLIENT_WS.
#[export] Instance client_state_eq_dec : EqDecision eaf_sendspin_client_state_t.
Proof. solve_decision. Defined.

(** The connection, the transmit queue, and what the messages change. *)
Record client_link := Link {
  l_tcp : eaf_tcp_t; l_state : eaf_sendspin_client_state_t; l_handshaken : bool; l_notified : bool; l_stream_active : bool
}.
Record client_wire := Wire {
  w_json : list Z; w_wire : list Z; w_length : Z; w_offset : Z; w_prng : eaf_sendspin_ws_prng_t
}.
Record client_core (F W : Type) := Core {
  c_config : eaf_sendspin_config_t; c_callbacks : eaf_sendspin_callbacks_t W; c_world : W;
  c_link : client_link; c_wire : client_wire;
  c_filter : F; c_next_time_us : Z; c_stream : eaf_sendspin_stream_start_t
}.
Arguments Core {F W}. Arguments c_config {F W}. Arguments c_callbacks {F W}. Arguments c_world {F W}.
Arguments c_link {F W}. Arguments c_wire {F W}. Arguments c_filter {F W}. Arguments c_next_time_us {F W}.
Arguments c_stream {F W}.

(** The receiver and its buffers are not touched while messages are dispatched. *)
Record eaf_sendspin_client_t (F W : Type) := SendspinClient {
  sc_core : client_core F W;
  sc_rx : eaf_sendspin_ws_rx_t;      (* its message buffer is [message] *)
  sc_http : list Z;
  sc_http_used : Z;
  sc_rx_total : Z
}.
Arguments SendspinClient {F W}. Arguments sc_core {F W}. Arguments sc_rx {F W}. Arguments sc_http {F W}.
Arguments sc_http_used {F W}. Arguments sc_rx_total {F W}.

Definition stream_zero : eaf_sendspin_stream_start_t := StreamStart 0 EAF_SENDPIN_CODEC_UNKNOWN 0 0 0 None 0.
Definition hello_zero : eaf_sendspin_server_hello_t := ServerHello 0 false None 0 None 0 None 0.

(** ** Helpers *)
Definition big_endian_i64 (p : list Z) : ub Z :=
  v ← for_to 8 (fun i value => b ← ld p i; Some (Z.lor (u64 (Z.shiftl value 8)) b)) 0; Some (s64 v).

Fixpoint header_end_loop (n : nat) (buffer : list Z) (length i : Z) : ub bool :=
  match n with
  | O => Some false
  | S n =>
      if decide (i + 3 < length) then
        e ← memeq buffer i [13; 10; 13; 10];
        if e : bool then Some true else header_end_loop n buffer length (i + 1)
      else Some false
  end.
Definition find_header_end (buffer : list Z) (length : Z) : ub bool := header_end_loop (Z.to_nat length) buffer length 0.

(** One octet; [None] as the number is the early return. *)
Definition host_octet (capacity i octet : Z) (s : list Z * option Z) : ub (list Z * option Z) :=
  match s with
  | (out, None) => Some (out, None)
  | (out, Some used) =>
      '(out, used) ← (if decide (i = 0) then Some (out, Some used)
                      else if decide (used + 1 >= capacity) then Some (out, None)
                      else out ← st out used 46; Some (out, Some (used + 1)));
      match used with
      | None => Some (out, None)
      | Some used =>
          '(out, n) ← eaf_bytes_write_u64_dec out used (capacity - used) octet;
          Some (out, if decide (n = 0) then None else Some (used + n))
      end
  end.

Definition format_host (ipv4 port : Z) (out : list Z) (capacity : Z) : ub (list Z * Z) :=
  let octets := [u8 (Z.shiftr ipv4 24); u8 (Z.shiftr ipv4 16); u8 (Z.shiftr ipv4 8); u8 ipv4] in
  '(out, used) ← for_to 4 (fun i s => octet ← ld octets i; host_octet capacity i octet s) (out, Some 0);
  match used with
  | None => Some (out, EAF_INVALID)
  | Some used =>
      if decide (used + 1 >= capacity) then Some (out, EAF_INVALID)
      else
        out ← st out used 58;
        let used := used + 1 in
        '(out, n) ← eaf_bytes_write_u64_dec out used (capacity - used) port;
        if bool_decide (n = 0) || bool_decide (used + n >= capacity) then Some (out, EAF_INVALID)
        else out ← st out (used + n) 0; Some (out, EAF_OK)
  end.

Section client.
Context {F W : Type} `{ClockFilter F} `{NetHal W}.
Local Abbreviation core := (client_core F W).
Local Abbreviation client := (eaf_sendspin_client_t F W).

(** ** Updates *)
Definition c_set_config (x : eaf_sendspin_config_t) (c : core) : core :=
  Core x (c_callbacks c) (c_world c) (c_link c) (c_wire c) (c_filter c) (c_next_time_us c) (c_stream c).
Definition c_set_world (x : W) (c : core) : core :=
  Core (c_config c) (c_callbacks c) x (c_link c) (c_wire c) (c_filter c) (c_next_time_us c) (c_stream c).
Definition c_set_link (x : client_link) (c : core) : core :=
  Core (c_config c) (c_callbacks c) (c_world c) x (c_wire c) (c_filter c) (c_next_time_us c) (c_stream c).
Definition c_set_wire (x : client_wire) (c : core) : core :=
  Core (c_config c) (c_callbacks c) (c_world c) (c_link c) x (c_filter c) (c_next_time_us c) (c_stream c).
Definition c_set_clock (x : F) (t : Z) (c : core) : core :=
  Core (c_config c) (c_callbacks c) (c_world c) (c_link c) (c_wire c) x t (c_stream c).
Definition c_set_stream (x : eaf_sendspin_stream_start_t) (c : core) : core :=
  Core (c_config c) (c_callbacks c) (c_world c) (c_link c) (c_wire c) (c_filter c) (c_next_time_us c) x.

Definition set_json (j : list Z) (w : client_wire) : client_wire := Wire j (w_wire w) (w_length w) (w_offset w) (w_prng w).
Definition set_queue (b : list Z) (n o : Z) (w : client_wire) : client_wire := Wire (w_json w) b n o (w_prng w).
Definition set_prng (p : eaf_sendspin_ws_prng_t) (w : client_wire) : client_wire :=
  Wire (w_json w) (w_wire w) (w_length w) (w_offset w) p.
Definition set_tcp (t : eaf_tcp_t) (l : client_link) : client_link :=
  Link t (l_state l) (l_handshaken l) (l_notified l) (l_stream_active l).
Definition set_state (s : eaf_sendspin_client_state_t) (l : client_link) : client_link :=
  Link (l_tcp l) s (l_handshaken l) (l_notified l) (l_stream_active l).
Definition set_handshaken (b : bool) (l : client_link) : client_link :=
  Link (l_tcp l) (l_state l) b (l_notified l) (l_stream_active l).
Definition set_active (b : bool) (l : client_link) : client_link :=
  Link (l_tcp l) (l_state l) (l_handshaken l) (l_notified l) b.

(** A callback that may be NULL. *)
Definition call {X} (f : option X) (g : X -> W -> W) (c : core) : core :=
  match f with Some f => c_set_world (g f (c_world c)) c | None => c end.

Definition now_us (c : core) : core * Z := let '(w, t) := hal_monotonic_time_us (c_world c) in (c_set_world w c, t).

(** ** Transmission *)
Definition time_interval_ms (c : core) : core * Z :=
  if negb (clock_synchronized (c_filter c)) then (c, EAF_SENDPIN_TIME_BURST_MS)
  else
    let '(f, error) := clock_error (c_filter c) in
    (c_set_clock f (c_next_time_us c) c,
     if decide (error < 1000) then EAF_SENDPIN_TIME_STEADY_MS
     else if decide (error < 2000) then 1000
     else if decide (error < 5000) then 500
     else 200).

(** Make room by moving what is pending to the front. *)
Definition compact (needed : Z) (w : client_wire) : ub client_wire :=
  if bool_decide (w_offset w <> 0) && bool_decide (EAF_SENDPIN_WIRE_BYTES < w_length w + needed) then
    let pending := w_length w - w_offset w in
    b ← (if decide (pending <> 0) then moved ← ldn (w_wire w) (w_offset w) pending; stn (w_wire w) 0 moved
         else Some (w_wire w));
    Some (set_queue b pending 0 w)
  else Some w.

Definition queue_wire (opcode : Z) (payload : list Z) (length : Z) (w : client_wire) : ub (client_wire * Z) :=
  w ← compact (length + EAF_SENDPIN_WS_HEADER_MAX) w;
  let '(p, mask) := eaf_sendspin_ws_prng_next (w_prng w) in
  let w := set_prng p w in
  room ← ldn (w_wire w) (w_length w) (zlen (w_wire w) - w_length w);
  payload ← ldn payload 0 length;
  '(room, frame_length, rc) ←
    eaf_sendspin_ws_encode (Some room) (EAF_SENDPIN_WIRE_BYTES - w_length w) opcode (Some payload) length mask (Some 0);
  room ← room; frame_length ← frame_length;
  b ← stn (w_wire w) (w_length w) room;
  if negb (bool_decide (rc = 0)) then Some (set_queue b (w_length w) (w_offset w) w, EAF_INVALID)
  else Some (set_queue b (w_length w + frame_length) (w_offset w) w, EAF_OK).

Definition queue_frame (opcode : Z) (payload : list Z) (length : Z) (c : core) : ub (core * Z) :=
  '(w, rc) ← queue_wire opcode payload length (c_wire c); Some (c_set_wire w c, rc).
Definition queue_json (length : Z) (c : core) : ub (core * Z) := queue_frame EAF_SENDPIN_WS_TEXT (w_json (c_wire c)) length c.

(** Each round of [flush] sends at least a byte or returns. *)
Fixpoint flush_loop (fuel : nat) (c : core) : ub (core * Z) :=
  let w := c_wire c in
  if decide (w_length w <= w_offset w) then Some (c_set_wire (set_queue (w_wire w) 0 0 w) c, EAF_OK)
  else match fuel with
  | O => None
  | S fuel =>
      data ← ldn (w_wire w) (w_offset w) (w_length w - w_offset w);
      let '(t, x, sent, rc) := hal_tcp_send (l_tcp (c_link c)) data (c_world c) in
      let c := c_set_link (set_tcp t (c_link c)) (c_set_world x c) in
      let c := c_set_wire (set_queue (w_wire w) (w_length w) (w_offset w + sent) w) c in
      if decide (rc = EAF_AGAIN) then Some (c, EAF_AGAIN)
      else if decide (rc <> 0) then Some (c, rc)
      else if decide (sent = 0) then Some (c, EAF_AGAIN)
      else flush_loop fuel c
  end.
Definition flush (c : core) : ub (core * Z) :=
  flush_loop (Z.to_nat (w_length (c_wire c) - w_offset (c_wire c))) c.

Definition notify_closed (c : core) : core :=
  let l := c_link c in
  let c := if tcp_open (l_tcp l) then
             let '(t, x) := hal_tcp_close (l_tcp l) (c_world c) in c_set_link (set_tcp t l) (c_set_world x c)
           else c in
  let l := c_link c in
  let c := c_set_link (Link (l_tcp l) EAF_SENDPIN_CLIENT_CLOSED false true false) c in
  if l_notified l then c else call (cb_disconnected (c_callbacks c)) (fun f => f) c.

Definition fail (c : core) : core * Z := (notify_closed c, EAF_IO).

Definition send_time (c : core) : ub core :=
  let '(c, now) := now_us c in
  '(json, written, rc) ← eaf_sendspin_build_client_time (Some (w_json (c_wire c))) EAF_SENDPIN_JSON_BYTES (s64 now) (Some 0);
  json ← json; written ← written;
  let c := c_set_wire (set_json json (c_wire c)) c in
  c ← (if decide (rc = 0) then '(c, _) ← queue_json written c; Some c else Some c);
  let '(c, interval) := time_interval_ms c in
  Some (c_set_clock (c_filter c) (u64 (now + u64 (interval * 1000))) c).

(** ** Messages *)
Definition client_supports_codec (cfg : eaf_sendspin_config_t) (codec : eaf_sendspin_codec_t) : ub bool :=
  match cfg_formats cfg with
  | Some fs =>
      if decide (cfg_format_count cfg = 0) then Some (bool_decide (codec = EAF_SENDPIN_CODEC_PCM))
      else
        fs ← ldn fs 0 (cfg_format_count cfg);
        Some (existsb (fun f => bool_decide (Messages.codec f = codec)) fs)
  | None => Some (bool_decide (codec = EAF_SENDPIN_CODEC_PCM))
  end.

Definition player_state (cfg : eaf_sendspin_config_t) : eaf_sendspin_player_state_t :=
  PlayerState (cfg_volume cfg) false (cfg_static_delay_ms cfg) (cfg_required_lead_time_ms cfg) (cfg_min_buffer_ms cfg).

Definition on_server_hello (json : list Z) (length : Z) (c : core) : ub (core * Z) :=
  '(hello, rc) ← with_ref (eaf_sendspin_parse_server_hello (Some json) length) hello_zero;
  if decide (rc <> 0) then Some (c, EAF_INVALID)
  else if negb (player_active hello) then Some (c, EAF_UNSUPPORTED)
  else
    let c := call (cb_ready (c_callbacks c)) (fun f => f json hello) c in
    '(text, written, rc) ← eaf_sendspin_build_client_state (Some (w_json (c_wire c))) EAF_SENDPIN_JSON_BYTES
                             (Some (player_state (c_config c))) (Some 0);
    text ← text; written ← written;
    let c := c_set_wire (set_json text (c_wire c)) c in
    if decide (rc <> 0) then Some (c, EAF_INVALID)
    else
      '(c, rc) ← queue_json written c;
      if decide (rc <> 0) then Some (c, EAF_INVALID)
      else
        c ← send_time (c_set_link (set_handshaken true (c_link c)) c);
        Some (c, EAF_OK).

Definition on_server_time (json : list Z) (length : Z) (c : core) : ub (core * Z) :=
  '(t, rc) ← with_ref (eaf_sendspin_parse_server_time (Some json) length) (ServerTime 0 0 0);
  if decide (rc <> 0) then Some (c, EAF_INVALID)
  else
    let '(c, now) := now_us c in
    let f := clock_exchange (c_filter c) (client_transmitted t) (server_received t) (server_transmitted t) now in
    Some (c_set_clock f (c_next_time_us c) c, EAF_OK).

Definition on_stream_start (json : list Z) (length : Z) (c : core) : ub (core * Z) :=
  '(stream, rc) ← with_ref (eaf_sendspin_parse_stream_start (Some json) length) (c_stream c);
  let c := c_set_stream stream c in
  if decide (rc <> 0) then Some (c, EAF_INVALID)
  else
    ok ← client_supports_codec (c_config c) (start_codec stream);
    if negb ok then Some (c, EAF_UNSUPPORTED)
    else
      let c := c_set_link (set_active true (c_link c)) c in
      Some (call (cb_stream_start (c_callbacks c)) (fun f => f json stream) c, EAF_OK).

Definition on_stream_clear (json : list Z) (length : Z) (c : core) : ub (core * Z) :=
  '(roles, rc) ← get_value json length "payload.roles";
  player ← (if decide (rc = 0) then
              n ← eaf_sendspin_json_array_contains json (Some roles) (path_of "player"); Some (negb (bool_decide (n = 0)))
            else Some true);
  Some (call (cb_stream_clear (c_callbacks c)) (fun f => f player) c, EAF_OK).

Definition on_stream_end (json : list Z) (length : Z) (c : core) : ub (core * Z) :=
  '(e, rc) ← with_ref (eaf_sendspin_parse_stream_end (Some json) length) (StreamEnd 0 false);
  if decide (rc <> 0) then Some (c, EAF_INVALID)
  else
    let c := c_set_link (set_active false (c_link c)) c in
    Some (call (cb_stream_end (c_callbacks c)) (fun f => f (end_player e)) c, EAF_OK).

Definition on_group_update (json : list Z) (length : Z) (c : core) : ub (core * Z) :=
  '(g, rc) ← with_ref (eaf_sendspin_parse_group_update (Some json) length) (GroupUpdate None 0 None 0);
  if decide (rc <> 0) then Some (c, EAF_INVALID)
  else Some (call (cb_group_update (c_callbacks c)) (fun f => f json g) c, EAF_OK).

Definition set_delay (ms : Z) (x : eaf_sendspin_config_t) : eaf_sendspin_config_t :=
  ClientConfig (cfg_client_id x) (cfg_name x) (cfg_product_name x) (cfg_manufacturer x) (cfg_software_version x)
    (cfg_formats x) (cfg_format_count x) (cfg_rate x) (cfg_channels x) (cfg_depth x) (cfg_buffer_capacity x)
    (cfg_support_volume x) (cfg_support_mute x) (cfg_volume x) ms (cfg_required_lead_time_ms x) (cfg_min_buffer_ms x).

Definition on_server_command (json : list Z) (length : Z) (c : core) : ub (core * Z) :=
  '(m, rc) ← with_ref (eaf_sendspin_parse_server_command (Some json) length)
               (ServerCommand EAF_SENDPIN_COMMAND_UNKNOWN 0 false 0);
  if decide (rc <> 0) then Some (c, EAF_INVALID)
  else
    let c := match command m with
             | EAF_SENDPIN_COMMAND_SET_STATIC_DELAY =>
                 if decide (0 <= command_delay_ms m) then c_set_config (set_delay (command_delay_ms m) (c_config c)) c else c
             | _ => c
             end in
    Some (call (cb_command (c_callbacks c)) (fun f => f m) c, EAF_OK).

(** The handlers by the message's type, in the order of the comparisons. *)
Definition handlers : list (string * (list Z -> Z -> core -> ub (core * Z))) :=
  [("server/hello"%string, on_server_hello); ("server/time"%string, on_server_time); ("stream/start"%string, on_stream_start);
   ("stream/clear"%string, on_stream_clear); ("stream/end"%string, on_stream_end); ("group/update"%string, on_group_update);
   ("server/command"%string, on_server_command)].

Fixpoint dispatch_type (hs : list (string * (list Z -> Z -> core -> ub (core * Z)))) (type : eaf_sendspin_json_value_t)
    (json : list Z) (length : Z) (c : core) : ub (core * Z) :=
  match hs with
  | [] => Some (c, EAF_OK)
  | (name, handler) :: hs =>
      e ← eaf_sendspin_json_string_equals json (Some type) name;
      if e : bool then handler json length c else dispatch_type hs type json length c
  end.

Definition dispatch_text (json : list Z) (length : Z) (c : core) : ub (core * Z) :=
  '(type, rc) ← get_value json length "type";
  if bool_decide (rc <> 0) || negb (is_string type) then Some (c, EAF_OK)
  else dispatch_type handlers type json length c.

Definition on_binary (payload : list Z) (length : Z) (c : core) : ub (core * Z) :=
  if decide (length < 9) then Some (c, EAF_OK)
  else
    kind ← ld payload 0;
    if decide (kind <> 4) then Some (c, EAF_OK)
    else
      stamp ← ldn payload 1 (zlen payload - 1); timestamp ← big_endian_i64 stamp;
      pcm ← ldn payload 9 (zlen payload - 9);
      Some (call (cb_audio (c_callbacks c)) (fun f => f (c_stream c) timestamp pcm (length - 9)) c, EAF_OK).

Definition on_message (c : core) (opcode : Z) (payload : list Z) (length : Z) : ub (core * Z) :=
  if decide (opcode = EAF_SENDPIN_WS_PING) then
    '(c, rc) ← queue_frame EAF_SENDPIN_WS_PONG payload length c;
    Some (c, if decide (rc = 0) then EAF_OK else EAF_INVALID)
  else if decide (opcode = EAF_SENDPIN_WS_PONG) then Some (c, EAF_OK)
  else if decide (opcode = EAF_SENDPIN_WS_CLOSE) then Some (notify_closed c, EAF_OK)
  else if decide (opcode = EAF_SENDPIN_WS_TEXT) then dispatch_text payload length c
  else if decide (opcode = EAF_SENDPIN_WS_BINARY) then on_binary payload length c
  else Some (c, EAF_OK).

(** The receiver's callback: undefined behaviour of a handler is carried to the
    end of the call. *)
Definition message_callback (c : ub core) (opcode : Z) (payload : list Z) (length : Z) : ub core * Z :=
  match c with
  | None => (None, EAF_INVALID)
  | Some c =>
      match on_message c opcode payload length with
      | None => (None, EAF_INVALID)
      | Some (c, rc) => (Some c, rc)
      end
  end.

(** ** The interface *)
Definition set_core (x : core) (c : client) : client :=
  SendspinClient x (sc_rx c) (sc_http c) (sc_http_used c) (sc_rx_total c).
Definition set_rx (x : eaf_sendspin_ws_rx_t) (c : client) : client :=
  SendspinClient (sc_core c) x (sc_http c) (sc_http_used c) (sc_rx_total c).
Definition set_http (b : list Z) (n : Z) (c : client) : client :=
  SendspinClient (sc_core c) (sc_rx c) b n (sc_rx_total c).
Definition set_total (n : Z) (c : client) : client :=
  SendspinClient (sc_core c) (sc_rx c) (sc_http c) (sc_http_used c) n.

Definition no_callbacks : eaf_sendspin_callbacks_t W := ClientCallbacks None None None None None None None None.
Definition zeros (n : Z) : list Z := replicate (Z.to_nat n) 0.

(** [w] is the world behind [ctx], the sockets and the clock. *)
Definition eaf_sendspin_client_init (config : eaf_sendspin_config_t) (callbacks : ptr (eaf_sendspin_callbacks_t W)) (w : W) : client :=
  SendspinClient
    (Core config (default no_callbacks callbacks) w (Link (Tcp 0 false) EAF_SENDPIN_CLIENT_CLOSED false false false)
       (Wire (zeros EAF_SENDPIN_JSON_BYTES) (zeros EAF_SENDPIN_WIRE_BYTES) 0 0 (Prng 0)) clock_init 0 stream_zero)
    (eaf_sendspin_ws_rx_init (Some (zeros EAF_SENDPIN_MESSAGE_BYTES)) EAF_SENDPIN_MESSAGE_BYTES)
    (zeros EAF_SENDPIN_HTTP_BYTES) 0 0.

(** [fail] on the whole client. *)
Definition failed (c : client) : client * Z := (set_core (fail (sc_core c)).1 c, (fail (sc_core c)).2).

Definition connect (ipv4 port timeout_ms : Z) (c : client) : ub (client * Z) :=
  if negb (bool_decide (l_state (c_link (sc_core c)) = EAF_SENDPIN_CLIENT_CLOSED)) || tcp_open (l_tcp (c_link (sc_core c)))
  then Some (c, EAF_INVALID)
  else
    let '(k, now) := now_us (sc_core c) in
    '(p, key) ← eaf_sendspin_ws_client_key (eaf_sendspin_ws_prng_init (u32 now)) (zeros 25);
    let k := c_set_wire (set_prng p (c_wire k)) k in
    '(host, rc) ← format_host ipv4 port (zeros 32) 32;
    if decide (rc <> 0) then Some (set_core k c, EAF_INVALID)
    else
      let '(t, x, rc) := hal_tcp_connect (l_tcp (c_link k)) ipv4 port timeout_ms (c_world k) in
      let k := c_set_link (set_tcp t (c_link k)) (c_set_world x k) in
      if decide (rc <> 0) then Some (set_core k c, rc)
      else
        '(b, written, rc) ← eaf_sendspin_ws_build_upgrade (Some (w_wire (c_wire k))) EAF_SENDPIN_WIRE_BYTES (Some host)
                              (path_of "/sendspin") (Some key) (Some 0);
        b ← b; written ← written;
        let w := c_wire k in
        if decide (rc <> 0) then Some (failed (set_core (c_set_wire (set_queue b (w_length w) (w_offset w) w) k) c))
        else
          let l := c_link k in
          let k := c_set_wire (set_queue b written 0 w) k in
          let k := c_set_link (Link (l_tcp l) EAF_SENDPIN_CLIENT_HTTP (l_handshaken l) false (l_stream_active l)) k in
          Some (set_http (sc_http c) 0 (set_core k c), EAF_OK).

Definition eaf_sendspin_client_connect (c : ptr client) (ipv4 port timeout_ms : Z) : ub (ptr client * Z) :=
  on_ptr c EAF_INVALID (connect ipv4 port timeout_ms).

Definition client_hello (cfg : eaf_sendspin_config_t) : eaf_sendspin_client_hello_t :=
  ClientHello (cfg_client_id cfg) (cfg_name cfg) (cfg_product_name cfg) (cfg_manufacturer cfg) (cfg_software_version cfg)
    (cfg_formats cfg) (cfg_format_count cfg) (cfg_rate cfg) (cfg_channels cfg) (cfg_depth cfg) (cfg_buffer_capacity cfg)
    (cfg_support_volume cfg) (cfg_support_mute cfg).

(** Receive into a buffer with [room]: the client, the bytes and the code. *)
Definition receive (room : Z) (k : core) : core * list Z * Z :=
  let '(t, x, data, rc) := hal_tcp_recv (l_tcp (c_link k)) room (c_world k) in
  (c_set_link (set_tcp t (c_link k)) (c_set_world x k), data, rc).

(** Lines 315-333: the hello after the upgrade. *)
Definition send_hello (c : client) : ub (client * Z) :=
  let k := sc_core c in
  '(json, written, rc) ← eaf_sendspin_build_client_hello (Some (w_json (c_wire k))) EAF_SENDPIN_JSON_BYTES
                           (Some (client_hello (c_config k))) (Some 0);
  json ← json; written ← written;
  let k := c_set_wire (set_json json (c_wire k)) k in
  if decide (rc <> 0) then Some (failed (set_core k c))
  else
    '(k, rc) ← queue_json written k;
    if decide (rc <> 0) then Some (failed (set_core k c))
    else Some (set_core (c_set_link (set_state EAF_SENDPIN_CLIENT_WS (c_link k)) k) c, EAF_OK).

Definition step_http (c : client) : ub (client * Z) :=
  let '(k, data, rc) := receive (EAF_SENDPIN_HTTP_BYTES - sc_http_used c) (sc_core c) in
  let c := set_core k c in
  if decide (rc = EAF_AGAIN) then Some (c, EAF_OK)
  else if decide (rc <> 0) then Some (failed c)
  else
    http ← stn (sc_http c) (sc_http_used c) data;
    let c := set_http http (sc_http_used c + zlen data) c in
    done ← find_header_end (sc_http c) (sc_http_used c);
    if negb done then
      if decide (sc_http_used c = EAF_SENDPIN_HTTP_BYTES) then Some (failed c) else Some (c, EAF_OK)
    else
      rc ← eaf_sendspin_ws_check_upgrade_response (Some (sc_http c)) (sc_http_used c);
      if decide (rc <> 0) then Some (failed c) else send_hello c.

Definition step_ws (c : client) : ub (client * Z) :=
  let '(k, now) := now_us (sc_core c) in
  k ← (if l_handshaken (c_link k) && bool_decide (c_next_time_us k <= now) then send_time k else Some k);
  let '(k, data, rc) := receive EAF_SENDPIN_RX_BYTES k in
  let c := set_core k c in
  if decide (rc = EAF_AGAIN) then Some (c, EAF_OK)
  else if decide (rc <> 0) then Some (failed c)
  else
    let c := set_total (u64 (sc_rx_total c + zlen data)) c in
    '(rx, (k, rc)) ← eaf_sendspin_ws_rx_feed (Some message_callback) (Some (sc_rx c)) (Some data) (zlen data) (Some k);
    rx ← rx; k ← k;
    let c := set_core k (set_rx rx c) in
    if decide (rc <> 0) then Some (failed c) else Some (c, EAF_OK).

Definition step (c : client) : ub (client * Z) :=
  if decide (l_state (c_link (sc_core c)) = EAF_SENDPIN_CLIENT_CLOSED) then Some (c, EAF_STATE)
  else
    '(k, rc) ← flush (sc_core c);
    let c := set_core k c in
    if decide (rc = EAF_AGAIN) then Some (c, EAF_OK)
    else if decide (rc <> 0) then Some (failed c)
    else if decide (l_state (c_link k) = EAF_SENDPIN_CLIENT_HTTP) then step_http c
    else step_ws c.

Definition eaf_sendspin_client_step (c : ptr client) : ub (ptr client * Z) := on_ptr c EAF_STATE step.

Definition eaf_sendspin_client_close (c : client) : client := set_core (notify_closed (sc_core c)) c.

Definition eaf_sendspin_client_ready (c : ptr client) : bool :=
  match c with Some c => l_handshaken (c_link (sc_core c)) | None => false end.
Definition eaf_sendspin_client_time_synchronized (c : ptr client) : bool :=
  match c with Some c => clock_synchronized (c_filter (sc_core c)) | None => false end.
End client.
