(* ===== verification/SendspinHost.v ===== *)
(** The texts of the Sendspin upgrade: the "Host" value [format_host] writes, the key
    as a C string, and the request built from them. *)

From stdpp Require Import strings.
From S2P Require Import Prelude Types Ring Bytes Text Net WsEncode WsRx Json Messages Float TimeFilter SendspinClient.

(** ** The host *)

(** The dotted address and the port. *)
Definition octet_text (i octet : Z) : list Z := (if decide (i = 0) then [] else [46]) ++ decimal octet.
Definition octets (ipv4 : Z) : list Z := [u8 (Z.shiftr ipv4 24); u8 (Z.shiftr ipv4 16); u8 (Z.shiftr ipv4 8); u8 ipv4].
Definition host_text (ipv4 port : Z) : list Z :=
  concat (imap (fun i o => octet_text (Z.of_nat i) o) (octets ipv4)) ++ [58] ++ decimal port.

Lemma lsd_short k m v : 0 <= v < 10 ^ Z.of_nat (S k) -> (length (lsd_digits m v) <= S k)%nat.
Proof.
  revert m v. induction k as [|k IH]; intros [|m] v Hv; cbn [lsd_digits length]; try lia.
  - change (10 ^ Z.of_nat 1) with 10 in Hv. rewrite decide_True by word. done.
  - case_decide; [simpl; lia |]. pose proof (IH m (v / 10) (lsd_step _ _ Hv)). lia.
Qed.

Lemma decimal_short k v : 0 <= v < 10 ^ Z.of_nat (S k) -> 1 <= zlen (decimal v) <= Z.of_nat (S k).
Proof.
  intros Hv. split; [by apply decimal_length |]. unfold decimal, zlen. rewrite length_rev. pose proof (lsd_short k 20 v Hv). lia.
Qed.

Lemma octet_text_len i o : is_u8 o -> 1 <= zlen (octet_text i o) <= 4.
Proof.
  intros Ho. pose proof (decimal_short 2 o ltac:(change (10 ^ Z.of_nat 3) with 1000; unfold is_u8 in Ho; lia)).
  unfold octet_text. case_decide; rewrite zlen_app; change (zlen [46]) with 1; rewrite ?zlen_nil; lia.
Qed.

(** One round writes one octet after what is there. *)
Lemma host_octet_eq d i o pre :
  is_u8 o -> zlen d = 32 -> 0 <= i -> zlen pre + 4 <= 31 ->
  host_octet 32 i o (splice d 0 pre, Some (zlen pre)) =
    Some (splice d 0 (pre ++ octet_text i o), Some (zlen (pre ++ octet_text i o))).
Proof.
  intros Ho Hd Hi Hp. pose proof (zlen_nonneg pre). pose proof (octet_text_len i o Ho) as Hl. unfold host_octet.
  assert (Hz : zlen (splice d 0 pre) = 32) by (rewrite zlen_splice; lia).
  set (dot := if decide (i = 0) then [] else [46]).
  assert (Hdot : zlen dot <= 1) by (unfold dot; case_decide; done). pose proof (zlen_nonneg dot).
  assert (E : (if decide (i = 0) then Some (splice d 0 pre, Some (zlen pre))
     else if decide (zlen pre + 1 >= 32) then Some (splice d 0 pre, None)
     else out ← st (splice d 0 pre) (zlen pre) 46; Some (out, Some (zlen pre + 1))) =
    Some (splice d 0 (pre ++ dot), Some (zlen (pre ++ dot)))).
  { unfold dot. case_decide; [by rewrite app_nil_r |]. rewrite decide_False by lia.
    rewrite <- (Z.add_0_l (zlen pre)), st_snoc by lia. cbn [mbind option_bind]. rewrite zlen_app. done. }
  rewrite E. cbn [mbind option_bind]. rewrite zlen_app in *.
  pose proof (decimal_short 2 o ltac:(change (10 ^ Z.of_nat 3) with 1000; unfold is_u8 in Ho; lia)) as Hdig.
  rewrite write_u64_dec_spec by (unfold is_u8, is_u64 in *; rewrite ?zlen_splice; rewrite ?zlen_app; lia).
  rewrite decide_False by lia. cbn [mbind option_bind]. rewrite decide_False by lia.
  pose proof (splice_app d (pre ++ dot) (decimal o) 0) as Ha. rewrite Z.add_0_l, zlen_app in Ha. rewrite Ha by lia.
  unfold octet_text. fold dot. rewrite <- app_assoc, !zlen_app. by rewrite <- !Z.add_assoc.
Qed.

Lemma octet_range v : is_u8 (u8 v).
Proof. apply u8_range. Qed.

(** The buffer of 32 cells is always large enough. *)
Lemma format_host_eq ipv4 port d :
  0 <= port < 65536 -> zlen d = 32 ->
  format_host ipv4 port d 32 = Some (splice d 0 (host_text ipv4 port ++ [0]), EAF_OK).
Proof.
  intros Hp Hd. unfold format_host, for_to. change (Z.to_nat 4) with 4%nat. cbn [for_from].
  fold (octets ipv4). set (o := octets ipv4). assert (Ho : Forall is_u8 o) by (repeat constructor; apply u8_range).
  assert (Hld : exists a b c e, o = [a; b; c; e]) by (by eexists _, _, _, _). destruct Hld as (a & b & c & e & Eo).
  assert (Hh : host_text ipv4 port = (((octet_text 0 a ++ octet_text 1 b) ++ octet_text 2 c) ++ octet_text 3 e) ++ [58] ++ decimal port).
  { unfold host_text. fold o. rewrite Eo.
    change (imap (fun i o => octet_text (Z.of_nat i) o) [a; b; c; e]) with [octet_text 0 a; octet_text 1 b; octet_text 2 c; octet_text 3 e].
    cbn [concat]. rewrite app_nil_r, <- !app_assoc. done. }
  rewrite Hh. clear Hh. clearbody o. subst o.
  repeat (apply List.Forall_cons_iff in Ho as [? Ho]). clear Ho.
  pose proof (octet_text_len 0 a ltac:(done)) as La. pose proof (octet_text_len 1 b ltac:(done)) as Lb.
  pose proof (octet_text_len 2 c ltac:(done)) as Lc. pose proof (octet_text_len 3 e ltac:(done)) as Le.
  change (ld [a; b; c; e] 0) with (Some a). change (ld [a; b; c; e] (0 + 1)) with (Some b).
  change (ld [a; b; c; e] (0 + 1 + 1)) with (Some c). change (ld [a; b; c; e] (0 + 1 + 1 + 1)) with (Some e).
  change (0 + 1 + 1 + 1) with 3. change (0 + 1 + 1) with 2. change (0 + 1) with 1. cbn [mbind option_bind].
  pose proof (host_octet_eq d 0 a [] ltac:(done) Hd ltac:(lia) ltac:(rewrite zlen_nil; lia)) as E0.
  rewrite splice_nil in E0. change (zlen []) with 0 in E0. rewrite E0. cbn [mbind option_bind app].
  rewrite (host_octet_eq d 1 b) by (done || lia). cbn [mbind option_bind].
  rewrite (host_octet_eq d 2 c) by (done || lia || (rewrite zlen_app; lia)). cbn [mbind option_bind].
  rewrite (host_octet_eq d 3 e) by (done || lia || (rewrite !zlen_app; lia)). cbn [mbind option_bind].
  set (pre := ((octet_text 0 a ++ octet_text 1 b) ++ octet_text 2 c) ++ octet_text 3 e).
  assert (Hpre : 4 <= zlen pre <= 16) by (unfold pre; rewrite !zlen_app; lia). clearbody pre.
  rewrite decide_False by lia. rewrite <- (Z.add_0_l (zlen pre)) at 1. rewrite st_snoc by lia. cbn [mbind option_bind].
  pose proof (decimal_short 4 port ltac:(change (10 ^ Z.of_nat 5) with 100000; lia)) as Hdig.
  assert (Hz1 : zlen (pre ++ [58]) = zlen pre + 1) by (rewrite zlen_app; done).
  rewrite write_u64_dec_spec by (unfold is_u64; rewrite ?zlen_splice by lia; lia).
  rewrite decide_False by lia. cbn [mbind option_bind]. rewrite !bool_decide_eq_false_2 by lia. cbn [orb].
  rewrite <- Hz1. pose proof (splice_app d (pre ++ [58]) (decimal port) 0) as Ha. rewrite Z.add_0_l in Ha. rewrite Ha by lia.
  rewrite <- app_assoc. set (t := pre ++ [58] ++ decimal port).
  assert (Hzt : zlen (pre ++ [58]) + zlen (decimal port) = 0 + zlen t) by (unfold t; rewrite !zlen_app; change (zlen [58]) with 1; lia).
  rewrite Hzt. assert (zlen t <= 22) by lia. rewrite st_snoc by lia. done.
Qed.

(** ** C strings *)

Lemma lsd_nonzero k v : 0 <= v -> Forall (fun c => c <> 0) (lsd_digits k v).
Proof.
  revert v. induction k as [|k IH]; intros v Hv; cbn [lsd_digits]; constructor.
  - pose proof (Z.mod_pos_bound v 10 ltac:(lia)). lia.
  - case_decide; [constructor |]. apply IH. apply Z.div_pos; lia.
Qed.
Lemma decimal_nonzero v : 0 <= v -> Forall (fun c => c <> 0) (decimal v).
Proof. intros. unfold decimal. by apply Forall_rev, lsd_nonzero. Qed.

Lemma host_nonzero ipv4 port : 0 <= port -> Forall (fun c => c <> 0) (host_text ipv4 port).
Proof.
  intros Hp. assert (Ho : forall i v, Forall (fun c => c <> 0) (octet_text i (u8 v))).
  { intros i v. unfold octet_text. pose proof (u8_range v) as [? _].
    apply Forall_app. split; [case_decide; by repeat constructor | by apply decimal_nonzero]. }
  unfold host_text. set (o := octets ipv4).
  change (imap (fun i v => octet_text (Z.of_nat i) v) o) with
    [octet_text 0 (u8 (Z.shiftr ipv4 24)); octet_text 1 (u8 (Z.shiftr ipv4 16)); octet_text 2 (u8 (Z.shiftr ipv4 8)); octet_text 3 (u8 ipv4)].
  cbn [concat]. repeat first [apply Ho | by apply decimal_nonzero | apply Forall_nil; done | apply Forall_app; split | by repeat constructor].
Qed.

Lemma host_c_string ipv4 port d : 0 <= port < 65536 -> zlen d = 32 -> c_string (host_text ipv4 port) (splice d 0 (host_text ipv4 port ++ [0])).
Proof.
  intros Hp Hd. split; [apply host_nonzero; lia |]. unfold splice. eexists. cbn [Z.to_nat take app]. by rewrite <- app_assoc.
Qed.

Lemma b64_char_nonzero i : 0 <= i < 64 -> b64_char i <> 0.
Proof.
  intros Hi. apply (check_range (fun i => negb (b64_char i =? 0)) 0 64) in Hi; [lia |]. vm_compute. reflexivity.
Qed.

Lemma b64_nonzero bytes : Forall is_u8 bytes -> Forall (fun c => c <> 0) (b64_encode bytes).
Proof.
  remember (length bytes) as n eqn:En. revert bytes En. induction n as [n IH] using lt_wf_ind. intros bytes -> Hb.
  destruct bytes as [|b0 [|b1 [|b2 rest]]]; cbn [b64_encode]; [constructor | | |].
  - apply List.Forall_cons_iff in Hb as [H0 _]. unfold is_u8 in *. repeat constructor; try (apply b64_char_nonzero; word); done.
  - apply List.Forall_cons_iff in Hb as [H0 Hb]. apply List.Forall_cons_iff in Hb as [H1 _]. unfold is_u8 in *.
    repeat constructor; try (apply b64_char_nonzero; word); done.
  - apply List.Forall_cons_iff in Hb as [H0 Hb]. apply List.Forall_cons_iff in Hb as [H1 Hb]. apply List.Forall_cons_iff in Hb as [H2 Hb].
    unfold is_u8 in H0, H1, H2. apply Forall_app. split; [repeat constructor; apply b64_char_nonzero; word |].
    apply (IH (length rest)); [simpl; lia | done | done].
Qed.

Lemma key_c_string p out : 25 <= zlen out ->
  exists p' key k, eaf_sendspin_ws_client_key p out = Some (p', k) /\ key = b64_encode (concat (le4 <$> outputs 4 p)) /\
    c_string key k /\ zlen k = zlen out.
Proof.
  intros Hz. destruct (client_key_spec p out Hz) as [p' Hrun]. exists p'. eexists _, _. split; [exact Hrun |]. split; [done |].
  assert (Hw : Forall is_u8 (concat (le4 <$> outputs 4 p))).
  { apply List.Forall_concat, Forall_fmap. apply List.Forall_forall. intros r _. apply le4_u8. }
  assert (Hn : zlen (b64_encode (concat (le4 <$> outputs 4 p)) ++ [0]) = 25).
  { cbn [outputs]. repeat (destruct (eaf_sendspin_ws_prng_next _) as [? ?]). done. }
  split.
  - split; [by apply b64_nonzero |]. unfold splice. eexists. cbn [Z.to_nat take app]. by rewrite <- app_assoc.
  - rewrite zlen_splice by lia. done.
Qed.

(** ** The request *)

Lemma host_len ipv4 port : 0 <= port < 65536 -> zlen (host_text ipv4 port) <= 22.
Proof.
  intros Hp. unfold host_text. set (o := octets ipv4).
  change (imap (fun i v => octet_text (Z.of_nat i) v) o) with
    [octet_text 0 (u8 (Z.shiftr ipv4 24)); octet_text 1 (u8 (Z.shiftr ipv4 16)); octet_text 2 (u8 (Z.shiftr ipv4 8)); octet_text 3 (u8 ipv4)].
  cbn [concat]. rewrite app_nil_r, !zlen_app. change (zlen [58]) with 1.
  pose proof (octet_text_len 0 _ (u8_range (Z.shiftr ipv4 24))). pose proof (octet_text_len 1 _ (u8_range (Z.shiftr ipv4 16))).
  pose proof (octet_text_len 2 _ (u8_range (Z.shiftr ipv4 8))). pose proof (octet_text_len 3 _ (u8_range ipv4)).
  pose proof (decimal_short 4 port ltac:(change (10 ^ Z.of_nat 5) with 100000; lia)). lia.
Qed.

Lemma request_len host path key : zlen (upgrade_request host path key) <= zlen host + zlen path + zlen key + 200.
Proof.
  unfold upgrade_request. rewrite ?zlen_app.
  repeat match goal with |- context [zlen (chars ?s)] => let n := eval vm_compute in (zlen (chars s)) in change (zlen (chars s)) with n end.
  change (zlen crlf) with 2. lia.
Qed.
