(* ===== verification/SendspinClientSafe.v ===== *)
(** Invariants of the Sendspin client: for any transport, clock and clock filter,
    any application and any server, no call leaves an array or the defined
    behaviour, and a stream is only active in a codec the client advertises. *)

From stdpp Require Import strings.
From S2P Require Import Prelude Types Bytes Text Net WsEncode WsRx WsDeliver Json JsonRender Messages MessageSafe Float.
From S2P Require Import TimeFilter SendspinClient SendspinHost.

(** ** Contracts *)

(** The application's configuration: C strings, and a format list as long as it says. *)
Definition config_ok (cfg : eaf_sendspin_config_t) : Prop :=
  hello_ok (client_hello cfg) /\
  Forall (fun s => match s with Some s => terminated s | None => True end) [cfg_client_id cfg; cfg_name cfg] /\
  Forall is_s32 [cfg_volume cfg; cfg_static_delay_ms cfg; cfg_required_lead_time_ms cfg; cfg_min_buffer_ms cfg].

Definition wire_ok (w : client_wire) : Prop :=
  zlen (w_json w) = EAF_SENDPIN_JSON_BYTES /\ zlen (w_wire w) = EAF_SENDPIN_WIRE_BYTES /\
  0 <= w_offset w <= w_length w /\ w_length w <= EAF_SENDPIN_WIRE_BYTES.

(** ** Transmission *)

Lemma wire_fresh w b n :
  zlen (w_json w) = EAF_SENDPIN_JSON_BYTES -> zlen b = EAF_SENDPIN_WIRE_BYTES -> 0 <= n <= EAF_SENDPIN_WIRE_BYTES -> wire_ok (set_queue b n 0 w).
Proof. intros Hj Hb Hn. unfold wire_ok. cbn [set_queue w_json w_wire w_offset w_length]. split_and!; done || lia. Qed.

Lemma compact_safe needed w : wire_ok w -> exists w', compact needed w = Some w' /\ wire_ok w' /\ w_json w' = w_json w.
Proof.
  intros (Hj & Hw & Ho & Hl). unfold EAF_SENDPIN_WIRE_BYTES in *. unfold compact. destruct (_ && _); [| by exists w].
  destruct (decide (w_length w - w_offset w <> 0)) as [Hp|E].
  - rewrite ldn_eq by lia. cbn [mbind option_bind]. rewrite stn_eq by (rewrite ?zlen_slice; lia). cbn [mbind option_bind].
    eexists. split; [done |]. split; [| done]. unfold wire_ok, EAF_SENDPIN_WIRE_BYTES. cbn.
    rewrite zlen_splice by (rewrite ?zlen_slice; lia). split_and!; done || lia.
  - cbn [mbind option_bind]. eexists. split; [done |]. split; [| done]. unfold wire_ok, EAF_SENDPIN_WIRE_BYTES. cbn. split_and!; done || lia.
Qed.

Lemma queue_wire_safe op payload n w :
  wire_ok w -> 0 <= n <= zlen payload -> exists w' rc, queue_wire op payload n w = Some (w', rc) /\ wire_ok w' /\ w_json w' = w_json w.
Proof.
  intros Hok Hn. unfold queue_wire. destruct (compact_safe (n + EAF_SENDPIN_WS_HEADER_MAX) w Hok) as (w1 & -> & (Hj & Hw & Ho & Hl) & Hjs).
  cbn [mbind option_bind]. destruct (eaf_sendspin_ws_prng_next (w_prng w1)) as [p mask]. cbn [set_prng w_wire w_length w_offset].
  unfold EAF_SENDPIN_WIRE_BYTES in *. rewrite (ldn_eq (w_wire w1)) by lia. cbn [mbind option_bind]. rewrite ldn_eq by lia. cbn [mbind option_bind].
  assert (Hz : zlen (slice payload 0 n) = n) by (rewrite zlen_slice; lia).
  assert (Hr : zlen (slice (w_wire w1) (w_length w1) (zlen (w_wire w1) - w_length w1)) = 2048 - w_length w1) by (rewrite zlen_slice; lia).
  destruct (ws_encode_safe (slice (w_wire w1) (w_length w1) (zlen (w_wire w1) - w_length w1)) (2048 - w_length w1) op (slice payload 0 n) mask 0)
    as (d' & n' & rc & Hrun & Hd & Hrc); [lia |]. rewrite Hz in Hrun. rewrite Hrun. cbn [mbind option_bind].
  rewrite stn_eq by lia. cbn [mbind option_bind].
  assert (Hsp : zlen (splice (w_wire w1) (w_length w1) d') = 2048) by (rewrite zlen_splice; lia).
  destruct (negb _) eqn:Erc; (eexists _, _; split; [done |]; split; [| done]); unfold wire_ok, EAF_SENDPIN_WIRE_BYTES; cbn.
  - split_and!; done || lia.
  - destruct Hrc as [[_ Hn']| ->]; [| done]. split_and!; done || lia.
Qed.

Section safe.
Context {F W : Type} `{ClockFilter F} `{NetHalLaws W}.
Implicit Types c : client_core F W.

(** A connection's end is still to be announced as long as it is not closed. *)
Definition link_ok (l : client_link) : Prop := l_state l <> EAF_SENDPIN_CLIENT_CLOSED -> l_notified l = false.

Record core_inv c : Prop := { k_config : config_ok (c_config c); k_wire : wire_ok (c_wire c); k_link : link_ok (c_link c) }.

(** Only a codec the client advertises is played. *)
Definition admitted c : Prop :=
  l_stream_active (c_link c) = true -> client_supports_codec (c_config c) (start_codec (c_stream c)) = Some true.

(** A call returns and keeps the invariant; if it accepts, it keeps the admission too. *)
Definition keeps (r : ub (client_core F W * Z)) : Prop :=
  exists c' rc, r = Some (c', rc) /\ core_inv c' /\ (rc = EAF_OK -> admitted c').

Lemma keeps_ret c rc : core_inv c -> (rc = EAF_OK -> admitted c) -> keeps (Some (c, rc)).
Proof. intros. by exists c, rc. Qed.
Lemma keeps_ok c rc : core_inv c -> admitted c -> keeps (Some (c, rc)).
Proof. intros. by exists c, rc. Qed.
Lemma keeps_no c rc : core_inv c -> rc <> EAF_OK -> keeps (Some (c, rc)).
Proof. intros. by exists c, rc. Qed.

(** What the admission and the invariant do not look at. *)
Lemma inv_wire c w : core_inv c -> wire_ok w -> core_inv (c_set_wire w c).
Proof. intros [] ?. by split. Qed.
Lemma inv_link c l : core_inv c -> link_ok l -> core_inv (c_set_link l c).
Proof. intros [] ?. by split. Qed.
Lemma inv_call {X} (f : option X) g c : core_inv c -> core_inv (call f g c).
Proof. intros []. destruct f; by split. Qed.
Lemma admitted_call {X} (f : option X) g c : admitted c -> admitted (call f g c).
Proof. by destruct f. Qed.

Lemma now_us_inv c c' t : now_us c = (c', t) -> core_inv c -> core_inv c'.
Proof. unfold now_us. destruct (hal_monotonic_time_us _) as [w t0]. intros [= <- <-] []. by split. Qed.
Lemma now_us_admitted c c' t : now_us c = (c', t) -> admitted c -> admitted c'.
Proof. unfold now_us. destruct (hal_monotonic_time_us _) as [w t0]. by intros [= <- <-]. Qed.

Lemma queue_frame_keeps op payload n c :
  core_inv c -> 0 <= n <= zlen payload ->
  exists w rc, queue_frame op payload n c = Some (c_set_wire w c, rc) /\ wire_ok w /\ w_json w = w_json (c_wire c).
Proof.
  intros Hc Hn. unfold queue_frame. destruct (queue_wire_safe op payload n (c_wire c) (k_wire _ Hc) Hn) as (w & rc & -> & Hw).
  cbn [mbind option_bind]. by exists w, rc.
Qed.

(** A message built in the client's buffer, and its transmission. *)
Lemma built_fits c t r :
  core_inv c -> built (w_json (c_wire c)) EAF_SENDPIN_JSON_BYTES 0 t r ->
  exists j n rc, r = Some (Some j, Some n, rc) /\ 0 <= n <= zlen j /\ core_inv (c_set_wire (set_json j (c_wire c)) c).
Proof.
  intros Hc (j & n & rc & -> & Hz & _ & Hrc). pose proof Hc as [Hcfg (Hj & Hw) Hlk]. exists j, n, rc. unfold EAF_SENDPIN_JSON_BYTES in *.
  split; [done |]. split; [pose proof (zlen_nonneg t); case_decide; destruct Hrc as (? & ?); lia |].
  apply inv_wire; [done |]. split; [cbn; unfold EAF_SENDPIN_JSON_BYTES; lia | done].
Qed.

Lemma send_time_keeps c : core_inv c ->
  exists c', send_time c = Some c' /\ core_inv c' /\ (admitted c -> admitted c') /\ c_link c' = c_link c.
Proof.
  intros Hc. unfold send_time. destruct (now_us c) as [c1 now] eqn:En. pose proof (now_us_inv _ _ _ En Hc) as Hc1.
  assert (Hl : c_link c1 = c_link c /\ (admitted c -> admitted c1)).
  { split; [| by apply (now_us_admitted _ _ _ En)]. revert En. unfold now_us. destruct (hal_monotonic_time_us _). by intros [= <- _]. }
  destruct Hl as [Hl Ha]. pose proof (k_wire _ Hc1) as (Hj & _). unfold EAF_SENDPIN_JSON_BYTES in Hj.
  destruct (built_fits c1 _ _ Hc1 (client_time_built (w_json (c_wire c1)) EAF_SENDPIN_JSON_BYTES (s64 now) 0
    ltac:(unfold EAF_SENDPIN_JSON_BYTES; lia) (s64_range now))) as (j & n & rc & -> & Hn & Hc2). cbn [mbind option_bind].
  set (c2 := c_set_wire (set_json j (c_wire c1)) c1) in *.
  assert (Hq : exists w, (if decide (rc = 0) then '(c, _) ← queue_json n c2; Some c else Some c2) = Some (c_set_wire w c2) /\ wire_ok w).
  { case_decide; [| exists (c_wire c2); split; [by destruct c2 | apply (k_wire _ Hc2)]]. unfold queue_json.
    destruct (queue_frame_keeps EAF_SENDPIN_WS_TEXT (w_json (c_wire c2)) n c2 Hc2 Hn) as (w & rc2 & -> & Hw & _). by exists w. }
  destruct Hq as (w & -> & Hw). cbn [mbind option_bind]. pose proof (inv_wire c2 w Hc2 Hw) as Hc3.
  unfold time_interval_ms. set (c3 := c_set_wire w c2) in *.
  destruct (negb _); [| destruct (clock_error _) as [f e]]; (eexists; split; [done |]); destruct Hc3; split_and!; done.
Qed.

Lemma notify_closed_keeps c : core_inv c -> core_inv (notify_closed c) /\ admitted (notify_closed c) /\
  l_state (c_link (notify_closed c)) = EAF_SENDPIN_CLIENT_CLOSED.
Proof.
  intros [Hcfg Hwire Hlk]. unfold notify_closed, call. destruct (tcp_open _); [destruct (hal_tcp_close _ _) as [t x] |];
    (match goal with |- context [if ?b then ?x else ?y] => destruct b; [| destruct (cb_disconnected _)] end);
    (split; [split; [done | done | intros Hne; by destruct Hne] | by split]).
Qed.

(** ** Messages *)

Lemma reads_run {T} (good : T -> Prop) f (x : T) :
  reads good (f (Some x)) -> exists o rc, with_ref f x = Some (o, rc) /\ (rc = EAF_OK -> good o).
Proof. intros (o & rc & E & Hg). unfold with_ref. rewrite E. by exists o, rc. Qed.

Lemma on_server_hello_keeps json n c : 0 <= n <= zlen json -> core_inv c -> admitted c -> keeps (on_server_hello json n c).
Proof.
  intros Hn Hc Ha. unfold on_server_hello. destruct (reads_run _ _ _ (hello_safe json n Hn hello_zero)) as (hello & rc & -> & _).
  cbn [mbind option_bind]. case_decide; [by apply keeps_no |]. destruct (negb _); [by apply keeps_no |].
  set (c1 := call _ _ c). assert (Hc1 : core_inv c1) by (by apply inv_call). assert (Ha1 : admitted c1) by (by apply admitted_call).
  pose proof (k_config _ Hc1) as (_ & _ & Hs). pose proof (k_wire _ Hc1) as (Hj & _). unfold EAF_SENDPIN_JSON_BYTES in Hj.
  repeat (apply List.Forall_cons_iff in Hs as [? Hs]).
  destruct (built_fits c1 _ _ Hc1 (client_state_built (w_json (c_wire c1)) EAF_SENDPIN_JSON_BYTES (player_state (c_config c1)) 0
    ltac:(unfold EAF_SENDPIN_JSON_BYTES; lia) ltac:(done) ltac:(done) ltac:(done) ltac:(done))) as (j & k & rc2 & -> & Hk & Hc2). cbn [mbind option_bind].
  case_decide; [by apply keeps_no |]. set (c2 := c_set_wire _ _) in *. unfold queue_json.
  destruct (queue_frame_keeps EAF_SENDPIN_WS_TEXT (w_json (c_wire c2)) k c2 Hc2 Hk) as (w & rc3 & -> & Hw & _). cbn [mbind option_bind].
  case_decide; [apply keeps_no; [by apply inv_wire | done] |].
  destruct (send_time_keeps (c_set_link (set_handshaken true (c_link (c_set_wire w c2))) (c_set_wire w c2))) as (c3 & -> & Hc3 & Ha3 & _).
  { apply inv_link; [by apply inv_wire | apply (k_link _ Hc2)]. }
  cbn [mbind option_bind]. apply keeps_ok; [done |]. by apply Ha3.
Qed.

Lemma on_server_time_keeps json n c : 0 <= n <= zlen json -> core_inv c -> admitted c -> keeps (on_server_time json n c).
Proof.
  intros Hn Hc Ha. unfold on_server_time. destruct (reads_run _ _ _ (time_safe json n Hn (ServerTime 0 0 0))) as (t & rc & -> & _).
  cbn [mbind option_bind]. case_decide; [by apply keeps_no |]. destruct (now_us c) as [c1 now] eqn:En.
  pose proof (now_us_inv _ _ _ En Hc) as Hc1. pose proof (now_us_admitted _ _ _ En Ha) as Ha1.
  apply keeps_ok; [| done]. destruct Hc1. by split.
Qed.

Lemma supports_total cfg codec : config_ok cfg -> exists b, client_supports_codec cfg codec = Some b.
Proof.
  intros ((_ & Hf & _) & _). unfold client_supports_codec. cbn in Hf. destruct (cfg_formats cfg) as [fs|]; [| by eexists].
  case_decide; [by eexists |]. destruct Hf as [Hf _]. rewrite ldn_eq by lia. by eexists.
Qed.

Lemma on_stream_start_keeps json n c : 0 <= n <= zlen json -> core_inv c -> admitted c -> keeps (on_stream_start json n c).
Proof.
  intros Hn Hc Ha. unfold on_stream_start. destruct (reads_run _ _ _ (stream_start_safe json n Hn (c_stream c))) as (s & rc & -> & _).
  cbn [mbind option_bind]. assert (Hc1 : core_inv (c_set_stream s c)) by (destruct Hc; by split). case_decide; [by apply keeps_no |].
  destruct (supports_total (c_config c) (start_codec s) (k_config _ Hc)) as [ok Hok]. cbn [c_config c_set_stream]. rewrite Hok.
  cbn [mbind option_bind]. destruct ok; cbn [negb]; [| by apply keeps_no]. apply keeps_ok; [apply inv_call, inv_link; [done | apply (k_link _ Hc)] |].
  apply admitted_call. intros _. exact Hok.
Qed.

Lemma on_stream_clear_keeps json n c : 0 <= n <= zlen json -> core_inv c -> admitted c -> keeps (on_stream_clear json n c).
Proof.
  intros Hn Hc Ha. unfold on_stream_clear.
  destruct (get_value_safe json n Hn "payload.roles" _ (literal_path "payload.roles" eq_refl) ltac:(discriminate)) as (v & rc & -> & Hv).
  cbn [mbind option_bind]. case_decide as Hrc; cbn [mbind option_bind]; [| apply keeps_ok; [by apply inv_call | by apply admitted_call]].
  assert (Hview : view 0 n v) by (destruct Hv as [->|[->|[_ ?]]]; done).
  destruct Hview as (_ & (s & Hraw & Hs & Hl & Hend) & _).
  assert (Hm : exists m, eaf_sendspin_json_array_contains json (Some v) (path_of "player") = Some m).
  { unfold eaf_sendspin_json_array_contains, path_of. case_decide; [by eexists |]. rewrite Hraw. cbn [mbind option_bind].
    change (strlen (chars "player" ++ [0])) with (Some 6). cbn [mbind option_bind]. rewrite ldn_eq by (done || (vm_compute; discriminate)). cbn [mbind option_bind].
    destruct (membership_safe json (s + raw_length v) ltac:(lia) (slice (chars "player" ++ [0]) 0 6) s false ltac:(lia)) as (q & m & rc2 & -> & _).
    cbn [mbind option_bind]. by eexists. }
  destruct Hm as [m ->]. cbn [mbind option_bind]. apply keeps_ok; [by apply inv_call | by apply admitted_call].
Qed.

Lemma on_stream_end_keeps json n c : 0 <= n <= zlen json -> core_inv c -> admitted c -> keeps (on_stream_end json n c).
Proof.
  intros Hn Hc Ha. unfold on_stream_end. destruct (reads_run _ _ _ (stream_end_safe json n Hn (StreamEnd 0 false))) as (x & rc & -> & _).
  cbn [mbind option_bind]. case_decide; [by apply keeps_no |]. apply keeps_ok; [apply inv_call, inv_link; [done | apply (k_link _ Hc)] | by apply admitted_call].
Qed.

Lemma on_group_update_keeps json n c : 0 <= n <= zlen json -> core_inv c -> admitted c -> keeps (on_group_update json n c).
Proof.
  intros Hn Hc Ha. unfold on_group_update. destruct (reads_run _ _ _ (group_safe json n Hn (GroupUpdate None 0 None 0))) as (x & rc & -> & _).
  cbn [mbind option_bind]. case_decide; [by apply keeps_no |]. apply keeps_ok; [by apply inv_call | by apply admitted_call].
Qed.

Lemma on_server_command_keeps json n c : 0 <= n <= zlen json -> core_inv c -> admitted c -> keeps (on_server_command json n c).
Proof.
  intros Hn Hc Ha. unfold on_server_command.
  destruct (reads_run _ _ _ (command_safe json n Hn (ServerCommand EAF_SENDPIN_COMMAND_UNKNOWN 0 false 0))) as (m & rc & -> & Hm).
  cbn [mbind option_bind]. destruct (decide (rc <> 0)); [by apply keeps_no |]. destruct Hm as [_ Hm]; [unfold EAF_OK; lia |].
  assert (Hd : core_inv (c_set_config (set_delay (command_delay_ms m) (c_config c)) c)).
  { destruct Hc as [(Hh & Hid & H3) Hw Hlk]. split; [| done | done]. split; [done |]. split; [done |]. cbn.
    repeat (apply List.Forall_cons_iff in H3 as [? H3]). do 4 (constructor; [done |]). constructor. }
  destruct (command m); [..| case_decide]; (apply keeps_ok; [by apply inv_call | by apply admitted_call]).
Qed.

Definition handler_keeps (h : list Z -> Z -> client_core F W -> ub (client_core F W * Z)) : Prop :=
  forall json n c, 0 <= n <= zlen json -> core_inv c -> admitted c -> keeps (h json n c).

Lemma handlers_keep : Forall (fun h => handler_keeps h.2) (handlers (F := F) (W := W)).
Proof.
  repeat constructor; intros json n c Hn Hc Ha; cbn [snd].
  - by apply on_server_hello_keeps. - by apply on_server_time_keeps. - by apply on_stream_start_keeps.
  - by apply on_stream_clear_keeps. - by apply on_stream_end_keeps. - by apply on_group_update_keeps.
  - by apply on_server_command_keeps.
Qed.

Lemma dispatch_type_keeps hs type json n c :
  Forall (fun h => handler_keeps h.2) hs -> 0 <= n <= zlen json -> value_ok n type -> core_inv c -> admitted c ->
  keeps (dispatch_type hs type json n c).
Proof.
  intros Hh Hn Ht Hc Ha. induction Hh as [|[name h] hs Hk _ IH]; cbn [dispatch_type]; [by apply keeps_ok |].
  destruct (string_equals_safe json n Hn type name Ht) as [r ->]. cbn [mbind option_bind]. destruct r; [by apply Hk | done].
Qed.

Lemma dispatch_text_keeps json n c : 0 <= n <= zlen json -> core_inv c -> admitted c -> keeps (dispatch_text json n c).
Proof.
  intros Hn Hc Ha. unfold dispatch_text.
  destruct (get_value_safe json n Hn "type" _ (literal_path "type" eq_refl) ltac:(discriminate)) as (v & rc & -> & Hv).
  cbn [mbind option_bind]. destruct (bool_decide (rc <> 0) || _) eqn:E; [by apply keeps_ok |].
  apply dispatch_type_keeps; [apply handlers_keep | done | | done | done]. right.
  destruct Hv as [->|[->|[_ ?]]]; done.
Qed.

Lemma big_endian_total p : 8 <= zlen p -> exists v, big_endian_i64 p = Some v.
Proof.
  intros Hz. unfold big_endian_i64.
  destruct (for_to_inv (fun _ _ => True) (fun i value => b ← ld p i; Some (Z.lor (u64 (Z.shiftl value 8)) b)) 8 0) as (v & -> & _);
    [lia | done | | by eexists].
  intros j t Hj _. destruct (ld_is_Some p j ltac:(lia)) as [x ->]. by eexists.
Qed.

Lemma on_binary_keeps p c : core_inv c -> admitted c -> keeps (on_binary p (zlen p) c).
Proof.
  intros Hc Ha. unfold on_binary. case_decide; [by apply keeps_ok |]. destruct (ld_is_Some p 0 ltac:(lia)) as [k ->].
  cbn [mbind option_bind]. case_decide; [by apply keeps_ok |]. rewrite (ldn_eq p 1) by lia. cbn [mbind option_bind].
  destruct (big_endian_total (slice p 1 (zlen p - 1))) as [v ->]; [rewrite zlen_slice; lia |]. cbn [mbind option_bind].
  rewrite (ldn_eq p 9) by lia. cbn [mbind option_bind]. apply keeps_ok; [by apply inv_call | by apply admitted_call].
Qed.

Lemma on_message_keeps c op p : core_inv c -> admitted c -> keeps (on_message c op p (zlen p)).
Proof.
  intros Hc Ha. pose proof (zlen_nonneg p). unfold on_message. repeat case_decide; try by apply keeps_ok.
  - destruct (queue_frame_keeps EAF_SENDPIN_WS_PONG p (zlen p) c Hc ltac:(lia)) as (w & rc & -> & Hw & _).
    cbn [mbind option_bind]. apply keeps_ok; [by apply inv_wire | done].
  - destruct (notify_closed_keeps c Hc) as (? & ? & _). by apply keeps_ok.
  - by apply dispatch_text_keeps; [lia | |].
  - by apply on_binary_keeps.
Qed.

(** ** The receiver calls back with the client itself *)

Definition running (c : ub (client_core F W)) : Prop := exists k, c = Some k /\ core_inv k /\ admitted k.
Definition defined (c : ub (client_core F W)) : Prop := exists k, c = Some k /\ core_inv k.

Lemma callback_keeps (c : ub (client_core F W)) op p : running c -> zlen p <= EAF_SENDPIN_MESSAGE_BYTES ->
  let '(c', rc) := message_callback c op p (zlen p) in defined c' /\ (rc = 0 -> running c').
Proof.
  intros (k & -> & Hk & Ha) _. unfold message_callback.
  destruct (on_message_keeps k op p Hk Ha) as (k' & rc & -> & Hk' & Ha'). split; [by exists k' |].
  intros Hrc. exists k'. split_and!; [done | done | by apply Ha'].
Qed.

Lemma client_feed_keeps r (k : client_core F W) data :
  rx_inv r -> bytes_wf data -> message_capacity r = EAF_SENDPIN_MESSAGE_BYTES -> core_inv k -> admitted k ->
  exists r' k' rc, eaf_sendspin_ws_rx_feed (Some message_callback) (Some r) (Some data) (zlen data) (Some k) = Some (Some r', (Some k', rc)) /\
    rx_inv r' /\ message_capacity r' = EAF_SENDPIN_MESSAGE_BYTES /\ core_inv k' /\ (rc = EAF_OK -> admitted k').
Proof.
  intros Hr Hw Hcap Hk Ha.
  destruct (rx_feed_delivers message_callback running defined EAF_SENDPIN_MESSAGE_BYTES ltac:(unfold EAF_SENDPIN_MESSAGE_BYTES; lia)
    ltac:(intros c (k0 & ? & ? & ?); by exists k0) callback_keeps r (Some k) data Hr Hw ltac:(lia) ltac:(by exists k))
    as (r' & c' & rc & Hrun & Hr' & (k' & -> & Hk') & Hp & Hcap'). exists r', k', rc. split; [done |]. split; [done |].
  split; [lia |]. split; [done |]. intros Hrc. destruct (Hp Hrc) as (k2 & [= <-] & _ & ?). done.
Qed.

(** ** The transmit queue *)

Lemma flush_loop_keeps fuel c : core_inv c -> w_length (c_wire c) - w_offset (c_wire c) <= Z.of_nat fuel ->
  exists c' rc, flush_loop fuel c = Some (c', rc) /\ core_inv c' /\ (admitted c -> admitted c').
Proof.
  revert c. induction fuel as [|fuel IH]; intros c Hc Hf; cbn [flush_loop]; pose proof (k_wire _ Hc) as (Hj & Hw & Ho & Hl);
    unfold EAF_SENDPIN_WIRE_BYTES in *; case_decide as Hempty; try lia;
    try (eexists _, _; split; [done |]; split; [| done]; apply inv_wire; [done |]; split_and!; done || cbn; lia).
  rewrite ldn_eq by lia. cbn [mbind option_bind]. destruct (hal_tcp_send _ _ _) as [[[t x] sent] rc] eqn:Es.
  pose proof (send_count _ _ _ _ _ _ _ Es) as Hs. rewrite zlen_slice in Hs by lia.
  match goal with |- context [c_set_wire ?w ?c1] => set (c2 := c_set_wire w c1) end.
  assert (Hc2 : core_inv c2).
  { apply inv_wire; [apply inv_link; [by destruct Hc; split | apply (k_link _ Hc)] |]. split_and!; cbn; done || (unfold EAF_SENDPIN_WIRE_BYTES; lia). }
  repeat (case_decide; [by eexists _, _ |]).
  destruct (IH c2 Hc2) as (c' & rc' & -> & Hc' & Ha'); [cbn; lia |]. by exists c', rc'.
Qed.

Lemma flush_keeps c : core_inv c -> exists c' rc, flush c = Some (c', rc) /\ core_inv c' /\ (admitted c -> admitted c').
Proof. intros Hc. apply flush_loop_keeps; [done |]. pose proof (k_wire _ Hc) as (_ & _ & Ho & _). lia. Qed.

(** ** The client *)
Implicit Types s : eaf_sendspin_client_t F W.

Record client_inv s : Prop := {
  ci_core : core_inv (sc_core s);
  ci_admitted : admitted (sc_core s);
  ci_rx : rx_inv (sc_rx s) /\ message_capacity (sc_rx s) = EAF_SENDPIN_MESSAGE_BYTES;
  ci_http : zlen (sc_http s) = EAF_SENDPIN_HTTP_BYTES /\ 0 <= sc_http_used s <= EAF_SENDPIN_HTTP_BYTES
}.

Definition returns (r : ub (eaf_sendspin_client_t F W * Z)) : Prop := exists s rc, r = Some (s, rc) /\ client_inv s.

Lemma returns_ret s rc : client_inv s -> returns (Some (s, rc)).
Proof. intros. by exists s, rc. Qed.

Lemma inv_core s k : client_inv s -> core_inv k -> admitted k -> client_inv (set_core k s).
Proof. intros [] ? ?. by split. Qed.

(** Only the receiver and the buffers matter when the session fails. *)
Lemma failed_inv s k : client_inv s -> core_inv k -> returns (Some (failed (set_core k s))).
Proof.
  intros Hs Hk. unfold failed, fail. destruct (notify_closed_keeps k Hk) as (? & ? & _). apply returns_ret.
  change (client_inv (set_core (notify_closed k) s)). by apply inv_core.
Qed.
Lemma failed_self s : client_inv s -> returns (Some (failed s)).
Proof. intros Hs. destruct s as [k r h u n]. by apply (failed_inv (SendspinClient k r h u n) k); [| apply (ci_core _ Hs)]. Qed.

Lemma header_end_safe fuel buffer n i : n <= zlen buffer -> 0 <= i -> exists r, header_end_loop fuel buffer n i = Some r.
Proof.
  revert i. induction fuel as [|fuel IH]; intros i Hn Hi; cbn [header_end_loop]; [by eexists |]. case_decide; [| by eexists].
  rewrite memeq_eq by (change (zlen [13; 10; 13; 10]) with 4; lia). cbn [mbind option_bind].
  destruct (bool_decide _); [by eexists |]. apply IH; lia.
Qed.

Lemma upgrade_checked r n : n <= zlen r -> exists rc, eaf_sendspin_ws_check_upgrade_response (Some r) n = Some rc.
Proof.
  intros Hn. unfold eaf_sendspin_ws_check_upgrade_response. case_decide; [by eexists |].
  rewrite memeq_eq by (change (zlen (chars "HTTP/")) with 5; lia). cbn [mbind option_bind]. destruct (negb _); [by eexists |].
  destruct (memchr r 32 n) as [i|] eqn:E; [| by eexists]. case_decide; [by eexists |].
  assert (Hi : 0 <= i).
  { unfold memchr in E. destruct (list_find _ _) as [[j x]|]; [| done]. injection E as <-. lia. }
  rewrite memeq_eq by (change (zlen (chars "101")) with 3; lia). cbn [mbind option_bind]. by eexists.
Qed.

Lemma receive_keeps room k : core_inv k -> 0 <= room ->
  exists k' data rc, receive room k = (k', data, rc) /\ core_inv k' /\ (admitted k -> admitted k') /\ bytes_wf data /\ (rc = EAF_OK -> zlen data <= room).
Proof.
  intros Hk Hr. unfold receive. destruct (hal_tcp_recv _ _ _) as [[[t x] data] rc] eqn:E. eexists _, _, _. split; [done |].
  split; [apply inv_link; [by destruct Hk; split | apply (k_link _ Hk)] |]. split; [done |]. split; [by eapply recv_bytes |].
  intros Hrc. by eapply recv_count.
Qed.

Lemma send_hello_returns s : client_inv s -> l_state (c_link (sc_core s)) <> EAF_SENDPIN_CLIENT_CLOSED -> returns (send_hello s).
Proof.
  intros Hs Hst. unfold send_hello. set (k := sc_core s) in *. pose proof (ci_core _ Hs) as Hk. fold k in Hk.
  pose proof (k_config _ Hk) as (Hcfg & Hids & _). pose proof (k_wire _ Hk) as (Hj & _). unfold EAF_SENDPIN_JSON_BYTES in Hj.
  assert (Hb : exists j n rc, eaf_sendspin_build_client_hello (Some (w_json (c_wire k))) EAF_SENDPIN_JSON_BYTES (Some (client_hello (c_config k))) (Some 0)
    = Some (Some j, Some n, rc) /\ 0 <= n <= zlen j /\ core_inv (c_set_wire (set_json j (c_wire k)) k)).
  { assert (Hnull : exists j n rc, Some (Some (w_json (c_wire k)), Some 0, EAF_INVALID) = Some (Some j, Some n, rc) /\ 0 <= n <= zlen j /\
      core_inv (c_set_wire (set_json j (c_wire k)) k)).
    { eexists _, _, _. split; [done |]. split; [lia |]. apply inv_wire; [done |]. by destruct (k_wire _ Hk) as (? & ? & ? & ?). }
    apply List.Forall_cons_iff in Hids as [Hid Hids]. apply List.Forall_cons_iff in Hids as [Hname _].
    destruct (cfg_client_id (c_config k)) as [id|] eqn:Eid; [destruct (cfg_name (c_config k)) as [name|] eqn:En |].
    - apply (built_fits k (render (client_hello_tree (client_hello (c_config k)) id name))); [done |].
      apply client_hello_built; try done. unfold EAF_SENDPIN_JSON_BYTES. lia.
    - unfold eaf_sendspin_build_client_hello, client_hello. cbn [client_id client_name]. by rewrite Eid, En.
    - unfold eaf_sendspin_build_client_hello, client_hello. cbn [client_id client_name]. by rewrite Eid. }
  destruct Hb as (j & n & rc & -> & Hn & Hk1). cbn [mbind option_bind]. set (k1 := c_set_wire _ _) in *.
  case_decide; [by apply failed_inv |]. unfold queue_json.
  destruct (queue_frame_keeps EAF_SENDPIN_WS_TEXT (w_json (c_wire k1)) n k1 Hk1 Hn) as (w & rc2 & -> & Hw & _). cbn [mbind option_bind].
  pose proof (inv_wire k1 w Hk1 Hw) as Hk2. case_decide; [by apply failed_inv |]. apply returns_ret, inv_core; [done | |].
  - apply inv_link; [done |]. intros _. by apply (k_link _ Hk2).
  - exact (ci_admitted _ Hs).
Qed.

Lemma step_http_returns s : client_inv s -> l_state (c_link (sc_core s)) = EAF_SENDPIN_CLIENT_HTTP -> returns (step_http s).
Proof.
  intros Hs Hst. unfold step_http. destruct (ci_http _ Hs) as (Hz & Hu).
  destruct (receive_keeps (EAF_SENDPIN_HTTP_BYTES - sc_http_used s) (sc_core s) (ci_core _ Hs) ltac:(lia)) as (k & data & rc & Er & Hk & Ha & Hw & Hl).
  rewrite Er. pose proof (inv_core s k Hs Hk (Ha (ci_admitted _ Hs))) as Hs1. case_decide; [by apply returns_ret |].
  case_decide; [by apply failed_self |]. specialize (Hl ltac:(unfold EAF_OK; lia)). pose proof (zlen_nonneg data).
  cbn [set_core sc_http sc_http_used]. rewrite stn_eq by lia. cbn [mbind option_bind].
  match goal with |- context [set_http ?b ?n ?x] => set (s2 := set_http b n x) end.
  assert (Hs2 : client_inv s2).
  { destruct Hs1. split; try done. cbn. rewrite zlen_splice by lia. split; [done | lia]. }
  destruct (header_end_safe (Z.to_nat (sc_http_used s2)) (sc_http s2) (sc_http_used s2) 0) as [r Hr]; [pose proof (ci_http _ Hs2); lia | lia |].
  unfold find_header_end. rewrite Hr. cbn [mbind option_bind]. destruct r; cbn [negb].
  - destruct (upgrade_checked (sc_http s2) (sc_http_used s2)) as [rc2 ->]; [pose proof (ci_http _ Hs2); lia |]. cbn [mbind option_bind].
    case_decide; [by apply failed_self |]. apply send_hello_returns; [done |]. cbn.
    assert (El : l_state (c_link k) = l_state (c_link (sc_core s))).
    { revert Er. unfold receive. destruct (hal_tcp_recv _ _ _) as [[[t x] d] rc3]. by intros [= <- _ _]. }
    by rewrite El, Hst.
  - case_decide; [by apply failed_self | by apply returns_ret].
Qed.

Lemma step_ws_returns s : client_inv s -> returns (step_ws s).
Proof.
  intros Hs. unfold step_ws. destruct (now_us (sc_core s)) as [k0 now] eqn:En.
  pose proof (now_us_inv _ _ _ En (ci_core _ Hs)) as Hk0. pose proof (now_us_admitted _ _ _ En (ci_admitted _ Hs)) as Ha0.
  assert (Ht : exists k, (if l_handshaken (c_link k0) && bool_decide (c_next_time_us k0 <= now) then send_time k0 else Some k0) = Some k /\
    core_inv k /\ admitted k).
  { destruct (_ && _); [| by exists k0]. destruct (send_time_keeps k0 Hk0) as (k & -> & Hk & Ha & _). exists k. by split_and!; auto. }
  destruct Ht as (k & -> & Hk & Ha). cbn [mbind option_bind].
  destruct (receive_keeps EAF_SENDPIN_RX_BYTES k Hk ltac:(done)) as (k1 & data & rc & -> & Hk1 & Ha1 & Hw & Hl).
  pose proof (inv_core s k1 Hs Hk1 (Ha1 Ha)) as Hs1. case_decide; [by apply returns_ret |]. case_decide; [by apply failed_self |].
  cbn [set_total set_core sc_rx sc_rx_total]. destruct (ci_rx _ Hs) as (Hr & Hcap).
  destruct (client_feed_keeps (sc_rx s) k1 data Hr Hw Hcap Hk1 (Ha1 Ha)) as (r' & k' & rc2 & -> & Hr' & Hcap' & Hk' & Ha'). cbn [mbind option_bind].
  set (s2 := set_rx r' _). assert (Hs2 : rx_inv (sc_rx s2) /\ message_capacity (sc_rx s2) = EAF_SENDPIN_MESSAGE_BYTES) by done.
  destruct (ci_http _ Hs) as [Hh1 Hh2]. case_decide as Hrc.
  - unfold failed, fail. destruct (notify_closed_keeps k' Hk') as (? & ? & _). by apply returns_ret; split.
  - apply returns_ret. split; try done. apply Ha'. unfold EAF_OK. lia.
Qed.

Lemma step_returns s : client_inv s -> returns (step s).
Proof.
  intros Hs. unfold step. case_decide as Hst; [by apply returns_ret |].
  destruct (flush_keeps (sc_core s) (ci_core _ Hs)) as (k & rc & -> & Hk & Ha). cbn [mbind option_bind].
  pose proof (inv_core s k Hs Hk (Ha (ci_admitted _ Hs))) as Hs1. case_decide; [by apply returns_ret |].
  case_decide; [by apply failed_self |]. destruct (decide (l_state (c_link k) = EAF_SENDPIN_CLIENT_HTTP)); [by apply step_http_returns | by apply step_ws_returns].
Qed.

(** ** Connecting *)

(** What is queued and not yet sent. *)
Definition queued (w : client_wire) : list Z := slice (w_wire w) (w_offset w) (w_length w - w_offset w).
Definition may_connect s : bool :=
  bool_decide (l_state (c_link (sc_core s)) = EAF_SENDPIN_CLIENT_CLOSED) && negb (tcp_open (l_tcp (c_link (sc_core s)))).

(** The state after a connection is made: the upgrade request is all that is queued. *)
Definition upgrading (ipv4 port : Z) s : Prop :=
  l_state (c_link (sc_core s)) = EAF_SENDPIN_CLIENT_HTTP /\ sc_http_used s = 0 /\
  exists p, queued (c_wire (sc_core s)) = upgrade_request (host_text ipv4 port) (chars "/sendspin") (b64_encode (concat (le4 <$> outputs 4 p))).

Lemma connect_returns ipv4 port ms s : client_inv s -> 0 <= port < 65536 ->
  exists s' rc, connect ipv4 port ms s = Some (s', rc) /\ client_inv s' /\
    (may_connect s = false -> s' = s /\ rc = EAF_INVALID) /\ (may_connect s = true -> rc = EAF_OK -> upgrading ipv4 port s').
Proof.
  intros Hs Hp. unfold connect, may_connect.
  destruct (bool_decide _); cbn [negb orb andb]; [| by exists s, EAF_INVALID].
  destruct (tcp_open _); cbn [negb orb andb]; [by exists s, EAF_INVALID |].
  destruct (now_us (sc_core s)) as [k now] eqn:En. pose proof (now_us_inv _ _ _ En (ci_core _ Hs)) as Hk.
  pose proof (now_us_admitted _ _ _ En (ci_admitted _ Hs)) as Ha.
  destruct (key_c_string (eaf_sendspin_ws_prng_init (u32 now)) (zeros 25)) as (p' & key & kc & -> & Ekey & Hkey & _); [done |].
  cbn [mbind option_bind]. rewrite format_host_eq by done. cbn [mbind option_bind]. rewrite decide_False by (intros HH; by apply HH).
  set (k1 := c_set_wire (set_prng p' (c_wire k)) k).
  assert (Hk1 : core_inv k1) by (apply inv_wire; [done | apply (k_wire _ Hk)]).
  destruct (hal_tcp_connect _ _ _ _ _) as [[t x] rc]. set (k2 := c_set_link _ (c_set_world x k1)).
  assert (Hk2 : core_inv k2) by (apply inv_link; [by destruct Hk1; split | apply (k_link _ Hk1)]).
  pose proof (inv_core s k2 Hs Hk2 Ha) as Hs2. case_decide as Hrc; [exists (set_core k2 s), rc; split_and!; done |].
  pose proof (k_wire _ Hk2) as (Hj & Hw & Ho & Hl). unfold EAF_SENDPIN_WIRE_BYTES in *.  unfold path_of.
  destruct (build_upgrade_spec (w_wire (c_wire k2)) 2048 (host_text ipv4 port) (chars "/sendspin") key _ (chars "/sendspin" ++ [0]) kc 0
    (host_c_string ipv4 port (zeros 32) Hp eq_refl) (literal_path "/sendspin" eq_refl) Hkey ltac:(lia)) as (b & n & rc2 & -> & Hb & _ & Hres).
  cbn [mbind option_bind]. set (req := upgrade_request _ _ key) in *.
  assert (Hreq : zlen req <= 255).
  { pose proof (request_len (host_text ipv4 port) (chars "/sendspin") key) as Hlen. fold req in Hlen. pose proof (host_len ipv4 port Hp).
    change (zlen (chars "/sendspin")) with 9 in Hlen. assert (Hz : zlen key = 24); [| lia].
    rewrite Ekey. cbn [outputs]. repeat (destruct (eaf_sendspin_ws_prng_next _) as [? ?]). done. }
  rewrite decide_True in Hres by lia. destruct Hres as (-> & -> & ->). rewrite decide_False by (intros HH; by apply HH).
  pose proof (zlen_nonneg req).
  eexists _, _. split; [done |]. split; [| split; [done |]].
  - destruct (ci_http _ Hs) as [Hh _]. split; [| exact Ha | exact (ci_rx _ Hs) | split; [exact Hh | cbn; unfold EAF_SENDPIN_HTTP_BYTES; lia]].
    split; [apply (k_config _ Hk2) | apply wire_fresh; [exact Hj | unfold EAF_SENDPIN_WIRE_BYTES; congruence | unfold EAF_SENDPIN_WIRE_BYTES; lia] | done].
  - intros _ _. split; [done |]. split; [done |]. exists (eaf_sendspin_ws_prng_init (u32 now)). rewrite <- Ekey. fold req.
    change (slice (splice (w_wire (c_wire k2)) 0 (req ++ [0])) 0 (zlen req - 0) = req). rewrite Z.sub_0_r.
    pose proof (slice_splice (w_wire (c_wire k2)) (req ++ [0]) 0 0 (zlen req)) as E. rewrite zlen_app in E. change (0 + 0) with 0 in E.
    rewrite E by (change (zlen [0]) with 1; lia). by apply slice_app_head.
Qed.

(** ** Sessions *)
Inductive client_call := CallConnect (ipv4 port timeout_ms : Z) | CallStep | CallClose.
Definition call_ok (o : client_call) : Prop := match o with CallConnect _ port _ => 0 <= port < 65536 | _ => True end.

Definition client_run (o : client_call) s : ub (eaf_sendspin_client_t F W) :=
  match o with
  | CallConnect ipv4 port ms => '(s, _) ← with_ref (fun p => eaf_sendspin_client_connect p ipv4 port ms) s; Some s
  | CallStep => '(s, _) ← with_ref eaf_sendspin_client_step s; Some s
  | CallClose => Some (eaf_sendspin_client_close s)
  end.
Fixpoint client_session (os : list client_call) s : ub (eaf_sendspin_client_t F W) :=
  match os with [] => Some s | o :: os => s ← client_run o s; client_session os s end.

Lemma client_run_inv o s : client_inv s -> call_ok o -> exists s', client_run o s = Some s' /\ client_inv s'.
Proof.
  intros Hs Ho. destruct o as [ip port ms| |]; cbn [client_run].
  - unfold eaf_sendspin_client_connect. rewrite with_ref_on_ptr.
    destruct (connect_returns ip port ms s Hs Ho) as (s' & rc & -> & Hs' & _). by exists s'.
  - unfold eaf_sendspin_client_step. rewrite with_ref_on_ptr. destruct (step_returns s Hs) as (s' & rc & -> & Hs'). by exists s'.
  - eexists. split; [done |]. destruct (notify_closed_keeps (sc_core s) (ci_core _ Hs)) as (? & ? & _). by apply inv_core.
Qed.

Lemma client_session_inv os s : client_inv s -> Forall call_ok os -> exists s', client_session os s = Some s' /\ client_inv s'.
Proof.
  intros Hs Ho. revert s Hs. induction Ho as [|o os Ho _ IH]; intros s Hs; cbn [client_session]; [by exists s |].
  destruct (client_run_inv o s Hs Ho) as (s1 & -> & Hs1). cbn [mbind option_bind]. by apply IH.
Qed.

Lemma zeros_len n : 0 <= n -> zlen (zeros n) = n.
Proof. intros. by apply zlen_replicate. Qed.

Lemma client_init_inv cfg cb w : config_ok cfg -> client_inv (eaf_sendspin_client_init (F := F) cfg cb w).
Proof.
  intros Hcfg. split; [split; [done | | done] | done | | by split; [apply zeros_len |]].
  - split; [by apply zeros_len |]. split; [by apply zeros_len | by split].
  - split; [| done]. assert (Hz : zlen (zeros EAF_SENDPIN_MESSAGE_BYTES) = EAF_SENDPIN_MESSAGE_BYTES) by (by apply zeros_len).
    unfold eaf_sendspin_client_init, eaf_sendspin_ws_rx_init.
    split; cbn [sc_rx header mask control message message_capacity message_length control_length header_used header_needed frame_ready]; try done; try lia.
    + split; [done |]. apply Forall_replicate. unfold is_u8. lia.
    + split; [done |]. apply Forall_replicate. unfold is_u8. lia.
Qed.
End safe.
