(* ===== verification/SendspinSession.v ===== *)
(** What the Sendspin client promises: the theorems of a session, of the connection,
    and of what the application hears; a scripted server; two runs that show what
    a connection lost inside a frame, and a frame after a close, lead to. *)

From stdpp Require Import strings.
From S2P Require Import Prelude Types Ring Bytes Text Net WsEncode WsRx WsDeliver Json JsonRender Messages MessageSafe Float.
From S2P Require Import TimeFilter SendspinClient SendspinHost SendspinClientSafe.

(** ** Audio *)

Lemma big_endian_read p : big_endian_i64 p = v ← eaf_bytes_read_u64 p 0; Some (s64 v).
Proof. reflexivity. Qed.

Lemma big_endian_value ts rest : is_s64 ts -> big_endian_i64 (be_bytes 8 (u64 ts) ++ rest) = Some ts.
Proof.
  intros Ht. rewrite big_endian_read.
  assert (Hu : 0 <= u64 ts < 256 ^ Z.of_nat 8) by (change (256 ^ Z.of_nat 8) with 18446744073709551616; word).
  rewrite (read_u64_at _ 0 (be_bytes 8 (u64 ts))).
  - cbn [mbind option_bind]. rewrite be_value_bytes by done. f_equal. word.
  - split; [lia |]. pose proof (zlen_be_bytes 8 (u64 ts)) as Hz. rewrite zlen_app. pose proof (zlen_nonneg rest).
    split; [lia |]. by apply slice_app_head.
  - apply zlen_be_bytes.
  - apply be_bytes_wf.
Qed.

(** An audio message: its time stamp, its bytes and the mask of its frame. *)
Definition audio := (Z * list Z * option Z)%type.
Definition audio_payload (a : audio) : list Z := 4 :: be_bytes 8 (u64 a.1.1) ++ a.1.2.
Definition audio_frame (a : audio) : frame := Frame true EAF_SENDPIN_WS_BINARY a.2 (audio_payload a).
Definition audio_ok (a : audio) : Prop := is_s64 a.1.1 /\ bytes_wf a.1.2 /\ zlen a.1.2 + 9 <= EAF_SENDPIN_MESSAGE_BYTES.

Lemma audio_payload_len a : zlen (audio_payload a) = zlen a.1.2 + 9.
Proof. unfold audio_payload. rewrite zlen_cons, zlen_app, zlen_be_bytes. lia. Qed.

Section session.
Context {F W : Type} `{ClockFilter F} `{NetHalLaws W}.
Implicit Types c : client_core F W.

Definition hear_audio c (a : audio) : client_core F W :=
  call (cb_audio (c_callbacks c)) (fun f => f (c_stream c) a.1.1 a.1.2 (zlen a.1.2)) c.

Lemma audio_message_heard c a : audio_ok a ->
  on_message c EAF_SENDPIN_WS_BINARY (audio_payload a) (zlen (audio_payload a)) = Some (hear_audio c a, EAF_OK).
Proof.
  intros (Ht & Hw & Hz). unfold on_message. change (EAF_SENDPIN_WS_BINARY) with 2. cbn [decide decide_rel]. repeat (rewrite decide_False by done).
  rewrite decide_True by done. unfold on_binary. pose proof (audio_payload_len a) as Hl. pose proof (zlen_nonneg a.1.2).
  rewrite decide_False by lia. change (ld (audio_payload a) 0) with (Some 4). cbn [mbind option_bind]. rewrite decide_False by lia.
  rewrite (ldn_eq _ 1), (ldn_eq _ 9) by lia. cbn [mbind option_bind].
  assert (Hs1 : slice (audio_payload a) 1 (zlen (audio_payload a) - 1) = be_bytes 8 (u64 a.1.1) ++ a.1.2).
  { rewrite <- drop_slice by lia. done. }
  assert (Hs9 : slice (audio_payload a) 9 (zlen (audio_payload a) - 9) = a.1.2).
  { rewrite <- drop_slice by lia. done. }
  rewrite Hs1, Hs9, big_endian_value by done. cbn [mbind option_bind]. rewrite Hl, Z.add_simpl_r. done.
Qed.

(** The messages of a receiver, run by [on_message] until one is refused. *)
Fixpoint on_messages c (ms : list (Z * list Z)) : ub (client_core F W * Z) :=
  match ms with
  | [] => Some (c, EAF_OK)
  | (op, p) :: ms => '(c, rc) ← on_message c op p (zlen p); if decide (rc <> 0) then Some (c, rc) else on_messages c ms
  end.

Lemma on_messages_handed c ms c' : on_messages c ms = Some (c', EAF_OK) -> hand_over message_callback (Some c) ms = Some (Some c').
Proof.
  revert c. induction ms as [|[op p] ms IH]; intros c; cbn [on_messages hand_over]; [by intros [= <-] |].
  unfold message_callback at 1. destruct (on_message c op p (zlen p)) as [[c1 rc]|]; [| done]. cbn [mbind option_bind].
  destruct (decide (rc <> 0)) as [Hr|]; [| apply IH]. intros [= <- ->]. by destruct Hr.
Qed.

Lemma audio_messages l : Forall audio_ok l -> messages None (audio_frame <$> l) = (fun a => (EAF_SENDPIN_WS_BINARY, audio_payload a)) <$> l.
Proof. intros Hl. induction Hl as [|a l Ha _ IH]; [done |]. cbn [fmap list_fmap messages]. rewrite <- IH. done. Qed.

Lemma audio_frames_ok l : Forall audio_ok l -> frames_ok EAF_SENDPIN_MESSAGE_BYTES None (audio_frame <$> l) /\ prompt (audio_frame <$> l).
Proof.
  intros Hl. split.
  - induction Hl as [|a l (Ht & Hw & Hz) _ IH]; [done |]. cbn [fmap list_fmap frames_ok]. pose proof (audio_payload_len a) as Hp.
    unfold EAF_SENDPIN_MESSAGE_BYTES in *. split; [| split; [cbn; lia | exact IH]]. split.
    + cbn. unfold audio_payload. apply Forall_cons_2; [by split |]. apply Forall_app. split; [apply be_bytes_wf | done].
    + cbn [audio_frame f_op f_payload]. change (is_control EAF_SENDPIN_WS_BINARY) with false. cbn iota. split; [by right | lia].
  - unfold prompt. destruct (list.last (audio_frame <$> l)) as [g|] eqn:E; [| done]. right.
    apply list.last_Some in E as [l' E]. assert (Hg : g ∈ audio_frame <$> l) by (rewrite E; set_solver).
    apply list_elem_of_fmap in Hg as (a & -> & _). done.
Qed.
End session.

(** ** Properties *)


(** Connecting is refused, and changes nothing, unless the client is closed and
    its socket too; when it succeeds, what the client will send is exactly the
    upgrade request for the server's dotted address and port with a base64 key, and
    it waits for the answer with an empty header buffer. *)
Theorem client_connect_request {F W} `{ClockFilter F} `{NetHalLaws W} (s : eaf_sendspin_client_t F W) (ipv4 port ms : Z) :
  client_inv s -> 0 <= port < 65536 ->
  exists s' rc, eaf_sendspin_client_connect (Some s) ipv4 port ms = Some (Some s', rc) /\ client_inv s' /\
    (may_connect s = false -> s' = s /\ rc = EAF_INVALID) /\ (may_connect s = true -> rc = EAF_OK -> upgrading ipv4 port s').
Proof.
  intros Hs Hp. destruct (connect_returns ipv4 port ms s Hs Hp) as (s' & rc & Hrun & Hrest). exists s', rc.
  unfold eaf_sendspin_client_connect, on_ptr. by rewrite Hrun.
Qed.


(** C17: Audio is passed on unchanged: from any cut of audio messages into chunks, masked
    or not, the application is called once per message, in order, with the format of
    the stream, the exact signed 64-bit time stamp and the exact bytes, and nothing
    else of the client changes. *)
Theorem client_audio_exact {F W} `{ClockFilter F} `{NetHalLaws W} (c : client_core F W) (l : list audio) (chunks : list (list Z)) :
  Forall audio_ok l -> concat chunks = wires (audio_frame <$> l) ->
  exists r', feed_chunks (Some message_callback) (eaf_sendspin_ws_rx_init (Some (zeros EAF_SENDPIN_MESSAGE_BYTES)) EAF_SENDPIN_MESSAGE_BYTES)
    (Some c) chunks = Some (r', Some (foldl hear_audio c l), EAF_OK).
Proof.
  intros Hl Hch. destruct (audio_frames_ok l Hl) as [Hok Hp].
  apply (chunks_handed message_callback (zeros EAF_SENDPIN_MESSAGE_BYTES) EAF_SENDPIN_MESSAGE_BYTES (audio_frame <$> l)); try done.
  apply on_messages_handed. rewrite audio_messages by done. clear Hok Hp Hch. revert c. induction Hl as [|a l Ha _ IH]; intros c; [done |].
  cbn [fmap list_fmap on_messages]. rewrite audio_message_heard by done. cbn [mbind option_bind]. rewrite decide_False by (intros HH; by apply HH).
  apply IH.
Qed.

(** ** A scripted server *)

Inductive event := Ready | Start (codec : eaf_sendspin_codec_t) | Audio (timestamp : Z) (pcm : list Z) | Closed.

(** What each receive will deliver, what was sent, what the application heard. *)
Record peer := Peer { p_in : list (list Z); p_sent : list Z; p_heard : list event }.

(** A read delivers the next piece, cut to the room; after the last one the
    connection is lost. *)
#[export] Instance peer_hal : NetHal peer := {
  hal_tcp_connect t _ _ _ w := (Tcp 3 true, w, EAF_OK);
  hal_tcp_send t data w := (t, Peer (p_in w) (p_sent w ++ data) (p_heard w), zlen data, EAF_OK);
  hal_tcp_recv t cap w :=
    match p_in w with
    | [] :: rest => (t, Peer rest (p_sent w) (p_heard w), [], EAF_IO)
    | d :: rest => (t, Peer rest (p_sent w) (p_heard w), u8 <$> take (Z.to_nat cap) d, EAF_OK)
    | [] => (t, w, [], EAF_AGAIN)
    end;
  hal_tcp_close t w := (Tcp (fd t) false, w);
  hal_monotonic_time_us w := (w, 1000)
}.

#[export] Instance peer_laws : NetHalLaws peer.
Proof.
  split.
  - intros t data w t' w' n rc [= <- <- <- <-]. pose proof (zlen_nonneg data). lia.
  - intros t cap w t' w' data rc. cbn. destruct (p_in w) as [|[|x d] rest]; intros [= <- <- <- <-] Hcap Hrc; try discriminate Hrc.
    change (x :: d) with ([x] ++ d). rewrite zlen_fmap. pose proof (zlen_take_le ([x] ++ d) (Z.to_nat cap)). lia.
  - intros t cap w t' w' data rc. cbn. destruct (p_in w) as [|[|x d] rest]; intros [= <- <- <- <-]; try constructor.
    apply Forall_fmap, Forall_true. intros y. cbn. unfold is_u8, u8. word.
  - done.
  - intros t ip port ms w t' w' rc [= <- <- <-] Hrc. by destruct Hrc.
Qed.

Definition hear (x : event) (w : peer) : peer := Peer (p_in w) (p_sent w) (p_heard w ++ [x]).
Definition app : eaf_sendspin_callbacks_t peer :=
  ClientCallbacks (Some (fun _ _ => hear Ready)) (Some (fun _ s => hear (Start (start_codec s))))
    (Some (fun _ t pcm _ => hear (Audio t pcm))) None None None None (Some (hear Closed)).
Definition app_config : eaf_sendspin_config_t :=
  ClientConfig (Some [105; 100; 0]) (Some [110; 0]) None None None None 0 48000 2 16 65536 true true 100 0 250 500.

Lemma app_config_ok : config_ok app_config.
Proof.
  assert (Ht : forall x, terminated [x; 0]) by (intros; apply list_elem_of_further, list_elem_of_here).
  split; [| split].
  - unfold hello_ok, format_ok, is_u32, is_u8. cbn. split_and!; try lia; try done; by repeat constructor.
  - constructor; [apply list_elem_of_further, Ht |]. constructor; [apply Ht | constructor].
  - by repeat constructor.
Qed.

(** A server's text message in one unmasked frame, and the answer to the upgrade. *)
Definition told (json : string) : list Z := wire (Frame true EAF_SENDPIN_WS_TEXT None (requote (chars json))).
Definition switching : list Z := chars "HTTP/1.1 101 X" ++ [13; 10; 13; 10].
Definition hello_text : string := "{'type':'server/hello','payload':{'active_roles':['player@v1']}}".
Definition start_text : string :=
  "{'type':'stream/start','payload':{'player':{'codec':'pcm','sample_rate':48000,'channels':2,'bit_depth':16}}}".
Definition client0 (input : list (list Z)) : eaf_sendspin_client_t (ub eaf_sendspin_time_filter_t) peer :=
  eaf_sendspin_client_init app_config (Some app) (Peer input [] []).
Definition heard (s : eaf_sendspin_client_t (ub eaf_sendspin_time_filter_t) peer) : list event := p_heard (c_world (sc_core s)).

(** A session: connect, upgrade, hello, a PCM stream and one audio message, then the
    connection is lost. *)
Example session_runs :
  heard <$> client_session [CallConnect 2130706433 8927 1000; CallStep; CallStep; CallStep; CallStep; CallStep]
    (client0 [switching; told hello_text; told start_text; wire (audio_frame (7, [1; 2; 3; 4], None)); []])
  = Some [Ready; Start EAF_SENDPIN_CODEC_PCM; Audio 7 [1; 2; 3; 4]; Closed].
Proof. vm_compute. reflexivity. Qed.

Definition first_connection : list client_call := [CallConnect 2130706433 8927 1000; CallStep; CallStep; CallStep; CallStep].


Lemma client_connect_request_witness :
  exists s' rc, eaf_sendspin_client_connect (Some (client0 [])) 2130706433 8927 1000 = Some (Some s', rc) /\ client_inv s' /\
    (may_connect (client0 []) = false -> s' = client0 [] /\ rc = EAF_INVALID) /\
    (may_connect (client0 []) = true -> rc = EAF_OK -> upgrading 2130706433 8927 s').
Proof. apply (client_connect_request (client0 []) 2130706433 8927 1000); [apply client_init_inv, app_config_ok | lia]. Defined.

Definition audio_a : audio := (7, [1; 2], None).
Definition audio_b : audio := (-1, [3], Some 305419896).


Lemma client_audio_exact_witness :
  exists r', feed_chunks (Some message_callback) (eaf_sendspin_ws_rx_init (Some (zeros EAF_SENDPIN_MESSAGE_BYTES)) EAF_SENDPIN_MESSAGE_BYTES)
    (Some (sc_core (client0 []))) [wires (audio_frame <$> [audio_a; audio_b])]
  = Some (r', Some (foldl hear_audio (sc_core (client0 [])) [audio_a; audio_b]), EAF_OK).
Proof.
  apply (client_audio_exact (sc_core (client0 [])) [audio_a; audio_b]); [| cbn [concat]; apply app_nil_r].
  constructor; [| constructor; [| constructor]]; (split; [split; [discriminate | reflexivity] |]); (split; [by repeat constructor | vm_compute; discriminate]).
Defined.

(** ** Findings *)

(** The receiver is initialised with the client and not when it connects: after a
    connection lost inside a frame, the first bytes of the next connection complete
    that frame.  Here the header of the second server's hello is played as audio and
    the hello is lost; had the first connection been lost between two frames, the
    client would be ready. *)
Theorem client_stale_receiver :
  let audio := wire (audio_frame (7, [1; 2; 3; 4], None)) in
  heard <$> client_session (first_connection ++ [CallConnect 2130706433 8927 1000; CallStep; CallStep; CallStep])
    (client0 [switching; told hello_text; take 11 audio; []; switching; told hello_text; audio])
  = Some [Ready; Closed; Audio 7 (take 4 (told hello_text)); Closed] /\
  heard <$> client_session (first_connection ++ [CallConnect 2130706433 8927 1000; CallStep; CallStep; CallStep])
    (client0 [switching; told hello_text; audio; []; switching; told hello_text; audio])
  = Some [Ready; Audio 7 [1; 2; 3; 4]; Closed; Ready; Audio 7 [1; 2; 3; 4]].
Proof. split; vm_compute; reflexivity. Qed.

(** After a close frame the rest of the chunk is still dispatched: a hello behind it
    makes a closed client ready. *)
Theorem client_ready_after_close :
  (fun s => (heard s, l_state (c_link (sc_core s)), eaf_sendspin_client_ready (Some s))) <$>
    client_session [CallConnect 2130706433 8927 1000; CallStep; CallStep]
      (client0 [switching; wire (Frame true EAF_SENDPIN_WS_CLOSE None []) ++ told hello_text])
  = Some ([Closed; Ready], EAF_SENDPIN_CLIENT_CLOSED, true).
Proof. vm_compute. reflexivity. Qed.

(** What follows the upgrade's header in the same segment is dropped: the hello is
    never answered. *)
Theorem client_upgrade_drops_tail :
  heard <$> client_session first_connection (client0 [switching ++ told hello_text; wire (audio_frame (7, [1], None))]) = Some [Audio 7 [1]] /\
  heard <$> client_session first_connection (client0 [switching; told hello_text; wire (audio_frame (7, [1], None))]) = Some [Ready; Audio 7 [1]].
Proof. split; vm_compute; reflexivity. Qed.
