(* ===== verification/DecShared.v ===== *)
(** What the codec adapters share: the frames the interleaving loops produce, and a
    third-party decoder as a program of reads that the adapter's callback answers
    ([apps/decoders/dec_flac.c], [dec_mp3.c]). *)

From S2P Require Import Prelude Types Ring DecInput.

(** ** Frames *)

(** Output frame [i] of an interleaved source: its channels, or a mono one duplicated. *)
Definition frame_at (conv : Z -> Z) (src : list Z) (sc dc i : Z) : list Z :=
  let left := conv (default 0 (ld src (i * sc))) in
  if decide (dc = 2)
  then [left; if decide (sc = 2) then conv (default 0 (ld src (i * sc + 1))) else left]
  else [left].

Definition frames_of (conv : Z -> Z) (src : list Z) (sc dc n : Z) : list (list Z) :=
  frame_at conv src sc dc <$> seqZ 0 n.

(** Channel counts an adapter may convert. *)
Definition layout_ok (sc dc : Z) : Prop := (sc = 1 \/ sc = 2) /\ (dc = sc \/ (sc = 1 /\ dc = 2)).

Lemma zlen_frame_at conv src sc dc i : dc = 1 \/ dc = 2 -> zlen (frame_at conv src sc dc i) = dc.
Proof. intros [-> | ->]; done. Qed.

Lemma zlen_frames_of conv src sc dc n : 0 <= n -> zlen (frames_of conv src sc dc n) = n.
Proof. intros. unfold frames_of. by rewrite zlen_fmap, zlen_seqZ. Qed.

Lemma interleave_round conv src sc dc i dst :
  layout_ok sc dc -> 0 <= i -> (i + 1) * sc <= zlen src -> (i + 1) * dc <= zlen dst ->
  interleave_body conv src sc dc i dst = Some (splice dst (i * dc) (frame_at conv src sc dc i)).
Proof.
  intros [Hsc Hdc] Hi Hs Hd. unfold interleave_body, frame_at.
  destruct (ld_is_Some src (i * sc)) as [l ->]; [destruct Hsc as [-> | ->]; lia |]. cbn [mbind option_bind default].
  destruct (decide (dc = 2)) as [->|Hne].
  - set (r := if decide (sc = 2) then _ else Some _). set (rv := if decide (sc = 2) then _ else _).
    replace r with (Some rv).
    2:{ subst r rv. destruct (decide (sc = 2)) as [->|]; [| done].
        by destruct (ld_is_Some src (i * 2 + 1)) as [x ->]; [lia |]. }
    cbn [mbind option_bind]. rewrite st_eq by lia. cbn [mbind option_bind].
    rewrite st_eq by (rewrite zlen_insert; lia). f_equal.
    rewrite <- (splice_singleton dst (i * 2) (conv l)) by lia.
    rewrite <- (splice_singleton (splice dst (i * 2) [conv l]) (i * 2 + 1) rv)
      by (rewrite zlen_splice; change (zlen [conv l]) with 1; lia).
    apply (splice_app dst [conv l] [rv]); [lia |]. change (zlen [conv l]) with 1. change (zlen [rv]) with 1. lia.
  - assert (dc = 1) as -> by lia. rewrite Z.mul_1_r in *. by rewrite splice_singleton, st_eq by lia.
Qed.

(** The loops write the frames one after the other. *)
Lemma interleave_frames conv src n sc dc dst :
  layout_ok sc dc -> 0 <= n -> n * sc <= zlen src -> n * dc <= zlen dst ->
  for_to n (interleave_body conv src sc dc) dst =
    Some (splice dst 0 (concat (frames_of conv src sc dc n))) /\
  zlen (concat (frames_of conv src sc dc n)) = n * dc.
Proof.
  intros Hl Hn Hs Hd. assert (Hdc : dc = 1 \/ dc = 2) by (unfold layout_ok in Hl; lia).
  apply (for_blocks _ _ dst 0 dc n); [lia | lia | done | lia | |].
  - intros i q Hi Hq. rewrite interleave_round; [by rewrite Z.add_0_l | done | lia | |]; unfold layout_ok in Hl; nia.
  - intros. by apply zlen_frame_at.
Qed.

(** Converting from an offset continues the sequence of frames. *)
Lemma frames_of_slice conv src sc dc pos n :
  sc = 1 \/ sc = 2 -> 0 <= pos -> 0 <= n -> (pos + n) * sc <= zlen src ->
  frames_of conv (slice src (pos * sc) (zlen src - pos * sc)) sc dc n =
  frame_at conv src sc dc <$> seqZ pos n.
Proof.
  intros Hsc Hp Hn Hs. unfold frames_of. apply list_eq. intros k.
  rewrite !list_lookup_fmap. destruct (decide (Z.of_nat k < n)).
  - rewrite !lookup_seqZ_lt by lia. simpl. f_equal.
    assert (Hld : forall j, 0 <= j -> (0 + Z.of_nat k) * sc + j < n * sc ->
      ld (slice src (pos * sc) (zlen src - pos * sc)) ((0 + Z.of_nat k) * sc + j) =
      ld src ((pos + Z.of_nat k) * sc + j)).
    { intros j Hj Hlt. rewrite !ld_lookup, lookup_slice by nia. f_equal. nia. }
    pose proof (Hld 0 ltac:(lia) ltac:(nia)) as H0. rewrite !Z.add_0_r in H0.
    unfold frame_at. rewrite H0. destruct (decide (dc = 2)); [| done].
    destruct (decide (sc = 2)) as [->|]; [| done]. by rewrite Hld by lia.
  - by rewrite !lookup_seqZ_ge by lia.
Qed.

Lemma frames_of_drop conv src sc dc pos n :
  0 <= pos <= n -> drop (Z.to_nat pos) (frames_of conv src sc dc n) = frame_at conv src sc dc <$> seqZ pos (n - pos).
Proof.
  intros Hp. unfold frames_of. rewrite <- fmap_drop. f_equal.
  replace n with (pos + (n - pos)) at 1 by lia. rewrite seqZ_app by lia.
  rewrite drop_app_length' by (rewrite length_seqZ; lia). f_equal.
Qed.

Lemma seqZ_take m n k : 0 <= k <= n -> take (Z.to_nat k) (seqZ m n) = seqZ m k.
Proof.
  intros Hk. replace n with (k + (n - k)) by lia. rewrite seqZ_app by lia.
  by rewrite take_app_length' by (rewrite length_seqZ; lia).
Qed.

(** Only the cells of the frames matter. *)
Lemma frames_of_splice conv l out sc dc n :
  sc = 1 \/ sc = 2 -> 0 <= n -> n * sc <= zlen out -> zlen out <= zlen l ->
  frames_of conv (splice l 0 out) sc dc n = frames_of conv out sc dc n.
Proof.
  intros Hsc Hn Hs Hl.
  assert (Hld : forall j, 0 <= j < n * sc -> ld (splice l 0 out) j = ld out j).
  { intros j Hj. rewrite !ld_lookup, lookup_splice by lia. rewrite decide_True by lia. f_equal. lia. }
  unfold frames_of. apply list_fmap_ext. intros k i Hi. apply lookup_seqZ in Hi as [-> Hk].
  unfold frame_at. rewrite Hld by nia. destruct (decide (dc = 2)); [| done].
  destruct (decide (sc = 2)) as [->|]; [| done]. by rewrite Hld by nia.
Qed.

(** A decode owner that pulls again and again: the buffers it offers, with the frames
    they hold, and what each pull answers: the cells stored, the frames and the code. *)
Definition answer : Type := list Z * Z * Z.

Fixpoint pulls {C} (pull : ptr C -> list Z -> Z -> Z -> eaf_format_t -> ub (ptr C * list Z * Z * eaf_format_t * Z))
    (oc : Z) (calls : list (list Z * Z)) (c : ptr C) : ub (ptr C * list answer) :=
  match calls with
  | [] => Some (c, [])
  | (cells, m) :: rest =>
      '(c, pcm, n, _, rc) ← pull c cells m 0 format_zero;
      '(c, l) ← pulls pull oc rest c;
      Some (c, (slice pcm 0 (n * oc), n, rc) :: l)
  end.

(** A buffer for at least one frame. *)
Definition buffer_ok (oc : Z) (call : list Z * Z) : Prop := 0 < call.2 /\ call.2 * oc <= zlen call.1.

Lemma slice_splice_front (cells out : list Z) n :
  zlen out = n -> n <= zlen cells -> slice (splice cells 0 out) 0 n = out.
Proof.
  intros <- Hfit. pose proof (zlen_nonneg out). pose proof (slice_splice cells out 0 0 (zlen out)) as Hs.
  change (0 + 0) with 0 in Hs. rewrite Hs by lia. apply slice_0_all.
Qed.

(** Without a change of layout the frames are the cells themselves. *)
Lemma frames_of_same src c n :
  c = 1 \/ c = 2 -> 0 <= n -> n * c <= zlen src -> concat (frames_of (fun x => x) src c c n) = slice src 0 (n * c).
Proof.
  intros Hc Hn. unfold frames_of. pattern n. apply natlike_ind; [by rewrite slice_nil_n | | done].
  intros i Hi IH Hfit. unfold Z.succ in *. rewrite seqZ_snoc, fmap_app, concat_app, IH by nia.
  rewrite Z.mul_add_distr_r, Z.mul_1_l, slice_add by nia. f_equal. cbn [fmap list_fmap concat].
  rewrite app_nil_r, Z.add_0_l. unfold frame_at.
  destruct (ld_is_Some src (i * c)) as [x Hx]; [nia |]. rewrite Hx. cbn [default].
  rewrite (slice_cons _ _ _ _ Hx) by lia. destruct Hc as [-> | ->]; decide_lia; [done |].
  destruct (ld_is_Some src (i * 2 + 1)) as [y Hy]; [lia |]. rewrite Hy. rewrite (slice_cons _ _ _ _ Hy) by lia.
  by rewrite slice_nil_n.
Qed.
