(* ===== verification/DecReads.v ===== *)
(** A third-party decoder that pulls its input through a callback: a program of reads,
    answered by the compressed-input ring ([flac_read], [mp3_read]). *)

From S2P Require Import Prelude Types Ring DecInput.

(** A library call that ends with [a], after calls [onRead(user, buffer, n)]; the
    continuation gets the bytes the callback reported. *)
Inductive reads (A : Type) :=
| Done (a : A)
| Read (n : Z) (k : list Z -> reads A).
Arguments Done {A}. Arguments Read {A}.

(** [n] is a [size_t]; every answer of at most [n] bytes leads to a result in [P]. *)
Fixpoint reads_ok {A} (P : A -> Prop) (t : reads A) : Prop :=
  match t with
  | Done a => P a
  | Read n k => 0 <= n /\ forall bs, zlen bs <= n -> reads_ok P (k bs)
  end.

(** The whole compressed stream at hand: every read is as long as the stream allows. *)
Fixpoint read_all {A} (t : reads A) (stream : list Z) : A * list Z :=
  match t with
  | Done a => (a, stream)
  | Read n k => read_all (k (take (Z.to_nat n) stream)) (drop (Z.to_nat n) stream)
  end.

Section run.
Context {W : Type} (call_await : Z -> Z -> W -> eaf_dec_input_t -> Z * W * eaf_dec_input_t).

(** [flac_read] and [mp3_read]: the library's buffer has [n] bytes. *)
Definition input_read (i : eaf_dec_input_t) (w : W) (n : Z) : ub (eaf_dec_input_t * W * list Z) :=
  '(i, w, out, got) ← eaf_dec_input_read call_await (2 * Z.to_nat n + 2) (Some i) w (replicate (Z.to_nat n) 0) n;
  i ← i; Some (i, w, slice out 0 got).

Fixpoint run_reads {A} (t : reads A) (i : eaf_dec_input_t) (w : W) : ub (A * eaf_dec_input_t * W) :=
  match t with
  | Done a => Some (a, i, w)
  | Read n k => '(i, w, bs) ← input_read i w n; run_reads (k bs) i w
  end.

(** ** The library's calls return *)
Context (delivered : W -> list Z).

Lemma input_read_spec i w n :
  await_contract call_await delivered -> dec_input_wf i -> 0 <= n ->
  exists i' w' bs d, input_read i w n = Some (i', w', bs) /\ dec_input_wf i' /\ zlen bs <= n /\
    delivered w' = delivered w ++ d /\ bs ++ dec_bytes i' = dec_bytes i ++ d.
Proof.
  intros Hcon Hwf Hn. unfold input_read, eaf_dec_input_read.
  assert (Hz : zlen (replicate (Z.to_nat n) 0) = n) by (apply zlen_replicate; lia).
  destruct (read_loop_spec call_await delivered (2 * Z.to_nat n + 2) i w (replicate (Z.to_nat n) 0) n 0)
    as (i' & w' & out' & got & d & -> & Hwf' & Hg & Ho & Hd & Heq & Hle); try done; try lia.
  { case_decide; lia. }
  cbn [mbind option_bind]. exists i', w', (slice out' 0 got), d.
  rewrite zlen_slice by lia. split_and!; done || lia.
Qed.

(** The calls end; the bytes the library got and those still waiting are the bytes
    that were waiting and those delivered meanwhile. *)
Lemma run_reads_total {A} (P : A -> Prop) t i w :
  await_contract call_await delivered -> dec_input_wf i -> reads_ok P t ->
  exists a i' w' used d, run_reads t i w = Some (a, i', w') /\ P a /\ dec_input_wf i' /\
    delivered w' = delivered w ++ d /\ used ++ dec_bytes i' = dec_bytes i ++ d.
Proof.
  intros Hcon. revert i w. induction t as [a | n k IH]; intros i w Hwf Hok.
  - exists a, i, w, [], []. by rewrite !app_nil_r.
  - destruct Hok as [Hn Hk]. destruct (input_read_spec i w n Hcon Hwf Hn) as (i1 & w1 & bs & d1 & Hr & Hwf1 & Hz & Hd1 & Hb1).
    destruct (IH bs i1 w1 Hwf1 (Hk bs Hz)) as (a & i' & w' & used & d & Hrun & HP & Hwf' & Hd & Hu).
    exists a, i', w', (bs ++ used), (d1 ++ d). cbn [run_reads]. rewrite Hr. cbn [mbind option_bind].
    rewrite Hd, Hd1, !app_assoc, <- Hb1, <- !app_assoc, Hu. done.
Qed.
End run.

(** ** Blocking hooks

    [future w] is what a producer will still push: a hook called on an empty, open
    ring waits until some of it has arrived, or all of it and the end. *)
Section blocking.
Context {W : Type} (call_await : Z -> Z -> W -> eaf_dec_input_t -> Z * W * eaf_dec_input_t).
Context (future : W -> list Z).

Definition await_blocks : Prop :=
  forall fn ctx w i, dec_input_wf i -> count i = 0 -> eof i = false ->
    let '(rc, w', i') := call_await fn ctx w i in
    rc = 0 /\ dec_input_wf i' /\ await i' = await i /\ dec_bytes i' ++ future w' = future w /\
    (0 < count i' \/ eof i' = true) /\ (eof i' = true -> future w' = []).

(** A ring that will see the rest of the stream: it has a hook, or all of it arrived. *)
Record feeds (stream : list Z) (i : eaf_dec_input_t) (w : W) : Prop := {
  feeds_wf : dec_input_wf i;
  feeds_stream : dec_bytes i ++ future w = stream;
  feeds_end : eof i = true \/ await i = 0 -> future w = []
}.

Lemma feeds_chunk stream i w c l :
  feeds stream i w -> ring i = Some l -> 0 <= c <= count i -> c <= capacity i - tail i ->
  feeds (drop (Z.to_nat c) stream) (after_chunk i c) w.
Proof.
  intros [Hwf Hs He] Hr Hc Hle. destruct (after_chunk_spec i c l Hwf Hr Hc Hle) as [Hwf' Hb].
  split; [done | | done]. rewrite <- Hs, Hb, <- app_assoc. pose proof (dec_tail _ Hwf).
  destruct (dec_storage _ Hwf) as (l' & Hr' & Hl). rewrite Hr in Hr'. injection Hr' as <-.
  rewrite drop_app_length'; [done |]. assert (Hz : zlen (slice l (tail i) c) = c) by (apply zlen_slice; lia).
  unfold zlen in Hz. lia.
Qed.

Lemma feeds_zlen stream i w : feeds stream i w -> zlen stream = count i + zlen (future w).
Proof. intros [Hwf <- _]. by rewrite zlen_app, dec_bytes_length. Qed.

Lemma feeds_ended stream i w : feeds stream i w -> count i = 0 -> eof i = true \/ await i = 0 -> stream = [].
Proof.
  intros Hfd Hz Hend. apply zlen_0_nil. pose proof (feeds_zlen _ _ _ Hfd) as Hl.
  rewrite (feeds_end _ _ _ Hfd Hend) in Hl. change (zlen (@nil Z)) with 0 in Hl. lia.
Qed.

(** One call of the hook. *)
Lemma feeds_hook stream i w :
  await_blocks -> feeds stream i w -> count i = 0 -> eof i = false -> await i <> 0 ->
  exists w1 i1, call_await (await i) (await_ctx i) w i = (0, w1, i1) /\ feeds stream i1 w1 /\
    (count i1 = 0 -> eof i1 = true /\ stream = []).
Proof.
  intros Hblk [Hwf Hst He] Hz Heof Haw. specialize (Hblk (await i) (await_ctx i) w i Hwf Hz Heof).
  destruct (call_await (await i) (await_ctx i) w i) as [[rc w1] i1].
  destruct Hblk as (-> & Hwf1 & Ha1 & Hb1 & Hmore & Hend). exists w1, i1. split; [done |].
  assert (Hnil : dec_bytes i = []) by (apply zlen_0_nil; rewrite dec_bytes_length; done).
  assert (Hfd1 : feeds stream i1 w1).
  { split; [done | by rewrite Hb1, <- Hst, Hnil |]. rewrite Ha1. intros [?|?]; [by apply Hend | done]. }
  split; [done |]. intros Hz1. destruct Hmore as [|He1]; [lia |]. split; [done |].
  apply (feeds_ended stream i1 w1); auto.
Qed.

(** One copied chunk. *)
Lemma feeds_copy fuel stream i w out length got :
  feeds stream i w -> 0 <= got < length -> length <= zlen out -> 0 < count i ->
  exists c out1, 0 < c <= length - got /\ c <= zlen stream /\
    read_loop call_await (S fuel) i w out length got =
      read_loop call_await fuel (after_chunk i c) w out1 length (got + c) /\
    feeds (drop (Z.to_nat c) stream) (after_chunk i c) w /\ zlen out1 = zlen out /\
    slice out1 0 (got + c) = slice out 0 got ++ take (Z.to_nat c) stream.
Proof.
  intros Hfd Hgot Hout Hct. pose proof Hfd as [Hwf Hst He].
  destruct (read_loop_chunk call_await fuel i w out length got Hwf Hgot Hout Hct)
    as (Hc0 & Hc1 & Hwf1 & out1 & Hrun & Hlen1 & Heq1).
  set (c := chunk_of i (length - got)) in *. destruct (dec_storage _ Hwf) as (l & Hr & _).
  assert (Hcc : c <= count i /\ c <= capacity i - tail i) by (unfold c, chunk_of; lia).
  pose proof (feeds_zlen _ _ _ Hfd). pose proof (zlen_nonneg (future w)). pose proof (dec_bytes_length _ Hwf) as Hbl.
  exists c, out1. split_and!; try done; try lia; [apply (feeds_chunk stream i w c l); done || lia |].
  apply (f_equal (take (Z.to_nat (got + c)))) in Heq1.
  assert (H1 : zlen (slice out1 0 (got + c)) = got + c) by (apply zlen_slice; lia).
  assert (H2 : zlen (slice out 0 got) = got) by (apply zlen_slice; lia).
  unfold zlen in H1, H2, Hbl. rewrite take_app_length' in Heq1 by lia. rewrite Heq1, take_app_ge by lia.
  f_equal. rewrite <- Hst, take_app_le by lia. f_equal. lia.
Qed.

(** A read stops short only at the end of the stream. *)
Lemma read_loop_blocks fuel stream i w out length got :
  await_blocks -> feeds stream i w -> 0 <= got <= length -> length <= zlen out ->
  (2 * Z.to_nat (length - got) + (if decide (count i = 0)%Z then 2 else 1) <= fuel)%nat ->
  let k := Z.min (length - got) (zlen stream) in
  exists i' w' out', read_loop call_await fuel i w out length got = Some (i', w', out', got + k) /\
    feeds (drop (Z.to_nat k) stream) i' w' /\ zlen out' = zlen out /\
    slice out' 0 (got + k) = slice out 0 got ++ take (Z.to_nat k) stream.
Proof.
  intros Hblk. revert stream i w out got. induction fuel as [|fuel IH]; intros stream i w out got Hfd Hgot Hout Hf.
  { destruct (decide (count i = 0)); lia. }
  cbn zeta. pose proof (zlen_nonneg stream) as Hsz.
  assert (Hstop : forall i1 w1, feeds stream i1 w1 -> Z.min (length - got) (zlen stream) = 0 ->
    let k := Z.min (length - got) (zlen stream) in
    exists i' w' out', Some (i1, w1, out, got) = Some (i', w', out', got + k) /\
      feeds (drop (Z.to_nat k) stream) i' w' /\ zlen out' = zlen out /\
      slice out' 0 (got + k) = slice out 0 got ++ take (Z.to_nat k) stream).
  { intros i1 w1 Hfd1 ->. exists i1, w1, out. simpl. by rewrite Z.add_0_r, drop_0, take_0, app_nil_r. }
  pose proof (dec_count _ (feeds_wf _ _ _ Hfd)) as Hct.
  destruct (decide (got < length)) as [Hlt|Hge]; [| simpl; decide_lia; apply Hstop; done || lia].
  destruct (decide (count i = 0)) as [Hz|Hnz].
  - simpl. decide_lia. destruct (eof i || bool_decide (await i = 0)) eqn:Estop.
    { apply Hstop; [done |]. rewrite (feeds_ended stream i w Hfd Hz); [by change (zlen []) with 0; lia |].
      apply orb_true_iff in Estop as [?|?]; [by left | right; by case_bool_decide]. }
    apply orb_false_iff in Estop as [Heof Haw]. case_bool_decide as Haw0; [done |].
    destruct (feeds_hook stream i w Hblk Hfd Hz Heof Haw0) as (w1 & i1 & -> & Hfd1 & Hz1).
    rewrite decide_True by done. destruct (decide (count i1 = 0)) as [Hc1|Hc1].
    + (* the end arrived: one more round stops *)
      destruct (Hz1 Hc1) as [He1 Hnil]. destruct fuel as [|fuel]; [lia |]. simpl. decide_lia. rewrite He1. simpl.
      apply Hstop; [done |]. rewrite Hnil. change (zlen []) with 0. lia.
    + apply IH; [done | done | done |]. rewrite decide_False by done. lia.
  - destruct (feeds_copy fuel stream i w out length got Hfd ltac:(lia) Hout ltac:(lia))
      as (c & out1 & Hc & Hcs & -> & Hfd1 & Hlen1 & Hs1).
    assert (Hds : zlen (drop (Z.to_nat c) stream) = zlen stream - c) by (unfold zlen in *; rewrite length_drop; lia).
    destruct (IH (drop (Z.to_nat c) stream) (after_chunk i c) w out1 (got + c) Hfd1)
      as (i' & w' & out' & -> & Hfd' & Ho' & Hs'); [lia | lia | destruct (decide (count (after_chunk i c) = 0)); lia |].
    set (k' := Z.min (length - (got + c)) _) in *. set (k := Z.min (length - got) (zlen stream)).
    assert (Hk : k = c + k') by lia. exists i', w', out'.
    replace (got + k) with (got + c + k') by lia. split; [done |].
    rewrite drop_drop in Hfd'. replace (Z.to_nat c + Z.to_nat k')%nat with (Z.to_nat k) in Hfd' by lia.
    split; [done |]. split; [lia |].
    rewrite Hs', Hs1, Hk, Z2Nat.inj_add, <- take_take_drop, app_assoc by lia. done.
Qed.

(** ** Decoding through the ring is decoding the whole stream *)

Lemma input_read_blocks stream i w n :
  await_blocks -> feeds stream i w -> 0 <= n ->
  exists i' w', input_read call_await i w n = Some (i', w', take (Z.to_nat n) stream) /\
    feeds (drop (Z.to_nat n) stream) i' w'.
Proof.
  intros Hblk Hfd Hn. unfold input_read, eaf_dec_input_read.
  assert (Hz : zlen (replicate (Z.to_nat n) 0) = n) by (apply zlen_replicate; lia).
  destruct (read_loop_blocks (2 * Z.to_nat n + 2) stream i w (replicate (Z.to_nat n) 0) n 0)
    as (i' & w' & out' & -> & Hfd' & Ho & Hs); try done; try lia.
  { destruct (decide (count i = 0)); lia. }
  cbn [mbind option_bind]. rewrite Z.sub_0_r, Z.add_0_l in *. exists i', w'. rewrite Hs.
  change (slice (replicate (Z.to_nat n) 0) 0 0) with (@nil Z).
  destruct (decide (n <= zlen stream)).
  - by rewrite Z.min_l in * by done.
  - rewrite Z.min_r in * by lia. unfold zlen in *. rewrite !take_ge, !drop_ge in * by lia. done.
Qed.

Lemma run_reads_blocks {A} (P : A -> Prop) t stream i w :
  await_blocks -> feeds stream i w -> reads_ok P t ->
  exists i' w', run_reads call_await t i w = Some ((read_all t stream).1, i', w') /\
    feeds (read_all t stream).2 i' w' /\ P (read_all t stream).1.
Proof.
  intros Hblk. revert stream i w. induction t as [a | n k IH]; intros stream i w Hfd Hok; [by exists i, w |].
  destruct Hok as [Hn Hk]. destruct (input_read_blocks stream i w n Hblk Hfd Hn) as (i1 & w1 & Hr & Hfd1).
  cbn [run_reads read_all]. rewrite Hr. cbn [mbind option_bind].
  apply IH; [done |]. apply Hk. unfold zlen. rewrite length_take. lia.
Qed.
End blocking.

(** The await hook an adapter is configured with, and its documented contract. *)
Class AwaitHook (W : Type) := {
  call_await : Z -> Z -> W -> eaf_dec_input_t -> Z * W * eaf_dec_input_t;
  delivered : W -> list Z;
  hook_appends : await_contract call_await delivered
}.

(** ** A producer that hands over one byte per wait, then the end *)

(** What it has pushed, and what it will still push. *)
Definition byte_world : Type := list Z * list Z.

Definition byte_hook (fn ctx : Z) (w : byte_world) (i : eaf_dec_input_t) : Z * byte_world * eaf_dec_input_t :=
  match w.2 with
  | b :: rest =>
      match eaf_dec_input_push (Some i) [b] 1 with
      | Some (Some i', 1) => (0, (w.1 ++ [b], rest), i')
      | _ => (1, w, i)
      end
  | [] => match eaf_dec_input_finish (Some i) with Some i' => (0, w, i') | None => (1, w, i) end
  end.

Lemma byte_push_spec i b :
  dec_input_wf i ->
  ((exists i', eaf_dec_input_push (Some i) [b] 1 = Some (Some i', 0)) /\ (eof i = true \/ count i <> 0)) \/
  (exists i', eaf_dec_input_push (Some i) [b] 1 = Some (Some i', 1) /\ dec_input_wf i' /\ eof i' = false /\
     await i' = await i /\ dec_bytes i' = dec_bytes i ++ [b]).
Proof.
  intros Hwf. pose proof (dec_cap _ Hwf). pose proof (dec_count _ Hwf). pose proof (dec_bytes_length _ Hwf) as Hl.
  destruct (eof i) eqn:He.
  { left. split; [| by left]. exists i. destruct (dec_storage i Hwf) as (l & Hr & _).
    unfold eaf_dec_input_push, on_ptr. by rewrite Hr, He. }
  destruct (dec_push_spec i [b] 1 Hwf ltac:(by vm_compute) He) as (i' & Hp & Hwf' & He' & _ & Ha & _ & Hb).
  destruct (decide (count i = capacity i)) as [Hfull|Hroom].
  - left. split; [exists i' | right; lia]. rewrite Hp. by replace (Z.min 1 (capacity i - count i)) with 0 by lia.
  - right. exists i'. rewrite Hp, Hb. replace (Z.min 1 (capacity i - count i)) with 1 by lia. by split_and!.
Qed.

Lemma byte_hook_appends : await_contract byte_hook fst.
Proof.
  intros fn ctx [del rem] i Hwf. unfold byte_hook. cbn [fst snd].
  assert (Hstay : forall rc : Z, rc <> 0 -> dec_input_wf i /\
    (exists d, del = del ++ d /\ dec_bytes i = dec_bytes i ++ d) /\ (rc = 0 -> 0 < count i \/ eof i = true)).
  { intros rc Hrc. split; [done |]. split; [exists []; by rewrite !app_nil_r | done]. }
  destruct rem as [|b rest].
  - cbn [eaf_dec_input_finish mbind option_bind]. destruct Hwf as [Hs Hc Ht Hct].
    split; [by split | split; [exists []; by rewrite !app_nil_r | by right]].
  - destruct (byte_push_spec i b Hwf) as [[[i' ->] _]|(i' & -> & Hwf' & He & Ha & Hb)]; [by apply Hstay |].
    split; [done |]. split; [by exists [b] |]. intros _. left.
    apply (f_equal zlen) in Hb. rewrite zlen_app, !dec_bytes_length in Hb by done.
    change (zlen [b]) with 1 in Hb. pose proof (dec_count _ Hwf). lia.
Qed.

Lemma byte_hook_blocks : await_blocks byte_hook snd.
Proof.
  intros fn ctx [del rem] i Hwf Hz He. unfold byte_hook. cbn [fst snd].
  assert (Hnil : dec_bytes i = []) by (apply zlen_0_nil; rewrite dec_bytes_length; done).
  destruct rem as [|b rest].
  - cbn [eaf_dec_input_finish mbind option_bind]. destruct Hwf as [Hs Hc Ht Hct].
    split_and!; try done; first [by right | unfold dec_bytes in *; simpl; by rewrite Hnil].
  - destruct (byte_push_spec i b Hwf) as [[_ [?|?]]|(i' & -> & Hwf' & He' & Ha & Hb)]; [congruence | done |].
    rewrite Hb, Hnil. split_and!; try done; [| by rewrite He'].
    left. apply (f_equal zlen) in Hb. rewrite zlen_app, !dec_bytes_length in Hb by done.
    change (zlen [b]) with 1 in Hb. pose proof (dec_count _ Hwf). lia.
Qed.

#[export] Instance byte_feed : AwaitHook byte_world :=
  {| call_await := byte_hook; delivered := fst; hook_appends := byte_hook_appends |}.

(** The frames in the bytes a toy decoder got, one byte a sample. *)
Lemma byte_count (d : nat) n (bs : list Z) :
  0 <= n -> zlen bs <= n * Z.of_nat d -> 0 <= zlen bs / Z.of_nat d <= n /\ zlen bs / Z.of_nat d * Z.of_nat d <= zlen bs.
Proof.
  intros Hn Hbs. pose proof (zlen_nonneg bs). destruct (decide (Z.of_nat d = 0)) as [E|].
  - rewrite E, Z.div_0_r. lia.
  - pose proof (Z.mul_div_le (zlen bs) (Z.of_nat d) ltac:(lia)).
    split; [split; [by apply Z.div_pos; lia | apply Z.div_le_upper_bound; lia] | lia].
Qed.
