(* ===== verification/DecOpus.v ===== *)
(** The Opus adapter: [apps/decoders/dec_opus.c], [include/eaf/eaf_dec_opus.h]. The
    third-party libopus is the class [OpusLib]; the adapter keeps the decoder
    contract, and refines a queue of decoded frames. *)

From S2P Require Import Prelude Types Bytes Decoder DecShared.

Definition EAF_DEC_OPUS_MAX_PACKET : Z := 1500.
Definition EAF_DEC_OPUS_MAX_FRAMES : Z := 5760.
Definition OPUS_OK : Z := 0.

(** The library: a decoder object [D] on a heap [H]. [opus_decode d packet length
    frame_size fec] gives the object, the cells stored from the start of the
    output array, and the result. *)
Class OpusLib (D H : Type) := {
  opus_decoder_create : H -> Z -> Z -> H * ptr D * Z;
  opus_decode : D -> list Z -> Z -> Z -> Z -> D * list Z * Z;
  opus_reset_state : D -> D;              (* opus_decoder_ctl(st, OPUS_RESET_STATE) *)
  opus_decoder_destroy : H -> D -> H
}.

Section opus.
Context {D H : Type} `{!OpusLib D H}.

Record eaf_dec_opus_t := DecOpus {
  dec : ptr D;
  format : eaf_format_t;
  channels : Z;
  output_channels : Z;
  packet_length : Z;
  decoded_frames : Z;
  decoded_pos : Z;
  packet : list Z;        (* uint8_t packet[EAF_DEC_OPUS_MAX_PACKET] *)
  temp : list Z           (* int16_t temp[EAF_DEC_OPUS_MAX_FRAMES * 2] *)
}.

Definition set_staged (len frames pos : Z) (s : eaf_dec_opus_t) : eaf_dec_opus_t :=
  DecOpus (dec s) (format s) (channels s) (output_channels s) len frames pos (packet s) (temp s).
Definition set_dec (d : ptr D) (s : eaf_dec_opus_t) : eaf_dec_opus_t :=
  DecOpus d (format s) (channels s) (output_channels s) (packet_length s) (decoded_frames s)
    (decoded_pos s) (packet s) (temp s).
Definition set_temp (t : list Z) (s : eaf_dec_opus_t) : eaf_dec_opus_t :=
  DecOpus (dec s) (format s) (channels s) (output_channels s) (packet_length s) (decoded_frames s)
    (decoded_pos s) (packet s) t.
Definition set_packet (p : list Z) (n : Z) (s : eaf_dec_opus_t) : eaf_dec_opus_t :=
  DecOpus (dec s) (format s) (channels s) (output_channels s) n (decoded_frames s) (decoded_pos s) p (temp s).

(** The context: the adapter's state, and the heap its library allocates on. *)
Local Abbreviation opus_ctx := (eaf_dec_opus_t * H)%type.

Definition opus_open (ctx : ptr opus_ctx) (cfg : eaf_decoder_config_t) (output : eaf_format_t)
  : ub (ptr opus_ctx * Z) :=
  '(s, h) ← ctx;
  let rc := eaf_decoder_validate_open cfg output EAF_CODEC_OPUS false in
  if negb (bool_decide (rc = 0)) then Some (Some (s, h), rc)
  else
    let '(h, decoder, error) := opus_decoder_create h (s32 (cfg_sample_rate cfg)) (cfg_channels cfg) in
    match decoder with
    | None => Some (Some (s, h), EAF_UNSUPPORTED)
    | Some d =>
        if negb (bool_decide (error = OPUS_OK)) then Some (Some (s, h), EAF_UNSUPPORTED)
        else Some (Some (DecOpus (Some d) output (cfg_channels cfg) (num_channels output) 0 0 0
                           (packet s) (temp s), h), EAF_OK)
    end.

Definition opus_push (ctx : ptr opus_ctx) (data : ptr (list Z)) (length consumed : Z)
  : ub (ptr opus_ctx * Z * Z) :=
  '(s, h) ← ctx;
  if negb (bool_decide (packet_length s = 0)) then Some (Some (s, h), 0, EAF_OK)
  else if decide (EAF_DEC_OPUS_MAX_PACKET < length) then Some (Some (s, h), 0, EAF_INVALID)
  else
    p ← match data with
        | Some d => memcpy (packet s) 0 d 0 length
        | None => if decide (length = 0) then Some (packet s) else None
        end;
    Some (Some (set_packet p length s, h), length, EAF_OK).

(** The end of [opus_pull]: hand over frames already decoded. *)
Definition opus_emit (s : eaf_dec_opus_t) (h : H) (pcm : list Z) (max_frames : Z)
  : ub (ptr opus_ctx * list Z * Z * eaf_format_t * Z) :=
  let available := u32 (decoded_frames s - decoded_pos s) in
  let count := if decide (available < max_frames) then available else max_frames in
  let off := decoded_pos s * channels s in
  src ← ldn (temp s) off (zlen (temp s) - off);
  pcm ← eaf_s16_to_q31_interleaved src count (channels s) pcm (output_channels s);
  Some (Some (set_staged (packet_length s) (decoded_frames s) (u32 (decoded_pos s + count)) s, h),
        pcm, count, format s, EAF_OK).

Definition opus_pull (ctx : ptr opus_ctx) (pcm : list Z) (max_frames frames : Z) (fmt : eaf_format_t)
  : ub (ptr opus_ctx * list Z * Z * eaf_format_t * Z) :=
  '(s, h) ← ctx;
  if decide (max_frames = 0) then Some (Some (s, h), pcm, 0, fmt, EAF_INVALID)
  else if decide (decoded_frames s <= decoded_pos s) then
    let s := set_staged (packet_length s) 0 0 s in
    if decide (packet_length s = 0) then Some (Some (s, h), pcm, 0, fmt, EAF_OK)
    else
      d ← dec s;
      bytes ← ldn (packet s) 0 (packet_length s);
      let '(d, out, samples) := opus_decode d bytes (packet_length s) EAF_DEC_OPUS_MAX_FRAMES 0 in
      t ← stn (temp s) 0 out;
      let s := set_staged 0 0 0 (set_temp t (set_dec (Some d) s)) in
      if decide (samples < 0) then Some (Some (s, h), pcm, 0, fmt, EAF_INVALID)
      else
        let s := set_staged 0 (u32 samples) 0 s in
        if decide (decoded_frames s = 0) then Some (Some (s, h), pcm, 0, fmt, EAF_OK)
        else opus_emit s h pcm max_frames
  else opus_emit s h pcm max_frames.

Definition opus_reset (ctx : ptr opus_ctx) : ub (ptr opus_ctx * Z) :=
  '(s, h) ← ctx;
  let s := set_staged 0 0 0 s in
  Some (Some (set_dec (opus_reset_state <$> dec s) s, h), EAF_OK).

Definition opus_close (ctx : ptr opus_ctx) : ub (ptr opus_ctx) :=
  '(s, h) ← ctx;
  let '(s, h) := match dec s with
                 | Some d => (set_dec None s, opus_decoder_destroy h d)
                 | None => (s, h)
                 end in
  Some (Some (set_staged 0 0 0 s, h)).

Definition eaf_dec_opus_ops : eaf_decoder_ops_t opus_ctx :=
  DecoderOps (Some opus_open) (Some opus_push) (Some opus_pull) (Some opus_reset) (Some opus_close).
End opus.
#[global] Arguments eaf_dec_opus_t : clear implicits.

(** What libopus documents: a decoder writes at most the frames it is given room
    for, and exactly those it reports. *)
Class OpusLaws (D H : Type) `{!OpusLib D H} := {
  opus_dec_channels : D -> Z;
  opus_create_channels h fs ch h' d e :
    opus_decoder_create h fs ch = (h', Some d, e) -> opus_dec_channels d = ch;
  opus_decode_law d bytes n m fec d' out r :
    0 <= m -> opus_decode d bytes n m fec = (d', out, r) ->
    opus_dec_channels d' = opus_dec_channels d /\ r <= m /\ zlen out <= m * opus_dec_channels d /\
    (0 <= r -> r * opus_dec_channels d <= zlen out);
  opus_reset_channels d : opus_dec_channels (opus_reset_state d) = opus_dec_channels d
}.

(** ** The queue of decoded frames *)
Section spec.
Context {D H : Type} `{!OpusLib D H}.

(** The packet waiting to be decoded, and the decoded frames, as they are handed out. *)
Record opus_queue := OpusQueue { q_dec : D; q_packet : list Z; q_staged : list (list Z) }.

Definition q_push (data : list Z) (q : opus_queue) : opus_queue * Z * Z :=
  if decide (q_packet q <> []) then (q, 0, EAF_OK)
  else if decide (EAF_DEC_OPUS_MAX_PACKET < zlen data) then (q, 0, EAF_INVALID)
  else (OpusQueue (q_dec q) data (q_staged q), zlen data, EAF_OK).

Definition q_emit (m : Z) (q : opus_queue) : opus_queue * list (list Z) * Z :=
  (OpusQueue (q_dec q) (q_packet q) (drop (Z.to_nat m) (q_staged q)), take (Z.to_nat m) (q_staged q), EAF_OK).

(** [ch] input and [oc] output channels. *)
Definition q_pull (ch oc m : Z) (q : opus_queue) : opus_queue * list (list Z) * Z :=
  match q_staged q, q_packet q with
  | [], [] => (q, [], EAF_OK)
  | [], bytes =>
      let '(d, out, samples) := opus_decode (q_dec q) bytes (zlen bytes) EAF_DEC_OPUS_MAX_FRAMES 0 in
      if decide (samples < 0) then (OpusQueue d [] [], [], EAF_INVALID)
      else q_emit m (OpusQueue d [] (frames_of eaf_pcm16_to_q31 out ch oc samples))
  | _, _ => q_emit m q
  end.

Definition q_reset (q : opus_queue) : opus_queue := OpusQueue (opus_reset_state (q_dec q)) [] [].

(** Calls a decode owner makes, and what each answers: cells, a count and a code. *)
Inductive opus_call := OPush (data : list Z) | OPull (cells : list Z) (max_frames : Z) | OReset.

Definition q_call (ch oc : Z) (op : opus_call) (q : opus_queue) : opus_queue * answer :=
  match op with
  | OPush data => let '(q, k, rc) := q_push data q in (q, ([], k, rc))
  | OPull _ m => let '(q, out, rc) := q_pull ch oc m q in (q, (concat out, zlen out, rc))
  | OReset => (q_reset q, ([], 0, EAF_OK))
  end.

Fixpoint q_run (ch oc : Z) (script : list opus_call) (q : opus_queue) : opus_queue * list answer :=
  match script with
  | [] => (q, [])
  | op :: rest => let '(q, a) := q_call ch oc op q in let '(q, l) := q_run ch oc rest q in (q, a :: l)
  end.

(** The same calls on the adapter. *)
Definition opus_call_run (oc : Z) (op : opus_call) (c : ptr (eaf_dec_opus_t D * H)) : ub (ptr (eaf_dec_opus_t D * H) * answer) :=
  match op with
  | OPush data => '(c, k, rc) ← opus_push c (Some data) (zlen data) 0; Some (c, ([], k, rc))
  | OPull cells m => '(c, pcm, n, _, rc) ← opus_pull c cells m 0 format_zero; Some (c, (slice pcm 0 (n * oc), n, rc))
  | OReset => '(c, rc) ← opus_reset c; Some (c, ([], 0, rc))
  end.

Fixpoint opus_run (oc : Z) (script : list opus_call) (c : ptr (eaf_dec_opus_t D * H)) : ub (ptr (eaf_dec_opus_t D * H) * list answer) :=
  match script with
  | [] => Some (c, [])
  | op :: rest => '(c, a) ← opus_call_run oc op c; '(c, l) ← opus_run oc rest c; Some (c, a :: l)
  end.

Definition call_ok (oc : Z) (op : opus_call) : Prop :=
  match op with OPull cells m => 0 < m /\ m * oc <= zlen cells | _ => True end.
End spec.
#[global] Arguments opus_queue : clear implicits.

(** ** Invariant *)
Section facts.
Context {D H : Type} `{!OpusLib D H, !OpusLaws D H}.
Local Abbreviation state := (eaf_dec_opus_t D).
Implicit Types (s : state) (h : H).

(** The two arrays, as declared. *)
Definition opus_arrays (s : state) : Prop :=
  zlen (packet s) = EAF_DEC_OPUS_MAX_PACKET /\ zlen (temp s) = EAF_DEC_OPUS_MAX_FRAMES * 2.

Record opus_inv (fmt : eaf_format_t) (s : state) : Prop := {
  oinv_arrays : opus_arrays s;
  oinv_dec : exists d, dec s = Some d /\ opus_dec_channels d = channels s;
  oinv_format : format s = fmt;
  oinv_out : output_channels s = num_channels fmt;
  oinv_layout : layout_ok (channels s) (output_channels s);
  oinv_packet : 0 <= packet_length s <= EAF_DEC_OPUS_MAX_PACKET;
  oinv_pos : 0 <= decoded_pos s <= decoded_frames s;
  oinv_frames : decoded_frames s <= EAF_DEC_OPUS_MAX_FRAMES
}.

(** The queue a state stands for. *)
Definition staged (s : state) : list (list Z) :=
  frame_at eaf_pcm16_to_q31 (temp s) (channels s) (output_channels s) <$>
    seqZ (decoded_pos s) (decoded_frames s - decoded_pos s).

Definition stands_for (s : state) (q : opus_queue D) : Prop :=
  dec s = Some (q_dec q) /\ q_packet q = slice (packet s) 0 (packet_length s) /\ q_staged q = staged s.

Lemma zlen_staged s : decoded_pos s <= decoded_frames s -> zlen (staged s) = decoded_frames s - decoded_pos s.
Proof. intros. unfold staged. rewrite zlen_fmap, zlen_seqZ; lia. Qed.

Lemma opus_emit_spec fmt s h q pcm m :
  opus_inv fmt s -> stands_for s q -> 0 < m -> m * num_channels fmt <= zlen pcm ->
  let k := Z.min (decoded_frames s - decoded_pos s) m in
  exists s', opus_emit s h pcm m =
      Some (Some (s', h), splice pcm 0 (concat (take (Z.to_nat m) (q_staged q))), k, fmt, EAF_OK) /\
    opus_inv fmt s' /\ stands_for s' (q_emit m q).1.1 /\ channels s' = channels s /\ 0 <= k <= m /\
    zlen (take (Z.to_nat m) (q_staged q)) = k /\
    zlen (concat (take (Z.to_nat m) (q_staged q))) = k * num_channels fmt.
Proof.
  intros Hinv (Hd & Hpk & Hst) Hm Hfit k. pose proof Hinv as [[Ha1 Ha2] Hdec Hf Ho Hl Hp Hpos Hfr].
  unfold EAF_DEC_OPUS_MAX_PACKET, EAF_DEC_OPUS_MAX_FRAMES in *.
  assert (Hch : channels s = 1 \/ channels s = 2) by (destruct Hl; lia).
  assert (Hoc : 0 < output_channels s) by (destruct Hl; lia).
  unfold opus_emit. rewrite (u32_small (decoded_frames s - decoded_pos s)) by (unfold is_u32; lia).
  replace (if decide (_ < m) then _ else m) with k by (unfold k; case_decide; lia).
  assert (Hk : 0 <= k <= m /\ decoded_pos s + k <= decoded_frames s) by lia.
  assert (Hroom : (decoded_pos s + k) * channels s <= zlen (temp s)) by nia.
  rewrite (ldn_eq (temp s)) by nia. cbn [mbind option_bind].
  set (src := slice (temp s) _ _).
  assert (Hsz : zlen src = zlen (temp s) - decoded_pos s * channels s) by (apply zlen_slice; nia).
  destruct (interleave_frames eaf_pcm16_to_q31 src k (channels s) (output_channels s) pcm)
    as [Hrun Hcz]; [done | lia | nia | nia |].
  unfold eaf_s16_to_q31_interleaved. rewrite Hrun. cbn [mbind option_bind].
  unfold src in *. rewrite frames_of_slice in * by (done || lia).
  assert (Htake : take (Z.to_nat m) (q_staged q) = frame_at eaf_pcm16_to_q31 (temp s) (channels s) (output_channels s)
      <$> seqZ (decoded_pos s) k).
  { rewrite Hst. unfold staged. rewrite <- fmap_take. f_equal. destruct (decide (decoded_frames s - decoded_pos s < m)).
    - rewrite take_ge by (rewrite length_seqZ; lia). f_equal. lia.
    - rewrite seqZ_take by lia. f_equal. lia. }
  rewrite u32_small by (unfold is_u32; lia).
  eexists. split; [by rewrite Htake, Hf |].
  split_and!; [.. | rewrite Htake, zlen_fmap, zlen_seqZ; lia | by rewrite Htake, Hcz, Ho]; try done; try lia.
  - split; simpl; try done; unfold EAF_DEC_OPUS_MAX_PACKET, EAF_DEC_OPUS_MAX_FRAMES; lia.
  - split; [done |]. split; [done |]. simpl. rewrite Hst. unfold staged. simpl. rewrite <- fmap_drop. f_equal.
    set (n := decoded_frames s - decoded_pos s) in *.
    destruct (decide (n < m)).
    + rewrite drop_ge by (rewrite length_seqZ; lia). replace (decoded_frames s - (decoded_pos s + k)) with 0 by lia. done.
    + replace n with (m + (n - m)) by lia. rewrite seqZ_app by lia.
      rewrite drop_app_length' by (rewrite length_seqZ; lia). f_equal; lia.
Qed.

(** After the library decoded a packet into [temp]: [k] frames are staged. *)
Definition decoded (s : state) (d : D) (out : list Z) (k : Z) : state :=
  DecOpus (Some d) (format s) (channels s) (output_channels s) 0 k 0 (packet s) (splice (temp s) 0 out).

Lemma opus_decoded fmt s d bytes n fec d' out r :
  opus_inv fmt s -> dec s = Some d -> opus_decode d bytes n EAF_DEC_OPUS_MAX_FRAMES fec = (d', out, r) ->
  stn (temp s) 0 out = Some (splice (temp s) 0 out) /\ r <= EAF_DEC_OPUS_MAX_FRAMES /\
  (forall k, 0 <= k <= Z.max 0 r -> opus_inv fmt (decoded s d' out k) /\
     stands_for (decoded s d' out k)
       (OpusQueue d' [] (frames_of eaf_pcm16_to_q31 out (channels s) (output_channels s) k))).
Proof.
  intros [[Ha1 Ha2] (d0 & Hd0 & Hdch) Hf Ho Hl Hp Hpos Hfr] Hd Edec.
  rewrite Hd in Hd0. injection Hd0 as <-.
  destruct (opus_decode_law _ _ _ EAF_DEC_OPUS_MAX_FRAMES _ _ _ _ ltac:(done) Edec) as (Hd' & Hr & Hout & Hrout).
  rewrite Hdch in Hout, Hrout. unfold EAF_DEC_OPUS_MAX_FRAMES, EAF_DEC_OPUS_MAX_PACKET in *.
  assert (Hch : channels s = 1 \/ channels s = 2) by (destruct Hl; lia).
  assert (Hfo : zlen out <= zlen (temp s)) by lia.
  split; [apply stn_eq; lia |]. split; [done |]. intros k Hk. split.
  - split; simpl; try done; try (unfold EAF_DEC_OPUS_MAX_FRAMES, EAF_DEC_OPUS_MAX_PACKET; lia).
    + split; simpl; [done | rewrite zlen_splice by lia; exact Ha2].
    + exists d'. by rewrite Hd'.
  - split; [done |]. split; [done |]. unfold staged. simpl. rewrite Z.sub_0_r.
    symmetry. destruct (decide (k = 0)) as [->|]; [done |].
    apply frames_of_splice; [done | lia | nia | lia].
Qed.

Lemma opus_pull_spec fmt s h q pcm m n fmt0 :
  opus_inv fmt s -> stands_for s q -> 0 < m -> m * num_channels fmt <= zlen pcm ->
  let '(q', out, rc) := q_pull (channels s) (output_channels s) m q in
  exists s' fmt', opus_pull (Some (s, h)) pcm m n fmt0 =
      Some (Some (s', h), splice pcm 0 (concat out), zlen out, fmt', rc) /\
    opus_inv fmt s' /\ stands_for s' q' /\ channels s' = channels s /\ zlen out <= m /\
    (0 < zlen out -> fmt' = fmt) /\ zlen (concat out) = zlen out * num_channels fmt.
Proof.
  intros Hinv Hq Hm Hfit. pose proof Hinv as [[Ha1 Ha2] (d & Hd & Hdch) Hf Ho Hl Hp Hpos Hfr].
  pose proof Hq as (Hqd & Hqp & Hqs).
  assert (Hns : zlen (q_staged q) = decoded_frames s - decoded_pos s) by (rewrite Hqs; apply zlen_staged; lia).
  assert (Hpz : zlen (q_packet q) = packet_length s) by (rewrite Hqp; apply zlen_slice; lia).
  assert (Hmz : zlen (@nil (list Z)) <= m) by (change (0 <= m); lia).
  unfold opus_pull. cbn [mbind option_bind]. rewrite decide_False by lia. unfold q_pull.
  destruct (decide (decoded_frames s <= decoded_pos s)).
  2:{ destruct (q_staged q) as [|x l] eqn:Es; [change (zlen (@nil (list Z))) with 0 in Hns; lia |].
      destruct (opus_emit_spec fmt s h q pcm m Hinv Hq Hm Hfit) as (s' & Hrun & Hinv' & Hst & Hc & Hk & Hz & Hcz).
      rewrite Es in Hrun, Hz, Hcz. destruct (q_packet q); unfold q_emit in *; rewrite Es in *;
      exists s', fmt; rewrite Hz; split_and!; try done; try lia. }
  assert (Hs0 : q_staged q = []) by (apply zlen_0_nil; lia). rewrite Hs0.
  cbn [packet_length set_staged]. destruct (decide (packet_length s = 0)) as [Hz|Hnz].
  { assert (q_packet q = []) as Hq0 by (apply zlen_0_nil; lia). rewrite Hq0.
    exists (set_staged (packet_length s) 0 0 s), fmt0. cbn [concat]. rewrite splice_nil.
    split; [done |]. split; [by split; simpl; eauto with lia |].
    split; [by split; [| split] | split_and!; done]. }
  destruct (q_packet q) as [|b bs] eqn:Eb; [change (zlen (@nil Z)) with 0 in Hpz; lia |].
  cbn [dec set_staged packet]. rewrite Hd. cbn [mbind option_bind].
  rewrite (ldn_eq (packet s)) by lia. cbn [mbind option_bind]. rewrite <- Hqp, Hpz.
  injection (eq_trans (eq_sym Hd) Hqd) as <-.
  destruct (opus_decode d (b :: bs) (packet_length s) EAF_DEC_OPUS_MAX_FRAMES 0) as [[d' out] r] eqn:Edec.
  destruct (opus_decoded fmt s d _ _ _ d' out r Hinv Hd Edec) as (Hstn & Hr & Hdec).
  cbn [temp set_staged set_dec]. rewrite Hstn. cbn [mbind option_bind].
  destruct (decide (r < 0)).
  - destruct (Hdec 0 ltac:(lia)) as [Hi Hs].
    exists (decoded s d' out 0), fmt0. cbn [concat]. rewrite splice_nil. split_and!; done.
  - cbn [decoded_frames set_staged]. unfold EAF_DEC_OPUS_MAX_FRAMES in Hr. rewrite u32_small by (unfold is_u32; lia).
    destruct (Hdec r ltac:(lia)) as [Hi Hs]. set (q2 := OpusQueue d' [] _) in *.
    destruct (opus_emit_spec fmt _ h q2 pcm m Hi Hs Hm Hfit) as (s' & Hrun & Hinv' & Hst & Hc & Hk & Hz & Hcz).
    destruct (decide (r = 0)) as [->|].
    + exists (decoded s d' out 0), fmt0. unfold q_emit. cbn [q_staged q2] in *.
      change (frames_of _ _ _ _ 0) with (@nil (list Z)) in *. rewrite take_nil, drop_nil. cbn [concat].
      rewrite splice_nil. split_and!; done.
    + unfold q_emit. exists s', fmt. rewrite Hz. split_and!; done || lia.
Qed.

Lemma opus_push_spec fmt s h q data n k :
  opus_inv fmt s -> stands_for s q -> 0 <= n <= zlen data ->
  let '(q', k', rc) := q_push (slice data 0 n) q in
  exists s', opus_push (Some (s, h)) (Some data) n k = Some (Some (s', h), k', rc) /\
    opus_inv fmt s' /\ stands_for s' q' /\ channels s' = channels s /\ 0 <= k' <= n.
Proof.
  intros Hinv Hq Hn. pose proof Hinv as [[Ha1 Ha2] Hd Hf Ho Hl Hp Hpos Hfr]. pose proof Hq as (Hqd & Hqp & Hqs).
  assert (Hpz : zlen (q_packet q) = packet_length s) by (rewrite Hqp; apply zlen_slice; lia).
  assert (Hsz : zlen (slice data 0 n) = n) by (apply zlen_slice; lia).
  unfold opus_push, q_push. cbn [mbind option_bind]. rewrite Hsz.
  case_bool_decide as Hz; cbn [negb].
  2:{ rewrite decide_True by (intros E; rewrite E in Hpz; by apply Hz).
      exists s. split_and!; done || lia. }
  assert (q_packet q = []) as Hq0 by (apply zlen_0_nil; lia).
  destruct (decide (q_packet q <> [])) as [Hc|_]; [by rewrite Hq0 in Hc |].
  destruct (decide (EAF_DEC_OPUS_MAX_PACKET < n)); [exists s; split_and!; done || lia |].
  rewrite memcpy_eq by lia. cbn [mbind option_bind].
  eexists. split; [done |]. split; [| split; [| split_and!; done || lia]].
  - split; simpl; try done; [| lia]. split; simpl; [rewrite zlen_splice by lia; exact Ha1 | exact Ha2].
  - split; [done |]. split; [| done]. simpl. pose proof (slice_splice (packet s) (slice data 0 n) 0 0 n ltac:(lia)) as Hss.
    change (0 + 0) with 0 in Hss. rewrite Hss by lia. by rewrite slice_slice by lia.
Qed.

Lemma opus_reset_spec fmt s h q :
  opus_inv fmt s -> stands_for s q ->
  exists s', opus_reset (Some (s, h)) = Some (Some (s', h), EAF_OK) /\
    opus_inv fmt s' /\ stands_for s' (q_reset q) /\ channels s' = channels s.
Proof.
  intros [Ha (d & Hd & Hdc) Hf Ho Hl Hp Hpos Hfr] (Hqd & _ & _). unfold opus_reset. cbn [mbind option_bind].
  eexists. split; [done |]. rewrite Hd in Hqd. injection Hqd as ->. split; [| split; [| done]].
  - split; simpl; try done. rewrite Hd. exists (opus_reset_state (q_dec q)). by rewrite opus_reset_channels.
  - split; simpl; [by rewrite Hd | done].
Qed.

(** Every state has a queue. *)
Lemma stands_for_exists fmt s : opus_inv fmt s -> exists q, stands_for s q.
Proof.
  intros []. destruct oinv_dec0 as (d & Hd & _).
  by exists (OpusQueue d (slice (packet s) 0 (packet_length s)) (staged s)).
Qed.

Lemma opus_open_spec s h cfg out :
  opus_arrays s -> 0 < num_channels out ->
  exists s' h' rc, opus_open (Some (s, h)) cfg out = Some (Some (s', h'), rc) /\ opus_arrays s' /\
    (rc <> EAF_OK -> s' = s) /\
    (rc = EAF_OK -> opus_inv out s' /\ channels s' = cfg_channels cfg /\
       exists d, stands_for s' (OpusQueue d [] [])).
Proof.
  intros Ha Hn. unfold opus_open. cbn [mbind option_bind].
  case_bool_decide as Hv; cbn [negb]; [| by eexists _, _, _].
  destruct (validate_open_channels cfg out _ Hn Hv) as (Hc & Hl & _).
  destruct (opus_decoder_create h (s32 (cfg_sample_rate cfg)) (cfg_channels cfg)) as [[h' [d|]] e] eqn:E;
    [| by eexists _, _, _].
  pose proof (opus_create_channels _ _ _ _ _ _ E) as Hdc.
  case_bool_decide; cbn [negb]; [| by eexists _, _, _].
  eexists _, _, _. split; [done |]. split; [done |]. split; [done |]. intros _.
  split; [| split; [done | by exists d]].
  split; simpl; try done. by exists d.
Qed.
End facts.

#[export] Instance opus_laws {D H} `{!OpusLib D H, !OpusLaws D H} : DecoderLaws (eaf_dec_opus_ops (D := D) (H := H)).
Proof.
  refine {| dec_raw := fun c : eaf_dec_opus_t D * H => opus_arrays c.1; dec_inv := fun fmt c => opus_inv fmt c.1 |}.
  - intros fmt [s h] []. done.
  - intros [s h] cfg out Ha Hv Hn. exists opus_open.
    destruct (opus_open_spec s h cfg out Ha Hn) as (s' & h' & rc & Hrun & Ha' & _ & Hok).
    exists (s', h'), rc. split; [done |]. split; [exact Hrun |]. split; [done |]. intros Hrc. by apply Hok.
  - intros fmt [s h] data n k Hinv Hn _. exists opus_push. destruct (stands_for_exists fmt s Hinv) as (q & Hq).
    pose proof (opus_push_spec fmt s h q data n k Hinv Hq Hn) as Hp.
    destruct (q_push (slice data 0 n) q) as [[q' k'] rc]. destruct Hp as (s' & Hrun & Hinv' & _ & _ & Hk).
    exists (s', h), k', rc. split; [done |]. by split; [exact Hrun |].
  - intros fmt [s h] cells m n fmt0 Hinv Hm Hfit. exists opus_pull. destruct (stands_for_exists fmt s Hinv) as (q & Hq).
    pose proof (opus_pull_spec fmt s h q cells m n fmt0 Hinv Hq Hm Hfit) as Hp.
    destruct (q_pull _ _ m q) as [[q' out] rc] eqn:Eq. destruct Hp as (s' & fmt' & Hrun & Hinv' & _ & _ & Hz & _ & Hc).
    eexists (s', h), _, _, fmt', rc. split; [done |]. split; [exact Hrun |]. split; [done |].
    pose proof (zlen_nonneg out). split; [| lia].
    destruct Hinv as [_ _ _ Ho Hl _ _ _]. simpl in *. destruct Hl. apply zlen_splice; nia.
  - intros fmt [s h] Hinv. exists opus_reset. destruct (stands_for_exists fmt s Hinv) as (q & Hq).
    destruct (opus_reset_spec fmt s h q Hinv Hq) as (s' & Hrun & Hinv' & _).
    exists (s', h), EAF_OK. by split; [| split; [exact Hrun |]].
  - intros fmt [s h] []. exists opus_close. unfold opus_close. cbn [mbind option_bind].
    destruct (dec s); by eexists.
Defined.

(** ** Sessions *)
Section session.
Context {D H : Type} `{!OpusLib D H, !OpusLaws D H}.
Local Abbreviation state := (eaf_dec_opus_t D).

Lemma opus_call_refines fmt (s : state) (h : H) q op :
  opus_inv fmt s -> stands_for s q -> call_ok (num_channels fmt) op ->
  let '(q', a) := q_call (channels s) (num_channels fmt) op q in
  exists s', opus_call_run (num_channels fmt) op (Some (s, h)) = Some (Some (s', h), a) /\
    opus_inv fmt s' /\ stands_for s' q' /\ channels s' = channels s.
Proof.
  intros Hinv Hq Hok. destruct op as [data | cells m |]; cbn [opus_call_run q_call call_ok] in *.
  - pose proof (zlen_nonneg data). pose proof (opus_push_spec fmt s h q data (zlen data) 0 Hinv Hq ltac:(lia)) as Hp.
    rewrite slice_0_all in Hp. destruct (q_push data q) as [[q' k'] rc].
    destruct Hp as (s' & -> & Hinv' & Hst & Hc & _). by exists s'.
  - destruct Hok as [Hm Hfit]. pose proof (oinv_out _ _ Hinv) as Ho. rewrite <- Ho in *.
    pose proof (opus_pull_spec fmt s h q cells m 0 format_zero Hinv Hq Hm ltac:(by rewrite <- Ho)) as Hp.
    destruct (q_pull _ _ m q) as [[q' out] rc]. destruct Hp as (s' & fmt' & -> & Hinv' & Hst & Hc & Hz & _ & Hcz).
    exists s'. cbn [mbind option_bind]. split; [| done]. rewrite Ho, <- Hcz.
    destruct (oinv_layout _ _ Hinv). pose proof (zlen_nonneg out).
    rewrite slice_splice_front; [done | done |]; nia.
  - destruct (opus_reset_spec fmt s h q Hinv Hq) as (s' & -> & Hinv' & Hst & Hc). by exists s'.
Qed.

Lemma opus_run_refines fmt script (s : state) (h : H) q :
  opus_inv fmt s -> stands_for s q -> Forall (call_ok (num_channels fmt)) script ->
  exists s', opus_run (num_channels fmt) script (Some (s, h)) =
      Some (Some (s', h), (q_run (channels s) (num_channels fmt) script q).2) /\
    opus_inv fmt s' /\ stands_for s' (q_run (channels s) (num_channels fmt) script q).1.
Proof.
  revert s q. induction script as [|op rest IH]; intros s q Hinv Hq Hok; [by exists s |].
  apply List.Forall_cons_iff in Hok as [Hop Hrest].
  pose proof (opus_call_refines fmt s h q op Hinv Hq Hop) as Hc. cbn [opus_run q_run].
  destruct (q_call _ _ op q) as [q1 a]. destruct Hc as (s1 & -> & Hinv1 & Hq1 & Hch).
  destruct (IH s1 q1 Hinv1 Hq1 Hrest) as (s' & Hrun & Hinv' & Hq'). rewrite Hch in *.
  cbn [mbind option_bind]. rewrite Hrun. cbn [mbind option_bind].
  destruct (q_run _ _ rest q1) as [q2 l]. by exists s'.
Qed.
End session.

(** ** Properties *)

(** C22: The Opus adapter is a queue of decoded frames: for every libopus that writes no
    more than the frames it reports, opening either fails without touching the
    state or gives a decoder from which any sequence of pushes, pulls into
    buffers of any size and resets never leaves an array and answers what the
    queue answers - one packet at a time, a packet too long refused, every
    packet decoded once when the frames before it are drained, and its frames,
    widened to Q1.31 and a mono one duplicated, handed out in order with none
    lost or repeated. *)
Theorem opus_session_exact {D H} `{!OpusLib D H, !OpusLaws D H} (s : eaf_dec_opus_t D) (h : H)
    (cfg : eaf_decoder_config_t) (out : eaf_format_t) (script : list opus_call) :
  opus_arrays s -> 0 < num_channels out -> Forall (call_ok (num_channels out)) script ->
  exists s1 h1 rc, opus_open (Some (s, h)) cfg out = Some (Some (s1, h1), rc) /\
    (rc <> EAF_OK -> s1 = s) /\
    (rc = EAF_OK -> exists d s2, dec s1 = Some d /\
       opus_run (num_channels out) script (Some (s1, h1)) =
         Some (Some (s2, h1), (q_run (cfg_channels cfg) (num_channels out) script (OpusQueue d [] [])).2)).
Proof.
  intros Ha Hn Hok. destruct (opus_open_spec s h cfg out Ha Hn) as (s1 & h1 & rc & Hrun & _ & Hfail & Hopen).
  exists s1, h1, rc. split; [done |]. split; [done |]. intros Hrc.
  destruct (Hopen Hrc) as (Hinv & Hch & d & Hq).
  destruct (opus_run_refines out script s1 h1 _ Hinv Hq Hok) as (s2 & Hr & _).
  exists d, s2. rewrite Hch in Hr. split; [apply Hq | done].
Qed.

(** A library on a heap that counts its live decoders: a decoder repeats each byte of
    a packet as a frame of its channels, and refuses a packet that starts with 255. *)
#[export] Instance repeat_opus : OpusLib nat Z := {|
  opus_decoder_create h fs ch := if decide (0 < ch) then (h + 1, Some (Z.to_nat ch), OPUS_OK) else (h, None, -1);
  opus_decode d bytes n m fec :=
    if decide (head bytes = Some 255) then (d, [], -4)
    else (d, concat (replicate d <$> take (Z.to_nat m) bytes), Z.min m (zlen bytes));
  opus_reset_state d := d;
  opus_decoder_destroy h d := h - 1
|}.

Lemma zlen_repeat (d : nat) (l : list Z) : zlen (concat (replicate d <$> l)) = zlen l * Z.of_nat d.
Proof.
  induction l as [|b l IH]; [done |]. change (concat _) with (replicate d b ++ concat (replicate d <$> l)).
  rewrite zlen_app, IH, zlen_cons. unfold zlen. rewrite length_replicate. lia.
Qed.

#[export] Instance repeat_opus_laws : OpusLaws nat Z.
Proof.
  refine {| opus_dec_channels d := Z.of_nat d |}.
  - intros h fs ch h' d e. unfold opus_decoder_create, repeat_opus. case_decide; [| done].
    intros [= <- <- <-]. lia.
  - intros d bytes n m fec d' out r Hm. unfold opus_decode, repeat_opus. case_decide.
    + intros [= <- <- <-]. change (zlen (@nil Z)) with 0. split_and!; nia.
    + intros [= <- <- <-]. rewrite zlen_repeat. unfold zlen. rewrite length_take. split_and!; nia.
  - done.
Defined.

(** A stereo session: the second push must wait for the first packet, whose three
    frames are drained two and one. *)
Definition opus_fresh : eaf_dec_opus_t nat :=
  DecOpus None format_zero 0 0 0 0 0 (replicate 1500 0) (replicate (Z.to_nat 11520) 0).
Definition stereo_cfg : eaf_decoder_config_t := DecoderConfig EAF_CODEC_OPUS 48000 2 16 None 0.
Definition stereo_out : eaf_format_t := Format 48000 2 3.
Definition opus_script : list opus_call :=
  [OPush [1; 2; 3]; OPush [4]; OPull (replicate 4 0) 2; OPull (replicate 4 0) 2; OPush [4]; OPull (replicate 6 0) 3].

Lemma opus_session_exact_witness :
  exists s1 h1 rc, opus_open (Some (opus_fresh, 0)) stereo_cfg stereo_out = Some (Some (s1, h1), rc) /\
    (rc <> EAF_OK -> s1 = opus_fresh) /\
    (rc = EAF_OK -> exists d s2, dec s1 = Some d /\
       opus_run 2 opus_script (Some (s1, h1)) =
         Some (Some (s2, h1), (q_run (cfg_channels stereo_cfg) 2 opus_script (OpusQueue d [] [])).2)).
Proof.
  apply (opus_session_exact opus_fresh 0 stereo_cfg stereo_out opus_script).
  - split; by vm_compute.
  - done.
  - repeat constructor; by vm_compute.
Defined.

Example opus_script_answers :
  (q_run 2 2 opus_script (OpusQueue 2%nat [] [])).2 =
    [([], 3, EAF_OK); ([], 0, EAF_OK); ([65536; 65536; 131072; 131072], 2, EAF_OK);
     ([196608; 196608], 1, EAF_OK); ([], 1, EAF_OK); ([262144; 262144], 1, EAF_OK)].
Proof. by vm_compute. Qed.

(** Opening an open adapter loses its decoder: [opus_open] overwrites [state->dec],
    and [opus_close] destroys only the second one. *)
Theorem opus_reopen_leaks :
  exists c1 c2 c3, opus_open (Some (opus_fresh, 0)) stereo_cfg stereo_out = Some (c1, EAF_OK) /\
    opus_open c1 stereo_cfg stereo_out = Some (c2, EAF_OK) /\ opus_close c2 = Some c3 /\
    snd <$> c3 = Some 1.
Proof. eexists _, _, _. split_and!; by vm_compute. Qed.
