(* ===== verification/DecMp3.v ===== *)
(** The MP3 adapter: [apps/decoders/dec_mp3.c], [include/eaf/eaf_dec_mp3.h]. The
    vendored dr_mp3 is the class [Mp3Lib]; the adapter keeps the decoder contract
    for any hook, and with a blocking hook decodes the whole pushed stream. *)

From S2P Require Import Prelude Types Ring DecInput Bytes Decoder DecShared DecReads.

Definition EAF_DEC_MP3_RING_BYTES : Z := 16384.
Definition EAF_DEC_MP3_TEMP_FRAMES : Z := 1152.
Definition EAF_DEC_MP3_HEADER_MIN : Z := 4096.

(** The library: a decoder object [D] and the heap [H]. Starting one and decoding
    [n] frames read the stream; decoding gives the object, the cells stored from
    the start of the output array, and the number of frames. *)
Class Mp3Lib (D H : Type) := {
  malloc_drmp3 : H -> H * bool;              (* malloc(sizeof(drmp3)) *)
  free_drmp3 : H -> H;
  drmp3_init : H -> reads (H * option D);
  drmp3_uninit : H -> D -> H;
  drmp3_read_pcm_frames_s16 : H -> D -> Z -> reads (H * D * list Z * Z);
  drmp3_channels : D -> Z;                   (* decoder->channels *)
  drmp3_sampleRate : D -> Z                  (* decoder->sampleRate *)
}.

Section mp3.
Context {D H W : Type} `{!Mp3Lib D H, !AwaitHook W}.

(** [mp3] is NULL, or a block that may hold a decoder. *)
Record eaf_dec_mp3_t := DecMp3 {
  mp3 : ptr (option D);
  input : eaf_dec_input_t;
  ring : list Z;             (* uint8_t ring[EAF_DEC_MP3_RING_BYTES] *)
  format : eaf_format_t;
  cfg_channels : Z;
  mp3_channels : Z;
  output_channels : Z;
  initialized : bool;
  temp : list Z              (* int16_t temp[EAF_DEC_MP3_TEMP_FRAMES * 2] *)
}.

Definition set_mp3 (p : ptr (option D)) (b : bool) (s : eaf_dec_mp3_t) : eaf_dec_mp3_t :=
  DecMp3 p (input s) (ring s) (format s) (cfg_channels s) (mp3_channels s) (output_channels s) b (temp s).
Definition set_input (i : eaf_dec_input_t) (s : eaf_dec_mp3_t) : eaf_dec_mp3_t :=
  DecMp3 (mp3 s) i (ring s) (format s) (cfg_channels s) (mp3_channels s) (output_channels s)
    (initialized s) (temp s).
Definition set_channels (c : Z) (s : eaf_dec_mp3_t) : eaf_dec_mp3_t :=
  DecMp3 (mp3 s) (input s) (ring s) (format s) (cfg_channels s) c (output_channels s)
    (initialized s) (temp s).
Definition set_temp (t : list Z) (s : eaf_dec_mp3_t) : eaf_dec_mp3_t :=
  DecMp3 (mp3 s) (input s) (ring s) (format s) (cfg_channels s) (mp3_channels s) (output_channels s)
    (initialized s) t.

(** The context: the adapter's state, the world its hook acts on, and the heap. *)
Local Abbreviation mp3_ctx := (eaf_dec_mp3_t * W * H)%type.

Definition eaf_dec_mp3_configure (state : ptr eaf_dec_mp3_t) (aw awc : Z) : ptr eaf_dec_mp3_t :=
  s ← state; Some (set_input (eaf_dec_input_set_await (input s) aw awc) s).

Definition eaf_dec_mp3_finish (state : ptr eaf_dec_mp3_t) : ptr eaf_dec_mp3_t :=
  s ← state; i ← eaf_dec_input_finish (Some (input s)); Some (set_input i s).

Definition mp3_uninit (s : eaf_dec_mp3_t) (h : H) : ub (eaf_dec_mp3_t * H) :=
  match mp3 s with
  | Some block =>
      if initialized s then d ← block; Some (set_mp3 (Some None) false s, drmp3_uninit h d)
      else Some (s, h)
  | None => Some (s, h)
  end.

Definition reset_input (s : eaf_dec_mp3_t) : ub eaf_dec_mp3_t :=
  i ← eaf_dec_input_reset (Some (input s)); Some (set_input i s).

Definition mp3_open (ctx : ptr mp3_ctx) (cfg : eaf_decoder_config_t) (output : eaf_format_t)
  : ub (ptr mp3_ctx * Z) :=
  '(s, w, h) ← ctx;
  let rc := eaf_decoder_validate_open cfg output EAF_CODEC_MP3 true in
  if negb (bool_decide (rc = 0)) then Some (Some (s, w, h), rc)
  else
    '(s, h) ← mp3_uninit s h;
    let '(p, h) := match mp3 s with
                   | None => let '(h, ok) := malloc_drmp3 h in (if (ok : bool) then Some None else None, h)
                   | Some block => (Some block, h)
                   end in
    match p with
    | None => Some (Some (set_mp3 None (initialized s) s, w, h), EAF_IO)
    | Some block =>
        let s := set_mp3 (Some block) false s in
        i ← eaf_dec_input_init (Some (input s)) (Some (ring s)) EAF_DEC_MP3_RING_BYTES
              (await (input s)) (await_ctx (input s));
        Some (Some (DecMp3 (mp3 s) i (ring s) output (Decoder.cfg_channels cfg) (mp3_channels s)
                      (num_channels output) (initialized s) (temp s), w, h), EAF_OK)
    end.

Definition mp3_push (ctx : ptr mp3_ctx) (data : ptr (list Z)) (length consumed : Z)
  : ub (ptr mp3_ctx * Z * Z) :=
  '(s, w, h) ← ctx;
  '(i, (n, rc)) ← match data with
                  | Some d => eaf_dec_input_push_adapter (Some (input s)) d length
                  | None => if decide (length = 0) then eaf_dec_input_push_adapter (Some (input s)) [] 0 else None
                  end;
  i ← i; Some (Some (set_input i s, w, h), n, rc).

(** [mp3_uninit; eaf_dec_input_reset; return rc]: the decoder that was just started is refused. *)
Definition mp3_refuse (s : eaf_dec_mp3_t) (w : W) (h : H) (rc : Z)
  : ub (eaf_dec_mp3_t * W * H * option Z) :=
  '(s, h) ← mp3_uninit s h; s ← reset_input s; Some (s, w, h, Some rc).

(** The [if (!state->initialized)] part of [mp3_pull]; [Some rc] when it returns. *)
Definition mp3_start (s : eaf_dec_mp3_t) (w : W) (h : H) : ub (eaf_dec_mp3_t * W * H * option Z) :=
  if initialized s then Some (s, w, h, None)
  else if bool_decide (await (input s) = 0) && bool_decide (count (input s) < EAF_DEC_MP3_HEADER_MIN)
          && negb (eof (input s))
  then Some (s, w, h, Some EAF_OK)
  else
    '((h, o), i, w) ← run_reads call_await (drmp3_init h) (input s) w;
    let s := set_input i s in
    match o with
    | None => s ← reset_input (set_mp3 (Some None) (initialized s) s); Some (s, w, h, Some EAF_INVALID)
    | Some d =>
        let s := set_mp3 (Some (Some d)) true s in
        if decide (drmp3_channels d = 0 \/ 2 < drmp3_channels d \/ drmp3_sampleRate d <> sample_rate (format s))
        then mp3_refuse s w h EAF_UNSUPPORTED
        else if decide (cfg_channels s <> 0 /\ cfg_channels s <> drmp3_channels d)
        then mp3_refuse s w h EAF_INVALID
        else
          let s := set_channels (u8 (drmp3_channels d)) s in
          if negb (bool_decide (output_channels s = mp3_channels s))
             && negb (bool_decide (mp3_channels s = 1) && bool_decide (output_channels s = 2))
          then mp3_refuse s w h EAF_UNSUPPORTED
          else Some (s, w, h, None)
    end.

(** The end of [mp3_pull]: decode what fits and widen it. *)
Definition mp3_decode (s : eaf_dec_mp3_t) (w : W) (h : H) (pcm : list Z) (max_frames : Z) (fmt : eaf_format_t)
  : ub (ptr mp3_ctx * list Z * Z * eaf_format_t * Z) :=
  let cap := if decide (EAF_DEC_MP3_TEMP_FRAMES < max_frames) then EAF_DEC_MP3_TEMP_FRAMES else max_frames in
  if decide (cap = 0) then Some (Some (s, w, h), pcm, 0, fmt, EAF_INVALID)
  else
    block ← mp3 s; d ← block;
    '((h, d, out, got), i, w) ← run_reads call_await (drmp3_read_pcm_frames_s16 h d cap) (input s) w;
    t ← stn (temp s) 0 out;
    let s := set_temp t (set_input i (set_mp3 (Some (Some d)) (initialized s) s)) in
    if decide (got = 0) then Some (Some (s, w, h), pcm, 0, fmt, EAF_OK)
    else
      pcm ← eaf_s16_to_q31_interleaved (temp s) (u32 got) (mp3_channels s) pcm (output_channels s);
      Some (Some (s, w, h), pcm, u32 got, format s, EAF_OK).

Definition mp3_pull (ctx : ptr mp3_ctx) (pcm : list Z) (max_frames frames : Z) (fmt : eaf_format_t)
  : ub (ptr mp3_ctx * list Z * Z * eaf_format_t * Z) :=
  '(s, w, h) ← ctx;
  match mp3 s with
  | None => Some (Some (s, w, h), pcm, 0, fmt, EAF_STATE)
  | Some _ =>
      '(s, w, h, early) ← mp3_start s w h;
      match early with
      | Some rc => Some (Some (s, w, h), pcm, 0, fmt, rc)
      | None => mp3_decode s w h pcm max_frames fmt
      end
  end.

Definition mp3_reset (ctx : ptr mp3_ctx) : ub (ptr mp3_ctx * Z) :=
  '(s, w, h) ← ctx;
  '(s, h) ← mp3_uninit s h; s ← reset_input s; Some (Some (s, w, h), EAF_OK).

Definition mp3_close (ctx : ptr mp3_ctx) : ub (ptr mp3_ctx) :=
  '(s, w, h) ← ctx;
  '(s, h) ← mp3_uninit s h;
  let h := match mp3 s with Some _ => free_drmp3 h | None => h end in
  s ← reset_input (set_mp3 None (initialized s) s); Some (Some (s, w, h)).

Definition eaf_dec_mp3_ops : eaf_decoder_ops_t mp3_ctx :=
  DecoderOps (Some mp3_open) (Some mp3_push) (Some mp3_pull) (Some mp3_reset) (Some mp3_close).
End mp3.
#[global] Arguments eaf_dec_mp3_t : clear implicits.

(** What dr_mp3 documents: its reads are sized, its calls return, and a decode call
    stores at most the frames asked for, and those it counts. *)
Class Mp3Laws (D H : Type) `{!Mp3Lib D H} := {
  drmp3_init_law h : reads_ok (fun _ => True) (drmp3_init h);
  drmp3_read_law h d n : 0 <= n ->
    reads_ok (fun '(h', d', out, got) => drmp3_channels d' = drmp3_channels d /\ 0 <= got <= n /\
                got * drmp3_channels d <= zlen out <= n * drmp3_channels d)
      (drmp3_read_pcm_frames_s16 h d n);
  drmp3_channels_range d : 0 <= drmp3_channels d
}.

(** ** Invariant *)
Section facts.
Context {D H W : Type} `{!Mp3Lib D H, !Mp3Laws D H, !AwaitHook W}.
Local Abbreviation state := (eaf_dec_mp3_t D).
Implicit Types (s : state) (h : H) (w : W).

(** The memory of an adapter, opened or not. *)
Record mp3_raw (s : state) : Prop := {
  mraw_ring : zlen (ring s) = EAF_DEC_MP3_RING_BYTES;
  mraw_temp : zlen (temp s) = EAF_DEC_MP3_TEMP_FRAMES * 2;
  mraw_live : initialized s = true -> mp3 s <> Some None
}.

Record mp3_inv (fmt : eaf_format_t) (s : state) : Prop := {
  minv_raw : mp3_raw s;
  minv_block : mp3 s <> None;
  minv_started : initialized s = true -> exists d, mp3 s = Some (Some d) /\
    drmp3_channels d = mp3_channels s /\ layout_ok (mp3_channels s) (output_channels s);
  minv_format : format s = fmt;
  minv_out : output_channels s = num_channels fmt;
  minv_input : dec_input_wf (input s)
}.

Lemma mp3_uninit_spec s h :
  mp3_raw s ->
  exists p b h', mp3_uninit s h = Some (set_mp3 p b s, h') /\ (p = None <-> mp3 s = None) /\
    (p <> None -> b = false).
Proof.
  intros Hraw. pose proof (mraw_live s Hraw) as Hl. unfold mp3_uninit. destruct (mp3 s) as [b|] eqn:Em.
  - destruct (initialized s) eqn:Ei.
    + destruct b as [d|]; [| by destruct Hl]. by exists (Some None), false, (drmp3_uninit h d).
    + exists (Some b), false, h. rewrite <- Em, <- Ei. by destruct s.
  - exists None, (initialized s), h. rewrite <- Em. by destruct s.
Qed.

Lemma mp3_raw_keep s s' :
  mp3_raw s -> ring s' = ring s -> zlen (temp s') = zlen (temp s) ->
  (initialized s' = true -> mp3 s' <> Some None) -> mp3_raw s'.
Proof. intros [] Hr Ht ?. split; [by rewrite Hr | by rewrite Ht | done]. Qed.

Lemma input_reset_wf i : dec_input_wf i -> dec_input_wf (DecInput (DecInput.ring i) (capacity i) 0 0 false (await i) (await_ctx i)).
Proof. intros [? ? ? ?]. split; simpl; done || lia. Qed.

(** Releasing the decoder and emptying the ring: a fresh, open adapter. *)
Lemma mp3_uninit_reset fmt s h :
  mp3_raw s -> mp3 s <> None -> format s = fmt -> output_channels s = num_channels fmt -> dec_input_wf (input s) ->
  exists s1 h' s', mp3_uninit s h = Some (s1, h') /\ reset_input s1 = Some s' /\ mp3_inv fmt s' /\
    initialized s' = false /\ count (input s') = 0.
Proof.
  intros Hraw Hb Hf Ho Hi. destruct (mp3_uninit_spec s h Hraw) as (p & b & h' & -> & Hp & Hfalse).
  assert (Hpn : p <> None) by (rewrite Hp; done). rewrite (Hfalse Hpn).
  eexists _, _, _. split; [done |]. split; [done |]. split; [| done].
  split; simpl; try done; [by apply (mp3_raw_keep s) | by apply input_reset_wf].
Qed.

Lemma mp3_refuse_spec fmt s w h rc :
  mp3_raw s -> mp3 s <> None -> format s = fmt -> output_channels s = num_channels fmt -> dec_input_wf (input s) ->
  exists s' h', mp3_refuse s w h rc = Some (s', w, h', Some rc) /\ mp3_inv fmt s' /\ initialized s' = false.
Proof.
  intros Hraw Hb Hf Ho Hi. unfold mp3_refuse.
  destruct (mp3_uninit_reset fmt s h Hraw Hb Hf Ho Hi) as (s1 & h' & s' & -> & Hr & Hinv & Hini & _).
  cbn [mbind option_bind]. rewrite Hr. cbn [mbind option_bind]. by exists s', h'.
Qed.

(** What a decoder must look like to be accepted. *)
Definition mp3_accepts (s : state) (d : D) : Prop :=
  drmp3_sampleRate d = sample_rate (format s) /\ layout_ok (drmp3_channels d) (output_channels s) /\
  (cfg_channels s <> 0 -> cfg_channels s = drmp3_channels d).

#[export] Instance layout_ok_dec sc dc : Decision (layout_ok sc dc).
Proof. unfold layout_ok. apply _. Defined.
#[export] Instance mp3_accepts_dec s d : Decision (mp3_accepts s d).
Proof. unfold mp3_accepts. apply _. Defined.

(** The outcome of the checks after the library started a decoder [d] on an open
    adapter: started when it is acceptable, refused otherwise. *)
Lemma mp3_start_spec fmt s w h h1 o i1 w1 :
  mp3_inv fmt s -> initialized s = false ->
  await (input s) <> 0 \/ EAF_DEC_MP3_HEADER_MIN <= count (input s) \/ eof (input s) = true ->
  run_reads call_await (drmp3_init h) (input s) w = Some ((h1, o), i1, w1) -> dec_input_wf i1 ->
  exists s' h' early, mp3_start s w h = Some (s', w1, h', early) /\ mp3_inv fmt s' /\
    match early with
    | None => exists d, o = Some d /\ mp3_accepts s d /\ h' = h1 /\
        s' = set_channels (drmp3_channels d) (set_mp3 (Some (Some d)) true (set_input i1 s))
    | Some rc => rc <> EAF_OK /\ initialized s' = false /\
        match o with Some d => ~ mp3_accepts s d | None => rc = EAF_INVALID end
    end.
Proof.
  intros Hinv Hini Hready Hrun Hwf1. pose proof Hinv as [Hraw Hb _ Hf Ho Hi]. unfold mp3_start. rewrite Hini.
  replace (bool_decide (await (input s) = 0) && _ && negb (eof (input s))) with false.
  2:{ symmetry. destruct (eof (input s)); [by rewrite andb_false_r |]. do 2 case_bool_decide; simpl; try done.
      destruct Hready as [?|[?|?]]; done || lia. }
  rewrite Hrun. cbn [mbind option_bind]. destruct o as [d|].
  2:{ eexists _, _, _. split; [done |]. split; [| done].
      split; simpl; try done; [apply (mp3_raw_keep s); simpl; congruence | congruence | by apply input_reset_wf]. }
  set (s1 := set_mp3 (Some (Some d)) true (set_input i1 s)).
  assert (Hraw1 : mp3_raw s1) by (by apply (mp3_raw_keep s)).
  assert (Hrefuse : forall s2 rc, rc <> EAF_OK -> ~ mp3_accepts s d ->
    (s2 = s1 \/ s2 = set_channels (u8 (drmp3_channels d)) s1) ->
    exists s' h' early, mp3_refuse s2 w1 h1 rc = Some (s', w1, h', early) /\ mp3_inv fmt s' /\
      match early with
      | None => exists d0, Some d = Some d0 /\ mp3_accepts s d0 /\ h' = h1 /\
          s' = set_channels (drmp3_channels d0) (set_mp3 (Some (Some d0)) true (set_input i1 s))
      | Some rc => rc <> EAF_OK /\ initialized s' = false /\ ~ mp3_accepts s d
      end).
  { intros s2 rc Hrc Hna Hs2.
    destruct (mp3_refuse_spec fmt s2 w1 h1 rc) as (s' & h' & -> & Hinv' & Hi');
      [destruct Hs2 as [-> | ->]; try apply (mp3_raw_keep s1); done .. |]. by exists s', h', (Some rc). }
  change (format (set_input i1 s)) with (format s). change (cfg_channels s1) with (cfg_channels s).
  change (format s1) with (format s).
  destruct (decide (_ \/ _ \/ drmp3_sampleRate d <> _)) as [Hbad|Hgood].
  { apply Hrefuse; [done | | by left]. intros (Hr & [Hl _] & _). destruct Hbad as [?|[?|?]]; done || lia. }
  destruct (decide (cfg_channels s <> 0 /\ _)) as [Hbad|Hcfg].
  { apply Hrefuse; [done | | by left]. intros (_ & _ & Hc). destruct Hbad as [? Hne]. apply Hne. by apply Hc. }
  pose proof (drmp3_channels_range d) as Hpos.
  assert (Hch : drmp3_channels d = 1 \/ drmp3_channels d = 2).
  { destruct (decide (drmp3_channels d = 1)); [by left |]. destruct (decide (drmp3_channels d = 2)); [by right |].
    exfalso. apply Hgood. lia. }
  rewrite u8_small by (unfold is_u8; lia).
  cbn [output_channels mp3_channels set_channels]. change (output_channels s1) with (output_channels s).
  destruct (negb _ && negb _) eqn:El.
  { apply Hrefuse; [done | | right; by rewrite u8_small by (unfold is_u8; lia)].
    intros (_ & [_ Hl] & _). revert El. repeat case_bool_decide; simpl; try done; lia. }
  assert (Hlay : layout_ok (drmp3_channels d) (output_channels s)).
  { split; [done |]. revert El. repeat case_bool_decide; simpl; try done; lia. }
  eexists _, _, None. split; [done |]. split.
  - split; simpl; try done; [by apply (mp3_raw_keep s) | by intros _; exists d].
  - exists d. split_and!; try done. split_and!; [| done |].
    + destruct (decide (drmp3_sampleRate d = sample_rate (format s))); [done |]. exfalso. apply Hgood. auto.
    + intros Hne. destruct (decide (cfg_channels s = drmp3_channels d)); [done |]. exfalso. by apply Hcfg.
Qed.

Definition mp3_cap (m : Z) : Z := Z.min EAF_DEC_MP3_TEMP_FRAMES m.

Lemma mp3_decode_spec fmt s w h pcm m fmt0 d h1 d1 out got i1 w1 :
  mp3_inv fmt s -> initialized s = true -> mp3 s = Some (Some d) -> 0 < m -> m * num_channels fmt <= zlen pcm ->
  run_reads call_await (drmp3_read_pcm_frames_s16 h d (mp3_cap m)) (input s) w = Some ((h1, d1, out, got), i1, w1) ->
  dec_input_wf i1 -> drmp3_channels d1 = drmp3_channels d -> 0 <= got <= mp3_cap m ->
  got * drmp3_channels d <= zlen out <= mp3_cap m * drmp3_channels d ->
  let cells := concat (frames_of eaf_pcm16_to_q31 out (drmp3_channels d) (num_channels fmt) got) in
  let s' := set_temp (splice (temp s) 0 out) (set_input i1 (set_mp3 (Some (Some d1)) true s)) in
  exists fmt', mp3_decode s w h pcm m fmt0 = Some (Some (s', w1, h1), splice pcm 0 cells, got, fmt', EAF_OK) /\
    mp3_inv fmt s' /\ zlen cells = got * num_channels fmt /\ (0 < got -> fmt' = fmt).
Proof.
  intros Hinv Hini Hd Hm Hfit Hrun Hwf1 Hch Hgot Hout. pose proof Hinv as [Hraw Hb Hst Hf Ho Hi].
  destruct (Hst Hini) as (d0 & Hd0 & Hdc & Hl). rewrite Hd in Hd0. injection Hd0 as <-. rewrite Hdc, <- Ho in *.
  pose proof (mraw_temp s Hraw) as Ht. unfold mp3_cap, EAF_DEC_MP3_TEMP_FRAMES in *.
  assert (Hcc : mp3_channels s = 1 \/ mp3_channels s = 2) by (destruct Hl; done).
  assert (Hoc : 0 < output_channels s) by (destruct Hl; lia).
  assert (Hfo : zlen out <= zlen (temp s)) by (destruct Hcc as [E|E]; rewrite E in *; lia).
  assert (Hfr : got * output_channels s <= zlen pcm) by nia.
  cbn zeta. set (s' := set_temp _ _).
  assert (Hinv' : mp3_inv fmt s').
  { split; simpl; try done.
    - apply (mp3_raw_keep s); try done. simpl. by rewrite zlen_splice by lia.
    - intros _. by exists d1. }
  unfold mp3_decode, EAF_DEC_MP3_TEMP_FRAMES.
  replace (if decide (1152 < m) then 1152 else m) with (Z.min 1152 m) by (case_decide; lia).
  rewrite decide_False by lia. rewrite Hd. cbn [mbind option_bind]. rewrite Hrun. cbn [mbind option_bind].
  rewrite stn_eq by lia. cbn [mbind option_bind]. rewrite Hini. fold s'.
  destruct (interleave_frames eaf_pcm16_to_q31 (splice (temp s) 0 out) got (mp3_channels s) (output_channels s) pcm)
    as [Hloop Hcz]; [done | lia | rewrite zlen_splice by lia; nia | done |].
  rewrite frames_of_splice in Hloop, Hcz by (done || lia).
  rewrite u32_small by (unfold is_u32; lia). destruct (decide (got = 0)) as [->|].
  - exists fmt0. change (frames_of _ _ _ _ 0) with (@nil (list Z)). cbn [concat]. rewrite splice_nil.
    split_and!; try done.
  - assert (Hq : eaf_s16_to_q31_interleaved (temp s') got (mp3_channels s') pcm (output_channels s') = _) by exact Hloop.
    exists fmt. rewrite Hq. cbn [mbind option_bind].
    change (format s') with (format s). rewrite Hf. split_and!; done.
Qed.

(** ** The contract *)

(** A pull that ends with a sound adapter and at most the frames asked for. *)
Definition pull_fits (fmt : eaf_format_t) (pcm : list Z) (m : Z)
    (r : ub (ptr (state * W * H) * list Z * Z * eaf_format_t * Z)) : Prop :=
  exists s' w' h' pcm' n' fmt' rc, r = Some (Some (s', w', h'), pcm', n', fmt', rc) /\
    mp3_inv fmt s' /\ zlen pcm' = zlen pcm /\ 0 <= n' <= m.

Lemma pull_fits_quiet fmt pcm m s w h fmt0 rc :
  mp3_inv fmt s -> 0 < m -> pull_fits fmt pcm m (Some (Some (s, w, h), pcm, 0, fmt0, rc)).
Proof. intros. eexists _, _, _, _, _, _, _. split; [done |]. split_and!; done || lia. Qed.

Lemma mp3_decode_total fmt s w h pcm m fmt0 :
  mp3_inv fmt s -> initialized s = true -> 0 < m -> m * num_channels fmt <= zlen pcm ->
  pull_fits fmt pcm m (mp3_decode s w h pcm m fmt0).
Proof.
  intros Hinv Hini Hm Hfit. destruct (minv_started _ _ Hinv Hini) as (d & Hd & Hc & Hl).
  assert (Hcap : 0 <= mp3_cap m <= m) by (unfold mp3_cap, EAF_DEC_MP3_TEMP_FRAMES; lia).
  destruct (run_reads_total call_await delivered _ (drmp3_read_pcm_frames_s16 h d (mp3_cap m)) (input s) w
    hook_appends (minv_input _ _ Hinv) (drmp3_read_law h d (mp3_cap m) ltac:(lia)))
    as ([[[h1 d1] out] got] & i1 & w1 & _ & _ & Hrun & (Hch & Hgot & Hout) & Hwf1 & _).
  destruct (mp3_decode_spec fmt s w h pcm m fmt0 d h1 d1 out got i1 w1 Hinv Hini Hd Hm Hfit Hrun Hwf1 Hch Hgot Hout)
    as (fmt' & -> & Hinv' & Hz & _).
  eexists _, _, _, _, _, _, _. split; [done |]. split; [done |]. split; [| lia].
  assert (Hoc : num_channels fmt = 1 \/ num_channels fmt = 2) by (rewrite <- (minv_out _ _ Hinv); destruct Hl; lia).
  apply zlen_splice; [lia |]. rewrite Hz. destruct Hoc as [E|E]; rewrite E in *; lia.
Qed.

Lemma mp3_pull_total fmt s w h pcm m n fmt0 :
  mp3_inv fmt s -> 0 < m -> m * num_channels fmt <= zlen pcm ->
  pull_fits fmt pcm m (mp3_pull (Some (s, w, h)) pcm m n fmt0).
Proof.
  intros Hinv Hm Hfit.
  unfold mp3_pull. cbn [mbind option_bind]. destruct (mp3 s) as [block|] eqn:Eb; [| by apply pull_fits_quiet].
  destruct (initialized s) eqn:Ei.
  { replace (mp3_start s w h) with (Some (s, w, h, @None Z)) by (unfold mp3_start; by rewrite Ei).
    cbn [mbind option_bind]. by apply mp3_decode_total. }
  destruct (decide (await (input s) <> 0 \/ EAF_DEC_MP3_HEADER_MIN <= count (input s) \/ eof (input s) = true)) as [Hr|Hw].
  - destruct (run_reads_total call_await delivered _ (drmp3_init h) (input s) w hook_appends (minv_input _ _ Hinv)
      (drmp3_init_law h)) as ([h1 o] & i1 & w1 & _ & _ & Hrun & _ & Hwf1 & _).
    destruct (mp3_start_spec fmt s w h h1 o i1 w1 Hinv Ei Hr Hrun Hwf1) as (s' & h' & early & -> & Hinv' & He).
    cbn [mbind option_bind]. destruct early; [by apply pull_fits_quiet |]. apply mp3_decode_total; [done | | done | done].
    by destruct He as (d & _ & _ & _ & ->).
  - replace (mp3_start s w h) with (Some (s, w, h, Some EAF_OK)); [by apply pull_fits_quiet |].
    unfold mp3_start. rewrite Ei. rewrite bool_decide_eq_true_2 by (destruct (decide (await (input s) = 0)); [done | tauto]).
    rewrite bool_decide_eq_true_2 by (apply Z.lt_nge; tauto).
    by destruct (eof (input s)); [tauto |].
Qed.

Lemma mp3_push_spec fmt s w h data n k :
  mp3_inv fmt s -> 0 <= n <= zlen data ->
  exists i k', mp3_push (Some (s, w, h)) (Some data) n k = Some (Some (set_input i s, w, h), k', EAF_OK) /\
    mp3_inv fmt (set_input i s) /\ 0 <= k' <= n /\ dec_bytes i = dec_bytes (input s) ++ slice data 0 k'.
Proof.
  intros Hinv Hn. pose proof Hinv as [Hraw Hb Hst Hf Ho Hi]. unfold mp3_push, eaf_dec_input_push_adapter.
  cbn [mbind option_bind]. pose proof (dec_count _ Hi).
  destruct (push_bounded (input s) data n Hi Hn) as (i & k' & -> & Hwf & Hk & Hbytes).
  exists i, k'. split; [done |]. split; [| done]. split; simpl; try done. by apply (mp3_raw_keep s); try apply Hraw.
Qed.

Lemma mp3_open_spec s w h cfg out :
  mp3_raw s -> 0 < num_channels out ->
  exists s' h' rc, mp3_open (Some (s, w, h)) cfg out = Some (Some (s', w, h'), rc) /\ mp3_raw s' /\
    (rc = EAF_OK -> mp3_inv out s' /\ initialized s' = false /\ cfg_channels s' = Decoder.cfg_channels cfg /\
       sample_rate out = cfg_sample_rate cfg /\ dec_bytes (input s') = [] /\ await (input s') = await (input s)).
Proof.
  intros Hraw Hn. unfold mp3_open. cbn [mbind option_bind].
  case_bool_decide as Hv; cbn [negb]; [| by eexists _, _, _].
  destruct (mp3_uninit_spec s h Hraw) as (p & b & h' & -> & Hp & Hfalse). cbn [mbind option_bind mp3 set_mp3].
  destruct (validate_open_ok cfg out _ _ Hn Hv) as (_ & Hrate & _).
  assert (Hopen : forall block h1, exists s' h' rc,
    (i ← eaf_dec_input_init (Some (input s)) (Some (ring s)) EAF_DEC_MP3_RING_BYTES (await (input s)) (await_ctx (input s));
     Some (Some (DecMp3 (Some block) i (ring s) out (Decoder.cfg_channels cfg) (mp3_channels s) (num_channels out) false
       (temp s), w, h1), EAF_OK)) = Some (Some (s', w, h'), rc) /\ mp3_raw s' /\
    (rc = EAF_OK -> mp3_inv out s' /\ initialized s' = false /\ cfg_channels s' = Decoder.cfg_channels cfg /\
       sample_rate out = cfg_sample_rate cfg /\ dec_bytes (input s') = [] /\ await (input s') = await (input s))).
  { intros block h1. cbn [eaf_dec_input_init mbind option_bind]. eexists _, _, _. split; [done |].
    assert (Hr : mp3_raw (DecMp3 (Some block) (DecInput (Some (ring s)) EAF_DEC_MP3_RING_BYTES 0 0 false
      (await (input s)) (await_ctx (input s))) (ring s) out (Decoder.cfg_channels cfg) (mp3_channels s)
      (num_channels out) false (temp s))) by (by apply (mp3_raw_keep s)).
    split; [done |]. intros _. split; [| done]. split; simpl; try done.
    split; simpl; try done. exists (ring s). split; [done | apply Hraw]. }
  destruct p as [block|]; [apply Hopen |].
  destruct (malloc_drmp3 h') as [h2 [|]]; [apply Hopen |]. eexists _, _, _. split; [done |]. split; [| done].
  by apply (mp3_raw_keep s).
Qed.
End facts.

#[export] Instance mp3_laws {D H W} `{!Mp3Lib D H, !Mp3Laws D H, !AwaitHook W} :
  DecoderLaws (eaf_dec_mp3_ops (D := D) (H := H) (W := W)).
Proof.
  refine {| dec_raw := fun c : eaf_dec_mp3_t D * W * H => mp3_raw c.1.1; dec_inv := fun fmt c => mp3_inv fmt c.1.1 |}.
  - intros fmt c Hc. apply Hc.
  - intros [[s w] h] cfg out Hraw Hv Hn. exists mp3_open.
    destruct (mp3_open_spec s w h cfg out Hraw Hn) as (s' & h' & rc & Hrun & Hraw' & Hok).
    exists (s', w, h'), rc. split_and!; try done. intros Hrc. by apply Hok.
  - intros fmt [[s w] h] data n k Hinv Hn _. exists mp3_push.
    destruct (mp3_push_spec fmt s w h data n k Hinv Hn) as (i & k' & Hrun & Hinv' & Hk & _).
    by exists (set_input i s, w, h), k', EAF_OK.
  - intros fmt [[s w] h] cells m n fmt0 Hinv Hm Hfit. exists mp3_pull.
    destruct (mp3_pull_total fmt s w h cells m n fmt0 Hinv Hm Hfit)
      as (s' & w' & h' & pcm' & n' & fmt' & rc & Hrun & Hrest).
    by exists (s', w', h'), pcm', n', fmt', rc.
  - intros fmt [[s w] h] Hinv. exists mp3_reset. pose proof Hinv as [Hraw Hb _ Hf Ho Hi].
    destruct (mp3_uninit_reset fmt s h Hraw Hb Hf Ho Hi) as (s1 & h' & s' & Hu & Hr & Hinv' & _).
    exists (s', w, h'), EAF_OK. split; [done |]. split; [| done]. unfold mp3_reset. cbn [mbind option_bind].
    rewrite Hu. cbn [mbind option_bind]. by rewrite Hr.
  - intros fmt [[s w] h] [Hraw _ _ _ _ _]. exists mp3_close. unfold mp3_close. cbn [mbind option_bind].
    destruct (mp3_uninit_spec s h Hraw) as (p & b & h' & -> & _). cbn [mbind option_bind]. eexists.
    split; [done |]. split; [done |]. by apply (mp3_raw_keep s).
Defined.

(** ** What the stream decodes to *)
Section exact.
Context {D H W : Type} `{!Mp3Lib D H, !Mp3Laws D H, !AwaitHook W}.
Context (future : W -> list Z) (Hblk : await_blocks call_await future).
Local Abbreviation state := (eaf_dec_mp3_t D).

(** The library on the whole stream, asked for [ms] frames again and again. *)
Fixpoint mp3_frames (oc : Z) (h : H) (d : D) (stream : list Z) (ms : list Z) : list answer :=
  match ms with
  | [] => []
  | m :: ms =>
      let '((h, d', out, got), stream) := read_all (drmp3_read_pcm_frames_s16 h d (mp3_cap m)) stream in
      (concat (frames_of eaf_pcm16_to_q31 out (drmp3_channels d) oc got), got, EAF_OK)
        :: mp3_frames oc h d' stream ms
  end.

(** A started adapter in front of a stream. *)
Definition mp3_at (fmt : eaf_format_t) (d : D) (stream : list Z) (s : state) (w : W) : Prop :=
  mp3_inv fmt s /\ initialized s = true /\ mp3 s = Some (Some d) /\ feeds future stream (input s) w.

Lemma mp3_decode_exact fmt d stream (s : state) w (h : H) cells m fmt0 :
  mp3_at fmt d stream s w -> 0 < m -> m * num_channels fmt <= zlen cells ->
  let '((h', d', out, got), stream') := read_all (drmp3_read_pcm_frames_s16 h d (mp3_cap m)) stream in
  let block := concat (frames_of eaf_pcm16_to_q31 out (drmp3_channels d) (num_channels fmt) got) in
  exists s' w' fmt', mp3_decode s w h cells m fmt0 = Some (Some (s', w', h'), splice cells 0 block, got, fmt', EAF_OK) /\
    mp3_at fmt d' stream' s' w' /\ zlen block = got * num_channels fmt /\ 0 <= got <= m /\ 0 < num_channels fmt.
Proof using Hblk Mp3Laws0.
  intros (Hinv & Hini & Hd & Hfd) Hm Hfit.
  assert (Hcap : 0 <= mp3_cap m <= m) by (unfold mp3_cap, EAF_DEC_MP3_TEMP_FRAMES; lia).
  destruct (run_reads_blocks call_await future _ _ stream (input s) w Hblk Hfd (drmp3_read_law h d (mp3_cap m) ltac:(lia)))
    as (i1 & w1 & Hrun & Hfd1 & Hlaw).
  destruct (read_all _ stream) as [[[[h1 d1] out] got] stream1]. cbn [fst snd] in *.
  destruct Hlaw as (Hch & Hgot & Hout).
  destruct (mp3_decode_spec fmt s w h cells m fmt0 d h1 d1 out got i1 w1 Hinv Hini Hd Hm Hfit Hrun
    (feeds_wf _ _ _ _ Hfd1) Hch Hgot Hout) as (fmt' & Hdec & Hinv' & Hz & _).
  eexists _, w1, fmt'. split; [exact Hdec |]. split; [done |]. split; [done |]. split; [lia |].
  destruct (minv_started _ _ Hinv Hini) as (_ & _ & _ & Hl). rewrite <- (minv_out _ _ Hinv). destruct Hl. lia.
Qed.

Lemma mp3_pulls_exact fmt d stream (s : state) w (h : H) calls :
  mp3_at fmt d stream s w -> Forall (buffer_ok (num_channels fmt)) calls ->
  exists c, pulls mp3_pull (num_channels fmt) calls (Some (s, w, h)) =
    Some (c, mp3_frames (num_channels fmt) h d stream (snd <$> calls)).
Proof using Hblk Mp3Laws0.
  revert d stream s w h. induction calls as [|[cells m] rest IH]; intros d stream s w h Hat Hok; [by eexists |].
  apply List.Forall_cons_iff in Hok as [[Hm Hfit] Hok]. cbn [fst snd] in *.
  pose proof (mp3_decode_exact fmt d stream s w h cells m format_zero Hat Hm Hfit) as Hdec.
  cbn [pulls mp3_frames fmap list_fmap snd]. destruct Hat as (_ & Hini & Hd & _).
  destruct (read_all _ stream) as [[[[h1 d1] out] got] stream1].
  destruct Hdec as (s1 & w1 & fmt' & Hdec & Hat1 & Hz & Hgot & Hpos).
  assert (Hpull : mp3_pull (Some (s, w, h)) cells m 0 format_zero = mp3_decode s w h cells m format_zero).
  { unfold mp3_pull. cbn [mbind option_bind]. rewrite Hd. unfold mp3_start. by rewrite Hini. }
  rewrite Hpull, Hdec. cbn [mbind option_bind]. destruct (IH d1 stream1 s1 w1 h1 Hat1 Hok) as (c & ->).
  cbn [mbind option_bind]. exists c. rewrite slice_splice_front by (done || nia). done.
Qed.
End exact.

(** ** Properties *)

(** C23: The MP3 adapter decodes the stream that was pushed: on an open adapter whose hook
    waits for data, or that has all of it, when dr_mp3 starts a decoder on the
    whole stream that the configuration accepts, then any sequence of pulls
    answers what dr_mp3 decodes from the whole stream, at most 1,152 frames at a
    time, widened to Q1.31 - whatever pieces the stream arrived in, and wherever
    it wraps around the ring. *)
Theorem mp3_stream_exact {D H W} `{!Mp3Lib D H, !Mp3Laws D H, !AwaitHook W} (future : W -> list Z)
    (fmt : eaf_format_t) (s : eaf_dec_mp3_t D) (w : W) (h h1 : H) (d : D) (stream rest : list Z)
    (calls : list (list Z * Z)) :
  await_blocks call_await future -> mp3_inv fmt s -> initialized s = false ->
  await (input s) <> 0 \/ EAF_DEC_MP3_HEADER_MIN <= count (input s) \/ eof (input s) = true ->
  feeds future stream (input s) w ->
  read_all (drmp3_init h) stream = ((h1, Some d), rest) -> mp3_accepts s d ->
  Forall (buffer_ok (num_channels fmt)) calls ->
  exists c, pulls mp3_pull (num_channels fmt) calls (Some (s, w, h)) =
    Some (c, mp3_frames (num_channels fmt) h1 d rest (snd <$> calls)).
Proof.
  intros Hblk Hinv Hini Hready Hfd Hinit Hacc Hok. destruct calls as [|[cells m] calls]; [by eexists |].
  destruct (run_reads_blocks call_await future _ _ stream (input s) w Hblk Hfd (drmp3_init_law h))
    as (i1 & w1 & Hrun & Hfd1 & _). rewrite Hinit in Hrun, Hfd1. cbn [fst snd] in *.
  destruct (mp3_start_spec fmt s w h h1 (Some d) i1 w1 Hinv Hini Hready Hrun (feeds_wf _ _ _ _ Hfd1))
    as (s1 & h' & early & Hstart & Hinv1 & He).
  destruct early as [rc|]; [by destruct He as (_ & _ & He) |]. destruct He as (d0 & [= <-] & _ & -> & Hs1).
  assert (Hat : mp3_at future fmt d rest s1 w1) by (by rewrite Hs1 in *).
  destruct (mp3_pulls_exact future Hblk fmt d rest s1 w1 h1 ((cells, m) :: calls) Hat Hok) as (c & Hc).
  assert (Hpull : mp3_pull (Some (s, w, h)) cells m 0 format_zero = mp3_pull (Some (s1, w1, h1)) cells m 0 format_zero).
  { destruct Hat as (_ & Hini1 & Hd1 & _). unfold mp3_pull. cbn [mbind option_bind].
    destruct (mp3 s) eqn:Eb; [| by destruct (minv_block _ _ Hinv)]. rewrite Hstart, Hd1. cbn [mbind option_bind].
    unfold mp3_start. by rewrite Hini1. }
  exists c. rewrite <- Hc. cbn [pulls]. by rewrite Hpull.
Qed.

(** A toy decoder: the stream starts with the channel count, and every sample is a byte. *)
#[export] Instance byte_mp3 : Mp3Lib nat Z := {|
  malloc_drmp3 h := (h, true);
  free_drmp3 h := h;
  drmp3_init h := Read 1 (fun bs => match bs with
                                    | [c] => Done (h + 1, Some (Z.to_nat c))
                                    | _ => Done (h, None)
                                    end);
  drmp3_uninit h d := h - 1;
  drmp3_read_pcm_frames_s16 h d n := Read (n * Z.of_nat d) (fun bs => Done (h, d, bs, zlen bs / Z.of_nat d));
  drmp3_channels d := Z.of_nat d;
  drmp3_sampleRate d := 44100
|}.

#[export] Instance byte_mp3_laws : Mp3Laws nat Z.
Proof.
  split.
  - intros h. split; [lia |]. intros [|c [|]] _; done.
  - intros h d n Hn. split; [nia |]. intros bs Hbs. cbn [reads_ok]. split; [done |].
    change (drmp3_channels d) with (Z.of_nat d) in *. destruct (byte_count d n bs Hn Hbs). split; done || lia.
  - intros d. apply Nat2Z.is_nonneg.
Defined.

(** A mono stream, a stereo output; the stream comes one byte per wait. *)
Definition mp3_out : eaf_format_t := Format 44100 2 3.
Definition mp3_demo : eaf_dec_mp3_t nat :=
  DecMp3 (Some None) (DecInput (Some (replicate (Z.to_nat 16384) 0)) 16384 0 0 false 1 0)
    (replicate (Z.to_nat 16384) 0) mp3_out 1 0 2 false (replicate (Z.to_nat 2304) 0).
Definition mp3_calls : list (list Z * Z) := [(replicate 4 0, 2); (replicate 8 0, 4)].

Lemma mp3_demo_inv : mp3_inv mp3_out mp3_demo.
Proof.
  split; try done. split; try done. exists (replicate (Z.to_nat 16384) 0). by vm_compute.
Qed.

Lemma mp3_stream_exact_witness :
  exists c, pulls mp3_pull 2 mp3_calls (Some (mp3_demo, ([], [1; 7; 8; 9]), 0)) =
    Some (c, mp3_frames 2 1 1%nat [7; 8; 9] [2; 4]).
Proof.
  apply (mp3_stream_exact snd mp3_out mp3_demo ([], [1; 7; 8; 9]) 0 1 1%nat [1; 7; 8; 9] [7; 8; 9] mp3_calls).
  - apply byte_hook_blocks.
  - apply mp3_demo_inv.
  - done.
  - by left.
  - split; [apply mp3_demo_inv | by vm_compute | by intros [?|?]].
  - by vm_compute.
  - split; [done |]. split; [| done]. split; [by left | by right].
  - repeat constructor; by vm_compute.
Defined.

Example mp3_demo_answers :
  mp3_frames 2 1 1%nat [7; 8; 9] [2; 4] =
    [([458752; 458752; 524288; 524288], 2, EAF_OK); ([589824; 589824], 1, EAF_OK)].
Proof. by vm_compute. Qed.
