(* ===== verification/DecFlac.v ===== *)
(** The FLAC adapter: [apps/decoders/dec_flac.c], [include/eaf/eaf_dec_flac.h]. The
    vendored dr_flac is the class [FlacLib]. The adapter does not look at the
    stream's channel count: its safety and exactness need a stream with the
    configured count, and [flac_channels_overrun] is what happens without. *)

From S2P Require Import Prelude Types Ring DecInput Bytes Decoder DecShared DecReads.

Definition EAF_DEC_FLAC_RING_BYTES : Z := 16384.
Definition EAF_DEC_FLAC_TEMP_FRAMES : Z := 512.
Definition EAF_DEC_FLAC_HEADER_MIN : Z := 4096.

(** The library: opening takes the seek callback; decoding [n] frames gives the
    object, the cells stored from the start of the output array and the count. *)
Class FlacLib (D H : Type) := {
  drflac_open : H -> (Z -> Z -> bool) -> reads (H * option D);
  drflac_close : H -> D -> H;
  drflac_read_pcm_frames_s32 : H -> D -> Z -> reads (H * D * list Z * Z)
}.

Section flac.
Context {D H W : Type} `{!FlacLib D H, !AwaitHook W}.

Record eaf_dec_flac_t := DecFlac {
  flac : ptr D;
  input : eaf_dec_input_t;
  ring : list Z;             (* uint8_t ring[EAF_DEC_FLAC_RING_BYTES] *)
  format : eaf_format_t;
  flac_channels : Z;
  output_channels : Z;
  temp : list Z              (* int32_t temp[EAF_DEC_FLAC_TEMP_FRAMES] *)
}.

Definition set_flac (p : ptr D) (s : eaf_dec_flac_t) : eaf_dec_flac_t :=
  DecFlac p (input s) (ring s) (format s) (flac_channels s) (output_channels s) (temp s).
Definition set_input (i : eaf_dec_input_t) (s : eaf_dec_flac_t) : eaf_dec_flac_t :=
  DecFlac (flac s) i (ring s) (format s) (flac_channels s) (output_channels s) (temp s).
Definition set_temp (t : list Z) (s : eaf_dec_flac_t) : eaf_dec_flac_t :=
  DecFlac (flac s) (input s) (ring s) (format s) (flac_channels s) (output_channels s) t.

(** The context: the adapter's state, the world its hook acts on, and the heap. *)
Local Abbreviation flac_ctx := (eaf_dec_flac_t * W * H)%type.

Definition flac_seek (offset origin : Z) : bool := false.

Definition eaf_dec_flac_configure (state : ptr eaf_dec_flac_t) (aw awc : Z) : ptr eaf_dec_flac_t :=
  s ← state; Some (set_input (eaf_dec_input_set_await (input s) aw awc) s).

Definition eaf_dec_flac_finish (state : ptr eaf_dec_flac_t) : ptr eaf_dec_flac_t :=
  s ← state; i ← eaf_dec_input_finish (Some (input s)); Some (set_input i s).

Definition flac_open (ctx : ptr flac_ctx) (cfg : eaf_decoder_config_t) (output : eaf_format_t)
  : ub (ptr flac_ctx * Z) :=
  '(s, w, h) ← ctx;
  let rc := eaf_decoder_validate_open cfg output EAF_CODEC_FLAC false in
  if negb (bool_decide (rc = 0)) then Some (Some (s, w, h), rc)
  else
    i ← eaf_dec_input_init (Some (input s)) (Some (ring s)) EAF_DEC_FLAC_RING_BYTES
          (await (input s)) (await_ctx (input s));
    Some (Some (DecFlac None i (ring s) output (cfg_channels cfg) (num_channels output) (temp s), w, h), EAF_OK).

Definition flac_push (ctx : ptr flac_ctx) (data : ptr (list Z)) (length consumed : Z)
  : ub (ptr flac_ctx * Z * Z) :=
  '(s, w, h) ← ctx;
  '(i, (n, rc)) ← match data with
                  | Some d => eaf_dec_input_push_adapter (Some (input s)) d length
                  | None => if decide (length = 0) then eaf_dec_input_push_adapter (Some (input s)) [] 0 else None
                  end;
  i ← i; Some (Some (set_input i s, w, h), n, rc).

(** The [if (state->flac == NULL)] part of [flac_pull]; [Some rc] when it returns. *)
Definition flac_start (s : eaf_dec_flac_t) (w : W) (h : H) : ub (eaf_dec_flac_t * W * H * option Z) :=
  match flac s with
  | Some _ => Some (s, w, h, None)
  | None =>
      if bool_decide (await (input s) = 0) && bool_decide (count (input s) < EAF_DEC_FLAC_HEADER_MIN)
         && negb (eof (input s))
      then Some (s, w, h, Some EAF_OK)
      else
        '((h, o), i, w) ← run_reads call_await (drflac_open h flac_seek) (input s) w;
        match o with
        | None => i ← eaf_dec_input_reset (Some i); Some (set_input i s, w, h, Some EAF_INVALID)
        | Some d => Some (set_flac (Some d) (set_input i s), w, h, None)
        end
  end.

(** The rest of [flac_pull]: decode into the caller's buffer, or through [temp]. *)
Definition flac_decode (s : eaf_dec_flac_t) (w : W) (h : H) (pcm : list Z) (max_frames : Z) (fmt : eaf_format_t)
  : ub (ptr flac_ctx * list Z * Z * eaf_format_t * Z) :=
  let direct := bool_decide (flac_channels s = output_channels s) in
  let cap := if direct then max_frames
             else if decide (EAF_DEC_FLAC_TEMP_FRAMES < max_frames) then EAF_DEC_FLAC_TEMP_FRAMES else max_frames in
  if decide (cap = 0) then Some (Some (s, w, h), pcm, 0, fmt, EAF_INVALID)
  else
    d ← flac s;
    '((h, d, out, got), i, w) ← run_reads call_await (drflac_read_pcm_frames_s32 h d cap) (input s) w;
    let s := set_input i (set_flac (Some d) s) in
    '(s, pcm) ← (if direct then p ← stn pcm 0 out; Some (s, p) else t ← stn (temp s) 0 out; Some (set_temp t s, pcm));
    if decide (got = 0) then Some (Some (s, w, h), pcm, 0, fmt, EAF_OK)
    else
      pcm ← (if direct then Some pcm
             else eaf_q31_interleaved (temp s) (u32 got) (flac_channels s) pcm (output_channels s));
      Some (Some (s, w, h), pcm, u32 got, format s, EAF_OK).

Definition flac_pull (ctx : ptr flac_ctx) (pcm : list Z) (max_frames frames : Z) (fmt : eaf_format_t)
  : ub (ptr flac_ctx * list Z * Z * eaf_format_t * Z) :=
  '(s, w, h) ← ctx;
  '(s, w, h, early) ← flac_start s w h;
  match early with
  | Some rc => Some (Some (s, w, h), pcm, 0, fmt, rc)
  | None => flac_decode s w h pcm max_frames fmt
  end.

Definition flac_release (s : eaf_dec_flac_t) (h : H) : eaf_dec_flac_t * H :=
  match flac s with
  | Some d => (set_flac None s, drflac_close h d)
  | None => (s, h)
  end.

Definition flac_reset (ctx : ptr flac_ctx) : ub (ptr flac_ctx * Z) :=
  '(s, w, h) ← ctx;
  let '(s, h) := flac_release s h in
  i ← eaf_dec_input_reset (Some (input s)); Some (Some (set_input i s, w, h), EAF_OK).

Definition flac_close (ctx : ptr flac_ctx) : ub (ptr flac_ctx) :=
  '(s, w, h) ← ctx;
  let '(s, h) := flac_release s h in
  i ← eaf_dec_input_reset (Some (input s)); Some (Some (set_input i s, w, h)).

Definition eaf_dec_flac_ops : eaf_decoder_ops_t flac_ctx :=
  DecoderOps (Some flac_open) (Some flac_push) (Some flac_pull) (Some flac_reset) (Some flac_close).
End flac.
#[global] Arguments eaf_dec_flac_t : clear implicits.

(** What dr_flac documents: its reads are sized, its calls return, and a decode call
    stores at most the frames asked for, in the stream's channels, and those it
    counts. *)
Class FlacLaws (D H : Type) `{!FlacLib D H} := {
  drflac_channels : D -> Z;
  drflac_open_law h seek : reads_ok (fun _ => True) (drflac_open h seek);
  drflac_read_law h d n : 0 <= n ->
    reads_ok (fun '(h', d', out, got) => drflac_channels d' = drflac_channels d /\ 0 <= got <= n /\
                got * drflac_channels d <= zlen out <= n * drflac_channels d)
      (drflac_read_pcm_frames_s32 h d n)
}.

(** ** Invariant *)
Section facts.
Context {D H W : Type} `{!FlacLib D H, !FlacLaws D H, !AwaitHook W}.
Context (future : W -> list Z) (Hblk : await_blocks call_await future).
Local Abbreviation state := (eaf_dec_flac_t D).
Implicit Types (s : state) (h : H) (w : W).

Record flac_inv (fmt : eaf_format_t) (s : state) : Prop := {
  finv_ring : zlen (ring s) = EAF_DEC_FLAC_RING_BYTES;
  finv_temp : zlen (temp s) = EAF_DEC_FLAC_TEMP_FRAMES;
  finv_format : format s = fmt;
  finv_out : output_channels s = num_channels fmt;
  finv_layout : layout_ok (flac_channels s) (output_channels s);
  finv_input : dec_input_wf (input s)
}.

(** The frames one call may decode. *)
Definition flac_cap (fc oc m : Z) : Z := if decide (fc = oc) then m else Z.min EAF_DEC_FLAC_TEMP_FRAMES m.

Lemma flac_cap_range fc oc m : 0 < m -> 0 < flac_cap fc oc m <= m.
Proof. intros. unfold flac_cap, EAF_DEC_FLAC_TEMP_FRAMES. case_decide; lia. Qed.

Definition flac_after (s : state) (d : D) (i : eaf_dec_input_t) (out : list Z) : state :=
  let s := set_input i (set_flac (Some d) s) in
  if decide (flac_channels s = output_channels s) then s else set_temp (splice (temp s) 0 out) s.

Lemma flac_after_inv fmt s d i out :
  flac_inv fmt s -> dec_input_wf i -> zlen out <= zlen (temp s) \/ flac_channels s = output_channels s ->
  flac_inv fmt (flac_after s d i out) /\ flac (flac_after s d i out) = Some d /\
  input (flac_after s d i out) = i /\ flac_channels (flac_after s d i out) = flac_channels s.
Proof.
  intros [Hr Ht Hf Ho Hl Hi] Hwf Hz. unfold flac_after. simpl. case_decide; split; try done; split; simpl; try done.
  rewrite zlen_splice by (destruct Hz; done || lia). done.
Qed.

Lemma flac_decode_spec fmt s w h pcm m fmt0 d h1 d1 out got i1 w1 :
  flac_inv fmt s -> flac s = Some d -> drflac_channels d = flac_channels s ->
  0 < m -> is_u32 m -> m * num_channels fmt <= zlen pcm ->
  let cap := flac_cap (flac_channels s) (output_channels s) m in
  run_reads call_await (drflac_read_pcm_frames_s32 h d cap) (input s) w = Some ((h1, d1, out, got), i1, w1) ->
  dec_input_wf i1 -> 0 <= got <= cap -> got * drflac_channels d <= zlen out <= cap * drflac_channels d ->
  let cells := concat (frames_of (fun x => x) out (flac_channels s) (num_channels fmt) got) in
  exists pcm' fmt', flac_decode s w h pcm m fmt0 = Some (Some (flac_after s d1 i1 out, w1, h1), pcm', got, fmt', EAF_OK) /\
    flac_inv fmt (flac_after s d1 i1 out) /\ zlen pcm' = zlen pcm /\ slice pcm' 0 (got * num_channels fmt) = cells /\
    (0 < got -> fmt' = fmt).
Proof.
  intros Hinv Hd Hdc Hm H32 Hfit cap Hrun Hwf1 Hgot Hout cells. pose proof Hinv as [Hr Ht Hf Ho Hl Hi].
  rewrite Hdc in Hout. pose proof (flac_cap_range (flac_channels s) (output_channels s) m Hm) as Hcap. fold cap in Hcap.
  assert (Hcc : flac_channels s = 1 \/ flac_channels s = 2) by (destruct Hl; done).
  assert (Hoc : num_channels fmt = 1 \/ num_channels fmt = 2) by (destruct Hl; lia).
  assert (Hgr : got * num_channels fmt <= m * num_channels fmt) by (destruct Hoc as [E|E]; rewrite E; lia).
  assert (Hafter : flac_inv fmt (flac_after s d1 i1 out)).
  { apply flac_after_inv; try done. destruct (decide (flac_channels s = output_channels s)) as [E|E]; [by right | left].
    unfold cap, flac_cap, EAF_DEC_FLAC_TEMP_FRAMES in *. rewrite decide_False in Hout, Hgot by done. destruct Hl; lia. }
  assert (Hz : got * flac_channels s <= zlen out) by lia.
  unfold flac_decode. unfold flac_after in *. cbn [flac_channels output_channels set_input set_flac] in *.
  case_bool_decide as Hdir; cbn zeta iota.
  - (* into the caller's buffer *)
    assert (Ec : cap = m) by (unfold cap, flac_cap; by rewrite decide_True). rewrite Ec in *. clear cap Ec.
    assert (Hfc : flac_channels s = num_channels fmt) by congruence.
    revert Hafter. destruct (decide (flac_channels s = output_channels s)) as [_|?]; [| done]. intros Hafter.
    rewrite decide_False by lia.
    rewrite Hd. cbn [mbind option_bind]. rewrite Hrun. cbn [mbind option_bind].
    rewrite Hfc in Hout, Hz. rewrite stn_eq by lia. cbn [mbind option_bind].
    assert (Hc : slice (splice pcm 0 out) 0 (got * num_channels fmt) = cells).
    { unfold cells. rewrite Hfc, frames_of_same by (done || lia).
      apply (slice_splice pcm out 0 0); destruct Hoc as [E|E]; rewrite E in *; lia. }
    exists (splice pcm 0 out). rewrite zlen_splice by lia. rewrite u32_small by (unfold is_u32 in *; lia).
    destruct (decide (got = 0)) as [->|]; [exists fmt0 | exists fmt]; cbn [format set_input set_flac]; rewrite ?Hf;
      split_and!; done || lia.
  - (* through [temp] *)
    assert (Ec : cap = Z.min 512 m) by (unfold cap, flac_cap; by rewrite decide_False).
    revert Hafter. destruct (decide (flac_channels s = output_channels s)) as [?|_]; [done |]. intros Hafter.
    unfold EAF_DEC_FLAC_TEMP_FRAMES in *. replace (if decide (512 < m) then 512 else m) with cap by (rewrite Ec; case_decide; lia).
    rewrite decide_False by lia. rewrite Hd. cbn [mbind option_bind]. rewrite Hrun. cbn [mbind option_bind].
    assert (Hfo : zlen out <= zlen (temp s)) by (destruct Hl; lia).
    cbn [temp set_input set_flac]. rewrite stn_eq by lia. cbn [mbind option_bind].
    rewrite u32_small by (unfold is_u32 in *; lia).
    destruct (interleave_frames (fun x => x) (splice (temp s) 0 out) got (flac_channels s) (output_channels s) pcm)
      as [Hloop Hcz]; [done | lia | rewrite zlen_splice by lia; lia | rewrite Ho; lia |].
    rewrite frames_of_splice in Hloop, Hcz by (done || lia). rewrite Ho in Hloop, Hcz. fold cells in Hloop, Hcz.
    destruct (decide (got = 0)) as [->|].
    + exists pcm, fmt0. rewrite slice_nil_n. split_and!; try done.
    + exists (splice pcm 0 cells), fmt. rewrite <- Ho in Hloop at 1.
      replace (eaf_q31_interleaved _ got _ pcm _) with (Some (splice pcm 0 cells)) by (symmetry; exact Hloop).
      cbn [mbind option_bind format set_temp set_input set_flac]. rewrite Hf, zlen_splice, slice_splice_front by lia. split_and!; done.
Qed.

(** ** What the stream decodes to *)

Fixpoint flac_frames (fc oc : Z) (h : H) (d : D) (stream : list Z) (ms : list Z) : list answer :=
  match ms with
  | [] => []
  | m :: ms =>
      let '((h, d, out, got), stream) := read_all (drflac_read_pcm_frames_s32 h d (flac_cap fc oc m)) stream in
      (concat (frames_of (fun x => x) out fc oc got), got, EAF_OK) :: flac_frames fc oc h d stream ms
  end.

(** An open decoder in front of a stream of the configured channels. *)
Definition flac_at (fmt : eaf_format_t) (fc : Z) (d : D) (stream : list Z) (s : state) (w : W) : Prop :=
  flac_inv fmt s /\ flac s = Some d /\ drflac_channels d = fc /\ flac_channels s = fc /\
  feeds future stream (input s) w.

Lemma flac_pull_exact fmt fc d stream s w h cells m :
  flac_at fmt fc d stream s w -> 0 < m -> is_u32 m -> m * num_channels fmt <= zlen cells ->
  let '((h', d', out, got), stream') := read_all (drflac_read_pcm_frames_s32 h d (flac_cap fc (num_channels fmt) m)) stream in
  exists s' w' pcm' fmt', flac_pull (Some (s, w, h)) cells m 0 format_zero = Some (Some (s', w', h'), pcm', got, fmt', EAF_OK) /\
    flac_at fmt fc d' stream' s' w' /\
    slice pcm' 0 (got * num_channels fmt) = concat (frames_of (fun x => x) out fc (num_channels fmt) got).
Proof using Hblk.
  intros (Hinv & Hd & Hdc & Hfc & Hfd) Hm H32 Hfit.
  pose proof (flac_cap_range fc (num_channels fmt) m Hm) as Hcap.
  set (cap := flac_cap fc (num_channels fmt) m) in *.
  destruct (run_reads_blocks call_await future _ _ stream (input s) w Hblk Hfd (drflac_read_law h d cap ltac:(lia)))
    as (i1 & w1 & Hrun & Hfd1 & Hlaw).
  destruct (read_all _ stream) as [[[[h1 d1] out] got] stream1]. cbn [fst snd] in *.
  destruct Hlaw as (Hch & Hgot & Hout). pose proof (finv_out _ _ Hinv) as Ho.
  assert (Ec : cap = flac_cap (flac_channels s) (output_channels s) m) by (unfold cap; by rewrite Ho, Hfc).
  rewrite Ec in *.
  destruct (flac_decode_spec fmt s w h cells m format_zero d h1 d1 out got i1 w1 Hinv Hd (eq_trans Hdc (eq_sym Hfc))
    Hm H32 Hfit Hrun (feeds_wf _ _ _ _ Hfd1) Hgot Hout) as (pcm' & fmt' & Hdec & Hinv' & _ & Hs & _).
  exists (flac_after s d1 i1 out), w1, pcm', fmt'. unfold flac_pull, flac_start. cbn [mbind option_bind].
  rewrite Hd. cbn [mbind option_bind]. split; [exact Hdec |]. rewrite <- Hfc. split; [| exact Hs].
  assert (Hafter : flac (flac_after s d1 i1 out) = Some d1 /\ input (flac_after s d1 i1 out) = i1 /\
    flac_channels (flac_after s d1 i1 out) = flac_channels s) by (unfold flac_after; simpl; by case_decide).
  destruct Hafter as (Hf1 & Hin & Hc). split; [done |]. split_and!; [done | congruence | congruence | by rewrite Hin].
Qed.

Lemma flac_pulls_exact fmt fc d stream s w h calls :
  flac_at fmt fc d stream s w -> Forall (fun call => buffer_ok (num_channels fmt) call /\ is_u32 call.2) calls ->
  exists c, pulls flac_pull (num_channels fmt) calls (Some (s, w, h)) =
    Some (c, flac_frames fc (num_channels fmt) h d stream (snd <$> calls)).
Proof using Hblk.
  revert d stream s w h. induction calls as [|[cells m] rest IH]; intros d stream s w h Hat Hok; [by eexists |].
  apply List.Forall_cons_iff in Hok as [[[Hm Hfit] H32] Hok]. cbn [fst snd] in *.
  pose proof (flac_pull_exact fmt fc d stream s w h cells m Hat Hm H32 Hfit) as Hp.
  cbn [pulls flac_frames fmap list_fmap snd].
  destruct (read_all _ stream) as [[[[h1 d1] out] got] stream1].
  destruct Hp as (s1 & w1 & pcm' & fmt' & -> & Hat1 & Hs). cbn [mbind option_bind].
  destruct (IH d1 stream1 s1 w1 h1 Hat1 Hok) as (c & Hc). unfold fmap in Hc. rewrite Hc. cbn [mbind option_bind].
  exists c. by rewrite Hs.
Qed.

Lemma flac_open_spec s w h cfg out :
  zlen (ring s) = EAF_DEC_FLAC_RING_BYTES -> zlen (temp s) = EAF_DEC_FLAC_TEMP_FRAMES -> 0 < num_channels out ->
  exists s' rc, flac_open (Some (s, w, h)) cfg out = Some (Some (s', w, h), rc) /\
    (rc <> EAF_OK -> s' = s) /\
    (rc = EAF_OK -> flac_inv out s' /\ flac s' = None /\ flac_channels s' = cfg_channels cfg /\
       dec_bytes (input s') = [] /\ eof (input s') = false /\ await (input s') = await (input s)).
Proof.
  intros Hr Ht Hn. unfold flac_open. cbn [mbind option_bind].
  case_bool_decide as Hv; cbn [negb]; [| by eexists _, _].
  destruct (validate_open_channels cfg out _ Hn Hv) as (Hc & Hl & _). cbn [eaf_dec_input_init mbind option_bind].
  eexists _, _. split; [done |]. split; [done |]. intros _. split; [| done].
  split; simpl; try done. split; simpl; try done. by exists (ring s).
Qed.

(** A reset leaves the adapter as after opening, its decoder given back to the library. *)
Lemma flac_reset_spec fmt s w h :
  flac_inv fmt s ->
  exists s' h', flac_reset (Some (s, w, h)) = Some (Some (s', w, h'), EAF_OK) /\
    flac_close (Some (s, w, h)) = Some (Some (s', w, h')) /\
    flac_inv fmt s' /\ flac s' = None /\ dec_bytes (input s') = [] /\
    h' = match flac s with Some d => drflac_close h d | None => h end.
Proof.
  intros [Hr Ht Hf Ho Hl [Hs Hc Htl Hct]]. unfold flac_reset, flac_close, flac_release. cbn [mbind option_bind].
  destruct (flac s) eqn:Ed; cbn [eaf_dec_input_reset mbind option_bind]; eexists _, _; (split; [done |]);
    (split; [done |]); (split; [split; simpl; try done; split; simpl; done || lia |]); unfold dec_bytes; simpl;
    destruct (DecInput.ring (input s)); done.
Qed.
End facts.

(** ** Properties *)

(** The FLAC adapter decodes the stream that was pushed: after a successful open with
    a hook that waits for data, when dr_flac opens a decoder on the whole stream
    and that stream has the configured channels, any sequence of pulls answers
    what dr_flac decodes from the whole stream - straight into the caller's buffer,
    or at most 512 frames at a time when a mono stream is duplicated - whatever
    pieces the stream arrived in. *)
Theorem flac_stream_exact {D H W} `{!FlacLib D H, !FlacLaws D H, !AwaitHook W} (future : W -> list Z)
    (s : eaf_dec_flac_t D) (w : W) (h h1 : H) (cfg : eaf_decoder_config_t) (fmt : eaf_format_t) (d : D)
    (rest : list Z) (calls : list (list Z * Z)) :
  await_blocks call_await future -> zlen (ring s) = EAF_DEC_FLAC_RING_BYTES ->
  zlen (temp s) = EAF_DEC_FLAC_TEMP_FRAMES -> 0 < num_channels fmt -> await (input s) <> 0 ->
  read_all (drflac_open h flac_seek) (future w) = ((h1, Some d), rest) -> drflac_channels d = cfg_channels cfg ->
  Forall (fun call => buffer_ok (num_channels fmt) call /\ is_u32 call.2) calls ->
  exists s1 rc, flac_open (Some (s, w, h)) cfg fmt = Some (Some (s1, w, h), rc) /\
    (rc = EAF_OK -> exists c, pulls flac_pull (num_channels fmt) calls (Some (s1, w, h)) =
      Some (c, flac_frames (cfg_channels cfg) (num_channels fmt) h1 d rest (snd <$> calls))).
Proof.
  intros Hblk Hr Ht Hn Haw Hopen Hch Hok.
  destruct (flac_open_spec s w h cfg fmt Hr Ht Hn) as (s1 & rc & Hrun & _ & Hgood).
  exists s1, rc. split; [done |]. intros Hrc. destruct (Hgood Hrc) as (Hinv & Hd & Hfc & Hb & He & Ha).
  destruct calls as [|[cells m] calls]; [by eexists |].
  assert (Hfd : feeds future (future w) (input s1) w).
  { split; [apply Hinv | by rewrite Hb |]. rewrite He, Ha. by intros [?|?]. }
  destruct (run_reads_blocks call_await future _ _ _ (input s1) w Hblk Hfd (drflac_open_law h flac_seek))
    as (i1 & w1 & Hreads & Hfd1 & _). rewrite Hopen in Hreads, Hfd1. cbn [fst snd] in *.
  set (s2 := set_flac (Some d) (set_input i1 s1)).
  assert (Hat : flac_at future fmt (cfg_channels cfg) d rest s2 w1).
  { split; [| split_and!; done]. destruct Hinv. split; try done. apply Hfd1. }
  destruct (flac_pulls_exact future Hblk fmt (cfg_channels cfg) d rest s2 w1 h1 ((cells, m) :: calls) Hat Hok)
    as (c & Hc).
  assert (Hpull : flac_pull (Some (s1, w, h)) cells m 0 format_zero = flac_pull (Some (s2, w1, h1)) cells m 0 format_zero).
  { unfold flac_pull, flac_start. cbn [mbind option_bind flac set_flac s2]. rewrite Hd, Ha.
    rewrite bool_decide_eq_false_2 by done. cbn [andb]. by rewrite Hreads. }
  exists c. rewrite <- Hc. cbn [pulls]. by rewrite Hpull.
Qed.

(** A toy decoder: the stream starts with the channel count, and every sample is a byte. *)
#[export] Instance byte_flac : FlacLib nat Z := {|
  drflac_open h seek := Read 1 (fun bs => match bs with
                                          | [c] => Done (h + 1, Some (Z.to_nat c))
                                          | _ => Done (h, None)
                                          end);
  drflac_close h d := h - 1;
  drflac_read_pcm_frames_s32 h d n := Read (n * Z.of_nat d) (fun bs => Done (h, d, bs, zlen bs / Z.of_nat d))
|}.

#[export] Instance byte_flac_laws : FlacLaws nat Z.
Proof.
  refine {| drflac_channels d := Z.of_nat d |}.
  - intros h seek. split; [lia |]. intros [|c [|]] _; done.
  - intros h d n Hn. split; [nia |]. intros bs Hbs. cbn [reads_ok]. destruct (byte_count d n bs Hn Hbs).
    split_and!; done || lia.
Defined.

Definition flac_demo : eaf_dec_flac_t nat :=
  DecFlac None (DecInput None 0 0 0 false 1 0) (replicate (Z.to_nat 16384) 0) format_zero 0 0 (replicate 512 0).
Definition flac_cfg (ch : Z) : eaf_decoder_config_t := DecoderConfig EAF_CODEC_FLAC 44100 ch 16 None 0.
Definition flac_mono : eaf_format_t := Format 44100 1 1.
Definition flac_stereo : eaf_format_t := Format 44100 2 3.
Definition flac_world : byte_world := ([], [1; 7; 8; 9]).
Definition flac_calls : list (list Z * Z) := [(replicate 4 0, 2); (replicate 8 0, 4)].

Lemma flac_stream_exact_witness :
  exists s1 rc, flac_open (Some (flac_demo, flac_world, 0)) (flac_cfg 1) flac_stereo =
      Some (Some (s1, flac_world, 0), rc) /\
    (rc = EAF_OK -> exists c, pulls flac_pull 2 flac_calls (Some (s1, flac_world, 0)) =
      Some (c, flac_frames 1 2 1 1%nat [7; 8; 9] [2; 4])).
Proof.
  apply (flac_stream_exact snd flac_demo flac_world 0 1 (flac_cfg 1) flac_stereo 1%nat [7; 8; 9] flac_calls);
    try done; [apply byte_hook_blocks |].
  repeat constructor; by vm_compute.
Defined.

Example flac_demo_answers :
  flac_frames 1 2 1 1%nat [7; 8; 9] [2; 4] = [([7; 7; 8; 8], 2, EAF_OK); ([9; 9], 1, EAF_OK)].
Proof. by vm_compute. Qed.

(** The adapter never compares the stream's channels with its configuration, as the
    MP3 and Vorbis adapters do: a stereo stream announced as mono makes dr_flac
    store twice the cells the caller's buffer has. *)
Theorem flac_channels_overrun :
  let opened := flac_open (Some (flac_demo, (([], [2; 7; 8; 9; 10]) : byte_world), 0)) (flac_cfg 1) flac_mono in
  snd <$> opened = Some EAF_OK /\ (o ← opened; flac_pull o.1 [0; 0] 2 0 format_zero) = None.
Proof. split; by vm_compute. Qed.

(** Opening an open adapter forgets its decoder: [flac_open] sets [state->flac] to NULL. *)
Theorem flac_reopen_leaks :
  (o ← flac_open (Some (flac_demo, flac_world, 0)) (flac_cfg 1) flac_mono;
   p ← flac_pull o.1 [0; 0] 2 0 format_zero;
   o ← flac_open p.1.1.1.1 (flac_cfg 1) flac_mono;
   c ← flac_close o.1; snd <$> c) = Some 1.
Proof. by vm_compute. Qed.
