(* ===== verification/FloatQ31.v ===== *)
(** Single precision samples to Q1.31: [eaf_float_to_q31] of [include/eaf/eaf_types.h].
    The C type [float] is IEEE 754 binary32 with rounding to nearest even, on the
    executable specification of the standard library. *)

From Stdlib Require Import SpecFloat.
From S2P Require Import Prelude Types Float.

Abbreviation single := spec_float.

Definition fmul : single -> single -> single := SFmul 24 128.
Definition f_of_Z (n : Z) : single := binary_normalize 24 128 n 0 false.

(** To the nearest integer, halves to even. *)
Definition round_even (m n : Z) : Z :=
  let q := m / 2 ^ n in
  let r := m mod 2 ^ n in
  if decide (2 * r < 2 ^ n) then q else if decide (2 ^ n < 2 * r) then q + 1 else q + q mod 2.

(** [lrintf(x)] in the default rounding mode; for NaN and the infinities its result is
    unspecified, [unspec] here. *)
Definition lrintf (unspec : Z) (x : single) : Z :=
  match x with
  | S754_zero _ => 0
  | S754_finite s m e =>
      cond_Zopp s (if decide (0 <= e) then Z.pos m * 2 ^ e else round_even (Z.pos m) (- e))
  | _ => unspec
  end.

Definition eaf_float_to_q31 (unspec : Z) (x : single) : Z :=
  if SFleb (f_of_Z 1) x then INT32_MAX
  else if SFleb x (f_of_Z (-1)) then INT32_MIN
  else s32 (lrintf unspec (fmul x (f_of_Z 2147483647))).

Example q31_half : eaf_float_to_q31 0 (S754_finite false 8388608 (-24)) = 1073741824.
Proof. reflexivity. Qed.
Example q31_below_one : eaf_float_to_q31 0 (S754_finite true 16777215 (-24)) = -2147483520.
Proof. reflexivity. Qed.

(** ** Lemmas *)

Definition f_valid (x : single) : Prop := valid_binary 24 128 x = true.

Lemma f_valid_finite s m e :
  f_valid (S754_finite s m e) -> -149 <= e /\ 0 < Z.pos (digits2_pos m) <= 24.
Proof.
  unfold f_valid. simpl. unfold bounded, canonical_mantissa, fexp, emin. rewrite andb_true_iff, Z.eqb_eq, Z.leb_le.
  set (d := Z.pos (digits2_pos m)). assert (0 < d) by (unfold d; lia). lia.
Qed.

(** Scaling by 2 ^ 31, which is what [2147483647.0f] is, is exact. *)
Lemma fmul_scale s m e :
  f_valid (S754_finite s m e) -> e <= 0 ->
  exists k, Z.pos k = Z.pos m * 2 ^ (24 - Z.pos (digits2_pos m)) /\
    fmul (S754_finite s m e) (f_of_Z 2147483647) = S754_finite s k (e + 7 + Z.pos (digits2_pos m)).
Proof.
  intros Hv He. destruct (f_valid_finite s m e Hv) as [Hlo Hd]. pose proof (digits_pos m) as Hm.
  set (d := Z.pos (digits2_pos m)) in *.
  change (f_of_Z 2147483647) with (S754_finite false 8388608 8). unfold fmul. cbn [SFmul].
  rewrite xorb_false_r. set (p := (m * 8388608)%positive).
  assert (Hp : Z.pos p = Z.pos m * 2 ^ 23) by (unfold p; lia).
  assert (Hpow : 2 ^ (d - 1) * 2 ^ (24 - d) = 2 ^ 23) by (rewrite <- Z.pow_add_r by lia; f_equal; lia).
  assert (Hpw2 : 2 ^ (24 - d) * 2 ^ d = 2 ^ 24) by (rewrite <- Z.pow_add_r by lia; f_equal; lia).
  assert (Hp1 : 0 < 2 ^ (d - 1)) by (apply Z.pow_pos_nonneg; lia).
  assert (Hp2 : 0 < 2 ^ (24 - d)) by (apply Z.pow_pos_nonneg; lia).
  assert (Hdp : Zdigits2 (Z.pos p) = d + 23).
  { apply digits_unique; [lia |]. rewrite Hp. split.
    - replace (d + 23 - 1) with (d - 1 + 23) by lia. rewrite Z.pow_add_r by lia.
      apply Z.mul_le_mono_nonneg_r; [done | lia].
    - rewrite Z.pow_add_r by lia. apply Z.mul_lt_mono_pos_r; [done | lia]. }
  assert (Hpd : Z.pos p / 2 ^ (d - 1) = Z.pos m * 2 ^ (24 - d)).
  { rewrite Hp, <- Hpow. replace (Z.pos m * (2 ^ (d - 1) * 2 ^ (24 - d))) with (Z.pos m * 2 ^ (24 - d) * 2 ^ (d - 1)) by lia.
    apply Z.div_mul. lia. }
  assert (Hpm : Z.pos p mod 2 ^ (d - 1) = 0).
  { rewrite Hp, <- Hpow. replace (Z.pos m * (2 ^ (d - 1) * 2 ^ (24 - d))) with (Z.pos m * 2 ^ (24 - d) * 2 ^ (d - 1)) by lia.
    apply Z.mod_mul. lia. }
  unfold binary_round_aux, shr_fexp. rewrite Hdp.
  assert (Hf : fexp 24 128 (d + 23 + (e + 8)) = e + 7 + d) by (unfold fexp, emin; lia).
  rewrite Hf. destruct (shr (shr_record_of_loc (Z.pos p) loc_Exact) (e + 8) (e + 7 + d - (e + 8))) as [mrs e'] eqn:Es.
  destruct (shr_spec loc_Exact (Z.pos p) (e + 8) _ mrs e' ltac:(lia) Es) as [He' [Hq Hx]].
  replace (Z.max 0 (e + 7 + d - (e + 8))) with (d - 1) in * by lia.
  destruct (Hx eq_refl Hpm) as [Hr Hs]. destruct mrs as [q r ss]. simpl in Hq, Hr, Hs. subst r ss. rewrite Hpd in Hq.
  cbn [shr_m loc_of_shr_record round_nearest_even].
  assert (Hqr : 2 ^ 23 <= q < 2 ^ 24).
  { rewrite Hq, <- Hpow, <- Hpw2, (Z.mul_comm (2 ^ (24 - d)) (2 ^ d)).
    split; [apply Z.mul_le_mono_nonneg_r; lia | apply Z.mul_lt_mono_pos_r; lia]. }
  assert (Hdq : Zdigits2 q = 24) by (destruct q as [|k|k]; [lia | apply digits_unique; lia | lia]).
  rewrite Hdq. replace e' with (e + 7 + d) by lia.
  assert (Hf2 : fexp 24 128 (24 + (e + 7 + d)) = e + 7 + d) by (unfold fexp, emin; lia).
  rewrite Hf2, Z.sub_diag. unfold shr. destruct q as [|k|k]; [lia | | lia].
  exists k. split; [done |]. cbn [shr_record_of_loc shr_m].
  destruct (Z.leb_spec (e + 7 + d) (128 - 24)); [done | lia].
Qed.

(** A representable magnitude of 1 or more has the exponent of 1 or more. *)
Lemma f_one s m e : f_valid (S754_finite s m e) -> 2 ^ (- e) <= Z.pos m <-> -23 <= e.
Proof.
  intros Hv. assert (Hc : e = Z.max (Z.pos (digits2_pos m) + e - 24) (-149)).
  { revert Hv. unfold f_valid. simpl. unfold bounded, canonical_mantissa, fexp, emin. rewrite andb_true_iff, Z.eqb_eq. lia. }
  destruct (f_valid_finite s m e Hv) as [_ Hd]. pose proof (digits_pos m) as Hm. set (d := Z.pos (digits2_pos m)) in *. split.
  - intros Hle. destruct (decide (-23 <= e)); [done | exfalso].
    assert (2 ^ d <= 2 ^ (- e)) by (apply Z.pow_le_mono_r; lia). lia.
  - intros He. assert (2 ^ (- e) <= 2 ^ (d - 1)) by (apply Z.pow_le_mono_r; lia). lia.
Qed.

Lemma compare_at_least (a b : positive) :
  (b <= a)%positive ->
  match (b ?= a)%positive with Gt => false | _ => true end = true /\
  match CompOpp (a ?= b)%positive with Gt => false | _ => true end = true.
Proof.
  intros Hab. rewrite (Pos.compare_antisym a b). destruct (Pos.compare_spec a b); simpl; split; done || lia.
Qed.

(** The sign decides which end a value at or beyond 1 is clamped to. *)
Lemma f_compare_one s m e :
  f_valid (S754_finite s m e) ->
  SFleb (f_of_Z 1) (S754_finite s m e) = negb s && bool_decide (2 ^ (- e) <= Z.pos m) /\
  SFleb (S754_finite s m e) (f_of_Z (-1)) = s && bool_decide (2 ^ (- e) <= Z.pos m).
Proof.
  intros Hv. rewrite (bool_decide_ext _ _ (f_one s m e Hv)).
  assert (Hm : e = -23 -> (8388608 <= m)%positive).
  { intros He. apply (f_one s m e) in Hv as [_ H]. specialize (H ltac:(lia)). rewrite He in H.
    change (2 ^ (- -23)) with 8388608 in H. lia. }
  change (f_of_Z 1) with (S754_finite false 8388608 (-23)).
  change (f_of_Z (-1)) with (S754_finite true 8388608 (-23)).
  assert (Hcc : forall a b, Pos.compare_cont Eq a b = Pos.compare a b) by done.
  unfold SFleb. cbn [SFcompare]. destruct s; cbn [negb andb]; split; try done.
  - destruct (Z.compare_spec e (-23)) as [E|E|E]; [| by rewrite bool_decide_eq_false_2 by lia | by rewrite bool_decide_eq_true_2 by lia].
    rewrite bool_decide_eq_true_2 by lia. specialize (Hm E).
    rewrite Hcc. apply (compare_at_least m 8388608 Hm).
  - destruct (Z.compare_spec (-23) e) as [E|E|E]; [| by rewrite bool_decide_eq_true_2 by lia | by rewrite bool_decide_eq_false_2 by lia].
    rewrite bool_decide_eq_true_2 by lia. specialize (Hm (eq_sym E)).
    rewrite Hcc. apply (compare_at_least m 8388608 Hm).
Qed.

Lemma round_even_scale m n j : 0 <= j -> 0 <= n -> round_even (m * 2 ^ j) (n + j) = round_even m n.
Proof.
  intros Hj Hn. unfold round_even. assert (0 < 2 ^ j) by (apply Z.pow_pos_nonneg; lia).
  assert (0 < 2 ^ n) by (apply Z.pow_pos_nonneg; lia).
  rewrite Z.pow_add_r, Z.div_mul_cancel_r, Z.mul_mod_distr_r by lia.
  set (r := m mod 2 ^ n). repeat (case_decide; try nia).
Qed.

Lemma round_even_range m n : 0 <= m -> 0 <= n -> 0 <= round_even m n <= m / 2 ^ n + 1.
Proof.
  intros Hm Hn. assert (0 <= m / 2 ^ n) by (apply Z.div_pos; [lia | apply Z.pow_pos_nonneg; lia]).
  unfold round_even. pose proof (Z.mod_pos_bound (m / 2 ^ n) 2 ltac:(lia)). repeat case_decide; lia.
Qed.

(** [m * 2 ^ (e + 31)], to the nearest integer, halves to even. *)
Definition q31_of (m e : Z) : Z := if decide (0 <= e + 31) then m * 2 ^ (e + 31) else round_even m (- (e + 31)).

Lemma lrintf_scaled unspec s m e :
  f_valid (S754_finite s m e) -> e < -23 ->
  lrintf unspec (fmul (S754_finite s m e) (f_of_Z 2147483647)) = cond_Zopp s (q31_of (Z.pos m) e) /\
  0 <= q31_of (Z.pos m) e < 2147483648.
Proof.
  intros Hv He. destruct (fmul_scale s m e Hv ltac:(lia)) as (k & Hk & ->).
  destruct (f_valid_finite s m e Hv) as [Hlo Hd]. pose proof (digits_pos m) as Hm.
  set (d := Z.pos (digits2_pos m)) in *. assert (Hm24 : Z.pos m < 2 ^ 24).
  { assert (2 ^ d <= 2 ^ 24) by (apply Z.pow_le_mono_r; lia). lia. }
  assert (Hp : 0 < 2 ^ (24 - d)) by (apply Z.pow_pos_nonneg; lia).
  assert (Hcanon : d = 24 \/ e = -149).
  { revert Hv. unfold f_valid. simpl. unfold bounded, canonical_mantissa, fexp, emin. rewrite andb_true_iff, Z.eqb_eq. lia. }
  split.
  - unfold lrintf, q31_of. f_equal. destruct Hcanon as [E | E].
    + rewrite E in *. change (2 ^ (24 - 24)) with 1 in Hk. rewrite Z.mul_1_r in Hk. rewrite Hk.
      replace (e + 7 + 24) with (e + 31) by lia. done.
    + rewrite !decide_False by lia. rewrite Hk.
      replace (- (e + 7 + d)) with (- (e + 31) + (24 - d)) by lia. apply round_even_scale; lia.
  - unfold q31_of. case_decide.
    + assert (2 ^ (e + 31) <= 2 ^ 7) by (apply Z.pow_le_mono_r; lia). change (2 ^ 7) with 128 in *.
      change (2 ^ 24) with 16777216 in *. assert (0 < 2 ^ (e + 31)) by (apply Z.pow_pos_nonneg; lia). nia.
    + pose proof (round_even_range (Z.pos m) (- (e + 31)) ltac:(lia) ltac:(lia)).
      assert (Z.pos m / 2 ^ (- (e + 31)) <= Z.pos m).
      { apply Z.div_le_upper_bound; [apply Z.pow_pos_nonneg; lia |].
        assert (0 < 2 ^ (- (e + 31))) by (apply Z.pow_pos_nonneg; lia). nia. }
      change (2 ^ 24) with 16777216 in *. lia.
Qed.

Lemma s32_in_range x : is_s32 (s32 x).
Proof. apply s32_range. Qed.

(** ** Properties *)

(** A sample in single precision becomes Q1.31 as intended: at or beyond 1 it is
    clamped to the end of its sign, an infinity too, and inside it is the sample
    times 2 ^ 31 to the nearest integer, halves to even; the factor 2147483647
    of the source is 2 ^ 31 in single precision. The result always fits. *)
Theorem float_to_q31_exact (unspec : Z) (x : single) :
  f_valid x ->
  is_s32 (eaf_float_to_q31 unspec x) /\
  match x with
  | S754_zero _ => eaf_float_to_q31 unspec x = 0
  | S754_infinity s => eaf_float_to_q31 unspec x = if s then INT32_MIN else INT32_MAX
  | S754_nan => True
  | S754_finite s m e =>
      eaf_float_to_q31 unspec x =
        if decide (2 ^ (- e) <= Z.pos m) then (if s then INT32_MIN else INT32_MAX)
        else cond_Zopp s (q31_of (Z.pos m) e)
  end.
Proof.
  intros Hv. destruct x as [s | s | | s m e].
  - by destruct s.
  - by destruct s.
  - split; [apply s32_in_range | done].
  - unfold eaf_float_to_q31. destruct (f_compare_one s m e Hv) as [-> ->].
    destruct (decide (2 ^ (- e) <= Z.pos m)) as [Hge|Hlt].
    + rewrite bool_decide_eq_true_2 by done. by destruct s.
    + rewrite bool_decide_eq_false_2 by done. rewrite !andb_false_r.
      assert (He : e < -23) by (rewrite (f_one s m e Hv) in Hlt; lia).
      destruct (lrintf_scaled unspec s m e Hv He) as [-> Hr].
      assert (H32 : is_s32 (cond_Zopp s (q31_of (Z.pos m) e))) by (unfold is_s32; destruct s; simpl; lia).
      rewrite s32_small by done. done.
Qed.

Lemma float_to_q31_exact_witness :
  is_s32 (eaf_float_to_q31 0 (S754_finite true 12582912 (-25))) /\
  eaf_float_to_q31 0 (S754_finite true 12582912 (-25)) =
    if decide (2 ^ (- -25) <= 12582912) then INT32_MIN else cond_Zopp true (q31_of 12582912 (-25)).
Proof. apply (float_to_q31_exact 0 (S754_finite true 12582912 (-25))). by vm_compute. Defined.
