(* ===== verification/DecVorbis.v ===== *)
(** The Vorbis adapter: [apps/decoders/dec_vorbis.c], [include/eaf/eaf_dec_vorbis.h].
    The vendored stb_vorbis is the class [VorbisLib]; the adapter keeps the decoder
    contract, and a pull hands over the next frame of the pushed bytes. *)

From Stdlib Require Import SpecFloat.
From S2P Require Import Prelude Types Bytes Decoder DecShared Float FloatQ31.

Definition EAF_DEC_VORBIS_BUFFER_BYTES : Z := 32768.
Definition VORBIS_need_more_data : Z := 1.

(** The library's pushdata interface: opening on some bytes gives a decoder or not, the
    bytes used and an error; decoding gives the bytes used, the channels, one array
    of samples per channel, and the number of samples. *)
Class VorbisLib (D H : Type) := {
  stb_vorbis_open_pushdata : H -> list Z -> Z -> H * option D * Z * Z;
  stb_vorbis_decode_frame_pushdata : D -> list Z -> Z -> D * Z * Z * list (list single) * Z;
  stb_vorbis_close : H -> D -> H;
  lrintf_nan : Z                                 (* what lrintf gives for NaN *)
}.

Section vorbis.
Context {D H : Type} `{!VorbisLib D H}.

Record eaf_dec_vorbis_t := DecVorbis {
  v : ptr D;
  buffer : list Z;           (* uint8_t buffer[EAF_DEC_VORBIS_BUFFER_BYTES] *)
  length : Z;
  format : eaf_format_t;
  vorbis_channels : Z;
  output_channels : Z
}.

Definition set_v (p : ptr D) (s : eaf_dec_vorbis_t) : eaf_dec_vorbis_t :=
  DecVorbis p (buffer s) (length s) (format s) (vorbis_channels s) (output_channels s).
Definition set_buffer (b : list Z) (n : Z) (s : eaf_dec_vorbis_t) : eaf_dec_vorbis_t :=
  DecVorbis (v s) b n (format s) (vorbis_channels s) (output_channels s).
Definition set_vorbis_channels (c : Z) (s : eaf_dec_vorbis_t) : eaf_dec_vorbis_t :=
  DecVorbis (v s) (buffer s) (length s) (format s) c (output_channels s).

Local Abbreviation vorbis_ctx := (eaf_dec_vorbis_t * H)%type.

Definition vorbis_release (s : eaf_dec_vorbis_t) (h : H) : eaf_dec_vorbis_t * H :=
  match v s with
  | Some d => (set_v None s, stb_vorbis_close h d)
  | None => (s, h)
  end.

Definition vorbis_open (ctx : ptr vorbis_ctx) (cfg : eaf_decoder_config_t) (output : eaf_format_t)
  : ub (ptr vorbis_ctx * Z) :=
  '(s, h) ← ctx;
  let rc := eaf_decoder_validate_open cfg output EAF_CODEC_VORBIS true in
  if negb (bool_decide (rc = 0)) then Some (Some (s, h), rc)
  else
    let '(s, h) := vorbis_release s h in
    Some (Some (DecVorbis (v s) (buffer s) 0 output (cfg_channels cfg) (num_channels output), h), EAF_OK).

Definition vorbis_push (ctx : ptr vorbis_ctx) (data : ptr (list Z)) (len consumed : Z)
  : ub (ptr vorbis_ctx * Z * Z) :=
  '(s, h) ← ctx;
  let space := EAF_DEC_VORBIS_BUFFER_BYTES - length s in
  let take := if decide (len < space) then len else space in
  b ← match data with
      | Some d => memcpy (buffer s) (length s) d 0 take
      | None => if decide (take = 0) then Some (buffer s) else None
      end;
  Some (Some (set_buffer b (length s + take) s, h), take, EAF_OK).

(** [memmove] the bytes that were not used to the front. *)
Definition vorbis_consume (consumed : Z) (s : eaf_dec_vorbis_t) : ub eaf_dec_vorbis_t :=
  rest ← ldn (buffer s) consumed (length s - consumed);
  b ← stn (buffer s) 0 rest;
  Some (set_buffer b (length s - consumed) s).

(** One round of the sample loop. *)
Definition vorbis_sample (s : eaf_dec_vorbis_t) (channels : Z) (output : list (list single)) (i : Z)
    (pcm : list Z) : ub (list Z) :=
  l ← (row ← ld output 0; ld row i);
  let left := eaf_float_to_q31 lrintf_nan l in
  if decide (output_channels s = 2) then
    right ← (if decide (1 < channels)
             then r ← (row ← ld output 1; ld row i); Some (eaf_float_to_q31 lrintf_nan r)
             else Some left);
    pcm ← st pcm (i * 2) left; st pcm (i * 2 + 1) right
  else st pcm i left.

(** A frame of [samples > 0] was decoded. *)
Definition vorbis_frame (s : eaf_dec_vorbis_t) (h : H) (channels : Z) (output : list (list single)) (samples : Z)
    (pcm : list Z) (max_frames : Z) (fmt : eaf_format_t)
  : ub (ptr vorbis_ctx * list Z * Z * eaf_format_t * Z) :=
  if decide (channels < 1 \/ 2 < channels) then Some (Some (s, h), pcm, 0, fmt, EAF_UNSUPPORTED)
  else
    let s := if decide (vorbis_channels s = 0) then set_vorbis_channels (u8 channels) s else s in
    if decide (vorbis_channels s <> u8 channels) then Some (Some (s, h), pcm, 0, fmt, EAF_INVALID)
    else if negb (bool_decide (output_channels s = u8 channels))
            && negb (bool_decide (channels = 1) && bool_decide (output_channels s = 2))
    then Some (Some (s, h), pcm, 0, fmt, EAF_UNSUPPORTED)
    else if decide (max_frames < u32 samples) then Some (Some (s, h), pcm, 0, fmt, EAF_INVALID)
    else
      pcm ← for_to (u32 samples) (vorbis_sample s channels output) pcm;
      Some (Some (s, h), pcm, u32 samples, format s, EAF_OK).

(** The [for (;;)] loop; running out of fuel is [None]. *)
Fixpoint vorbis_loop (fuel : nat) (s : eaf_dec_vorbis_t) (h : H) (pcm : list Z) (max_frames : Z)
    (fmt : eaf_format_t) : ub (ptr vorbis_ctx * list Z * Z * eaf_format_t * Z) :=
  match fuel with
  | O => None
  | S fuel =>
      if decide (length s = 0) then Some (Some (s, h), pcm, 0, fmt, EAF_OK)
      else
        d ← v s;
        bytes ← ldn (buffer s) 0 (length s);
        let '(d, consumed, channels, output, samples) :=
          stb_vorbis_decode_frame_pushdata d bytes (s32 (length s)) in
        let s := set_v (Some d) s in
        s ← (if decide (0 < consumed) then vorbis_consume consumed s else Some s);
        if decide (0 < samples) then vorbis_frame s h channels output samples pcm max_frames fmt
        else if decide (consumed = 0) then Some (Some (s, h), pcm, 0, fmt, EAF_OK)
        else vorbis_loop fuel s h pcm max_frames fmt
  end.

(** The [if (state->v == NULL)] part of [vorbis_pull]; [Some rc] when it returns. *)
Definition vorbis_start (s : eaf_dec_vorbis_t) (h : H) : ub (eaf_dec_vorbis_t * H * option Z) :=
  match v s with
  | Some _ => Some (s, h, None)
  | None =>
      if decide (length s = 0) then Some (s, h, Some EAF_OK)
      else
        bytes ← ldn (buffer s) 0 (length s);
        let '(h, decoder, consumed, error) := stb_vorbis_open_pushdata h bytes (s32 (length s)) in
        match decoder with
        | None =>
            if decide (error = VORBIS_need_more_data) then Some (s, h, Some EAF_OK)
            else Some (set_buffer (buffer s) 0 s, h, Some EAF_INVALID)
        | Some d => s ← vorbis_consume consumed (set_v (Some d) s); Some (s, h, None)
        end
  end.

(** Every round of the loop but the last uses a byte. *)
Definition vorbis_pull (ctx : ptr vorbis_ctx) (pcm : list Z) (max_frames frames : Z) (fmt : eaf_format_t)
  : ub (ptr vorbis_ctx * list Z * Z * eaf_format_t * Z) :=
  '(s, h) ← ctx;
  '(s, h, early) ← vorbis_start s h;
  match early with
  | Some rc => Some (Some (s, h), pcm, 0, fmt, rc)
  | None => vorbis_loop (Z.to_nat (length s) + 1) s h pcm max_frames fmt
  end.

Definition vorbis_reset (ctx : ptr vorbis_ctx) : ub (ptr vorbis_ctx * Z) :=
  '(s, h) ← ctx;
  let '(s, h) := vorbis_release s h in
  Some (Some (set_vorbis_channels 0 (set_buffer (buffer s) 0 s), h), EAF_OK).

Definition vorbis_close (ctx : ptr vorbis_ctx) : ub (ptr vorbis_ctx) :=
  '(s, h) ← ctx;
  let '(s, h) := vorbis_release s h in Some (Some (set_buffer (buffer s) 0 s, h)).

Definition eaf_dec_vorbis_ops : eaf_decoder_ops_t vorbis_ctx :=
  DecoderOps (Some vorbis_open) (Some vorbis_push) (Some vorbis_pull) (Some vorbis_reset) (Some vorbis_close).
End vorbis.
#[global] Arguments eaf_dec_vorbis_t : clear implicits.

(** What stb_vorbis documents: it uses at most the bytes it is given, and a frame has
    an array of its samples for each channel. *)
Class VorbisLaws (D H : Type) `{!VorbisLib D H} := {
  vorbis_open_law h bytes n h' d used e :
    stb_vorbis_open_pushdata h bytes n = (h', Some d, used, e) -> 0 <= used <= n;
  vorbis_decode_law d bytes n d' used ch out k :
    stb_vorbis_decode_frame_pushdata d bytes n = (d', used, ch, out, k) -> 0 <= n ->
    0 <= used <= n /\ is_s32 k /\
    (0 < k -> forall c, 0 <= c < ch -> exists row, ld out c = Some row /\ k <= zlen row)
}.

(** ** Invariant *)
Section facts.
Context {D H : Type} `{!VorbisLib D H, !VorbisLaws D H}.
Local Abbreviation state := (eaf_dec_vorbis_t D).
Implicit Types (s : state) (h : H).

Record vorbis_inv (fmt : eaf_format_t) (s : state) : Prop := {
  vinv_buffer : zlen (buffer s) = EAF_DEC_VORBIS_BUFFER_BYTES;
  vinv_length : 0 <= length s <= EAF_DEC_VORBIS_BUFFER_BYTES;
  vinv_format : format s = fmt;
  vinv_out : output_channels s = num_channels fmt;
  vinv_channels : vorbis_channels s = 0 \/ vorbis_channels s = 1 \/ vorbis_channels s = 2
}.

(** The pushed bytes the library has not used. *)
Definition vorbis_bytes (s : state) : list Z := slice (buffer s) 0 (length s).

Lemma zlen_vorbis_bytes fmt s : vorbis_inv fmt s -> zlen (vorbis_bytes s) = length s.
Proof. intros []. apply zlen_slice; lia. Qed.

Lemma vorbis_consume_spec fmt s c :
  vorbis_inv fmt s -> 0 <= c <= length s ->
  exists s', vorbis_consume c s = Some s' /\ vorbis_inv fmt s' /\ v s' = v s /\
    vorbis_channels s' = vorbis_channels s /\ vorbis_bytes s' = drop (Z.to_nat c) (vorbis_bytes s).
Proof.
  intros [Hb Hl Hf Ho Hc] Hcl. unfold vorbis_consume. rewrite ldn_eq by lia. cbn [mbind option_bind].
  set (rest := slice (buffer s) c (length s - c)).
  assert (Hr : zlen rest = length s - c) by (apply zlen_slice; lia).
  rewrite stn_eq by lia. cbn [mbind option_bind]. eexists. split; [done |].
  split; [split; simpl; try done; [by rewrite zlen_splice by lia | lia] |]. split; [done |]. split; [done |].
  unfold vorbis_bytes. simpl. rewrite slice_splice_front by lia.
  rewrite drop_slice by (rewrite zlen_slice; lia). rewrite zlen_slice, slice_slice by lia. done.
Qed.

(** ** Frames *)

(** A frame as interleaved Q1.31 cells. *)
Definition vorbis_block (channels oc : Z) (output : list (list single)) (i : Z) : list Z :=
  let at_ c := eaf_float_to_q31 lrintf_nan (default d_zero (row ← ld output c; ld row i)) in
  if decide (oc = 2) then [at_ 0; if decide (1 < channels) then at_ 1 else at_ 0] else [at_ 0].

Definition vorbis_cells (channels oc : Z) (output : list (list single)) (samples : Z) : list Z :=
  concat (vorbis_block channels oc output <$> seqZ 0 samples).

Lemma vorbis_samples s channels output k pcm :
  layout_ok channels (output_channels s) -> 0 <= k -> k * output_channels s <= zlen pcm ->
  (forall c, 0 <= c < channels -> exists row, ld output c = Some row /\ k <= zlen row) ->
  for_to k (vorbis_sample s channels output) pcm =
    Some (splice pcm 0 (vorbis_cells channels (output_channels s) output k)) /\
  zlen (vorbis_cells channels (output_channels s) output k) = k * output_channels s.
Proof.
  intros [Hc Ho] Hk Hfit Hrows. set (oc := output_channels s) in *.
  assert (Hoc : oc = 1 \/ oc = 2) by lia.
  apply (for_blocks _ (vorbis_block channels oc output) pcm 0 oc k); [lia | lia | done | lia | |].
  - intros i q Hi Hq. rewrite Z.add_0_l. unfold vorbis_sample, vorbis_block. fold oc.
    destruct (Hrows 0) as (r0 & -> & Hr0); [lia |]. destruct (ld_is_Some r0 i) as [x Hx]; [lia |].
    assert (Hfiti : i * oc + oc <= zlen q) by nia.
    cbn [mbind option_bind]. rewrite Hx. cbn [mbind option_bind default].
    destruct Hoc as [E | E]; rewrite E in *; decide_lia; [rewrite Z.mul_1_r; by rewrite splice_singleton, st_eq by lia |].
    set (r := if decide (1 < channels) then _ else Some _). set (rv := if decide (1 < channels) then _ else _).
    assert (Hr : r = Some rv).
    { subst r rv. case_decide; [| done]. destruct (Hrows 1) as (r1 & -> & Hr1); [lia |]. cbn [mbind option_bind].
      by destruct (ld_is_Some r1 i) as [y ->]; [lia |]. }
    rewrite Hr. cbn [mbind option_bind]. rewrite st_eq by lia. cbn [mbind option_bind].
    rewrite st_eq by (rewrite zlen_insert; lia). f_equal. set (l0 := eaf_float_to_q31 _ _).
    rewrite <- (splice_singleton q (i * 2) l0) by lia.
    rewrite <- (splice_singleton (splice q (i * 2) [l0]) (i * 2 + 1) rv)
      by (rewrite zlen_splice; change (zlen [l0]) with 1; lia).
    apply (splice_app q [l0] [rv]); [lia |]. change (zlen [l0]) with 1. change (zlen [rv]) with 1. lia.
  - intros i Hi. unfold vorbis_block. by destruct Hoc as [-> | ->].
Qed.

(** The frames a pull hands over. *)
Definition vorbis_accepts (s : state) (m channels samples : Z) : Prop :=
  layout_ok channels (output_channels s) /\ (vorbis_channels s = 0 \/ vorbis_channels s = channels) /\ samples <= m.
#[export] Instance vorbis_accepts_dec s m ch k : Decision (vorbis_accepts s m ch k).
Proof. unfold vorbis_accepts. apply _. Defined.

(** What a decoded frame leads to: its cells when it is accepted, a refusal otherwise. *)
Definition vorbis_outcome (fmt : eaf_format_t) (s : state) (h : H) (ch k : Z) (output : list (list single))
    (pcm : list Z) (m : Z) (fmt0 : eaf_format_t) (r : ub (ptr (state * H) * list Z * Z * eaf_format_t * Z)) : Prop :=
  exists s' rc, vorbis_inv fmt s' /\ v s' = v s /\ vorbis_bytes s' = vorbis_bytes s /\
    r = (if decide (vorbis_accepts s m ch k)
         then Some (Some (s', h), splice pcm 0 (vorbis_cells ch (num_channels fmt) output k), k, fmt, EAF_OK)
         else Some (Some (s', h), pcm, 0, fmt0, rc)) /\
    rc <> EAF_OK /\
    (vorbis_accepts s m ch k -> vorbis_channels s' = ch /\
       zlen (vorbis_cells ch (num_channels fmt) output k) = k * num_channels fmt).

Lemma vorbis_refused fmt s h ch k output pcm m fmt0 s' rc :
  vorbis_inv fmt s' -> v s' = v s -> vorbis_bytes s' = vorbis_bytes s -> rc <> EAF_OK -> ~ vorbis_accepts s m ch k ->
  vorbis_outcome fmt s h ch k output pcm m fmt0 (Some (Some (s', h), pcm, 0, fmt0, rc)).
Proof. intros Hi Hv Hby Hrc Hna. exists s', rc. rewrite decide_False by done. split_and!; try done. Qed.

Lemma vorbis_frame_spec fmt s h ch output k pcm m fmt0 :
  vorbis_inv fmt s -> 0 < k -> is_s32 k -> m * num_channels fmt <= zlen pcm ->
  (forall c, 0 <= c < ch -> exists row, ld output c = Some row /\ k <= zlen row) ->
  vorbis_outcome fmt s h ch k output pcm m fmt0 (vorbis_frame s h ch output k pcm m fmt0).
Proof.
  intros Hinv Hk H32 Hfit Hrows. pose proof Hinv as [Hb Hl Hf Ho Hc]. unfold vorbis_frame.
  destruct (decide (ch < 1 \/ 2 < ch)) as [Hbad|Hch].
  { apply vorbis_refused; try done. intros ([? _] & _). lia. }
  rewrite (u8_small ch) by (unfold is_u8; lia). rewrite (u32_small k) by (unfold is_u32, is_s32 in *; lia).
  set (s1 := if decide (vorbis_channels s = 0) then set_vorbis_channels ch s else s).
  assert (H1 : vorbis_inv fmt s1 /\ v s1 = v s /\ vorbis_bytes s1 = vorbis_bytes s /\ output_channels s1 = output_channels s /\
    format s1 = fmt /\ vorbis_channels s1 = if decide (vorbis_channels s = 0) then ch else vorbis_channels s).
  { unfold s1. destruct (decide (vorbis_channels s = 0)); split_and!; try done. split; simpl; done || lia. }
  destruct H1 as (Hinv1 & Hv1 & Hb1 & Ho1 & Hf1 & Hc1). clearbody s1.
  destruct (decide (vorbis_channels s1 <> ch)) as [Hne|Heq].
  { apply vorbis_refused; try done. intros (_ & Hcs & _). rewrite Hc1 in Hne. case_decide; [done |]. destruct Hcs; congruence. }
  assert (Hcs : vorbis_channels s = 0 \/ vorbis_channels s = ch) by (rewrite Hc1 in Heq; case_decide; [by left | right; lia]).
  rewrite Ho1. destruct (negb _ && negb _) eqn:El.
  { apply vorbis_refused; try done. intros ([_ Hlay] & _). revert El. repeat case_bool_decide; simpl; try done; lia. }
  assert (Hlay : layout_ok ch (output_channels s)).
  { split; [lia |]. revert El. repeat case_bool_decide; simpl; try done; lia. }
  destruct (decide (m < k)) as [Hbig|Hroom]; [apply vorbis_refused; try done; intros (_ & _ & ?); lia |].
  assert (Hkm : k * num_channels fmt <= m * num_channels fmt) by (rewrite <- Ho; destruct Hlay; nia).
  destruct (vorbis_samples s1 ch output k pcm) as [Hrun Hz];
    [by rewrite Ho1 | lia | rewrite Ho1, Ho; lia | done |].
  assert (Hacc : vorbis_accepts s m ch k) by (split; [done | split; [done | lia]]).
  rewrite Hrun. cbn [mbind option_bind]. rewrite Ho1, Ho in Hz. rewrite Hf1, Ho1, Ho.
  exists s1, EAF_INVALID. rewrite decide_True by done. split_and!; try done.
  intros _. split; [lia | done].
Qed.

(** ** The next frame of the pushed bytes *)

(** Ask the library until it has a frame, needs more bytes, or there are none. *)
Fixpoint next_frame (fuel : nat) (d : D) (bytes : list Z) : D * list Z * option (Z * list (list single) * Z) :=
  match fuel with
  | O => (d, bytes, None)
  | S fuel =>
      if decide (bytes = []) then (d, bytes, None)
      else
        let '(d, used, ch, output, k) := stb_vorbis_decode_frame_pushdata d bytes (zlen bytes) in
        let bytes := drop (Z.to_nat used) bytes in
        if decide (0 < k) then (d, bytes, Some (ch, output, k))
        else if decide (used = 0) then (d, bytes, None)
        else next_frame fuel d bytes
  end.

Lemma vorbis_loop_spec fmt fuel s h d pcm m fmt0 :
  vorbis_inv fmt s -> v s = Some d -> length s < Z.of_nat fuel -> m * num_channels fmt <= zlen pcm ->
  exists s1, vorbis_inv fmt s1 /\ vorbis_channels s1 = vorbis_channels s /\
    let '(d', rest, r) := next_frame fuel d (vorbis_bytes s) in
    v s1 = Some d' /\ vorbis_bytes s1 = rest /\
    match r with
    | None => vorbis_loop fuel s h pcm m fmt0 = Some (Some (s1, h), pcm, 0, fmt0, EAF_OK)
    | Some (ch, output, k) => 0 < k /\
        vorbis_outcome fmt s1 h ch k output pcm m fmt0 (vorbis_loop fuel s h pcm m fmt0)
    end.
Proof.
  revert s d. induction fuel as [|fuel IH]; intros s d Hinv Hv Hfuel Hfit; [pose proof (vinv_length _ _ Hinv); lia |].
  pose proof (zlen_vorbis_bytes fmt s Hinv) as Hz. pose proof Hinv as [Hb Hl Hf Ho Hc].
  unfold EAF_DEC_VORBIS_BUFFER_BYTES in *. cbn [vorbis_loop next_frame].
  destruct (decide (length s = 0)) as [E|Hne].
  { rewrite decide_True by (apply zlen_0_nil; lia). by exists s. }
  rewrite decide_False by (intros E; rewrite E in Hz; by apply Hne).
  rewrite Hv. cbn [mbind option_bind]. rewrite (ldn_eq (buffer s)) by lia. cbn [mbind option_bind].
  fold (vorbis_bytes s). rewrite (s32_small (length s)) by (unfold is_s32; lia). rewrite Hz.
  destruct (stb_vorbis_decode_frame_pushdata d (vorbis_bytes s) (length s)) as [[[[d1 used] ch] output] k] eqn:Ed.
  destruct (vorbis_decode_law _ _ _ _ _ _ _ _ Ed ltac:(lia)) as (Hu & H32 & Hrows).
  assert (Hinv1 : vorbis_inv fmt (set_v (Some d1) s)) by (by split).
  assert (Hs1 : exists s1, (if decide (0 < used) then vorbis_consume used (set_v (Some d1) s) else Some (set_v (Some d1) s)) = Some s1 /\
    vorbis_inv fmt s1 /\ v s1 = Some d1 /\ vorbis_channels s1 = vorbis_channels s /\
    vorbis_bytes s1 = drop (Z.to_nat used) (vorbis_bytes s)).
  { case_decide.
    - destruct (vorbis_consume_spec fmt (set_v (Some d1) s) used Hinv1 Hu) as (s1 & ? & ? & ? & ? & ?). by exists s1.
    - exists (set_v (Some d1) s). replace used with 0 by lia. by rewrite drop_0. }
  destruct Hs1 as (s1 & -> & Hi1 & Hv1 & Hc1 & Hb1). cbn [mbind option_bind].
  destruct (decide (0 < k)) as [Hk|Hk].
  - exists s1. split; [done |]. split; [done |]. split; [done |]. split; [done |]. split; [done |].
    apply vorbis_frame_spec; auto.
  - destruct (decide (used = 0)); [by exists s1 |].
    pose proof (zlen_vorbis_bytes fmt s1 Hi1) as Hz1. rewrite Hb1 in Hz1.
    destruct (IH s1 d1 Hi1 Hv1) as (s2 & Hi2 & Hc2 & Hr); [unfold zlen in *; rewrite length_drop in Hz1; lia | done |].
    exists s2. rewrite Hb1, Hc1 in *. done.
Qed.

Lemma vorbis_push_spec fmt s h data n k :
  vorbis_inv fmt s -> 0 <= n <= zlen data ->
  let t := Z.min n (EAF_DEC_VORBIS_BUFFER_BYTES - length s) in
  exists s', vorbis_push (Some (s, h)) (Some data) n k = Some (Some (s', h), t, EAF_OK) /\ 0 <= t <= n /\
    vorbis_inv fmt s' /\ vorbis_bytes s' = vorbis_bytes s ++ slice data 0 t.
Proof.
  intros [Hb Hl Hf Ho Hc] Hn t. unfold vorbis_push. cbn [mbind option_bind].
  replace (if decide (n < _) then n else _) with t by (unfold t; case_decide; lia).
  assert (Ht : 0 <= t <= n /\ length s + t <= EAF_DEC_VORBIS_BUFFER_BYTES) by lia.
  rewrite memcpy_eq by lia. cbn [mbind option_bind].
  assert (Hsz : zlen (slice data 0 t) = t) by (apply zlen_slice; lia).
  eexists. split; [done |]. split; [lia |]. split; [split; simpl; try done; [by rewrite zlen_splice by lia | lia] |].
  unfold vorbis_bytes. simpl. rewrite slice_add, Z.add_0_l by lia. f_equal.
  - rewrite slice_splice_before by lia. done.
  - pose proof (slice_splice (buffer s) (slice data 0 t) (length s) 0 t) as Hs. rewrite Z.add_0_r in Hs.
    rewrite Hs by lia. rewrite slice_slice by lia. done.
Qed.

Lemma vorbis_start_spec fmt s h :
  vorbis_inv fmt s ->
  exists s' h' early, vorbis_start s h = Some (s', h', early) /\ vorbis_inv fmt s' /\
    (early = None -> v s' <> None).
Proof.
  intros Hinv. pose proof Hinv as [Hb Hl Hf Ho Hc]. unfold EAF_DEC_VORBIS_BUFFER_BYTES in *.
  unfold vorbis_start. destruct (v s) as [d|] eqn:Ev.
  { exists s, h, None. split_and!; try done; by rewrite Ev. }
  destruct (decide (length s = 0)); [by exists s, h, (Some EAF_OK) |].
  rewrite (ldn_eq (buffer s)) by lia. cbn [mbind option_bind]. rewrite s32_small by (unfold is_s32; lia).
  destruct (stb_vorbis_open_pushdata h _ (length s)) as [[[h1 [d|]] used] e] eqn:Eo.
  - pose proof (vorbis_open_law _ _ _ _ _ _ _ Eo) as Hu.
    assert (Hinv1 : vorbis_inv fmt (set_v (Some d) s)) by (by split).
    destruct (vorbis_consume_spec fmt (set_v (Some d) s) used Hinv1 Hu) as (s1 & -> & Hi1 & Hv1 & _).
    exists s1, h1, None. split_and!; try done; by rewrite Hv1.
  - case_decide; [by exists s, h1, (Some EAF_OK) |].
    exists (set_buffer (buffer s) 0 s), h1, (Some EAF_INVALID). split_and!; try done; by split.
Qed.

Lemma vorbis_cells_fit fmt s h ch k output pcm m fmt0 r :
  vorbis_outcome fmt s h ch k output pcm m fmt0 r -> 0 < k -> 0 < m -> m * num_channels fmt <= zlen pcm ->
  output_channels s = num_channels fmt ->
  exists s' pcm' n' fmt' rc, r = Some (Some (s', h), pcm', n', fmt', rc) /\ vorbis_inv fmt s' /\
    zlen pcm' = zlen pcm /\ 0 <= n' <= m.
Proof.
  intros (s' & rc & Hi & _ & _ & -> & _ & Hacc) Hk Hm Hfit Ho. case_decide as Ha.
  - destruct (Hacc Ha) as [_ Hz]. destruct Ha as ([Hch Hlay] & _ & Hkm). rewrite Ho in Hlay.
    eexists _, _, _, _, _. split; [done |]. split; [done |]. split; [| lia].
    assert (k * num_channels fmt <= m * num_channels fmt) by nia. apply zlen_splice; nia.
  - eexists _, _, _, _, _. split; [done |]. split_and!; done || lia.
Qed.

Lemma vorbis_pull_total fmt s h pcm m n fmt0 :
  vorbis_inv fmt s -> 0 < m -> m * num_channels fmt <= zlen pcm ->
  exists s' h' pcm' n' fmt' rc, vorbis_pull (Some (s, h)) pcm m n fmt0 = Some (Some (s', h'), pcm', n', fmt', rc) /\
    vorbis_inv fmt s' /\ zlen pcm' = zlen pcm /\ 0 <= n' <= m.
Proof.
  intros Hinv Hm Hfit. unfold vorbis_pull. cbn [mbind option_bind].
  destruct (vorbis_start_spec fmt s h Hinv) as (s1 & h1 & early & -> & Hi1 & Hv1). cbn [mbind option_bind].
  destruct early as [rc|]; [by eexists _, _, _, 0, _, _; split_and!; try done; lia |].
  destruct (v s1) as [d|] eqn:Ev; [| by destruct (Hv1 eq_refl)]. pose proof (vinv_length _ _ Hi1).
  destruct (vorbis_loop_spec fmt (Z.to_nat (length s1) + 1) s1 h1 d pcm m fmt0 Hi1 Ev ltac:(lia) Hfit)
    as (s2 & Hi2 & _ & Hr). destruct (next_frame _ d _) as [[d' rest] [[[ch output] k]|]].
  - destruct Hr as (_ & _ & Hk & Hout).
    destruct (vorbis_cells_fit _ _ _ _ _ _ _ _ _ _ Hout Hk Hm Hfit (vinv_out _ _ Hi2))
      as (s3 & pcm' & n' & fmt' & rc & -> & Hrest). by exists s3, h1, pcm', n', fmt', rc.
  - destruct Hr as (_ & _ & ->). eexists _, _, _, 0, _, _. split_and!; try done; lia.
Qed.

Lemma vorbis_release_spec s h :
  exists h', vorbis_release s h = (set_v None s, h') /\ h' = match v s with Some d => stb_vorbis_close h d | None => h end.
Proof. unfold vorbis_release. destruct (v s) eqn:E; [by eexists |]. exists h. rewrite <- E. by destruct s. Qed.
End facts.

#[export] Instance vorbis_laws {D H} `{!VorbisLib D H, !VorbisLaws D H} :
  DecoderLaws (eaf_dec_vorbis_ops (D := D) (H := H)).
Proof.
  refine {| dec_raw := fun c : eaf_dec_vorbis_t D * H => zlen (buffer c.1) = EAF_DEC_VORBIS_BUFFER_BYTES;
            dec_inv := fun fmt c => vorbis_inv fmt c.1 |}.
  - intros fmt c Hc. apply Hc.
  - intros [s h] cfg out Hraw Hv Hn. exists vorbis_open. unfold vorbis_open. cbn [mbind option_bind].
    case_bool_decide as Hok; cbn [negb]; [| by eexists _, _].
    destruct (validate_open_ok cfg out _ _ Hn Hok) as (Hc & _).
    destruct (vorbis_release_spec s h) as (h' & -> & _). eexists _, _. split; [done |]. split; [done |].
    split; [done |]. intros _. split; simpl; try done. destruct Hc as [[? _]|[? _]]; lia.
  - intros fmt [s h] data n k Hinv Hn _. exists vorbis_push.
    destruct (vorbis_push_spec fmt s h data n k Hinv Hn) as (s' & Hrun & Ht & Hi & _).
    by exists (s', h), (Z.min n (EAF_DEC_VORBIS_BUFFER_BYTES - length s)), EAF_OK.
  - intros fmt [s h] cells m n fmt0 Hinv Hm Hfit. exists vorbis_pull.
    destruct (vorbis_pull_total fmt s h cells m n fmt0 Hinv Hm Hfit) as (s' & h' & pcm' & n' & fmt' & rc & Hrun & Hrest).
    by exists (s', h'), pcm', n', fmt', rc.
  - intros fmt [s h] [Hb Hl Hf Ho Hc]. exists vorbis_reset. unfold vorbis_reset. cbn [mbind option_bind].
    destruct (vorbis_release_spec s h) as (h' & -> & _). eexists _, _. split; [done |]. split; [done |].
    split; simpl; try done. by left.
  - intros fmt [s h] [Hb _ _ _ _]. exists vorbis_close. unfold vorbis_close. cbn [mbind option_bind].
    destruct (vorbis_release_spec s h) as (h' & -> & _). by eexists.
Defined.

(** ** Properties *)

(** A pull of a started Vorbis adapter ends, and hands over the next frame that
    stb_vorbis decodes from the pushed bytes it has not used: as Q1.31 cells, a mono
    one duplicated, when its channels suit the output and the frames before it and
    it fits the buffer; refused without touching the buffer otherwise; no frame and
    no error when the library needs more bytes. The bytes the library used are gone,
    the others keep their order, and bytes pushed later follow them. *)
Theorem vorbis_pull_frame {D H} `{!VorbisLib D H, !VorbisLaws D H} (fmt : eaf_format_t) (s : eaf_dec_vorbis_t D)
    (h : H) (d : D) (pcm : list Z) (m n : Z) (fmt0 : eaf_format_t) :
  vorbis_inv fmt s -> v s = Some d -> 0 < m -> m * num_channels fmt <= zlen pcm ->
  let '(d', rest, r) := next_frame (Z.to_nat (length s) + 1) d (vorbis_bytes s) in
  exists s', vorbis_inv fmt s' /\ v s' = Some d' /\ vorbis_bytes s' = rest /\
    (forall data, exists s2, vorbis_push (Some (s', h)) (Some data) (zlen data) 0 =
       Some (Some (s2, h), Z.min (zlen data) (EAF_DEC_VORBIS_BUFFER_BYTES - length s'), EAF_OK) /\
       vorbis_bytes s2 = rest ++ slice data 0 (Z.min (zlen data) (EAF_DEC_VORBIS_BUFFER_BYTES - length s'))) /\
    match r with
    | None => vorbis_pull (Some (s, h)) pcm m n fmt0 = Some (Some (s', h), pcm, 0, fmt0, EAF_OK)
    | Some (ch, output, k) =>
        exists rc, rc <> EAF_OK /\ vorbis_pull (Some (s, h)) pcm m n fmt0 =
          if decide (vorbis_accepts s m ch k)
          then Some (Some (s', h), splice pcm 0 (vorbis_cells ch (num_channels fmt) output k), k, fmt, EAF_OK)
          else Some (Some (s', h), pcm, 0, fmt0, rc)
    end.
Proof.
  intros Hinv Hv Hm Hfit. pose proof (vinv_length _ _ Hinv).
  destruct (vorbis_loop_spec fmt (Z.to_nat (length s) + 1) s h d pcm m fmt0 Hinv Hv ltac:(lia) Hfit)
    as (s1 & Hi1 & Hc1 & Hr).
  assert (Hpull : vorbis_pull (Some (s, h)) pcm m n fmt0 = vorbis_loop (Z.to_nat (length s) + 1) s h pcm m fmt0)
    by (unfold vorbis_pull, vorbis_start; cbn [mbind option_bind]; by rewrite Hv).
  rewrite Hpull. destruct (next_frame _ d _) as [[d' rest] [[[ch output] k]|]].
  - destruct Hr as (Hv1 & Hb1 & Hk & s2 & rc & Hi2 & Hv2 & Hb2 & Hrun & Hrc & _).
    exists s2. split; [done |]. split; [congruence |]. split; [congruence |]. split.
    { intros data. destruct (vorbis_push_spec fmt s2 h data (zlen data) 0 Hi2) as (s3 & Hp & _ & _ & Hb3);
        [pose proof (zlen_nonneg data); lia |]. exists s3. split; [done |]. by rewrite Hb3, Hb2, Hb1. }
    exists rc. split; [done |]. rewrite Hrun.
    assert (Hiff : vorbis_accepts s1 m ch k <-> vorbis_accepts s m ch k)
      by (unfold vorbis_accepts; by rewrite (vinv_out _ _ Hi1), (vinv_out _ _ Hinv), Hc1).
    destruct (decide (vorbis_accepts s1 m ch k)) as [Ha|Ha].
    + by rewrite decide_True by (by apply Hiff).
    + by rewrite decide_False by (by rewrite <- Hiff).
  - destruct Hr as (Hv1 & Hb1 & ->). exists s1. split_and!; try done.
    intros data. destruct (vorbis_push_spec fmt s1 h data (zlen data) 0 Hi1) as (s3 & Hp & _ & _ & Hb3);
      [pose proof (zlen_nonneg data); lia |]. exists s3. split; [done |]. by rewrite Hb3, Hb1.
Qed.

(** A toy library: a frame is a byte [n] of 1 or more, its number of samples, all of
    them one half in every channel; a byte 0 is skipped. *)
#[export] Instance half_vorbis : VorbisLib Z Z := {|
  stb_vorbis_open_pushdata h bytes n :=
    match bytes with
    | ch :: _ => (h + 1, if decide (1 <= ch /\ 1 <= n) then Some ch else None, 1, 2)
    | [] => (h, None, 0, VORBIS_need_more_data)
    end;
  stb_vorbis_decode_frame_pushdata d bytes n :=
    match bytes with
    | k :: _ => if decide (1 <= n /\ 0 < k < 256)
                then (d, 1, d, replicate (Z.to_nat d) (replicate (Z.to_nat k) (S754_finite false 8388608 (-24))), k)
                else (d, Z.min 1 (Z.max 0 n), d, [], 0)
    | [] => (d, 0, d, [], 0)
    end;
  stb_vorbis_close h d := h - 1;
  lrintf_nan := 0
|}.

#[export] Instance half_vorbis_laws : VorbisLaws Z Z.
Proof.
  split.
  - intros h bytes n h' d used e. unfold stb_vorbis_open_pushdata, half_vorbis. destruct bytes as [|ch bytes]; [done |].
    case_decide; [| done]. intros [= <- <- <- <-]. lia.
  - intros d bytes n d' used ch out k. unfold stb_vorbis_decode_frame_pushdata, half_vorbis.
    destruct bytes as [|b bytes]; [intros [= <- <- <- <- <-] ?; split; [lia | split; [done | lia]] |].
    case_decide; intros [= <- <- <- <- <-] ?; (split; [lia |]); (split; [unfold is_s32; lia |]); [| lia].
    intros _ c Hc. exists (replicate (Z.to_nat b) (S754_finite false 8388608 (-24))). split.
    + rewrite ld_lookup by lia. apply lookup_replicate_2. lia.
    + rewrite zlen_replicate; lia.
Defined.

(** A mono stream for a stereo output: a skipped byte, then a frame of two samples. *)
Definition vorbis_out : eaf_format_t := Format 48000 2 3.
Definition vorbis_demo : eaf_dec_vorbis_t Z :=
  DecVorbis (Some 1) ([0; 2; 5] ++ replicate (Z.to_nat 32765) 0) 3 vorbis_out 0 2.

Lemma vorbis_pull_frame_witness :
  let '(d', rest, r) := next_frame 4 1 [0; 2; 5] in
  exists s', vorbis_inv vorbis_out s' /\ v s' = Some d' /\ vorbis_bytes s' = rest /\
    (forall data, exists s2, vorbis_push (Some (s', 0)) (Some data) (zlen data) 0 =
       Some (Some (s2, 0), Z.min (zlen data) (EAF_DEC_VORBIS_BUFFER_BYTES - length s'), EAF_OK) /\
       vorbis_bytes s2 = rest ++ slice data 0 (Z.min (zlen data) (EAF_DEC_VORBIS_BUFFER_BYTES - length s'))) /\
    match r with
    | None => vorbis_pull (Some (vorbis_demo, 0)) (replicate 6 0) 3 0 format_zero = Some (Some (s', 0), replicate 6 0, 0, format_zero, EAF_OK)
    | Some (ch, output, k) =>
        exists rc, rc <> EAF_OK /\ vorbis_pull (Some (vorbis_demo, 0)) (replicate 6 0) 3 0 format_zero =
          if decide (vorbis_accepts vorbis_demo 3 ch k)
          then Some (Some (s', 0), splice (replicate 6 0) 0 (vorbis_cells ch 2 output k), k, vorbis_out, EAF_OK)
          else Some (Some (s', 0), replicate 6 0, 0, format_zero, rc)
    end.
Proof.
  apply (vorbis_pull_frame vorbis_out vorbis_demo 0 1 (replicate 6 0) 3 0 format_zero).
  - split; [by vm_compute | by vm_compute | done | done | by left].
  - done.
  - done.
  - by vm_compute.
Defined.

Example vorbis_demo_frame :
  next_frame 4 1 [0; 2; 5] =
    (1, [5], Some (1, [[S754_finite false 8388608 (-24); S754_finite false 8388608 (-24)]], 2)) /\
  vorbis_cells 1 2 [[S754_finite false 8388608 (-24); S754_finite false 8388608 (-24)]] 2 =
    [1073741824; 1073741824; 1073741824; 1073741824].
Proof. split; by vm_compute. Qed.

(** The configured channel count is checked until the first reset only: a stereo
    stream announced as mono is refused, and accepted after [vorbis_reset]. *)
Theorem vorbis_reset_forgets_channels :
  let opened := vorbis_open (Some (set_vorbis_channels 0 vorbis_demo, 0)) (DecoderConfig EAF_CODEC_VORBIS 48000 1 16 None 0) vorbis_out in
  let play c := p ← vorbis_push c (Some [2; 1]) 2 0; r ← vorbis_pull p.1.1 [0; 0] 1 0 format_zero; Some r.2 in
  (o ← opened; play o.1) = Some EAF_INVALID /\
  (o ← opened; r ← vorbis_reset o.1; play r.1) = Some EAF_OK.
Proof. split; by vm_compute. Qed.
