(* ===== verification/SbcOi.v ===== *)
(** The SBC adapter: [apps/decoders/sbc_oi.c], [include/eaf/eaf_sbc_oi.h]. The vendored
    OI codec is the class [SbcLib]; the adapter keeps the contract the Bluetooth
    decoder is proved against. *)

From S2P Require Import Prelude Types Bytes BtIngress Reservoir BtDecoder.

Definition OI_OK : Z := 0.

(** The codec on its memory [K] (the context and its data words). Decoding is given
    the bytes, their count, the PCM array and its size in bytes; it gives the
    status, the bytes left, the array and the bytes written. *)
Class SbcLib (K : Type) := {
  oi_zeroed : K;                                   (* the memory, cleared *)
  OI_CODEC_SBC_DecoderReset : K -> Z -> Z -> bool -> K * Z;
  OI_CODEC_SBC_DecodeFrame : K -> list Z -> Z -> list Z -> Z -> K * Z * Z * list Z * Z;
  oi_frequency : K -> Z                            (* context.common.frameInfo.frequency *)
}.

Section sbc.
Context {K : Type} `{!SbcLib K}.

Definition reset (ctx : ptr K) : ub (ptr K * Z) :=
  _ ← ctx;
  let '(k, rc) := OI_CODEC_SBC_DecoderReset oi_zeroed 2 2 false in
  Some (Some k, if decide (rc = OI_OK) then EAF_OK else EAF_IO).

(** [consumed], [frames] and [fmt] are the caller's variables, [pcm] its array. *)
Definition frame (ctx : ptr K) (data : ptr (list Z)) (length : Z) (consumed : ptr Z) (pcm : ptr (list Z))
    (frames : ptr Z) (fmt : ptr eaf_format_t)
  : ub (ptr K * (ptr Z * ptr (list Z) * ptr Z * ptr eaf_format_t) * Z) :=
  match ctx, data, consumed, pcm, frames, fmt with
  | Some k, Some d, Some _, Some cells, Some _, Some f =>
      if decide (length < 4 \/ 4294967295 < length)
      then Some (ctx, (consumed, pcm, frames, fmt), EAF_INVALID)
      else
        b ← ld d 0;
        if decide (b <> 156) then Some (ctx, (Some 0, pcm, Some 0, fmt), EAF_INVALID)
        else
          let '(k, rc, unused, cells, bytes) := OI_CODEC_SBC_DecodeFrame k d length cells 512 in
          if decide (rc <> OI_OK) then Some (Some k, (Some 0, Some cells, Some 0, fmt), EAF_INVALID)
          else Some (Some k, (Some (length - unused), Some cells, Some (bytes / 4),
                              Some (Format (oi_frequency k) 2 3)), EAF_OK)
  | _, _, _, _, _, _ => Some (ctx, (consumed, pcm, frames, fmt), EAF_INVALID)
  end.

(** The two entries as the Bluetooth decoder calls them: its own packet bytes, array
    and variables, on the state [eaf_sbc_oi_init] stored. *)
Definition oi_reset (k : K) : ub (K * Z) := '(p, rc) ← reset (Some k); k ← p; Some (k, rc).

Definition oi_frame (k : K) (data : list Z) (length : Z) (pcm : list Z) : ub (K * (Z * Z * list Z * Z * eaf_format_t)) :=
  '(p, (used, cells, frames, fmt), rc) ←
    frame (Some k) (Some data) length (Some 0) (Some pcm) (Some 0) (Some format_zero);
  k ← p; used ← used; cells ← cells; frames ← frames; fmt ← fmt; Some (k, (rc, used, cells, frames, fmt)).

Definition eaf_sbc_oi_init (state : ptr K) (decoder : ptr (eaf_sbc_decoder_t K))
  : ub (ptr K * ptr (eaf_sbc_decoder_t K) * Z) :=
  match state, decoder with
  | Some _, Some _ =>
      '(p, rc) ← reset state;
      k ← p; Some (Some k, Some (SbcDecoder (Some oi_reset) (Some oi_frame) k), rc)
  | _, _ => Some (state, decoder, EAF_INVALID)
  end.
End sbc.

(** What the codec documents: it leaves at most the bytes it was given, and writes
    16-bit samples inside the array. *)
Class SbcLibLaws (K : Type) `{!SbcLib K} := {
  oi_decode_law k data n pcm size k' rc unused cells bytes :
    OI_CODEC_SBC_DecodeFrame k data n pcm size = (k', rc, unused, cells, bytes) ->
    zlen cells = zlen pcm /\ (Forall is_s16 pcm -> Forall is_s16 cells) /\
    (0 <= n -> 0 <= unused <= n) /\ (0 <= size -> 0 <= bytes <= size)
}.

(** The adapter keeps the contract of the Bluetooth decoder, whose theorems then hold
    of it: no lost or repeated frame, whatever the packets carry. *)
Lemma sbc_oi_laws {K} `{!SbcLib K, !SbcLibLaws K} : sbc_laws (oi_reset (K := K)) oi_frame.
Proof.
  split.
  - intros k. unfold oi_reset, reset. cbn [mbind option_bind].
    destruct (OI_CODEC_SBC_DecoderReset oi_zeroed 2 2 false) as [k' rc]. by eexists _, _.
  - intros k data n pcm Hn Hz H16. unfold oi_frame, frame.
    destruct (decide (n < 4 \/ 4294967295 < n)); [eexists _, _, _, _, _, _; split_and!; done || lia |].
    destruct (ld_is_Some data 0) as [b ->]; [lia |]. cbn [mbind option_bind].
    destruct (decide (b <> 156)); [eexists _, _, _, _, _, _; split_and!; done || lia |].
    destruct (OI_CODEC_SBC_DecodeFrame k data n pcm 512) as [[[[k' rc] unused] cells] bytes] eqn:Ed.
    destruct (oi_decode_law _ _ _ _ _ _ _ _ _ _ Ed) as (Hc & Hs & Hl & Hb).
    specialize (Hl ltac:(lia)). specialize (Hb ltac:(lia)).
    destruct (decide (rc <> OI_OK)); eexists _, _, _, _, _, _; split_and!; try done; try congruence; try auto; try lia.
    apply Z.div_pos; lia.
Qed.
