(* ===== verification/HalTcp.v ===== *)
(** The TCP transport of the hosted platforms: [hal/net/tcp_impl.h], on the socket
    interface of the operating system. It supplies the transport operations the
    clients are proved against ([Net]), and keeps its descriptors. *)

From stdpp Require Import gmap.
From S2P Require Import Prelude Types Bytes Net.

(** The socket interface: descriptors and results as integers, -1 with an [errno] on
    failure; [O_NONBLOCK] and the error numbers are the platform's. *)
Class Sockets (W : Type) := {
  socket : W -> W * Z;
  fcntl_getfl : W -> Z -> W * Z;
  fcntl_setfl : W -> Z -> Z -> W * Z;
  connect : W -> Z -> Z -> Z -> W * Z * Z;              (* fd, sin_addr, sin_port -> rc, errno *)
  poll_out : W -> Z -> Z -> W * Z;                      (* fd, timeout -> rc *)
  getsockopt_error : W -> Z -> W * Z * Z;               (* fd -> rc, SO_ERROR *)
  send : W -> Z -> list Z -> W * Z * Z;                 (* fd, data -> count, errno *)
  recv : W -> Z -> Z -> W * list Z * Z * Z;             (* fd, capacity -> bytes, count, errno *)
  close : W -> Z -> W;
  monotonic_us : W -> W * Z;
  htonl : Z -> Z;
  htons : Z -> Z;
  O_NONBLOCK : Z;
  EINPROGRESS : Z;
  EAGAIN : Z;
  EWOULDBLOCK : Z;
  EINTR : Z
}.

Section tcp.
Context {W : Type} `{!Sockets W}.

(** [close(fd); return EAF_IO] *)
Definition abandon (t : eaf_tcp_t) (w : W) (fd : Z) : eaf_tcp_t * W * Z := (t, close w fd, EAF_IO).

(** The wait for a connection in progress: true when it was made. *)
Definition await_connected (w : W) (fd timeout_ms : Z) : W * bool :=
  let '(w, rc) := poll_out w fd timeout_ms in
  if decide (rc <= 0) then (w, false)
  else let '(w, rc, error) := getsockopt_error w fd in (w, bool_decide (rc = 0) && bool_decide (error = 0)).

Definition tcp_connect (tcp : ptr eaf_tcp_t) (ipv4 port timeout_ms : Z) (w : W) : ptr eaf_tcp_t * W * Z :=
  match tcp with
  | None => (None, w, EAF_INVALID)
  | Some t =>
      if tcp_open t || bool_decide (port = 0) || bool_decide (INT32_MAX < timeout_ms) then (Some t, w, EAF_INVALID)
      else
        let '(w, fd) := socket w in
        if decide (fd < 0) then (Some t, w, EAF_IO)
        else
          let '(w, flags) := fcntl_getfl w fd in
          let '(w, set) := if decide (flags < 0) then (w, -1) else fcntl_setfl w fd (Z.lor flags O_NONBLOCK) in
          if decide (flags < 0 \/ set < 0) then let '(t, w, rc) := abandon t w fd in (Some t, w, rc)
          else
            let '(w, rc, errno) := connect w fd (htonl ipv4) (htons port) in
            if decide (rc <> 0 /\ errno <> EINPROGRESS) then let '(t, w, rc) := abandon t w fd in (Some t, w, rc)
            else
              let '(w, ok) := if decide (rc <> 0) then await_connected w fd timeout_ms else (w, true) in
              if (ok : bool) then (Some (Tcp fd true), w, EAF_OK)
              else let '(t, w, rc) := abandon t w fd in (Some t, w, rc)
  end.

Definition again (errno : Z) : Z :=
  if decide (errno = EAGAIN \/ errno = EWOULDBLOCK \/ errno = EINTR) then EAF_AGAIN else EAF_IO.

(** [sent] is the caller's variable, before and after. *)
Definition tcp_send (tcp : ptr eaf_tcp_t) (data : ptr (list Z)) (sent : ptr Z) (w : W)
  : ptr eaf_tcp_t * W * ptr Z * Z :=
  match tcp, data, sent with
  | Some t, Some d, Some _ =>
      if negb (tcp_open t) then (Some t, w, sent, EAF_INVALID)
      else
        let '(w, n, errno) := send w (fd t) d in
        if decide (n < 0) then (Some t, w, Some 0, again errno)
        else if decide (n = 0 /\ zlen d <> 0) then (Some t, w, Some 0, EAF_IO)
        else (Some t, w, Some n, EAF_OK)
  | _, _, _ => (tcp, w, sent, EAF_INVALID)
  end.

(** [data] stands for the caller's buffer of [capacity] bytes; the result holds the
    bytes stored in it, [*received] their number. *)
Definition tcp_recv (tcp : ptr eaf_tcp_t) (data : bool) (capacity : Z) (received : ptr Z) (w : W)
  : ptr eaf_tcp_t * W * list Z * ptr Z * Z :=
  match tcp, received with
  | Some t, Some _ =>
      if negb (tcp_open t) || negb data || bool_decide (capacity = 0) then (Some t, w, [], received, EAF_INVALID)
      else
        let '(w, bytes, n, errno) := recv w (fd t) capacity in
        if decide (n < 0) then (Some t, w, [], Some 0, again errno)
        else if decide (n = 0) then (Some t, w, [], Some 0, EAF_EOF)
        else (Some t, w, bytes, Some n, EAF_OK)
  | _, _ => (tcp, w, [], received, EAF_INVALID)
  end.

Definition tcp_close (tcp : ptr eaf_tcp_t) (w : W) : ptr eaf_tcp_t * W :=
  match tcp with
  | Some t => if tcp_open t then (Some (Tcp (fd t) false), close w (fd t)) else (Some t, w)
  | None => (None, w)
  end.
End tcp.

(** ** The transport the clients use *)

(** The clients pass pointers to objects they own. *)
Definition got (t : eaf_tcp_t) (p : ptr eaf_tcp_t) : eaf_tcp_t := default t p.

#[export] Instance socket_hal {W} `{!Sockets W} : NetHal W := {|
  hal_tcp_connect t ip port ms w := let '(p, w, rc) := tcp_connect (Some t) ip port ms w in (got t p, w, rc);
  hal_tcp_send t data w := let '(p, w, n, rc) := tcp_send (Some t) (Some data) (Some 0) w in (got t p, w, default 0 n, rc);
  hal_tcp_recv t cap w := let '(p, w, data, _, rc) := tcp_recv (Some t) true cap (Some 0) w in (got t p, w, data, rc);
  hal_tcp_close t w := let '(p, w) := tcp_close (Some t) w in (got t p, w);
  hal_monotonic_time_us := monotonic_us
|}.

(** What POSIX documents: counts are bounded by what was offered, a received block
    is that many bytes, and a descriptor lives from [socket] to [close]. *)
Class SocketLaws (W : Type) `{!Sockets W} := {
  open_fds : W -> gset Z;
  socket_law w w' fd : socket w = (w', fd) -> 0 <= fd ->
    (fd ∉ open_fds w) /\ open_fds w' = ({[fd]} ∪ open_fds w);
  socket_fails w w' fd : socket w = (w', fd) -> fd < 0 -> open_fds w' = open_fds w;
  close_law w fd : open_fds (close w fd) = (open_fds w ∖ {[fd]});
  getfl_law w fd : open_fds (fcntl_getfl w fd).1 = open_fds w;
  setfl_law w fd n : open_fds (fcntl_setfl w fd n).1 = open_fds w;
  connect_law w fd ip port : open_fds (connect w fd ip port).1.1 = open_fds w;
  poll_law w fd ms : open_fds (poll_out w fd ms).1 = open_fds w;
  getsockopt_law w fd : open_fds (getsockopt_error w fd).1.1 = open_fds w;
  send_law w fd data w' n e : send w fd data = (w', n, e) -> open_fds w' = open_fds w /\ n <= zlen data;
  recv_law w fd cap w' bytes n e : recv w fd cap = (w', bytes, n, e) ->
    open_fds w' = open_fds w /\ bytes_wf bytes /\ (0 <= n -> 0 <= cap -> n <= cap /\ zlen bytes = n)
}.

Section facts.
Context {W : Type} `{!Sockets W, !SocketLaws W}.
Implicit Types (w : W) (t : eaf_tcp_t).

Lemma await_fds w fd ms : open_fds (await_connected w fd ms).1 = open_fds w.
Proof.
  unfold await_connected. pose proof (poll_law w fd ms) as Hp. destruct (poll_out w fd ms) as [w1 rc].
  case_decide; [done |]. pose proof (getsockopt_law w1 fd) as Hg. destruct (getsockopt_error w1 fd) as [[w2 rc2] e].
  simpl in *. congruence.
Qed.

Lemma abandon_fds w0 w fd : fd ∉ open_fds w0 -> open_fds w = ({[fd]} ∪ open_fds w0) -> open_fds (close w fd) = open_fds w0.
Proof. intros Hn Ho. rewrite close_law, Ho. set_solver. Qed.

(** A connect either gives a fresh descriptor to an object that had none, or changes
    neither the object nor the set of open descriptors. *)
Lemma connect_outcome t ip port ms w :
  let '(p, w', rc) := tcp_connect (Some t) ip port ms w in
  (rc <> EAF_OK /\ p = Some t /\ open_fds w' = open_fds w) \/
  (rc = EAF_OK /\ tcp_open t = false /\ exists fd, 0 <= fd /\ p = Some (Tcp fd true) /\ (fd ∉ open_fds w) /\
     open_fds w' = ({[fd]} ∪ open_fds w)).
Proof.
  unfold tcp_connect. destruct (tcp_open t) eqn:Et; cbn [orb]; [by left |].
  destruct (bool_decide (port = 0) || bool_decide (INT32_MAX < ms)); [by left |].
  destruct (socket w) as [w1 fd] eqn:Es. case_decide as Hfd.
  { left. split_and!; try done. by apply (socket_fails _ _ _ Es). }
  destruct (socket_law _ _ _ Es ltac:(lia)) as [Hnew Hw1].
  pose proof (getfl_law w1 fd) as Hw2. destruct (fcntl_getfl w1 fd) as [w2 flags]. simpl in Hw2.
  assert (Hw3 : open_fds (if decide (flags < 0) then (w2, -1) else fcntl_setfl w2 fd (Z.lor flags O_NONBLOCK)).1 = open_fds w1).
  { case_decide; [done |]. by rewrite setfl_law. }
  destruct (if decide (flags < 0) then (w2, -1) else _) as [w3 set]. simpl in Hw3.
  assert (Hgive : forall w', open_fds w' = open_fds w1 -> open_fds (close w' fd) = open_fds w)
    by (intros w' E; apply abandon_fds; [done | congruence]).
  unfold abandon. destruct (decide (flags < 0 \/ set < 0)); [left; split_and!; try done; by apply Hgive |].
  pose proof (connect_law w3 fd (htonl ip) (htons port)) as Hw4.
  destruct (connect w3 fd (htonl ip) (htons port)) as [[w4 rc] errno]. simpl in Hw4.
  destruct (decide (rc <> 0 /\ errno <> EINPROGRESS)); [left; split_and!; try done; apply Hgive; congruence |].
  assert (Hw5 : open_fds (if decide (rc <> 0) then await_connected w4 fd ms else (w4, true)).1 = open_fds w1).
  { case_decide; [rewrite await_fds; congruence | simpl; congruence]. }
  destruct (if decide (rc <> 0) then _ else _) as [w5 ok]. simpl in Hw5.
  destruct ok; [right | left; split_and!; try done; by apply Hgive].
  split_and!; try done. exists fd. split_and!; try done; [lia | congruence].
Qed.
End facts.

#[export] Instance socket_laws {W} `{!Sockets W, !SocketLaws W} : NetHalLaws W.
Proof.
  split.
  - intros t data w t' w' n rc. unfold hal_tcp_send, socket_hal, tcp_send. pose proof (zlen_nonneg data).
    destruct (tcp_open t); cbn [negb]; [| intros [= <- <- <- <-]; simpl; lia].
    destruct (send w (fd t) data) as [[w1 k] e] eqn:Es. destruct (send_law _ _ _ _ _ _ Es) as [_ Hk].
    repeat case_decide; intros [= <- <- <- <-]; simpl; lia.
  - intros t cap w t' w' data rc. unfold hal_tcp_recv, socket_hal, tcp_recv.
    destruct (negb (tcp_open t) || _ || _); [by intros [= <- <- <- <-] |].
    destruct (recv w (fd t) cap) as [[[w1 bytes] k] e] eqn:Er. destruct (recv_law _ _ _ _ _ _ _ Er) as (_ & _ & Hr).
    repeat case_decide; intros [= <- <- <- <-] Hc Hrc; try done; try (change (zlen (@nil Z)) with 0; lia).
  - intros t cap w t' w' data rc. unfold hal_tcp_recv, socket_hal, tcp_recv.
    destruct (negb (tcp_open t) || _ || _); [intros [= <- <- <- <-]; constructor |].
    destruct (recv w (fd t) cap) as [[[w1 bytes] k] e] eqn:Er. destruct (recv_law _ _ _ _ _ _ _ Er) as (_ & Hr & _).
    repeat case_decide; intros [= <- <- <- <-]; first [exact Hr | by apply List.Forall_nil].
  - intros t w. unfold hal_tcp_close, socket_hal, tcp_close. by destruct (tcp_open t) eqn:E.
  - intros t ip port ms w t' w' rc. unfold hal_tcp_connect, socket_hal.
    pose proof (connect_outcome t ip port ms w) as Ho. destruct (tcp_connect _ _ _ _ _) as [[p w1] rc1].
    intros [= <- <- <-] Hrc. destruct Ho as [(_ & -> & _)|[? _]]; done.
Qed.

(** ** Properties *)

(** What a transport task does with one object. *)
Inductive tcp_op :=
| TConnect (ipv4 port timeout_ms : Z)
| TSend (data : list Z)
| TRecv (capacity : Z)
| TClose.

Definition tcp_step {W} `{!NetHal W} (op : tcp_op) (s : eaf_tcp_t * W) : eaf_tcp_t * W :=
  let '(t, w) := s in
  match op with
  | TConnect ip port ms => (hal_tcp_connect t ip port ms w).1
  | TSend data => (hal_tcp_send t data w).1.1
  | TRecv cap => (hal_tcp_recv t cap w).1.1
  | TClose => hal_tcp_close t w
  end.

(** The descriptors open besides those that were: the one of the object, if it is open. *)
Definition owns {W} `{!Sockets W, !SocketLaws W} (others : gset Z) (s : eaf_tcp_t * W) : Prop :=
  if tcp_open s.1 then (fd s.1 ∉ others) /\ open_fds s.2 = ({[fd s.1]} ∪ others) else open_fds s.2 = others.

Lemma tcp_step_owns {W} `{!Sockets W, !SocketLaws W} others op (s : eaf_tcp_t * W) :
  owns others s -> owns others (tcp_step op s).
Proof.
  destruct s as [t w]. intros Hown. destruct op as [ip port ms | data | cap |]; cbn [tcp_step].
  - unfold hal_tcp_connect, socket_hal. pose proof (connect_outcome t ip port ms w) as Ho.
    destruct (tcp_connect (Some t) ip port ms w) as [[p w1] rc]. unfold owns in *. simpl in *.
    destruct Ho as [(_ & -> & Hw)|(_ & Ht & fd & _ & -> & Hn & Hw)]; simpl; [by rewrite Hw |].
    rewrite Ht in Hown. split; congruence.
  - unfold hal_tcp_send, socket_hal, tcp_send. destruct (tcp_open t) eqn:Et; cbn [negb]; [| done].
    destruct (send w (fd t) data) as [[w1 k] e] eqn:Es. destruct (send_law _ _ _ _ _ _ Es) as [Hw _].
    unfold owns in *. simpl in *. rewrite Et in Hown. repeat case_decide; simpl; by rewrite Et, Hw.
  - unfold hal_tcp_recv, socket_hal, tcp_recv. destruct (tcp_open t) eqn:Et; cbn [negb orb]; [| done].
    case_bool_decide; [done |]. destruct (recv w (fd t) cap) as [[[w1 bytes] k] e] eqn:Er.
    destruct (recv_law _ _ _ _ _ _ _ Er) as (Hw & _).
    unfold owns in *. simpl in *. rewrite Et in Hown. repeat case_decide; simpl; by rewrite Et, Hw.
  - unfold hal_tcp_close, socket_hal, tcp_close. unfold owns in *. simpl in *.
    destruct (tcp_open t) eqn:Et; simpl; [| by rewrite Et]. destruct Hown as [Hn Hw]. rewrite close_law, Hw. set_solver.
Qed.

(** The transport keeps its descriptors: over every socket interface, whatever fails,
    any sequence of connects, sends, receives and closes on an object that starts
    closed leaves exactly one more descriptor open than before when the object is
    open, the object's, and none otherwise. *)
Theorem tcp_keeps_descriptors {W} `{!Sockets W, !SocketLaws W} (t : eaf_tcp_t) (w : W) (ops : list tcp_op) :
  tcp_open t = false ->
  let s := foldl (fun s op => tcp_step op s) (t, w) ops in
  if tcp_open s.1 then (fd s.1 ∉ open_fds w) /\ open_fds s.2 = ({[fd s.1]} ∪ open_fds w)
  else open_fds s.2 = open_fds w.
Proof.
  intros Ht. assert (Hown : owns (open_fds w) (t, w)) by (unfold owns; simpl; by rewrite Ht).
  revert Hown. generalize (t, w). induction ops as [|op ops IH]; intros s Hown; [done |].
  apply IH. by apply tcp_step_owns.
Qed.

(** A socket layer on a set of descriptors where a third of the calls fail. *)
#[export] Instance demo_sockets : Sockets (gset Z * Z) := {|
  socket w := let fd := fresh w.1 in if decide (0 <= fd) then (({[fd]} ∪ w.1, w.2), fd) else (w, -1);
  fcntl_getfl w fd := (w, 0);
  fcntl_setfl w fd n := (w, 0);
  connect w fd ip port := ((w.1, w.2 + 1), if decide (w.2 mod 3 = 0) then 0 else -1, if decide (w.2 mod 3 = 1) then 115 else 111);
  poll_out w fd ms := (w, 1);
  getsockopt_error w fd := (w, 0, 0);
  send w fd data := (w, zlen data, 0);
  recv w fd cap := (w, [], 0, 0);
  close w fd := (w.1 ∖ {[fd]}, w.2);
  monotonic_us w := (w, 0);
  htonl x := x;
  htons x := x;
  O_NONBLOCK := 2048;
  EINPROGRESS := 115;
  EAGAIN := 11;
  EWOULDBLOCK := 11;
  EINTR := 4
|}.

#[export] Instance demo_socket_laws : SocketLaws (gset Z * Z).
Proof.
  refine {| open_fds := fst |}; try done.
  - intros [w k] w' fd. unfold socket, demo_sockets. simpl. pose proof (is_fresh w) as Hf.
    case_decide; intros [= <- <-] ?; [done | lia].
  - intros [w k] w' fd. unfold socket, demo_sockets. simpl. case_decide; intros [= <- <-] ?; [lia | done].
  - intros w fd data w' n e [= <- <- <-]. done.
  - intros w fd cap w' bytes n e [= <- <- <- <-]. split; [done |]. split; [apply List.Forall_nil |]. done.
Defined.

(** A connection that is made at once, used and closed; one that is refused; one
    that is awaited. *)
Definition demo_tcp_ops : list tcp_op :=
  [TConnect 16909060 80 1000; TSend [1; 2]; TConnect 16909060 80 1000; TClose;
   TConnect 16909060 80 1000; TConnect 16909060 0 1000; TConnect 16909060 80 1000].

Lemma tcp_keeps_descriptors_witness :
  let s := foldl (fun s op => tcp_step op s) (Tcp 0 false, (({[7]} : gset Z), 0)) demo_tcp_ops in
  if tcp_open s.1 then (fd s.1 ∉ open_fds (({[7]} : gset Z), 0)) /\
    open_fds s.2 = ({[fd s.1]} ∪ open_fds (({[7]} : gset Z), 0))
  else open_fds s.2 = open_fds (({[7]} : gset Z), 0).
Proof. apply (tcp_keeps_descriptors (Tcp 0 false) (({[7]} : gset Z), 0) demo_tcp_ops). reflexivity. Defined.

Example demo_tcp_states :
  (fun n => tcp_open (foldl (fun s op => tcp_step op s) (Tcp 0 false, (({[7]} : gset Z), 0)) (take n demo_tcp_ops)).1)
    <$> [1; 4; 5; 6; 7]%nat = [true; false; true; true; true].
Proof. by vm_compute. Qed.
