(* ===== verification/Gains.v ===== *)
(** The master volume between the control thread and the audio thread:
    [set_volume] and [apply_volume] of [platform/esp32_output/board_output.c].

    The two gains are written between two increments of a sequence counter; the
    reader drops what it read when the counter was odd or moved.  The calls are
    given both as functions and, for their interleaving, with one atomic access
    per step; the code allows one writer at a time (the transport's thread). *)

From S2P Require Import Prelude Types.

(** [gain_sequence], [gain_left] and [gain_right], all [atomic_uint]. *)
Record gain_cells := GainCells { gain_sequence : Z; gain_left : Z; gain_right : Z }.

Definition gain_cells_init : gain_cells := GainCells 0 INT32_MAX INT32_MAX.

Definition set_volume (left right : Z) (g : gain_cells) : gain_cells * Z :=
  let g := GainCells (u32 (gain_sequence g + 1)) (gain_left g) (gain_right g) in
  let g := GainCells (gain_sequence g) (u32 left) (gain_right g) in
  let g := GainCells (gain_sequence g) (gain_left g) (u32 right) in
  (GainCells (u32 (gain_sequence g + 1)) (gain_left g) (gain_right g), EAF_OK).

(** [applied] is [volume.gain[0]] and [volume.gain[1]]. *)
Definition apply_volume (g : gain_cells) (applied : Z * Z) : Z * Z :=
  let before := gain_sequence g in
  if negb (bool_decide (Z.land before 1 = 0)) then applied
  else
    let left := gain_left g in
    let right := gain_right g in
    if negb (bool_decide (before = gain_sequence g)) then applied
    else (s32 left, s32 right).

(** ** One access per step *)

Inductive writer_pc :=
| W_idle
| W_begun (l r : Z)          (* after the first increment *)
| W_left (l r : Z)           (* the left gain is stored *)
| W_right (l r : Z).         (* both are stored *)

(** The reader's locals; [n0] is a ghost, the number of increments it began at. *)
Inductive reader_pc :=
| R_idle
| R_before (before n0 : Z)
| R_left (before n0 l : Z)
| R_right (before n0 l r : Z).

Record gains := Gains {
  cells : gain_cells;
  applied : Z * Z;
  writer : writer_pc;
  reader : reader_pc;
  increments : Z;                 (* ghost: increments so far *)
  volumes : list (Z * Z)          (* ghost: the volumes set so far, last first *)
}.

Definition gains_init : gains :=
  Gains gain_cells_init (INT32_MAX, INT32_MAX) W_idle R_idle 0 [(INT32_MAX, INT32_MAX)].

Inductive gains_step : gains -> gains -> Prop :=
| w_begin l r q cl cr a rd n h :
    is_s32 l -> is_s32 r ->
    gains_step (Gains (GainCells q cl cr) a W_idle rd n h)
               (Gains (GainCells (u32 (q + 1)) cl cr) a (W_begun l r) rd (n + 1) h)
| w_left l r q cl cr a rd n h :
    gains_step (Gains (GainCells q cl cr) a (W_begun l r) rd n h)
               (Gains (GainCells q (u32 l) cr) a (W_left l r) rd n h)
| w_right l r q cl cr a rd n h :
    gains_step (Gains (GainCells q cl cr) a (W_left l r) rd n h)
               (Gains (GainCells q cl (u32 r)) a (W_right l r) rd n h)
| w_end l r q cl cr a rd n h :
    gains_step (Gains (GainCells q cl cr) a (W_right l r) rd n h)
               (Gains (GainCells (u32 (q + 1)) cl cr) a W_idle rd (n + 1) ((l, r) :: h))
| r_odd g a w n h :
    Z.land (gain_sequence g) 1 <> 0 ->
    gains_step (Gains g a w R_idle n h) (Gains g a w R_idle n h)
| r_before g a w n h :
    Z.land (gain_sequence g) 1 = 0 ->
    gains_step (Gains g a w R_idle n h) (Gains g a w (R_before (gain_sequence g) n) n h)
| r_left g a w s n0 n h :
    gains_step (Gains g a w (R_before s n0) n h) (Gains g a w (R_left s n0 (gain_left g)) n h)
| r_right g a w s n0 l n h :
    gains_step (Gains g a w (R_left s n0 l) n h) (Gains g a w (R_right s n0 l (gain_right g)) n h)
| r_moved g a w s n0 l r n h :
    s <> gain_sequence g ->
    gains_step (Gains g a w (R_right s n0 l r) n h) (Gains g a w R_idle n h)
| r_apply g a w s n0 l r n h :
    s = gain_sequence g ->
    gains_step (Gains g a w (R_right s n0 l r) n h) (Gains g (s32 l, s32 r) w R_idle n h).

(** Where a read in progress began. *)
Definition read_start (rd : reader_pc) : option Z :=
  match rd with
  | R_idle => None
  | R_before _ n0 | R_left _ n0 _ | R_right _ n0 _ _ => Some n0
  end.

(** The counter does not wrap around during one read: fewer than 2{^31} volume
    changes between its first and its last load. *)
Definition no_lap (s : gains) : Prop :=
  forall n0, read_start (reader s) = Some n0 -> increments s < n0 + 4294967296.

Definition gains_reachable : gains -> Prop :=
  rtc (fun a b => gains_step a b /\ no_lap b) gains_init.

(** ** The invariant *)

Definition holds (g : gain_cells) (v : Z * Z) : Prop := gain_left g = u32 v.1 /\ gain_right g = u32 v.2.

Definition writer_ok (g : gain_cells) (n : Z) (last : Z * Z) (w : writer_pc) : Prop :=
  match w with
  | W_idle => n mod 2 = 0 /\ holds g last
  | W_begun l r => n mod 2 = 1 /\ is_s32 l /\ is_s32 r
  | W_left l r => n mod 2 = 1 /\ is_s32 l /\ is_s32 r /\ gain_left g = u32 l
  | W_right l r => n mod 2 = 1 /\ is_s32 l /\ is_s32 r /\ holds g (l, r)
  end.

(** What was read is still there unless the counter has moved. *)
Definition reader_ok (g : gain_cells) (n : Z) (rd : reader_pc) : Prop :=
  match rd with
  | R_idle => True
  | R_before s n0 => s = u32 n0 /\ n0 mod 2 = 0 /\ n0 <= n
  | R_left s n0 l => s = u32 n0 /\ n0 mod 2 = 0 /\ n0 <= n /\ (n = n0 -> l = gain_left g)
  | R_right s n0 l r =>
      s = u32 n0 /\ n0 mod 2 = 0 /\ n0 <= n /\ (n = n0 -> l = gain_left g /\ r = gain_right g)
  end.

Record gains_inv (s : gains) : Prop := {
  gi_count : 0 <= increments s /\ gain_sequence (cells s) = u32 (increments s);
  gi_last : exists last h, volumes s = last :: h /\ writer_ok (cells s) (increments s) last (writer s);
  gi_typed : Forall (fun v => is_s32 v.1 /\ is_s32 v.2) (volumes s);
  gi_reader : reader_ok (cells s) (increments s) (reader s);
  gi_applied : applied s ∈ volumes s
}.

Lemma u32_even n : 0 <= n -> Z.land (u32 n) 1 = 0 <-> n mod 2 = 0.
Proof.
  intros Hn. change 1 with (Z.ones 1). rewrite Z.land_ones by lia. change (2 ^ 1) with 2.
  unfold u32. rewrite Z.mod_mod_divide by (by exists 2147483648). done.
Qed.

Lemma gains_inv_init : gains_inv gains_init.
Proof.
  split; simpl; [split; done | by eexists _, _ | apply Forall_singleton; split; cbn; word | done | by constructor].
Qed.

(** When the counter shows the value it began with, nothing happened in between. *)
Lemma read_unmoved g n n0 w last :
  writer_ok g n last w -> gain_sequence g = u32 n -> u32 n0 = gain_sequence g -> n0 mod 2 = 0 -> n0 <= n ->
  n < n0 + 4294967296 -> n = n0 /\ holds g last.
Proof.
  intros Hw Hs Hq He Hle Hlap. assert (n = n0) as -> by (rewrite Hs in Hq; word). split; [done |].
  destruct w; simpl in Hw; lia || by destruct Hw.
Qed.

Lemma gains_inv_step s s' : gains_inv s -> no_lap s -> gains_step s s' -> gains_inv s'.
Proof.
  intros [[Hn Hq] (last & h0 & Hh & Hw) Ht Hr Ha] Hlap Hstep.
  destruct Hstep; cbn [cells increments writer reader applied volumes gain_sequence gain_left gain_right] in *;
    simplify_eq.
  - (* w_begin *) split; cbn; try done.
    + split; [lia | word].
    + eexists _, _. split; [done |]. destruct Hw. split_and!; try done. word.
    + destruct rd; cbn in *; naive_solver lia.
  - (* w_left *) destruct Hw as (Ho & ? & ?). split; cbn; try done; [by eexists _, _ |].
    destruct rd; cbn in *; naive_solver lia.
  - (* w_right *) destruct Hw as (Ho & ? & ? & ?). split; cbn; try done.
    + eexists _, _. split; [done |]. by split_and!.
    + destruct rd; cbn in *; naive_solver lia.
  - (* w_end *) destruct Hw as (Ho & ? & ? & ?). split; cbn; try done.
    + split; [lia | word].
    + eexists _, _. split; [done |]. split; [word | done].
    + by constructor.
    + destruct rd; cbn in *; naive_solver lia.
    + by constructor.
  - (* r_odd *) split; cbn; try done. by eexists _, _.
  - (* r_before *) split; cbn; try done; [by eexists _, _ |]. split; [done |]. split; [| lia].
    apply u32_even; [done |]. by rewrite <- Hq.
  - (* r_left *) split; cbn; try done; [by eexists _, _ |]. naive_solver.
  - (* r_right *) split; cbn; try done; [by eexists _, _ |]. naive_solver.
  - (* r_moved *) split; cbn; try done. by eexists _, _.
  - (* r_apply *) destruct Hr as (Hs & He & Hle & Hsame).
    destruct (read_unmoved g n n0 w last Hw Hq ltac:(congruence) He Hle (Hlap n0 eq_refl)) as [-> [Hl Hr]].
    destruct (Hsame eq_refl) as [-> ->]. rewrite Hl, Hr.
    apply Forall_cons_1 in Ht as Ht'. destruct Ht' as [[H1 H2] _].
    split; cbn; try done; [by eexists _, _ |].
    replace (s32 (u32 last.1), s32 (u32 last.2)) with last; [by constructor |].
    destruct last as [x y]. cbn in *. f_equal; word.
Qed.

Lemma gains_reachable_inv s : gains_reachable s -> gains_inv s /\ no_lap s.
Proof.
  intros H. revert s H. refine (rtc_ind_r (fun s => gains_inv s /\ no_lap s) gains_init _ _).
  - split; [apply gains_inv_init | done].
  - intros y z _ [Hstep Hlap] [Hinv Hlap']. split; [by eapply gains_inv_step | done].
Qed.

(** An undisturbed call is a run of the steps. *)
Lemma set_volume_runs g a rd n h l r :
  is_s32 l -> is_s32 r -> rtc gains_step (Gains g a W_idle rd n h)
    (Gains (set_volume l r g).1 a W_idle rd (n + 1 + 1) ((l, r) :: h)).
Proof.
  intros Hl Hr. destruct g as [q cl cr].
  eapply rtc_l; [by apply (w_begin l r) |]. eapply rtc_l; [apply w_left |]. eapply rtc_l; [apply w_right |].
  eapply rtc_l; [apply w_end |]. apply rtc_refl.
Qed.

Lemma apply_volume_runs g a w n h :
  rtc gains_step (Gains g a w R_idle n h) (Gains g (apply_volume g a) w R_idle n h).
Proof.
  unfold apply_volume. case_bool_decide as He; cbn [negb].
  - rewrite (bool_decide_eq_true_2 _ eq_refl). cbn [negb].
    eapply rtc_l; [by apply r_before |]. eapply rtc_l; [apply r_left |]. eapply rtc_l; [apply r_right |].
    eapply rtc_l; [by apply r_apply |]. apply rtc_refl.
  - eapply rtc_l; [by apply r_odd |]. apply rtc_refl.
Qed.

(** ** Properties *)

(** C27: The volume is never torn.  However the accesses of the control thread and
    of the audio thread interleave (at most 2{^31} volume changes during one
    read), the gains in use are always a pair some call set, and a read that
    accepts what it saw applies the last volume completely set.  Undisturbed, a
    call to [apply_volume] after [set_volume] takes over exactly its gains. *)
Theorem volume_never_torn (s : gains) :
  gains_reachable s ->
  (exists l r, applied s = (l, r) /\ (l, r) ∈ volumes s /\ is_s32 l /\ is_s32 r) /\
  (forall before n0 l r, reader s = R_right before n0 l r -> before = gain_sequence (cells s) ->
     exists h, volumes s = (s32 l, s32 r) :: h) /\
  (forall l r a, is_s32 l -> is_s32 r -> writer s = W_idle ->
     apply_volume (set_volume l r (cells s)).1 a = (l, r)).
Proof.
  intros Hs. destruct (gains_reachable_inv s Hs) as [[[Hn Hq] (last & h & Hh & Hw) Ht Hr Ha] Hlap]. split_and!.
  - destruct (applied s) as [l r] eqn:E. exists l, r. split_and!; try done;
      apply list_elem_of_In in Ha; rewrite List.Forall_forall in Ht; by destruct (Ht _ Ha).
  - intros before n0 l r Hrd Hb. rewrite Hrd in Hr. destruct Hr as (Hs' & He & Hle & Hsame).
    destruct (read_unmoved (cells s) (increments s) n0 (writer s) last Hw Hq ltac:(congruence) He Hle)
      as [Heq [Hl Hr]]; [apply Hlap; by rewrite Hrd |].
    destruct (Hsame Heq) as [-> ->]. exists h. rewrite Hl, Hr, Hh. rewrite Hh in Ht.
    apply Forall_cons_1 in Ht as [[H1 H2] _]. destruct last as [x y]. cbn in *. f_equal. f_equal; word.
  - intros l r a Hl Hr' Hidle. rewrite Hidle in Hw. destruct Hw as [He _]. unfold apply_volume, set_volume.
    cbn [fst gain_sequence gain_left gain_right].
    replace (u32 (u32 (gain_sequence (cells s) + 1) + 1)) with (u32 (increments s + 2)) by (rewrite Hq; word).
    rewrite (bool_decide_eq_true_2 (Z.land _ 1 = 0)) by (apply u32_even; [lia | word]). cbn [negb].
    rewrite (bool_decide_eq_true_2 _ eq_refl). cbn [negb]. f_equal; word.
Qed.

Lemma volume_never_torn_witness :
  exists s, gains_reachable s /\ volumes s = [(7, -9); (INT32_MAX, INT32_MAX)] /\
    exists l r, applied s = (l, r) /\ (l, r) ∈ volumes s.
Proof.
  assert (Hr : gains_reachable (Gains (GainCells 2 7 4294967287) (INT32_MAX, INT32_MAX) W_idle R_idle 2
    [(7, -9); (INT32_MAX, INT32_MAX)])).
  { eapply rtc_l; [split; [apply (w_begin 7 (-9)); word | done] |].
    eapply rtc_l; [split; [apply w_left | done] |]. eapply rtc_l; [split; [apply w_right | done] |].
    eapply rtc_l; [split; [apply w_end | done] |]. apply rtc_refl. }
  eexists. split; [exact Hr |]. split; [reflexivity |].
  destruct (volume_never_torn _ Hr) as [(l & r & H1 & H2 & _) _]. exists l, r. split; [exact H1 | exact H2].
Defined.

(** One writer at a time is needed: here a second call runs between the first
    one's stores, the counter ends even, and the reader mixes the two. *)
Example two_writers_tear :
  let left_stored := GainCells 1 5 INT32_MAX in           (* first call: (5, 7) *)
  let other := (set_volume 6 8 left_stored).1 in          (* second call: (6, 8) *)
  apply_volume (GainCells (u32 (gain_sequence other + 1)) (gain_left other) 7) (0, 0) = (6, 7).
Proof. reflexivity. Qed.
