(* ===== verification/BoardOutput.v ===== *)
(** The output owner of a board: [platform/esp32_output/board_output.c] and
    [board_output.h].  It owns the reservoir, the pipeline with its two volume
    nodes and the audio thread, and is driven by one transport thread.

    The audio thread [consume] is a machine with one atomic access or one call per
    step.  The transport's calls run between its steps; those that only make sense
    while the audio thread moves, pausing and releasing, are machines too.
    ([set_volume] and [apply_volume] at the granularity of their loads and stores
    are the model of [Gains], the reservoir's the one of [Spsc].)  [D] is the state
    of the operating system and of the sink's hardware. *)

From S2P Require Import Prelude Types Reservoir Dsp Graph Nodes Gains.

(** The operating system ([include/eaf/eaf_hal.h]): the thread calls, the clock. *)
Class BoardHal (D : Type) := {
  hal_thread_create_with_options : D -> Z -> D * Z;
  hal_thread_join : D -> D * Z;
  hal_monotonic_time_us : D -> D * Z;
  hal_sleep_ms : D -> Z -> D
}.

Section board.
Context {D : Type} `{!BoardHal D}.

(** The device, [volume.gain[0..1]], and the ghost list of initialised nodes. *)
Record board_world := BoardWorld { device : D; applied : Z * Z; up : list Z }.
Definition set_device (d : D) (w : board_world) : board_world := BoardWorld d (applied w) (up w).
Definition node_up (i : Z) (w : board_world) : board_world := BoardWorld (device w) (applied w) (i :: up w).
Definition node_down (i : Z) (w : board_world) : board_world :=
  BoardWorld (device w) (applied w) (filter (fun j => j <> i) (up w)).

(** The contexts [volume] and [attenuation]; the callbacks only read them. *)
Definition volume_ctx : ctx_cell board_world eaf_volume_ctx_t :=
  CtxCell _ _ (fun w => VolumeCtx [s32 (applied w).1; s32 (applied w).2; INT32_MAX; INT32_MAX]) (fun _ w => w).
Definition attenuation : ctx_cell board_world eaf_volume_ctx_t :=
  CtxCell _ _ (fun _ => VolumeCtx [679093957; 679093957; 679093957; 679093957]) (fun _ w => w).

Definition limiter : eaf_node_t board_world :=
  Node EAF_NODE_STAGE_PRE_PROCESS (Some (eaf_volume_ops node_up node_down attenuation 0)).
Definition master : eaf_node_t board_world :=
  Node EAF_NODE_STAGE_POST_PROCESS (Some (eaf_volume_ops node_up node_down volume_ctx 1)).
Definition board_nodes : list (ptr (eaf_node_t board_world)) := [Some limiter; Some master].

(** A sink's table of callbacks, acting on the device. *)
Definition lift_rc (f : D -> ub (D * Z)) (w : board_world) : ub (board_world * Z) :=
  '(d, rc) ← f (device w); Some (set_device d w, rc).
Definition lift_sink (o : eaf_sink_ops D) : eaf_sink_ops board_world :=
  SinkOps ((fun f w fmt n => lift_rc (fun d => f d fmt n) w) <$> sink_init o)
    (lift_rc <$> sink_start o) (lift_rc <$> sink_stop o)
    ((fun f w => '(d, b, rc) ← f (device w); Some (set_device d w, b, rc)) <$> sink_acquire_buf o)
    ((fun f w b => lift_rc (fun d => f d b) w) <$> sink_commit_buf o)
    (lift_rc <$> sink_deinit o).

(** [eaf_board_output_config_t]; the logging function only prints.  A [sink] hook
    may return NULL. *)
Record eaf_board_output_config_t := BoardConfig {
  cfg_audio_cpu : Z;
  cfg_storage : ptr (list Z);
  cfg_capacity_frames : Z;
  cfg_sink : option (D -> D * ptr (eaf_sink_ops D));
  cfg_sink_init : option (D -> D * Z);
  cfg_sink_pause : option (D -> bool -> D * Z);
  cfg_delay : option (D -> D * Z)
}.

Record eaf_board_playback_t := BoardPlayback {
  elapsed_ms : Z; buffer_bytes : Z; queued_bytes : Z; started : bool
}.

(** The program points of [consume], each before the access or call it names. *)
Inductive audio_pc :=
| AtGate          (* run_gate *)
| AtGateQuit      (* quit, while the gate is closed *)
| AtLoop          (* quit, at the head of the loop *)
| AtRequest       (* pause_request *)
| AtSuspend       (* sink_pause_hook(true) *)
| AtAck           (* pause_ack = 1 *)
| AtPaused        (* pause_request, while paused *)
| AtPausedQuit    (* quit, while paused *)
| AtResume        (* sink_pause_hook(false) *)
| AtClearAck      (* pause_ack = 0 *)
| AtBlock         (* apply_volume and one block *)
| AtReport (rc : Z)
| AtFailed        (* failed = 1 *)
| AtEnd           (* done = 1 *)
| AtReturn.
#[global] Instance audio_pc_eq_dec : EqDecision audio_pc.
Proof. solve_decision. Defined.

(** Where the transport thread is: between calls, in the loop of [request_pause]
    or after one of the stores of [eaf_board_output_release]. *)
Inductive owner_pc :=
| OwnerIdle
| OwnerAck (paused : bool) (deadline : Z)
| OwnerDone (paused : bool) (deadline : Z)
| OwnerClock (paused : bool) (deadline : Z)
| OwnerResult (paused : bool)
| OwnerRelease
| OwnerReleaseGate.

(** [storage]: NULL, memory the reservoir does not point to yet, or the memory
    behind the reservoir. *)
Inductive backing := NoStorage | FreshStorage (cells : list Z) | ReservoirStorage.

(** The atomics the two threads share. *)
Record board_flags := BoardFlags {
  quit : Z; failed : Z; pause_request : Z; pause_ack : Z; done : Z; run_gate : Z;
  elapsed : Z; played : Z; underruns : Z; queue_min : Z; process_calls : Z
}.

Record board := Board {
  reservoir : eaf_reservoir_t;
  pipeline : eaf_pipeline_t board_world;
  storage : backing;
  capacity : Z;
  sink : eaf_sink_ops D;
  audio_cpu : Z;
  sink_init_hook : option (D -> D * Z);
  sink_pause_hook : option (D -> bool -> D * Z);
  delay_hook : option (D -> D * Z);
  input_channels : Z;
  gain : gain_cells;
  audio : option audio_pc;           (* audio.impl, and where the thread is *)
  active : bool;
  flags : board_flags;
  owner : owner_pc
}.
(** *** Stores to one field *)
Definition with_flags (f : board_flags -> board_flags) (b : board) : board :=
  Board (reservoir b) (pipeline b) (storage b) (capacity b) (sink b) (audio_cpu b) (sink_init_hook b)
    (sink_pause_hook b) (delay_hook b) (input_channels b) (gain b) (audio b) (active b) (f (flags b)) (owner b).
Definition set_audio (a : option audio_pc) (b : board) : board :=
  Board (reservoir b) (pipeline b) (storage b) (capacity b) (sink b) (audio_cpu b) (sink_init_hook b)
    (sink_pause_hook b) (delay_hook b) (input_channels b) (gain b) a (active b) (flags b) (owner b).
Definition set_active (x : bool) (b : board) : board :=
  Board (reservoir b) (pipeline b) (storage b) (capacity b) (sink b) (audio_cpu b) (sink_init_hook b)
    (sink_pause_hook b) (delay_hook b) (input_channels b) (gain b) (audio b) x (flags b) (owner b).
Definition set_owner (o : owner_pc) (b : board) : board :=
  Board (reservoir b) (pipeline b) (storage b) (capacity b) (sink b) (audio_cpu b) (sink_init_hook b)
    (sink_pause_hook b) (delay_hook b) (input_channels b) (gain b) (audio b) (active b) (flags b) o.
Definition set_gain (g : gain_cells) (b : board) : board :=
  Board (reservoir b) (pipeline b) (storage b) (capacity b) (sink b) (audio_cpu b) (sink_init_hook b)
    (sink_pause_hook b) (delay_hook b) (input_channels b) g (audio b) (active b) (flags b) (owner b).
Definition set_input (n : Z) (b : board) : board :=
  Board (reservoir b) (pipeline b) (storage b) (capacity b) (sink b) (audio_cpu b) (sink_init_hook b)
    (sink_pause_hook b) (delay_hook b) n (gain b) (audio b) (active b) (flags b) (owner b).
Definition set_memory (r : eaf_reservoir_t) (st : backing) (b : board) : board :=
  Board r (pipeline b) st (capacity b) (sink b) (audio_cpu b) (sink_init_hook b)
    (sink_pause_hook b) (delay_hook b) (input_channels b) (gain b) (audio b) (active b) (flags b) (owner b).
Definition set_graph (g : eaf_pipeline_t board_world) (r : eaf_reservoir_t) (b : board) : board :=
  Board r g (storage b) (capacity b) (sink b) (audio_cpu b) (sink_init_hook b)
    (sink_pause_hook b) (delay_hook b) (input_channels b) (gain b) (audio b) (active b) (flags b) (owner b).

Definition put_quit (x : Z) (f : board_flags) : board_flags :=
  BoardFlags x (failed f) (pause_request f) (pause_ack f) (done f) (run_gate f) (elapsed f) (played f)
    (underruns f) (queue_min f) (process_calls f).
Definition put_failed (x : Z) (f : board_flags) : board_flags :=
  BoardFlags (quit f) x (pause_request f) (pause_ack f) (done f) (run_gate f) (elapsed f) (played f)
    (underruns f) (queue_min f) (process_calls f).
Definition put_request (x : Z) (f : board_flags) : board_flags :=
  BoardFlags (quit f) (failed f) x (pause_ack f) (done f) (run_gate f) (elapsed f) (played f)
    (underruns f) (queue_min f) (process_calls f).
Definition put_ack (x : Z) (f : board_flags) : board_flags :=
  BoardFlags (quit f) (failed f) (pause_request f) x (done f) (run_gate f) (elapsed f) (played f)
    (underruns f) (queue_min f) (process_calls f).
Definition put_done (x : Z) (f : board_flags) : board_flags :=
  BoardFlags (quit f) (failed f) (pause_request f) (pause_ack f) x (run_gate f) (elapsed f) (played f)
    (underruns f) (queue_min f) (process_calls f).
Definition put_gate (x : Z) (f : board_flags) : board_flags :=
  BoardFlags (quit f) (failed f) (pause_request f) (pause_ack f) (done f) x (elapsed f) (played f)
    (underruns f) (queue_min f) (process_calls f).
Definition put_calls (x : Z) (f : board_flags) : board_flags :=
  BoardFlags (quit f) (failed f) (pause_request f) (pause_ack f) (done f) (run_gate f) (elapsed f) (played f)
    (underruns f) (queue_min f) x.
(** The numbers the audio thread publishes after a block. *)
Definition put_report (e p u q : Z) (f : board_flags) : board_flags :=
  BoardFlags (quit f) (failed f) (pause_request f) (pause_ack f) (done f) (run_gate f) e p u q (process_calls f).

(** The pipeline with what its [config.reservoir] points to, and a call on it. *)
Definition graph (b : board) : eaf_pipeline_t board_world :=
  match Graph.reservoir (config (pipeline b)) with
  | Some _ => set_reservoir (reservoir b) (pipeline b)
  | None => pipeline b
  end.
Definition on_graph {R} (f : ptr (eaf_pipeline_t board_world) -> ub (ptr (eaf_pipeline_t board_world) * R)) (b : board)
  : ub (board * R) :=
  '(g, x) ← with_ref f (graph b);
  Some (set_graph g (match Graph.reservoir (config g) with Some r => r | None => reservoir b end) b, x).

(** The reservoir's contents changed; [config.reservoir] points to the same. *)
Definition put_reservoir (r : eaf_reservoir_t) (b : board) : board :=
  set_graph (match Graph.reservoir (config (pipeline b)) with
             | Some _ => set_reservoir r (pipeline b)
             | None => pipeline b
             end) r b.

(** ** The audio thread *)

(** No producer hook is ever installed in this reservoir. *)
Definition no_wake (h : Z * Z) (w : board_world) : board_world := w.

Definition audio_block (b : board) (w : board_world) : ub (board * board_world) :=
  let w := BoardWorld (device w) (apply_volume (gain b) (applied w)) (up w) in
  '(b, (w, rc)) ← on_graph (fun p => eaf_pipeline_process no_wake p w) b;
  let b := with_flags (fun f => put_calls (u32 (process_calls f + 1)) f) b in
  if negb (bool_decide (rc = 0)) && negb (bool_decide (rc = EAF_EOF))
  then Some (set_audio (Some AtFailed) b, w)
  else Some (set_audio (Some (AtReport rc)) b, w).

(** [hook ? hook(x) : 0] *)
Definition run_pause_hook (b : board) (w : board_world) (paused : bool) : board_world * Z :=
  match sink_pause_hook b with
  | None => (w, 0)
  | Some hook => let '(d, rc) := hook (device w) paused in (set_device d w, rc)
  end.

Definition audio_report (b : board) (w : board_world) (rc : Z) : ub (board * board_world) :=
  let r := reservoir b in
  let '(w, presented) :=
    match delay_hook b with
    | None => (w, frames_read r)
    | Some hook => let '(d, delay) := hook (device w) in
        (set_device d w, if decide (delay < frames_read r) then frames_read r - delay else 0)
    end in
  let f := flags b in
  let level := eaf_reservoir_level r in
  let some := negb (bool_decide (presented = 0)) in
  let q := if some && negb (bool_decide (rc = EAF_EOF)) && bool_decide (level < queue_min f)
           then level else queue_min f in
  if decide (sample_rate (Reservoir.format r) = 0) then None
  else
    let e := u32 (u64 (presented * 1000) / sample_rate (Reservoir.format r)) in
    let p := if some then 1 else played f in
    Some (set_audio (Some (if decide (rc = EAF_EOF) then AtEnd else AtLoop))
            (with_flags (put_report e p (Reservoir.underruns r) q) b), w).

Definition audio_step (b : board) (w : board_world) : ub (board * board_world) :=
  let goto pc := Some (set_audio (Some pc) b, w) in
  let goto_with f pc := Some (set_audio (Some pc) (with_flags f b), w) in
  let sleep pc := Some (set_audio (Some pc) b, set_device (hal_sleep_ms (device w) 1) w) in
  let hook paused next :=
    let '(w, rc) := run_pause_hook b w paused in
    Some (set_audio (Some (if decide (rc = 0) then next else AtFailed)) b, w) in
  let f := flags b in
  match audio b with
  | None => Some (b, w)
  | Some pc =>
      match pc with
      | AtGate => if decide (run_gate f = 0) then goto AtGateQuit else goto AtLoop
      | AtGateQuit => if decide (quit f = 0) then sleep AtGate else goto AtLoop
      | AtLoop => if decide (quit f = 0) then goto AtRequest else goto AtEnd
      | AtRequest => if decide (pause_request f = 0) then goto AtBlock else goto AtSuspend
      | AtSuspend => hook true AtAck
      | AtAck => goto_with (put_ack 1) AtPaused
      | AtPaused => if decide (pause_request f = 0) then goto AtResume else goto AtPausedQuit
      | AtPausedQuit => if decide (quit f = 0) then sleep AtPaused else goto AtResume
      | AtResume => hook false AtClearAck
      | AtClearAck => goto_with (put_ack 0) AtLoop
      | AtBlock => audio_block b w
      | AtReport rc => audio_report b w rc
      | AtFailed => goto_with (put_failed 1) AtEnd
      | AtEnd => goto_with (put_done 1) AtReturn
      | AtReturn => Some (b, w)
      end
  end.

Fixpoint run_audio (fuel : nat) (b : board) (w : board_world) : ub (board * board_world) :=
  match audio b, fuel with
  | None, _ | Some AtReturn, _ => Some (b, w)
  | Some _, O => None
  | Some _, S fuel' => '(b, w) ← audio_step b w; run_audio fuel' b w
  end.

(** With [quit] set the thread takes at most this many steps to its end. *)
Definition QUIT_STEPS : nat := 12.

(** [hal_thread_join(&audio)] waits for the thread's end; on an error the handle
    stays. *)
Definition join_audio (b : board) (w : board_world) : ub (board * (board_world * Z)) :=
  let '(d, rc) := hal_thread_join (device w) in
  let w := set_device d w in
  if decide (rc = 0) then '(b, w) ← run_audio QUIT_STEPS b w; Some (set_audio None b, (w, rc))
  else Some (b, (w, rc)).
(** ** The transport's calls *)

(** [hal_atomic_set(&failed, 1); return;] *)
Definition stop_failed (b : board) : board := with_flags (put_failed 1) b.

(** The pipeline's part of the teardown. *)
Definition stop_graph (b : board) (w : board_world) : ub (board * board_world) :=
  '(b, (w, rc)) ← (if bool_decide (pstate (pipeline b) = EAF_RUNNING)
                      || bool_decide (pstate (pipeline b) = EAF_RECOVERY)
                   then on_graph (fun p => eaf_pipeline_stop p w) b
                   else Some (b, (w, EAF_OK)));
  if negb (bool_decide (rc = 0)) then Some (stop_failed b, w)
  else
    '(b, (w, rc)) ← on_graph (fun p => eaf_pipeline_deinit p w) b;
    if negb (bool_decide (rc = 0)) then Some (stop_failed b, w)
    else Some (set_active false b, w).

Definition eaf_board_output_stop (b : board) (w : board_world) : ub (board * board_world) :=
  if negb (active b) then Some (b, w)
  else
    let b := with_flags (put_quit 1) b in
    '(b, (w, rc)) ← (if bool_decide (is_Some (audio b)) then join_audio b w else Some (b, (w, 0)));
    if negb (bool_decide (rc = 0)) then Some (stop_failed b, w)
    else stop_graph b w.

(** [size_max] is the target's [SIZE_MAX]. *)
Context (size_max : Z).

Definition backing_cells (b : board) : ptr (list Z) :=
  match storage b with
  | NoStorage => None
  | FreshStorage l => Some l
  | ReservoirStorage => Some (Reservoir.storage (reservoir b))
  end.

(** The three set-up calls of [eaf_board_output_start]. *)
Definition board_setup (b : board) (w : board_world) (fmt : eaf_format_t) (ready_frames : Z)
  : ub (board * (board_world * Z)) :=
  '(r, rc) ← with_ref (fun p => eaf_reservoir_init size_max p (backing_cells b) (capacity b)
                                   (Format (sample_rate fmt) 2 3) ready_frames) (reservoir b);
  if negb (bool_decide (rc = 0)) then Some (b, (w, rc))
  else
    let b := set_memory r ReservoirStorage b in
    let config := PipelineConfig (Some (reservoir b)) (Some board_nodes) 2 (Some (Some (lift_sink (sink b)))) in
    '(b, rc) ← on_graph (fun p => eaf_pipeline_init p (Some config)) b;
    if negb (bool_decide (rc = 0)) then Some (b, (w, rc))
    else on_graph (fun p => eaf_pipeline_configure p w 128) b.

(** The error exit of the set-up: release, or keep everything and stay active. *)
Definition setup_failed (b : board) (w : board_world) (rc : Z) : ub (board * (board_world * Z)) :=
  '(b, (w, cleanup)) ← on_graph (fun p => eaf_pipeline_deinit p w) b;
  if negb (bool_decide (cleanup = 0))
  then Some (set_active true (with_flags (put_failed 1) b), (w, cleanup))
  else Some (b, (w, rc)).

Definition fresh_flags : board_flags := BoardFlags 0 0 0 0 0 0 0 0 0 UINT32_MAX 0.

(** The call once the previous stream is gone.  Until [run_gate] opens the audio
    thread only looks at its gate, so the call is one step of the transport. *)
Definition start_fresh (b : board) (w : board_world) (format : ptr eaf_format_t) (ready_frames : Z) (held : bool)
  : ub (board * (board_world * Z)) :=
  if bool_decide (is_Some (audio b)) || negb (bool_decide (pstate (pipeline b) = EAF_UNINITIALIZED))
  then Some (b, (w, EAF_STATE))
  else
    match format with
    | None => Some (b, (w, EAF_UNSUPPORTED))
    | Some fmt =>
        if negb (eaf_format_valid format) || bool_decide (2 < num_channels fmt)
        then Some (b, (w, EAF_UNSUPPORTED))
        else
          let ready_frames := if bool_decide (ready_frames = 0) || bool_decide (capacity b < ready_frames)
                              then u32 (capacity b * 3) / 4 else ready_frames in
          let b := set_input (num_channels fmt) b in
          '(b, (w, rc)) ← board_setup b w fmt ready_frames;
          if negb (bool_decide (rc = 0)) then setup_failed b w rc
          else
            let b := with_flags (fun _ => fresh_flags) b in
            let '(d, rc) := hal_thread_create_with_options (device w) (audio_cpu b) in
            let w := set_device d w in
            if negb (bool_decide (rc = 0)) then setup_failed b w rc
            else
              let b := set_active true (set_audio (Some AtGate) b) in
              '(b, (w, rc)) ← on_graph (fun p => eaf_pipeline_start p w) b;
              if negb (bool_decide (rc = 0)) then
                '(b, w) ← eaf_board_output_stop b w; Some (b, (w, rc))
              else Some (with_flags (put_gate (if held then 0 else 1)) b, (w, 0))
    end.

Definition eaf_board_output_start (b : board) (w : board_world) (format : ptr eaf_format_t) (ready_frames : Z)
    (held : bool) : ub (board * (board_world * Z)) :=
  if active b then
    if decide (done (flags b) = 0) then Some (b, (w, EAF_STATE))
    else '(b, w) ← eaf_board_output_stop b w; start_fresh b w format ready_frames held
  else start_fresh b w format ready_frames held.

Definition eaf_board_output_replace (b : board) (w : board_world) (format : ptr eaf_format_t) (ready_frames : Z)
    (held : bool) : ub (board * (board_world * Z)) :=
  match format with
  | None => Some (b, (w, EAF_UNSUPPORTED))
  | Some fmt =>
      if negb (eaf_format_valid format) || bool_decide (2 < num_channels fmt)
      then Some (b, (w, EAF_UNSUPPORTED))
      else
        '(b, w) ← eaf_board_output_stop b w;
        if active b then Some (b, (w, EAF_IO))
        else eaf_board_output_start b w format ready_frames held
  end.

(** [request_pause] up to its loop: a result, or the loop begins. *)
Definition request_pause (b : board) (w : board_world) (paused : bool) : board * board_world * option Z :=
  let x := if paused then 1 else 0 in
  let b := with_flags (put_request x) b in
  if decide (run_gate (flags b) = 0) then (with_flags (put_ack x) b, w, Some EAF_OK)
  else
    let '(d, now) := hal_monotonic_time_us (device w) in
    (set_owner (OwnerAck paused (u64 (now + 1500000))) b, set_device d w, None).

(** [eaf_board_output_release] up to its first store. *)
Definition eaf_board_output_release (b : board) : board * option Z :=
  if negb (active b) || negb (bool_decide (failed (flags b) = 0)) then (b, Some EAF_STATE)
  else (set_owner OwnerRelease (with_flags (put_request 0) b), None).

(** The transport's next access inside a call; a result when the call returns. *)
Definition owner_step (b : board) (w : board_world) : board * board_world * option Z :=
  let goto pc := (set_owner pc b, w, None) in
  let return_ rc := (set_owner OwnerIdle b, w, Some rc) in
  let f := flags b in
  match owner b with
  | OwnerIdle => (b, w, None)
  | OwnerAck paused deadline =>
      if decide (pause_ack f = if paused then 1 else 0) then goto (OwnerResult paused) else goto (OwnerDone paused deadline)
  | OwnerDone paused deadline =>
      if decide (done f = 0) then goto (OwnerClock paused deadline) else goto (OwnerResult paused)
  | OwnerClock paused deadline =>
      let '(d, now) := hal_monotonic_time_us (device w) in
      if decide (deadline < now) then (set_owner OwnerIdle b, set_device d w, Some EAF_IO)
      else (set_owner (OwnerAck paused deadline) b, set_device (hal_sleep_ms d 1) w, None)
  | OwnerResult _ => return_ (if decide (failed f = 0) then EAF_OK else EAF_IO)
  | OwnerRelease => (set_owner OwnerReleaseGate (with_flags (put_ack 0) b), w, None)
  | OwnerReleaseGate => (set_owner OwnerIdle (with_flags (put_gate 1) b), w, Some EAF_OK)
  end.

(** The stereo copy of [eaf_board_output_write]; [int32_t stereo[256]]. *)
Definition to_stereo (samples : list Z) (frames : Z) : ub (list Z) :=
  for_to frames (fun i l =>
    x ← ld samples i; l ← st l (2 * i + 1) x; st l (2 * i) x) (replicate 256 0).

Definition eaf_board_output_write (b : board) (samples : ptr (list Z)) (frames : Z) : ub (board * Z) :=
  let write src frames :=
    '(r, n) ← with_ref (fun p => eaf_reservoir_write p src frames) (reservoir b);
    Some (put_reservoir r b, n) in
  if decide (input_channels b = 2) then write samples frames
  else
    let frames := if decide (128 < frames) then 128 else frames in
    stereo ← (if decide (0 < frames) then l ← samples; to_stereo l frames else Some (replicate 256 0));
    write (Some stereo) frames.

Definition eaf_board_output_finish (b : board) : ub board :=
  r ← eaf_reservoir_finish (Some (reservoir b)); Some (put_reservoir r b).

Definition eaf_board_output_volume (b : board) (left right : Z) : board * Z :=
  let '(g, rc) := set_volume left right (gain b) in (set_gain g b, rc).

(** [board_sink], [board_sink_init] and [board_sink_pause], where the application
    defines them. *)
Context (board_sink : option (D -> D * ptr (eaf_sink_ops D))) (board_sink_init : option (D -> D * Z))
  (board_sink_pause : option (D -> bool -> D * Z)).

(** With neither a [sink] hook nor [board_sink] the call through NULL is undefined. *)
Definition eaf_board_output_init (b : board) (w : board_world) (config : ptr eaf_board_output_config_t)
  : ub (board * (board_world * Z)) :=
  match config with
  | None => Some (b, (w, EAF_INVALID))
  | Some c =>
      match cfg_storage c with
      | None => Some (b, (w, EAF_INVALID))
      | Some cells =>
          if bool_decide (cfg_capacity_frames c < 2)
             || negb (bool_decide (Z.land (cfg_capacity_frames c) (u32 (cfg_capacity_frames c - 1)) = 0))
          then Some (b, (w, EAF_INVALID))
          else
            source ← match cfg_sink c with Some f => Some f | None => board_sink end;
            let '(d, resolved) := source (device w) in
            let init_hook := match cfg_sink_init c with Some f => Some f | None => board_sink_init end in
            let pause_hook := match cfg_sink_pause c with Some f => Some f | None => board_sink_pause end in
            let b := Board (reservoir b) (pipeline b) (FreshStorage cells) (cfg_capacity_frames c)
                       (match resolved with Some o => o | None => sink b end) (cfg_audio_cpu c) init_hook
                       pause_hook (cfg_delay c) (input_channels b) (gain b) (audio b) (active b) (flags b) (owner b) in
            match init_hook with
            | Some f => let '(d, rc) := f d in Some (b, (set_device d w, rc))
            | None => Some (b, (set_device d w, EAF_OK))
            end
      end
  end.

(** *** What the transport reads *)
Definition eaf_board_output_failed (b : board) : bool := negb (bool_decide (failed (flags b) = 0)).
Definition eaf_board_output_capacity_frames (b : board) : Z := capacity b.
Definition eaf_board_output_level (b : board) : Z := eaf_reservoir_level (reservoir b).
Definition eaf_board_output_underruns (b : board) : Z := underruns (flags b).
Definition eaf_board_output_queue_min (b : board) : Z :=
  if decide (queue_min (flags b) = UINT32_MAX) then 0 else queue_min (flags b).
Definition eaf_board_output_process_calls (b : board) : Z := process_calls (flags b).
Definition eaf_board_output_snapshot (b : board) (playback : eaf_board_playback_t) : eaf_board_playback_t * bool :=
  if negb (active b) then (playback, false)
  else (BoardPlayback (elapsed (flags b)) (u32 (capacity b * 8)) (u32 (eaf_reservoir_level (reservoir b) * 8))
          (negb (bool_decide (played (flags b) = 0))), true).
Definition eaf_board_output_flags (b : board) : Z :=
  let bit (x m : Z) := if decide (x = 0) then 0 else m in
  Z.lor (Z.lor (Z.lor (Z.lor (if active b then 1 else 0) (bit (run_gate (flags b)) 2))
    (bit (pause_request (flags b)) 4)) (bit (pause_ack (flags b)) 8)) (bit (done (flags b)) 16).
End board.

#[global] Arguments board_world : clear implicits.
#[global] Arguments eaf_board_output_config_t : clear implicits.
#[global] Arguments board : clear implicits.
