(* ===== verification/BoardSafe.v ===== *)
(** The invariant of the board output of [BoardOutput]: what the transport's calls
    and the audio thread's steps keep, in any interleaving. *)

From S2P Require Import Prelude Types Reservoir Dsp Graph Nodes Gains BoardOutput.

Section safe.
Context {D : Type} `{!BoardHal D}.

(** A sink on the device: its callbacks return, and a buffer it offers fits its
    storage. *)
Definition device_sink (o : eaf_sink_ops D) : Prop := sink_env (fun _ => []) o.

(** ** The board's pipeline configuration keeps the pipeline's contract *)
#[local] Instance board_ghost : GhostWorld up (@node_up D) (@node_down D).
Proof. by split. Qed.

Lemma volume_cells : cell_env up (@volume_ctx D) volume_typed /\ cell_env up (@attenuation D) volume_typed.
Proof.
  split; (split; [intros w | done]); (split; [done |]); repeat apply Forall_cons_2;
    try apply Forall_nil_2; try word.
Qed.

Lemma board_node i o : (i = 0 /\ Some o = node_ops (@limiter D) \/ i = 1 /\ Some o = node_ops (@master D)) ->
  node_env up i o.
Proof.
  destruct volume_cells as [H1 H2]. intros [[-> [= ->]]|[-> [= ->]]]; (eapply ctx_node_env; [apply board_ghost | | apply volume_laws]);
    done.
Qed.

Lemma lift_sink_env o : device_sink o -> sink_env up (lift_sink o).
Proof.
  intros []. split.
  - destruct senv_init as (f & Hf & H). cbn. rewrite Hf. eexists. split; [reflexivity |]. intros w fmt n.
    destruct (H (device w) fmt n) as (d & rc & Hr & _). unfold lift_rc. rewrite Hr. by eexists _, _.
  - destruct senv_start as (f & Hf & H). cbn. rewrite Hf. eexists. split; [reflexivity |]. intros w.
    destruct (H (device w)) as (d & rc & Hr & _). unfold lift_rc. rewrite Hr. by eexists _, _.
  - destruct senv_stop as (f & Hf & H). cbn. rewrite Hf. eexists. split; [reflexivity |]. intros w.
    destruct (H (device w)) as (d & rc & Hr & _). unfold lift_rc. rewrite Hr. by eexists _, _.
  - destruct senv_acquire as (f & Hf & H). cbn. rewrite Hf. eexists. split; [reflexivity |]. intros w.
    destruct (H (device w)) as (d & b & rc & Hr & _ & Hb). cbn. rewrite Hr. by eexists _, _, _.
  - destruct senv_commit as (f & Hf & H). cbn. rewrite Hf. eexists. split; [reflexivity |]. intros w b.
    destruct (H (device w) b) as (d & rc & Hr & _). unfold lift_rc. rewrite Hr. by eexists _, _.
  - destruct senv_deinit as (f & Hf & H). cbn. rewrite Hf. eexists. split; [reflexivity |]. intros w.
    destruct (H (device w)) as (d & rc & Hr & _). unfold lift_rc. rewrite Hr. by eexists _, _.
Qed.

Definition board_config (r : eaf_reservoir_t) (o : eaf_sink_ops D) : eaf_pipeline_config_t (board_world D) :=
  PipelineConfig (Some r) (Some board_nodes) 2 (Some (Some (lift_sink o))).

Lemma board_config_env r o :
  reservoir_wf r -> eaf_format_valid (Some (Reservoir.format r)) = true -> device_sink o ->
  config_env up (board_config r o).
Proof.
  intros Hwf Hv Ho. split; cbn.
  - by exists r.
  - done.
  - eexists. split; [done |]. intros i Hi. assert (i = 0 \/ i = 1) as [-> | ->] by lia;
      eexists _, _; (split; [reflexivity |]); (split; [reflexivity |]); apply board_node; auto.
  - eexists. split; [done | by apply lift_sink_env].
Qed.

(** ** The invariant *)

(** The zeroed static reservoir before the first stream. *)
Definition reservoir_zero : eaf_reservoir_t :=
  Reservoir [] 0 0 0 0 format_zero 0 0 0 EAF_RESERVOIR_PREBUFFERING 0 0 (replicate 4 0) 0 0.

Definition blank (r : eaf_reservoir_t) : Prop := exists f, r = set_finished f reservoir_zero.

Definition stereo (r : eaf_reservoir_t) : Prop := reservoir_wf r /\ channels r = 2.

Definition memory_ok (b : board D) : Prop :=
  match storage b with
  | NoStorage => blank (reservoir b)
  | FreshStorage l => zlen l = capacity b * 2 /\ Forall is_s32 l /\ (stereo (reservoir b) \/ blank (reservoir b))
  | ReservoirStorage => stereo (reservoir b) /\ Reservoir.capacity (reservoir b) = capacity b
  end.

(** Program points at which the audio thread is past its gate and may go on to a
    block. *)
Definition working (pc : audio_pc) : bool :=
  match pc with AtGate | AtGateQuit | AtFailed | AtEnd | AtReturn => false | _ => true end.
Definition at_gate (pc : audio_pc) : bool := match pc with AtGate | AtGateQuit => true | _ => false end.
Definition leaving (pc : audio_pc) : bool := match pc with AtLoop | AtEnd | AtReturn => true | _ => false end.
(** ... at which it has acknowledged a pause and not yet taken it back. *)
Definition acknowledged (pc : audio_pc) : bool :=
  match pc with AtPaused | AtPausedQuit | AtResume | AtClearAck | AtFailed | AtEnd | AtReturn => true | _ => false end.
(** ... from which it processes no block while a pause is requested. *)
Definition quiet (pc : audio_pc) : bool :=
  match pc with AtGate | AtGateQuit | AtBlock | AtReport _ => false | _ => true end.

Definition releasing (o : owner_pc) : bool := match o with OwnerRelease | OwnerReleaseGate => true | _ => false end.

(** The pipeline runs unless a start failed, and then the thread never gets past
    its gate. *)
Definition running_ok (b : board D) (pc : audio_pc) : Prop :=
  pstate (pipeline b) = EAF_RUNNING \/
  quit (flags b) <> 0 /\ run_gate (flags b) = 0 /\ releasing (owner b) = false.

Definition gate_ok (b : board D) (pc : audio_pc) : Prop :=
  run_gate (flags b) = 0 -> at_gate pc = true \/ quit (flags b) <> 0 /\ leaving pc = true.

Definition ack_ok (b : board D) (pc : audio_pc) : Prop :=
  pause_ack (flags b) <> 0 ->
  run_gate (flags b) = 0 /\ owner b <> OwnerReleaseGate \/ acknowledged pc = true.

(** With the pause requested the audio thread reaches no further block. *)
Definition held (b : board D) : Prop :=
  pause_request (flags b) <> 0 /\
  match audio b with None => True | Some pc => quiet pc = true end.

Definition owner_ok (b : board D) : Prop :=
  match owner b with
  | OwnerAck paused _ | OwnerDone paused _ | OwnerClock paused _ =>
      run_gate (flags b) <> 0 /\ (paused = true -> pause_request (flags b) <> 0)
  | OwnerResult paused => run_gate (flags b) <> 0 /\ (paused = true -> held b)
  | _ => True
  end.

Record core_inv (b : board D) (w : board_world D) : Prop := {
  ci_graph : pipeline_inv up (pipeline b) w;
  ci_config : pstate (pipeline b) <> EAF_UNINITIALIZED ->
    Graph.reservoir (config (pipeline b)) = Some (reservoir b) /\ storage b = ReservoirStorage;
  ci_memory : memory_ok b;
  ci_capacity : is_u32 (capacity b);
  ci_sink : device_sink (sink b)
}.

Record thread_inv (b : board D) (pc : audio_pc) : Prop := {
  ti_running : running_ok b pc;
  ti_gate : gate_ok b pc;
  ti_ack : ack_ok b pc;
  ti_done : done (flags b) <> 0 -> pc = AtReturn
}.

Record board_inv (b : board D) (w : board_world D) : Prop := {
  bi_core : core_inv b w;
  bi_idle : active b = false -> audio b = None /\ pstate (pipeline b) = EAF_UNINITIALIZED;
  bi_thread : forall pc, audio b = Some pc -> thread_inv b pc;
  bi_owner : owner_ok b
}.

(** Between calls, too, a thread without a running pipeline is marked failed. *)
Definition marked (b : board D) : Prop :=
  is_Some (audio b) -> pstate (pipeline b) = EAF_RUNNING \/ failed (flags b) <> 0.

(** ** Calls on the pipeline *)

Lemma graph_pipeline b w : core_inv b w -> graph b = pipeline b.
Proof.
  intros [Hg Hc _ _ _]. unfold graph. destruct (Graph.reservoir (config (pipeline b))) as [r|] eqn:E; [| done].
  destruct (decide (pstate (pipeline b) = EAF_UNINITIALIZED)) as [Hu|Hu].
  - destruct (pl_fresh _ _ _ Hg Hu) as (_ & _ & _ & ?). congruence.
  - destruct (Hc Hu) as [Hr _]. assert (r = reservoir b) as -> by congruence.
    destruct (pipeline b) as [[] ? ? ? ? ? ? ?]. cbn in *. by rewrite E.
Qed.

Lemma on_graph_eq {R} (f : ptr (eaf_pipeline_t (board_world D)) -> ub (ptr (eaf_pipeline_t (board_world D)) * R)) b w g x :
  core_inv b w -> f (Some (pipeline b)) = Some (Some g, x) ->
  on_graph f b = Some (set_graph g (match Graph.reservoir (config g) with Some r => r | None => reservoir b end) b, x).
Proof. intros Hc Hf. unfold on_graph, with_ref. rewrite (graph_pipeline b w Hc), Hf. done. Qed.

(** A call that leaves the configuration up to the reservoir's contents. *)
Lemma core_set_graph b w g r w' :
  core_inv b w -> pipeline_inv up g w' ->
  (pstate g <> EAF_UNINITIALIZED -> Graph.reservoir (config g) = Some r /\ storage b = ReservoirStorage) ->
  (r = reservoir b \/ stereo r /\ Reservoir.capacity r = Reservoir.capacity (reservoir b) /\ storage b = ReservoirStorage) ->
  core_inv (set_graph g r b) w'.
Proof.
  intros [Hg Hc Hm Hcap Hs] Hg' Hc' Hr. split; try done. unfold memory_ok in *. cbn.
  destruct Hr as [-> | (Hst & Hcp & Hsto)]; [done |]. rewrite Hsto in *. destruct Hm as [_ Hm]. split; [done | congruence].
Qed.

Lemma core_world b w w' : core_inv b w -> up w' = up w -> core_inv b w'.
Proof. intros [] Hu. split; try done. by eapply pipeline_inv_world. Qed.

(** Steps that leave the core alone. *)
Definition same_core (b b' : board D) : Prop :=
  reservoir b' = reservoir b /\ pipeline b' = pipeline b /\ storage b' = storage b /\ capacity b' = capacity b /\
  sink b' = sink b.

Lemma core_same b b' w w' : core_inv b w -> same_core b b' -> up w' = up w -> core_inv b' w'.
Proof.
  intros Hc (H1 & H2 & H3 & H4 & H5) Hu. apply (core_world b w w') in Hc; [| done].
  destruct Hc as [Hg Hc Hm Hcap Hs]. split; rewrite ?H1, ?H2, ?H3, ?H4, ?H5; try done.
  unfold memory_ok in *. by rewrite H1, H3, H4.
Qed.

(** *** The audio thread *)

(** What a step of the audio thread may do besides running the pipeline: move from
    [pc] to [pc'], store to [failed], [pause_ack] and [done], and report. *)
Record moves (b b' : board D) (pc pc' : audio_pc) : Prop := {
  mv_core : same_core b b';
  mv_active : active b' = active b;
  mv_owner : owner b' = owner b;
  mv_audio : audio b' = Some pc';
  mv_quit : quit (flags b') = quit (flags b);
  mv_gate : run_gate (flags b') = run_gate (flags b);
  mv_request : pause_request (flags b') = pause_request (flags b);
  mv_failed : failed (flags b) <> 0 -> failed (flags b') <> 0;
  mv_leaves : run_gate (flags b) = 0 -> at_gate pc = true \/ quit (flags b) <> 0 /\ leaving pc = true ->
    at_gate pc' = true \/ quit (flags b) <> 0 /\ leaving pc' = true;
  mv_ack : pause_ack (flags b') <> 0 ->
    acknowledged pc' = true \/ pause_ack (flags b) <> 0 /\ acknowledged pc = false;
  mv_done : done (flags b') <> 0 -> pc' = AtReturn \/ done (flags b) <> 0 /\ pc <> AtReturn;
  mv_quiet : pause_request (flags b) <> 0 -> quiet pc = true -> quiet pc' = true
}.

Lemma moves_inv b w b' w' pc pc' :
  board_inv b w -> audio b = Some pc -> up w' = up w -> moves b b' pc pc' -> board_inv b' w'.
Proof.
  intros [Hc Hi Ht Ho] Ha Hu []. destruct (Ht _ Ha) as [Hrun Hgate Hack Hdone]. split.
  - by eapply core_same.
  - rewrite mv_active0. intros H. destruct (Hi H). congruence.
  - intros pc'' H. assert (pc'' = pc') as -> by congruence. destruct mv_core0 as (_ & Hp & _). split.
    + destruct Hrun as [Hrun|(H1 & H2 & H3)]; [left; congruence | right].
      rewrite mv_quit0, mv_gate0, mv_owner0. auto.
    + intros Hg. rewrite mv_gate0 in Hg. rewrite mv_quit0. auto.
    + intros Ha'. rewrite mv_gate0, mv_owner0. destruct (mv_ack0 Ha') as [?|[H1 H2]]; [by right |].
      destruct (Hack H1) as [?|?]; [by left | congruence].
    + intros Hd. destruct (mv_done0 Hd) as [?|[H1 H2]]; [done |]. by specialize (Hdone H1).
  - unfold owner_ok, held in *. rewrite mv_owner0, mv_gate0, mv_request0, mv_audio0. rewrite Ha in Ho.
    destruct (owner b); naive_solver.
Qed.

(** Past the gate and not leaving, the pipeline runs. *)
Lemma working_runs b pc :
  thread_inv b pc -> at_gate pc = false -> leaving pc = false ->
  pstate (pipeline b) = EAF_RUNNING /\ run_gate (flags b) <> 0.
Proof.
  intros [Hrun Hgate _ _] H1 H2.
  assert (run_gate (flags b) <> 0) by (intros Hg; destruct (Hgate Hg) as [?|[_ ?]]; congruence).
  destruct Hrun as [?|(_ & ? & _)]; [done | congruence].
Qed.

(** A processed block of the running pipeline. *)
Lemma block_spec b w :
  core_inv b w -> pstate (pipeline b) = EAF_RUNNING ->
  exists g r w' rc, on_graph (fun p => eaf_pipeline_process no_wake p w) b = Some (set_graph g r b, (w', rc)) /\
    core_inv (set_graph g r b) w' /\ pstate g = EAF_RUNNING /\
    (stereo r /\ Reservoir.format r = Reservoir.format (reservoir b)).
Proof.
  intros Hc Hrun. pose proof Hc as [Hg Hcf Hm Hcap Hs]. rewrite Hrun in Hcf. destruct (Hcf ltac:(done)) as [Hres Hsto].
  unfold memory_ok in Hm. rewrite Hsto in Hm. destruct Hm as [[Hwf Hch] Hrc].
  destruct (process_inv up no_wake ltac:(done) (pipeline b) w Hg) as (g & w' & rc & Hp & Hg' & Hst & _ & Hdrawn).
  destruct (Hdrawn _ Hres) as (r & Heq & Hr).
  assert (Hgr : Graph.reservoir (config g) = Some r) by (rewrite Heq; done).
  assert (Hsame : Reservoir.format r = Reservoir.format (reservoir b) /\ Reservoir.capacity r = Reservoir.capacity (reservoir b)).
  { destruct Hr as [[-> _] | (k & _ & _ & _ & _ & ? & ? & _)]; done. }
  assert (Hwf' : reservoir_wf r).
  { destruct (cenv_res _ _ (inv_config up _ _ Hg' ltac:(congruence))) as (r0 & Hr0 & ? & _). congruence. }
  assert (stereo r) by (split; [done | unfold channels in *; destruct Hsame as [-> _]; done]).
  exists g, r, w', rc. rewrite (on_graph_eq (fun p => eaf_pipeline_process no_wake p w) b w g (w', rc) Hc), Hgr
    by (unfold eaf_pipeline_process, on_ptr; by rewrite Hp). split; [done |].
  split_and!; try done; [| congruence | apply Hsame].
  apply (core_set_graph b w); try done. right. destruct Hsame. by split_and!.
Qed.

(** The pipeline changed, in the same state. *)
Lemma graph_step b w g r w' :
  board_inv b w -> core_inv (set_graph g r b) w' -> pstate g = pstate (pipeline b) ->
  board_inv (set_graph g r b) w'.
Proof.
  intros [Hc Hi Ht Ho] Hc' Hst. split; [done | | | done].
  - cbn. intros Hact. destruct (Hi Hact). split; [done | congruence].
  - intros pc Ha. destruct (Ht pc Ha) as [Hrun Hgate Hack Hdone]. split; try done.
    destruct Hrun as [Hrun|Hrun]; [left; cbn; congruence | by right].
Qed.

(** What a step of the audio thread never touches. *)
Definition audio_keeps (b b' : board D) : Prop :=
  pstate (pipeline b') = pstate (pipeline b) /\ (failed (flags b) <> 0 -> failed (flags b') <> 0) /\
  owner b' = owner b /\ active b' = active b /\ quit (flags b') = quit (flags b) /\
  run_gate (flags b') = run_gate (flags b) /\ pause_request (flags b') = pause_request (flags b) /\
  (is_Some (audio b') -> is_Some (audio b)).

Lemma keeps_refl b : audio_keeps b b.
Proof. unfold audio_keeps. by split_and!. Qed.

Lemma moves_keeps b b' pc pc' : audio b = Some pc -> moves b b' pc pc' -> audio_keeps b b'.
Proof. intros Ha [(_ & Hp & _)]. unfold audio_keeps. rewrite Hp. split_and!; eauto. Qed.

Lemma audio_block_inv b w :
  board_inv b w -> audio b = Some AtBlock ->
  exists b' w', audio_block b w = Some (b', w') /\ board_inv b' w' /\ audio_keeps b b'.
Proof.
  intros Hinv Ha. pose proof Hinv as [Hc Hi Ht Ho]. destruct (Ht _ Ha) as [Hrun Hgate Hack Hdone].
  destruct (working_runs b _ (Ht _ Ha) eq_refl eq_refl) as [Hst Hg1]. unfold audio_block.
  set (w1 := BoardWorld _ _ _). assert (Hc1 : core_inv b w1) by (by apply (core_world b w)).
  destruct (block_spec b w1 Hc1 Hst) as (g & r & w' & rc & -> & Hc' & Hg & _). cbn [mbind option_bind].
  pose proof (graph_step b w g r w' Hinv Hc' ltac:(congruence)) as Hinv'.
  destruct (_ && _); (eexists _, _; split; [reflexivity |]);
    (split; [eapply (moves_inv _ _ _ w' _ _ Hinv' Ha); [done |]; split; cbn; by auto |]);
    (unfold audio_keeps; cbn; rewrite Ha; split_and!; try done; congruence).
Qed.

Lemma audio_report_inv b w rc :
  board_inv b w -> audio b = Some (AtReport rc) ->
  exists b' w', audio_report b w rc = Some (b', w') /\ board_inv b' w' /\ audio_keeps b b'.
Proof.
  intros Hinv Ha. pose proof Hinv as [Hc Hi Ht Ho]. destruct (Ht _ Ha) as [Hrun Hgate Hack Hdone].
  destruct (working_runs b _ (Ht _ Ha) eq_refl eq_refl) as [Hst Hg1].
  pose proof Hc as [Hg Hcf _ _ _]. rewrite Hst in Hcf. destruct (Hcf ltac:(done)) as [Hres _].
  destruct (cenv_res _ _ (inv_config up _ _ Hg ltac:(congruence))) as (r0 & Hr0 & _ & Hv).
  rewrite Hres in Hr0. injection Hr0 as <-. apply eaf_format_valid_channels in Hv as Hv'.
  unfold audio_report.
  assert (Hw : exists w' n, match delay_hook b with
      | None => (w, frames_read (reservoir b))
      | Some hook => let '(d, delay) := hook (device w) in
          (set_device d w, if decide (delay < frames_read (reservoir b)) then frames_read (reservoir b) - delay else 0)
      end = (w', n) /\ up w' = up w).
  { destruct (delay_hook b) as [hook|]; [destruct (hook (device w)) |]; by eexists _, _. }
  destruct Hw as (w' & n & -> & Hu). rewrite decide_False.
  2:{ intros H0. unfold eaf_format_valid in Hv. rewrite H0 in Hv. discriminate. }
  eexists _, _. split; [reflexivity |].
  match goal with |- board_inv ?b' _ /\ _ => assert (Hm : exists pc, moves b b' (AtReport rc) pc) end.
  { eexists. split; cbn; try done; auto; case_decide; auto; done. }
  destruct Hm as [pc Hm]. split; [by eapply moves_inv | by eapply moves_keeps].
Qed.

Ltac next Hinv Ha :=
  eexists _, _; split; [reflexivity |];
  match type of Hinv with board_inv ?b _ =>
    match type of Ha with audio _ = Some ?pc =>
      match goal with |- board_inv ?b' _ /\ _ =>
        assert (Hm : moves b b' pc ltac:(let x := eval cbn in (default AtReturn (audio b')) in exact x));
        [split; cbn; try done; auto; try (intros; congruence); try (intros _ [?|[? ?]]; congruence)
        | split; [by eapply (moves_inv _ _ _ _ _ _ Hinv Ha) | by eapply moves_keeps]]
      end
    end
  end.

Lemma audio_step_inv b w :
  board_inv b w -> exists b' w', audio_step b w = Some (b', w') /\ board_inv b' w' /\ audio_keeps b b'.
Proof.
  intros Hinv. unfold audio_step, run_pause_hook.
  destruct (audio b) as [pc|] eqn:Ha; [| eexists _, _; split; [done |]; split; [done |]; unfold audio_keeps; by rewrite Ha].
  destruct (bi_thread _ _ Hinv pc Ha) as [Hrun Hgate Hack Hdone].
  destruct pc; try (case_decide; next Hinv Ha); try by next Hinv Ha.
  - (* AtSuspend *) destruct (sink_pause_hook b) as [hook|]; [destruct (hook (device w) true) as [d rc] |];
      try case_decide; next Hinv Ha.
  - (* AtResume *) destruct (sink_pause_hook b) as [hook|]; [destruct (hook (device w) false) as [d rc] |];
      try case_decide; next Hinv Ha.
  - by apply audio_block_inv.
  - by apply audio_report_inv.
  - eexists _, _. split; [done |]. split; [done |]. unfold audio_keeps. by rewrite Ha.
Qed.

Lemma audio_run_inv n b w : board_inv b w ->
  exists b' w', Nat.iter n (fun o : ub (board D * board_world D) => '(b, w) ← o; audio_step b w) (Some (b, w)) =
    Some (b', w') /\ board_inv b' w'.
Proof.
  intros Hinv. induction n as [|n IH]; [by exists b, w |]. destruct IH as (b1 & w1 & Hrun & Hinv1).
  rewrite Nat.iter_succ, Hrun. cbn [mbind option_bind].
  destruct (audio_step_inv b1 w1 Hinv1) as (b2 & w2 & ? & ? & _). by exists b2, w2.
Qed.

(** With [quit] set every step brings the thread nearer to its end. *)
Definition rank (pc : audio_pc) : nat :=
  match pc with
  | AtReturn => 0 | AtEnd => 1 | AtFailed => 2 | AtLoop => 2 | AtGate => 4 | AtGateQuit => 3
  | AtClearAck => 3 | AtResume => 4 | AtPausedQuit => 5 | AtPaused => 6 | AtAck => 7 | AtSuspend => 8
  | AtReport _ => 3 | AtBlock => 4 | AtRequest => 9
  end.

Lemma audio_step_rank b w b' w' pc :
  audio b = Some pc -> pc <> AtReturn -> quit (flags b) <> 0 -> audio_step b w = Some (b', w') ->
  exists pc', audio b' = Some pc' /\ (rank pc' < rank pc)%nat /\ quit (flags b') = quit (flags b).
Proof.
  intros Ha Hne Hq. unfold audio_step, run_pause_hook. rewrite Ha. destruct pc; try done;
    try (case_decide; intros [= <- <-]; eexists; (split; [reflexivity |]); cbn; split_and!; done || lia);
    try (intros [= <- <-]; eexists; (split; [reflexivity |]); cbn; split_and!; done || lia).
  - destruct (sink_pause_hook b) as [hook|]; [destruct (hook (device w) true) as [d rc] |]; cbv beta iota zeta; intros [= <- <-];
      eexists; (split; [reflexivity |]); repeat case_decide; cbn; split_and!; done || lia.
  - destruct (sink_pause_hook b) as [hook|]; [destruct (hook (device w) false) as [d rc] |]; cbv beta iota zeta; intros [= <- <-];
      eexists; (split; [reflexivity |]); repeat case_decide; cbn; split_and!; done || lia.
  - unfold audio_block. destruct (on_graph _ b) as [[b1 [w1 rc]]|] eqn:E; [| done]. cbn [mbind option_bind].
    unfold on_graph in E. destruct (with_ref _ _) as [[g x]|]; [| done]. cbn [mbind option_bind] in E.
    injection E as <- ->. destruct (_ && _); cbv beta iota zeta; intros [= <- <-]; (eexists; split; [reflexivity |]);
      cbn; split_and!; done || lia.
  - unfold audio_report. destruct (match delay_hook b with Some _ => _ | None => _ end) as [w1 n].
    case_decide; [done |]. intros [= <- <-]. eexists. split; [reflexivity |].
    cbn. case_decide; cbn; split_and!; done || lia.
Qed.

(** A thread that is told to quit ends. *)
Lemma run_audio_quits fuel b w pc :
  board_inv b w -> quit (flags b) <> 0 -> audio b = Some pc -> (rank pc <= fuel)%nat ->
  exists b' w', run_audio fuel b w = Some (b', w') /\ board_inv b' w' /\ audio b' = Some AtReturn /\ audio_keeps b b'.
Proof.
  revert b w pc. induction fuel as [|fuel IH]; intros b w pc Hinv Hq Ha Hf; cbn [run_audio]; rewrite Ha.
  - destruct pc; cbn in Hf; try lia. exists b, w. split_and!; done || apply keeps_refl.
  - destruct (decide (pc = AtReturn)) as [->|Hne]; [exists b, w; split_and!; done || apply keeps_refl |].
    destruct (audio_step_inv b w Hinv) as (b1 & w1 & Hs & Hinv1 & Hk).
    destruct (audio_step_rank b w b1 w1 pc Ha Hne Hq Hs) as (pc1 & Ha1 & Hr & Hq1).
    destruct (IH b1 w1 pc1) as (b' & w' & Hrun & Hinv' & Ha' & Hk'); [done | congruence | done | lia |].
    exists b', w'. replace (match pc with AtReturn => Some (b, w) | _ => '(b, w) ← audio_step b w; run_audio fuel b w end)
      with ('(b, w) ← audio_step b w; run_audio fuel b w) by (by destruct pc).
    rewrite Hs. cbn [mbind option_bind]. split; [done |]. split; [done |]. split; [done |].
    destruct Hk as (? & ? & ? & ? & ? & ? & ? & ?), Hk' as (? & ? & ? & ? & ? & ? & ? & ?).
    split_and!; try congruence; auto.
Qed.

(** *** The transport's calls *)

(** With no audio thread only the core is left to keep. *)
Lemma no_thread b w :
  core_inv b w -> audio b = None -> owner b = OwnerIdle ->
  (active b = false -> pstate (pipeline b) = EAF_UNINITIALIZED) -> board_inv b w.
Proof.
  intros Hc Ha Ho Hi. split; [done | auto | by rewrite Ha | unfold owner_ok; by rewrite Ho].
Qed.

Lemma core_flags b w f : core_inv b w -> core_inv (with_flags f b) w.
Proof. intros Hc. eapply core_same; [exact Hc | by split_and! | done]. Qed.

(** A pipeline call that keeps the configuration. *)
Lemma call_config b w g w' :
  core_inv b w -> pipeline_inv up g w' -> config g = config (pipeline b) ->
  pstate (pipeline b) <> EAF_UNINITIALIZED ->
  (match Graph.reservoir (config g) with Some r => r | None => reservoir b end) = reservoir b /\
  core_inv (set_graph g (reservoir b) b) w'.
Proof.
  intros Hc Hg Hcf Hu. destruct (ci_config _ _ Hc Hu) as [Hr Hs]. rewrite Hcf, Hr. split; [done |].
  apply (core_set_graph b w); try done; [| by left]. intros _. by rewrite Hcf.
Qed.

Lemma board_deinit b w :
  core_inv b w -> pstate (pipeline b) <> EAF_RUNNING ->
  exists g w' rc, on_graph (fun p => eaf_pipeline_deinit p w) b = Some (set_graph g (reservoir b) b, (w', rc)) /\
    core_inv (set_graph g (reservoir b) b) w' /\
    (rc = EAF_OK -> g = pipeline_zero /\ up w' = []) /\
    (rc <> EAF_OK -> pstate (pipeline b) <> EAF_UNINITIALIZED).
Proof.
  intros Hc Hrun. destruct (deinit_inv up (pipeline b) w (ci_graph _ _ Hc)) as (g & w' & rc & Hd & Hg & Hok & Hbad).
  assert (Hu : rc <> EAF_OK -> pstate (pipeline b) <> EAF_UNINITIALIZED).
  { intros Hrc Hun. destruct (pl_fresh _ _ _ (ci_graph _ _ Hc) Hun) as (Hn & Hs & _).
    unfold eaf_pipeline_deinit, on_ptr in Hd. rewrite decide_False in Hd by done.
    rewrite (release_fresh _ w Hn Hs) in Hd. cbn in Hd. by injection Hd as _ _ <-. }
  rewrite (on_graph_eq (fun p => eaf_pipeline_deinit p w) b w g (w', rc) Hc Hd).
  destruct (decide (rc = EAF_OK)) as [H0|H0].
  - destruct (Hok H0) as [-> Hup]. exists pipeline_zero, w', rc. split; [done |]. split; [| by split_and!].
    apply (core_set_graph b w); try done. by left.
  - destruct (call_config b w g w' Hc Hg (Hbad H0) (Hu H0)) as [-> Hc']. exists g, w', rc. by split_and!.
Qed.

(** The outcome of a teardown. *)
Definition torn_down (b b' : board D) (w' : board_world D) : Prop :=
  owner b' = owner b /\ run_gate (flags b') = run_gate (flags b) /\
  (active b' = false /\ audio b' = None /\ pipeline b' = pipeline_zero /\ up w' = [] \/
   active b' = active b /\ failed (flags b') <> 0 /\ quit (flags b') <> 0).

Lemma stop_graph_spec b w :
  core_inv b w -> audio b = None -> owner b = OwnerIdle -> active b = true -> quit (flags b) <> 0 ->
  exists b' w', stop_graph b w = Some (b', w') /\ board_inv b' w' /\ marked b' /\ torn_down b b' w'.
Proof.
  intros Hc Ha Ho Hact Hq. unfold stop_graph.
  assert (H1 : exists g w1 rc, (if bool_decide (pstate (pipeline b) = EAF_RUNNING) || bool_decide (pstate (pipeline b) = EAF_RECOVERY)
      then on_graph (fun p => eaf_pipeline_stop p w) b else Some (b, (w, EAF_OK)))
      = Some (set_graph g (reservoir b) b, (w1, rc)) /\ core_inv (set_graph g (reservoir b) b) w1 /\
      (rc = EAF_OK -> pstate g <> EAF_RUNNING)).
  { destruct (_ || _) eqn:E.
    - assert (Hst : pstate (pipeline b) <> EAF_UNINITIALIZED).
      { intros H. rewrite H in E. by vm_compute in E. }
      destruct (stop_inv up (pipeline b) w (ci_graph _ _ Hc)) as (g & w1 & rc & Hs & Hg & Hok & _ & [s Hset]).
      destruct (call_config b w g w1 Hc Hg ltac:(by rewrite Hset) Hst) as [Hr Hc'].
      rewrite (on_graph_eq (fun p => eaf_pipeline_stop p w) b w g (w1, rc) Hc), Hr
        by (unfold eaf_pipeline_stop, on_ptr; by rewrite Hs).
      exists g, w1, rc. split_and!; try done. intros H0. destruct (Hok H0) as [-> | ->]; done.
    - apply orb_false_elim in E as [E _]. apply bool_decide_eq_false in E. exists (pipeline b), w, EAF_OK.
      destruct b. by split_and!. }
  destruct H1 as (g & w1 & rc & -> & Hc1 & Hok). cbn [mbind option_bind].
  case_bool_decide as Hrc; cbn [negb].
  - destruct (board_deinit _ w1 Hc1 (Hok Hrc)) as (g2 & w2 & rc2 & -> & Hc2 & Hz & _). cbn [mbind option_bind].
    case_bool_decide as Hrc2; cbn [negb]; (eexists _, _; split; [reflexivity |]).
    + destruct (Hz Hrc2) as [-> Hup]. split; [| split; [intros [? Hx]; cbn in Hx; congruence |]].
      * apply no_thread; try done. eapply core_same; [exact Hc2 | by split_and! | done].
      * split; [done |]. split; [done |]. by left.
    + split; [| split; [by right |]].
      * apply no_thread; try done; [by apply core_flags |]. cbn. by rewrite Hact.
      * split; [done |]. split; [done |]. by right.
  - eexists _, _. split; [reflexivity |]. split; [| split; [by right |]].
    + apply no_thread; try done; [by apply core_flags |]. cbn. by rewrite Hact.
    + split; [done |]. split; [done |]. by right.
Qed.

Lemma stop_spec b w :
  core_inv b w -> owner b = OwnerIdle -> active b = true ->
  (forall pc, audio b = Some pc -> (pstate (pipeline b) = EAF_RUNNING \/ run_gate (flags b) = 0) /\
     gate_ok b pc /\ ack_ok b pc /\ (done (flags b) <> 0 -> pc = AtReturn)) ->
  exists b' w', eaf_board_output_stop b w = Some (b', w') /\ board_inv b' w' /\ marked b' /\ torn_down b b' w'.
Proof.
  intros Hc Ho Hact Ht. unfold eaf_board_output_stop. rewrite Hact. cbn [negb].
  set (b1 := with_flags (put_quit 1) b). assert (Hc1 : core_inv b1 w) by (by apply core_flags).
  assert (Hinv1 : board_inv b1 w).
  { split; [done | cbn; by rewrite Hact | | unfold owner_ok; cbn; by rewrite Ho].
    intros pc Ha. destruct (Ht pc Ha) as (Hrun & Hgate & Hack & Hdone). split; try done.
    - destruct Hrun as [?|?]; [by left |]. right. cbn. by rewrite Ho.
    - intros H0. destruct (Hgate H0) as [?|[? ?]]; [by left | by right]. }
  case_bool_decide as Ha; cbn [mbind option_bind].
  - destruct Ha as [pc Ha]. change (audio b1 = Some pc) in Ha. unfold join_audio.
    destruct (hal_thread_join (device w)) as [d rc]. case_decide as Hrc; cbn [mbind option_bind].
    + assert (Hinv2 : board_inv b1 (set_device d w)).
      { destruct Hinv1. split; try done. by apply (core_world b1 w). }
      destruct (run_audio_quits QUIT_STEPS b1 (set_device d w) pc Hinv2) as (b2 & w2 & -> & Hinv3 & Ha2 & Hk);
        [done | done | destruct pc; cbn; unfold QUIT_STEPS; lia |].
      cbn [mbind option_bind]. rewrite (bool_decide_eq_true_2 (rc = 0)) by done. cbn [negb].
      destruct Hk as (_ & _ & Ho2 & Hact2 & Hq2 & Hg2 & _).
      destruct (stop_graph_spec (set_audio None b2) w2) as (b' & w' & -> & Hinv' & Hm & Htd).
      * eapply core_same; [apply Hinv3 | by split_and! | done].
      * done.
      * cbn. rewrite Ho2. exact Ho.
      * cbn. rewrite Hact2. exact Hact.
      * cbn. by rewrite Hq2.
      * eexists _, _. split; [reflexivity |]. split; [done |]. split; [done |].
        destruct Htd as (H1 & H2 & H3). cbn [owner active audio flags set_audio] in *. split; [rewrite H1; exact Ho2 |]. split; [rewrite H2; exact Hg2 |].
        destruct H3 as [?|(H3 & ?)]; [by left | right; by rewrite H3, Hact2].
    + rewrite bool_decide_eq_false_2 by done. cbn [negb]. eexists _, _. split; [reflexivity |].
      split; [| split; [by right |]].
      * destruct Hinv1 as [H1 H2 H3 H4]. split; try done; [by apply core_flags, (core_world b1 w) |].
        intros pc' Ha'. destruct (H3 pc' Ha') as [? ? ? ?]. by split.
      * split; [done |]. split; [done |]. by right.
  - rewrite (bool_decide_eq_true_2 (0 = 0)) by done. cbn [negb].
    apply (stop_graph_spec b1 w); try done. cbn. by apply eq_None_not_Some.
Qed.

(** In a state between calls the call tears down, or has nothing to do. *)
Lemma stop_inv_spec b w :
  board_inv b w -> marked b -> owner b = OwnerIdle ->
  exists b' w', eaf_board_output_stop b w = Some (b', w') /\ board_inv b' w' /\ marked b' /\ owner b' = OwnerIdle /\
    (active b' = true -> active b = true /\ failed (flags b') <> 0 /\ quit (flags b') <> 0) /\
    (active b = true -> active b' = false -> pipeline b' = pipeline_zero /\ up w' = []).
Proof.
  intros Hinv Hm Ho. destruct (active b) eqn:Hact.
  - destruct (stop_spec b w (bi_core _ _ Hinv) Ho Hact) as (b' & w' & -> & Hinv' & Hm' & Ho' & _ & Htd).
    + intros pc Ha. destruct (bi_thread _ _ Hinv pc Ha) as [Hrun ? ? ?]. split_and!; try done.
      destruct Hrun as [?|(? & ? & ?)]; [by left | by right].
    + exists b', w'. split; [done |]. split; [done |]. split; [done |]. split; [congruence |].
      destruct Htd as [(? & ? & ? & ?)|(? & ? & ?)]; split; intros; congruence || auto.
  - exists b, w. unfold eaf_board_output_stop. rewrite Hact. by split_and!.
Qed.

(** What the set-up calls leave alone. *)
Definition setup_keeps (b b' : board D) : Prop :=
  audio b' = audio b /\ owner b' = owner b /\ flags b' = flags b /\ active b' = active b /\
  input_channels b' = input_channels b /\ capacity b' = capacity b /\ sink b' = sink b.

Context (size_max : Z).

Lemma init_reservoir_spec b w rate ready :
  core_inv b w -> is_u32 ready ->
  exists r rc, eaf_reservoir_init size_max (Some (reservoir b)) (backing_cells b) (capacity b) (Format rate 2 3) ready
      = Some (Some r, rc) /\
    (rc = EAF_OK -> stereo r /\ Reservoir.capacity r = capacity b /\ eaf_format_valid (Some (Reservoir.format r)) = true /\
       Reservoir.format r = Format rate 2 3).
Proof.
  intros [_ _ Hm Hcap _] Hr.
  assert (Hcells : backing_cells b = None \/ exists l, backing_cells b = Some l /\ zlen l = capacity b * 2 /\ Forall is_s32 l).
  { unfold memory_ok, backing_cells in *. destruct (storage b) as [|l|]; [by left | right; exists l; naive_solver | right].
    destruct Hm as [[Hwf Hch] Hc]. eexists. split; [done |]. split; [| apply Hwf].
    rewrite (rwf_storage _ Hwf), Hch, Hc. done. }
  destruct Hcells as [-> | (l & -> & Hl & Hs)]; [by exists (reservoir b), EAF_INVALID |].
  destruct (init_branch size_max (reservoir b) l (capacity b) (Format rate 2 3) ready Hcap Hr) as [[Hok ->]|[_ ->]];
    [done | | by eexists _, EAF_INVALID].
  eexists _, EAF_OK. split; [done |]. intros _. split; [| split_and!; try done; try apply Hok].
  split; [by apply (init_wf size_max) | done].
Qed.

Lemma board_setup_spec b w fmt ready :
  core_inv b w -> pstate (pipeline b) = EAF_UNINITIALIZED -> is_u32 ready ->
  exists b' w' rc, board_setup size_max b w fmt ready = Some (b', (w', rc)) /\ core_inv b' w' /\ setup_keeps b b' /\
    pstate (pipeline b') <> EAF_RUNNING /\ (rc = EAF_OK -> pstate (pipeline b') = EAF_CONFIGURED /\
      Reservoir.format (reservoir b') = Format (sample_rate fmt) 2 3).
Proof.
  intros Hc Hu Hr. unfold board_setup, with_ref.
  destruct (init_reservoir_spec b w (sample_rate fmt) ready Hc Hr) as (r & rc & -> & Hok). cbn [mbind option_bind].
  case_bool_decide as Hrc; cbn [negb].
  2:{ exists b, w, rc. split; [done |]. split; [done |]. split; [by split_and! |]. split; [by rewrite Hu | done]. }
  destruct (Hok Hrc) as (Hst & Hcap & Hv & Hf).
  set (b1 := set_memory r ReservoirStorage b).
  assert (Hc1 : core_inv b1 w).
  { destruct Hc. by split. }
  pose proof (board_config_env r (sink b) (proj1 Hst) Hv (ci_sink _ _ Hc)) as Henv.
  destruct (init_inv up (pipeline b1) w (board_config r (sink b)) (ci_graph _ _ Hc1) Henv) as (g & rc1 & Hi & Hg & Hgok & Hgbad).
  change (PipelineConfig (Some (reservoir b1)) (Some board_nodes) 2 (Some (Some (lift_sink (sink b1)))))
    with (board_config r (sink b)).
  rewrite (on_graph_eq (fun p => eaf_pipeline_init p (Some (board_config r (sink b)))) b1 w g rc1 Hc1 Hi).
  cbn [mbind option_bind]. case_bool_decide as Hrc1; cbn [negb].
  2:{ rewrite (Hgbad Hrc1). change (pipeline b1) with (pipeline b).
      destruct (pl_fresh _ _ _ (ci_graph _ _ Hc) Hu) as (_ & _ & _ & Hn). rewrite Hn.
      eexists _, w, rc1. split; [reflexivity |]. split; [| split; [by split_and! | split; [cbn; by rewrite Hu | done]]].
      apply (core_set_graph b1 w); try done; [apply (ci_graph _ _ Hc) | by left]. }
  destruct (Hgok Hrc1) as [Hgst Hgc]. rewrite Hgc. cbn [Graph.reservoir board_config].
  set (b2 := set_graph g r b1).
  assert (Hc2 : core_inv b2 w).
  { apply (core_set_graph b1 w); try done; [| by left]. intros _. by rewrite Hgc. }
  destruct (configure_inv up (pipeline b2) w 128 (ci_graph _ _ Hc2) ltac:(lia)) as (g3 & w3 & rc3 & Hcf & Hg3 & Hok3 & Hcg3 & Hnr).
  destruct (call_config b2 w g3 w3 Hc2 Hg3 Hcg3) as [Hr3 Hc3]; [cbn; by rewrite Hgst |].
  rewrite (on_graph_eq (fun p => eaf_pipeline_configure p w 128) b2 w g3 (w3, rc3) Hc2), Hr3
    by (unfold eaf_pipeline_configure, on_ptr; by rewrite Hcf).
  eexists _, w3, rc3. split; [reflexivity |]. split; [done |]. split; [by split_and! |].
  split; [apply Hnr; cbn; by rewrite Hgst |]. intros H3. by destruct (Hok3 H3).
Qed.

Lemma setup_failed_spec b w rc :
  core_inv b w -> audio b = None -> owner b = OwnerIdle -> pstate (pipeline b) <> EAF_RUNNING -> rc <> EAF_OK ->
  exists b' w' rc', setup_failed b w rc = Some (b', (w', rc')) /\ board_inv b' w' /\ marked b' /\ owner b' = OwnerIdle /\
    rc' <> EAF_OK /\ audio b' = None /\ (active b' = active b /\ pipeline b' = pipeline_zero /\ up w' = [] \/
                       active b' = true /\ failed (flags b') <> 0).
Proof.
  intros Hc Ha Ho Hrun Hrc. unfold setup_failed.
  destruct (board_deinit b w Hc Hrun) as (g & w' & rc' & -> & Hc' & Hz & _). cbn [mbind option_bind].
  case_bool_decide as Hrc'; cbn [negb]; (eexists _, w', _; split; [reflexivity |]).
  - destruct (Hz Hrc') as [-> Hup]. split; [by apply no_thread |].
    split; [intros [? Hx]; cbn in Hx; congruence |]. do 3 (split; [done |]). by left.
  - split; [apply no_thread; try done; eapply core_same; [exact Hc' | by split_and! | done] |].
    split; [by right |]. do 3 (split; [done |]). by right.
Qed.

Lemma board_start_spec b w :
  core_inv b w -> pstate (pipeline b) = EAF_CONFIGURED ->
  exists g r w' rc, on_graph (fun p => eaf_pipeline_start p w) b = Some (set_graph g r b, (w', rc)) /\
    core_inv (set_graph g r b) w' /\ r = eaf_reservoir_reset (reservoir b) /\
    (rc = EAF_OK -> pstate g = EAF_RUNNING /\ completed g = false).
Proof.
  intros Hc Hst. pose proof Hc as [Hg Hcf Hm _ _]. rewrite Hst in Hcf. destruct (Hcf ltac:(done)) as [Hres Hsto].
  unfold memory_ok in Hm. rewrite Hsto in Hm. destruct Hm as [[Hwf Hch] Hcap].
  destruct (start_inv up (pipeline b) w Hg) as (g & w' & rc & Hs & Hg' & Hok & _ & Hshape).
  destruct (Hshape _ Hres) as [[_ Hno]|[s ->]]; [done |].
  eexists _, _, w', rc.
  rewrite (on_graph_eq (fun p => eaf_pipeline_start p w) b w _ (w', rc) Hc
    ltac:(unfold eaf_pipeline_start, on_ptr; by rewrite Hs)). cbn [Graph.reservoir config set_state set_completed set_reservoir].
  split; [reflexivity |]. split; [| split; [done |]].
  - apply (core_set_graph b w); try done. right. split; [| done]. split; [by apply reset_wf | done].
  - intros H0. by destruct (Hok H0) as (? & ? & _).
Qed.

(** The outcome of a start: a running stream, everything released, or everything
    kept with the failure marked; or the call was refused. *)
Definition start_outcome (b b' : board D) (w' : board_world D) (held : bool) (rc : Z) : Prop :=
  (rc = EAF_OK -> active b' = true /\ audio b' = Some AtGate /\ pstate (pipeline b') = EAF_RUNNING /\
     flags b' = put_gate (if held then 0 else 1) fresh_flags /\ res_frames (reservoir b') = []) /\
  (rc <> EAF_OK -> b' = b \/ (active b' = active b \/ active b' = false) /\ pipeline b' = pipeline_zero /\ up w' = [] /\ audio b' = None \/
     active b' = true /\ failed (flags b') <> 0).

Lemma fresh_level r : stereo r -> res_frames (eaf_reservoir_reset r) = [].
Proof. intros _. unfold res_frames, level. cbn. by rewrite Z.mul_0_l. Qed.

Lemma start_fresh_spec b w format ready held :
  board_inv b w -> marked b -> owner b = OwnerIdle -> is_u32 ready ->
  exists b' w' rc, start_fresh size_max b w format ready held = Some (b', (w', rc)) /\
    board_inv b' w' /\ marked b' /\ owner b' = OwnerIdle /\ start_outcome b b' w' held rc.
Proof.
  intros Hinv Hm Ho Hr. unfold start_fresh.
  assert (Hno : forall rc, rc <> EAF_OK -> exists b' w' rc0, Some (b, (w, rc)) = Some (b', (w', rc0)) /\
    board_inv b' w' /\ marked b' /\ owner b' = OwnerIdle /\ start_outcome b b' w' held rc0).
  { intros rc Hrc. exists b, w, rc. do 4 (split; [done |]). split; [done | by left]. }
  destruct (_ || _) eqn:Eb; [by apply Hno |].
  apply orb_false_elim in Eb as [Ha%bool_decide_eq_false Hu%negb_false_iff%bool_decide_eq_true].
  apply eq_None_not_Some in Ha. destruct format as [fmt|]; [| by apply Hno].
  destruct (_ || _); [by apply Hno |].
  set (rdy := if _ || _ then _ else ready).
  assert (Hrdy : is_u32 rdy) by (unfold rdy; case_match; word).
  set (b0 := set_input (num_channels fmt) b).
  assert (Hc0 : core_inv b0 w) by (eapply core_same; [apply (bi_core _ _ Hinv) | by split_and! | done]).
  destruct (board_setup_spec b0 w fmt rdy Hc0 Hu Hrdy) as (b1 & w1 & rc1 & -> & Hc1 & Hk & Hrun1 & Hok1).
  destruct Hk as (Ha1 & Ho1 & Hf1 & Hact1 & _). cbn in Ha1, Ho1, Hf1, Hact1. rewrite Ha in Ha1. rewrite Ho in Ho1.
  cbn [mbind option_bind].
  assert (Hfail : forall b2 w2 rc, core_inv b2 w2 -> audio b2 = None -> owner b2 = OwnerIdle ->
    pstate (pipeline b2) <> EAF_RUNNING -> active b2 = active b -> rc <> EAF_OK ->
    exists b' w' rc0, setup_failed b2 w2 rc = Some (b', (w', rc0)) /\
      board_inv b' w' /\ marked b' /\ owner b' = OwnerIdle /\ start_outcome b b' w' held rc0).
  { intros b2 w2 rc Hc2 Ha2 Ho2 Hr2 Hact2 Hrc.
    destruct (setup_failed_spec b2 w2 rc Hc2 Ha2 Ho2 Hr2 Hrc) as (b' & w' & rc' & -> & Hi & Hmk & Ho' & Hrc' & Ha' & Hcase).
    exists b', w', rc'. do 4 (split; [done |]). split; [done |]. intros _. right.
    destruct Hcase as [(? & ? & ?)|?]; [left | by right]. split; [left; congruence | by split_and!]. }
  case_bool_decide as Hrc1; cbn [negb].
  2:{ apply Hfail; try done; congruence. }
  destruct (Hok1 Hrc1) as [Hst1 _].
  set (b2 := with_flags (fun _ => fresh_flags) b1).
  destruct (hal_thread_create_with_options (device w1) (audio_cpu b2)) as [d rc2].
  assert (Hc2 : core_inv b2 (set_device d w1)) by (by apply core_flags, (core_world b1 w1)).
  case_bool_decide as Hrc2; cbn [negb].
  2:{ apply Hfail; try done; cbn; congruence. }
  set (b3 := set_active true (set_audio (Some AtGate) b2)).
  assert (Hc3 : core_inv b3 (set_device d w1)) by (eapply core_same; [exact Hc2 | by split_and! | done]).
  destruct (board_start_spec b3 (set_device d w1) Hc3 Hst1) as (g & r & w4 & rc4 & -> & Hc4 & Hres & Hok4).
  cbn [mbind option_bind]. set (b4 := set_graph g r b3) in *. case_bool_decide as Hrc4; cbn [negb].
  - destruct (Hok4 Hrc4) as [Hrun4 _]. eexists _, w4, 0. split; [reflexivity |].
    assert (Hinv4 : board_inv (with_flags (put_gate (if held then 0 else 1)) b4) w4).
    { split; [by apply core_flags | done | | unfold owner_ok; cbn; by rewrite Ho1].
      intros pc [= <-]. split; [by left | intros _; by left | by intros [] | by intros []]. }
    split; [done |]. split; [intros _; by left |]. split; [done |]. split; [| done]. intros _.
    split_and!; try done. cbn. rewrite Hres. apply fresh_level.
    destruct (ci_config _ _ Hc1 ltac:(by rewrite Hst1)) as [_ Hsto]. pose proof (ci_memory _ _ Hc1) as Hmem.
    unfold memory_ok in Hmem. rewrite Hsto in Hmem. apply Hmem.
  - destruct (stop_spec b4 w4 Hc4 Ho1 eq_refl) as (b5 & w5 & -> & Hinv5 & Hm5 & Ho5 & _ & Htd).
    { intros pc [= <-]. split; [by right |]. split; [intros _; by left |]. by split; intros []. }
    cbn [mbind option_bind]. exists b5, w5, rc4. split; [done |]. split; [done |]. split; [done |].
    split; [rewrite Ho5; exact Ho1 |]. split; [done |]. intros _. right.
    destruct Htd as [(? & ? & ? & ?)|(H1 & ? & ?)]; [left; split_and!; auto | right; split; [by rewrite H1 | done]].
Qed.

Lemma start_board_spec b w format ready held :
  board_inv b w -> marked b -> owner b = OwnerIdle -> is_u32 ready ->
  exists b' w' rc, eaf_board_output_start size_max b w format ready held = Some (b', (w', rc)) /\
    board_inv b' w' /\ marked b' /\ owner b' = OwnerIdle /\
    (rc = EAF_OK -> active b' = true /\ audio b' = Some AtGate /\ pstate (pipeline b') = EAF_RUNNING /\
       flags b' = put_gate (if held then 0 else 1) fresh_flags /\ res_frames (reservoir b') = []).
Proof.
  intros Hinv Hm Ho Hr. unfold eaf_board_output_start. destruct (active b).
  - case_decide as Hd; [by exists b, w, EAF_STATE |].
    destruct (stop_inv_spec b w Hinv Hm Ho) as (b1 & w1 & -> & Hinv1 & Hm1 & Ho1 & _). cbn [mbind option_bind].
    destruct (start_fresh_spec b1 w1 format ready held Hinv1 Hm1 Ho1 Hr) as (b' & w' & rc & ? & ? & ? & ? & [? _]).
    by exists b', w', rc.
  - destruct (start_fresh_spec b w format ready held Hinv Hm Ho Hr) as (b' & w' & rc & ? & ? & ? & ? & [? _]).
    by exists b', w', rc.
Qed.

Lemma replace_board_spec b w format ready held :
  board_inv b w -> marked b -> owner b = OwnerIdle -> is_u32 ready ->
  exists b' w' rc, eaf_board_output_replace size_max b w format ready held = Some (b', (w', rc)) /\
    board_inv b' w' /\ marked b' /\ owner b' = OwnerIdle.
Proof.
  intros Hinv Hm Ho Hr. unfold eaf_board_output_replace. destruct format as [fmt|]; [| by exists b, w, EAF_UNSUPPORTED].
  destruct (_ || _); [by exists b, w, EAF_UNSUPPORTED |].
  destruct (stop_inv_spec b w Hinv Hm Ho) as (b1 & w1 & -> & Hinv1 & Hm1 & Ho1 & _). cbn [mbind option_bind].
  destruct (active b1) eqn:E; [by exists b1, w1, EAF_IO |].
  destruct (start_board_spec b1 w1 (Some fmt) ready held Hinv1 Hm1 Ho1 Hr) as (b' & w' & rc & ? & ? & ? & ? & _).
  by exists b', w', rc.
Qed.

(** *** The producer *)

(** Changing what the reservoir holds. *)
Lemma board_put_reservoir_inv b w r :
  board_inv b w -> marked b -> (stereo (reservoir b) -> stereo r) -> (blank (reservoir b) -> blank r) ->
  Reservoir.capacity r = Reservoir.capacity (reservoir b) -> Reservoir.format r = Reservoir.format (reservoir b) ->
  board_inv (put_reservoir r b) w /\ marked (put_reservoir r b).
Proof.
  intros [Hc Hi Ht Ho] Hm Hst Hz Hcap Hf. pose proof Hc as [Hg Hcf Hmem Hcp Hs].
  assert (Hp : pstate (pipeline (put_reservoir r b)) = pstate (pipeline b)).
  { cbn. by destruct (Graph.reservoir (config (pipeline b))). }
  assert (Hmem' : memory_ok (put_reservoir r b)).
  { unfold memory_ok in *. cbn. destruct (storage b); [by apply Hz | naive_solver | naive_solver congruence]. }
  split; [split|].
  - split; try done.
    + cbn. destruct (Graph.reservoir (config (pipeline b))) as [r0|] eqn:E; [| done].
      assert (Hu : pstate (pipeline b) <> EAF_UNINITIALIZED).
      { intros H. destruct (pl_fresh _ _ _ Hg H) as (_ & _ & _ & ?). congruence. }
      destruct (Hcf Hu) as [Hr Hsto]. unfold memory_ok in Hmem. rewrite Hsto in Hmem.
      apply (inv_reservoir up _ w (reservoir b)); try done; [congruence | apply Hst, Hmem].
    + rewrite Hp. intros Hu. destruct (Hcf Hu) as [Hr Hsto]. cbn. by rewrite Hr.
  - cbn. intros Hact. destruct (Hi Hact) as [? Hu]. split; [done |]. rewrite <- Hu. exact Hp.
  - intros pc Ha. destruct (Ht pc Ha) as [Hrun ? ? ?]. split; try done.
    unfold running_ok in *. by rewrite Hp.
  - done.
  - unfold marked in *. by rewrite Hp.
Qed.

(** Every mono sample becomes both samples of its frame. *)
Lemma to_stereo_spec samples n :
  0 <= n <= 128 -> n <= zlen samples -> Forall is_s32 samples ->
  exists l, to_stereo samples n = Some l /\ zlen l = 256 /\ Forall is_s32 l /\
    forall i, 0 <= i < n -> ld l (2 * i) = ld samples i /\ ld l (2 * i + 1) = ld samples i.
Proof.
  intros Hn Hz Hs. unfold to_stereo.
  apply (for_to_inv (fun j l => zlen l = 256 /\ Forall is_s32 l /\
    forall i, 0 <= i < j -> ld l (2 * i) = ld samples i /\ ld l (2 * i + 1) = ld samples i)); [lia | |].
  - split; [done |]. split; [apply Forall_replicate; word | lia].
  - intros j l Hj (Hl & Hls & Hsame). destruct (ld_forall is_s32 samples j ltac:(lia) Hs) as (x & Hx & Hxs).
    rewrite Hx. cbn [mbind option_bind]. rewrite st_eq by lia. cbn [mbind option_bind].
    rewrite st_eq by (rewrite zlen_insert; lia). eexists. split; [reflexivity |]. rewrite !zlen_insert.
    split; [done |]. split; [by repeat apply Forall_insert |]. intros i Hi.
    rewrite !ld_lookup by lia. rewrite !ld_lookup in Hx by lia.
    destruct (decide (i = j)) as [->|Hne].
    + rewrite list_lookup_insert_eq by (rewrite length_insert; unfold zlen in *; lia).
      rewrite list_lookup_insert_ne by lia. rewrite list_lookup_insert_eq by (unfold zlen in *; lia). done.
    + rewrite !list_lookup_insert_ne by lia. destruct (Hsame i ltac:(lia)) as [H1 H2].
      rewrite !ld_lookup in H1, H2 by lia. done.
Qed.

(** A write to the board's reservoir, in stereo samples. *)
Lemma reservoir_write_spec (b : board D) src frames :
  stereo (reservoir b) \/ blank (reservoir b) -> 0 <= frames -> frames * 2 <= zlen src -> Forall is_s32 src ->
  exists r n, eaf_reservoir_write (Some (reservoir b)) (Some src) frames = Some (Some r, n) /\ 0 <= n <= frames /\
    (stereo (reservoir b) -> stereo r) /\ (blank (reservoir b) -> blank r) /\
    Reservoir.capacity r = Reservoir.capacity (reservoir b) /\ Reservoir.format r = Reservoir.format (reservoir b) /\
    (stereo (reservoir b) -> res_frames r = res_frames (reservoir b) ++ slice src 0 (n * 2)).
Proof.
  intros [[Hwf Hch]|[f0 Hz]] Hf Hs Hs32.
  - assert (Hnz : ~ blank (reservoir b)).
    { intros [f0 E]. rewrite E in Hch. discriminate. }
    destruct (decide (finished (reservoir b) = 0)) as [Hfin|Hfin].
    + destruct (res_write_spec (reservoir b) src frames Hwf Hf ltac:(lia) Hs32 Hfin) as (l & -> & Hwf' & Hres).
      pose proof (level_range _ Hwf). eexists _, _. split; [reflexivity |]. split; [lia |].
      split; [by split |]. split; [done |]. split; [done |]. split; [done |]. intros _. by rewrite Hres, Hch.
    + exists (reservoir b), 0. unfold eaf_reservoir_write, on_ptr. rewrite bool_decide_eq_false_2 by done.
      cbn [negb]. split_and!; try done; try lia. intros _. rewrite Z.mul_0_l. unfold slice. cbn. by rewrite app_nil_r.
  - rewrite Hz. exists (set_finished f0 reservoir_zero), 0. split_and!; try done; try lia.
    + unfold eaf_reservoir_write, on_ptr. cbn [finished reservoir_zero Reservoir.capacity write_cursor read_cursor Reservoir.storage].
      unfold set_finished, reservoir_zero. cbn [finished Reservoir.capacity write_cursor read_cursor Reservoir.storage].
      case_bool_decide as Hf0; cbn [negb]; [| done]. subst f0. change (u32 (0 - u32 (0 - 0))) with 0.
      assert (Hk : (if decide (0 < frames) then 0 else frames) = 0) by (case_decide; lia). rewrite Hk.
      change (storage_store _ 0 0 src 0 _) with (l ← memcpy [] 0 src 0 0; Some l).
      rewrite memcpy_eq by (try change (zlen (@nil Z)) with 0; lia). reflexivity.
Qed.
End safe.
