(* ===== verification/BoardSession.v ===== *)
(** Sessions of the board output: the transport's calls and the audio thread's
    steps in any interleaving, and the properties of [board_output.c]. *)

From S2P Require Import Prelude Types Reservoir Dsp Graph Nodes Gains BoardOutput BoardSafe.

Section session.
Context {D : Type} `{!BoardHal D} (size_max : Z).
Context (board_sink : option (D -> D * ptr (eaf_sink_ops D))) (board_sink_init : option (D -> D * Z))
  (board_sink_pause : option (D -> bool -> D * Z)).

(** What the transport calls, and the two threads' next accesses.  While a call
    waits inside ([owner] is not idle) the transport makes no other call. *)
Inductive board_op :=
| BInit (config : ptr (eaf_board_output_config_t D))
| BStart (format : ptr eaf_format_t) (ready_frames : Z) (held : bool)
| BReplace (format : ptr eaf_format_t) (ready_frames : Z) (held : bool)
| BStop
| BPause (paused : bool)
| BRelease
| BWrite (samples : list Z) (frames : Z)
| BFinish
| BVolume (left right : Z)
| BOwner
| BAudio.

Definition owner_idle (b : board D) : bool := match owner b with OwnerIdle => true | _ => false end.

(** The application initialises the output before its first stream or between
    streams. *)
Definition board_call (op : board_op) (b : board D) (w : board_world D) : ub (board D * board_world D) :=
  match op with
  | BInit c =>
      if active b then Some (b, w)
      else '(b, (w, _)) ← eaf_board_output_init board_sink board_sink_init board_sink_pause b w c; Some (b, w)
  | BStart f n h => '(b, (w, _)) ← eaf_board_output_start size_max b w f n h; Some (b, w)
  | BReplace f n h => '(b, (w, _)) ← eaf_board_output_replace size_max b w f n h; Some (b, w)
  | BStop => eaf_board_output_stop b w
  | BPause p => let '(b, w, _) := request_pause b w p in Some (b, w)
  | BRelease => let '(b, _) := eaf_board_output_release b in Some (b, w)
  | BWrite l n => '(b, _) ← eaf_board_output_write b (Some l) n; Some (b, w)
  | BFinish => b ← eaf_board_output_finish b; Some (b, w)
  | BVolume l r => let '(b, _) := eaf_board_output_volume b l r in Some (b, w)
  | BOwner | BAudio => Some (b, w)
  end.

Definition board_exec (op : board_op) (b : board D) (w : board_world D) : ub (board D * board_world D) :=
  match op with
  | BAudio => audio_step b w
  | BOwner => let '(b, w, _) := owner_step b w in Some (b, w)
  | _ => if owner_idle b then board_call op b w else Some (b, w)
  end.

Fixpoint board_run (ops : list board_op) (b : board D) (w : board_world D) : ub (board D * board_world D) :=
  match ops with
  | [] => Some (b, w)
  | op :: ops' => '(b, w) ← board_exec op b w; board_run ops' b w
  end.

(** A sink hook delivers a usable sink or NULL. *)
Definition sink_source_ok (f : D -> D * ptr (eaf_sink_ops D)) : Prop :=
  forall d o, (f d).2 = Some o -> device_sink o.

(** The storage is as large as the capacity says, the arguments are in the range
    of their types, and a write passes the frames it announces (in stereo; a mono
    write needs half). *)
Definition board_op_ok (op : board_op) : Prop :=
  match op with
  | BInit (Some c) =>
      is_u32 (cfg_capacity_frames c) /\
      (forall l, cfg_storage c = Some l -> zlen l = cfg_capacity_frames c * 2 /\ Forall is_s32 l) /\
      (exists f, (match cfg_sink c with Some f => Some f | None => board_sink end) = Some f /\ sink_source_ok f)
  | BStart _ n _ | BReplace _ n _ => is_u32 n
  | BWrite l n => 0 <= n /\ n * 2 <= zlen l /\ Forall is_s32 l
  | _ => True
  end.

(** The statics of [board_output.c] as the program is loaded. *)
Definition board_static (sink : eaf_sink_ops D) : board D :=
  Board reservoir_zero pipeline_zero NoStorage 0 sink (-1) None None None 0 gain_cells_init None false
    (BoardFlags 0 0 0 0 0 0 0 0 0 0 0) OwnerIdle.

Definition safe (b : board D) (w : board_world D) : Prop := board_inv b w /\ marked b.

Lemma static_safe sink w : device_sink sink -> up w = [] -> safe (board_static sink) w.
Proof.
  intros Hs Hu. split; [| by intros [? ?]]. apply no_thread; try done.
  split; [by apply zero_inv | done | by exists 0 | cbn; word | done].
Qed.

(** A change of flags, gains and the transport's place in its call. *)
Lemma safe_control b b' w w' :
  safe b w -> same_core b b' -> up w' = up w -> active b' = active b -> audio b' = audio b ->
  (failed (flags b) <> 0 -> failed (flags b') <> 0) -> done (flags b') = done (flags b) ->
  (forall pc, audio b = Some pc -> thread_inv b pc -> running_ok b' pc /\ gate_ok b' pc /\ ack_ok b' pc) ->
  owner_ok b' -> safe b' w'.
Proof.
  intros [[Hc Hi Ht Ho] Hm] Hs Hu Hact Ha Hf Hd Hth Ho'. pose proof Hs as (_ & Hp & _). split; [split|].
  - by eapply core_same.
  - rewrite Hact, Ha, Hp. exact Hi.
  - intros pc Hpc. rewrite Ha in Hpc. destruct (Hth pc Hpc (Ht pc Hpc)) as (? & ? & ?). split; try done.
    rewrite Hd. apply (ti_done _ _ (Ht pc Hpc)).
  - done.
  - unfold marked in *. rewrite Ha, Hp. intros H. destruct (Hm H) as [?|?]; auto.
Qed.

Ltac control := eapply safe_control; [eassumption | by split_and! | done .. | | ].

Lemma pause_safe b w paused :
  safe b w -> owner b = OwnerIdle ->
  let '(b', w', _) := request_pause b w paused in safe b' w'.
Proof.
  intros Hs Ho. unfold request_pause. cbn [flags with_flags run_gate put_request].
  destruct (decide (run_gate (flags b) = 0)) as [Hg|Hg].
  - control.
    + intros pc Ha [Hr Hgt Hack _]. split; [done |]. split; [done |]. intros _. left. split; [done |]. cbn. by rewrite Ho.
    + unfold owner_ok. cbn. by rewrite Ho.
  - destruct (hal_monotonic_time_us (device w)) as [d now]. control.
    + intros pc Ha [Hr Hgt Hack _]. split; [| split; [done |]].
      * destruct Hr as [?|(? & ? & _)]; [by left | congruence].
      * intros Hp. destruct (Hack Hp) as [[? _]|?]; [congruence | by right].
    + cbn. split; [done |]. by intros ->.
Qed.

Lemma release_safe b w :
  safe b w -> owner b = OwnerIdle -> safe (eaf_board_output_release b).1 w.
Proof.
  intros Hs Ho. unfold eaf_board_output_release. destruct (_ || _) eqn:E; [done |].
  apply orb_false_elim in E as [_ Hf%negb_false_iff%bool_decide_eq_true]. cbn [fst].
  pose proof Hs as [_ Hm]. control; [| done].
  intros pc Ha [Hr Hgt Hack _]. split; [| split; [done |]].
  - left. destruct (Hm ltac:(rewrite Ha; by eexists)) as [?|?]; done.
  - intros Hp. destruct (Hack Hp) as [[? _]|?]; [by left | by right].
Qed.

Lemma owner_safe b w : safe b w -> let '(b', w', _) := owner_step b w in safe b' w'.
Proof.
  intros Hs. pose proof Hs as [[_ _ Ht Howner] _]. unfold owner_step, owner_ok in *.
  destruct (owner b) as [|p d|p d|p d|p| |] eqn:Ho; [done | | | | | |].
  - (* OwnerAck *) destruct Howner as [Hg Hreq]. case_decide as Hack; control; try by cbn.
    all: try (intros pc Ha [Hr Hgt Ha' _]; split; [| split; [done |]];
      [destruct Hr as [?|(? & ? & _)]; [by left | congruence]
      | intros Hp; destruct (Ha' Hp) as [[? _]|?]; [congruence | by right]]).
    cbn. split; [done |]. intros ->. split; [by apply Hreq |]. cbn. destruct (audio b) as [pc|] eqn:Ea; [| done].
    destruct (ti_ack _ _ (Ht pc eq_refl)) as [[? _]|Hq]; [congruence | congruence |]. by destruct pc.
  - (* OwnerDone *) destruct Howner as [Hg Hreq]. case_decide as Hdone; control; try by cbn.
    all: try (intros pc Ha [Hr Hgt Ha' _]; split; [| split; [done |]];
      [destruct Hr as [?|(? & ? & _)]; [by left | congruence]
      | intros Hp; destruct (Ha' Hp) as [[? _]|?]; [congruence | by right]]).
    cbn. split; [done |]. intros ->. split; [by apply Hreq |]. cbn. destruct (audio b) as [pc|] eqn:Ea; [| done].
    by rewrite (ti_done _ _ (Ht pc eq_refl) Hdone).
  - (* OwnerClock *) destruct Howner as [Hg Hreq]. destruct (hal_monotonic_time_us (device w)) as [d' now].
    case_decide; control; try by cbn.
    all: intros pc Ha [Hr Hgt Ha' _]; split; [| split; [done |]];
      [destruct Hr as [?|(? & ? & _)]; [by left | congruence]
      | intros Hp; destruct (Ha' Hp) as [[? _]|?]; [congruence | by right]].
  - (* OwnerResult *) destruct Howner as [Hg Hreq]. control; [| by cbn].
    intros pc Ha [Hr Hgt Ha' _]. split; [| split; [done |]].
    + destruct Hr as [?|(? & ? & _)]; [by left | congruence].
    + intros Hp. destruct (Ha' Hp) as [[? _]|?]; [congruence | by right].
  - (* OwnerRelease *) control; [| done]. intros pc Ha [Hr Hgt Ha' _].
    split; [| split; [done | by intros []]]. destruct Hr as [?|(_ & _ & Hx)]; [by left |]. by rewrite Ho in Hx.
  - (* OwnerReleaseGate *) control; [| done]. intros pc Ha [Hr Hgt Ha' _]. split; [| split].
    + destruct Hr as [?|(_ & _ & Hx)]; [by left |]. by rewrite Ho in Hx.
    + intros Hx. discriminate Hx.
    + intros Hp. destruct (Ha' Hp) as [[_ Hx]|?]; [congruence | by right].
Qed.

Lemma init_board_safe b w c :
  safe b w -> active b = false -> board_op_ok (BInit c) -> owner b = OwnerIdle ->
  exists b' w' rc, eaf_board_output_init board_sink board_sink_init board_sink_pause b w c = Some (b', (w', rc)) /\ safe b' w'.
Proof.
  intros [Hinv Hm] Hact Hok Ho. unfold eaf_board_output_init.
  assert (Hno : exists b' w' rc, Some (b, (w, EAF_INVALID)) = Some (b', (w', rc)) /\ safe b' w') by (by exists b, w, EAF_INVALID).
  destruct c as [c|]; [| done]. destruct Hok as (Hcap & Hst & f & Hf & Hsrc).
  destruct (cfg_storage c) as [cells|] eqn:Ecells; [| done]. destruct (_ || _); [done |].
  rewrite Hf. cbn [mbind option_bind]. destruct (f (device w)) as [d o] eqn:Ef.
  destruct (bi_idle _ _ Hinv Hact) as [Ha Hu]. destruct (Hst cells eq_refl) as [Hz H32].
  assert (Hsink : device_sink (match o with Some o => o | None => sink b end)).
  { destruct o as [o|]; [| apply (bi_core _ _ Hinv)]. apply (Hsrc (device w)). by rewrite Ef. }
  assert (Hres : stereo (reservoir b) \/ blank (reservoir b)).
  { pose proof (ci_memory _ _ (bi_core _ _ Hinv)) as Hmem. unfold memory_ok in Hmem.
    destruct (storage b); [by right | apply Hmem | left; apply Hmem]. }
  set (b1 := Board _ _ _ _ _ _ _ _ _ _ _ _ _ _ _).
  assert (Hb1 : forall w', up w' = up w -> safe b1 w').
  { intros w' Hup. split; [| intros [? Hx]; cbn in Hx; congruence]. apply no_thread; try done.
    split; try done.
    apply (pipeline_inv_world up _ w); [apply (bi_core _ _ Hinv) | done]. }
  destruct (match cfg_sink_init c with Some f0 => Some f0 | None => board_sink_init end) as [hook|].
  - destruct (hook d) as [d' rc]. eexists _, _, _. split; [reflexivity | by apply Hb1].
  - eexists _, _, _. split; [reflexivity | by apply Hb1].
Qed.

Lemma write_safe b w l n :
  safe b w -> owner b = OwnerIdle -> board_op_ok (BWrite l n) ->
  exists b' k, eaf_board_output_write b (Some l) n = Some (b', k) /\ safe b' w.
Proof.
  intros [Hinv Hm] Ho (Hn & Hz & Hs). unfold eaf_board_output_write, with_ref.
  assert (Hres : stereo (reservoir b) \/ blank (reservoir b)).
  { pose proof (ci_memory _ _ (bi_core _ _ Hinv)) as Hmem. unfold memory_ok in Hmem.
    destruct (storage b); [by right | apply Hmem | left; apply Hmem]. }
  assert (Hw : forall src k, 0 <= k -> k * 2 <= zlen src -> Forall is_s32 src ->
    exists b' m, ('(r, n) ← ('(p', r) ← eaf_reservoir_write (Some (reservoir b)) (Some src) k; x' ← p'; Some (x', r));
      Some (put_reservoir r b, n)) = Some (b', m) /\ safe b' w).
  { intros src k Hk Hkz Hks. destruct (reservoir_write_spec b src k Hres Hk Hkz Hks)
      as (r & m & -> & _ & H1 & H2 & H3 & H4 & _). cbn [mbind option_bind]. eexists _, _. split; [reflexivity |].
    by apply board_put_reservoir_inv. }
  case_decide; [by apply Hw |].
  set (k := if decide (128 < n) then 128 else n). assert (Hk : 0 <= k <= 128 /\ k <= n) by (unfold k; case_decide; lia).
  case_decide.
  - cbn [mbind option_bind].
    destruct (to_stereo_spec l k ltac:(lia) ltac:(lia) Hs) as (st & -> & Hst & Hsts & _). cbn [mbind option_bind].
    apply Hw; [lia | lia | done].
  - cbn [mbind option_bind]. apply Hw; [lia | | apply Forall_replicate; word].
    change (zlen (replicate 256 0)) with 256. lia.
Qed.

Lemma audio_safe b w :
  safe b w -> exists b' w', audio_step b w = Some (b', w') /\ safe b' w' /\ audio_keeps b b'.
Proof.
  intros [Hinv Hm]. destruct (audio_step_inv b w Hinv) as (b' & w' & Hs & Hinv' & Hk). exists b', w'.
  split; [done |]. split; [| done]. split; [done |]. destruct Hk as (Hp & Hf & _ & _ & _ & _ & _ & Ha).
  intros H. rewrite Hp. destruct (Hm (Ha H)) as [?|?]; auto.
Qed.

Lemma call_safe op b w :
  safe b w -> board_op_ok op -> owner b = OwnerIdle ->
  exists b' w', board_call op b w = Some (b', w') /\ safe b' w'.
Proof.
  intros Hs Hok Ho. pose proof Hs as [Hinv Hm].
  destruct op as [c|f n h|f n h| |p| |l n| |l r| |]; cbn [board_call]; try by exists b, w.
  - destruct (active b) eqn:E; [by exists b, w |].
    destruct (init_board_safe b w c Hs E Hok Ho) as (b' & w' & rc & -> & ?). cbn [mbind option_bind]. eauto.
  - destruct (start_board_spec size_max b w f n h Hinv Hm Ho Hok) as (b' & w' & rc & -> & ? & ? & _).
    cbn [mbind option_bind]. by exists b', w'.
  - destruct (replace_board_spec size_max b w f n h Hinv Hm Ho Hok) as (b' & w' & rc & -> & ? & ? & _).
    cbn [mbind option_bind]. by exists b', w'.
  - destruct (stop_inv_spec b w Hinv Hm Ho) as (b' & w' & -> & ? & ? & _). by exists b', w'.
  - pose proof (pause_safe b w p Hs Ho) as H. destruct (request_pause b w p) as [[b' w'] rc]. eauto.
  - pose proof (release_safe b w Hs Ho) as H. destruct (eaf_board_output_release b) as [b' rc]. eauto.
  - destruct (write_safe b w l n Hs Ho Hok) as (b' & k & -> & ?). cbn [mbind option_bind]. eauto.
  - unfold eaf_board_output_finish, eaf_reservoir_finish. cbn [fmap option_fmap option_map mbind option_bind].
    eexists _, w. split; [reflexivity |]. apply board_put_reservoir_inv; try done.
    + intros [Hwf Hch]. split; [by destruct Hwf | done].
    + intros [f ->]. by exists 1.
  - eexists _, w. split; [reflexivity |]. eapply safe_control; [exact Hs | by split_and! | done .. | |].
    + by intros pc _ [? ? ? _].
    + apply (bi_owner _ _ Hinv).
Qed.

Lemma exec_safe op b w :
  safe b w -> board_op_ok op -> exists b' w', board_exec op b w = Some (b', w') /\ safe b' w'.
Proof.
  intros Hs Hok.
  assert (Hcall : exists b' w', (if owner_idle b then board_call op b w else Some (b, w)) = Some (b', w') /\ safe b' w').
  { unfold owner_idle. destruct (owner b) eqn:Ho; try by exists b, w. by apply call_safe. }
  destruct op; try exact Hcall; cbn [board_exec].
  - pose proof (owner_safe b w Hs) as H. destruct (owner_step b w) as [[b' w'] rc]. eauto.
  - destruct (audio_safe b w Hs) as (b' & w' & ? & ? & _). eauto.
Qed.

Lemma run_safe ops b w :
  safe b w -> Forall board_op_ok ops -> exists b' w', board_run ops b w = Some (b', w') /\ safe b' w'.
Proof.
  intros Hs Hops. revert b w Hs. induction Hops as [|op ops Hop Hops IH]; intros b w Hs; [by exists b, w |].
  cbn [board_run]. destruct (exec_safe op b w Hs Hop) as (b1 & w1 & -> & Hs1). cbn [mbind option_bind]. by apply IH.
Qed.

Lemma run_reaches ops sink w b w' :
  device_sink sink -> up w = [] -> Forall board_op_ok ops -> board_run ops (board_static sink) w = Some (b, w') -> safe b w'.
Proof.
  intros Hd Hu Hops Hrun. destruct (run_safe ops _ w (static_safe sink w Hd Hu) Hops) as (b1 & w1 & H & Hs). congruence.
Qed.

(** [n] steps of the audio thread alone. *)
Definition audio_steps (n : nat) (b : board D) (w : board_world D) : ub (board D * board_world D) :=
  Nat.iter n (fun o : ub (board D * board_world D) => '(b, w) ← o; audio_step b w) (Some (b, w)).

Definition untouched (b b' : board D) (w w' : board_world D) : Prop :=
  pipeline b' = pipeline b /\ reservoir b' = reservoir b /\ process_calls (flags b') = process_calls (flags b) /\
  applied w' = applied w.

Lemma idle_step b w b' w' pc :
  audio b = Some pc -> pc <> AtBlock -> (forall rc, pc <> AtReport rc) -> audio_step b w = Some (b', w') -> untouched b b' w w'.
Proof.
  intros Ha H1 H2. unfold audio_step, run_pause_hook. rewrite Ha. destruct pc; try done;
    try (case_decide; intros [= <- <-]; by split_and!); try (intros [= <- <-]; by split_and!).
  - destruct (sink_pause_hook b) as [hook|]; [destruct (hook (device w) true) as [d rc] |]; cbv beta iota zeta;
      intros [= <- <-]; by split_and!.
  - destruct (sink_pause_hook b) as [hook|]; [destruct (hook (device w) false) as [d rc] |]; cbv beta iota zeta;
      intros [= <- <-]; by split_and!.
  - by destruct (H2 rc).
Qed.

(** States in which the audio thread is kept away from the pipeline. *)
Definition kept_away (b : board D) : Prop := held b \/ run_gate (flags b) = 0.

Lemma away_step b w :
  safe b w -> kept_away b ->
  exists b' w', audio_step b w = Some (b', w') /\ safe b' w' /\ kept_away b' /\ untouched b b' w w'.
Proof.
  intros Hs Hk. pose proof Hs as [[_ _ Ht _] _].
  destruct (audio_safe b w Hs) as (b' & w' & Hstep & Hs' & Hkeep). exists b', w'. split; [done |]. split; [done |].
  destruct Hkeep as (_ & _ & _ & _ & _ & Hg & Hreq & Ha').
  destruct (audio b) as [pc|] eqn:Ha.
  2:{ unfold audio_step in Hstep. rewrite Ha in Hstep. injection Hstep as <- <-. split; [done | by split_and!]. }
  assert (Hpc : pc <> AtBlock /\ forall rc, pc <> AtReport rc).
  { destruct Hk as [[_ Hq]|Hg0].
    - rewrite Ha in Hq. by destruct pc.
    - destruct (ti_gate _ _ (Ht pc eq_refl) Hg0) as [?|[_ ?]]; by destruct pc. }
  destruct Hpc as [H1 H2]. split; [| by eapply idle_step]. destruct Hk as [[Hr Hq]|Hg0]; [left | right; congruence].
  split; [congruence |]. rewrite Ha in Hq. unfold audio_step, run_pause_hook in Hstep. rewrite Ha in Hstep.
  destruct pc; try done; try (case_decide; injection Hstep as <- _; done); try (injection Hstep as <- _; done).
  - destruct (sink_pause_hook b) as [hook|]; [destruct (hook (device w) true) as [d rc] |]; injection Hstep as <- _;
      cbn; by repeat case_decide.
  - destruct (sink_pause_hook b) as [hook|]; [destruct (hook (device w) false) as [d rc] |]; injection Hstep as <- _;
      cbn; by repeat case_decide.
  - injection Hstep as <- _. by rewrite Ha.
Qed.

Lemma away_steps n b w :
  safe b w -> kept_away b -> exists b' w', audio_steps n b w = Some (b', w') /\ safe b' w' /\ kept_away b' /\ untouched b b' w w'.
Proof.
  intros Hs Hk. induction n as [|n IH]; [exists b, w; by split_and! |].
  destruct IH as (b1 & w1 & Hrun & Hs1 & Hk1 & Hu1). unfold audio_steps in *. rewrite Nat.iter_succ, Hrun. cbn [mbind option_bind].
  destruct (away_step b1 w1 Hs1 Hk1) as (b2 & w2 & -> & Hs2 & Hk2 & Hu2). exists b2, w2. split; [done |].
  split; [done |]. split; [done |]. destruct Hu1 as (? & ? & ? & ?), Hu2 as (? & ? & ? & ?). split_and!; congruence.
Qed.
End session.

(** ** A small board for the witnesses: the device is a clock *)
#[export] Instance demo_hal : BoardHal Z :=
  { hal_thread_create_with_options d _ := (d, 0); hal_thread_join d := (d, 0);
    hal_monotonic_time_us d := (d, d); hal_sleep_ms d ms := d + ms * 1000 }.
Definition demo_board_sink : eaf_sink_ops Z :=
  SinkOps (Some (fun d _ _ => Some (d, 0))) (Some (fun d => Some (d, 0))) (Some (fun d => Some (d, 0)))
    (Some (fun d => Some (d, Some (Buffer 16 0 128 256 format_zero 0, replicate 256 0), 0)))
    (Some (fun d _ => Some (d, 0))) (Some (fun d => Some (d, 0))).
Definition demo_source (d : Z) : Z * ptr (eaf_sink_ops Z) := (d, None).
Definition demo_board_config : eaf_board_output_config_t Z :=
  BoardConfig (-1) (Some (replicate 512 0)) 256 None None None None.
Definition demo_board_world : board_world Z := BoardWorld 0 (INT32_MAX, INT32_MAX) [].
(** Play 200 frames, pause while a block may be under way, wait for the answer. *)
Definition demo_board_ops : list board_op :=
  [BInit (Some demo_board_config); BStart (Some (Format 48000 2 3)) 128 false; BWrite (replicate 400 64) 200] ++
  replicate 6 BAudio ++ [BPause true] ++ replicate 6 BAudio ++ [BOwner].

Lemma demo_board_sink_ok : device_sink demo_board_sink.
Proof.
  split; (eexists; split; [reflexivity |]); intros; try (by repeat eexists).
  do 3 eexists. split; [reflexivity |]. split; [done |]. intros buf cells [= <- <-].
  split; [by vm_compute | apply (zeros_s32 256)].
Qed.

Lemma demo_board_ops_ok : Forall (board_op_ok (D := Z) (Some demo_source)) demo_board_ops.
Proof.
  unfold demo_board_ops. apply Forall_app_2; [| apply Forall_app_2; [by apply Forall_replicate |]; apply Forall_cons_2;
    [done |]; apply Forall_app_2; [by apply Forall_replicate | by apply Forall_cons_2]].
  repeat apply Forall_cons_2; try apply Forall_nil_2;
    cbn [board_op_ok cfg_sink cfg_storage cfg_capacity_frames demo_board_config].
  - split; [word |]. split; [intros l [= <-]; split; [done | apply (zeros_s32 512)] |].
    exists demo_source. split; [done |]. intros d o [=].
  - word.
  - split; [lia |]. split; [by vm_compute | apply Forall_replicate; word].
Qed.

(** ** Properties *)

(** C24: Every session of the board output is safe: for any sequence of the
    transport's calls, any interleaving with the audio thread, any sink hook, any
    result of the operating system, no call accesses memory it must not or
    divides by zero, and every call returns.  The nodes initialised and not released
    are exactly the pipeline's; while inactive there is no audio thread, no
    pipeline and no initialised node; the thread gets to a block only with
    the gate open and the pipeline running; and while the gate is closed it has
    not left its gate unless told to quit. *)
Theorem board_session_safe {D} `{!BoardHal D} (size_max : Z)
    (board_sink : option (D -> D * ptr (eaf_sink_ops D))) (init_hook : option (D -> D * Z))
    (pause_hook : option (D -> bool -> D * Z)) (sink : eaf_sink_ops D) (w : board_world D) (ops : list board_op) :
  device_sink sink -> up w = [] -> Forall (board_op_ok board_sink) ops ->
  exists b' w', board_run size_max board_sink init_hook pause_hook ops (board_static sink) w = Some (b', w') /\
    up w' = stack (initialized_nodes (pipeline b')) /\
    (active b' = false -> audio b' = None /\ pstate (pipeline b') = EAF_UNINITIALIZED /\ up w' = []) /\
    (audio b' = Some AtBlock -> pstate (pipeline b') = EAF_RUNNING /\ run_gate (flags b') <> 0) /\
    (forall pc, audio b' = Some pc -> run_gate (flags b') = 0 -> quit (flags b') = 0 -> pc = AtGate \/ pc = AtGateQuit).
Proof.
  intros Hs Hu Hops.
  destruct (run_safe size_max board_sink init_hook pause_hook ops _ w (static_safe sink w Hs Hu) Hops)
    as (b' & w' & -> & [[Hc Hi Ht _] _]).
  exists b', w'. pose proof (ci_graph _ _ Hc) as Hg. split; [done |]. split; [apply Hg |]. split; [| split].
  - intros Hact. destruct (Hi Hact) as [? Hun]. split_and!; try done.
    destruct (pl_fresh _ _ _ Hg Hun) as (Hn & _). by rewrite (pl_live _ _ _ Hg), Hn.
  - intros Ha. by apply (working_runs b' AtBlock (Ht _ Ha)).
  - intros pc Ha Hgate Hq. destruct (ti_gate _ _ (Ht pc Ha) Hgate) as [?|[? _]]; [| done]. destruct pc; auto; done.
Qed.

Lemma board_session_safe_witness :
  exists b' w', board_run UINT32_MAX (Some demo_source) None None demo_board_ops (board_static demo_board_sink) demo_board_world
      = Some (b', w') /\ up w' = stack (initialized_nodes (pipeline b')).
Proof.
  destruct (board_session_safe UINT32_MAX (Some demo_source) None None demo_board_sink demo_board_world demo_board_ops)
    as (b' & w' & H1 & H2 & _); [apply demo_board_sink_ok | reflexivity | apply demo_board_ops_ok |].
  exists b', w'. split; [exact H1 | exact H2].
Defined.

(** C25: A pause holds.  When [eaf_board_output_pause(true)] is about to report the
    audio thread's answer (or while the gate is still closed), the audio thread
    alone, for however many steps, processes no block: it touches neither the
    pipeline nor the reservoir nor the gains until the transport calls again. *)
Theorem board_pause_holds {D} `{!BoardHal D} (size_max : Z)
    (board_sink : option (D -> D * ptr (eaf_sink_ops D))) (init_hook : option (D -> D * Z))
    (pause_hook : option (D -> bool -> D * Z)) (sink : eaf_sink_ops D) (w0 w : board_world D) (ops : list board_op)
    (b : board D) (n : nat) :
  device_sink sink -> up w0 = [] -> Forall (board_op_ok board_sink) ops ->
  board_run size_max board_sink init_hook pause_hook ops (board_static sink) w0 = Some (b, w) ->
  owner b = OwnerResult true \/ run_gate (flags b) = 0 ->
  exists b' w', audio_steps n b w = Some (b', w') /\ pipeline b' = pipeline b /\ reservoir b' = reservoir b /\
    process_calls (flags b') = process_calls (flags b) /\ applied w' = applied w.
Proof.
  intros Hs Hu Hops Hrun Hp. pose proof (run_reaches _ _ _ _ _ _ _ _ _ Hs Hu Hops Hrun) as Hsafe.
  destruct (away_steps n b w Hsafe) as (b' & w' & ? & _ & _ & ?); [| by exists b', w'].
  destruct Hp as [Ho|Hg]; [left | by right]. pose proof (bi_owner _ _ (proj1 Hsafe)) as Hok.
  unfold owner_ok in Hok. rewrite Ho in Hok. by apply Hok.
Qed.

(** In the session of the witnesses the pause meets the thread between two
    blocks, and is answered. *)
Lemma demo_paused :
  (r ← board_run UINT32_MAX (Some demo_source) None None demo_board_ops (board_static demo_board_sink) demo_board_world;
   Some (owner (fst r), audio (fst r), process_calls (flags (fst r)), frames_read (reservoir (fst r))))
  = Some (OwnerResult true, Some AtPausedQuit, 1, 128).
Proof. vm_compute. reflexivity. Qed.

Lemma board_pause_holds_witness :
  exists b w b' w', board_run UINT32_MAX (Some demo_source) None None demo_board_ops (board_static demo_board_sink)
      demo_board_world = Some (b, w) /\ audio_steps 50 b w = Some (b', w') /\ reservoir b' = reservoir b.
Proof.
  destruct (run_safe UINT32_MAX (Some demo_source) None None demo_board_ops _ demo_board_world
    (static_safe demo_board_sink demo_board_world demo_board_sink_ok eq_refl) demo_board_ops_ok) as (b & w & Hrun & _).
  destruct (board_pause_holds UINT32_MAX (Some demo_source) None None demo_board_sink demo_board_world w demo_board_ops b 50)
    as (b' & w' & H1 & _ & H2 & _);
    [apply demo_board_sink_ok | reflexivity | apply demo_board_ops_ok | exact Hrun | |].
  - left. pose proof demo_paused as H. rewrite Hrun in H. cbn [mbind option_bind fst] in H. congruence.
  - exists b, w, b', w'. split; [exact Hrun |]. split; [exact H1 | exact H2].
Defined.

(** C26: Teardown terminates and reclaims.  Whatever the audio thread is doing,
    [eaf_board_output_stop] returns: told to quit, the thread ends within 12 of its
    steps, be it at the gate, paused or inside a block.  Afterwards either the
    output is inactive, with no thread, an empty pipeline and every node released,
    or the failure is marked and nothing was given up that is still in use. *)
Theorem board_stop_reclaims {D} `{!BoardHal D} (size_max : Z)
    (board_sink : option (D -> D * ptr (eaf_sink_ops D))) (init_hook : option (D -> D * Z))
    (pause_hook : option (D -> bool -> D * Z)) (sink : eaf_sink_ops D) (w0 w : board_world D) (ops : list board_op)
    (b : board D) :
  device_sink sink -> up w0 = [] -> Forall (board_op_ok board_sink) ops ->
  board_run size_max board_sink init_hook pause_hook ops (board_static sink) w0 = Some (b, w) ->
  owner b = OwnerIdle -> active b = true ->
  (forall pc, audio b = Some pc -> exists b' w', run_audio QUIT_STEPS (with_flags (put_quit 1) b) w = Some (b', w') /\
     audio b' = Some AtReturn) /\
  exists b' w', eaf_board_output_stop b w = Some (b', w') /\
    (active b' = false /\ audio b' = None /\ pipeline b' = pipeline_zero /\ up w' = [] \/
     active b' = true /\ failed (flags b') <> 0 /\ up w' = stack (initialized_nodes (pipeline b'))).
Proof.
  intros Hs Hu Hops Hrun Ho Hact. destruct (run_reaches _ _ _ _ _ _ _ _ _ Hs Hu Hops Hrun) as [Hinv Hm]. split.
  - intros pc Ha. destruct (run_audio_quits QUIT_STEPS (with_flags (put_quit 1) b) w pc) as (b' & w' & ? & _ & ? & _).
    + destruct Hinv as [Hc Hi Ht Ho']. split; [by apply core_flags | exact Hi | | done].
      intros pc' Ha'. destruct (Ht pc' Ha') as [Hr Hg Hk Hd]. split; try done.
      * destruct Hr as [?|(? & ? & ?)]; [by left | by right].
      * intros H0. destruct (Hg H0) as [?|[_ ?]]; [by left | by right].
    + done.
    + done.
    + destruct pc; cbn; unfold QUIT_STEPS; lia.
    + by exists b', w'.
  - destruct (stop_spec b w (bi_core _ _ Hinv) Ho Hact) as (b' & w' & -> & Hinv' & _ & _ & _ & Htd).
    + intros pc Ha. destruct (bi_thread _ _ Hinv pc Ha) as [Hr ? ? ?]. split_and!; try done.
      destruct Hr as [?|(? & ? & ?)]; [by left | by right].
    + exists b', w'. split; [done |]. destruct Htd as [?|(H1 & ? & _)]; [by left | right].
      rewrite H1, Hact. split_and!; try done. apply (ci_graph _ _ (bi_core _ _ Hinv')).
Qed.

(** The same session, its pause answered. *)
Definition demo_board_answered : list board_op := demo_board_ops ++ [BOwner].
Lemma demo_answered :
  (r ← board_run UINT32_MAX (Some demo_source) None None demo_board_answered (board_static demo_board_sink) demo_board_world;
   Some (owner (fst r), audio (fst r), active (fst r))) = Some (OwnerIdle, Some AtPausedQuit, true).
Proof. vm_compute. reflexivity. Qed.
Lemma demo_answered_ok : Forall (board_op_ok (D := Z) (Some demo_source)) demo_board_answered.
Proof. apply Forall_app_2; [apply demo_board_ops_ok | by apply Forall_cons_2]. Qed.

Lemma board_stop_reclaims_witness :
  exists b w b' w', board_run UINT32_MAX (Some demo_source) None None demo_board_answered (board_static demo_board_sink)
      demo_board_world = Some (b, w) /\ eaf_board_output_stop b w = Some (b', w').
Proof.
  destruct (run_safe UINT32_MAX (Some demo_source) None None demo_board_answered _ demo_board_world
    (static_safe demo_board_sink demo_board_world demo_board_sink_ok eq_refl) demo_answered_ok) as (b & w & Hrun & _).
  pose proof demo_answered as Ha. rewrite Hrun in Ha. cbn [mbind option_bind fst] in Ha.
  destruct (board_stop_reclaims UINT32_MAX (Some demo_source) None None demo_board_sink demo_board_world w
    demo_board_answered b) as (_ & b' & w' & H1 & _);
    [apply demo_board_sink_ok | reflexivity | apply demo_answered_ok | exact Hrun | congruence | congruence |].
  exists b, w, b', w'. split; [exact Hrun | exact H1].
Defined.

(** What a start leaves behind.  On an idle output a start either succeeds,
    then the stream runs with an empty reservoir, fresh counters and the gate open
    exactly when it is not held; or it fails, then the pipeline is empty again and
    every node released, or, when even that failed, the output stays active with
    the failure marked; a refused start changes nothing. *)
Theorem board_start_outcome {D} `{!BoardHal D} (size_max : Z)
    (board_sink : option (D -> D * ptr (eaf_sink_ops D))) (init_hook : option (D -> D * Z))
    (pause_hook : option (D -> bool -> D * Z)) (sink : eaf_sink_ops D) (w0 w : board_world D) (ops : list board_op)
    (b : board D) (format : ptr eaf_format_t) (ready : Z) (held : bool) :
  device_sink sink -> up w0 = [] -> Forall (board_op_ok board_sink) ops ->
  board_run size_max board_sink init_hook pause_hook ops (board_static sink) w0 = Some (b, w) ->
  owner b = OwnerIdle -> active b = false -> is_u32 ready ->
  exists b' w' rc, eaf_board_output_start size_max b w format ready held = Some (b', (w', rc)) /\
    (rc = EAF_OK -> active b' = true /\ audio b' = Some AtGate /\ pstate (pipeline b') = EAF_RUNNING /\
       flags b' = put_gate (if held then 0 else 1) fresh_flags /\ res_frames (reservoir b') = []) /\
    (rc <> EAF_OK -> b' = b \/
       active b' = false /\ audio b' = None /\ pipeline b' = pipeline_zero /\ up w' = [] \/
       active b' = true /\ failed (flags b') <> 0).
Proof.
  intros Hs Hu Hops Hrun Ho Hact Hr. destruct (run_reaches _ _ _ _ _ _ _ _ _ Hs Hu Hops Hrun) as [Hinv Hm].
  unfold eaf_board_output_start. rewrite Hact.
  destruct (start_fresh_spec size_max b w format ready held Hinv Hm Ho Hr) as (b' & w' & rc & -> & _ & _ & _ & Hok & Hbad).
  exists b', w', rc. split; [done |]. split; [done |]. intros Hrc.
  destruct (Hbad Hrc) as [?|[([H|H] & ? & ? & ?)|?]]; [by left | | | by right; right]; right; left; split_and!; congruence.
Qed.

Lemma board_start_outcome_witness :
  exists b w b' w' rc, board_run UINT32_MAX (Some demo_source) None None [BInit (Some demo_board_config)]
      (board_static demo_board_sink) demo_board_world = Some (b, w) /\
    eaf_board_output_start UINT32_MAX b w (Some (Format 44100 1 8)) 0 true = Some (b', (w', rc)) /\
    (rc = EAF_OK -> active b' = true).
Proof.
  assert (Hops : Forall (board_op_ok (D := Z) (Some demo_source)) [BInit (Some demo_board_config)]).
  { apply Forall_cons_2; [| constructor]. exact (proj1 (proj1 (List.Forall_cons_iff _ _ _) demo_board_ops_ok)). }
  eexists _, _.
  destruct (board_start_outcome UINT32_MAX (Some demo_source) None None demo_board_sink demo_board_world
    (BoardWorld 0 (INT32_MAX, INT32_MAX) []) [BInit (Some demo_board_config)] _ (Some (Format 44100 1 8)) 0 true
    demo_board_sink_ok eq_refl Hops eq_refl eq_refl eq_refl ltac:(split; done)) as (b' & w' & rc & H1 & H2 & _).
  exists b', w', rc. split; [reflexivity |]. split; [exact H1 |]. intros Hok. apply (H2 Hok).
Defined.

(** Mono writes: of a mono stream at most 128 frames are taken at a time, and
    the reservoir receives every accepted sample twice, as a stereo frame, after
    what it already held. *)
Theorem board_write_mono {D} `{!BoardHal D} (b : board D) (samples : list Z) (frames : Z) :
  input_channels b = 1 -> stereo (reservoir b) -> finished (reservoir b) = 0 -> 0 <= frames ->
  Z.min frames 128 <= zlen samples -> Forall is_s32 samples ->
  exists b' k l, eaf_board_output_write b (Some samples) frames = Some (b', k) /\ 0 <= k <= Z.min frames 128 /\
    k = Z.min (Z.min frames 128) (Reservoir.capacity (reservoir b) - level (reservoir b)) /\
    res_frames (reservoir b') = res_frames (reservoir b) ++ l /\ zlen l = k * 2 /\
    (forall i, 0 <= i < k -> ld l (2 * i) = ld samples i /\ ld l (2 * i + 1) = ld samples i).
Proof.
  intros Hin [Hwf Hch] Hfin Hf Hz Hs. unfold eaf_board_output_write. rewrite Hin. cbn [decide].
  rewrite decide_False by done.
  replace (if decide (128 < frames) then 128 else frames) with (Z.min frames 128) by (case_decide; lia).
  set (n := Z.min frames 128) in *.
  assert (Hst : exists st, (if decide (0 < n) then l ← Some samples; to_stereo l n else Some (replicate 256 0)) = Some st /\
    zlen st = 256 /\ Forall is_s32 st /\ forall i, 0 <= i < n -> ld st (2 * i) = ld samples i /\ ld st (2 * i + 1) = ld samples i).
  { case_decide; cbn [mbind option_bind]; [apply to_stereo_spec; [unfold n; lia | lia | done] |].
    eexists. split; [reflexivity |]. split; [done |]. split; [apply (zeros_s32 256) | lia]. }
  destruct Hst as (st & -> & Hzs & Hss & Hsame). cbn [mbind option_bind]. unfold with_ref.
  destruct (res_write_spec (reservoir b) st n Hwf ltac:(unfold n; lia) ltac:(rewrite Hch, Hzs; unfold n; lia) Hss Hfin)
    as (l & -> & _ & Hres). cbn [mbind option_bind]. pose proof (level_range _ Hwf).
  set (k := Z.min n (Reservoir.capacity (reservoir b) - level (reservoir b))) in *.
  assert (Hk : 0 <= k <= n) by (unfold k, n in *; lia).
  eexists _, k, (slice st 0 (k * 2)). split; [reflexivity |]. split; [done |]. split; [done |].
  split; [cbn [reservoir put_reservoir set_graph]; by rewrite Hres, Hch |].
  split; [apply zlen_slice; unfold n in *; lia |]. intros i Hi. destruct (Hsame i ltac:(lia)) as [H1 H2].
  assert (Hin' : forall j, 0 <= j < k * 2 -> ld (slice st 0 (k * 2)) j = ld st j).
  { intros j Hj. rewrite !ld_lookup by lia. apply lookup_slice. lia. }
  rewrite !Hin' by lia. by split.
Qed.

(** A mono stream, started. *)
Definition demo_mono_ops : list board_op :=
  [BInit (Some demo_board_config); BStart (Some (Format 48000 1 1)) 128 false].
Lemma demo_mono_ops_ok : Forall (board_op_ok (D := Z) (Some demo_source)) demo_mono_ops.
Proof.
  apply Forall_cons_2; [exact (proj1 (proj1 (List.Forall_cons_iff _ _ _) demo_board_ops_ok)) |].
  apply Forall_cons_2; [cbn; word | constructor].
Qed.
Lemma demo_mono :
  (r ← board_run UINT32_MAX (Some demo_source) None None demo_mono_ops (board_static demo_board_sink) demo_board_world;
   Some (input_channels (fst r), finished (reservoir (fst r)), pstate (pipeline (fst r)))) = Some (1, 0, EAF_RUNNING).
Proof. vm_compute. reflexivity. Qed.

Lemma board_write_mono_witness :
  exists b w b' k, board_run UINT32_MAX (Some demo_source) None None demo_mono_ops (board_static demo_board_sink)
      demo_board_world = Some (b, w) /\
    eaf_board_output_write b (Some (replicate 200 64)) 200 = Some (b', k) /\ k <= 128.
Proof.
  destruct (run_safe UINT32_MAX (Some demo_source) None None demo_mono_ops _ demo_board_world
    (static_safe demo_board_sink demo_board_world demo_board_sink_ok eq_refl) demo_mono_ops_ok) as (b & w & Hrun & Hs).
  pose proof demo_mono as Hd. rewrite Hrun in Hd. cbn [mbind option_bind fst] in Hd.
  destruct (board_write_mono b (replicate 200 64) 200) as (b' & k & l & H1 & H2 & _).
  - congruence.
  - pose proof (bi_core _ _ (proj1 Hs)) as Hc. pose proof (ci_memory _ _ Hc) as Hm. unfold memory_ok in Hm.
    rewrite (proj2 (ci_config _ _ Hc ltac:(intros E; rewrite E in Hd; discriminate))) in Hm. apply Hm.
  - congruence.
  - lia.
  - vm_compute. discriminate.
  - apply Forall_replicate. word.
  - exists b, w, b', k. split; [exact Hrun |]. split; [exact H1 |]. lia.
Defined.
