(* ===== verification/BtEspIdf.v ===== *)
(** The A2DP binding to Bluedroid: [hal/esp_idf/bt_a2dp_esp_idf.c],
    [include/eaf/eaf_bt_esp_idf.h].  The values of the stack's constants and the
    answers of its calls are parameters. *)

From S2P Require Import Prelude Types Bytes BtIngress.

(** ** What the stack's headers define *)

(** [esp_a2d_cie_sbc_t] and [esp_a2d_mcc_t]. *)
Record esp_a2d_cie_sbc_t := CieSbc {
  samp_freq : Z; ch_mode : Z; block_len : Z; num_subbands : Z; alloc_mthd : Z; min_bitpool : Z; max_bitpool : Z
}.
Record esp_a2d_mcc_t := Mcc { mcc_type : Z; sbc_info : esp_a2d_cie_sbc_t }.

(** The constants [ESP_A2D_...]: the sampling frequencies and the channel modes are
    bit masks. *)
Class A2dpConstants := {
  ESP_A2D_MCT_SBC : Z;
  CIE_SF_44K : Z; CIE_SF_48K : Z; CIE_CH_MODE_STEREO : Z; CIE_CH_MODE_JOINT_STEREO : Z;
  CIE_BLOCK_LEN_16 : Z; CIE_NUM_SUBBANDS_8 : Z; CIE_ALLOC_MTHD_LOUDNESS : Z;
}.

(** The calls the binding makes on the stack; each returns an [esp_err_t]. *)
Inductive a2d_request :=
| RegisterCallback
| SinkInit
| RegisterEndpoint (mcc : esp_a2d_mcc_t)
| RegisterAudioData
| SinkDisconnect (peer : list Z).
Class A2dpStack (D : Type) := { a2d_call : a2d_request -> D -> D * Z }.
#[global] Hint Mode A2dpStack ! : typeclass_instances.
Definition ESP_OK : Z := 0.

(** [esp_a2d_audio_buff_t] *)
Record audio_buff := AudioBuff { number_frame : Z; buff_timestamp : Z; buff_data : ptr (list Z); data_len : Z }.

(** The stack's events with the part of their parameters the binding reads. *)
Inductive conn_state := ConnConnected | ConnConnecting | ConnOther.
#[global] Instance conn_state_eq_dec : EqDecision conn_state.
Proof. solve_decision. Defined.
Inductive a2d_event :=
| SepRegState (success : bool)
| ConnectionState (st : conn_state) (remote_bda : list Z)
| AudioCfg (mcc : esp_a2d_mcc_t)
| AudioState (started : bool)
| OtherA2dEvent.

(** ** State *)

Inductive eaf_bt_esp_idf_event_t :=
| EAF_BT_CONNECTED | EAF_BT_DISCONNECTED | EAF_BT_CONFIGURED | EAF_BT_STARTED | EAF_BT_SUSPENDED | EAF_BT_RELEASED.

Record eaf_bt_esp_idf_status_t := LinkStatus {
  peer : list Z; ready : bool; connected : bool; connecting : bool; link_streaming : bool
}.
Definition status_zero : eaf_bt_esp_idf_status_t := LinkStatus (replicate 6 0) false false false false.

Section binding.
Context `{!A2dpConstants}.

Record eaf_bt_codec_desc_t := CodecDesc {
  media_type : Z;
  fill_caps : Z -> esp_a2d_mcc_t;
  accepts : esp_a2d_mcc_t -> Z -> bool
}.

Definition wanted_sf (sample_rate : Z) : Z := if decide (sample_rate = 48000) then CIE_SF_48K else CIE_SF_44K.

Definition sbc_fill_caps (sample_rate : Z) : esp_a2d_mcc_t :=
  Mcc ESP_A2D_MCT_SBC
    (CieSbc (wanted_sf sample_rate) (Z.lor CIE_CH_MODE_STEREO CIE_CH_MODE_JOINT_STEREO) CIE_BLOCK_LEN_16
       CIE_NUM_SUBBANDS_8 CIE_ALLOC_MTHD_LOUDNESS 2 53).

Definition sbc_accepts (mcc : esp_a2d_mcc_t) (sample_rate : Z) : bool :=
  if decide (mcc_type mcc <> ESP_A2D_MCT_SBC) then false
  else
    let sbc := sbc_info mcc in
    bool_decide (Z.land (samp_freq sbc) (wanted_sf sample_rate) <> 0) &&
    bool_decide (Z.land (ch_mode sbc) (Z.lor CIE_CH_MODE_STEREO CIE_CH_MODE_JOINT_STEREO) <> 0) &&
    bool_decide (block_len sbc = CIE_BLOCK_LEN_16) && bool_decide (num_subbands sbc = CIE_NUM_SUBBANDS_8) &&
    bool_decide (alloc_mthd sbc = CIE_ALLOC_MTHD_LOUDNESS) && bool_decide (2 <= min_bitpool sbc) &&
    bool_decide (max_bitpool sbc <= 53) && bool_decide (min_bitpool sbc <= max_bitpool sbc).

Definition eaf_bt_codec_table : list eaf_bt_codec_desc_t := [CodecDesc ESP_A2D_MCT_SBC sbc_fill_caps sbc_accepts].

(** The file's [state]; [notify] with its [ctx] is known to be set or NULL, what it
    is told is a result of the callbacks. *)
Record a2d_state := A2dState {
  ingress : ptr eaf_bt_ingress_t;
  notify : bool;
  codec : ptr eaf_bt_codec_desc_t;
  sample_rate : Z;
  next_sequence : Z;              (* uint16_t sequence *)
  registered : bool;
  configured : bool;
  streaming : bool;
  status : eaf_bt_esp_idf_status_t;
  staging : list Z                (* uint8_t staging[1 + EAF_BT_PACKET_BYTES] *)
}.
Definition state_zero : a2d_state :=
  A2dState None false None 0 0 false false false status_zero (replicate (Z.to_nat (1 + EAF_BT_PACKET_BYTES)) 0).

Definition set_ingress (q : ptr eaf_bt_ingress_t) (s : a2d_state) : a2d_state :=
  A2dState q (notify s) (codec s) (sample_rate s) (next_sequence s) (registered s) (configured s) (streaming s)
    (status s) (staging s).
Definition set_flow (conf str : bool) (s : a2d_state) : a2d_state :=
  A2dState (ingress s) (notify s) (codec s) (sample_rate s) (next_sequence s) (registered s) conf str
    (status s) (staging s).
Definition set_status (st : eaf_bt_esp_idf_status_t) (s : a2d_state) : a2d_state :=
  A2dState (ingress s) (notify s) (codec s) (sample_rate s) (next_sequence s) (registered s) (configured s)
    (streaming s) st (staging s).
Definition set_staging (l : list Z) (n : Z) (s : a2d_state) : a2d_state :=
  A2dState (ingress s) (notify s) (codec s) (sample_rate s) n (registered s) (configured s) (streaming s)
    (status s) l.
Definition set_registered (s : a2d_state) : a2d_state :=
  A2dState (ingress s) (notify s) (codec s) (sample_rate s) (next_sequence s) true (configured s) (streaming s)
    (status s) (staging s).

Definition flag_break (q : eaf_bt_ingress_t) : eaf_bt_ingress_t :=
  BtIngress (slots q) (read_cursor q) (write_cursor q) (dropped q) (expected_sequence q) (have_sequence q) true.
(** [if (state.ingress) state.ingress->discontinuity = true;] *)
Definition mark_break (s : a2d_state) : a2d_state := set_ingress (flag_break <$> ingress s) s.

Definition eaf_bt_esp_idf_status (s : a2d_state) (out : ptr eaf_bt_esp_idf_status_t) : ptr eaf_bt_esp_idf_status_t :=
  match out with None => None | Some _ => Some (status s) end.

Definition emit (s : a2d_state) (event : eaf_bt_esp_idf_event_t) : list eaf_bt_esp_idf_event_t :=
  if notify s then [event] else [].

(** ** Callbacks *)

(** The return code of the ingress is discarded by the code; it is a result here.
    The buffer is freed in every case but NULL: the flag. *)
Definition audio_data_cb (s : a2d_state) (buf : ptr audio_buff) : ub (a2d_state * (option Z * bool)) :=
  match buf with
  | None => Some (s, (None, false))
  | Some b =>
      if streaming s && bool_decide (is_Some (buff_data b)) && bool_decide (number_frame b <> 0) &&
         bool_decide (number_frame b <= 15) && bool_decide (data_len b <= EAF_BT_PACKET_BYTES)
      then
        data ← buff_data b;
        l ← st (staging s) 0 (Z.land (number_frame b) 15);
        l ← memcpy l 1 data 0 (data_len b);
        let sequence := next_sequence s in
        let s := set_staging l (u16 (sequence + 1)) s in
        '(q, rc) ← eaf_bt_sbc_receive (ingress s) sequence (buff_timestamp b) (Some (staging s)) (data_len b + 1);
        Some (set_ingress q s, (Some rc, true))
      else Some (s, (None, true))
  end.

Definition link_changed (conn : conn_state) (bda : list Z) (st : eaf_bt_esp_idf_status_t)
  : ub eaf_bt_esp_idf_status_t :=
  p ← memcpy (peer st) 0 bda 0 6;
  Some (LinkStatus p (ready st) (bool_decide (conn = ConnConnected)) (bool_decide (conn = ConnConnecting)) false).

Definition stream_changed (x : bool) (st : eaf_bt_esp_idf_status_t) : eaf_bt_esp_idf_status_t :=
  LinkStatus (peer st) (ready st) (connected st) (connecting st) x.

Definition a2d_cb (s : a2d_state) (event : a2d_event) : ub (a2d_state * list eaf_bt_esp_idf_event_t) :=
  match event with
  | SepRegState success =>
      let st := status s in
      Some (set_status (LinkStatus (peer st) success (connected st) (connecting st) (link_streaming st)) s, [])
  | ConnectionState conn bda =>
      let s := set_flow (configured s && bool_decide (conn = ConnConnected)) false s in
      let s := mark_break s in
      st ← link_changed conn bda (status s);
      let s := set_status st s in
      Some (s, emit s (if decide (conn = ConnConnected) then EAF_BT_CONNECTED else EAF_BT_DISCONNECTED))
  | AudioCfg mcc =>
      c ← codec s;
      let s := set_flow (accepts c mcc (sample_rate s)) false s in
      let s := mark_break s in
      let s := set_status (stream_changed false (status s)) s in
      Some (s, emit s (if configured s then EAF_BT_CONFIGURED else EAF_BT_RELEASED))
  | AudioState started =>
      let s := mark_break (set_flow (configured s) started s) in
      let s := set_status (stream_changed (streaming s) (status s)) s in
      Some (s, emit s (if streaming s then EAF_BT_STARTED else EAF_BT_SUSPENDED))
  | OtherA2dEvent => Some (s, [])
  end.

(** ** Calls *)

Context {D : Type} `{!A2dpStack D}.

Definition eaf_bt_esp_idf_disconnect (s : a2d_state) (d : D) : D * Z :=
  if negb (connected (status s)) && negb (connecting (status s)) then (d, EAF_STATE)
  else
    let '(d, rc) := a2d_call (SinkDisconnect (peer (status s))) d in
    (d, if decide (rc = ESP_OK) then EAF_OK else EAF_IO).

Definition call_or_io {R} (request : a2d_request) (d : D) (io : D -> R) (k : D -> R) : R :=
  let '(d, rc) := a2d_call request d in if decide (rc <> ESP_OK) then io d else k d.

Definition eaf_bt_esp_idf_register (s : a2d_state) (d : D) (queue : ptr eaf_bt_ingress_t) (rate : Z) (has_notify : bool)
  : ub (a2d_state * D * Z) :=
  if bool_decide (queue = None) || negb has_notify || (bool_decide (rate <> 44100) && bool_decide (rate <> 48000))
  then Some (s, d, EAF_INVALID)
  else if registered s then Some (s, d, EAF_STATE)
  else
    c ← ld eaf_bt_codec_table 0;
    let s := A2dState queue has_notify (Some c) rate 1 (registered s) (configured s) (streaming s) (status s) (staging s) in
    let io d := Some (s, d, EAF_IO) in
    call_or_io RegisterCallback d io (fun d =>
    call_or_io SinkInit d io (fun d =>
    call_or_io (RegisterEndpoint (fill_caps c rate)) d io (fun d =>
    call_or_io RegisterAudioData d io (fun d => Some (set_registered s, d, EAF_OK))))).
End binding.

(** ** Sessions

    The stack's callback task and the decode worker, which takes packets; [o] is the
    worker's scratch packet. *)
Inductive a2d_op := Media (b : audio_buff) | Event (e : a2d_event) | Fetched.

Definition a2d_exec {C : A2dpConstants} (op : a2d_op) (s : a2d_state) (o : eaf_bt_packet_t)
  : ub (a2d_state * eaf_bt_packet_t * list Z * list packet * list eaf_bt_esp_idf_event_t) :=
  match op with
  | Media b => '(s, (rc, _)) ← audio_data_cb s (Some b); Some (s, o, option_list rc, [], [])
  | Event e => '(s, es) ← a2d_cb s e; Some (s, o, [], [], es)
  | Fetched =>
      '(q, (o', got)) ← eaf_bt_ingress_pop (ingress s) (Some o);
      o ← o'; Some (set_ingress q s, o, [], if got : bool then [view o] else [], [])
  end.

Fixpoint a2d_run {C : A2dpConstants} (ops : list a2d_op) (s : a2d_state) (o : eaf_bt_packet_t)
  : ub (a2d_state * list Z * list packet * list eaf_bt_esp_idf_event_t) :=
  match ops with
  | [] => Some (s, [], [], [])
  | op :: ops' =>
      '(s, o, rcs, ps, es) ← a2d_exec op s o;
      '(s, rcs', ps', es') ← a2d_run ops' s o;
      Some (s, rcs ++ rcs', ps ++ ps', es ++ es')
  end.

(** The reference: a queue of packets numbered from one, into which media goes
    only while the stream flows; every change of the link or the stream is a
    break, after which the next packet is flagged. *)
Record link_ref := LinkRef { line : reference; flows : bool; number : Z; right_codec : bool }.

Definition broken (r : reference) : reference := Reference (waiting r) (Some None).
Definition media_taken (r : link_ref) (b : audio_buff) : bool :=
  flows r && bool_decide (is_Some (buff_data b)) && bool_decide (1 <= number_frame b <= 15) &&
  bool_decide (data_len b <= EAF_BT_PACKET_BYTES).
Definition media_bytes (b : audio_buff) : list Z := number_frame b :: slice (default [] (buff_data b)) 0 (data_len b).

Definition ref_exec {C : A2dpConstants} (rate : Z) (op : a2d_op) (r : link_ref)
  : link_ref * list Z * list packet * list eaf_bt_esp_idf_event_t :=
  match op with
  | Media b =>
      if media_taken r b then
        let '(q, rc) := ref_receive (line r) (number r) (buff_timestamp b) (media_bytes b) in
        (LinkRef q true (u16 (number r + 1)) (right_codec r), [rc], [], [])
      else (r, [], [], [])
  | Event (SepRegState _) | Event OtherA2dEvent => (r, [], [], [])
  | Event (ConnectionState conn _) =>
      let up := bool_decide (conn = ConnConnected) in
      (LinkRef (broken (line r)) false (number r) (right_codec r && up), [], [],
       [if up then EAF_BT_CONNECTED else EAF_BT_DISCONNECTED])
  | Event (AudioCfg mcc) =>
      let good := sbc_accepts mcc rate in
      (LinkRef (broken (line r)) false (number r) good, [], [], [if good then EAF_BT_CONFIGURED else EAF_BT_RELEASED])
  | Event (AudioState started) =>
      (LinkRef (broken (line r)) started (number r) (right_codec r), [], [],
       [if started then EAF_BT_STARTED else EAF_BT_SUSPENDED])
  | Fetched =>
      match waiting (line r) with
      | [] => (r, [], [], [])
      | p :: w => (LinkRef (Reference w (previous (line r))) (flows r) (number r) (right_codec r), [], [p], [])
      end
  end.

Fixpoint link_run {C : A2dpConstants} (rate : Z) (ops : list a2d_op) (r : link_ref)
  : link_ref * list Z * list packet * list eaf_bt_esp_idf_event_t :=
  match ops with
  | [] => (r, [], [], [])
  | op :: ops' =>
      let '(r, rcs, ps, es) := ref_exec rate op r in
      let '(r, rcs', ps', es') := link_run rate ops' r in
      (r, rcs ++ rcs', ps ++ ps', es ++ es')
  end.

(** The stack's buffers hold [data_len] bytes, its addresses six. *)
Definition a2d_op_ok (op : a2d_op) : Prop :=
  match op with
  | Media b => is_u16 (number_frame b) /\ is_u16 (data_len b) /\
      forall l, buff_data b = Some l -> data_len b <= zlen l /\ bytes_wf l
  | Event (ConnectionState _ bda) => zlen bda = 6
  | _ => True
  end.

(** ** The simulation *)

Section sim.
Context {C : A2dpConstants}.

Record a2d_sim (rate : Z) (s : a2d_state) (r : link_ref) : Prop := {
  sim_queue : exists q, ingress s = Some q /\ refines q (line r);
  sim_notify : notify s = true;
  sim_codec : codec s = Some (CodecDesc ESP_A2D_MCT_SBC sbc_fill_caps sbc_accepts);
  sim_rate : sample_rate s = rate;
  sim_flow : streaming s = flows r /\ configured s = right_codec r /\ next_sequence s = number r;
  sim_staging : zlen (staging s) = 1 + EAF_BT_PACKET_BYTES;
  sim_status : zlen (peer (status s)) = 6 /\ link_streaming (status s) = streaming s
}.

(** Only the announced bytes of the payload are read. *)
Lemma receive_prefix q seq ts pl n :
  0 < n <= zlen pl ->
  eaf_bt_sbc_receive (Some q) seq ts (Some pl) n = eaf_bt_sbc_receive (Some q) seq ts (Some (slice pl 0 n)) n.
Proof.
  intros Hn. assert (Hz : zlen (slice pl 0 n) = n) by (apply zlen_slice; lia).
  assert (Hld : ld (slice pl 0 n) 0 = ld pl 0).
  { rewrite !ld_lookup by lia. apply lookup_slice. lia. }
  assert (Hcpy : forall p : eaf_bt_packet_t, memcpy (pkt_data p) 0 (slice pl 0 n) 1 (n - 1) = memcpy (pkt_data p) 0 pl 1 (n - 1) \/ n < 2).
  { intros p. destruct (decide (n < 2)); [by right | left]. unfold memcpy. rewrite !ldn_eq by lia. by rewrite slice_slice by lia. }
  unfold eaf_bt_sbc_receive, on_ptr, receive_invalid. rewrite Hld. destruct (decide (_ \/ _)) as [?|Hl]; [done |].
  cbn [mbind option_bind]. rewrite Hld. destruct (ld pl 0) as [h|]; [| done]. cbn [mbind option_bind].
  destruct (negb _ || _); [done |]. cbn [slots write_cursor read_cursor]. case_decide; [done |].
  destruct (ld (slots q) _) as [p|]; [| done]. cbn [mbind option_bind]. destruct (Hcpy p) as [->|?]; [done | lia].
Qed.

Lemma refines_broken q r : refines q r -> refines (flag_break q) (broken r).
Proof. intros [Hwf Hw _]. split; [destruct Hwf; by split | exact Hw | done]. Qed.

Lemma broken_sim rate s r :
  a2d_sim rate s r -> exists q, ingress (mark_break s) = Some q /\ refines q (broken (line r)).
Proof.
  intros [(q & Hq & Href) _ _ _ _ _ _]. exists (flag_break q). cbn. rewrite Hq. split; [done |]. by apply refines_broken.
Qed.

Lemma media_spec rate s r b :
  a2d_sim rate s r -> a2d_op_ok (Media b) ->
  let '(r', rcs, _, _) := ref_exec rate (Media b) r in
  exists s' rc, audio_data_cb s (Some b) = Some (s', (rc, true)) /\ option_list rc = rcs /\ a2d_sim rate s' r'.
Proof.
  intros Hsim (Hn & Hl & Hd). pose proof Hsim as [(q & Hq & Href) H1 H2 H3 (Hf & Hc & Hs) Hz Hst].
  cbn [ref_exec]. unfold audio_data_cb. rewrite Hf.
  replace (flows r && bool_decide (is_Some (buff_data b)) && bool_decide (number_frame b <> 0) &&
           bool_decide (number_frame b <= 15) && bool_decide (data_len b <= EAF_BT_PACKET_BYTES)) with (media_taken r b).
  2: { unfold media_taken. rewrite <- !andb_assoc. do 2 f_equal. rewrite andb_assoc. f_equal.
       unfold is_u16 in Hn. repeat case_bool_decide; cbn; lia. }
  destruct (media_taken r b) eqn:Ht; [| by eexists _, None].
  unfold media_taken in Ht. rewrite !andb_true_iff, !bool_decide_eq_true in Ht.
  destruct Ht as (((Hfl & [l Hdata]) & Hnf) & Hlen). destruct (Hd l Hdata) as [Hzl Hb].
  unfold EAF_BT_PACKET_BYTES in *. rewrite Hdata. cbn [mbind option_bind]. unfold is_u16 in Hl.
  rewrite st_eq by lia. cbn [mbind option_bind]. rewrite memcpy_eq by (rewrite ?zlen_insert; lia).
  cbn [mbind option_bind].
  set (stg := splice _ 1 _). assert (Hzs : zlen stg = 1025) by (unfold stg; rewrite zlen_splice; rewrite ?zlen_insert, ?zlen_slice; lia).
  cbn [ingress set_staging staging]. rewrite Hq, receive_prefix by lia.
  assert (Hpre : slice stg 0 (data_len b + 1) = media_bytes b).
  { rewrite (slice_cons _ _ _ (number_frame b)); [| | lia].
    - unfold media_bytes. rewrite Hdata. cbn [default]. f_equal. replace (data_len b + 1 - 1) with (0 + data_len b) by lia.
      unfold stg. rewrite Z.add_0_l.
      rewrite <- (Z.add_0_r 1) at 2.
      rewrite slice_splice by (rewrite ?zlen_insert, ?zlen_slice; lia). by rewrite slice_slice by lia.
    - rewrite ld_lookup by lia. unfold stg, splice. rewrite lookup_app_l by (rewrite length_take, length_insert; unfold zlen in Hz; lia).
      rewrite lookup_take_lt by lia. rewrite list_lookup_insert_eq by (unfold zlen in Hz; lia). f_equal. by apply header_frames. }
  rewrite Hpre.
  destruct (refines_receive q (line r) (next_sequence s) (buff_timestamp b) (media_bytes b) Href) as (q' & Hrun & Href').
  { unfold media_bytes. rewrite Hdata. constructor; [unfold is_u8; lia |]. by apply slice_forall. }
  assert (Hzm : zlen (media_bytes b) = data_len b + 1).
  { unfold media_bytes. rewrite Hdata; change (default [] (Some l)) with l; rewrite zlen_cons, zlen_slice; lia. }
  rewrite <- Hzm, Hrun, <- Hs. cbn [mbind option_bind].
  destruct (ref_receive (line r) (next_sequence s) (buff_timestamp b) (media_bytes b)) as [r1 rc]. cbn [fst snd] in *.
  eexists _, (Some rc). split; [reflexivity |]. split; [done |]. split; cbn; try done.
  { by exists q'. } 
  by rewrite Hf.
Qed.

Lemma event_spec rate s r e :
  a2d_sim rate s r -> a2d_op_ok (Event e) ->
  let '(r', _, _, es) := ref_exec rate (Event e) r in
  exists s', a2d_cb s e = Some (s', es) /\ a2d_sim rate s' r'.
Proof.
  intros Hsim Hok. pose proof Hsim as [Hq H1 H2 H3 (Hf & Hc & Hs) Hz [Hp Hst]].
  pose proof (broken_sim _ _ _ Hsim) as (q' & Hq' & Href').
  destruct e as [ok|conn bda|mcc|started|]; cbn [ref_exec a2d_cb a2d_op_ok] in *.
  - eexists. split; [reflexivity |]. by split.
  - unfold link_changed. cbn [status mark_break set_ingress set_flow]. rewrite memcpy_eq by lia.
    cbn [mbind option_bind]. unfold emit. cbn [notify set_status mark_break set_ingress set_flow]. rewrite H1.
    replace (if decide (conn = ConnConnected) then EAF_BT_CONNECTED else EAF_BT_DISCONNECTED)
      with (if bool_decide (conn = ConnConnected) then EAF_BT_CONNECTED else EAF_BT_DISCONNECTED) by (by destruct conn).
    eexists. split; [reflexivity |].
    split; cbn in *; try done; [by exists q' | by rewrite Hc |].
    split; [| done]. rewrite zlen_splice; rewrite ?zlen_slice; lia.
  - rewrite H2. cbn [mbind option_bind accepts]. rewrite H3.
    eexists. split; [unfold emit; cbn; by rewrite H1 |]. split; cbn in *; try done. by exists q'.
  - eexists. split; [unfold emit; cbn; by rewrite H1 |]. split; cbn in *; try done. by exists q'.
  - eexists. split; [reflexivity |]. by split.
Qed.

Lemma fetched_spec rate s r o :
  a2d_sim rate s r -> zlen (pkt_data o) = EAF_BT_PACKET_BYTES ->
  let '(r', _, ps, _) := ref_exec rate Fetched r in
  exists s' o', a2d_exec Fetched s o = Some (s', o', [], ps, []) /\ a2d_sim rate s' r' /\
    zlen (pkt_data o') = EAF_BT_PACKET_BYTES.
Proof.
  intros Hsim Ho. pose proof Hsim as [(q & Hq & [Hwf Hw Hprev]) H1 H2 H3 (Hf & Hc & Hs) Hz Hst].
  cbn [ref_exec a2d_exec]. rewrite Hq.
  destruct (pop_spec q o Hwf Ho) as (q' & o' & got & -> & Hwf' & Hgot & Hd & Hh & He). cbn [mbind option_bind].
  rewrite <- Hw. destruct got.
  - destruct Hgot as [-> [Ho' _]]. eexists _, o'. split; [reflexivity |]. split; [| done].
    split; cbn; try done. exists q'. split; [done |]. split; cbn; [done | done | by rewrite Hd, Hh, He].
  - destruct Hgot as (-> & -> & ->). eexists _, o. split; [reflexivity |]. split; [| done].
    split; cbn; try done. exists q. split; [done |]. by split.
Qed.

Lemma a2d_run_sim rate ops s r o :
  a2d_sim rate s r -> Forall a2d_op_ok ops -> zlen (pkt_data o) = EAF_BT_PACKET_BYTES ->
  let '(r', rcs, ps, es) := link_run rate ops r in
  exists s', a2d_run ops s o = Some (s', rcs, ps, es) /\ a2d_sim rate s' r'.
Proof.
  revert s r o. induction ops as [|op ops IH]; intros s r o Hsim Hops Ho; cbn [link_run a2d_run]; [by exists s |].
  apply List.Forall_cons_iff in Hops as [Hop Hops].
  assert (Hstep : let '(r1, rcs, ps, es) := ref_exec rate op r in
    exists s1 o1, a2d_exec op s o = Some (s1, o1, rcs, ps, es) /\ a2d_sim rate s1 r1 /\ zlen (pkt_data o1) = EAF_BT_PACKET_BYTES).
  { destruct op as [b|e|].
    - pose proof (media_spec rate s r b Hsim Hop) as H. cbn [a2d_exec].
      destruct (ref_exec rate (Media b) r) as [[[r1 rcs] ps] es] eqn:E.
      destruct H as (s1 & rc & -> & <- & Hs1). cbn [mbind option_bind]. exists s1, o. split; [| done].
      cbn [ref_exec] in E. destruct (media_taken r b); [destruct (ref_receive _ _ _ _)|]; by injection E as <- _ <- <-.
    - pose proof (event_spec rate s r e Hsim Hop) as H. cbn [a2d_exec].
      destruct (ref_exec rate (Event e) r) as [[[r1 rcs] ps] es] eqn:E.
      destruct H as (s1 & -> & Hs1). cbn [mbind option_bind]. exists s1, o. split; [| done].
      destruct e; cbn [ref_exec] in E; by injection E as <- <- <- <-.
    - pose proof (fetched_spec rate s r o Hsim Ho) as H.
      destruct (ref_exec rate Fetched r) as [[[r1 rcs] ps] es] eqn:E.
      destruct H as (s1 & o1 & -> & Hs1). exists s1, o1. split; [| done].
      cbn [ref_exec] in E. destruct (waiting (line r)); by injection E as <- <- <- <-. }
  destruct (ref_exec rate op r) as [[[r1 rcs] ps] es]. destruct Hstep as (s1 & o1 & -> & Hs1 & Ho1).
  cbn [mbind option_bind]. specialize (IH s1 r1 o1 Hs1 Hops Ho1).
  destruct (link_run rate ops r1) as [[[r2 rcs'] ps'] es']. destruct IH as (s2 & -> & Hs2). by exists s2.
Qed.

Lemma register_spec {D} `{!A2dpStack D} (d : D) (q : eaf_bt_ingress_t) rate :
  exists s d' rc, eaf_bt_esp_idf_register state_zero d (Some (eaf_bt_ingress_init q)) rate true = Some (s, d', rc) /\
    (rc = EAF_OK -> registered s = true /\ a2d_sim rate s (LinkRef (Reference [] None) false 1 false)).
Proof.
  unfold eaf_bt_esp_idf_register. destruct (_ || _); [by eexists _, _, _ |]. cbn [registered state_zero ld].
  change (ld eaf_bt_codec_table 0) with (Some (CodecDesc ESP_A2D_MCT_SBC sbc_fill_caps sbc_accepts)).
  cbn [mbind option_bind]. unfold call_or_io.
  repeat (destruct (a2d_call _ _) as [? ?]; case_decide; [by eexists _, _, _ |]).
  eexists _, _, _. split; [reflexivity |]. intros _. split; [done |].
  split; try done. eexists. split; [reflexivity |]. apply ingress_init_refines.
Qed.
End sim.

(** ** Properties *)


(** The constants as ESP-IDF has them, and a stack that agrees to everything. *)
Definition idf_constants : A2dpConstants :=
  {| ESP_A2D_MCT_SBC := 0; CIE_SF_44K := 2; CIE_SF_48K := 1; CIE_CH_MODE_STEREO := 2; CIE_CH_MODE_JOINT_STEREO := 1;
     CIE_BLOCK_LEN_16 := 1; CIE_NUM_SUBBANDS_8 := 1; CIE_ALLOC_MTHD_LOUDNESS := 1 |}.
Definition idf_stack : A2dpStack unit := {| a2d_call := fun _ d => (d, ESP_OK) |}.
Definition demo_media (n : Z) : a2d_op := Media (AudioBuff n 1000 (Some [156; 1; 2; 3]) 4).
Definition demo_a2d_ops : list a2d_op :=
  [Event (ConnectionState ConnConnected [1; 2; 3; 4; 5; 6]); demo_media 3;
   Event (AudioCfg (@sbc_fill_caps idf_constants 44100)); Event (AudioState true); demo_media 3; demo_media 0; demo_media 4;
   Fetched; Event (AudioState false); Event (AudioState true); demo_media 5; Fetched; Fetched; Fetched].

(** Packets 1 and 3 begin a stream and are flagged, packet 2 continues. *)
Lemma demo_link_run :
  @link_run idf_constants 44100 demo_a2d_ops (LinkRef (Reference [] None) false 1 false) =
  (LinkRef (Reference [] (Some (Some 3))) true 4 true, [0; 0; 0],
   [Packet 1 1000 3 true [156; 1; 2; 3]; Packet 2 1000 4 false [156; 1; 2; 3]; Packet 3 1000 5 true [156; 1; 2; 3]],
   [EAF_BT_CONNECTED; EAF_BT_CONFIGURED; EAF_BT_STARTED; EAF_BT_SUSPENDED; EAF_BT_STARTED]).
Proof. vm_compute. reflexivity. Qed.

Definition demo_registered : a2d_state :=
  A2dState (Some (eaf_bt_ingress_init (BtIngress [] 0 0 0 0 false false))) true
    (Some (CodecDesc 0 (@sbc_fill_caps idf_constants) (@sbc_accepts idf_constants))) 44100 1 true false false status_zero
    (replicate (Z.to_nat (1 + EAF_BT_PACKET_BYTES)) 0).

Lemma demo_register :
  @eaf_bt_esp_idf_register idf_constants unit idf_stack state_zero tt (Some (eaf_bt_ingress_init (BtIngress [] 0 0 0 0 false false)))
    44100 true = Some (demo_registered, tt, EAF_OK).
Proof. reflexivity. Qed.
Lemma demo_media_ok n : is_u16 n -> a2d_op_ok (demo_media n).
Proof.
  intros Hn. split; [done |]. split; [cbn; word |]. intros l [= <-]. split; [done |].
  repeat (apply Forall_cons_2; [word |]). apply Forall_nil_2.
Qed.
Lemma demo_a2d_ops_ok : Forall a2d_op_ok demo_a2d_ops.
Proof.
  unfold demo_a2d_ops. repeat (apply Forall_cons_2; [first [apply demo_media_ok; word | done] |]). apply Forall_nil_2.
Qed.


(** The header says [streaming] is true only when a codec is configured; a stream
    whose configuration was rejected is reported as streaming and its media queued. *)
Example streams_without_codec :
  let '(r, rcs, _, _) := @link_run idf_constants 44100
    [Event (AudioCfg (Mcc 1 (CieSbc 0 0 0 0 0 0 0))); Event (AudioState true); demo_media 3]
    (LinkRef (Reference [] None) false 1 false) in
  flows r = true /\ right_codec r = false /\ rcs = [EAF_OK].
Proof. vm_compute. by split_and!. Qed.

(** The header says a failed registration cannot be retried: only a successful one
    is refused the second time. *)
Lemma registration_retried {D} `{!A2dpConstants} `{!A2dpStack D} (d d1 d2 : D) (q : eaf_bt_ingress_t) rate s rc :
  eaf_bt_esp_idf_register state_zero d (Some q) rate true = Some (s, d1, rc) -> rc <> EAF_OK ->
  exists s' d' rc', eaf_bt_esp_idf_register s d2 (Some q) rate true = Some (s', d', rc') /\ rc' <> EAF_STATE.
Proof.
  assert (Hflag : forall s (d d' : D) s' rc, registered s = false ->
    eaf_bt_esp_idf_register s d (Some q) rate true = Some (s', d', rc) -> rc <> EAF_STATE /\ (rc <> EAF_OK -> registered s' = false)).
  { clear s rc. intros s e e' s' rc Hs. unfold eaf_bt_esp_idf_register. destruct (_ || _); [by intros [= <- _ <-] |].
    rewrite Hs. change (ld eaf_bt_codec_table 0) with (Some (CodecDesc ESP_A2D_MCT_SBC sbc_fill_caps sbc_accepts)).
    cbn [mbind option_bind]. unfold call_or_io.
    repeat (destruct (a2d_call _ _) as [? ?]; case_decide; [by intros [= <- _ <-] |]). by intros [= _ _ <-]. }
  intros Hreg Hrc. destruct (Hflag state_zero _ _ _ _ eq_refl Hreg) as [_ Hf]. specialize (Hf Hrc).
  destruct (eaf_bt_esp_idf_register s d2 (Some q) rate true) as [[[s' d'] rc']|] eqn:E.
  - exists s', d', rc'. split; [done |]. by apply (Hflag _ _ _ _ _ Hf E).
  - exfalso. revert E. unfold eaf_bt_esp_idf_register. destruct (_ || _); [done |]. rewrite Hf.
    change (ld eaf_bt_codec_table 0) with (Some (CodecDesc ESP_A2D_MCT_SBC sbc_fill_caps sbc_accepts)).
    cbn [mbind option_bind]. unfold call_or_io. by repeat (destruct (a2d_call _ _) as [? ?]; case_decide; [done |]).
Qed.
