(* ===== verification/Speaker.v ===== *)
(** The Bluetooth speaker's control part: [platform/esp_idf_bt/components/main/]
    [speaker.c], [speaker_gap.c], [speaker_avrcp.c], [speaker_nvs.c].

    One owner task handles queued events and polls the link; the stack's callbacks
    and other tasks only post events.  Callbacks and the owner share the queue, the
    text slots and the published snapshots, all behind locks or atomics, so a
    callback, a command and a round of the owner are one step each here.  The stack,
    the settings store and the clock are the parameter [D]. *)

From S2P Require Import Prelude Types BtIngress BtEspIdf.

Definition SPEAKER_TEXT_MAX : Z := 128.
Definition SPEAKER_TEXT_SLOTS : Z := 8.
Definition SPEAKER_EVENTS : Z := 32.
Definition SPEAKER_BONDS : Z := 16.

(** ** Data *)

Inductive speaker_event_kind_t :=
| COMMAND | CT_LINK | TG_LINK | VOLUME | VOLUME_SUBSCRIBE | CAPS | TRACK | PLAY_STATUS | POSITION | METADATA | AUTH
| BOND_REMOVED.
#[global] Instance event_kind_eq_dec : EqDecision speaker_event_kind_t.
Proof. solve_decision. Defined.

(** The payload is the union's six bytes: a peer, or a text slot and a length. *)
Record speaker_event_t := SpeakerEvent {
  kind : speaker_event_kind_t; value : Z; extra : Z; payload : list Z
}.
Definition event (k : speaker_event_kind_t) (v : Z) : speaker_event_t := SpeakerEvent k v 0 (replicate 6 0).

(** [speaker_command_t] by its values. *)
Definition SPEAKER_STATUS : Z := 0.
Definition SPEAKER_VOLUME : Z := 1.
Definition SPEAKER_MUTE : Z := 2.
Definition SPEAKER_PAIR : Z := 3.
Definition SPEAKER_RECONNECT : Z := 4.
Definition SPEAKER_DISCONNECT : Z := 5.
Definition SPEAKER_FORGET : Z := 6.

Record speaker_status_t := SpeakerStatus {
  st_connected : bool; st_streaming : bool; pairing : bool; muted : bool; volume : Z; playback_status : Z;
  title : list Z; artist : list Z; album : list Z; position_ms : Z; duration_ms : Z
}.
Record speaker_state_t := SpeakerState {
  sp_status : speaker_status_t; ct_connected : bool; tg_connected : bool; volume_subscribed : bool;
  capabilities : Z; last_peer : list Z; have_peer : bool; forgetting : bool
}.
Definition text_zero : list Z := replicate (Z.to_nat SPEAKER_TEXT_MAX) 0.
Definition speaker_status_zero : speaker_status_t :=
  SpeakerStatus false false false false 0 0 text_zero text_zero text_zero 0 0.
Definition speaker_zero : speaker_state_t :=
  SpeakerState speaker_status_zero false false false 0 (replicate 6 0) false false.

(** What the owner shares with the callbacks and the audio task. *)
Record speaker_shared := SpeakerShared {
  audio_level : Z; overflow : bool; published : speaker_status_t;
  allow_pairing : bool; bonds : list (list Z); bond_count : Z
}.
Record speaker_texts := SpeakerTexts { metadata_text : list (list Z); metadata_used : Z }.
Record speaker_settings := SpeakerSettings { settings_open : bool; settings_dirty : bool; save_at : Z }.

(** ** The stack *)

Inductive rn_response := RspInterim | RspChanged.

(** Requests that answer with an error code, which [speaker_check] only logs. *)
Inductive speaker_request :=
| ScanMode (connectable discoverable : bool)
| RemoveBond (bda : list Z)
| ConfirmPairing (bda : list Z)
| PinReply (bda : list Z) (accept : bool)
| GetCapabilities (label : Z)
| GetMetadata (label : Z)
| GetPlayStatus (label : Z)
| RegisterNotification (label event_id parameter : Z)
| VolumeResponse (response : rn_response) (vol : Z)
| SavePeer (bda : list Z)
| ErasePeer
| CommitSettings.

Class Bluedroid (D : Type) := {
  issue : speaker_request -> D -> D * Z;
  esp_bt_gap_get_bond_device_num : D -> D * Z;
  esp_bt_gap_get_bond_device_list : Z -> D -> D * (Z * list (list Z));
  esp_timer_get_time : D -> D * Z;
}.
#[global] Hint Mode Bluedroid ! : typeclass_instances.

(** Constants of the AVRCP and GAP headers, and the test of an event in a
    capability mask. *)
Class AvrcConstants := {
  ESP_BT_STATUS_SUCCESS : Z;
  MD_ATTR_TITLE : Z; MD_ATTR_ARTIST : Z; MD_ATTR_ALBUM : Z;
  RN_TRACK_CHANGE : Z; RN_PLAY_STATUS_CHANGE : Z; RN_PLAY_POS_CHANGED : Z; RN_VOLUME_CHANGE : Z;
  rn_event_in : Z -> Z -> bool;
}.

(** The stack's callbacks with the parameters the code reads. *)
Inductive ct_event :=
| CtConnection (up : bool) (bda : list Z)
| CtCapabilities (bits : Z)
| CtMetadata (attr_id attr_length : Z) (attr_text : ptr (list Z))
| CtNotify (event_id playback play_pos : Z)
| CtPlayStatus (play_status song_position song_length : Z)
| CtOther.
Inductive tg_event := TgConnection (up : bool) | TgSetVolume (vol : Z) | TgRegister (event_id : Z) | TgOther.
Inductive gap_event :=
| GapConfirm (bda : list Z)
| GapPin (bda : list Z) (min_16_digit : bool)
| GapAuth (stat : Z) (bda : list Z)
| GapBondRemoved (stat : Z)
| GapOther.

(** Everything the file-scope variables hold, the A2DP binding and the stack;
    [issued] is a ghost, the requests so far, last first. *)
Record speaker_world (D : Type) := World {
  sp : speaker_state_t; events : ptr (list speaker_event_t); shared : speaker_shared; texts : speaker_texts;
  settings : speaker_settings; remove_at : Z; a2d : a2d_state; dev : D; issued : list speaker_request
}.
#[global] Arguments World {D}.
#[global] Arguments sp {D}.
#[global] Arguments events {D}.
#[global] Arguments shared {D}.
#[global] Arguments texts {D}.
#[global] Arguments settings {D}.
#[global] Arguments remove_at {D}.
#[global] Arguments a2d {D}.
#[global] Arguments dev {D}.
#[global] Arguments issued {D}.

(** ** Field updates *)

Definition put_flags (ct tg sub : bool) (s : speaker_state_t) : speaker_state_t :=
  SpeakerState (sp_status s) ct tg sub (capabilities s) (last_peer s) (have_peer s) (forgetting s).
Definition put_capabilities (bits : Z) (s : speaker_state_t) : speaker_state_t :=
  SpeakerState (sp_status s) (ct_connected s) (tg_connected s) (volume_subscribed s) bits (last_peer s) (have_peer s)
    (forgetting s).
Definition put_peer (bda : list Z) (have : bool) (s : speaker_state_t) : speaker_state_t :=
  SpeakerState (sp_status s) (ct_connected s) (tg_connected s) (volume_subscribed s) (capabilities s) bda have
    (forgetting s).
Definition put_forgetting (x : bool) (s : speaker_state_t) : speaker_state_t :=
  SpeakerState (sp_status s) (ct_connected s) (tg_connected s) (volume_subscribed s) (capabilities s) (last_peer s)
    (have_peer s) x.
Definition on_status (f : speaker_status_t -> speaker_status_t) (s : speaker_state_t) : speaker_state_t :=
  SpeakerState (f (sp_status s)) (ct_connected s) (tg_connected s) (volume_subscribed s) (capabilities s)
    (last_peer s) (have_peer s) (forgetting s).
Definition put_link (c p : bool) (s : speaker_status_t) : speaker_status_t :=
  SpeakerStatus c (st_streaming s) p (muted s) (volume s) (playback_status s) (title s) (artist s) (album s)
    (position_ms s) (duration_ms s).
Definition put_streaming (x : bool) (s : speaker_status_t) : speaker_status_t :=
  SpeakerStatus (st_connected s) x (pairing s) (muted s) (volume s) (playback_status s) (title s) (artist s)
    (album s) (position_ms s) (duration_ms s).
Definition put_volume (v : Z) (m : bool) (s : speaker_status_t) : speaker_status_t :=
  SpeakerStatus (st_connected s) (st_streaming s) (pairing s) m v (playback_status s) (title s) (artist s)
    (album s) (position_ms s) (duration_ms s).
Definition put_play (status position duration : Z) (s : speaker_status_t) : speaker_status_t :=
  SpeakerStatus (st_connected s) (st_streaming s) (pairing s) (muted s) (volume s) status (title s) (artist s)
    (album s) position duration.
Definition put_texts (t ar al : list Z) (s : speaker_status_t) : speaker_status_t :=
  SpeakerStatus (st_connected s) (st_streaming s) (pairing s) (muted s) (volume s) (playback_status s) t ar al
    (position_ms s) (duration_ms s).

Section speaker.
Context {D : Type} `{!Bluedroid D} `{!AvrcConstants} `{!A2dpConstants} `{!A2dpStack D}.
Implicit Type w : speaker_world D.

Definition set_sp (f : speaker_state_t -> speaker_state_t) w : speaker_world D :=
  World (f (sp w)) (events w) (shared w) (texts w) (settings w) (remove_at w) (a2d w) (dev w) (issued w).
Definition set_events (q : list speaker_event_t) w : speaker_world D :=
  World (sp w) (Some q) (shared w) (texts w) (settings w) (remove_at w) (a2d w) (dev w) (issued w).
Definition set_shared (s : speaker_shared) w : speaker_world D :=
  World (sp w) (events w) s (texts w) (settings w) (remove_at w) (a2d w) (dev w) (issued w).
Definition set_texts (t : speaker_texts) w : speaker_world D :=
  World (sp w) (events w) (shared w) t (settings w) (remove_at w) (a2d w) (dev w) (issued w).
Definition set_settings (s : speaker_settings) w : speaker_world D :=
  World (sp w) (events w) (shared w) (texts w) s (remove_at w) (a2d w) (dev w) (issued w).
Definition set_remove_at (t : Z) w : speaker_world D :=
  World (sp w) (events w) (shared w) (texts w) (settings w) t (a2d w) (dev w) (issued w).
Definition set_a2d (s : a2d_state) w : speaker_world D :=
  World (sp w) (events w) (shared w) (texts w) (settings w) (remove_at w) s (dev w) (issued w).
Definition set_dev (d : D) w : speaker_world D :=
  World (sp w) (events w) (shared w) (texts w) (settings w) (remove_at w) (a2d w) d (issued w).

(** [speaker_check(operation, request)]: the error code is logged and forgotten. *)
Definition request (r : speaker_request) w : speaker_world D :=
  let '(d, _) := issue r (dev w) in
  World (sp w) (events w) (shared w) (texts w) (settings w) (remove_at w) (a2d w) d (r :: issued w).

Definition speaker_now_ms w : speaker_world D * Z :=
  let '(d, us) := esp_timer_get_time (dev w) in (set_dev d w, us ÷ 1000).

(** ** Text slots and the event queue *)

(** The first free slot, marked and cleared. *)
Definition free_slot (used : Z) : option Z :=
  head (List.filter (fun i => negb (Z.testbit used i)) (seqZ 0 SPEAKER_TEXT_SLOTS)).
Definition speaker_text_acquire w : ub (speaker_world D * option Z) :=
  let t := texts w in
  match free_slot (metadata_used t) with
  | None => Some (w, None)
  | Some i =>
      l ← st (metadata_text t) i text_zero;
      Some (set_texts (SpeakerTexts l (Z.lor (metadata_used t) (u8 (Z.shiftl 1 i)))) w, Some i)
  end.
Definition speaker_text_read w (slot : Z) : ub (list Z) := ld (metadata_text (texts w)) slot.
Definition speaker_text_release (slot : Z) w : ub (speaker_world D) :=
  let t := texts w in
  if decide (0 <= slot < 32)   (* the width of the shifted [unsigned] *)
  then Some (set_texts (SpeakerTexts (metadata_text t) (Z.land (metadata_used t) (255 - u8 (Z.shiftl 1 slot)))) w)
  else None.

Definition put_overflow (x : bool) (s : speaker_shared) : speaker_shared :=
  SpeakerShared (audio_level s) x (published s) (allow_pairing s) (bonds s) (bond_count s).

Definition speaker_post (e : speaker_event_t) w : ub (speaker_world D * bool) :=
  q ← events w;
  if decide (zlen q < SPEAKER_EVENTS) then Some (set_events (q ++ [e]) w, true)
  else Some (set_shared (put_overflow true (shared w)) w, false).

Definition speaker_command (command v : Z) w : ub (speaker_world D * Z) :=
  match events w with
  | None => Some (w, EAF_INVALID)
  | Some q =>
      if bool_decide (SPEAKER_FORGET < command) || bool_decide (command < SPEAKER_STATUS)
         || (bool_decide (command = SPEAKER_VOLUME) && bool_decide (127 < v))
         || (bool_decide (command = SPEAKER_MUTE) && bool_decide (1 < v))
      then Some (w, EAF_INVALID)
      else if decide (zlen q < SPEAKER_EVENTS)
      then Some (set_events (q ++ [SpeakerEvent COMMAND command v (replicate 6 0)]) w, EAF_OK)
      else Some (w, EAF_TIMEOUT)
  end.

Definition speaker_audio_level w : Z := audio_level (shared w).
Definition speaker_get_status w : speaker_status_t := published (shared w).

Definition speaker_publish w : speaker_world D :=
  let s := sp_status (sp w) in
  let h := shared w in
  set_shared (SpeakerShared (Z.lor (volume s) (if muted s then 128 else 0)) (overflow h) s
                (pairing s && negb (forgetting (sp w))) (bonds h) (bond_count h)) w.

(** ** Radio policy *)

Definition speaker_scan_mode w : speaker_world D :=
  let idle := negb (st_connected (sp_status (sp w))) && negb (forgetting (sp w)) in
  let w := request (ScanMode idle idle) w in
  speaker_publish (set_sp (on_status (fun s => put_link (st_connected s) idle s)) w).

Definition speaker_disconnect w : speaker_world D :=
  let link := status (a2d w) in
  if connected link || connecting link then
    let '(d, _) := eaf_bt_esp_idf_disconnect (a2d w) (dev w) in set_dev d w
  else w.

Definition speaker_start_pairing w : speaker_world D := speaker_scan_mode (speaker_disconnect w).

Definition speaker_refresh_bonds w : ub (speaker_world D) :=
  let '(d, (err, l)) := esp_bt_gap_get_bond_device_list SPEAKER_BONDS (dev w) in
  let w := set_dev d w in
  if decide (err <> ESP_OK) then Some w
  else
    let h := shared w in
    b ← memcpy (bonds h) 0 l 0 (zlen l);
    Some (set_shared (SpeakerShared (audio_level h) (overflow h) (published h) (allow_pairing h) b (zlen l)) w).

Definition speaker_pairing_allowed (bda : list Z) w : ub bool :=
  let h := shared w in
  l ← ldn (bonds h) 0 (bond_count h);
  Some (foldl (fun allowed b => allowed || bool_decide (b = bda)) (allow_pairing h) l).

(** ** Settings *)

Definition speaker_nvs_touch w : speaker_world D :=
  let '(w, now) := speaker_now_ms w in
  set_settings (SpeakerSettings (settings_open (settings w)) true (now + 2000)) w.

Definition save_settings w : speaker_world D :=
  if negb (settings_open (settings w)) then w
  else
    let w := if have_peer (sp w) && negb (forgetting (sp w)) then request (SavePeer (last_peer (sp w))) w else w in
    let w := request CommitSettings w in
    set_settings (SpeakerSettings (settings_open (settings w)) false (save_at (settings w))) w.

Definition speaker_nvs_tick (now : Z) w : speaker_world D :=
  if settings_dirty (settings w) && bool_decide (save_at (settings w) <= now) then save_settings w else w.

Definition speaker_nvs_forget_peer w : speaker_world D :=
  if negb (settings_open (settings w)) then w else request CommitSettings (request ErasePeer w).

(** The answers of [nvs_open] (NULL when it fails) and of [nvs_get_blob] with the bytes
    it stored. *)
Definition speaker_nvs_init (nvs : option (Z * list Z)) w : ub (speaker_world D) :=
  match nvs with
  | None => Some w
  | Some (err, blob) =>
      let g := settings w in
      p ← memcpy (last_peer (sp w)) 0 blob 0 (zlen blob);
      Some (set_sp (put_peer p (bool_decide (err = ESP_OK) && bool_decide (zlen blob = 6)))
              (set_settings (SpeakerSettings true (settings_dirty g) (save_at g)) w))
  end.

Definition speaker_begin_forget w : speaker_world D :=
  let w := set_sp (put_forgetting true) w in
  let w := set_sp (fun s => put_peer (last_peer s) false s) w in
  let w := set_sp (on_status (fun s => put_link (st_connected s) false s)) w in
  speaker_nvs_forget_peer (speaker_scan_mode (speaker_disconnect w)).

Definition speaker_gap_tick (now : Z) w : ub (speaker_world D) :=
  let link := status (a2d w) in
  if forgetting (sp w) && negb (connected link) && negb (connecting link) then
    let '(d, n) := esp_bt_gap_get_bond_device_num (dev w) in
    let w := set_dev d w in
    if decide (n = 0) then
      w ← speaker_refresh_bonds w;
      Some (speaker_start_pairing (set_sp (put_forgetting false) w))
    else if decide (remove_at w <= now) then
      let '(d, (err, l)) := esp_bt_gap_get_bond_device_list 1 (dev w) in
      let w := set_dev d w in
      w ← (if bool_decide (err = ESP_OK) && negb (bool_decide (zlen l = 0))
           then bda ← ld l 0; Some (request (RemoveBond bda) w) else Some w);
      Some (set_remove_at (now + 2000) w)
    else Some w
  else Some w.

(** ** AVRCP *)

Definition cut (l : list Z) : ub (list Z) := st l 0 0.
Definition speaker_avrcp_clear_track w : ub (speaker_world D) :=
  let s := sp_status (sp w) in
  t ← cut (title s); ar ← cut (artist s); al ← cut (album s);
  Some (set_sp (on_status (fun s => put_play 255 0 0 (put_texts t ar al s))) w).

Definition speaker_avrcp_request_track w : speaker_world D :=
  if negb (ct_connected (sp w)) then w else request (GetPlayStatus 5) (request (GetMetadata 1) w).

Definition speaker_avrcp_subscribe (event_id label : Z) w : speaker_world D :=
  if ct_connected (sp w) && rn_event_in (capabilities (sp w)) event_id
  then request (RegisterNotification label event_id (if decide (event_id = RN_PLAY_POS_CHANGED) then 1 else 0)) w
  else w.

Definition speaker_avrcp_volume_reply (response : rn_response) w : speaker_world D :=
  let s := sp_status (sp w) in request (VolumeResponse response (if muted s then 0 else volume s)) w.

(** The metadata text in its slot: at most 127 bytes, NUL-terminated, with spaces for
    control characters. *)
Definition clean_char (x : Z) : Z := if decide (x < 32 \/ x = 127) then 32 else x.
Definition store_text (slot_text : list Z) (attr_length : Z) (attr_text : ptr (list Z)) : ub (list Z * Z) :=
  let length := if decide (0 < attr_length) then attr_length else 0 in
  let length := if decide (SPEAKER_TEXT_MAX <= length) then SPEAKER_TEXT_MAX - 1 else length in
  l ← (match attr_text with Some t => memcpy slot_text 0 t 0 length | None => Some slot_text end);
  l ← st l length 0;
  l ← for_to length (fun i l => x ← ld l i; st l i (clean_char x)) l;
  Some (l, length).

Definition post_text (attr_id attr_length : Z) (attr_text : ptr (list Z)) w : ub (speaker_world D) :=
  '(w, slot) ← speaker_text_acquire w;
  match slot with
  | None => Some w
  | Some i =>
      l ← ld (metadata_text (texts w)) i;
      '(l, length) ← store_text l attr_length attr_text;
      all ← st (metadata_text (texts w)) i l;
      let w := set_texts (SpeakerTexts all (metadata_used (texts w))) w in
      '(w, posted) ← speaker_post (SpeakerEvent METADATA attr_id 0 (i :: length :: replicate 4 0)) w;
      if posted : bool then Some w else speaker_text_release i w
  end.

Definition post_and_forget (e : speaker_event_t) w : ub (speaker_world D) :=
  '(w, _) ← speaker_post e w; Some w.

Definition ct_cb (e : ct_event) w : ub (speaker_world D) :=
  match e with
  | CtConnection up bda =>
      p ← memcpy (replicate 6 0) 0 bda 0 6;
      post_and_forget (SpeakerEvent CT_LINK (if up then 1 else 0) 0 p) w
  | CtCapabilities bits => post_and_forget (event CAPS bits) w
  | CtMetadata attr_id attr_length attr_text => post_text attr_id attr_length attr_text w
  | CtNotify event_id playback play_pos =>
      if decide (event_id = RN_TRACK_CHANGE) then post_and_forget (SpeakerEvent TRACK 0 1 (replicate 6 0)) w
      else if decide (event_id = RN_PLAY_STATUS_CHANGE)
      then post_and_forget (SpeakerEvent PLAY_STATUS playback 1 (replicate 6 0)) w
      else if decide (event_id = RN_PLAY_POS_CHANGED)
      then post_and_forget (SpeakerEvent POSITION play_pos 1 (replicate 6 0)) w
      else Some w
  | CtPlayStatus play_status song_position song_length =>
      w ← post_and_forget (event PLAY_STATUS play_status) w;
      post_and_forget (SpeakerEvent POSITION song_position song_length (replicate 6 0)) w
  | CtOther => Some w
  end.

Definition tg_cb (e : tg_event) w : ub (speaker_world D) :=
  match e with
  | TgConnection up => post_and_forget (event TG_LINK (if up then 1 else 0)) w
  | TgSetVolume vol => post_and_forget (event VOLUME (Z.land vol 127)) w
  | TgRegister event_id =>
      if decide (event_id = RN_VOLUME_CHANGE) then post_and_forget (event VOLUME_SUBSCRIBE 0) w else Some w
  | TgOther => Some w
  end.

Definition gap_cb (e : gap_event) w : ub (speaker_world D) :=
  match e with
  | GapConfirm bda => Some (request (ConfirmPairing bda) w)
  | GapPin bda min_16_digit =>
      accept ← (if min_16_digit : bool then Some false else speaker_pairing_allowed bda w);
      Some (request (PinReply bda accept) w)
  | GapAuth stat bda =>
      p ← memcpy (replicate 6 0) 0 bda 0 6; post_and_forget (SpeakerEvent AUTH stat 0 p) w
  | GapBondRemoved stat => post_and_forget (event BOND_REMOVED stat) w
  | GapOther => Some w
  end.

(** ** The owner task *)

Definition set_volume (v : Z) (m remote : bool) w : speaker_world D :=
  let s := sp_status (sp w) in
  let before := if muted s then 0 else volume s in
  let w := set_sp (on_status (put_volume (u8 v) m)) w in
  let w := speaker_publish w in
  let w := if negb remote && tg_connected (sp w) && volume_subscribed (sp w)
              && negb (bool_decide (before = if m then 0 else v))
           then set_sp (fun s => put_flags (ct_connected s) (tg_connected s) false s)
                  (speaker_avrcp_volume_reply RspChanged w)
           else w in
  speaker_nvs_touch w.

Definition handle_command (e : speaker_event_t) w : speaker_world D :=
  if decide (value e = SPEAKER_VOLUME) then set_volume (extra e) false false w
  else if decide (value e = SPEAKER_MUTE)
  then set_volume (volume (sp_status (sp w))) (bool_decide (extra e <> 0)) false w
  else if decide (value e = SPEAKER_PAIR \/ value e = SPEAKER_RECONNECT)
  then if forgetting (sp w) then w else speaker_start_pairing w
  else if decide (value e = SPEAKER_DISCONNECT) then speaker_scan_mode (speaker_disconnect w)
  else if decide (value e = SPEAKER_FORGET) then speaker_begin_forget w
  else w.

(** The text copied over the attribute it belongs to; other attributes are only
    logged. *)
Definition text_received (attr : Z) (text : list Z) (s : speaker_status_t) : ub speaker_status_t :=
  if decide (attr = MD_ATTR_TITLE)
  then t ← memcpy (title s) 0 text 0 SPEAKER_TEXT_MAX; Some (put_texts t (artist s) (album s) s)
  else if decide (attr = MD_ATTR_ARTIST)
  then t ← memcpy (artist s) 0 text 0 SPEAKER_TEXT_MAX; Some (put_texts (title s) t (album s) s)
  else if decide (attr = MD_ATTR_ALBUM)
  then t ← memcpy (album s) 0 text 0 SPEAKER_TEXT_MAX; Some (put_texts (title s) (artist s) t s)
  else Some s.

Definition handle_metadata (e : speaker_event_t) w : ub (speaker_world D) :=
  slot ← ld (payload e) 0;
  text ← speaker_text_read w slot;
  w ← (if ct_connected (sp w)
       then s ← text_received (value e) text (sp_status (sp w)); Some (set_sp (on_status (fun _ => s)) w)
       else Some w);
  speaker_text_release slot w.

Definition handle_auth (e : speaker_event_t) w : ub (speaker_world D) :=
  let w := if negb (bool_decide (value e = ESP_BT_STATUS_SUCCESS)) && have_peer (sp w)
              && negb (st_connected (sp_status (sp w))) && bool_decide (payload e = last_peer (sp w))
           then speaker_begin_forget w else w in
  speaker_refresh_bonds w.

Definition handle_ct_link (up : bool) w : ub (speaker_world D) :=
  let w := set_sp (fun s => put_capabilities 0 (put_flags up (tg_connected s) (volume_subscribed s) s)) w in
  w ← speaker_avrcp_clear_track w;
  Some (if up then speaker_avrcp_request_track (request (GetCapabilities 0) w) else w).

Definition handle_position (e : speaker_event_t) w : speaker_world D :=
  let w := if ct_connected (sp w)
           then set_sp (on_status (fun s => put_play (playback_status s) (value e)
                  (if decide (extra e = 1) then duration_ms s else extra e) s)) w
           else w in
  if decide (extra e = 1) then speaker_avrcp_subscribe RN_PLAY_POS_CHANGED 4 w else w.

Definition dispatch_event (e : speaker_event_t) w : ub (speaker_world D) :=
  match kind e with
  | COMMAND => Some (handle_command e w)
  | CT_LINK => handle_ct_link (negb (bool_decide (value e = 0))) w
  | TG_LINK => Some (set_sp (fun s => put_flags (ct_connected s) (negb (bool_decide (value e = 0))) false s) w)
  | VOLUME => Some (set_volume (value e) false true w)
  | VOLUME_SUBSCRIBE =>
      Some (if tg_connected (sp w)
            then speaker_avrcp_volume_reply RspInterim
                   (set_sp (fun s => put_flags (ct_connected s) (tg_connected s) true s) w)
            else w)
  | CAPS =>
      Some (speaker_avrcp_subscribe RN_PLAY_POS_CHANGED 4
              (speaker_avrcp_subscribe RN_PLAY_STATUS_CHANGE 3
                 (speaker_avrcp_subscribe RN_TRACK_CHANGE 2 (set_sp (put_capabilities (u16 (value e))) w))))
  | TRACK =>
      w ← speaker_avrcp_clear_track w;
      Some (speaker_avrcp_subscribe RN_TRACK_CHANGE 2 (speaker_avrcp_request_track w))
  | PLAY_STATUS =>
      let w := if ct_connected (sp w)
               then set_sp (on_status (fun s => put_play (u8 (value e)) (position_ms s) (duration_ms s) s)) w else w in
      Some (if decide (extra e <> 0) then speaker_avrcp_subscribe RN_PLAY_STATUS_CHANGE 3 w else w)
  | POSITION => Some (handle_position e w)
  | METADATA => handle_metadata e w
  | AUTH => handle_auth e w
  | BOND_REMOVED => speaker_refresh_bonds w
  end.
Definition handle_event (e : speaker_event_t) w : ub (speaker_world D) :=
  w ← dispatch_event e w; Some (speaker_publish w).

Definition link_up (link : eaf_bt_esp_idf_status_t) w : ub (speaker_world D) :=
  p ← memcpy (last_peer (sp w)) 0 (peer link) 0 6;
  let w := set_sp (put_peer p true) w in
  let w := set_sp (on_status (fun s => put_link (st_connected s) false s)) w in
  speaker_refresh_bonds (speaker_nvs_touch w).

(** The link came up or went down since the last round. *)
Definition link_moved (link : eaf_bt_esp_idf_status_t) w : ub (speaker_world D) :=
  if decide (connected link = st_connected (sp_status (sp w))) then Some w
  else
    let w := set_sp (on_status (fun s => put_link (connected link) (pairing s) s)) w in
    w ← (if connected link then link_up link w else speaker_avrcp_clear_track w);
    Some (speaker_scan_mode w).

Definition resynchronize w : ub (speaker_world D) :=
  let lost := overflow (shared w) in
  let w := set_shared (put_overflow false (shared w)) w in
  if negb lost then Some w
  else
    w ← speaker_avrcp_clear_track (speaker_disconnect w);
    Some (set_sp (fun s => put_flags (ct_connected s) (tg_connected s) false s) w).

Definition tick w : ub (speaker_world D) :=
  let '(w, now) := speaker_now_ms w in
  let link := status (a2d w) in
  w ← link_moved link w;
  let w := set_sp (on_status (put_streaming (link_streaming link))) w in
  w ← speaker_gap_tick now w;
  w ← resynchronize (speaker_nvs_tick now w);
  Some (speaker_publish w).

(** A round of [control_task]: the next event, if one came in time, and a tick. *)
Definition control_round w : ub (speaker_world D) :=
  q ← events w;
  w ← (match q with [] => Some w | e :: q' => handle_event e (set_events q' w) end);
  tick w.

(** [speaker_start] up to the task's loop; [queue] and [task] say whether the queue and
    the task could be created.  The registration of the callbacks, which aborts the
    program when the stack refuses it, is left out. *)
Definition speaker_start (queue task : bool) (nvs : option (Z * list Z)) w : ub (speaker_world D * Z) :=
  if negb queue then Some (w, EAF_IO)
  else
    let w := set_events [] w in
    let w := set_sp (on_status (put_volume 127 false)) w in
    w ← speaker_nvs_init nvs w;
    let w := speaker_publish w in
    if negb task then Some (w, EAF_IO)
    else w ← speaker_refresh_bonds w; Some (speaker_scan_mode w, EAF_OK).
End speaker.
