(* ===== verification/SpeakerSafe.v ===== *)
(** The Bluetooth speaker's invariant, and that every callback, command and round of the
    owner task keeps it. *)

From S2P Require Import Prelude Types Bytes BtIngress BtEspIdf Speaker.

(** ** The invariant *)

(** A text: printable bytes up to a NUL. *)
Definition printable (x : Z) : Prop := 32 <= x /\ x <> 127.
Definition text_ok (l : list Z) : Prop :=
  zlen l = SPEAKER_TEXT_MAX /\ exists n, 0 <= n < SPEAKER_TEXT_MAX /\ ld l n = Some 0 /\ Forall printable (slice l 0 n).

Definition status_ok (s : speaker_status_t) : Prop :=
  text_ok (title s) /\ text_ok (artist s) /\ text_ok (album s) /\ 0 <= volume s <= 127.

Definition event_ok (e : speaker_event_t) : Prop :=
  zlen (payload e) = 6 /\
  match kind e with
  | COMMAND => value e = SPEAKER_VOLUME -> 0 <= extra e <= 127
  | VOLUME => 0 <= value e <= 127
  | _ => True
  end.

(** The text slots queued events refer to. *)
Definition slot_of (e : speaker_event_t) : option Z := match kind e with METADATA => head (payload e) | _ => None end.
Definition slots_of (q : list speaker_event_t) : list Z := omap slot_of q.

(** Each used bit belongs to exactly one queued event. *)
Record texts_ok (q : list speaker_event_t) (t : speaker_texts) : Prop := {
  tx_distinct : NoDup (slots_of q);
  tx_range : Forall (fun i => 0 <= i < SPEAKER_TEXT_SLOTS) (slots_of q);
  tx_used : is_u8 (metadata_used t) /\ forall i, 0 <= i < SPEAKER_TEXT_SLOTS -> Z.testbit (metadata_used t) i = true <-> i ∈ slots_of q;
  tx_texts : zlen (metadata_text t) = SPEAKER_TEXT_SLOTS /\ Forall text_ok (metadata_text t)
}.

(** The volume responses, last first; each CHANGED answers an INTERIM of its own. *)
Definition response_of (r : speaker_request) : option rn_response :=
  match r with VolumeResponse x _ => Some x | _ => None end.
Definition responses (l : list speaker_request) : list rn_response := omap response_of l.
Definition answered_once (l : list rn_response) : Prop :=
  forall k, l !! k = Some RspChanged -> l !! S k = Some RspInterim.

Section inv.
Context {D : Type} {HB : Bluedroid D} {HA : AvrcConstants} {HC : A2dpConstants} {HS : A2dpStack D}.
Implicit Type w : speaker_world D.

(** What the stack is documented to do: a bond list has at most the length asked for. *)
Class BondLaws : Prop := {
  bond_list_fits n (d d' : D) err l : 0 < n -> esp_bt_gap_get_bond_device_list n d = (d', (err, l)) ->
    zlen l <= n /\ Forall (fun b => zlen b = 6) l
}.

Record owner_ok w : Prop := {
  ow_status : status_ok (sp_status (sp w));
  ow_peer : zlen (last_peer (sp w)) = 6;
  ow_bonds : zlen (bonds (shared w)) = SPEAKER_BONDS /\ 0 <= bond_count (shared w) <= SPEAKER_BONDS;
  ow_link : zlen (peer (status (a2d w))) = 6;
  ow_echo : answered_once (responses (issued w));
  ow_subscribed : volume_subscribed (sp w) = true -> head (responses (issued w)) = Some RspInterim
}.

Definition pair_ok w : Prop :=
  pairing (sp_status (sp w)) = true -> st_connected (sp_status (sp w)) = false /\ forgetting (sp w) = false.

Definition snapshot_ok w : Prop :=
  published (shared w) = sp_status (sp w) /\
  audio_level (shared w) = volume (sp_status (sp w)) + (if muted (sp_status (sp w)) then 128 else 0) /\
  allow_pairing (shared w) = pairing (sp_status (sp w)) && negb (forgetting (sp w)).

Record speaker_inv w : Prop := {
  sv_queue : exists q, events w = Some q /\ zlen q <= SPEAKER_EVENTS /\ Forall event_ok q /\ texts_ok q (texts w);
  sv_owner : owner_ok w;
  sv_pair : pair_ok w;
  sv_snapshot : snapshot_ok w
}.

(** What the owner's work leaves alone. *)
Definition calm w w' : Prop := events w' = events w /\ texts w' = texts w /\ a2d w' = a2d w.

(** A step of the owner that keeps its invariant and the rest; [pair_ok] may be
    broken meanwhile. *)
Definition keeps w w' : Prop := calm w w' /\ (owner_ok w -> owner_ok w').
Definition keeps_pair w w' : Prop := keeps w w' /\ (pair_ok w -> pair_ok w').

#[local] Instance keeps_pre : PreOrder keeps.
Proof.
  split; [by intros w; split |]. intros x y z [(? & ? & ?) ?] [(? & ? & ?) ?]. split; [split_and!; congruence | auto].
Qed.
#[local] Instance keeps_pair_pre : PreOrder keeps_pair.
Proof.
  split; [by intros w; split |]. intros x y z [? ?] [? ?]. split; [by transitivity y | auto].
Qed.

Lemma answered_once_cons (x : option rn_response) (l : list rn_response) :
  answered_once l -> (x = Some RspChanged -> head l = Some RspInterim) -> answered_once (option_list x ++ l).
Proof.
  intros Hl Hx. destruct x as [x|]; [| done]. intros [|k]; cbn; [| apply Hl].
  intros [= ->]. specialize (Hx eq_refl). destruct l; [done | exact Hx].
Qed.

(** A request that is no CHANGED response keeps everything. *)
Lemma request_keeps r w : response_of r = None -> keeps_pair w (request r w).
Proof.
  intros Hr. unfold request. destruct (issue r (dev w)) as [d err]. split; [split; [done |] | done].
  intros [H1 H2 H3 H4 H5 H6]. split; try done; cbn; unfold responses in *; cbn; by rewrite Hr.
Qed.
Lemma now_keeps w : keeps_pair w (speaker_now_ms w).1.
Proof. unfold speaker_now_ms. destruct (esp_timer_get_time _). split; [split; [done |] | done]. by intros []. Qed.
Lemma publish_keeps w : keeps_pair w (speaker_publish w).
Proof. split; [split; [done |] | done]. by intros []. Qed.
Lemma dev_keeps d w : keeps_pair w (set_dev d w).
Proof. split; [split; [done |] | done]. by intros []. Qed.
Lemma settings_keeps s w : keeps_pair w (set_settings s w).
Proof. split; [split; [done |] | done]. by intros []. Qed.

Lemma publish_snapshot w : owner_ok w -> snapshot_ok (speaker_publish w).
Proof.
  intros Hw. split_and!; try done. cbn. destruct (ow_status _ Hw) as (_ & _ & _ & Hv).
  destruct (muted (sp_status (sp w))); [| by rewrite Z.lor_0_r, Z.add_0_r].
  rewrite Z.lor_comm. change 128 with (Z.shiftl 1 7). rewrite lor_shift_add by (change (2 ^ 7) with 128; lia).
  change (Z.shiftl 1 7) with 128. change (2 ^ 7) with 128. lia.
Qed.

Lemma scan_mode_keeps w : keeps w (speaker_scan_mode w) /\ pair_ok (speaker_scan_mode w).
Proof.
  unfold speaker_scan_mode. set (idle := _ && _).
  destruct (request_keeps (ScanMode idle idle) w eq_refl) as [H1 _].
  assert (Hsp : sp (request (ScanMode idle idle) w) = sp w) by (unfold request; by destruct (issue _ _)).
  set (w1 := request _ w) in *. split.
  - transitivity w1; [done |].
    transitivity (set_sp (on_status (fun s => put_link (st_connected s) idle s)) w1); [| apply publish_keeps].
    split; [done |]. by intros [? ? ? ? ? ?].
  - unfold pair_ok. cbn. rewrite Hsp. unfold idle. intros [?%negb_true_iff ?%negb_true_iff]%andb_true_iff. done.
Qed.

Lemma disconnect_keeps w : keeps_pair w (speaker_disconnect w).
Proof.
  unfold speaker_disconnect. destruct (_ || _); [| done]. destruct (eaf_bt_esp_idf_disconnect _ _). apply dev_keeps.
Qed.
Lemma start_pairing_keeps w : keeps w (speaker_start_pairing w) /\ pair_ok (speaker_start_pairing w).
Proof.
  unfold speaker_start_pairing. destruct (scan_mode_keeps (speaker_disconnect w)) as [H1 H2]. split; [| done].
  transitivity (speaker_disconnect w); [apply disconnect_keeps | done].
Qed.

Lemma nvs_touch_keeps w : keeps_pair w (speaker_nvs_touch w).
Proof.
  unfold speaker_nvs_touch. pose proof (now_keeps w) as H. destruct (speaker_now_ms w) as [w1 now]. cbn [fst] in H.
  transitivity w1; [done | apply settings_keeps].
Qed.
Lemma nvs_tick_keeps now w : keeps_pair w (speaker_nvs_tick now w).
Proof.
  unfold speaker_nvs_tick, save_settings. destruct (_ && _); [| done]. destruct (negb _); [done |].
  set (w1 := if _ && _ then _ else _). transitivity w1; [unfold w1; destruct (_ && _); [by apply request_keeps | done] |].
  transitivity (request CommitSettings w1); [by apply request_keeps | apply settings_keeps].
Qed.
Lemma forget_peer_keeps w : keeps_pair w (speaker_nvs_forget_peer w).
Proof.
  unfold speaker_nvs_forget_peer. destruct (negb _); [done |].
  transitivity (request ErasePeer w); by apply request_keeps.
Qed.
Lemma begin_forget_keeps w : keeps w (speaker_begin_forget w) /\ pair_ok (speaker_begin_forget w).
Proof.
  unfold speaker_begin_forget. set (w1 := set_sp (on_status _) _).
  destruct (scan_mode_keeps (speaker_disconnect w1)) as [H1 H2].
  destruct (forget_peer_keeps (speaker_scan_mode (speaker_disconnect w1))) as [H3 H4]. split; [| auto].
  transitivity w1; [split; [done |]; by intros [? ? ? ? ? ?] |].
  transitivity (speaker_disconnect w1); [apply disconnect_keeps |]. etransitivity; [exact H1 | exact H3].
Qed.

(** ** The owner's work *)

Context {HL : BondLaws}.

Lemma refresh_bonds_spec w :
  owner_ok w -> exists w', speaker_refresh_bonds w = Some w' /\ keeps_pair w w'.
Proof.
  intros Hw. unfold speaker_refresh_bonds.
  destruct (esp_bt_gap_get_bond_device_list SPEAKER_BONDS (dev w)) as [d [err l]] eqn:E.
  apply bond_list_fits in E as [Hl _]; [| done]. destruct (decide (err <> ESP_OK)).
  - eexists. split; [reflexivity |]. apply dev_keeps.
  - destruct (ow_bonds _ Hw) as [Hb Hc]. pose proof (zlen_nonneg l). unfold SPEAKER_BONDS in *. cbn [shared set_dev].
    rewrite memcpy_eq by lia. cbn [mbind option_bind]. eexists. split; [reflexivity |].
    split; [split; [done |] | done]. intros [H1 H2 _ H4 H5 H6]. split; try done. cbn.
    rewrite zlen_splice; rewrite ?zlen_slice; unfold SPEAKER_BONDS; lia.
Qed.

Lemma cut_spec l : text_ok l -> exists l', cut l = Some l' /\ text_ok l'.
Proof.
  intros [Hz _]. unfold cut, SPEAKER_TEXT_MAX in *. rewrite st_eq by lia. eexists. split; [reflexivity |].
  split; [by rewrite zlen_insert |]. exists 0. split; [done |].
  split; [rewrite ld_lookup by lia; apply list_lookup_insert_eq; unfold zlen in Hz; lia | constructor].
Qed.

Lemma clear_track_spec w : owner_ok w -> exists w', speaker_avrcp_clear_track w = Some w' /\ keeps_pair w w'.
Proof.
  intros Hw. pose proof (ow_status _ Hw) as (Ht & Ha & Hb & _). unfold speaker_avrcp_clear_track.
  destruct (cut_spec _ Ht) as (t & -> & ?), (cut_spec _ Ha) as (a & -> & ?), (cut_spec _ Hb) as (b & -> & ?).
  cbn [mbind option_bind]. eexists. split; [reflexivity |]. split; [split; [done |] | done].
  intros [(_ & _ & _ & Hv) ? ? ? ? ?]. by split.
Qed.

Lemma request_track_keeps w : keeps_pair w (speaker_avrcp_request_track w).
Proof.
  unfold speaker_avrcp_request_track. destruct (negb _); [done |].
  transitivity (request (GetMetadata 1) w); by apply request_keeps.
Qed.
Lemma subscribe_keeps ev label w : keeps_pair w (speaker_avrcp_subscribe ev label w).
Proof. unfold speaker_avrcp_subscribe. destruct (_ && _); [by apply request_keeps | done]. Qed.

(** Updates of the owner's state that leave the status, the peer and the
    subscription alone. *)
Lemma sp_keeps f w :
  (forall s, sp_status (f s) = sp_status s /\ last_peer (f s) = last_peer s /\ forgetting (f s) = forgetting s /\
     (volume_subscribed (f s) = true -> volume_subscribed s = true)) -> keeps_pair w (set_sp f w).
Proof.
  intros Hf. destruct (Hf (sp w)) as (H1 & H2 & H3 & H4). split; [split; [done |] |].
  - intros [? ? ? ? ? ?]. split; cbn; rewrite ?H1, ?H2; auto.
  - unfold pair_ok. cbn. by rewrite H1, H3.
Qed.
Lemma speaker_status_keeps f w :
  (forall s, status_ok s -> status_ok (f s)) ->
  (forall s, pairing (f s) = pairing s /\ st_connected (f s) = st_connected s) -> keeps_pair w (set_sp (on_status f) w).
Proof.
  intros Hf Hp. destruct (Hp (sp_status (sp w))) as [H1 H2]. split; [split; [done |] |].
  - intros [? ? ? ? ? ?]. split; cbn; auto.
  - unfold pair_ok. cbn. by rewrite H1, H2.
Qed.

Lemma set_volume_keeps v m remote w : 0 <= v <= 127 -> keeps_pair w (set_volume v m remote w).
Proof.
  intros Hv. unfold set_volume. set (w1 := speaker_publish _).
  assert (H1 : keeps_pair w w1).
  { transitivity (set_sp (on_status (put_volume (u8 v) m)) w); [| apply publish_keeps].
    apply speaker_status_keeps; [| done]. intros s (? & ? & ? & _). split_and!; try done; cbn; word. }
  transitivity w1; [done |].
  match goal with |- keeps_pair _ (speaker_nvs_touch ?x) => transitivity x; [| apply nvs_touch_keeps] end.
  destruct (negb remote && tg_connected (sp w1) && volume_subscribed (sp w1) && _) eqn:E; [| done].
  rewrite !andb_true_iff in E. destruct E as [[_ Hsub] _]. unfold speaker_avrcp_volume_reply, request.
  destruct (issue _ _) as [d err]. split; [split; [done |] | done]. intros [? ? ? ? He Hs]. split; cbn; try done.
  apply (answered_once_cons (Some RspChanged)); auto.
Qed.

Lemma handle_command_spec e w :
  event_ok e -> kind e = COMMAND -> owner_ok w ->
  keeps w (handle_command e w) /\ (pair_ok w -> pair_ok (handle_command e w)).
Proof.
  intros [_ He] Hk Hw. rewrite Hk in He. unfold handle_command.
  destruct (decide _) as [E|]; [apply set_volume_keeps; auto |].
  destruct (decide _); [apply set_volume_keeps; apply (ow_status _ Hw) |].
  destruct (decide _).
  { destruct (forgetting (sp w)); [done |]. destruct (start_pairing_keeps w); auto. }
  destruct (decide _).
  { destruct (scan_mode_keeps (speaker_disconnect w)). split; [| auto].
    transitivity (speaker_disconnect w); [apply disconnect_keeps | done]. }
  destruct (decide _); [| done]. destruct (begin_forget_keeps w); auto.
Qed.

Lemma handle_ct_link_spec up w : owner_ok w -> exists w', handle_ct_link up w = Some w' /\ keeps_pair w w'.
Proof.
  intros Hw. unfold handle_ct_link. set (w1 := set_sp (fun s => put_capabilities 0 (put_flags up (tg_connected s) (volume_subscribed s) s)) w).
  assert (H1 : keeps_pair w w1) by (by apply sp_keeps).
  destruct (clear_track_spec w1) as (w2 & -> & H2); [by apply H1 |]. cbn [mbind option_bind].
  eexists. split; [reflexivity |]. transitivity w1; [done |]. transitivity w2; [done |].
  destruct up; [| done]. transitivity (request (GetCapabilities 0) w2); [by apply request_keeps | apply request_track_keeps].
Qed.

Lemma text_received_spec attr text s :
  text_ok text -> status_ok s ->
  exists s', text_received attr text s = Some s' /\ status_ok s' /\ pairing s' = pairing s /\ st_connected s' = st_connected s.
Proof.
  intros Ht (H1 & H2 & H3 & Hv).
  assert (Hc : forall l, text_ok l -> memcpy l 0 text 0 SPEAKER_TEXT_MAX = Some text).
  { intros l [Hl _]. destruct Ht as [Hz _]. rewrite memcpy_eq by (rewrite ?Hl, ?Hz; unfold SPEAKER_TEXT_MAX; lia).
    f_equal. rewrite slice_full by lia. unfold splice. cbn [Z.to_nat take app]. unfold zlen in *.
    rewrite drop_ge by lia. apply app_nil_r. }
  unfold text_received. rewrite !Hc by done. cbn [mbind option_bind].
  repeat case_decide; (eexists; split; [reflexivity |]); by split_and!.
Qed.

(** ** Text slots *)

Lemma slot_bit i : 0 <= i < 8 -> u8 (Z.shiftl 1 i) = 2 ^ i.
Proof.
  intros Hi. rewrite Z.shiftl_mul_pow2, Z.mul_1_l by lia. apply u8_small. unfold is_u8.
  pose proof (Z.pow_lt_mono_r 2 i 8 ltac:(lia) ltac:(lia) ltac:(lia)). pose proof (Z.pow_nonneg 2 i ltac:(lia)).
  change (2 ^ 8) with 256 in *. lia.
Qed.
Lemma mask_bit i j : 0 <= i < 8 -> 0 <= j < 8 -> Z.testbit (255 - 2 ^ i) j = negb (j =? i).
Proof.
  intros Hi Hj.
  assert (Hall : forallb (fun i => forallb (fun j => Bool.eqb (Z.testbit (255 - 2 ^ i) j) (negb (j =? i))) (seqZ 0 8)) (seqZ 0 8) = true)
    by (vm_compute; reflexivity).
  rewrite forallb_forall in Hall. specialize (Hall i). rewrite forallb_forall in Hall.
  apply eqb_prop, Hall; rewrite <- list_elem_of_In; by apply elem_of_seqZ.
Qed.
Lemma u8_of_bits x : 0 <= x -> (forall j, 8 <= j -> Z.testbit x j = false) -> is_u8 x.
Proof.
  intros Hx Hb. split; [done |]. destruct (Z.eq_dec x 0) as [->|]; [lia |]. change 256 with (2 ^ 8).
  apply Z.log2_lt_pow2; [lia |]. destruct (Z.lt_ge_cases (Z.log2 x) 8) as [?|Hge]; [done |].
  specialize (Hb _ Hge). rewrite Z.bit_log2 in Hb; [discriminate | lia].
Qed.
Lemma u8_high x j : is_u8 x -> 8 <= j -> Z.testbit x j = false.
Proof.
  intros [H0 H1] Hj. destruct (Z.eq_dec x 0) as [->|]; [apply Z.bits_0 |]. apply Z.bits_above_log2; [done |].
  apply Z.log2_lt_pow2; [lia |]. pose proof (Z.pow_le_mono_r 2 8 j ltac:(lia) Hj). change (2 ^ 8) with 256 in *. lia.
Qed.
Lemma lor_u8 x y : is_u8 x -> is_u8 y -> is_u8 (Z.lor x y).
Proof.
  intros Hx Hy. apply u8_of_bits; [apply Z.lor_nonneg; split; [apply Hx | apply Hy] |].
  intros j Hj. by rewrite Z.lor_spec, !u8_high.
Qed.

Lemma free_slot_spec used :
  match free_slot used with
  | Some i => 0 <= i < SPEAKER_TEXT_SLOTS /\ Z.testbit used i = false
  | None => True
  end.
Proof.
  unfold free_slot. destruct (head _) as [i|] eqn:E; [| done]. apply head_Some_elem_of in E.
  apply list_elem_of_In, filter_In in E as [Hi Hu%negb_true_iff]. split; [| done].
  apply list_elem_of_In, elem_of_seqZ in Hi. lia.
Qed.

Lemma slots_of_app q1 q2 : slots_of (q1 ++ q2) = slots_of q1 ++ slots_of q2.
Proof. apply omap_app. Qed.

Lemma text_zero_ok : text_ok text_zero.
Proof. split; [done |]. exists 0. split; [done |]. split; [done | constructor]. Qed.

(** A slot taken: its bit joins the mask, its text is cleared. *)
Lemma acquire_spec w q :
  events w = Some q -> texts_ok q (texts w) ->
  exists t i, speaker_text_acquire w = Some (match i with Some _ => set_texts t w | None => w end, i) /\
    forall j, i = Some j -> 0 <= j < SPEAKER_TEXT_SLOTS /\ (j ∉ slots_of q) /\ is_u8 (metadata_used t) /\
      (forall k, 0 <= k < SPEAKER_TEXT_SLOTS -> Z.testbit (metadata_used t) k = true <-> k = j \/ k ∈ slots_of q) /\
      zlen (metadata_text t) = SPEAKER_TEXT_SLOTS /\ Forall text_ok (metadata_text t).
Proof.
  intros Hq [Hd Hr [Hu Hbits] [Hz Ht]]. unfold speaker_text_acquire. pose proof (free_slot_spec (metadata_used (texts w))) as Hs.
  destruct (free_slot _) as [i|]; [| by exists (texts w), None]. destruct Hs as [Hi Hfree].
  unfold SPEAKER_TEXT_SLOTS in *. rewrite st_eq by lia. cbn [mbind option_bind].
  eexists _, (Some i). split; [reflexivity |]. intros j [= <-]. cbn [metadata_used metadata_text]. rewrite slot_bit by done.
  assert (Hp : is_u8 (2 ^ i)) by (rewrite <- slot_bit by done; unfold u8, is_u8; by apply Z.mod_pos_bound).
  split; [done |]. split; [rewrite <- Hbits by done; by rewrite Hfree |]. split; [by apply lor_u8 |].
  split; [| split; [by rewrite zlen_insert | by apply Forall_insert, text_zero_ok]].
  intros k Hk. rewrite Z.lor_spec, orb_true_iff, Hbits by done. rewrite Z.pow2_bits_eqb, Z.eqb_eq by lia.
  split; [intros [?|?]; auto | intros [?|?]; auto].
Qed.

(** A slot given back when its event has left the queue. *)
Lemma text_release_spec w q i :
  0 <= i < SPEAKER_TEXT_SLOTS -> i ∉ slots_of q ->
  is_u8 (metadata_used (texts w)) ->
  (forall k, 0 <= k < SPEAKER_TEXT_SLOTS -> Z.testbit (metadata_used (texts w)) k = true <-> k = i \/ k ∈ slots_of q) ->
  exists t, speaker_text_release i w = Some (set_texts t w) /\ metadata_text t = metadata_text (texts w) /\
    is_u8 (metadata_used t) /\
    (forall k, 0 <= k < SPEAKER_TEXT_SLOTS -> Z.testbit (metadata_used t) k = true <-> k ∈ slots_of q).
Proof.
  intros Hi Hq Hu Hbits. unfold speaker_text_release, SPEAKER_TEXT_SLOTS in *. rewrite decide_True by lia.
  eexists. split; [reflexivity |]. split; [done |]. cbn [metadata_used]. rewrite slot_bit by done.
  split.
  - apply u8_of_bits; [apply Z.land_nonneg; left; apply Hu |]. intros j Hj. by rewrite Z.land_spec, u8_high.
  - intros k Hk. rewrite Z.land_spec, mask_bit, andb_true_iff, Hbits, negb_true_iff, Z.eqb_neq by done.
    split; [by intros [[?|?] ?] |]. intros Hin. split; [by right |]. by intros ->.
Qed.

(** The text stored in a slot is printable and terminated, whatever the peer sent. *)
Lemma store_text_spec slot attr_length attr_text :
  text_ok slot -> (forall t, attr_text = Some t -> Z.min attr_length 127 <= zlen t /\ bytes_wf t) ->
  exists l n, store_text slot attr_length attr_text = Some (l, n) /\ text_ok l /\ 0 <= n < SPEAKER_TEXT_MAX.
Proof.
  intros [Hz _] Ht. unfold store_text, SPEAKER_TEXT_MAX in *.
  set (n0 := if decide (0 < attr_length) then attr_length else 0).
  set (n := if decide (128 <= n0) then 128 - 1 else n0).
  assert (Hn : 0 <= n < 128 /\ n <= Z.max 0 (Z.min attr_length 127)) by (unfold n, n0; repeat case_decide; lia).
  assert (Hcopy : exists l, (match attr_text with Some t => memcpy slot 0 t 0 n | None => Some slot end) = Some l /\ zlen l = 128).
  { destruct attr_text as [t|]; [| by exists slot]. destruct (Ht t eq_refl) as [Hl _]. pose proof (zlen_nonneg t).
    rewrite memcpy_eq by lia. eexists. split; [reflexivity |]. rewrite zlen_splice; rewrite ?zlen_slice; lia. }
  destruct Hcopy as (l & -> & Hl). cbn [mbind option_bind]. rewrite st_eq by lia. cbn [mbind option_bind].
  set (l1 := <[Z.to_nat n := 0]> l). assert (Hl1 : zlen l1 = 128) by (unfold l1; by rewrite zlen_insert).
  destruct (for_to_inv (fun i l => zlen l = 128 /\ ld l n = Some 0 /\ forall k, 0 <= k < i -> exists x, ld l k = Some x /\ printable x)
    (fun i l => x ← ld l i; st l i (clean_char x)) n l1) as (l2 & Hrun & Hl2 & H0 & Hc).
  - lia.
  - split; [done |]. split; [rewrite ld_lookup by lia; apply list_lookup_insert_eq; unfold zlen in Hl; lia | lia].
  - intros i t Hi (Hzt & H0 & Hc). destruct (ld_is_Some t i) as [x Hx]; [lia |]. rewrite Hx. cbn [mbind option_bind].
    rewrite st_eq by lia. eexists. split; [reflexivity |]. split; [by rewrite zlen_insert |].
    split; [rewrite ld_lookup, list_lookup_insert_ne by lia; by rewrite <- ld_lookup by lia |].
    intros k Hk. destruct (decide (k = i)) as [->|].
    + exists (clean_char x). rewrite ld_lookup, list_lookup_insert_eq by (unfold zlen in Hzt; lia). split; [done |].
      unfold clean_char, printable. case_decide; lia.
    + destruct (Hc k ltac:(lia)) as (y & Hy & ?). exists y. split; [| done].
      rewrite ld_lookup, list_lookup_insert_ne by lia. by rewrite <- ld_lookup by lia.
  - rewrite Hrun. cbn [mbind option_bind]. exists l2, n. split; [done |]. split; [| lia]. split; [done |].
    exists n. split; [unfold SPEAKER_TEXT_MAX; lia |]. split; [done |]. apply Forall_lookup. intros k x Hx.
    destruct (decide (Z.of_nat k < n)) as [Hk|Hk]; [| by rewrite lookup_slice_ge in Hx by lia].
    rewrite lookup_slice in Hx by lia. destruct (Hc (Z.of_nat k) ltac:(lia)) as (y & Hy & Hp).
    rewrite ld_lookup, Nat2Z.id in Hy by lia. change (Z.to_nat 0 + k)%nat with k in Hx. congruence.
Qed.

(** ** Callbacks *)

Definition queue_ok w : Prop :=
  exists q, events w = Some q /\ zlen q <= SPEAKER_EVENTS /\ Forall event_ok q /\ texts_ok q (texts w).

(** What a callback leaves alone: everything but the queue, the slots, the overflow
    flag and answers to pairing requests. *)
Definition apart w w' : Prop :=
  sp w' = sp w /\ a2d w' = a2d w /\ responses (issued w') = responses (issued w) /\
  published (shared w') = published (shared w) /\ audio_level (shared w') = audio_level (shared w) /\
  allow_pairing (shared w') = allow_pairing (shared w) /\ bonds (shared w') = bonds (shared w) /\
  bond_count (shared w') = bond_count (shared w).

Lemma apart_inv w w' : speaker_inv w -> apart w w' -> queue_ok w' -> speaker_inv w'.
Proof.
  intros [_ [? ? ? ? ? ?] Hp Hsn] (H1 & H2 & H3 & H4 & H5 & H6 & H7 & H8) Hq. split; [done | split | |].
  all: unfold pair_ok, snapshot_ok in *; rewrite ?H1, ?H2, ?H3, ?H4, ?H5, ?H6, ?H7, ?H8; done.
Qed.

Lemma post_spec e w q :
  events w = Some q -> zlen q <= SPEAKER_EVENTS ->
  exists w' b, speaker_post e w = Some (w', b) /\ apart w w' /\ texts w' = texts w /\
    events w' = Some (if b : bool then q ++ [e] else q) /\ (b = true -> zlen q < SPEAKER_EVENTS).
Proof.
  intros Hq Hl. unfold speaker_post. rewrite Hq. cbn [mbind option_bind]. destruct (decide _) as [H|H].
  - eexists _, true. by split_and!.
  - eexists _, false. by split_and!.
Qed.

(** An event that refers to no text. *)
Lemma post_plain e w :
  speaker_inv w -> event_ok e -> slot_of e = None ->
  exists w', post_and_forget e w = Some w' /\ speaker_inv w'.
Proof.
  intros Hw He Hs. pose proof (sv_queue _ Hw) as (q & Hq & Hl & Hall & Ht). unfold post_and_forget.
  destruct (post_spec e w q Hq Hl) as (w' & b & -> & Hap & Htx & Hev & Hb). cbn [mbind option_bind].
  exists w'. split; [done |]. apply (apart_inv w); [done | done |]. eexists. split; [exact Hev |].
  destruct b; [| by rewrite Htx]. specialize (Hb eq_refl). unfold SPEAKER_EVENTS in *.
  split; [rewrite zlen_app; change (zlen [e]) with 1; lia |].
  split; [by apply Forall_app_2; [| constructor] |].
  rewrite Htx. destruct Ht as [? ? ? ?].
  assert (Hsame : slots_of (q ++ [e]) = slots_of q).
  { rewrite slots_of_app. unfold slots_of at 2. cbn. rewrite Hs. apply app_nil_r. }
  split; by rewrite ?Hsame.
Qed.

Lemma post_text_spec attr attr_length attr_text w :
  speaker_inv w -> (forall t, attr_text = Some t -> Z.min attr_length 127 <= zlen t /\ bytes_wf t) ->
  exists w', post_text attr attr_length attr_text w = Some w' /\ speaker_inv w'.
Proof.
  intros Hw Hattr. pose proof (sv_queue _ Hw) as (q & Hq & Hl & Hall & Ht). unfold post_text.
  destruct (acquire_spec w q Hq Ht) as (t & [i|] & -> & Hi); cbn [mbind option_bind]; [| by exists w].
  destruct (Hi i eq_refl) as (Hr & Hfresh & Hu & Hbits & Hz & Htx). cbn [texts set_texts].
  unfold SPEAKER_TEXT_SLOTS in *. destruct (ld_is_Some (metadata_text t) i) as [l Hl0]; [lia |]. rewrite Hl0.
  cbn [mbind option_bind].
  destruct (store_text_spec l attr_length attr_text) as (l' & n & -> & Hl' & Hn);
    [rewrite Forall_lookup in Htx; eapply Htx; rewrite <- ld_lookup; [exact Hl0 | lia] | done |].
  cbn [mbind option_bind]. rewrite st_eq by lia. cbn [mbind option_bind].
  set (w1 := set_texts _ _). set (e := SpeakerEvent METADATA _ _ _).
  destruct (post_spec e w1 q Hq Hl) as (w2 & b & -> & Hap & Htx2 & Hev & Hb). cbn [mbind option_bind].
  assert (Hap1 : apart w w2) by (destruct Hap as (H1 & H2 & H3 & ?); by split_and!; try tauto).
  destruct Ht as [Hd Hrange _ _]. destruct b.
  - exists w2. split; [done |]. apply (apart_inv w); [done | done |]. exists (q ++ [e]). split; [done |].
    specialize (Hb eq_refl). unfold SPEAKER_EVENTS in *. split; [rewrite zlen_app; change (zlen [e]) with 1; lia |].
    split; [apply Forall_app_2; [done |]; constructor; [by split | constructor] |].
    assert (Hsl : slots_of (q ++ [e]) = slots_of q ++ [i]) by (by rewrite slots_of_app).
    rewrite Htx2. split; rewrite ?Hsl; cbn [metadata_used metadata_text texts w1 set_texts].
    + apply list.NoDup_app. split; [done |]. split; [intros j Hj Hj'; apply list_elem_of_singleton in Hj'; by subst |].
      apply NoDup_singleton.
    + apply Forall_app_2; [done |]. by constructor.
    + split; [done |]. intros k Hk. rewrite Hbits, elem_of_app, list_elem_of_singleton by done. tauto.
    + unfold SPEAKER_TEXT_SLOTS. split; [by rewrite zlen_insert | by apply Forall_insert].
  - destruct (text_release_spec w2 q i Hr Hfresh) as (t' & -> & Htt & Hu' & Hbits'); [by rewrite Htx2 | by rewrite Htx2 |].
    eexists. split; [reflexivity |]. apply (apart_inv w); [done | exact Hap1 |]. exists q. split; [done |].
    split; [done |]. split; [done |]. split; try done. cbn [texts set_texts].
    rewrite Htt, Htx2. cbn. unfold SPEAKER_TEXT_SLOTS. split; [by rewrite zlen_insert | by apply Forall_insert].
Qed.

Lemma request_inv r w : speaker_inv w -> response_of r = None -> speaker_inv (request r w).
Proof.
  intros Hw Hr. apply (apart_inv w); [done | |].
  - unfold request. destruct (issue r (dev w)). split_and!; try done. cbn. unfold responses. cbn. by rewrite Hr.
  - destruct (request_keeps r w Hr) as [[(He & Ht & _) _] _]. destruct (sv_queue _ Hw) as (q & ? & ? & ? & ?).
    exists q. by rewrite He, Ht.
Qed.

Lemma pairing_allowed_spec bda w : owner_ok w -> exists b, speaker_pairing_allowed bda w = Some b.
Proof.
  intros Hw. destruct (ow_bonds _ Hw). unfold speaker_pairing_allowed. rewrite ldn_eq by lia. by eexists.
Qed.

(** The stack's parameters: addresses have six bytes, a text the bytes announced. *)
Definition ct_event_ok (e : ct_event) : Prop :=
  match e with
  | CtConnection _ bda => zlen bda = 6
  | CtMetadata _ n text => forall t, text = Some t -> Z.min n 127 <= zlen t /\ bytes_wf t
  | _ => True
  end.
Definition gap_event_ok (e : gap_event) : Prop := match e with GapAuth _ bda => zlen bda = 6 | _ => True end.

Lemma peer_payload bda : zlen bda = 6 -> exists p, memcpy (replicate 6 0) 0 bda 0 6 = Some p /\ zlen p = 6.
Proof.
  intros Hb. rewrite memcpy_eq by (change (zlen (replicate 6 0)) with 6; lia). eexists. split; [reflexivity |].
  rewrite zlen_splice; rewrite ?zlen_slice by lia; change (zlen (replicate 6 0)) with 6; lia.
Qed.

Lemma ct_cb_spec e w : speaker_inv w -> ct_event_ok e -> exists w', ct_cb e w = Some w' /\ speaker_inv w'.
Proof.
  intros Hw He. destruct e as [up bda|bits|attr n text|ev pb pos|ps pos len|]; cbn [ct_cb ct_event_ok] in *.
  - destruct (peer_payload bda He) as (p & -> & Hp). cbn [mbind option_bind]. by apply post_plain.
  - by apply post_plain.
  - by apply post_text_spec.
  - repeat case_decide; try (by apply post_plain); by exists w.
  - destruct (post_plain (event PLAY_STATUS ps) w Hw) as (w1 & -> & Hw1); [done | done |].
    cbn [mbind option_bind]. by apply post_plain.
  - by exists w.
Qed.
Lemma tg_cb_spec e w : speaker_inv w -> exists w', tg_cb e w = Some w' /\ speaker_inv w'.
Proof.
  intros Hw. destruct e as [up|vol|ev|]; cbn [tg_cb].
  - by apply post_plain.
  - apply post_plain; [done | | done]. split; [done |]. cbn. change 127 with (Z.ones 7) at 1 2.
    rewrite Z.land_ones by lia. change (2 ^ 7) with 128. word.
  - case_decide; [by apply post_plain | by exists w].
  - by exists w.
Qed.
Lemma gap_cb_spec e w : speaker_inv w -> gap_event_ok e -> exists w', gap_cb e w = Some w' /\ speaker_inv w'.
Proof.
  intros Hw He. destruct e as [bda|bda m|stat bda|stat|]; cbn [gap_cb gap_event_ok] in *.
  - eexists. split; [reflexivity |]. by apply request_inv.
  - assert (Ha : exists b, (if m then Some false else speaker_pairing_allowed bda w) = Some b)
      by (destruct m; [by eexists | apply pairing_allowed_spec, Hw]).
    destruct Ha as [b ->]. cbn [mbind option_bind]. eexists. split; [reflexivity |]. by apply request_inv.
  - destruct (peer_payload bda He) as (p & -> & Hp). cbn [mbind option_bind]. by apply post_plain.
  - by apply post_plain.
  - by exists w.
Qed.

Lemma command_spec c v w :
  speaker_inv w -> 0 <= v ->
  exists w' rc, speaker_command c v w = Some (w', rc) /\ speaker_inv w' /\
    (rc = EAF_OK -> SPEAKER_STATUS <= c <= SPEAKER_FORGET /\ exists q, events w = Some q /\
       events w' = Some (q ++ [SpeakerEvent COMMAND c v (replicate 6 0)])).
Proof.
  intros Hw Hv. pose proof (sv_queue _ Hw) as (q & Hq & Hl & Hall & Ht). unfold speaker_command. rewrite Hq.
  destruct (_ || _) eqn:E; [by exists w, EAF_INVALID |].
  rewrite !orb_false_iff, !bool_decide_eq_false in E. destruct E as (((H1 & H2) & H3) & _).
  destruct (decide (zlen q < SPEAKER_EVENTS)) as [Hroom|Hroom]; [| by exists w, EAF_TIMEOUT]. eexists _, EAF_OK. split; [reflexivity |].
  split; [| intros _; split; [lia | by exists q]].
  apply (apart_inv w); [done | by split_and! |]. eexists. split; [reflexivity |].
  set (e := SpeakerEvent _ _ _ _). unfold SPEAKER_EVENTS in *.
  split; [rewrite zlen_app; change (zlen [e]) with 1; lia |].
  split.
  - apply Forall_app_2; [done |]. constructor; [| constructor]. split; [done |]. cbn. intros ->.
    apply andb_false_iff in H3. rewrite !bool_decide_eq_false in H3. lia.
  - assert (Hsame : slots_of (q ++ [e]) = slots_of q) by (rewrite slots_of_app; apply app_nil_r).
    destruct Ht. by split; rewrite ?Hsame.
Qed.

(** ** Rounds of the owner *)

Lemma handle_position_keeps e w : keeps_pair w (handle_position e w).
Proof.
  unfold handle_position.
  match goal with |- keeps_pair _ (if _ then speaker_avrcp_subscribe _ _ ?x else _) => assert (H : keeps_pair w x) end.
  { destruct (ct_connected _); [| done]. by apply speaker_status_keeps. }
  case_decide; [| done]. etransitivity; [exact H | apply subscribe_keeps].
Qed.

Lemma handle_auth_spec e w :
  owner_ok w -> exists w', handle_auth e w = Some w' /\ keeps w w' /\ (pair_ok w -> pair_ok w').
Proof.
  intros Hw. unfold handle_auth. destruct (_ && bool_decide (payload e = _)).
  - destruct (begin_forget_keeps w) as [H1 H2].
    destruct (refresh_bonds_spec (speaker_begin_forget w)) as (w' & -> & H3 & H4); [by apply H1 |].
    exists w'. split; [done |]. split; [by transitivity (speaker_begin_forget w) | auto].
  - destruct (refresh_bonds_spec w Hw) as (w' & -> & H3 & H4). by exists w'.
Qed.

Lemma dispatch_spec e w :
  owner_ok w -> event_ok e -> kind e <> METADATA ->
  exists w', dispatch_event e w = Some w' /\ keeps w w' /\ (pair_ok w -> pair_ok w').
Proof.
  intros Hw He Hk. assert (Hplain : forall f, keeps_pair w f -> exists w', Some f = Some w' /\ keeps w w' /\ (pair_ok w -> pair_ok w'))
    by (intros f [? ?]; by exists f).
  unfold dispatch_event. pose proof He as [_ He']. destruct (kind e) eqn:Ek; try done.
  - eexists. split; [reflexivity |]. by apply handle_command_spec.
  - destruct (handle_ct_link_spec (negb (bool_decide (value e = 0))) w Hw) as (w' & -> & H). by apply Hplain.
  - apply Hplain. by apply sp_keeps.
  - apply Hplain. by apply set_volume_keeps.
  - apply Hplain. destruct (tg_connected (sp w)) eqn:Et; [| done]. unfold speaker_avrcp_volume_reply, request.
    destruct (issue _ _) as [d err]. split; [split; [done |] | done]. intros [? ? ? ? Hecho ?]. split; cbn; try done.
    by apply (answered_once_cons (Some RspInterim)).
  - apply Hplain. transitivity (set_sp (put_capabilities (u16 (value e))) w); [by apply sp_keeps |].
    etransitivity; [apply subscribe_keeps |]. etransitivity; [apply subscribe_keeps |]. apply subscribe_keeps.
  - destruct (clear_track_spec w Hw) as (w1 & -> & H1). cbn [mbind option_bind]. apply Hplain.
    etransitivity; [exact H1 |]. etransitivity; [apply request_track_keeps | apply subscribe_keeps].
  - apply Hplain.
    match goal with |- keeps_pair _ (if _ then speaker_avrcp_subscribe _ _ ?x else _) => assert (H : keeps_pair w x) end.
    { destruct (ct_connected _); [| done]. by apply speaker_status_keeps. }
    case_decide; [| done]. etransitivity; [exact H | apply subscribe_keeps].
  - apply Hplain, handle_position_keeps.
  - by apply handle_auth_spec.
  - destruct (refresh_bonds_spec w Hw) as (w' & -> & H). by apply Hplain.
Qed.

(** A text event leaves the queue and its slot becomes free. *)
Lemma handle_metadata_spec e w q :
  owner_ok w -> events w = Some q -> zlen q <= SPEAKER_EVENTS -> Forall event_ok q -> event_ok e -> kind e = METADATA ->
  texts_ok (e :: q) (texts w) ->
  exists w', handle_metadata e w = Some w' /\ owner_ok w' /\ (pair_ok w -> pair_ok w') /\ queue_ok w'.
Proof.
  intros Hw Hq Hl Hall [Hpl _] Hk [Hd Hr [Hu Hbits] [Hz Htx]].
  destruct (payload e) as [|i p] eqn:Ep; [done |].
  assert (Hsl : slots_of (e :: q) = i :: slots_of q) by (unfold slots_of; cbn; unfold slot_of; by rewrite Hk, Ep).
  rewrite Hsl in Hd, Hr, Hbits. apply list.NoDup_cons in Hd as [Hfresh Hd]. apply List.Forall_cons_iff in Hr as [Hi Hr].
  unfold handle_metadata. rewrite Ep. cbn [ld]. change (ld (i :: p) 0) with (Some i). cbn [mbind option_bind].
  unfold speaker_text_read. unfold SPEAKER_TEXT_SLOTS in *.
  destruct (ld_is_Some (metadata_text (texts w)) i) as [text Htext]; [lia |]. rewrite Htext. cbn [mbind option_bind].
  assert (Hok : text_ok text) by (rewrite Forall_lookup in Htx; eapply Htx; rewrite <- ld_lookup; [exact Htext | lia]).
  assert (Hst : exists w1, (if ct_connected (sp w) then s ← text_received (value e) text (sp_status (sp w));
      Some (set_sp (on_status (fun _ => s)) w) else Some w) = Some w1 /\ keeps_pair w w1).
  { destruct (ct_connected (sp w)); [| by exists w].
    destruct (text_received_spec (value e) text (sp_status (sp w)) Hok (ow_status _ Hw)) as (s & -> & Hs & H1 & H2).
    cbn [mbind option_bind]. eexists. split; [reflexivity |]. split; [split; [done |] |].
    - intros [? ? ? ? ? ?]. by split.
    - unfold pair_ok. cbn. by rewrite H1, H2. }
  destruct Hst as (w1 & -> & [[(He1 & Ht1 & Ha1) Ho1] Hp1]). cbn [mbind option_bind].
  destruct (text_release_spec w1 q i) as (t & -> & Htt & Hu' & Hbits'); rewrite ?Ht1; try done.
  { intros k Hkr. rewrite Hbits, elem_of_cons by done. done. }
  specialize (Ho1 Hw). eexists. split; [reflexivity |]. split; [by destruct Ho1 |]. split; [exact Hp1 |].
  exists q. cbn. rewrite He1. split_and!; try done. split; try done. by rewrite Htt, Ht1.
Qed.

Lemma publish_inv w : owner_ok w -> pair_ok w -> queue_ok w -> speaker_inv (speaker_publish w).
Proof.
  intros Hw Hp Hq. destruct (publish_keeps w) as [[(He & Ht & _) H1] H2]. split; [| auto | auto | by apply publish_snapshot].
  destruct Hq as (q & ? & ? & ? & ?). exists q. by rewrite He, Ht.
Qed.
Lemma calm_queue w w' : calm w w' -> queue_ok w -> queue_ok w'.
Proof. intros (He & Ht & _) (q & ? & ? & ? & ?). exists q. by rewrite He, Ht. Qed.

Lemma handle_event_spec e q w :
  speaker_inv w -> events w = Some (e :: q) ->
  exists w', handle_event e (set_events q w) = Some w' /\ speaker_inv w'.
Proof.
  intros Hw Hq. destruct Hw as [(q0 & Hq0 & Hl & Hall & Ht) Hown Hpair _]. rewrite Hq in Hq0. injection Hq0 as <-.
  rewrite zlen_cons in Hl. apply List.Forall_cons_iff in Hall as [He Hall].
  set (w1 := set_events q w). assert (Hown1 : owner_ok w1) by (by destruct Hown).
  unfold handle_event. destruct (decide (kind e = METADATA)) as [Hk|Hk].
  - destruct (handle_metadata_spec e w1 q Hown1) as (w2 & H2 & Ho & Hp & Hq2); try done; [lia |].
    unfold dispatch_event. rewrite Hk, H2. cbn [mbind option_bind]. eexists. split; [reflexivity |]. by apply publish_inv; auto.
  - destruct (dispatch_spec e w1 Hown1 He Hk) as (w2 & -> & [Hcalm Ho] & Hp). cbn [mbind option_bind].
    eexists. split; [reflexivity |]. apply publish_inv; [auto | auto |]. eapply calm_queue; [exact Hcalm |].
    exists q. split; [done |]. split; [lia |]. split; [done |].
    assert (Hsl : slots_of (e :: q) = slots_of q).
    { unfold slots_of. cbn. unfold slot_of. by destruct (kind e). }
    destruct Ht. rewrite Hsl in *. by split.
Qed.

Lemma link_moved_spec link w :
  owner_ok w -> zlen (peer link) = 6 -> pair_ok w ->
  exists w', link_moved link w = Some w' /\ keeps w w' /\ pair_ok w'.
Proof.
  intros Hw Hlink Hp. unfold link_moved. case_decide; [by exists w |].
  set (w1 := set_sp (on_status _) w). assert (H1 : keeps w w1) by (split; [done |]; by intros []).
  assert (H2 : exists w2, (if connected link then link_up link w1 else speaker_avrcp_clear_track w1) = Some w2 /\ keeps w1 w2).
  { assert (Hw1 : owner_ok w1) by (by apply H1). destruct (connected link).
    - unfold link_up. pose proof (ow_peer _ Hw1). rewrite memcpy_eq by lia. cbn [mbind option_bind]. cbn zeta.
      set (w2 := set_sp (on_status _) (set_sp (put_peer _ true) w1)).
      assert (H2 : keeps w1 w2).
      { split; [done |]. intros [? ? ? ? ? ?]. split; try done. cbn.
        rewrite zlen_splice; rewrite ?zlen_slice by lia; cbn in *; lia. }
      assert (H3 : keeps w1 (speaker_nvs_touch w2)) by (etransitivity; [exact H2 | apply nvs_touch_keeps]).
      destruct (refresh_bonds_spec (speaker_nvs_touch w2)) as (w3 & -> & H4 & _); [by apply H3 |].
      exists w3. split; [done |]. by etransitivity.
    - destruct (clear_track_spec w1 Hw1) as (w2 & -> & H2 & _). by exists w2. }
  destruct H2 as (w2 & -> & H2). cbn [mbind option_bind]. eexists. split; [reflexivity |].
  destruct (scan_mode_keeps w2) as [H3 H4]. split; [| done]. etransitivity; [exact H1 |]. by etransitivity.
Qed.

Lemma gap_tick_spec now w :
  owner_ok w -> exists w', speaker_gap_tick now w = Some w' /\ keeps w w' /\ (pair_ok w -> pair_ok w').
Proof.
  intros Hw. unfold speaker_gap_tick. destruct (_ && _); [| by exists w].
  destruct (esp_bt_gap_get_bond_device_num (dev w)) as [d n]. pose proof (dev_keeps d w) as [H1 Hp1].
  set (w1 := set_dev d w) in *. case_decide.
  - destruct (refresh_bonds_spec w1) as (w2 & -> & H2 & _); [by apply H1 |]. cbn [mbind option_bind].
    set (w3 := set_sp (put_forgetting false) w2). assert (H3 : keeps w2 w3) by (split; [done |]; by intros []).
    destruct (start_pairing_keeps w3) as [H4 H5]. eexists. split; [reflexivity |]. split; [| auto].
    etransitivity; [exact H1 |]. etransitivity; [exact H2 |]. by etransitivity.
  - case_decide; [| by exists w1].
    destruct (esp_bt_gap_get_bond_device_list 1 (dev w1)) as [d2 [err l]] eqn:E.
    apply bond_list_fits in E as [Hl _]; [| lia]. pose proof (dev_keeps d2 w1) as [H2 Hp2]. set (w2 := set_dev d2 w1) in *.
    assert (H3 : exists w3, (if bool_decide (err = ESP_OK) && negb (bool_decide (zlen l = 0))
           then bda ← ld l 0; Some (request (RemoveBond bda) w2) else Some w2) = Some w3 /\ keeps_pair w2 w3).
    { destruct (_ && negb _) eqn:En; [| by exists w2]. apply andb_true_iff in En as [_ En%negb_true_iff%bool_decide_eq_false].
      destruct (ld_is_Some l 0) as [b ->]; [pose proof (zlen_nonneg l); lia |]. cbn [mbind option_bind].
      eexists. split; [reflexivity |]. by apply request_keeps. }
    destruct H3 as (w3 & -> & H3 & Hp3). cbn [mbind option_bind]. eexists. split; [reflexivity |].
    assert (H4 : keeps_pair w3 (set_remove_at (now + 2000) w3)) by (split; [split; [done |]; by intros [] | done]).
    destruct H4 as [H4 Hp4]. split; [| auto]. etransitivity; [exact H1 |]. etransitivity; [exact H2 |]. by etransitivity.
Qed.

Lemma resynchronize_spec w :
  owner_ok w -> exists w', resynchronize w = Some w' /\ keeps_pair w w'.
Proof.
  intros Hw. unfold resynchronize. set (w1 := set_shared _ w).
  assert (H1 : keeps_pair w w1) by (split; [split; [done |]; by intros [] | done]).
  destruct (negb _); [by exists w1 |].
  assert (H2 : keeps_pair w1 (speaker_disconnect w1)) by apply disconnect_keeps.
  destruct (clear_track_spec (speaker_disconnect w1)) as (w2 & -> & H3); [by apply H2, H1 |]. cbn [mbind option_bind].
  eexists. split; [reflexivity |]. etransitivity; [exact H1 |]. etransitivity; [exact H2 |]. etransitivity; [exact H3 |].
  by apply sp_keeps.
Qed.

Lemma tick_spec w :
  owner_ok w -> pair_ok w -> queue_ok w -> exists w', tick w = Some w' /\ speaker_inv w'.
Proof.
  intros Hw Hp Hq. unfold tick. pose proof (now_keeps w) as [H0 Hp0]. destruct (speaker_now_ms w) as [w0 now]. cbn [fst] in *.
  destruct (link_moved_spec (status (a2d w0)) w0) as (w1 & -> & H1 & Hp1);
    [by apply H0 | by apply (ow_link w0 (proj2 H0 Hw)) | by auto |]. cbn [mbind option_bind].
  set (w2 := set_sp (on_status (put_streaming _)) w1). assert (H2 : keeps_pair w1 w2) by (by apply speaker_status_keeps).
  destruct (gap_tick_spec now w2) as (w3 & -> & H3 & Hp3); [by apply H2, H1, H0 |]. cbn [mbind option_bind].
  pose proof (nvs_tick_keeps now w3) as [H4 Hp4]. set (w4 := speaker_nvs_tick now w3) in *.
  destruct (resynchronize_spec w4) as (w5 & -> & H5 & Hp5); [by apply H4, H3, H2, H1, H0 |]. cbn [mbind option_bind].
  assert (Hall : keeps w w5).
  { etransitivity; [exact H0 |]. etransitivity; [exact H1 |]. etransitivity; [exact (proj1 H2) |].
    etransitivity; [exact H3 |]. by etransitivity. }
  eexists. split; [reflexivity |]. apply publish_inv; [by apply Hall | by apply Hp5, Hp4, Hp3, H2 | by eapply calm_queue, Hq; apply Hall].
Qed.

Lemma round_spec w : speaker_inv w -> exists w', control_round w = Some w' /\ speaker_inv w'.
Proof.
  intros Hw. unfold control_round. pose proof (sv_queue _ Hw) as (q & Hq & _). rewrite Hq. cbn [mbind option_bind].
  assert (H1 : exists w1, (match q with [] => Some w | e :: q' => handle_event e (set_events q' w) end) = Some w1 /\ speaker_inv w1).
  { destruct q as [|e q']; [by exists w |]. by apply handle_event_spec. }
  destruct H1 as (w1 & -> & [Hq1 Ho1 Hp1 _]). cbn [mbind option_bind]. by apply tick_spec.
Qed.
End inv.
