(* ===== verification/SpeakerSession.v ===== *)
(** Sessions of the Bluetooth speaker: callbacks, commands and rounds of the owner
    task in any order, and the properties of [speaker*.c]. *)

From S2P Require Import Prelude Types Bytes BtIngress BtEspIdf Speaker SpeakerSafe.

Inductive speaker_op :=
| OpCt (e : ct_event)
| OpTg (e : tg_event)
| OpGap (e : gap_event)
| OpLink (e : a2d_event)
| OpCommand (command v : Z)
| OpRound.

Section session.
Context {D : Type} {HB : Bluedroid D} {HA : AvrcConstants} {HC : A2dpConstants} {HS : A2dpStack D}.
Implicit Type w : speaker_world D.

(** The stack calls the A2DP callback once [eaf_bt_esp_idf_register] has set the codec. *)
Definition speaker_exec (op : speaker_op) w : ub (speaker_world D) :=
  match op with
  | OpCt e => ct_cb e w
  | OpTg e => tg_cb e w
  | OpGap e => gap_cb e w
  | OpLink e =>
      match codec (a2d w) with
      | Some _ => '(s, _) ← a2d_cb (a2d w) e; Some (set_a2d s w)
      | None => Some w
      end
  | OpCommand c v => '(w, _) ← speaker_command c v w; Some w
  | OpRound => control_round w
  end.
Fixpoint speaker_run (ops : list speaker_op) w : ub (speaker_world D) :=
  match ops with
  | [] => Some w
  | op :: ops' => w ← speaker_exec op w; speaker_run ops' w
  end.

Definition speaker_op_ok (op : speaker_op) : Prop :=
  match op with
  | OpCt e => ct_event_ok e
  | OpGap e => gap_event_ok e
  | OpLink e => a2d_op_ok (Event e)
  | OpCommand _ v => 0 <= v
  | _ => True
  end.

(** The file-scope variables as the program is loaded. *)
Definition speaker_static (s : a2d_state) (d : D) : speaker_world D :=
  World speaker_zero None
    (SpeakerShared 127 false speaker_status_zero false (replicate (Z.to_nat SPEAKER_BONDS) (replicate 6 0)) 0)
    (SpeakerTexts (replicate (Z.to_nat SPEAKER_TEXT_SLOTS) text_zero) 0) (SpeakerSettings false false 0) 0 s d [].

Context {HL : @BondLaws D HB}.

Lemma a2d_cb_link e (s : a2d_state) :
  zlen (peer (status s)) = 6 -> is_Some (codec s) -> a2d_op_ok (Event e) ->
  exists s' es, a2d_cb s e = Some (s', es) /\ zlen (peer (status s')) = 6.
Proof.
  intros Hp [c Hc] He. destruct e as [ok|conn bda|mcc|started|]; cbn [a2d_cb a2d_op_ok] in *.
  - by eexists _, _.
  - unfold link_changed. cbn [status mark_break set_ingress set_flow]. rewrite memcpy_eq by lia.
    cbn [mbind option_bind]. eexists _, _. split; [reflexivity |]. cbn. rewrite zlen_splice; rewrite ?zlen_slice; lia.
  - rewrite Hc. cbn [mbind option_bind]. by eexists _, _.
  - by eexists _, _.
  - by eexists _, _.
Qed.

Lemma exec_spec op w :
  speaker_inv w -> speaker_op_ok op -> exists w', speaker_exec op w = Some w' /\ speaker_inv w'.
Proof.
  intros Hw Hop. destruct op as [e|e|e|e|c v|]; cbn [speaker_exec speaker_op_ok] in *.
  - by apply ct_cb_spec.
  - by apply tg_cb_spec.
  - by apply gap_cb_spec.
  - destruct (codec (a2d w)) as [c|] eqn:Ec; [| by exists w]. destruct Hw as [Hq [? ? ? Hl ? ?] Hp Hs].
    destruct (a2d_cb_link e (a2d w) Hl) as (s & es & -> & Hs'); [by eexists | done |]. cbn [mbind option_bind].
    eexists. split; [reflexivity |]. by split; [| split | |].
  - destruct (command_spec c v w Hw Hop) as (w' & rc & -> & Hw' & _). by exists w'.
  - by apply round_spec.
Qed.
Lemma speaker_run_spec ops w :
  speaker_inv w -> Forall speaker_op_ok ops -> exists w', speaker_run ops w = Some w' /\ speaker_inv w'.
Proof.
  revert w. induction ops as [|op ops IH]; intros w Hw Hops; [by exists w |].
  apply List.Forall_cons_iff in Hops as [Hop Hops]. destruct (exec_spec op w Hw Hop) as (w1 & H1 & Hw1).
  cbn [speaker_run]. rewrite H1. cbn [mbind option_bind]. by apply IH.
Qed.

Lemma speaker_start_spec nvs s d :
  zlen (peer (status s)) = 6 -> (forall err blob, nvs = Some (err, blob) -> zlen blob <= 6) ->
  exists w, speaker_start true true nvs (speaker_static s d) = Some (w, EAF_OK) /\ speaker_inv w /\ a2d w = s.
Proof.
  intros Hs Hnvs. unfold speaker_start. cbn [negb]. set (w0 := set_sp _ (set_events [] (speaker_static s d))).
  assert (Hnvs' : exists w1, speaker_nvs_init nvs w0 = Some w1 /\ events w1 = Some [] /\ texts w1 = texts w0 /\
    a2d w1 = s /\ owner_ok w1 /\ pair_ok w1).
  { assert (H0 : owner_ok w0).
    { split; cbn; try done; split_and!; try apply text_zero_ok; done. }
    destruct nvs as [[err blob]|]; cbn [speaker_nvs_init]; [| by exists w0].
    specialize (Hnvs err blob eq_refl). pose proof (zlen_nonneg blob). pose proof (ow_peer _ H0).
    rewrite memcpy_eq by lia. cbn [mbind option_bind]. eexists. split; [reflexivity |]. split_and!; try done.
    destruct H0. split; try done.
    change (zlen (splice (last_peer (sp w0)) 0 (slice blob 0 (zlen blob))) = 6).
    rewrite zlen_splice; rewrite ?zlen_slice; lia. }
  destruct Hnvs' as (w1 & -> & He & Ht & Ha & Ho & Hp). cbn [mbind option_bind].
  destruct (publish_keeps w1) as [[Hc1 Ho1] Hp1]. set (w2 := speaker_publish w1) in *.
  destruct (refresh_bonds_spec w2) as (w3 & -> & [Hc3 Ho3] & Hp3); [auto |]. cbn [mbind option_bind].
  destruct (scan_mode_keeps w3) as [[Hc4 Ho4] Hp4]. eexists. split; [reflexivity |].
  assert (Hq : queue_ok (speaker_scan_mode w3)).
  { eapply calm_queue; [exact Hc4 |]. eapply calm_queue; [exact Hc3 |]. eapply calm_queue; [exact Hc1 |].
    exists []. split; [done |]. split; [done |]. split; [constructor |]. rewrite Ht.
    split; [constructor | constructor | | split; [done | apply Forall_replicate, text_zero_ok]].
    split; [done |]. intros i Hi. cbn. rewrite Z.bits_0. split; [done | intros Hin; inversion Hin]. }
  split.
  - split; [done | auto | done |]. unfold speaker_scan_mode in *.
    apply publish_snapshot. by destruct (Ho4 (Ho3 (Ho1 Ho))).
  - destruct Hc4 as (_ & _ & ->), Hc3 as (_ & _ & ->), Hc1 as (_ & _ & ->). done.
Qed.
End session.

(** ** Forgetting *)

(** What the stack is documented to do with bonds and time: a removal takes the
    peer out of the list and nothing else changes it; the clock does not go back,
    and a millisecond passes from one round's look at it to the next. *)
Class HonestStack (D : Type) `{!Bluedroid D} := {
  bonds_of : D -> list (list Z);
  now_of : D -> Z;
  honest_bonds d : Forall (fun b => zlen b = 6) (bonds_of d);
  honest_num d d' n : esp_bt_gap_get_bond_device_num d = (d', n) ->
    n = zlen (bonds_of d) /\ bonds_of d' = bonds_of d /\ now_of d <= now_of d';
  honest_list n d d' err l : 0 < n -> esp_bt_gap_get_bond_device_list n d = (d', (err, l)) ->
    err = ESP_OK /\ l = take (Z.to_nat n) (bonds_of d) /\ bonds_of d' = bonds_of d /\ now_of d <= now_of d';
  honest_issue r d d' err : issue r d = (d', err) -> now_of d <= now_of d' /\
    bonds_of d' = match r with
                  | RemoveBond bda => List.filter (fun b => negb (bool_decide (b = bda))) (bonds_of d)
                  | _ => bonds_of d end;
  honest_clock d d' t : esp_timer_get_time d = (d', t) ->
    0 <= now_of d <= t /\ t + 1000 <= now_of d' /\ bonds_of d' = bonds_of d
}.
#[global] Hint Mode HonestStack ! - : typeclass_instances.

#[global] Instance honest_bond_laws {D} {HB : Bluedroid D} {HH : HonestStack D} : @BondLaws D HB.
Proof.
  constructor. intros n d d' err l Hn E. apply honest_list in E as (_ & -> & _ & _); [| done]. split.
  - pose proof (zlen_take_le (bonds_of d) (Z.to_nat n)). lia.
  - apply Forall_take, honest_bonds.
Qed.

Ltac solve_still := split; cbn; try lia; done.

Section forget.
Context {D : Type} {HB : Bluedroid D} {HA : AvrcConstants} {HC : A2dpConstants} {HS : A2dpStack D} {HH : HonestStack D}.
Implicit Type w : speaker_world D.

Definition link_down w : Prop := connected (status (a2d w)) = false /\ connecting (status (a2d w)) = false.
Definition ms_of w : Z := now_of (dev w) / 1000.

(** Steps that leave the forgetting alone. *)
Record still w w' : Prop := {
  still_link : a2d w' = a2d w;
  still_events : events w' = events w;
  still_remove : remove_at w' = remove_at w;
  still_bonds : bonds_of (dev w') = bonds_of (dev w);
  still_now : now_of (dev w) <= now_of (dev w');
  still_forget : forgetting (sp w') = forgetting (sp w);
  still_status : st_connected (sp_status (sp w')) = st_connected (sp_status (sp w)) /\
    pairing (sp_status (sp w')) = pairing (sp_status (sp w))
}.
#[local] Instance still_pre : PreOrder still.
Proof.
  split; [intros w; solve_still |].
  intros x y z [? ? ? ? ? ? [? ?]] [? ? ? ? ? ? [? ?]]. split; try congruence; [lia | split; congruence].
Qed.

Lemma request_still r w : (match r with RemoveBond _ => False | _ => True end) -> still w (request r w).
Proof.
  intros Hr. unfold request. destruct (issue r (dev w)) as [d err] eqn:E. apply honest_issue in E as [? Hb].
  split; try done. cbn. rewrite Hb. by destruct r.
Qed.
Lemma clear_track_still w w' : speaker_avrcp_clear_track w = Some w' -> still w w'.
Proof.
  unfold speaker_avrcp_clear_track. destruct (cut (title _)); [| discriminate]. destruct (cut (artist _)); [| discriminate].
  destruct (cut (album _)); [| discriminate].
  intros [= <-]. solve_still.
Qed.
Lemma nvs_tick_still now w : still w (speaker_nvs_tick now w).
Proof.
  unfold speaker_nvs_tick, save_settings. destruct (_ && _); [| done]. destruct (negb _); [done |].
  set (w1 := if _ && _ then _ else _).
  transitivity w1; [unfold w1; destruct (_ && _); [by apply request_still | done] |].
  transitivity (request CommitSettings w1); [by apply request_still | solve_still].
Qed.
Lemma disconnect_down w : link_down w -> speaker_disconnect w = w.
Proof. intros [H1 H2]. unfold speaker_disconnect. by rewrite H1, H2. Qed.

Lemma resynchronize_still w w' : link_down w -> resynchronize w = Some w' -> still w w'.
Proof.
  intros Hl. unfold resynchronize. destruct (negb _); [intros [= <-]; solve_still |].
  rewrite disconnect_down by exact Hl. set (w1 := set_shared _ w). destruct (speaker_avrcp_clear_track w1) as [w2|] eqn:E; [| done].
  intros [= <-]. apply clear_track_still in E. transitivity w2; [| solve_still].
  transitivity w1; [solve_still | done].
Qed.

Lemma refresh_still w w' : speaker_refresh_bonds w = Some w' -> still w w'.
Proof.
  unfold speaker_refresh_bonds.
  destruct (esp_bt_gap_get_bond_device_list SPEAKER_BONDS (dev w)) as [d [err l]] eqn:E.
  apply honest_list in E as (_ & _ & Hb & Hn); [| done]. destruct (decide (err <> ESP_OK)); [intros [= <-]; by split |].
  destruct (memcpy _ _ _ _ _); [| done]. intros [= <-]. by split.
Qed.

(** With the link down, a tick removes a bond, waits, or finds none and pairs. *)
Lemma gap_tick_forgets now w w' :
  link_down w -> st_connected (sp_status (sp w)) = false -> forgetting (sp w) = true ->
  speaker_gap_tick now w = Some w' ->
  a2d w' = a2d w /\ events w' = events w /\ now_of (dev w) <= now_of (dev w') /\
  st_connected (sp_status (sp w')) = false /\
  (bonds_of (dev w') = [] /\ forgetting (sp w') = false /\ pairing (sp_status (sp w')) = true \/
   forgetting (sp w') = true /\ remove_at w' = now + 2000 /\ zlen (bonds_of (dev w')) < zlen (bonds_of (dev w)) \/
   forgetting (sp w') = true /\ remove_at w' = remove_at w /\ now < remove_at w /\ bonds_of (dev w') = bonds_of (dev w)).
Proof.
  intros Hl Hst Hf. pose proof Hl as [Hl1 Hl2]. unfold speaker_gap_tick. rewrite Hf, Hl1, Hl2. cbn [negb andb].
  destruct (esp_bt_gap_get_bond_device_num (dev w)) as [d n] eqn:E. apply honest_num in E as (-> & Hb & Hn).
  destruct (decide (zlen (bonds_of (dev w)) = 0)) as [H0|H0].
  - destruct (speaker_refresh_bonds (set_dev d w)) as [w1|] eqn:E1; [| done]. cbn [mbind option_bind]. intros [= <-].
    destruct (refresh_still _ _ E1) as [A1 A2 A3 A4 A5 A6 [A7 A8]]. cbn in *.
    unfold speaker_start_pairing. rewrite disconnect_down by (unfold link_down; cbn; by rewrite A1).
    unfold speaker_scan_mode. cbn. set (w2 := set_sp _ w1). rewrite A7, Hst. cbn.
    pose proof (request_still (ScanMode true true) w2 I) as [B1 B2 B3 B4 B5 B6 [B7 B8]]. cbn in *.
    split; [by rewrite B1 |]. split; [by rewrite B2 |]. split; [lia |]. split; [rewrite B7; unfold w2; cbn; by rewrite A7 |].
    left. split; [rewrite B4, A4, Hb; by apply zlen_0_nil |]. done.
  - cbn [remove_at set_dev]. destruct (decide (remove_at w <= now)) as [Hr|Hr].
    + destruct (esp_bt_gap_get_bond_device_list 1 (dev (set_dev d w))) as [d2 [err l]] eqn:E2.
      apply honest_list in E2 as (-> & Hlist & Hb2 & Hn2); [| lia]. cbn [dev set_dev] in *. rewrite Hb in *.
      destruct (bonds_of (dev w)) as [|b rest] eqn:Eb; [done |]. change (Z.to_nat 1) with 1%nat in Hlist. cbn [take] in Hlist.
      subst l. rewrite bool_decide_eq_true_2 by done. cbn. unfold request. intros [= <-]. cbn.
      destruct (issue (RemoveBond b) d2) as [d3 e3] eqn:E3. apply honest_issue in E3 as [Hn3 Hb3]. rewrite Hb2 in Hb3.
      cbn. split_and!; try done; try lia. right; left. split; [done |]. split; [done |].
      rewrite Hb3. cbn. rewrite bool_decide_eq_true_2 by done. cbn. unfold zlen.
      pose proof (filter_length_le (fun x => negb (bool_decide (x = b))) rest). cbn [length]. lia.
    + intros [= <-]. cbn. split_and!; try done. right; right. split_and!; try done. lia.
Qed.

(** One round with nothing to handle. *)
Lemma round_forgets w w' :
  link_down w -> st_connected (sp_status (sp w)) = false -> forgetting (sp w) = true -> events w = Some [] ->
  control_round w = Some w' ->
  link_down w' /\ st_connected (sp_status (sp w')) = false /\ events w' = Some [] /\
  exists now, ms_of w <= now < ms_of w' /\
  (bonds_of (dev w') = [] /\ forgetting (sp w') = false /\ pairing (sp_status (sp w')) = true \/
   forgetting (sp w') = true /\ remove_at w' = now + 2000 /\ zlen (bonds_of (dev w')) < zlen (bonds_of (dev w)) \/
   forgetting (sp w') = true /\ remove_at w' = remove_at w /\ now < remove_at w /\ bonds_of (dev w') = bonds_of (dev w)).
Proof.
  intros Hl Hst Hf Hev. unfold control_round. rewrite Hev. cbn [mbind option_bind]. unfold tick, speaker_now_ms.
  destruct (esp_timer_get_time (dev w)) as [d t] eqn:E. apply honest_clock in E as ([Hn0 Hn] & Hd & Hb).
  cbn [a2d set_dev]. unfold link_moved. rewrite decide_True by (cbn; destruct Hl; congruence). cbn [mbind option_bind].
  set (w2 := set_sp (on_status (put_streaming _)) (set_dev d w)).
  destruct (speaker_gap_tick (t ÷ 1000) w2) as [w3|] eqn:E3; [| discriminate]. cbn [mbind option_bind].
  destruct (resynchronize (speaker_nvs_tick (t ÷ 1000) w3)) as [w5|] eqn:E5; [| discriminate]. cbn [mbind option_bind].
  intros [= <-]. apply gap_tick_forgets in E3 as (A1 & A2 & A3 & A4 & Hcase); [| exact Hl | exact Hst | exact Hf].
  pose proof (nvs_tick_still (t ÷ 1000) w3) as H4. set (w4 := speaker_nvs_tick _ w3) in *.
  assert (Hl4 : link_down w4) by (unfold link_down; rewrite (still_link _ _ H4), A1; exact Hl).
  apply resynchronize_still in E5; [| done]. assert (H35 : still w3 (speaker_publish w5)).
  { transitivity w4; [done |]. transitivity w5; [done | solve_still]. }
  destruct H35 as [B1 B2 B3 B4 B5 B6 [B7 B8]]. cbn in Hcase, A2, A3.
  split; [unfold link_down; rewrite B1, A1; exact Hl |]. split; [congruence |]. split; [congruence |].
  assert (Ht : t ÷ 1000 = t / 1000) by (apply Z.quot_div_nonneg; lia). rewrite Ht in Hcase. exists (t / 1000).
  split.
  { unfold ms_of. split; [apply Z.div_le_mono; lia |].
    apply Z.lt_le_trans with ((t + 1000) / 1000); [| apply Z.div_le_mono; lia].
    replace ((t + 1000) / 1000) with (t / 1000 + 1) by (rewrite <- (Z.div_add t 1 1000) by lia; f_equal; lia). lia. }
  rewrite B3, B4, B6, B8. rewrite <- Hb. exact Hcase.
Qed.

Lemma forget_rounds (m : nat) w :
  speaker_inv w -> link_down w -> st_connected (sp_status (sp w)) = false -> forgetting (sp w) = true -> events w = Some [] ->
  2001 * zlen (bonds_of (dev w)) + Z.max 0 (remove_at w - ms_of w) <= Z.of_nat m ->
  exists n w', (n <= S m)%nat /\ speaker_run (replicate n OpRound) w = Some w' /\ speaker_inv w' /\
    forgetting (sp w') = false /\ pairing (sp_status (sp w')) = true /\ bonds_of (dev w') = [].
Proof.
  revert w. induction m as [|m IH]; intros w Hw Hl Hst Hf Hev Hm.
  all: destruct (round_spec w Hw) as (w1 & H1 & Hw1);
    destruct (round_forgets w w1 Hl Hst Hf Hev H1) as (Hl1 & Hst1 & Hev1 & now & Hnow & Hcase);
    pose proof (zlen_nonneg (bonds_of (dev w))); pose proof (zlen_nonneg (bonds_of (dev w1)));
    destruct Hcase as [(Hb & Hf1 & Hp)|Hcase];
    [exists 1%nat, w1; cbn [replicate speaker_run speaker_exec]; rewrite H1; split_and!; try done; lia |].
  - exfalso. destruct Hcase as [(_ & _ & ?)|(_ & _ & ? & _)]; lia.
  - assert (Hf1 : forgetting (sp w1) = true) by (by destruct Hcase as [[? _]|[? _]]).
    destruct (IH w1) as (n & w' & Hn & Hrun & H'); try done.
    { destruct Hcase as [(_ & Hr & ?)|(_ & Hr & ? & Hb)]; rewrite Hr; [lia | rewrite Hb; lia]. }
    exists (S n), w'. split; [lia |]. split; [| done]. cbn [replicate speaker_run speaker_exec]. by rewrite H1.
Qed.
End forget.

(** ** Properties *)



(** ** A stack for the witnesses

    A clock, the bonds, and the peer in the settings; each look at the clock takes
    half a second. *)
Record demo_stack := DemoStack { clock : N; bonded : list Z; saved : option (list Z) }.
Definition demo_peer (i : Z) : list Z := replicate 6 i.
Definition demo_keep (bda : list Z) (i : Z) : bool := negb (bool_decide (demo_peer i = bda)).

#[export] Instance demo_bluedroid : Bluedroid demo_stack :=
  { issue := fun r d =>
      (match r with
       | RemoveBond bda => DemoStack (clock d) (List.filter (demo_keep bda) (bonded d)) (saved d)
       | SavePeer p => DemoStack (clock d) (bonded d) (Some p)
       | ErasePeer => DemoStack (clock d) (bonded d) None
       | _ => d end, 0);
    esp_bt_gap_get_bond_device_num := fun d => (d, zlen (bonded d));
    esp_bt_gap_get_bond_device_list := fun n d => (d, (0, take (Z.to_nat n) (demo_peer <$> bonded d)));
    esp_timer_get_time := fun d => (DemoStack (clock d + 500000) (bonded d) (saved d), Z.of_N (clock d)) }.
#[export] Instance demo_avrc : AvrcConstants :=
  {| ESP_BT_STATUS_SUCCESS := 0; MD_ATTR_TITLE := 1; MD_ATTR_ARTIST := 2; MD_ATTR_ALBUM := 4; RN_TRACK_CHANGE := 2;
     RN_PLAY_STATUS_CHANGE := 1; RN_PLAY_POS_CHANGED := 5; RN_VOLUME_CHANGE := 13;
     rn_event_in := fun bits e => Z.testbit bits e |}.
#[export] Instance demo_a2dp : A2dpConstants := idf_constants.
#[export] Instance demo_sink : A2dpStack demo_stack := {| a2d_call := fun _ d => (d, ESP_OK) |}.

Lemma demo_filter bda l :
  demo_peer <$> List.filter (demo_keep bda) l = List.filter (fun b => negb (bool_decide (b = bda))) (demo_peer <$> l).
Proof.
  induction l as [|i l IH]; [done |]. cbn [List.filter fmap list_fmap]. unfold demo_keep at 1.
  destruct (negb (bool_decide (demo_peer i = bda))); [cbn [fmap list_fmap]; by rewrite IH | done].
Qed.
#[export] Instance demo_honest : HonestStack demo_stack.
Proof.
  refine {| bonds_of := fun d => demo_peer <$> bonded d; now_of := fun d => Z.of_N (clock d) |}.
  - intros d. apply Forall_fmap, Forall_true. done.
  - intros d d' n [= <- <-]. split; [by rewrite zlen_fmap | done].
  - intros n d d' err l _ [= <- <- <-]. done.
  - intros r d d' err [= <- _]. split; [by destruct r |]. destruct r; try done. apply demo_filter.
  - intros d d' t [= <- <-]. cbn. split_and!; [lia | lia | lia | done].
Defined.

(** The registered binding, and a session: two bonds, a link with a title, the
    volume, and the command to forget; the link goes down. *)
Definition demo_binding : a2d_state :=
  A2dState None true (Some (CodecDesc 0 sbc_fill_caps sbc_accepts)) 44100 1 true false false status_zero [].
Definition demo_device : demo_stack := DemoStack 0 [7; 9] (Some (demo_peer 7)).
Definition demo_speaker_ops : list speaker_op :=
  [OpLink (ConnectionState ConnConnected (demo_peer 7)); OpRound; OpCt (CtConnection true (demo_peer 7)); OpRound;
   OpTg (TgConnection true); OpTg (TgRegister 13); OpCt (CtMetadata 1 4 (Some [72; 7; 105; 33]));
   OpRound; OpRound; OpRound; OpCommand SPEAKER_VOLUME 64; OpCommand SPEAKER_MUTE 1; OpRound; OpRound;
   OpCommand SPEAKER_FORGET 0; OpRound; OpLink (ConnectionState ConnOther (demo_peer 7)); OpRound].
Lemma demo_speaker_ops_ok : Forall speaker_op_ok demo_speaker_ops.
Proof.
  unfold demo_speaker_ops. repeat (apply Forall_cons_2; [first [done | lia | cbn] |]); [| apply Forall_nil_2].
  intros t [= <-]. split; [done |]. repeat (apply Forall_cons_2; [word |]). apply Forall_nil_2.
Qed.
Lemma demo_nvs_ok : forall (err : Z) (blob : list Z), Some (0, demo_peer 7) = Some (err, blob) -> zlen blob <= 6.
Proof. intros err blob [= _ <-]. done. Qed.

(** The title's bell became a space, and its first byte went when the link did; one
    CHANGED was sent; one bond is already removed. *)
Example demo_speaker_result :
  (w ← speaker_start true true (Some (0, demo_peer 7)) (speaker_static demo_binding demo_device);
   w' ← speaker_run demo_speaker_ops w.1;
   Some (take 5 (title (speaker_get_status w')), speaker_audio_level w', responses (issued w'), bonded (dev w'),
     forgetting (sp w'), remove_at w'))
  = Some ([0; 32; 105; 33; 0], 192, [RspChanged; RspInterim], [9], true, 7500).
Proof. vm_compute. reflexivity. Qed.

Lemma demo_started : exists w0 w,
  speaker_start true true (Some (0, demo_peer 7)) (speaker_static demo_binding demo_device) = Some (w0, EAF_OK) /\
  speaker_run demo_speaker_ops w0 = Some w.
Proof.
  destruct (speaker_start_spec (Some (0, demo_peer 7)) demo_binding demo_device eq_refl demo_nvs_ok) as (w0 & H0 & Hw0 & _).
  destruct (speaker_run_spec demo_speaker_ops w0 Hw0 demo_speaker_ops_ok) as (w & Hw & _). by exists w0, w.
Qed.


Lemma demo_forgetting :
  (w ← speaker_start true true (Some (0, demo_peer 7)) (speaker_static demo_binding demo_device);
   w' ← speaker_run demo_speaker_ops w.1;
   Some (connected (status (a2d w')), connecting (status (a2d w')), st_connected (sp_status (sp w')), forgetting (sp w'), events w'))
  = Some (false, false, false, true, Some []).
Proof. vm_compute. reflexivity. Qed.


(** [speaker.h] says the command to forget removes the remembered peer.  When it is
    handled between the stack's report of a new link and the owner's next look at
    it, the same round remembers the peer again, and it is saved two seconds later if
    its bond, the only one, is removed by then. *)
Example forgotten_peer_saved :
  (w ← speaker_start true true (Some (1, [])) (speaker_static demo_binding (DemoStack 0 [9] None));
   w' ← speaker_run ([OpCommand SPEAKER_FORGET 0; OpLink (ConnectionState ConnConnected (demo_peer 9)); OpRound;
                      OpLink (ConnectionState ConnOther (demo_peer 9))] ++ replicate 9 OpRound) w.1;
   Some (forgetting (sp w'), bonded (dev w'), have_peer (sp w'), saved (dev w')))
  = Some (false, [], true, Some (demo_peer 9)).
Proof. vm_compute. reflexivity. Qed.
