(* ===== verification/SinkAlsa.v ===== *)
(** The ALSA sink: [hal/linux/sink_alsa.c], [include/eaf/eaf_sink_alsa.h].  The PCM
    library and the clock are the parameter [D]. *)

From S2P Require Import Prelude Types.

Definition EAF_ALSA_MAX_FRAMES : Z := 1024.
(** Linux's values. *)
Definition EPIPE : Z := 32.
Definition EAGAIN : Z := 11.
Definition EINTR : Z := 4.

(** The library: results are as it documents them, negative on errors. *)
Class AlsaPcm (D : Type) := {
  snd_pcm_open : D -> D * Z;
  snd_pcm_set_params : Z -> Z -> D -> D * Z;            (* channels, rate *)
  snd_pcm_prepare : D -> D * Z;
  snd_pcm_is_set_up : D -> D * bool;                    (* the state is OPEN or SETUP *)
  snd_pcm_drop : D -> D * Z;
  snd_pcm_writei : list Z -> Z -> D -> D * Z;           (* samples, frames *)
  snd_pcm_wait : Z -> D -> D;
  snd_pcm_drain : D -> D * Z;
  snd_pcm_pause : bool -> D -> D * Z;
  snd_pcm_delay : D -> D * Z * Z;                       (* result, *delay *)
  snd_pcm_close : D -> D * Z;
  hal_monotonic_time_us : D -> D * Z;
  hal_sleep_ms : Z -> D -> D;
}.
#[global] Hint Mode AlsaPcm ! : typeclass_instances.

Record eaf_alsa_sink_ctx_t := AlsaCtx {
  pcm : bool;                     (* void *pcm is not NULL *)
  samples : list Z;               (* int32_t samples[EAF_ALSA_MAX_FRAMES * 2] *)
  buffer : eaf_buffer_t;
  frames_written : Z;
  xruns : Z;
  running : bool;
  acquired : bool;
  paused : bool;
  pause_drained : bool
}.

Definition set_pcm (x : bool) (s : eaf_alsa_sink_ctx_t) : eaf_alsa_sink_ctx_t :=
  AlsaCtx x (samples s) (buffer s) (frames_written s) (xruns s) (running s) (acquired s) (paused s) (pause_drained s).
Definition set_buffer (b : eaf_buffer_t) (s : eaf_alsa_sink_ctx_t) : eaf_alsa_sink_ctx_t :=
  AlsaCtx (pcm s) (samples s) b (frames_written s) (xruns s) (running s) (acquired s) (paused s) (pause_drained s).
Definition set_counts (n x : Z) (s : eaf_alsa_sink_ctx_t) : eaf_alsa_sink_ctx_t :=
  AlsaCtx (pcm s) (samples s) (buffer s) n x (running s) (acquired s) (paused s) (pause_drained s).
Definition set_flags (r a p : bool) (s : eaf_alsa_sink_ctx_t) : eaf_alsa_sink_ctx_t :=
  AlsaCtx (pcm s) (samples s) (buffer s) (frames_written s) (xruns s) r a p (pause_drained s).
Definition set_drained (x : bool) (s : eaf_alsa_sink_ctx_t) : eaf_alsa_sink_ctx_t :=
  AlsaCtx (pcm s) (samples s) (buffer s) (frames_written s) (xruns s) (running s) (acquired s) (paused s) x.

(** The tag of the sink's own array in [eaf_buffer_t]. *)
Definition ALSA_SAMPLES : Z := 1.

Section sink.
Context {D : Type} `{!AlsaPcm D}.
Implicit Types (s : eaf_alsa_sink_ctx_t) (d : D).

Definition init s d (fmt : ptr eaf_format_t) (frames : Z) : eaf_alsa_sink_ctx_t * D * Z :=
  match fmt with
  | None => (s, d, EAF_INVALID)
  | Some f =>
      if pcm s || negb (eaf_format_valid fmt) || bool_decide (frames = 0) || bool_decide (EAF_ALSA_MAX_FRAMES < frames)
         || negb ((bool_decide (num_channels f = 1) && bool_decide (channel_mask f = 8)) ||
                  (bool_decide (num_channels f = 2) && bool_decide (channel_mask f = 3)))
      then (s, d, EAF_INVALID)
      else
        let '(d, rc) := snd_pcm_open d in
        if decide (rc < 0) then (s, d, EAF_IO)
        else
          let s := set_pcm true s in
          let '(d, rc) := snd_pcm_set_params (num_channels f) (sample_rate f) d in
          if decide (rc < 0) then (s, d, EAF_UNSUPPORTED)
          else
            (set_buffer (Buffer ALSA_SAMPLES (u32 frames) EAF_ALSA_MAX_FRAMES (EAF_ALSA_MAX_FRAMES * 2) f 0) s, d, EAF_OK)
  end.

Definition start s d : eaf_alsa_sink_ctx_t * D * Z :=
  if negb (pcm s) || running s then (s, d, EAF_STATE)
  else
    let '(d, rc) := snd_pcm_prepare d in
    if decide (rc < 0) then (s, d, EAF_IO)
    else (set_drained false (set_flags true false false (set_counts 0 0 s)), d, EAF_OK).

Definition stop s d : eaf_alsa_sink_ctx_t * D * Z :=
  if negb (pcm s) then (s, d, EAF_OK)
  else
    let '(d, idle) := snd_pcm_is_set_up d in
    let '(d, rc) := if idle : bool then (d, 0) else snd_pcm_drop d in
    if decide (rc < 0) then (s, d, EAF_IO) else (set_flags false false false s, d, EAF_OK).

(** On success the caller gets [&s->buffer]. *)
Definition acquire s (has_buf : bool) : eaf_alsa_sink_ctx_t * Z :=
  if negb (running s) || acquired s || paused s || negb has_buf then (s, EAF_STATE)
  else (set_flags (running s) true (paused s) s, EAF_OK).

(** The deadline bounds the loop as long as the clock moves; [fuel] is the number of
    microseconds up to it. *)
Fixpoint drain_loop (fuel : nat) d (deadline : Z) : ub (D * Z) :=
  let '(d, rc) := snd_pcm_drain d in
  if decide (rc = - EAGAIN \/ rc = - EINTR) then
    match fuel with
    | O => None
    | S fuel' =>
        let '(d, now) := hal_monotonic_time_us d in
        if decide (deadline <= now) then Some (d, EAF_IO) else drain_loop fuel' (hal_sleep_ms 1 d) deadline
    end
  else Some (d, if decide (rc < 0) then EAF_IO else EAF_OK).
Definition DRAIN_US : Z := 1000000.

Definition eaf_alsa_drain s d : ub (D * Z) :=
  if negb (pcm s) || negb (running s) || paused s then Some (d, EAF_STATE)
  else
    let '(d, now) := hal_monotonic_time_us d in
    drain_loop (Z.to_nat (DRAIN_US + 1)) d (u64 (now + DRAIN_US)).

Definition COMMIT_US : Z := 250000.
(** The sending loop of [commit]; returns how many frames went out and the code. *)
Fixpoint send_loop (fuel : nat) s d (sent deadline : Z) : ub (eaf_alsa_sink_ctx_t * D * Z * Z) :=
  let b := buffer s in
  if decide (frame_count b <= sent) then Some (s, d, sent, EAF_OK)
  else
    match fuel with
    | O => None
    | S fuel' =>
        let '(d, now) := hal_monotonic_time_us d in
        if decide (deadline <= now) then Some (s, d, sent, EAF_IO)
        else
          let left := frame_count b - sent in
          l ← ldn (samples s) (sent * num_channels (format b)) (left * num_channels (format b));
          let '(d, n) := snd_pcm_writei l left d in
          if decide (0 < n) then send_loop fuel' s d (u32 (sent + n)) deadline
          else
            let s := if decide (n = - EPIPE) then set_counts (frames_written s) (u32 (xruns s + 1)) s else s in
            let '(d, again) := if decide (n = - EPIPE)
                               then let '(d, rc) := snd_pcm_prepare d in (d, bool_decide (0 <= rc)) else (d, false) in
            if again : bool then send_loop fuel' s d sent deadline
            else if decide (n = - EAGAIN \/ n = - EINTR \/ n = 0) then send_loop fuel' s (snd_pcm_wait 10 d) sent deadline
            else Some (s, d, sent, EAF_IO)
    end.

(** [own] tells whether the caller passed [&s->buffer], whose fields it may have
    changed before. *)
Definition commit s d (own : bool) : ub (eaf_alsa_sink_ctx_t * D * Z) :=
  if negb (running s) || negb (acquired s) || negb own || bool_decide (EAF_ALSA_MAX_FRAMES < frame_count (buffer s))
  then Some (s, d, EAF_STATE)
  else
    let '(d, now) := hal_monotonic_time_us d in
    '(s, d, sent, rc) ← send_loop (Z.to_nat (COMMIT_US + 1)) s d 0 (u64 (now + COMMIT_US));
    let s := set_flags (running s) false (paused s) (set_counts (u64 (frames_written s + sent)) (xruns s) s) in
    if bool_decide (rc = 0) && negb (bool_decide (Z.land (flags (buffer s)) EAF_FRAME_EOS = 0))
    then '(d, rc) ← eaf_alsa_drain s d; Some (s, d, rc)
    else Some (s, d, rc).

Definition eaf_alsa_pause s d (pause : bool) : ub (eaf_alsa_sink_ctx_t * D * Z) :=
  if negb (pcm s) || negb (running s) then Some (s, d, EAF_STATE)
  else if Bool.eqb (paused s) pause then Some (s, d, EAF_OK)
  else if pause then
    let '(d, rc) := snd_pcm_pause true d in
    let s := set_drained (bool_decide (rc < 0)) s in
    '(d, rc) ← (if pause_drained s then eaf_alsa_drain s d else Some (d, 0));
    Some (if decide (rc <> 0) then (s, d, EAF_IO) else (set_flags (running s) (acquired s) true s, d, EAF_OK))
  else
    let '(d, rc) := if pause_drained s then snd_pcm_prepare d else snd_pcm_pause false d in
    Some (if decide (rc < 0) then (s, d, EAF_IO) else (set_flags (running s) (acquired s) false s, d, EAF_OK)).

Definition eaf_alsa_delay s d : D * Z :=
  if negb (pcm s) then (d, 0)
  else
    let '(d, rc, delay) := snd_pcm_delay d in
    (d, if decide (rc < 0 \/ delay <= 0) then 0 else if decide (UINT32_MAX < delay) then UINT32_MAX else delay).

Definition adjust (ppm : Z) : Z := EAF_UNSUPPORTED.

Definition deinit s d : eaf_alsa_sink_ctx_t * D * Z :=
  if negb (pcm s) then (s, d, EAF_OK)
  else
    let '(s, d, rc) := stop s d in
    if decide (rc <> 0) then (s, d, rc)
    else
      let '(d, rc) := snd_pcm_close d in
      (set_flags false false (paused s) (set_pcm false s), d, if decide (rc < 0) then EAF_IO else EAF_OK).
End sink.

(** ** What the library is documented to do

    [heard] are the samples it has taken so far, [handles] the PCMs open.  Closing
    consumes the handle even when it reports an error.  A microsecond passes between
    two looks at the clock. *)
Record undisturbed {D} (heard : D -> list Z) (handles clock : D -> Z) (d d' : D) : Prop := {
  un_heard : heard d' = heard d;
  un_handles : handles d' = handles d;
  un_clock : clock d <= clock d'
}.
Class AlsaLaws (D : Type) {HP : AlsaPcm D} := {
  heard : D -> list Z;
  handles : D -> Z;
  clock : D -> Z;
  quiet := undisturbed heard handles clock;
  law_open d d' rc : snd_pcm_open d = (d', rc) ->
    heard d' = heard d /\ clock d <= clock d' /\ handles d' = handles d + (if decide (rc < 0) then 0 else 1);
  law_close d d' rc : snd_pcm_close d = (d', rc) ->
    heard d' = heard d /\ clock d <= clock d' /\ handles d' = handles d - 1;
  law_set_params c r d d' rc : snd_pcm_set_params c r d = (d', rc) -> quiet d d';
  law_prepare d d' rc : snd_pcm_prepare d = (d', rc) -> quiet d d';
  law_state d d' x : snd_pcm_is_set_up d = (d', x) -> quiet d d';
  law_drop d d' rc : snd_pcm_drop d = (d', rc) -> quiet d d';
  law_wait ms d : quiet d (snd_pcm_wait ms d);
  law_drain d d' rc : snd_pcm_drain d = (d', rc) -> quiet d d';
  law_pause x d d' rc : snd_pcm_pause x d = (d', rc) -> quiet d d';
  law_delay d d' rc n : snd_pcm_delay d = (d', rc, n) -> quiet d d';
  law_sleep ms d : quiet d (hal_sleep_ms ms d);
  law_clock d d' t : hal_monotonic_time_us d = (d', t) ->
    heard d' = heard d /\ handles d' = handles d /\ 0 <= clock d <= t /\ t < clock d';
  law_write l n d d' r : 0 < n -> snd_pcm_writei l n d = (d', r) ->
    r <= n /\ handles d' = handles d /\ clock d <= clock d' /\
    heard d' = heard d ++ slice l 0 (Z.max 0 r * (zlen l / n))
}.

Section proofs.
Context {D : Type} {HP : AlsaPcm D} {HL : AlsaLaws D}.
Implicit Types (s : eaf_alsa_sink_ctx_t) (d : D).

#[local] Instance quiet_pre : PreOrder quiet.
Proof. split; [done |]. intros x y z [? ? ?] [? ? ?]. split; [congruence | congruence | lia]. Qed.

Lemma u64_le x : 0 <= x -> u64 x <= x.
Proof. word. Qed.

Lemma drain_loop_spec fuel d deadline :
  deadline - clock d < Z.of_nat fuel -> 0 < Z.of_nat fuel ->
  exists d' rc, drain_loop fuel d deadline = Some (d', rc) /\ quiet d d' /\ (rc = EAF_OK \/ rc = EAF_IO).
Proof.
  revert d. induction fuel as [|fuel IH]; intros d Hf H0; [lia |]. cbn [drain_loop].
  destruct (snd_pcm_drain d) as [d1 rc] eqn:E1. apply law_drain in E1.
  destruct (decide (rc = _ \/ _)).
  2: { eexists _, _. split; [reflexivity |]. split; [done |]. case_decide; auto. }
  destruct (hal_monotonic_time_us d1) as [d2 now] eqn:E2. apply law_clock in E2 as (A1 & A2 & A3 & A4).
  assert (Hq : quiet d d2) by (destruct E1 as [? ? ?]; split; [congruence | congruence | lia]).
  destruct (decide (deadline <= now)); [by exists d2, EAF_IO; auto |].
  pose proof (law_sleep 1 d2) as Hs. destruct E1 as [_ _ Hc1]. destruct Hs as [S1 S2 S3].
  destruct (IH (hal_sleep_ms 1 d2)) as (d' & rc' & -> & Hd' & Hrc); [lia | lia |].
  exists d', rc'. split; [done |]. split; [| done]. transitivity d2; [done |].
  transitivity (hal_sleep_ms 1 d2); [by split | done].
Qed.

Lemma alsa_drain_spec s d :
  exists d' rc, eaf_alsa_drain s d = Some (d', rc) /\ quiet d d'.
Proof.
  unfold eaf_alsa_drain. destruct (_ || _); [by eexists _, _ |].
  destruct (hal_monotonic_time_us d) as [d1 now] eqn:E. apply law_clock in E as (A1 & A2 & A3 & A4).
  destruct (drain_loop_spec (Z.to_nat (DRAIN_US + 1)) d1 (u64 (now + DRAIN_US))) as (d' & rc & -> & Hq & _);
    [pose proof (u64_le (now + DRAIN_US)); unfold DRAIN_US in *; lia | unfold DRAIN_US; lia |].
  exists d', rc. split; [done |]. transitivity d1; [split; [done | done | lia] | done].
Qed.

(** The sink's buffer as a caller may leave it: in the sink's own array. *)
Record buffer_ok s : Prop := {
  bo_samples : zlen (samples s) = EAF_ALSA_MAX_FRAMES * 2;
  bo_frames : is_u32 (frame_count (buffer s));
  bo_channels : 1 <= num_channels (format (buffer s)) <= 2
}.

(** Two states that differ in the underrun count. *)
Definition same_but_xruns s s' : Prop := s' = set_counts (frames_written s) (xruns s') s.

Lemma send_loop_spec fuel s d sent deadline :
  let ch := num_channels (format (buffer s)) in
  buffer_ok s -> frame_count (buffer s) <= EAF_ALSA_MAX_FRAMES -> 0 <= sent <= frame_count (buffer s) ->
  deadline - clock d < Z.of_nat fuel -> 0 < Z.of_nat fuel ->
  exists s' d' sent' rc, send_loop fuel s d sent deadline = Some (s', d', sent', rc) /\ same_but_xruns s s' /\
    handles d' = handles d /\ clock d <= clock d' /\ sent <= sent' <= frame_count (buffer s) /\
    heard d' = heard d ++ slice (samples s) (sent * ch) ((sent' - sent) * ch) /\
    (rc = EAF_OK /\ sent' = frame_count (buffer s) \/ rc = EAF_IO /\ sent' < frame_count (buffer s)).
Proof.
  intros ch. revert s d sent ch. induction fuel as [|fuel IH]; intros s d sent ch Hb Hmax Hsent Hf H0; [lia |].
  pose proof Hb as [Hz Hu Hch]. unfold EAF_ALSA_MAX_FRAMES in *. cbn [send_loop].
  assert (Hsame : same_but_xruns s s) by (by destruct s).
  destruct (decide (frame_count (buffer s) <= sent)) as [Hx|Hx].
  { exists s, d, sent, EAF_OK. rewrite Z.sub_diag, Z.mul_0_l, slice_nil_n, app_nil_r.
    split_and!; try done; try lia; try (left; split; [done | lia]). }
  destruct (hal_monotonic_time_us d) as [d1 now] eqn:E. apply law_clock in E as (A1 & A2 & A3 & A4).
  destruct (decide (deadline <= now)) as [Hy|Hy].
  { exists s, d1, sent, EAF_IO. rewrite Z.sub_diag, Z.mul_0_l, slice_nil_n, app_nil_r.
    split_and!; try done; try lia; try (right; split; [done | lia]). }
  fold ch. rewrite ldn_eq by nia. cbn [mbind option_bind]. set (left := frame_count (buffer s) - sent) in *.
  destruct (snd_pcm_writei _ left d1) as [d2 n] eqn:E2.
  apply law_write in E2 as (W1 & W2 & W3 & W4); [| unfold left; lia].
  rewrite zlen_slice in W4 by (unfold left; nia). rewrite (Z.mul_comm left ch), Z.div_mul in W4 by (unfold left; lia).
  assert (Hnone : n <= 0 -> heard d2 = heard d).
  { intros Hn. rewrite W4, Z.max_l, Z.mul_0_l, slice_nil_n, app_nil_r by lia. done. }
  destruct (decide (0 < n)) as [Hn|Hn].
  - rewrite u32_small by (word_unfold; unfold left in *; lia).
    destruct (IH s d2 (sent + n) Hb Hmax) as (s' & d' & sent' & rc & -> & B1 & B2 & B3 & B4 & B5 & B6); [unfold left in *; lia | lia | lia |].
    exists s', d', sent', rc. split_and!; try done; try lia.
    rewrite B5, W4, A1, <- app_assoc. f_equal. rewrite Z.max_r, slice_inner by (unfold left in *; nia).
    rewrite Z.add_0_r. replace ((sent' - sent) * ch) with (n * ch + (sent' - (sent + n)) * ch) by lia.
    rewrite slice_add by nia. f_equal. f_equal. lia.
  - specialize (Hnone ltac:(lia)).
    set (s1 := if decide (n = - EPIPE) then _ else s). assert (Hs1 : same_but_xruns s s1) by (unfold s1; by case_decide).
    assert (Hprep : exists d3 again, (if decide (n = - EPIPE) then let '(d, rc) := snd_pcm_prepare d2 in (d, bool_decide (0 <= rc)) else (d2, false))
      = (d3, again) /\ quiet d2 d3).
    { case_decide; [| by eexists _, _]. destruct (snd_pcm_prepare d2) as [d3 rc] eqn:E3. apply law_prepare in E3. by eexists _, _. }
    destruct Hprep as (d3 & again & -> & [P1 P2 P3]).
    assert (Hs1b : buffer s1 = buffer s /\ samples s1 = samples s) by (rewrite Hs1; done). destruct Hs1b as [Hbuf Hsam].
    assert (Hb1 : buffer_ok s1) by (split; rewrite ?Hbuf, ?Hsam; done).
    assert (Hgo : forall d4, quiet d3 d4 -> exists s' d' sent' rc, send_loop fuel s1 d4 sent deadline = Some (s', d', sent', rc) /\
      same_but_xruns s s' /\ handles d' = handles d /\ clock d <= clock d' /\ sent <= sent' <= frame_count (buffer s) /\
      heard d' = heard d ++ slice (samples s) (sent * ch) ((sent' - sent) * ch) /\
      (rc = EAF_OK /\ sent' = frame_count (buffer s) \/ rc = EAF_IO /\ sent' < frame_count (buffer s))).
    { intros d4 [Q1 Q2 Q3]. destruct (IH s1 d4 sent Hb1) as (s' & d' & sent' & rc & H1 & B1 & B2 & B3 & B4 & B5 & B6);
        rewrite ?Hbuf; try done; [lia | lia |]. rewrite Hbuf, Hsam in *. exists s', d', sent', rc. split; [done |].
      split; [unfold same_but_xruns in *; rewrite B1, Hs1; done |]. split; [congruence |]. split; [lia |]. split; [lia |].
      split; [rewrite B5; fold ch; f_equal; congruence | done]. }
    destruct again; [by apply Hgo |]. destruct (decide (n = _ \/ _)); [apply Hgo, law_wait |].
    exists s1, d3, sent, EAF_IO. rewrite Z.sub_diag, Z.mul_0_l, slice_nil_n, app_nil_r.
    split_and!; try done; try lia; try congruence; try (right; split; [done | lia]).
Qed.

Lemma commit_spec s d own :
  buffer_ok s -> running s = true -> acquired s = true -> own = true -> frame_count (buffer s) <= EAF_ALSA_MAX_FRAMES ->
  exists s' d' rc k, commit s d own = Some (s', d', rc) /\ 0 <= k <= frame_count (buffer s) /\
    s' = set_flags true false (paused s) (set_counts (u64 (frames_written s + k)) (xruns s') s) /\
    handles d' = handles d /\ heard d' = heard d ++ slice (samples s) 0 (k * num_channels (format (buffer s))) /\
    (rc = EAF_OK -> k = frame_count (buffer s)) /\
    (Z.land (flags (buffer s)) EAF_FRAME_EOS = 0 -> k = frame_count (buffer s) -> rc = EAF_OK).
Proof.
  intros Hb Hr Ha -> Hmax. unfold commit. rewrite Hr, Ha, bool_decide_eq_false_2 by lia. cbn [negb orb].
  destruct (hal_monotonic_time_us d) as [d1 now] eqn:E. apply law_clock in E as (A1 & A2 & A3 & A4).
  pose proof (bo_frames _ Hb) as Hu. unfold is_u32 in Hu.
  destruct (send_loop_spec (Z.to_nat (COMMIT_US + 1)) s d1 0 (u64 (now + COMMIT_US)) Hb Hmax ltac:(lia))
    as (s1 & d2 & k & rc & -> & Hs1 & B2 & _ & B4 & B5 & B6);
    [pose proof (u64_le (now + COMMIT_US)); unfold COMMIT_US in *; lia | unfold COMMIT_US; lia |].
  cbn [mbind option_bind]. rewrite Z.mul_0_l, Z.sub_0_r, A1 in B5.
  assert (Hx : xruns (set_flags (running s1) false (paused s1) (set_counts (u64 (frames_written s1 + k)) (xruns s1) s1)) = xruns s1) by done.
  assert (Hs' : set_flags (running s1) false (paused s1) (set_counts (u64 (frames_written s1 + k)) (xruns s1) s1)
    = set_flags true false (paused s) (set_counts (u64 (frames_written s + k)) (xruns s1) s)).
  { rewrite Hs1. unfold set_flags, set_counts. cbn. by rewrite Hr. }
  cbn [buffer set_flags set_counts]. replace (flags (buffer s1)) with (flags (buffer s)) by (by rewrite Hs1).
  destruct (bool_decide (rc = 0) && _) eqn:Eos.
  - apply andb_true_iff in Eos as [Hrc%bool_decide_eq_true Hf%negb_true_iff%bool_decide_eq_false].
    destruct (alsa_drain_spec (set_flags (running s1) false (paused s1) (set_counts (u64 (frames_written s1 + k)) (xruns s1) s1)) d2)
      as (d3 & rc' & -> & [Q1 Q2 Q3]). cbn [mbind option_bind].
    eexists _, d3, rc', k. split; [reflexivity |]. rewrite Hx, Hs'. split_and!; try done; try lia; try congruence.
    intros _. destruct B6 as [[_ ?]|[-> _]]; done.
  - eexists _, d2, rc, k. split; [reflexivity |]. rewrite Hx, Hs'. split_and!; try done; try lia; try congruence.
    by intros ->; destruct B6 as [[_ ?]|[? _]].
Qed.

(** ** Sessions of the sink's owner *)

Inductive alsa_call :=
| AInit (fmt : ptr eaf_format_t) (frames : Z)
| AStart | AStop | AAcquire
| ACommit (b : eaf_buffer_t) (l : list Z)      (* the buffer as the caller left it *)
| ADrain | APause (x : bool) | ADelay | ADeinit.

Definition alsa_exec (c : alsa_call) s d : ub (eaf_alsa_sink_ctx_t * D) :=
  match c with
  | AInit fmt n => let '(s, d, _) := init s d fmt n in Some (s, d)
  | AStart => let '(s, d, _) := start s d in Some (s, d)
  | AStop => let '(s, d, _) := stop s d in Some (s, d)
  | AAcquire => let '(s, _) := acquire s true in Some (s, d)
  | ACommit b l =>
      let s := AlsaCtx (pcm s) l b (frames_written s) (xruns s) (running s) (acquired s) (paused s) (pause_drained s) in
      '(s, d, _) ← commit s d true; Some (s, d)
  | ADrain => '(d, _) ← eaf_alsa_drain s d; Some (s, d)
  | APause x => '(s, d, _) ← eaf_alsa_pause s d x; Some (s, d)
  | ADelay => let '(d, _) := eaf_alsa_delay s d in Some (s, d)
  | ADeinit => let '(s, d, _) := deinit s d in Some (s, d)
  end.
Fixpoint alsa_run (cs : list alsa_call) s d : ub (eaf_alsa_sink_ctx_t * D) :=
  match cs with [] => Some (s, d) | c :: cs' => '(s, d) ← alsa_exec c s d; alsa_run cs' s d end.

(** A committed buffer is still in the sink's array and mono or stereo. *)
Definition alsa_call_ok (c : alsa_call) : Prop :=
  match c with
  | ACommit b l => zlen l = EAF_ALSA_MAX_FRAMES * 2 /\ is_u32 (frame_count b) /\ 1 <= num_channels (format b) <= 2
  | _ => True
  end.

Record alsa_inv (h : Z) s d : Prop := {
  ai_handles : handles d = h + (if pcm s then 1 else 0);
  ai_running : running s = true -> pcm s = true;
  ai_acquired : acquired s = true \/ paused s = true -> running s = true
}.

Lemma quiet_inv h s d d' : alsa_inv h s d -> quiet d d' -> alsa_inv h s d'.
Proof. intros [? ? ?] [? ? ?]. split; try done. lia. Qed.

Lemma alsa_stop_spec h s d :
  alsa_inv h s d -> exists s' d' rc, stop s d = (s', d', rc) /\ alsa_inv h s' d' /\
    (rc = EAF_OK -> pcm s = true -> s' = set_flags false false false s).
Proof.
  intros Hi. unfold stop. destruct (pcm s) eqn:Ep; cbn [negb]; [| by exists s, d, EAF_OK].
  destruct (snd_pcm_is_set_up d) as [d1 idle] eqn:E1. apply law_state in E1.
  assert (H2 : exists d2 rc, (if idle then (d1, 0) else snd_pcm_drop d1) = (d2, rc) /\ quiet d d2).
  { destruct idle; [by eexists _, _ |]. destruct (snd_pcm_drop d1) as [d2 rc] eqn:E2. apply law_drop in E2.
    eexists _, _. split; [reflexivity |]. by transitivity d1. }
  destruct H2 as (d2 & rc & -> & Hq). case_decide.
  - exists s, d2, EAF_IO. split; [done |]. split; [by eapply quiet_inv | done].
  - eexists _, d2, EAF_OK. split; [reflexivity |]. split; [| done]. destruct (quiet_inv _ _ _ _ Hi Hq) as [? ? ?].
    split; cbn; try done. by intros [?|?].
Qed.

Lemma alsa_exec_spec h c s d :
  alsa_inv h s d -> alsa_call_ok c -> exists s' d', alsa_exec c s d = Some (s', d') /\ alsa_inv h s' d'.
Proof.
  intros Hi Hok. pose proof Hi as [Hh Hr Ha]. destruct c as [fmt n| | | |b l| |x| |]; cbn [alsa_exec].
  - unfold init. destruct fmt as [f|]; [| by exists s, d]. destruct (_ || _) eqn:E; [by exists s, d |].
    rewrite !orb_false_iff in E. destruct E as ((((Ep & _) & _) & _) & _). rewrite Ep in Hh.
    destruct (snd_pcm_open d) as [d1 rc] eqn:E1. apply law_open in E1 as (_ & _ & H1). case_decide.
    { eexists _, _. split; [reflexivity |]. split; [rewrite Ep; lia | done | done]. }
    assert (Hi1 : alsa_inv h (set_pcm true s) d1) by (split; cbn; [lia | done | done]).
    destruct (snd_pcm_set_params _ _ d1) as [d2 rc2] eqn:E2. apply law_set_params in E2.
    pose proof (quiet_inv _ _ _ _ Hi1 E2) as [? ? ?]. case_decide; (eexists _, _; split; [reflexivity |]; by split).
  - unfold start. destruct (negb (pcm s) || running s) eqn:E; [by exists s, d |].
    apply orb_false_iff in E as [Ep%negb_false_iff Er]. destruct (snd_pcm_prepare d) as [d1 rc] eqn:E1. apply law_prepare in E1.
    pose proof (quiet_inv _ _ _ _ Hi E1) as [? ? ?]. case_decide; (eexists _, _; split; [reflexivity |]; by split).
  - destruct (alsa_stop_spec h s d Hi) as (s' & d' & rc & -> & ? & _). by exists s', d'.
  - unfold acquire. destruct (_ || _) eqn:E; [by exists s, d |]. rewrite !orb_false_iff in E.
    destruct E as (((Er%negb_false_iff & _) & _) & _). eexists _, _. split; [reflexivity |]. by split; cbn; auto.
  - destruct Hok as (Hl & Hf & Hc). set (s0 := AlsaCtx _ l b _ _ _ _ _ _). assert (Hi0 : alsa_inv h s0 d) by (by split).
    destruct (running s && acquired s && bool_decide (frame_count b <= EAF_ALSA_MAX_FRAMES)) eqn:E.
    + rewrite !andb_true_iff, bool_decide_eq_true in E. destruct E as ((Er & Eq) & Em).
      destruct (commit_spec s0 d true) as (s' & d' & rc & k & -> & _ & -> & Hh' & _); try done.
      cbn [mbind option_bind]. eexists _, _. split; [reflexivity |]. split; cbn; [by rewrite Hh' | auto | auto].
    + unfold commit. replace (_ || _ || _ || _) with true; [by eexists _, _ |]. symmetry. cbn.
      destruct (running s); [| done]. destruct (acquired s); [| done]. cbn in *. apply bool_decide_eq_false in E.
      apply bool_decide_eq_true. lia.
  - destruct (alsa_drain_spec s d) as (d' & rc & -> & Hq). cbn [mbind option_bind]. eexists _, _. split; [reflexivity |].
    by eapply quiet_inv.
  - unfold eaf_alsa_pause. destruct (_ || _) eqn:E; [by exists s, d |].
    apply orb_false_iff in E as [Ep%negb_false_iff Er%negb_false_iff]. destruct (Bool.eqb _ _); [by exists s, d |]. destruct x.
    + destruct (snd_pcm_pause true d) as [d1 rc] eqn:E1. apply law_pause in E1. set (s1 := set_drained _ s).
      assert (H2 : exists d2 rc2, (if pause_drained s1 then eaf_alsa_drain s1 d1 else Some (d1, 0)) = Some (d2, rc2) /\ quiet d d2).
      { destruct (pause_drained s1); [| by eexists _, _].
        destruct (alsa_drain_spec s1 d1) as (d2 & rc2 & -> & Hq). eexists _, _. split; [reflexivity |]. by transitivity d1. }
      destruct H2 as (d2 & rc2 & -> & Hq). cbn [mbind option_bind]. pose proof (quiet_inv _ _ _ _ Hi Hq) as [? ? ?].
      case_decide; (eexists _, _; split; [reflexivity |]; by split).
    + assert (H1 : exists d1 rc, (if pause_drained s then snd_pcm_prepare d else snd_pcm_pause false d) = (d1, rc) /\ quiet d d1).
      { destruct (pause_drained s); [destruct (snd_pcm_prepare d) as [d1 rc] eqn:E1; apply law_prepare in E1 |
          destruct (snd_pcm_pause false d) as [d1 rc] eqn:E1; apply law_pause in E1]; by eexists _, _. }
      destruct H1 as (d1 & rc & -> & Hq). cbn [mbind option_bind]. pose proof (quiet_inv _ _ _ _ Hi Hq) as [? ? ?].
      case_decide; (eexists _, _; split; [reflexivity |]; by split).
  - unfold eaf_alsa_delay. destruct (negb (pcm s)); [by exists s, d |].
    destruct (snd_pcm_delay d) as [[d1 rc] n] eqn:E1. apply law_delay in E1. eexists _, _. split; [reflexivity |].
    by eapply quiet_inv.
  - unfold deinit. destruct (pcm s) eqn:Ep; cbn [negb]; [| by exists s, d].
    destruct (alsa_stop_spec h s d Hi) as (s1 & d1 & rc & -> & Hi1 & Hs1). case_decide as Hrc; [by exists s1, d1 |].
    destruct (snd_pcm_close d1) as [d2 rc2] eqn:E2. apply law_close in E2 as (_ & _ & Hh2).
    assert (Hrc0 : rc = EAF_OK) by (unfold EAF_OK; lia). rewrite (Hs1 Hrc0 Ep) in *. destruct Hi1 as [Hh1 _ _].
    eexists _, _. split; [reflexivity |]. split; cbn in *; [rewrite Ep in Hh1; lia | done | by intros [?|?]].
Qed.
Lemma alsa_run_spec h cs s d :
  alsa_inv h s d -> Forall alsa_call_ok cs -> exists s' d', alsa_run cs s d = Some (s', d') /\ alsa_inv h s' d'.
Proof.
  revert s d. induction cs as [|c cs IH]; intros s d Hi Hcs; [by exists s, d |].
  apply List.Forall_cons_iff in Hcs as [Hc Hcs]. destruct (alsa_exec_spec h c s d Hi Hc) as (s1 & d1 & H1 & Hi1).
  cbn [alsa_run]. rewrite H1. cbn [mbind option_bind]. by apply IH.
Qed.
End proofs.

Definition alsa_zero : eaf_alsa_sink_ctx_t :=
  AlsaCtx false (replicate (Z.to_nat (EAF_ALSA_MAX_FRAMES * 2)) 0) (Buffer 0 0 0 0 format_zero 0) 0 0 false false false false.
Definition with_block (b : eaf_buffer_t) (l : list Z) (s : eaf_alsa_sink_ctx_t) : eaf_alsa_sink_ctx_t :=
  AlsaCtx (pcm s) l b (frames_written s) (xruns s) (running s) (acquired s) (paused s) (pause_drained s).

(** ** Property *)

(** C36: The ALSA sink, under any calls of its owner and any errors of the library.
    Every call returns: the waits for room and for the end end with the clock, and
    no sample outside the array is read.  The PCM handle is owned exactly while
    [pcm] is set, so it is closed once and never lost, also after a start-up that
    failed half-way.  A commit hands the block's first [k] frames to the library,
    each once and in order, also across short writes, underruns and retries; it
    reports success only when these are all, and always ends the acquisition. *)
Theorem alsa_sink_sound {D} {HP : AlsaPcm D} {HL : AlsaLaws D} (d0 : D) (cs : list alsa_call) :
  Forall alsa_call_ok cs ->
  exists s d, alsa_run cs alsa_zero d0 = Some (s, d) /\
    handles d = handles d0 + (if pcm s then 1 else 0) /\ (running s = true -> pcm s = true) /\
    (acquired s = true \/ paused s = true -> running s = true) /\
    forall b l, alsa_call_ok (ACommit b l) -> running s = true -> acquired s = true -> frame_count b <= EAF_ALSA_MAX_FRAMES ->
      exists s' d' rc k, commit (with_block b l s) d true = Some (s', d', rc) /\ 0 <= k <= frame_count b /\
        acquired s' = false /\ running s' = true /\ frames_written s' = u64 (frames_written s + k) /\
        heard d' = heard d ++ slice l 0 (k * num_channels (format b)) /\ (rc = EAF_OK -> k = frame_count b).
Proof.
  intros Hcs. destruct (alsa_run_spec (handles d0) cs alsa_zero d0) as (s & d & Hrun & [H1 H2 H3]);
    [split; cbn; [lia | done | by intros [?|?]] | done |].
  exists s, d. split_and!; try done. intros b l (Hl & Hf & Hc) Hr Ha Hm.
  destruct (commit_spec (with_block b l s) d true) as (s' & d' & rc & k & -> & Hk & Hs & _ & Hh & Hok & _); try done.
  exists s', d', rc, k. split; [done |]. split; [done |]. rewrite Hs. by split_and!.
Qed.

(** A library that takes at most two frames at a time and reports an underrun when
    the clock is a multiple of three. *)
Record demo_pcm := DemoPcm { d_heard : list Z; d_open : Z; d_clock : N }.
#[export] Instance demo_alsa : AlsaPcm demo_pcm :=
  { snd_pcm_open := fun d => (DemoPcm (d_heard d) (d_open d + 1) (d_clock d), 0);
    snd_pcm_set_params := fun _ _ d => (d, 0);
    snd_pcm_prepare := fun d => (d, 0);
    snd_pcm_is_set_up := fun d => (d, false);
    snd_pcm_drop := fun d => (d, 0);
    snd_pcm_writei := fun l n d =>
      if decide (N.modulo (d_clock d) 3 = 0%N) then (d, - EPIPE)
      else (DemoPcm (d_heard d ++ slice l 0 (Z.min n 2 * (zlen l / n))) (d_open d) (d_clock d), Z.min n 2);
    snd_pcm_wait := fun _ d => d;
    snd_pcm_drain := fun d => (d, 0);
    snd_pcm_pause := fun _ d => (d, 0);
    snd_pcm_delay := fun d => (d, 0, 0);
    snd_pcm_close := fun d => (DemoPcm (d_heard d) (d_open d - 1) (d_clock d), 0);
    hal_monotonic_time_us := fun d => (DemoPcm (d_heard d) (d_open d) (d_clock d + 1), Z.of_N (d_clock d));
    hal_sleep_ms := fun _ d => d }.
#[export] Instance demo_alsa_laws : AlsaLaws demo_pcm.
Proof.
  refine {| heard := d_heard; handles := d_open; clock := fun d => Z.of_N (d_clock d) |}.
  all: try (intros; simplify_eq/=; split; cbn; lia || done).
  all: try (intros; simplify_eq/=; split_and!; lia || done).
  intros l n d d' r Hn. cbn. case_decide; intros [= <- <-]; cbn.
  - split_and!; [unfold EPIPE; lia | done | lia | by rewrite app_nil_r].
  - split_and!; [lia | done | lia |]. by rewrite (Z.max_r 0 (Z.min n 2)) by lia.
Defined.

Definition demo_alsa_calls : list alsa_call :=
  [AInit (Some (Format 48000 2 3)) 128; AStart; APause true; APause false; AAcquire].
Definition demo_block : eaf_buffer_t := Buffer ALSA_SAMPLES 3 1024 2048 (Format 48000 2 3) 0.
Definition demo_cells : list Z := [10; 11; 20; 21; 30; 31] ++ replicate (Z.to_nat 2042) 0.

Lemma demo_alsa_ready :
  (r ← alsa_run demo_alsa_calls alsa_zero (DemoPcm [] 0 0); Some (running r.1, acquired r.1, d_heard r.2)) = Some (true, true, []).
Proof. vm_compute. reflexivity. Qed.

(** Three frames, over a short write and an underrun. *)
Lemma alsa_sink_sound_witness :
  exists s d s' d' rc k, alsa_run demo_alsa_calls alsa_zero (DemoPcm [] 0 0) = Some (s, d) /\
    commit (with_block demo_block demo_cells s) d true = Some (s', d', rc) /\ d_heard d' = d_heard d ++ slice demo_cells 0 (k * 2).
Proof.
  destruct (alsa_sink_sound (DemoPcm [] 0 0) demo_alsa_calls) as (s & d & Hrun & _ & _ & _ & Hc);
    [repeat (apply Forall_cons_2; [exact I |]); apply Forall_nil_2 |].
  pose proof demo_alsa_ready as Hr. rewrite Hrun in Hr. cbn [mbind option_bind fst snd] in Hr. injection Hr as R1 R2 _.
  destruct (Hc demo_block demo_cells) as (s' & d' & rc & k & H1 & _ & _ & _ & _ & H2 & _);
    [split; [reflexivity |]; split; [cbn; word | cbn; lia] | exact R1 | exact R2 | cbn; unfold EAF_ALSA_MAX_FRAMES; lia |].
  exists s, d, s', d', rc, k. split; [exact Hrun |]. split; [exact H1 | exact H2].
Defined.
Example demo_alsa_heard :
  (r ← alsa_run demo_alsa_calls alsa_zero (DemoPcm [] 0 1); r ← commit (with_block demo_block demo_cells r.1) r.2 true;
   Some (d_heard r.1.2, xruns r.1.1, frames_written r.1.1, r.2)) = Some ([10; 11; 20; 21; 30; 31], 1, 3, EAF_OK).
Proof. vm_compute. reflexivity. Qed.
