(* ===== verification/HalOs.v ===== *)
(** Threads, semaphores and time on Linux: [hal/linux/hal_os_linux.c].  The C
    library's calls are the parameter [D]. *)

From S2P Require Import Prelude Types.

(** ** The C library

    Result codes as POSIX has them: 0 on success; the semaphore wait reports -1 with
    an [errno]. *)
Definition EINTR : Z := 4.
Definition ETIMEDOUT : Z := 110.
Definition CPU_SETSIZE : Z := 1024.

Record timespec := Timespec { tv_sec : Z; tv_nsec : Z }.

Class Posix (D : Type) := {
  calloc : D -> D * bool;
  free : D -> D;
  pthread_attr_init : D -> D * Z;
  pthread_attr_setinheritsched : D -> D * Z;
  pthread_attr_setschedpolicy : bool -> D -> D * Z;           (* SCHED_FIFO or SCHED_OTHER *)
  pthread_attr_setschedparam : Z -> D -> D * Z;
  pthread_attr_setaffinity_np : Z -> D -> D * Z;              (* the set of one CPU *)
  pthread_attr_destroy : D -> D;
  pthread_create : D -> D * Z * Z;                            (* id, result *)
  pthread_join : Z -> D -> D * Z;
  sem_init : D -> D * Z;
  sem_clockwait : timespec -> D -> D * Z * Z;                 (* result, errno *)
  sem_post : D -> D;
  sem_destroy : D -> D;
  clock_gettime : D -> D * timespec * Z;
  clock_nanosleep : timespec -> D -> D * Z;
}.
#[global] Hint Mode Posix ! : typeclass_instances.

(** ** Objects *)

Definition EAF_THREAD_DECODER : Z := 0.
Definition EAF_THREAD_AUDIO : Z := 1.
Record eaf_thread_options_t := ThreadOptions { role : Z; cpu : Z; realtime : bool }.
(** [impl] points to a [thread_impl], of which the id is read later. *)
Record eaf_thread_t := Thread { impl : ptr Z }.
(** [impl] points to a [sem_impl]: its atomic [pending]; the [sem_t] is the library's. *)
Record eaf_sem_t := Sem { sem : ptr bool }.

Section os.
Context {D : Type} `{!Posix D}.
Implicit Type d : D.

(** The attribute calls, each made when those before succeeded. *)
Definition set_attributes (o : eaf_thread_options_t) d : D * Z :=
  let next (r : D * Z) (f : D -> D * Z) := if decide (r.2 = 0) then f r.1 else r in
  let priority := if realtime o then if decide (role o = EAF_THREAD_AUDIO) then 20 else 10 else 0 in
  let r := pthread_attr_setinheritsched d in
  let r := next r (pthread_attr_setschedpolicy (realtime o)) in
  let r := next r (pthread_attr_setschedparam priority) in
  if decide (0 <= cpu o) then next r (pthread_attr_setaffinity_np (cpu o)) else r.

Definition hal_thread_create_with_options (t : ptr eaf_thread_t) (entry : bool) (options : ptr eaf_thread_options_t) d
  : ptr eaf_thread_t * D * Z :=
  match t, options with
  | Some th, Some o =>
      if bool_decide (is_Some (impl th)) || negb entry
         || (bool_decide (role o <> EAF_THREAD_DECODER) && bool_decide (role o <> EAF_THREAD_AUDIO))
         || bool_decide (cpu o < -1) || bool_decide (CPU_SETSIZE <= cpu o)
      then (t, d, EAF_INVALID)
      else
        let '(d, got) := calloc d in
        if negb got then (t, d, EAF_IO)
        else
          let '(d, rc) := pthread_attr_init d in
          if decide (rc <> 0) then (t, free d, EAF_IO)
          else
            let '(d, rc) := set_attributes o d in
            let '(d, id, rc) := if decide (rc = 0) then pthread_create d else (d, 0, rc) in
            let d := pthread_attr_destroy d in
            if decide (rc <> 0) then (t, free d, EAF_IO) else (Some (Thread (Some id)), d, EAF_OK)
  | _, _ => (t, d, EAF_INVALID)
  end.
Definition hal_thread_create (t : ptr eaf_thread_t) (entry : bool) d : ptr eaf_thread_t * D * Z :=
  hal_thread_create_with_options t entry (Some (ThreadOptions EAF_THREAD_DECODER (-1) false)) d.

Definition hal_thread_join (t : ptr eaf_thread_t) d : ptr eaf_thread_t * D * Z :=
  match t with
  | Some (Thread (Some id)) =>
      let '(d, rc) := pthread_join id d in
      if decide (rc <> 0) then (t, d, EAF_IO) else (Some (Thread None), free d, EAF_OK)
  | _ => (t, d, EAF_INVALID)
  end.

Definition hal_sem_init (s : ptr eaf_sem_t) d : ptr eaf_sem_t * D * Z :=
  match s with
  | Some (Sem None) =>
      let '(d, got) := calloc d in
      if negb got then (s, d, EAF_IO)
      else
        let '(d, rc) := sem_init d in
        if decide (rc <> 0) then (s, free d, EAF_IO) else (Some (Sem (Some false)), d, EAF_OK)
  | _ => (s, d, EAF_INVALID)
  end.

(** The absolute time [timeout_ms] after [ts]. *)
Definition deadline_of (ts : timespec) (timeout_ms : Z) : timespec :=
  let sec := tv_sec ts + timeout_ms / 1000 in
  let nsec := tv_nsec ts + timeout_ms mod 1000 * 1000000 in
  if decide (1000000000 <= nsec) then Timespec (sec + 1) (nsec - 1000000000) else Timespec sec nsec.

(** [do rc = sem_clockwait(...); while (rc && errno == EINTR);] with [fuel] signals. *)
Fixpoint wait_loop (fuel : nat) (ts : timespec) d : ub (D * Z * Z) :=
  let '(d, rc, errno) := sem_clockwait ts d in
  if decide (rc <> 0 /\ errno = EINTR) then
    match fuel with O => None | S fuel' => wait_loop fuel' ts d end
  else Some (d, rc, errno).

Definition hal_sem_take (fuel : nat) (s : ptr eaf_sem_t) (timeout_ms : Z) d : ub (ptr eaf_sem_t * D * Z) :=
  match s with
  | Some (Sem (Some _)) =>
      let '(d, ts, rc) := clock_gettime d in
      if decide (rc <> 0) then Some (s, d, EAF_IO)
      else
        '(d, rc, errno) ← wait_loop fuel (deadline_of ts timeout_ms) d;
        Some (if decide (rc <> 0) then (s, d, if decide (errno = ETIMEDOUT) then EAF_TIMEOUT else EAF_IO)
              else (Some (Sem (Some false)), d, EAF_OK))
  | _ => Some (s, d, EAF_INVALID)
  end.

Definition hal_sem_give (s : ptr eaf_sem_t) d : ptr eaf_sem_t * D :=
  match s with
  | Some (Sem (Some pending)) => (Some (Sem (Some true)), if pending then d else sem_post d)
  | _ => (s, d)
  end.

Definition hal_sem_deinit (s : ptr eaf_sem_t) d : ptr eaf_sem_t * D :=
  match s with
  | Some (Sem (Some _)) => (Some (Sem None), free (sem_destroy d))
  | _ => (s, d)
  end.

Definition hal_monotonic_time_us d : D * Z :=
  let '(d, ts, rc) := clock_gettime d in
  (d, if decide (rc <> 0) then 0 else u64 (u64 (u64 (tv_sec ts) * 1000000) + u64 (tv_nsec ts) / 1000)).

Fixpoint sleep_loop (fuel : nat) (ts : timespec) d : ub (D * Z) :=
  let '(d, rc) := clock_nanosleep ts d in
  if decide (rc = EINTR) then match fuel with O => None | S fuel' => sleep_loop fuel' ts d end
  else Some (d, rc).
Definition hal_sleep_until_us (fuel : nat) (deadline : Z) d : ub (D * Z) :=
  '(d, rc) ← sleep_loop fuel (Timespec (deadline / 1000000) (deadline mod 1000000 * 1000)) d;
  Some (d, if decide (rc <> 0) then EAF_IO else EAF_OK).
Definition hal_sleep_ms (fuel : nat) (ms : Z) d : ub D :=
  let '(d, now) := hal_monotonic_time_us d in
  '(d, _) ← hal_sleep_until_us fuel (u64 (now + ms * 1000)) d; Some d.
End os.

(** ** Time *)

Definition ns_of (ts : timespec) : Z := tv_sec ts * 1000000000 + tv_nsec ts.
Definition normal (ts : timespec) : Prop := 0 <= tv_nsec ts < 1000000000.

Lemma deadline_exact ts timeout_ms :
  normal ts -> 0 <= timeout_ms ->
  normal (deadline_of ts timeout_ms) /\ ns_of (deadline_of ts timeout_ms) = ns_of ts + timeout_ms * 1000000.
Proof.
  intros Hn Ht. unfold normal, deadline_of, ns_of in *. case_decide; cbn; Z.to_euclidean_division_equations; lia.
Qed.

(** ** The semaphore, one access per step

    Any number of givers and takers: [count] is the [sem_t]'s value, [posting] the
    givers between the exchange of [pending] and the post, [clearing] the takers
    between their wait and the store to [pending].  [given] counts the gives, each
    after its giver published something, and [seen] those before the last take that
    returned: what it reads next covers them. *)
Record sem_state := SemState { count : Z; pending : bool; posting : Z; clearing : Z; given : Z; seen : Z }.
Definition sem_fresh : sem_state := SemState 0 false 0 0 0 0.

Inductive sem_step : sem_state -> sem_state -> Prop :=
| give_first c p k g s : sem_step (SemState c false p k g s) (SemState c true (p + 1) k (g + 1) s)
| give_again c p k g s : sem_step (SemState c true p k g s) (SemState c true p k (g + 1) s)
| give_post c b p k g s : 0 < p -> sem_step (SemState c b p k g s) (SemState (c + 1) b (p - 1) k g s)
| take_wait c b p k g s : 0 < c -> sem_step (SemState c b p k g s) (SemState (c - 1) b p (k + 1) g s)
| take_clear c b p k g s : 0 < k -> sem_step (SemState c b p k g s) (SemState c false p (k - 1) g g).

Definition sem_inv (s : sem_state) : Prop :=
  0 <= count s /\ 0 <= posting s /\ 0 <= clearing s /\
  count s + posting s + clearing s = (if pending s then 1 else 0) /\
  (pending s = false -> seen s = given s).

Lemma sem_step_inv s s' : sem_inv s -> sem_step s s' -> sem_inv s'.
Proof.
  intros (? & ? & ? & ? & ?) Hs. destruct Hs; unfold sem_inv in *; cbn in *;
    try match goal with b : bool |- _ => destruct b end; split_and!; intros; try done; try lia; auto.
Qed.
Lemma sem_reach_inv s : rtc sem_step sem_fresh s -> sem_inv s.
Proof.
  intros Hr. assert (H0 : sem_inv sem_fresh) by (by split_and!). revert H0.
  induction Hr as [|x y z Hxy _ IH]; [done |]. intros H0. by apply IH, (sem_step_inv x).
Qed.


(** ** Ownership of the implementation blocks *)

(** [blocks d] are the allocations not freed. *)
Class PosixHeap (D : Type) `{!Posix D} (blocks : D -> Z) := {
  heap_calloc d : blocks (calloc d).1 = if (calloc d).2 then blocks d + 1 else blocks d;
  heap_free d : blocks (free d) = blocks d - 1;
  heap_attr_init d : blocks (pthread_attr_init d).1 = blocks d;
  heap_inherit d : blocks (pthread_attr_setinheritsched d).1 = blocks d;
  heap_policy b d : blocks (pthread_attr_setschedpolicy b d).1 = blocks d;
  heap_param p d : blocks (pthread_attr_setschedparam p d).1 = blocks d;
  heap_affinity c d : blocks (pthread_attr_setaffinity_np c d).1 = blocks d;
  heap_attr_destroy d : blocks (pthread_attr_destroy d) = blocks d;
  heap_create d : blocks (pthread_create d).1.1 = blocks d;
  heap_join i d : blocks (pthread_join i d).1 = blocks d;
  heap_sem_init d : blocks (sem_init d).1 = blocks d;
  heap_sem_wait ts d : blocks (sem_clockwait ts d).1.1 = blocks d;
  heap_sem_post d : blocks (sem_post d) = blocks d;
  heap_sem_destroy d : blocks (sem_destroy d) = blocks d;
  heap_clock d : blocks (clock_gettime d).1.1 = blocks d;
  heap_sleep ts d : blocks (clock_nanosleep ts d).1 = blocks d;
}.

Inductive os_op :=
| OsCreate (entry : bool) (options : ptr eaf_thread_options_t)
| OsCreatePlain (entry : bool)
| OsJoin
| OsSemInit
| OsTake (timeout_ms : Z)
| OsGive
| OsSemDeinit
| OsSleep (ms : Z).
Record os_world (D : Type) := OsWorld { thread : ptr eaf_thread_t; semaphore : ptr eaf_sem_t; machine : D }.
Arguments OsWorld {D}. Arguments thread {D}. Arguments semaphore {D}. Arguments machine {D}.

Section heap.
Context {D : Type} `{HP : !Posix D} {blocks : D -> Z} `{HB : !PosixHeap D blocks}.
Implicit Type d : D.

Definition os_exec (fuel : nat) (op : os_op) (w : os_world D) : ub (os_world D * Z) :=
  let '(OsWorld t s d) := w in
  match op with
  | OsCreate e o => let '(t, d, rc) := hal_thread_create_with_options t e o d in Some (OsWorld t s d, rc)
  | OsCreatePlain e => let '(t, d, rc) := hal_thread_create t e d in Some (OsWorld t s d, rc)
  | OsJoin => let '(t, d, rc) := hal_thread_join t d in Some (OsWorld t s d, rc)
  | OsSemInit => let '(s, d, rc) := hal_sem_init s d in Some (OsWorld t s d, rc)
  | OsTake ms => '(s, d, rc) ← hal_sem_take fuel s ms d; Some (OsWorld t s d, rc)
  | OsGive => let '(s, d) := hal_sem_give s d in Some (OsWorld t s d, EAF_OK)
  | OsSemDeinit => let '(s, d) := hal_sem_deinit s d in Some (OsWorld t s d, EAF_OK)
  | OsSleep ms => d ← hal_sleep_ms fuel ms d; Some (OsWorld t s d, EAF_OK)
  end.
Fixpoint os_run (fuel : nat) (ops : list os_op) (w : os_world D) : ub (os_world D) :=
  match ops with
  | [] => Some w
  | op :: rest => '(w, _) ← os_exec fuel op w; os_run fuel rest w
  end.

(** The blocks the two objects own. *)
Definition owned (w : os_world D) : Z :=
  (match thread w ≫= impl with Some _ => 1 | None => 0 end) + (match semaphore w ≫= sem with Some _ => 1 | None => 0 end).
Definition balance (w : os_world D) : Z := blocks (machine w) - owned w.

Lemma set_attributes_blocks o d : blocks (set_attributes o d).1 = blocks d.
Proof.
  unfold set_attributes.
  repeat case_decide; rewrite ?heap_affinity, ?heap_param, ?heap_policy, ?heap_inherit; reflexivity.
Qed.

Lemma wait_loop_blocks fuel ts d r : wait_loop fuel ts d = Some r -> blocks r.1.1 = blocks d.
Proof.
  revert d. induction fuel as [|fuel IH]; intros d; cbn; pose proof (heap_sem_wait ts d) as Hw;
    destruct (sem_clockwait ts d) as [[d1 rc] errno]; cbn in Hw; case_decide; try done.
  - intros [= <-]. done.
  - intros Hr. rewrite (IH _ Hr). done.
  - intros [= <-]. done.
Qed.
Lemma sleep_loop_blocks fuel ts d r : sleep_loop fuel ts d = Some r -> blocks r.1 = blocks d.
Proof.
  revert d. induction fuel as [|fuel IH]; intros d; cbn; pose proof (heap_sleep ts d) as Hw;
    destruct (clock_nanosleep ts d) as [d1 rc]; cbn in Hw; case_decide; try done.
  - intros [= <-]. done.
  - intros Hr. rewrite (IH _ Hr). done.
  - intros [= <-]. done.
Qed.

Lemma create_balance t e o d s :
  let r := hal_thread_create_with_options t e o d in
  balance (OsWorld r.1.1 s r.1.2) = balance (OsWorld t s d).
Proof.
  unfold hal_thread_create_with_options.
  destruct t as [th|]; [| done]. destruct o as [o|]; [| done].
  destruct (_ || _ || _ || _ || _) eqn:Hg; [done |].
  apply orb_false_iff in Hg as [Hg _]. apply orb_false_iff in Hg as [Hg _]. apply orb_false_iff in Hg as [Hg _].
  apply orb_false_iff in Hg as [Hi%bool_decide_eq_false _].
  pose proof (heap_calloc d) as Hc. destruct (calloc d) as [d1 got]. cbn in Hc. destruct got; cbn; [| unfold balance; cbn; by rewrite Hc].
  pose proof (heap_attr_init d1) as Ha. destruct (pthread_attr_init d1) as [d2 rc]. cbn in Ha.
  case_decide; [unfold balance; cbn; rewrite heap_free; unfold owned; cbn; lia |].
  pose proof (set_attributes_blocks o d2) as Hs. destruct (set_attributes o d2) as [d3 rc3]. cbn in Hs.
  assert (Hp : exists d4 id rc4, (if decide (rc3 = 0) then pthread_create d3 else (d3, 0, rc3)) = (d4, id, rc4) /\ blocks d4 = blocks d3).
  { case_decide; [| by eexists _, _, _].
    pose proof (heap_create d3) as Hp. destruct (pthread_create d3) as [[d4 id] rc4]. by eexists _, _, _. }
  destruct Hp as (d4 & id & rc4 & -> & Hd4).
  case_decide; unfold balance, owned; cbn; rewrite ?heap_free, heap_attr_destroy.
  - lia.
  - destruct th as [im]; cbn in *. destruct im; [destruct Hi; by eexists |]. cbn.
    lia.
Qed.

Ltac owned_cases := unfold balance, owned; cbn; try lia.

Lemma os_exec_balance fuel op w r : os_exec fuel op w = Some r -> balance r.1 = balance w.
Proof.
  destruct w as [t s d]. destruct op as [e o|e| | |ms| | |ms]; cbn.
  - pose proof (create_balance t e o d s) as Hc. cbn in Hc.
    destruct (hal_thread_create_with_options t e o d) as [[t' d'] rc]. intros [= <-]. done.
  - unfold hal_thread_create. pose proof (create_balance t e (Some (ThreadOptions EAF_THREAD_DECODER (-1) false)) d s) as Hc. cbn in Hc.
    destruct (hal_thread_create_with_options t e _ d) as [[t' d'] rc]. intros [= <-]. done.
  - destruct t as [[[id|]]|]; cbn; [| intros [= <-]; done | intros [= <-]; done].
    pose proof (heap_join id d) as Hj. destruct (pthread_join id d) as [d1 rc]. cbn in Hj.
    case_decide; intros [= <-]; owned_cases. rewrite heap_free. lia.
  - destruct s as [[[b|]]|]; cbn; [intros [= <-]; done | | intros [= <-]; done].
    pose proof (heap_calloc d) as Hc. destruct (calloc d) as [d1 got]. cbn in Hc. destruct got; cbn; [| intros [= <-]; owned_cases].
    pose proof (heap_sem_init d1) as Hi. destruct (sem_init d1) as [d2 rc]. cbn in Hi.
    case_decide; intros [= <-]; owned_cases. rewrite heap_free. lia.
  - destruct s as [[[b|]]|]; cbn; [| intros [= <-]; done | intros [= <-]; done].
    pose proof (heap_clock d) as Hk. destruct (clock_gettime d) as [[d1 ts] rc]. cbn in Hk.
    case_decide; cbn; [intros [= <-]; owned_cases |].
    destruct (wait_loop fuel _ d1) as [[[d2 rc2] errno]|] eqn:Hw; cbn; [| done].
    apply wait_loop_blocks in Hw. cbn in Hw. case_decide; intros [= <-]; owned_cases.
  - destruct s as [[[b|]]|]; cbn; [| intros [= <-]; done | intros [= <-]; done].
    intros [= <-]. destruct b; owned_cases. rewrite heap_sem_post. lia.
  - destruct s as [[[b|]]|]; cbn; [| intros [= <-]; done | intros [= <-]; done].
    intros [= <-]. owned_cases. rewrite heap_free, heap_sem_destroy. lia.
  - unfold hal_sleep_ms, hal_monotonic_time_us, hal_sleep_until_us.
    pose proof (heap_clock d) as Hk. destruct (clock_gettime d) as [[d1 ts] rc]. cbn in Hk.
    destruct (sleep_loop fuel _ d1) as [[d2 rc2]|] eqn:Hw; cbn; [| done].
    apply sleep_loop_blocks in Hw. cbn in Hw. intros [= <-]. owned_cases.
Qed.

Theorem os_blocks_owned fuel ops t s d w :
  os_run fuel ops (OsWorld t s d) = Some w ->
  blocks (machine w) - owned w = blocks d - owned (OsWorld t s d).
Proof.
  change (os_run fuel ops (OsWorld t s d) = Some w -> balance w = balance (OsWorld t s d)).
  generalize (OsWorld t s d). induction ops as [|op ops IH]; intros v; cbn; [by intros [= <-] |].
  destruct (os_exec fuel op v) as [[v' rc]|] eqn:He; cbn; [| done].
  intros Hr. rewrite (IH _ Hr). by apply (os_exec_balance _ _ _ _ He).
Qed.
End heap.
