(* ===== verification/OsPools.v ===== *)
(** What the ESP-IDF and the Zephyr operating system layers share: static pools of
    threads and semaphores; a handle's [impl] is an index into its pool. *)

From S2P Require Import Prelude Types HalOs.

(** ** The pools

    [busy] is the atomic of each slot; the code tries them in order, and takes the
    first whose exchange succeeds. *)
Definition claim (busy : list bool) : ptr nat := fst <$> list_find (fun b => b = false) busy.

Class PoolConfig := {
  CONFIG_EAF_AUDIO_PRIORITY : Z;
  CONFIG_EAF_DECODER_PRIORITY : Z;
  CORES : Z                          (* [configNUMBER_OF_CORES], [CONFIG_MP_MAX_NUM_CPUS] *)
}.
Definition handle_t : Type := ptr (ptr nat).

(** The guard both adapters start [hal_thread_create_with_options] with. *)
Definition create_refused {HC : PoolConfig} (t : handle_t) (entry : bool) (options : ptr eaf_thread_options_t) : bool :=
  match t, options with
  | Some None, Some o =>
      negb entry || (bool_decide (role o <> EAF_THREAD_DECODER) && bool_decide (role o <> EAF_THREAD_AUDIO))
      || bool_decide (cpu o < -1) || bool_decide (CORES <= cpu o)
  | _, _ => true
  end.
Definition priority_of {HC : PoolConfig} (o : eaf_thread_options_t) : Z :=
  if decide (role o = EAF_THREAD_AUDIO) then CONFIG_EAF_AUDIO_PRIORITY else CONFIG_EAF_DECODER_PRIORITY.
Definition default_options : eaf_thread_options_t := ThreadOptions EAF_THREAD_DECODER (-1) false.

(** What the two adapters are: pools of threads and semaphores over a kernel [D]. *)
Record os_pools (D : Type) := OsPools { threads : list bool; sems : list bool; kernel : D }.
Arguments OsPools {D}. Arguments threads {D}. Arguments sems {D}. Arguments kernel {D}.
Definition set_thread {D} (i : nat) (b : bool) (p : os_pools D) : os_pools D :=
  OsPools (<[i := b]> (threads p)) (sems p) (kernel p).
Definition set_sem {D} (i : nat) (b : bool) (p : os_pools D) : os_pools D :=
  OsPools (threads p) (<[i := b]> (sems p)) (kernel p).
Definition set_kernel {D} (d : D) (p : os_pools D) : os_pools D := OsPools (threads p) (sems p) d.
