(* ===== verification/OsEspIdf.v ===== *)
(** Threads, semaphores and time on ESP-IDF: [hal/esp_idf/hal_os_esp_idf.c].  FreeRTOS is
    a parameter.

    A slot's [done] semaphore is created once; [sem_ready] reads whether a slot has
    one, and [xSemaphoreCreateBinaryStatic] makes it.  The semaphores are named by
    their pool and slot. *)

From S2P Require Import Prelude Types HalOs OsPools.

Inductive sem_id := Done (i : nat) | Pool (i : nat).
Class TickConfig := { configTICK_RATE_HZ : Z; pdMS_TO_TICKS : Z -> Z }.
Class FreeRtos (D : Type) := {
  xSemaphoreCreateBinaryStatic : sem_id -> D -> D * bool;
  sem_ready : sem_id -> D -> bool;
  xTaskCreateStaticPinnedToCore : nat -> Z -> ptr Z -> D -> D * bool;   (* priority, core *)
  xSemaphoreTake : sem_id -> option Z -> D -> D * bool;                 (* ticks, or for ever *)
  xSemaphoreGive : sem_id -> D -> D;
  vTaskDelay : Z -> D -> D;
  esp_rom_delay_us : Z -> D -> D;
  esp_timer_get_time : D -> D * Z
}.
#[global] Hint Mode FreeRtos ! : typeclass_instances.

Section esp.
Context {D : Type} {HC : PoolConfig} {HT : TickConfig} {HF : FreeRtos D}.
Implicit Type p : os_pools D.

Definition hal_thread_create_with_options (t : handle_t) (entry : bool) (options : ptr eaf_thread_options_t) p
  : handle_t * os_pools D * Z :=
  if create_refused t entry options then (t, p, EAF_INVALID)
  else
    match options, claim (threads p) with
    | Some o, Some i =>
        let core := if decide (cpu o < 0) then None else Some (cpu o) in
        let p := set_thread i true p in
        let '(d, ready) := if sem_ready (Done i) (kernel p) then (kernel p, true)
                           else xSemaphoreCreateBinaryStatic (Done i) (kernel p) in
        let p := set_kernel d p in
        if negb ready then (t, set_thread i false p, EAF_IO)
        else
          let '(d, handle) := xTaskCreateStaticPinnedToCore i (priority_of o) core (kernel p) in
          let p := set_kernel d p in
          if negb handle then (t, set_thread i false p, EAF_IO) else (Some (Some i), p, EAF_OK)
    | _, _ => (t, p, EAF_IO)
    end.
Definition hal_thread_create (t : handle_t) (entry : bool) p : handle_t * os_pools D * Z :=
  hal_thread_create_with_options t entry (Some default_options) p.

Definition hal_thread_join (t : handle_t) p : handle_t * os_pools D * Z :=
  match t with
  | Some (Some i) =>
      let '(d, taken) := xSemaphoreTake (Done i) None (kernel p) in
      let p := set_kernel d p in
      if negb taken then (t, p, EAF_IO) else (Some None, set_thread i false p, EAF_OK)
  | _ => (t, p, EAF_INVALID)
  end.

Definition hal_sem_init (s : handle_t) p : handle_t * os_pools D * Z :=
  match s with
  | Some None =>
      match claim (sems p) with
      | Some i =>
          let p := set_sem i true p in
          let '(d, ready) := xSemaphoreCreateBinaryStatic (Pool i) (kernel p) in
          let p := set_kernel d p in
          if negb ready then (s, set_sem i false p, EAF_IO) else (Some (Some i), p, EAF_OK)
      | None => (s, p, EAF_IO)
      end
  | _ => (s, p, EAF_INVALID)
  end.

Definition hal_sem_take (s : handle_t) (timeout_ms : Z) p : os_pools D * Z :=
  match s with
  | Some (Some i) =>
      let '(d, taken) := xSemaphoreTake (Pool i) (Some (pdMS_TO_TICKS timeout_ms)) (kernel p) in
      (set_kernel d p, if taken then EAF_OK else EAF_TIMEOUT)
  | _ => (p, EAF_INVALID)
  end.
Definition hal_sem_give (s : handle_t) p : os_pools D :=
  match s with Some (Some i) => set_kernel (xSemaphoreGive (Pool i) (kernel p)) p | _ => p end.
Definition hal_sem_deinit (s : handle_t) p : handle_t * os_pools D :=
  match s with Some (Some i) => (Some None, set_sem i false p) | _ => (s, p) end.

Definition hal_monotonic_time_us (d : D) : D * Z := let '(d, t) := esp_timer_get_time d in (d, u64 t).

Definition tick_us : Z := 1000000 / configTICK_RATE_HZ.
Fixpoint hal_sleep_until_us (fuel : nat) (deadline : Z) (d : D) : ub (D * Z) :=
  let '(d, now) := hal_monotonic_time_us d in
  if decide (deadline <= now) then Some (d, EAF_OK)
  else
    match fuel with
    | O => None
    | S fuel' =>
        let left := Z.min (deadline - now) UINT32_MAX in
        let ticks := u32 ((left + tick_us - 1) / tick_us) in
        hal_sleep_until_us fuel' deadline (if decide (0 < ticks) then vTaskDelay ticks d else esp_rom_delay_us left d)
    end.
Definition hal_sleep_ms (ms : Z) (d : D) : D :=
  if decide (ms = 0) then d
  else let ticks := pdMS_TO_TICKS ms in vTaskDelay (if decide (ticks = 0) then 1 else ticks) d.
End esp.
