(* ===== verification/OsZephyr.v ===== *)
(** Threads, semaphores and time on Zephyr: [hal/zephyr/hal_os_zephyr.c].  The kernel is a
    parameter. *)

From S2P Require Import Prelude Types HalOs OsPools.

Class KernelConfig := { EAGAIN : Z; EBUSY : Z; hal_zephyr_cpu_pin_available : bool }.
Class ZephyrKernel (D : Type) := {
  k_thread_create : nat -> Z -> D -> D * bool;                (* slot, priority *)
  hal_zephyr_cpu_pin : nat -> Z -> D -> D * Z;
  k_thread_abort : nat -> D -> D;
  k_thread_start : nat -> D -> D;
  k_thread_join : nat -> D -> D * Z;
  k_sem_init : nat -> D -> D * Z;
  k_sem_take : nat -> Z -> D -> D * Z;
  k_sem_give : nat -> D -> D;
  k_sleep_us : Z -> D -> D;
  k_uptime_us : D -> D * Z                                    (* [k_ticks_to_us_floor64(k_uptime_ticks())] *)
}.
#[global] Hint Mode ZephyrKernel ! : typeclass_instances.

Section zephyr.
Context {D : Type} {HC : PoolConfig} {HN : KernelConfig} {HK : ZephyrKernel D}.
Implicit Type p : os_pools D.

Definition hal_thread_create_with_options (t : handle_t) (entry : bool) (options : ptr eaf_thread_options_t) p
  : handle_t * os_pools D * Z :=
  if create_refused t entry options then (t, p, EAF_INVALID)
  else
    match options with
    | Some o =>
        if bool_decide (0 <= cpu o) && negb hal_zephyr_cpu_pin_available then (t, p, EAF_UNSUPPORTED)
        else
          match claim (threads p) with
          | Some i =>
              let p := set_thread i true p in
              let '(d, id) := k_thread_create i (priority_of o) (kernel p) in
              let p := set_kernel d p in
              if negb id then (t, set_thread i false p, EAF_IO)
              else
                let '(d, rc) := if decide (0 <= cpu o) then hal_zephyr_cpu_pin i (cpu o) (kernel p) else (kernel p, 0) in
                let p := set_kernel d p in
                if decide (rc <> 0) then (t, set_thread i false (set_kernel (k_thread_abort i (kernel p)) p), EAF_IO)
                else (Some (Some i), set_kernel (k_thread_start i (kernel p)) p, EAF_OK)
          | None => (t, p, EAF_IO)
          end
    | None => (t, p, EAF_INVALID)
    end.
Definition hal_thread_create (t : handle_t) (entry : bool) p : handle_t * os_pools D * Z :=
  hal_thread_create_with_options t entry (Some default_options) p.

Definition hal_thread_join (t : handle_t) p : handle_t * os_pools D * Z :=
  match t with
  | Some (Some i) =>
      let '(d, rc) := k_thread_join i (kernel p) in
      let p := set_kernel d p in
      if decide (rc <> 0) then (t, p, EAF_IO) else (Some None, set_thread i false p, EAF_OK)
  | _ => (t, p, EAF_INVALID)
  end.

Definition hal_sem_init (s : handle_t) p : handle_t * os_pools D * Z :=
  match s with
  | Some None =>
      match claim (sems p) with
      | Some i =>
          let p := set_sem i true p in
          let '(d, rc) := k_sem_init i (kernel p) in
          let p := set_kernel d p in
          if decide (rc <> 0) then (s, set_sem i false p, EAF_IO) else (Some (Some i), p, EAF_OK)
      | None => (s, p, EAF_IO)
      end
  | _ => (s, p, EAF_INVALID)
  end.

Definition hal_sem_take (s : handle_t) (timeout_ms : Z) p : os_pools D * Z :=
  match s with
  | Some (Some i) =>
      let '(d, rc) := k_sem_take i timeout_ms (kernel p) in
      (set_kernel d p,
       if decide (rc = 0) then EAF_OK else if decide (rc = - EAGAIN \/ rc = - EBUSY) then EAF_TIMEOUT else EAF_IO)
  | _ => (p, EAF_INVALID)
  end.
Definition hal_sem_give (s : handle_t) p : os_pools D :=
  match s with Some (Some i) => set_kernel (k_sem_give i (kernel p)) p | _ => p end.
Definition hal_sem_deinit (s : handle_t) p : handle_t * os_pools D :=
  match s with Some (Some i) => (Some None, set_sem i false p) | _ => (s, p) end.

Definition hal_monotonic_time_us (d : D) : D * Z := k_uptime_us d.
Fixpoint hal_sleep_until_us (fuel : nat) (deadline : Z) (d : D) : ub (D * Z) :=
  let '(d, now) := hal_monotonic_time_us d in
  if decide (deadline <= now) then Some (d, EAF_OK)
  else
    match fuel with
    | O => None
    | S fuel' => hal_sleep_until_us fuel' deadline (k_sleep_us (Z.min (deadline - now) UINT32_MAX) d)
    end.
Definition hal_sleep_ms (ms : Z) (d : D) : D := k_sleep_us (ms * 1000) d.
End zephyr.
