(* ===== verification/HalPools.v ===== *)
(** The contract both operating system layers with static pools fulfil, [OsEspIdf] and
    [OsZephyr], and what follows from it; their sleeping; and the life of a slot's stack. *)

From S2P Require Import Prelude Types HalOs OsPools OsEspIdf OsZephyr.

(** ** The interface both adapters implement *)

Record hal_os (D : Type) := HalOsOps {
  os_create : handle_t -> bool -> ptr eaf_thread_options_t -> os_pools D -> handle_t * os_pools D * Z;
  os_join : handle_t -> os_pools D -> handle_t * os_pools D * Z;
  os_sem_init : handle_t -> os_pools D -> handle_t * os_pools D * Z;
  os_sem_take : handle_t -> Z -> os_pools D -> os_pools D * Z;
  os_sem_give : handle_t -> os_pools D -> os_pools D;
  os_sem_deinit : handle_t -> os_pools D -> handle_t * os_pools D
}.
Arguments os_create {D}. Arguments os_join {D}. Arguments os_sem_init {D}. Arguments os_sem_take {D}.
Arguments os_sem_give {D}. Arguments os_sem_deinit {D}.

Definition esp_os {D : Type} {HC : PoolConfig} {HT : OsEspIdf.TickConfig} {HF : OsEspIdf.FreeRtos D} : hal_os D :=
  HalOsOps D OsEspIdf.hal_thread_create_with_options OsEspIdf.hal_thread_join OsEspIdf.hal_sem_init OsEspIdf.hal_sem_take
    OsEspIdf.hal_sem_give OsEspIdf.hal_sem_deinit.
Definition zephyr_os {D : Type} {HC : PoolConfig} {HN : OsZephyr.KernelConfig} {HK : OsZephyr.ZephyrKernel D} : hal_os D :=
  HalOsOps D OsZephyr.hal_thread_create_with_options OsZephyr.hal_thread_join OsZephyr.hal_sem_init OsZephyr.hal_sem_take
    OsZephyr.hal_sem_give OsZephyr.hal_sem_deinit.

(** Success of an acquiring call takes a slot; its failure keeps everything. *)
Definition acquired (t : handle_t) (busy : list bool) (t' : handle_t) (busy' : list bool) (rc : Z) : Prop :=
  if decide (rc = EAF_OK)
  then exists i, t = Some None /\ claim busy = Some i /\ t' = Some (Some i) /\ busy' = <[i := true]> busy
  else t' = t /\ busy' = busy.
Definition returned (t : handle_t) (busy : list bool) (t' : handle_t) (busy' : list bool) (rc : Z) : Prop :=
  if decide (rc = EAF_OK) then exists i, t = Some (Some i) /\ t' = Some None /\ busy' = <[i := false]> busy
  else t' = t /\ busy' = busy.

Class OsLaws {D : Type} (o : hal_os D) : Prop := {
  law_create t e opts p : let '(t', p', rc) := os_create o t e opts p in
    acquired t (threads p) t' (threads p') rc /\ sems p' = sems p;
  law_join t p : let '(t', p', rc) := os_join o t p in returned t (threads p) t' (threads p') rc /\ sems p' = sems p;
  law_sem_init s p : let '(s', p', rc) := os_sem_init o s p in
    acquired s (sems p) s' (sems p') rc /\ threads p' = threads p;
  law_sem_take s ms p : let p' := (os_sem_take o s ms p).1 in threads p' = threads p /\ sems p' = sems p;
  law_sem_give s p : let p' := os_sem_give o s p in threads p' = threads p /\ sems p' = sems p;
  law_sem_deinit s p : let '(s', p') := os_sem_deinit o s p in
    match s with
    | Some (Some i) => s' = Some None /\ sems p' = <[i := false]> (sems p)
    | _ => s' = s /\ sems p' = sems p
    end /\ threads p' = threads p
}.

Lemma claim_free busy i : claim busy = Some i -> busy !! i = Some false.
Proof.
  unfold claim. destruct (list_find _ busy) as [[j b]|] eqn:Hf; [| done]. intros [= <-].
  apply list_find_Some in Hf as (Hj & -> & _). done.
Qed.
Lemma claim_none busy : claim busy = None -> Forall (eq true) busy.
Proof.
  unfold claim. destruct (list_find _ busy) as [[j b]|] eqn:Hf; [done |]. intros _.
  apply list_find_None in Hf. apply (list.Forall_impl _ _ _ Hf). by intros [].
Qed.
(** A slot claimed and given up is as it was. *)
Lemma claim_undo busy i : claim busy = Some i -> <[i := false]> (<[i := true]> busy) = busy.
Proof. intros Hi%claim_free. rewrite list_insert_insert_eq. by apply list_insert_id. Qed.
Lemma refused_inv {HC : PoolConfig} t e o : create_refused t e o = false -> t = Some None /\ is_Some o.
Proof. destruct t as [[i|]|], o; try done. Qed.
Lemma acquired_ok t busy i : t = Some None -> claim busy = Some i -> acquired t busy (Some (Some i)) (<[i := true]> busy) EAF_OK.
Proof. intros. unfold acquired. rewrite decide_True by done. by exists i. Qed.
Lemma acquired_fail t busy rc : rc <> EAF_OK -> acquired t busy t busy rc.
Proof. intros. unfold acquired. by rewrite decide_False by done. Qed.
Lemma returned_ok i busy : returned (Some (Some i)) busy (Some None) (<[i := false]> busy) EAF_OK.
Proof. unfold returned. rewrite decide_True by done. by exists i. Qed.
Lemma returned_fail t busy rc : rc <> EAF_OK -> returned t busy t busy rc.
Proof. intros. unfold returned. by rewrite decide_False by done. Qed.
Ltac pool := cbn; try rewrite claim_undo by done; (split; [| done]);
  first [by apply acquired_ok | by apply acquired_fail | by apply returned_ok | by apply returned_fail].

#[export] Instance esp_os_laws {D} {HC : PoolConfig} {HT : OsEspIdf.TickConfig} {HF : OsEspIdf.FreeRtos D} : OsLaws (esp_os (D := D)).
Proof.
  split.
  - intros t e opts p. cbn. unfold OsEspIdf.hal_thread_create_with_options. destruct (create_refused t e opts) eqn:Hr; [pool |].
    apply refused_inv in Hr as [-> [o ->]]. destruct (claim (threads p)) as [i|] eqn:Hi; [| pool]. cbn.
    destruct (if OsEspIdf.sem_ready _ _ then _ else _) as [d ready]. destruct ready; [| pool]. cbn.
    destruct (OsEspIdf.xTaskCreateStaticPinnedToCore _ _ _ _) as [d2 h]. destruct h; pool.
  - intros t p. cbn. unfold OsEspIdf.hal_thread_join. destruct t as [[i|]|]; [| pool | pool].
    destruct (OsEspIdf.xSemaphoreTake _ _ _) as [d taken]. destruct taken; pool.
  - intros s p. cbn. unfold OsEspIdf.hal_sem_init. destruct s as [[i|]|]; [pool | | pool].
    destruct (claim (sems p)) as [i|] eqn:Hi; [| pool]. destruct (OsEspIdf.xSemaphoreCreateBinaryStatic _ _) as [d r]. destruct r; pool.
  - intros s ms p. cbn. unfold OsEspIdf.hal_sem_take. destruct s as [[i|]|]; [| done | done]. by destruct (OsEspIdf.xSemaphoreTake _ _ _).
  - intros s p. cbn. unfold OsEspIdf.hal_sem_give. by destruct s as [[i|]|].
  - intros s p. cbn. by destruct s as [[i|]|].
Qed.

#[export] Instance zephyr_os_laws {D} {HC : PoolConfig} {HN : OsZephyr.KernelConfig} {HK : OsZephyr.ZephyrKernel D} : OsLaws (zephyr_os (D := D)).
Proof.
  split.
  - intros t e opts p. cbn. unfold OsZephyr.hal_thread_create_with_options. destruct (create_refused t e opts) eqn:Hr; [pool |].
    apply refused_inv in Hr as [-> [o ->]]. destruct (_ && _); [pool |]. destruct (claim (threads p)) as [i|] eqn:Hi; [| pool].
    destruct (OsZephyr.k_thread_create _ _ _) as [d id]. destruct id; [| pool]. cbn.
    destruct (if decide (0 <= cpu o) then _ else _) as [d2 rc]. destruct (decide (rc <> 0)); pool.
  - intros t p. cbn. unfold OsZephyr.hal_thread_join. destruct t as [[i|]|]; [| pool | pool].
    destruct (OsZephyr.k_thread_join _ _) as [d rc]. destruct (decide (rc <> 0)); pool.
  - intros s p. cbn. unfold OsZephyr.hal_sem_init. destruct s as [[i|]|]; [pool | | pool].
    destruct (claim (sems p)) as [i|] eqn:Hi; [| pool]. destruct (OsZephyr.k_sem_init _ _) as [d rc]. destruct (decide (rc <> 0)); pool.
  - intros s ms p. cbn. unfold OsZephyr.hal_sem_take. destruct s as [[i|]|]; [| done | done]. by destruct (OsZephyr.k_sem_take _ _ _).
  - intros s p. cbn. unfold OsZephyr.hal_sem_give. by destruct s as [[i|]|].
  - intros s p. cbn. by destruct s as [[i|]|].
Qed.

(** ** Many handles *)

Inductive pool_op :=
| PCreate (k : nat) (entry : bool) (options : ptr eaf_thread_options_t)
| PJoin (k : nat)
| PSemInit (k : nat)
| PTake (k : nat) (timeout_ms : Z)
| PGive (k : nat)
| PSemDeinit (k : nat).
(** The clients' objects; an object that is not there is passed as NULL. *)
Record pool_world (D : Type) := PoolWorld { th : list (ptr nat); sm : list (ptr nat); pools : os_pools D }.
Arguments PoolWorld {D}. Arguments th {D}. Arguments sm {D}. Arguments pools {D}.
Definition store (k : nat) (t : handle_t) (hs : list (ptr nat)) : list (ptr nat) :=
  match t with Some x => <[k := x]> hs | None => hs end.

Definition pool_exec {D} (o : hal_os D) (op : pool_op) (w : pool_world D) : pool_world D * Z :=
  match op with
  | PCreate k e opts => let '(t, p, rc) := os_create o (th w !! k) e opts (pools w) in (PoolWorld (store k t (th w)) (sm w) p, rc)
  | PJoin k => let '(t, p, rc) := os_join o (th w !! k) (pools w) in (PoolWorld (store k t (th w)) (sm w) p, rc)
  | PSemInit k => let '(s, p, rc) := os_sem_init o (sm w !! k) (pools w) in (PoolWorld (th w) (store k s (sm w)) p, rc)
  | PTake k ms => let '(p, rc) := os_sem_take o (sm w !! k) ms (pools w) in (PoolWorld (th w) (sm w) p, rc)
  | PGive k => (PoolWorld (th w) (sm w) (os_sem_give o (sm w !! k) (pools w)), EAF_OK)
  | PSemDeinit k => let '(s, p) := os_sem_deinit o (sm w !! k) (pools w) in (PoolWorld (th w) (store k s (sm w)) p, EAF_OK)
  end.
Fixpoint pool_run {D} (o : hal_os D) (ops : list pool_op) (w : pool_world D) : pool_world D :=
  match ops with [] => w | op :: rest => pool_run o rest (pool_exec o op w).1 end.

(** The busy slots are exactly the ones a handle names, and no two handles name one. *)
Definition pool_ok (hs : list (ptr nat)) (busy : list bool) : Prop :=
  (forall i, busy !! i = Some true <-> exists k, hs !! k = Some (Some i)) /\
  (forall k1 k2 i, hs !! k1 = Some (Some i) -> hs !! k2 = Some (Some i) -> k1 = k2).

Lemma store_same k hs : store k (hs !! k) hs = hs.
Proof. destruct (hs !! k) eqn:Hk; [| done]. by apply list_insert_id. Qed.

Lemma acquired_pool k hs busy t' busy' rc :
  pool_ok hs busy -> acquired (hs !! k) busy t' busy' rc -> pool_ok (store k t' hs) busy'.
Proof.
  intros [Hb Hu] Ha. unfold acquired in Ha. case_decide; [| destruct Ha as [-> ->]; by rewrite store_same].
  destruct Ha as (i & Hk & Hc & -> & ->). apply claim_free in Hc. cbn.
  assert (Hfree : forall k', hs !! k' <> Some (Some i)).
  { intros k' Hk'. assert (busy !! i = Some true) by (apply Hb; by exists k'). congruence. }
  assert (Hlt : (k < length hs)%nat) by (by eapply lookup_lt_Some).
  split.
  - intros j. destruct (decide (j = i)) as [->|Hj].
    + rewrite list_lookup_insert_eq by (by eapply lookup_lt_Some). split; [| done]. intros _. exists k. by rewrite list_lookup_insert_eq.
    + rewrite list_lookup_insert_ne by done. rewrite Hb. split; intros [k' Hk'].
      * exists k'. rewrite list_lookup_insert_ne; [done |]. congruence.
      * destruct (decide (k' = k)) as [->|Hne]; [rewrite list_lookup_insert_eq in Hk' by done; congruence |].
        exists k'. by rewrite list_lookup_insert_ne in Hk' by done.
  - intros k1 k2 j. destruct (decide (k1 = k)) as [->|H1], (decide (k2 = k)) as [->|H2]; [done | | |].
    + rewrite list_lookup_insert_eq, list_lookup_insert_ne by done. intros [= <-] Hx. by destruct (Hfree k2).
    + rewrite list_lookup_insert_ne, list_lookup_insert_eq by done. intros Hx [= <-]. by destruct (Hfree k1).
    + rewrite !list_lookup_insert_ne by done. apply Hu.
Qed.

Lemma released_pool k i hs busy : pool_ok hs busy -> hs !! k = Some (Some i) -> pool_ok (<[k := None]> hs) (<[i := false]> busy).
Proof.
  intros [Hb Hu] Hk. assert (Hlt : (k < length hs)%nat) by (by eapply lookup_lt_Some). split.
  - intros j. destruct (decide (j = i)) as [->|Hj].
    + assert (Hbi : busy !! i = Some true) by (apply Hb; by exists k).
      rewrite list_lookup_insert_eq by (by eapply lookup_lt_Some). split; [done |]. intros [k' Hk'].
      destruct (decide (k' = k)) as [->|Hne]; [by rewrite list_lookup_insert_eq in Hk' by done |].
      rewrite list_lookup_insert_ne in Hk' by done. by destruct Hne; apply (Hu _ _ i).
    + rewrite list_lookup_insert_ne by done. rewrite Hb. split; intros [k' Hk'].
      * exists k'. rewrite list_lookup_insert_ne; [done |]. congruence.
      * destruct (decide (k' = k)) as [->|Hne]; [by rewrite list_lookup_insert_eq in Hk' by done |].
        exists k'. by rewrite list_lookup_insert_ne in Hk' by done.
  - intros k1 k2 j. destruct (decide (k1 = k)) as [->|H1]; [by rewrite list_lookup_insert_eq by done |].
    destruct (decide (k2 = k)) as [->|H2]; [by rewrite (list_lookup_insert_eq _ k) by done |].
    rewrite !list_lookup_insert_ne by done. apply Hu.
Qed.
Lemma returned_pool k hs busy t' busy' rc :
  pool_ok hs busy -> returned (hs !! k) busy t' busy' rc -> pool_ok (store k t' hs) busy'.
Proof.
  intros Hp Ha. unfold returned in Ha. case_decide; [| destruct Ha as [-> ->]; by rewrite store_same].
  destruct Ha as (i & Hk & -> & ->). by apply released_pool.
Qed.

Definition world_ok {D} (w : pool_world D) : Prop :=
  pool_ok (th w) (threads (pools w)) /\ pool_ok (sm w) (sems (pools w)).

Lemma pool_exec_ok {D} (o : hal_os D) `{HO : !OsLaws o} op w : world_ok w -> world_ok (pool_exec o op w).1.
Proof.
  intros [Ht Hs]. destruct op as [k e opts|k|k|k ms|k|k]; cbn.
  - pose proof (law_create (th w !! k) e opts (pools w)) as Hl. destruct (os_create o _ e opts _) as [[t p] rc].
    destruct Hl as [Ha Hq]. split; cbn; [by eapply acquired_pool | by rewrite Hq].
  - pose proof (law_join (th w !! k) (pools w)) as Hl. destruct (os_join o _ _) as [[t p] rc].
    destruct Hl as [Ha Hq]. split; cbn; [by eapply returned_pool | by rewrite Hq].
  - pose proof (law_sem_init (sm w !! k) (pools w)) as Hl. destruct (os_sem_init o _ _) as [[t p] rc].
    destruct Hl as [Ha Hq]. split; cbn; [by rewrite Hq | by eapply acquired_pool].
  - pose proof (law_sem_take (sm w !! k) ms (pools w)) as Hl. destruct (os_sem_take o _ ms _) as [p rc].
    cbn in Hl. destruct Hl as [H1 H2]. split; cbn; by rewrite ?H1, ?H2.
  - pose proof (law_sem_give (sm w !! k) (pools w)) as Hl. cbn in Hl. destruct Hl as [H1 H2]. split; cbn; by rewrite ?H1, ?H2.
  - pose proof (law_sem_deinit (sm w !! k) (pools w)) as Hl. destruct (os_sem_deinit o _ _) as [s p].
    destruct Hl as [Hl Hq]. split; cbn; [by rewrite Hq |].
    destruct (sm w !! k) as [[i|]|] eqn:Hk; destruct Hl as [-> ->]; cbn; [by apply released_pool | | done].
    by rewrite list_insert_id.
Qed.

(** The handles and pools a program starts with. *)
Definition fresh_world {D} (handles slots sem_handles sem_slots : nat) (d : D) : pool_world D :=
  PoolWorld (replicate handles None) (replicate sem_handles None)
    (OsPools (replicate slots false) (replicate sem_slots false) d).
Lemma fresh_pool handles slots : pool_ok (replicate handles None) (replicate slots false).
Proof.
  split.
  - intros i. split.
    + intros Hx. by apply lookup_replicate in Hx as [? _].
    + intros [k Hk]. by apply lookup_replicate in Hk as [? _].
  - intros k1 k2 i Hk _. by apply lookup_replicate in Hk as [? _].
Qed.

Inductive adapter {D : Type} : hal_os D -> Prop :=
| esp_adapter {HC : PoolConfig} {HT : OsEspIdf.TickConfig} {HF : OsEspIdf.FreeRtos D} : adapter esp_os
| zephyr_adapter {HC : PoolConfig} {HN : OsZephyr.KernelConfig} {HK : OsZephyr.ZephyrKernel D} : adapter zephyr_os.
Lemma adapter_laws {D} (o : hal_os D) : adapter o -> OsLaws o.
Proof. intros []; exact _. Qed.

#[export] Instance demo_pools : PoolConfig := {| CONFIG_EAF_AUDIO_PRIORITY := 2; CONFIG_EAF_DECODER_PRIORITY := 4; CORES := 2 |}.
#[export] Instance demo_zephyr_config : OsZephyr.KernelConfig :=
  {| OsZephyr.EAGAIN := 11; OsZephyr.EBUSY := 16; OsZephyr.hal_zephyr_cpu_pin_available := true |}.
(** A kernel that refuses to pin to CPU 1; its state is the time. *)
#[export] Instance demo_zephyr : OsZephyr.ZephyrKernel Z := {|
  OsZephyr.k_thread_create _ _ d := (d, true);
  OsZephyr.hal_zephyr_cpu_pin _ c d := (d, if decide (c = 1) then -22 else 0);
  OsZephyr.k_thread_abort _ d := d;
  OsZephyr.k_thread_start _ d := d;
  OsZephyr.k_thread_join _ d := (d, 0);
  OsZephyr.k_sem_init _ d := (d, 0);
  OsZephyr.k_sem_take _ _ d := (d, 0);
  OsZephyr.k_sem_give _ d := d;
  OsZephyr.k_sleep_us t d := d + t;
  OsZephyr.k_uptime_us d := (d, d) |}.
Definition demo_ops : list pool_op :=
  [PCreate 0 true (Some (ThreadOptions EAF_THREAD_AUDIO 0 false)); PCreate 1 true (Some (ThreadOptions EAF_THREAD_DECODER 1 false));
   PSemInit 0; PJoin 0; PCreate 1 true (Some default_options)].
Example demo_ops_run :
  let w := pool_run zephyr_os demo_ops (fresh_world 2 1 1 1 0) in
  (th w, threads (pools w), sm w) = ([None; Some 0%nat], [true], [Some 0%nat]).
Proof. by vm_compute. Qed.

(** ** Sleeping *)

(** A clock [now] that reads increase, and that sleeping moves on. *)
Class EspClock (D : Type) {HT : OsEspIdf.TickConfig} {HF : OsEspIdf.FreeRtos D} (now : D -> Z) := {
  esp_reads d : (OsEspIdf.esp_timer_get_time d).2 = now d;
  esp_read_keeps d : now d <= now (OsEspIdf.esp_timer_get_time d).1;
  esp_in_range d : 0 <= now d < 2 ^ 64;
  esp_delays t d : 0 < t -> now d < now (OsEspIdf.vTaskDelay t d);
  esp_rate : 0 < OsEspIdf.configTICK_RATE_HZ <= 1000000
}.
Lemma esp_ticks_positive {HT : OsEspIdf.TickConfig} left :
  0 < OsEspIdf.configTICK_RATE_HZ <= 1000000 -> 0 < left <= UINT32_MAX ->
  0 < u32 ((left + OsEspIdf.tick_us - 1) / OsEspIdf.tick_us).
Proof.
  intros Hr Hl. unfold OsEspIdf.tick_us. set (q := 1000000 / OsEspIdf.configTICK_RATE_HZ).
  assert (Hq : 1 <= q) by (unfold q; Z.to_euclidean_division_equations; nia).
  assert (H1 : 1 <= (left + q - 1) / q) by (apply Z.div_le_lower_bound; lia).
  assert (H2 : (left + q - 1) / q <= left).
  { apply Z.div_le_upper_bound; [lia |]. unfold UINT32_MAX in Hl. nia. }
  unfold UINT32_MAX in Hl. word_unfold. rewrite Z.mod_small; lia.
Qed.

(** [hal_sleep_until_us] of ESP-IDF returns, once the deadline has passed and never
    before; it only ever yields to the scheduler, since the rounding up leaves nothing
    for the busy wait. *)
Theorem esp_sleep_until_deadline {D} {HT : OsEspIdf.TickConfig} {HF : OsEspIdf.FreeRtos D} (now : D -> Z) {HE : EspClock D now} deadline d fuel :
  deadline <= now d + Z.of_nat fuel ->
  exists d', OsEspIdf.hal_sleep_until_us fuel deadline d = Some (d', EAF_OK) /\ deadline <= now d'.
Proof.
  revert d. induction fuel as [|fuel IH]; intros d Hf; cbn [OsEspIdf.hal_sleep_until_us]; unfold OsEspIdf.hal_monotonic_time_us;
    pose proof (esp_reads d) as Hr; pose proof (esp_read_keeps d) as Hk; pose proof (esp_in_range d) as Hi;
    destruct (OsEspIdf.esp_timer_get_time d) as [d1 t]; cbn in Hr, Hk; subst t;
    assert (Hu : u64 (now d) = now d) by (word_unfold; rewrite Z.mod_small; lia); rewrite Hu.
  - rewrite decide_True by lia. exists d1. split; [done | lia].
  - case_decide as Hd; [exists d1; split; [done | lia] |].
    set (left := Z.min _ _). assert (Hl : 0 < left <= UINT32_MAX) by (unfold left, UINT32_MAX; lia).
    pose proof (esp_ticks_positive left esp_rate Hl) as Ht. rewrite decide_True by done.
    apply IH. pose proof (esp_delays _ d1 Ht). lia.
Qed.

Class ZephyrClock (D : Type) {HK : OsZephyr.ZephyrKernel D} (now : D -> Z) := {
  zephyr_reads d : (OsZephyr.k_uptime_us d).2 = now d;
  zephyr_read_keeps d : now d <= now (OsZephyr.k_uptime_us d).1;
  zephyr_sleeps t d : 0 < t -> now d < now (OsZephyr.k_sleep_us t d)
}.
Theorem zephyr_sleep_until_deadline {D} {HK : OsZephyr.ZephyrKernel D} (now : D -> Z) {HE : ZephyrClock D now} deadline d fuel :
  deadline <= now d + Z.of_nat fuel ->
  exists d', OsZephyr.hal_sleep_until_us fuel deadline d = Some (d', EAF_OK) /\ deadline <= now d'.
Proof.
  revert d. induction fuel as [|fuel IH]; intros d Hf; cbn [OsZephyr.hal_sleep_until_us]; unfold OsZephyr.hal_monotonic_time_us;
    pose proof (zephyr_reads d) as Hr; pose proof (zephyr_read_keeps d) as Hk;
    destruct (OsZephyr.k_uptime_us d) as [d1 t]; cbn in Hr, Hk; subst t.
  - rewrite decide_True by lia. exists d1. split; [done | lia].
  - case_decide as Hd; [exists d1; split; [done | lia] |]. apply IH.
    pose proof (zephyr_sleeps (Z.min (deadline - now d) UINT32_MAX) d1 ltac:(unfold UINT32_MAX; lia)). lia.
Qed.

(** ** A slot's stack

    One access per step of a slot's life.  [live] counts the kernel tasks that still
    run on the slot's stack; [done] the gives of its semaphore not yet taken; [named]
    whether a handle names it. *)
Record slot_life := Life { busy_slot : bool; named : bool; done_given : bool; live : Z }.
Inductive esp_slot_step : slot_life -> slot_life -> Prop :=
| esp_created dn l : esp_slot_step (Life false false dn l) (Life true true dn (l + 1))
| esp_entry_done b n l : 0 < l -> esp_slot_step (Life b n false l) (Life b n true l)       (* [xSemaphoreGive(slot->done)] *)
| esp_task_deleted b n dn l : 0 < l -> esp_slot_step (Life b n dn l) (Life b n dn (l - 1)) (* [vTaskDelete(NULL)] *)
| esp_joined l : esp_slot_step (Life true true true l) (Life false false false l).
(** Zephyr's [k_thread_join] returns when the kernel has ended the thread. *)
Inductive zephyr_slot_step : slot_life -> slot_life -> Prop :=
| zephyr_created dn l : zephyr_slot_step (Life false false dn l) (Life true true dn (l + 1))
| zephyr_thread_ended b n l : 0 < l -> zephyr_slot_step (Life b n false l) (Life b n true (l - 1))
| zephyr_joined l : zephyr_slot_step (Life true true true l) (Life false false false l).

(** On Zephyr one thread at most runs on a slot's stack. *)
Theorem zephyr_stack_exclusive s : rtc zephyr_slot_step (Life false false false 0) s -> 0 <= live s <= 1.
Proof.
  set (inv := fun s => match s with
    | Life b n dn l => b = n /\ (if b then (if dn then l = 0 else l = 1) else l = 0 /\ dn = false) end).
  intros Hr. assert (Hi : inv s).
  { assert (H0 : inv (Life false false false 0)) by (by unfold inv). revert H0.
    induction Hr as [|x y z Hxy _ IH]; [done |]. intros Hx. apply IH. clear IH.
    destruct Hxy as [dn l|b n l Hl|l]; unfold inv in *; cbn in *.
    - destruct Hx as (_ & -> & ->). done.
    - destruct Hx as [-> Hx]. destruct n; [| lia]. subst l. done.
    - destruct Hx as [_ ->]. done. }
  destruct s as [b n dn l]. unfold inv in Hi. cbn. destruct b, dn; lia.
Qed.

(** On ESP-IDF the joiner may go on between a task's give and its delete: two tasks
    then run on one static stack. *)
Example esp_stack_shared : rtc esp_slot_step (Life false false false 0) (Life true true false 2).
Proof.
  eapply rtc_l; [apply esp_created |]. eapply rtc_l; [by apply esp_entry_done |].
  eapply rtc_l; [apply esp_joined |]. eapply rtc_l; [apply esp_created |]. apply rtc_refl.
Qed.
