(* ===== verification/I2sEspIdf.v ===== *)
(** The ESP-IDF I2S sink: [hal/esp_idf/sink_i2s_esp_idf.c].  It is a backend of the
    core in [I2sCore]; the ESP-IDF driver is the parameter [D]. *)

From stdpp Require Import gmap.
From S2P Require Import Prelude Types I2sCore.

Definition EAF_I2S_DMA_DESC_NUM : Z := 4.
Definition EAF_I2S_WRITE_TIMEOUT_MS : Z := 20.
Definition EAF_I2S_MCLK_MULTIPLE : Z := 256.

Record eaf_esp_idf_i2s_pins_t := Pins { bclk_gpio : Z; ws_gpio : Z; dout_gpio : Z }.
Record i2s_tuning_config_t := Tuning { tune_mclk_val : Z; max_delta_mclk : Z; min_delta_mclk : Z }.

(** ** The driver

    The codes are those of [esp_err_t], 0 on success.  [i2s_new_channel] answers with
    the handle it wrote, if it wrote one. *)
Class EspI2sConfig := {
  ESP_ERR_TIMEOUT : Z;
  ESP_ERR_NOT_SUPPORTED : Z;
  SOC_I2S_SUPPORTS_APLL : bool
}.
Class EspI2s (D : Type) := {
  i2s_new_channel : Z -> Z -> D -> D * ptr Z * Z;                 (* descriptors, frames *)
  i2s_channel_init_std_mode : ptr Z -> bool -> Z -> eaf_esp_idf_i2s_pins_t -> D -> D * Z;  (* APLL, rate *)
  i2s_channel_enable : ptr Z -> D -> D * Z;
  i2s_channel_write : ptr Z -> ptr Z -> Z -> Z -> D -> D * Z * Z;  (* code, bytes written *)
  i2s_channel_disable : ptr Z -> D -> D * Z;
  i2s_del_channel : ptr Z -> D -> D * Z;
  i2s_channel_tune_rate : ptr Z -> i2s_tuning_config_t -> D -> D * Z;
  i2s_time_us : D -> D * Z;                                       (* [hal_monotonic_time_us] *)
  i2s_sleep_until_us : Z -> D -> D * Z                            (* [hal_sleep_until_us] *)
}.
#[global] Hint Mode EspI2s ! : typeclass_instances.

(** ** The context

    [lent] is not in the code: whether [storage], which has address 0 here, is
    with the core. *)
Record esp_i2s_ctx_t (D : Type) := EspI2sCtx {
  pins : ptr eaf_esp_idf_i2s_pins_t;
  tx : ptr Z;
  mclk_hz : Z;
  apll : bool;
  lent : list (Z * Z);
  drv : D
}.
Arguments EspI2sCtx {D}. Arguments pins {D}. Arguments tx {D}. Arguments mclk_hz {D}.
Arguments apll {D}. Arguments lent {D}. Arguments drv {D}.

Section esp.
Context {D : Type} {HG : EspI2sConfig} {HE : EspI2s D}.
Abbreviation W := (esp_i2s_ctx_t D).
Abbreviation core_t := (eaf_i2s_core_t W).

Definition set_tx (t : ptr Z) (w : W) : W := EspI2sCtx (pins w) t (mclk_hz w) (apll w) (lent w) (drv w).
Definition set_clock (m : Z) (a : bool) (w : W) : W := EspI2sCtx (pins w) (tx w) m a (lent w) (drv w).
Definition set_lent (l : list (Z * Z)) (w : W) : W := EspI2sCtx (pins w) (tx w) (mclk_hz w) (apll w) l (drv w).
Definition set_drv (d : D) (w : W) : W := EspI2sCtx (pins w) (tx w) (mclk_hz w) (apll w) (lent w) d.

Definition eaf_esp_idf_i2s_bind (c : core_t) (p : ptr eaf_esp_idf_i2s_pins_t) (w : W) : W * Z :=
  match p with
  | Some q =>
      if bool_decide (bclk_gpio q < 0) || bool_decide (ws_gpio q < 0) || bool_decide (dout_gpio q < 0)
      then (w, EAF_INVALID)
      else if configured c || running c then (w, EAF_STATE)
      else (EspI2sCtx p (tx w) (mclk_hz w) (apll w) (lent w) (drv w), EAF_OK)
  | None => (w, EAF_INVALID)
  end.

(** The default clock source, after the APLL was refused or is not there. *)
Definition init_default (c : core_t) (w : W) (rate : Z) (p : eaf_esp_idf_i2s_pins_t) : W * Z :=
  let '(d, rc) := i2s_channel_init_std_mode (tx w) false rate p (drv w) in
  let w := set_drv d w in
  if decide (rc <> 0) then
    let '(d, _) := i2s_del_channel (tx w) (drv w) in
    eaf_i2s_core_io_error c (set_tx None (set_drv d w)) Op_init_std rc
  else (w, EAF_OK).

Definition esp_configure (c : core_t) (w : W) (fmt : eaf_format_t) (nframes : Z) : ub (W * Z) :=
  Some match pins w with
  | None => (w, EAF_INVALID)
  | Some p =>
      let '(d, h, rc) := i2s_new_channel EAF_I2S_DMA_DESC_NUM (u32 nframes) (drv w) in
      let w := set_drv d (match h with Some _ => set_tx h w | None => w end) in
      if decide (rc <> 0) then eaf_i2s_core_io_error c w Op_new_channel rc
      else
        let w := set_clock (mclk_hz w) false w in
        let w :=
          if SOC_I2S_SUPPORTS_APLL then
            let '(d, rc) := i2s_channel_init_std_mode (tx w) true (sample_rate fmt) p (drv w) in
            set_clock (mclk_hz w) (bool_decide (rc = 0)) (set_drv d w)
          else w in
        let '(w, rc) := if apll w then (w, EAF_OK) else init_default c w (sample_rate fmt) p in
        if decide (rc <> 0) then (w, rc)
        else (set_clock (s32 (u32 (sample_rate fmt * EAF_I2S_MCLK_MULTIPLE))) (apll w) w, EAF_OK)
  end.

Definition esp_enable (c : core_t) (w : W) : ub (W * Z) :=
  let '(d, rc) := i2s_channel_enable (tx w) (drv w) in Some (set_drv d w, rc).

Definition esp_write (c : core_t) (w : W) (data : ptr Z) (bytes : Z) : ub (W * (Z * Z)) :=
  let '(d, rc, written) := i2s_channel_write (tx w) data bytes EAF_I2S_WRITE_TIMEOUT_MS (drv w) in
  let w := set_drv d w in
  let rc := if decide (rc <> 0) then rc else if decide (written = bytes) then EAF_OK else ESP_ERR_TIMEOUT in
  Some (if decide (rc = 0 /\ written = bytes) then set_lent (tail (lent w)) w else w, (rc, written)).

Definition esp_drain (c : core_t) (w : W) : ub (W * Z) :=
  wait ← (if decide (sample_rate (format (buffer c)) = 0) then None
          else Some (u64 (u64 (u64 (frames c * EAF_I2S_DMA_DESC_NUM) * 1000000) / sample_rate (format (buffer c)))));
  let '(d, now) := i2s_time_us (drv w) in
  let '(d, rc) := i2s_sleep_until_us (u64 (u64 (now + wait) + 1000)) d in
  Some (set_drv d w, if decide (rc <> EAF_OK) then ESP_ERR_TIMEOUT else EAF_OK).

Definition esp_disable (c : core_t) (w : W) : ub (W * Z) :=
  let '(d, rc) := i2s_channel_disable (tx w) (drv w) in Some (set_drv d w, rc).

Definition esp_delete (c : core_t) (w : W) : ub (W * Z) :=
  Some match tx w with
  | None => (w, EAF_OK)
  | Some _ =>
      let '(d, rc) := i2s_del_channel (tx w) (drv w) in
      let w := set_drv d w in
      if decide (rc <> 0) then (w, rc) else (set_tx None w, EAF_OK)
  end.

(** The clock asked for: [mclk] moved by [ppm] millionths, truncated, within 1 %. *)
Definition tuning (mclk ppm : Z) : i2s_tuning_config_t :=
  Tuning (s32 (mclk + Z.quot (mclk * ppm) 1000000)) (s32 (Z.quot mclk 100)) (- s32 (Z.quot mclk 100)).

Definition esp_tune_ppm (c : core_t) (w : W) (ppm : Z) : ub (W * Z) :=
  Some
    (if negb (configured c) || negb (apll w) || bool_decide (tx w = None) then (w, EAF_UNSUPPORTED)
     else
       let '(d, rc) := i2s_channel_tune_rate (tx w) (tuning (mclk_hz w) ppm) (drv w) in
       (set_drv d w,
        if decide (rc = 0) then EAF_OK
        else if decide (rc = ESP_ERR_NOT_SUPPORTED) then EAF_UNSUPPORTED else EAF_IO)).

(** [storage] holds the largest block. *)
Definition STORAGE_BYTES : Z := EAF_I2S_CORE_MAX_FRAMES * 2 * 4.
Definition esp_dma_alloc (c : core_t) (w : W) (bytes : Z) : ub (W * ptr Z) :=
  Some (set_lent ((0, STORAGE_BYTES) :: lent w) w, Some 0).
Definition esp_dma_free (c : core_t) (w : W) (block : ptr Z) : ub W := Some (set_lent (tail (lent w)) w).

Definition esp_backend : eaf_i2s_backend_t W :=
  I2sBackend esp_configure (Some esp_enable) esp_write None None esp_drain (Some esp_disable) (Some esp_delete)
    (Some esp_tune_ppm) esp_dma_alloc esp_dma_free true.
End esp.
#[global] Arguments esp_configure : simpl never.
#[global] Arguments esp_enable : simpl never.
#[global] Arguments esp_write : simpl never.
#[global] Arguments esp_drain : simpl never.
#[global] Arguments esp_disable : simpl never.
#[global] Arguments esp_delete : simpl never.
#[global] Arguments esp_tune_ppm : simpl never.

(** ** The channel

    The driver's channels, as its documentation tells their life: registered by
    [i2s_new_channel], ready once a mode is set, running while enabled. *)
Inductive chan_state := Registered | Ready | Running.
#[global] Instance chan_state_eq_dec : EqDecision chan_state.
Proof. solve_decision. Defined.
Class EspI2sLaws (D : Type) {HE : EspI2s D} (chans : D -> gmap Z chan_state) := {
  new_ok n f d : let '(d', h, rc) := i2s_new_channel n f d in
    if decide (rc = 0) then exists a, h = Some a /\ chans d !! a = None /\ chans d' = <[a := Registered]> (chans d)
    else h = None /\ chans d' = chans d;
  init_ok a b r p d : chans d !! a = Some Registered -> let '(d', rc) := i2s_channel_init_std_mode (Some a) b r p d in
    chans d' = if decide (rc = 0) then <[a := Ready]> (chans d) else chans d;
  enable_ok a d : chans d !! a = Some Ready -> let '(d', rc) := i2s_channel_enable (Some a) d in
    chans d' = if decide (rc = 0) then <[a := Running]> (chans d) else chans d;
  disable_ok a d : chans d !! a = Some Running -> let '(d', rc) := i2s_channel_disable (Some a) d in
    chans d' = if decide (rc = 0) then <[a := Ready]> (chans d) else chans d;
  del_ok a d : chans d !! a = Some Ready -> let '(d', rc) := i2s_del_channel (Some a) d in
    chans d' = if decide (rc = 0) then delete a (chans d) else chans d;
  del_registered a d : chans d !! a = Some Registered -> chans (i2s_del_channel (Some a) d).1 = delete a (chans d);
  write_ok a p n t d : chans d !! a = Some Running -> chans (i2s_channel_write (Some a) p n t d).1.1 = chans d;
  tune_ok a t d : chans d !! a <> None -> chans (i2s_channel_tune_rate (Some a) t d).1 = chans d;
  time_ok d : chans (i2s_time_us d).1 = chans d;
  sleep_ok t d : chans (i2s_sleep_until_us t d).1 = chans d
}.

Section follows.
Context {D : Type} {HG : EspI2sConfig} {HE : EspI2s D} (chans : D -> gmap Z chan_state) {HL : EspI2sLaws D chans}.
Abbreviation W := (esp_i2s_ctx_t D).
Abbreviation core_t := (eaf_i2s_core_t W).

(** The error handler may not re-enter the sink. *)
Definition esp_handler_ok (h : option (i2s_operation -> Z -> Z -> W -> W)) : Prop :=
  match h with
  | Some h => forall o e n w, tx (h o e n w) = tx w /\ lent (h o e n w) = lent w /\ chans (drv (h o e n w)) = chans (drv w)
  | None => True
  end.

(** A channel exists exactly when [there], and it runs exactly when [runs]. *)
Definition chan_ok (runs there : bool) (w : W) : Prop :=
  match tx w with
  | Some a => there = true /\ chans (drv w) = {[a := if runs then Running else Ready]}
  | None => there = false /\ runs = false /\ chans (drv w) = empty
  end.

Lemma io_error_chan (c : core_t) w op e w' rc runs there :
  esp_handler_ok (error_handler c) -> eaf_i2s_core_io_error c w op e = (w', rc) -> chan_ok runs there w ->
  chan_ok runs there w' /\ lent w' = lent w /\ rc = EAF_IO.
Proof.
  unfold eaf_i2s_core_io_error. destruct (error_handler c) as [h|]; intros Hh [= <- <-] Hc; [| done].
  destruct (Hh op e (submitted_blocks c) w) as (Ht & Hl & Hd). unfold chan_ok in *. by rewrite Ht, Hd.
Qed.

Lemma enable_chan (c : core_t) w :
  chan_ok false true w -> exists w' rc, esp_enable c w = Some (w', rc) /\ lent w' = lent w /\ chan_ok (bool_decide (rc = 0)) true w'.
Proof.
  unfold esp_enable, chan_ok. destruct (tx w) as [a|] eqn:Ht; [| by intros [? _]]. intros [_ Hc].
  pose proof (enable_ok a (drv w)) as He. destruct (i2s_channel_enable (Some a) (drv w)) as [d rc].
  eexists _, _. split; [done |]. split; [done |]. cbn. rewrite Ht. split; [done |].
  rewrite He by (by rewrite Hc, lookup_singleton_eq). rewrite Hc.
  case_decide; case_bool_decide; try done. by rewrite insert_singleton_eq.
Qed.
Lemma disable_chan (c : core_t) w :
  chan_ok true true w -> exists w' rc, esp_disable c w = Some (w', rc) /\ lent w' = lent w /\ chan_ok (bool_decide (rc <> 0)) true w'.
Proof.
  unfold esp_disable, chan_ok. destruct (tx w) as [a|] eqn:Ht; [| by intros [? _]]. intros [_ Hc].
  pose proof (disable_ok a (drv w)) as He. destruct (i2s_channel_disable (Some a) (drv w)) as [d rc].
  eexists _, _. split; [done |]. split; [done |]. cbn. rewrite Ht. split; [done |].
  rewrite He by (by rewrite Hc, lookup_singleton_eq). rewrite Hc.
  case_decide; case_bool_decide; try done. by rewrite insert_singleton_eq.
Qed.
Lemma delete_chan (c : core_t) w there :
  chan_ok false there w ->
  exists w' rc, esp_delete c w = Some (w', rc) /\ lent w' = lent w /\ chan_ok false (bool_decide (rc <> 0)) w'.
Proof.
  unfold esp_delete. destruct (tx w) as [a|] eqn:Ht; unfold chan_ok; rewrite Ht.
  - intros [_ Hc]. pose proof (del_ok a (drv w)) as He. destruct (i2s_del_channel (Some a) (drv w)) as [d rc].
    rewrite Hc, lookup_singleton_eq in He. specialize (He eq_refl). destruct (decide (rc = 0)) as [->|Hrc].
    + rewrite decide_False by (intros Hx; by apply Hx). eexists _, _. split; [done |]. split; [done |]. cbn.
      by rewrite He, delete_singleton_eq.
    + rewrite decide_True by done. eexists _, _. split; [done |]. split; [done |]. cbn. rewrite Ht, He.
      by rewrite bool_decide_true by done.
  - intros (_ & _ & Hc). eexists _, _. split; [done |]. split; [done |]. by rewrite Ht.
Qed.
Lemma write_chan (c : core_t) w data n :
  chan_ok true true w -> exists w' rc k, esp_write c w data n = Some (w', (rc, k)) /\ chan_ok true true w' /\
    lent w' = if decide (rc = 0 /\ k = n) then tail (lent w) else lent w.
Proof.
  unfold esp_write, chan_ok. destruct (tx w) as [a|] eqn:Ht; [| by intros [? _]]. intros [_ Hc].
  pose proof (write_ok a data n EAF_I2S_WRITE_TIMEOUT_MS (drv w)) as He.
  destruct (i2s_channel_write (Some a) data n _ (drv w)) as [[d rc] k]. cbn in He.
  rewrite Hc, lookup_singleton_eq in He. specialize (He eq_refl).
  eexists _, _, _. split; [done |]. split; destruct (decide (_ /\ _)); cbn; try done; by rewrite Ht, He.
Qed.
Lemma drain_chan (c : core_t) w runs there :
  sample_rate (format (buffer c)) <> 0 -> chan_ok runs there w ->
  exists w' rc, esp_drain c w = Some (w', rc) /\ lent w' = lent w /\ chan_ok runs there w'.
Proof.
  unfold esp_drain, chan_ok. intros Hr Hc. rewrite decide_False by done. cbn.
  pose proof (time_ok (drv w)) as Ht. destruct (i2s_time_us (drv w)) as [d now]. cbn in Ht.
  match goal with |- context [i2s_sleep_until_us ?t d] => pose proof (sleep_ok t d) as Hs; destruct (i2s_sleep_until_us t d) as [d2 rc] end.
  cbn in Hs. eexists _, _. split; [done |]. split; [done |]. cbn. by rewrite Hs, Ht.
Qed.
Lemma tune_chan (c : core_t) w ppm runs there :
  chan_ok runs there w -> exists w' rc, esp_tune_ppm c w ppm = Some (w', rc) /\ lent w' = lent w /\ chan_ok runs there w'.
Proof.
  intros Hc. unfold esp_tune_ppm. destruct (_ || _) eqn:Hg; [by eexists _, _ |].
  apply orb_false_iff in Hg as [_ Ht%bool_decide_eq_false]. unfold chan_ok in *. destruct (tx w) as [a|] eqn:Hw; [| done].
  pose proof (tune_ok a (tuning (mclk_hz w) ppm) (drv w)) as He. destruct (i2s_channel_tune_rate _ _ (drv w)) as [d rc]. cbn in He.
  destruct Hc as [Hth Hc]. eexists _, _. split; [done |]. split; [done |]. cbn. rewrite Hw. split; [done |]. rewrite <- Hc. apply He.
  by rewrite Hc, lookup_singleton_eq.
Qed.

Lemma init_default_chan (c : core_t) w rate p a w' rc :
  esp_handler_ok (error_handler c) -> tx w = Some a -> chans (drv w) = {[a := Registered]} ->
  init_default c w rate p = (w', rc) -> lent w' = lent w /\ chan_ok false (bool_decide (rc = 0)) w'.
Proof.
  intros Hh Ht Hc. unfold init_default. rewrite Ht.
  pose proof (init_ok a false rate p (drv w)) as Hi. destruct (i2s_channel_init_std_mode (Some a) false rate p (drv w)) as [d r].
  rewrite Hc, lookup_singleton_eq in Hi. specialize (Hi eq_refl). destruct (decide (r = 0)) as [->|Hr].
  - rewrite decide_False by (intros Hx; by apply Hx). intros [= <- <-]. split; [done |].
    unfold chan_ok. cbn. by rewrite Ht, Hi, insert_singleton_eq.
  - rewrite decide_True by done.
    pose proof (del_registered a d) as Hd. change (tx (set_drv d w)) with (tx w). rewrite Ht. change (drv (set_drv d w)) with d.
    destruct (i2s_del_channel (Some a) d) as [d2 r2]. cbn in Hd.
    rewrite Hi, lookup_singleton_eq in Hd. specialize (Hd eq_refl). rewrite delete_singleton_eq in Hd.
    intros He. eapply (io_error_chan c _ _ _ _ _ false false) in He as (Hc' & Hl & ->); [by split | done | by unfold chan_ok].
Qed.

Lemma configure_chan (c : core_t) w f n :
  esp_handler_ok (error_handler c) -> chan_ok false false w ->
  exists w' rc, esp_configure c w f n = Some (w', rc) /\ lent w' = lent w /\ chan_ok false (bool_decide (rc = 0)) w'.
Proof.
  intros Hh Hc. unfold esp_configure. destruct (pins w) as [p|]; [| by eexists _, _].
  assert (tx w = None /\ chans (drv w) = empty) as [Ht He].
  { unfold chan_ok in Hc. destruct (tx w); [by destruct Hc | by destruct Hc as (_ & _ & ?)]. }
  pose proof (new_ok EAF_I2S_DMA_DESC_NUM (u32 n) (drv w)) as Hn.
  destruct (i2s_new_channel _ (u32 n) (drv w)) as [[d h] rc]. case_decide as Hrc.
  2: { destruct Hn as [-> Hd]. rewrite decide_True by done.
       destruct (eaf_i2s_core_io_error c _ Op_new_channel rc) as [w' r] eqn:Hio.
       eapply (io_error_chan c _ _ _ _ _ false false) in Hio as (Hc' & Hl & ->); [by eexists _, _ | done |].
       unfold chan_ok. cbn. by rewrite Ht, Hd. }
  destruct Hn as (a & -> & _ & Hd). rewrite He, insert_empty in Hd.
  rewrite decide_False by (intros Hx; by apply Hx).
  set (w1 := set_clock _ false _).
  assert (Hw2 : exists w2, (if SOC_I2S_SUPPORTS_APLL then
      let '(d, rc) := i2s_channel_init_std_mode (tx w1) true (sample_rate f) p (drv w1) in
      set_clock (mclk_hz w1) (bool_decide (rc = 0)) (set_drv d w1) else w1) = w2 /\
      tx w2 = Some a /\ lent w2 = lent w /\ chans (drv w2) = {[a := if apll w2 then Ready else Registered]}).
  { eexists. split; [done |]. destruct SOC_I2S_SUPPORTS_APLL; [| done].
    pose proof (init_ok a true (sample_rate f) p (drv w1)) as Hi.
    change (tx w1) with (Some a). destruct (i2s_channel_init_std_mode (Some a) true (sample_rate f) p (drv w1)) as [d2 rc2].
    cbn in Hi |- *. rewrite Hd, lookup_singleton_eq in Hi. specialize (Hi eq_refl).
    split; [done |]. split; [done |]. rewrite Hi. case_decide; case_bool_decide; try done. by rewrite insert_singleton_eq. }
  destruct Hw2 as (w2 & -> & Ht2 & Hl2 & Hc2). destruct (apll w2) eqn:Ha.
  - rewrite decide_False by (intros Hx; by apply Hx). eexists _, _. split; [done |]. split; [done |].
    unfold chan_ok. cbn. by rewrite Ht2, Hc2.
  - destruct (init_default c w2 (sample_rate f) p) as [w3 rc3] eqn:Hi.
    apply (init_default_chan c w2 _ _ a) in Hi as [Hl3 Hc3]; try done.
    destruct (decide (rc3 = 0)) as [->|Hr3].
    + rewrite decide_False by (intros Hx; by apply Hx). eexists _, _. split; [done |]. split; [cbn; congruence | done].
    + rewrite decide_True by done. eexists _, _. split; [done |]. split; [congruence | done].
Qed.

(** ** The interface of the core *)

Lemma esp_backend_laws : backend_laws lent (esp_backend (D := D)).
Proof.
  split.
  - intros c w f n Hh. cbn. unfold esp_configure. destruct (pins w) as [p|]; [| by eexists _, _].
    assert (Hio : forall w0 o e, lent (eaf_i2s_core_io_error c w0 o e).1 = lent w0).
    { intros w0 o e. unfold eaf_i2s_core_io_error. unfold handler_laws in Hh. destruct (error_handler c); [apply Hh | done]. }
    assert (Hdef : forall w0 r, lent (init_default c w0 r p).1 = lent w0).
    { intros w0 r. unfold init_default. destruct (i2s_channel_init_std_mode _ _ _ _ _) as [d rc]. case_decide; [| done].
      destruct (i2s_del_channel _ _). rewrite Hio. done. }
    destruct (i2s_new_channel _ _ _) as [[d h] rc]. set (w1 := set_drv d _).
    assert (H1 : lent w1 = lent w) by (unfold w1; by destruct h).
    case_decide; [pose proof (Hio w1 Op_new_channel rc); destruct (eaf_i2s_core_io_error _ _ _ _); eexists _, _; split; [done | cbn in *; congruence] |].
    set (w2 := if SOC_I2S_SUPPORTS_APLL then _ else _).
    assert (H2 : lent w2 = lent w) by (unfold w2; destruct SOC_I2S_SUPPORTS_APLL; [destruct (i2s_channel_init_std_mode _ _ _ _ _) |]; done).
    destruct (apll w2); [rewrite decide_False by (intros Hx; by apply Hx); by eexists _, _ |].
    pose proof (Hdef w2 (sample_rate f)) as H3. destruct (init_default c w2 (sample_rate f) p) as [w3 rc3]. cbn in H3.
    case_decide; eexists _, _; (split; [done | cbn; congruence]).
  - intros _. eexists. split; [done |]. intros c w. unfold esp_enable. destruct (i2s_channel_enable _ _). by eexists _, _.
  - done.
  - done.
  - intros c w Hf. cbn. unfold esp_drain. apply eaf_format_valid_channels in Hf as (_ & _ & Hr). rewrite decide_False by done. cbn.
    destruct (i2s_time_us _), (i2s_sleep_until_us _ _). by eexists _, _.
  - intros c w. unfold esp_disable. destruct (i2s_channel_disable _ _). by eexists _, _.
  - intros c w. unfold esp_delete. destruct (tx w); [| by eexists _, _]. destruct (i2s_del_channel _ _) as [d rc].
    destruct (decide (rc <> 0)); by eexists _, _.
  - intros c w p. unfold esp_tune_ppm. destruct (_ || _); [by eexists _, _ |]. destruct (i2s_channel_tune_rate _ _ _). by eexists _, _.
  - intros c w n Hn. eexists _, _. split; [done |]. exists STORAGE_BYTES. split; [apply Hn | done].
  - intros c w a n l Hl. eexists. split; [done |]. cbn. by rewrite Hl.
  - intros c w a n k l Hl Hk. cbn. unfold esp_write. destruct (i2s_channel_write _ _ _ _ _) as [[d rc] j].
    eexists _, _, _. split; [done |]. cbn. destruct (decide (_ /\ j = k)); [by rewrite Hl | done].
Qed.

(** ** The core's calls *)

Definition follows (res : outcome W) : Prop :=
  forall c' w' rc, res = Some (c', w', rc) -> chan_ok (started c') (configured c') w' /\ esp_handler_ok (error_handler c').

Lemma fail_follows (c : core_t) w op e :
  esp_handler_ok (error_handler c) -> chan_ok (started c) (configured c) w -> follows (fail c w op e).
Proof.
  intros Hh Hc c' w' rc. unfold fail. destruct (eaf_i2s_core_io_error c w op e) as [w1 r] eqn:Hio.
  intros [= <- <- <-]. split; [| done]. by eapply io_error_chan in Hio as (? & _).
Qed.
Lemma ret_follows (c : core_t) w rc :
  esp_handler_ok (error_handler c) -> chan_ok (started c) (configured c) w -> follows (Some (c, w, rc)).
Proof. intros Hh Hc c' w' r [= <- <- <-]. done. Qed.

Lemma drain_follows (c : core_t) w :
  (started c = true -> configured c = true /\ eaf_format_valid (Some (format (buffer c))) = true) ->
  esp_handler_ok (error_handler c) -> chan_ok (started c) (configured c) w -> follows (eaf_i2s_core_drain (Some esp_backend) c w).
Proof.
  intros Hs Hh Hc. unfold eaf_i2s_core_drain. destruct (started c) eqn:Hst; [| apply ret_follows; by rewrite ?Hst].
  destruct (Hs eq_refl) as [Hcf Hf%eaf_format_valid_channels]. cbn.
  destruct (drain_chan c w true (configured c)) as (w1 & rc & -> & _ & Hc1); [apply Hf | done |]. cbn.
  destruct (decide (rc <> 0)); [apply fail_follows; by rewrite ?Hst |].
  rewrite Hcf in Hc1. destruct (disable_chan c w1 Hc1) as (w2 & rc2 & -> & _ & Hc2). cbn.
  destruct (decide (rc2 <> 0)) as [Hr2|Hr2].
  - apply fail_follows; [done |]. rewrite Hst, Hcf. by rewrite bool_decide_true in Hc2 by done.
  - apply ret_follows; [done |]. cbn. rewrite Hcf. by rewrite bool_decide_false in Hc2 by done.
Qed.

Lemma commit_write_follows (c : core_t) w :
  started c = true -> configured c = true -> eaf_format_valid (Some (format (buffer c))) = true ->
  esp_handler_ok (error_handler c) -> chan_ok true true w -> follows (commit_write (Some esp_backend) c w).
Proof.
  intros Hst Hcf Hf Hh Hc. unfold commit_write. cbn.
  destruct (write_chan c w (dma c) (frame_count (buffer c) * 2 * 4) Hc) as (w1 & rc & k & -> & Hc1 & _). cbn.
  destruct (decide (_ \/ _)); [apply fail_follows; by rewrite ?Hst, ?Hcf |]. rewrite Hst. cbn.
  unfold commit_started. destruct (negb _); [| apply ret_follows; cbn; by rewrite ?Hst, ?Hcf].
  apply drain_follows; cbn; [done | done | by rewrite Hst, Hcf].
Qed.

Lemma stop_follows (c : core_t) w :
  i2s_inv lent c w -> esp_handler_ok (error_handler c) -> chan_ok (started c) (configured c) w ->
  follows (core_stop (Some esp_backend) c w).
Proof.
  intros Hi Hh Hc. unfold core_stop.
  assert (Htail : forall c1 w1, started c1 = started c -> running c1 = running c -> configured c1 = configured c ->
    buffer c1 = buffer c -> error_handler c1 = error_handler c -> chan_ok (started c) (configured c) w1 ->
    follows (stop_tail (Some esp_backend) c1 w1)).
  { intros c1 w1 Hs Hr Hcf Hb He Hc1. unfold stop_tail, stop_drop. rewrite <- Hs, <- Hcf in Hc1. rewrite <- He in Hh.
    destruct (started c1) eqn:Hst.
    - symmetry in Hs. assert (Hd : follows (eaf_i2s_core_drain (Some esp_backend) c1 w1)).
      { apply drain_follows; [| done | by rewrite Hst]. intros _. rewrite Hcf, Hb.
        pose proof (inv_running _ _ _ Hi (proj1 (inv_started _ _ _ Hi Hs))) as Hx. split; [done | by apply (inv_format _ _ _ Hi)]. }
      destruct (eaf_i2s_core_drain (Some esp_backend) c1 w1) as [[[c2 w2] rc]|] eqn:Hdr; cbn; [| by intros ? ? ?].
      destruct (Hd _ _ _ eq_refl). case_decide; by apply ret_follows.
    - apply ret_follows; [done |]. cbn. by rewrite Hst. }
  destruct (held c); cbn; by apply Htail.
Qed.

(** ** Scripts *)

Inductive esp_op :=
| Core (op : i2s_op W)
| Bind (p : ptr eaf_esp_idf_i2s_pins_t).
Definition esp_exec (op : esp_op) (c : core_t) (w : W) : ub (core_t * W) :=
  match op with
  | Core op => i2s_exec esp_backend op c w
  | Bind p => Some (c, (eaf_esp_idf_i2s_bind c p w).1)
  end.
Fixpoint esp_run (ops : list esp_op) (c : core_t) (w : W) : ub (core_t * W) :=
  match ops with
  | [] => Some (c, w)
  | op :: rest => '(c, w) ← esp_exec op c w; esp_run rest c w
  end.
Definition esp_op_ok (op : esp_op) : Prop :=
  match op with
  | Core op => i2s_op_ok lent op /\ match op with SetHandler h => esp_handler_ok h | _ => True end
  | Bind _ => True
  end.

Record esp_inv (c : core_t) (w : W) : Prop := {
  ei_core : i2s_inv lent c w;
  ei_handler : esp_handler_ok (error_handler c);
  ei_chan : chan_ok (started c) (configured c) w
}.

Lemma follows_exec res c w :
  follows res -> drop_rc res = Some (c, w) -> chan_ok (started c) (configured c) w /\ esp_handler_ok (error_handler c).
Proof.
  unfold drop_rc. intros Hf. destruct res as [[[c1 w1] rc]|]; cbn; [| done]. intros [= <- <-]. by apply (Hf c1 w1 rc).
Qed.

Lemma init_follows (c : core_t) w fmt n c' w' :
  esp_inv c w -> i2s_exec esp_backend (Init fmt n) c w = Some (c', w') ->
  chan_ok (started c') (configured c') w' /\ esp_handler_ok (error_handler c').
Proof.
  intros [Hi Hh Hc]. cbn. unfold core_init. destruct (configured c || running c) eqn:Hcr; [by intros [= <- <-] |].
  apply orb_false_iff in Hcr as [Hcf Hr]. destruct fmt as [f|]; [| by intros [= <- <-]].
  destruct (_ || _) eqn:Hg; [by intros [= <- <-] |].
  assert (Hst : started c = false).
  { destruct (started c) eqn:Hs; [| done]. destruct (inv_started _ _ _ Hi Hs). congruence. }
  rewrite Hst, Hcf in Hc. cbn.
  match goal with |- context [esp_configure c w f ?m] => destruct (configure_chan c w f m Hh Hc) as (w1 & rc & -> & _ & Hc1) end.
  cbn. destruct (decide (rc = 0)) as [->|Hrc].
  - rewrite decide_False by (intros Hx; by apply Hx). cbn. intros [= <- <-]. cbn. by rewrite Hst.
  - rewrite decide_True by done. cbn. intros [= <- <-]. rewrite Hst, Hcf. by rewrite bool_decide_false in Hc1 by done.
Qed.

Lemma commit_follows (c : core_t) w own :
  esp_inv c w -> follows (core_commit (Some esp_backend) c w own).
Proof.
  intros [Hi Hh Hc]. unfold core_commit. destruct (_ || _) eqn:Hg; [by apply ret_follows |].
  apply orb_false_iff in Hg as [Hg _]. apply orb_false_iff in Hg as [Hr%negb_false_iff _].
  pose proof (inv_running _ _ _ Hi Hr) as Hcf. pose proof (inv_format _ _ _ Hi Hcf) as Hf. rewrite Hcf in Hc. cbn.
  destruct (started c) eqn:Hst; cbn; [by apply commit_write_follows |].
  destruct (enable_chan c w Hc) as (w1 & rc & -> & _ & Hc1). cbn. destruct (decide (rc = 0)) as [->|Hrc].
  - rewrite decide_False by (intros Hx; by apply Hx). by apply commit_write_follows.
  - rewrite decide_True by done. apply fail_follows; [done |]. rewrite Hst, Hcf. by rewrite bool_decide_false in Hc1 by done.
Qed.

Lemma deinit_follows (c : core_t) w : esp_inv c w -> follows (core_deinit (Some esp_backend) c w).
Proof.
  intros [Hi Hh Hc]. unfold core_deinit.
  destruct (stop_yields lent esp_backend esp_backend_laws c w Hi) as (c1 & w1 & rc & Hs & Hi1 & _ & Hok & _).
  pose proof (stop_follows c w Hi Hh Hc _ _ _ Hs) as [Hc1 Hh1]. rewrite Hs. cbn.
  destruct (decide (rc = 0)) as [->|Hrc]; [| rewrite decide_True by done; by apply ret_follows].
  rewrite decide_False by (intros Hx; by apply Hx). destruct (Hok eq_refl) as (_ & Hst & _). rewrite Hst in Hc1.
  destruct (delete_chan c1 w1 (configured c1) Hc1) as (w2 & rc2 & Hd & _ & Hc2). rewrite Hd. cbn.
  destruct (decide (rc2 = 0)) as [->|Hr2].
  - rewrite decide_False by (intros Hx; by apply Hx). apply ret_follows; [done |]. cbn. by rewrite Hst.
  - rewrite decide_True by done. apply fail_follows; [done |]. rewrite Hst.
    rewrite bool_decide_true in Hc2 by done. unfold esp_delete in Hd. destruct (tx w1) as [a|] eqn:Ht; [| by injection Hd as <- <-].
    unfold chan_ok in Hc1. rewrite Ht in Hc1. destruct Hc1 as [Hcf _]. by rewrite Hcf.
Qed.

Lemma pause_follows (c : core_t) w p : esp_inv c w -> follows (eaf_i2s_core_pause (Some esp_backend) c w p).
Proof.
  intros [Hi Hh Hc]. unfold eaf_i2s_core_pause. destruct (_ || _) eqn:Hg; [by apply ret_follows |].
  apply orb_false_iff in Hg as [Hr%negb_false_iff _]. case_bool_decide; [by apply ret_follows |].
  destruct (_ && _); [| by apply ret_follows].
  assert (Hd : follows (eaf_i2s_core_drain (Some esp_backend) c w)).
  { apply drain_follows; try done. intros _. pose proof (inv_running _ _ _ Hi Hr) as Hx. split; [done | by apply (inv_format _ _ _ Hi)]. }
  destruct (eaf_i2s_core_drain (Some esp_backend) c w) as [[[c2 w2] rc]|] eqn:Hdr; cbn; [| by intros ? ? ?].
  destruct (Hd _ _ _ eq_refl). case_decide; by apply ret_follows.
Qed.

Lemma esp_exec_inv op c w :
  esp_inv c w -> esp_op_ok op -> exists c' w', esp_exec op c w = Some (c', w') /\ esp_inv c' w'.
Proof.
  intros Hinv Hop. destruct op as [op|p].
  - destruct Hop as [Hop Hset]. destruct (i2s_exec_inv lent esp_backend op c w esp_backend_laws (ei_core _ _ Hinv) Hop) as (c' & w' & He & Hi').
    exists c', w'. split; [done |].
    assert (Hf : chan_ok (started c') (configured c') w' /\ esp_handler_ok (error_handler c')); [| by destruct Hf; split].
    destruct op as [fmt n| | |out|n fl|own| |p|ppm|h].
    + by apply (init_follows c w fmt n).
    + cbn in He. apply (follows_exec (core_start c w)); [| done]. unfold core_start.
      destruct (_ || _) eqn:Hg; [apply ret_follows; apply Hinv |]. apply orb_false_iff in Hg as [_ Hr].
      apply ret_follows; cbn; [apply Hinv |]. pose proof (ei_chan _ _ Hinv) as Hc.
      destruct (started c) eqn:Hs; [| done]. destruct (inv_started _ _ _ (ei_core _ _ Hinv) Hs). congruence.
    + apply (follows_exec (core_stop (Some esp_backend) c w)); [apply stop_follows; apply Hinv | done].
    + cbn in He. apply (follows_exec (core_acquire (Some esp_backend) c w out)); [| done].
      unfold core_acquire. destruct (_ || _); apply ret_follows; apply Hinv.
    + cbn in He. destruct (decide (0 <= n <= frames c)); injection He as <- <-; (split; [apply Hinv | apply Hinv]).
    + apply (follows_exec (core_commit (Some esp_backend) c w own)); [by apply commit_follows | done].
    + apply (follows_exec (core_deinit (Some esp_backend) c w)); [by apply deinit_follows | done].
    + apply (follows_exec (eaf_i2s_core_pause (Some esp_backend) c w p)); [by apply pause_follows | done].
    + cbn in He. unfold core_adjust in He. cbn in He.
      destruct (tune_chan c w ppm _ _ (ei_chan _ _ Hinv)) as (w1 & rc & Ht & _ & Hc1). rewrite Ht in He. cbn in He.
      injection He as <- <-. split; [done | apply Hinv].
    + cbn in He. injection He as <- <-. split; [apply Hinv | apply Hset].
  - eexists _, _. split; [done |]. destruct Hinv as [Hi Hh Hc]. unfold eaf_esp_idf_i2s_bind.
    destruct p as [q|]; [| by split]. destruct (_ || _ || _); [by split |]. destruct (_ || _); [by split |]. by split; [apply (i2s_inv_world lent c w) | |].
Qed.
End follows.

(** A driver with at most one channel, which checks the state it needs. *)
Definition demo_d : Type := gmap Z chan_state.
Definition demo_move (from to : chan_state) (h : ptr Z) (d : demo_d) : demo_d * Z :=
  match h with
  | Some a => if decide (d !! a = Some from) then (<[a := to]> d, 0) else (d, 259)
  | None => (d, 258)
  end.
#[export] Instance demo_config : EspI2sConfig :=
  {| ESP_ERR_TIMEOUT := 263; ESP_ERR_NOT_SUPPORTED := 262; SOC_I2S_SUPPORTS_APLL := true |}.
#[export] Instance demo_driver : EspI2s demo_d := {|
  i2s_new_channel _ _ d := if decide (d !! 7 = None) then (<[7 := Registered]> d, Some 7, 0) else (d, None, 261);
  i2s_channel_init_std_mode h a _ _ d := if a then (d, 262) else demo_move Registered Ready h d;
  i2s_channel_enable := demo_move Ready Running;
  i2s_channel_write h _ n _ d :=
    match h with Some a => if decide (d !! a = Some Running) then (d, 0, n) else (d, 259, 0) | None => (d, 258, 0) end;
  i2s_channel_disable := demo_move Running Ready;
  i2s_del_channel h d :=
    match h with Some a => if decide (d !! a = Some Running) then (d, 259) else (delete a d, 0) | None => (d, 258) end;
  i2s_channel_tune_rate _ _ d := (d, 262);
  i2s_time_us d := (d, 1000);
  i2s_sleep_until_us _ d := (d, 0) |}.

Lemma demo_move_ok from to a (d : demo_d) :
  d !! a = Some from -> (demo_move from to (Some a) d) = (<[a := to]> d, 0).
Proof. intros Ha. cbn. by rewrite decide_True by done. Qed.
#[export] Instance demo_driver_laws : EspI2sLaws demo_d (fun d => d).
Proof.
  split.
  - intros n f d. cbn. case_decide; cbn; [by exists 7 | done].
  - intros a b r p d Ha. cbn. destruct b; [done |]. by rewrite decide_True by done.
  - intros a d Ha. cbn [i2s_channel_enable demo_driver]. by rewrite demo_move_ok.
  - intros a d Ha. cbn [i2s_channel_disable demo_driver]. by rewrite demo_move_ok.
  - intros a d Ha. cbn. case_decide as Hx; [discriminate (eq_trans (eq_sym Ha) Hx) | done].
  - intros a d Ha. cbn. case_decide as Hx; [discriminate (eq_trans (eq_sym Ha) Hx) | done].
  - intros a p n t d Ha. cbn. by rewrite decide_True by done.
  - done.
  - done.
  - done.
Qed.

(** ** Properties *)

(** C37: The hardware channel follows the sink, whatever is called in whatever order and
    whatever the ESP-IDF driver answers: the core and this backend together always
    return; a channel exists exactly while the sink is configured (none is leaked by a
    refused mode or lost by a failed delete), it is enabled exactly while the sink
    says it has started, so a write, an enable, a disable and a delete are only ever asked
    of a channel in the state the driver wants; and the storage is lent exactly
    while the core holds a block. *)
Theorem esp_channel_follows_core {D : Type} {HG : EspI2sConfig} {HE : EspI2s D} (chans : D -> gmap Z chan_state)
    {HL : EspI2sLaws D chans} (ops : list esp_op) (w : esp_i2s_ctx_t D) :
  tx w = None -> chans (drv w) = empty -> lent w = [] -> Forall (esp_op_ok chans) ops ->
  exists c' w', esp_run ops core_zero w = Some (c', w') /\ i2s_inv lent c' w' /\
    match tx w' with
    | Some a => configured c' = true /\ chans (drv w') = {[a := if started c' then Running else Ready]}
    | None => configured c' = false /\ started c' = false /\ chans (drv w') = empty
    end.
Proof.
  intros Ht Hc Hl Hops.
  assert (Hinv : esp_inv chans core_zero w).
  { split; [by apply core_zero_inv | done |]. unfold chan_ok. by rewrite Ht. }
  assert (Hrun : exists c' w', esp_run ops core_zero w = Some (c', w') /\ esp_inv chans c' w').
  { clear Ht Hc Hl. revert Hinv. generalize (core_zero (W := esp_i2s_ctx_t D)). revert w.
    induction Hops as [|op ops Hop _ IH]; intros w c Hinv; [by exists c, w |].
    destruct (esp_exec_inv chans op c w Hinv Hop) as (c1 & w1 & He & Hi1). cbn. rewrite He. cbn. by apply IH. }
  destruct Hrun as (c' & w' & Hrun & [Hi _ Hch]). exists c', w'. by split.
Qed.
Definition demo_pins : eaf_esp_idf_i2s_pins_t := Pins 27 26 25.
Definition demo_script : list (esp_op (D := demo_d)) :=
  [Bind (Some demo_pins); Core (Init (Some (Format 48000 2 3)) 512); Core Start; Core (Acquire true);
   Core (Fill 512 0); Core (Commit true); Core (Adjust 100)].
Lemma esp_channel_follows_core_witness :
  exists c' w', esp_run demo_script core_zero (EspI2sCtx None None 0 false [] empty) = Some (c', w') /\ i2s_inv lent c' w' /\
    match tx w' with
    | Some a => configured c' = true /\ drv w' = {[a := if started c' then Running else Ready]}
    | None => configured c' = false /\ started c' = false /\ drv w' = empty
    end.
Proof.
  apply (esp_channel_follows_core (fun d : demo_d => d)); [done | done | done |].
  repeat constructor; done.
Defined.
Example demo_script_runs :
  ('(c, w) ← esp_run demo_script core_zero (EspI2sCtx None None 0 false [] empty);
   Some (started c, tx w, mclk_hz w, (drv w : demo_d) !! 7)) = Some (true, Some 7, 12288000, Some Running).
Proof. by vm_compute. Qed.

(** The clock asked of the driver stays within the 1 % it is told to allow, for the
    corrections the clock recovery makes. *)
Theorem tuning_within_limits rate ppm :
  8000 <= rate <= 192000 -> -10000 <= ppm <= 10000 ->
  let mclk := s32 (u32 (rate * EAF_I2S_MCLK_MULTIPLE)) in
  let t := tuning mclk ppm in
  mclk = rate * 256 /\ min_delta_mclk t <= tune_mclk_val t - mclk <= max_delta_mclk t.
Proof.
  intros Hr Hp. cbn zeta. unfold tuning, EAF_I2S_MCLK_MULTIPLE. cbn [tune_mclk_val max_delta_mclk min_delta_mclk].
  assert (Hm : s32 (u32 (rate * 256)) = rate * 256) by (word_unfold; Z.to_euclidean_division_equations; lia).
  rewrite Hm. split; [done |].
  assert (H1 : s32 (rate * 256 ÷ 100) = rate * 256 ÷ 100) by (word_unfold; Z.to_euclidean_division_equations; lia).
  assert (Hq : - (rate * 256 ÷ 100) <= (rate * 256 * ppm) ÷ 1000000 <= rate * 256 ÷ 100).
  { split; Z.to_euclidean_division_equations; nia. }
  assert (H2 : s32 (rate * 256 + (rate * 256 * ppm) ÷ 1000000) = rate * 256 + (rate * 256 * ppm) ÷ 1000000).
  { assert (rate * 256 ÷ 100 <= 491520) by (Z.to_euclidean_division_equations; lia). word_unfold. Z.to_euclidean_division_equations; lia. }
  rewrite H1, H2. lia.
Qed.
