(* ===== verification/I2sZephyr.v ===== *)
(** The Zephyr I2S sink: [hal/zephyr/sink_i2s_zephyr.c], a backend of the core in
    [I2sCore].  The device driver and the memory slab are the parameter [D]. *)

From S2P Require Import Prelude Types I2sCore.

(** [ROUND_UP(EAF_I2S_CORE_MAX_FRAMES * 2 * sizeof(int32_t), 32)] *)
Definition SLOT_BYTES : Z := (EAF_I2S_CORE_MAX_FRAMES * 2 * 4 + 31) / 32 * 32.
Definition SLOTS : Z := 4.

Inductive i2s_trigger_cmd := I2S_TRIGGER_START | I2S_TRIGGER_DROP | I2S_TRIGGER_DRAIN.
Inductive timeout_t := K_MSEC (ms : Z) | K_TIMEOUT_ABS_MS (deadline : Z).

Class ZephyrErrno := { ENODEV : Z; ENOTSUP : Z; ETIMEDOUT : Z }.
Class ZephyrI2s (D : Type) := {
  device_get_binding : Z -> D -> D * ptr Z;
  device_is_ready : Z -> D -> D * bool;
  i2s_configure : ptr Z -> Z -> Z -> D -> D * Z;                (* rate, block size *)
  sys_cache_data_flush_range : ptr Z -> Z -> D -> D * Z;
  i2s_write : ptr Z -> ptr Z -> Z -> D -> D * Z;
  i2s_trigger : ptr Z -> i2s_trigger_cmd -> D -> D * Z;
  k_mem_slab_alloc : timeout_t -> D -> D * Z * Z;               (* the block, code *)
  k_mem_slab_free : Z -> D -> D;
  k_uptime_get : D -> D * Z
}.
#[global] Hint Mode ZephyrI2s ! : typeclass_instances.

Record zephyr_i2s_ctx_t (D : Type) := ZephyrI2sCtx { name : ptr Z; device : ptr Z; drv : D }.
Arguments ZephyrI2sCtx {D}. Arguments name {D}. Arguments device {D}. Arguments drv {D}.

Section zephyr.
Context {D : Type} {HN : ZephyrErrno} {HZ : ZephyrI2s D}.
Abbreviation W := (zephyr_i2s_ctx_t D).
Abbreviation core_t := (eaf_i2s_core_t W).

Definition set_drv (d : D) (w : W) : W := ZephyrI2sCtx (name w) (device w) d.

Definition eaf_zephyr_i2s_bind (c : core_t) (n : ptr Z) (w : W) : W * Z :=
  match n with
  | None => (w, EAF_INVALID)
  | Some _ => if configured c || running c then (w, EAF_STATE) else (ZephyrI2sCtx n (device w) (drv w), EAF_OK)
  end.

Definition zephyr_configure (c : core_t) (w : W) (fmt : eaf_format_t) (nframes : Z) : ub (W * Z) :=
  Some match name w with
  | None => (w, EAF_INVALID)
  | Some n =>
      let '(d, dev) := device_get_binding n (drv w) in
      let w := ZephyrI2sCtx (name w) dev d in
      let '(w, ready) :=
        match dev with None => (w, false) | Some a => let '(d, r) := device_is_ready a (drv w) in (set_drv d w, r) end in
      if negb ready then eaf_i2s_core_io_error c w Op_device_ready (- ENODEV)
      else
        let '(d, rc) := i2s_configure (device w) (sample_rate fmt) (nframes * 2 * 4) (drv w) in
        let w := set_drv d w in
        if decide (rc <> 0) then eaf_i2s_core_io_error c w Op_configure rc else (w, EAF_OK)
  end.

(** [written] stays 0 unless the write succeeded. *)
Definition zephyr_write (c : core_t) (w : W) (data : ptr Z) (bytes : Z) : ub (W * (Z * Z)) :=
  let '(d, cache_rc) := sys_cache_data_flush_range data bytes (drv w) in
  let w := set_drv d w in
  Some (if decide (cache_rc <> 0 /\ cache_rc <> - ENOTSUP) then (w, (cache_rc, 0))
        else
          let '(d, rc) := i2s_write (device w) data bytes (drv w) in
          let w := set_drv d w in
          if decide (rc <> 0) then (w, (rc, 0)) else (w, (EAF_OK, bytes))).

Definition trigger (cmd : i2s_trigger_cmd) (w : W) : W * Z :=
  let '(d, rc) := i2s_trigger (device w) cmd (drv w) in (set_drv d w, rc).
Definition zephyr_start (c : core_t) (w : W) : ub (W * Z) := Some (trigger I2S_TRIGGER_START w).
Definition zephyr_drop (c : core_t) (w : W) : ub (W * Z) := Some (trigger I2S_TRIGGER_DROP w).

(** The slots reclaimed, the last first; at most [n] more. *)
Fixpoint reclaim (n : nat) (deadline : Z) (blocks : list Z) (d : D) : D * list Z :=
  match n with
  | O => (d, blocks)
  | S n' =>
      let '(d, a, rc) := k_mem_slab_alloc (K_TIMEOUT_ABS_MS deadline) d in
      if decide (rc <> 0) then (d, blocks) else reclaim n' deadline (a :: blocks) d
  end.
Definition free_all (blocks : list Z) (d : D) : D := foldl (fun d a => k_mem_slab_free a d) d blocks.

Definition zephyr_drain (c : core_t) (w : W) : ub (W * Z) :=
  Some
    (let '(w, trigger_rc) := trigger I2S_TRIGGER_DRAIN w in
     if decide (trigger_rc <> 0) then (w, trigger_rc)
     else
       let '(d, now) := k_uptime_get (drv w) in
       let '(d, blocks) := reclaim (Z.to_nat SLOTS) (now + 1000) [] d in
       (set_drv (free_all blocks d) w, if decide (zlen blocks = SLOTS) then EAF_OK else - ETIMEDOUT)).

Definition zephyr_dma_alloc (c : core_t) (w : W) (bytes : Z) : ub (W * ptr Z) :=
  let '(d, a, rc) := k_mem_slab_alloc (K_MSEC 20) (drv w) in
  Some (set_drv d w, if decide (rc <> 0) then None else Some a).
Definition zephyr_dma_free (c : core_t) (w : W) (block : ptr Z) : ub W :=
  Some match block with None => w | Some a => set_drv (k_mem_slab_free a (drv w)) w end.

Definition zephyr_backend : eaf_i2s_backend_t W :=
  I2sBackend zephyr_configure None zephyr_write (Some zephyr_start) (Some zephyr_drop) zephyr_drain None None None
    zephyr_dma_alloc zephyr_dma_free false.
End zephyr.
#[global] Arguments zephyr_configure : simpl never.
#[global] Arguments zephyr_write : simpl never.
#[global] Arguments zephyr_start : simpl never.
#[global] Arguments zephyr_drop : simpl never.
#[global] Arguments zephyr_drain : simpl never.
#[global] Arguments trigger : simpl never.

(** ** The slab

    [mine d] are the slots this file took and neither gave back nor handed to the
    driver, the last first; [queued d] counts those of the driver, which gives them
    back as it plays them.  There are four in all. *)
Class SlabLaws (D : Type) {HZ : ZephyrI2s D} (mine : D -> list Z) (queued : D -> Z) := {
  binding_slots n d : let d' := (device_get_binding n d).1 in mine d' = mine d /\ queued d' = queued d;
  ready_slots n d : let d' := (device_is_ready n d).1 in mine d' = mine d /\ queued d' = queued d;
  configure_slots n r b d : mine (i2s_configure n r b d).1 = mine d;
  flush_slots p n d : mine (sys_cache_data_flush_range p n d).1 = mine d;
  write_slots n a b d l : mine d = a :: l -> let '(d', rc) := i2s_write n (Some a) b d in
    mine d' = if decide (rc = 0) then l else mine d;
  trigger_slots n c d : mine (i2s_trigger n c d).1 = mine d;
  uptime_slots d : mine (k_uptime_get d).1 = mine d;
  alloc_slots t d : let '(d', a, rc) := k_mem_slab_alloc t d in
    mine d' = (if decide (rc = 0) then a :: mine d else mine d) /\ 0 <= queued d' /\
    (rc = 0 -> zlen (mine d') + queued d' <= SLOTS);
  free_slots a d l : mine d = a :: l -> let d' := k_mem_slab_free a d in mine d' = l /\ 0 <= queued d' <= queued d
}.

Section slots.
Context {D : Type} {HN : ZephyrErrno} {HZ : ZephyrI2s D} (mine : D -> list Z) (queued : D -> Z) {HL : SlabLaws D mine queued}.
Abbreviation W := (zephyr_i2s_ctx_t D).

Definition owned (w : W) : list (Z * Z) := (fun a => (a, SLOT_BYTES)) <$> mine (drv w).

Lemma reclaim_slots n deadline blocks d d' blocks' l :
  reclaim n deadline blocks d = (d', blocks') -> mine d = blocks ++ l ->
  mine d' = blocks' ++ l /\ zlen blocks' <= zlen blocks + Z.of_nat n /\
  (zlen blocks < zlen blocks' -> zlen blocks' = zlen blocks + Z.of_nat n -> 0 <= queued d' /\ zlen (mine d') + queued d' <= SLOTS).
Proof.
  revert blocks d. induction n as [|n IH]; intros blocks d; cbn [reclaim].
  { intros [= <- <-] Hm. split; [done |]. split; lia. }
  pose proof (alloc_slots (K_TIMEOUT_ABS_MS deadline) d) as Ha. destruct (k_mem_slab_alloc _ d) as [[d1 a] rc].
  destruct Ha as (Hm1 & Hq & Hsum). destruct (decide (rc = 0)) as [->|Hrc].
  - rewrite decide_False by (intros Hx; by apply Hx). intros Hr Hm. rewrite Hm in Hm1.
    destruct (IH (a :: blocks) d1 Hr) as (Hm' & Hlen & Hok); [by rewrite Hm1 |]. rewrite zlen_cons in Hlen, Hok.
    split; [done |]. split; [lia |]. intros _ Heq. destruct n as [|n].
    + cbn in Hr. injection Hr as <- <-. split; [done | by apply Hsum].
    + apply Hok; lia.
  - rewrite decide_True by done. intros [= <- <-] Hm. rewrite Hm1, Hm. split; [done |]. split; lia.
Qed.

Lemma free_all_slots blocks d l :
  mine d = blocks ++ l -> mine (free_all blocks d) = l /\ (blocks <> [] -> 0 <= queued (free_all blocks d) <= queued d).
Proof.
  revert d. induction blocks as [|a blocks IH]; intros d Hm; [done |]. cbn in Hm.
  destruct (free_slots a d _ Hm) as [Hm1 Hq1]. cbn [free_all foldl].
  destruct (IH (k_mem_slab_free a d) Hm1) as [Hm2 Hq2]. split; [done |]. intros _. fold (free_all blocks (k_mem_slab_free a d)).
  destruct blocks as [|b bs]; [done |]. specialize (Hq2 ltac:(done)). lia.
Qed.

Lemma drain_slots (c : eaf_i2s_core_t W) w :
  exists w' rc, zephyr_drain c w = Some (w', rc) /\ mine (drv w') = mine (drv w) /\
    (rc = EAF_OK -> ETIMEDOUT <> 0 -> mine (drv w') = [] /\ queued (drv w') = 0).
Proof.
  unfold zephyr_drain, trigger.
  pose proof (trigger_slots (device w) I2S_TRIGGER_DRAIN (drv w)) as Ht. destruct (i2s_trigger _ _ (drv w)) as [d rc]. cbn in Ht.
  destruct (decide (rc = 0)) as [->|Hrc].
  2: { rewrite decide_True by done. eexists _, _. split; [done |]. split; [done |]. by intros ->. }
  rewrite decide_False by (intros Hx; by apply Hx).
  cbn [drv set_drv]. pose proof (uptime_slots d) as Hu. destruct (k_uptime_get d) as [d1 now]. cbn in Hu.
  destruct (reclaim (Z.to_nat SLOTS) (now + 1000) [] d1) as [d2 blocks] eqn:Hr.
  apply (reclaim_slots _ _ _ _ _ _ (mine d1)) in Hr as (Hm & Hlen & Hok); [| done].
  destruct (free_all_slots blocks d2 _ Hm) as [Hm2 Hq2].
  eexists _, _. split; [done |]. cbn [drv set_drv]. split; [congruence |].
  case_decide as Hl; [| intros He; unfold EAF_OK in He; lia]. intros _ _.
  assert (Hb : blocks <> []) by (intros ->; by cbn in Hl).
  rewrite zlen_nil in Hok. unfold SLOTS in *. specialize (Hok ltac:(lia) ltac:(lia)). specialize (Hq2 Hb).
  rewrite Hm, zlen_app in Hok. pose proof (zlen_nonneg (mine d1)).
  split; [| lia]. rewrite Hm2. apply nil_length_inv. unfold zlen in *. lia.
Qed.

Lemma zephyr_backend_laws : backend_laws owned (zephyr_backend (D := D)).
Proof.
  split.
  - intros c w f n Hh. unfold owned. cbn. unfold zephyr_configure. destruct (name w) as [nm|]; [| by eexists _, _].
    assert (Hio : forall w0 o e, (fun a => (a, SLOT_BYTES)) <$> mine (drv (eaf_i2s_core_io_error c w0 o e).1) = (fun a => (a, SLOT_BYTES)) <$> mine (drv w0)).
    { intros w0 o e. unfold eaf_i2s_core_io_error. unfold handler_laws in Hh. destruct (error_handler c); [apply Hh | done]. }
    pose proof (binding_slots nm (drv w)) as [Hb _]. destruct (device_get_binding nm (drv w)) as [d dev]. cbn in Hb.
    set (pr := match dev with None => _ | Some a => _ end).
    assert (Hp : mine (drv pr.1) = mine (drv w)).
    { unfold pr. destruct dev as [a|]; [| done]. pose proof (ready_slots a d) as [Hr _]. cbn. destruct (device_is_ready a d). cbn in *. congruence. }
    destruct pr as [w1 ready]. cbn in Hp. destruct ready; cbn.
    + pose proof (configure_slots (device w1) (sample_rate f) (n * 2 * 4) (drv w1)) as Hc. destruct (i2s_configure _ _ _ _) as [d2 rc]. cbn in Hc.
      case_decide.
      * pose proof (Hio (set_drv d2 w1) Op_configure rc) as Hi. destruct (eaf_i2s_core_io_error _ _ _ _) as [w2 r].
        eexists _, _. split; [done |]. cbn in Hi |- *. rewrite Hi. congruence.
      * eexists _, _. split; [done |]. cbn. congruence.
    + pose proof (Hio w1 Op_device_ready (- ENODEV)) as Hi. destruct (eaf_i2s_core_io_error _ _ _ _) as [w2 r].
      eexists _, _. split; [done |]. cbn in Hi |- *. rewrite Hi. congruence.
  - done.
  - intros _. eexists. split; [done |]. intros c w. unfold zephyr_start, trigger, owned.
    pose proof (trigger_slots (device w) I2S_TRIGGER_START (drv w)) as Ht. destruct (i2s_trigger _ _ (drv w)) as [d rc].
    eexists _, _. split; [done |]. cbn in *. congruence.
  - intros c w. unfold zephyr_drop, trigger, owned.
    pose proof (trigger_slots (device w) I2S_TRIGGER_DROP (drv w)) as Ht. destruct (i2s_trigger _ _ (drv w)) as [d rc].
    eexists _, _. split; [done |]. cbn in *. congruence.
  - intros c w _. destruct (drain_slots c w) as (w' & rc & Hd & Hm & _). exists w', rc. split; [done |]. unfold owned. by rewrite Hm.
  - done.
  - done.
  - done.
  - intros c w n Hn. cbn. unfold zephyr_dma_alloc, owned. pose proof (alloc_slots (K_MSEC 20) (drv w)) as Ha.
    destruct (k_mem_slab_alloc _ (drv w)) as [[d a] rc]. destruct Ha as (Hm & _).
    eexists _, _. split; [done |]. cbn. destruct (decide (rc = 0)) as [->|Hrc].
    + rewrite decide_False by (intros Hx; by apply Hx). exists SLOT_BYTES. rewrite Hm. split; [| done].
      change SLOT_BYTES with 8192. unfold EAF_I2S_CORE_MAX_FRAMES in Hn. lia.
    + rewrite decide_True by done. by rewrite Hm.
  - intros c w a n l Hl. unfold owned in *. destruct (mine (drv w)) as [|b bs] eqn:Hm; [done |]. injection Hl as -> _ Hl.
    eexists. split; [done |]. cbn. by destruct (free_slots a (drv w) bs Hm) as [-> _].
  - intros c w a n k l Hl Hk. unfold owned in *. destruct (mine (drv w)) as [|b bs] eqn:Hm; [done |]. injection Hl as -> _ Hl.
    cbn. unfold zephyr_write. pose proof (flush_slots (Some a) k (drv w)) as Hf. destruct (sys_cache_data_flush_range _ _ _) as [d crc]. cbn in Hf.
    rewrite Hm in Hf. case_decide as Hc.
    { eexists _, _, _. split; [done |]. rewrite decide_False by tauto. cbn. by rewrite Hf. }
    cbn [drv set_drv device]. pose proof (write_slots (device w) a k d bs Hf) as Hw.
    destruct (i2s_write _ (Some a) k d) as [d2 rc]. destruct (decide (rc = 0)) as [->|Hrc].
    + rewrite decide_False by (intros Hx; by apply Hx). eexists _, _, _. split; [done |]. rewrite decide_True by done. cbn. by rewrite Hw.
    + rewrite decide_True by done. eexists _, _, _. split; [done |]. rewrite decide_False by tauto. cbn. by rewrite Hw, Hf.
Qed.
End slots.

(** A driver that plays its queue when drained; the slots are numbered by the free count. *)
Definition demo_d : Type := list Z * Z.
#[export] Instance demo_errno : ZephyrErrno := {| ENODEV := 19; ENOTSUP := 134; ETIMEDOUT := 116 |}.
#[export] Instance demo_driver : ZephyrI2s demo_d := {|
  device_get_binding n d := (d, Some n);
  device_is_ready _ d := (d, true);
  i2s_configure _ _ _ d := (d, 0);
  sys_cache_data_flush_range _ _ d := (d, - ENOTSUP);
  i2s_write _ a _ d := match a, d with Some a, (b :: l, q) => ((l, q + 1), 0) | _, _ => (d, -22) end;
  i2s_trigger _ c d := (match c with I2S_TRIGGER_START => d | _ => (d.1, Z.min 0 d.2) end, 0);
  k_mem_slab_alloc _ d :=
    let q := Z.max 0 d.2 in
    if decide (zlen d.1 + q < SLOTS) then ((zlen d.1 + q :: d.1, q), zlen d.1 + q, 0) else ((d.1, q), 0, -11);
  k_mem_slab_free a d := (tail d.1, Z.max 0 d.2);
  k_uptime_get d := (d, 5000) |}.
(** The queue's count is read as zero when below, so that the laws hold of every state. *)
#[export] Instance demo_slab_laws : SlabLaws demo_d fst (fun d => Z.max 0 d.2).
Proof.
  split; try done.
  - intros n a b [m q] l Hm. cbn in Hm |- *. subst m. done.
  - intros n c d. by destruct c.
  - intros t [m q]. cbn. case_decide; cbn; rewrite ?zlen_cons; split_and!; try done; unfold SLOTS in *; lia.
  - intros a [m q] l Hm. cbn [fst] in Hm. subst m. split; [done |]. change (0 <= Z.max 0 (Z.max 0 q) <= Z.max 0 q). lia.
Qed.

(** ** Properties *)

(** With the Zephyr backend the sink conserves the four DMA slots of its slab
    whatever is called in whatever order and whatever the driver answers: every call returns, and
    the slots taken from the slab and neither freed nor accepted by the driver are
    exactly the one block the core holds.  A drain that reports success has got all
    four back, so nothing is left in the driver; one that fails gave back those it
    had reclaimed. *)
Theorem zephyr_slots_conserved {D : Type} {HN : ZephyrErrno} {HZ : ZephyrI2s D} (mine : D -> list Z) (queued : D -> Z)
    {HL : SlabLaws D mine queued} (ops : list (i2s_op (zephyr_i2s_ctx_t D))) (w : zephyr_i2s_ctx_t D) :
  mine (drv w) = [] -> Forall (i2s_op_ok (owned mine)) ops ->
  exists c' w', i2s_run zephyr_backend ops core_zero w = Some (c', w') /\
    (if held c' then exists a, dma c' = Some a /\ mine (drv w') = [a] else mine (drv w') = []) /\
    exists w1 rc, zephyr_drain c' w' = Some (w1, rc) /\ mine (drv w1) = mine (drv w') /\
      (rc = EAF_OK -> ETIMEDOUT <> 0 -> mine (drv w1) = [] /\ queued (drv w1) = 0).
Proof.
  intros Hm Hops.
  destruct (i2s_run_inv (owned mine) zephyr_backend ops core_zero w) as (c' & w' & Hrun & Hinv);
    [by apply (zephyr_backend_laws mine queued) | apply core_zero_inv; unfold owned; by rewrite Hm | done |].
  exists c', w'. split; [done |]. split; [| by apply (drain_slots mine queued)].
  pose proof (inv_block _ _ _ Hinv) as Hb. unfold owned in Hb. destruct (held c').
  - destruct Hb as (a & m & Hd & _ & Ho). exists a. split; [done |].
    destruct (mine (drv w')) as [|b [|b2 l]]; try done. by injection Ho as ->.
  - destruct Hb as [_ Ho]. by destruct (mine (drv w')).
Qed.
Definition demo_ctx : zephyr_i2s_ctx_t demo_d := ZephyrI2sCtx (Some 1) None ([], 0).
Definition demo_script : list (i2s_op (zephyr_i2s_ctx_t demo_d)) :=
  [Init (Some (Format 48000 2 3)) 512; Start; Acquire true; Fill 512 0; Commit true; Acquire true].
Lemma zephyr_slots_conserved_witness :
  exists c' w', i2s_run zephyr_backend demo_script core_zero demo_ctx = Some (c', w') /\
    (if held c' then exists a, dma c' = Some a /\ (drv w').1 = [a] else (drv w').1 = []) /\
    exists w1 rc, zephyr_drain c' w' = Some (w1, rc) /\ (drv w1).1 = (drv w').1 /\
      (rc = EAF_OK -> ETIMEDOUT <> 0 -> (drv w1).1 = [] /\ Z.max 0 (drv w1).2 = 0).
Proof.
  apply (zephyr_slots_conserved (D := demo_d) fst (fun d => Z.max 0 d.2)); [done |]. repeat constructor; done.
Defined.
Example zephyr_script_runs :
  ('(c, w) ← i2s_run zephyr_backend demo_script core_zero demo_ctx; Some (started c, held c, drv w))
  = Some (true, true, ([1], 1)).
Proof. by vm_compute. Qed.
