(* ===== verification/BtZephyr.v ===== *)
(** The A2DP binding to the Zephyr host: [hal/zephyr/bt_a2dp_zephyr.c],
    [include/eaf/eaf_bt_zephyr.h].  The values of the host's constants and the
    answers of its calls are parameters. *)

From S2P Require Import Prelude Types Bytes BtIngress.

(** ** What the host's headers define *)

Class ZephyrA2dpConstants := {
  EINVAL : Z; EBUSY : Z; EALREADY : Z;
  BT_A2DP_SBC_IE_LENGTH : Z;
  A2DP_SBC_SAMP_FREQ_44100 : Z; A2DP_SBC_SAMP_FREQ_48000 : Z; A2DP_SBC_CH_MODE_STEREO : Z; A2DP_SBC_CH_MODE_JOINT : Z;
  A2DP_SBC_BLK_LEN_16 : Z; A2DP_SBC_SUBBAND_8 : Z; A2DP_SBC_ALLOC_MTHD_LOUDNESS : Z;
  BT_A2DP_INVALID_CODEC_TYPE : Z; BT_A2DP_NOT_SUPPORTED_SAMPLING_FREQUENCY : Z; BT_A2DP_INVALID_CHANNEL_MODE : Z;
  BT_A2DP_INVALID_BLOCK_LENGTH : Z; BT_A2DP_INVALID_SUBBANDS : Z; BT_A2DP_INVALID_ALLOCATION_METHOD : Z;
  BT_A2DP_INVALID_MINIMUM_BITPOOL_VALUE : Z; BT_A2DP_INVALID_MAXIMUM_BITPOOL_VALUE : Z; BT_AVDTP_BAD_STATE : Z
}.
(** [struct bt_a2dp_codec_ie], of which the codec configuration is a pointer to one. *)
Record bt_a2dp_codec_ie := CodecIe { ie_len : Z; codec_ie : list Z }.

Inductive host_request := RegisterStreamOps | RegisterCallbacks | RegisterEndpoint (capability : bt_a2dp_codec_ie).
Class ZephyrHost (D : Type) := { host_call : host_request -> D -> D * Z }.
#[global] Hint Mode ZephyrHost ! : typeclass_instances.

Inductive eaf_bt_zephyr_event_t := EAF_BT_CONFIGURED | EAF_BT_STARTED | EAF_BT_SUSPENDED | EAF_BT_RELEASED.

Section binding.
Context {ZC : ZephyrA2dpConstants}.

(** ** State *)

Record zephyr_state := ZephyrState {
  ingress : ptr eaf_bt_ingress_t;
  notify_owner : bool;
  attempted : bool;
  streaming : bool;
  capability : bt_a2dp_codec_ie
}.
Definition capability_of (freq : Z) : bt_a2dp_codec_ie :=
  CodecIe BT_A2DP_SBC_IE_LENGTH
    [u8 (Z.lor (Z.lor freq A2DP_SBC_CH_MODE_STEREO) A2DP_SBC_CH_MODE_JOINT);
     u8 (Z.lor (Z.lor A2DP_SBC_BLK_LEN_16 A2DP_SBC_SUBBAND_8) A2DP_SBC_ALLOC_MTHD_LOUDNESS); 2; 53].
Definition state_zero : zephyr_state := ZephyrState None false false false (capability_of A2DP_SBC_SAMP_FREQ_48000).

(** ** Negotiation *)

(** The code and the error byte; [cfg] is NULL, or a configuration whose own pointer
    may be. *)
Definition validate (s : zephyr_state) (cfg : ptr (ptr bt_a2dp_codec_ie)) : ub (Z * Z) :=
  match cfg with
  | Some (Some c) =>
      if decide (ie_len c <> BT_A2DP_SBC_IE_LENGTH) then Some (- EINVAL, BT_A2DP_INVALID_CODEC_TYPE)
      else
        b0 ← ld (codec_ie c) 0;
        w0 ← ld (codec_ie (capability s)) 0;
        b1 ← ld (codec_ie c) 1;
        b2 ← ld (codec_ie c) 2;
        b3 ← ld (codec_ie c) 3;
        Some (if decide (Z.land b0 240 <> Z.land w0 240) then (- EINVAL, BT_A2DP_NOT_SUPPORTED_SAMPLING_FREQUENCY)
              else if decide (Z.land b0 15 <> A2DP_SBC_CH_MODE_STEREO /\ Z.land b0 15 <> A2DP_SBC_CH_MODE_JOINT)
              then (- EINVAL, BT_A2DP_INVALID_CHANNEL_MODE)
              else if decide (Z.land b1 240 <> A2DP_SBC_BLK_LEN_16) then (- EINVAL, BT_A2DP_INVALID_BLOCK_LENGTH)
              else if decide (Z.land b1 12 <> A2DP_SBC_SUBBAND_8) then (- EINVAL, BT_A2DP_INVALID_SUBBANDS)
              else if decide (Z.land b1 3 <> A2DP_SBC_ALLOC_MTHD_LOUDNESS) then (- EINVAL, BT_A2DP_INVALID_ALLOCATION_METHOD)
              else if decide (b2 < 2 \/ b3 < b2) then (- EINVAL, BT_A2DP_INVALID_MINIMUM_BITPOOL_VALUE)
              else if decide (53 < b3) then (- EINVAL, BT_A2DP_INVALID_MAXIMUM_BITPOOL_VALUE)
              else (0, 0))
  | _ => Some (- EINVAL, BT_A2DP_INVALID_CODEC_TYPE)
  end.

(** [own] tells whether [ep] is [&endpoint], [bound] whether the host has bound
    [sink_stream] to a connection; the last result is whether [*stream] was set. *)
Definition configure (s : zephyr_state) (own bound : bool) (cfg : ptr (ptr bt_a2dp_codec_ie)) : ub (Z * Z * bool) :=
  if negb own || bound then Some (- EBUSY, BT_AVDTP_BAD_STATE, false)
  else '(rc, e) ← validate s cfg; Some (rc, e, bool_decide (rc = 0)).
Definition reconfigure (s : zephyr_state) (cfg : ptr (ptr bt_a2dp_codec_ie)) : ub (Z * Z) := validate s cfg.

(** ** Stream callbacks *)

(** [streaming] set, the ingress marked and the owner told; before a registration
    both pointers are NULL. *)
Definition flow (stream : bool) (e : eaf_bt_zephyr_event_t) (s : zephyr_state) : ub (zephyr_state * list eaf_bt_zephyr_event_t) :=
  q ← ingress s;
  let q := BtIngress (slots q) (read_cursor q) (write_cursor q) (dropped q) (expected_sequence q) (have_sequence q) true in
  if notify_owner s then Some (ZephyrState (Some q) true (attempted s) stream (capability s), [e]) else None.
Definition configured : zephyr_state -> ub (zephyr_state * list eaf_bt_zephyr_event_t) := flow false EAF_BT_CONFIGURED.
Definition started : zephyr_state -> ub (zephyr_state * list eaf_bt_zephyr_event_t) := flow true EAF_BT_STARTED.
Definition suspended : zephyr_state -> ub (zephyr_state * list eaf_bt_zephyr_event_t) := flow false EAF_BT_SUSPENDED.
Definition released : zephyr_state -> ub (zephyr_state * list eaf_bt_zephyr_event_t) := flow false EAF_BT_RELEASED.

Record net_buf := NetBuf { frags : bool; buf_data : list Z }.
(** The answer of the ingress is discarded by the code; it is a result here. *)
Definition receive (s : zephyr_state) (buf : net_buf) (sequence timestamp : Z) : ub (zephyr_state * option Z) :=
  if negb (streaming s) then Some (s, None)
  else
    '(q, rc) ← (if frags buf then eaf_bt_sbc_receive (ingress s) sequence timestamp None 0
                else eaf_bt_sbc_receive (ingress s) sequence timestamp (Some (buf_data buf)) (zlen (buf_data buf)));
    Some (ZephyrState q (notify_owner s) (attempted s) (streaming s) (capability s), Some rc).

(** ** Registration *)

Context {D : Type} {HD : ZephyrHost D}.
Definition eaf_bt_zephyr_register (s : zephyr_state) (d : D) (queue : ptr eaf_bt_ingress_t) (rate : Z) (notify : bool)
  : zephyr_state * D * Z :=
  if bool_decide (queue = None) || negb notify || (bool_decide (rate <> 44100) && bool_decide (rate <> 48000))
  then (s, d, - EINVAL)
  else if attempted s then (s, d, - EALREADY)
  else
    match codec_ie (capability s) with
    | _ :: rest =>
        let freq := if decide (rate = 44100) then A2DP_SBC_SAMP_FREQ_44100 else A2DP_SBC_SAMP_FREQ_48000 in
        let b0 := u8 (Z.lor (Z.lor freq A2DP_SBC_CH_MODE_STEREO) A2DP_SBC_CH_MODE_JOINT) in
        let cap := CodecIe (ie_len (capability s)) (b0 :: rest) in
        let s := ZephyrState queue notify true (streaming s) cap in
        let '(d, _) := host_call RegisterStreamOps d in
        let '(d, result) := host_call RegisterCallbacks d in
        if decide (result <> 0) then (s, d, result)
        else let '(d, rc) := host_call (RegisterEndpoint cap) d in (s, d, rc)
    | [] => (s, d, - EINVAL)
    end.
End binding.

(** ** Sessions *)

Inductive zephyr_op :=
| Configured | Started | Suspended | Released
| Recv (buf : net_buf) (sequence timestamp : Z)
| Fetched.

Definition zephyr_exec {ZC : ZephyrA2dpConstants} (op : zephyr_op) (s : zephyr_state) (o : eaf_bt_packet_t)
  : ub (zephyr_state * eaf_bt_packet_t * list Z * list packet * list eaf_bt_zephyr_event_t) :=
  let event (r : ub (zephyr_state * list eaf_bt_zephyr_event_t)) := '(s, es) ← r; Some (s, o, [], [], es) in
  match op with
  | Configured => event (configured s)
  | Started => event (started s)
  | Suspended => event (suspended s)
  | Released => event (released s)
  | Recv b seq ts => '(s, rc) ← receive s b seq ts; Some (s, o, option_list rc, [], [])
  | Fetched =>
      '(q, (o', got)) ← eaf_bt_ingress_pop (ingress s) (Some o);
      o ← o'; Some (ZephyrState q (notify_owner s) (attempted s) (streaming s) (capability s), o, [], if got : bool then [view o] else [], [])
  end.
Fixpoint zephyr_run {ZC : ZephyrA2dpConstants} (ops : list zephyr_op) (s : zephyr_state) (o : eaf_bt_packet_t)
  : ub (zephyr_state * list Z * list packet * list eaf_bt_zephyr_event_t) :=
  match ops with
  | [] => Some (s, [], [], [])
  | op :: ops' =>
      '(s, o, rcs, ps, es) ← zephyr_exec op s o;
      '(s, rcs', ps', es') ← zephyr_run ops' s o;
      Some (s, rcs ++ rcs', ps ++ ps', es ++ es')
  end.

(** The reference: the queue of [BtIngress], and whether the stream flows.  A chained
    buffer counts as an empty payload. *)
Definition zref_exec (op : zephyr_op) (r : reference * bool)
  : reference * bool * list Z * list packet * list eaf_bt_zephyr_event_t :=
  let break flows e := (Reference (waiting r.1) (Some None), flows, [], [], [e]) in
  match op with
  | Configured => break false EAF_BT_CONFIGURED
  | Started => break true EAF_BT_STARTED
  | Suspended => break false EAF_BT_SUSPENDED
  | Released => break false EAF_BT_RELEASED
  | Recv b seq ts =>
      if r.2 then let '(q, rc) := ref_receive r.1 seq ts (if frags b then [] else buf_data b) in (q, true, [rc], [], [])
      else (r.1, false, [], [], [])
  | Fetched => match waiting r.1 with [] => (r.1, r.2, [], [], []) | p :: w => (Reference w (previous r.1), r.2, [], [p], []) end
  end.
Fixpoint zref_run (ops : list zephyr_op) (r : reference * bool)
  : reference * bool * list Z * list packet * list eaf_bt_zephyr_event_t :=
  match ops with
  | [] => (r.1, r.2, [], [], [])
  | op :: ops' =>
      let '(q, f, rcs, ps, es) := zref_exec op r in
      let '(q, f, rcs', ps', es') := zref_run ops' (q, f) in
      (q, f, rcs ++ rcs', ps ++ ps', es ++ es')
  end.
Definition zephyr_op_ok (op : zephyr_op) : Prop := match op with Recv b _ _ => bytes_wf (buf_data b) | _ => True end.

Section sim.
Context {ZC : ZephyrA2dpConstants}.

Definition zephyr_sim (s : zephyr_state) (r : reference * bool) : Prop :=
  (exists q, ingress s = Some q /\ refines q r.1) /\ notify_owner s = true /\ streaming s = r.2.

Lemma flow_sim stream e s r :
  zephyr_sim s r -> exists s', flow stream e s = Some (s', [e]) /\ zephyr_sim s' (Reference (waiting r.1) (Some None), stream).
Proof.
  intros ((q & Hq & [Hwf Hw _]) & Hn & _). unfold flow. rewrite Hq. cbn. rewrite Hn.
  eexists. split; [done |]. split; [| done]. eexists. split; [done |]. split; [destruct Hwf; by split | exact Hw | done].
Qed.

Lemma receive_null q seq ts : eaf_bt_sbc_receive q seq ts None 0 = eaf_bt_sbc_receive q seq ts (Some []) (zlen (A := Z) []).
Proof. done. Qed.

Lemma zephyr_exec_sim op s r o :
  zephyr_sim s r -> zephyr_op_ok op -> zlen (pkt_data o) = EAF_BT_PACKET_BYTES ->
  let '(q, f, rcs, ps, es) := zref_exec op r in
  exists s' o', zephyr_exec op s o = Some (s', o', rcs, ps, es) /\ zephyr_sim s' (q, f) /\ zlen (pkt_data o') = EAF_BT_PACKET_BYTES.
Proof.
  intros Hsim Hop Ho. destruct op as [| | | |b seq ts|]; cbn [zref_exec zephyr_exec].
  - destruct (flow_sim false EAF_BT_CONFIGURED s r Hsim) as (s' & Hs & Hs'). unfold configured. rewrite Hs. by exists s', o.
  - destruct (flow_sim true EAF_BT_STARTED s r Hsim) as (s' & Hs & Hs'). unfold started. rewrite Hs. by exists s', o.
  - destruct (flow_sim false EAF_BT_SUSPENDED s r Hsim) as (s' & Hs & Hs'). unfold suspended. rewrite Hs. by exists s', o.
  - destruct (flow_sim false EAF_BT_RELEASED s r Hsim) as (s' & Hs & Hs'). unfold released. rewrite Hs. by exists s', o.
  - destruct Hsim as ((q & Hq & Href) & Hn & Hf). unfold receive. rewrite Hf. destruct r as [r fl]. cbn [fst snd] in *.
    destruct fl; cbn; [| exists s, o; split; [done |]; split; [| done]; split; [by exists q | done]].
    assert (Hr : (if frags b then eaf_bt_sbc_receive (ingress s) seq ts None 0
        else eaf_bt_sbc_receive (ingress s) seq ts (Some (buf_data b)) (zlen (buf_data b))) =
      eaf_bt_sbc_receive (Some q) seq ts (Some (if frags b then [] else buf_data b)) (zlen (if frags b then [] else buf_data b))).
    { rewrite Hq. by destruct (frags b). }
    rewrite Hr. destruct (refines_receive q r seq ts (if frags b then [] else buf_data b) Href) as (q' & -> & Href').
    { destruct (frags b); [constructor | done]. }
    destruct (ref_receive r seq ts _) as [r1 rc]. cbn. eexists _, o. split; [done |]. split; [| done].
    split; [by exists q' | done].
  - destruct Hsim as ((q & Hq & [Hwf Hw Hprev]) & Hn & Hf). rewrite Hq.
    destruct (pop_spec q o Hwf Ho) as (q' & o' & got & -> & Hwf' & Hgot & Hd & Hh & He). cbn [mbind option_bind].
    rewrite <- Hw. destruct got.
    + destruct Hgot as [-> [Ho' _]]. eexists _, o'. split; [reflexivity |]. split; [| done].
      split; [| done]. exists q'. split; [done |]. split; cbn; [done | done | by rewrite Hd, Hh, He].
    + destruct Hgot as (-> & -> & ->). eexists _, o. split; [reflexivity |]. split; [| done].
      split; [| done]. exists q. split; [done |]. by split.
Qed.

Lemma zephyr_run_sim ops s r o :
  zephyr_sim s r -> Forall zephyr_op_ok ops -> zlen (pkt_data o) = EAF_BT_PACKET_BYTES ->
  let '(q, f, rcs, ps, es) := zref_run ops r in
  exists s', zephyr_run ops s o = Some (s', rcs, ps, es) /\ zephyr_sim s' (q, f).
Proof.
  revert s r o. induction ops as [|op ops IH]; intros s r o Hsim Hops Ho; cbn [zref_run zephyr_run]; [exists s; by destruct r |].
  apply List.Forall_cons_iff in Hops as [Hop Hops].
  pose proof (zephyr_exec_sim op s r o Hsim Hop Ho) as H1. destruct (zref_exec op r) as [[[[q f] rcs] ps] es].
  destruct H1 as (s1 & o1 & -> & Hs1 & Ho1). cbn [mbind option_bind]. specialize (IH s1 (q, f) o1 Hs1 Hops Ho1).
  destruct (zref_run ops (q, f)) as [[[[q2 f2] rcs'] ps'] es']. destruct IH as (s2 & -> & Hs2). by exists s2.
Qed.
End sim.

(** ** Properties *)

(** From a successful registration on, whatever the Zephyr host reports and delivers
    and whenever the worker fetches, the packets fetched, the ingress's answers and the
    owner's notifications are the reference's: media enters the queue exactly between
    a start and the next suspend, release or configuration, and the first packet after
    any of them, or after a lost or chained one, carries the discontinuity flag. *)
Theorem zephyr_link_refines {ZC : ZephyrA2dpConstants} {D} {HD : ZephyrHost D} (d d' : D) (q : eaf_bt_ingress_t) (rate : Z)
    (s : zephyr_state) (ops : list zephyr_op) (o : eaf_bt_packet_t) :
  eaf_bt_zephyr_register state_zero d (Some (eaf_bt_ingress_init q)) rate true = (s, d', 0) -> EINVAL <> 0 ->
  Forall zephyr_op_ok ops -> zlen (pkt_data o) = EAF_BT_PACKET_BYTES ->
  let '(_, f, rcs, ps, es) := zref_run ops (Reference [] None, false) in
  exists s', zephyr_run ops s o = Some (s', rcs, ps, es) /\ streaming s' = f.
Proof.
  intros Hreg Hne Hops Ho. assert (Hsim : zephyr_sim s (Reference [] None, false)).
  { revert Hreg. unfold eaf_bt_zephyr_register. destruct (_ || _); [intros [= _ _ Hx]; lia |]. cbn.
    destruct (host_call RegisterStreamOps d) as [d1 ?], (host_call RegisterCallbacks d1) as [d2 rc].
    assert (Hs : forall c, zephyr_sim (ZephyrState (Some (eaf_bt_ingress_init q)) true true false c) (Reference [] None, false)).
    { intros c. split; [| done]. eexists. split; [done |]. apply ingress_init_refines. }
    case_decide; [by intros [= <- _ ->] |]. destruct (host_call (RegisterEndpoint _) d2). intros [= <- _ _]. apply Hs. }
  pose proof (zephyr_run_sim ops s _ o Hsim Hops Ho) as Hr.
  destruct (zref_run ops _) as [[[[r f] rcs] ps] es]. destruct Hr as (s' & Hrun & _ & _ & Hf). by exists s'.
Qed.

(** Exactly one attempt at a registration reaches the host, as the header says. *)
Theorem zephyr_registered_once {ZC : ZephyrA2dpConstants} {D} {HD : ZephyrHost D} (d d1 d2 : D) q rate s rc :
  eaf_bt_zephyr_register state_zero d (Some q) rate true = (s, d1, rc) -> rc <> - EINVAL ->
  forall q' rate' n', exists rc', eaf_bt_zephyr_register s d2 q' rate' n' = (s, d2, rc') /\ (rc' = - EINVAL \/ rc' = - EALREADY).
Proof.
  intros Hreg Hrc q' rate' n'. assert (Ha : attempted s = true).
  { revert Hreg. unfold eaf_bt_zephyr_register. destruct (_ || _); [by intros [= _ _ <-] |]. cbn.
    destruct (host_call RegisterStreamOps d) as [d3 ?], (host_call RegisterCallbacks d3) as [d4 r].
    case_decide; [by intros [= <- _ _] |]. destruct (host_call (RegisterEndpoint _) d4). by intros [= <- _ _]. }
  unfold eaf_bt_zephyr_register. destruct (_ || _); [eexists; split; [done | by left] |].
  rewrite Ha. eexists. split; [done | by right].
Qed.

(** What is accepted: the registered rate, stereo or joint stereo, sixteen blocks,
    eight subbands, the loudness method and a bitpool within 2 to 53. *)
Theorem validate_exact {ZC : ZephyrA2dpConstants} (s : zephyr_state) (b0 b1 b2 b3 w0 : Z) rest :
  EINVAL <> 0 -> codec_ie (capability s) = w0 :: rest ->
  exists rc e, validate s (Some (Some (CodecIe BT_A2DP_SBC_IE_LENGTH [b0; b1; b2; b3]))) = Some (rc, e) /\
    (rc = 0 <-> Z.land b0 240 = Z.land w0 240 /\
       (Z.land b0 15 = A2DP_SBC_CH_MODE_STEREO \/ Z.land b0 15 = A2DP_SBC_CH_MODE_JOINT) /\
       Z.land b1 240 = A2DP_SBC_BLK_LEN_16 /\ Z.land b1 12 = A2DP_SBC_SUBBAND_8 /\
       Z.land b1 3 = A2DP_SBC_ALLOC_MTHD_LOUDNESS /\ 2 <= b2 <= b3 /\ b3 <= 53).
Proof.
  intros Hne Hc. unfold validate. cbn [ie_len codec_ie]. rewrite decide_False by (intros Hx; by apply Hx). rewrite Hc.
  cbn [ld mbind option_bind]. change (ld [b0; b1; b2; b3] 0) with (Some b0). change (ld [b0; b1; b2; b3] 1) with (Some b1).
  change (ld [b0; b1; b2; b3] 2) with (Some b2). change (ld [b0; b1; b2; b3] 3) with (Some b3). change (ld (w0 :: rest) 0) with (Some w0).
  cbn [mbind option_bind]. repeat case_decide; eexists _, _; (split; [reflexivity |]); split; intros; try lia; naive_solver lia.
Qed.
