(* ===== verification/Ota.v ===== *)
(** The firmware update over HTTP: [platform/esp32_common/ota_mcuboot.c].  The socket,
    the flash image writer and MCUboot are the parameter [D]; [board_log], which only
    touches the log of [LogBuffer], is left out. *)

From stdpp Require Import strings.
From S2P Require Import Prelude Text Bytes.

Definition OTA_CHUNK : Z := 1024.
Definition OTA_RECV_TIMEOUT_MS : Z := 5000.
Definition HEADER_BYTES : Z := 128.

(** [zsock_recv] answers with the bytes it stored and its result. *)
Class OtaHal (D : Type) := {
  zsock_send : list Z -> D -> D * Z;
  zsock_recv : Z -> D -> D * list Z * Z;
  zsock_set_timeout : Z -> D -> D * Z;
  flash_img_init : D -> D * Z;
  flash_img_buffered_write : list Z -> bool -> D -> D * Z;
  boot_request_upgrade : D -> D * Z;                      (* BOOT_UPGRADE_PERMANENT *)
  k_uptime_get : D -> D * Z
}.
#[global] Hint Mode OtaHal ! : typeclass_instances.

(** ** Text *)

Definition CRLF : list Z := [13; 10].
Definition to_lower (c : Z) : Z := if decide (65 <= c <= 90) then c + 32 else c.
(** The end of [line] is its NUL, which no character of [prefix] equals. *)
Fixpoint header_has_prefix (line prefix : list Z) : bool :=
  match prefix, line with
  | [], _ => true
  | b :: prefix, a :: line => bool_decide (to_lower a = to_lower b) && header_has_prefix line prefix
  | _ :: _, [] => false
  end.

(** [strtoul(s, NULL, 10)], with a 32-bit [unsigned long]: white space, a sign, digits;
    the largest value when it does not fit. *)
Definition is_space (c : Z) : bool := bool_decide (c = 32) || bool_decide (9 <= c <= 13).
Fixpoint skip_while (f : Z -> bool) (s : list Z) : list Z :=
  match s with c :: rest => if f c then skip_while f rest else s | [] => [] end.
Fixpoint digits_value (s : list Z) (v : Z) : Z :=
  match s with c :: rest => if decide (48 <= c <= 57) then digits_value rest (v * 10 + (c - 48)) else v | [] => v end.
Definition strtoul (s : list Z) : Z :=
  let s := skip_while is_space s in
  let '(neg, s) := match s with c :: rest => if decide (c = 45) then (true, rest) else if decide (c = 43) then (false, rest) else (false, s) | [] => (false, s) end in
  let v := digits_value s 0 in
  if decide (UINT32_MAX < v) then UINT32_MAX else if neg : bool then u32 (- v) else v.

Definition content_length_prefix : list Z := 10 :: chars "Content-Length:".
Fixpoint find_content_length (p : list Z) : option Z :=
  match p with
  | [] => None
  | _ :: rest =>
      if header_has_prefix p content_length_prefix then
        let value := skip_while (fun c => bool_decide (c = 32)) (drop (length content_length_prefix) p) in
        let n := strtoul value in if decide (0 < n) then Some n else None
      else find_content_length rest
  end.

(** [strstr(request, "\r\n\r\n")], as an offset. *)
Fixpoint find_header_end (p : list Z) : option Z :=
  match p with
  | [] => None
  | _ :: rest => if decide (take 4 p = CRLF ++ CRLF) then Some 0 else i ← find_header_end rest; Some (i + 1)
  end.

Section ota.
Context {D : Type} {HO : OtaHal D}.
Implicit Type d : D.

(** ** Sending *)

(** [fuel] bounds the calls: each sends a byte at least. *)
Fixpoint send_loop (fuel : nat) (deadline : Z) (data : list Z) d : ub (D * bool) :=
  match data with
  | [] => Some (d, true)
  | _ =>
      let '(d, now) := k_uptime_get d in
      if decide (deadline <= now) then Some (d, false)
      else
        let '(d, sent) := zsock_send data d in
        if decide (sent <= 0) then Some (d, false)
        else
          match fuel with
          | O => None
          | S fuel' => if decide (zlen data < sent) then None else send_loop fuel' deadline (drop (Z.to_nat sent) data) d
          end
  end.
Definition send_all (data : list Z) d : ub (D * bool) :=
  let '(d, now) := k_uptime_get d in send_loop (length data) (now + 1000) data d.

(** What [snprintf] makes of the header; more than the array holds would be read past it. *)
Definition header_text (status body : list Z) : list Z :=
  chars "HTTP/1.0 " ++ status ++ CRLF ++ chars "Content-Type: text/plain" ++ CRLF ++ chars "Content-Length: " ++ decimal (zlen body)
  ++ CRLF ++ chars "Connection: close" ++ CRLF ++ CRLF.
Definition respond (status body : string) d : ub D :=
  let header := header_text (chars status) (chars body ++ [10]) in
  if decide (HEADER_BYTES < zlen header) then None
  else
    '(d, _) ← send_all header d;
    '(d, _) ← send_all (chars body ++ [10]) d;
    Some d.

(** ** The request *)

Definition answer (status body : string) (flag : bool) d : ub (D * bool * bool) :=
  d ← respond status body d; Some (d, flag, true).

(** [while (received < content_length)]: the result tells whether it ran to its end. *)
Fixpoint receive_body (fuel : nat) (received content_length : Z) d : ub (D * option string) :=
  if decide (received < content_length) then
    let want := Z.min (content_length - received) OTA_CHUNK in
    let '(d, bytes, n) := zsock_recv want d in
    if decide (n <= 0) then Some (d, Some "short read"%string)
    else
      if decide (want < n) then None
      else
        let '(d, rc) := flash_img_buffered_write bytes false d in
        if decide (rc <> 0) then Some (d, Some "flash write failed"%string)
        else match fuel with O => None | S fuel' => receive_body fuel' (received + n) content_length d end
  else Some (d, None).

(** The reboot flag is the file's state.  [request] is the caller's array, of which
    [used] bytes were received and which is terminated after them. *)
Definition ota_handle_request (request : list Z) (used : Z) (flag : bool) d : ub (D * bool * bool) :=
  len ← strlen request;
  let text := take (Z.to_nat len) request in
  match find_content_length text with
  | None => answer "411 Length Required" "missing Content-Length" flag d
  | Some content_length =>
      match find_header_end text with
      | None => answer "400 Bad Request" "bad request" flag d
      | Some header_end =>
          let body_in_buffer := Z.min (u32 (used - (header_end + 4))) content_length in
          let '(d, _) := zsock_set_timeout OTA_RECV_TIMEOUT_MS d in
          let '(d, rc) := flash_img_init d in
          if decide (rc <> 0) then answer "500 Internal Error" "flash init failed" flag d
          else
            '(d, rc) ← (if decide (body_in_buffer <> 0) then
                          body ← ldn request (header_end + 4) body_in_buffer;
                          Some (flash_img_buffered_write body false d)
                        else Some (d, 0));
            if decide (rc <> 0) then answer "500 Internal Error" "flash write failed" flag d
            else
              '(d, failed) ← receive_body (Z.to_nat content_length) body_in_buffer content_length d;
              match failed with
              | Some why => answer "500 Internal Error" why flag d
              | None =>
                  let '(d, rc) := flash_img_buffered_write [] true d in
                  if decide (rc <> 0) then answer "500 Internal Error" "flash flush failed" flag d
                  else
                    let '(d, rc) := boot_request_upgrade d in
                    if decide (rc <> 0) then answer "500 Internal Error" "upgrade request failed" flag d
                    else
                      d ← respond "200 OK" "ok, rebooting" d;
                      Some (d, true, true)
              end
      end
  end.
End ota.

(** ** What the update relies on

    [image d] is what was written since the image was opened, [upgrade d] the image
    MCUboot was asked to install, [incoming d] what the peer has still to deliver. *)
Class OtaLaws (D : Type) {HO : OtaHal D} (image : D -> list Z) (upgrade : D -> option (list Z)) (incoming : D -> list Z) := {
  ota_send data d : let '(d', n) := zsock_send data d in
    n <= zlen data /\ image d' = image d /\ upgrade d' = upgrade d /\ incoming d' = incoming d;
  ota_recv want d : let '(d', bytes, n) := zsock_recv want d in
    n <= want /\ image d' = image d /\ upgrade d' = upgrade d /\
    (0 < n -> zlen bytes = n /\ incoming d = bytes ++ incoming d') /\ (n <= 0 -> incoming d' = incoming d);
  ota_timeout t d : let d' := (zsock_set_timeout t d).1 in image d' = image d /\ upgrade d' = upgrade d /\ incoming d' = incoming d;
  ota_uptime d : let d' := (k_uptime_get d).1 in image d' = image d /\ upgrade d' = upgrade d /\ incoming d' = incoming d;
  ota_init d : let '(d', rc) := flash_img_init d in
    (rc = 0 -> image d' = []) /\ upgrade d' = upgrade d /\ incoming d' = incoming d;
  ota_write bytes fl d : let '(d', rc) := flash_img_buffered_write bytes fl d in
    (rc = 0 -> image d' = image d ++ bytes) /\ upgrade d' = upgrade d /\ incoming d' = incoming d;
  ota_boot d : let '(d', rc) := boot_request_upgrade d in
    upgrade d' = (if decide (rc = 0) then Some (image d) else upgrade d) /\ incoming d' = incoming d
}.

Section proofs.
Context {D : Type} {HO : OtaHal D} (image : D -> list Z) (upgrade : D -> option (list Z)) (incoming : D -> list Z)
  {HL : OtaLaws D image upgrade incoming}.
Implicit Type d : D.

Definition same d d' : Prop := upgrade d' = upgrade d /\ incoming d' = incoming d.

Lemma send_loop_ok fuel deadline data d :
  (length data <= fuel)%nat -> exists d' b, send_loop fuel deadline data d = Some (d', b) /\ same d d'.
Proof.
  revert data d. induction fuel as [|fuel IH]; intros data d Hf; destruct data as [|x data]; cbn [send_loop];
    [by exists d, true | cbn in Hf; lia | by exists d, true |].
  pose proof (ota_uptime d) as Hu. destruct (k_uptime_get d) as [d1 now]. cbn in Hu. destruct Hu as (_ & Hu1 & Hu2).
  case_decide; [by exists d1, false |].
  pose proof (ota_send (x :: data) d1) as Hs. destruct (zsock_send (x :: data) d1) as [d2 n]. destruct Hs as (Hn & _ & Hs1 & Hs2).
  unfold same. destruct (decide (n <= 0)); [eexists _, _; split; [done |]; split; congruence |].
  destruct (decide (zlen (x :: data) < n)); [lia |].
  destruct (IH (drop (Z.to_nat n) (x :: data)) d2) as (d3 & b & -> & H1 & H2); [rewrite length_drop; lia |].
  eexists _, _. split; [done |]. split; congruence.
Qed.
Lemma send_all_ok data d : exists d' b, send_all data d = Some (d', b) /\ same d d'.
Proof.
  unfold send_all. pose proof (ota_uptime d) as Hu. destruct (k_uptime_get d) as [d1 now]. cbn in Hu. destruct Hu as (_ & Hu1 & Hu2).
  destruct (send_loop_ok (length data) (now + 1000) data d1) as (d2 & b & -> & H1 & H2); [done |].
  eexists _, _. split; [done |]. split; congruence.
Qed.
Lemma respond_ok status body d :
  zlen (header_text (chars status) (chars body ++ [10])) <= HEADER_BYTES -> exists d', respond status body d = Some d' /\ same d d'.
Proof.
  intros Hl. unfold respond. rewrite decide_False by lia.
  destruct (send_all_ok (header_text (chars status) (chars body ++ [10])) d) as (d1 & b1 & -> & H1 & H2). cbn [mbind option_bind].
  destruct (send_all_ok (chars body ++ [10]) d1) as (d2 & b2 & -> & H3 & H4). cbn [mbind option_bind].
  eexists. split; [done |]. split; congruence.
Qed.
Lemma answer_ok status body flag d :
  zlen (header_text (chars status) (chars body ++ [10])) <= HEADER_BYTES -> exists d', answer status body flag d = Some (d', flag, true) /\ same d d'.
Proof. intros Hl. unfold answer. destruct (respond_ok status body d Hl) as (d' & -> & Hs). by exists d'. Qed.

Definition short (why : string) : Prop := zlen (header_text (chars "500 Internal Error") (chars why ++ [10])) <= HEADER_BYTES.

Lemma receive_body_ok fuel received total d got :
  zlen got = received -> image d = got -> (Z.to_nat (total - received) <= fuel)%nat -> received <= total ->
  exists d' failed, receive_body fuel received total d = Some (d', failed) /\ upgrade d' = upgrade d /\
    match failed with
    | Some why => short why
    | None => exists rest, incoming d = rest ++ incoming d' /\ image d' = got ++ rest /\ zlen (got ++ rest) = total
    end.
Proof.
  revert received d got. induction fuel as [|fuel IH]; intros received d got Hz Hi Hf Hle; cbn [receive_body].
  - rewrite decide_False by lia. exists d, None. split; [done |]. split; [done |]. exists []. rewrite app_nil_r. split; [done |].
    split; [done | lia].
  - case_decide as Hlt.
    2: { exists d, None. split; [done |]. split; [done |]. exists []. rewrite app_nil_r. split; [done |]. split; [done | lia]. }
    set (want := Z.min _ _). pose proof (ota_recv want d) as Hr. destruct (zsock_recv want d) as [[d1 bytes] n].
    destruct Hr as (Hn & Hi1 & Hu1 & Hpos & Hneg).
    destruct (decide (n <= 0)). { exists d1, (Some "short read"%string). split; [done |]. split; [done |]. done. }
    destruct (decide (want < n)); [lia |]. destruct (Hpos ltac:(lia)) as [Hzb Hinc].
    pose proof (ota_write bytes false d1) as Hw. destruct (flash_img_buffered_write bytes false d1) as [d2 rc].
    destruct Hw as (Hwi & Hwu & Hwc). destruct (decide (rc = 0)) as [->|Hrc].
    2: { rewrite decide_True by done. exists d2, (Some "flash write failed"%string). split; [done |]. split; [congruence | done]. }
    rewrite decide_False by (intros Hx; by apply Hx).
    destruct (IH (received + n) d2 (got ++ bytes)) as (d3 & failed & Hrun & Hu3 & Hpost).
    { rewrite zlen_app. lia. } { rewrite Hwi by done. congruence. } { lia. } { unfold want in *. lia. }
    exists d3, failed. split; [done |]. split; [congruence |]. destruct failed as [why|]; [done |].
    destruct Hpost as (rest & Hir & Him & Hzt). exists (bytes ++ rest). split.
    + rewrite Hinc, <- Hwc, Hir. by rewrite app_assoc.
    + split; [by rewrite Him, app_assoc | by rewrite app_assoc].
Qed.

Lemma find_header_end_bound p i : find_header_end p = Some i -> 0 <= i /\ i + 4 <= zlen p.
Proof.
  revert i. induction p as [|x p IH]; intros i; cbn [find_header_end]; [done |]. case_decide as Ht.
  - intros [= <-]. split; [lia |]. apply (f_equal length) in Ht. rewrite length_take in Ht. change (length (CRLF ++ CRLF)) with 4%nat in Ht. unfold zlen. lia.
  - destruct (find_header_end p) as [j|]; [| done]. intros [= <-]. rewrite zlen_cons. destruct (IH j eq_refl). lia.
Qed.
Lemma strlen_bound s n used :
  strlen s = Some n -> 0 <= used -> s !! Z.to_nat used = Some 0 -> 0 <= n <= used.
Proof.
  revert n used. induction s as [|c s IH]; intros n used; cbn [strlen]; [done |]. case_decide as Hc; [intros [= <-]; lia |].
  destruct (strlen s) as [m|] eqn:Hm; [| done]. intros [= <-] Hu Hn.
  destruct (decide (used = 0)) as [->|]; [change (Some c = Some 0) in Hn; congruence |].
  replace (Z.to_nat used) with (S (Z.to_nat (used - 1))) in Hn by lia. change (s !! Z.to_nat (used - 1) = Some 0) in Hn.
  destruct (IH m (used - 1) eq_refl ltac:(lia) Hn). lia.
Qed.
Lemma strlen_some s used : s !! used = Some 0 -> is_Some (strlen s).
Proof.
  revert used. induction s as [|c s IH]; intros used; cbn [strlen]; [done |]. case_decide; [by eexists |]. destruct used as [|u]; [intros [= ->]; done |].
  intros Hs. change (s !! u = Some 0) in Hs. destruct (IH u Hs) as [m ->]. by eexists.
Qed.

Ltac answered := match goal with |- context [answer ?st ?bo ?f ?d] =>
  let d' := fresh "d'" in let H1 := fresh in let H2 := fresh in
  destruct (answer_ok st bo f d) as (d' & -> & H1 & H2); [done |]; exists d', f; split; [done |]; left; split; [done | congruence] end.

Lemma ota_request_ok request used flag d :
  0 <= used < 2 ^ 31 -> request !! Z.to_nat used = Some 0 ->
  exists d' flag', ota_handle_request request used flag d = Some (d', flag', true) /\
    ((flag' = flag /\ upgrade d' = upgrade d) \/
     (flag' = true /\ exists len n e rest, strlen request = Some len /\
        let text := take (Z.to_nat len) request in
        find_content_length text = Some n /\ find_header_end text = Some e /\ incoming d = rest ++ incoming d' /\
        let image := take (Z.to_nat n) (slice request (e + 4) (used - (e + 4))) ++ rest in
        upgrade d' = Some image /\ zlen image = n)).
Proof.
  intros Hu Hnul. unfold ota_handle_request. destruct (strlen_some _ _ Hnul) as [len Hlen]. rewrite Hlen. cbn [mbind option_bind].
  destruct (strlen_bound _ _ _ Hlen (proj1 Hu) Hnul) as [Hl0 Hlu]. set (text := take _ request).
  destruct (find_content_length text) as [n|] eqn:Hn; [| answered].
  destruct (find_header_end text) as [e|] eqn:He; [| answered].
  destruct (find_header_end_bound _ _ He) as [He0 He4].
  assert (Hzt : zlen text <= len) by (unfold text, zlen; rewrite length_take; lia).
  assert (Hzr : used < zlen request) by (apply lookup_lt_Some in Hnul; unfold zlen; lia).
  assert (Hn0 : 0 < n).
  { clear -Hn. revert Hn. generalize text. intros t. induction t as [|c t IH]; cbn [find_content_length]; [done |].
    destruct (header_has_prefix _ _); [| done]. cbn zeta. case_decide; [| done]. by intros [= <-]. }
  set (body := Z.min (u32 (used - (e + 4))) n).
  assert (Hub : u32 (used - (e + 4)) = used - (e + 4)) by (apply u32_small; word).
  pose proof (ota_timeout OTA_RECV_TIMEOUT_MS d) as Ht. destruct (zsock_set_timeout _ d) as [d1 ?]. cbn in Ht. destruct Ht as (_ & Ht1 & Ht2).
  pose proof (ota_init d1) as Hi. destruct (flash_img_init d1) as [d2 rc]. destruct Hi as (Hi0 & Hi1 & Hi2).
  destruct (decide (rc = 0)) as [->|Hrc]; [| rewrite decide_True by done; answered].
  rewrite decide_False by (intros Hx; by apply Hx). specialize (Hi0 eq_refl).
  set (got := take (Z.to_nat n) (slice request (e + 4) (used - (e + 4)))).
  assert (Hzg : zlen got = body).
  { unfold got, body. rewrite Hub. unfold zlen. rewrite length_take.
    pose proof (zlen_slice request (e + 4) (used - (e + 4)) ltac:(lia) ltac:(lia) ltac:(lia)) as Hx. unfold zlen in Hx. lia. }
  assert (Hw : exists d3 rc3, (if decide (body <> 0) then bytes ← ldn request (e + 4) body; Some (flash_img_buffered_write bytes false d2)
      else Some (d2, 0)) = Some (d3, rc3) /\ (rc3 = 0 -> image d3 = got) /\ upgrade d3 = upgrade d /\ incoming d3 = incoming d).
  { case_decide as Hb.
    - rewrite ldn_eq by (unfold body in *; lia). cbn [mbind option_bind].
      assert (Hs : slice request (e + 4) body = got).
      { unfold got, slice, body. rewrite take_take, Hub. f_equal. lia. }
      rewrite Hs. pose proof (ota_write got false d2) as Hx. destruct (flash_img_buffered_write got false d2) as [d3 rc3].
      destruct Hx as (Hx0 & Hx1 & Hx2). exists d3, rc3. split; [done |]. split; [| split; congruence].
      intros Hr. rewrite (Hx0 Hr), Hi0. done.
    - exists d2, 0. split; [done |]. split; [| split; congruence]. intros _. rewrite Hi0.
      symmetry. apply nil_length_inv. unfold zlen in Hzg. lia. }
  destruct Hw as (d3 & rc3 & -> & Hg & Hu3 & Hc3). cbn [mbind option_bind].
  destruct (decide (rc3 = 0)) as [->|Hrc]; [| rewrite decide_True by done; answered].
  rewrite decide_False by (intros Hx; by apply Hx). specialize (Hg eq_refl).
  destruct (receive_body_ok (Z.to_nat n) body n d3 got Hzg Hg) as (d4 & failed & -> & Hu4 & Hpost); [unfold body in *; lia | unfold body; lia |].
  cbn [mbind option_bind]. destruct failed as [why|].
  { destruct (answer_ok "500 Internal Error" why flag d4 Hpost) as (d5 & -> & H1 & H2).
    exists d5, flag. split; [done |]. left. split; [done | congruence]. }
  destruct Hpost as (rest & Hinc & Him & Hzi).
  pose proof (ota_write [] true d4) as Hx. destruct (flash_img_buffered_write [] true d4) as [d5 rc5]. destruct Hx as (Hx0 & Hx1 & Hx2).
  destruct (decide (rc5 = 0)) as [->|Hrc]; [| rewrite decide_True by done; answered].
  rewrite decide_False by (intros Hx; by apply Hx). specialize (Hx0 eq_refl). rewrite app_nil_r in Hx0.
  pose proof (ota_boot d5) as Hb. destruct (boot_request_upgrade d5) as [d6 rc6]. destruct Hb as [Hb1 Hb2].
  destruct (decide (rc6 = 0)) as [->|Hrc]; [| rewrite decide_True by done; answered].
  rewrite decide_False by (intros Hx; by apply Hx).
  destruct (respond_ok "200 OK" "ok, rebooting" d6) as (d7 & -> & H1 & H2); [done |]. cbn [mbind option_bind].
  exists d7, true. split; [done |]. right. split; [done |]. exists len, n, e, rest. split_and!; try done; [congruence |].
  rewrite H1, Hb1, Hx0, Him. done.
Qed.
End proofs.

(** ** Properties *)

(** C40: An update installs exactly the announced body or nothing: for any request the
    server read, any split of the body between that read and the socket, and any
    answers of the socket, the flash and MCUboot, the handler ends, accesses only the bytes
    received, and answers that it handled the request.  Either the reboot flag and the
    image to install are as they were, or the flag is set and MCUboot was asked to
    install exactly as many bytes as the request announced: those after the header,
    followed by the next ones of the connection, in order, none lost or repeated. *)
Theorem ota_upgrade_exact {D : Type} {HO : OtaHal D} (image : D -> list Z) (upgrade : D -> option (list Z))
    (incoming : D -> list Z) {HL : OtaLaws D image upgrade incoming} (request : list Z) (used : Z) (flag : bool) (d : D) :
  0 <= used < 2 ^ 31 -> request !! Z.to_nat used = Some 0 ->
  exists d' flag', ota_handle_request request used flag d = Some (d', flag', true) /\
    ((flag' = flag /\ upgrade d' = upgrade d) \/
     (flag' = true /\ exists len n e rest, strlen request = Some len /\
        let text := take (Z.to_nat len) request in
        find_content_length text = Some n /\ find_header_end text = Some e /\ incoming d = rest ++ incoming d' /\
        let installed := take (Z.to_nat n) (slice request (e + 4) (used - (e + 4))) ++ rest in
        upgrade d' = Some installed /\ zlen installed = n)).
Proof. exact (ota_request_ok image upgrade incoming request used flag d). Qed.

(** A board for the witnesses: at most three bytes per receive; the state is the image,
    the image to install and the bytes to come. *)
Definition board : Type := list Z * option (list Z) * list Z.
#[export] Instance board_hal : OtaHal board := {|
  zsock_send data d := (d, zlen data);
  zsock_recv want d :=
    let n := Z.min want (Z.min 3 (zlen d.2)) in ((d.1, drop (Z.to_nat n) d.2), take (Z.to_nat n) d.2, n);
  zsock_set_timeout _ d := (d, 0);
  flash_img_init d := (([], d.1.2, d.2), 0);
  flash_img_buffered_write bytes _ d := ((d.1.1 ++ bytes, d.1.2, d.2), 0);
  boot_request_upgrade d := ((d.1.1, Some d.1.1, d.2), 0);
  k_uptime_get d := (d, 0) |}.
#[export] Instance board_laws : OtaLaws board (fun d => d.1.1) (fun d => d.1.2) snd.
Proof.
  split; try done.
  intros want [[im up] inc]. cbn. pose proof (zlen_nonneg inc). split; [lia |]. split; [done |]. split; [done |].
  split; intros Hn; [| replace (Z.to_nat _) with 0%nat by lia; done]. unfold zlen in *. rewrite length_take. split; [lia |].
  by rewrite take_drop.
Qed.
Definition demo_request : list Z :=
  chars "POST /ota HTTP/1.0" ++ CRLF ++ chars "content-length:  8" ++ CRLF ++ CRLF ++ [1; 0; 3] ++ [0].
Definition demo_used : Z := zlen demo_request - 1.
Lemma ota_upgrade_exact_witness :
  exists d' flag', ota_handle_request demo_request demo_used false ([], None, [4; 5; 6; 7; 8; 9]) = Some (d', flag', true) /\
    ((flag' = false /\ d'.1.2 = None) \/
     (flag' = true /\ exists len n e rest, strlen demo_request = Some len /\
        let text := take (Z.to_nat len) demo_request in
        find_content_length text = Some n /\ find_header_end text = Some e /\ [4; 5; 6; 7; 8; 9] = rest ++ d'.2 /\
        let installed := take (Z.to_nat n) (slice demo_request (e + 4) (demo_used - (e + 4))) ++ rest in
        d'.1.2 = Some installed /\ zlen installed = n)).
Proof.
  apply (ota_upgrade_exact (D := board) (fun d => d.1.1) (fun d => d.1.2) snd demo_request demo_used false ([], None, [4; 5; 6; 7; 8; 9])); [done |].
  reflexivity.
Defined.
Example demo_update :
  ('(d, flag, _) ← ota_handle_request demo_request demo_used false (([], None, [4; 5; 6; 7; 8; 9]) : board); Some (d.1.2, d.2, flag))
  = Some (Some [1; 0; 3; 4; 5; 6; 7; 8], [9], true).
Proof. by vm_compute. Qed.

(** The length is looked for past the end of the header: a request without the field
    is served with what its body says, where it should be answered with 411. *)
Definition no_length_request : list Z :=
  chars "POST /ota HTTP/1.0" ++ CRLF ++ CRLF ++ [10] ++ chars "Content-Length: 4" ++ [0].
Example length_from_body :
  ('(d, flag, _) ← ota_handle_request no_length_request (zlen no_length_request - 1) false (([], None, []) : board); Some (d.1.2, flag))
  = Some (Some (10 :: chars "Con"), true).
Proof. by vm_compute. Qed.
