(* ===== verification/LogBuffer.v ===== *)
(** The diagnostics log: [platform/esp32_common/log_buffer.c].  The text the caller's
    format produces is an argument; characters are their codes. *)

From stdpp Require Import strings.
From S2P Require Import Prelude Ring Text Bytes.

Definition LOG_LINES : Z := 24.
Definition LOG_WIDTH : Z := 160.

Record log_state := LogState {
  lines : list (list Z);
  next : Z;
  count : Z;
  lock : bool;
  dropped : Z
}.
Definition log_zero : log_state :=
  LogState (replicate (Z.to_nat LOG_LINES) (replicate (Z.to_nat LOG_WIDTH) 0)) 0 0 false 0.

(** [snprintf] into the [room] bytes of [buffer] from [off]: what fits, and a NUL. *)
Definition snprintf (buffer : list Z) (off room : Z) (text : list Z) : ub (list Z) :=
  if decide (room = 0) then Some buffer else stn buffer off (take (Z.to_nat (room - 1)) text ++ [0]).

Definition prefix_of (now_us : Z) : list Z := [91] ++ decimal (now_us / 1000) ++ chars " ms] ".

(** [uart] is answered with the line printed. *)
Definition log_message (uart : bool) (now_us : Z) (text : list Z) (s : log_state) : ub (log_state * option (list Z)) :=
  let line := replicate (Z.to_nat LOG_WIDTH) 0 in
  let prefix := zlen (prefix_of now_us) in
  line ← snprintf line 0 LOG_WIDTH (prefix_of now_us);
  if decide (LOG_WIDTH <= prefix) then Some (s, None)
  else
    line ← snprintf line prefix (LOG_WIDTH - prefix) text;
    if lock s then Some (LogState (lines s) (next s) (count s) true (u32 (dropped s + 1)), None)
    else
      ls ← st (lines s) (next s) line;
      let n := if decide (count s < LOG_LINES) then count s + 1 else count s in
      len ← strlen line;
      Some (LogState ls ((next s + 1) mod LOG_LINES) n false (dropped s),
            if uart then Some (take (Z.to_nat len) line ++ [10]) else None).
Definition board_log (now_us : Z) (text : list Z) (s : log_state) : ub (log_state * option (list Z)) := log_message true now_us text s.
Definition board_log_memory (now_us : Z) (text : list Z) (s : log_state) : ub (log_state * option (list Z)) := log_message false now_us text s.

Definition log_header (n : Z) : list Z := chars "Application diagnostics; dropped=" ++ decimal n ++ [10].

(** [for (i = 0; i < count; ++i)], with [n] rounds left. *)
Fixpoint copy_lines (n : nat) (i : Z) (s : log_state) (buffer : list Z) (capacity used : Z) : ub (list Z * Z) :=
  match n with
  | O => Some (buffer, used)
  | S n' =>
      line ← ld (lines s) ((next s + LOG_LINES - count s + i) mod LOG_LINES);
      len ← strlen line;
      if decide (capacity - used <= len + 1) then Some (buffer, used)
      else
        buffer ← memcpy buffer used line 0 len;
        buffer ← st buffer (used + len) 10;
        copy_lines n' (i + 1) s buffer capacity (used + len + 1)
  end.

Definition board_log_read (buffer : ptr (list Z)) (capacity : Z) (s : log_state) : ub (ptr (list Z) * Z) :=
  match buffer with
  | None => Some (None, 0)
  | Some b =>
      if decide (capacity = 0) then Some (Some b, 0)
      else
        let header := log_header (dropped s) in
        b ← snprintf b 0 capacity header;
        let used := if decide (zlen header < capacity) then zlen header else capacity - 1 in
        if lock s then Some (Some b, used)
        else
          '(b, used) ← copy_lines (Z.to_nat (count s)) 0 s b capacity used;
          b ← st b used 0;
          Some (Some b, used)
  end.

(** ** What is kept, and what is read *)

(** The line a message leaves: its prefix and text, cut to the width. *)
Definition line_of (now_us : Z) (text : list Z) : list Z := take (Z.to_nat (LOG_WIDTH - 1)) (prefix_of now_us ++ text).
Definition recent (history : list (list Z)) : list (list Z) := drop (length history - Z.to_nat LOG_LINES) history.
(** The longest run of lines, each with its newline, that leaves room for the NUL. *)
Fixpoint fitting (room : Z) (ls : list (list Z)) : list Z :=
  match ls with
  | [] => []
  | l :: ls => if decide (room <= zlen l + 1) then [] else l ++ [10] ++ fitting (room - (zlen l + 1)) ls
  end.

Record log_inv (s : log_state) (history : list (list Z)) : Prop := {
  li_lines : zlen (lines s) = LOG_LINES;
  li_next : 0 <= next s < LOG_LINES;
  li_count : count s = Z.min LOG_LINES (zlen history);
  li_view : Forall2 c_string (recent history) (ring_view (lines s) (next s - count s) (count s));
  li_width : Forall (fun l => zlen l = LOG_WIDTH) (lines s)
}.

Lemma recent_snoc history t :
  recent (history ++ [t]) =
    (if decide (zlen history < LOG_LINES) then recent history else tail (recent history)) ++ [t].
Proof.
  unfold recent, LOG_LINES, zlen. rewrite length_app. cbn [length]. case_decide as Hl.
  - replace (length history + 1 - Z.to_nat 24)%nat with 0%nat by lia. replace (length history - Z.to_nat 24)%nat with 0%nat by lia. done.
  - rewrite drop_app_le by lia. f_equal.
    replace (length history + 1 - Z.to_nat 24)%nat with (S (length history - Z.to_nat 24)) by lia.
    assert (Hne : (length history - Z.to_nat 24 < length history)%nat) by lia.
    destruct (lookup_lt_is_Some_2 history _ Hne) as [x Hx]. by rewrite (drop_S _ _ _ Hx).
Qed.

Lemma log_zero_inv : log_inv log_zero [].
Proof. split; try done. apply Forall_replicate. by rewrite zlen_replicate. Qed.

Lemma prefix_bounds now_us : 7 <= zlen (prefix_of now_us) <= 26.
Proof.
  unfold prefix_of. rewrite !zlen_app. pose proof (decimal_length (now_us / 1000)).
  change (zlen [91]) with 1. change (zlen (chars " ms] ")) with 5. lia.
Qed.

Lemma prefix_nonzero now_us : Forall (fun c => c <> 0) (prefix_of now_us).
Proof.
  unfold prefix_of. apply Forall_cons_2; [done |]. apply Forall_app_2; [| by apply chars_nonzero].
  unfold decimal. rewrite List.rev_alt. change (List.rev_append ?l []) with (reverse l). apply Forall_reverse. apply (list.Forall_impl _ _ _ (lsd_digits_digit 20 _)). unfold is_digit. lia.
Qed.

Lemma line_built now_us text :
  Forall (fun c => c <> 0) text ->
  exists line,
    (line ← snprintf (replicate (Z.to_nat LOG_WIDTH) 0) 0 LOG_WIDTH (prefix_of now_us);
     snprintf line (zlen (prefix_of now_us)) (LOG_WIDTH - zlen (prefix_of now_us)) text) = Some line /\
    c_string (line_of now_us text) line /\ zlen line = LOG_WIDTH.
Proof.
  intros Ht. pose proof (prefix_bounds now_us) as Hp. pose proof (prefix_nonzero now_us) as Hn. unfold line_of, LOG_WIDTH in *.
  set (p := prefix_of now_us) in *. unfold snprintf. rewrite decide_False by lia.
  assert (Hz : zlen (replicate (Z.to_nat 160) 0) = 160) by (by apply zlen_replicate).
  rewrite (take_ge p) by (unfold zlen in Hp; lia).
  rewrite stn_eq by (rewrite ?zlen_app; change (zlen [0]) with 1; lia). cbn [mbind option_bind].
  rewrite decide_False by lia. set (t := take (Z.to_nat (160 - zlen p - 1)) text).
  assert (Hzt : zlen t <= 160 - zlen p - 1) by (pose proof (zlen_take_le text (Z.to_nat (160 - zlen p - 1))) as Hx; fold t in Hx; lia).
  set (l1 := splice _ 0 (p ++ [0])).
  assert (Hl1 : zlen l1 = 160) by (unfold l1; rewrite zlen_splice; rewrite ?zlen_app; change (zlen [0]) with 1; lia).
  rewrite stn_eq by (rewrite ?zlen_app; change (zlen [0]) with 1; lia).
  eexists. split; [reflexivity |].
  assert (Htk : take (Z.to_nat (zlen p)) l1 = p).
  { unfold l1, splice. change (Z.to_nat 0) with 0%nat. rewrite take_0. cbn [app]. rewrite <- app_assoc. apply take_app_length'. unfold zlen. lia. }
  assert (Hcut : take (Z.to_nat (160 - 1)) (p ++ text) = p ++ t).
  { rewrite take_app_ge by (unfold zlen in Hp; lia). unfold t. f_equal. f_equal. unfold zlen. lia. }
  split; [| rewrite zlen_splice; rewrite ?zlen_app; change (zlen [0]) with 1; lia].
  rewrite Hcut. split.
  - apply Forall_app_2; [done |]. unfold t. by apply Forall_take.
  - unfold splice. rewrite Htk. eexists. by rewrite <- !app_assoc.
Qed.

Lemma snoc_view (l : list (list Z)) s n x :
  zlen l = LOG_LINES -> 0 <= n < LOG_LINES ->
  ring_view (<[Z.to_nat ((s + n) mod LOG_LINES) := x]> l) s (n + 1) = ring_view l s n ++ [x].
Proof.
  intros Hl Hn. unfold LOG_LINES in *. pose proof (store2_view l s n [x] ltac:(lia) ltac:(lia)) as Hv.
  change (zlen [x]) with 1 in Hv. rewrite Hl in Hv. rewrite store2_singleton in Hv by (rewrite Hl; apply Z.mod_pos_bound; lia).
  apply Hv. lia.
Qed.

Lemma log_message_spec uart now_us text s history :
  log_inv s history -> lock s = false -> Forall (fun c => c <> 0) text ->
  exists s', log_message uart now_us text s = Some (s', if uart then Some (line_of now_us text ++ [10]) else None) /\
    log_inv s' (history ++ [line_of now_us text]) /\ lock s' = false /\ dropped s' = dropped s.
Proof.
  intros [Hz Hn Hc Hv Hw] Hlk Ht. destruct (line_built now_us text Ht) as (line & Hline & Hstr & Hzl).
  unfold log_message. pose proof (prefix_bounds now_us) as Hp.
  destruct (snprintf (replicate (Z.to_nat LOG_WIDTH) 0) 0 LOG_WIDTH (prefix_of now_us)) as [l0|]; [| done].
  cbn [mbind option_bind] in Hline |- *. rewrite decide_False by (unfold LOG_WIDTH; lia). rewrite Hline. cbn [mbind option_bind].
  rewrite Hlk. rewrite st_eq by lia. cbn [mbind option_bind]. rewrite (strlen_string _ _ Hstr). cbn [mbind option_bind].
  assert (Htake : take (Z.to_nat (zlen (line_of now_us text))) line = line_of now_us text).
  { destruct Hstr as [_ [rest ->]]. apply take_app_length'. unfold zlen. lia. }
  rewrite Htake. eexists. split; [reflexivity |]. split; [| done].
  pose proof (zlen_nonneg history) as Hh.
  split; cbn [lines next count].
  - by rewrite zlen_insert.
  - unfold LOG_LINES in *. apply Z.mod_pos_bound. lia.
  - rewrite zlen_app. change (zlen [line_of now_us text]) with 1. unfold LOG_LINES in *. case_decide; lia.
  - rewrite recent_snoc. set (x := line).
    assert (Hsnoc : forall n, 0 <= n < LOG_LINES ->
      ring_view (<[Z.to_nat (next s) := x]> (lines s)) ((next s + 1) mod LOG_LINES - (n + 1)) (n + 1) = ring_view (lines s) (next s - n) n ++ [x]).
    { intros n Hn'. rewrite <- (snoc_view (lines s) (next s - n) n x Hz Hn').
      replace ((next s - n + n) mod LOG_LINES) with (next s) by (replace (next s - n + n) with (next s) by lia; symmetry; apply Z.mod_small; done).
      apply ring_view_congr; rewrite zlen_insert, Hz; [by unfold LOG_LINES |].
      rewrite Zminus_mod_idemp_l. f_equal. lia. }
    destruct (decide (zlen history < LOG_LINES)) as [Hlt|Hge].
    + rewrite decide_True by lia. rewrite Hsnoc by lia. apply Forall2_app; [done | constructor; [done | constructor]].
    + rewrite decide_False by lia. assert (Hcn : count s = LOG_LINES) by lia. rewrite Hcn in Hv |- *.
      pose proof (Hsnoc (LOG_LINES - 1) ltac:(unfold LOG_LINES; lia)) as Hs. replace (LOG_LINES - 1 + 1) with LOG_LINES in Hs by lia.
      rewrite Hs. apply Forall2_app; [| constructor; [done | constructor]].
      rewrite ring_view_cons in Hv by (unfold LOG_LINES; lia). apply Forall2_cons_inv_r in Hv as (y & ys & Hy & Hv & ->).
      cbn [tail]. by replace (next s - (LOG_LINES - 1)) with (next s - LOG_LINES + 1) by lia.
  - by apply Forall_insert.
Qed.

(** A message that meets the lock is counted and lost. *)
Lemma log_message_contended uart now_us text s history :
  log_inv s history -> lock s = true -> Forall (fun c => c <> 0) text ->
  exists s', log_message uart now_us text s = Some (s', None) /\ log_inv s' history /\ lock s' = true /\ dropped s' = u32 (dropped s + 1).
Proof.
  intros [Hz Hn Hc Hv Hw] Hlk Ht. destruct (line_built now_us text Ht) as (line & Hline & Hstr & Hzl).
  unfold log_message. pose proof (prefix_bounds now_us) as Hp.
  destruct (snprintf (replicate (Z.to_nat LOG_WIDTH) 0) 0 LOG_WIDTH (prefix_of now_us)) as [l0|]; [| done].
  cbn [mbind option_bind] in Hline |- *. rewrite decide_False by (unfold LOG_WIDTH; lia). rewrite Hline. cbn [mbind option_bind].
  rewrite Hlk. eexists. by split.
Qed.

Lemma copy_lines_spec n i s ts buffer capacity used done :
  zlen (lines s) = LOG_LINES -> 0 <= count s <= LOG_LINES -> 0 <= next s -> 0 <= i ->
  Forall2 c_string ts (ring_view (lines s) (next s - count s + i) (Z.of_nat n)) ->
  zlen buffer = capacity -> zlen done = used -> used < capacity -> take (Z.to_nat used) buffer = done ->
  exists buffer', copy_lines n i s buffer capacity used = Some (buffer', used + zlen (fitting (capacity - used) ts)) /\
    zlen buffer' = capacity /\ used + zlen (fitting (capacity - used) ts) < capacity /\
    take (Z.to_nat (used + zlen (fitting (capacity - used) ts))) buffer' = done ++ fitting (capacity - used) ts.
Proof.
  intros Hz Hc Hn. revert i ts buffer used done. induction n as [|n IH]; intros i ts buffer used done Hi Hv Hzb Hzd Hu Htk; cbn [copy_lines].
  - rewrite ring_view_0 in Hv. apply Forall2_nil_inv_r in Hv as ->. cbn [fitting]. rewrite zlen_nil, Z.add_0_r, app_nil_r. by exists buffer.
  - rewrite ring_view_cons in Hv by lia. apply Forall2_cons_inv_r in Hv as (t & ts' & Ht & Hv & ->).
    assert (Hpos : 0 <= (next s + LOG_LINES - count s + i) mod LOG_LINES < LOG_LINES) by (apply Z.mod_pos_bound; by unfold LOG_LINES).
    rewrite ld_total by lia. cbn [mbind option_bind].
    assert (Hidx : (next s + LOG_LINES - count s + i) mod LOG_LINES = (next s - count s + i) mod zlen (lines s)).
    { rewrite Hz. replace (next s + LOG_LINES - count s + i) with (next s - count s + i + 1 * LOG_LINES) by lia. apply Z_mod_plus_full. }
    rewrite Hidx. set (line := lines s !!! _) in *. rewrite (strlen_string _ _ Ht). cbn [mbind option_bind fitting].
    case_decide as Hfit; [rewrite zlen_nil, Z.add_0_r, app_nil_r; by exists buffer |].
    pose proof (zlen_nonneg done) as H0. pose proof (zlen_nonneg t) as H1.
    destruct Ht as [_ [rest Hl]].
    assert (Hzl : zlen t + 1 <= zlen line) by (rewrite Hl, zlen_app, zlen_cons; pose proof (zlen_nonneg rest); lia).
    rewrite memcpy_eq by lia. cbn [mbind option_bind].
    assert (Hsl : slice line 0 (zlen t) = t) by (rewrite Hl; by apply slice_app_head). rewrite Hsl.
    rewrite st_eq by (rewrite zlen_splice; lia). cbn [mbind option_bind].
    set (b2 := <[Z.to_nat (used + zlen t) := 10]> (splice buffer used t)).
    assert (Hzb2 : zlen b2 = capacity) by (unfold b2; rewrite zlen_insert, zlen_splice; lia).
    assert (Htk2 : take (Z.to_nat (used + zlen t + 1)) b2 = done ++ t ++ [10]).
    { replace (Z.to_nat (used + zlen t + 1)) with (S (Z.to_nat (used + zlen t))) by lia.
      rewrite (take_S_r _ _ 10) by (unfold b2; apply list_lookup_insert_eq; apply (proj2 (Nat2Z.inj_lt _ _)); fold (zlen (splice buffer used t)); rewrite zlen_splice; lia).
      unfold b2. rewrite take_insert_ge by lia. unfold splice. rewrite Htk.
      rewrite (app_assoc done t [10]). f_equal. rewrite app_assoc. apply take_app_length'. rewrite length_app. unfold zlen in *. lia. }
    destruct (IH (i + 1) ts' b2 (used + zlen t + 1) (done ++ t ++ [10])) as (b3 & Hrun & Hz3 & Hlt & Htk3); try done.
    + lia.
    + replace (next s - count s + (i + 1)) with (next s - count s + i + 1) by lia. by replace (Z.of_nat n) with (Z.of_nat (S n) - 1) by lia.
    + rewrite !zlen_app. change (zlen [10]) with 1. lia.
    + lia.
    + replace (capacity - used - (zlen t + 1)) with (capacity - (used + zlen t + 1)) by lia. rewrite !zlen_app. change (zlen [10]) with 1.
      replace (used + (zlen t + (1 + zlen (fitting (capacity - (used + zlen t + 1)) ts')))) with (used + zlen t + 1 + zlen (fitting (capacity - (used + zlen t + 1)) ts')) by lia.
      exists b3. split; [done |]. split; [done |]. split; [lia |]. rewrite Htk3. by rewrite <- !app_assoc.
Qed.

(** ** Sessions

    The threads that log and the one that reads, one call at a time; another thread's
    call that has the lock at that moment is the operation [Held]. *)
Inductive log_op :=
| Message (uart : bool) (now_us : Z) (text : list Z)
| Held (b : bool).
Definition log_exec (op : log_op) (s : log_state) : ub log_state :=
  match op with
  | Message uart now text => '(s, _) ← log_message uart now text s; Some s
  | Held b => Some (LogState (lines s) (next s) (count s) b (dropped s))
  end.
Fixpoint log_run (ops : list log_op) (s : log_state) : ub log_state :=
  match ops with [] => Some s | op :: rest => s ← log_exec op s; log_run rest s end.

(** The messages that met a free lock, as lines, and the number of the others. *)
Fixpoint logged (ops : list log_op) (held : bool) : list (list Z) :=
  match ops with
  | [] => []
  | Message _ now text :: rest => if held then logged rest held else line_of now text :: logged rest held
  | Held b :: rest => logged rest b
  end.
Fixpoint lost (ops : list log_op) (held : bool) : Z :=
  match ops with
  | [] => 0
  | Message _ _ _ :: rest => (if held then 1 else 0) + lost rest held
  | Held b :: rest => lost rest b
  end.
Definition log_op_ok (op : log_op) : Prop := match op with Message _ _ text => Forall (fun c => c <> 0) text | Held _ => True end.

Lemma log_run_spec ops s history :
  log_inv s history -> Forall log_op_ok ops -> is_u32 (dropped s) ->
  exists s', log_run ops s = Some s' /\ log_inv s' (history ++ logged ops (lock s)) /\ dropped s' = u32 (dropped s + lost ops (lock s)).
Proof.
  revert s history. induction ops as [|op ops IH]; intros s history Hi Hops Hd; cbn [log_run logged lost].
  - rewrite app_nil_r. exists s. split; [done |]. split; [done |]. rewrite Z.add_0_r. symmetry. by apply u32_small.
  - apply List.Forall_cons_iff in Hops as [Hop Hops]. destruct op as [uart now text|b]; cbn [log_exec log_op_ok logged lost] in *.
    + destruct (lock s) eqn:Hlk.
      * destruct (log_message_contended uart now text s history Hi Hlk Hop) as (s1 & -> & Hi1 & Hl1 & Hd1). cbn [mbind option_bind].
        destruct (IH s1 history Hi1 Hops) as (s2 & -> & Hi2 & Hd2); [rewrite Hd1; apply u32_range |]. rewrite Hl1, Hd1 in *.
        exists s2. split; [done |]. split; [done |]. rewrite Hd2. word.
      * destruct (log_message_spec uart now text s history Hi Hlk Hop) as (s1 & -> & Hi1 & Hl1 & Hd1). cbn [mbind option_bind].
        destruct (IH s1 _ Hi1 Hops) as (s2 & -> & Hi2 & Hd2); [by rewrite Hd1 |]. rewrite Hl1, Hd1 in *. rewrite <- app_assoc in Hi2.
        exists s2. split; [done |]. split; [done |]. done.
    + cbn [mbind option_bind]. apply (IH (LogState (lines s) (next s) (count s) b (dropped s)) history); [| done | done].
      destruct Hi. by split.
Qed.

Lemma log_read_spec s history buffer capacity :
  log_inv s history -> lock s = false -> 0 < capacity -> zlen buffer = capacity ->
  let header := take (Z.to_nat (capacity - 1)) (log_header (dropped s)) in
  let out := header ++ fitting (capacity - zlen header) (recent history) in
  exists buffer', board_log_read (Some buffer) capacity s = Some (Some buffer', zlen out) /\
    zlen buffer' = capacity /\ zlen out < capacity /\ slice buffer' 0 (zlen out + 1) = out ++ [0].
Proof.
  intros [Hz Hn Hc Hv Hw] Hlk Hcap Hb header out. unfold board_log_read, snprintf.
  destruct (decide (capacity = 0)) as [?|_]; [lia |]. fold header.
  assert (Hzh : zlen header = if decide (zlen (log_header (dropped s)) < capacity) then zlen (log_header (dropped s)) else capacity - 1).
  { unfold header, zlen. rewrite length_take. case_decide; lia. }
  assert (Hzh' : 0 <= zlen header < capacity) by (rewrite Hzh; pose proof (zlen_nonneg (log_header (dropped s))); case_decide; lia).
  rewrite stn_eq by (rewrite ?zlen_app; change (zlen [0]) with 1; lia). cbn [mbind option_bind]. rewrite <- Hzh, Hlk.
  set (b1 := splice buffer 0 (header ++ [0])).
  assert (Hzb1 : zlen b1 = capacity) by (unfold b1; rewrite zlen_splice; rewrite ?zlen_app; change (zlen [0]) with 1; lia).
  pose proof (zlen_nonneg history) as Hh.
  destruct (copy_lines_spec (Z.to_nat (count s)) 0 s (recent history) b1 capacity (zlen header) header Hz) as (b2 & -> & Hz2 & Hlt & Htk); try done.
  - unfold LOG_LINES in *. lia.
  - lia.
  - rewrite Z.add_0_r, Z2Nat.id by (unfold LOG_LINES in *; lia). done.
  - lia.
  - unfold b1, splice. change (Z.to_nat 0) with 0%nat. rewrite take_0. cbn [app]. rewrite <- app_assoc. apply take_app_length'. unfold zlen. lia.
  - cbn [mbind option_bind].
    assert (Hzo : zlen out = zlen header + zlen (fitting (capacity - zlen header) (recent history))) by (unfold out; by rewrite zlen_app).
    rewrite <- Hzo in *. rewrite st_eq by (pose proof (zlen_nonneg out); lia). cbn [mbind option_bind].
    eexists. split; [reflexivity |]. rewrite zlen_insert. split; [done |]. split; [done |].
    unfold slice. change (Z.to_nat 0) with 0%nat. rewrite drop_0. pose proof (zlen_nonneg out).
    replace (Z.to_nat (zlen out + 1)) with (S (Z.to_nat (zlen out))) by lia.
    rewrite (take_S_r _ _ 0) by (apply list_lookup_insert_eq; apply (proj2 (Nat2Z.inj_lt _ _)); fold (zlen b2); lia).
    rewrite take_insert_ge by lia. by rewrite Htk.
Qed.

(** ** Properties *)

(** The diagnostics page shows the last messages and never leaves the caller's
    buffer: after any messages from any threads, each with the lock free or taken, a
    read ends and writes into its buffer the number of messages that were
    lost, then the longest run, from the oldest, of the last twenty-four others that
    fits with a newline each, in order and each cut to 159 characters, and a NUL
    after them; the length it answers leaves room for that NUL. *)
Theorem log_read_recent (ops : list log_op) (buffer : list Z) (capacity : Z) :
  Forall log_op_ok ops -> 0 < capacity -> zlen buffer = capacity ->
  exists s, log_run ops log_zero = Some s /\
    (lock s = false ->
     let header := take (Z.to_nat (capacity - 1)) (log_header (u32 (lost ops false))) in
     let out := header ++ fitting (capacity - zlen header) (recent (logged ops false)) in
     exists buffer', board_log_read (Some buffer) capacity s = Some (Some buffer', zlen out) /\
       zlen buffer' = capacity /\ zlen out < capacity /\ slice buffer' 0 (zlen out + 1) = out ++ [0]).
Proof.
  intros Hops Hcap Hb. destruct (log_run_spec ops log_zero [] log_zero_inv Hops) as (s & Hrun & Hi & Hd); [cbn; word |].
  exists s. split; [done |]. intros Hlk. cbn [lock log_zero dropped app] in *. rewrite Z.add_0_l in Hd. rewrite <- Hd.
  by apply log_read_spec.
Qed.
Definition demo_log : list log_op :=
  [Message true 5000 (chars "one"); Held true; Message true 6000 (chars "lost"); Held false; Message false 7000 (chars "two")].
Lemma log_read_recent_witness :
  exists s, log_run demo_log log_zero = Some s /\
    (lock s = false ->
     let header := take (Z.to_nat 59) (log_header 1) in
     let out := header ++ fitting (60 - zlen header) (recent (logged demo_log false)) in
     exists buffer', board_log_read (Some (replicate 60 0)) 60 s = Some (Some buffer', zlen out) /\
       zlen buffer' = 60 /\ zlen out < 60 /\ slice buffer' 0 (zlen out + 1) = out ++ [0]).
Proof.
  apply (log_read_recent demo_log (replicate 60 0) 60); [| done | done].
  repeat (apply Forall_cons_2; [first [by apply chars_nonzero | done] |]). apply Forall_nil_2.
Defined.
Example demo_log_read :
  (s ← log_run demo_log log_zero; '(b, used) ← board_log_read (Some (replicate 60 0)) 60 s; b ← b; Some (take (Z.to_nat used) b))
  = Some (chars "Application diagnostics; dropped=1" ++ [10] ++ chars "[5 ms] one" ++ [10] ++ chars "[7 ms] two" ++ [10]).
Proof. by vm_compute. Qed.
