(* ===== verification/Diagnostics.v ===== *)
(** The diagnostics web server: [platform/esp32_common/diagnostics.c], over the log of
    [LogBuffer] and the update of [Ota].  The page and the listening loop's sockets are
    parameters; [board_log] calls are left out. *)

From stdpp Require Import strings.
From S2P Require Import Prelude Text LogBuffer Ota.

Definition REQUEST_BYTES : Z := 1024.
Definition RESPONSE_BYTES : Z := 4096.

Section server.
Context {D : Type} {HO : OtaHal D}.
Implicit Type d : D.

(** [send_all] of this file allows half a second; see [Ota.send_loop]. *)
Definition web_send_all (data : list Z) d : ub (D * bool) :=
  let '(d, now) := k_uptime_get d in send_loop (length data) (now + 500) data d.

Definition text_of (request : list Z) : ub (list Z) := n ← strlen request; Some (take (Z.to_nat n) request).
(** [strncmp(request, literal, strlen(literal)) == 0] *)
Definition starts_with (text literal : list Z) : bool := bool_decide (take (length literal) text = literal).

(** The reading loop, [room] bytes of the request still free; the flag tells whether
    the connection failed. *)
Fixpoint read_request (fuel : nat) (deadline : Z) (request : list Z) (used : Z) d : ub (D * list Z * Z * bool) :=
  if decide (used < REQUEST_BYTES - 1) then
    let '(d, now) := k_uptime_get d in
    if decide (deadline <= now) then Some (d, request, used, false)
    else
      let '(d, bytes, n) := zsock_recv (REQUEST_BYTES - 1 - used) d in
      if decide (n <= 0) then Some (d, request, used, true)
      else
        request ← stn request used bytes;
        request ← st request (used + n) 0;
        text ← text_of request;
        if decide (is_Some (find_header_end text)) then Some (d, request, used + n, false)
        else match fuel with O => None | S fuel' => read_request fuel' deadline request (used + n) d end
  else Some (d, request, used, false).

(** The answer's header line and its type, and its body. *)
Definition no_store : list Z := chars "Cache-Control: no-store" ++ CRLF ++ chars "Connection: close" ++ CRLF ++ CRLF.
Definition status_line (status kind : string) : list Z := chars status ++ CRLF ++ chars "Content-Type: " ++ chars kind ++ CRLF.

Definition reply (header body : list Z) d : ub D :=
  '(d, ok) ← web_send_all header d;
  if negb ok then Some d
  else
    '(d, ok) ← web_send_all no_store d;
    if negb ok then Some d else '(d, _) ← web_send_all body d; Some d.

(** [ota] is [ota_available()]: false in [ota_stub.c].  [timeouts] tells whether the socket
    accepted both its time-outs. *)
Definition serve (ota timeouts : bool) (page response : list Z) (log : log_state) (flag : bool) d : ub (D * bool) :=
  if negb timeouts then Some (d, flag)
  else
    let '(d, now) := k_uptime_get d in
    '(d, request, used, failed) ← read_request (Z.to_nat REQUEST_BYTES) (now + 500) (replicate (Z.to_nat REQUEST_BYTES) 0) 0 d;
    if failed : bool then Some (d, flag)
    else
      text ← text_of request;
      if decide (is_Some (find_header_end text)) then
        if ota && starts_with text (chars "POST /ota ") then
          '(d, flag, _) ← ota_handle_request request used flag d; Some (d, flag)
        else if starts_with text (chars "GET /logs HTTP/1.") then
          '(r, length) ← board_log_read (Some response) RESPONSE_BYTES log;
          r ← r;
          body ← ldn r 0 length;
          d ← reply (status_line "HTTP/1.0 200 OK" "text/plain; charset=utf-8") body d; Some (d, flag)
        else if starts_with text (chars "GET / HTTP/1.") then
          d ← reply (status_line "HTTP/1.0 200 OK" "text/html; charset=utf-8") page d; Some (d, flag)
        else d ← reply (status_line "HTTP/1.0 404 Not Found" "text/plain") (chars "Not found" ++ [10]) d; Some (d, flag)
      else Some (d, flag).

Context (image : D -> list Z) (upgrade : D -> option (list Z)) (incoming : D -> list Z) {HL : OtaLaws D image upgrade incoming}.

Lemma web_send_ok data d : exists d' b, web_send_all data d = Some (d', b) /\ same upgrade incoming d d'.
Proof.
  unfold web_send_all. pose proof (ota_uptime d) as Hu. destruct (k_uptime_get d) as [d1 now]. cbn in Hu. destruct Hu as (_ & Hu1 & Hu2).
  destruct (send_loop_ok image upgrade incoming (length data) (now + 500) data d1) as (d2 & b & -> & H1 & H2); [done |].
  eexists _, _. split; [done |]. split; congruence.
Qed.
Lemma reply_ok header body d : exists d', reply header body d = Some d' /\ same upgrade incoming d d'.
Proof.
  unfold reply, same. destruct (web_send_ok header d) as (d1 & b1 & -> & H1 & H2). cbn [mbind option_bind].
  destruct b1; cbn [negb]; [| by exists d1].
  destruct (web_send_ok no_store d1) as (d2 & b2 & -> & H3 & H4). cbn [mbind option_bind].
  destruct b2; cbn [negb]; [| exists d2; split; [done |]; split; congruence].
  destruct (web_send_ok body d2) as (d3 & b3 & -> & H5 & H6). cbn [mbind option_bind].
  exists d3. split; [done |]. split; congruence.
Qed.

Lemma text_of_ok request used : request !! Z.to_nat used = Some 0 -> exists t, text_of request = Some t.
Proof. intros Hn. unfold text_of. destruct (strlen_some _ _ Hn) as [n ->]. by eexists. Qed.

Definition request_ok (request : list Z) (used : Z) : Prop :=
  zlen request = REQUEST_BYTES /\ 0 <= used < REQUEST_BYTES /\ request !! Z.to_nat used = Some 0.

Lemma read_request_ok fuel deadline request used d :
  request_ok request used -> REQUEST_BYTES - used <= Z.of_nat fuel ->
  exists d' request' used' failed, read_request fuel deadline request used d = Some (d', request', used', failed) /\
    request_ok request' used' /\ upgrade d' = upgrade d.
Proof.
  revert request used d. induction fuel as [|fuel IH]; intros request used d (Hz & Hu & Hn) Hf; [lia |]. cbn [read_request].
  case_decide as Hroom; [| exists d, request, used, false; by split_and!].
  pose proof (ota_uptime d) as Ht. destruct (k_uptime_get d) as [d1 now]. cbn in Ht. destruct Ht as (_ & Ht & _).
  case_decide; [exists d1, request, used, false; by split_and! |].
  pose proof (ota_recv (REQUEST_BYTES - 1 - used) d1) as Hr. destruct (zsock_recv _ d1) as [[d2 bytes] n].
  destruct Hr as (Hle & _ & Hu2 & Hpos & _). destruct (decide (n <= 0)); [exists d2, request, used, true; split; [done |]; split; [done | congruence] |].
  destruct (Hpos ltac:(lia)) as [Hzb _]. unfold request_ok, REQUEST_BYTES in *.
  rewrite stn_eq by lia. cbn [mbind option_bind].
  assert (Hz1 : zlen (splice request used bytes) = 1024) by (rewrite zlen_splice; lia).
  rewrite st_eq by lia. cbn [mbind option_bind].
  set (r2 := <[_ := 0]> _). assert (Hz2 : zlen r2 = 1024) by (unfold r2; by rewrite zlen_insert).
  assert (Hn2 : r2 !! Z.to_nat (used + n) = Some 0).
  { unfold r2. apply list_lookup_insert_eq. apply (proj2 (Nat2Z.inj_lt _ _)). fold (zlen (splice request used bytes)). lia. }
  destruct (text_of_ok _ _ Hn2) as [t ->]. cbn [mbind option_bind].
  case_decide; [exists d2, r2, (used + n), false; split; [done |]; split; [split_and!; [done | lia | lia | done] | congruence] |].
  destruct (IH r2 (used + n) d2) as (d3 & r3 & u3 & failed & Hrun & Hok & Hu3); [split_and!; [done | lia | lia | done] | lia |].
  exists d3, r3, u3, failed. split; [done |]. split; [done | congruence].
Qed.
End server.

(** ** Properties *)

(** Serving a connection ends, whatever arrives and however it is split, within the
    request and response arrays; and only a request for [/ota], on a board with updates,
    changes the reboot flag or the image to install. *)
Theorem serve_ends {D : Type} {HO : OtaHal D} (image : D -> list Z) (upgrade : D -> option (list Z))
    (incoming : D -> list Z) {HL : OtaLaws D image upgrade incoming} (ota timeouts : bool) (page response : list Z)
    (log : log_state) (history : list (list Z)) (flag : bool) (d : D) :
  zlen response = RESPONSE_BYTES -> log_inv log history -> lock log = false ->
  exists d' flag', serve ota timeouts page response log flag d = Some (d', flag') /\
    (ota = false -> flag' = flag /\ upgrade d' = upgrade d) /\
    (flag' <> flag \/ upgrade d' <> upgrade d -> exists request used text, request_ok request used /\
       text_of request = Some text /\ starts_with text (chars "POST /ota ") = true).
Proof.
  intros Hresp Hlog Hlk. unfold serve. destruct timeouts; cbn [negb].
  2: { exists d, flag. split; [done |]. split; [done |]. intros [?|?]; congruence. }
  pose proof (ota_uptime d) as Ht. destruct (k_uptime_get d) as [d1 now]. cbn in Ht. destruct Ht as (_ & Ht & _).
  destruct (read_request_ok image upgrade incoming (Z.to_nat REQUEST_BYTES) (now + 500) (replicate (Z.to_nat REQUEST_BYTES) 0) 0 d1)
    as (d2 & request & used & failed & -> & Hok & Hu2); [split_and!; done | by unfold REQUEST_BYTES |]. cbn [mbind option_bind].
  assert (Hkeep : forall d3, upgrade d3 = upgrade d2 -> exists d' flag', Some (d3, flag) = Some (d', flag') /\
    (ota = false -> flag' = flag /\ upgrade d' = upgrade d) /\
    (flag' <> flag \/ upgrade d' <> upgrade d -> exists request used text, request_ok request used /\
       text_of request = Some text /\ starts_with text (chars "POST /ota ") = true)).
  { intros d3 Hd3. exists d3, flag. split; [done |]. split; [intros _; split; [done | congruence] |]. intros [?|?]; congruence. }
  destruct failed; [by apply Hkeep |].
  pose proof Hok as (Hz & Hu & Hn). destruct (text_of_ok _ _ Hn) as [text Htext]. rewrite Htext. cbn [mbind option_bind].
  case_decide; [| by apply Hkeep]. destruct (ota && starts_with text (chars "POST /ota ")) eqn:Hota.
  - apply andb_true_iff in Hota as [-> Hpost].
    destruct (ota_request_ok image upgrade incoming request used flag d2) as (d3 & flag' & -> & _); [unfold REQUEST_BYTES in Hu; lia | done |].
    cbn [mbind option_bind]. exists d3, flag'. split; [done |]. split; [done |]. intros _. by exists request, used, text.
  - destruct (starts_with text (chars "GET /logs HTTP/1.")).
    + destruct (log_read_spec log history response RESPONSE_BYTES Hlog Hlk) as (r & -> & Hzr & Hlt & _); [by unfold RESPONSE_BYTES | done |].
      cbn [mbind option_bind]. rewrite ldn_eq; [cbn [mbind option_bind] | lia | apply zlen_nonneg | lia].
      match goal with |- context [reply ?h ?b d2] => destruct (reply_ok image upgrade incoming h b d2) as (d3 & -> & Hd3 & _) end. by apply Hkeep.
    + destruct (starts_with text (chars "GET / HTTP/1.")).
      * match goal with |- context [reply ?h ?b d2] => destruct (reply_ok image upgrade incoming h b d2) as (d3 & -> & Hd3 & _) end. by apply Hkeep.
      * match goal with |- context [reply ?h ?b d2] => destruct (reply_ok image upgrade incoming h b d2) as (d3 & -> & Hd3 & _) end. by apply Hkeep.
Qed.
