(* ===== verification/HalFile.v ===== *)
(** Files on Linux: [hal/linux/hal_file_linux.c], [include/eaf/eaf_file.h], which give
    the sources of [Wav] their reader.  The system calls are the parameter [W]. *)

From S2P Require Import Prelude Types Bytes Wav.

Record eaf_file_t := EafFile { descriptor : Z; file_opened : bool }.

(** Results as the calls return them, -1 with an [errno] on failure.  [file_stat] is
    [fstat]'s result, whether the file is regular, and its size. *)
Class FileCalls (W : Type) := {
  file_open : W -> W * Z;                               (* read only, of the path *)
  file_stat : Z -> W -> W * (Z * bool * Z);
  file_close : Z -> W -> W;
  file_pread : Z -> Z -> Z -> W -> W * (list Z * Z * Z);    (* fd, bytes, offset -> data, count, errno *)
  FILE_EINTR : Z
}.

Section file.
Context {W : Type} `{!FileCalls W}.
Implicit Types (w : W) (f : ptr eaf_file_t) (dst : list Z).

(** The loop that reads [bytes - done] bytes at [dst + done]. *)
Fixpoint pread_loop (fuel : nat) (fd offset bytes done : Z) dst w : ub (list Z * W * Z) :=
  if decide (done < bytes) then
    match fuel with
    | O => None
    | S fuel' =>
        let '(w, (data, got, errno)) := file_pread fd (u64 (bytes - done)) (u64 (offset + done)) w in
        if decide (got < 0 /\ errno = FILE_EINTR) then pread_loop fuel' fd offset bytes done dst w
        else if decide (got <= 0) then Some (dst, w, EAF_IO)
        else dst ← stn dst done data; pread_loop fuel' fd offset bytes (u64 (done + got)) dst w
    end
  else Some (dst, w, EAF_OK).

(** [dst] is what the caller's pointer points to. *)
Definition file_read_at (fuel : nat) f (offset : Z) (dst : ptr (list Z)) (bytes : Z) w : ub (ptr (list Z) * W * Z) :=
  match f, dst with
  | Some x, Some l =>
      if negb (file_opened x) || bool_decide (INT64_MAX < offset) || bool_decide (u64 (INT64_MAX - offset) < bytes)
      then Some (dst, w, EAF_INVALID)
      else '(l, w, rc) ← pread_loop fuel (descriptor x) offset bytes 0 l w; Some (Some l, w, rc)
  | _, _ => Some (dst, w, EAF_INVALID)
  end.

(** The reader is returned as its file and its size; [has_reader], [has_path] say
    whether the pointers are not NULL. *)
Definition hal_file_open f (has_reader has_path : bool) w : ptr eaf_file_t * ptr (eaf_file_t * Z) * W * Z :=
  match f with
  | Some x =>
      if file_opened x || negb has_reader || negb has_path then (f, None, w, EAF_INVALID)
      else
        let '(w, fd) := file_open w in
        if decide (fd < 0) then (f, None, w, EAF_IO)
        else
          let '(w, (rc, regular, size)) := file_stat fd w in
          if negb (bool_decide (rc = 0)) || negb regular || bool_decide (size < 0)
          then (f, None, file_close fd w, EAF_INVALID)
          else (Some (EafFile fd true), Some (EafFile fd true, u64 size), w, EAF_OK)
  | None => (f, None, w, EAF_INVALID)
  end.

Definition hal_file_close f w : ptr eaf_file_t * W :=
  match f with
  | Some x => if file_opened x then (Some (EafFile (descriptor x) false), file_close (descriptor x) w) else (f, w)
  | None => (f, w)
  end.
End file.

(** ** What POSIX documents

    [content w fd] is the file open at [fd], [descriptors w] the open ones, [signals w] a
    bound on the interruptions still to come.  A read stores what it counts. *)
Class FileLaws (W : Type) `{!FileCalls W} (content : W -> Z -> option (list Z)) (descriptors : W -> list Z)
    (signals : W -> nat) := {
  pread_law fd n o w file : content w fd = Some file -> 0 < n -> 0 <= o ->
    let '(w', (data, got, errno)) := file_pread fd n o w in
    content w' fd = Some file /\ descriptors w' = descriptors w /\ got <= n /\
    (0 < got -> o + got <= zlen file /\ data = slice file o got) /\
    (if decide (got < 0 /\ errno = FILE_EINTR) then (signals w' < signals w)%nat else (signals w' <= signals w)%nat);
  open_law w : let '(w', fd) := file_open w in
    if decide (fd < 0) then descriptors w' = descriptors w
    else descriptors w' = fd :: descriptors w /\ (fd ∉ descriptors w) /\ is_Some (content w' fd);
  stat_law fd w file : content w fd = Some file ->
    let '(w', (rc, regular, size)) := file_stat fd w in
    content w' fd = Some file /\ descriptors w' = descriptors w /\ (rc = 0 -> regular = true -> size = zlen file);
  close_law fd w : descriptors (file_close fd w) = filter (fun x => x <> fd) (descriptors w);
  content_size fd w file : content w fd = Some file -> zlen file <= INT64_MAX
}.

Section reading.
Context {W : Type} `{!FileCalls W} (content : W -> Z -> option (list Z)) (descriptors : W -> list Z) (signals : W -> nat)
  `{!FileLaws W content descriptors signals}.
Implicit Types (w : W) (file dst : list Z).

(** The device has no errors: inside the file a read is only ever interrupted. *)
Definition reliable (fd : Z) : Prop := forall n o w file,
  content w fd = Some file -> 0 < n -> 0 <= o -> o + n <= zlen file ->
  let '(_, (_, got, errno)) := file_pread fd n o w in 0 < got \/ (got < 0 /\ errno = FILE_EINTR).

Lemma pread_loop_spec fuel fd file offset bytes done_ d0 w :
  content w fd = Some file -> 0 <= offset -> 0 <= done_ <= bytes -> offset + bytes <= INT64_MAX -> bytes <= zlen d0 ->
  (0 < done_ -> offset + done_ <= zlen file) -> (signals w + Z.to_nat (bytes - done_) <= fuel)%nat ->
  exists dst w' rc, pread_loop fuel fd offset bytes done_ (splice d0 0 (slice file offset done_)) w = Some (dst, w', rc) /\
    content w' fd = Some file /\ descriptors w' = descriptors w /\
    ((rc = EAF_OK /\ dst = splice d0 0 (slice file offset bytes) /\ (0 < bytes -> offset + bytes <= zlen file)) \/
     (rc = EAF_IO /\ zlen dst = zlen d0 /\ ~ (reliable fd /\ offset + bytes <= zlen file))).
Proof.
  intros Hc Ho Hd Hb Hz Hin. unfold INT64_MAX in Hb.
  assert (Hl : forall k, 0 <= k -> (0 < k -> offset + k <= zlen file) -> zlen (slice file offset k) = k).
  { intros k Hk H. destruct (decide (k = 0)) as [->|]; [done |]. apply zlen_slice; lia. }
  revert done_ w Hc Hd Hin. induction fuel as [|fuel IH]; intros k w Hc Hd Hin Hf; cbn [pread_loop].
  all: destruct (decide (k < bytes)) as [Hlt|Hge]; [try lia | assert (k = bytes) as -> by lia; do 3 eexists; split; [done |];
    split; [done |]; split; [done |]; by left].
  rewrite !u64_small by (unfold is_u64; lia). pose proof (pread_law fd (bytes - k) (offset + k) w file Hc ltac:(lia) ltac:(lia)) as Hr.
  assert (Herr : reliable fd -> offset + bytes <= zlen file ->
    let '(_, (_, got, errno)) := file_pread fd (bytes - k) (offset + k) w in 0 < got \/ (got < 0 /\ errno = FILE_EINTR)).
  { intros H He. apply (H _ _ _ file); [done | lia | lia | lia]. }
  destruct (file_pread fd (bytes - k) (offset + k) w) as [w1 [[data got] errno]]. destruct Hr as (Hc1 & Hds & Hn & Hg & Hs).
  destruct (decide (got < 0 /\ errno = FILE_EINTR)) as [Hi|Hi].
  { destruct (IH k w1 Hc1 Hd Hin) as (dst & w2 & rc & -> & ? & ? & ?); [lia |]. do 3 eexists. split; [done |]. split; [done |].
    split; [congruence | done]. }
  destruct (decide (got <= 0)) as [H0|H0].
  { do 3 eexists. split; [done |]. split; [done |]. split; [done |]. right. split; [done |].
    split; [apply zlen_splice; rewrite ?Hl; lia |]. intros [Hrel He]. destruct (Herr Hrel He); lia. }
  destruct Hg as [Hg ->]; [lia |]. rewrite stn_eq; [| lia | rewrite zlen_splice, zlen_slice by (rewrite ?Hl; lia); lia].
  cbn [mbind option_bind]. rewrite u64_small by (unfold is_u64; lia).
  assert (E : splice (splice d0 0 (slice file offset k)) k (slice file (offset + k) got) = splice d0 0 (slice file offset (k + got))).
  { rewrite slice_add by lia. rewrite <- (splice_app d0 _ _ 0) by (rewrite ?Hl, ?zlen_slice; lia). by rewrite Hl, Z.add_0_l by lia. }
  rewrite E. destruct (IH (k + got) w1 Hc1) as (dst & w2 & rc & -> & ? & ? & ?); [lia | lia | lia |].
  do 3 eexists. split; [done |]. split; [done |]. split; [congruence | done].
Qed.

(** A read returns; its result is [EAF_OK] only with the file's bytes, all of them, in
    the destination, and with a reliable device every read inside the file succeeds. *)
Theorem file_read_exact fuel fd file offset dst w :
  content w fd = Some file -> 0 <= offset < 18446744073709551616 -> 0 < zlen dst < 18446744073709551616 ->
  (signals w + length dst <= fuel)%nat ->
  exists dst' w' rc, file_read_at fuel (Some (EafFile fd true)) offset (Some dst) (zlen dst) w = Some (Some dst', w', rc) /\
    content w' fd = Some file /\ descriptors w' = descriptors w /\
    (rc = EAF_OK -> dst' = slice file offset (zlen dst) /\ offset + zlen dst <= zlen file) /\
    (rc <> EAF_OK -> ~ (reliable fd /\ offset + zlen dst <= zlen file)).
Proof.
  intros Hc Ho Hz Hf. pose proof (content_size fd w file Hc) as Hsz. unfold INT64_MAX in Hsz. unfold file_read_at. cbn [file_opened descriptor negb orb].
  destruct (bool_decide (INT64_MAX < offset)) eqn:E1; [apply bool_decide_eq_true_1 in E1; unfold INT64_MAX in E1|
    apply bool_decide_eq_false_1 in E1; unfold INT64_MAX in E1].
  { exists dst, w, EAF_INVALID. do 3 (split; [done |]). split; [done | lia]. }
  rewrite u64_small by (unfold is_u64, INT64_MAX; lia). cbn [orb].
  destruct (bool_decide (INT64_MAX - offset < zlen dst)) eqn:E2; [apply bool_decide_eq_true_1 in E2; unfold INT64_MAX in E2|
    apply bool_decide_eq_false_1 in E2; unfold INT64_MAX in E2].
  { exists dst, w, EAF_INVALID. do 3 (split; [done |]). split; [done | lia]. }
  destruct (pread_loop_spec fuel fd file offset (zlen dst) 0 dst w Hc) as (d & w1 & rc & Hrun & Hc1 & Hd1 & Hres);
    [lia | lia | unfold INT64_MAX; lia | lia | lia | unfold zlen in *; lia |].
  rewrite slice_nil_n, splice_nil in Hrun. rewrite Hrun. cbn [mbind option_bind]. exists d, w1, rc. do 3 (split; [done |]).
  destruct Hres as [(-> & -> & Hin)|(-> & _ & Hno)]; [| by split].
  split; [| done]. intros _. split; [| lia]. assert (Hl : zlen (slice file offset (zlen dst)) = zlen dst) by (apply zlen_slice; lia).
  apply list_eq. intros i. destruct (decide (Z.of_nat i < zlen dst)).
  - rewrite lookup_splice by lia. rewrite decide_True by lia. f_equal. lia.
  - rewrite !lookup_ge_None_2; [done | unfold zlen in *; lia |]. pose proof (zlen_splice dst 0 (slice file offset (zlen dst))). unfold zlen in *. lia.
Qed.
End reading.

(** ** The reader of a source

    While the file stays open the reader's context is a world in which the descriptor
    still names the file. *)
Section source.
Context {W : Type} `{!FileCalls W} (content : W -> Z -> option (list Z)) (descriptors : W -> list Z) (signals : W -> nat)
  `{!FileLaws W content descriptors signals} (fd : Z) (file : list Z).

Definition open_world : Type := { w : W | content w fd = Some file }.

Definition reader_call (x : open_world) (offset : Z) (dst : list Z) : open_world * list Z * Z :=
  match file_read_at (signals (`x) + length dst) (Some (EafFile fd true)) offset (Some dst) (zlen dst) (`x) with
  | Some (Some l, w, rc) =>
      match decide (content w fd = Some file) with left H => (w ↾ H, l, rc) | right _ => (x, dst, EAF_IO) end
  | _ => (x, dst, EAF_IO)
  end.

Definition file_reader (x : open_world) : eaf_reader_t open_world := Reader (Some reader_call) x (zlen file).

(** On a reliable device the reader of an open file is the exact one the sources are
    proved against. *)
Theorem file_reader_exact (x : open_world) :
  reliable content fd -> reads_exactly file (file_reader x) /\ reader_size (file_reader x) = zlen file.
Proof.
  intros Hrel. split; [| done]. exists reader_call. split; [done |]. intros [w Hc] o old Ho He. unfold reader_call. cbn [proj1_sig].
  pose proof (content_size fd w file Hc) as Hsz. unfold INT64_MAX in Hsz.
  destruct (decide (zlen old = 0)) as [H0|H0].
  { apply zlen_0_nil in H0 as ->. change (zlen (@nil Z)) with 0 in *.
    assert (E : file_read_at (signals w + length (@nil Z)) (Some (EafFile fd true)) o (Some []) 0 w = Some (Some [], w, EAF_OK)).
    { unfold file_read_at. cbn [file_opened descriptor negb orb]. rewrite bool_decide_eq_false_2 by (unfold INT64_MAX; lia).
      rewrite bool_decide_eq_false_2 by (rewrite u64_small by (unfold is_u64, INT64_MAX; lia); unfold INT64_MAX; lia).
      cbn [orb]. by destruct (signals w + length (@nil Z))%nat. }
    rewrite E. destruct (decide (content w fd = Some file)) as [H1|]; [by exists (w ↾ H1) | done]. }
  pose proof (zlen_nonneg old).
  destruct (file_read_exact content descriptors signals (signals w + length old) fd file o old w Hc)
    as (d & w1 & rc & -> & Hc1 & _ & Hok & Hbad); [unfold zlen in *; lia | unfold zlen in *; lia | lia |].
  destruct (decide (content w1 fd = Some file)) as [H1|]; [| done]. exists (w1 ↾ H1).
  destruct (decide (rc = EAF_OK)) as [->|Hne]; [by destruct (Hok eq_refl) as [-> _] | by destruct (Hbad Hne)].
Qed.
End source.

(** ** Descriptors *)

Inductive file_op := FileOpen (has_reader has_path : bool) | FileRead (offset : Z) (dst : list Z) | FileClose.

Section sessions.
Context {W : Type} `{!FileCalls W} (content : W -> Z -> option (list Z)) (descriptors : W -> list Z) (signals : W -> nat)
  `{!FileLaws W content descriptors signals}.

Definition file_exec (op : file_op) (x : eaf_file_t) (w : W) : ub (eaf_file_t * W) :=
  match op with
  | FileOpen r p => let '(f, _, w, _) := hal_file_open (Some x) r p w in x ← f; Some (x, w)
  | FileRead o dst =>
      '(_, w, _) ← file_read_at (signals w + length dst) (Some x) o (Some dst) (zlen dst) w; Some (x, w)
  | FileClose => let '(f, w) := hal_file_close (Some x) w in x ← f; Some (x, w)
  end.
Fixpoint file_run (ops : list file_op) (x : eaf_file_t) (w : W) : ub (eaf_file_t * W) :=
  match ops with [] => Some (x, w) | op :: ops => '(x, w) ← file_exec op x w; file_run ops x w end.

Definition file_op_ok (op : file_op) : Prop :=
  match op with FileRead o dst => 0 <= o < 18446744073709551616 /\ 0 < zlen dst < 18446744073709551616 | _ => True end.

(** The file holds one descriptor, which was not open before, exactly while it is open. *)
Definition file_owns (others : list Z) (x : eaf_file_t) (w : W) : Prop :=
  if file_opened x
  then descriptors w = descriptor x :: others /\ (descriptor x ∉ others) /\ is_Some (content w (descriptor x))
  else descriptors w = others.

Lemma filter_others (fd : Z) l : fd ∉ l -> filter (fun x => x <> fd) (fd :: l) = l.
Proof.
  intros Hn. rewrite filter_cons_False by (intros H; by apply H). induction l as [|a l IH]; [done |].
  apply not_elem_of_cons in Hn as [Ha Hn]. rewrite filter_cons_True by done. by rewrite IH.
Qed.

Lemma file_open_owns others x w r p :
  file_owns others x w ->
  exists x' rd w' rc, hal_file_open (Some x) r p w = (Some x', rd, w', rc) /\ file_owns others x' w' /\
    (rc = EAF_OK -> file_opened x' = true /\ exists file, content w' (descriptor x') = Some file /\ rd = Some (x', zlen file)) /\
    (rc <> EAF_OK -> x' = x /\ rd = None).
Proof.
  intros Hown. unfold hal_file_open. destruct (file_opened x || negb r || negb p) eqn:E; [by do 4 eexists |].
  assert (Hx : file_opened x = false) by (by destruct (file_opened x)). unfold file_owns in Hown. rewrite Hx in Hown.
  pose proof (open_law w) as Ho. destruct (file_open w) as [w1 fd]. destruct (decide (fd < 0)) as [Hn|Hn].
  { do 4 eexists. split; [done |]. unfold file_owns. rewrite Hx. split; [congruence | done]. }
  destruct Ho as (Hd & Hf & file & Hc). pose proof (stat_law fd w1 file Hc) as Hs.
  destruct (file_stat fd w1) as [w2 [[rc regular] size]]. destruct Hs as (Hc2 & Hd2 & Hz).
  destruct (bool_decide (rc = 0)) eqn:E1, regular, (bool_decide (size < 0)) eqn:E2; cbn [negb orb];
    (* every refusal closes the descriptor *)
    try (do 4 eexists; split; [done |]; unfold file_owns; rewrite Hx; split; [rewrite close_law, Hd2, Hd, filter_others by done; congruence | done]).
  apply bool_decide_eq_true_1 in E1. specialize (Hz E1 eq_refl) as ->. pose proof (content_size fd w2 file Hc2).
  rewrite u64_small by (unfold is_u64, INT64_MAX in *; pose proof (zlen_nonneg file); lia).
  do 4 eexists. split; [done |]. unfold file_owns. cbn [file_opened descriptor].
  split; [rewrite Hd2, Hd, Hown; rewrite Hown in Hf; eauto |]. split; [| done]. intros _. eauto.
Qed.

Lemma file_close_owns others x w :
  file_owns others x w -> exists x' w', hal_file_close (Some x) w = (Some x', w') /\ file_opened x' = false /\ file_owns others x' w'.
Proof.
  intros Hown. unfold hal_file_close. destruct (file_opened x) eqn:Hx; [| by exists x, w].
  unfold file_owns in Hown. rewrite Hx in Hown. destruct Hown as (Hd & Hn & _). do 2 eexists. split; [done |]. split; [done |].
  unfold file_owns. cbn [file_opened]. by rewrite close_law, Hd, filter_others.
Qed.

Lemma file_exec_owns others op x w :
  file_owns others x w -> file_op_ok op -> exists x' w', file_exec op x w = Some (x', w') /\ file_owns others x' w'.
Proof.
  intros Hown Hop. destruct op as [r p|o dst|]; cbn [file_exec].
  - destruct (file_open_owns others x w r p Hown) as (x' & ? & w' & ? & -> & Ho & _). by exists x', w'.
  - destruct Hop as [Ho Hz]. destruct x as [fd []].
    + destruct Hown as (Hd & Hn & file & Hc). cbn [descriptor] in *.
      destruct (file_read_exact content descriptors signals (signals w + length dst) fd file o dst w Hc Ho Hz)
        as (d & w1 & rc & -> & Hc1 & Hd1 & _); [lia |].
      do 2 eexists. split; [done |]. split; [by rewrite Hd1 |]. split; [done |]. by exists file.
    + by exists (EafFile fd false), w.
  - destruct (file_close_owns others x w Hown) as (x' & w' & -> & _ & Ho). by exists x', w'.
Qed.

(** For every sequence of opens, reads and closes of one file, whatever the system calls
    answer, every call returns and exactly the file's descriptor is open besides those of
    others; a refused open leaves none. *)
Theorem file_keeps_descriptors others ops x w :
  file_owns others x w -> Forall file_op_ok ops -> exists x' w', file_run ops x w = Some (x', w') /\ file_owns others x' w'.
Proof.
  intros Hown Hops. revert x w Hown. induction Hops as [|op ops Hop _ IH]; intros x w Hown; [by exists x, w |].
  destruct (file_exec_owns others op x w Hown Hop) as (x1 & w1 & H1 & Hown1). cbn [file_run]. rewrite H1. by apply IH.
Qed.
End sessions.

(** ** A concrete system *)

(** One file, which can be opened once; reads are interrupted a few times and then
    return two bytes at most. *)
Record demo_files := DemoFiles { left_signals : nat; open_list : list Z }.
Definition demo_data : list Z := [1; 2; 3; 4; 5].
Definition demo_content (w : demo_files) (fd : Z) : option (list Z) := if decide (fd ∈ open_list w) then Some demo_data else None.
Definition demo_pread (fd n o : Z) (w : demo_files) : demo_files * (list Z * Z * Z) :=
  match left_signals w with
  | S k => (DemoFiles k (open_list w), ([], -1, 4))
  | O => let got := Z.max 0 (Z.min (Z.min n 2) (zlen demo_data - o)) in (w, (slice demo_data o got, got, 0))
  end.
#[export] Instance demo_file_calls : FileCalls demo_files := {|
  file_open w := if decide (5 ∈ open_list w) then (w, -1) else (DemoFiles (left_signals w) (5 :: open_list w), 5);
  file_stat fd w := (w, (0, true, zlen demo_data));
  file_close fd w := DemoFiles (left_signals w) (filter (fun x => x <> fd) (open_list w));
  file_pread := demo_pread;
  FILE_EINTR := 4
|}.

#[export] Instance demo_file_laws : FileLaws demo_files demo_content open_list left_signals.
Proof.
  split.
  - intros fd n o [k l] file Hc Hn Ho. cbn [file_pread demo_file_calls]. unfold demo_pread, demo_content in *. cbn [left_signals open_list] in *.
    destruct (decide (fd ∈ l)); [| done]. injection Hc as <-. destruct k as [|k]; cbn [left_signals open_list].
    + rewrite decide_True by done. split; [done |]. split; [done |]. split; [lia |]. split; [intros; split; [lia | done] |]. case_decide; lia.
    + rewrite decide_True by done. split; [done |]. split; [done |]. split; [lia |]. split; [lia |]. rewrite decide_True by done. lia.
  - intros [k l]. cbn. destruct (decide (5 ∈ l)); cbn; [done |]. split; [done |]. split; [done |].
    unfold demo_content. cbn. rewrite decide_True by set_solver. by eexists.
  - intros fd w file Hc. cbn. split; [done |]. split; [done |]. intros _ _. unfold demo_content in Hc.
    destruct (decide _); [by injection Hc as <- | done].
  - done.
  - intros fd w file Hc. unfold demo_content in Hc. destruct (decide _); [injection Hc as <-; by vm_compute | done].
Qed.

Lemma demo_reliable : reliable demo_content 5.
Proof.
  intros n o [k l] file Hc Hn Ho He. unfold demo_content in Hc. cbn [open_list] in Hc. destruct (decide _); [| done]. injection Hc as <-.
  cbn [file_pread demo_file_calls]. unfold demo_pread. cbn [left_signals]. destruct k; [left; lia | by right].
Qed.

Lemma file_read_exact_witness :
  exists w', file_read_at 6 (Some (EafFile 5 true)) 1 (Some [0; 0; 0]) 3 (DemoFiles 2 [5]) = Some (Some [2; 3; 4], w', EAF_OK).
Proof.
  destruct (file_read_exact demo_content open_list left_signals 6 5 demo_data 1 [0; 0; 0] (DemoFiles 2 [5]))
    as (d & w' & rc & Hrun & _ & _ & Hok & Hbad); [by vm_compute | done | by vm_compute | by (cbn; lia) |].
  exists w'. change (zlen [0; 0; 0]) with 3 in *. rewrite Hrun. destruct (decide (rc = EAF_OK)) as [->|Hne].
  - by destruct (Hok eq_refl) as [-> _].
  - exfalso. apply (Hbad Hne). split; [exact demo_reliable | by vm_compute].
Defined.

Lemma file_keeps_descriptors_witness :
  exists x w', file_run left_signals
      [FileOpen true true; FileRead 0 [0; 0]; FileOpen true true; FileClose] (EafFile 0 false) (DemoFiles 1 []) = Some (x, w') /\
    file_owns demo_content open_list [] x w'.
Proof.
  apply (file_keeps_descriptors demo_content open_list left_signals); [done |].
  repeat constructor; done.
Defined.
