(* ===== verification/Amp.v ===== *)
(** The TAS5805M amplifier of the boards: [platform/esp32_common/tas5805m.c], its Zephyr
    binding [tas5805m_zephyr.c] and its ESP-IDF binding
    [platform/esp_idf_bt/components/main/amp.c].  The buses, the pins and the delays are the
    parameter [D]; what is only read for a line of the log is left out. *)

From S2P Require Import Prelude Types Bytes.

(** ** The portable core *)

Record tas5805m_io_t (D : Type) := Tas5805mIo {
  io_write : option (Z -> list Z -> D -> ub (D * Z));
  io_fault_asserted : option (D -> D * bool)
}.
#[global] Arguments Tas5805mIo {D}.
#[global] Arguments io_write {D}.
#[global] Arguments io_fault_asserted {D}.

Section core.
Context {D : Type} (hal_sleep_ms : Z -> D -> D).
Implicit Types (io : tas5805m_io_t D) (d : D).

Definition write_u8 io (reg value : Z) d : ub (D * Z) := f ← io_write io; f reg [value] d.

Definition select_book_page io (book page : Z) d : ub D :=
  '(d, _) ← write_u8 io 0 page d;
  '(d, _) ← write_u8 io 127 book d;
  '(d, _) ← write_u8 io 0 page d;
  Some d.

(** [present] is the file's variable, before and after. *)
Definition tas5805m_play (io : ptr (tas5805m_io_t D)) (present : bool) d : ub (D * Z) :=
  if negb present then Some (d, EAF_UNSUPPORTED)
  else
    match io with
    | Some x =>
        if bool_decide (io_write x = None) then Some (d, EAF_INVALID)
        else
          d ← select_book_page x 0 0 d;
          '(d, rc) ← write_u8 x 3 3 d;
          Some (d, if decide (rc <> 0) then EAF_IO else EAF_OK)
    | None => Some (d, EAF_INVALID)
    end.

Definition volume_0db : list Z := [0; 128; 0; 0].

Definition tas5805m_bringup (io : ptr (tas5805m_io_t D)) (present : bool) d : ub (bool * D * Z) :=
  match io with
  | None => Some (present, d, EAF_INVALID)
  | Some x =>
      if bool_decide (io_write x = None) then Some (present, d, EAF_INVALID)
      else
        d ← select_book_page x 0 0 d;
        '(d, rc) ← write_u8 x 2 0 d;
        if decide (rc <> 0) then Some (false, d, EAF_IO)
        else
          '(d, _) ← write_u8 x 51 3 d;
          '(d, _) ← write_u8 x 83 96 d;
          '(d, _) ← write_u8 x 97 11 d;
          d ← select_book_page x 140 42 d;
          f ← io_write x;
          '(d, _) ← f 36 volume_0db d;
          d ← select_book_page x 0 0 d;
          '(d, _) ← write_u8 x 3 2 d;
          let d := hal_sleep_ms 5 d in
          '(d, rc) ← tas5805m_play (Some x) true d;
          Some (true, d, rc)
  end.

Definition tas5805m_present (present : bool) : bool := present.

Definition tas5805m_fault (io : ptr (tas5805m_io_t D)) (present : bool) d : D * bool :=
  match io with
  | Some x =>
      if negb present then (d, false)
      else match io_fault_asserted x with Some f => f d | None => (d, false) end
  | None => (d, false)
  end.
End core.

(** A register write of either board: register and data in one buffer of eight bytes. *)
Definition bus_write {D} (transfer : list Z -> D -> D * Z) (reg : Z) (data : list Z) (d : D) : ub (D * Z) :=
  if decide (8 < zlen data + 1) then Some (d, -1)
  else
    buffer ← st (replicate 8 0) 0 reg;
    buffer ← memcpy buffer 1 data 0 (zlen data);
    message ← ldn buffer 0 (zlen data + 1);
    Some (transfer message d).

(** ** Zephyr *)

Definition TAS5805M_ADDR_FIRST : Z := 44.
Definition TAS5805M_ADDR_LAST : Z := 47.
Definition GPIO_SPLIT : Z := 32.

Inductive gpio_controller := GpioLow | GpioHigh.

Class ZephyrAmp (D : Type) := {
  z_i2c_ready : D -> bool;
  z_gpio_ready : gpio_controller -> D -> bool;
  gpio_pin_configure : gpio_controller -> Z -> bool -> D -> D * Z;      (* true: output, active *)
  gpio_pin_get : gpio_controller -> Z -> D -> D * Z;
  i2c_write : list Z -> Z -> D -> D * Z;                                (* message, address *)
  i2c_write_read : Z -> list Z -> D -> D * Z;                           (* address, message *)
  k_sleep_ms : Z -> D -> D;
  Z_AMP_PWDN_GPIO : Z;
  Z_AMP_FAULT_GPIO : Z
}.

Section zephyr.
Context {D : Type} `{!ZephyrAmp D}.
Implicit Types (d : D).

Definition amp_gpio_dev (gpio : Z) : gpio_controller := if decide (gpio < GPIO_SPLIT) then GpioLow else GpioHigh.
Definition amp_gpio_pin (gpio : Z) : Z := u8 (if decide (gpio < GPIO_SPLIT) then gpio else gpio - GPIO_SPLIT).

Definition zephyr_write (amp_address reg : Z) (data : list Z) d : ub (D * Z) :=
  bus_write (fun message => i2c_write message amp_address) reg data d.

Definition zephyr_fault d : D * bool :=
  if negb (z_gpio_ready (amp_gpio_dev Z_AMP_FAULT_GPIO) d) then (d, false)
  else
    let '(d, level) := gpio_pin_get (amp_gpio_dev Z_AMP_FAULT_GPIO) (amp_gpio_pin Z_AMP_FAULT_GPIO) d in
    (d, bool_decide (level = 0)).

Definition board_io (amp_address : Z) : tas5805m_io_t D := Tas5805mIo (Some (zephyr_write amp_address)) (Some zephyr_fault).

(** One round of the bus scan; [address] is the loop's counter. *)
Definition probe (address : Z) (s : D * Z) : ub (D * Z) :=
  let '(d, amp_address) := s in
  let '(d, rc) := i2c_write_read address [0] d in
  Some (d, if decide (rc = 0 /\ TAS5805M_ADDR_FIRST <= address <= TAS5805M_ADDR_LAST /\ amp_address = 0)
           then address else amp_address).

(** [amp_address] is the file's variable, before and after. *)
Definition tas5805m_board_io (amp_address : Z) d : ub (Z * D * ptr (tas5805m_io_t D)) :=
  let pwdn_dev := amp_gpio_dev Z_AMP_PWDN_GPIO in
  let fault_dev := amp_gpio_dev Z_AMP_FAULT_GPIO in
  if negb (z_i2c_ready d) || negb (z_gpio_ready pwdn_dev d) || negb (z_gpio_ready fault_dev d)
  then Some (amp_address, d, None)
  else
    let '(d, rc) := gpio_pin_configure fault_dev (amp_gpio_pin Z_AMP_FAULT_GPIO) false d in
    let '(d, rc) := if decide (rc <> 0) then (d, rc)
                    else gpio_pin_configure pwdn_dev (amp_gpio_pin Z_AMP_PWDN_GPIO) true d in
    if decide (rc <> 0) then Some (amp_address, d, None)
    else
      let d := k_sleep_ms 10 d in
      '(d, found) ← for_from 8 (Z.to_nat (119 - 8 + 1)) probe (d, 0);
      Some (found, d, if decide (found = 0) then None else Some (board_io found)).
End zephyr.

(** ** ESP-IDF *)

Class EspAmp (D : Type) := {
  gpio_set_level : Z -> Z -> D -> D * Z;
  gpio_set_direction : Z -> bool -> D -> D * Z;                        (* true: output *)
  gpio_get_level : Z -> D -> D * Z;
  i2c_new_master_bus : D -> D * ptr Z * Z;                             (* the handle stored *)
  i2c_master_bus_add_device : ptr Z -> D -> D * ptr Z * Z;
  i2c_master_bus_rm_device : Z -> D -> D * Z;
  i2c_del_master_bus : Z -> D -> D * Z;
  i2c_master_transmit : ptr Z -> list Z -> D -> D * Z;
  amp_delay_ms : Z -> D -> D;                                          (* vTaskDelay(pdMS_TO_TICKS()) *)
  amp_sleep_ms : Z -> D -> D;                                          (* hal_sleep_ms *)
  E_AMP_PWDN_GPIO : Z;
  E_AMP_FAULT_GPIO : Z
}.

(** The variables of [amp.c] and [tas5805m.c]. *)
Record amp_state := AmpState { amp_bus : ptr Z; amp_dev : ptr Z; amp_present : bool }.

Section esp.
Context {D : Type} `{!EspAmp D}.
Implicit Types (s : amp_state) (d : D).

Definition amp_write (amp : ptr Z) (reg : Z) (data : list Z) d : ub (D * Z) :=
  bus_write (fun message d => let '(d, err) := i2c_master_transmit amp message d in (d, if decide (err = 0) then 0 else -1))
    reg data d.
Definition amp_fault_asserted d : D * bool :=
  let '(d, level) := gpio_get_level E_AMP_FAULT_GPIO d in (d, bool_decide (level = 0)).
Definition amp_io (amp : ptr Z) : tas5805m_io_t D := Tas5805mIo (Some (amp_write amp)) (Some amp_fault_asserted).

(** The code at [fail]. *)
Definition amp_fail s d : amp_state * D * Z :=
  let '(d, _) := gpio_set_level E_AMP_PWDN_GPIO 0 d in
  let d := match amp_dev s with Some h => (i2c_master_bus_rm_device h d).1 | None => d end in
  let d := match amp_bus s with Some h => (i2c_del_master_bus h d).1 | None => d end in
  (AmpState None None (amp_present s), d, EAF_IO).

(** The pins before the reset pulse: the first call that fails ends the chain. *)
Definition amp_pins d : D * Z :=
  let '(d, err) := gpio_set_level E_AMP_PWDN_GPIO 0 d in
  let '(d, err) := if decide (err = 0) then gpio_set_direction E_AMP_PWDN_GPIO true d else (d, err) in
  if decide (err = 0) then gpio_set_direction E_AMP_FAULT_GPIO false d else (d, err).

Definition stored (h old : ptr Z) : ptr Z := match h with Some x => Some x | None => old end.

Definition board_amp_start s d : ub (amp_state * D * Z) :=
  let '(d, err) := amp_pins d in
  if decide (err <> 0) then Some (amp_fail s d)
  else
    let '(d, err) := gpio_set_level E_AMP_PWDN_GPIO 1 (amp_delay_ms 10 d) in
    if decide (err <> 0) then Some (amp_fail s d)
    else
      let '(d, h, err) := i2c_new_master_bus (amp_delay_ms 10 d) in
      let s := AmpState (stored h (amp_bus s)) (amp_dev s) (amp_present s) in
      if decide (err <> 0) then Some (amp_fail s d)
      else
        let '(d, h, err) := i2c_master_bus_add_device (amp_bus s) d in
        let s := AmpState (amp_bus s) (stored h (amp_dev s)) (amp_present s) in
        if decide (err <> 0) then Some (amp_fail s d)
        else
          '(present, d, rc) ← tas5805m_bringup amp_sleep_ms (Some (amp_io (amp_dev s))) (amp_present s) d;
          let s := AmpState (amp_bus s) (amp_dev s) present in
          if decide (rc <> EAF_OK) then Some (amp_fail s d)
          else
            let '(d, _) := tas5805m_fault (Some (amp_io (amp_dev s))) present d in
            Some (s, d, EAF_OK).
End esp.

(** ** The register script *)

Section script.
Context {D : Type} (hal_sleep_ms : Z -> D -> D) (f : Z -> list Z -> D -> D * Z).
Implicit Types (d : D).

(** Writes whose results are not looked at. *)
Definition run_script (l : list (Z * list Z)) d : D := foldl (fun d x => (f x.1 x.2 d).1) d l.
Definition select_script (book page : Z) : list (Z * list Z) := [(0, [page]); (127, [book]); (0, [page])].
Definition setup_script : list (Z * list Z) :=
  [(51, [3]); (83, [96]); (97, [11])] ++ select_script 140 42 ++ [(36, volume_0db)] ++ select_script 0 0 ++ [(3, [2])].

(** The binding's write is [f], and always returns. *)
Definition writes_with (io : tas5805m_io_t D) : Prop :=
  exists g, io_write io = Some g /\ forall reg data d, g reg data d = Some (f reg data d).

Lemma write_u8_total io reg value d : writes_with io -> write_u8 io reg value d = Some (f reg [value] d).
Proof. intros (g & Hg & E). unfold write_u8. rewrite Hg. apply E. Qed.
Lemma select_script_eq io book page d :
  writes_with io -> select_book_page io book page d = Some (run_script (select_script book page) d).
Proof.
  intros Hw. unfold select_book_page, select_script, run_script. rewrite write_u8_total by done. cbn [mbind option_bind foldl fst snd].
  destruct (f 0 [page] d) as [d1 r1]. cbn [fst]. rewrite write_u8_total by done. cbn [mbind option_bind].
  destruct (f 127 [book] d1) as [d2 r2]. cbn [fst]. rewrite write_u8_total by done. cbn [mbind option_bind].
  by destruct (f 0 [page] d2) as [d3 r3].
Qed.
Lemma writes_with_not_null io : writes_with io -> bool_decide (io_write io = None) = false.
Proof. intros (g & Hg & _). rewrite Hg. by apply bool_decide_eq_false_2. Qed.

(** Play is one page selection and one write, whose result is the answer. *)
Lemma play_script io d :
  writes_with io ->
  let r := f 3 [3] (run_script (select_script 0 0) d) in
  tas5805m_play (Some io) true d = Some (r.1, if decide (r.2 <> 0) then EAF_IO else EAF_OK).
Proof.
  intros Hw. cbn zeta. unfold tas5805m_play. cbn [negb]. rewrite writes_with_not_null, select_script_eq by done.
  cbn [mbind option_bind]. rewrite write_u8_total by done. cbn [mbind option_bind]. by destruct (f 3 [3] _).
Qed.

(** For every answer of the bus, bring-up returns: with the amplifier absent it has
    probed it once and says so; otherwise it has written the whole script, waited, and
    asked for play. *)
Theorem bringup_script io present d :
  writes_with io ->
  let ack := f 2 [0] (run_script (select_script 0 0) d) in
  tas5805m_bringup hal_sleep_ms (Some io) present d =
    if decide (ack.2 <> 0) then Some (false, ack.1, EAF_IO)
    else
      let r := f 3 [3] (run_script (select_script 0 0) (hal_sleep_ms 5 (run_script setup_script ack.1))) in
      Some (true, r.1, if decide (r.2 <> 0) then EAF_IO else EAF_OK).
Proof.
  intros Hw. cbn zeta. unfold tas5805m_bringup. rewrite writes_with_not_null, select_script_eq by done.
  cbn [mbind option_bind]. rewrite write_u8_total by done. cbn [mbind option_bind]. destruct (f 2 [0] _) as [d1 rc]. cbn [fst snd].
  destruct (decide (rc <> 0)); [done |].
  do 3 (rewrite write_u8_total by done; cbn [mbind option_bind]; match goal with |- context [f ?a ?b ?c] => destruct (f a b c) eqn:?E end).
  rewrite select_script_eq by done. cbn [mbind option_bind]. pose proof Hw as (g & Hg & Hgf). rewrite Hg. cbn [mbind option_bind]. rewrite Hgf.
  cbn [mbind option_bind]. destruct (f 36 volume_0db _) eqn:E3. rewrite select_script_eq by done. cbn [mbind option_bind].
  rewrite write_u8_total by done. cbn [mbind option_bind]. destruct (f 3 [2] _) eqn:E4. rewrite play_script by done. cbn [mbind option_bind].
  unfold setup_script, run_script in *. rewrite !foldl_app. cbn [foldl fst snd] in *. rewrite E; cbn [fst]. rewrite E0; cbn [fst].
  rewrite E1; cbn [fst] in *. rewrite E3 in *; cbn [fst] in *. by rewrite E4.
Qed.

Lemma run_script_keeps (P : D -> Prop) l d : (forall reg data d, P d -> P (f reg data d).1) -> P d -> P (run_script l d).
Proof. intros Hf. unfold run_script. revert d. induction l as [|[r x] l IH]; intros d Hd; cbn; [done | by apply IH, Hf]. Qed.
End script.

(** A device as the comment at the head of [tas5805m.c] describes it: the book is
    selected on page zero only.  [tas_written] are the writes with their book and page. *)
Record tas_device := TasDevice { tas_book : Z; tas_page : Z; tas_written : list (Z * Z * Z * list Z) }.
Definition tas_write (reg : Z) (data : list Z) (d : tas_device) : tas_device * Z :=
  match data with
  | [x] =>
      if decide (reg = 0) then (TasDevice (tas_book d) x (tas_written d), 0)
      else if decide (reg = 127 /\ tas_page d = 0) then (TasDevice x (tas_page d) (tas_written d), 0)
      else (TasDevice (tas_book d) (tas_page d) (tas_written d ++ [(tas_book d, tas_page d, reg, data)]), 0)
  | _ => (TasDevice (tas_book d) (tas_page d) (tas_written d ++ [(tas_book d, tas_page d, reg, data)]), 0)
  end.

(** [select_book_page] goes to the new page before it changes the book: on such a device
    the volume is written to book 0, and book 140 is never selected. *)
Example volume_misses_book :
  exists d, tas5805m_bringup (fun _ d => d) (Some (Tas5805mIo (Some (fun reg data d => Some (tas_write reg data d))) None)) false (TasDevice 0 0 []) = Some (true, d, EAF_OK) /\
    (0, 42, 36, volume_0db) ∈ tas_written d /\ Forall (fun x => x.1.1.1 = 0) (tas_written d).
Proof. eexists. split; [by vm_compute |]. split; [apply (bool_decide_unpack _); by vm_compute | by repeat constructor]. Qed.

(** ** The buses *)

(** A write of at most seven bytes is sent as register and data; a longer one is refused. *)
Lemma bus_write_eq {D} (transfer : list Z -> D -> D * Z) reg data d :
  bus_write transfer reg data d = Some (if decide (7 < zlen data) then (d, -1) else transfer (reg :: data) d).
Proof.
  unfold bus_write. pose proof (zlen_nonneg data). destruct (decide (7 < zlen data)); decide_lia; [done |].
  rewrite st_eq by done. cbn [mbind option_bind].
  assert (H8 : zlen (<[Z.to_nat 0:=reg]> (replicate 8 0)) = 8) by done.
  rewrite memcpy_eq by lia. cbn [mbind option_bind]. rewrite slice_0_all.
  rewrite ldn_eq by (rewrite ?zlen_splice; lia). cbn [mbind option_bind]. do 2 f_equal.
  rewrite (slice_cons _ 0 _ reg); [| | lia].
  - f_equal. pose proof (slice_splice (<[Z.to_nat 0:=reg]> (replicate 8 0)) data 1 0 (zlen data)) as E.
    change (1 + 0) with 1 in E. rewrite slice_0_all in E. change (0 + 1) with 1. rewrite Z.add_simpl_r. apply E; lia.
  - rewrite ld_lookup by lia. rewrite lookup_splice by lia. by rewrite decide_False by lia.
Qed.

Lemma filter_out {A} (P : A -> Prop) `{forall x, Decision (P x)} l : (forall x, x ∈ l -> ~ P x) -> filter P l = [].
Proof.
  induction l as [|x l IH]; [done |]. intros Hn. rewrite filter_cons_False by (apply Hn; set_solver). apply IH. set_solver.
Qed.

Section scan.
Context {D : Type} `{!ZephyrAmp D} (acks : Z -> bool)
  (Hacks : forall a m d, (i2c_write_read a m d).2 = 0 <-> acks a = true).

Definition amp_at (n : Z) : Z := default 0 (head (filter (fun a => acks a = true /\ 44 <= a <= 47) (seqZ 8 n))).

Lemma scan_found d : exists d', for_from 8 (Z.to_nat 112) probe (d, 0) = Some (d', amp_at 112).
Proof.
  destruct (for_from_inv (fun i s => s.2 = amp_at (i - 8)) probe (Z.to_nat 112) 8 (d, 0)) as ([d' a] & E & Ha); [done | |].
  - intros j [d1 a] Hj Ha. cbn [snd] in Ha. unfold probe. pose proof (Hacks j [0] d1) as Hj0.
    destruct (i2c_write_read j [0] d1) as [d2 rc]. eexists. split; [done |]. cbn [snd] in *. unfold amp_at in *.
    replace (j + 1 - 8) with (j - 8 + 1) by lia. rewrite seqZ_app, list.filter_app by lia. replace (8 + (j - 8)) with j by lia.
    replace (seqZ j 1) with [j] by (unfold seqZ; cbn; f_equal; lia). subst a.
    set (l := filter _ (seqZ 8 (j - 8))). assert (Hl : Forall (fun a => a <> 0) l).
    { apply list.Forall_forall. intros a [[_ ?] _]%list_elem_of_filter. lia. }
    unfold TAS5805M_ADDR_FIRST, TAS5805M_ADDR_LAST. destruct l as [|a l]; cbn [head default app].
    + destruct (decide (acks j = true /\ 44 <= j <= 47)) as [[Hk Hr]|Hn].
      * rewrite filter_cons_True by done. rewrite decide_True by tauto. done.
      * rewrite filter_cons_False by done. rewrite decide_False by tauto. done.
    + apply list.Forall_cons in Hl as [Hne _]. by rewrite decide_False by tauto.
  - cbn [snd] in Ha. subst a. by exists d'.
Qed.

(** When the bus and the pins work, the board's amplifier is the first of its four
    addresses that answers, found by reading every address of the bus once; if none
    answers there is no amplifier. *)
Theorem board_io_exact addr d :
  z_i2c_ready d = true -> (forall c, z_gpio_ready c d = true) -> (forall c pin out e, (gpio_pin_configure c pin out e).2 = 0) ->
  exists found d' io, tas5805m_board_io addr d = Some (found, d', io) /\
    ((io = Some (board_io found) /\ 44 <= found <= 47 /\ acks found = true /\ forall a, 44 <= a < found -> acks a = false) \/
     (io = None /\ found = 0 /\ forall a, 44 <= a <= 47 -> acks a = false)).
Proof.
  intros Hi Hg Hc. unfold tas5805m_board_io. rewrite Hi, !Hg. cbn [negb orb].
  pose proof (Hc (amp_gpio_dev Z_AMP_FAULT_GPIO) (amp_gpio_pin Z_AMP_FAULT_GPIO) false d) as H1.
  destruct (gpio_pin_configure _ _ false d) as [d1 rc1]. cbn [snd] in H1. rewrite (decide_False (P := rc1 <> 0)) by tauto.
  pose proof (Hc (amp_gpio_dev Z_AMP_PWDN_GPIO) (amp_gpio_pin Z_AMP_PWDN_GPIO) true d1) as H2.
  destruct (gpio_pin_configure _ _ true d1) as [d2 rc2]. cbn [snd] in H2. rewrite (decide_False (P := rc2 <> 0)) by tauto.
  change (119 - 8 + 1) with 112. destruct (scan_found (k_sleep_ms 10 d2)) as [d3 ->]. cbn [mbind option_bind].
  do 3 eexists. split; [done |].
  assert (E : amp_at 112 = if acks 44 then 44 else if acks 45 then 45 else if acks 46 then 46 else if acks 47 then 47 else 0).
  { unfold amp_at. change (seqZ 8 112) with (seqZ 8 36 ++ [44; 45; 46; 47] ++ seqZ 48 72). rewrite !list.filter_app.
    rewrite (filter_out _ (seqZ 8 36)), (filter_out _ (seqZ 48 72)), app_nil_r.
    - rewrite !filter_cons, filter_nil. destruct (acks 44), (acks 45), (acks 46), (acks 47); done.
    - intros x Hx [_ ?]. apply elem_of_seqZ in Hx. lia.
    - intros x Hx [_ ?]. apply elem_of_seqZ in Hx. lia. }
  rewrite E. clear E.
  assert (Hall : forall x, 44 <= x <= 47 -> x = 44 \/ x = 45 \/ x = 46 \/ x = 47) by lia.
  destruct (acks 44) eqn:E4; [| destruct (acks 45) eqn:E5; [| destruct (acks 46) eqn:E6; [| destruct (acks 47) eqn:E7]]]; cbn.
  5: right; split; [done |]; split; [done |]; intros a [-> |[-> |[-> | ->]]]%Hall; done.
  all: left; split; [done |]; split; [lia |]; split; [done |]; intros a Ha;
    destruct (Hall a) as [-> |[-> |[-> | ->]]]; [lia |..]; try done; lia.
Qed.
End scan.

(** ** What the ESP-IDF board owns

    [buses d], [devices d] count the handles not given back; a handle is stored only on
    success, and a bus can be deleted once no device is on it. *)
Class EspAmpLaws (D : Type) `{!EspAmp D} (buses devices : D -> Z) := {
  law_set_level pin x d : let d' := (gpio_set_level pin x d).1 in buses d' = buses d /\ devices d' = devices d;
  law_set_direction pin out d : let d' := (gpio_set_direction pin out d).1 in buses d' = buses d /\ devices d' = devices d;
  law_get_level pin d : let d' := (gpio_get_level pin d).1 in buses d' = buses d /\ devices d' = devices d;
  law_transmit h m d : let d' := (i2c_master_transmit h m d).1 in buses d' = buses d /\ devices d' = devices d;
  law_delay n d : buses (amp_delay_ms n d) = buses d /\ devices (amp_delay_ms n d) = devices d;
  law_sleep n d : buses (amp_sleep_ms n d) = buses d /\ devices (amp_sleep_ms n d) = devices d;
  law_new_bus d : let '(d', h, err) := i2c_new_master_bus d in
    devices d' = devices d /\ (if decide (err = 0) then is_Some h /\ buses d' = buses d + 1 else h = None /\ buses d' = buses d);
  law_add_device b d : let '(d', h, err) := i2c_master_bus_add_device b d in
    buses d' = buses d /\ (if decide (err = 0) then is_Some h /\ devices d' = devices d + 1 else h = None /\ devices d' = devices d);
  law_rm_device h d : let d' := (i2c_master_bus_rm_device h d).1 in buses d' = buses d /\ devices d' = devices d - 1;
  law_del_bus h d : let d' := (i2c_del_master_bus h d).1 in
    devices d' = devices d /\ (devices d = 0 -> buses d' = buses d - 1)
}.

Section ownership.
Context {D : Type} `{!EspAmp D} (buses devices : D -> Z) `{!EspAmpLaws D buses devices}.
Implicit Types (s : amp_state) (d : D).

Definition holds (b x : Z) d : Prop := buses d = b /\ devices d = x.
Definition handle_count (h : ptr Z) : Z := match h with Some _ => 1 | None => 0 end.
(** The handles stored are the ones not given back. *)
Definition amp_owns s d : Prop := holds (handle_count (amp_bus s)) (handle_count (amp_dev s)) d.

Lemma level_holds b x pin v d : holds b x d -> holds b x (gpio_set_level pin v d).1.
Proof. unfold holds. pose proof (law_set_level pin v d). cbn zeta in *. intuition congruence. Qed.
Lemma pins_hold b x d : holds b x d -> holds b x (amp_pins d).1.
Proof.
  intros H. unfold amp_pins. pose proof (level_holds b x E_AMP_PWDN_GPIO 0 d H) as H1. destruct (gpio_set_level _ _ d) as [d1 e1]. cbn [fst] in H1.
  assert (Hd : forall pin out e, holds b x e -> holds b x (gpio_set_direction pin out e).1).
  { intros pin out e. unfold holds. pose proof (law_set_direction pin out e). cbn zeta in *. intuition congruence. }
  case_decide; [| by case_decide].
  pose proof (Hd E_AMP_PWDN_GPIO true d1 H1) as H2. destruct (gpio_set_direction _ true d1) as [d2 e2]. cbn [fst] in H2.
  case_decide; [by apply Hd | done].
Qed.
Lemma delay_holds b x n d : holds b x d -> holds b x (amp_delay_ms n d).
Proof. unfold holds. pose proof (law_delay n d). intuition congruence. Qed.

(** A failure gives everything back. *)
Lemma amp_fail_releases s d :
  amp_owns s d -> exists s' d', amp_fail s d = (s', d', EAF_IO) /\ amp_bus s' = None /\ amp_dev s' = None /\ amp_owns s' d'.
Proof.
  intros H. unfold amp_fail. pose proof (level_holds _ _ E_AMP_PWDN_GPIO 0 d H) as H1. destruct (gpio_set_level _ 0 d) as [d1 e1]. cbn [fst] in H1.
  do 2 eexists. split; [done |]. do 2 (split; [done |]). unfold amp_owns, holds in *. cbn [amp_bus amp_dev handle_count].
  destruct (amp_dev s) as [h|]; cbn [handle_count] in *.
  all: try (pose proof (law_rm_device h d1) as Hr; cbn zeta in Hr; destruct (i2c_master_bus_rm_device h d1) as [d2 e2]; cbn [fst] in * ).
  all: destruct (amp_bus s) as [g|]; cbn [handle_count] in *; [| lia].
  - pose proof (law_del_bus g d2). cbn zeta in *. lia.
  - pose proof (law_del_bus g d1). cbn zeta in *. lia.
Qed.

Definition amp_transfer (amp : ptr Z) (reg : Z) (data : list Z) d : D * Z :=
  if decide (7 < zlen data) then (d, -1)
  else let '(d, err) := i2c_master_transmit amp (reg :: data) d in (d, if decide (err = 0) then 0 else -1).
Lemma amp_io_writes amp : writes_with (amp_transfer amp) (amp_io amp).
Proof. eexists. split; [done |]. intros reg data d. unfold amp_write. by rewrite bus_write_eq. Qed.
Lemma transfer_holds b x amp reg data d : holds b x d -> holds b x (amp_transfer amp reg data d).1.
Proof.
  intros H. unfold amp_transfer. case_decide; [done |]. pose proof (law_transmit amp (reg :: data) d) as Hl. cbn zeta in Hl.
  destruct (i2c_master_transmit _ _ d) as [d1 e]. unfold holds in *. cbn [fst] in *. intuition congruence.
Qed.

Lemma bringup_holds b x amp present d :
  holds b x d -> exists p d' rc, tas5805m_bringup amp_sleep_ms (Some (amp_io amp)) present d = Some (p, d', rc) /\ holds b x d' /\
    (rc = EAF_OK -> p = true).
Proof.
  intros H. pose proof (bringup_script amp_sleep_ms (amp_transfer amp) (amp_io amp) present d (amp_io_writes amp)) as E. cbn zeta in E. rewrite E. clear E.
  assert (Hk : forall l e, holds b x e -> holds b x (run_script (amp_transfer amp) l e)).
  { intros l e. apply run_script_keeps. intros. by apply transfer_holds. }
  pose proof (transfer_holds b x amp 2 [0] _ (Hk (select_script 0 0) d H)) as Ha. destruct (decide (_.2 <> 0)); [by do 3 eexists |].
  do 3 eexists. split; [done |]. split; [| done]. apply transfer_holds, Hk.
  pose proof (Hk setup_script _ Ha) as Hs. unfold holds in *. pose proof (law_sleep 5 (run_script (amp_transfer amp) setup_script (amp_transfer amp 2 [0] (run_script (amp_transfer amp) (select_script 0 0) d)).1)).
  intuition congruence.
Qed.

(** Whatever the pins, the bus and the amplifier answer, the start returns; it succeeds with a
    bus and a device, or fails and has given back what it had taken. *)
Theorem amp_start_owns s d :
  amp_bus s = None -> amp_dev s = None -> amp_owns s d ->
  exists s' d' rc, board_amp_start s d = Some (s', d', rc) /\ amp_owns s' d' /\
    ((rc = EAF_OK /\ is_Some (amp_bus s') /\ is_Some (amp_dev s') /\ amp_present s' = true) \/
     (rc = EAF_IO /\ amp_bus s' = None /\ amp_dev s' = None)).
Proof.
  intros Hb Hd H. unfold board_amp_start.
  assert (Hfail : forall s1 d1, amp_owns s1 d1 -> exists s' d' rc, Some (amp_fail s1 d1) = Some (s', d', rc) /\ amp_owns s' d' /\
    ((rc = EAF_OK /\ is_Some (amp_bus s') /\ is_Some (amp_dev s') /\ amp_present s' = true) \/
     (rc = EAF_IO /\ amp_bus s' = None /\ amp_dev s' = None))).
  { intros s1 d1 (s' & d' & -> & E1 & E2 & H1)%amp_fail_releases. do 3 eexists. split; [done |]. split; [done | by right]. }
  pose proof (pins_hold _ _ d H) as H1. destruct (amp_pins d) as [d1 e1]. cbn [fst] in H1. case_decide; [by apply Hfail |].
  pose proof (level_holds _ _ E_AMP_PWDN_GPIO 1 _ (delay_holds _ _ 10 d1 H1)) as H2. destruct (gpio_set_level _ 1 _) as [d2 e2]. cbn [fst] in H2.
  case_decide; [by apply Hfail |]. apply (delay_holds _ _ 10) in H2. pose proof (law_new_bus (amp_delay_ms 10 d2)) as Hn.
  destruct (i2c_new_master_bus _) as [[d3 h] e3]. rewrite Hb, Hd in *. cbn [handle_count amp_bus amp_dev amp_present] in *.
  destruct (decide (e3 = 0)) as [->|Hne]; destruct Hn as (Hn1 & Hh & Hn2).
  2: { rewrite decide_True by done. apply Hfail. subst h. unfold amp_owns, holds in *. cbn in *. lia. }
  destruct Hh as [g ->]. cbn [stored]. rewrite decide_False by tauto. pose proof (law_add_device (Some g) d3) as Ha.
  destruct (i2c_master_bus_add_device _ d3) as [[d4 h] e4].
  destruct (decide (e4 = 0)) as [->|Hne]; destruct Ha as (Ha1 & Hh & Ha2).
  2: { rewrite decide_True by done. apply Hfail. subst h. unfold amp_owns, holds in *. cbn in *. lia. }
  destruct Hh as [g' ->]. cbn [stored]. rewrite decide_False by tauto. assert (H4 : holds 1 1 d4) by (unfold amp_owns, holds in *; cbn in *; lia).
  destruct (bringup_holds 1 1 (Some g') (amp_present s) d4 H4) as (p & d5 & rc & -> & H5 & Hp). cbn [mbind option_bind].
  case_decide as Hrc; [by apply Hfail |]. assert (rc = EAF_OK) as -> by (by destruct (decide (rc = EAF_OK))). rewrite (Hp eq_refl).
  unfold tas5805m_fault. cbn [negb io_fault_asserted amp_io]. unfold amp_fault_asserted.
  pose proof (law_get_level E_AMP_FAULT_GPIO d5) as Hl. cbn zeta in Hl. destruct (gpio_get_level _ d5) as [d6 v]. cbn [fst] in Hl.
  do 3 eexists. split; [done |]. split; [unfold amp_owns, holds in *; cbn; intuition congruence |]. left. by split_and!.
Qed.
End ownership.

(** ** A board whose amplifier does not answer *)

#[export] Instance demo_esp_amp : EspAmp (Z * Z) := {|
  gpio_set_level _ _ d := (d, 0);
  gpio_set_direction _ _ d := (d, 0);
  gpio_get_level _ d := (d, 1);
  i2c_new_master_bus d := ((d.1 + 1, d.2), Some 1, 0);
  i2c_master_bus_add_device _ d := ((d.1, d.2 + 1), Some 2, 0);
  i2c_master_bus_rm_device _ d := ((d.1, d.2 - 1), 0);
  i2c_del_master_bus _ d := ((d.1 - 1, d.2), 0);
  i2c_master_transmit _ m d := (d, if decide (m = [2; 0]) then 263 else 0);
  amp_delay_ms _ d := d;
  amp_sleep_ms _ d := d;
  E_AMP_PWDN_GPIO := 33;
  E_AMP_FAULT_GPIO := 34
|}.
#[export] Instance demo_esp_amp_laws : EspAmpLaws (Z * Z) fst snd.
Proof. split; intros; cbn; try done; by split_and!. Qed.

Lemma amp_start_owns_witness :
  exists s' d', board_amp_start (AmpState None None false) (0, 0) = Some (s', d', EAF_IO) /\ amp_owns fst snd s' d'.
Proof.
  destruct (amp_start_owns fst snd (AmpState None None false) (0, 0) eq_refl eq_refl (conj eq_refl eq_refl))
    as (s' & d' & rc & Hrun & Ho & Hres).
  exists s', d'. pose proof (f_equal (fmap snd) Hrun) as E. vm_compute in E. injection E as <-. by split.
Defined.
